(* ===== verification/_CoqProject ===== *)
-Q . S2P
Prelude.v
Rely.v
CMem.v
Spinlock.v
Riscv.v
Kalloc.v
Vm.v
VmAwake.v
Uvm.v
VmFree.v
VmKernel.v
Sleeplock.v
BlockLayer.v
Bio.v
Log.v
LogBio.v
Pipe.v
Printf.v
Console.v
Tx.v
Fs.v
FsBlocks.v
FsInode.v
FsFile.v
FsDir.v
FsSpace.v
FsGrow.v
FsTrunc.v
FsPath.v
FsLink.v
Mkfs.v
MkfsInv.v
MkfsSpec.v
FsDemo.v
FsSpaceDemo.v
Virtio.v
VirtioInv.v
Proc.v
ProcVm.v
Exec.v
ProcInv.v
ProcSpec.v
File.v
FileInv.v
SleepWake.v
Syscall.v
Sysfile.v
FsCreate.v
FsCreateDemo.v
FsUnlink.v
FsUnlinkDemo.v
Devices.v
Trap.v
TrapInv.v
TrapSpec.v
SysfileInv.v
SyscallDemo.v
TrapDevices.v
Boot.v
Grep.v
Ulib.v
Umalloc.v
UmallocInv.v
UmallocSpec.v
Sh.v
ShParse.v
ShRun.v
UserProgs.v
UserSpec.v
