(* ===== verification/Prelude.v ===== *)
(** * A verification library for the summer-osk kernel

    summer-osk is an operating system kernel for RISC-V in the xv6 tradition
    (src/kernel), with a small set of user programs (src/user) and an image
    builder (src/mkfs).  This library translates its C code into executable
    definitions and proves what makes the components correct.

    ** How the code is modelled

    - A kernel function is a computation [M S A] over the state [S] of its
      component: it returns, panics, goes to sleep (carrying what it does when
      it is resumed), or runs out of fuel.  The notations [x <- m ;; k] and
      [m ;;; k] sequence computations; [lift] runs a component inside a larger
      state.
    - Machine integers are [Z], reduced with [u32], [s32], ... where the C code
      computes or stores at that width.  Memory is a function from addresses to
      bytes (CMem.v); loads and stores are little-endian.
    - Loops that are not structural take fuel, and the theorems about them show
      how much is enough ([kinit], [readi], [writei], the filter of grep); a
      loop around [sleep] takes a bound on its wake-ups and is exhausted beyond
      it.
    - Arrays and tables are total functions with point update ([fset]) or lists;
      pointers into a table are indices.
    - Spin locks appear in the components as a flag ([acquire_lk],
      [release_lk]); Spinlock.v proves the real locks mutually exclusive and
      that they refine this flag.  Code between two sleeps runs in one go; what
      other processes do meanwhile is any change that keeps the invariant
      ([holds]), or any change the rely relation allows ([rg] of Rely.v).
      SleepWake.v interleaves [sleep] and [wakeup] statement by statement.
    - User memory is either the real page tables (Vm.v, Uvm.v) or, in the file
      code, what a copy from or to it fetches or stores before a fault.

    ** The files

    - Prelude.v, Rely.v: integers, computations, invariants under interference,
      rely-guarantee, pools of processes, shared automation.
    - CMem.v: byte memory and kernel/string.c.  Riscv.v: constants of riscv.h,
      memlayout.h and param.h.
    - Spinlock.v: kernel/spinlock.c on several harts.  Sleeplock.v:
      kernel/sleeplock.c.
    - Kalloc.v: kernel/kalloc.c.  Vm.v, Uvm.v, VmFree.v, VmKernel.v, VmAwake.v:
      kernel/vm.c, as page-table trees and as address spaces; freeing them; the
      kernel's page table.
    - BlockLayer.v: what the log needs of the buffer cache (class
      [BlockLayer]); Bio.v: kernel/bio.c, an instance of it; Log.v:
      kernel/log.c over the class; LogBio.v: both together.
    - Tx.v: what the file system needs of the log (class [TxLayer]), with the
      log as instance; Fs.v, FsBlocks.v, FsInode.v, FsFile.v, FsDir.v:
      kernel/fs.c; FsDemo.v: witnesses on a concrete disk.  FsSpace.v, FsGrow.v,
      FsTrunc.v: which file owns which block, when files grow and are truncated;
      FsPath.v: path lookup; FsLink.v, FsCreate.v, FsUnlink.v: new inodes and
      names, [create] and [sys_unlink] of kernel/sysfile.c on files and
      devices; FsSpaceDemo.v, FsCreateDemo.v, FsUnlinkDemo.v: their witnesses.
      Mkfs.v, MkfsInv.v, MkfsSpec.v: mkfs/mkfs.c, whose image the definitions
      of Fs.v read.
    - Virtio.v, VirtioInv.v: kernel/virtio_disk.c with the device.
    - Pipe.v: kernel/pipe.c.  Printf.v: kernel/printf.c and user/printf.c.
      Console.v: kernel/console.c.
    - Proc.v, ProcVm.v, ProcInv.v, ProcSpec.v, SleepWake.v: kernel/proc.c over an
      interface to the file layer (class [FileEnv]); Exec.v: kernel/exec.c;
      File.v, FileInv.v: kernel/file.c, which implements that interface.
    - Syscall.v: the world a system call runs in (clock, console output,
      registers of the hart, files), argument fetching of kernel/syscall.c and
      the calls of kernel/sysproc.c; Sysfile.v, SysfileInv.v: kernel/sysfile.c;
      Devices.v: kernel/plic.c and kernel/uart.c over memory-mapped registers;
      Trap.v, TrapInv.v, TrapSpec.v: kernel/trap.c and the dispatch of
      kernel/syscall.c; SyscallDemo.v: witnesses on a machine with processes;
      TrapDevices.v: traps with the console, disk and serial drivers.
    - Boot.v: kernel/start.c, the order of kernel/main.c across harts and the
      timer interrupt of kernel/kernelvec.S.
    - Grep.v: user/grep.c.  Ulib.v: user/ulib.c.  Umalloc.v, UmallocInv.v,
      UmallocSpec.v: user/umalloc.c.  Sh.v, ShParse.v, ShRun.v: user/sh.c.
      UserProgs.v, UserSpec.v: the smaller programs (cat, wc, ls, init, ...) as
      interaction trees of system calls.

    ** What is proved

    - Locks and sleeping: mutual exclusion and interrupt discipline of spin
      locks in every interleaving; refinement of the flag the components use;
      no lost wake-up and no deadlock of [sleep] and [wakeup].
    - Memory: the free list never hands out a page twice and [kinit] frees
      every page; [mappages], [uvmalloc], [uvmdealloc], [uvmcopy], [copyout],
      [copyin] and [copyinstr] implement their effect on the address space,
      including partial failure; [kvminit] maps the kernel's layout and nothing
      else, with no page writable and executable; the pages of a process of
      size above 0 all come back when its page table is freed; the user
      allocator, for requests that [sbrk] can serve, hands out disjoint blocks
      and loses none.
    - Disk: a transfer of the virtio driver is atomic for its caller, whatever
      other transfers, the device and the interrupt handler do; [bread] and
      [brelse] implement an LRU cache of the disk; a crash at any write of
      [commit] leaves all or nothing of the transaction after recovery, which
      may itself be interrupted; the reservation of [begin_op] suffices for a
      log of more than LOGSIZE blocks, while in the LOGSIZE blocks that mkfs
      makes three admitted operations can panic.
    - Files: block allocation, inode write-back and caching, reading and writing
      file contents, directories and path elements; a write that extends a file
      and the truncation of one keep every block owned once and the bitmap exact;
      [namei] finds what the names of the path denote on the disk, with the
      references and locks it took given back; [create] opens what exists or
      makes a new file that the path then resolves to, and [unlink] removes a
      name, and with the last one of a file that is not open the file, with all
      other names and files unchanged; mkfs builds the file system the
      kernel expects, with every block used once; exact reference counts of
      the file table; pipes as queues; consoles as line editors; in every
      interleaving of the file system calls, error paths included, the
      reference count of a file is the number of descriptors that name it.
    - Processes: the invariant of the process table in every interleaving of
      whatever traps any number of user processes take, with any registers and
      memory, as long as nobody suspends pid 0 and the pids last; the stack
      [exec] builds, and exactly when it fits; [sleep] waits the ticks it was asked
      for, across the wrap-around of the counter.
    - Traps: a system call returns behind the call instruction with the result
      of its handler, an unknown one with -1 and a message; a trap in the kernel
      restores the registers it interrupted and, the drivers' handlers not
      sleeping, gives up the processor only for the timer; the timer interrupt is invisible
      to what it interrupts.  No hart runs before hart 0 has initialised the
      kernel.
    - Text and commands: the two [printf]s are one formatter in two dialects and
      print numbers that read back, also by [atoi]; grep's matcher decides a
      regular-expression semantics and its filter prints the matching lines up
      to the first NUL byte or overlong line; the shell's parser accepts exactly
      the lines of a grammar, and every program it starts gets exactly the
      descriptors its command means; wc counts and cat copies a file however it
      is split into reads, and init survives as long as fork succeeds.
    - What the code does not do right is stated as theorems too: a failing first
      page of [uvmcopy], the tables of an empty process, recovery's buffer counts, the log's size, [kill],
      [suspend] and [ps] on entries they should not touch, user [memmove] on
      overlapping buffers, long lines in grep.

    ** What is not modelled

    The devices behind the registers are parameters (a serial port is given as
    an instance; the disk of Virtio.v checks its requests but never fails a
    good one); the assembly (except timervec and, by their effect, the
    registers uservec saves), weak memory and timing are outside the model; for the buffer cache
    a disk transfer is a single step, which VirtioInv.v justifies.  The handlers
    of console and disk interrupts, modelled with their drivers, are parameters
    of the trap layer, which sees the channels they wake; TrapDevices.v
    instantiates them.  The test programs
    are tests of the system, not part of it. *)

From Stdlib Require Export ZArith Lia.
From coqutil Require Byte Word.LittleEndianList.
Export coqutil.Byte.
Export coqutil.Word.LittleEndianList.
From stdpp Require Export base gmap strings numbers list.

#[global] Open Scope Z_scope.

(** ** Machine integers

    C integers are [Z]; a value of an unsigned type is kept reduced by the
    wrap-around functions below, at the points where the C code stores into
    or computes at that width. *)

Definition u8 (z : Z) : Z := z mod 2 ^ 8.
Definition u16 (z : Z) : Z := z mod 2 ^ 16.
Definition u32 (z : Z) : Z := z mod 2 ^ 32.
Definition u64 (z : Z) : Z := z mod 2 ^ 64.
Definition s16 (z : Z) : Z := (z + 2 ^ 15) mod 2 ^ 16 - 2 ^ 15.
Definition s32 (z : Z) : Z := (z + 2 ^ 31) mod 2 ^ 32 - 2 ^ 31.

Lemma u32_small z : 0 <= z < 2 ^ 32 -> u32 z = z.
Proof. intros. by apply Z.mod_small. Qed.

Lemma u64_small z : 0 <= z < 2 ^ 64 -> u64 z = z.
Proof. intros. by apply Z.mod_small. Qed.

Lemma u32_range z : 0 <= u32 z < 2 ^ 32.
Proof. by apply Z.mod_pos_bound. Qed.

Lemma u64_range z : 0 <= u64 z < 2 ^ 64.
Proof. by apply Z.mod_pos_bound. Qed.

Lemma s32_small z : - 2 ^ 31 <= z < 2 ^ 31 -> s32 z = z.
Proof. intros. unfold s32. rewrite Z.mod_small; lia. Qed.

Lemma s32_range z : - 2 ^ 31 <= s32 z < 2 ^ 31.
Proof.
  unfold s32. pose proof (Z.mod_pos_bound (z + 2 ^ 31) (2 ^ 32)). lia.
Qed.

Lemma u32_s32 z : u32 (s32 z) = u32 z.
Proof.
  unfold u32, s32. rewrite Zminus_mod_idemp_l. f_equal. lia.
Qed.

(** ** Outcomes of kernel code

    A kernel computation over a state of type [S] either returns, panics,
    goes to sleep on a channel (and then carries what it does when it is
    resumed in whatever state the machine is in by then), or, when it loops
    around [sleep], runs out of the number of wake-ups it was given. *)

Inductive outcome (S A : Type) : Type :=
| Done (a : A) (s : S)
| Panicked (msg : string)
| Sleeping (chan : Z) (s : S) (k : S -> outcome S A)
| Exhausted.

Arguments Done {S A} a s.
Arguments Panicked {S A} msg.
Arguments Sleeping {S A} chan s k.
Arguments Exhausted {S A}.

Definition M (S A : Type) : Type := S -> outcome S A.

Fixpoint obind {S A B} (o : outcome S A) (f : A -> M S B) : outcome S B :=
  match o with
  | Done a s => f a s
  | Panicked msg => Panicked msg
  | Sleeping c s k => Sleeping c s (fun s' => obind (k s') f)
  | Exhausted => Exhausted
  end.

Definition ret {S A} (a : A) : M S A := fun s => Done a s.
Definition bind {S A B} (m : M S A) (f : A -> M S B) : M S B :=
  fun s => obind (m s) f.
Definition panic {S A} (msg : string) : M S A := fun _ => Panicked msg.
Definition gets {S A} (f : S -> A) : M S A := fun s => Done (f s) s.
Definition modify {S} (f : S -> S) : M S unit := fun s => Done tt (f s).
Definition exhausted {S A} : M S A := fun _ => Exhausted.

(** Going to sleep on a channel; returns when resumed. *)
Definition sleep_on {S} (chan : Z) : M S unit :=
  fun s => Sleeping chan s (fun s' => Done tt s').

Declare Scope kernel_scope.
Delimit Scope kernel_scope with kernel.
Notation "x <- m ;; k" := (bind m (fun x => k))
  (at level 100, m at next level, right associativity) : kernel_scope.
Notation "m ;;; k" := (bind m (fun _ => k))
  (at level 100, right associativity) : kernel_scope.
#[global] Open Scope kernel_scope.

(** Running a computation of a component inside a larger state. *)
Fixpoint olift {S T A} (get : S -> T) (set : T -> S -> S) (o : outcome T A) (s : S)
  : outcome S A :=
  match o with
  | Done a t => Done a (set t s)
  | Panicked msg => Panicked msg
  | Sleeping c t k => Sleeping c (set t s) (fun s' => olift get set (k (get s')) s')
  | Exhausted => Exhausted
  end.

Definition lift {S T A} (get : S -> T) (set : T -> S -> S) (m : M T A) : M S A :=
  fun s => olift get set (m (get s)) s.

(** ** Weakest preconditions under interference

    [holds I Q o]: the outcome never panics; each time it goes to sleep the
    state satisfies [I]; it may be resumed in any state satisfying [I]; and
    when it returns, [Q] holds of its result and state.  [I] is the monitor
    invariant that every process using the component maintains. *)

Fixpoint holds {S A} (I : S -> Prop) (Q : A -> S -> Prop) (o : outcome S A) : Prop :=
  match o with
  | Done a s => Q a s
  | Panicked _ => False
  | Sleeping _ s k => I s /\ forall s', I s' -> holds I Q (k s')
  | Exhausted => True
  end.

Definition wp {S A} (I : S -> Prop) (m : M S A) (Q : A -> S -> Prop) (s : S) : Prop :=
  holds I Q (m s).

Lemma holds_mono {S A} (I : S -> Prop) (Q Q' : A -> S -> Prop) (o : outcome S A) :
  (forall a s, Q a s -> Q' a s) -> holds I Q o -> holds I Q' o.
Proof.
  intros HQ. induction o as [a s|msg|c s k IH|]; simpl; try naive_solver.
Qed.

Lemma holds_obind {S A B} (I : S -> Prop) (Q : B -> S -> Prop) (o : outcome S A) (f : A -> M S B) :
  holds I (fun a s => holds I Q (f a s)) o -> holds I Q (obind o f).
Proof.
  induction o as [a s|msg|c s k IH|]; simpl; try naive_solver.
Qed.

Lemma wp_bind {S A B} (I : S -> Prop) (m : M S A) (f : A -> M S B) Q s :
  wp I m (fun a => wp I (f a) Q) s -> wp I (bind m f) Q s.
Proof. apply holds_obind. Qed.

Lemma wp_ret {S A} (I : S -> Prop) (a : A) (Q : A -> S -> Prop) s :
  Q a s -> wp I (ret a) Q s.
Proof. done. Qed.

Lemma wp_gets {S A} (I : S -> Prop) (f : S -> A) (Q : A -> S -> Prop) s :
  Q (f s) s -> wp I (gets f) Q s.
Proof. done. Qed.

Lemma wp_modify {S} (I : S -> Prop) (f : S -> S) (Q : unit -> S -> Prop) s :
  Q tt (f s) -> wp I (modify f) Q s.
Proof. done. Qed.

Lemma wp_sleep_on {S} (I : S -> Prop) c (Q : unit -> S -> Prop) s :
  I s -> (forall s', I s' -> Q tt s') -> wp I (sleep_on c) Q s.
Proof. done. Qed.

Lemma wp_exhausted {S A} (I : S -> Prop) (Q : A -> S -> Prop) s :
  wp I exhausted Q s.
Proof. done. Qed.

Lemma wp_mono {S A} (I : S -> Prop) (m : M S A) (Q Q' : A -> S -> Prop) s :
  (forall a s', Q a s' -> Q' a s') -> wp I m Q s -> wp I m Q' s.
Proof. intros. by eapply holds_mono. Qed.

Lemma wp_Done {S A} (I : S -> Prop) (m : M S A) (Q : A -> S -> Prop) s a s' :
  m s = Done a s' -> Q a s' -> wp I m Q s.
Proof. unfold wp. by intros ->. Qed.

(** *** Adequacy: any interleaving of monitor-correct threads keeps the invariant

    A pool is a shared state with one entry per process: either finished, or
    waiting to be resumed.  A step resumes one waiting process and runs it to
    its next sleep or its end. *)

Inductive thread (S A : Type) : Type :=
| Waiting (k : S -> outcome S A)
| Finished (a : A)
| Crashed (msg : string)
| Spun.

Arguments Waiting {S A} k.
Arguments Finished {S A} a.
Arguments Crashed {S A} msg.
Arguments Spun {S A}.

Definition settle {S A} (o : outcome S A) (s0 : S) : thread S A * S :=
  match o with
  | Done a s => (Finished a, s)
  | Panicked msg => (Crashed msg, s0)
  | Sleeping _ s k => (Waiting k, s)
  | Exhausted => (Spun, s0)
  end.

Inductive pool_step {S A} : S * list (thread S A) -> S * list (thread S A) -> Prop :=
| pool_resume s ts i k :
    ts !! i = Some (Waiting k) ->
    pool_step (s, ts) (snd (settle (k s) s), <[i := fst (settle (k s) s)]> ts).

Definition thread_ok {S A} (I : S -> Prop) (R : A -> Prop) (t : thread S A) : Prop :=
  match t with
  | Waiting k => forall s, I s -> holds I (fun a s' => R a /\ I s') (k s)
  | Finished a => R a
  | Crashed _ => False
  | Spun => True
  end.

Definition pool_ok {S A} (I : S -> Prop) (R : A -> Prop) (p : S * list (thread S A)) : Prop :=
  I (fst p) /\ Forall (thread_ok I R) (snd p).

Lemma settle_ok {S A} (I : S -> Prop) (R : A -> Prop) (o : outcome S A) s0 :
  I s0 -> holds I (fun a s' => R a /\ I s') o ->
  thread_ok I R (fst (settle o s0)) /\ I (snd (settle o s0)).
Proof. destruct o; simpl; naive_solver. Qed.

Lemma pool_step_ok {S A} (I : S -> Prop) (R : A -> Prop) (p p' : S * list (thread S A)) :
  pool_ok I R p -> pool_step p p' -> pool_ok I R p'.
Proof.
  intros [HI HF] Hstep. destruct Hstep as [s ts i k Hi]; simpl in *.
  pose proof (proj1 (Forall_lookup _ _) HF i _ Hi) as Hk.
  destruct (settle_ok I R (k s) s HI (Hk s HI)) as [Ht HI'].
  split; [done|]. by apply Forall_insert.
Qed.

(** Every state reachable by resuming the processes of a pool in any order
    satisfies the invariant, and no process of the pool has panicked. *)
Lemma pool_reachable_ok {S A} (I : S -> Prop) (R : A -> Prop) (p p' : S * list (thread S A)) :
  pool_ok I R p -> rtc pool_step p p' -> pool_ok I R p'.
Proof.
  intros Hok Hsteps. induction Hsteps as [|p p1 p2 Hs _ IH]; [done|].
  apply IH. by eapply pool_step_ok.
Qed.

(** ** Automation shared by the components *)

(** Case analysis on the integer comparisons of the goal; closes the cases
    that arithmetic rules out. *)
Ltac zcmp :=
  repeat match goal with
  | |- context [?a <=? ?b] => destruct (Z.leb_spec a b); try lia
  | |- context [?a <? ?b] => destruct (Z.ltb_spec a b); try lia
  | |- context [?a >? ?b] => destruct (Z.gtb_spec a b); try lia
  | |- context [?a =? ?b] => destruct (Z.eqb_spec a b); try lia
  end; simpl; try done; try lia.

(** ** Tables: total functions with point update *)

Definition fset {K V} `{EqDecision K} (f : K -> V) (k : K) (v : V) : K -> V :=
  fun x => if decide (x = k) then v else f x.

Lemma fset_eq {K V} `{EqDecision K} (f : K -> V) k v : fset f k v k = v.
Proof. unfold fset. by case_decide. Qed.

Lemma fset_ne {K V} `{EqDecision K} (f : K -> V) k v x : x <> k -> fset f k v x = f x.
Proof. unfold fset. by case_decide. Qed.

(** Case analysis on whether a table access hits the updated entry. *)
Ltac fset_cases :=
  repeat match goal with
  | |- context [fset _ ?k _ ?k] => rewrite fset_eq
  | H : context [fset _ ?k _ ?k] |- _ => rewrite fset_eq in H
  | Hne : ?x <> ?k |- context [fset _ ?k _ ?x] => rewrite (fset_ne _ k _ x Hne)
  | Hne : ?x <> ?k, H : context [fset _ ?k _ ?x] |- _ => rewrite (fset_ne _ k _ x Hne) in H
  | |- context [fset _ ?k _ ?x] => destruct (decide (x = k)) as [->|]
  | H : context [fset _ ?k _ ?x] |- _ => destruct (decide (x = k)) as [->|]
  end.

(** ** Locks as components see them

    A component's spin lock is a flag of its state: held by the code that is
    running, or not.  [acquire] of a lock the same hart holds panics, as does
    [release] of one it does not hold; another hart's critical sections are
    not interleaved with ours (mutual exclusion is proved in Spinlock.v, which
    also shows that the real lock refines these operations). *)

Definition acquire_lk {S} (get : S -> bool) (set : bool -> S -> S) : M S unit :=
  fun s => if get s then Panicked "acquire" else Done tt (set true s).

Definition release_lk {S} (get : S -> bool) (set : bool -> S -> S) : M S unit :=
  fun s => if get s then Done tt (set false s) else Panicked "release".

(** [sleep(chan, lk)]: give up the lock, wait, and take it again. *)
Definition sleep_lk {S} (get : S -> bool) (set : bool -> S -> S) (chan : Z) : M S unit :=
  release_lk get set ;;; sleep_on chan ;;; acquire_lk get set.

Lemma acquire_lk_free {S} (get : S -> bool) set (s : S) :
  get s = false -> acquire_lk get set s = Done tt (set true s).
Proof. unfold acquire_lk. by intros ->. Qed.

Lemma release_lk_held {S} (get : S -> bool) set (s : S) :
  get s = true -> release_lk get set s = Done tt (set false s).
Proof. unfold release_lk. by intros ->. Qed.

Lemma bind_Done {S A B} (m : M S A) (f : A -> M S B) s a s' :
  m s = Done a s' -> bind m f s = f a s'.
Proof. unfold bind. by intros ->. Qed.

Lemma bind_Panicked {S A B} (m : M S A) (f : A -> M S B) s msg :
  m s = Panicked msg -> bind m f s = Panicked msg.
Proof. unfold bind. by intros ->. Qed.

(** Linear arithmetic with division and remainder by constants. *)
Ltac divlia := Z.to_euclidean_division_equations; lia.

(** [wakeup(chan)] moves the sleepers of [chan] to the run queue (Proc.v).  A
    sleeper of this semantics may be resumed at any time and re-checks what it
    waits for, so waking changes nothing of a component's own state. *)
Definition wakeup_chan {S} (chan : Z) : M S unit := ret tt.

(** ** Components of a larger state *)

Class Lens {S T : Type} (get : S -> T) (set : T -> S -> S) : Prop := {
  lens_get_set t s : get (set t s) = t;
  lens_set_get s : set (get s) s = s;
  lens_set_set t t' s : set t (set t' s) = set t s;
}.

Lemma bind_inv {S A B} (m : M S A) (f : A -> M S B) s b s' :
  bind m f s = Done b s' -> exists a s1, m s = Done a s1 /\ f a s1 = Done b s'.
Proof. unfold bind. destruct (m s) as [a s1| | |]; simpl; try done. intros H. by exists a, s1. Qed.

(** ** What a computation does between its sleeps

    [traced I seg Q g s0 o]: the segment of the computation that started in
    [s0] with ghost value [g] ends either at a sleep, where [seg] relates the
    start and the end of the segment and yields the ghost value of the next
    one, or by returning, where [Q] holds.  The environment may change the
    state in any way that keeps [I] while the computation sleeps. *)
Fixpoint traced {S A G} (I : S -> Prop) (seg : G -> S -> S -> G -> Prop)
    (Q : G -> S -> A -> S -> Prop) (g : G) (s0 : S) (o : outcome S A) : Prop :=
  match o with
  | Done a s => Q g s0 a s
  | Panicked _ => False
  | Sleeping _ s k => exists g', seg g s0 s g' /\ I s /\ forall s', I s' -> traced I seg Q g' s' (k s')
  | Exhausted => True
  end.

Lemma traced_mono {S A G} (I : S -> Prop) seg (Q Q' : G -> S -> A -> S -> Prop) g s0 o :
  (forall g s0 a s, Q g s0 a s -> Q' g s0 a s) -> traced I seg Q g s0 o -> traced I seg Q' g s0 o.
Proof.
  intros HQ. revert g s0. induction o as [a s|msg|c s k IH|]; intros g s0; simpl; naive_solver.
Qed.

Lemma traced_bind {S A B G} (I : S -> Prop) seg (Q : G -> S -> B -> S -> Prop) g s0 (o : outcome S A) (f : A -> M S B) :
  traced I seg (fun g s0 a s => traced I seg Q g s0 (f a s)) g s0 o -> traced I seg Q g s0 (obind o f).
Proof.
  revert g s0. induction o as [a s|msg|c s k IH|]; intros g s0; simpl; try done.
  intros (g' & H1 & H2 & H3). exists g'. split_and!; try done. intros s' Hs'. apply IH, H3, Hs'.
Qed.

(** Sleeping under a lock. *)
Lemma traced_sleep_lk {S A G} (I : S -> Prop) seg (Q : G -> S -> A -> S -> Prop) g s0 get set chan (k : M S A) s g' :
  get s = true -> seg g s0 (set false s) g' -> I (set false s) ->
  (forall s', I s' -> get s' = false /\ traced I seg Q g' s' (k (set true s'))) ->
  traced I seg Q g s0 ((sleep_lk get set chan ;;; k) s).
Proof.
  intros Hg Hs HI Hk. unfold bind, sleep_lk, sleep_on, bind. rewrite release_lk_held by done.
  cbn [obind traced]. exists g'. split_and!; [done..|]. intros s' Hs'. destruct (Hk s' Hs') as [Hl Ht].
  by rewrite acquire_lk_free.
Qed.

Lemma holds_sleep_lk {S A} (I : S -> Prop) (Q : A -> S -> Prop) get set chan (k : M S A) s :
  get s = true -> I (set false s) ->
  (forall s', I s' -> get s' = false /\ holds I Q (k (set true s'))) ->
  holds I Q ((sleep_lk get set chan ;;; k) s).
Proof.
  intros Hg HI Hk. unfold bind, sleep_lk, sleep_on, bind. rewrite release_lk_held by done.
  cbn [obind holds]. split; [done|]. intros s' Hs'. destruct (Hk s' Hs') as [Hl Ht].
  by rewrite acquire_lk_free.
Qed.

Lemma bind_gets {S A B} (h : S -> A) (f : A -> M S B) s : bind (gets h) f s = f (h s) s.
Proof. done. Qed.

Lemma bind_modify {S B} (h : S -> S) (f : unit -> M S B) s : bind (modify h) f s = f tt (h s).
Proof. done. Qed.

Lemma bind_ret {S A B} (a : A) (f : A -> M S B) s : bind (ret a) f s = f a s.
Proof. done. Qed.
