(* ===== verification/Rely.v ===== *)
(** * Rely and guarantee

    Proof rules for kernel code that shares its state with other processes
    while it sleeps: [rg R G Q s0 o] says that a computation whose current
    segment began in [s0] ends each segment (at a sleep, or at its end) in a
    state related to the start of the segment by [G] (or [Q]), provided that
    whatever runs while it sleeps is related by [R].  Panics stop the machine
    and are allowed. *)

From S2P Require Import Prelude.

Fixpoint rg {S A} (R G : S -> S -> Prop) (Q : S -> A -> S -> Prop) (s0 : S) (o : outcome S A) : Prop :=
  match o with
  | Done a s => Q s0 a s
  | Sleeping _ s k => G s0 s /\ forall s', R s s' -> rg R G Q s' (k s')
  | _ => True
  end.

Lemma rg_mono {S A} (R G : S -> S -> Prop) (Q Q' : S -> A -> S -> Prop) s0 (o : outcome S A) :
  (forall s0 a s, Q s0 a s -> Q' s0 a s) -> rg R G Q s0 o -> rg R G Q' s0 o.
Proof. intros HQ. revert s0. induction o as [a s|msg|c s k IH|]; intros s0; simpl; try naive_solver. Qed.

Lemma rg_obind {S A B} (R G : S -> S -> Prop) (Q : S -> B -> S -> Prop) s0 (o : outcome S A) (f : A -> M S B) :
  rg R G (fun s0 a s => rg R G Q s0 (f a s)) s0 o -> rg R G Q s0 (obind o f).
Proof. revert s0. induction o as [a s|msg|c s k IH|]; intros s0; simpl; try naive_solver. Qed.

Lemma rg_bind {S A B} (R G : S -> S -> Prop) (Q : S -> B -> S -> Prop) s0 (m : M S A) (f : A -> M S B) s :
  rg R G (fun s0 a s => rg R G Q s0 (f a s)) s0 (m s) -> rg R G Q s0 (bind m f s).
Proof. apply rg_obind. Qed.

Lemma rg_acquire {S} (R G : S -> S -> Prop) (Q : S -> unit -> S -> Prop) get set s0 s :
  Q s0 tt (set true s) -> rg R G Q s0 (acquire_lk get set s).
Proof. unfold acquire_lk. by destruct (get s). Qed.

Lemma rg_release {S} (R G : S -> S -> Prop) (Q : S -> unit -> S -> Prop) get set s0 s :
  Q s0 tt (set false s) -> rg R G Q s0 (release_lk get set s).
Proof. unfold release_lk. by destruct (get s). Qed.

(** Code that never gives up the processor. *)
Definition awake {S A} (m : M S A) : Prop :=
  forall s, match m s with Sleeping _ _ _ => False | _ => True end.

Create HintDb awake.

Lemma awake_ret {S A} (a : A) : awake (S := S) (ret a).
Proof. done. Qed.
Lemma awake_panic {S A} msg : awake (S := S) (A := A) (panic msg).
Proof. done. Qed.
Lemma awake_exhausted {S A} : awake (S := S) (A := A) exhausted.
Proof. done. Qed.
Lemma awake_gets {S A} (f : S -> A) : awake (gets f).
Proof. done. Qed.
Lemma awake_modify {S} (f : S -> S) : awake (modify f).
Proof. done. Qed.
Lemma awake_bind {S A B} (m : M S A) (k : A -> M S B) : awake m -> (forall a, awake (k a)) -> awake (bind m k).
Proof.
  intros Hm Hk s. unfold bind. specialize (Hm s). destruct (m s); simpl; try done. apply Hk.
Qed.
Lemma awake_if {S A} (b : bool) (m1 m2 : M S A) : awake m1 -> awake m2 -> awake (if b then m1 else m2).
Proof. by destruct b. Qed.
Lemma awake_acquire {S} get set : awake (S := S) (acquire_lk get set).
Proof. intros s. unfold acquire_lk. by destruct (get s). Qed.
Lemma awake_release {S} get set : awake (S := S) (release_lk get set).
Proof. intros s. unfold release_lk. by destruct (get s). Qed.

#[export] Hint Resolve awake_ret awake_panic awake_exhausted awake_gets awake_modify awake_acquire awake_release : awake.

Lemma rg_lift_awake {S T A} (R G : S -> S -> Prop) (Q : S -> A -> S -> Prop) (get : S -> T) set (m : M T A) s0 s :
  awake m -> (forall a t, Q s0 a (set t s)) -> rg R G Q s0 (lift get set m s).
Proof. intros Hm HQ. unfold lift. specialize (Hm (get s)). destruct (m (get s)); simpl; done || auto. Qed.

(** A component that may sleep: each of its segments changes only its own
    part of the state. *)
Lemma rg_lift {S T A} (R G : S -> S -> Prop) (K : S -> S -> Prop) (get : S -> T) set (m : M T A) s0 s :
  (forall s0 s t, K s0 s -> G s0 (set t s) /\ K s0 (set t s)) ->
  (forall s0 s s', K s0 s -> R s s' -> K s' s') ->
  K s0 s -> rg R G (fun s0 _ s => K s0 s) s0 (lift get set m s).
Proof.
  intros HG HR Hs. unfold lift. generalize (m (get s)). intros o. revert s0 s Hs.
  induction o as [a t|msg|c t k IH|]; intros s0 s Hs; simpl; try done; [by apply HG|].
  split; [by apply HG|]. intros s' Hs'. apply IH. eapply HR; [|exact Hs']. by apply HG.
Qed.

(** The same for code that must not panic. *)
Fixpoint sure {S A} (R G : S -> S -> Prop) (Q : S -> A -> S -> Prop) (s0 : S) (o : outcome S A) : Prop :=
  match o with
  | Done a s => Q s0 a s
  | Panicked _ => False
  | Sleeping _ s k => G s0 s /\ forall s', R s s' -> sure R G Q s' (k s')
  | Exhausted => True
  end.

Lemma sure_mono {S A} (R G : S -> S -> Prop) (Q Q' : S -> A -> S -> Prop) s0 (o : outcome S A) :
  (forall s0 a s, Q s0 a s -> Q' s0 a s) -> sure R G Q s0 o -> sure R G Q' s0 o.
Proof. intros HQ. revert s0. induction o as [a s|msg|c s k IH|]; intros s0; simpl; try naive_solver. Qed.

Lemma sure_bind {S A B} (R G : S -> S -> Prop) (Q : S -> B -> S -> Prop) s0 (m : M S A) (f : A -> M S B) s :
  sure R G (fun s0 a s => sure R G Q s0 (f a s)) s0 (m s) -> sure R G Q s0 (bind m f s).
Proof.
  unfold bind. generalize (m s). intros o. revert s0. induction o as [a t|msg|c t k IH|]; intros s0; simpl; try naive_solver.
Qed.

Lemma sure_sleep_lk {S A} (R G : S -> S -> Prop) (Q : S -> A -> S -> Prop) get set chan (k : M S A) s0 s :
  get s = true -> G s0 (set false s) ->
  (forall s', R (set false s) s' -> get s' = false /\ sure R G Q s' (k (set true s'))) ->
  sure R G Q s0 ((sleep_lk get set chan ;;; k) s).
Proof.
  intros Hg HG Hk. unfold bind, sleep_lk, sleep_on, bind. rewrite release_lk_held by done.
  cbn [obind sure]. split; [done|]. intros s' Hs'. destruct (Hk s' Hs') as [Hl Ht]. by rewrite acquire_lk_free.
Qed.

(** The same for code that must also finish: it neither panics nor runs out of
    fuel, however it is resumed. *)
Fixpoint ends {S A} (R : S -> S -> Prop) (Q : A -> S -> Prop) (o : outcome S A) : Prop :=
  match o with
  | Done a s => Q a s
  | Sleeping _ s k => forall s', R s s' -> ends R Q (k s')
  | _ => False
  end.

Lemma ends_mono {S A} (R : S -> S -> Prop) (Q Q' : A -> S -> Prop) (o : outcome S A) :
  (forall a s, Q a s -> Q' a s) -> ends R Q o -> ends R Q' o.
Proof. intros HQ. induction o as [a s|msg|c s k IH|]; simpl; auto. Qed.

Lemma ends_bind {S A B} (R : S -> S -> Prop) (Q : B -> S -> Prop) (m : M S A) (f : A -> M S B) s :
  ends R (fun a s => ends R Q (f a s)) (m s) -> ends R Q (bind m f s).
Proof. unfold bind. generalize (m s). intros o. induction o as [a t|msg|c t k IH|]; simpl; auto. Qed.

(** *** Code that runs in one go

    [post Q o]: the outcome is not a sleep, and if it returns then [Q]. *)
Definition post {S A} (Q : A -> S -> Prop) (o : outcome S A) : Prop :=
  match o with Done a s => Q a s | Sleeping _ _ _ => False | _ => True end.

Lemma post_mono {S A} (Q Q' : A -> S -> Prop) (o : outcome S A) : (forall a s, Q a s -> Q' a s) -> post Q o -> post Q' o.
Proof. destruct o; simpl; auto. Qed.

Lemma post_bind {S A B} (Q : B -> S -> Prop) (m : M S A) (f : A -> M S B) s :
  post (fun a s => post Q (f a s)) (m s) -> post Q (bind m f s).
Proof. unfold bind. by destruct (m s). Qed.

Lemma post_rg {S A} (R G : S -> S -> Prop) (Q : S -> A -> S -> Prop) s0 (o : outcome S A) :
  post (fun a s => Q s0 a s) o -> rg R G Q s0 o.
Proof. by destruct o. Qed.

Lemma post_acquire {S} (Q : unit -> S -> Prop) get set s : Q tt (set true s) -> post Q (acquire_lk get set s).
Proof. unfold acquire_lk. by destruct (get s). Qed.

Lemma post_release {S} (Q : unit -> S -> Prop) get set s : Q tt (set false s) -> post Q (release_lk get set s).
Proof. unfold release_lk. by destruct (get s). Qed.

Lemma post_lift {S T A} (Q : A -> S -> Prop) (get : S -> T) set (m : M T A) s :
  awake m -> (forall a t, Q a (set t s)) -> post Q (lift get set m s).
Proof. intros Hm HQ. unfold lift. specialize (Hm (get s)). destruct (m (get s)); simpl; done || auto. Qed.

(** ** Any interleaving

    A pool of computations, each with its own rely and guarantee: when the
    guarantee of each implies the rely of every other, an invariant that every
    guarantee establishes holds in every state the pool reaches by steps taken
    from states where [B] holds. *)

Definition within {S} (B : S -> Prop) (R : S -> S -> Prop) (s s' : S) : Prop := R s s' /\ B s'.

Definition thread_rg {S A} (B : S -> Prop) (R G : S -> S -> Prop) (s : S) (t : thread S A) : Prop :=
  match t with
  | Waiting k => forall s', within B R s s' -> rg (within B R) G (fun s0 _ s => G s0 s) s' (k s')
  | _ => True
  end.

Section Pool.

Context {S A : Type} (I B : S -> Prop) (R G : nat -> S -> S -> Prop).
Hypothesis R_refl : forall i s, R i s s.
Hypothesis R_trans : forall i s1 s2 s3, R i s1 s2 -> R i s2 s3 -> R i s1 s3.
Hypothesis G_R : forall i j s s', i <> j -> I s -> G i s s' -> R j s s'.
Hypothesis G_I : forall i s s', I s -> G i s s' -> I s'.

Definition pool_rg (p : S * list (thread S A)) : Prop :=
  I (fst p) /\ forall i t, snd p !! i = Some t -> thread_rg B (R i) (G i) (fst p) t.

Lemma thread_rg_rely i s s' (t : thread S A) : R i s s' -> thread_rg B (R i) (G i) s t -> thread_rg B (R i) (G i) s' t.
Proof. destruct t as [k| | |]; simpl; try done. intros H Hk s2 [H2 H3]. apply Hk. split; [by eapply R_trans|done]. Qed.

Lemma settle_rg i (o : outcome S A) s :
  rg (within B (R i)) (G i) (fun s0 _ s => G i s0 s) s o ->
  (snd (settle o s) = s \/ G i s (snd (settle o s))) /\ thread_rg B (R i) (G i) (snd (settle o s)) (fst (settle o s)).
Proof. destruct o as [a s1|msg|c s1 k|]; simpl; try (intros; split; [by auto|done]). intros [H1 H2]. split; [by right|done]. Qed.

Lemma pool_rg_step p p' : B (fst p) -> pool_rg p -> pool_step p p' -> pool_rg p'.
Proof.
  intros HB [HI HT] Hstep. destruct Hstep as [s ts i k Hi]. simpl in *.
  pose proof (HT i _ Hi s (conj (R_refl i s) HB)) as Hk.
  destruct (settle_rg i (k s) s Hk) as [Hs Ht]. split; simpl.
  - destruct Hs as [->|Hs]; [done|]. by eapply G_I.
  - intros j t Hj. destruct (decide (i = j)) as [<-|Hne].
    + rewrite list_lookup_insert_eq in Hj by (by eapply lookup_lt_Some). by simplify_eq.
    + rewrite list_lookup_insert_ne in Hj by done. eapply thread_rg_rely; [|by apply HT].
      destruct Hs as [->|Hs]; [apply R_refl|]. by eapply G_R.
Qed.

Lemma pool_rg_reachable p p' : pool_rg p -> rtc (fun p p' => B (fst p) /\ pool_step p p') p p' -> pool_rg p'.
Proof. intros Hp Hs. induction Hs as [|p p1 p2 [H0 H1] _ IH]; [done|]. apply IH. by eapply pool_rg_step. Qed.

End Pool.
