(* ===== verification/CMem.v ===== *)
(** * Byte memory and the string routines of kernel/string.c

    Physical memory is a function from addresses to bytes.  The routines of
    kernel/string.c are translated loop by loop, reading and writing that
    memory; little-endian loads and stores are the accesses the kernel makes
    through pointers to [uint64] (page-table entries, free-list links) and
    [uint]. *)

From S2P Require Import Prelude.

Definition mem : Type := Z -> byte.

Definition upd (m : mem) (a : Z) (b : byte) : mem :=
  fun x => if x =? a then b else m x.

(** A string or array passed by pointer and only read: its bytes by offset. *)
Definition reader : Type := nat -> byte.
Definition at_addr (m : mem) (a : Z) : reader := fun i => m (a + Z.of_nat i).
Definition of_list (l : list byte) : reader := fun i => nth i l Byte.x00.
Definition advance (p : reader) (n : nat) : reader := fun i => p (n + i)%nat.

Definition read_bytes (m : mem) (a : Z) (n : nat) : list byte :=
  map (fun i => m (a + Z.of_nat i)) (seq 0 n).

Definition write_bytes (m : mem) (a : Z) (bs : list byte) : mem :=
  fun x => if (a <=? x) && (x <? a + Z.of_nat (length bs))
           then nth (Z.to_nat (x - a)) bs Byte.x00 else m x.

Definition load64 (m : mem) (a : Z) : Z := le_combine (read_bytes m a 8).
Definition store64 (m : mem) (a v : Z) : mem := write_bytes m a (le_split 8 v).
Definition load32 (m : mem) (a : Z) : Z := le_combine (read_bytes m a 4).
Definition store32 (m : mem) (a v : Z) : mem := write_bytes m a (le_split 4 v).

(** ** kernel/string.c *)

(** The loop [for(i = 0; i < n; i++) cdst[i] = c]. *)
Fixpoint memset_loop (m : mem) (dst : Z) (c : byte) (i : Z) (left : nat) : mem :=
  match left with
  | O => m
  | S left' => memset_loop (upd m (dst + i) c) dst c (i + 1) left'
  end.

Definition memset (m : mem) (dst c n : Z) : mem :=
  memset_loop m dst (byte.of_Z c) 0 (Z.to_nat n).

Fixpoint memcmp_loop (s1 s2 : reader) (n : nat) : Z :=
  match n with
  | O => 0
  | S n' =>
      if Byte.eqb (s1 0%nat) (s2 0%nat)
      then memcmp_loop (advance s1 1) (advance s2 1) n'
      else byte.unsigned (s1 0%nat) - byte.unsigned (s2 0%nat)
  end.

Definition memcmp (v1 v2 : reader) (n : Z) : Z := memcmp_loop v1 v2 (Z.to_nat n).

(** [while(n-- > 0) *--d = *--s] *)
Fixpoint copy_backward (m : mem) (d s : Z) (n : nat) : mem :=
  match n with
  | O => m
  | S n' => copy_backward (upd m (d - 1) (m (s - 1))) (d - 1) (s - 1) n'
  end.

(** [while(n-- > 0) *d++ = *s++] *)
Fixpoint copy_forward (m : mem) (d s : Z) (n : nat) : mem :=
  match n with
  | O => m
  | S n' => copy_forward (upd m d (m s)) (d + 1) (s + 1) n'
  end.

Definition memmove (m : mem) (dst src n : Z) : mem :=
  if (src <? dst) && (src + n >? dst)
  then copy_backward m (dst + n) (src + n) (Z.to_nat n)
  else copy_forward m dst src (Z.to_nat n).

Definition memcpy (m : mem) (dst src n : Z) : mem := memmove m dst src n.

Fixpoint strncmp_loop (p q : reader) (n : nat) : Z :=
  match n with
  | O => 0
  | S n' =>
      if negb (Byte.eqb (p 0%nat) Byte.x00) && Byte.eqb (p 0%nat) (q 0%nat)
      then strncmp_loop (advance p 1) (advance q 1) n'
      else byte.unsigned (p 0%nat) - byte.unsigned (q 0%nat)
  end.

Definition strncmp (p q : reader) (n : Z) : Z := strncmp_loop p q (Z.to_nat n).

(** The second loop of [strncpy]: [while(n-- > 0) *s++ = 0]. *)
Fixpoint strncpy_pad (m : mem) (s : Z) (n : nat) : mem :=
  match n with
  | O => m
  | S n' => strncpy_pad (upd m s Byte.x00) (s + 1) n'
  end.

(** The first loop: copy until the NUL has been copied or [n] is used up. *)
Fixpoint strncpy_loop (m : mem) (s t : Z) (n : nat) : mem :=
  match n with
  | O => m
  | S n' =>
      let m' := upd m s (m t) in
      if Byte.eqb (m t) Byte.x00 then strncpy_pad m' (s + 1) n'
      else strncpy_loop m' (s + 1) (t + 1) n'
  end.

Definition strncpy (m : mem) (s t n : Z) : mem := strncpy_loop m s t (Z.to_nat n).

(** [while(--n > 0 && ( *s++ = *t++) != 0) ; *s = 0], entered with [n > 0];
    the recursion argument is [n - 1]. *)
Fixpoint safestrcpy_loop (m : mem) (s t : Z) (n : nat) : mem :=
  match n with
  | O => upd m s Byte.x00
  | S n' =>
      let m' := upd m s (m t) in
      if Byte.eqb (m t) Byte.x00 then upd m' (s + 1) Byte.x00
      else safestrcpy_loop m' (s + 1) (t + 1) n'
  end.

Definition safestrcpy (m : mem) (s t n : Z) : mem :=
  if n <=? 0 then m else safestrcpy_loop m s t (Z.to_nat (n - 1)).

(** [for(n = 0; s[n]; n++)]: [None] when no NUL is found within the fuel. *)
Fixpoint strlen_loop (s : reader) (n : Z) (fuel : nat) : option Z :=
  match fuel with
  | O => None
  | S f => if Byte.eqb (s 0%nat) Byte.x00 then Some n else strlen_loop (advance s 1) (n + 1) f
  end.

Definition strlen (s : reader) (fuel : nat) : option Z := strlen_loop s 0 fuel.

(** ** Facts about loads and stores *)

Lemma upd_same m a b : upd m a b a = b.
Proof. unfold upd. by rewrite Z.eqb_refl. Qed.

Lemma upd_other m a b x : x <> a -> upd m a b x = m x.
Proof. intros. unfold upd. destruct (Z.eqb_spec x a); congruence. Qed.

Lemma length_read_bytes m a n : length (read_bytes m a n) = n.
Proof. unfold read_bytes. by rewrite length_map, length_seq. Qed.

Lemma read_bytes_ext m m' a n :
  (forall x, a <= x < a + Z.of_nat n -> m x = m' x) -> read_bytes m a n = read_bytes m' a n.
Proof.
  intros H. unfold read_bytes. apply map_ext_in. intros i Hi%in_seq. apply H. lia.
Qed.

Lemma read_write_same m a bs : read_bytes (write_bytes m a bs) a (length bs) = bs.
Proof.
  apply nth_ext with (d := Byte.x00) (d' := Byte.x00); rewrite length_read_bytes; [done|].
  intros i Hi. unfold read_bytes.
  rewrite (nth_indep _ _ (write_bytes m a bs (a + Z.of_nat 0))) by (by rewrite length_map, length_seq).
  rewrite (map_nth (fun i => write_bytes m a bs (a + Z.of_nat i))), seq_nth by done.
  unfold write_bytes.
  destruct (Z.leb_spec a (a + Z.of_nat (0 + i))); [|lia].
  destruct (Z.ltb_spec (a + Z.of_nat (0 + i)) (a + Z.of_nat (length bs))); [simpl|lia].
  f_equal. lia.
Qed.

Lemma write_bytes_outside m a bs x :
  x < a \/ a + Z.of_nat (length bs) <= x -> write_bytes m a bs x = m x.
Proof.
  intros H. unfold write_bytes.
  zcmp.
Qed.

Lemma load64_ext m m' a :
  (forall x, a <= x < a + 8 -> m x = m' x) -> load64 m a = load64 m' a.
Proof. intros H. unfold load64. f_equal. by apply read_bytes_ext. Qed.

Lemma load64_range m a : 0 <= load64 m a < 2 ^ 64.
Proof.
  unfold load64. pose proof (le_combine_bound (read_bytes m a 8)) as H.
  rewrite length_read_bytes in H. lia.
Qed.

Lemma load_store_same m a v : load64 (store64 m a v) a = u64 v.
Proof.
  unfold load64, store64.
  rewrite <- (length_le_split 8 v) at 1. rewrite read_write_same. apply le_combine_split.
Qed.

Lemma store64_outside m a v x : x < a \/ a + 8 <= x -> store64 m a v x = m x.
Proof. intros. apply write_bytes_outside. rewrite length_le_split. lia. Qed.

Lemma load_store_other m a b v :
  a + 8 <= b \/ b + 8 <= a -> load64 (store64 m a v) b = load64 m b.
Proof. intros H. apply load64_ext. intros. apply store64_outside. lia. Qed.

Lemma load32_ext m m' a :
  (forall x, a <= x < a + 4 -> m x = m' x) -> load32 m a = load32 m' a.
Proof. intros H. unfold load32. f_equal. by apply read_bytes_ext. Qed.

Lemma load_store32_same m a v : load32 (store32 m a v) a = u32 v.
Proof.
  unfold load32, store32.
  rewrite <- (length_le_split 4 v) at 1. rewrite read_write_same. apply le_combine_split.
Qed.

Lemma store32_outside m a v x : x < a \/ a + 4 <= x -> store32 m a v x = m x.
Proof. intros. apply write_bytes_outside. rewrite length_le_split. lia. Qed.

(** ** What the routines compute *)

Lemma memset_loop_spec m dst c i n x :
  memset_loop m dst c i n x =
    if (dst + i <=? x) && (x <? dst + i + Z.of_nat n) then c else m x.
Proof.
  revert m i. induction n as [|n IH]; intros m i; simpl.
  - zcmp.
  - rewrite IH. unfold upd. zcmp.
Qed.

Lemma memset_spec m dst c n x :
  memset m dst c n x =
    if (dst <=? x) && (x <? dst + n) then byte.of_Z c else m x.
Proof.
  unfold memset. rewrite memset_loop_spec. zcmp.
Qed.

Lemma memset_outside m dst c n x : x < dst \/ dst + n <= x -> memset m dst c n x = m x.
Proof. intros. rewrite memset_spec. zcmp. Qed.

Lemma load64_memset_zero m dst n a :
  dst <= a -> a + 8 <= dst + n -> load64 (memset m dst 0 n) a = 0.
Proof.
  intros. unfold load64.
  rewrite (read_bytes_ext _ (fun _ => Byte.x00)).
  - reflexivity.
  - intros x Hx. rewrite memset_spec. zcmp.
Qed.

Lemma load64_memset_outside m dst c n a :
  a + 8 <= dst \/ dst + n <= a -> load64 (memset m dst c n) a = load64 m a.
Proof. intros. apply load64_ext. intros. apply memset_outside. lia. Qed.

Lemma copy_forward_spec m d s n x :
  d <= s \/ s + Z.of_nat n <= d ->
  copy_forward m d s n x =
    if (d <=? x) && (x <? d + Z.of_nat n) then m (s + (x - d)) else m x.
Proof.
  revert m d s. induction n as [|n IH]; intros m d s H; simpl.
  - zcmp.
  - rewrite IH by lia. unfold upd. zcmp; f_equal; lia.
Qed.

Lemma copy_backward_spec m d s n x :
  s <= d ->
  copy_backward m d s n x =
    if (d - Z.of_nat n <=? x) && (x <? d) then m (s - (d - x)) else m x.
Proof.
  revert m d s. induction n as [|n IH]; intros m d s H; simpl.
  - zcmp.
  - rewrite IH by lia. unfold upd. zcmp; f_equal; lia.
Qed.

(** Whatever the overlap of source and destination, [memmove] copies the
    bytes the source held before the call. *)
Lemma memmove_spec m dst src n x :
  memmove m dst src n x =
    if (dst <=? x) && (x <? dst + n) then m (src + (x - dst)) else m x.
Proof.
  unfold memmove. destruct (Z.ltb_spec src dst), (Z.gtb_spec (src + n) dst); simpl.
  1: rewrite copy_backward_spec by lia.
  2-4: rewrite copy_forward_spec by lia.
  all: zcmp; f_equal; lia.
Qed.
