(* ===== verification/Spinlock.v ===== *)
(** * Spin locks and interrupt nesting: kernel/spinlock.c

    The harts ([cpus]) with their interrupt-enable bit and [push_off] depth,
    the locks, the operations of spinlock.c, and the interleaving of harts
    that acquire and release locks as a step relation whose atomic steps are
    the memory operations of [acquire] and [release]. *)

From S2P Require Import Prelude.

(** [struct cpu] (the fields spinlock.c uses) with the hart's SSTATUS_SIE bit. *)
Record cpu := mk_cpu { noff : Z; intena : bool; sie : bool }.

(** [struct spinlock]; [lk_cpu] is the index into [cpus] or null. *)
Record spinlock := mk_spinlock { locked : Z; lk_name : string; lk_cpu : option nat }.

Record smp := mk_smp { cpus : nat -> cpu; locks : nat -> spinlock }.

Definition set_cpu (h : nat) (c : cpu) (s : smp) : smp :=
  mk_smp (fset (cpus s) h c) (locks s).
Definition set_lock (l : nat) (k : spinlock) (s : smp) : smp :=
  mk_smp (cpus s) (fset (locks s) l k).

Definition initlock (l : nat) (name : string) : M smp unit :=
  modify (set_lock l (mk_spinlock 0 name None)).

Definition intr_get (h : nat) : M smp bool := gets (fun s => sie (cpus s h)).
Definition intr_on (h : nat) : M smp unit :=
  modify (fun s => set_cpu h (mk_cpu (noff (cpus s h)) (intena (cpus s h)) true) s).
Definition intr_off (h : nat) : M smp unit :=
  modify (fun s => set_cpu h (mk_cpu (noff (cpus s h)) (intena (cpus s h)) false) s).

Definition push_off (h : nat) : M smp unit :=
  old <- intr_get h ;;
  intr_off h ;;;
  modify (fun s => if noff (cpus s h) =? 0
                   then set_cpu h (mk_cpu (noff (cpus s h)) old (sie (cpus s h))) s else s) ;;;
  modify (fun s => set_cpu h (mk_cpu (noff (cpus s h) + 1) (intena (cpus s h)) (sie (cpus s h))) s).

Definition pop_off (h : nat) : M smp unit :=
  i <- intr_get h ;;
  if i then panic "pop_off - interruptible" else
  modify (fun s => set_cpu h (mk_cpu (noff (cpus s h) - 1) (intena (cpus s h)) (sie (cpus s h))) s) ;;;
  c <- gets (fun s => cpus s h) ;;
  if noff c <? 0 then panic "pop_off" else
  if (noff c =? 0) && intena c then intr_on h else ret tt.

Definition holding (h l : nat) : M smp bool :=
  push_off h ;;;
  r <- gets (fun s => negb (locked (locks s l) =? 0) && bool_decide (lk_cpu (locks s l) = Some h)) ;;
  pop_off h ;;;
  ret r.

(** The part of [acquire] before the spin loop. *)
Definition acquire_enter (h l : nat) : M smp unit :=
  push_off h ;;;
  b <- holding h l ;;
  if b then panic "acquire" else ret tt.

(** [__sync_lock_test_and_set(&lk->locked, 1)]: returns the old value. *)
Definition test_and_set (l : nat) : M smp Z :=
  old <- gets (fun s => locked (locks s l)) ;;
  modify (fun s => set_lock l (mk_spinlock 1 (lk_name (locks s l)) (lk_cpu (locks s l))) s) ;;;
  ret old.

Fixpoint acquire_spin (l : nat) (fuel : nat) : M smp unit :=
  match fuel with
  | O => exhausted
  | S f => old <- test_and_set l ;; if old =? 0 then ret tt else acquire_spin l f
  end.

Definition acquire_record (h l : nat) : M smp unit :=
  modify (fun s => set_lock l (mk_spinlock (locked (locks s l)) (lk_name (locks s l)) (Some h)) s).

Definition acquire (h l : nat) (fuel : nat) : M smp unit :=
  acquire_enter h l ;;; acquire_spin l fuel ;;; acquire_record h l.

(** [release] up to and including [lk->cpu = 0]. *)
Definition release_check (h l : nat) : M smp unit :=
  b <- holding h l ;;
  if b then modify (fun s => set_lock l (mk_spinlock (locked (locks s l)) (lk_name (locks s l)) None) s)
  else panic "release".

(** [__sync_lock_release(&lk->locked)] *)
Definition release_unlock (l : nat) : M smp unit :=
  modify (fun s => set_lock l (mk_spinlock 0 (lk_name (locks s l)) (lk_cpu (locks s l))) s).

Definition release (h l : nat) : M smp unit :=
  release_check h l ;;; release_unlock l ;;; pop_off h.

(** ** Interrupt nesting *)

(** A hart whose interrupts are off whenever its nesting depth is positive. *)
Definition cpu_ok (c : cpu) : Prop := 0 <= noff c /\ (0 < noff c -> sie c = false).

Definition same_except (h : nat) (s s' : smp) : Prop :=
  locks s' = locks s /\ forall h', h' <> h -> cpus s' h' = cpus s h'.

(** The hart state [push_off] leaves. *)
Definition pushed (c : cpu) : cpu :=
  mk_cpu (noff c + 1) (if noff c =? 0 then sie c else intena c) false.

(** The hart state [pop_off] leaves. *)
Definition popped (c : cpu) : cpu :=
  mk_cpu (noff c - 1) (intena c) ((noff c =? 1) && intena c).

Lemma cpu_eta c : mk_cpu (noff c) (intena c) (sie c) = c.
Proof. by destruct c. Qed.

Lemma push_off_ok h s :
  exists s', push_off h s = Done tt s' /\ cpus s' h = pushed (cpus s h) /\ same_except h s s'.
Proof.
  unfold push_off, intr_get, intr_off, modify, gets, bind; simpl.
  rewrite fset_eq. simpl. unfold pushed.
  destruct (Z.eqb_spec (noff (cpus s h)) 0);
    eexists; (split; [reflexivity|]); unfold same_except; simpl;
    rewrite !fset_eq; simpl; (split; [done|]); (split; [done|]);
    intros h' Hne; by rewrite !fset_ne.
Qed.

Lemma pop_off_ok h s :
  cpu_ok (cpus s h) -> 0 < noff (cpus s h) ->
  exists s', pop_off h s = Done tt s' /\ cpus s' h = popped (cpus s h) /\ same_except h s s'.
Proof.
  intros [Hn Hs] Hpos. unfold pop_off, intr_get, intr_on, modify, gets, bind; simpl.
  rewrite (Hs Hpos). simpl. rewrite fset_eq. simpl. unfold popped.
  destruct (Z.ltb_spec (noff (cpus s h) - 1) 0); [lia|].
  replace (noff (cpus s h) - 1 =? 0) with (noff (cpus s h) =? 1) by zcmp.
  destruct ((noff (cpus s h) =? 1) && intena (cpus s h)) eqn:E;
    eexists; (split; [reflexivity|]); unfold same_except; simpl;
    rewrite !fset_eq; simpl; (split; [by rewrite ?(Hs Hpos)|]); (split; [done|]);
    intros h' Hne; by rewrite !fset_ne.
Qed.

Lemma pushed_ok c : cpu_ok c -> cpu_ok (pushed c).
Proof. intros [? ?]. unfold cpu_ok, pushed; simpl. split; [lia|done]. Qed.

Lemma popped_ok c : cpu_ok c -> 0 < noff c -> cpu_ok (popped c).
Proof.
  intros [? ?] ?. unfold cpu_ok, popped; simpl. split; [lia|].
  intros. destruct (Z.eqb_spec (noff c) 1); [lia|done].
Qed.

(** [popped (pushed c)] restores the depth and the interrupt bit. *)
Lemma popped_pushed c : cpu_ok c ->
  noff (popped (pushed c)) = noff c /\ sie (popped (pushed c)) = sie c.
Proof.
  intros [? Hs]. unfold popped, pushed; simpl. split; [lia|].
  destruct (Z.eqb_spec (noff c) 0) as [E|E].
  - rewrite E. done.
  - destruct (Z.eqb_spec (noff c + 1) 1); [lia|]. simpl. symmetry. apply Hs. lia.
Qed.

Lemma same_except_trans h s1 s2 s3 :
  same_except h s1 s2 -> same_except h s2 s3 -> same_except h s1 s3.
Proof. intros [? H1] [? H2]. split; [congruence|]. intros. rewrite H2, H1; done. Qed.

Definition holds_lock (s : smp) (h l : nat) : bool :=
  negb (locked (locks s l) =? 0) && bool_decide (lk_cpu (locks s l) = Some h).

Lemma holding_ok h l s :
  cpu_ok (cpus s h) ->
  exists s', holding h l s = Done (holds_lock s h l) s' /\
    cpus s' h = popped (pushed (cpus s h)) /\ same_except h s s'.
Proof.
  intros Hc. unfold holding, bind.
  destruct (push_off_ok h s) as (s1 & E1 & C1 & X1). rewrite E1. simpl.
  destruct (pop_off_ok h s1) as (s2 & E2 & C2 & X2).
  { rewrite C1. by apply pushed_ok. }
  { rewrite C1. simpl. destruct Hc; lia. }
  rewrite E2. simpl. exists s2.
  split; [|split].
  - unfold ret, holds_lock. by rewrite (proj1 X1).
  - by rewrite C2, C1.
  - by eapply same_except_trans.
Qed.

Lemma acquire_enter_ok h l s :
  cpu_ok (cpus s h) ->
  acquire_enter h l s = Panicked "acquire" /\ holds_lock s h l = true \/
  holds_lock s h l = false /\
  exists s', acquire_enter h l s = Done tt s' /\ noff (cpus s' h) = noff (cpus s h) + 1 /\
    cpu_ok (cpus s' h) /\ same_except h s s'.
Proof.
  intros Hc. unfold acquire_enter, bind.
  destruct (push_off_ok h s) as (s1 & E1 & C1 & X1). rewrite E1. simpl.
  assert (cpu_ok (cpus s1 h)) as Hc1 by (rewrite C1; by apply pushed_ok).
  destruct (holding_ok h l s1 Hc1) as (s2 & E2 & C2 & X2). rewrite E2. simpl.
  assert (holds_lock s1 h l = holds_lock s h l) as -> by (unfold holds_lock; by rewrite (proj1 X1)).
  destruct (holds_lock s h l); [by left|right]. split; [done|]. exists s2. split; [done|].
  destruct (popped_pushed _ Hc1) as [Hn Hs].
  split; [|split].
  - rewrite C2, Hn, C1. done.
  - rewrite C2. apply popped_ok; [by apply pushed_ok|]. destruct Hc1. simpl. lia.
  - by eapply same_except_trans.
Qed.

Lemma release_check_ok h l s :
  cpu_ok (cpus s h) ->
  release_check h l s = Panicked "release" /\ holds_lock s h l = false \/
  holds_lock s h l = true /\
  exists s', release_check h l s = Done tt s' /\ noff (cpus s' h) = noff (cpus s h) /\
    cpu_ok (cpus s' h) /\ (forall h', h' <> h -> cpus s' h' = cpus s h') /\
    locks s' = fset (locks s) l (mk_spinlock (locked (locks s l)) (lk_name (locks s l)) None).
Proof.
  intros Hc. unfold release_check, bind.
  destruct (holding_ok h l s Hc) as (s1 & E1 & C1 & X1 & X2). rewrite E1. simpl.
  destruct (holds_lock s h l); [right|by left]. split; [done|].
  eexists. split; [reflexivity|]. simpl. rewrite X1, C1.
  destruct (popped_pushed _ Hc) as [Hn Hs].
  split_and!; [by rewrite Hn| |done|done].
  apply popped_ok; [by apply pushed_ok|]. destruct Hc. simpl. lia.
Qed.

(** ** Interleaved harts *)

(** What a hart is doing between the atomic steps of [acquire]/[release]:
    spinning, past a successful test-and-set but before [lk->cpu = mycpu()],
    or past [lk->cpu = 0] but before the releasing store. *)
Inductive phase := Idle | Spinning (l : nat) | Won (l : nat) | Releasing (l : nat).

Record sys := mk_sys {
  mach : smp;
  ph : nat -> phase;
  held : nat -> list nat;      (** locks held, most recent first *)
  offs : nat -> nat            (** explicit [push_off]s not yet popped *)
}.

Inductive step : sys -> sys -> Prop :=
| step_push m p hl o h m' :
    p h = Idle -> push_off h m = Done tt m' ->
    step (mk_sys m p hl o) (mk_sys m' p hl (fset o h (S (o h))))
| step_pop m p hl o h m' n :
    p h = Idle -> o h = S n -> pop_off h m = Done tt m' ->
    step (mk_sys m p hl o) (mk_sys m' p hl (fset o h n))
| step_intr_on m p hl o h m' :
    p h = Idle -> noff (cpus m h) = 0 -> intr_on h m = Done tt m' ->
    step (mk_sys m p hl o) (mk_sys m' p hl o)
| step_intr_off m p hl o h m' :
    p h = Idle -> intr_off h m = Done tt m' ->
    step (mk_sys m p hl o) (mk_sys m' p hl o)
| step_enter m p hl o h l m' :
    p h = Idle -> acquire_enter h l m = Done tt m' ->
    step (mk_sys m p hl o) (mk_sys m' (fset p h (Spinning l)) hl o)
| step_tas_fail m p hl o h l m' old :
    p h = Spinning l -> test_and_set l m = Done old m' -> old <> 0 ->
    step (mk_sys m p hl o) (mk_sys m' p hl o)
| step_tas_win m p hl o h l m' :
    p h = Spinning l -> test_and_set l m = Done 0 m' ->
    step (mk_sys m p hl o) (mk_sys m' (fset p h (Won l)) hl o)
| step_record m p hl o h l m' :
    p h = Won l -> acquire_record h l m = Done tt m' ->
    step (mk_sys m p hl o) (mk_sys m' (fset p h Idle) (fset hl h (l :: hl h)) o)
| step_check m p hl o h l m' :
    p h = Idle -> release_check h l m = Done tt m' ->
    step (mk_sys m p hl o)
         (mk_sys m' (fset p h (Releasing l)) (fset hl h (filter (fun x => x <> l) (hl h))) o)
| step_unlock m p hl o h l m1 m' :
    p h = Releasing l -> release_unlock l m = Done tt m1 -> pop_off h m1 = Done tt m' ->
    step (mk_sys m p hl o) (mk_sys m' (fset p h Idle) hl o).

Definition initial (s : sys) : Prop :=
  (forall h, noff (cpus (mach s) h) = 0 /\ ph s h = Idle /\ held s h = [] /\ offs s h = O) /\
  (forall l, locked (locks (mach s) l) = 0 /\ lk_cpu (locks (mach s) l) = None).

(** The hart has the lock: recorded as held, or inside the windows around
    the recording. *)
Definition owns (s : sys) (h l : nat) : Prop :=
  l ∈ held s h \/ ph s h = Won l \/ ph s h = Releasing l.

Definition busy (p : phase) : Z := match p with Idle => 0 | _ => 1 end.

Record smp_inv (s : sys) : Prop := {
  inv_cpu h : cpu_ok (cpus (mach s) h);
  inv_noff h : noff (cpus (mach s) h) =
    Z.of_nat (offs s h) + Z.of_nat (length (held s h)) + busy (ph s h);
  inv_nodup h : NoDup (held s h);
  inv_held h l : l ∈ held s h <-> lk_cpu (locks (mach s) l) = Some h;
  inv_window h l : ph s h = Won l \/ ph s h = Releasing l -> l ∉ held s h;
  inv_locked l : locked (locks (mach s) l) = 0 \/ locked (locks (mach s) l) = 1;
  inv_owned h l : owns s h l -> locked (locks (mach s) l) = 1;
  inv_excl h1 h2 l : owns s h1 l -> owns s h2 l -> h1 = h2;
}.

Lemma initial_inv s : initial s -> smp_inv s.
Proof.
  intros [Hh Hl]. split; intros; try destruct (Hh h) as (En & Ep & Eh & Eo);
    try destruct (Hl l) as (E1 & E2); unfold owns in *.
  - unfold cpu_ok. rewrite En. lia.
  - by rewrite En, Ep, Eh, Eo.
  - rewrite Eh. constructor.
  - rewrite Eh, E2. split; [by intros ?%not_elem_of_nil|done].
  - rewrite Eh. apply not_elem_of_nil.
  - by left.
  - rewrite Eh, Ep in *. set_solver.
  - destruct (Hh h1) as (_ & Ep1 & Eh1 & _). rewrite Eh1, Ep1 in *. set_solver.
Qed.

(** A phase in which the hart is in neither ownership window. *)
Definition plain (p : phase) : Prop := match p with Idle | Spinning _ => True | _ => False end.

(** Steps that touch only the state of hart [h] and no lock. *)
Lemma inv_local m p hl o h m' p' o' :
  smp_inv (mk_sys m p hl o) ->
  locks m' = locks m -> (forall h', h' <> h -> cpus m' h' = cpus m h') ->
  plain (p h) -> plain p' ->
  cpu_ok (cpus m' h) ->
  noff (cpus m' h) = Z.of_nat o' + Z.of_nat (length (hl h)) + busy p' ->
  smp_inv (mk_sys m' (fset p h p') hl (fset o h o')).
Proof.
  intros Hi EL EC Hp Hp' Hc Hn.
  assert (forall h' l, owns (mk_sys m' (fset p h p') hl (fset o h o')) h' l ->
                       owns (mk_sys m p hl o) h' l) as Hown.
  { intros h' l. unfold owns; simpl. unfold fset. case_decide; subst; [|done].
    destruct p'; simpl in *; intros [|[|]]; try done; by left. }
  destruct Hi as [I1 I2 I3 I4 I5 I6 I7 I8]; simpl in *. split; simpl; rewrite ?EL; try done.
  - intros h'. destruct (decide (h' = h)) as [->|]; [done|]. by rewrite EC.
  - intros h'. fset_cases; [done|]. rewrite EC by done. apply I2.
  - intros h' l. fset_cases; [|apply I5].
    destruct p'; simpl in *; intros [|]; done.
  - intros h' l H. by apply I7 with h', Hown.
  - intros h1 h2 l H1 H2. by apply I8 with l; apply Hown.
Qed.

Lemma fset_same {K V} `{EqDecision K} (f : K -> V) k x : fset f k (f k) x = f x.
Proof. unfold fset. case_decide; congruence. Qed.

(** The invariant does not depend on how the tables are written. *)
Lemma inv_ext m p p' hl hl' o o' :
  (forall h, p h = p' h) -> (forall h, hl h = hl' h) -> (forall h, o h = o' h) ->
  smp_inv (mk_sys m p hl o) -> smp_inv (mk_sys m p' hl' o').
Proof.
  intros Ep Eh Eo [I1 I2 I3 I4 I5 I6 I7 I8]; simpl in *.
  split; unfold owns in *; simpl in *; intros; rewrite <- ?Ep, <- ?Eh, <- ?Eo in *; eauto.
Qed.

Lemma inv_local_phase m p hl o h m' p' :
  smp_inv (mk_sys m p hl o) ->
  locks m' = locks m -> (forall h', h' <> h -> cpus m' h' = cpus m h') ->
  plain (p h) -> plain p' -> cpu_ok (cpus m' h) ->
  noff (cpus m' h) = Z.of_nat (o h) + Z.of_nat (length (hl h)) + busy p' ->
  smp_inv (mk_sys m' (fset p h p') hl o).
Proof.
  intros. eapply inv_ext; [done|done| |by eapply (inv_local m p hl o h m' p' (o h))].
  intros. apply fset_same.
Qed.

Lemma inv_local_offs m p hl o h m' o' :
  smp_inv (mk_sys m p hl o) ->
  locks m' = locks m -> (forall h', h' <> h -> cpus m' h' = cpus m h') ->
  p h = Idle -> cpu_ok (cpus m' h) ->
  noff (cpus m' h) = Z.of_nat o' + Z.of_nat (length (hl h)) ->
  smp_inv (mk_sys m' p hl (fset o h o')).
Proof.
  intros. eapply inv_ext; [|done|done|eapply (inv_local m p hl o h m' (p h) o')]; try done.
  - intros. apply fset_same.
  - by rewrite H2.
  - by rewrite H2.
  - rewrite H2. simpl. lia.
Qed.

Lemma inv_intr m p hl o h m' :
  smp_inv (mk_sys m p hl o) ->
  locks m' = locks m -> (forall h', h' <> h -> cpus m' h' = cpus m h') ->
  p h = Idle -> cpu_ok (cpus m' h) -> noff (cpus m' h) = noff (cpus m h) ->
  smp_inv (mk_sys m' p hl o).
Proof.
  intros Hi EL EC Hp Hc Hn. eapply inv_ext; [done|done| |eapply (inv_local_offs m p hl o h m' (o h))]; try done.
  - intros. apply fset_same.
  - rewrite Hn. pose proof (inv_noff _ Hi h) as E. simpl in E. rewrite Hp in E. simpl in E. lia.
Qed.

Lemma test_and_set_eq l m :
  test_and_set l m =
    Done (locked (locks m l)) (set_lock l (mk_spinlock 1 (lk_name (locks m l)) (lk_cpu (locks m l))) m).
Proof. done. Qed.

Lemma inv_tas_fail m p hl o h l :
  smp_inv (mk_sys m p hl o) -> p h = Spinning l -> locked (locks m l) <> 0 ->
  smp_inv (mk_sys (set_lock l (mk_spinlock 1 (lk_name (locks m l)) (lk_cpu (locks m l))) m) p hl o).
Proof.
  intros [I1 I2 I3 I4 I5 I6 I7 I8] Hp Hn; simpl in *.
  assert (locked (locks m l) = 1) as E by (destruct (I6 l); lia).
  split; unfold owns in *; simpl in *; try done.
  - intros h' l'. rewrite I4. fset_cases; done.
  - intros l'. fset_cases; simpl; [by right|done].
  - intros h' l' H. fset_cases; simpl; [done|eauto].
Qed.

(** No hart owns a lock whose word is 0. *)
Lemma unlocked_unowned s l h : smp_inv s -> locked (locks (mach s) l) = 0 -> ~ owns s h l.
Proof. intros Hi E Ho. pose proof (inv_owned _ Hi _ _ Ho). lia. Qed.

Lemma inv_tas_win m p hl o h l :
  smp_inv (mk_sys m p hl o) -> p h = Spinning l -> locked (locks m l) = 0 ->
  smp_inv (mk_sys (set_lock l (mk_spinlock 1 (lk_name (locks m l)) (lk_cpu (locks m l))) m)
                  (fset p h (Won l)) hl o).
Proof.
  intros Hi Hp E. pose proof (fun h' => unlocked_unowned _ l h' Hi E) as Hun.
  assert (forall h' l', owns (mk_sys m (fset p h (Won l)) hl o) h' l' ->
            owns (mk_sys m p hl o) h' l' \/ h' = h /\ l' = l) as Hown.
  { intros h' l'. unfold owns; simpl. fset_cases; [|by left].
    intros [|[[= ->]|]]; [left; by left|by right|done]. }
  pose proof Hi as [I1 I2 I3 I4 I5 I6 I7 I8]; simpl in *.
  split; simpl in *; try done.
  - intros h'. fset_cases; [|done]. rewrite I2, Hp. done.
  - intros h' l'. rewrite I4. fset_cases; done.
  - intros h' l'. fset_cases; [|apply I5].
    intros [[= ->]|]; [|done]. intros Hin. apply (Hun h). by left.
  - intros l'. fset_cases; simpl; [by right|done].
  - intros h' l' H. fset_cases; simpl; [done|].
    destruct (Hown h' l') as [|[-> ->]]; [done|by eapply I7|done].
  - intros h1 h2 l' H1 H2.
    destruct (Hown h1 l' H1) as [A1|[-> E1]], (Hown h2 l' H2) as [A2|[-> E2]];
      subst; try done; [by eapply I8|by destruct (Hun h1)|by destruct (Hun h2)].
Qed.

Lemma filter_absent (ls : list nat) l : l ∉ ls -> filter (fun x => x <> l) ls = ls.
Proof.
  induction ls as [|x ls IH]; [done|]. rewrite not_elem_of_cons. intros [? ?].
  rewrite filter_cons_True by congruence. by rewrite IH.
Qed.

(** Dropping the one occurrence of a held lock shortens the list by one. *)
Lemma length_filter_ne (ls : list nat) l :
  NoDup ls -> l ∈ ls -> Z.of_nat (length ls) = Z.of_nat (length (filter (fun x => x <> l) ls)) + 1.
Proof.
  induction 1 as [|x ls Hx Hnd IH]; [by intros ?%not_elem_of_nil|].
  rewrite elem_of_cons, filter_cons. intros [->|Hl].
  - case_decide; [done|]. simpl.
    rewrite filter_absent by done. lia.
  - case_decide; simpl; [rewrite Nat2Z.inj_succ, IH by done; lia|]. set_solver.
Qed.

Lemma inv_record m p hl o h l :
  smp_inv (mk_sys m p hl o) -> p h = Won l ->
  smp_inv (mk_sys (set_lock l (mk_spinlock (locked (locks m l)) (lk_name (locks m l)) (Some h)) m)
                  (fset p h Idle) (fset hl h (l :: hl h)) o).
Proof.
  intros Hi Hp.
  assert (owns (mk_sys m p hl o) h l) as Ho by (right; by left).
  assert (forall h' l', owns (mk_sys (set_lock l (mk_spinlock (locked (locks m l)) (lk_name (locks m l)) (Some h)) m)
              (fset p h Idle) (fset hl h (l :: hl h)) o) h' l' -> owns (mk_sys m p hl o) h' l') as Hown.
  { intros h' l'. unfold owns; simpl. fset_cases; [|done].
    rewrite elem_of_cons. naive_solver. }
  pose proof Hi as [I1 I2 I3 I4 I5 I6 I7 I8]; simpl in *.
  split; simpl in *; try done.
  - intros h'. fset_cases; [|done]. rewrite I2, Hp. simpl. lia.
  - intros h'. fset_cases; [|done]. constructor; [|done]. apply I5. by left.
  - intros h' l'. fset_cases; simpl.
    + split; [done|left].
    + rewrite elem_of_cons, I4. naive_solver.
    + split; [|congruence]. intros Hin. destruct n. apply (I8 h' h l); [by left|done].
    + apply I4.
  - intros h' l'. fset_cases; [|apply I5]. by intros [|].
  - intros l'. fset_cases; simpl; apply I6.
  - intros h' l' H%Hown. fset_cases; simpl; by eapply I7.
  - intros h1 h2 l' H1%Hown H2%Hown. by eapply I8.
Qed.

Lemma inv_release_check m p hl o h l m' :
  smp_inv (mk_sys m p hl o) -> p h = Idle -> l ∈ hl h ->
  cpu_ok (cpus m' h) -> noff (cpus m' h) = noff (cpus m h) ->
  (forall h', h' <> h -> cpus m' h' = cpus m h') ->
  locks m' = fset (locks m) l (mk_spinlock (locked (locks m l)) (lk_name (locks m l)) None) ->
  smp_inv (mk_sys m' (fset p h (Releasing l)) (fset hl h (filter (fun x => x <> l) (hl h))) o).
Proof.
  intros Hi Hp Hin Hc Hn EC EL.
  assert (forall h' l', owns (mk_sys m' (fset p h (Releasing l))
              (fset hl h (filter (fun x => x <> l) (hl h))) o) h' l' -> owns (mk_sys m p hl o) h' l') as Hown.
  { intros h' l'. unfold owns; simpl. fset_cases; [|done].
    rewrite list_elem_of_filter. naive_solver. }
  pose proof Hi as [I1 I2 I3 I4 I5 I6 I7 I8]; simpl in *.
  split; simpl in *; rewrite ?EL; try done.
  - intros h'. destruct (decide (h' = h)) as [->|]; [done|]. by rewrite EC.
  - intros h'. fset_cases; [|by rewrite EC].
    rewrite Hn, I2, Hp. simpl. rewrite (length_filter_ne (hl h) l) by done. lia.
  - intros h'. fset_cases; [|done]. by apply NoDup_filter.
  - intros h' l'. fset_cases; simpl.
    + rewrite list_elem_of_filter. naive_solver.
    + rewrite list_elem_of_filter, I4. naive_solver.
    + rewrite I4. split; [|done]. apply I4 in Hin. congruence.
    + apply I4.
  - intros h' l'. fset_cases; [|apply I5]. rewrite list_elem_of_filter. naive_solver.
  - intros l'. fset_cases; simpl; apply I6.
  - intros h' l' H%Hown. fset_cases; simpl; by eapply I7.
  - intros h1 h2 l' H1%Hown H2%Hown. by eapply I8.
Qed.

Lemma inv_unlock m p hl o h l m1 :
  smp_inv (mk_sys m p hl o) -> p h = Releasing l ->
  locks m1 = fset (locks m) l (mk_spinlock 0 (lk_name (locks m l)) (lk_cpu (locks m l))) ->
  (forall h', h' <> h -> cpus m1 h' = cpus m h') ->
  cpu_ok (cpus m1 h) -> noff (cpus m1 h) = noff (cpus m h) - 1 ->
  smp_inv (mk_sys m1 (fset p h Idle) hl o).
Proof.
  intros Hi Hp EL EC Hc Hn.
  assert (owns (mk_sys m p hl o) h l) as Ho by (by right; right).
  assert (forall h' l', owns (mk_sys m1 (fset p h Idle) hl o) h' l' ->
            owns (mk_sys m p hl o) h' l' /\ l' <> l) as Hown.
  { intros h' l' H.
    assert (owns (mk_sys m p hl o) h' l') as H1.
    { revert H. unfold owns; simpl. fset_cases; naive_solver. }
    split; [done|]. intros ->.
    assert (h' = h) as -> by (by eapply (inv_excl _ Hi)).
    revert H. unfold owns; simpl. rewrite fset_eq. intros [Hl|[|]]; try done.
    by destruct (inv_window _ Hi h l (or_intror Hp)). }
  pose proof Hi as [I1 I2 I3 I4 I5 I6 I7 I8]; simpl in *.
  split; simpl in *; rewrite ?EL; try done.
  - intros h'. destruct (decide (h' = h)) as [->|]; [done|]. by rewrite EC.
  - intros h'. fset_cases; [|by rewrite EC]. rewrite Hn, I2, Hp. simpl. lia.
  - intros h' l'. rewrite I4. fset_cases; done.
  - intros h' l'. fset_cases; [|apply I5]. by intros [|].
  - intros l'. fset_cases; simpl; [by left|done].
  - intros h' l' [H Hne]%Hown. rewrite fset_ne by done. by eapply I7.
  - intros h1 h2 l' [H1 _]%Hown [H2 _]%Hown. by eapply I8.
Qed.

Lemma step_inv s s' : smp_inv s -> step s s' -> smp_inv s'.
Proof.
  intros Hi Hs. destruct Hs as
    [m p hl o h m' Hp E|m p hl o h m' n Hp Ho E|m p hl o h m' Hp Hn E|m p hl o h m' Hp E
    |m p hl o h l m' Hp E|m p hl o h l m' old Hp E Hne|m p hl o h l m' Hp E
    |m p hl o h l m' Hp E|m p hl o h l m' Hp E|m p hl o h l m1 m' Hp E1 E2];
    pose proof (inv_cpu _ Hi h) as Hc; pose proof (inv_noff _ Hi h) as Hnf; simpl in *.
  - destruct (push_off_ok h m) as (m1 & E1 & C1 & X1 & X2). simplify_eq.
    rewrite E in E1. injection E1 as <-.
    eapply inv_local_offs; eauto; rewrite C1; [by apply pushed_ok|].
    simpl. rewrite Hnf, Hp. simpl. lia.
  - destruct (pop_off_ok h m Hc) as (m1 & E1 & C1 & X1 & X2); [rewrite Hnf, Ho; destruct (p h); simpl; lia|].
    rewrite E in E1. injection E1 as <-.
    eapply inv_local_offs; eauto; rewrite C1.
    + apply popped_ok; [done|]. rewrite Hnf, Ho. destruct (p h); simpl; lia.
    + simpl. rewrite Hnf, Hp, Ho. simpl. lia.
  - injection E as <-. eapply inv_intr; eauto; simpl; rewrite ?fset_eq; try done.
    + intros. by rewrite fset_ne.
    + unfold cpu_ok. simpl. lia.
  - injection E as <-. eapply inv_intr; eauto; simpl; rewrite ?fset_eq; try done.
    + intros. by rewrite fset_ne.
    + by destruct Hc.
  - destruct (acquire_enter_ok h l m Hc) as [[E1 _]|(_ & m1 & E1 & N1 & C1 & X1 & X2)]; [congruence|].
    rewrite E in E1. injection E1 as <-.
    eapply inv_local_phase; eauto; rewrite ?N1, ?Hnf, ?Hp; simpl; try done. lia.
  - rewrite test_and_set_eq in E. injection E as <- <-. by eapply inv_tas_fail.
  - rewrite test_and_set_eq in E. injection E as E <-. by eapply inv_tas_win.
  - injection E as <-. by eapply inv_record.
  - destruct (release_check_ok h l m Hc) as [[E1 _]|(Hh & m1 & E1 & N1 & C1 & X1 & X2)]; [congruence|].
    rewrite E in E1. injection E1 as <-.
    eapply inv_release_check; eauto.
    unfold holds_lock in Hh. apply andb_prop in Hh as [_ Hh]. apply bool_decide_eq_true in Hh.
    by apply (inv_held _ Hi).
  - injection E1 as <-.
    destruct (pop_off_ok h (set_lock l (mk_spinlock 0 (lk_name (locks m l)) (lk_cpu (locks m l))) m))
      as (m2 & E2' & C2 & X1 & X2); [done|simpl; rewrite Hnf, Hp; simpl; lia|].
    rewrite E2 in E2'. injection E2' as <-.
    eapply inv_unlock; eauto; rewrite C2; simpl; [|done].
    apply popped_ok; [done|]. rewrite Hnf, Hp. simpl. lia.
Qed.

Lemma reachable_inv s0 s : initial s0 -> rtc step s0 s -> smp_inv s.
Proof.
  intros H0%initial_inv Hsteps. induction Hsteps as [|s1 s2 s3 Hs _ IH]; [done|].
  apply IH. by eapply step_inv.
Qed.

(** ** Properties *)

(** [C6] Mutual exclusion: in every interleaving of the atomic steps of
    [acquire] and [release] by any number of harts, no two harts hold the
    same lock, a held lock has its word set to 1 and its [cpu] field names
    the holder. *)
Theorem spinlock_mutual_exclusion s0 s :
  initial s0 -> rtc step s0 s ->
  forall h1 h2 l, l ∈ held s h1 -> l ∈ held s h2 ->
    h1 = h2 /\ locked (locks (mach s) l) = 1 /\ lk_cpu (locks (mach s) l) = Some h1.
Proof.
  intros H0 Hs h1 h2 l Hl1 Hl2. pose proof (reachable_inv _ _ H0 Hs) as Hi.
  split; [|split].
  - eapply (inv_excl _ Hi); by left.
  - eapply (inv_owned _ Hi). by left.
  - by apply (inv_held _ Hi).
Qed.

(** Interrupt discipline: in every reachable state a hart that holds a
    lock, is spinning for one, or has an unmatched [push_off], has interrupts
    disabled; and its [noff] counts exactly those. *)
Theorem spinlock_interrupts_off s0 s :
  initial s0 -> rtc step s0 s ->
  forall h, noff (cpus (mach s) h) =
      Z.of_nat (offs s h) + Z.of_nat (length (held s h)) + busy (ph s h) /\
    (held s h <> [] \/ ph s h <> Idle \/ offs s h <> O -> sie (cpus (mach s) h) = false).
Proof.
  intros H0 Hs h. pose proof (reachable_inv _ _ H0 Hs) as Hi.
  split; [apply (inv_noff _ Hi)|]. intros Hb.
  apply (inv_cpu _ Hi). rewrite (inv_noff _ Hi).
  destruct Hb as [Hb|[Hb|Hb]].
  - destruct (held s h); [done|]. destruct (ph s h); simpl; lia.
  - destruct (ph s h); [done|simpl; lia..].
  - destruct (ph s h); simpl; lia.
Qed.

Lemma release_ok h l s :
  cpu_ok (cpus s h) -> 0 < noff (cpus s h) -> holds_lock s h l = true ->
  exists s', release h l s = Done tt s' /\
    cpus s' h = popped (popped (pushed (cpus s h))) /\ locked (locks s' l) = 0 /\
    lk_cpu (locks s' l) = None /\ (forall l', l' <> l -> locks s' l' = locks s l').
Proof.
  intros Hc Hn Hh. unfold release, release_check, bind.
  destruct (holding_ok h l s Hc) as (s1 & E1 & C1 & X1 & X2). rewrite E1, Hh. simpl.
  edestruct (pop_off_ok h) as (s2 & E2 & C2 & Y1 & Y2); [| |rewrite E2].
  - simpl. rewrite C1. apply popped_ok; [by apply pushed_ok|]. simpl. destruct Hc. lia.
  - simpl. rewrite C1. simpl. lia.
  - exists s2. split; [done|]. split; [rewrite C2; simpl; by rewrite C1|].
    rewrite Y1. simpl. rewrite !fset_eq, X1. simpl. split_and!; try done.
    intros. by rewrite !fset_ne.
Qed.

Lemma acquire_free_ok h l s f :
  cpu_ok (cpus s h) -> locked (locks s l) = 0 ->
  exists s', acquire h l (S f) s = Done tt s' /\
    cpus s' h = popped (pushed (pushed (cpus s h))) /\ holds_lock s' h l = true /\
    locked (locks s' l) = 1 /\ (forall l', l' <> l -> locks s' l' = locks s l').
Proof.
  intros Hc Hl. unfold acquire, acquire_enter, bind.
  destruct (push_off_ok h s) as (s1 & E1 & C1 & X1 & X2). rewrite E1. simpl.
  destruct (holding_ok h l s1) as (s2 & E2 & C2 & Y1 & Y2); [rewrite C1; by apply pushed_ok|].
  rewrite E2. unfold holds_lock at 1. rewrite X1, Hl. simpl.
  unfold bind. simpl. rewrite Y1, X1, Hl. simpl.
  eexists. split; [reflexivity|]. simpl. rewrite C2, C1. split; [done|].
  unfold holds_lock. simpl. rewrite !fset_eq. simpl.
  rewrite bool_decide_eq_true_2 by done. rewrite X1 in Y1.
  split_and!; try done. intros. by rewrite !fset_ne, Y1.
Qed.

(** [acquire] of a free lock succeeds at the first test-and-set and
    [release] undoes it: the lock word, the nesting depth and the hart's
    interrupt-enable bit are what they were, and no other lock changed. *)
Theorem acquire_release_restores h l s f :
  cpu_ok (cpus s h) -> locked (locks s l) = 0 ->
  exists s1 s2, acquire h l (S f) s = Done tt s1 /\ sie (cpus s1 h) = false /\
    release h l s1 = Done tt s2 /\
    locked (locks s2 l) = 0 /\ lk_cpu (locks s2 l) = None /\
    noff (cpus s2 h) = noff (cpus s h) /\ sie (cpus s2 h) = sie (cpus s h) /\
    (forall l', l' <> l -> locks s2 l' = locks s l').
Proof.
  intros Hc Hl.
  destruct (acquire_free_ok h l s f Hc Hl) as (s1 & E1 & C1 & H1 & _ & O1).
  assert (cpu_ok (pushed (cpus s h))) as Hp by (by apply pushed_ok).
  destruct (popped_pushed _ Hp) as [Pn Ps].
  assert (cpu_ok (cpus s1 h)) as Hc1.
  { rewrite C1. apply popped_ok; [by apply pushed_ok|]. simpl. destruct Hc. lia. }
  assert (0 < noff (cpus s1 h)) as Hn1 by (rewrite C1, Pn; simpl; destruct Hc; lia).
  destruct (release_ok h l s1 Hc1 Hn1 H1) as (s2 & E2 & C2 & L2 & L3 & O2).
  exists s1, s2. split_and!; try done.
  - by apply Hc1.
  - rewrite C2. simpl. rewrite C1. simpl. lia.
  - rewrite C2. clear -Hc C1. rewrite C1. destruct (cpus s h) as [n i e], Hc as [Hn He]; simpl in *.
    unfold popped, pushed; simpl. zcmp. symmetry. apply He. lia.
  - intros l' Hne. by rewrite O2, O1.
Qed.

(** The lock of spinlock.c implements the monitor lock the other
    components are written against: seen by one hart, with the lock either
    free or held by that hart, [acquire] and [release] succeed, panic (with
    the same message) and change ownership exactly as [acquire_lk] and
    [release_lk] do on the flag "this hart holds the lock". *)
Theorem spinlock_refines_monitor h l s f :
  cpu_ok (cpus s h) -> (holds_lock s h l = true -> 0 < noff (cpus s h)) ->
  holds_lock s h l = true \/ locked (locks s l) = 0 ->
  match acquire_lk id (fun b _ => b) (holds_lock s h l) with
  | Done _ b => exists s', acquire h l (S f) s = Done tt s' /\ holds_lock s' h l = b /\ cpu_ok (cpus s' h)
  | Panicked msg => acquire h l (S f) s = Panicked msg
  | _ => False
  end /\
  match release_lk id (fun b _ => b) (holds_lock s h l) with
  | Done _ b => exists s', release h l s = Done tt s' /\ holds_lock s' h l = b /\ cpu_ok (cpus s' h)
  | Panicked msg => release h l s = Panicked msg
  | _ => False
  end.
Proof.
  intros Hc Hn Hor. destruct (holds_lock s h l) eqn:Hh; simpl.
  - split.
    + unfold acquire. destruct (acquire_enter_ok h l s Hc) as [[E _]|[E _]]; [|congruence].
      by rewrite (bind_Panicked _ _ _ _ E).
    + destruct (release_ok h l s Hc (Hn eq_refl) Hh) as (s' & E & C & L1 & L2 & _).
      exists s'. split_and!; [done| |].
      * unfold holds_lock. by rewrite L1.
      * rewrite C. specialize (Hn eq_refl).
        apply popped_ok; [apply popped_ok; [by apply pushed_ok|]|]; simpl; lia.
  - destruct Hor as [|Hl]; [done|]. split.
    + destruct (acquire_free_ok h l s f Hc Hl) as (s' & E & C & Hh' & _).
      exists s'. split_and!; [done..|]. rewrite C.
      apply popped_ok; [do 2 apply pushed_ok; done|]. simpl. destruct Hc. lia.
    + unfold release. destruct (release_check_ok h l s Hc) as [[E _]|[E _]]; [|congruence].
      by rewrite (bind_Panicked _ _ _ _ E).
Qed.

(** *** Witnesses *)

Definition smp0 : smp := mk_smp (fun _ => mk_cpu 0 false true) (fun _ => mk_spinlock 0 "" None).
Definition sys0 : sys := mk_sys smp0 (fun _ => Idle) (fun _ => []) (fun _ => O).

Lemma sys0_initial : initial sys0.
Proof. by split. Defined.

(** Hart 0 acquires lock 0 while hart 1 spins for it. *)
Lemma sys0_run : exists s, rtc step sys0 s /\ held s 0%nat = [0%nat] /\ ph s 1%nat = Spinning 0.
Proof.
  eexists. split.
  - eapply rtc_l; [eapply (step_enter _ _ _ _ 0%nat 0%nat); [reflexivity|cbv; reflexivity]|].
    eapply rtc_l; [eapply (step_enter _ _ _ _ 1%nat 0%nat); [reflexivity|cbv; reflexivity]|].
    eapply rtc_l; [eapply (step_tas_win _ _ _ _ 0%nat 0%nat); [reflexivity|cbv; reflexivity]|].
    eapply rtc_l; [eapply (step_tas_fail _ _ _ _ 1%nat 0%nat); [reflexivity|cbv; reflexivity|done]|].
    eapply rtc_l; [eapply (step_record _ _ _ _ 0%nat 0%nat); [reflexivity|cbv; reflexivity]|].
    apply rtc_refl.
  - split; reflexivity.
Defined.

Lemma spinlock_mutual_exclusion_witness :
  exists s, rtc step sys0 s /\ 0%nat ∈ held s 0%nat /\
    (forall h, 0%nat ∈ held s h -> 0%nat = h).
Proof.
  destruct sys0_run as (s & Hs & Hh & Hp). exists s.
  assert (0%nat ∈ held s 0%nat) by (rewrite Hh; left).
  split_and!; [done|done|]. intros h Hl.
  by apply (spinlock_mutual_exclusion sys0 s sys0_initial Hs 0%nat h 0%nat).
Defined.

Lemma spinlock_interrupts_off_witness :
  exists s, rtc step sys0 s /\ sie (cpus (mach s) 0%nat) = false /\ sie (cpus (mach s) 1%nat) = false.
Proof.
  destruct sys0_run as (s & Hs & Hh & Hp). exists s. split_and!; [done| |].
  - apply (spinlock_interrupts_off sys0 s sys0_initial Hs 0%nat). left. by rewrite Hh.
  - apply (spinlock_interrupts_off sys0 s sys0_initial Hs 1%nat). right; left. by rewrite Hp.
Defined.

Lemma acquire_release_restores_witness :
  exists s1 s2, acquire 0 0 1 smp0 = Done tt s1 /\ release 0 0 s1 = Done tt s2 /\
    sie (cpus s1 0%nat) = false /\ sie (cpus s2 0%nat) = true.
Proof.
  destruct (acquire_release_restores 0 0 smp0 0) as (s1 & s2 & E1 & H1 & E2 & _ & _ & _ & H2 & _).
  - split; simpl; [lia|]. lia.
  - reflexivity.
  - exists s1, s2. split_and!; done.
Defined.

Lemma spinlock_refines_monitor_witness :
  exists s', acquire 0 0 1 smp0 = Done tt s' /\ holds_lock s' 0 0 = true.
Proof.
  destruct (spinlock_refines_monitor 0 0 smp0 0) as [(s' & E & Hh & _) _].
  - split; simpl; [lia|]. lia.
  - by intros [=].
  - by right.
  - by exists s'.
Defined.
