(* ===== verification/Riscv.v ===== *)
(** * Constants and macros of kernel/riscv.h, kernel/memlayout.h and kernel/param.h

    Address arithmetic of the Sv39 page-table format and the physical and
    virtual memory layout. *)

From S2P Require Import Prelude.

(** ** kernel/riscv.h *)

Definition PGSIZE : Z := 4096.
Definition PGSHIFT : Z := 12.

Definition PGROUNDUP (sz : Z) : Z := Z.land (u64 (sz + PGSIZE - 1)) (Z.lnot (PGSIZE - 1)).
Definition PGROUNDDOWN (a : Z) : Z := Z.land a (Z.lnot (PGSIZE - 1)).

Definition PTE_V : Z := Z.shiftl 1 0.
Definition PTE_R : Z := Z.shiftl 1 1.
Definition PTE_W : Z := Z.shiftl 1 2.
Definition PTE_X : Z := Z.shiftl 1 3.
Definition PTE_U : Z := Z.shiftl 1 4.

Definition PA2PTE (pa : Z) : Z := u64 (Z.shiftl (Z.shiftr pa 12) 10).
Definition PTE2PA (pte : Z) : Z := u64 (Z.shiftl (Z.shiftr pte 10) 12).
Definition PTE_FLAGS (pte : Z) : Z := Z.land pte 0x3FF.

Definition PXMASK : Z := 0x1FF.
Definition PXSHIFT (level : Z) : Z := PGSHIFT + 9 * level.
Definition PX (level va : Z) : Z := Z.land (Z.shiftr va (PXSHIFT level)) PXMASK.

Definition MAXVA : Z := Z.shiftl 1 (9 + 9 + 9 + 12 - 1).

Definition SATP_SV39 : Z := Z.shiftl 8 60.
Definition MAKE_SATP (pagetable : Z) : Z := Z.lor SATP_SV39 (Z.shiftr pagetable 12).

Definition SSTATUS_SPP : Z := Z.shiftl 1 8.
Definition SSTATUS_SPIE : Z := Z.shiftl 1 5.
Definition SSTATUS_SIE : Z := Z.shiftl 1 1.

(** ** kernel/memlayout.h *)

Definition UART0 : Z := 0x10000000.
Definition UART0_IRQ : Z := 10.
Definition VIRTIO0 : Z := 0x10001000.
Definition VIRTIO0_IRQ : Z := 1.
Definition CLINT : Z := 0x2000000.
Definition CLINT_MTIMECMP (hartid : Z) : Z := CLINT + 0x4000 + 8 * hartid.
Definition CLINT_MTIME : Z := CLINT + 0xBFF8.
Definition PLIC : Z := 0x0c000000.
Definition PLIC_PRIORITY : Z := PLIC + 0x0.
Definition PLIC_PENDING : Z := PLIC + 0x1000.
Definition PLIC_MENABLE (hart : Z) : Z := PLIC + 0x2000 + hart * 0x100.
Definition PLIC_SENABLE (hart : Z) : Z := PLIC + 0x2080 + hart * 0x100.
Definition PLIC_MPRIORITY (hart : Z) : Z := PLIC + 0x200000 + hart * 0x2000.
Definition PLIC_SPRIORITY (hart : Z) : Z := PLIC + 0x201000 + hart * 0x2000.
Definition PLIC_MCLAIM (hart : Z) : Z := PLIC + 0x200004 + hart * 0x2000.
Definition PLIC_SCLAIM (hart : Z) : Z := PLIC + 0x201004 + hart * 0x2000.
Definition KERNBASE : Z := 0x80000000.
Definition PHYSTOP : Z := KERNBASE + 128 * 1024 * 1024.
Definition TRAMPOLINE : Z := MAXVA - PGSIZE.
Definition KSTACK (p : Z) : Z := TRAMPOLINE - (p + 1) * 2 * PGSIZE.
Definition TRAPFRAME : Z := TRAMPOLINE - PGSIZE.

(** ** kernel/param.h *)

Definition NPROC : Z := 64.
Definition NCPU : Z := 8.
Definition NOFILE : Z := 16.
Definition NFILE : Z := 100.
Definition NINODE : Z := 50.
Definition NDEV : Z := 10.
Definition ROOTDEV : Z := 1.
Definition MAXARG : Z := 32.
Definition MAXOPBLOCKS : Z := 10.
Definition LOGSIZE : Z := MAXOPBLOCKS * 3.
Definition NBUF : Z := MAXOPBLOCKS * 3.
Definition FSSIZE : Z := 1000.
Definition MAXPATH : Z := 128.

(** ** Arithmetic of pages *)

Lemma land_page_mask a : Z.land a (Z.lnot (PGSIZE - 1)) = PGSIZE * (a / PGSIZE).
Proof.
  change (PGSIZE - 1) with (Z.ones 12). rewrite <- Z.ldiff_land, Z.ldiff_ones_r by lia.
  rewrite Z.shiftl_mul_pow2, Z.shiftr_div_pow2 by lia.
  unfold PGSIZE. change (2 ^ 12) with 4096. lia.
Qed.

Lemma PGROUNDDOWN_eq a : PGROUNDDOWN a = PGSIZE * (a / PGSIZE).
Proof. apply land_page_mask. Qed.

Lemma PGROUNDUP_eq sz :
  0 <= sz -> sz + PGSIZE - 1 < 2 ^ 64 -> PGROUNDUP sz = PGSIZE * ((sz + PGSIZE - 1) / PGSIZE).
Proof.
  intros. unfold PGROUNDUP. rewrite u64_small by (unfold PGSIZE in *; lia). apply land_page_mask.
Qed.

(** Least page boundary at or above [sz]. *)
Lemma PGROUNDUP_bounds sz :
  0 <= sz -> sz + PGSIZE - 1 < 2 ^ 64 ->
  sz <= PGROUNDUP sz < sz + PGSIZE /\ PGROUNDUP sz mod PGSIZE = 0.
Proof.
  intros. rewrite PGROUNDUP_eq by done. unfold PGSIZE in *.
  rewrite Z.mul_comm, Z_mod_mult. divlia.
Qed.

Lemma PGROUNDDOWN_bounds a :
  PGROUNDDOWN a <= a < PGROUNDDOWN a + PGSIZE /\ PGROUNDDOWN a mod PGSIZE = 0.
Proof.
  rewrite PGROUNDDOWN_eq. unfold PGSIZE. rewrite (Z.mul_comm 4096), Z_mod_mult. divlia.
Qed.

Lemma PGROUNDUP_aligned a :
  0 <= a -> a + PGSIZE - 1 < 2 ^ 64 -> a mod PGSIZE = 0 -> PGROUNDUP a = a.
Proof. intros. rewrite PGROUNDUP_eq by done. unfold PGSIZE in *. divlia. Qed.

Lemma PGROUNDDOWN_aligned a : a mod PGSIZE = 0 -> PGROUNDDOWN a = a.
Proof. intros. rewrite PGROUNDDOWN_eq. unfold PGSIZE in *. divlia. Qed.

(** ** Page-table entries *)

Lemma lor_low k x n : 0 <= n -> 0 <= x < 2 ^ n -> Z.lor (k * 2 ^ n) x = k * 2 ^ n + x.
Proof.
  intros Hn Hx. symmetry. apply Z.add_nocarry_lor.
  rewrite <- (Z.mod_small x (2 ^ n)) by done. rewrite <- Z.land_ones by done.
  rewrite (Z.land_comm x), Z.land_assoc, Z.land_ones, Z_mod_mult by done. apply Z.land_0_l.
Qed.

Lemma PA2PTE_eq pa : 0 <= pa < 2 ^ 56 -> PA2PTE pa = pa / PGSIZE * 2 ^ 10.
Proof.
  intros. unfold PA2PTE. rewrite Z.shiftl_mul_pow2, Z.shiftr_div_pow2 by lia.
  change (2 ^ 12) with PGSIZE. apply u64_small. unfold PGSIZE. divlia.
Qed.

Lemma pte_encode pa perm :
  0 <= pa < 2 ^ 56 -> 0 <= perm < 2 ^ 10 -> Z.lor (PA2PTE pa) perm = pa / PGSIZE * 2 ^ 10 + perm.
Proof. intros. rewrite PA2PTE_eq by done. by apply lor_low. Qed.

Lemma pte_decode pa perm :
  0 <= pa < 2 ^ 56 -> pa mod PGSIZE = 0 -> 0 <= perm < 2 ^ 10 ->
  PTE2PA (Z.lor (PA2PTE pa) perm) = pa /\ PTE_FLAGS (Z.lor (PA2PTE pa) perm) = perm /\
  0 <= Z.lor (PA2PTE pa) perm < 2 ^ 64.
Proof.
  intros Hpa Ha Hp. rewrite pte_encode by done. unfold PTE2PA, PTE_FLAGS.
  change 0x3FF with (Z.ones 10). rewrite Z.land_ones by lia.
  rewrite Z.shiftl_mul_pow2, Z.shiftr_div_pow2 by lia.
  change (2 ^ 12) with PGSIZE. change (2 ^ 10) with 1024 in *. unfold PGSIZE in *.
  assert (((pa / 4096 * 1024 + perm) / 1024) = pa / 4096) as -> by divlia.
  split_and!; [rewrite u64_small|..]; divlia.
Qed.

(** A test of flag bits looks at the low ten bits only. *)
Lemma land_flags e c : Z.land 0x3FF c = c -> Z.land e c = Z.land (PTE_FLAGS e) c.
Proof. intros H. unfold PTE_FLAGS. by rewrite <- Z.land_assoc, H. Qed.

Lemma PX_range l va : 0 <= PX l va < 512.
Proof.
  unfold PX. change PXMASK with (Z.ones 9). rewrite Z.land_ones by lia.
  by apply Z.mod_pos_bound.
Qed.

Lemma PX_eq l va : 0 <= l -> PX l va = (va / 2 ^ (12 + 9 * l)) mod 512.
Proof.
  intros. unfold PX, PXSHIFT, PGSHIFT. change PXMASK with (Z.ones 9).
  rewrite Z.land_ones, Z.shiftr_div_pow2 by lia. done.
Qed.

(** The three indices determine the page of an address below [MAXVA]. *)
Lemma PX_inj va va' :
  0 <= va < MAXVA -> 0 <= va' < MAXVA ->
  PX 2 va = PX 2 va' -> PX 1 va = PX 1 va' -> PX 0 va = PX 0 va' ->
  va / PGSIZE = va' / PGSIZE.
Proof.
  rewrite !PX_eq by lia. change MAXVA with (2 ^ 38). unfold PGSIZE.
  change (2 ^ (12 + 9 * 2)) with 1073741824. change (2 ^ (12 + 9 * 1)) with 2097152.
  change (2 ^ (12 + 9 * 0)) with 4096. change (2 ^ 38) with 274877906944. intros. divlia.
Qed.

Lemma PX_page va : 0 <= va ->
  PX 2 (PGROUNDDOWN va) = PX 2 va /\ PX 1 (PGROUNDDOWN va) = PX 1 va /\
  PX 0 (PGROUNDDOWN va) = PX 0 va.
Proof.
  intros. rewrite !PX_eq, PGROUNDDOWN_eq by lia. unfold PGSIZE.
  change (2 ^ (12 + 9 * 2)) with 1073741824. change (2 ^ (12 + 9 * 1)) with 2097152.
  change (2 ^ (12 + 9 * 0)) with 4096. split_and!; f_equal; divlia.
Qed.
