(* ===== verification/Kalloc.v ===== *)
(** * Physical page allocator: kernel/kalloc.c

    The state is the allocator's lock and list head together with physical
    memory, in which the free list is threaded: the first eight bytes of a
    free page hold the address of the next free page. *)

From S2P Require Import Prelude CMem Riscv.

Record kmem := mk_kmem { kmem_lock : bool; freelist : Z; ram : mem }.

Definition set_kmem_lock (b : bool) (s : kmem) : kmem := mk_kmem b (freelist s) (ram s).
Definition set_freelist (p : Z) (s : kmem) : kmem := mk_kmem (kmem_lock s) p (ram s).
Definition set_ram (m : mem) (s : kmem) : kmem := mk_kmem (kmem_lock s) (freelist s) m.

Definition kmem_acquire : M kmem unit := acquire_lk kmem_lock set_kmem_lock.
Definition kmem_release : M kmem unit := release_lk kmem_lock set_kmem_lock.
Definition modify_ram (f : mem -> mem) : M kmem unit := modify (fun s => set_ram (f (ram s)) s).

Section Kalloc.

(** The linker symbol [end]: first address after the kernel. *)
Variable kend : Z.

Definition kfree (pa : Z) : M kmem unit :=
  if negb (pa mod PGSIZE =? 0) || (pa <? kend) || (pa >=? PHYSTOP) then panic "kfree" else
  modify_ram (fun m => memset m pa 1 PGSIZE) ;;;
  kmem_acquire ;;;
  head <- gets freelist ;;
  modify_ram (fun m => store64 m pa head) ;;;
  modify (set_freelist pa) ;;;
  kmem_release.

Definition kalloc : M kmem Z :=
  kmem_acquire ;;;
  r <- gets freelist ;;
  (if negb (r =? 0) then next <- gets (fun s => load64 (ram s) r) ;; modify (set_freelist next)
   else ret tt) ;;;
  kmem_release ;;;
  (if negb (r =? 0) then modify_ram (fun m => memset m r 5 PGSIZE) else ret tt) ;;;
  ret r.

(** [for(; p + PGSIZE <= pa_end; p += PGSIZE) kfree(p)] *)
Fixpoint freerange_loop (p pa_end : Z) (fuel : nat) : M kmem unit :=
  if p + PGSIZE <=? pa_end then
    match fuel with
    | O => exhausted
    | S f => kfree p ;;; freerange_loop (p + PGSIZE) pa_end f
    end
  else ret tt.

Definition freerange (pa_start pa_end : Z) (fuel : nat) : M kmem unit :=
  freerange_loop (PGROUNDUP pa_start) pa_end fuel.

Definition kinit (fuel : nat) : M kmem unit :=
  modify (set_kmem_lock false) ;;;
  freerange kend PHYSTOP fuel.

(** ** The free-list invariant *)

Definition page_ok (p : Z) : Prop := p mod PGSIZE = 0 /\ kend <= p < PHYSTOP.

Fixpoint freelist_rep (m : mem) (head : Z) (l : list Z) : Prop :=
  match l with
  | [] => head = 0
  | p :: l' => head = p /\ freelist_rep m (load64 m p) l'
  end.

Record kmem_inv (s : kmem) (l : list Z) : Prop := {
  kinv_lock : kmem_lock s = false;
  kinv_rep : freelist_rep (ram s) (freelist s) l;
  kinv_nodup : NoDup l;
  kinv_pages : Forall page_ok l;
}.

Hypothesis kend_range : KERNBASE <= kend <= PHYSTOP.

Lemma page_ok_range p : page_ok p -> 0 < p /\ p + PGSIZE <= PHYSTOP /\ PHYSTOP < 2 ^ 56.
Proof.
  intros [Hm Hr]. unfold PGSIZE, PHYSTOP, KERNBASE in *. divlia.
Qed.

Lemma page_ok_disjoint p q : page_ok p -> page_ok q -> p <> q -> p + PGSIZE <= q \/ q + PGSIZE <= p.
Proof. intros [? ?] [? ?] ?. unfold PGSIZE in *. divlia. Qed.

Lemma freelist_rep_ext m m' h l :
  (forall p, p ∈ l -> load64 m' p = load64 m p) -> freelist_rep m h l -> freelist_rep m' h l.
Proof.
  revert h. induction l as [|p l IH]; intros h He; simpl; [done|].
  intros [-> Hr]. split; [done|]. rewrite He by left. apply IH; [|done].
  intros q Hq. apply He. by right.
Qed.

(** The list survives any change of memory outside the free pages. *)
Lemma kmem_inv_ram s l m' :
  kmem_inv s l -> (forall p, p ∈ l -> load64 m' p = load64 (ram s) p) ->
  kmem_inv (set_ram m' s) l.
Proof. intros [] ?. split; simpl; try done. by eapply freelist_rep_ext. Qed.

Definition outside (p a : Z) : Prop := a < p \/ p + PGSIZE <= a.

Lemma load64_outside_page (m m' : mem) p q :
  page_ok p -> page_ok q -> p <> q -> (forall a, outside p a -> m' a = m a) ->
  load64 m' q = load64 m q.
Proof.
  intros Hp Hq Hne H. apply load64_ext. intros x Hx. apply H.
  destruct (page_ok_disjoint p q Hp Hq Hne); unfold outside, PGSIZE in *; lia.
Qed.

Lemma kfree_spec s l pa :
  kmem_inv s l -> page_ok pa -> pa ∉ l ->
  exists s', kfree pa s = Done tt s' /\ kmem_inv s' (pa :: l) /\
    (forall a, outside pa a -> ram s' a = ram s a).
Proof.
  intros [Hl Hr Hn Hf] Hp Hni. pose proof (page_ok_range _ Hp) as Hrg.
  unfold kfree. destruct Hp as [Hm Hb].
  rewrite Hm. simpl.
  destruct (Z.ltb_spec pa kend); [lia|]. destruct (Z.geb_spec pa PHYSTOP); [lia|]. simpl.
  unfold kmem_acquire, kmem_release, acquire_lk, release_lk, modify_ram, modify, bind; simpl.
  rewrite Hl. simpl. eexists. split; [reflexivity|].
  assert (forall a, outside pa a ->
            store64 (memset (ram s) pa 1 PGSIZE) pa (freelist s) a = ram s a) as Hout.
  { intros a Ha. unfold outside, PGSIZE in *. rewrite store64_outside by lia.
    apply memset_outside. lia. }
  split; [|exact Hout]. split; simpl; try done.
  - split; [done|]. rewrite load_store_same.
    assert (u64 (freelist s) = freelist s) as ->.
    { destruct l as [|q l]; simpl in Hr; [by rewrite Hr|].
      destruct Hr as [-> _]. apply Forall_cons in Hf as [Hq _].
      apply u64_small. pose proof (page_ok_range _ Hq). unfold PGSIZE in *. lia. }
    eapply freelist_rep_ext; [|done]. intros q Hq.
    apply (load64_outside_page _ _ pa); try done.
    + rewrite Forall_forall in Hf. by apply Hf.
    + by intros ->.
  - by constructor.
  - by constructor.
Qed.

Lemma kalloc_spec s l :
  kmem_inv s l ->
  match l with
  | [] => kalloc s = Done 0 s
  | p :: l' => exists s', kalloc s = Done p s' /\ kmem_inv s' l' /\
      (forall a, outside p a -> ram s' a = ram s a) /\
      (forall a, p <= a < p + PGSIZE -> ram s' a = byte.of_Z 5)
  end.
Proof.
  intros [Hl Hr Hn Hf]. destruct s as [lk fl m]; simpl in *; subst.
  unfold kalloc, kmem_acquire, kmem_release, acquire_lk, release_lk, modify_ram, modify, bind; simpl.
  destruct l as [|p l]; simpl in *; [by subst|]. destruct Hr as [-> Hr].
  apply Forall_cons in Hf as [Hp Hf]. apply NoDup_cons in Hn as [Hni Hn].
  pose proof (page_ok_range _ Hp).
  destruct (Z.eqb_spec p 0); [lia|]. simpl. eexists. split; [reflexivity|].
  split; [|split].
  - split; simpl; try done. eapply freelist_rep_ext; [|done]. intros q Hq.
    apply (load64_outside_page _ _ p); try done.
    + rewrite Forall_forall in Hf. by apply Hf.
    + by intros ->.
    + intros a Ha. unfold outside in Ha. by apply memset_outside.
  - intros a Ha. unfold outside in Ha. by apply memset_outside.
  - intros a Ha. simpl. rewrite memset_spec. zcmp.
Qed.

Lemma PHYSTOP_aligned : PHYSTOP mod PGSIZE = 0.
Proof. reflexivity. Qed.

Lemma freerange_loop_spec k : forall s l p fuel,
  kmem_inv s l -> p mod PGSIZE = 0 -> kend <= p -> p + Z.of_nat k * PGSIZE = PHYSTOP ->
  Forall (fun q => q < p) l -> (k <= fuel)%nat ->
  exists s' l', freerange_loop p PHYSTOP fuel s = Done tt s' /\ kmem_inv s' l' /\
    forall q, q ∈ l' <-> q ∈ l \/ q mod PGSIZE = 0 /\ p <= q < PHYSTOP.
Proof.
  induction k as [|k IH]; intros s l p fuel Hi Ha Hk Hend Hlt Hfuel.
  - exists s, l. destruct fuel; simpl; (destruct (Z.leb_spec (p + PGSIZE) PHYSTOP); [unfold PGSIZE in *; lia|]);
      (split; [done|]); (split; [done|]); intros q; (split; [by left|]); intros [|]; [done|unfold PGSIZE in *; lia|done|unfold PGSIZE in *; lia].
  - destruct fuel as [|fuel]; [lia|]. simpl.
    destruct (Z.leb_spec (p + PGSIZE) PHYSTOP); [|unfold PGSIZE in *; lia].
    assert (page_ok p) as Hp by (split; unfold PGSIZE in *; lia).
    assert (p ∉ l) as Hni by (intros Hin; rewrite Forall_forall in Hlt; specialize (Hlt _ Hin); lia).
    destruct (kfree_spec s l p Hi Hp Hni) as (s1 & E1 & Hi1 & _).
    rewrite (bind_Done _ _ _ _ _ E1).
    destruct (IH s1 (p :: l) (p + PGSIZE) fuel) as (s2 & l2 & E2 & Hi2 & Hl2); try done.
    + unfold PGSIZE in *. divlia.
    + unfold PGSIZE in *; lia.
    + unfold PGSIZE in *; lia.
    + constructor; [unfold PGSIZE; lia|]. eapply Forall_impl; [done|]. simpl. unfold PGSIZE. lia.
    + lia.
    + exists s2, l2. split_and!; try done. intros q. rewrite Hl2, elem_of_cons.
      unfold PGSIZE in *. split; [intros [[->|]|]; [right; lia|by left|right; lia]|].
      intros [|[Hq1 Hq2]]; [by left; right|].
      destruct (decide (q = p)) as [->|]; [by left; left|]. right. split; [done|]. divlia.
Qed.

Definition kinit_fuel : nat := Z.to_nat ((PHYSTOP - KERNBASE) / PGSIZE).

Lemma kinit_spec s :
  freelist s = 0 ->
  exists s' l, kinit kinit_fuel s = Done tt s' /\ kmem_inv s' l /\ forall p, p ∈ l <-> page_ok p.
Proof.
  intros Hz. unfold kinit, freerange.
  rewrite (bind_Done _ _ s tt (set_kmem_lock false s)) by reflexivity.
  assert (0 <= kend /\ kend + PGSIZE - 1 < 2 ^ 64) as [B1 B2]
    by (unfold KERNBASE, PHYSTOP, KERNBASE, PGSIZE in *; lia).
  destruct (PGROUNDUP_bounds kend B1 B2) as [Hb Ha].
  set (k := Z.to_nat ((PHYSTOP - PGROUNDUP kend) / PGSIZE)).
  destruct (freerange_loop_spec k (set_kmem_lock false s) [] (PGROUNDUP kend) kinit_fuel)
    as (s' & l & E & Hi & Hl).
  - split; simpl; try done; constructor.
  - exact Ha.
  - lia.
  - subst k. pose proof PHYSTOP_aligned as HP. unfold PGSIZE in *.
    assert (PGROUNDUP kend <= PHYSTOP) by (generalize dependent PHYSTOP; intros; divlia).
    rewrite Z2Nat.id by divlia. divlia.
  - constructor.
  - assert ((PHYSTOP - PGROUNDUP kend) / PGSIZE <= (PHYSTOP - KERNBASE) / PGSIZE) as Hle
      by (apply Z.div_le_mono; unfold PGSIZE; lia).
    subst k. unfold kinit_fuel. revert Hle.
    generalize ((PHYSTOP - PGROUNDUP kend) / PGSIZE) ((PHYSTOP - KERNBASE) / PGSIZE). lia.
  - exists s', l. split_and!; [exact E|exact Hi|]. intros p. rewrite Hl. unfold page_ok.
    unfold PGSIZE in *. split; [intros [?%not_elem_of_nil|]; [done|divlia]|right; divlia].
Qed.

(** ** Clients of the allocator

    A client state is the allocator with the set of pages handed out and not
    yet returned; their owners may write anywhere in them. *)
Inductive client_step : kmem * gset Z -> kmem * gset Z -> Prop :=
| client_kalloc s O r s' :
    kalloc s = Done r s' -> client_step (s, O) (s', if r =? 0 then O else {[r]} ∪ O)
| client_kfree s O p s' :
    p ∈ O -> kfree p s = Done tt s' -> client_step (s, O) (s', O ∖ {[p]})
| client_write s O p a b :
    p ∈ O -> p <= a < p + PGSIZE -> client_step (s, O) (set_ram (upd (ram s) a b) s, O).

(** Every page is either on the free list or handed out, never both. *)
Definition client_inv (c : kmem * gset Z) : Prop :=
  exists l, kmem_inv (fst c) l /\ (forall p, page_ok p <-> p ∈ l \/ p ∈ snd c) /\
    (forall p, p ∈ l -> p ∉ snd c).

Lemma client_step_inv c c' : client_inv c -> client_step c c' -> client_inv c'.
Proof.
  intros (l & Hi & Hall & Hdis) Hs. destruct Hs as [s O r s' E|s O p s' Hp E|s O p a b Hp Ha]; simpl in *.
  - pose proof (kalloc_spec s l Hi) as Hk. destruct l as [|q l].
    + rewrite E in Hk. injection Hk as -> ->. by exists [].
    + destruct Hk as (s1 & E1 & Hi1 & _). rewrite E in E1. injection E1 as -> ->.
      pose proof (kinv_nodup _ _ Hi) as [Hnq _]%NoDup_cons.
      assert (page_ok q) as Hq by (apply Hall; left; left).
      destruct (Z.eqb_spec q 0); [pose proof (page_ok_range _ Hq); lia|].
      exists l. split; [done|]. split.
      * intros p. rewrite Hall. set_solver.
      * intros p Hin. specialize (Hdis p). set_solver.
  - assert (page_ok p) as Hpk by (apply Hall; by right).
    assert (p ∉ l) as Hni by (intros Hin; by apply (Hdis p)).
    destruct (kfree_spec s l p Hi Hpk Hni) as (s1 & E1 & Hi1 & _).
    rewrite E in E1. injection E1 as ->.
    exists (p :: l). split; [done|]. split.
    + intros q. simpl. rewrite Hall, elem_of_cons, elem_of_difference, elem_of_singleton.
      destruct (decide (q = p)); set_solver.
    + intros q. simpl. set_solver.
  - exists l. split_and!; [|done|done].
    apply kmem_inv_ram; [done|]. intros q Hq. apply (load64_outside_page _ _ p).
    + apply Hall. by right.
    + apply Hall. by left.
    + intros ->. by apply (Hdis q).
    + intros x Hx. apply upd_other. unfold outside in Hx. lia.
Qed.

Lemma client_reachable_inv c c' : client_inv c -> rtc client_step c c' -> client_inv c'.
Proof.
  intros Hc Hs. induction Hs as [|c1 c2 c3 H _ IH]; [done|]. apply IH. by eapply client_step_inv.
Qed.

(** ** Properties *)

(** [kinit] terminates without panicking and leaves a well-formed free
    list holding exactly the aligned pages between [end] and [PHYSTOP], each
    once. *)
Theorem kinit_frees_all_pages s :
  freelist s = 0 ->
  exists s' l, kinit kinit_fuel s = Done tt s' /\ kmem_inv s' l /\ NoDup l /\
    forall p, p ∈ l <-> p mod PGSIZE = 0 /\ kend <= p < PHYSTOP.
Proof.
  intros Hz. destruct (kinit_spec s Hz) as (s' & l & E & Hi & Hl).
  exists s', l. split_and!; [exact E|exact Hi|apply Hi|exact Hl].
Qed.

(** [C7] In every run of clients that allocate, free pages they own and write
    inside pages they own, starting right after [kinit]: [kalloc] never
    panics and never returns a page that is handed out; it returns 0 only
    when every page is handed out; and [kfree] of an owned page succeeds. *)
Theorem kalloc_no_double_allocation s0 s1 s O :
  freelist s0 = 0 -> kinit kinit_fuel s0 = Done tt s1 ->
  rtc client_step (s1, ∅) (s, O) ->
  (exists r s', kalloc s = Done r s' /\
     (r = 0 /\ s' = s /\ (forall p, page_ok p -> p ∈ O) \/
      page_ok r /\ r ∉ O /\ (forall a, r <= a < r + PGSIZE -> ram s' a = byte.of_Z 5))) /\
  (forall p, p ∈ O -> exists s', kfree p s = Done tt s').
Proof.
  intros Hz E0 Hs. destruct (kinit_spec s0 Hz) as (s1' & l0 & E1 & Hi & Hl).
  rewrite E0 in E1. injection E1 as <-.
  assert (client_inv (s1, ∅)) as Hc.
  { exists l0. simpl. split_and!; [exact Hi|intros p; rewrite Hl; set_solver|set_solver]. }
  apply (client_reachable_inv _ _ Hc) in Hs. clear Hc.
  destruct Hs as (l & Hk & Hall & Hdis); simpl in *. split.
  - pose proof (kalloc_spec s l Hk) as Hspec. destruct l as [|p l].
    + exists 0, s. split; [done|]. left. split_and!; try done. intros p Hp. set_solver.
    + destruct Hspec as (s' & E & _ & _ & Hj). exists p, s'. split; [done|]. right.
      split_and!; [apply Hall; left; left|apply Hdis; left|done].
  - intros p Hp. destruct (kfree_spec s l p Hk) as (s' & E & _); [apply Hall; by right| |by exists s'].
    intros Hin. by apply (Hdis p).
Qed.

(** [kfree] rejects every address that is not a page of the managed
    range, and on a page that is not free it pushes it on the list, filling
    the page with junk and touching no byte outside it. *)
Theorem kfree_checks_and_pushes s l pa :
  kmem_inv s l ->
  (~ page_ok pa -> kfree pa s = Panicked "kfree") /\
  (page_ok pa -> pa ∉ l ->
   exists s', kfree pa s = Done tt s' /\ kmem_inv s' (pa :: l) /\ freelist s' = pa /\
     (forall a, outside pa a -> ram s' a = ram s a)).
Proof.
  intros Hi. split.
  - intros Hn. unfold kfree. destruct (_ || _) eqn:E; [done|].
    destruct Hn. unfold page_ok. apply orb_false_elim in E as [[E1 E2]%orb_false_elim E3].
    apply negb_false_iff in E1. lia.
  - intros Hp Hni. destruct (kfree_spec s l pa Hi Hp Hni) as (s' & E & Hi' & Ho).
    exists s'. split_and!; try done. apply (kinv_rep _ _ Hi').
Qed.

End Kalloc.

(** *** Witnesses: a kernel image ending two pages below PHYSTOP *)

Definition small_end : Z := PHYSTOP - 2 * PGSIZE - 100.
Definition boot_kmem : kmem := mk_kmem false 0 (fun _ => Byte.x00).

Lemma small_end_range : KERNBASE <= small_end <= PHYSTOP.
Proof. split; vm_compute; congruence. Defined.

Lemma kinit_frees_all_pages_witness :
  exists s' l, kinit small_end kinit_fuel boot_kmem = Done tt s' /\ kmem_inv small_end s' l /\
    (PHYSTOP - PGSIZE) ∈ l.
Proof.
  destruct (kinit_frees_all_pages small_end small_end_range boot_kmem eq_refl)
    as (s' & l & E & Hi & _ & Hl).
  exists s', l. split; [exact E|]. split; [exact Hi|]. apply Hl. by vm_compute.
Defined.

Lemma kalloc_no_double_allocation_witness :
  exists s1 s2 r, kinit small_end kinit_fuel boot_kmem = Done tt s1 /\
    kalloc s1 = Done r s2 /\ ~ (r = 0 /\ forall p, page_ok small_end p -> p ∈ (∅ : gset Z)).
Proof.
  destruct (kinit_spec small_end small_end_range boot_kmem eq_refl) as (s1 & l & E & _ & _).
  destruct (kalloc_no_double_allocation small_end small_end_range boot_kmem s1 s1 ∅ eq_refl E)
    as [(r & s2 & E2 & _) _]; [apply rtc_refl|].
  exists s1, s2, r. split; [exact E|]. split; [exact E2|].
  intros [_ H]. specialize (H (PHYSTOP - PGSIZE)).
  apply (not_elem_of_empty (C := gset Z) (PHYSTOP - PGSIZE)), H. by vm_compute.
Defined.

Lemma kfree_checks_and_pushes_witness :
  kfree small_end 17 boot_kmem = Panicked "kfree" /\
  exists s', kfree small_end (PHYSTOP - PGSIZE) boot_kmem = Done tt s' /\
    freelist s' = PHYSTOP - PGSIZE.
Proof.
  assert (kmem_inv small_end boot_kmem []) as Hi by (split; simpl; try done; constructor).
  destruct (kfree_checks_and_pushes small_end small_end_range boot_kmem [] (PHYSTOP - PGSIZE) Hi)
    as [_ H2].
  split.
  - apply (kfree_checks_and_pushes small_end small_end_range boot_kmem [] 17 Hi).
    intros [H _]. by vm_compute in H.
  - destruct H2 as (s' & E & _ & F & _); [by vm_compute|apply not_elem_of_nil|]. by exists s'.
Defined.
