(* ===== verification/Vm.v ===== *)
(** * Page tables and user memory: kernel/vm.c

    Page tables live in physical memory ([ram] of the allocator state); a
    [pagetable_t] and a pointer to a PTE are physical addresses, 0 is the null
    pointer.  Every function of vm.c is translated; loops whose bound is not
    structural take fuel, and the theorems give enough of it. *)

From S2P Require Import Prelude CMem Riscv Kalloc.

Section Vm.

Variable kend : Z.

Local Notation kfree := (kfree kend).

Definition read_pte (a : Z) : M kmem Z := gets (fun s => load64 (ram s) a).
Definition write_pte (a v : Z) : M kmem unit := modify_ram (fun m => store64 m a v).

Definition valid (pte : Z) : bool := negb (Z.land pte PTE_V =? 0).

(** The body of [walk]'s loop for [level = 2, 1]. *)
Fixpoint walk_levels (level : nat) (pagetable va : Z) (alloc : bool) : M kmem Z :=
  match level with
  | O => ret (pagetable + 8 * PX 0 va)
  | S l =>
      let pte := pagetable + 8 * PX (Z.of_nat level) va in
      e <- read_pte pte ;;
      if valid e then walk_levels l (PTE2PA e) va alloc
      else if negb alloc then ret 0 else
        p <- kalloc ;;
        if p =? 0 then ret 0 else
        modify_ram (fun m => memset m p 0 PGSIZE) ;;;
        write_pte pte (Z.lor (PA2PTE p) PTE_V) ;;;
        walk_levels l p va alloc
  end.

Definition walk (pagetable va : Z) (alloc : bool) : M kmem Z :=
  if va >=? MAXVA then panic "walk" else walk_levels 2 pagetable va alloc.

Definition walkaddr (pagetable va : Z) : M kmem Z :=
  if va >=? MAXVA then ret 0 else
  pte <- walk pagetable va false ;;
  if pte =? 0 then ret 0 else
  e <- read_pte pte ;;
  if Z.land e PTE_V =? 0 then ret 0 else
  if Z.land e PTE_U =? 0 then ret 0 else
  ret (PTE2PA e).

Fixpoint mappages_loop (pagetable a last pa perm : Z) (fuel : nat) : M kmem Z :=
  match fuel with
  | O => exhausted
  | S f =>
      pte <- walk pagetable a true ;;
      if pte =? 0 then ret (-1) else
      e <- read_pte pte ;;
      if valid e then panic "remap" else
      write_pte pte (Z.lor (Z.lor (PA2PTE pa) perm) PTE_V) ;;;
      if a =? last then ret 0 else
      mappages_loop pagetable (u64 (a + PGSIZE)) last (u64 (pa + PGSIZE)) perm f
  end.

Definition mappages (pagetable va size pa perm : Z) (fuel : nat) : M kmem Z :=
  mappages_loop pagetable (PGROUNDDOWN va) (PGROUNDDOWN (u64 (va + size - 1))) pa perm fuel.

Definition kvmmap (kernel_pagetable va pa sz perm : Z) (fuel : nat) : M kmem unit :=
  r <- mappages kernel_pagetable va sz pa perm fuel ;;
  if negb (r =? 0) then panic "kvmmap" else ret tt.

Definition kvmpa (kernel_pagetable va : Z) : M kmem Z :=
  let off := va mod PGSIZE in
  pte <- walk kernel_pagetable va false ;;
  if pte =? 0 then panic "kvmpa" else
  e <- read_pte pte ;;
  if Z.land e PTE_V =? 0 then panic "kvmpa" else
  ret (u64 (PTE2PA e + off)).

(** [etext] and [trampoline] are linker symbols. *)
Definition kvminit (etext trampoline : Z) (fuel : nat) : M kmem Z :=
  kernel_pagetable <- kalloc ;;
  modify_ram (fun m => memset m kernel_pagetable 0 PGSIZE) ;;;
  kvmmap kernel_pagetable UART0 UART0 PGSIZE (Z.lor PTE_R PTE_W) fuel ;;;
  kvmmap kernel_pagetable VIRTIO0 VIRTIO0 PGSIZE (Z.lor PTE_R PTE_W) fuel ;;;
  kvmmap kernel_pagetable CLINT CLINT 0x10000 (Z.lor PTE_R PTE_W) fuel ;;;
  kvmmap kernel_pagetable PLIC PLIC 0x400000 (Z.lor PTE_R PTE_W) fuel ;;;
  kvmmap kernel_pagetable KERNBASE KERNBASE (etext - KERNBASE) (Z.lor PTE_R PTE_X) fuel ;;;
  kvmmap kernel_pagetable etext etext (PHYSTOP - etext) (Z.lor PTE_R PTE_W) fuel ;;;
  kvmmap kernel_pagetable TRAMPOLINE trampoline PGSIZE (Z.lor PTE_R PTE_X) fuel ;;;
  ret kernel_pagetable.

Fixpoint uvmunmap_loop (pagetable a last : Z) (do_free : bool) (fuel : nat) : M kmem unit :=
  match fuel with
  | O => exhausted
  | S f =>
      pte <- walk pagetable a false ;;
      if pte =? 0 then panic "uvmunmap: walk" else
      e <- read_pte pte ;;
      if Z.land e PTE_V =? 0 then panic "uvmunmap: not mapped" else
      if PTE_FLAGS e =? PTE_V then panic "uvmunmap: not a leaf" else
      (if do_free then kfree (PTE2PA e) else ret tt) ;;;
      write_pte pte 0 ;;;
      if a =? last then ret tt else
      uvmunmap_loop pagetable (u64 (a + PGSIZE)) last do_free f
  end.

Definition uvmunmap (pagetable va size : Z) (do_free : bool) (fuel : nat) : M kmem unit :=
  uvmunmap_loop pagetable (PGROUNDDOWN va) (PGROUNDDOWN (u64 (va + size - 1))) do_free fuel.

Definition uvmcreate : M kmem Z :=
  pagetable <- kalloc ;;
  if pagetable =? 0 then panic "uvmcreate: out of memory" else
  modify_ram (fun m => memset m pagetable 0 PGSIZE) ;;;
  ret pagetable.

Definition user_perm : Z := Z.lor (Z.lor (Z.lor PTE_W PTE_R) PTE_X) PTE_U.

(** [src] holds the bytes of the init code; its length is [sz]. *)
Definition uvminit (pagetable : Z) (src : list byte) (fuel : nat) : M kmem unit :=
  if Z.of_nat (length src) >=? PGSIZE then panic "inituvm: more than a page" else
  mem <- kalloc ;;
  modify_ram (fun m => memset m mem 0 PGSIZE) ;;;
  _ <- mappages pagetable 0 PGSIZE mem user_perm fuel ;;
  modify_ram (fun m => write_bytes m mem src).

Definition uvmdealloc (pagetable oldsz newsz : Z) (fuel : nat) : M kmem Z :=
  if newsz >=? oldsz then ret oldsz else
  let newup := PGROUNDUP newsz in
  (if newup <? PGROUNDUP oldsz then uvmunmap pagetable newup (u64 (oldsz - newup)) true fuel
   else ret tt) ;;;
  ret newsz.

Fixpoint uvmalloc_loop (pagetable a oldsz newsz : Z) (fuel : nat) : M kmem Z :=
  if a <? newsz then
    match fuel with
    | O => exhausted
    | S f =>
        mem <- kalloc ;;
        if mem =? 0 then _ <- uvmdealloc pagetable a oldsz f ;; ret 0 else
        modify_ram (fun m => memset m mem 0 PGSIZE) ;;;
        r <- mappages pagetable a PGSIZE mem user_perm f ;;
        if negb (r =? 0) then kfree mem ;;; _ <- uvmdealloc pagetable a oldsz f ;; ret 0 else
        uvmalloc_loop pagetable (u64 (a + PGSIZE)) oldsz newsz f
    end
  else ret newsz.

Definition uvmalloc (pagetable oldsz newsz : Z) (fuel : nat) : M kmem Z :=
  if newsz <? oldsz then ret oldsz else
  uvmalloc_loop pagetable (PGROUNDUP oldsz) (PGROUNDUP oldsz) newsz fuel.

(** The loop over the 512 entries of one table; [rec] frees a lower table. *)
Fixpoint freewalk_loop (rec : Z -> M kmem unit) (pagetable : Z) (i : Z) (left : nat) : M kmem unit :=
  match left with
  | O => ret tt
  | S left' =>
      pte <- read_pte (pagetable + 8 * i) ;;
      (if valid pte && (Z.land pte (Z.lor (Z.lor PTE_R PTE_W) PTE_X) =? 0) then
         rec (PTE2PA pte) ;;; write_pte (pagetable + 8 * i) 0
       else if valid pte then panic "freewalk: leaf" else ret tt) ;;;
      freewalk_loop rec pagetable (i + 1) left'
  end.

Fixpoint freewalk (depth : nat) (pagetable : Z) : M kmem unit :=
  match depth with
  | O => exhausted
  | S d => freewalk_loop (freewalk d) pagetable 0 512 ;;; kfree pagetable
  end.

Definition uvmfree (pagetable sz : Z) (fuel : nat) : M kmem unit :=
  uvmunmap pagetable 0 sz true fuel ;;;
  freewalk 3 pagetable.

Fixpoint uvmcopy_loop (old new i sz : Z) (fuel : nat) : M kmem Z :=
  if i <? sz then
    match fuel with
    | O => exhausted
    | S f =>
        pte <- walk old i false ;;
        if pte =? 0 then panic "uvmcopy: pte should exist" else
        e <- read_pte pte ;;
        if Z.land e PTE_V =? 0 then panic "uvmcopy: page not present" else
        let pa := PTE2PA e in
        let flags := PTE_FLAGS e in
        mem <- kalloc ;;
        if mem =? 0 then uvmunmap new 0 i true fuel ;;; ret (-1) else
        modify_ram (fun m => memmove m mem pa PGSIZE) ;;;
        r <- mappages new i PGSIZE mem flags fuel ;;
        if negb (r =? 0) then kfree mem ;;; uvmunmap new 0 i true fuel ;;; ret (-1) else
        uvmcopy_loop old new (u64 (i + PGSIZE)) sz f
    end
  else ret 0.

Definition uvmcopy (old new sz : Z) (fuel : nat) : M kmem Z := uvmcopy_loop old new 0 sz fuel.

Definition uvmclear (pagetable va : Z) : M kmem unit :=
  pte <- walk pagetable va false ;;
  if pte =? 0 then panic "uvmclear" else
  e <- read_pte pte ;;
  write_pte pte (Z.land e (Z.lnot PTE_U)).

(** [src] is the kernel buffer; its length is [len]. *)
Fixpoint copyout (pagetable dstva : Z) (src : list byte) (fuel : nat) : M kmem Z :=
  let len := Z.of_nat (length src) in
  if len >? 0 then
    match fuel with
    | O => exhausted
    | S f =>
        let va0 := PGROUNDDOWN dstva in
        pa0 <- walkaddr pagetable va0 ;;
        if pa0 =? 0 then ret (-1) else
        let n0 := PGSIZE - (dstva - va0) in
        let n := if n0 >? len then len else n0 in
        modify_ram (fun m => write_bytes m (pa0 + (dstva - va0)) (take (Z.to_nat n) src)) ;;;
        copyout pagetable (u64 (va0 + PGSIZE)) (drop (Z.to_nat n) src) f
    end
  else ret 0.

(** Returns the status and the bytes that were stored at [dst]. *)
Fixpoint copyin (pagetable srcva len : Z) (fuel : nat) : M kmem (Z * list byte) :=
  if len >? 0 then
    match fuel with
    | O => exhausted
    | S f =>
        let va0 := PGROUNDDOWN srcva in
        pa0 <- walkaddr pagetable va0 ;;
        if pa0 =? 0 then ret (-1, []) else
        let n0 := PGSIZE - (srcva - va0) in
        let n := if n0 >? len then len else n0 in
        bs <- gets (fun s => read_bytes (ram s) (pa0 + (srcva - va0)) (Z.to_nat n)) ;;
        r <- copyin pagetable (u64 (va0 + PGSIZE)) (len - n) f ;;
        ret (fst r, bs ++ snd r)
    end
  else ret (0, []).

(** The inner loop of [copyinstr] over at most [n] bytes of one page: the
    bytes stored, and whether the NUL was among them. *)
Fixpoint copyinstr_page (m : mem) (p : Z) (n : nat) : list byte * bool :=
  match n with
  | O => ([], false)
  | S n' =>
      if Byte.eqb (m p) Byte.x00 then ([Byte.x00], true)
      else let '(bs, got) := copyinstr_page m (p + 1) n' in (m p :: bs, got)
  end.

(** Returns the status and the bytes stored at [dst]. *)
Fixpoint copyinstr (pagetable srcva max : Z) (fuel : nat) : M kmem (Z * list byte) :=
  if max >? 0 then
    match fuel with
    | O => exhausted
    | S f =>
        let va0 := PGROUNDDOWN srcva in
        pa0 <- walkaddr pagetable va0 ;;
        if pa0 =? 0 then ret (-1, []) else
        let n0 := PGSIZE - (srcva - va0) in
        let n := if n0 >? max then max else n0 in
        r <- gets (fun s => copyinstr_page (ram s) (pa0 + (srcva - va0)) (Z.to_nat n)) ;;
        if snd r then ret (0, fst r) else
        r' <- copyinstr pagetable (u64 (va0 + PGSIZE)) (max - n) f ;;
        ret (fst r', fst r ++ snd r')
    end
  else ret (-1, []).

(** ** Page-table trees

    A three-level table as an abstract tree: the root page, the level-1 page
    under each root index, and the level-0 page under each pair of indices. *)

Record ptree := mk_ptree { pt_root : Z; pt_l1 : gmap Z Z; pt_l0 : gmap (Z * Z) Z }.

(** Positions of tables in the tree. *)
Inductive pos := PRoot | PMid (i : Z) | PLow (i j : Z).

Definition table_at (T : ptree) (p : pos) : option Z :=
  match p with
  | PRoot => Some (pt_root T)
  | PMid i => pt_l1 T !! i
  | PLow i j => pt_l0 T !! (i, j)
  end.

(** Tables whose entries point to further tables, and the position below. *)
Definition upper (p : pos) : Prop := match p with PLow _ _ => False | _ => True end.
Definition child (p : pos) (i : Z) : pos :=
  match p with PRoot => PMid i | PMid k => PLow k i | PLow k j => PLow k j end.

Definition entry (m : mem) (t i : Z) : Z := load64 m (t + 8 * i).

(** An entry of an upper table agrees with the tree's child, if any. *)
Definition child_ok (e : Z) (c : option Z) : Prop :=
  match c with
  | Some t => e = Z.lor (PA2PTE t) PTE_V
  | None => valid e = false
  end.

(** The indices [walk] uses below a table: addresses end at [MAXVA], so the
    upper half of the root is never used. *)
Definition index_ok (p : pos) (i : Z) : Prop := 0 <= i < match p with PRoot => 256 | _ => 512 end.

Record pt_rep (m : mem) (T : ptree) : Prop := {
  rep_page p t : table_at T p = Some t -> page_ok kend t;
  rep_inj p q t : table_at T p = Some t -> table_at T q = Some t -> p = q;
  rep_child p t i : upper p -> table_at T p = Some t -> 0 <= i < 512 ->
    child_ok (entry m t i) (table_at T (child p i));
  rep_dom i j t : pt_l0 T !! (i, j) = Some t -> is_Some (pt_l1 T !! i);
  rep_index p i t : upper p -> table_at T (child p i) = Some t -> index_ok p i;
}.

(** The leaf entry for an address; 0 (invalid) where there is no leaf table. *)
Definition pte_of (m : mem) (T : ptree) (va : Z) : Z :=
  match pt_l0 T !! (PX 2 va, PX 1 va) with
  | Some t => entry m t (PX 0 va)
  | None => 0
  end.

(** Its address, as [walk] returns it. *)
Definition pte_addr (T : ptree) (va : Z) : Z :=
  match pt_l0 T !! (PX 2 va, PX 1 va) with
  | Some t => t + 8 * PX 0 va
  | None => 0
  end.

Record vm_inv (s : kmem) (T : ptree) (l : list Z) : Prop := {
  vm_kmem : kmem_inv kend s l;
  vm_rep : pt_rep (ram s) T;
  vm_tables p t : table_at T p = Some t -> t ∉ l;
}.

Hypothesis kend_range : KERNBASE <= kend <= PHYSTOP.

Local Notation page_ok := (page_ok kend).

Lemma page_bounds t : page_ok t -> 0 < t /\ t mod PGSIZE = 0 /\ t < 2 ^ 56 /\ t + PGSIZE <= PHYSTOP.
Proof.
  intros H. pose proof (page_ok_range kend kend_range t H). destruct H. unfold PGSIZE in *. lia.
Qed.

Lemma valid_0 : valid 0 = false.
Proof. done. Qed.

Lemma valid_lor x : valid (Z.lor x PTE_V) = true.
Proof.
  unfold valid. apply negb_true_iff, Z.eqb_neq. change PTE_V with 1.
  intros H. assert (Z.testbit (Z.land (Z.lor x 1) 1) 0 = true) as E.
  { rewrite Z.land_spec, Z.lor_spec. simpl. by rewrite orb_true_r. }
  by rewrite H in E.
Qed.

Lemma child_pte t : page_ok t ->
  valid (Z.lor (PA2PTE t) PTE_V) = true /\ PTE2PA (Z.lor (PA2PTE t) PTE_V) = t.
Proof.
  intros (H1 & H2 & H3 & _)%page_bounds. split; [apply valid_lor|].
  apply pte_decode; [lia|done|]. change PTE_V with 1. lia.
Qed.

Lemma walk_noalloc s T va :
  pt_rep (ram s) T -> 0 <= va < MAXVA ->
  walk (pt_root T) va false s = Done (pte_addr T va) s.
Proof.
  intros Hr Hva. unfold walk. destruct (Z.geb_spec va MAXVA); [lia|].
  unfold walk_levels, read_pte, bind, gets. cbn [obind].
  change (Z.of_nat 2) with 2. change (Z.of_nat 1) with 1.
  pose proof (rep_child _ _ Hr PRoot _ (PX 2 va) I eq_refl (PX_range 2 va)) as H1.
  unfold entry in H1. cbn [table_at child] in H1.
  unfold pte_addr. destruct (pt_l1 T !! PX 2 va) as [t1|] eqn:E1; cbn [child_ok] in H1.
  - destruct (child_pte t1) as [V1 P1]; [by apply (rep_page _ _ Hr (PMid (PX 2 va)))|].
    rewrite H1, V1, P1.
    pose proof (rep_child _ _ Hr (PMid (PX 2 va)) t1 (PX 1 va) I E1 (PX_range 1 va)) as H0.
    unfold entry in H0. cbn [table_at child] in H0.
    destruct (pt_l0 T !! (PX 2 va, PX 1 va)) as [t0|] eqn:E0; cbn [child_ok] in H0.
    + destruct (child_pte t0) as [V0 P0]; [by apply (rep_page _ _ Hr (PLow (PX 2 va) (PX 1 va)))|].
      by rewrite H0, V0, P0.
    + by rewrite H0.
  - rewrite H1. destruct (pt_l0 T !! (PX 2 va, PX 1 va)) as [t0|] eqn:E0; [|done].
    destruct (rep_dom _ _ Hr _ _ _ E0). congruence.
Qed.

(** Where the leaf table exists, [walk] allocates nothing. *)
Lemma walk_present s T va t alloc :
  pt_rep (ram s) T -> 0 <= va < MAXVA -> pt_l0 T !! (PX 2 va, PX 1 va) = Some t ->
  walk (pt_root T) va alloc s = Done (t + 8 * PX 0 va) s.
Proof.
  intros Hr Hva Et. destruct (rep_dom _ _ Hr _ _ _ Et) as [t1 Et1].
  unfold walk. destruct (Z.geb_spec va MAXVA); [lia|].
  unfold walk_levels, read_pte, bind, gets. cbn [obind].
  change (Z.of_nat 2) with 2. change (Z.of_nat 1) with 1.
  pose proof (rep_child _ _ Hr PRoot _ (PX 2 va) I eq_refl (PX_range _ _)) as C1.
  cbn [table_at child] in C1. rewrite Et1 in C1. unfold entry in C1. rewrite C1.
  destruct (child_pte t1) as [V1 P1]; [by apply (rep_page _ _ Hr (PMid (PX 2 va)))|]. rewrite V1, P1.
  pose proof (rep_child _ _ Hr (PMid _) t1 (PX 1 va) I Et1 (PX_range _ _)) as C0.
  cbn [table_at child] in C0. rewrite Et in C0. unfold entry in C0. rewrite C0.
  destruct (child_pte t) as [V0 P0]; [by apply (rep_page _ _ Hr (PLow (PX 2 va) (PX 1 va)))|].
  by rewrite V0, P0.
Qed.

(** ** Changing memory under a tree *)

Lemma entry_ext m m' t i :
  (forall a, t + 8 * i <= a < t + 8 * i + 8 -> m' a = m a) -> entry m' t i = entry m t i.
Proof. intros H. apply load64_ext, H. Qed.

Lemma entry_frame m m' p t i :
  page_ok p -> page_ok t -> p <> t -> 0 <= i < 512 ->
  (forall a, outside p a -> m' a = m a) -> entry m' t i = entry m t i.
Proof.
  intros Hp Ht Hne Hi H. apply entry_ext. intros a Ha. apply H.
  destruct (page_ok_disjoint kend p t Hp Ht Hne); unfold outside, PGSIZE in *; lia.
Qed.

(** Writes that leave the entries of upper tables alone keep the tree. *)
Lemma pt_rep_frame m m' T :
  pt_rep m T ->
  (forall p t i, upper p -> table_at T p = Some t -> 0 <= i < 512 -> entry m' t i = entry m t i) ->
  pt_rep m' T.
Proof.
  intros [R1 R2 R3 R4 R5] H. split; try done.
  intros p t i Hp Ht Hi. rewrite (H p) by done. by apply R3.
Qed.

Lemma pt_rep_outside m m' T :
  pt_rep m T -> (forall p t a, table_at T p = Some t -> t <= a < t + PGSIZE -> m' a = m a) ->
  pt_rep m' T.
Proof.
  intros Hr H. eapply pt_rep_frame; [done|]. intros p t i _ Ht Hi.
  apply entry_ext. intros a Ha. apply (H p t); [done|]. unfold PGSIZE. lia.
Qed.

Lemma pte_of_outside m m' T va :
  (forall p t a, table_at T p = Some t -> t <= a < t + PGSIZE -> m' a = m a) ->
  pte_of m' T va = pte_of m T va.
Proof.
  intros H. unfold pte_of. destruct (pt_l0 T !! _) as [t|] eqn:E; [|done].
  apply entry_ext. intros a Ha. apply (H (PLow (PX 2 va) (PX 1 va)) t); [done|].
  pose proof (PX_range 0 va). unfold PGSIZE. lia.
Qed.

Lemma pte_of_same_page m T va va' :
  0 <= va -> 0 <= va' -> va / PGSIZE = va' / PGSIZE -> pte_of m T va = pte_of m T va'.
Proof.
  intros H1 H2 E. assert (PGROUNDDOWN va = PGROUNDDOWN va') as E' by (rewrite !PGROUNDDOWN_eq; congruence).
  destruct (PX_page va H1) as (A1 & A2 & A3), (PX_page va' H2) as (B1 & B2 & B3).
  unfold pte_of. by rewrite <- A1, <- A2, <- A3, <- B1, <- B2, <- B3, E'.
Qed.

(** Writing the leaf entry of [va] changes that leaf only. *)
Lemma write_leaf m T va v t :
  pt_rep m T -> 0 <= va < MAXVA -> 0 <= v < 2 ^ 64 -> pt_l0 T !! (PX 2 va, PX 1 va) = Some t ->
  let m' := store64 m (t + 8 * PX 0 va) v in
  pt_rep m' T /\ pte_of m' T va = v /\
  (forall va', 0 <= va' < MAXVA -> va' / PGSIZE <> va / PGSIZE -> pte_of m' T va' = pte_of m T va') /\
  (forall a, outside t a -> m' a = m a).
Proof.
  intros Hr Hva Hv Ht m'. pose proof (PX_range 0 va) as Hk.
  assert (page_ok t) as Hpt by (by apply (rep_page _ _ Hr (PLow (PX 2 va) (PX 1 va)))).
  assert (forall a, outside t a -> m' a = m a) as Hout.
  { intros a Ha. unfold outside, PGSIZE in Ha. apply store64_outside. lia. }
  split_and!; [| | |done].
  - apply (pt_rep_frame m); [done|]. intros p u i Hp Hu Hi. apply (entry_frame m m' t); try done.
    { by apply (rep_page _ _ Hr p). }
    intros ->. by pose proof (rep_inj _ _ Hr (PLow (PX 2 va) (PX 1 va)) p _ Ht Hu); subst.
  - unfold pte_of. rewrite Ht. unfold entry, m'. rewrite load_store_same. by apply u64_small.
  - intros va' Hva' Hne. unfold pte_of.
    destruct (pt_l0 T !! (PX 2 va', PX 1 va')) as [u|] eqn:Eu; [|done].
    destruct (decide (u = t)) as [->|Hut].
    + pose proof (rep_inj _ _ Hr (PLow (PX 2 va) (PX 1 va)) (PLow (PX 2 va') (PX 1 va')) _ Ht Eu) as [= E2 E1].
      unfold entry, m'. apply load_store_other. pose proof (PX_range 0 va').
      assert (PX 0 va <> PX 0 va') by (intros E; apply Hne; symmetry; by apply PX_inj). lia.
    + apply (entry_frame m m' t); try done.
      * by apply (rep_page _ _ Hr (PLow (PX 2 va') (PX 1 va'))).
      * apply PX_range.
Qed.

(** ** Growing a tree *)

Definition add_child (T : ptree) (p : pos) (i t : Z) : ptree :=
  match p with
  | PRoot => mk_ptree (pt_root T) (<[i := t]> (pt_l1 T)) (pt_l0 T)
  | PMid k => mk_ptree (pt_root T) (pt_l1 T) (<[(k, i) := t]> (pt_l0 T))
  | PLow _ _ => T
  end.

#[local] Instance pos_eq_dec : EqDecision pos.
Proof. solve_decision. Defined.

Lemma table_at_add T p i t q :
  upper p ->
  table_at (add_child T p i t) q = if decide (q = child p i) then Some t else table_at T q.
Proof.
  intros Hp. case_decide as Hd.
  - subst q. destruct p; simpl; [apply lookup_insert_eq..|done].
  - destruct p as [|k|], q as [|i'|i' j']; simpl in *; try done;
      apply lookup_insert_ne; congruence.
Qed.

Lemma child_inj p q i j : upper p -> upper q -> child p i = child q j -> p = q /\ i = j.
Proof. destruct p, q; simpl; intros; simplify_eq; done. Qed.

Lemma upper_child_root p i : upper p -> child p i <> PRoot.
Proof. by destruct p. Qed.

(** No table hangs below a position that has no table. *)
Lemma rep_dom_child m T p i :
  pt_rep m T -> upper p -> table_at T p = None -> table_at T (child p i) = None.
Proof.
  intros Hr Hp Hn. destruct p as [|k|]; [done| |done]. simpl in *.
  destruct (pt_l0 T !! (k, i)) eqn:E; [|done]. destruct (rep_dom _ _ Hr _ _ _ E). congruence.
Qed.

Lemma pt_rep_add m m' T p t i c :
  pt_rep m T -> upper p -> table_at T p = Some t -> index_ok p i ->
  table_at T (child p i) = None -> page_ok c -> (forall q, table_at T q <> Some c) ->
  (forall k, 0 <= k < 512 -> entry m' c k = 0) ->
  entry m' t i = Z.lor (PA2PTE c) PTE_V ->
  (forall q u k, table_at T q = Some u -> 0 <= k < 512 -> (u, k) <> (t, i) -> entry m' u k = entry m u k) ->
  pt_rep m' (add_child T p i c).
Proof.
  intros Hr Hp Ht Hi Hnone Hc Hfresh Hzero Hset Hsame. split.
  - intros q u. rewrite table_at_add by done. case_decide; [by intros [= <-]|apply (rep_page _ _ Hr)].
  - intros q1 q2 u. rewrite !table_at_add by done. repeat case_decide; subst; try done.
    + intros [= <-] Hq. by destruct (Hfresh _ Hq).
    + intros Hq [= <-]. by destruct (Hfresh _ Hq).
    + apply (rep_inj _ _ Hr).
  - intros q u k Hq Hu Hk. rewrite table_at_add in Hu by done. case_decide as Hqc.
    + injection Hu as <-. subst q. rewrite (table_at_add T p i c) by done. case_decide as Hd.
      { by destruct p. }
      rewrite Hzero by done. by rewrite (rep_dom_child m).
    + rewrite table_at_add by done. case_decide as Hd.
      * apply child_inj in Hd as [-> ->]; [|done..]. simplify_eq. done.
      * rewrite (Hsame q) by (try done; intros [= -> ->]; destruct Hd;
          by rewrite (rep_inj _ _ Hr q p t Hu Ht)).
        by apply (rep_child _ _ Hr).
  - intros a b u Hu. assert (is_Some (table_at (add_child T p i c) (PMid a))); [|done].
    assert (table_at (add_child T p i c) (PLow a b) = Some u) as H by done.
    rewrite table_at_add in H by done. rewrite table_at_add by done.
    case_decide as Hd; [|case_decide; [done|by apply (rep_dom _ _ Hr a b u)]].
    case_decide; [done|]. destruct p; simplify_eq/=. by rewrite Ht.
  - intros q k u Hq. rewrite table_at_add by done. case_decide as Hd; [|by apply (rep_index _ _ Hr)].
    by apply child_inj in Hd as [-> ->].
Qed.

(** A change of the leaf entries by page number; [None] leaves a page alone. *)
Definition edit : Type := Z -> option Z.
Definition edit_none : edit := fun _ => None.
Definition edit_one (pg v : Z) : edit := fun p => if p =? pg then Some v else None.
Definition edit_seq (f g : edit) : edit := fun p => match g p with Some v => Some v | None => f p end.
Definition edited (f : edit) (pg v : Z) : Z := match f pg with Some v' => v' | None => v end.

(** What mapping may do to a tree: it keeps its tables and gains some taken
    from the free list, no page is lost, the leaf entries change as the edit
    says, and no byte outside the tables is written. *)
Record remap (f : edit) (s : kmem) (T : ptree) (l : list Z) (s' : kmem) (T' : ptree) (l' : list Z)
  : Prop := {
  rm_inv : vm_inv s' T' l';
  rm_root : pt_root T' = pt_root T;
  rm_sub q u : table_at T q = Some u -> table_at T' q = Some u;
  rm_new q u : table_at T' q = Some u -> table_at T q = Some u \/ u ∈ l;
  rm_suffix : l' `suffix_of` l;
  rm_used u : u ∈ l -> u ∈ l' \/ exists q, table_at T' q = Some u;
  rm_pte va : 0 <= va < MAXVA ->
    pte_of (ram s') T' va = edited f (va / PGSIZE) (pte_of (ram s) T va);
  rm_frame a : (forall q u, table_at T' q = Some u -> outside u a) -> ram s' a = ram s a;
}.

Lemma remap_refl s T l : vm_inv s T l -> remap edit_none s T l s T l.
Proof. intros. split; try done; intros; by left. Qed.

Lemma remap_trans f g s1 T1 l1 s2 T2 l2 s3 T3 l3 :
  remap f s1 T1 l1 s2 T2 l2 -> remap g s2 T2 l2 s3 T3 l3 ->
  remap (edit_seq f g) s1 T1 l1 s3 T3 l3.
Proof.
  intros A B. split.
  - apply B.
  - by rewrite (rm_root _ _ _ _ _ _ _ B), (rm_root _ _ _ _ _ _ _ A).
  - intros q u H. by apply (rm_sub _ _ _ _ _ _ _ B), (rm_sub _ _ _ _ _ _ _ A).
  - intros q u [H|H]%(rm_new _ _ _ _ _ _ _ B).
    + by apply (rm_new _ _ _ _ _ _ _ A) in H.
    + right. destruct (rm_suffix _ _ _ _ _ _ _ A) as [used ->]. apply elem_of_app. by right.
  - etrans; [apply B|apply A].
  - intros u [H|[q H]]%(rm_used _ _ _ _ _ _ _ A).
    + by apply (rm_used _ _ _ _ _ _ _ B).
    + right. exists q. by apply (rm_sub _ _ _ _ _ _ _ B).
  - intros va Hva. rewrite (rm_pte _ _ _ _ _ _ _ B), (rm_pte _ _ _ _ _ _ _ A) by done.
    unfold edited, edit_seq. by destruct (g _).
  - intros a H. rewrite (rm_frame _ _ _ _ _ _ _ B) by done. apply (rm_frame _ _ _ _ _ _ _ A).
    intros q u Hu. by apply (H q), (rm_sub _ _ _ _ _ _ _ B).
Qed.

Lemma remap_edit f g s T l s' T' l' :
  (forall p, f p = g p) -> remap f s T l s' T' l' -> remap g s T l s' T' l'.
Proof.
  intros Hfg [? ? ? ? ? ? Hp ?]. split; try done. intros va Hva. rewrite Hp by done.
  unfold edited. by rewrite Hfg.
Qed.

Lemma pte_of_add m m' T p i c :
  pt_rep m T -> upper p -> table_at T (child p i) = None ->
  (forall k, 0 <= k < 512 -> entry m' c k = 0) ->
  (forall a b u k, pt_l0 T !! (a, b) = Some u -> 0 <= k < 512 -> entry m' u k = entry m u k) ->
  forall va, pte_of m' (add_child T p i c) va = pte_of m T va.
Proof.
  intros Hr Hp Hnone Hz Hs va. unfold pte_of.
  assert (pt_l0 (add_child T p i c) !! (PX 2 va, PX 1 va) =
          if decide (PLow (PX 2 va) (PX 1 va) = child p i) then Some c
          else pt_l0 T !! (PX 2 va, PX 1 va)) as ->.
  { apply (table_at_add T p i c (PLow (PX 2 va) (PX 1 va)) Hp). }
  case_decide as Hd.
  - rewrite <- Hd in Hnone. simpl in Hnone. rewrite Hnone. apply Hz, PX_range.
  - destruct (pt_l0 T !! (PX 2 va, PX 1 va)) as [u|] eqn:E; [|done].
    by apply (Hs _ _ _ _ E), PX_range.
Qed.

(** [kalloc], [memset] to zero and linking the new page below table [t]. *)
Lemma new_table s T l c p t i :
  vm_inv s T (c :: l) -> upper p -> table_at T p = Some t -> index_ok p i ->
  table_at T (child p i) = None ->
  exists s1, kalloc s = Done c s1 /\
    remap edit_none s T (c :: l)
      (set_ram (store64 (memset (ram s1) c 0 PGSIZE) (t + 8 * i) (Z.lor (PA2PTE c) PTE_V)) s1)
      (add_child T p i c) l.
Proof.
  intros [Hk Hr Htab] Hp Ht Hix Hnone. assert (0 <= i < 512) as Hi by (destruct p; unfold index_ok in Hix; lia).
  destruct (kalloc_spec kend kend_range s (c :: l) Hk) as (s1 & E & Hk1 & Hout & _).
  exists s1. split; [done|].
  pose proof (kinv_pages _ _ _ Hk) as [Hc Hl]%Forall_cons.
  assert (forall q, table_at T q <> Some c) as Hfresh.
  { intros q Hq. apply (Htab q c Hq). left. }
  assert (page_ok t) as Hpt by (by apply (rep_page _ _ Hr p)).
  assert (t <> c) as Htc by (intros ->; by apply (Hfresh p)).
  pose proof (page_bounds c Hc) as (Hc0 & Hc1 & Hc2 & _).
  set (m2 := store64 (memset (ram s1) c 0 PGSIZE) (t + 8 * i) (Z.lor (PA2PTE c) PTE_V)).
  assert (forall a, outside c a -> a < t + 8 * i \/ t + 8 * i + 8 <= a -> m2 a = ram s a) as Hm2.
  { intros a Ha Hb. unfold m2. rewrite store64_outside by lia.
    unfold outside in Ha. rewrite memset_outside by lia. by apply Hout. }
  assert (forall k, 0 <= k < 512 -> entry m2 c k = 0) as Hz.
  { intros k Hkk. unfold entry, m2. rewrite load_store_other.
    - apply load64_memset_zero; unfold PGSIZE; lia.
    - destruct (page_ok_disjoint kend t c Hpt Hc Htc); unfold PGSIZE in *; lia. }
  assert (entry m2 t i = Z.lor (PA2PTE c) PTE_V) as Hset.
  { unfold entry, m2. rewrite load_store_same. apply u64_small.
    apply pte_decode; [lia|done|]. change PTE_V with 1. lia. }
  assert (forall q u k, table_at T q = Some u -> 0 <= k < 512 -> (u, k) <> (t, i) ->
            entry m2 u k = entry (ram s) u k) as Hsame.
  { intros q u k Hu Hkk Hne. assert (page_ok u) as Hpu by (by apply (rep_page _ _ Hr q)).
    assert (u <> c) as Huc by (intros ->; by apply (Hfresh q)).
    apply entry_ext. intros a Ha. apply Hm2.
    - destruct (page_ok_disjoint kend u c Hpu Hc Huc); unfold outside, PGSIZE in *; lia.
    - destruct (decide (u = t)) as [->|Hut]; [assert (k <> i) by congruence; lia|].
      destruct (page_ok_disjoint kend u t Hpu Hpt Hut); unfold PGSIZE in *; lia. }
  assert (pt_rep m2 (add_child T p i c)) as Hrep by (by eapply pt_rep_add).
  split; simpl.
  - split; simpl; [|done|].
    + apply kmem_inv_ram; [done|]. intros q Hq.
      assert (page_ok q) as Hpq by (rewrite Forall_forall in Hl; by apply Hl).
      pose proof (kinv_nodup _ _ _ Hk) as [Hcl _]%NoDup_cons.
      assert (q <> c) as Hqc by (intros ->; done).
      assert (q <> t) as Hqt by (intros ->; apply (Htab p t Ht); by right).
      transitivity (load64 (ram s) q).
      * apply load64_ext. intros a Ha.
        destruct (page_ok_disjoint kend q c Hpq Hc Hqc), (page_ok_disjoint kend q t Hpq Hpt Hqt);
          apply Hm2; unfold outside, PGSIZE in *; lia.
      * symmetry. by apply (load64_outside_page kend _ _ c).
    + intros q u. rewrite table_at_add by done. case_decide.
      * intros [= <-]. by pose proof (kinv_nodup _ _ _ Hk) as [? _]%NoDup_cons.
      * intros Hu Hin. apply (Htab q u Hu). by right.
  - by destruct p.
  - intros q u Hu. rewrite table_at_add by done. case_decide; [subst; congruence|done].
  - intros q u. rewrite table_at_add by done. case_decide; [intros [= <-]; right; left|by left].
  - by exists [c].
  - intros u [->|]%elem_of_cons; [right|by left]. exists (child p i).
    rewrite table_at_add by done. by case_decide.
  - intros va _. apply pte_of_add; try done. intros a b u k Hu Hkk. apply (Hsame (PLow a b)); try done.
    intros [= -> ->]. by pose proof (rep_inj _ _ Hr (PLow a b) p t Hu Ht); subst.
  - intros a Ha. apply Hm2.
    + apply (Ha (child p i)). rewrite table_at_add by done. by case_decide.
    + assert (outside t a) as Hta.
      { apply (Ha p). rewrite table_at_add by done. case_decide; [subst; by destruct p|done]. }
      unfold outside, PGSIZE in *. lia.
Qed.

(** The table [walk] visits at each level for an address. *)
Definition path_pos (va : Z) (level : nat) : pos :=
  match level with
  | O => PLow (PX 2 va) (PX 1 va)
  | S O => PMid (PX 2 va)
  | _ => PRoot
  end.

Lemma path_child va n : (n < 2)%nat ->
  upper (path_pos va (S n)) /\ child (path_pos va (S n)) (PX (Z.of_nat (S n)) va) = path_pos va n.
Proof. intros. by destruct n as [|[|]]; [..|lia]. Qed.

Lemma PX_top va : 0 <= va < MAXVA -> PX 2 va < 256.
Proof.
  intros H. rewrite PX_eq by lia. change (2 ^ (12 + 9 * 2)) with 1073741824. change MAXVA with 274877906944 in H.
  assert (0 <= va / 1073741824 < 256) by (split; [apply Z.div_pos|apply Z.div_lt_upper_bound]; lia).
  rewrite Z.mod_small; lia.
Qed.

Lemma path_index va n : 0 <= va < MAXVA -> (n < 2)%nat -> index_ok (path_pos va (S n)) (PX (Z.of_nat (S n)) va).
Proof.
  intros Hva Hn. pose proof (PX_range (Z.of_nat (S n)) va). destruct n as [|[|]]; [done| |lia].
  pose proof (PX_top va Hva). split; [apply PX_range|done].
Qed.

Lemma walk_levels_alloc n : forall s T l va t,
  (n <= 2)%nat -> 0 <= va < MAXVA -> vm_inv s T l -> table_at T (path_pos va n) = Some t ->
  exists r s' T' l', walk_levels n t va true s = Done r s' /\ remap edit_none s T l s' T' l' /\
    (r = 0 /\ l' = [] /\ (length l < n)%nat \/
     r = pte_addr T' va /\ is_Some (table_at T' (path_pos va 0)) /\ (length l <= length l' + n)%nat).
Proof.
  induction n as [|n IH]; intros s T l va t Hn Hva Hi Ht.
  - exists (t + 8 * PX 0 va), s, T, l. split; [done|]. split; [by apply remap_refl|]. right.
    simpl in *. unfold pte_addr. rewrite Ht. split_and!; [done|by exists t|lia].
  - destruct (path_child va n ltac:(lia)) as [Hup Hch].
    pose proof (rep_child _ _ (vm_rep _ _ _ Hi) _ _ (PX (Z.of_nat (S n)) va) Hup Ht (PX_range _ va)) as Hc.
    rewrite Hch in Hc. cbn [walk_levels]. unfold read_pte at 1, gets at 1, bind at 1. cbn [obind].
    change (load64 (ram s) (t + 8 * PX (Z.of_nat (S n)) va))
      with (entry (ram s) t (PX (Z.of_nat (S n)) va)).
    destruct (table_at T (path_pos va n)) as [c|] eqn:Ec; cbn [child_ok] in Hc.
    + destruct (child_pte c) as [V P]; [by apply (rep_page _ _ (vm_rep _ _ _ Hi) (path_pos va n))|].
      rewrite Hc, V, P.
      destruct (IH s T l va c ltac:(lia) Hva Hi Ec) as (r & s' & T' & l' & E & G & R).
      exists r, s', T', l'. split; [done|]. split; [done|]. intuition lia.
    + rewrite Hc. cbn [negb].
      destruct l as [|c l].
      { pose proof (kalloc_spec kend kend_range s [] (vm_kmem _ _ _ Hi)) as Hk. simpl in Hk.
        rewrite (bind_Done _ _ _ _ _ Hk). cbn. exists 0, s, T, [].
        split; [done|]. split; [by apply remap_refl|]. left. split_and!; [done|done|simpl; lia]. }
      rewrite <- Hch in Ec.
      destruct (new_table s T l c (path_pos va (S n)) t (PX (Z.of_nat (S n)) va) Hi Hup Ht
                  (path_index va n Hva ltac:(lia)) Ec) as (s1 & E & G).
      rewrite (bind_Done _ _ _ _ _ E).
      pose proof (kinv_pages _ _ _ (vm_kmem _ _ _ Hi)) as [Hcp _]%Forall_cons.
      destruct (page_bounds c Hcp) as [Hc0 _].
      destruct (Z.eqb_spec c 0); [lia|].
      unfold write_pte, modify_ram, modify, bind at 1 2. cbn [obind].
      destruct (IH _ _ _ va c ltac:(lia) Hva (rm_inv _ _ _ _ _ _ _ G)) as (r & s' & T' & l' & E' & G' & R').
      { rewrite <- Hch, table_at_add by done. by case_decide. }
      exists r, s', T', l'. split; [exact E'|]. split; [by apply (remap_trans _ _ _ _ _ _ _ _ _ _ _ G G')|].
      destruct R' as [(-> & -> & Hlen)|R']; [left|right]; cbn [length]; intuition lia.
Qed.

(** The tables [walk] may have to allocate for an address. *)
Definition table_cost (T : ptree) (va : Z) : nat :=
  match pt_l0 T !! (PX 2 va, PX 1 va) with Some _ => 0 | None => 2 end.

Lemma walk_alloc s T l va :
  vm_inv s T l -> 0 <= va < MAXVA ->
  exists r s' T' l', walk (pt_root T) va true s = Done r s' /\ remap edit_none s T l s' T' l' /\
    (r = 0 /\ l' = [] /\ (length l < 2)%nat /\ table_cost T va = 2%nat \/
     exists t, pt_l0 T' !! (PX 2 va, PX 1 va) = Some t /\ r = t + 8 * PX 0 va /\ r <> 0 /\
       (length l <= length l' + table_cost T va)%nat).
Proof.
  intros Hi Hva. assert (forall m T' t, pt_rep m T' -> pt_l0 T' !! (PX 2 va, PX 1 va) = Some t -> t + 8 * PX 0 va <> 0) as Hnz.
  { intros m T' t Hr Ht. assert (page_ok t) as Hp by (by apply (rep_page _ _ Hr (PLow (PX 2 va) (PX 1 va)))).
    pose proof (page_bounds t Hp). pose proof (PX_range 0 va). lia. }
  unfold table_cost. destruct (pt_l0 T !! _) as [t|] eqn:Et.
  { exists (t + 8 * PX 0 va), s, T, l. split; [by apply walk_present; [apply Hi|..]|]. split; [by apply remap_refl|].
    right. exists t. split_and!; [done|done|by apply (Hnz (ram s) T); [apply Hi|]|lia]. }
  unfold walk. destruct (Z.geb_spec va MAXVA); [lia|].
  destruct (walk_levels_alloc 2 s T l va (pt_root T) ltac:(lia) Hva Hi eq_refl)
    as (r & s' & T' & l' & E & G & R).
  exists r, s', T', l'. split; [done|]. split; [done|].
  destruct R as [(-> & -> & ?)|(-> & [t Ht] & ?)]; [by left|right]. exists t. simpl in Ht. split; [done|].
  unfold pte_addr. rewrite Ht. split_and!; [done|by apply (Hnz _ _ _ (vm_rep _ _ _ (rm_inv _ _ _ _ _ _ _ G)))|done].
Qed.

(** ** [mappages] *)

Definition mk_pte (pa perm : Z) : Z := Z.lor (Z.lor (PA2PTE pa) perm) PTE_V.

Lemma mk_pte_ok pa perm :
  0 <= pa < 2 ^ 56 -> pa mod PGSIZE = 0 -> 0 <= perm < 2 ^ 10 ->
  PTE2PA (mk_pte pa perm) = pa /\ PTE_FLAGS (mk_pte pa perm) = Z.lor perm PTE_V /\
  0 <= mk_pte pa perm < 2 ^ 64 /\ valid (mk_pte pa perm) = true.
Proof.
  intros Hpa Ha Hp. unfold mk_pte. rewrite <- Z.lor_assoc.
  assert (0 <= Z.lor perm PTE_V < 2 ^ 10) as Hb.
  { change PTE_V with 1. split; [apply Z.lor_nonneg; lia|].
    destruct (Z.eq_dec (Z.lor perm 1) 0); [lia|]. apply Z.log2_lt_pow2.
    - assert (0 <= Z.lor perm 1) by (apply Z.lor_nonneg; lia). lia.
    - rewrite Z.log2_lor by lia. apply Z.max_lub_lt; [|done].
      destruct (Z.eq_dec perm 0) as [->|]; [done|]. apply Z.log2_lt_pow2; lia. }
  destruct (pte_decode pa (Z.lor perm PTE_V) Hpa Ha Hb) as (? & ? & ?).
  split_and!; try done; try lia. rewrite Z.lor_assoc. apply valid_lor.
Qed.

Lemma vm_inv_write_leaf s T l va v t :
  vm_inv s T l -> 0 <= va < MAXVA -> 0 <= v < 2 ^ 64 -> pt_l0 T !! (PX 2 va, PX 1 va) = Some t ->
  remap (edit_one (va / PGSIZE) v) s T l (set_ram (store64 (ram s) (t + 8 * PX 0 va) v) s) T l.
Proof.
  intros [Hk Hr Htab] Hva Hv Ht.
  destruct (write_leaf (ram s) T va v t Hr Hva Hv Ht) as (R1 & R2 & R3 & R4).
  assert (page_ok t) as Hpt by (by apply (rep_page _ _ Hr (PLow (PX 2 va) (PX 1 va)))).
  split; try done; try (intros; by left).
  - split; simpl; try done. apply kmem_inv_ram; [done|]. intros q Hq.
    apply (load64_outside_page kend _ _ t); try done.
    + pose proof (kinv_pages _ _ _ Hk) as Hf. rewrite Forall_forall in Hf. by apply Hf.
    + intros ->. by apply (Htab (PLow (PX 2 va) (PX 1 va)) q).
  - intros va' Hva'. simpl. unfold edited, edit_one. destruct (Z.eqb_spec (va' / PGSIZE) (va / PGSIZE)) as [E|E].
    + etrans; [|exact R2]. apply pte_of_same_page; [lia|lia|done].
    + by apply R3.
  - intros a Ha. apply R4. by apply (Ha (PLow (PX 2 va) (PX 1 va))).
Qed.


(** The edit that maps [k] pages starting at page number [pg]. *)
Definition edit_range (pg : Z) (k : nat) (pa perm : Z) : edit :=
  fun p => if (pg <=? p) && (p <? pg + Z.of_nat k) then Some (mk_pte (pa + (p - pg) * PGSIZE) perm) else None.

Lemma edit_range_S pg k pa perm p :
  edit_seq (edit_one pg (mk_pte pa perm)) (edit_range (pg + 1) k (pa + PGSIZE) perm) p =
  edit_range pg (S k) pa perm p.
Proof.
  unfold edit_seq, edit_one, edit_range. zcmp; f_equal; f_equal; unfold PGSIZE; lia.
Qed.

(** One iteration of [mappages] on a page that is not mapped. *)
Lemma map_page s T l a v :
  vm_inv s T l -> 0 <= a < MAXVA -> valid (pte_of (ram s) T a) = false -> 0 <= v < 2 ^ 64 ->
  (exists s' T', walk (pt_root T) a true s = Done 0 s' /\ remap edit_none s T l s' T' [] /\ (length l < 2)%nat /\
     table_cost T a = 2%nat) \/
  exists pte s1 T' l', walk (pt_root T) a true s = Done pte s1 /\ pte <> 0 /\
    valid (load64 (ram s1) pte) = false /\
    remap (edit_one (a / PGSIZE) v) s T l (set_ram (store64 (ram s1) pte v) s1) T' l' /\
    table_cost T' a = 0%nat /\ (length l <= length l' + table_cost T a)%nat.
Proof.
  intros Hi Ha Hnv Hv.
  destruct (walk_alloc s T l a Hi Ha) as (r & s1 & T1 & l1 & E & G & [(-> & -> & Hlen)|(t & Ht & -> & Hne & Hcost)]).
  { left. by exists s1, T1. }
  right. exists (t + 8 * PX 0 a), s1, T1, l1. split; [done|]. split; [done|].
  split; [|split; [|split; [by unfold table_cost; rewrite Ht|done]]].
  - pose proof (rm_pte _ _ _ _ _ _ _ G a Ha) as Hp. unfold edited, edit_none in Hp.
    unfold pte_of in Hp at 1. rewrite Ht in Hp. unfold entry in Hp. by rewrite Hp.
  - eapply remap_edit; [|eapply remap_trans; [exact G|apply vm_inv_write_leaf; try done; apply G]].
    intros p. unfold edit_seq, edit_none. by destruct (edit_one _ _ _).
Qed.

(** The tables needed for the pages from [a] to [last]: two at most for each
    leaf table, which covers 2 MB. *)
Definition range_cost (T : ptree) (a last : Z) : nat := table_cost T a + 2 * Z.to_nat (last / 2 ^ 21 - a / 2 ^ 21).

Lemma range_cost_step T a last :
  0 <= a -> a mod PGSIZE = 0 -> a + PGSIZE <= last -> table_cost T a = 0%nat ->
  (range_cost T (a + PGSIZE) last <= 2 * Z.to_nat (last / 2 ^ 21 - a / 2 ^ 21))%nat.
Proof.
  intros H0 Ha Hl Hc. unfold range_cost. destruct (decide ((a + PGSIZE) / 2 ^ 21 = a / 2 ^ 21)) as [E|E].
  - assert (table_cost T (a + PGSIZE) = table_cost T a) as ->; [|lia]. unfold table_cost.
    rewrite !PX_eq by lia. change (2 ^ (12 + 9 * 2)) with 1073741824. change (2 ^ (12 + 9 * 1)) with 2097152.
    change (2 ^ 21) with 2097152 in E. assert ((a + PGSIZE) / 1073741824 = a / 1073741824) as ->; [|by rewrite E].
    change 1073741824 with (2097152 * 512). rewrite <- !Z.div_div by lia. by rewrite E.
  - assert (a / 2 ^ 21 + 1 <= (a + PGSIZE) / 2 ^ 21 <= last / 2 ^ 21) by (change (2 ^ 21) with 2097152 in *; unfold PGSIZE in *; divlia).
    assert (table_cost T (a + PGSIZE) <= 2)%nat by (unfold table_cost; destruct (pt_l0 T !! _); lia). lia.
Qed.

Lemma mappages_loop_spec k : forall s T l a last pa perm fuel,
  vm_inv s T l -> 0 <= a -> a mod PGSIZE = 0 -> last = a + Z.of_nat k * PGSIZE -> last < MAXVA ->
  0 <= pa -> pa mod PGSIZE = 0 -> pa + Z.of_nat k * PGSIZE < 2 ^ 56 -> 0 <= perm < 2 ^ 10 ->
  (forall i, 0 <= i <= Z.of_nat k -> valid (pte_of (ram s) T (a + i * PGSIZE)) = false) ->
  (k < fuel)%nat ->
  exists r s' T' l' j, mappages_loop (pt_root T) a last pa perm fuel s = Done r s' /\
    remap (edit_range (a / PGSIZE) j pa perm) s T l s' T' l' /\
    (r = 0 /\ j = S k /\ (length l <= length l' + range_cost T a last)%nat \/
     r = -1 /\ (j <= k)%nat /\ l' = [] /\ (j = 0%nat -> (length l < 2)%nat) /\ (length l < range_cost T a last)%nat).
Proof.
  induction k as [|k IH]; intros s T l a last pa perm fuel Hi H0 Ha Hlast Hmax Hpa0 Hpa Hpah Hperm Hnv Hfuel;
    (destruct fuel as [|fuel]; [lia|]); cbn [mappages_loop];
    assert (0 <= a < MAXVA) as Hr by (unfold PGSIZE in *; lia);
    assert (0 <= pa < 2 ^ 56) as Hpr by (unfold PGSIZE in *; lia);
    destruct (mk_pte_ok pa perm Hpr Hpa Hperm) as (_ & _ & Hvr & _);
    specialize (Hnv 0 ltac:(lia)) as Hnv0; replace (a + 0 * PGSIZE) with a in Hnv0 by lia;
    (destruct (map_page s T l a (mk_pte pa perm) Hi Hr Hnv0 Hvr)
      as [(s' & T' & E & G & Hlen & Hc)|(pte & s1 & T' & l' & E & Hpne & Hv1 & G & Hc0 & Hc)];
     rewrite (bind_Done _ _ _ _ _ E);
     [exists (-1), s', T', [], O; split; [done|]; split;
       [eapply remap_edit; [|exact G]; intros p; unfold edit_range, edit_none; zcmp|right; split_and!; [done|lia|done|done|unfold range_cost; lia]]|]);
    (destruct (Z.eqb_spec pte 0); [lia|]);
    unfold read_pte, gets, bind at 1; cbn [obind]; rewrite Hv1;
    unfold write_pte, modify_ram, modify, bind at 1; cbn [obind].
  - destruct (Z.eqb_spec a last); [|unfold PGSIZE in *; lia].
    exists 0, (set_ram (store64 (ram s1) pte (mk_pte pa perm)) s1), T', l', 1%nat. split; [reflexivity|]. split; [|left; unfold range_cost; split_and!; [done|done|lia]].
    eapply remap_edit; [|exact G]. intros p. unfold edit_range, edit_one.
    zcmp; do 2 f_equal; unfold PGSIZE in *; lia.
  - destruct (Z.eqb_spec a last); [unfold PGSIZE in *; lia|].
    assert (MAXVA < 2 ^ 64) by done.
    rewrite !u64_small by (unfold PGSIZE in *; lia).
    assert ((a + PGSIZE) / PGSIZE = a / PGSIZE + 1) as Epg by (unfold PGSIZE in *; divlia).
    rewrite <- (rm_root _ _ _ _ _ _ _ G).
    destruct (IH (set_ram (store64 (ram s1) pte (mk_pte pa perm)) s1) T' l' (a + PGSIZE) last (pa + PGSIZE) perm fuel)
      as (r & s2 & T2 & l2 & j & E2 & G2 & R2); try done.
    + apply G.
    + unfold PGSIZE in *; lia.
    + unfold PGSIZE in *; divlia.
    + unfold PGSIZE in *; lia.
    + unfold PGSIZE in *; lia.
    + unfold PGSIZE in *; divlia.
    + unfold PGSIZE in *; lia.
    + intros i Hii. rewrite (rm_pte _ _ _ _ _ _ _ G) by (unfold PGSIZE in *; lia).
      unfold edited, edit_one. destruct (Z.eqb_spec ((a + PGSIZE + i * PGSIZE) / PGSIZE) (a / PGSIZE)) as [E'|_].
      { unfold PGSIZE in *. divlia. }
      replace (a + PGSIZE + i * PGSIZE) with (a + (i + 1) * PGSIZE) by lia. apply Hnv. lia.
    + lia.
    + exists r, s2, T2, l2, (S j). split; [exact E2|]. split.
      * eapply remap_edit; [|eapply remap_trans; [exact G|exact G2]].
        intros p. rewrite Epg. apply edit_range_S.
      * pose proof (range_cost_step T' a last H0 Ha ltac:(unfold PGSIZE in *; lia) Hc0) as Hstep.
        destruct R2 as [(-> & -> & Hr2)|(-> & Hj & -> & _ & Hr2)]; [left|right]; split_and!; try done; unfold range_cost in *; lia.
Qed.

(** Number of pages a byte range touches, less one. *)
Definition extra_pages (va size : Z) : nat := Z.to_nat ((va + size - 1) / PGSIZE - va / PGSIZE).

Lemma page_le va size : 0 < size -> 0 <= (va + size - 1) / PGSIZE - va / PGSIZE.
Proof.
  intros. assert (va / PGSIZE <= (va + size - 1) / PGSIZE); [|lia].
  apply Z.div_le_mono; unfold PGSIZE; lia.
Qed.

Lemma page_range va size :
  0 <= va -> 0 < size -> va + size <= MAXVA ->
  PGROUNDDOWN (u64 (va + size - 1)) = PGROUNDDOWN va + Z.of_nat (extra_pages va size) * PGSIZE /\
  0 <= PGROUNDDOWN va /\ PGROUNDDOWN (u64 (va + size - 1)) < MAXVA /\
  PGROUNDDOWN va / PGSIZE = va / PGSIZE.
Proof.
  intros H0 H1 H2. rewrite u64_small by (change MAXVA with 274877906944 in *; lia).
  rewrite !PGROUNDDOWN_eq. unfold extra_pages. rewrite Z2Nat.id.
  - unfold PGSIZE in *. divlia.
  - unfold PGSIZE. divlia.
Qed.

Lemma mappages_spec s T l va size pa perm fuel :
  vm_inv s T l -> 0 <= va -> 0 < size -> va + size <= MAXVA ->
  0 <= pa -> pa mod PGSIZE = 0 -> pa + size + PGSIZE <= 2 ^ 56 -> 0 <= perm < 2 ^ 10 ->
  (forall x, va / PGSIZE <= x / PGSIZE <= (va + size - 1) / PGSIZE ->
     valid (pte_of (ram s) T x) = false) ->
  (extra_pages va size < fuel)%nat ->
  exists r s' T' l' j, mappages (pt_root T) va size pa perm fuel s = Done r s' /\
    remap (edit_range (va / PGSIZE) j pa perm) s T l s' T' l' /\
    (r = 0 /\ j = S (extra_pages va size) /\ (length l <= length l' + range_cost T va (va + size - 1))%nat \/
     r = -1 /\ (j <= extra_pages va size)%nat /\ l' = [] /\ (j = 0%nat -> (length l < 2)%nat) /\
     (length l < range_cost T va (va + size - 1))%nat).
Proof.
  intros Hi H0 H1 H2 Hp0 Hp1 Hp2 Hperm Hnv Hfuel.
  destruct (page_range va size H0 H1 H2) as (E & E0 & E1 & E2). rewrite <- E2.
  pose proof (page_le va size H1) as Hge.
  assert (range_cost T va (va + size - 1) = range_cost T (PGROUNDDOWN va) (PGROUNDDOWN (u64 (va + size - 1)))) as ->.
  { rewrite u64_small by (change MAXVA with 274877906944 in *; lia). unfold range_cost, table_cost.
    destruct (PX_page va H0) as (-> & -> & _). rewrite !PGROUNDDOWN_eq.
    assert (forall x, PGSIZE * (x / PGSIZE) / 2 ^ 21 = x / 2 ^ 21) as Hpg; [|by rewrite !Hpg].
    intros x. change (2 ^ 21) with 2097152. unfold PGSIZE. divlia. }
  apply mappages_loop_spec; try done.
  - apply PGROUNDDOWN_bounds.
  - unfold extra_pages. unfold PGSIZE in *. rewrite Z2Nat.id by lia.
    change (2 ^ 56) with 72057594037927936 in *. divlia.
  - intros i Hx. apply Hnv. rewrite PGROUNDDOWN_eq. unfold extra_pages in Hx.
    unfold PGSIZE in *. rewrite Z2Nat.id in Hx by lia. divlia.
Qed.

(** ** Lookups *)

Definition user_bit (pte : Z) : bool := negb (Z.land pte PTE_U =? 0).

Lemma pte_addr_zero m T va :
  pt_rep m T -> pte_addr T va = 0 -> pte_of m T va = 0.
Proof.
  intros Hr. unfold pte_addr, pte_of. destruct (pt_l0 T !! _) as [t|] eqn:E; [|done].
  assert (page_ok t) as Hp by (by apply (rep_page _ _ Hr (PLow (PX 2 va) (PX 1 va)))).
  pose proof (page_bounds t Hp). pose proof (PX_range 0 va). lia.
Qed.

Lemma pte_addr_load m T va :
  pt_rep m T -> pte_addr T va <> 0 -> load64 m (pte_addr T va) = pte_of m T va.
Proof. intros Hr. unfold pte_addr, pte_of. by destruct (pt_l0 T !! _). Qed.

Lemma walkaddr_spec s T va :
  pt_rep (ram s) T -> 0 <= va ->
  walkaddr (pt_root T) va s =
    Done (if (va <? MAXVA) && valid (pte_of (ram s) T va) && user_bit (pte_of (ram s) T va)
          then PTE2PA (pte_of (ram s) T va) else 0) s.
Proof.
  intros Hr H0. unfold walkaddr. destruct (Z.geb_spec va MAXVA).
  { destruct (Z.ltb_spec va MAXVA); [lia|done]. }
  destruct (Z.ltb_spec va MAXVA); [|lia]. cbn [andb].
  rewrite (bind_Done _ _ _ _ _ (walk_noalloc s T va Hr ltac:(lia))).
  destruct (Z.eqb_spec (pte_addr T va) 0) as [E|E].
  { by rewrite (pte_addr_zero _ _ _ Hr E), valid_0. }
  unfold read_pte, gets, bind. cbn [obind]. rewrite pte_addr_load by done.
  unfold valid, user_bit. by destruct (Z.land _ PTE_V =? 0), (Z.land _ PTE_U =? 0).
Qed.

(** ** New page tables *)

Definition empty_tree (root : Z) : ptree := mk_ptree root ∅ ∅.

Lemma uvmcreate_spec s l p :
  kmem_inv kend s (p :: l) ->
  exists s', uvmcreate s = Done p s' /\ vm_inv s' (empty_tree p) l /\
    (forall a, outside p a -> ram s' a = ram s a).
Proof.
  intros Hk. destruct (kalloc_spec kend kend_range s (p :: l) Hk) as (s1 & E & Hk1 & Hout & _).
  pose proof (kinv_pages _ _ _ Hk) as [Hp Hl]%Forall_cons.
  pose proof (kinv_nodup _ _ _ Hk) as [Hpl _]%NoDup_cons.
  pose proof (page_bounds p Hp) as (Hp0 & _).
  exists (set_ram (memset (ram s1) p 0 PGSIZE) s1).
  assert (forall a, outside p a -> memset (ram s1) p 0 PGSIZE a = ram s1 a) as Hm.
  { intros a Ha. unfold outside in Ha. apply memset_outside. lia. }
  split_and!.
  - unfold uvmcreate. rewrite (bind_Done _ _ _ _ _ E). destruct (Z.eqb_spec p 0); [lia|done].
  - split; simpl.
    + apply kmem_inv_ram; [done|]. intros q Hq. apply (load64_outside_page kend _ _ p); try done.
      * rewrite Forall_forall in Hl. by apply Hl.
      * by intros ->.
    + split.
      * intros [|a|a b] t; simpl; [by intros [= <-]|by rewrite lookup_empty..].
      * intros [|a|a b] [|a'|a' b'] t; simpl; by rewrite ?lookup_empty.
      * intros [|a|a b] t i; simpl; [|by rewrite lookup_empty|done].
        intros _ [= <-] Hi. rewrite lookup_empty. simpl. unfold entry.
        rewrite load64_memset_zero; [done|lia|unfold PGSIZE; lia].
      * intros i j t; simpl. by rewrite lookup_empty.
      * intros [|a|a b] i t; simpl; by rewrite ?lookup_empty.
    + intros [|a|a b] t; simpl; [by intros [= <-]|by rewrite lookup_empty..].
  - intros a Ha. simpl. rewrite Hm by done. by apply Hout.
Qed.

Lemma pte_of_empty m p va : pte_of m (empty_tree p) va = 0.
Proof. done. Qed.

(** ** Properties *)

(** [mappages] on a range whose pages are not mapped terminates without
    panicking: it returns 0 with exactly the pages of the range mapped to
    consecutive physical pages with the given permissions, or -1, with the
    free list used up, having mapped a proper prefix of them; no other
    virtual page changes, every page of the free list it took is a
    page-table page now, and no byte outside page-table pages is written. *)
Theorem mappages_installs_range s T l va size pa perm fuel :
  vm_inv s T l -> 0 <= va -> 0 < size -> va + size <= MAXVA ->
  0 <= pa -> pa mod PGSIZE = 0 -> pa + size + PGSIZE <= 2 ^ 56 -> 0 <= perm < 2 ^ 10 ->
  (forall x, va / PGSIZE <= x / PGSIZE <= (va + size - 1) / PGSIZE ->
     valid (pte_of (ram s) T x) = false) ->
  (extra_pages va size < fuel)%nat ->
  exists r s' T' l' j, mappages (pt_root T) va size pa perm fuel s = Done r s' /\
    vm_inv s' T' l' /\ pt_root T' = pt_root T /\
    (r = 0 /\ j = (va + size - 1) / PGSIZE \/
     r = -1 /\ va / PGSIZE - 1 <= j < (va + size - 1) / PGSIZE /\ l' = []) /\
    (forall x, 0 <= x < MAXVA -> va / PGSIZE <= x / PGSIZE <= j ->
       let e := pte_of (ram s') T' x in
       PTE2PA e = pa + (x / PGSIZE - va / PGSIZE) * PGSIZE /\ PTE_FLAGS e = Z.lor perm PTE_V) /\
    (forall x, 0 <= x < MAXVA -> ~ va / PGSIZE <= x / PGSIZE <= j ->
       pte_of (ram s') T' x = pte_of (ram s) T x) /\
    (forall u, u ∈ l -> u ∈ l' \/ exists q, table_at T' q = Some u) /\
    (forall a, (forall q u, table_at T' q = Some u -> outside u a) -> ram s' a = ram s a).
Proof.
  intros Hi H0 H1 H2 Hp0 Hp1 Hp2 Hperm Hnv Hfuel.
  destruct (mappages_spec s T l va size pa perm fuel) as (r & s' & T' & l' & j & E & G & R); try done.
  pose proof (page_le va size H1) as Hge.
  exists r, s', T', l', (va / PGSIZE + Z.of_nat j - 1). split; [done|].
  split; [apply G|]. split; [apply G|]. split.
  { unfold extra_pages in R. destruct R as [(-> & -> & _)|(-> & Hj & -> & _)]; [left; lia|right; split_and!; [done|lia|lia|done]]. }
  split; [|split; [|split; [apply G|apply G]]]; intros x Hx Hr;
    rewrite (rm_pte _ _ _ _ _ _ _ G) by done; unfold edited, edit_range; [|zcmp].
  destruct (Z.leb_spec (va / PGSIZE) (x / PGSIZE)); [|lia].
  destruct (Z.ltb_spec (x / PGSIZE) (va / PGSIZE + Z.of_nat j)); [|lia]. cbn [andb].
  assert (x / PGSIZE - va / PGSIZE <= (va + size - 1) / PGSIZE - va / PGSIZE) as Hb.
  { destruct R as [(_ & -> & _)|(_ & Hj & _)]; unfold extra_pages in *; lia. }
  set (d := x / PGSIZE - va / PGSIZE) in *.
  assert (d * PGSIZE < size + PGSIZE) as Hd2.
  { pose proof (PGROUNDDOWN_bounds va) as [A1 _]. pose proof (PGROUNDDOWN_bounds (va + size - 1)) as [A2 _].
    rewrite PGROUNDDOWN_eq in A1, A2. unfold PGSIZE in *. lia. }
  destruct (mk_pte_ok (pa + d * PGSIZE) perm) as (A & B & _); [|rewrite Z_mod_plus_full; done|done|done].
  unfold PGSIZE in *. lia.
Qed.

(** [walkaddr] never panics, changes nothing, and translates exactly the
    addresses below [MAXVA] whose leaf entry is valid and user-accessible. *)
Theorem walkaddr_translates s T va :
  pt_rep (ram s) T -> 0 <= va ->
  walkaddr (pt_root T) va s =
    Done (if (va <? MAXVA) && valid (pte_of (ram s) T va) && user_bit (pte_of (ram s) T va)
          then PTE2PA (pte_of (ram s) T va) else 0) s.
Proof. apply walkaddr_spec. Qed.

(** Mapping onto a page that is mapped already panics with "remap" before
    anything is written. *)
Theorem mappages_remap_panics s T l va size pa perm fuel :
  vm_inv s T l -> 0 <= va < MAXVA -> valid (pte_of (ram s) T va) = true ->
  mappages (pt_root T) va size pa perm (S fuel) s = Panicked "remap".
Proof.
  intros Hi Hva Hv. unfold mappages. cbn [mappages_loop].
  assert (0 <= PGROUNDDOWN va < MAXVA) as Hd.
  { pose proof (PGROUNDDOWN_bounds va). rewrite PGROUNDDOWN_eq in *. unfold PGSIZE in *. divlia. }
  destruct (PX_page va (proj1 Hva)) as (X2 & X1 & X0).
  unfold pte_of in Hv. destruct (pt_l0 T !! _) as [t|] eqn:Et; [|done].
  assert (walk (pt_root T) (PGROUNDDOWN va) true s = Done (t + 8 * PX 0 va) s) as E.
  { rewrite <- X0. apply walk_present; [apply Hi|done|]. by rewrite X2, X1. }
  rewrite (bind_Done _ _ _ _ _ E).
  assert (page_ok t) as Hp by (by apply (rep_page _ _ (vm_rep _ _ _ Hi) (PLow (PX 2 va) (PX 1 va)))).
  pose proof (page_bounds t Hp). pose proof (PX_range 0 va).
  destruct (Z.eqb_spec (t + 8 * PX 0 va) 0); [lia|].
  unfold read_pte, gets, bind. cbn [obind]. unfold entry in Hv. by rewrite Hv.
Qed.

End Vm.

(** *** Witnesses

    A small machine with eight pages: three page-table pages, a user page
    mapped at address 0, and at most one free page. *)

Definition demo_end : Z := PHYSTOP - 8 * PGSIZE.
Definition demo_page (k : Z) : Z := PHYSTOP - k * PGSIZE.
Definition demo_ram : mem :=
  store64 (store64 (store64 (fun _ => Byte.x00)
    (demo_page 1) (Z.lor (PA2PTE (demo_page 2)) PTE_V))
    (demo_page 2) (Z.lor (PA2PTE (demo_page 3)) PTE_V))
    (demo_page 3) (mk_pte (demo_page 4) user_perm).
Definition demo_tree : ptree :=
  mk_ptree (demo_page 1) {[0 := demo_page 2]} {[(0, 0) := demo_page 3]}.
Definition demo (free : bool) : kmem := mk_kmem false (if free then demo_page 5 else 0) demo_ram.

Lemma demo_end_range : KERNBASE <= demo_end <= PHYSTOP.
Proof. split; vm_compute; congruence. Defined.

Lemma demo_page_ok k : 1 <= k <= 8 -> page_ok demo_end (demo_page k).
Proof.
  intros H. unfold page_ok, demo_page, demo_end. split; [|unfold PGSIZE; lia].
  pose proof PHYSTOP_aligned. unfold PGSIZE in *. divlia.
Qed.

Lemma demo_entry_zero k i : 1 <= k <= 3 -> 0 < i < 512 -> entry demo_ram (demo_page k) i = 0.
Proof.
  intros Hk Hi. unfold entry, demo_ram.
  rewrite !load_store_other by (unfold demo_page, PGSIZE; lia). reflexivity.
Qed.

Lemma demo_table_at p t :
  table_at demo_tree p = Some t ->
  p = PRoot /\ t = demo_page 1 \/ p = PMid 0 /\ t = demo_page 2 \/ p = PLow 0 0 /\ t = demo_page 3.
Proof.
  destruct p as [|i|i j]; cbn [table_at demo_tree pt_root pt_l1 pt_l0].
  - intros [= <-]. by left.
  - intros [<- <-]%lookup_singleton_Some. right. by left.
  - intros [[= <- <-] <-]%lookup_singleton_Some. by do 2 right.
Qed.

Lemma demo_pt_rep : pt_rep demo_end demo_ram demo_tree.
Proof.
  split.
  - intros p t [[_ ->]|[[_ ->]|[_ ->]]]%demo_table_at; apply demo_page_ok; lia.
  - intros p q t [[-> ->]|[[-> ->]|[-> ->]]]%demo_table_at Hq%demo_table_at;
      destruct Hq as [[-> H]|[[-> H]|[-> H]]]; try done; unfold demo_page, PGSIZE in H; lia.
  - intros p t i Hu Ht Hi.
    assert (i = 0 \/ 0 < i) as [->|Hp] by lia.
    + destruct (demo_table_at p t Ht) as [[-> ->]|[[-> ->]|[-> ->]]]; [by vm_compute..|done].
    + assert (entry demo_ram t i = 0) as ->.
      { destruct (demo_table_at p t Ht) as [[-> ->]|[[-> ->]|[-> ->]]]; apply demo_entry_zero; lia. }
      destruct (table_at demo_tree (child p i)) eqn:Ec; [|done].
      destruct (demo_table_at p t Ht) as [[-> ->]|[[-> ->]|[-> ->]]]; [..|done];
        destruct (demo_table_at _ _ Ec) as [[H _]|[[H _]|[H _]]]; cbn [child] in H; simplify_eq; lia.
  - intros i j t Ht. apply (demo_table_at (PLow i j)) in Ht as [[? _]|[[? _]|[[= -> ->] _]]]; [done..|].
    by exists (demo_page 2).
  - intros p i t Hp Ht. destruct (demo_table_at _ _ Ht) as [[E _]|[[E _]|[E _]]];
      destruct p; simplify_eq/=; done.
Qed.

Lemma demo_vm_inv free :
  vm_inv demo_end (demo free) demo_tree (if free then [demo_page 5] else []).
Proof.
  split; [|apply demo_pt_rep|].
  - destruct free; split; try done; [| |constructor..].
    + apply NoDup_singleton.
    + apply Forall_singleton, demo_page_ok. lia.
  - intros p t Ht. destruct free; [|apply not_elem_of_nil]. rewrite list_elem_of_singleton.
    destruct (demo_table_at p t Ht) as [[_ ->]|[[_ ->]|[_ ->]]]; unfold demo_page, PGSIZE; lia.
Qed.

Lemma mappages_installs_range_witness :
  exists s', mappages (demo_page 1) PGSIZE PGSIZE (demo_page 6) user_perm 1 (demo true) = Done 0 s' /\
    forall x, PGSIZE <= x < 2 * PGSIZE ->
      exists T', PTE2PA (pte_of (ram s') T' x) = demo_page 6.
Proof.
  assert (forall x, PGSIZE / PGSIZE <= x / PGSIZE <= (PGSIZE + PGSIZE - 1) / PGSIZE -> x / PGSIZE = 1) as Hpg.
  { intros x. change (PGSIZE / PGSIZE) with 1. change ((PGSIZE + PGSIZE - 1) / PGSIZE) with 1. lia. }
  destruct (mappages_installs_range demo_end demo_end_range (demo true) demo_tree [demo_page 5]
              PGSIZE PGSIZE (demo_page 6) user_perm 1 (demo_vm_inv true))
    as (r & s' & T' & l' & j & E & _ & _ & R & Hin & _); [by vm_compute..| | |].
  - intros x Hx%Hpg.
    rewrite (pte_of_same_page _ _ x PGSIZE); [by vm_compute|unfold PGSIZE in *; divlia|by vm_compute|done].
  - vm_compute; lia.
  - exists s'. split.
    + assert (r = 0) as <-; [|exact E]. destruct R as [[-> _]|(-> & _)]; [done|].
      apply (f_equal (fun o => match o with Done a _ => a | _ => 5 end)) in E. vm_compute in E. congruence.
    + intros x Hx. exists T'. destruct (Hin x) as [-> _].
      * change MAXVA with 274877906944. unfold PGSIZE in *. lia.
      * destruct R as [[_ ->]|(-> & _)].
        -- change (PGSIZE / PGSIZE) with 1. change ((PGSIZE + PGSIZE - 1) / PGSIZE) with 1.
           unfold PGSIZE in *. divlia.
        -- apply (f_equal (fun o => match o with Done a _ => a | _ => 5 end)) in E. vm_compute in E. congruence.
      * change (PGSIZE / PGSIZE) with 1. unfold PGSIZE in *. divlia.
Defined.

Lemma walkaddr_translates_witness :
  walkaddr (demo_page 1) 0 (demo true) = Done (demo_page 4) (demo true) /\
  walkaddr (demo_page 1) PGSIZE (demo true) = Done 0 (demo true).
Proof.
  change (demo_page 1) with (pt_root demo_tree). split.
  - rewrite (walkaddr_translates demo_end demo_end_range (demo true) demo_tree 0 demo_pt_rep) by lia.
    f_equal.
  - rewrite (walkaddr_translates demo_end demo_end_range (demo true) demo_tree PGSIZE demo_pt_rep) by done.
    f_equal.
Defined.

Lemma mappages_remap_panics_witness :
  mappages (demo_page 1) 0 PGSIZE (demo_page 6) user_perm 1 (demo true) = Panicked "remap".
Proof.
  apply (mappages_remap_panics demo_end demo_end_range (demo true) demo_tree [demo_page 5]);
    [apply demo_vm_inv|by vm_compute|by vm_compute].
Defined.
