(* ===== verification/VmAwake.v ===== *)
(** * Memory operations never sleep

    The page allocator and the page-table routines take only spin locks, so
    they run in one go: what Proc.v relies on when it calls them. *)

From S2P Require Import Prelude Rely CMem Riscv Kalloc Vm.

(** Proof search over the structure of the code. *)
Ltac awake_step := first [solve [auto with awake] | simple apply awake_bind; [|intros ?] | simple apply awake_if].
Ltac awake := intros; cbv zeta; repeat (awake_step; cbv beta zeta).

Lemma awake_modify_ram f : awake (modify_ram f).
Proof. apply awake_modify. Qed.
Lemma awake_read_pte a : awake (read_pte a).
Proof. apply awake_gets. Qed.
Lemma awake_write_pte a v : awake (write_pte a v).
Proof. apply awake_modify. Qed.
Lemma awake_kmem_acquire : awake kmem_acquire.
Proof. apply awake_acquire. Qed.
Lemma awake_kmem_release : awake kmem_release.
Proof. apply awake_release. Qed.
#[export] Hint Resolve awake_modify_ram awake_read_pte awake_write_pte awake_kmem_acquire awake_kmem_release : awake.

Lemma awake_kalloc : awake kalloc.
Proof. unfold kalloc. awake. Qed.
Lemma awake_kfree kend pa : awake (kfree kend pa).
Proof. unfold kfree. awake. Qed.
#[export] Hint Resolve awake_kalloc awake_kfree : awake.

Lemma awake_walk_levels n pt va al : awake (walk_levels n pt va al).
Proof. revert pt. induction n as [|n IH]; intros pt; cbn [walk_levels]; awake; apply IH. Qed.
Lemma awake_walk pt va al : awake (walk pt va al).
Proof. unfold walk. apply awake_if; [auto with awake|apply awake_walk_levels]. Qed.
#[export] Hint Resolve awake_walk : awake.

Lemma awake_walkaddr pt va : awake (walkaddr pt va).
Proof. unfold walkaddr. awake. Qed.
#[export] Hint Resolve awake_walkaddr : awake.

Lemma awake_mappages pt va size pa perm fuel : awake (mappages pt va size pa perm fuel).
Proof.
  unfold mappages. generalize (PGROUNDDOWN va), (PGROUNDDOWN (u64 (va + size - 1))). intros a last. revert a pa.
  induction fuel as [|f IH]; intros a pa; cbn [mappages_loop]; awake; apply IH.
Qed.
Lemma awake_uvmunmap kend pt va size fr fuel : awake (uvmunmap kend pt va size fr fuel).
Proof.
  unfold uvmunmap. generalize (PGROUNDDOWN va), (PGROUNDDOWN (u64 (va + size - 1))). intros a last. revert a.
  induction fuel as [|f IH]; intros a; cbn [uvmunmap_loop]; awake; apply IH.
Qed.
#[export] Hint Resolve awake_mappages awake_uvmunmap : awake.

Lemma awake_kvmmap pt va pa sz perm fuel : awake (kvmmap pt va pa sz perm fuel).
Proof. unfold kvmmap. awake. Qed.
Lemma awake_uvmcreate : awake uvmcreate.
Proof. unfold uvmcreate. awake. Qed.
Lemma awake_uvminit pt src fuel : awake (uvminit pt src fuel).
Proof. unfold uvminit. awake. Qed.
Lemma awake_uvmdealloc kend pt o n fuel : awake (uvmdealloc kend pt o n fuel).
Proof. unfold uvmdealloc. awake. Qed.
Lemma awake_uvmclear pt va : awake (uvmclear pt va).
Proof. unfold uvmclear. awake. Qed.
#[export] Hint Resolve awake_kvmmap awake_uvmcreate awake_uvminit awake_uvmdealloc awake_uvmclear : awake.

Lemma awake_uvmalloc kend pt o n fuel : awake (uvmalloc kend pt o n fuel).
Proof.
  unfold uvmalloc. apply awake_if; [auto with awake|]. generalize (PGROUNDUP o) at 1. revert n.
  induction fuel as [|f IH]; intros n a; cbn [uvmalloc_loop]; awake; apply IH.
Qed.

Lemma awake_freewalk_loop rec pt i n : (forall p, awake (rec p)) -> awake (freewalk_loop rec pt i n).
Proof. intros Hr. revert i. induction n as [|n IH]; intros i; cbn [freewalk_loop]; awake; apply IH || apply Hr. Qed.
Lemma awake_freewalk kend d pt : awake (freewalk kend d pt).
Proof.
  revert pt. induction d as [|d IH]; intros pt; cbn [freewalk]; [auto with awake|].
  apply awake_bind; [by apply awake_freewalk_loop|auto with awake].
Qed.
#[export] Hint Resolve awake_uvmalloc awake_freewalk : awake.

Lemma awake_uvmfree kend pt sz fuel : awake (uvmfree kend pt sz fuel).
Proof. unfold uvmfree. awake. Qed.
Lemma awake_uvmcopy kend o n sz fuel : awake (uvmcopy kend o n sz fuel).
Proof.
  unfold uvmcopy. generalize 0. induction fuel as [|f IH]; intros i; cbn [uvmcopy_loop]; awake; apply IH.
Qed.
Lemma awake_copyout pt dst src fuel : awake (copyout pt dst src fuel).
Proof. revert dst src. induction fuel as [|f IH]; intros dst src; cbn [copyout]; awake; apply IH. Qed.
Lemma awake_copyin pt src len fuel : awake (copyin pt src len fuel).
Proof. revert src len. induction fuel as [|f IH]; intros src len; cbn [copyin]; awake; apply IH. Qed.
Lemma awake_copyinstr pt src max fuel : awake (copyinstr pt src max fuel).
Proof. revert src max. induction fuel as [|f IH]; intros src max; cbn [copyinstr]; awake; apply IH. Qed.
#[export] Hint Resolve awake_uvmfree awake_uvmcopy awake_copyout awake_copyin awake_copyinstr : awake.
