(* ===== verification/Uvm.v ===== *)
(** * User address spaces: the user half of kernel/vm.c against an abstract view

    The functions are those of Vm.v; here each of them is shown to implement
    an operation on an abstract address space: a partial map from virtual
    addresses to permission bits and a byte.  [usim] collects what every one
    of them guarantees to the rest of the kernel: no page is lost or gained
    between the free list, the page tables and the mapped pages, and no byte
    outside those pages is touched. *)

From S2P Require Import Prelude CMem Riscv Kalloc Vm.

Section Uvm.

Variable kend : Z.
Hypothesis kend_range : KERNBASE <= kend <= PHYSTOP.

Local Notation page_ok := (page_ok kend).
Local Notation vm_inv := (vm_inv kend).
Local Notation kfree := (kfree kend).

Definition in_user (va : Z) : Prop := 0 <= va < TRAPFRAME.

(** The abstract address space: flags and byte at each mapped address. *)
Definition uview (s : kmem) (T : ptree) (va : Z) : option (Z * byte) :=
  let e := pte_of (ram s) T va in
  if valid e then Some (PTE_FLAGS e, ram s (PTE2PA e + va mod PGSIZE)) else None.

Record as_inv (s : kmem) (T : ptree) (l : list Z) : Prop := {
  as_vm : vm_inv s T l;
  as_page va : in_user va -> valid (pte_of (ram s) T va) = true ->
    let p := PTE2PA (pte_of (ram s) T va) in
    page_ok p /\ p ∉ l /\ forall q, table_at T q <> Some p;
  as_inj va va' : in_user va -> in_user va' ->
    valid (pte_of (ram s) T va) = true -> valid (pte_of (ram s) T va') = true ->
    PTE2PA (pte_of (ram s) T va) = PTE2PA (pte_of (ram s) T va') -> va / PGSIZE = va' / PGSIZE;
  as_leaf va : in_user va -> valid (pte_of (ram s) T va) = true ->
    PTE_FLAGS (pte_of (ram s) T va) <> PTE_V;
}.

(** The physical pages an address space and the free list account for. *)
Inductive world (s : kmem) (T : ptree) (l : list Z) (u : Z) : Prop :=
| w_free : u ∈ l -> world s T l u
| w_table q : table_at T q = Some u -> world s T l u
| w_mapped va : in_user va -> valid (pte_of (ram s) T va) = true ->
    PTE2PA (pte_of (ram s) T va) = u -> world s T l u.

Record usim (s : kmem) (T : ptree) (l : list Z) (s' : kmem) (T' : ptree) (l' : list Z) : Prop := {
  us_inv : as_inv s' T' l';
  us_root : pt_root T' = pt_root T;
  us_world u : world s' T' l' u <-> world s T l u;
  us_frame a : (forall u, world s T l u -> outside u a) -> ram s' a = ram s a;
  us_high va : TRAPFRAME <= va < MAXVA -> pte_of (ram s') T' va = pte_of (ram s) T va;
}.

Lemma usim_refl s T l : as_inv s T l -> usim s T l s T l.
Proof. by split. Qed.

Lemma usim_trans s1 T1 l1 s2 T2 l2 s3 T3 l3 :
  usim s1 T1 l1 s2 T2 l2 -> usim s2 T2 l2 s3 T3 l3 -> usim s1 T1 l1 s3 T3 l3.
Proof.
  intros A B. split.
  - apply B.
  - by rewrite (us_root _ _ _ _ _ _ B), (us_root _ _ _ _ _ _ A).
  - intros u. by rewrite (us_world _ _ _ _ _ _ B), (us_world _ _ _ _ _ _ A).
  - intros a H. rewrite (us_frame _ _ _ _ _ _ B), (us_frame _ _ _ _ _ _ A); [done|done|].
    intros u Hu. apply H. by apply (us_world _ _ _ _ _ _ A).
  - intros va H. by rewrite (us_high _ _ _ _ _ _ B), (us_high _ _ _ _ _ _ A).
Qed.

Lemma user_max va : in_user va -> 0 <= va < MAXVA.
Proof. unfold in_user, TRAPFRAME, TRAMPOLINE, PGSIZE. lia. Qed.

Lemma high_max va : TRAPFRAME <= va < MAXVA -> 0 <= va < MAXVA.
Proof. change TRAPFRAME with 274877898752. lia. Qed.

(** User pages and the pages above them are different pages. *)
Lemma high_page va x : in_user va -> TRAPFRAME <= x -> x / PGSIZE <> va / PGSIZE.
Proof. unfold in_user. change TRAPFRAME with 274877898752. unfold PGSIZE. intros. divlia. Qed.

(** Pages of the world are pages of the allocator's range. *)
Lemma world_page s T l u : as_inv s T l -> world s T l u -> page_ok u.
Proof.
  intros Hi [Hu|q Hq|va H1 H2 <-].
  - pose proof (kinv_pages _ _ _ (vm_kmem _ _ _ _ (as_vm _ _ _ Hi))) as H.
    rewrite Forall_forall in H. by apply H.
  - by apply (rep_page _ _ _ (vm_rep _ _ _ _ (as_vm _ _ _ Hi)) q).
  - by apply (as_page _ _ _ Hi va).
Qed.

(** ** Changing one page that is neither free nor a table *)

Lemma vm_inv_page s T l m' p :
  vm_inv s T l -> page_ok p -> p ∉ l -> (forall q, table_at T q <> Some p) ->
  (forall a, outside p a -> m' a = ram s a) ->
  vm_inv (set_ram m' s) T l /\ forall va, pte_of m' T va = pte_of (ram s) T va.
Proof.
  intros [Hk Hr Ht] Hp Hpl Hpt Hm.
  assert (forall q t a, table_at T q = Some t -> t <= a < t + PGSIZE -> m' a = ram s a) as Ho.
  { intros q t a Hq Ha. apply Hm.
    assert (page_ok t) by (by apply (rep_page _ _ _ Hr q)).
    assert (p <> t) as Hne by (intros ->; by apply (Hpt q)).
    destruct (page_ok_disjoint kend p t Hp ltac:(done) Hne); unfold outside, PGSIZE in *; lia. }
  split; [split; simpl|].
  - apply kmem_inv_ram; [done|]. intros q Hq. apply (load64_outside_page kend _ _ p); try done.
    + pose proof (kinv_pages _ _ _ Hk) as Hf. rewrite Forall_forall in Hf. by apply Hf.
    + by intros ->.
  - by eapply pt_rep_outside.
  - done.
  - intros va. by apply pte_of_outside.
Qed.

Lemma vm_kalloc s T l p :
  vm_inv s T (p :: l) ->
  exists s1, kalloc s = Done p s1 /\ vm_inv s1 T l /\
    (forall a, outside p a -> ram s1 a = ram s a) /\
    (forall va, pte_of (ram s1) T va = pte_of (ram s) T va).
Proof.
  intros Hi. destruct (kalloc_spec kend kend_range s (p :: l) (vm_kmem _ _ _ _ Hi))
    as (s1 & E & Hk & Ho & _).
  pose proof (kinv_pages _ _ _ (vm_kmem _ _ _ _ Hi)) as [Hp _]%Forall_cons.
  assert (forall q t a, table_at T q = Some t -> t <= a < t + PGSIZE -> ram s1 a = ram s a) as Hs.
  { intros q t a Hq Ha. apply Ho.
    assert (page_ok t) by (by apply (rep_page _ _ _ (vm_rep _ _ _ _ Hi) q)).
    assert (p <> t) as Hne by (intros ->; apply (vm_tables _ _ _ _ Hi q t Hq); left).
    destruct (page_ok_disjoint kend p t Hp ltac:(done) Hne); unfold outside, PGSIZE in *; lia. }
  exists s1. split; [done|]. split; [|split; [done|intros va; by apply pte_of_outside]].
  split; [done| |].
  - eapply pt_rep_outside; [apply Hi|done].
  - intros q t Hq Hin. apply (vm_tables _ _ _ _ Hi q t Hq). by right.
Qed.

Lemma vm_kfree s T l p :
  vm_inv s T l -> page_ok p -> p ∉ l -> (forall q, table_at T q <> Some p) ->
  exists s1, kfree p s = Done tt s1 /\ vm_inv s1 T (p :: l) /\
    (forall a, outside p a -> ram s1 a = ram s a) /\
    (forall va, pte_of (ram s1) T va = pte_of (ram s) T va).
Proof.
  intros Hi Hp Hpl Hpt.
  destruct (kfree_spec kend kend_range s l p (vm_kmem _ _ _ _ Hi) Hp Hpl) as (s1 & E & Hk & Ho).
  destruct (vm_inv_page s T l (ram s1) p Hi Hp Hpl Hpt Ho) as [Hv Hpte].
  exists s1. split_and!; try done. split; [done|apply Hv|].
  intros q t Hq [->|Hin]%elem_of_cons; [by apply (Hpt q)|by apply (vm_tables _ _ _ _ Hi q t)].
Qed.

(** ** Views *)

Lemma uview_same s T s' T' x :
  pte_of (ram s') T' x = pte_of (ram s) T x ->
  (valid (pte_of (ram s) T x) = true ->
   ram s' (PTE2PA (pte_of (ram s) T x) + x mod PGSIZE) = ram s (PTE2PA (pte_of (ram s) T x) + x mod PGSIZE)) ->
  uview s' T' x = uview s T x.
Proof. intros E H. unfold uview. rewrite E. destruct (valid _); [by rewrite H|done]. Qed.

Lemma page_byte p x : p <= p + x mod PGSIZE < p + PGSIZE.
Proof. pose proof (Z.mod_pos_bound x PGSIZE). unfold PGSIZE in *. lia. Qed.

Lemma inside_outside p q a :
  page_ok p -> page_ok q -> p <> q -> p <= a < p + PGSIZE -> outside q a.
Proof.
  intros Hp Hq Hne Ha. destruct (page_ok_disjoint kend p q Hp Hq Hne); unfold outside; lia.
Qed.

Lemma uview_flags s T x f b :
  uview s T x = Some (f, b) <->
  valid (pte_of (ram s) T x) = true /\ f = PTE_FLAGS (pte_of (ram s) T x) /\
  b = ram s (PTE2PA (pte_of (ram s) T x) + x mod PGSIZE).
Proof. unfold uview. destruct (valid _); naive_solver. Qed.

(** ** Mapping a freshly allocated page *)

(** The situation between [kalloc] of page [p], filling it, and the end of
    [mappages]: the tree has grown from [T] to [T'] and page [p] is owned by
    the running code. *)
Section Fresh.

Context (s : kmem) (T : ptree) (l : list Z) (p : Z).
Hypothesis Hi : as_inv s T (p :: l).
Context (s1 : kmem).
Hypothesis Hs1 : forall a, outside p a -> ram s1 a = ram s a.
Hypothesis Hpte1 : forall va, pte_of (ram s1) T va = pte_of (ram s) T va.
Context (f : edit) (s2 : kmem) (T' : ptree) (l' : list Z).
Hypothesis G : remap kend f s1 T l s2 T' l'.

Lemma fresh_page_ok : page_ok p.
Proof. by pose proof (kinv_pages _ _ _ (vm_kmem _ _ _ _ (as_vm _ _ _ Hi))) as [? _]%Forall_cons. Qed.

Lemma fresh_not_free : p ∉ l.
Proof. by pose proof (kinv_nodup _ _ _ (vm_kmem _ _ _ _ (as_vm _ _ _ Hi))) as [? _]%NoDup_cons. Qed.

Lemma grown_free u : u ∈ l' -> u ∈ l.
Proof. destruct (rm_suffix _ _ _ _ _ _ _ _ G) as [k E]. rewrite E, elem_of_app. by right. Qed.

(** A page the old tree and the free list do not own is not a new table. *)
Lemma grown_not_table u : u ∉ l -> (forall q, table_at T q <> Some u) -> forall q, table_at T' q <> Some u.
Proof. intros H1 H2 q [H|H]%(rm_new _ _ _ _ _ _ _ _ G); [by apply (H2 q)|done]. Qed.

Lemma fresh_not_table q : table_at T' q <> Some p.
Proof.
  apply grown_not_table; [apply fresh_not_free|].
  intros q' Hq. apply (vm_tables _ _ _ _ (as_vm _ _ _ Hi) q' p Hq). left.
Qed.

(** Pages mapped before keep their owner and their bytes. *)
Lemma mapped_kept x :
  in_user x -> valid (pte_of (ram s) T x) = true ->
  let u := PTE2PA (pte_of (ram s) T x) in
  page_ok u /\ u <> p /\ u ∉ l' /\ (forall q, table_at T' q <> Some u) /\
  (forall a, u <= a < u + PGSIZE -> ram s2 a = ram s a).
Proof.
  intros Hx Hv u. destruct (as_page _ _ _ Hi x Hx Hv) as (Hu & Hul & Hut).
  apply not_elem_of_cons in Hul as [Hup Hul].
  assert (forall q, table_at T' q <> Some u) as Ht' by (by apply grown_not_table).
  split_and!; try done; [by intros ?%grown_free|].
  intros a Ha. rewrite (rm_frame _ _ _ _ _ _ _ _ G).
  - apply Hs1. by apply (inside_outside u p a Hu fresh_page_ok).
  - intros q t Hq. assert (page_ok t) by (by apply (rep_page _ _ _ (vm_rep _ _ _ _ (rm_inv _ _ _ _ _ _ _ _ G)) q)).
    apply (inside_outside u t a); try done. intros ->. by apply (Ht' q).
Qed.

Lemma grown_frame a : (forall u, world s T (p :: l) u -> outside u a) -> ram s2 a = ram s a.
Proof.
  intros H. rewrite (rm_frame _ _ _ _ _ _ _ _ G).
  - apply Hs1, H, w_free. left.
  - intros q u [Hq|Hq]%(rm_new _ _ _ _ _ _ _ _ G); apply H; [by eapply w_table|apply w_free; by right].
Qed.

(** A page of the world before, apart from [p], is free, a table or mapped. *)
Lemma grown_world u :
  world s T (p :: l) u -> u = p \/ u ∈ l' \/ (exists q, table_at T' q = Some u) \/
  exists x, in_user x /\ valid (pte_of (ram s) T x) = true /\ PTE2PA (pte_of (ram s) T x) = u.
Proof.
  intros [[->|Hu]%elem_of_cons|q Hq|x H1 H2 H3].
  - by left.
  - right. destruct (rm_used _ _ _ _ _ _ _ _ G u Hu); [by left|by right; left].
  - do 2 right. left. exists q. by apply (rm_sub _ _ _ _ _ _ _ _ G).
  - do 3 right. by exists x.
Qed.

Lemma grown_owned u :
  u ∈ l' \/ (exists q, table_at T' q = Some u) -> world s T (p :: l) u.
Proof.
  intros [H%grown_free|[q [H|H]%(rm_new _ _ _ _ _ _ _ _ G)]];
    [apply w_free; by right|by eapply w_table|apply w_free; by right].
Qed.

End Fresh.

Lemma same_page_user va x : in_user va -> va mod PGSIZE = 0 -> x / PGSIZE = va / PGSIZE -> in_user x.
Proof.
  unfold in_user. change TRAPFRAME with 274877898752. unfold PGSIZE. intros. divlia.
Qed.

Lemma mapped_fresh s T l p s1 perm va s2 T' l' :
  as_inv s T (p :: l) ->
  (forall a, outside p a -> ram s1 a = ram s a) ->
  (forall va, pte_of (ram s1) T va = pte_of (ram s) T va) ->
  in_user va -> valid (pte_of (ram s) T va) = false ->
  0 <= perm < 2 ^ 10 -> Z.lor perm PTE_V <> PTE_V ->
  remap kend (edit_one (va / PGSIZE) (mk_pte p perm)) s1 T l s2 T' l' ->
  usim s T (p :: l) s2 T' l' /\
  forall x, in_user x -> uview s2 T' x =
    if x / PGSIZE =? va / PGSIZE then Some (Z.lor perm PTE_V, ram s1 (p + x mod PGSIZE)) else uview s T x.
Proof.
  intros Hi Hs1 Hpte1 Hva Hnv Hperm Hpv G.
  pose proof (fresh_page_ok s T l p Hi) as Hp. pose proof (page_bounds kend kend_range p Hp) as (B0 & B1 & B2 & _).
  destruct (mk_pte_ok p perm ltac:(lia) B1 Hperm) as (M1 & M2 & _ & M4).
  assert (forall x, 0 <= x < MAXVA -> pte_of (ram s2) T' x =
            if x / PGSIZE =? va / PGSIZE then mk_pte p perm else pte_of (ram s) T x) as Hpte.
  { intros x Hx. rewrite (rm_pte _ _ _ _ _ _ _ _ G) by done. unfold edited, edit_one.
    destruct (_ =? _); [done|apply Hpte1]. }
  pose proof (fresh_not_table s T l p Hi s1 _ s2 T' l' G) as Hpt.
  pose proof (mapped_kept s T l p Hi s1 Hs1 _ s2 T' l' G) as Hold.
  assert (forall x, in_user x -> valid (pte_of (ram s2) T' x) = true ->
     x / PGSIZE = va / PGSIZE /\ pte_of (ram s2) T' x = mk_pte p perm \/
     x / PGSIZE <> va / PGSIZE /\ pte_of (ram s2) T' x = pte_of (ram s) T x /\ valid (pte_of (ram s) T x) = true) as Hcase.
  { intros x Hx. rewrite Hpte by (by apply user_max).
    destruct (Z.eqb_spec (x / PGSIZE) (va / PGSIZE)); [by left|by right]. }
  split; [split|].
  - split; [apply G| | |].
    + intros x Hx [[_ ->]|(_ & -> & Hv)]%Hcase; [rewrite M1|by destruct (Hold x Hx Hv) as (? & ? & ? & ? & _)|done].
      split_and!; [done| |done].
      intros ?%(grown_free T l s1 _ s2 T' l' G). by apply (fresh_not_free s T l p Hi).
    + intros x x' Hx Hx' [[E ->]|(_ & -> & Hv)]%Hcase; [..|done];
        (intros [[E' ->]|(_ & -> & Hv')]%Hcase; [..|done]); rewrite ?M1.
      * congruence.
      * intros Ep. destruct (Hold x' Hx' Hv') as (_ & ? & _). congruence.
      * intros Ep. destruct (Hold x Hx Hv) as (_ & ? & _). congruence.
      * by apply (as_inj _ _ _ Hi).
    + intros x Hx [[_ ->]|(_ & -> & Hv)]%Hcase; [by rewrite M2|by apply (as_leaf _ _ _ Hi)|done].
  - apply G.
  - intros u. split.
    + intros [Hu|q Hq|x Hx Hv <-].
      * apply (grown_owned s T l p s1 _ s2 T' l' G). by left.
      * apply (grown_owned s T l p s1 _ s2 T' l' G). right. by exists q.
      * apply Hcase in Hv as [[_ ->]|(_ & -> & Hv)]; [rewrite M1; apply w_free; left|by eapply w_mapped|done].
    + intros [->|[Hu|[[q Hq]|(x & Hx & Hv & <-)]]]%(grown_world s T l p s1 _ s2 T' l' G).
      * apply (w_mapped _ _ _ _ va Hva); rewrite Hpte, Z.eqb_refl by (by apply user_max); done.
      * by apply w_free.
      * by eapply w_table.
      * assert (x / PGSIZE <> va / PGSIZE) as Hne.
        { intros E. rewrite (pte_of_same_page _ _ x va) in Hv by (unfold in_user in *; lia || done). congruence. }
        apply (w_mapped _ _ _ _ x Hx); rewrite Hpte by (by apply user_max);
          destruct (Z.eqb_spec (x / PGSIZE) (va / PGSIZE)); done.
  - apply (grown_frame s T l p s1 Hs1 _ s2 T' l' G).
  - intros x Hx. rewrite Hpte by (by apply high_max).
    destruct (Z.eqb_spec (x / PGSIZE) (va / PGSIZE)) as [E|]; [|done].
    by destruct (high_page va x Hva (proj1 Hx)).
  - intros x Hx. unfold uview. rewrite Hpte by (by apply user_max).
    destruct (Z.eqb_spec (x / PGSIZE) (va / PGSIZE)) as [E|E].
    + rewrite M4, M1, M2. do 2 f_equal. rewrite (rm_frame _ _ _ _ _ _ _ _ G); [done|].
      intros q t Hq. apply (inside_outside p t); [done| |intros ->; by apply (Hpt q)|apply page_byte].
      by apply (rep_page _ _ _ (vm_rep _ _ _ _ (rm_inv _ _ _ _ _ _ _ _ G)) q).
    + destruct (valid (pte_of (ram s) T x)) eqn:Hv; [|done].
      destruct (Hold x Hx Hv) as (_ & _ & _ & _ & Hb). by rewrite Hb by apply page_byte.
Qed.

(** When [mappages] fails, freeing the page restores the view. *)
Lemma failed_fresh s T l p s1 s2 T' l' :
  as_inv s T (p :: l) ->
  (forall a, outside p a -> ram s1 a = ram s a) ->
  (forall va, pte_of (ram s1) T va = pte_of (ram s) T va) ->
  remap kend edit_none s1 T l s2 T' l' ->
  exists s3, kfree p s2 = Done tt s3 /\ usim s T (p :: l) s3 T' (p :: l') /\
    forall x, in_user x -> uview s3 T' x = uview s T x.
Proof.
  intros Hi Hs1 Hpte1 G.
  pose proof (fresh_page_ok s T l p Hi) as Hp.
  pose proof (fresh_not_table s T l p Hi s1 _ s2 T' l' G) as Hpt.
  pose proof (mapped_kept s T l p Hi s1 Hs1 _ s2 T' l' G) as Hold.
  assert (p ∉ l') as Hpl.
  { intros ?%(grown_free T l s1 _ s2 T' l' G). by apply (fresh_not_free s T l p Hi). }
  destruct (vm_kfree s2 T' l' p (rm_inv _ _ _ _ _ _ _ _ G) Hp Hpl Hpt) as (s3 & E & Hv3 & Ho & Hpte3).
  exists s3. split; [done|].
  assert (forall x, 0 <= x < MAXVA -> pte_of (ram s3) T' x = pte_of (ram s) T x) as Hpte.
  { intros x Hx. rewrite Hpte3, (rm_pte _ _ _ _ _ _ _ _ G) by done. apply Hpte1. }
  split; [split|].
  - split; [done| | |].
    + intros x Hx. rewrite Hpte by (by apply user_max). intros Hv.
      destruct (Hold x Hx Hv) as (? & ? & ? & ? & _). split_and!; try done. by apply not_elem_of_cons.
    + intros x x' Hx Hx'. rewrite !Hpte by (by apply user_max). by apply (as_inj _ _ _ Hi).
    + intros x Hx. rewrite !Hpte by (by apply user_max). by apply (as_leaf _ _ _ Hi).
  - apply G.
  - intros u. split.
    + intros [[->|Hu]%elem_of_cons|q Hq|x Hx Hv <-].
      * apply w_free. left.
      * apply (grown_owned s T l p s1 _ s2 T' l' G). by left.
      * apply (grown_owned s T l p s1 _ s2 T' l' G). right. by exists q.
      * rewrite Hpte in * by (by apply user_max). by eapply w_mapped.
    + intros [->|[Hu|[[q Hq]|(x & Hx & Hv & <-)]]]%(grown_world s T l p s1 _ s2 T' l' G).
      * apply w_free. left.
      * apply w_free. by right.
      * by eapply w_table.
      * apply (w_mapped _ _ _ _ x Hx); by rewrite Hpte by (by apply user_max).
  - intros a Ha. rewrite Ho by (apply Ha, w_free; left).
    by apply (grown_frame s T l p s1 Hs1 _ s2 T' l' G).
  - intros x Hx. by apply Hpte, high_max.
  - intros x Hx. apply uview_same; [by apply Hpte, user_max|]. intros Hv.
    destruct (Hold x Hx Hv) as (Hu & Hup & _ & _ & Hb).
    rewrite Ho by (eapply inside_outside; [exact Hu|exact Hp|exact Hup|apply page_byte]).
    by rewrite Hb by apply page_byte.
Qed.

(** Allocating a page, filling it with [fill] and mapping it at [va]: either
    it appears in the view, or the view is restored by freeing it. *)
Lemma alloc_map_page s T l p fill va perm fuel :
  as_inv s T (p :: l) -> in_user va -> va mod PGSIZE = 0 -> valid (pte_of (ram s) T va) = false ->
  0 <= perm < 2 ^ 10 -> Z.lor perm PTE_V <> PTE_V -> (0 < fuel)%nat ->
  (forall m a, outside p a -> fill m a = m a) ->
  exists s1 r s2, kalloc s = Done p s1 /\ (forall a, outside p a -> ram s1 a = ram s a) /\
    mappages (pt_root T) va PGSIZE p perm fuel (set_ram (fill (ram s1)) s1) = Done r s2 /\
    ((r = 0 /\ exists T' l', usim s T (p :: l) s2 T' l' /\
        forall x, in_user x -> uview s2 T' x =
          if x / PGSIZE =? va / PGSIZE then Some (Z.lor perm PTE_V, fill (ram s1) (p + x mod PGSIZE))
          else uview s T x) \/
     (r = -1 /\ (length l < 2)%nat /\ exists s3 T' l', kfree p s2 = Done tt s3 /\
        usim s T (p :: l) s3 T' l' /\ forall x, in_user x -> uview s3 T' x = uview s T x)).
Proof.
  intros Hi Hva Hal Hnv Hperm Hpv Hfuel Hfill.
  pose proof (fresh_page_ok s T l p Hi) as Hp.
  pose proof (page_bounds kend kend_range p Hp) as (B0 & B1 & _ & B3).
  destruct (vm_kalloc s T l p (as_vm _ _ _ Hi)) as (s1 & E1 & Hv1 & Ho1 & Hp1).
  assert (forall q, table_at T q <> Some p) as Hpt.
  { intros q Hq. apply (vm_tables _ _ _ _ (as_vm _ _ _ Hi) q p Hq). left. }
  destruct (vm_inv_page s1 T l (fill (ram s1)) p Hv1 Hp (fresh_not_free s T l p Hi) Hpt (Hfill _))
    as [Hv1' Hp1'].
  set (s1' := set_ram (fill (ram s1)) s1) in *.
  assert (forall a, outside p a -> ram s1' a = ram s a) as Ho1'.
  { intros a Ha. simpl. rewrite Hfill by done. by apply Ho1. }
  assert (forall x, pte_of (ram s1') T x = pte_of (ram s) T x) as Hpte'.
  { intros x. rewrite <- Hp1. apply Hp1'. }
  assert ((va + PGSIZE - 1) / PGSIZE = va / PGSIZE) as Epg by (unfold PGSIZE in *; divlia).
  assert (extra_pages va PGSIZE = 0%nat) as Eex by (unfold extra_pages; rewrite Epg; lia).
  destruct (mappages_spec kend kend_range s1' T l va PGSIZE p perm fuel Hv1')
    as (r & s2 & T' & l' & j & E & G & R).
  - apply Hva.
  - done.
  - unfold in_user, TRAPFRAME, TRAMPOLINE, PGSIZE in *. lia.
  - lia.
  - done.
  - change PHYSTOP with 2281701376 in B3. unfold PGSIZE in *. lia.
  - done.
  - intros x Hx. rewrite Epg in Hx. rewrite Hpte'.
    assert (x / PGSIZE = va / PGSIZE) as Ex by lia.
    rewrite (pte_of_same_page _ _ x va); [done| |apply Hva|done].
    unfold in_user, PGSIZE in *. divlia.
  - lia.
  - exists s1, r, s2. split; [done|]. split; [done|]. split; [done|].
    rewrite Eex in R. destruct R as [(-> & -> & _)|(-> & Hj & -> & Hlen & _)]; [left|right]; (split; [done|]).
    + exists T', l'. apply (mapped_fresh s T l p s1' perm va); try done.
      eapply remap_edit; [|exact G]. intros pg. unfold edit_range, edit_one.
      zcmp. do 2 f_equal. nia.
    + split; [apply Hlen; lia|].
      destruct (failed_fresh s T l p s1' s2 T' []) as (s3 & E3 & U & V); try done.
      * eapply remap_edit; [|exact G]. intros pg. unfold edit_range, edit_none.
        assert (j = 0)%nat as -> by lia. zcmp.
      * by exists s3, T', [p].
Qed.

Lemma next_page a : (a + PGSIZE) / PGSIZE = a / PGSIZE + 1.
Proof. unfold PGSIZE. divlia. Qed.

(** ** Unmapping *)

(** One iteration of [uvmunmap] with [do_free]. *)
Lemma unmap_page s T l va :
  as_inv s T l -> in_user va -> valid (pte_of (ram s) T va) = true ->
  exists s1, kfree (PTE2PA (pte_of (ram s) T va)) s = Done tt s1 /\
    let s2 := set_ram (store64 (ram s1) (pte_addr T va) 0) s1 in
    usim s T l s2 T (PTE2PA (pte_of (ram s) T va) :: l) /\
    forall x, in_user x -> uview s2 T x = if x / PGSIZE =? va / PGSIZE then None else uview s T x.
Proof.
  intros Hi Hva Hv. set (p := PTE2PA _).
  destruct (as_page _ _ _ Hi va Hva Hv) as (Hp & Hpl & Hpt). fold p in Hp, Hpl, Hpt.
  destruct (vm_kfree s T l p (as_vm _ _ _ Hi) Hp Hpl Hpt) as (s1 & E & Hv1 & Ho & Hpte1).
  exists s1. split; [done|]. intros s2.
  assert (exists t, pt_l0 T !! (PX 2 va, PX 1 va) = Some t /\ pte_addr T va = t + 8 * PX 0 va) as (t & Ht & Ea).
  { unfold pte_addr. unfold pte_of in Hv. destruct (pt_l0 T !! _) as [t|]; [by exists t|done]. }
  assert (remap kend (edit_one (va / PGSIZE) 0) s1 T (p :: l) s2 T (p :: l)) as G.
  { unfold s2. rewrite Ea. by apply vm_inv_write_leaf; [|apply user_max| |]. }
  assert (forall x, 0 <= x < MAXVA -> pte_of (ram s2) T x =
            if x / PGSIZE =? va / PGSIZE then 0 else pte_of (ram s) T x) as Hpte.
  { intros x Hx. rewrite (rm_pte _ _ _ _ _ _ _ _ G) by done. unfold edited, edit_one.
    destruct (_ =? _); [done|apply Hpte1]. }
  assert (forall x, in_user x -> valid (pte_of (ram s2) T x) = true ->
    x / PGSIZE <> va / PGSIZE /\ pte_of (ram s2) T x = pte_of (ram s) T x /\ valid (pte_of (ram s) T x) = true) as Hcase.
  { intros x Hx. rewrite Hpte by (by apply user_max).
    by destruct (Z.eqb_spec (x / PGSIZE) (va / PGSIZE)). }
  assert (forall x, in_user x -> valid (pte_of (ram s) T x) = true -> x / PGSIZE <> va / PGSIZE ->
            PTE2PA (pte_of (ram s) T x) <> p) as Hne.
  { intros x Hx Hvx Hn Ep. by apply Hn, (as_inj _ _ _ Hi). }
  assert (forall a, (forall q u, table_at T q = Some u -> outside u a) -> outside p a -> ram s2 a = ram s a) as Hfr.
  { intros a H1 H2. rewrite (rm_frame _ _ _ _ _ _ _ _ G) by done. by apply Ho. }
  split; [split|].
  - split; [apply G| | |].
    + intros x Hx (Hn & -> & Hvx)%Hcase; [|done]. destruct (as_page _ _ _ Hi x Hx Hvx) as (? & ? & ?).
      split_and!; try done. apply not_elem_of_cons. split; [by apply Hne|done].
    + intros x x' Hx Hx' (_ & -> & H1)%Hcase (_ & -> & H2)%Hcase; [|done..]. by apply (as_inj _ _ _ Hi).
    + intros x Hx (_ & -> & H1)%Hcase; [|done]. by apply (as_leaf _ _ _ Hi).
  - done.
  - intros u. split.
    + intros [[->|Hu]%elem_of_cons|q Hq|x Hx (_ & -> & Hvx)%Hcase <-]; [..|done].
      * by eapply w_mapped.
      * by apply w_free.
      * by eapply w_table.
      * by eapply w_mapped.
    + intros [Hu|q Hq|x Hx Hvx <-]; [apply w_free; by right|by eapply w_table|].
      destruct (Z.eqb_spec (x / PGSIZE) (va / PGSIZE)) as [Ex|Ex].
      * apply w_free. rewrite (pte_of_same_page _ _ x va) by (unfold in_user in *; lia || done). left.
      * apply (w_mapped _ _ _ _ x Hx); rewrite Hpte by (by apply user_max);
          destruct (Z.eqb_spec (x / PGSIZE) (va / PGSIZE)); done.
  - intros a Ha. apply Hfr; [intros q u Hq; apply Ha; by eapply w_table|apply Ha; by eapply w_mapped].
  - intros x Hx. rewrite Hpte by (by apply high_max).
    destruct (Z.eqb_spec (x / PGSIZE) (va / PGSIZE)) as [Ex|]; [|done].
    by destruct (high_page va x Hva (proj1 Hx)).
  - intros x Hx. destruct (Z.eqb_spec (x / PGSIZE) (va / PGSIZE)) as [Ex|Ex].
    + unfold uview. rewrite Hpte by (by apply user_max). by rewrite Ex, Z.eqb_refl.
    + apply uview_same.
      * rewrite Hpte by (by apply user_max). by destruct (Z.eqb_spec (x / PGSIZE) (va / PGSIZE)).
      * intros Hvx. destruct (as_page _ _ _ Hi x Hx Hvx) as (Hu & _ & Hut). apply Hfr.
        -- intros q t' Hq. eapply inside_outside; [exact Hu| |intros <-; by apply (Hut q)|apply page_byte].
           by apply (rep_page _ _ _ (vm_rep _ _ _ _ (as_vm _ _ _ Hi)) q).
        -- eapply inside_outside; [exact Hu|exact Hp|by apply Hne|apply page_byte].
Qed.

Definition mapped (s : kmem) (T : ptree) (va : Z) : Prop := valid (pte_of (ram s) T va) = true.

Lemma uview_mapped s T va : uview s T va <> None <-> mapped s T va.
Proof. unfold uview, mapped. by destruct (valid _). Qed.

Lemma uvmunmap_loop_spec k : forall s T l a last fuel,
  as_inv s T l -> 0 <= a -> a mod PGSIZE = 0 -> last = a + Z.of_nat k * PGSIZE -> last < TRAPFRAME ->
  (forall i, 0 <= i <= Z.of_nat k -> mapped s T (a + i * PGSIZE)) -> (k < fuel)%nat ->
  exists s' l', uvmunmap_loop kend (pt_root T) a last true fuel s = Done tt s' /\
    usim s T l s' T l' /\
    forall x, in_user x -> uview s' T x =
      if (a / PGSIZE <=? x / PGSIZE) && (x / PGSIZE <=? last / PGSIZE) then None else uview s T x.
Proof.
  induction k as [|k IH]; intros s T l a last fuel Hi H0 Ha Hlast Hmax Hm Hfuel;
    (destruct fuel as [|fuel]; [lia|]); cbn [uvmunmap_loop];
    assert (in_user a) as Hua by (unfold in_user, PGSIZE in *; lia);
    assert (mapped s T a) as Hma by (replace a with (a + 0 * PGSIZE) by lia; apply Hm; lia);
    destruct (unmap_page s T l a Hi Hua Hma) as (s1 & E1 & U & V);
    rewrite (bind_Done _ _ _ _ _ (walk_noalloc kend kend_range s T a (vm_rep _ _ _ _ (as_vm _ _ _ Hi)) (user_max _ Hua)));
    (destruct (Z.eqb_spec (pte_addr T a) 0) as [Ez|Enz];
     [unfold mapped in Hma; rewrite (pte_addr_zero kend kend_range _ _ _ (vm_rep _ _ _ _ (as_vm _ _ _ Hi)) Ez) in Hma; done|]);
    unfold read_pte, gets, bind at 1; cbn [obind];
    rewrite (pte_addr_load kend _ _ _ (vm_rep _ _ _ _ (as_vm _ _ _ Hi)) Enz);
    (destruct (Z.eqb_spec (Z.land (pte_of (ram s) T a) PTE_V) 0) as [Ev|_];
     [unfold mapped, valid in Hma; rewrite Ev in Hma; done|]);
    (destruct (Z.eqb_spec (PTE_FLAGS (pte_of (ram s) T a)) PTE_V) as [Ef|_];
     [by destruct (as_leaf _ _ _ Hi a Hua Hma)|]);
    rewrite (bind_Done _ _ _ _ _ E1); unfold write_pte, modify_ram, modify, bind at 1; cbn [obind].
  - destruct (Z.eqb_spec a last); [|unfold PGSIZE in *; lia]. subst last.
    do 2 eexists. split; [reflexivity|]. split; [exact U|]. intros x Hx. rewrite V by done.
    replace (a + Z.of_nat 0 * PGSIZE) with a by lia. zcmp.
  - destruct (Z.eqb_spec a last); [unfold PGSIZE in *; lia|].
    rewrite u64_small by (change TRAPFRAME with 274877898752 in *; unfold PGSIZE in *; lia).
    destruct (IH (set_ram (store64 (ram s1) (pte_addr T a) 0) s1) T _ (a + PGSIZE) last fuel (us_inv _ _ _ _ _ _ U))
      as (s' & l' & E & U' & V').
    + unfold PGSIZE in *; lia.
    + unfold PGSIZE in *; divlia.
    + lia.
    + done.
    + intros i Hii. apply uview_mapped. rewrite V by (unfold in_user, PGSIZE in *; lia).
      destruct (Z.eqb_spec ((a + PGSIZE + i * PGSIZE) / PGSIZE) (a / PGSIZE)) as [E'|_];
        [unfold PGSIZE in *; divlia|]. apply uview_mapped.
      replace (a + PGSIZE + i * PGSIZE) with (a + (i + 1) * PGSIZE) by lia. apply Hm. lia.
    + lia.
    + exists s', l'. split; [exact E|]. split; [by eapply usim_trans|].
      intros x Hx. rewrite V', V by done.
      rewrite next_page.
      assert (a / PGSIZE <= last / PGSIZE) by (apply Z.div_le_mono; unfold PGSIZE in *; lia).
      zcmp.
Qed.

Lemma page_ge a x : a mod PGSIZE = 0 -> (a / PGSIZE <=? x / PGSIZE) = (a <=? x).
Proof. intros. unfold PGSIZE in *. zcmp; divlia. Qed.

Lemma page_lt x e :
  0 < e -> e + PGSIZE - 1 < 2 ^ 64 -> (x / PGSIZE <=? (e - 1) / PGSIZE) = (x <? PGROUNDUP e).
Proof.
  intros. rewrite PGROUNDUP_eq by (unfold PGSIZE in *; lia).
  replace (e + PGSIZE - 1) with (e - 1 + PGSIZE) by lia. rewrite next_page.
  unfold PGSIZE in *. zcmp; divlia.
Qed.

Lemma user_u64 e : e <= TRAPFRAME -> e + PGSIZE - 1 < 2 ^ 64.
Proof. change TRAPFRAME with 274877898752. unfold PGSIZE. lia. Qed.

Lemma uvmunmap_spec s T l va size fuel :
  as_inv s T l -> 0 <= va -> va mod PGSIZE = 0 -> 0 < size -> va + size <= TRAPFRAME ->
  (forall x, va <= x < va + size -> mapped s T x) -> (extra_pages va size < fuel)%nat ->
  exists s' l', uvmunmap kend (pt_root T) va size true fuel s = Done tt s' /\
    usim s T l s' T l' /\
    forall x, in_user x -> uview s' T x =
      if (va <=? x) && (x <? PGROUNDUP (va + size)) then None else uview s T x.
Proof.
  intros Hi H0 Ha H1 H2 Hm Hfuel. unfold uvmunmap.
  destruct (page_range va size H0 H1) as (E & E0 & E1 & E2).
  { unfold TRAPFRAME, TRAMPOLINE, PGSIZE in *. lia. }
  rewrite (PGROUNDDOWN_aligned va Ha) in *.
  rewrite u64_small in * by (change TRAPFRAME with 274877898752 in *; lia).
  pose proof (PGROUNDDOWN_bounds (va + size - 1)) as [Hb Hal].
  destruct (uvmunmap_loop_spec (extra_pages va size) s T l va (PGROUNDDOWN (va + size - 1)) fuel)
    as (s' & l' & Er & U & V); try done.
  - lia.
  - intros i Hx. apply Hm. unfold PGSIZE in *. lia.
  - exists s', l'. split; [done|]. split; [done|]. intros x Hx. rewrite V by done.
    rewrite page_ge by done.
    assert (PGROUNDDOWN (va + size - 1) / PGSIZE = (va + size - 1) / PGSIZE) as ->.
    { rewrite PGROUNDDOWN_eq. unfold PGSIZE. divlia. }
    rewrite <- page_lt; [done|lia|]. apply user_u64. lia.
Qed.

(** [uvmdealloc] removes exactly the pages between the two sizes. *)
Lemma uvmdealloc_spec s T l oldsz newsz fuel :
  as_inv s T l -> 0 <= newsz -> 0 <= oldsz <= TRAPFRAME ->
  (forall x, PGROUNDUP newsz <= x < oldsz -> mapped s T x) ->
  (Z.to_nat (oldsz / PGSIZE) < fuel)%nat ->
  exists s' l', uvmdealloc kend (pt_root T) oldsz newsz fuel s = Done (Z.min oldsz newsz) s' /\
    usim s T l s' T l' /\
    forall x, in_user x -> uview s' T x =
      if (newsz <? oldsz) && (PGROUNDUP newsz <=? x) && (x <? PGROUNDUP oldsz) then None else uview s T x.
Proof.
  intros Hi H0 H1 Hm Hfuel. unfold uvmdealloc.
  destruct (Z.geb_spec newsz oldsz).
  { exists s, l. rewrite Z.min_l by lia. split; [done|]. split; [by apply usim_refl|]. intros. zcmp. }
  rewrite Z.min_r by lia. destruct (Z.ltb_spec newsz oldsz); [|lia]. cbn [andb].
  pose proof (user_u64 oldsz (proj2 H1)) as Ho.
  destruct (PGROUNDUP_bounds newsz H0 ltac:(lia)) as [Hb Hba].
  destruct (PGROUNDUP_bounds oldsz (proj1 H1) Ho) as [Hc Hca].
  destruct (Z.ltb_spec (PGROUNDUP newsz) (PGROUNDUP oldsz)) as [Hlt|Hge].
  - assert (PGROUNDUP newsz < oldsz) by (unfold PGSIZE in *; divlia).
    rewrite u64_small by lia.
    destruct (uvmunmap_spec s T l (PGROUNDUP newsz) (oldsz - PGROUNDUP newsz) fuel) as (s' & l' & E & U & V);
      try done; try lia.
    + intros x Hx. apply Hm. lia.
    + eapply Nat.le_lt_trans; [|exact Hfuel]. unfold extra_pages.
      replace (PGROUNDUP newsz + (oldsz - PGROUNDUP newsz) - 1) with (oldsz - 1) by lia.
      assert ((oldsz - 1) / PGSIZE <= oldsz / PGSIZE) by (apply Z.div_le_mono; unfold PGSIZE; lia).
      assert (0 <= PGROUNDUP newsz / PGSIZE) by (apply Z.div_pos; unfold PGSIZE; lia). lia.
    + exists s', l'. rewrite (bind_Done _ _ _ _ _ E). split; [done|]. split; [done|].
      intros x Hx. rewrite V by done. by replace (PGROUNDUP newsz + (oldsz - PGROUNDUP newsz)) with oldsz by lia.
  - exists s, l. split; [done|]. split; [by apply usim_refl|]. intros. zcmp.
Qed.

Lemma user_perm_ok : 0 <= user_perm < 2 ^ 10 /\ Z.lor user_perm PTE_V <> PTE_V.
Proof. by vm_compute. Qed.

(** ** Growing *)

Definition zero_page : option (Z * byte) := Some (Z.lor user_perm PTE_V, Byte.x00).

Lemma memset_page_outside p c m a : outside p a -> memset m p c PGSIZE a = m a.
Proof. intros H. unfold outside in H. apply memset_outside. lia. Qed.

Lemma memset_page_inside p m x : memset m p 0 PGSIZE (p + x mod PGSIZE) = Byte.x00.
Proof. pose proof (page_byte p x). rewrite memset_spec. zcmp. Qed.

Lemma page_eq_range a x : a mod PGSIZE = 0 -> (x / PGSIZE =? a / PGSIZE) = (a <=? x) && (x <? a + PGSIZE).
Proof. intros. unfold PGSIZE in *. zcmp; divlia. Qed.

Lemma uvmalloc_loop_spec n : forall s T l a oldsz newsz fuel,
  as_inv s T l -> 0 <= oldsz <= a -> oldsz mod PGSIZE = 0 -> a mod PGSIZE = 0 -> newsz <= TRAPFRAME ->
  newsz <= a + Z.of_nat n * PGSIZE -> a + Z.of_nat n * PGSIZE < newsz + PGSIZE ->
  (forall x, oldsz <= x < a -> mapped s T x) ->
  (forall x, a <= x < a + Z.of_nat n * PGSIZE -> ~ mapped s T x) ->
  (n + Z.to_nat (newsz / PGSIZE) + 1 < fuel)%nat ->
  exists r s' T' l', uvmalloc_loop kend (pt_root T) a oldsz newsz fuel s = Done r s' /\
    usim s T l s' T' l' /\
    ((r = newsz /\ forall x, in_user x -> uview s' T' x =
        if (a <=? x) && (x <? a + Z.of_nat n * PGSIZE) then zero_page else uview s T x) \/
     (r = 0 /\ forall x, in_user x -> uview s' T' x =
        if (oldsz <=? x) && (x <? a) then None else uview s T x)).
Proof.
  induction n as [|n IH]; intros s T l a oldsz newsz fuel Hi Ho Hoa Haa Hmax Hn1 Hn2 Hm Hnm Hfuel;
    (destruct fuel as [|fuel]; [lia|]); cbn [uvmalloc_loop].
  { destruct (Z.ltb_spec a newsz); [lia|]. exists newsz, s, T, l. split; [done|].
    split; [by apply usim_refl|]. left. split; [done|]. intros. zcmp. }
  destruct (Z.ltb_spec a newsz) as [Hlt|]; [|unfold PGSIZE in *; lia].
  assert (in_user a) as Hua by (unfold in_user; lia).
  assert (Z.to_nat (a / PGSIZE) <= Z.to_nat (newsz / PGSIZE))%nat as Hd.
  { apply Z2Nat.inj_le; [apply Z.div_pos; unfold PGSIZE; lia..|]. apply Z.div_le_mono; unfold PGSIZE; lia. }
  assert (forall s' T' l', usim s T l s' T' l' -> (forall x, in_user x -> uview s' T' x = uview s T x) ->
    exists s'' l'', uvmdealloc kend (pt_root T) a oldsz fuel s' = Done (Z.min a oldsz) s'' /\
      usim s T l s'' T' l'' /\ forall x, in_user x -> uview s'' T' x =
        if (oldsz <=? x) && (x <? a) then None else uview s T x) as Hundo.
  { intros s' T' l' U V.
    destruct (uvmdealloc_spec s' T' l' a oldsz fuel (us_inv _ _ _ _ _ _ U)) as (s'' & l'' & E & U' & V').
    - lia.
    - lia.
    - rewrite PGROUNDUP_aligned by (try apply user_u64; lia || done). intros x Hx.
      apply uview_mapped. rewrite V by (unfold in_user; lia). apply uview_mapped, Hm. lia.
    - lia.
    - exists s'', l''. rewrite <- (us_root _ _ _ _ _ _ U). split; [exact E|].
      split; [by eapply usim_trans|]. intros x Hx. rewrite V', V by done.
      rewrite !PGROUNDUP_aligned by (try apply user_u64; lia || done). zcmp. }
  destruct l as [|p l].
  { pose proof (kalloc_spec kend kend_range s [] (vm_kmem _ _ _ _ (as_vm _ _ _ Hi))) as Hk. simpl in Hk.
    rewrite (bind_Done _ _ _ _ _ Hk). cbn [Z.eqb].
    destruct (Hundo s T [] (usim_refl _ _ _ Hi) (fun _ _ => eq_refl)) as (s'' & l'' & E & U & V).
    rewrite (bind_Done _ _ _ _ _ E). exists 0, s'', T, l''. split; [done|]. split; [done|]. by right. }
  destruct user_perm_ok as [Hp1 Hp2].
  assert (valid (pte_of (ram s) T a) = false) as Hna.
  { apply not_true_is_false. apply Hnm. unfold PGSIZE in *. lia. }
  destruct (alloc_map_page s T l p (fun m => memset m p 0 PGSIZE) a user_perm fuel Hi Hua Haa Hna Hp1 Hp2 ltac:(lia)
              (fun m a => memset_page_outside p 0 m a))
    as (s1 & r & s2 & E1 & _ & E2 & [(-> & T' & l' & U & V)|(-> & _ & s3 & T' & l' & E3 & U & V)]);
    rewrite (bind_Done _ _ _ _ _ E1);
    pose proof (page_bounds kend kend_range p (fresh_page_ok s T l p Hi)) as (Hp0 & _);
    (destruct (Z.eqb_spec p 0); [lia|]);
    unfold modify_ram at 1, modify at 1, bind at 1; cbn [obind];
    rewrite (bind_Done _ _ _ _ _ E2); cbn [Z.eqb negb].
  - rewrite u64_small by (change TRAPFRAME with 274877898752 in *; unfold PGSIZE in *; lia).
    destruct (IH s2 T' l' (a + PGSIZE) oldsz newsz fuel (us_inv _ _ _ _ _ _ U)) as (r & s' & T'' & l'' & E & U' & R);
      try done; try (unfold PGSIZE in *; lia); try lia.
    + unfold PGSIZE in *. divlia.
    + intros x Hx. apply uview_mapped. assert (in_user x) as Hux.
      { clear -Hx Hlt Hmax Haa Ho. unfold in_user. change TRAPFRAME with 274877898752 in *. unfold PGSIZE in *. divlia. }
      rewrite V, page_eq_range by done. zcmp. apply uview_mapped, Hm. lia.
    + intros x Hx Hmx. assert (in_user x) as Hux.
      { clear -Hx Hn2 Hmax Haa Ho. unfold in_user. change TRAPFRAME with 274877898752 in *. unfold PGSIZE in *. divlia. }
      apply uview_mapped in Hmx. rewrite V, page_eq_range in Hmx by done.
      revert Hmx. zcmp. intros Hmx%uview_mapped. apply (Hnm x); [unfold PGSIZE in *; lia|done].
    + rewrite <- (us_root _ _ _ _ _ _ U). exists r, s', T'', l''. split; [exact E|]. split; [by eapply usim_trans|].
      destruct R as [[-> R]|[-> R]]; [left|right]; (split; [done|]); intros x Hx; rewrite R, V, page_eq_range by done.
      * rewrite memset_page_inside. fold zero_page. unfold PGSIZE in *. zcmp.
      * zcmp. destruct (uview s T x) eqn:Eu; [|done].
        assert (mapped s T x) as Hmx by (apply uview_mapped; congruence).
        destruct (Hnm x); [unfold PGSIZE in *; lia|done].
  - rewrite (bind_Done _ _ _ _ _ E3).
    destruct (Hundo s3 T' l' U V) as (s'' & l'' & E & U' & V').
    rewrite (bind_Done _ _ _ _ _ E). exists 0, s'', T', l''. split; [done|]. split; [done|]. by right.
Qed.

(** [uvmalloc] is all or nothing. *)
Lemma uvmalloc_spec s T l oldsz newsz fuel :
  as_inv s T l -> 0 <= oldsz <= TRAPFRAME -> 0 <= newsz <= TRAPFRAME ->
  (forall x, PGROUNDUP oldsz <= x < TRAPFRAME -> ~ mapped s T x) ->
  (2 * Z.to_nat (newsz / PGSIZE) + 3 < fuel)%nat ->
  exists r s' T' l', uvmalloc kend (pt_root T) oldsz newsz fuel s = Done r s' /\
    usim s T l s' T' l' /\
    ((newsz < oldsz /\ r = oldsz /\ forall x, in_user x -> uview s' T' x = uview s T x) \/
     (oldsz <= newsz /\ r = newsz /\ forall x, in_user x -> uview s' T' x =
        if (PGROUNDUP oldsz <=? x) && (x <? PGROUNDUP newsz) then zero_page else uview s T x) \/
     (oldsz <= newsz /\ r = 0 /\ forall x, in_user x -> uview s' T' x = uview s T x)).
Proof.
  intros Hi Ho Hn Hnm Hfuel. unfold uvmalloc. destruct (Z.ltb_spec newsz oldsz) as [Hlt|Hge].
  { exists oldsz, s, T, l. split; [done|]. split; [by apply usim_refl|]. by left. }
  destruct (PGROUNDUP_bounds oldsz (proj1 Ho) (user_u64 _ (proj2 Ho))) as [Hb Hba].
  destruct (PGROUNDUP_bounds newsz (proj1 Hn) (user_u64 _ (proj2 Hn))) as [Hc Hca].
  set (k := Z.to_nat ((PGROUNDUP newsz - PGROUNDUP oldsz) / PGSIZE)).
  assert (PGROUNDUP oldsz <= PGROUNDUP newsz) as Hle by (clear -Hb Hba Hc Hca Hge; unfold PGSIZE in *; divlia).
  assert (PGROUNDUP oldsz + Z.of_nat k * PGSIZE = PGROUNDUP newsz) as Hk.
  { subst k. clear -Hle Hba Hca. unfold PGSIZE in *. divlia. }
  assert (PGROUNDUP newsz <= TRAPFRAME) as Hcap.
  { clear -Hc Hca Hn. change TRAPFRAME with 274877898752 in *. unfold PGSIZE in *. divlia. }
  destruct (uvmalloc_loop_spec k s T l (PGROUNDUP oldsz) (PGROUNDUP oldsz) newsz fuel) as (r & s' & T' & l' & E & U & R);
    try done; try lia.
  - intros x Hx. apply Hnm. lia.
  - assert (k <= Z.to_nat (newsz / PGSIZE) + 1)%nat; [|lia]. clear -Hk Hc Hb Ho Hn. unfold PGSIZE in *. divlia.
  - exists r, s', T', l'. split; [done|]. split; [done|]. right. rewrite Hk in R.
    destruct R as [[-> V]|[-> V]]; [by left|right]. split_and!; try done.
    intros x Hx. rewrite V by done. zcmp.
Qed.

(** ** Copying an address space *)

(** Another address space, whose tables and pages are outside the world of
    the one being changed. *)
Record foreign (s : kmem) (To T : ptree) (l : list Z) : Prop := {
  fo_rep : pt_rep kend (ram s) To;
  fo_table q t : table_at To q = Some t -> ~ world s T l t;
  fo_page va : in_user va -> mapped s To va ->
    page_ok (PTE2PA (pte_of (ram s) To va)) /\ ~ world s T l (PTE2PA (pte_of (ram s) To va)) /\
    PTE_FLAGS (pte_of (ram s) To va) <> PTE_V;
}.

Lemma foreign_bytes s T l s' T' l' u a :
  as_inv s T l -> usim s T l s' T' l' -> page_ok u -> ~ world s T l u -> u <= a < u + PGSIZE ->
  ram s' a = ram s a.
Proof.
  intros Hi U Hu Hw Ha. apply (us_frame _ _ _ _ _ _ U). intros w Hw'.
  apply (inside_outside u w a Hu); [by eapply world_page| |done]. by intros ->.
Qed.

Lemma foreign_usim s To T l s' T' l' :
  as_inv s T l -> foreign s To T l -> usim s T l s' T' l' ->
  foreign s' To T' l' /\ (forall x, pte_of (ram s') To x = pte_of (ram s) To x) /\
  (forall x, in_user x -> uview s' To x = uview s To x).
Proof.
  intros Hi [F1 F2 F3] U.
  assert (forall q t a, table_at To q = Some t -> t <= a < t + PGSIZE -> ram s' a = ram s a) as Ht.
  { intros q t a Hq Ha. eapply foreign_bytes; try done; [by apply (rep_page _ _ _ F1 q)|by eapply F2]. }
  assert (forall x, pte_of (ram s') To x = pte_of (ram s) To x) as Hp by (intros; by apply pte_of_outside).
  split; [split|split; [done|]].
  - by eapply pt_rep_outside.
  - intros q t Hq Hw%(us_world _ _ _ _ _ _ U). by eapply F2.
  - unfold mapped. intros va Hva. rewrite Hp. intros Hv.
    destruct (F3 va Hva Hv) as (? & Hn & ?). split_and!; try done. by rewrite (us_world _ _ _ _ _ _ U).
  - intros x Hx. apply uview_same; [done|]. intros Hv. destruct (F3 x Hx Hv) as (Hu & Hn & _).
    by eapply foreign_bytes; [..|apply page_byte].
Qed.

Lemma flags_valid e : valid e = true -> Z.lor (PTE_FLAGS e) PTE_V = PTE_FLAGS e /\ 0 <= PTE_FLAGS e < 2 ^ 10.
Proof.
  unfold valid, PTE_FLAGS. intros H%negb_true_iff%Z.eqb_neq. change PTE_V with 1 in *.
  change 0x3FF with (Z.ones 10). split.
  - apply Z.bits_inj'. intros n Hn. rewrite Z.lor_spec.
    destruct (Z.eq_dec n 0) as [->|]; [|rewrite Z.bits_above_log2 with (a := 1) by (simpl; lia); apply orb_false_r].
    rewrite Z.land_spec. simpl. rewrite orb_true_r, andb_true_r. symmetry.
    change 1 with (Z.ones 1) in H. rewrite Z.land_ones in H by lia.
    change (2 ^ 1) with 2 in H. rewrite Zmod_odd in H. by destruct (Z.odd e).
  - rewrite Z.land_ones by lia. by apply Z.mod_pos_bound.
Qed.

Lemma memmove_page_outside p pa m a : outside p a -> memmove m p pa PGSIZE a = m a.
Proof. intros H. unfold outside in H. rewrite memmove_spec. zcmp. Qed.

Lemma memmove_page_inside p pa m x : memmove m p pa PGSIZE (p + x mod PGSIZE) = m (pa + x mod PGSIZE).
Proof. pose proof (page_byte p x). rewrite memmove_spec. zcmp; f_equal; lia. Qed.

(** One page of [uvmcopy]. *)
Lemma copy_page s To T l p i fuel :
  as_inv s T (p :: l) -> foreign s To T (p :: l) -> in_user i -> i mod PGSIZE = 0 ->
  mapped s To i -> ~ mapped s T i -> (0 < fuel)%nat ->
  let e := pte_of (ram s) To i in
  exists s1 r s2, kalloc s = Done p s1 /\
    mappages (pt_root T) i PGSIZE p (PTE_FLAGS e) fuel
      (set_ram (memmove (ram s1) p (PTE2PA e) PGSIZE) s1) = Done r s2 /\
    ((r = 0 /\ exists T' l', usim s T (p :: l) s2 T' l' /\
        forall x, in_user x -> uview s2 T' x =
          if (i <=? x) && (x <? i + PGSIZE) then uview s To x else uview s T x) \/
     (r = -1 /\ (length l < 2)%nat /\ exists s3 T' l', kfree p s2 = Done tt s3 /\
        usim s T (p :: l) s3 T' l' /\ forall x, in_user x -> uview s3 T' x = uview s T x)).
Proof.
  intros Hi F Hu Hal Hm Hnm Hfuel e. destruct (flags_valid e Hm) as [Hf1 Hf2].
  destruct (fo_page _ _ _ _ F i Hu Hm) as (Hpa & Hnw & Hfv). fold e in Hpa, Hnw, Hfv.
  destruct (alloc_map_page s T l p (fun m => memmove m p (PTE2PA e) PGSIZE) i (PTE_FLAGS e) fuel)
    as (s1 & r & s2 & E1 & Ho & E2 & R); try done.
  - by apply not_true_is_false.
  - by rewrite Hf1.
  - intros. by apply memmove_page_outside.
  - exists s1, r, s2. split; [done|]. split; [done|].
    destruct R as [(-> & T' & l' & U & V)|R]; [left|by right]. split; [done|].
    exists T', l'. split; [done|]. intros x Hx. rewrite V, page_eq_range by done.
    destruct (_ && _) eqn:Eb; [|done]. apply andb_true_iff in Eb as [E1' E2']. apply Z.leb_le in E1'. apply Z.ltb_lt in E2'.
    assert (x / PGSIZE = i / PGSIZE) as Epg.
    { apply Z.eqb_eq. rewrite page_eq_range by done. zcmp. }
    assert (pte_of (ram s) To x = e) as Ee.
    { unfold in_user in *. by apply pte_of_same_page; [lia|lia|]. }
    rewrite Hf1, memmove_page_inside. unfold uview. rewrite Ee. unfold mapped in Hm. fold e in Hm. rewrite Hm.
    do 2 f_equal. apply Ho. eapply inside_outside; [exact Hpa|by eapply fresh_page_ok| |apply page_byte].
    intros Ep. apply Hnw. rewrite Ep. apply w_free. left.
Qed.

Lemma page_in_user a x e :
  0 <= a -> a mod PGSIZE = 0 -> a < e -> e <= TRAPFRAME -> x < a + PGSIZE -> 0 <= x -> in_user x.
Proof.
  intros. unfold in_user. change TRAPFRAME with 274877898752 in *. unfold PGSIZE in *. divlia.
Qed.

(** Unmapping from an address that is not mapped panics. *)
Lemma uvmunmap_nothing_panics s T size fuel :
  pt_rep kend (ram s) T -> ~ mapped s T 0 -> exists msg, uvmunmap kend (pt_root T) 0 size true (S fuel) s = Panicked msg.
Proof.
  intros Hr Hn. unfold uvmunmap. change (PGROUNDDOWN 0) with 0. cbn [uvmunmap_loop].
  rewrite (bind_Done _ _ _ _ _ (walk_noalloc kend kend_range s T 0 Hr ltac:(done))).
  destruct (Z.eqb_spec (pte_addr T 0) 0) as [Ez|Enz]; [by eexists|].
  unfold read_pte, gets, bind at 1; cbn [obind]. rewrite (pte_addr_load kend _ _ _ Hr Enz).
  destruct (Z.eqb_spec (Z.land (pte_of (ram s) T 0) PTE_V) 0) as [Ev|Ev]; [by eexists|].
  destruct Hn. unfold mapped, valid. destruct (Z.eqb_spec (Z.land (pte_of (ram s) T 0) PTE_V) 0); done.
Qed.

(** The two ways [uvmcopy_loop] ends: a panic over the first page, which takes
    fewer than three free pages, or a result. *)
Inductive copy_outcome s To T l (i sz : Z) (n : nat) (o : outcome kmem Z) : Prop :=
| copy_panic : (i = 0 /\ (length l < 3)%nat /\ exists msg, o = Panicked msg) -> copy_outcome s To T l i sz n o
| copy_done : (exists r s' T' l', o = Done r s' /\ usim s T l s' T' l' /\ (i = 0 -> i < sz -> l <> []) /\
    ((r = 0 /\ forall x, in_user x -> uview s' T' x =
        if (i <=? x) && (x <? i + Z.of_nat n * PGSIZE) then uview s To x else uview s T x) \/
     (r = -1 /\ forall x, in_user x -> uview s' T' x = if x <? i then None else uview s T x))) -> copy_outcome s To T l i sz n o.

Lemma uvmcopy_loop_spec n : forall s To T l i sz fuel,
  as_inv s T l -> foreign s To T l -> 0 <= i -> i mod PGSIZE = 0 -> sz <= TRAPFRAME ->
  sz <= i + Z.of_nat n * PGSIZE -> i + Z.of_nat n * PGSIZE < sz + PGSIZE ->
  (forall x, 0 <= x < sz -> mapped s To x) ->
  (forall x, 0 <= x < i -> mapped s T x) ->
  (forall x, i <= x < i + Z.of_nat n * PGSIZE -> ~ mapped s T x) ->
  (n + Z.to_nat (sz / PGSIZE) + 1 < fuel)%nat ->
  copy_outcome s To T l i sz n (uvmcopy_loop kend (pt_root To) (pt_root T) i sz fuel s).
Proof.
  induction n as [|n IH]; intros s To T l i sz fuel Hi F Hi0 Hal Hmax Hn1 Hn2 Hold Hm Hnm Hfuel;
    (destruct fuel as [|fuel]; [lia|]); cbn [uvmcopy_loop].
  { destruct (Z.ltb_spec i sz); [lia|]. apply copy_done. exists 0, s, T, l. split; [done|].
    split; [by apply usim_refl|]. split; [lia|]. left. split; [done|]. intros. zcmp. }
  destruct (Z.ltb_spec i sz) as [Hlt|]; [|unfold PGSIZE in *; lia].
  assert (in_user i) as Hu by (unfold in_user; lia).
  assert (mapped s To i) as Hmo by (apply Hold; lia).
  assert (Z.to_nat (i / PGSIZE) <= Z.to_nat (sz / PGSIZE))%nat as Hd.
  { apply Z2Nat.inj_le; [apply Z.div_pos; unfold PGSIZE; lia..|]. apply Z.div_le_mono; unfold PGSIZE; lia. }
  assert (forall s' T' l', 0 < i -> usim s T l s' T' l' -> (forall x, in_user x -> uview s' T' x = uview s T x) ->
    exists s'' l'', uvmunmap kend (pt_root T) 0 i true (S fuel) s' = Done tt s'' /\
      usim s T l s'' T' l'' /\ forall x, in_user x -> uview s'' T' x = if x <? i then None else uview s T x) as Hundo.
  { intros s' T' l' Hpos U V.
    destruct (uvmunmap_spec s' T' l' 0 i (S fuel) (us_inv _ _ _ _ _ _ U)) as (s'' & l'' & E & U' & V'); try done; try lia.
    - intros x Hx. apply uview_mapped. rewrite V by (unfold in_user; lia). apply uview_mapped, Hm. lia.
    - unfold extra_pages. assert ((0 + i - 1) / PGSIZE <= i / PGSIZE) by (apply Z.div_le_mono; unfold PGSIZE; lia).
      change (0 / PGSIZE) with 0. lia.
    - exists s'', l''. rewrite <- (us_root _ _ _ _ _ _ U). split; [exact E|].
      split; [by eapply usim_trans|]. intros x Hx. rewrite V', V by done.
      rewrite PGROUNDUP_aligned by (try apply user_u64; lia || done). unfold in_user in Hx. zcmp. }
  rewrite (bind_Done _ _ _ _ _ (walk_noalloc kend kend_range s To i (fo_rep _ _ _ _ F) (user_max _ Hu))).
  destruct (Z.eqb_spec (pte_addr To i) 0) as [Ez|Enz].
  { unfold mapped in Hmo. by rewrite (pte_addr_zero kend kend_range _ _ _ (fo_rep _ _ _ _ F) Ez) in Hmo. }
  unfold read_pte, gets, bind at 1; cbn [obind]. rewrite (pte_addr_load kend _ _ _ (fo_rep _ _ _ _ F) Enz).
  destruct (Z.eqb_spec (Z.land (pte_of (ram s) To i) PTE_V) 0) as [Ev|_].
  { unfold mapped, valid in Hmo. by rewrite Ev in Hmo. }
  destruct l as [|p l].
  { pose proof (kalloc_spec kend kend_range s [] (vm_kmem _ _ _ _ (as_vm _ _ _ Hi))) as Hk. simpl in Hk.
    rewrite (bind_Done _ _ _ _ _ Hk). cbn [Z.eqb]. destruct (Z.eq_dec i 0) as [->|Hpos].
    { apply copy_panic. split_and!; [done|simpl; lia|].
      destruct (uvmunmap_nothing_panics s T 0 fuel (vm_rep _ _ _ _ (as_vm _ _ _ Hi)) (Hnm 0 ltac:(unfold PGSIZE; lia))) as [msg Em].
      exists msg. by apply bind_Panicked. }
    destruct (Hundo s T [] ltac:(lia) (usim_refl _ _ _ Hi) (fun _ _ => eq_refl)) as (s'' & l'' & E & U & V).
    rewrite (bind_Done _ _ _ _ _ E). apply copy_done.
    exists (-1), s'', T, l''. split; [done|]. split; [done|]. split; [lia|]. by right. }
  assert (~ mapped s T i) as Hni by (apply Hnm; unfold PGSIZE in *; lia).
  destruct (copy_page s To T l p i (S fuel) Hi F Hu Hal Hmo Hni ltac:(lia))
    as (s1 & r & s2 & E1 & E2 & [(-> & T' & l' & U & V)|(-> & Hlen & s3 & T' & l' & E3 & U & V)]);
    rewrite (bind_Done _ _ _ _ _ E1);
    pose proof (page_bounds kend kend_range p (fresh_page_ok s T l p Hi)) as (Hp0 & _);
    (destruct (Z.eqb_spec p 0); [lia|]);
    unfold modify_ram at 1, modify at 1, bind at 1; cbn [obind];
    rewrite (bind_Done _ _ _ _ _ E2); cbn [Z.eqb negb].
  - rewrite u64_small by (change TRAPFRAME with 274877898752 in *; unfold PGSIZE in *; lia).
    destruct (foreign_usim s To T (p :: l) s2 T' l' Hi F U) as (F' & Fp & Fv).
    assert (forall x, 0 <= x < i + Z.of_nat (S n) * PGSIZE -> in_user x) as Hin.
    { intros x Hx. clear -Hx Hn2 Hmax Hal Hi0. unfold in_user. change TRAPFRAME with 274877898752 in *.
      unfold PGSIZE in *. divlia. }
    destruct (IH s2 To T' l' (i + PGSIZE) sz fuel (us_inv _ _ _ _ _ _ U) F') as [(? & _)|(r & s' & T'' & l'' & E & U' & _ & R)];
      try done; try (unfold PGSIZE in *; lia); try lia.
    + unfold PGSIZE in *. divlia.
    + intros x Hx. unfold mapped. rewrite Fp. by apply Hold.
    + intros x Hx. apply uview_mapped. rewrite V by (apply Hin; unfold PGSIZE in *; lia). zcmp; apply uview_mapped.
      * assert (mapped s To i) as Hmi by done. unfold mapped in *.
        rewrite (pte_of_same_page _ _ x i); [done|lia|lia|]. apply Z.eqb_eq. rewrite page_eq_range by done. zcmp.
      * apply Hm. lia.
    + intros x Hx Hmx. apply uview_mapped in Hmx. rewrite V in Hmx by (apply Hin; unfold PGSIZE in *; lia).
      revert Hmx. zcmp. intros Hmx%uview_mapped. apply (Hnm x); [unfold PGSIZE in *; lia|done].
    + rewrite <- (us_root _ _ _ _ _ _ U). apply copy_done. exists r, s', T'', l''. split; [exact E|]. split; [by eapply usim_trans|]. split; [done|].
      destruct R as [[-> R]|[-> R]]; [left|right]; (split; [done|]); intros x Hx; rewrite R, V by done.
      * rewrite Fv by done. unfold PGSIZE in *. zcmp.
      * zcmp. destruct (uview s T x) eqn:Eu; [|done].
        assert (mapped s T x) as Hmx by (apply uview_mapped; congruence).
        destruct (Hnm x); [unfold PGSIZE in *; lia|done].
  - rewrite (bind_Done _ _ _ _ _ E3). destruct (Z.eq_dec i 0) as [->|Hpos].
    { apply copy_panic. split_and!; [done|simpl; lia|].
      destruct (uvmunmap_nothing_panics s3 T' 0 fuel) as [msg Em]; [apply (as_vm _ _ _ (us_inv _ _ _ _ _ _ U))| |].
      { intros Hm0%uview_mapped. rewrite V in Hm0 by done. by apply uview_mapped in Hm0. }
      exists msg. apply bind_Panicked. rewrite (us_root _ _ _ _ _ _ U) in Em. exact Em. }
    destruct (Hundo s3 T' l' ltac:(lia) U V) as (s'' & l'' & E & U' & V').
    rewrite (bind_Done _ _ _ _ _ E). apply copy_done.
    exists (-1), s'', T', l''. split; [done|]. split; [done|]. split; [done|]. by right.
Qed.

(** ** Copying to and from user memory *)

Definition user_ok (s : kmem) (T : ptree) (x : Z) : bool :=
  (x <? MAXVA) && valid (pte_of (ram s) T x) && user_bit (pte_of (ram s) T x).

(** The trampoline and trapframe pages are not user-accessible. *)
Definition kernel_top (s : kmem) (T : ptree) : Prop :=
  forall x, TRAPFRAME <= x < MAXVA -> user_bit (pte_of (ram s) T x) = false.

Lemma user_ok_user s T x : kernel_top s T -> 0 <= x -> user_ok s T x = true -> in_user x.
Proof.
  intros Hk Hx. unfold user_ok. intros [[H1%Z.ltb_lt _]%andb_true_iff H2]%andb_true_iff.
  unfold in_user. split; [done|]. destruct (Z.lt_ge_cases x TRAPFRAME); [done|].
  rewrite Hk in H2; [done|lia].
Qed.

Lemma MAXVA_aligned : MAXVA mod PGSIZE = 0.
Proof. done. Qed.

Lemma user_ok_same_page s T x y : 0 <= x -> 0 <= y -> x / PGSIZE = y / PGSIZE -> user_ok s T x = user_ok s T y.
Proof.
  intros Hx Hy E. unfold user_ok. rewrite (pte_of_same_page _ _ x y Hx Hy E).
  assert ((x <? MAXVA) = (y <? MAXVA)) as ->; [|done].
  change MAXVA with (67108864 * PGSIZE). unfold PGSIZE in *. zcmp; divlia.
Qed.

(** Overwriting part of one mapped page. *)
Lemma write_user s T l va bs :
  as_inv s T l -> in_user va -> mapped s T va -> va mod PGSIZE + Z.of_nat (length bs) <= PGSIZE ->
  let s' := set_ram (write_bytes (ram s) (PTE2PA (pte_of (ram s) T va) + va mod PGSIZE) bs) s in
  usim s T l s' T l /\ (forall x, pte_of (ram s') T x = pte_of (ram s) T x) /\
  forall x, in_user x -> uview s' T x =
    if (va <=? x) && (x <? va + Z.of_nat (length bs))
    then Some (PTE_FLAGS (pte_of (ram s) T x), nth (Z.to_nat (x - va)) bs Byte.x00) else uview s T x.
Proof.
  intros Hi Hva Hm Hlen s'. set (p := PTE2PA _) in *.
  destruct (as_page _ _ _ Hi va Hva Hm) as (Hp & Hpl & Hpt). fold p in Hp, Hpl, Hpt.
  pose proof (Z.mod_pos_bound va PGSIZE ltac:(done)) as Hoff.
  assert (forall a, outside p a -> ram s' a = ram s a) as Ho.
  { intros a Ha. apply write_bytes_outside. unfold outside in Ha. lia. }
  destruct (vm_inv_page s T l (ram s') p (as_vm _ _ _ Hi) Hp Hpl Hpt Ho) as [Hv Hpte].
  change (forall x, pte_of (ram s') T x = pte_of (ram s) T x) in Hpte.
  split; [split|split; [done|]].
  - split; [exact Hv|..]; intros x; rewrite !Hpte; [apply Hi|intros y; rewrite !Hpte; apply Hi|apply Hi].
  - done.
  - intros u. split; intros [Hu|q Hq|x Hx Hvx <-].
    1, 4: by apply w_free.
    1, 3: by eapply w_table.
    + rewrite Hpte in *. by eapply w_mapped.
    + apply (w_mapped _ _ _ _ x Hx); by rewrite Hpte.
  - intros a Ha. apply Ho, Ha. by eapply w_mapped.
  - intros x _. apply Hpte.
  - intros x Hx. unfold uview. rewrite Hpte. destruct (Z.eqb_spec (x / PGSIZE) (va / PGSIZE)) as [E|E].
    + rewrite (pte_of_same_page _ _ x va) by (unfold in_user in *; lia || done).
      unfold mapped in Hm. rewrite Hm. fold p. simpl. unfold write_bytes.
      assert (x - va = x mod PGSIZE - va mod PGSIZE) as Ex.
      { rewrite (Z_div_mod_eq_full x PGSIZE) at 1. rewrite (Z_div_mod_eq_full va PGSIZE) at 1. rewrite E. lia. }
      replace (p + x mod PGSIZE - (p + va mod PGSIZE)) with (x - va) by lia. zcmp.
    + assert (((va <=? x) && (x <? va + Z.of_nat (length bs))) = false) as ->.
      { apply not_true_is_false. intros [H1%Z.leb_le H2%Z.ltb_lt]%andb_true_iff. apply E.
        pose proof (Z_div_mod_eq_full va PGSIZE). unfold PGSIZE in *. symmetry.
        apply Z.div_unique with (r := x - 4096 * (va / 4096)); lia. }
      destruct (valid (pte_of (ram s) T x)) eqn:Hvx; [|done]. do 2 f_equal. apply Ho.
      eapply inside_outside; [by apply (as_page _ _ _ Hi x Hx Hvx)|exact Hp| |apply page_byte].
      intros Ep. by apply E, (as_inj _ _ _ Hi).
Qed.

Lemma walkaddr_page s T l va :
  as_inv s T l -> kernel_top s T -> 0 <= va ->
  walkaddr (pt_root T) (PGROUNDDOWN va) s =
    Done (if user_ok s T va then PTE2PA (pte_of (ram s) T va) else 0) s /\
  (user_ok s T va = true -> in_user va /\ mapped s T va /\ PTE2PA (pte_of (ram s) T va) <> 0).
Proof.
  intros Hi Hk Hva.
  assert (0 <= PGROUNDDOWN va) as H0 by (rewrite PGROUNDDOWN_eq; unfold PGSIZE; divlia).
  assert (PGROUNDDOWN va / PGSIZE = va / PGSIZE) as Epg by (rewrite PGROUNDDOWN_eq; unfold PGSIZE; divlia).
  split.
  - rewrite (walkaddr_spec kend kend_range) by (apply Hi || done). fold (user_ok s T (PGROUNDDOWN va)).
    by rewrite (user_ok_same_page s T _ va H0 Hva Epg), (pte_of_same_page _ _ _ va H0 Hva Epg).
  - intros Hok. pose proof (user_ok_user s T va Hk Hva Hok) as Hu.
    unfold user_ok in Hok. apply andb_true_iff in Hok as [[_ Hv]%andb_true_iff _].
    split_and!; try done. pose proof (page_bounds kend kend_range _ (proj1 (as_page _ _ _ Hi va Hu Hv))). lia.
Qed.

(** The part of the page of [va] that a copy of [len] bytes can use. *)
Lemma page_chunk va len :
  0 <= va -> 0 < len ->
  let n0 := PGSIZE - (va - PGROUNDDOWN va) in
  let n := if n0 >? len then len else n0 in
  va - PGROUNDDOWN va = va mod PGSIZE /\ 0 < n <= len /\ va mod PGSIZE + n <= PGSIZE /\
  (n < len -> PGROUNDDOWN va + PGSIZE = va + n) /\
  (forall i, 0 <= i < n -> (va + i) / PGSIZE = va / PGSIZE).
Proof.
  intros Hva Hlen. rewrite PGROUNDDOWN_eq. pose proof (Z_div_mod_eq_full va PGSIZE) as E.
  pose proof (Z.mod_pos_bound va PGSIZE ltac:(done)) as B.
  assert (va - PGSIZE * (va / PGSIZE) = va mod PGSIZE) as -> by lia. cbv zeta.
  destruct (Z.gtb_spec (PGSIZE - va mod PGSIZE) len); (split_and!; try lia; try (unfold PGSIZE in *; lia));
    intros i Hi'; symmetry; apply Z.div_unique with (r := va mod PGSIZE + i); unfold PGSIZE in *; lia.
Qed.

Lemma user_ok_usim s T s' : (forall x, pte_of (ram s') T x = pte_of (ram s) T x) ->
  forall x, user_ok s' T x = user_ok s T x.
Proof. intros H x. unfold user_ok. by rewrite H. Qed.

(** [copyout] writes the longest accessible prefix, and returns 0 exactly
    when that is everything. *)
Lemma copyout_spec fuel : forall s T l dstva src,
  as_inv s T l -> kernel_top s T -> 0 <= dstva < 2 ^ 64 -> (length src <= fuel)%nat ->
  exists r s' n, copyout (pt_root T) dstva src fuel s = Done r s' /\ usim s T l s' T l /\
    (forall x, pte_of (ram s') T x = pte_of (ram s) T x) /\ 0 <= n <= Z.of_nat (length src) /\
    (r = 0 /\ n = Z.of_nat (length src) \/
     r = -1 /\ n < Z.of_nat (length src) /\ user_ok s T (dstva + n) = false) /\
    (forall i, 0 <= i < n -> user_ok s T (dstva + i) = true) /\
    (forall x, in_user x -> uview s' T x =
       if (dstva <=? x) && (x <? dstva + n)
       then Some (PTE_FLAGS (pte_of (ram s) T x), nth (Z.to_nat (x - dstva)) src Byte.x00)
       else uview s T x).
Proof.
  induction fuel as [|fuel IH]; intros s T l dstva src Hi Hk Hd Hlen.
  { destruct src; [|simpl in Hlen; lia]. exists 0, s, 0. split; [done|]. split; [by apply usim_refl|].
    split; [done|]. split; [done|]. split; [by left|]. split; [lia|]. intros. zcmp. }
  cbn [copyout]. destruct (Z.gtb_spec (Z.of_nat (length src)) 0) as [Hpos|Hz].
  2: { exists 0, s, 0. split; [done|]. split; [by apply usim_refl|].
       split; [done|]. split; [lia|]. split; [left; lia|]. split; [lia|]. intros. zcmp. }
  destruct (walkaddr_page s T l dstva Hi Hk (proj1 Hd)) as [Ew Hok].
  rewrite (bind_Done _ _ _ _ _ Ew). destruct (user_ok s T dstva) eqn:Eok.
  2: { exists (-1), s, 0. split; [done|]. split; [by apply usim_refl|]. split; [done|]. split; [lia|].
       split; [right; split_and!; [done|lia|by rewrite Z.add_0_r]|]. split; [lia|]. intros. zcmp. }
  destruct (Hok eq_refl) as (Hu & Hm & Hnz). destruct (Z.eqb_spec (PTE2PA (pte_of (ram s) T dstva)) 0) as [|_]; [done|].
  destruct (page_chunk dstva (Z.of_nat (length src)) (proj1 Hd) Hpos) as (Eoff & Hn & Hfit & Hnext & Hpg).
  set (n := if _ >? _ then _ else _) in *. rewrite Eoff.
  unfold modify_ram, modify, bind at 1. cbn [obind].
  assert (length (take (Z.to_nat n) src) = Z.to_nat n) as Elen by (rewrite length_take; lia).
  destruct (write_user s T l dstva (take (Z.to_nat n) src) Hi Hu Hm) as (U1 & P1 & V1).
  { rewrite Elen. lia. }
  set (s1 := set_ram _ s) in *. rewrite Elen, Z2Nat.id in V1 by lia.
  assert (0 <= PGROUNDDOWN dstva + PGSIZE < 2 ^ 64) as Hnx.
  { pose proof (PGROUNDDOWN_bounds dstva). unfold in_user in Hu. change TRAPFRAME with 274877898752 in Hu.
    unfold PGSIZE in *. lia. }
  rewrite u64_small by done.
  destruct (IH s1 T l (PGROUNDDOWN dstva + PGSIZE) (drop (Z.to_nat n) src) (us_inv _ _ _ _ _ _ U1))
    as (r & s' & n' & E & U' & P' & Hn' & R & A' & V').
  { intros x Hx. rewrite P1. by apply Hk. }
  { done. }
  { rewrite length_drop. lia. }
  rewrite length_drop in *.
  assert (n' = 0 \/ PGROUNDDOWN dstva + PGSIZE = dstva + n) as Hcase by (destruct (decide (n' = 0)); [by left|right; lia]).
  exists r, s', (n + n'). split; [exact E|]. split; [by eapply usim_trans|].
  split; [intros x; by rewrite P', P1|]. split; [lia|]. split; [|split].
  - destruct R as [[-> ->]|(-> & Hlt & Hno)]; [left; lia|right]. split_and!; [done|lia|].
    rewrite (user_ok_usim s T s1 P1) in Hno. rewrite Z.add_assoc. by rewrite <- Hnext by lia.
  - intros i Hii. destruct (Z.lt_ge_cases i n).
    + rewrite (user_ok_same_page s T _ dstva); [done|lia|lia|apply Hpg; lia].
    + rewrite <- (user_ok_usim s T s1 P1). replace (dstva + i) with (PGROUNDDOWN dstva + PGSIZE + (i - n)) by lia.
      apply A'. lia.
  - intros x Hx. rewrite V', V1, P1 by done.
    destruct (decide (dstva <= x < dstva + n)) as [Hin|Hout].
    + assert (PGROUNDDOWN dstva + PGSIZE > x \/ n' = 0) by lia.
      rewrite nth_firstn. destruct (Nat.ltb_spec (Z.to_nat (x - dstva)) (Z.to_nat n)); [|lia]. zcmp.
    + destruct Hcase as [->|Ec]; [zcmp|].
      rewrite Ec. zcmp. rewrite nth_skipn. do 3 f_equal. lia.
Qed.

Lemma uview_chunk s T va i n :
  0 <= va -> mapped s T va -> 0 <= i < n -> va mod PGSIZE + n <= PGSIZE ->
  (va + i) / PGSIZE = va / PGSIZE ->
  uview s T (va + i) =
    Some (PTE_FLAGS (pte_of (ram s) T va), ram s (PTE2PA (pte_of (ram s) T va) + va mod PGSIZE + i)).
Proof.
  intros Hva Hm Hi Hn E. unfold uview. rewrite (pte_of_same_page _ _ (va + i) va) by lia || done.
  unfold mapped in Hm. rewrite Hm. do 3 f_equal.
  pose proof (Z_div_mod_eq_full va PGSIZE). pose proof (Z_div_mod_eq_full (va + i) PGSIZE). lia.
Qed.

(** What a copy from user memory returns: the bytes of the accessible prefix
    [bs] of the user range at [va]. *)
Definition fetched (s : kmem) (T : ptree) (va : Z) (bs : list byte) : Prop :=
  forall i, 0 <= i < Z.of_nat (length bs) -> user_ok s T (va + i) = true /\
    exists f, uview s T (va + i) = Some (f, nth (Z.to_nat i) bs Byte.x00).

Lemma nth_read_bytes m a n i : (i < n)%nat -> nth i (read_bytes m a n) Byte.x00 = m (a + Z.of_nat i).
Proof.
  intros H. unfold read_bytes. rewrite nth_indep with (d' := m (a + Z.of_nat 0)) by (by rewrite length_map, length_seq).
  rewrite (map_nth (fun i => m (a + Z.of_nat i))), seq_nth by done. done.
Qed.

Lemma fetched_app s T va va' bs bs' :
  fetched s T va bs -> fetched s T va' bs' -> bs' = [] \/ va' = va + Z.of_nat (length bs) ->
  fetched s T va (bs ++ bs').
Proof.
  intros H H' [->| ->]; [by rewrite app_nil_r|]. intros i Hi. rewrite length_app in Hi.
  destruct (Z.lt_ge_cases i (Z.of_nat (length bs))).
  - rewrite app_nth1 by lia. apply H. lia.
  - rewrite app_nth2 by lia. destruct (H' (i - Z.of_nat (length bs)) ltac:(lia)) as [A [f B]].
    replace (va + Z.of_nat (length bs) + (i - Z.of_nat (length bs))) with (va + i) in * by lia.
    split; [done|]. exists f. rewrite B. do 3 f_equal. lia.
Qed.

(** The bytes of one chunk of a page. *)
Lemma fetched_chunk s T va n bs :
  0 <= va -> user_ok s T va = true -> mapped s T va -> Z.of_nat (length bs) <= n ->
  va mod PGSIZE + n <= PGSIZE -> (forall i, 0 <= i < n -> (va + i) / PGSIZE = va / PGSIZE) ->
  (forall i, (i < length bs)%nat ->
     nth i bs Byte.x00 = ram s (PTE2PA (pte_of (ram s) T va) + va mod PGSIZE + Z.of_nat i)) ->
  fetched s T va bs.
Proof.
  intros Hva Hok Hm Hlen Hfit Hpg Hb i Hi. split.
  - rewrite (user_ok_same_page s T _ va); [done|lia|lia|apply Hpg; lia].
  - exists (PTE_FLAGS (pte_of (ram s) T va)). rewrite (uview_chunk s T va i n) by (done || lia || apply Hpg; lia).
    rewrite Hb by lia. do 3 f_equal. lia.
Qed.

Lemma copyin_spec fuel : forall s T l srcva len,
  as_inv s T l -> kernel_top s T -> 0 <= srcva < 2 ^ 64 -> 0 <= len <= Z.of_nat fuel ->
  exists r bs, copyin (pt_root T) srcva len fuel s = Done (r, bs) s /\
    (r = 0 /\ Z.of_nat (length bs) = len \/
     r = -1 /\ Z.of_nat (length bs) < len /\ user_ok s T (srcva + Z.of_nat (length bs)) = false) /\
    fetched s T srcva bs.
Proof.
  induction fuel as [|fuel IH]; intros s T l srcva len Hi Hk Hd Hlen; cbn [copyin].
  { destruct (Z.gtb_spec len 0); [lia|]. exists 0, []. split; [done|]. split; [left; simpl; lia|intros i; simpl; lia]. }
  destruct (Z.gtb_spec len 0) as [Hpos|Hz].
  2: { exists 0, []. split; [done|]. split; [left; simpl; lia|intros i; simpl; lia]. }
  destruct (walkaddr_page s T l srcva Hi Hk (proj1 Hd)) as [Ew Hok].
  rewrite (bind_Done _ _ _ _ _ Ew). destruct (user_ok s T srcva) eqn:Eok.
  2: { exists (-1), []. split; [done|]. split; [|intros i; simpl; lia].
       right. simpl. by rewrite Z.add_0_r. }
  destruct (Hok eq_refl) as (Hu & Hm & Hnz). destruct (Z.eqb_spec (PTE2PA (pte_of (ram s) T srcva)) 0) as [|_]; [done|].
  destruct (page_chunk srcva len (proj1 Hd) Hpos) as (Eoff & Hn & Hfit & Hnext & Hpg).
  set (n := if _ >? _ then _ else _) in *. rewrite Eoff.
  unfold gets, bind at 1. cbn [obind].
  rewrite u64_small by (pose proof (PGROUNDDOWN_bounds srcva); unfold in_user in Hu;
    change TRAPFRAME with 274877898752 in Hu; unfold PGSIZE in *; lia).
  destruct (IH s T l (PGROUNDDOWN srcva + PGSIZE) (len - n) Hi Hk) as (r & bs & E & R & F); [|lia|].
  { pose proof (PGROUNDDOWN_bounds srcva); unfold in_user in Hu.
    change TRAPFRAME with 274877898752 in Hu; unfold PGSIZE in *; lia. }
  rewrite (bind_Done _ _ _ _ _ E). cbn [fst snd].
  set (c := read_bytes _ _ _). assert (Z.of_nat (length c) = n) as Elen by (unfold c; rewrite length_read_bytes; lia).
  assert (fetched s T srcva c) as Fc.
  { apply (fetched_chunk s T srcva n); try done; try lia. intros i Hii. unfold c. rewrite nth_read_bytes; lia || done. }
  exists r, (c ++ bs). split; [done|]. rewrite length_app.
  assert (bs = [] \/ PGROUNDDOWN srcva + PGSIZE = srcva + Z.of_nat (length c)) as Hc.
  { destruct bs; [by left|right]. simpl in R. lia. }
  split; [|by eapply fetched_app].
  destruct R as [[-> Hl]|(-> & Hl & Hno)]; [left; lia|right]. split_and!; [done|lia|].
  rewrite <- Hno. f_equal. lia.
Qed.

Lemma copyinstr_page_spec m n : forall p,
  let '(bs, got) := copyinstr_page m p n in
  (length bs <= n)%nat /\ (forall i, (i < length bs)%nat -> nth i bs Byte.x00 = m (p + Z.of_nat i)) /\
  (if got then exists bs', bs = bs' ++ [Byte.x00] /\ Byte.x00 ∉ bs' else length bs = n /\ Byte.x00 ∉ bs).
Proof.
  induction n as [|n IH]; intros p; simpl.
  { split_and!; [done|intros; lia|done|apply not_elem_of_nil]. }
  destruct (Byte.eqb (m p) Byte.x00) eqn:E.
  - apply Byte.byte_dec_bl in E. split_and!; [simpl; lia| |by exists []; split; [done|apply not_elem_of_nil]].
    intros [|i] Hi; simpl in *; [|lia]. by rewrite Z.add_0_r.
  - specialize (IH (p + 1)). destruct (copyinstr_page m (p + 1) n) as [bs got]. simpl.
    destruct IH as (H1 & H2 & H3). split_and!; [lia| |].
    + intros [|i] Hi; [by rewrite Z.add_0_r|]. rewrite H2 by lia. f_equal. lia.
    + assert (Byte.x00 <> m p) as Hne by (intros Hz; by rewrite <- Hz in E).
      destruct got; [destruct H3 as (bs' & -> & H3); exists (m p :: bs')|destruct H3 as [-> H3]];
        (split; [done|]); by apply not_elem_of_cons.
Qed.

Lemma copyinstr_spec fuel : forall s T l srcva max,
  as_inv s T l -> kernel_top s T -> 0 <= srcva < 2 ^ 64 -> 0 <= max <= Z.of_nat fuel ->
  exists r bs, copyinstr (pt_root T) srcva max fuel s = Done (r, bs) s /\
    Z.of_nat (length bs) <= max /\ fetched s T srcva bs /\
    ((r = 0 /\ exists str, bs = str ++ [Byte.x00] /\ Byte.x00 ∉ str) \/
     (r = -1 /\ Byte.x00 ∉ bs /\
      (Z.of_nat (length bs) = max \/ user_ok s T (srcva + Z.of_nat (length bs)) = false))).
Proof.
  induction fuel as [|fuel IH]; intros s T l srcva max Hi Hk Hd Hlen; cbn [copyinstr].
  { destruct (Z.gtb_spec max 0); [lia|]. exists (-1), []. split; [done|]. split; [simpl; lia|].
    split; [intros i; simpl; lia|]. right. split_and!; [done|apply not_elem_of_nil|left; simpl; lia]. }
  destruct (Z.gtb_spec max 0) as [Hpos|Hz].
  2: { exists (-1), []. split; [done|]. split; [simpl; lia|]. split; [intros i; simpl; lia|].
       right. split_and!; [done|apply not_elem_of_nil|left; simpl; lia]. }
  destruct (walkaddr_page s T l srcva Hi Hk (proj1 Hd)) as [Ew Hok].
  rewrite (bind_Done _ _ _ _ _ Ew). destruct (user_ok s T srcva) eqn:Eok.
  2: { exists (-1), []. split; [done|]. split; [simpl; lia|]. split; [intros i; simpl; lia|].
       right. split_and!; [done|apply not_elem_of_nil|right]. simpl. by rewrite Z.add_0_r. }
  destruct (Hok eq_refl) as (Hu & Hm & Hnz). destruct (Z.eqb_spec (PTE2PA (pte_of (ram s) T srcva)) 0) as [|_]; [done|].
  destruct (page_chunk srcva max (proj1 Hd) Hpos) as (Eoff & Hn & Hfit & Hnext & Hpg).
  set (n := if _ >? _ then _ else _) in *. rewrite Eoff.
  unfold gets, bind at 1. cbn [obind].
  pose proof (copyinstr_page_spec (ram s) (Z.to_nat n) (PTE2PA (pte_of (ram s) T srcva) + srcva mod PGSIZE)) as Hp.
  destruct (copyinstr_page _ _ _) as [c got]. cbn [fst snd]. destruct Hp as (Hc1 & Hc2 & Hc3).
  assert (fetched s T srcva c) as Fc by (apply (fetched_chunk s T srcva n); try done; lia).
  destruct got.
  { exists 0, c. split; [done|]. split; [lia|]. split; [done|]. by left. }
  destruct Hc3 as [Hc3 Hc4].
  assert (0 <= PGROUNDDOWN srcva + PGSIZE < 2 ^ 64) as Hnx.
  { pose proof (PGROUNDDOWN_bounds srcva); unfold in_user in Hu.
    change TRAPFRAME with 274877898752 in Hu; unfold PGSIZE in *; lia. }
  rewrite u64_small by done.
  destruct (IH s T l (PGROUNDDOWN srcva + PGSIZE) (max - n) Hi Hk Hnx ltac:(lia)) as (r & bs & E & L & F & R).
  rewrite (bind_Done _ _ _ _ _ E). cbn [fst snd].
  assert (bs = [] \/ PGROUNDDOWN srcva + PGSIZE = srcva + Z.of_nat (length c)) as Hc.
  { destruct bs; [by left|right]. simpl in L. lia. }
  exists r, (c ++ bs). split; [done|]. rewrite length_app. split; [lia|]. split; [by eapply fetched_app|].
  destruct R as [(-> & str & -> & Hs)|(-> & Hs & Hend)]; [left|right]; (split; [done|]).
  - exists (c ++ str). split; [by rewrite app_assoc|]. by apply not_elem_of_app.
  - split; [by apply not_elem_of_app|]. destruct Hend as [|Hno]; [left; lia|].
    destruct (Z.lt_ge_cases n max) as [Hlt|]; [|left; lia].
    right. rewrite <- Hno. f_equal. rewrite Hnext by done. lia.
Qed.

(** ** Properties *)

(** [C23] [uvmalloc] terminates without panicking and is all or nothing: it
    returns the new size and the address space has gained exactly the zeroed
    user pages between the two sizes, or it returns 0 and the address space
    is what it was (and [oldsz] with no change when asked to shrink).  Either
    way no page is lost between the free list, the tables and the mapped
    pages, and nothing else in memory changes ([usim]). *)
Theorem uvmalloc_all_or_nothing s T l oldsz newsz fuel :
  as_inv s T l -> 0 <= oldsz <= TRAPFRAME -> 0 <= newsz <= TRAPFRAME ->
  (forall x, PGROUNDUP oldsz <= x < TRAPFRAME -> ~ mapped s T x) ->
  (2 * Z.to_nat (newsz / PGSIZE) + 3 < fuel)%nat ->
  exists r s' T' l', uvmalloc kend (pt_root T) oldsz newsz fuel s = Done r s' /\
    usim s T l s' T' l' /\
    ((newsz < oldsz /\ r = oldsz /\ forall x, in_user x -> uview s' T' x = uview s T x) \/
     (oldsz <= newsz /\ r = newsz /\ forall x, in_user x -> uview s' T' x =
        if (PGROUNDUP oldsz <=? x) && (x <? PGROUNDUP newsz) then zero_page else uview s T x) \/
     (oldsz <= newsz /\ r = 0 /\ forall x, in_user x -> uview s' T' x = uview s T x)).
Proof. apply uvmalloc_spec. Qed.

(** [uvmdealloc] removes exactly the pages between the two sizes, frees
    their memory, and leaves the rest of the address space as it was. *)
Theorem uvmdealloc_shrinks s T l oldsz newsz fuel :
  as_inv s T l -> 0 <= newsz -> 0 <= oldsz <= TRAPFRAME ->
  (forall x, PGROUNDUP newsz <= x < oldsz -> mapped s T x) ->
  (Z.to_nat (oldsz / PGSIZE) < fuel)%nat ->
  exists s' l', uvmdealloc kend (pt_root T) oldsz newsz fuel s = Done (Z.min oldsz newsz) s' /\
    usim s T l s' T l' /\
    forall x, in_user x -> uview s' T x =
      if (newsz <? oldsz) && (PGROUNDUP newsz <=? x) && (x <? PGROUNDUP oldsz) then None else uview s T x.
Proof. apply uvmdealloc_spec. Qed.

(** [C12] [uvmcopy] of a fully mapped parent into a child with nothing mapped
    returns 0, the child's address space then being equal to the parent's below
    the size (bytes and permissions), or -1, the child having nothing mapped;
    the parent's address space does not change.  Or the first page cannot be
    copied, which takes fewer than three free pages and is so when there is
    none: then it panics, since the error path unmaps a page that was never
    mapped. *)
Theorem uvmcopy_duplicates s To T l sz fuel :
  as_inv s T l -> foreign s To T l -> 0 <= sz <= TRAPFRAME ->
  (forall x, 0 <= x < sz -> mapped s To x) ->
  (forall x, 0 <= x < TRAPFRAME -> ~ mapped s T x) ->
  (2 * Z.to_nat (sz / PGSIZE) + 3 < fuel)%nat ->
  ((length l < 3)%nat /\ 0 < sz /\ exists msg, uvmcopy kend (pt_root To) (pt_root T) sz fuel s = Panicked msg) \/
  exists r s' T' l', uvmcopy kend (pt_root To) (pt_root T) sz fuel s = Done r s' /\
    usim s T l s' T' l' /\ (forall x, in_user x -> uview s' To x = uview s To x) /\ (0 < sz -> l <> []) /\
    ((r = 0 /\ forall x, in_user x -> uview s' T' x = if x <? PGROUNDUP sz then uview s To x else None) \/
     (r = -1 /\ forall x, in_user x -> uview s' T' x = None)).
Proof.
  intros Hi F Hsz Hold Hnm Hfuel. unfold uvmcopy.
  destruct (PGROUNDUP_bounds sz (proj1 Hsz) (user_u64 _ (proj2 Hsz))) as [Hc Hca].
  set (k := Z.to_nat (PGROUNDUP sz / PGSIZE)).
  assert (0 + Z.of_nat k * PGSIZE = PGROUNDUP sz) as Hk.
  { subst k. clear -Hc Hca Hsz. unfold PGSIZE in *. divlia. }
  assert (PGROUNDUP sz <= TRAPFRAME) as Hcap.
  { clear -Hc Hca Hsz. change TRAPFRAME with 274877898752 in *. unfold PGSIZE in *. divlia. }
  destruct (uvmcopy_loop_spec k s To T l 0 sz fuel) as [(_ & Hlen & msg & E)|(r & s' & T' & l' & E & U & Hne & R)]; try done; try lia.
  - intros x Hx. apply Hnm. lia.
  - assert (k <= Z.to_nat (sz / PGSIZE) + 1)%nat; [|lia]. clear -Hk Hc Hsz. unfold PGSIZE in *. divlia.
  - left. split; [done|]. split; [|by exists msg]. destruct (Z.eq_dec sz 0) as [->|]; [|lia].
    destruct fuel; [lia|]. done.
  - assert (forall x, in_user x -> uview s T x = None) as Hnone.
    { intros x Hx. destruct (uview s T x) eqn:Eu; [|done].
      assert (mapped s T x) as Hm by (apply uview_mapped; congruence). by destruct (Hnm x Hx). }
    right. exists r, s', T', l'. split; [done|]. split; [done|].
    split; [apply (foreign_usim s To T l s' T' l' Hi F U)|]. split; [by apply Hne|]. rewrite Hk in R.
    destruct R as [[-> V]|[-> V]]; [left|right]; (split; [done|]); intros x Hx; rewrite V, Hnone by done;
      unfold in_user in Hx; zcmp.
Qed.

(** When the very first allocation of [uvmcopy] fails (no free page) the
    error path calls [uvmunmap] with size 0 on a child that maps nothing at
    address 0, which panics instead of returning -1. *)
Theorem uvmcopy_first_failure_panics s To T sz fuel :
  pt_rep kend (ram s) To -> vm_inv s T [] -> mapped s To 0 -> 0 < sz ->
  pt_l0 T !! (0, 0) = None ->
  uvmcopy kend (pt_root To) (pt_root T) sz (S fuel) s = Panicked "uvmunmap: walk".
Proof.
  intros Hr Hi Hm Hsz Hnone. unfold uvmcopy. cbn [uvmcopy_loop].
  destruct (Z.ltb_spec 0 sz); [|lia].
  rewrite (bind_Done _ _ _ _ _ (walk_noalloc kend kend_range s To 0 Hr ltac:(done))).
  destruct (Z.eqb_spec (pte_addr To 0) 0) as [Ez|Enz].
  { unfold mapped in Hm. by rewrite (pte_addr_zero kend kend_range _ _ _ Hr Ez) in Hm. }
  unfold read_pte, gets, bind at 1; cbn [obind]. rewrite (pte_addr_load kend _ _ _ Hr Enz).
  destruct (Z.eqb_spec (Z.land (pte_of (ram s) To 0) PTE_V) 0) as [Ev|_].
  { unfold mapped, valid in Hm. by rewrite Ev in Hm. }
  pose proof (kalloc_spec kend kend_range s [] (vm_kmem _ _ _ _ Hi)) as Hk. simpl in Hk.
  rewrite (bind_Done _ _ _ _ _ Hk). cbn [Z.eqb].
  apply bind_Panicked. unfold uvmunmap. change (PGROUNDDOWN 0) with 0. cbn [uvmunmap_loop].
  rewrite (bind_Done _ _ _ _ _ (walk_noalloc kend kend_range s T 0 (vm_rep _ _ _ _ Hi) ltac:(done))).
  unfold pte_addr. change (PX 2 0) with 0. change (PX 1 0) with 0. by rewrite Hnone.
Qed.

(** [copyout] to any 64-bit user address terminates without panicking:
    it returns 0 with exactly the bytes of the range replaced by the source,
    or -1 when some byte of the range is not user-accessible, having written
    the bytes before it; permissions never change and no other byte of
    memory does. *)
Theorem copyout_writes_user s T l dstva src fuel :
  as_inv s T l -> kernel_top s T -> 0 <= dstva < 2 ^ 64 -> (length src <= fuel)%nat ->
  exists r s' n, copyout (pt_root T) dstva src fuel s = Done r s' /\ usim s T l s' T l /\
    (r = 0 /\ n = Z.of_nat (length src) \/
     r = -1 /\ 0 <= n < Z.of_nat (length src) /\ user_ok s T (dstva + n) = false) /\
    (forall i, 0 <= i < n -> user_ok s T (dstva + i) = true) /\
    (forall x, in_user x -> uview s' T x =
       if (dstva <=? x) && (x <? dstva + n)
       then Some (PTE_FLAGS (pte_of (ram s) T x), nth (Z.to_nat (x - dstva)) src Byte.x00)
       else uview s T x).
Proof.
  intros Hi Hk Hd Hf. destruct (copyout_spec fuel s T l dstva src Hi Hk Hd Hf)
    as (r & s' & n & E & U & _ & Hn & R & A & V).
  exists r, s', n. split_and!; try done. destruct R as [|(-> & ? & ?)]; [by left|right]. split_and!; try done; lia.
Qed.

(** [C24] Round trip: bytes that [copyout] has stored at a user address are the
    bytes [copyin] reads back from it. *)
Theorem copyout_copyin_roundtrip s T l va src fuel s' :
  as_inv s T l -> kernel_top s T -> 0 <= va < 2 ^ 64 -> (length src <= fuel)%nat ->
  copyout (pt_root T) va src fuel s = Done 0 s' ->
  copyin (pt_root T) va (Z.of_nat (length src)) fuel s' = Done (0, src) s'.
Proof.
  intros Hi Hk Hd Hf E. destruct (copyout_spec fuel s T l va src Hi Hk Hd Hf)
    as (r & s1 & n & E1 & U & P & Hn & R & A & V).
  rewrite E in E1. injection E1 as <- <-. destruct R as [[_ ->]|[? _]]; [|lia].
  assert (kernel_top s' T) as Hk' by (intros x Hx; rewrite P; by apply Hk).
  destruct (copyin_spec fuel s' T l va (Z.of_nat (length src)) (us_inv _ _ _ _ _ _ U) Hk' Hd ltac:(lia))
    as (r & bs & E' & R & F).
  assert (forall i, 0 <= i < Z.of_nat (length src) -> user_ok s' T (va + i) = true) as A'.
  { intros i Hi'. rewrite (user_ok_usim s T s' P). by apply A. }
  destruct R as [[-> Hl]|(-> & Hl & Hno)].
  2: { rewrite A' in Hno; [done|lia]. }
  rewrite E'. do 2 f_equal. apply nth_ext with (d := Byte.x00) (d' := Byte.x00); [lia|].
  intros i Hlt. destruct (F (Z.of_nat i) ltac:(lia)) as [Hok [f B]].
  rewrite V in B by (apply (user_ok_user s' T); [done|lia|done]).
  revert B. destruct (Z.leb_spec va (va + Z.of_nat i)); [|lia].
  destruct (Z.ltb_spec (va + Z.of_nat i) (va + Z.of_nat (length src))); [|lia].
  intros [= _ B]. rewrite Nat2Z.id in B. rewrite <- B. f_equal. lia.
Qed.

(** [copyinstr] returns 0 exactly with a NUL-terminated string of at most
    [max] bytes that lies in user-accessible memory, copied faithfully, and
    -1 when there is no NUL before [max] bytes or before an inaccessible
    byte; it never panics and changes nothing. *)
Theorem copyinstr_fetches_string s T l srcva max fuel :
  as_inv s T l -> kernel_top s T -> 0 <= srcva < 2 ^ 64 -> 0 <= max <= Z.of_nat fuel ->
  exists r bs, copyinstr (pt_root T) srcva max fuel s = Done (r, bs) s /\
    Z.of_nat (length bs) <= max /\ fetched s T srcva bs /\
    ((r = 0 /\ exists str, bs = str ++ [Byte.x00] /\ Byte.x00 ∉ str) \/
     (r = -1 /\ Byte.x00 ∉ bs /\
      (Z.of_nat (length bs) = max \/ user_ok s T (srcva + Z.of_nat (length bs)) = false))).
Proof. apply copyinstr_spec. Qed.

End Uvm.

(** *** Witnesses, on the small machine of Vm.v *)

Lemma demo_pte va : in_user va -> valid (pte_of demo_ram demo_tree va) = true ->
  va / PGSIZE = 0 /\ pte_of demo_ram demo_tree va = mk_pte (demo_page 4) user_perm.
Proof.
  intros Hva Hv. unfold pte_of in *.
  destruct (pt_l0 demo_tree !! _) as [t|] eqn:E; [|done].
  unfold demo_tree in E. cbn [pt_l0] in E. apply lookup_singleton_Some in E as [[= E2 E1] <-].
  assert (PX 0 va = 0) as E0.
  { pose proof (PX_range 0 va). destruct (Z.eq_dec (PX 0 va) 0); [done|].
    by rewrite demo_entry_zero in Hv by lia. }
  rewrite E0. split; [|by vm_compute].
  change 0 with (0 / PGSIZE). apply PX_inj; [by apply user_max|done|..]; try done; by rewrite <- ?E1, <- ?E2.
Qed.

Lemma demo_as_inv free : as_inv demo_end (demo free) demo_tree (if free then [demo_page 5] else []).
Proof.
  split.
  - apply demo_vm_inv.
  - intros va Hva [_ E]%demo_pte; [|done]. cbv zeta. simpl. rewrite E.
    change (PTE2PA _) with (demo_page 4). split_and!.
    + apply demo_page_ok. lia.
    + destruct free; [|apply not_elem_of_nil]. rewrite list_elem_of_singleton. by vm_compute.
    + intros q [[_ H]|[[_ H]|[_ H]]]%demo_table_at; by vm_compute in H.
  - intros va va' H1 H2 [E _]%demo_pte [E' _]%demo_pte _; [|done..]. by rewrite E, E'.
  - intros va Hva [_ E]%demo_pte; [|done]. simpl. rewrite E. by vm_compute.
Qed.

Lemma demo_mapped free va : 0 <= va < PGSIZE -> mapped (demo free) demo_tree va.
Proof.
  intros H. unfold mapped. rewrite (pte_of_same_page _ _ va 0); [by vm_compute|lia|lia|].
  unfold PGSIZE in *. divlia.
Qed.

Lemma demo_top free : kernel_top (demo free) demo_tree.
Proof.
  intros x Hx. unfold pte_of. destruct (pt_l0 demo_tree !! _) as [t|] eqn:E; [|done].
  unfold demo_tree in E. cbn [pt_l0] in E. apply lookup_singleton_Some in E as [[= E2 E1] <-]. exfalso.
  rewrite PX_eq in E2 by lia. change (2 ^ (12 + 9 * 2)) with 1073741824 in E2.
  change TRAPFRAME with 274877898752 in Hx. change MAXVA with 274877906944 in Hx. divlia.
Qed.

Lemma demo_user_ok free va : 0 <= va < PGSIZE -> user_ok (demo free) demo_tree va = true.
Proof.
  intros H. rewrite (user_ok_same_page _ _ va 0); [by vm_compute|lia|lia|unfold PGSIZE in *; divlia].
Qed.

Lemma demo_unmapped free x : PGSIZE <= x < TRAPFRAME -> ~ mapped (demo free) demo_tree x.
Proof.
  intros Hx [E _]%demo_pte; unfold in_user, PGSIZE in *; [divlia|lia].
Qed.

Lemma uvmalloc_all_or_nothing_witness :
  exists r s', uvmalloc demo_end (demo_page 1) PGSIZE (PGSIZE + 10) 8 (demo true) = Done r s' /\
    (r = PGSIZE + 10 \/ r = 0).
Proof.
  destruct (uvmalloc_all_or_nothing demo_end demo_end_range (demo true) demo_tree [demo_page 5]
              PGSIZE (PGSIZE + 10) 8 (demo_as_inv true)) as (r & s' & T' & l' & E & _ & R); [by vm_compute..| | |].
  - change (PGROUNDUP PGSIZE) with PGSIZE. apply demo_unmapped.
  - vm_compute; lia.
  - exists r, s'. split; [exact E|]. destruct R as [(H & _)|[(_ & -> & _)|(_ & -> & _)]]; [|by left|by right].
    by vm_compute in H.
Defined.

Lemma uvmdealloc_shrinks_witness :
  exists s', uvmdealloc demo_end (demo_page 1) PGSIZE 0 2 (demo true) = Done 0 s' /\
    uview s' demo_tree 0 = None.
Proof.
  destruct (uvmdealloc_shrinks demo_end demo_end_range (demo true) demo_tree [demo_page 5] PGSIZE 0 2
              (demo_as_inv true)) as (s' & l' & E & _ & V); [by vm_compute..| | |].
  - intros x Hx. apply demo_mapped. change (PGROUNDUP 0) with 0 in Hx. lia.
  - vm_compute; lia.
  - exists s'. split; [exact E|]. rewrite (V 0); [done|by split].
Defined.

(** The machine with three free pages and an empty child table. *)
Definition fork_ram : mem :=
  store64 (store64 demo_ram (demo_page 5) (demo_page 6)) (demo_page 6) (demo_page 7).
Definition fork_kmem : kmem := mk_kmem false (demo_page 5) fork_ram.
Definition fork_free : list Z := [demo_page 5; demo_page 6; demo_page 7].
Definition child_tree : ptree := empty_tree (demo_page 8).

Lemma fork_ram_same k a : 1 <= k <= 8 -> k <> 5 -> k <> 6 ->
  demo_page k <= a < demo_page k + PGSIZE -> fork_ram a = demo_ram a.
Proof. intros H H5 H6 Ha. unfold fork_ram. rewrite !store64_outside; [done|unfold demo_page, PGSIZE in *; lia..]. Qed.

Lemma child_table_at q t : table_at child_tree q = Some t -> q = PRoot /\ t = demo_page 8.
Proof. destruct q; simpl; [by intros [= <-]|by rewrite lookup_empty..]. Qed.

Lemma child_as_inv : as_inv demo_end fork_kmem child_tree fork_free.
Proof.
  assert (forall va, valid (pte_of fork_ram child_tree va) = true -> False) as Hnone by done.
  split; [|intros va _ H; by destruct (Hnone va)|intros va va' _ _ H; by destruct (Hnone va)
          |intros va _ H; by destruct (Hnone va)].
  split.
  - split; [done|by vm_compute| |].
    + unfold fork_free. rewrite !NoDup_cons, !elem_of_cons, !elem_of_nil.
      split_and!; [vm_compute; intuition congruence..|constructor].
    + repeat (apply Forall_cons; split; [apply demo_page_ok; lia|]). constructor.
  - split.
    + intros q t [_ ->]%child_table_at. apply demo_page_ok. lia.
    + intros q q' t [-> _]%child_table_at [-> _]%child_table_at. done.
    + intros q t i _ Ht Hi. destruct (child_table_at q t Ht) as [-> ->].
      simpl. rewrite lookup_empty. simpl. unfold entry, fork_ram, demo_ram.
      rewrite !load_store_other by (unfold demo_page, PGSIZE; lia). reflexivity.
    + intros i j t; simpl. by rewrite lookup_empty.
    + intros [|a|a b] i t; simpl; by rewrite ?lookup_empty.
  - intros q t [_ ->]%child_table_at. unfold fork_free.
    rewrite !elem_of_cons, elem_of_nil. vm_compute. intuition congruence.
Qed.

Lemma child_world u : world fork_kmem child_tree fork_free u ->
  u = demo_page 5 \/ u = demo_page 6 \/ u = demo_page 7 \/ u = demo_page 8.
Proof.
  intros [Hu|q [_ ->]%child_table_at|va _ Hv _]; [|tauto|done].
  unfold fork_free in Hu. rewrite !elem_of_cons, elem_of_nil in Hu. tauto.
Qed.

Lemma fork_pte x : pte_of fork_ram demo_tree x = pte_of demo_ram demo_tree x.
Proof.
  apply pte_of_outside. intros q t a [[_ ->]|[[_ ->]|[_ ->]]]%demo_table_at Ha;
    eapply fork_ram_same; try exact Ha; lia.
Qed.

Lemma fork_foreign : foreign demo_end fork_kmem demo_tree child_tree fork_free.
Proof.
  split.
  - eapply pt_rep_outside; [apply demo_pt_rep|]. intros q t a [[_ ->]|[[_ ->]|[_ ->]]]%demo_table_at Ha;
      eapply fork_ram_same; try exact Ha; lia.
  - intros q t [[_ ->]|[[_ ->]|[_ ->]]]%demo_table_at Hw%child_world; vm_compute in Hw; intuition congruence.
  - unfold mapped. simpl. intros va Hva Hv. rewrite fork_pte in *. destruct (demo_pte va Hva Hv) as [_ ->].
    change (PTE2PA _) with (demo_page 4). split_and!; [apply demo_page_ok; lia| |by vm_compute].
    intros Hw%child_world. vm_compute in Hw. intuition congruence.
Qed.

Lemma uvmcopy_duplicates_witness :
  exists r s', uvmcopy demo_end (demo_page 1) (demo_page 8) PGSIZE 6 fork_kmem = Done r s' /\ (r = 0 \/ r = -1).
Proof.
  destruct (uvmcopy_duplicates demo_end demo_end_range fork_kmem demo_tree child_tree fork_free PGSIZE 6
              child_as_inv fork_foreign) as [(Hl & _)|(r & s' & T' & l' & E & _ & _ & _ & R)].
  - by vm_compute.
  - intros x Hx. unfold mapped. simpl. rewrite fork_pte. by apply (demo_mapped true).
  - intros x _ H. done.
  - vm_compute; lia.
  - exfalso. simpl in Hl. lia.
  - exists r, s'. split; [exact E|]. destruct R as [[-> _]|[-> _]]; [by left|by right].
Defined.

Lemma demo_child_vm_inv : vm_inv demo_end (demo false) child_tree [].
Proof.
  split; [apply demo_vm_inv| |intros; apply not_elem_of_nil].
  eapply pt_rep_outside; [apply child_as_inv|]. intros q t a [_ ->]%child_table_at Ha. simpl.
  symmetry. eapply fork_ram_same; try exact Ha; lia.
Qed.

Lemma uvmcopy_first_failure_panics_witness :
  uvmcopy demo_end (demo_page 1) (demo_page 8) PGSIZE 5 (demo false) = Panicked "uvmunmap: walk".
Proof.
  apply (uvmcopy_first_failure_panics demo_end demo_end_range (demo false) demo_tree child_tree);
    [apply demo_pt_rep|apply demo_child_vm_inv|by apply demo_mapped|done|done].
Defined.

Definition demo_msg : list byte := [Byte.x68; Byte.x69; Byte.x00].

Lemma copyout_writes_user_witness :
  exists s', copyout (demo_page 1) 100 demo_msg 3 (demo true) = Done 0 s' /\
    uview s' demo_tree 101 = Some (31, Byte.x69).
Proof.
  destruct (copyout_writes_user demo_end demo_end_range (demo true) demo_tree [demo_page 5] 100 demo_msg 3
    (demo_as_inv true) (demo_top true)) as (r & s' & n & E & _ & R & _ & V); [done|simpl; lia|].
  assert (r = 0 /\ n = 3) as [-> ->].
  { destruct R as [[-> ->]|(-> & Hn & Hno)]; [split; reflexivity|].
    rewrite demo_user_ok in Hno; [discriminate Hno|]. simpl in Hn. unfold PGSIZE. lia. }
  exists s'. split; [exact E|]. rewrite (V 101); [reflexivity|].
  unfold in_user. change TRAPFRAME with 274877898752. lia.
Defined.

Lemma copyout_copyin_roundtrip_witness :
  exists s', copyout (demo_page 1) 100 demo_msg 3 (demo true) = Done 0 s' /\
    copyin (demo_page 1) 100 3 3 s' = Done (0, demo_msg) s'.
Proof.
  destruct (copyout_spec demo_end demo_end_range 3 (demo true) demo_tree [demo_page 5] 100 demo_msg
    (demo_as_inv true) (demo_top true)) as (r & s' & n & E & _ & _ & Hn & R & _); [done|simpl; lia|].
  assert (r = 0) as ->.
  { destruct R as [[-> _]|(-> & Hlt & Hno)]; [reflexivity|].
    rewrite demo_user_ok in Hno; [discriminate Hno|]. simpl in Hlt. unfold PGSIZE. lia. }
  exists s'. split; [exact E|].
  apply (copyout_copyin_roundtrip demo_end demo_end_range (demo true) demo_tree [demo_page 5] 100 demo_msg 3 s'
    (demo_as_inv true) (demo_top true)); [lia|simpl; lia|exact E].
Defined.

Lemma copyinstr_fetches_string_witness :
  exists r bs, copyinstr (demo_page 1) 8 3 3 (demo true) = Done (r, bs) (demo true) /\ Z.of_nat (length bs) <= 3.
Proof.
  destruct (copyinstr_fetches_string demo_end demo_end_range (demo true) demo_tree [demo_page 5] 8 3 3
    (demo_as_inv true) (demo_top true)) as (r & bs & E & L & _); [done|done|].
  exists r, bs. split; [exact E|exact L].
Defined.
