(* ===== verification/VmFree.v ===== *)
(** * Freeing an address space: freewalk and uvmfree of kernel/vm.c

    The tables of a page table form a tree; [freewalk] frees them from the
    leaves up.  A freed page is overwritten at once, so the argument is about
    what is still intact of the tables that are not freed yet. *)

From S2P Require Import Prelude CMem Riscv Kalloc Vm Uvm.

(** The positions of the tree at or under [p]. *)
Definition below (p q : pos) : Prop :=
  match p, q with
  | PRoot, _ => True
  | PMid i, PMid i' => i' = i
  | PMid i, PLow i' _ => i' = i
  | PLow i j, PLow i' j' => i' = i /\ j' = j
  | _, _ => False
  end.

(** What is left to free below [p] when its loop is at entry [i]. *)
Definition under (p : pos) (i : Z) (q : pos) : Prop := exists k, i <= k /\ below (child p k) q.

Lemma below_refl p : below p p.
Proof. destruct p; cbn; naive_solver. Qed.

Lemma below_upper p q : upper p -> below p q -> q = p \/ exists k, below (child p k) q.
Proof.
  destruct p as [|i|], q as [|i'|i' j']; cbn; intros Hu H; subst; try done; first [by left|right; eexists; eauto].
Qed.

Lemma below_child p k q : upper p -> below (child p k) q -> below p q.
Proof. destruct p, q; cbn; tauto. Qed.

Lemma below_disjoint p k k' q : upper p -> below (child p k) q -> below (child p k') q -> k = k'.
Proof. destruct p, q; cbn; naive_solver. Qed.

Lemma below_strict p k : upper p -> ~ below (child p k) p.
Proof. destruct p; cbn; naive_solver. Qed.

Lemma land_rwx x : Z.land (Z.lor (PA2PTE x) PTE_V) (Z.lor (Z.lor PTE_R PTE_W) PTE_X) = 0.
Proof.
  change (Z.lor (Z.lor PTE_R PTE_W) PTE_X) with 14. change PTE_V with 1. apply Z.bits_inj'. intros n Hn. rewrite Z.land_spec, Z.lor_spec, Z.bits_0. unfold PA2PTE.
  destruct (Z.ltb_spec n 4); [|by rewrite (Z.bits_above_log2 14 n), andb_false_r by (try change (Z.log2 14) with 3; lia)].
  unfold u64. rewrite Z.mod_pow2_bits_low, Z.shiftl_spec_low by lia. assert (n = 0 \/ n = 1 \/ n = 2 \/ n = 3) as [-> | [-> | [-> | ->]]] by lia; done.
Qed.

Section VmFree.

Variable kend : Z.
Hypothesis kend_range : KERNBASE <= kend <= PHYSTOP.

Local Notation page_ok := (page_ok kend).

Variable T : ptree.
Variable m0 : mem.
Hypothesis tree : pt_rep kend m0 T.
Hypothesis no_leaves : forall i j u k, pt_l0 T !! (i, j) = Some u -> 0 <= k < 512 -> valid (entry m0 u k) = false.

Definition intact (P : pos -> Prop) (s : kmem) : Prop :=
  forall q u a, P q -> table_at T q = Some u -> u <= a < u + PGSIZE -> ram s a = m0 a.

Definition held (P : pos -> Prop) (l : list Z) : Prop := forall q u, P q -> table_at T q = Some u -> u ∉ l.

(** The tables in [P] join the free list; only pages of [W] are written. *)
Record gives_back (P W : pos -> Prop) (s : kmem) (l : list Z) (s' : kmem) (l' : list Z) : Prop := {
  gb_inv : kmem_inv kend s' l';
  gb_list u : u ∈ l' <-> u ∈ l \/ exists q, P q /\ table_at T q = Some u;
  gb_frame a : (forall q u, W q -> table_at T q = Some u -> outside u a) -> ram s' a = ram s a;
}.

Lemma gives_back_trans P Q R W s l s1 l1 s2 l2 :
  gives_back P W s l s1 l1 -> gives_back Q W s1 l1 s2 l2 ->
  (forall q u, table_at T q = Some u -> R q <-> P q \/ Q q) -> gives_back R W s l s2 l2.
Proof.
  intros A B E. split.
  - apply B.
  - intros u. rewrite (gb_list _ _ _ _ _ _ B), (gb_list _ _ _ _ _ _ A). split.
    + intros [[H|(q & Hq & Ht)]|(q & Hq & Ht)]; [by left|right; exists q; split; [|done]; rewrite (E q u Ht); tauto..].
    + intros [H|(q & Hq & Ht)]; [by do 2 left|]. rewrite (E q u Ht) in Hq. destruct Hq; [left; right|right]; by exists q.
  - intros a H. by rewrite (gb_frame _ _ _ _ _ _ B), (gb_frame _ _ _ _ _ _ A).
Qed.

Lemma gives_back_widen P W W' s l s' l' : (forall q, W q -> W' q) -> gives_back P W s l s' l' -> gives_back P W' s l s' l'.
Proof. intros H A. split; try apply A. intros a Ha. apply (gb_frame _ _ _ _ _ _ A). intros q u Hq. by apply Ha, H. Qed.

Definition frees (f : M kmem unit) (P : pos -> Prop) : Prop :=
  forall s l, kmem_inv kend s l -> held P l -> intact P s -> exists s' l', f s = Done tt s' /\ gives_back P P s l s' l'.

Lemma tables_apart q q' u u' a : table_at T q = Some u -> table_at T q' = Some u' -> q <> q' -> u <= a < u + PGSIZE -> outside u' a.
Proof.
  intros H H' Hne Ha. assert (u <> u') as Hu by (intros ->; by apply Hne, (rep_inj _ _ _ tree q q' u')).
  pose proof (page_ok_disjoint kend u u' (rep_page _ _ _ tree q u H) (rep_page _ _ _ tree q' u' H') Hu).
  unfold outside. lia.
Qed.

Lemma no_tables_below p k q : upper p -> table_at T (child p k) = None -> below (child p k) q -> table_at T q = None.
Proof.
  intros Hp Hn Hb. destruct (table_at T q) as [u|] eqn:E; [|done].
  destruct p, q; cbn in *; try done; try (destruct Hb; subst); congruence || (destruct (rep_dom _ _ _ tree _ _ _ E); congruence).
Qed.

Lemma intact_entry P s q u k : intact P s -> P q -> table_at T q = Some u -> 0 <= k < 512 -> entry (ram s) u k = entry m0 u k.
Proof. intros H Hp Hq Hk. apply entry_ext. intros a Ha. apply (H q u a Hp Hq). unfold PGSIZE. lia. Qed.

(** A table none of whose entries is valid. *)
Lemma freewalk_loop_empty rec t n : forall i s,
  (forall k, i <= k < i + Z.of_nat n -> valid (entry (ram s) t k) = false) ->
  freewalk_loop rec t i n s = Done tt s.
Proof.
  induction n as [|n IH]; intros i s H; [done|]. cbn [freewalk_loop].
  unfold read_pte, gets, bind at 1. cbn [obind]. change (load64 (ram s) (t + 8 * i)) with (entry (ram s) t i).
  rewrite H by lia. cbn [andb]. rewrite (bind_Done _ _ s tt s) by done. apply IH. intros k Hk. apply H. lia.
Qed.

(** One iteration on an entry with a table below it. *)
Lemma free_child (rec : Z -> M kmem unit) p t k c s l :
  upper p -> table_at T p = Some t -> frees (rec c) (below (child p k)) -> kmem_inv kend s l ->
  held (fun q => q = p \/ below (child p k) q) l -> intact (below (child p k)) s -> 0 <= k < 512 ->
  exists s1 l1, rec c s = Done tt s1 /\ let s2 := set_ram (store64 (ram s1) (t + 8 * k) 0) s1 in
    gives_back (below (child p k)) (fun q => q = p \/ below (child p k) q) s l s2 l1 /\
    forall i, 0 <= i < 512 -> i <> k -> entry (ram s2) t i = entry (ram s) t i.
Proof.
  intros Hp Ht Hrec Hk Hh Hi Hr. destruct (Hrec s l Hk) as (s1 & l1 & E & [G1 G2 G3]); [|done|].
  { intros q u Hq. apply Hh. by right. }
  exists s1, l1. split; [done|]. intros s2. pose proof (rep_page _ _ _ tree _ _ Ht) as Hpt.
  assert (t ∉ l1) as Htl.
  { intros [H|(q & Hq & Hu)]%G2; [by apply (Hh p t (or_introl eq_refl) Ht)|].
    pose proof (rep_inj _ _ _ tree _ _ _ Ht Hu) as <-. by apply below_strict in Hq. }
  split; [split; [|done|]|].
  - apply kmem_inv_ram; [done|]. intros u Hu. apply load_store_other.
    pose proof (proj1 (Forall_forall _ _) (kinv_pages _ _ _ G1) u Hu) as Hpu.
    assert (t <> u) as Hne by (by intros ->).
    destruct (page_ok_disjoint kend t u Hpt Hpu Hne); unfold PGSIZE in *; lia.
  - intros a Ha. cbn [s2 ram set_ram]. rewrite store64_outside.
    + apply G3. intros q u Hq. apply Ha. by right.
    + pose proof (Ha p t (or_introl eq_refl) Ht) as Ho. unfold outside, PGSIZE in Ho. lia.
  - intros i Hri Hne. unfold entry. cbn [s2 ram set_ram]. rewrite load_store_other by lia. apply entry_ext.
    intros a Ha. apply G3. intros q u Hq Hu. apply (tables_apart p q t u); [done..| |unfold PGSIZE; lia].
    intros <-. by apply below_strict in Hq.
Qed.

Lemma under_next p i q : under p i q <-> below (child p i) q \/ under p (i + 1) q.
Proof.
  split.
  - intros (k & Hk & Hb). destruct (decide (k = i)) as [->|]; [by left|right; exists k; split; [lia|done]].
  - intros [Hb|(k & Hk & Hb)]; [exists i|exists k]; (split; [lia|done]).
Qed.

(** The tables left are not among those freed, nor is the table itself. *)
Lemma under_apart p i q q' : upper p -> q = p \/ below (child p i) q -> under p (i + 1) q' -> q <> q'.
Proof.
  intros Hp Hq (k & Hk & Hb) <-. destruct Hq as [-> | Hq]; [by apply below_strict in Hb|].
  pose proof (below_disjoint p k i q Hp Hb Hq). lia.
Qed.

Lemma freewalk_loop_frees rec p t n : forall i s l,
  upper p -> table_at T p = Some t -> (forall k c, table_at T (child p k) = Some c -> frees (rec c) (below (child p k))) ->
  0 <= i -> i + Z.of_nat n = 512 ->
  kmem_inv kend s l -> held (fun q => q = p \/ under p i q) l -> intact (under p i) s ->
  (forall k, i <= k < 512 -> entry (ram s) t k = entry m0 t k) ->
  exists s' l', freewalk_loop rec t i n s = Done tt s' /\ gives_back (under p i) (fun q => q = p \/ under p i q) s l s' l'.
Proof.
  induction n as [|n IH]; intros i s l Hp Ht Hrec H0 Hn Hk Hh Hi He.
  { exists s, l. split; [done|]. split; [done| |done]. intros u. split; [by left|]. intros [H|(q & (k & Hki & Hb) & Hu)]; [done|].
    destruct (table_at T (child p k)) as [c|] eqn:Hc; [|by rewrite (no_tables_below p k q Hp Hc Hb) in Hu].
    pose proof (rep_index _ _ _ tree p k c Hp Hc) as Hx. destruct p; unfold index_ok in Hx; lia. }
  cbn [freewalk_loop]. unfold read_pte, gets, bind at 1. cbn [obind]. change (load64 (ram s) (t + 8 * i)) with (entry (ram s) t i).
  rewrite He by lia. pose proof (rep_child _ _ _ tree p t i Hp Ht ltac:(lia)) as Hc.
  destruct (table_at T (child p i)) as [c|] eqn:Ec; cbn [child_ok] in Hc.
  - destruct (child_pte kend kend_range c (rep_page _ _ _ tree _ _ Ec)) as [V P]. rewrite Hc, V, P, land_rwx. cbn [andb Z.eqb].
    destruct (free_child rec p t i c s l Hp Ht (Hrec i c Ec) Hk) as (s1 & l1 & E & G & He2).
    { intros q u [-> | Hq]; apply Hh; [by left|right; apply under_next; by left]. }
    { intros q u a Hq. apply Hi, under_next. by left. }
    { lia. }
    rewrite (bind_Done _ _ _ tt (set_ram (store64 (ram s1) (t + 8 * i) 0) s1)) by (by rewrite (bind_Done _ _ _ _ _ E)).
    destruct (IH (i + 1) (set_ram (store64 (ram s1) (t + 8 * i) 0) s1) l1 Hp Ht Hrec ltac:(lia) ltac:(lia) (gb_inv _ _ _ _ _ _ G))
      as (s' & l' & E' & G').
    + intros q u Hq Hu [Hl|(q' & Hq' & Hu')]%(gb_list _ _ _ _ _ _ G).
      * apply (Hh q u); [|done..]. destruct Hq as [|Hq]; [by left|right]. apply under_next. by right.
      * pose proof (rep_inj _ _ _ tree _ _ _ Hu Hu') as <-. destruct Hq as [-> | Hq]; [by apply below_strict in Hq'|].
        by apply (under_apart p i q q Hp (or_intror Hq') Hq).
    + intros q u a Hq Hu Ha. rewrite (gb_frame _ _ _ _ _ _ G).
      * apply (Hi q u); [apply under_next; by right|done..].
      * intros q' u' Hq' Hu'. apply (tables_apart q q' u u'); [done..| |done]. apply not_eq_sym. by eapply under_apart.
    + intros k Hkk. rewrite He2 by lia. apply He. lia.
    + exists s', l'. split; [done|]. eapply gives_back_trans.
      * eapply gives_back_widen, G. intros q [|Hq]; [by left|right; apply under_next; by left].
      * eapply gives_back_widen, G'. intros q [|Hq]; [by left|right; apply under_next; by right].
      * intros q u _. apply under_next.
  - rewrite Hc. cbn [andb]. rewrite (bind_Done _ _ s tt s) by done.
    destruct (IH (i + 1) s l Hp Ht Hrec ltac:(lia) ltac:(lia) Hk) as (s' & l' & E' & G').
    + intros q u [-> |Hq]; apply Hh; [by left|right; apply under_next; by right].
    + intros q u a Hq. apply Hi, under_next. by right.
    + intros k Hkk. apply He. lia.
    + exists s', l'. split; [done|]. eapply gives_back_widen in G'; [split; try apply G'|].
      * intros u. rewrite (gb_list _ _ _ _ _ _ G'). split; (intros [|(q & Hq & Hu)]; [by left|right; exists q; split; [|done]]).
        -- apply under_next. by right.
        -- apply under_next in Hq as [Hq|]; [|done]. by rewrite (no_tables_below p i q Hp Ec Hq) in Hu.
      * intros q [|Hq]; [by left|right; apply under_next; by right].
Qed.
(** After the loop over its entries, the table itself is freed. *)
Lemma free_self (f : M kmem unit) p t :
  table_at T p = Some t ->
  (forall s l, kmem_inv kend s l -> held (below p) l -> intact (below p) s -> exists s' l', f s = Done tt s' /\
     gives_back (fun q => q <> p /\ below p q) (below p) s l s' l') ->
  frees (f ;;; kfree kend t) (below p).
Proof.
  intros Ht Hf s l Hk Hh Hi. destruct (Hf s l Hk Hh Hi) as (s1 & l1 & E & G).
  destruct (kfree_spec kend kend_range s1 l1 t (gb_inv _ _ _ _ _ _ G) (rep_page _ _ _ tree _ _ Ht)) as (s2 & E2 & Hk2 & Ho).
  { intros [H|(q & [Hne _] & Hu)]%(gb_list _ _ _ _ _ _ G); [by apply (Hh p t (below_refl p) Ht)|].
    apply Hne. by apply (rep_inj _ _ _ tree _ _ t). }
  exists s2, (t :: l1). split; [by rewrite (bind_Done _ _ _ _ _ E)|]. split; [done| |].
  - intros u. rewrite elem_of_cons, (gb_list _ _ _ _ _ _ G). split.
    + intros [-> | [Hl|(q & [_ Hq] & Hu)]]; [right; exists p|by left|right; by exists q]. split; [apply below_refl|done].
    + intros [Hl|(q & Hq & Hu)]; [by right; left|]. destruct (decide (u = t)) as [|Hne]; [by left|right; right].
      exists q. split_and!; [|done|done]. intros ->. congruence.
  - intros a Ha. rewrite Ho by (by apply (Ha p t (below_refl p))). by apply (gb_frame _ _ _ _ _ _ G).
Qed.

Lemma freewalk_leaf i j t : table_at T (PLow i j) = Some t -> frees (freewalk kend 1 t) (below (PLow i j)).
Proof.
  intros Ht. cbn [freewalk]. apply (free_self _ _ _ Ht). intros s l Hk Hh Hi. exists s, l. split.
  - apply freewalk_loop_empty. intros k Hkr. rewrite (intact_entry _ _ _ _ _ Hi (below_refl (PLow i j)) Ht) by lia.
    apply (no_leaves i j); [done|lia].
  - split; [done| |done]. intros u. split; [by left|]. intros [|(q & [Hne Hq] & _)]; [done|].
    destruct q; cbn in Hq; try done. destruct Hq as [-> ->]. done.
Qed.

Lemma freewalk_upper n p t :
  upper p -> table_at T p = Some t -> (forall k c, table_at T (child p k) = Some c -> frees (freewalk kend n c) (below (child p k))) ->
  frees (freewalk kend (S n) t) (below p).
Proof.
  intros Hp Ht Hrec. cbn [freewalk]. apply (free_self _ _ _ Ht). intros s l Hk Hh Hi.
  assert (forall q, under p 0 q -> below p q) as Hub by (intros q (k & _ & Hb); by eapply below_child).
  assert (forall q, q = p \/ under p 0 q -> below p q) as Hup by (intros q [-> |]; [apply below_refl|by apply Hub]).
  destruct (freewalk_loop_frees (freewalk kend n) p t 512 0 s l Hp Ht Hrec) as (s' & l' & E & G); [lia|lia|done|..].
  - intros q u Hq. by apply Hh, Hup.
  - intros q u a Hq. by apply Hi, Hub.
  - intros k Hkr. apply (intact_entry _ _ _ _ _ Hi (below_refl p) Ht). lia.
  - exists s', l'. split; [done|]. eapply gives_back_widen in G; [|exact Hup]. split; try apply G.
    intros u. rewrite (gb_list _ _ _ _ _ _ G). split; (intros [|(q & Hq & Hu)]; [by left|right; exists q; split; [|done]]).
    + split; [intros ->; destruct Hq as (k & _ & Hb); by apply below_strict in Hb|by apply Hub].
    + destruct Hq as [Hne Hq]. destruct (below_upper p q Hp Hq) as [|[k Hb]]; [done|]. exists k. split; [|done].
      destruct (table_at T (child p k)) as [c|] eqn:Hc; [|by rewrite (no_tables_below p k q Hp Hc Hb) in Hu].
      apply (rep_index _ _ _ tree p k c Hp Hc).
Qed.

Lemma freewalk_frees : frees (freewalk kend 3 (pt_root T)) (below PRoot).
Proof.
  apply freewalk_upper; [done..|]. intros i t1 H1. apply (freewalk_upper 1 (PMid i)); [done..|].
  intros j t0 H0. by apply (freewalk_leaf i j).
Qed.

End VmFree.

Section Uvmfree.

Variable kend : Z.
Hypothesis kend_range : KERNBASE <= kend <= PHYSTOP.

(** An address that goes through three given indices. *)
Lemma index_address i j k : 0 <= i < 256 -> 0 <= j < 512 -> 0 <= k < 512 ->
  exists va, 0 <= va < MAXVA /\ PX 2 va = i /\ PX 1 va = j /\ PX 0 va = k.
Proof.
  intros Hi Hj Hk. exists (((i * 512 + j) * 512 + k) * 4096). rewrite !PX_eq by lia.
  change (2 ^ (12 + 9 * 2)) with 1073741824. change (2 ^ (12 + 9 * 1)) with 2097152. change (2 ^ (12 + 9 * 0)) with 4096.
  change MAXVA with 274877906944. split_and!; divlia.
Qed.

Lemma unmapped_no_leaves s T : pt_rep kend (ram s) T -> (forall va, 0 <= va < MAXVA -> ~ mapped s T va) ->
  forall i j u k, pt_l0 T !! (i, j) = Some u -> 0 <= k < 512 -> valid (entry (ram s) u k) = false.
Proof.
  intros Hr Hn i j u k Hu Hk. destruct (rep_dom _ _ _ Hr _ _ _ Hu) as [t1 H1].
  destruct (index_address i j k) as (va & Hva & E2 & E1 & E0); [|by apply (rep_index _ _ _ Hr (PMid i) j u)|done|].
  { by apply (rep_index _ _ _ Hr PRoot i t1). }
  specialize (Hn va Hva). unfold mapped, pte_of in Hn. rewrite E2, E1, Hu, E0 in Hn. by destruct (valid _).
Qed.

(** [uvmfree] gives every page of the address space back: the pages of the
    process and the tables. *)
Lemma uvmfree_spec s T l sz fuel :
  as_inv kend s T l -> 0 < sz <= TRAPFRAME ->
  (forall va, 0 <= va < MAXVA -> mapped s T va <-> va < PGROUNDUP sz) -> (extra_pages 0 sz < fuel)%nat ->
  exists s' l', uvmfree kend (pt_root T) sz fuel s = Done tt s' /\ kmem_inv kend s' l' /\
    (forall u, u ∈ l' <-> world s T l u) /\ forall a, (forall u, world s T l u -> outside u a) -> ram s' a = ram s a.
Proof.
  intros Hi Hsz Hm Hfuel. pose proof (user_u64 sz (proj2 Hsz)) as Hu64.
  destruct (PGROUNDUP_bounds sz ltac:(lia) Hu64) as [Hb Hba].
  destruct (uvmunmap_spec kend kend_range s T l 0 sz fuel Hi) as (s1 & l1 & E & U & V); [lia|done|lia|lia| |done|].
  { intros x Hx. apply Hm; [|lia]. apply user_max. unfold in_user. lia. }
  assert (forall va, 0 <= va < MAXVA -> ~ mapped s1 T va) as Hnone.
  { intros va Hva Hmv. destruct (decide (va < TRAPFRAME)) as [Hlt|Hge].
    - apply uview_mapped in Hmv. rewrite V in Hmv by (by split; [lia|]). destruct (Z.leb_spec 0 va); [|lia].
      destruct (Z.ltb_spec va (PGROUNDUP (0 + sz))); [done|]. apply uview_mapped, Hm in Hmv; [|done]. rewrite Z.add_0_l in *. lia.
    - unfold mapped in Hmv. rewrite (us_high _ _ _ _ _ _ _ U) in Hmv by lia. apply Hm in Hmv; [|done].
      assert (PGROUNDUP sz <= TRAPFRAME) by (assert (TRAPFRAME mod PGSIZE = 0) by done; unfold PGSIZE in *; divlia). lia. }
  pose proof (us_inv _ _ _ _ _ _ _ U) as Hi1. pose proof (vm_rep _ _ _ _ (as_vm _ _ _ _ Hi1)) as Hr1.
  destruct (freewalk_frees kend kend_range T (ram s1) Hr1 (unmapped_no_leaves s1 T Hr1 Hnone) s1 l1) as (s' & l' & E' & G).
  - apply Hi1.
  - intros q u _. apply (vm_tables _ _ _ _ (as_vm _ _ _ _ Hi1)).
  - by intros q u a _.
  - exists s', l'. unfold uvmfree. rewrite (bind_Done _ _ _ _ _ E). split; [done|].
    assert (forall u, u ∈ l' <-> world s T l u) as Hw.
    { intros u. rewrite (gb_list _ _ _ _ _ _ _ _ G), <- (us_world _ _ _ _ _ _ _ U). split.
      - intros [H|(q & _ & H)]; [by apply w_free|by eapply w_table].
      - intros [H|q H|va Hva Hv _]; [by left|right; by exists q|]. destruct (Hnone va); [by apply user_max|done]. }
    split_and!; [apply G|done|]. intros a Ha.
    rewrite (gb_frame _ _ _ _ _ _ _ _ G), (us_frame _ _ _ _ _ _ _ U); [done|done|].
    intros q u _ Hq. apply Ha, (us_world _ _ _ _ _ _ _ U). by eapply w_table.
Qed.

End Uvmfree.
