(* ===== verification/VmKernel.v ===== *)
(** * The kernel's page table: kvminit of kernel/vm.c

    Seven ranges are mapped, the devices, the kernel's text, its data with all
    physical memory, and the trampoline.  The list of ranges is the reference
    description; [kvminit] installs it and nothing else. *)

From S2P Require Import Prelude CMem Riscv Kalloc Vm Uvm.

Record region := mk_region { r_va : Z; r_pa : Z; r_size : Z; r_perm : Z }.

Definition covers (r : region) (va : Z) : Prop := r_va r <= va < r_va r + r_size r.
#[export] Instance covers_dec r va : Decision (covers r va).
Proof. unfold covers. apply _. Defined.

(** The entry the region means for an address in it. *)
Definition region_pte (r : region) (va : Z) : Z := mk_pte (r_pa r + (va / PGSIZE - r_va r / PGSIZE) * PGSIZE) (r_perm r).

Definition mapping (rs : list region) (va : Z) : option region := find (fun r => bool_decide (covers r va)) rs.

Record region_ok (r : region) : Prop := {
  ro_va : 0 <= r_va r /\ r_va r mod PGSIZE = 0;
  ro_pa : 0 <= r_pa r /\ r_pa r mod PGSIZE = 0 /\ r_pa r + r_size r + PGSIZE <= 2 ^ 56;
  ro_size : 0 < r_size r /\ r_size r mod PGSIZE = 0 /\ r_va r + r_size r <= MAXVA;
  ro_perm : 0 <= r_perm r < 2 ^ 10;
}.

Definition apart (r : region) (rs : list region) : Prop := forall r' va, r' ∈ rs -> covers r va -> ~ covers r' va.

Fixpoint layout_ok (rs : list region) : Prop :=
  match rs with [] => True | r :: rs' => region_ok r /\ apart r rs' /\ layout_ok rs' end.

(** Page-table pages that are enough for a region: two for each 2 MB of it. *)
Definition region_cost (r : region) : nat := 2 + 2 * Z.to_nat ((r_va r + r_size r - 1) / 2 ^ 21 - r_va r / 2 ^ 21).

Definition layout_cost (rs : list region) : nat := foldr (fun r n => region_cost r + n)%nat O rs.

(** The kernel's layout; [etext] and [trampoline] are linker symbols. *)
Definition kernel_layout (etext trampoline : Z) : list region :=
  [ mk_region UART0 UART0 PGSIZE (Z.lor PTE_R PTE_W);
    mk_region VIRTIO0 VIRTIO0 PGSIZE (Z.lor PTE_R PTE_W);
    mk_region CLINT CLINT 0x10000 (Z.lor PTE_R PTE_W);
    mk_region PLIC PLIC 0x400000 (Z.lor PTE_R PTE_W);
    mk_region KERNBASE KERNBASE (etext - KERNBASE) (Z.lor PTE_R PTE_X);
    mk_region etext etext (PHYSTOP - etext) (Z.lor PTE_R PTE_W);
    mk_region TRAMPOLINE trampoline PGSIZE (Z.lor PTE_R PTE_X) ].

Lemma mapping_in rs va r : mapping rs va = Some r -> r ∈ rs /\ covers r va.
Proof. intros [H1 H2]%find_some. split; [by apply list_elem_of_In|by apply bool_decide_eq_true_1 in H2]. Qed.

Lemma mapping_none rs va : mapping rs va = None -> forall r, r ∈ rs -> ~ covers r va.
Proof. intros H r Hr Hc. eapply find_none in H; [|by apply list_elem_of_In]. by apply bool_decide_eq_false_1 in H. Qed.

Lemma mapping_cons_apart r rs va : apart r rs -> covers r va -> mapping rs va = None.
Proof. intros Ha Hc. destruct (mapping rs va) as [r'|] eqn:E; [|done]. apply mapping_in in E as [H1 H2]. by destruct (Ha r' va H1 Hc). Qed.

(** A region's entries translate to its physical range. *)
Lemma region_pte_ok r va : region_ok r -> covers r va ->
  PTE2PA (region_pte r va) + va mod PGSIZE = r_pa r + (va - r_va r) /\
  PTE_FLAGS (region_pte r va) = Z.lor (r_perm r) PTE_V /\ valid (region_pte r va) = true.
Proof.
  intros [[A1 A2] [B1 [B2 B3]] [C1 [C2 C3]] D] Hc. unfold covers in Hc.
  destruct (mk_pte_ok (r_pa r + (va / PGSIZE - r_va r / PGSIZE) * PGSIZE) (r_perm r)) as (E1 & E2 & _ & E4); [|..].
  - change (2 ^ 56) with 72057594037927936 in *. unfold PGSIZE in *. divlia.
  - unfold PGSIZE in *. divlia.
  - done.
  - unfold region_pte. rewrite E1, E2, E4. split_and!; [|done|done]. unfold PGSIZE in *. divlia.
Qed.

Section VmKernel.

Variable kend : Z.
Hypothesis kend_range : KERNBASE <= kend <= PHYSTOP.

Local Notation vm_inv := (vm_inv kend).

(** [kvmmap] with enough free pages. *)
Lemma kvmmap_region s T l r fuel :
  vm_inv s T l -> region_ok r -> (forall va, covers r va -> valid (pte_of (ram s) T va) = false) ->
  (region_cost r <= length l)%nat -> (Z.to_nat (r_size r / PGSIZE) <= fuel)%nat ->
  exists s' T' l', kvmmap (pt_root T) (r_va r) (r_pa r) (r_size r) (r_perm r) fuel s = Done tt s' /\
    vm_inv s' T' l' /\ pt_root T' = pt_root T /\ (length l <= length l' + region_cost r)%nat /\
    forall va, 0 <= va < MAXVA -> pte_of (ram s') T' va = if bool_decide (covers r va) then region_pte r va else pte_of (ram s) T va.
Proof.
  intros Hi [[A1 A2] [B1 [B2 B3]] [C1 [C2 C3]] D] Hn Hc Hf.
  assert (forall va, (r_va r / PGSIZE <= va / PGSIZE <= (r_va r + r_size r - 1) / PGSIZE) <-> covers r va) as Hcov.
  { intros va. unfold covers, PGSIZE in *. divlia. }
  assert (S (extra_pages (r_va r) (r_size r)) = Z.to_nat (r_size r / PGSIZE)) as Hex.
  { unfold extra_pages, PGSIZE in *. divlia. }
  assert (range_cost T (r_va r) (r_va r + r_size r - 1) <= region_cost r)%nat as Hcost.
  { unfold range_cost, region_cost, table_cost. destruct (pt_l0 T !! _); lia. }
  destruct (mappages_spec kend kend_range s T l (r_va r) (r_size r) (r_pa r) (r_perm r) fuel Hi)
    as (x & s' & T' & l' & j & E & G & R); [done..| |lia|].
  { intros va Hva. apply Hn, Hcov, Hva. }
  destruct R as [(-> & -> & Hl)|(_ & _ & _ & _ & Hl)]; [|lia].
  exists s', T', l'. split; [by unfold kvmmap; rewrite (bind_Done _ _ _ _ _ E)|].
  split_and!; [apply G|apply G|lia|]. intros va Hva. rewrite (rm_pte _ _ _ _ _ _ _ _ G) by done.
  unfold edited, edit_range, region_pte. rewrite Hex.
  assert (covers r va <-> r_va r / PGSIZE <= va / PGSIZE < r_va r / PGSIZE + Z.of_nat (Z.to_nat (r_size r / PGSIZE))) as Hc'.
  { rewrite Z2Nat.id by (apply Z.div_pos; unfold PGSIZE; lia). unfold covers, PGSIZE in *. divlia. }
  case_bool_decide as Hd; rewrite Hc' in Hd; zcmp; exfalso; lia.
Qed.

Fixpoint kvmmaps (kernel_pagetable : Z) (rs : list region) (fuel : nat) (next : M kmem Z) : M kmem Z :=
  match rs with
  | [] => next
  | r :: rs' => kvmmap kernel_pagetable (r_va r) (r_pa r) (r_size r) (r_perm r) fuel ;;; kvmmaps kernel_pagetable rs' fuel next
  end.

Lemma kvmmaps_install rs fuel next : forall s T l,
  vm_inv s T l -> layout_ok rs -> (forall r va, r ∈ rs -> covers r va -> valid (pte_of (ram s) T va) = false) ->
  (layout_cost rs <= length l)%nat -> Forall (fun r => (Z.to_nat (r_size r / PGSIZE) <= fuel)%nat) rs ->
  exists s' T' l', kvmmaps (pt_root T) rs fuel next s = next s' /\
    vm_inv s' T' l' /\ pt_root T' = pt_root T /\
    forall va, 0 <= va < MAXVA -> pte_of (ram s') T' va = match mapping rs va with Some r => region_pte r va | None => pte_of (ram s) T va end.
Proof.
  induction rs as [|r rs IH]; intros s T l Hi Hok Hn Hc Hf; [by exists s, T, l|].
  destruct Hok as (Hr & Ha & Hok). apply Forall_cons in Hf as [Hf1 Hf]. cbn [layout_cost foldr] in Hc. fold (layout_cost rs) in Hc.
  destruct (kvmmap_region s T l r fuel Hi Hr) as (s1 & T1 & l1 & E & Hi1 & Ert & Hl & Hp); [|lia|done|].
  { intros va. apply Hn. left. }
  destruct (IH s1 T1 l1 Hi1 Hok) as (s' & T' & l' & E' & Hi' & Ert' & Hp'); [|lia|done|].
  { intros r' va Hr' Hc'. assert (region_ok r') as Hro.
    { clear -Hok Hr'. induction rs as [|x rs IH]; [by apply not_elem_of_nil in Hr'|]. destruct Hok as (? & _ & ?).
      apply elem_of_cons in Hr' as [-> |]; [done|by apply IH]. }
    rewrite Hp by (destruct Hro as [[] _ [_ []] _]; unfold covers in Hc'; lia).
    case_bool_decide as Hd; [by destruct (Ha r' va Hr' Hd)|]. apply (Hn r'); [by right|done]. }
  exists s', T', l'. cbn [kvmmaps]. rewrite (bind_Done _ _ _ _ _ E), <- Ert. split_and!; [done|done|congruence|].
  intros va Hva. rewrite Hp' by done. cbn [mapping find]. fold (mapping rs va).
  case_bool_decide as Hd; [rewrite (mapping_cons_apart r rs va Ha Hd)|]; rewrite Hp by done; case_bool_decide; done.
Qed.

Section Layout.

Variables etext trampoline : Z.

(** What kernel.ld promises of its symbols. *)
Hypothesis text : KERNBASE < etext /\ etext mod PGSIZE = 0 /\ etext <= kend /\ etext < PHYSTOP.
Hypothesis tramp : KERNBASE <= trampoline /\ trampoline mod PGSIZE = 0 /\ trampoline + PGSIZE <= etext.

Lemma kernel_layout_ok : layout_ok (kernel_layout etext trampoline).
Proof.
  assert (PHYSTOP mod PGSIZE = 0) as Hp by done. assert (KERNBASE mod PGSIZE = 0) as Hk by done.
  change PHYSTOP with 2281701376 in *. change KERNBASE with 2147483648 in *.
  assert (forall va sz perm, 0 <= va -> va mod PGSIZE = 0 -> 0 < sz -> sz mod PGSIZE = 0 -> va + sz <= PHYSTOP -> 0 <= perm < 2 ^ 10 ->
    region_ok (mk_region va va sz perm)) as Hro.
  { intros va sz perm **. change PHYSTOP with 2281701376 in *.
    split; cbn [r_va r_pa r_size r_perm]; split_and!; try done; change MAXVA with 274877906944; unfold PGSIZE in *; lia. }
  cbn [layout_ok kernel_layout]. split_and!.
  all: try (apply Hro; first [done|unfold PGSIZE in *; change PHYSTOP with 2281701376; change KERNBASE with 2147483648; first [lia|divlia]]).
  all: try (intros r' va Hr'; repeat (apply elem_of_cons in Hr' as [-> | Hr']); try (by apply not_elem_of_nil in Hr'); unfold covers; cbn [r_va r_size];
    unfold UART0, VIRTIO0, CLINT, PLIC, PGSIZE in *; change TRAMPOLINE with 274877902848; change PHYSTOP with 2281701376; change KERNBASE with 2147483648; lia).
  2: done.
  split; cbn [r_va r_pa r_size r_perm]; split_and!; try done; unfold PGSIZE in *; lia.
Qed.

Lemma kernel_layout_cost : (layout_cost (kernel_layout etext trampoline) <= 142)%nat.
Proof.
  unfold layout_cost, kernel_layout, region_cost. cbn [foldr r_va r_size].
  change (Z.to_nat ((UART0 + PGSIZE - 1) / 2 ^ 21 - UART0 / 2 ^ 21)) with 0%nat.
  change (Z.to_nat ((VIRTIO0 + PGSIZE - 1) / 2 ^ 21 - VIRTIO0 / 2 ^ 21)) with 0%nat.
  change (Z.to_nat ((CLINT + 65536 - 1) / 2 ^ 21 - CLINT / 2 ^ 21)) with 0%nat.
  change (Z.to_nat ((PLIC + 4194304 - 1) / 2 ^ 21 - PLIC / 2 ^ 21)) with 1%nat.
  change (Z.to_nat ((TRAMPOLINE + PGSIZE - 1) / 2 ^ 21 - TRAMPOLINE / 2 ^ 21)) with 0%nat.
  replace (KERNBASE + (etext - KERNBASE) - 1) with (etext - 1) by lia. replace (etext + (PHYSTOP - etext) - 1) with (PHYSTOP - 1) by lia.
  change (KERNBASE / 2 ^ 21) with 1024. change ((PHYSTOP - 1) / 2 ^ 21) with 1087.
  assert (1024 <= (etext - 1) / 2 ^ 21 <= etext / 2 ^ 21 /\ etext / 2 ^ 21 <= 1087) as [H1 H2].
  { change KERNBASE with 2147483648 in *. change PHYSTOP with 2281701376 in *. change (2 ^ 21) with 2097152. divlia. }
  revert H1 H2. generalize ((etext - 1) / 2 ^ 21), (etext / 2 ^ 21). lia.
Qed.

(** [kvmpa] follows a valid entry. *)
Lemma kvmpa_follows s T l va : vm_inv s T l -> 0 <= va < MAXVA -> valid (pte_of (ram s) T va) = true ->
  kvmpa (pt_root T) va s = Done (u64 (PTE2PA (pte_of (ram s) T va) + va mod PGSIZE)) s.
Proof.
  intros Hi Hva Hv. unfold kvmpa. rewrite (bind_Done _ _ _ _ _ (walk_noalloc kend kend_range s T va (vm_rep _ _ _ _ Hi) Hva)).
  destruct (Z.eqb_spec (pte_addr T va) 0) as [Ez|Enz].
  { by rewrite (pte_addr_zero kend kend_range _ _ _ (vm_rep _ _ _ _ Hi) Ez) in Hv. }
  unfold read_pte, gets, bind. cbn [obind]. rewrite (pte_addr_load kend _ _ _ (vm_rep _ _ _ _ Hi) Enz).
  destruct (Z.eqb_spec (Z.land (pte_of (ram s) T va) PTE_V) 0) as [E|]; [unfold valid in Hv; by rewrite E in Hv|done].
Qed.

(** What the kernel's page table says: the layout and nothing else. *)
Record kernel_table (s : kmem) (T : ptree) : Prop := {
  kt_in r va : r ∈ kernel_layout etext trampoline -> covers r va ->
    kvmpa (pt_root T) va s = Done (r_pa r + (va - r_va r)) s /\ PTE_FLAGS (pte_of (ram s) T va) = Z.lor (r_perm r) PTE_V;
  kt_out va : 0 <= va < MAXVA -> (forall r, r ∈ kernel_layout etext trampoline -> ~ covers r va) -> valid (pte_of (ram s) T va) = false;
}.

Lemma layout_region rs r : layout_ok rs -> r ∈ rs -> region_ok r.
Proof.
  induction rs as [|x rs IH]; intros Hok Hr; [by apply not_elem_of_nil in Hr|]. destruct Hok as (? & _ & ?).
  apply elem_of_cons in Hr as [-> |]; [done|by apply IH].
Qed.

Lemma layout_mapping rs r va : layout_ok rs -> r ∈ rs -> covers r va -> mapping rs va = Some r.
Proof.
  induction rs as [|x rs IH]; intros Hok Hr Hc; [by apply not_elem_of_nil in Hr|]. destruct Hok as (_ & Ha & Hok).
  cbn [mapping find]. fold (mapping rs va). apply elem_of_cons in Hr as [-> | Hr]; case_bool_decide as Hd; try done.
  - by destruct (Ha r va Hr Hd).
  - by apply IH.
Qed.

Lemma kvminit_spec s l fuel :
  kmem_inv kend s l -> (143 <= length l)%nat -> (kinit_fuel <= fuel)%nat ->
  exists s' T' l', kvminit etext trampoline fuel s = Done (pt_root T') s' /\ vm_inv s' T' l' /\ kernel_table s' T'.
Proof.
  intros Hk Hl Hf. destruct l as [|p l]; [cbn in Hl; lia|]. cbn [length] in Hl.
  destruct (uvmcreate_spec kend kend_range s l p Hk) as (s1 & E & Hi & _).
  pose proof kernel_layout_ok as Hok. pose proof kernel_layout_cost as Hc.
  destruct (kvmmaps_install (kernel_layout etext trampoline) fuel (ret p) s1 (empty_tree p) l Hi Hok) as (s' & T' & l' & E' & Hi' & Er & Hp).
  - intros r va _ _. by rewrite pte_of_empty.
  - lia.
  - apply Forall_forall. intros r Hr. etrans; [|exact Hf]. unfold kinit_fuel. apply Z2Nat.inj_le; [|done|].
    + apply Z.div_pos; [|done]. pose proof (ro_size _ (layout_region _ _ Hok Hr)). lia.
    + apply Z.div_le_mono; [done|]. change PHYSTOP with 2281701376 in *. change KERNBASE with 2147483648 in *.
      repeat (apply elem_of_cons in Hr as [-> | Hr]); [..|by apply not_elem_of_nil in Hr]; cbn [r_size];
        change PHYSTOP with 2281701376 in *; change KERNBASE with 2147483648 in *; unfold PGSIZE in *; lia.
  - exists s', T', l'. cbn [pt_root empty_tree] in Er. split_and!; [|done|].
    + rewrite Er. unfold uvmcreate in E. unfold kvminit.
      destruct (kalloc_spec kend kend_range s (p :: l) Hk) as (s0 & E0 & _).
      rewrite (bind_Done _ _ _ _ _ E0) in E. rewrite (bind_Done _ _ _ _ _ E0). destruct (Z.eqb_spec p 0); [discriminate|].
      rewrite (bind_Done _ _ s0 tt (set_ram (memset (ram s0) p 0 PGSIZE) s0)) in E by done.
      rewrite (bind_Done _ _ s0 tt (set_ram (memset (ram s0) p 0 PGSIZE) s0)) by done.
      injection E as <-. exact E'.
    + assert (forall r va, r ∈ kernel_layout etext trampoline -> covers r va -> 0 <= va < MAXVA /\ pte_of (ram s') T' va = region_pte r va) as Hin.
      { intros r va Hr Hcv. assert (0 <= va < MAXVA) as Hva by (destruct (layout_region _ _ Hok Hr) as [[] _ [_ []] _]; unfold covers in Hcv; lia).
        split; [done|]. by rewrite Hp, (layout_mapping _ r va Hok Hr Hcv). }
      split.
      * intros r va Hr Hcv. destruct (Hin r va Hr Hcv) as [Hva Hpt].
        pose proof (layout_region _ _ Hok Hr) as Hro. destruct (region_pte_ok r va Hro Hcv) as (P1 & P2 & P3).
        rewrite (kvmpa_follows s' T' l' va Hi' Hva) by (by rewrite Hpt). rewrite Hpt, P1, P2. split; [|done].
        rewrite u64_small; [done|]. destruct Hro as [_ [? []] _ _]. unfold covers in Hcv. change (2 ^ 56) with 72057594037927936 in *. unfold PGSIZE in *. lia.
      * intros va Hva Hno. rewrite Hp by done. destruct (mapping _ va) as [r|] eqn:E1; [|by rewrite pte_of_empty].
        apply mapping_in in E1 as [H1 H2]. by destruct (Hno r H1).
Qed.

Lemma free_pages_enough l n : (forall p, page_ok kend p -> p ∈ l) -> kend + Z.of_nat n * PGSIZE <= PHYSTOP -> (n <= length l)%nat.
Proof.
  intros Hl Hn. set (pages := (fun k => PHYSTOP - (k + 1) * PGSIZE) <$> seqZ 0 (Z.of_nat n)).
  assert (length pages = n) as Hlen by (unfold pages; rewrite length_fmap, length_seqZ; lia).
  rewrite <- Hlen. apply submseteq_length, NoDup_submseteq.
  - apply (NoDup_fmap_2_strong _ _); [|apply NoDup_seqZ]. intros x y _ _ H. unfold PGSIZE in H. lia.
  - intros p (k & -> & Hk%elem_of_seqZ)%list_elem_of_fmap. apply Hl. assert (PHYSTOP mod PGSIZE = 0) as Hp by done.
    split; [|unfold PGSIZE in *; lia]. revert Hp. generalize PHYSTOP. intros z Hz. unfold PGSIZE in *. divlia.
Qed.

Lemma layout_perm r : r ∈ kernel_layout etext trampoline -> Z.land (Z.lor (r_perm r) PTE_V) (Z.lor PTE_W PTE_X) <> Z.lor PTE_W PTE_X.
Proof. intros Hr. repeat (apply elem_of_cons in Hr as [-> | Hr]); [done..|by apply not_elem_of_nil in Hr]. Qed.

(** [C13] Starting the memory of the kernel, [kinit] and then [kvminit], does
    not panic when 143 pages are left behind the kernel image.  In the page
    table it builds every address of the layout (the devices, the text, the
    data with all of physical memory, the trampoline) translates by [kvmpa] to
    its physical address, with the permissions of its range; no other address
    is mapped, no page is both writable and executable, and the memory that
    [kalloc] hands out is mapped to itself. *)
Theorem kvminit_maps_kernel s fuel :
  freelist s = 0 -> kend + 143 * PGSIZE <= PHYSTOP -> (kinit_fuel <= fuel)%nat ->
  exists s' T l, (kinit kend kinit_fuel ;;; kvminit etext trampoline fuel) s = Done (pt_root T) s' /\
    vm_inv s' T l /\ kernel_table s' T /\
    (forall va, 0 <= va < MAXVA -> valid (pte_of (ram s') T va) = true ->
       Z.land (PTE_FLAGS (pte_of (ram s') T va)) (Z.lor PTE_W PTE_X) <> Z.lor PTE_W PTE_X) /\
    (forall a, kend <= a < PHYSTOP -> kvmpa (pt_root T) a s' = Done a s').
Proof.
  intros Hz Hroom Hf. destruct (kinit_spec kend kend_range s Hz) as (s1 & l & E & Hk & Hl).
  destruct (kvminit_spec s1 l fuel Hk) as (s' & T & l' & E' & Hi & Ht); [|done|].
  { apply free_pages_enough; [by intros p; apply Hl|done]. }
  exists s', T, l'. rewrite (bind_Done _ _ _ _ _ E). split_and!; [done|done|done| |].
  - intros va Hva Hv. destruct (mapping (kernel_layout etext trampoline) va) as [r|] eqn:Em.
    + apply mapping_in in Em as [Hr Hc]. rewrite (proj2 (kt_in _ _ Ht r va Hr Hc)). by apply layout_perm.
    + rewrite (kt_out _ _ Ht va Hva) in Hv; [done|]. by apply mapping_none.
  - intros a Ha. destruct (kt_in _ _ Ht (mk_region etext etext (PHYSTOP - etext) (Z.lor PTE_R PTE_W)) a) as [Hp _].
    + unfold kernel_layout. rewrite !elem_of_cons. tauto.
    + unfold covers. cbn [r_va r_size]. lia.
    + rewrite Hp. cbn [r_pa r_va]. f_equal. lia.
Qed.

End Layout.

End VmKernel.

(** A kernel image of 32 pages of text and 32 pages of data. *)
Definition image_etext : Z := KERNBASE + 32 * PGSIZE.
Definition image_end : Z := KERNBASE + 64 * PGSIZE.

Lemma kvminit_maps_kernel_witness : exists s' pt,
  (kinit image_end kinit_fuel ;;; kvminit image_etext (image_etext - PGSIZE) kinit_fuel) boot_kmem = Done pt s' /\
  kvmpa pt (UART0 + 5) s' = Done (UART0 + 5) s' /\ kvmpa pt (TRAMPOLINE + 8) s' = Done (image_etext - PGSIZE + 8) s' /\
  kvmpa pt (image_end + 1) s' = Done (image_end + 1) s'.
Proof.
  destruct (kvminit_maps_kernel image_end ltac:(by vm_compute) image_etext (image_etext - PGSIZE) ltac:(by vm_compute) ltac:(by vm_compute)
    boot_kmem kinit_fuel ltac:(reflexivity) ltac:(by vm_compute) (le_n _)) as (s' & T & l & E & _ & Ht & _ & Hp).
  exists s', (pt_root T). split; [exact E|]. split; [|split].
  - destruct (kt_in _ _ _ _ Ht (mk_region UART0 UART0 PGSIZE (Z.lor PTE_R PTE_W)) (UART0 + 5)) as [-> _]; [left|vm_compute; split; congruence|].
    reflexivity.
  - destruct (kt_in _ _ _ _ Ht (mk_region TRAMPOLINE (image_etext - PGSIZE) PGSIZE (Z.lor PTE_R PTE_X)) (TRAMPOLINE + 8)) as [-> _].
    + unfold kernel_layout. rewrite !elem_of_cons. tauto.
    + vm_compute; split; congruence.
    + reflexivity.
  - apply Hp. vm_compute. split; congruence.
Defined.
