(* ===== verification/Sleeplock.v ===== *)
(** * Sleep locks: kernel/sleeplock.c

    A sleep lock is a component of a larger state, reached through a lens;
    [pid] is the process id of the caller ([myproc()->pid]). *)

From S2P Require Import Prelude.

Record sleeplock := mk_sleeplock { sl_lk : bool; sl_locked : bool; sl_pid : Z }.

Definition set_sl_lk (b : bool) (l : sleeplock) : sleeplock := mk_sleeplock b (sl_locked l) (sl_pid l).
Definition set_sl_owner (b : bool) (pid : Z) (l : sleeplock) : sleeplock := mk_sleeplock (sl_lk l) b pid.

(** [initsleeplock]; the names are only used for debugging. *)
Definition initsleeplock : sleeplock := mk_sleeplock false false 0.

Section Sleeplock.

Context {S : Type} (get : S -> sleeplock) (set : sleeplock -> S -> S).
Context (chan pid : Z).

Definition lk_get (s : S) : bool := sl_lk (get s).
Definition lk_set (b : bool) (s : S) : S := set (set_sl_lk b (get s)) s.

(** [while (lk->locked) sleep(lk, &lk->lk)]; the fuel bounds the wake-ups. *)
Fixpoint acquiresleep_loop (fuel : nat) : M S unit :=
  l <- gets (fun s => sl_locked (get s)) ;;
  if (l : bool) then
    match fuel with
    | O => exhausted
    | Datatypes.S f => sleep_lk lk_get lk_set chan ;;; acquiresleep_loop f
    end
  else ret tt.

Definition acquiresleep (fuel : nat) : M S unit :=
  acquire_lk lk_get lk_set ;;;
  acquiresleep_loop fuel ;;;
  modify (fun s => set (set_sl_owner true pid (get s)) s) ;;;
  release_lk lk_get lk_set.

Definition releasesleep : M S unit :=
  acquire_lk lk_get lk_set ;;;
  modify (fun s => set (set_sl_owner false 0 (get s)) s) ;;;
  wakeup_chan chan ;;;
  release_lk lk_get lk_set.

Definition holdingsleep : M S bool :=
  acquire_lk lk_get lk_set ;;;
  r <- gets (fun s => sl_locked (get s) && (sl_pid (get s) =? pid)) ;;
  release_lk lk_get lk_set ;;;
  ret r.

Context `{!Lens get set}.

Lemma set_lk_id s l : set l (set l s) = set l s.
Proof. apply lens_set_set. Qed.

Lemma acquiresleep_free s fuel :
  sl_lk (get s) = false -> sl_locked (get s) = false ->
  acquiresleep fuel s = Done tt (set (mk_sleeplock false true pid) s).
Proof.
  intros H1 H2. unfold acquiresleep, acquire_lk, release_lk, lk_get, lk_set, modify, bind.
  rewrite H1. cbn [obind]. destruct fuel; cbn [acquiresleep_loop]; unfold gets, bind, ret; cbn [obind];
    rewrite !lens_get_set; cbn; rewrite H2; cbn; rewrite !lens_get_set; cbn; by rewrite !lens_set_set.
Qed.

(** A held lock makes the caller wait, whatever it does next. *)
Lemma acquiresleep_held s fuel :
  sl_lk (get s) = false -> sl_locked (get s) = true ->
  exists k, acquiresleep (Datatypes.S fuel) s = Sleeping chan s k.
Proof.
  intros H1 H2. unfold acquiresleep, acquire_lk, release_lk, modify, bind.
  unfold lk_get at 1. rewrite H1. cbn [obind acquiresleep_loop].
  unfold gets, bind. cbn [obind]. unfold lk_set at 1. rewrite !lens_get_set. cbn [sl_locked set_sl_lk]. rewrite H2.
  unfold sleep_lk, release_lk, bind, sleep_on. unfold lk_get at 1, lk_set at 1 2. rewrite !lens_get_set.
  cbn [sl_lk set_sl_lk obind]. eexists. f_equal. unfold lk_set. rewrite !lens_get_set, !lens_set_set.
  destruct (get s) as [a b c] eqn:E; simpl in *; subst. unfold set_sl_lk. simpl. rewrite <- E. apply lens_set_get.
Qed.

Lemma releasesleep_spec s :
  sl_lk (get s) = false -> releasesleep s = Done tt (set (mk_sleeplock false false 0) s).
Proof.
  intros H1. unfold releasesleep, acquire_lk, release_lk, lk_get, lk_set, modify, wakeup_chan, ret, bind.
  rewrite H1. cbn. rewrite !lens_get_set. cbn. by rewrite !lens_set_set.
Qed.

Lemma holdingsleep_spec s :
  sl_lk (get s) = false -> holdingsleep s = Done (sl_locked (get s) && (sl_pid (get s) =? pid)) s.
Proof.
  intros H1. unfold holdingsleep, acquire_lk, release_lk, lk_get, lk_set, gets, ret, bind.
  rewrite H1. cbn. rewrite !lens_get_set. cbn. rewrite !lens_set_set. f_equal.
  destruct (get s) as [a b c] eqn:E; simpl in *; subst. unfold set_sl_lk. simpl. rewrite <- E. apply lens_set_get.
Qed.

End Sleeplock.
