(* ===== verification/BlockLayer.v ===== *)
(** * What the buffer cache promises to the log and the file system

    The abstract state of the block layer: the disk, the contents clients
    see, reference counts, the buffers the running process holds, and the
    history of disk writes.  [BlockLayer] is the interface: the operations of
    kernel/bio.c on buffers (named by handles) with one law per operation.
    Log.v is proved against it; Bio.v implements it. *)

From S2P Require Import Prelude CMem Riscv.

(** ** kernel/fs.h *)

Definition BSIZE : Z := 1024.

Definition block : Type := list byte.

Record blocks := mk_blocks {
  a_disk : Z -> block;
  a_cache : Z -> block;
  a_refs : gmap Z Z;
  a_held : gmap Z nat;
  a_writes : list (Z * block);
}.

Definition refs (a : blocks) (b : Z) : Z := default 0 (a_refs a !! b).

Definition with_refs (f : gmap Z Z -> gmap Z Z) (a : blocks) : blocks :=
  mk_blocks (a_disk a) (a_cache a) (f (a_refs a)) (a_held a) (a_writes a).

(** Reference counts are 32-bit; a block with count 0 has no entry. *)
Definition set_count (b c : Z) (m : gmap Z Z) : gmap Z Z :=
  if u32 c =? 0 then delete b m else <[b := u32 c]> m.

Definition add_ref (b d : Z) (a : blocks) : blocks := with_refs (set_count b (refs a b + d)) a.

Definition hold (b : Z) (h : nat) (a : blocks) : blocks :=
  mk_blocks (a_disk a) (a_cache a) (a_refs a) (<[b := h]> (a_held a)) (a_writes a).
Definition unhold (b : Z) (a : blocks) : blocks :=
  mk_blocks (a_disk a) (a_cache a) (a_refs a) (delete b (a_held a)) (a_writes a).
Definition put_cache (b : Z) (d : block) (a : blocks) : blocks :=
  mk_blocks (a_disk a) (fset (a_cache a) b d) (a_refs a) (a_held a) (a_writes a).
Definition put_disk (b : Z) (d : block) (a : blocks) : blocks :=
  mk_blocks (fset (a_disk a) b d) (a_cache a) (a_refs a) (a_held a) (a_writes a ++ [(b, d)]).

(** The state after a reboot with disk contents [d]. *)
Definition booted (d : Z -> block) : blocks := mk_blocks d d ∅ ∅ [].

(** A buffer that is held but has reference count 0 could be recycled under
    its holder. *)
Definition no_hazard (a : blocks) : Prop :=
  forall b h, a_held a !! b = Some h -> refs a b <> 0.

(** There is room to cache block [b]. *)
Definition room (a : blocks) (b : Z) : Prop :=
  refs a b <> 0 \/ Z.of_nat (size (a_refs a)) < NBUF.

Class BlockLayer (S : Type) := {
  bread : Z -> Z -> M S nat;
  bwrite : nat -> M S unit;
  brelse : nat -> M S unit;
  bpin : nat -> M S unit;
  bunpin : nat -> M S unit;
  (** [b->data], [b->blockno], and a change of [b->data] in place *)
  bdata : nat -> M S block;
  bblockno : nat -> M S Z;
  bmodify : nat -> (block -> block) -> M S unit;
  boot : (Z -> block) -> S;
  (** the device number of the disk *)
  bl_dev : Z;
  bl_rep : S -> blocks -> Prop;

  boot_law d : bl_rep (boot d) (booted d);
  refs_law s a b c : bl_rep s a -> a_refs a !! b = Some c -> 0 < c < 2 ^ 32;
  (** reading a block returns a buffer with its contents, held and counted *)
  bread_law s a b :
    bl_rep s a -> a_held a !! b = None -> no_hazard a -> room a b ->
    exists h s', bread bl_dev b s = Done h s' /\ bl_rep s' (hold b h (add_ref b 1 a));
  bdata_law s a b h :
    bl_rep s a -> a_held a !! b = Some h -> bdata h s = Done (a_cache a b) s;
  bblockno_law s a b h :
    bl_rep s a -> a_held a !! b = Some h -> bblockno h s = Done b s;
  bmodify_law s a b h f :
    bl_rep s a -> a_held a !! b = Some h ->
    exists s', bmodify h f s = Done tt s' /\ bl_rep s' (put_cache b (f (a_cache a b)) a);
  bwrite_law s a b h :
    bl_rep s a -> a_held a !! b = Some h ->
    exists s', bwrite h s = Done tt s' /\ bl_rep s' (put_disk b (a_cache a b) a);
  (** giving up the last reference to a buffer that differs from the disk
      would lose the difference *)
  brelse_law s a b h :
    bl_rep s a -> a_held a !! b = Some h ->
    u32 (refs a b - 1) <> 0 \/ a_cache a b = a_disk a b ->
    exists s', brelse h s = Done tt s' /\ bl_rep s' (unhold b (add_ref b (-1) a));
  bpin_law s a b h :
    bl_rep s a -> a_held a !! b = Some h ->
    exists s', bpin h s = Done tt s' /\ bl_rep s' (add_ref b 1 a);
  bunpin_law s a b h :
    bl_rep s a -> a_held a !! b = Some h ->
    exists s', bunpin h s = Done tt s' /\ bl_rep s' (add_ref b (-1) a);
}.
