(* ===== verification/Bio.v ===== *)
(** * Buffer cache: kernel/bio.c

    The NBUF buffers are a table indexed by number; entry [NBUF] is the list
    head [bcache.head].  The doubly linked list is kept in the [prev]/[next]
    fields as in the source.  [virtio_disk_rw] is an atomic transfer between
    a buffer and the disk, and every disk write is recorded in order. *)

From Stdlib Require Import FunctionalExtensionality.
From S2P Require Import Prelude CMem Riscv Sleeplock BlockLayer.

Record buf := mk_buf {
  b_valid : bool;
  b_dev : Z;
  b_blockno : Z;
  b_lock : sleeplock;
  b_refcnt : Z;
  b_prev : nat;
  b_next : nat;
  b_data : block;
}.

Record bio := mk_bio {
  bc_lock : bool;
  bufs : nat -> buf;
  disk : Z -> block;
  writes : list (Z * block);
}.

Definition nbuf : nat := Z.to_nat NBUF.
Definition head : nat := nbuf.

Definition set_bc_lock (b : bool) (s : bio) : bio := mk_bio b (bufs s) (disk s) (writes s).
Definition set_bufs (t : nat -> buf) (s : bio) : bio := mk_bio (bc_lock s) t (disk s) (writes s).
Definition upd_buf (i : nat) (f : buf -> buf) (s : bio) : bio :=
  set_bufs (fset (bufs s) i (f (bufs s i))) s.

Definition with_valid (v : bool) (b : buf) : buf :=
  mk_buf v (b_dev b) (b_blockno b) (b_lock b) (b_refcnt b) (b_prev b) (b_next b) (b_data b).
Definition with_lock (l : sleeplock) (b : buf) : buf :=
  mk_buf (b_valid b) (b_dev b) (b_blockno b) l (b_refcnt b) (b_prev b) (b_next b) (b_data b).
Definition with_refcnt (n : Z) (b : buf) : buf :=
  mk_buf (b_valid b) (b_dev b) (b_blockno b) (b_lock b) (u32 n) (b_prev b) (b_next b) (b_data b).
Definition with_prev (p : nat) (b : buf) : buf :=
  mk_buf (b_valid b) (b_dev b) (b_blockno b) (b_lock b) (b_refcnt b) p (b_next b) (b_data b).
Definition with_next (n : nat) (b : buf) : buf :=
  mk_buf (b_valid b) (b_dev b) (b_blockno b) (b_lock b) (b_refcnt b) (b_prev b) n (b_data b).
Definition with_data (d : block) (b : buf) : buf :=
  mk_buf (b_valid b) (b_dev b) (b_blockno b) (b_lock b) (b_refcnt b) (b_prev b) (b_next b) d.
(** the recycling assignments of [bget] *)
Definition recycled (dev blockno : Z) (b : buf) : buf :=
  mk_buf false dev blockno (b_lock b) 1 (b_prev b) (b_next b) (b_data b).

Definition bc_acquire : M bio unit := acquire_lk bc_lock set_bc_lock.
Definition bc_release : M bio unit := release_lk bc_lock set_bc_lock.

(** Address used as sleep channel of a buffer's lock. *)
Definition buf_chan (i : nat) : Z := Z.of_nat i.

Section Bio.

(** The running process. *)
Variable pid : Z.

Definition get_block_lock (i : nat) (s : bio) : sleeplock := b_lock (bufs s i).
Definition set_block_lock (i : nat) (l : sleeplock) (s : bio) : bio := upd_buf i (with_lock l) s.

Definition lock_buf (i : nat) (fuel : nat) : M bio unit :=
  acquiresleep (get_block_lock i) (set_block_lock i) (buf_chan i) pid fuel.
Definition unlock_buf (i : nat) : M bio unit :=
  releasesleep (get_block_lock i) (set_block_lock i) (buf_chan i).
Definition holding_buf (i : nat) : M bio bool :=
  holdingsleep (get_block_lock i) (set_block_lock i) pid.

(** ** Operations *)

(** One iteration of the loop of [binit]. *)
Definition binit_link (i : nat) : M bio unit :=
  h1 <- gets (fun s => b_next (bufs s head)) ;;
  modify (upd_buf i (with_next h1)) ;;;
  modify (upd_buf i (with_prev head)) ;;;
  modify (upd_buf i (with_lock initsleeplock)) ;;;
  modify (upd_buf h1 (with_prev i)) ;;;
  modify (upd_buf head (with_next i)).

Fixpoint binit_loop (i : nat) (left : nat) : M bio unit :=
  match left with
  | O => ret tt
  | S left' => binit_link i ;;; binit_loop (S i) left'
  end.

Definition binit : M bio unit :=
  modify (set_bc_lock false) ;;;
  modify (upd_buf head (with_prev head)) ;;;
  modify (upd_buf head (with_next head)) ;;;
  binit_loop 0 nbuf.

(** The two scans of [bget]: follow [next] (or [prev]) from [i] to the head
    for the first buffer that satisfies the test. *)
Fixpoint scan (t : nat -> buf) (follow : buf -> nat) (test : buf -> bool) (i : nat) (fuel : nat)
  : option (option nat) :=
  if (i =? head)%nat then Some None else
  if test (t i) then Some (Some i) else
  match fuel with
  | O => None
  | S f => scan t follow test (follow (t i)) f
  end.

Definition is_block (dev blockno : Z) (b : buf) : bool := (b_dev b =? dev) && (b_blockno b =? blockno).
Definition is_unused (b : buf) : bool := b_refcnt b =? 0.

(** The fuel of a scan is the number of buffers; [fuel] bounds the wake-ups
    while waiting for the buffer's lock. *)
Definition bget (dev blockno : Z) (fuel : nat) : M bio nat :=
  bc_acquire ;;;
  t <- gets bufs ;;
  match scan t b_next (is_block dev blockno) (b_next (t head)) nbuf with
  | None => exhausted
  | Some (Some i) =>
      modify (upd_buf i (fun b => with_refcnt (b_refcnt b + 1) b)) ;;;
      bc_release ;;;
      lock_buf i fuel ;;;
      ret i
  | Some None =>
      match scan t b_prev is_unused (b_prev (t head)) nbuf with
      | None => exhausted
      | Some (Some i) =>
          modify (upd_buf i (recycled dev blockno)) ;;;
          bc_release ;;;
          lock_buf i fuel ;;;
          ret i
      | Some None => panic "bget: no buffers"
      end
  end.

(** The effect of [virtio_disk_rw(b, write)]. *)
Definition disk_rw (i : nat) (write : bool) : M bio unit :=
  modify (fun s =>
    let b := bufs s i in
    if write then mk_bio (bc_lock s) (bufs s) (fset (disk s) (b_blockno b) (b_data b))
                    (writes s ++ [(b_blockno b, b_data b)])
    else upd_buf i (with_data (disk s (b_blockno b))) s).

Definition bio_bread (dev blockno : Z) (fuel : nat) : M bio nat :=
  i <- bget dev blockno fuel ;;
  v <- gets (fun s => b_valid (bufs s i)) ;;
  (if negb v then disk_rw i false ;;; modify (upd_buf i (with_valid true)) else ret tt) ;;;
  ret i.

Definition bio_bwrite (i : nat) : M bio unit :=
  h <- holding_buf i ;;
  if negb h then panic "bwrite" else disk_rw i true.

(** The list surgery of [brelse]. *)
Definition to_front (i : nat) : M bio unit :=
  n <- gets (fun s => b_next (bufs s i)) ;;
  p <- gets (fun s => b_prev (bufs s i)) ;;
  modify (upd_buf n (with_prev p)) ;;;
  modify (upd_buf p (with_next n)) ;;;
  f <- gets (fun s => b_next (bufs s head)) ;;
  modify (upd_buf i (with_next f)) ;;;
  modify (upd_buf i (with_prev head)) ;;;
  modify (upd_buf f (with_prev i)) ;;;
  modify (upd_buf head (with_next i)).

Definition bio_brelse (i : nat) : M bio unit :=
  h <- holding_buf i ;;
  if negb h then panic "brelse" else
  unlock_buf i ;;;
  bc_acquire ;;;
  modify (upd_buf i (fun b => with_refcnt (b_refcnt b - 1) b)) ;;;
  r <- gets (fun s => b_refcnt (bufs s i)) ;;
  (if r =? 0 then to_front i else ret tt) ;;;
  bc_release.

Definition bio_bpin (i : nat) : M bio unit :=
  bc_acquire ;;; modify (upd_buf i (fun b => with_refcnt (b_refcnt b + 1) b)) ;;; bc_release.

Definition bio_bunpin (i : nat) : M bio unit :=
  bc_acquire ;;; modify (upd_buf i (fun b => with_refcnt (b_refcnt b - 1) b)) ;;; bc_release.

(** ** The list *)

(** The links run from [x] through [l] to [y]. *)
Fixpoint dll (t : nat -> buf) (x : nat) (l : list nat) (y : nat) : Prop :=
  match l with
  | [] => b_next (t x) = y /\ b_prev (t y) = x
  | z :: l' => b_next (t x) = z /\ b_prev (t z) = x /\ dll t z l' y
  end.

Lemma dll_app t l1 : forall x z l2 y, dll t x (l1 ++ z :: l2) y <-> dll t x l1 z /\ dll t z l2 y.
Proof. induction l1 as [|w l1 IH]; intros x z l2 y; simpl; [|rewrite IH]; tauto. Qed.

(** The links between [x] and [y] do not depend on other entries. *)
Lemma dll_ext t t' l : forall x y,
  (forall i, i = x \/ i ∈ l -> b_next (t' i) = b_next (t i)) ->
  (forall i, i = y \/ i ∈ l -> b_prev (t' i) = b_prev (t i)) ->
  dll t x l y -> dll t' x l y.
Proof.
  induction l as [|z l IH]; intros x y Hn Hp; simpl.
  - rewrite Hn by (by left). rewrite Hp by (by left). done.
  - intros (H1 & H2 & H3). rewrite Hn by (by left). rewrite Hp by (right; left).
    split_and!; [done|done|]. apply IH; [|..|done].
    + intros i [->|Hi]; apply Hn; right; [left|by right].
    + intros i [->|Hi]; apply Hp; [by left|right; by right].
Qed.

Definition first (l : list nat) (y : nat) : nat := hd y l.

Lemma dll_next t x l y : dll t x l y -> b_next (t x) = first l y.
Proof. destruct l; simpl; tauto. Qed.

(** A scan along [next] is a search of the list. *)
Lemma scan_next t test l : forall x fuel,
  dll t x l head -> head ∉ l -> (length l <= fuel)%nat ->
  scan t b_next test (b_next (t x)) fuel = Some (List.find (fun i => test (t i)) l).
Proof.
  induction l as [|z l IH]; intros x fuel Hd Hh Hf.
  - destruct Hd as [-> _]. destruct fuel; cbn [scan]; by rewrite Nat.eqb_refl.
  - destruct Hd as (-> & _ & Hd). apply not_elem_of_cons in Hh as [Hz Hh].
    destruct fuel as [|fuel]; [simpl in Hf; lia|]. cbn [scan List.find].
    destruct (Nat.eqb_spec z head); [congruence|].
    destruct (test (t z)); [done|]. apply IH; [done|done|simpl in Hf; lia].
Qed.

Lemma scan_prev t test l : forall y fuel,
  dll t head l y -> head ∉ l -> (length l <= fuel)%nat ->
  scan t b_prev test (b_prev (t y)) fuel = Some (List.find (fun i => test (t i)) (reverse l)).
Proof.
  induction l as [|z l IH] using rev_ind; intros y fuel Hd Hh Hf.
  - destruct Hd as [_ ->]. destruct fuel; cbn [scan]; by rewrite Nat.eqb_refl.
  - apply dll_app in Hd as [Hd [_ ->]]. apply not_elem_of_app in Hh as [Hh Hz].
    rewrite list_elem_of_singleton in Hz. rewrite length_app in Hf. simpl in Hf.
    destruct fuel as [|fuel]; [lia|]. rewrite reverse_snoc. cbn [scan List.find].
    destruct (Nat.eqb_spec z head); [congruence|].
    destruct (test (t z)); [done|]. apply IH; [done|done|lia].
Qed.

(** ** The representation invariant *)

(** Everything but the links of a buffer. *)
Definition info (b : buf) := (b_valid b, b_dev b, b_blockno b, b_lock b, b_refcnt b, b_data b).

(** Buffer [i] caches block [blk]. *)
Record buf_ok (a : blocks) (blk : Z) (i : nat) (b : buf) : Prop := {
  ok_refcnt : b_refcnt b = refs a blk;
  ok_held : a_held a !! blk = if sl_locked (b_lock b) then Some i else None;
  ok_spin : sl_lk (b_lock b) = false;
  ok_owner : sl_locked (b_lock b) = true -> sl_pid (b_lock b) = pid /\ b_valid b = true;
  ok_data : if b_valid b then b_data b = a_cache a blk else a_cache a blk = a_disk a blk;
  ok_clean : b_refcnt b = 0 -> sl_locked (b_lock b) = false -> a_cache a blk = a_disk a blk;
}.

(** A buffer that has not been used since boot. *)
Definition buf_fresh (b : buf) : Prop :=
  b_dev b <> ROOTDEV /\ b_refcnt b = 0 /\ sl_locked (b_lock b) = false /\ sl_lk (b_lock b) = false.

Definition caches (s : bio) (i : nat) (blk : Z) : Prop :=
  (i < nbuf)%nat /\ b_dev (bufs s i) = ROOTDEV /\ b_blockno (bufs s i) = blk.

Definition linked (t : nat -> buf) : Prop := exists ord, dll t head ord head /\ ord ≡ₚ seq 0 nbuf.

Record bio_rep (s : bio) (a : blocks) : Prop := {
  r_lock : bc_lock s = false;
  r_linked : linked (bufs s);
  r_disk : disk s = a_disk a;
  r_writes : writes s = a_writes a;
  r_buf i : (i < nbuf)%nat ->
    b_dev (bufs s i) = ROOTDEV /\ buf_ok a (b_blockno (bufs s i)) i (bufs s i) \/ buf_fresh (bufs s i);
  r_uniq i j blk : caches s i blk -> caches s j blk -> i = j;
  r_uncached blk : (forall i, ~ caches s i blk) ->
    a_refs a !! blk = None /\ a_held a !! blk = None /\ a_cache a blk = a_disk a blk;
  r_range blk c : a_refs a !! blk = Some c -> 0 < c < 2 ^ 32;
}.

(** Two abstract states that agree on a block. *)
Definition agree (a a' : blocks) (blk : Z) : Prop :=
  a_refs a' !! blk = a_refs a !! blk /\ a_held a' !! blk = a_held a !! blk /\
  a_cache a' blk = a_cache a blk /\ a_disk a' blk = a_disk a blk.

Lemma buf_ok_agree a a' blk i b : agree a a' blk -> buf_ok a blk i b -> buf_ok a' blk i b.
Proof.
  intros (H1 & H2 & H3 & H4) [A B C D E F]. split; unfold refs in *; rewrite ?H1, ?H2, ?H3, ?H4; done.
Qed.

Lemma buf_ok_info a blk i b b' : info b' = info b -> buf_ok a blk i b -> buf_ok a blk i b'.
Proof.
  destruct b, b'. unfold info. simpl. intros [= -> -> -> -> -> ->] []. by split.
Qed.

Lemma buf_fresh_info b b' : info b' = info b -> buf_fresh b -> buf_fresh b'.
Proof. destruct b, b'. unfold info, buf_fresh. simpl. by intros [= -> -> -> -> -> ->]. Qed.

Lemma caches_info s s' i blk : info (bufs s' i) = info (bufs s i) -> caches s' i blk <-> caches s i blk.
Proof.
  unfold caches, info. intros H. injection H as _ H1 H2 _ _ _. by rewrite H1, H2.
Qed.

(** Buffer [i], and only it, comes to cache [blk] (it may have done so
    before), and nothing changes for blocks other than [blk] and the one [i]
    held before, which must be free to go. *)
Lemma rep_update s a s' a' i blk :
  bio_rep s a -> (i < nbuf)%nat ->
  bc_lock s' = false -> linked (bufs s') -> disk s' = a_disk a' -> writes s' = a_writes a' ->
  (forall j, j <> i -> (j < nbuf)%nat -> info (bufs s' j) = info (bufs s j)) ->
  caches s' i blk -> (forall j, caches s j blk -> j = i) ->
  (forall old, caches s i old -> old <> blk ->
     a_refs a !! old = None /\ a_held a !! old = None /\ a_cache a old = a_disk a old) ->
  (forall x, x <> blk -> agree a a' x) ->
  buf_ok a' blk i (bufs s' i) ->
  (forall c, a_refs a' !! blk = Some c -> 0 < c < 2 ^ 32) ->
  bio_rep s' a'.
Proof.
  intros R Hi Hl Hlk Hd Hw Hinfo Hc Huq Hold Hag Hok Hrg. split; try done.
  - intros j Hj. destruct (decide (j = i)) as [->|Hne].
    { left. destruct Hc as (_ & -> & ->). done. }
    pose proof (Hinfo j Hne Hj) as Ej. destruct (r_buf _ _ R j Hj) as [[Hdev Hb]|Hf].
    + left. assert (caches s j (b_blockno (bufs s j))) as Hcj by done.
      unfold info in Ej. injection Ej as E1 E2 E3 E4 E5 E6. rewrite E2, E3. split; [done|].
      apply (buf_ok_agree a); [apply Hag; intros <-; by apply Hne, Huq|].
      eapply buf_ok_info; [|done]. by apply Hinfo.
    + right. by eapply buf_fresh_info.
  - assert (forall j, caches s' j blk -> j = i) as Hblk.
    { intros j Hj. destruct (decide (j = i)) as [|Hne]; [done|].
      apply Huq. eapply caches_info; [|done]. symmetry. apply Hinfo; [done|apply Hj]. }
    intros j k x Hj Hk. destruct (decide (x = blk)) as [->|Hx]; [by rewrite (Hblk j), (Hblk k)|].
    assert (forall m, caches s' m x -> m <> i /\ caches s m x) as Hm.
    { intros m Hm. assert (m <> i) as Hne by (intros ->; destruct Hc as (_ & _ & ?), Hm as (_ & _ & ?); congruence).
      split; [done|]. eapply caches_info; [|done]. symmetry. apply Hinfo; [done|apply Hm]. }
    apply (r_uniq _ _ R j k x); by apply Hm.
  - intros x Hx. assert (x <> blk) as Hne by (intros ->; by apply (Hx i)).
    destruct (Hag x Hne) as (-> & -> & -> & ->).
    destruct (decide (caches s i x)) as [Hcx|Hncx].
    { by apply Hold. }
    apply (r_uncached _ _ R). intros j Hj. destruct (decide (j = i)) as [->|Hji]; [done|].
    apply (Hx j). eapply caches_info; [|done]. apply Hinfo; [done|apply Hj].
  - intros x c. destruct (decide (x = blk)) as [->|Hne]; [apply Hrg|].
    destruct (Hag x Hne) as (-> & _). apply (r_range _ _ R).
Qed.

#[local] Instance block_lens i : Lens (get_block_lock i) (set_block_lock i).
Proof.
  split; unfold get_block_lock, set_block_lock, upd_buf, set_bufs.
  - intros l s. cbn. by rewrite fset_eq.
  - intros [lk t d w]. cbn. f_equal. apply functional_extensionality. intros x.
    unfold fset. case_decide; [subst; by destruct (t i)|done].
  - intros l l' [lk t d w]. cbn. f_equal. apply functional_extensionality. intros x.
    unfold fset. repeat case_decide; done.
Qed.

Lemma cached_or_not s blk : (exists i, caches s i blk) \/ (forall i, ~ caches s i blk).
Proof.
  destruct (decide (Exists (fun i => caches s i blk) (seq 0 nbuf))) as [H|H].
  - left. apply Exists_exists in H as (i & _ & Hi). by exists i.
  - right. intros i Hi. apply H, Exists_exists. exists i. split; [|done].
    apply elem_of_seq. destruct Hi. lia.
Qed.

Lemma caches_ok s a i blk : bio_rep s a -> caches s i blk -> buf_ok a blk i (bufs s i).
Proof.
  intros R (Hi & Hd & <-). destruct (r_buf _ _ R i Hi) as [[_ ?]|[? _]]; [done|congruence].
Qed.

Lemma held_buf s a blk h :
  bio_rep s a -> a_held a !! blk = Some h ->
  caches s h blk /\ buf_ok a blk h (bufs s h) /\ sl_locked (b_lock (bufs s h)) = true.
Proof.
  intros R Hh. destruct (cached_or_not s blk) as [[i Hc]|Hn].
  - pose proof (caches_ok _ _ _ _ R Hc) as Hok. pose proof (ok_held _ _ _ _ Hok) as E.
    rewrite Hh in E. destruct (sl_locked (b_lock (bufs s i))) eqn:El; [|done]. injection E as ->. done.
  - destruct (r_uncached _ _ R blk Hn) as (_ & E & _). congruence.
Qed.

Lemma holding_buf_held s a blk h :
  bio_rep s a -> a_held a !! blk = Some h -> holding_buf h s = Done true s.
Proof.
  intros R Hh. destruct (held_buf s a blk h R Hh) as (_ & Hok & Hl).
  unfold holding_buf. rewrite holdingsleep_spec by (apply block_lens || apply Hok). unfold get_block_lock.
  destruct (ok_owner _ _ _ _ Hok Hl) as [-> _]. by rewrite Hl, Z.eqb_refl.
Qed.

(** The entry of the table that an update of buffer [i] leaves. *)
Lemma upd_buf_eq i f s : bufs (upd_buf i f s) i = f (bufs s i).
Proof. apply fset_eq. Qed.
Lemma upd_buf_ne i f s j : j <> i -> bufs (upd_buf i f s) j = bufs s j.
Proof. intros. by apply fset_ne. Qed.

Lemma linked_ext t t' :
  (forall i, b_next (t' i) = b_next (t i)) -> (forall i, b_prev (t' i) = b_prev (t i)) ->
  linked t -> linked t'.
Proof. intros Hn Hp (ord & Hd & Ho). exists ord. split; [|done]. by eapply dll_ext; [..|exact Hd]; intros; [apply Hn|apply Hp]. Qed.

Lemma linked_upd i f s :
  (forall b, b_next (f b) = b_next b) -> (forall b, b_prev (f b) = b_prev b) ->
  linked (bufs s) -> linked (bufs (upd_buf i f s)).
Proof.
  intros Hn Hp. apply linked_ext; intros j; (destruct (decide (j = i)) as [->|];
    [rewrite upd_buf_eq|rewrite upd_buf_ne by done]); done.
Qed.

Lemma ord_facts ord : ord ≡ₚ seq 0 nbuf ->
  head ∉ ord /\ NoDup ord /\ length ord = nbuf /\ (forall i, i ∈ ord <-> (i < nbuf)%nat).
Proof.
  intros Ho. assert (forall i, i ∈ ord <-> (i < nbuf)%nat) as He.
  { intros i. rewrite Ho, elem_of_seq. lia. }
  split_and!; [|by rewrite Ho; apply NoDup_seq|by rewrite Ho, length_seq|done].
  rewrite He. unfold head. lia.
Qed.

Lemma lookup_set_count b c m x :
  set_count b c m !! x = if decide (x = b) then (if u32 c =? 0 then None else Some (u32 c)) else m !! x.
Proof.
  unfold set_count. destruct (u32 c =? 0); case_decide; subst; simplify_map_eq; done.
Qed.

Lemma refs_add_ref b d a x : refs (add_ref b d a) x = if decide (x = b) then u32 (refs a b + d) else refs a x.
Proof.
  unfold refs at 1, add_ref, with_refs. cbn [a_refs]. rewrite lookup_set_count. case_decide; [|done].
  destruct (Z.eqb_spec (u32 (refs a b + d)) 0); simpl; congruence.
Qed.

Lemma add_ref_range b d a c : a_refs (add_ref b d a) !! b = Some c -> 0 < c < 2 ^ 32.
Proof.
  unfold add_ref, with_refs. cbn [a_refs]. rewrite lookup_set_count. case_decide; [|done].
  pose proof (u32_range (refs a b + d)). destruct (Z.eqb_spec (u32 (refs a b + d)) 0); [done|]. intros [= <-]. lia.
Qed.

Lemma agree_add_ref b d a x : x <> b -> agree a (add_ref b d a) x.
Proof.
  intros H. unfold agree, add_ref, with_refs. cbn. split_and!; try done. rewrite lookup_set_count. by case_decide.
Qed.

(** ** Pinning, writing, changing *)

(** A change of one held buffer that keeps its identity and links. *)
Lemma rep_upd_held s a a' f blk i :
  bio_rep s a -> caches s i blk -> 
  (forall b, b_next (f b) = b_next b) -> (forall b, b_prev (f b) = b_prev b) ->
  (forall b, b_dev (f b) = b_dev b) -> (forall b, b_blockno (f b) = b_blockno b) ->
  a_disk a' = a_disk a -> a_writes a' = a_writes a ->
  (forall x, x <> blk -> agree a a' x) -> buf_ok a' blk i (f (bufs s i)) ->
  (forall c, a_refs a' !! blk = Some c -> 0 < c < 2 ^ 32) ->
  bio_rep (upd_buf i f s) a'.
Proof.
  intros R Hc Hn Hp Hdv Hbn Hd Hw Hag Hok Hrg. destruct Hc as (Hi & Hdev & Hb).
  apply (rep_update s a _ a' i blk); try done.
  - apply R.
  - apply linked_upd; try done. apply R.
  - rewrite Hd. apply R.
  - rewrite Hw. apply R.
  - intros j Hj _. by rewrite upd_buf_ne.
  - unfold caches. rewrite upd_buf_eq, Hdv, Hbn. done.
  - intros j Hj. by apply (r_uniq _ _ R j i blk).
  - intros old (_ & _ & <-) Hne. congruence.
  - by rewrite upd_buf_eq.
Qed.

Lemma bio_count s a blk h d :
  bio_rep s a -> a_held a !! blk = Some h ->
  bio_rep (upd_buf h (fun b => with_refcnt (b_refcnt b + d) b) s) (add_ref blk d a).
Proof.
  intros R Hh. destruct (held_buf s a blk h R Hh) as (Hc & Hok & Hl).
  apply (rep_upd_held s a _ _ blk); try done.
  - intros. by apply agree_add_ref.
  - destruct Hok. split; cbn; try done.
    + rewrite refs_add_ref. case_decide; [|done]. congruence.
    + intros _. congruence.
  - apply add_ref_range.
Qed.

Lemma bio_bpin_law s a blk h :
  bio_rep s a -> a_held a !! blk = Some h ->
  exists s', bio_bpin h s = Done tt s' /\ bio_rep s' (add_ref blk 1 a).
Proof.
  intros R Hh. exists (upd_buf h (fun b => with_refcnt (b_refcnt b + 1) b) s).
  split; [|by apply bio_count]. unfold bio_bpin, bc_acquire, bc_release, acquire_lk, release_lk, modify, bind.
  rewrite (r_lock _ _ R). cbn. pose proof (r_lock _ _ R). destruct s. simpl in *. by subst.
Qed.

Lemma bio_bunpin_law s a blk h :
  bio_rep s a -> a_held a !! blk = Some h ->
  exists s', bio_bunpin h s = Done tt s' /\ bio_rep s' (add_ref blk (-1) a).
Proof.
  intros R Hh. exists (upd_buf h (fun b => with_refcnt (b_refcnt b + -1) b) s).
  split; [|by apply bio_count]. unfold bio_bunpin, bc_acquire, bc_release, acquire_lk, release_lk, modify, bind.
  rewrite (r_lock _ _ R). cbn. pose proof (r_lock _ _ R). destruct s. simpl in *. by subst.
Qed.

Lemma bio_bwrite_law s a blk h :
  bio_rep s a -> a_held a !! blk = Some h ->
  exists s', bio_bwrite h s = Done tt s' /\ bio_rep s' (put_disk blk (a_cache a blk) a).
Proof.
  intros R Hh. destruct (held_buf s a blk h R Hh) as (Hc & Hok & Hl).
  destruct (ok_owner _ _ _ _ Hok Hl) as [_ Hv]. pose proof (ok_data _ _ _ _ Hok) as Hdat. rewrite Hv in Hdat.
  unfold bio_bwrite. rewrite (bind_Done _ _ _ _ _ (holding_buf_held s a blk h R Hh)). cbn [negb].
  unfold disk_rw, modify. eexists. split; [reflexivity|]. pose proof Hc as (Hi & Hdev & Hb). rewrite Hb, Hdat.
  apply (rep_update s a _ _ h blk); cbn; try done.
  - apply R.
  - apply R.
  - by rewrite (r_disk _ _ R).
  - by rewrite (r_writes _ _ R).
  - intros j Hj. by apply (r_uniq _ _ R j h blk).
  - intros old (_ & _ & <-) Hne. congruence.
  - intros x Hx. unfold agree. cbn. by rewrite fset_ne.
  - destruct Hok. split; cbn; try done.
    + by rewrite Hv.
    + intros _. congruence.
  - apply (r_range _ _ R).
Qed.

Definition bio_bmodify (i : nat) (f : block -> block) : M bio unit :=
  modify (upd_buf i (fun b => with_data (f (b_data b)) b)).

Lemma bio_bmodify_law s a blk h f :
  bio_rep s a -> a_held a !! blk = Some h ->
  exists s', bio_bmodify h f s = Done tt s' /\ bio_rep s' (put_cache blk (f (a_cache a blk)) a).
Proof.
  intros R Hh. destruct (held_buf s a blk h R Hh) as (Hc & Hok & Hl).
  destruct (ok_owner _ _ _ _ Hok Hl) as [_ Hv]. pose proof (ok_data _ _ _ _ Hok) as Hdat. rewrite Hv in Hdat.
  eexists. split; [reflexivity|]. apply (rep_upd_held s a _ _ blk); try done.
  - intros x Hx. unfold agree. cbn. by rewrite fset_ne.
  - destruct Hok. split; cbn; try done.
    + rewrite Hv, fset_eq. congruence.
    + intros _. congruence.
  - apply (r_range _ _ R).
Qed.

(** ** Moving a buffer to the front of the list *)

Fixpoint lastn (x : nat) (l : list nat) : nat := match l with [] => x | z :: l' => lastn z l' end.

Lemma dll_prev t l : forall x y, dll t x l y -> b_prev (t y) = lastn x l.
Proof. induction l as [|z l IH]; intros x y; simpl; [tauto|]. intros (_ & _ & H). by apply IH. Qed.

Lemma lastn_in x l : lastn x l = x \/ lastn x l ∈ l.
Proof.
  revert x. induction l as [|z l IH]; intros x; simpl; [by left|]. right.
  destruct (IH z) as [->|H]; [left|by right].
Qed.

(** Two stretches of links joined at their ends. *)
Lemma dll_splice t t' l1 : forall x i l2 y,
  dll t x l1 i -> dll t i l2 y -> NoDup (x :: l1 ++ l2) -> y ∉ x :: l1 ++ l2 ->
  b_next (t' (lastn x l1)) = first l2 y -> b_prev (t' (first l2 y)) = lastn x l1 ->
  (forall j, j <> lastn x l1 -> j ∈ x :: l1 ++ l2 -> b_next (t' j) = b_next (t j)) ->
  (forall j, j <> first l2 y -> j = y \/ j ∈ l1 ++ l2 -> b_prev (t' j) = b_prev (t j)) ->
  dll t' x (l1 ++ l2) y.
Proof.
  induction l1 as [|z l1 IH]; intros x i l2 y H1 H2 Hnd Hy Hn Hp Hnext Hprev; simpl in *.
  - destruct l2 as [|w l2]; simpl in *; [done|]. destruct H2 as (_ & _ & H2). split_and!; [done|done|].
    apply NoDup_cons in Hnd as [Hx [Hw Hl2]%NoDup_cons]. rewrite !not_elem_of_cons in Hy.
    eapply dll_ext; [| |exact H2].
    + intros j Hj. assert (j ∈ w :: l2) as Hin by (apply elem_of_cons; tauto).
      apply Hnext; [by intros ->|by right].
    + intros j [->|Hj]; apply Hprev; [naive_solver|by left|by intros ->|right; by right].
  - destruct H1 as (E1 & E2 & H1). apply NoDup_cons in Hnd as [Hx Hnd].
    rewrite !not_elem_of_cons in Hy.
    assert (x <> lastn z l1) as Hxl.
    { destruct (lastn_in z l1) as [->|Hin]; [intros ->; apply Hx; left|].
      intros ->. apply Hx. right. apply elem_of_app. by left. }
    assert (z <> first l2 y) as Hzf.
    { destruct l2 as [|w l2]; simpl; [intros ->; tauto|]. intros ->. apply NoDup_cons in Hnd as [Hz _].
      apply Hz, elem_of_app. right. left. }
    split_and!.
    + rewrite Hnext; [done|done|left].
    + rewrite Hprev; [done|done|right; left].
    + apply (IH z i l2 y); try done.
      * rewrite not_elem_of_cons. tauto.
      * intros j Hj Hin. apply Hnext; [done|by right].
      * intros j Hj Hin. apply Hprev; [done|]. destruct Hin; [by left|right; by right].
Qed.

Lemma info_fset (t : nat -> buf) k b j : info b = info (t k) -> info (fset t k b j) = info (t j).
Proof. intros. unfold fset. case_decide; congruence. Qed.

Lemma to_front_spec s i l1 l2 :
  dll (bufs s) head (l1 ++ i :: l2) head -> NoDup (head :: l1 ++ i :: l2) ->
  exists t', to_front i s = Done tt (set_bufs t' s) /\ dll t' head (i :: l1 ++ l2) head /\
    forall j, info (t' j) = info (bufs s j).
Proof.
  intros Hd Hnd. apply dll_app in Hd as [D1 D2]. set (t := bufs s) in *.
  pose proof (dll_next _ _ _ _ D2) as En. pose proof (dll_prev _ _ _ _ D1) as Ep.
  set (n := first l2 head) in *. set (p := lastn head l1) in *.
  set (t1 := fset t n (with_prev p (t n))).
  set (t2 := fset t1 p (with_next n (t1 p))).
  set (f := b_next (t2 head)).
  set (t3 := fset t2 i (with_next f (t2 i))).
  set (t4 := fset t3 i (with_prev head (t3 i))).
  set (t5 := fset t4 f (with_prev i (t4 f))).
  set (t6 := fset t5 head (with_next i (t5 head))).
  exists t6. split.
  { unfold to_front, gets, modify, bind, upd_buf, set_bufs. cbn. change (bufs s) with t. rewrite !En, !Ep. reflexivity. }
  apply NoDup_cons in Hnd as [Hh Hnd]. apply NoDup_app in Hnd as (N1 & N12 & N2).
  apply NoDup_cons in N2 as [Ni N2]. rewrite not_elem_of_app, not_elem_of_cons in Hh.
  destruct Hh as (Hh1 & Hhi & Hh2).
  assert (i ∉ l1) as Hi1 by (intros H; apply (N12 i H); left).
  assert (n <> i) as Hni by (unfold n; destruct l2; simpl; [done|]; intros ->; apply Ni; left).
  assert (p <> i) as Hpi by (destruct (lastn_in head l1) as [E|E]; unfold p; [by rewrite E|by intros <-]).
  assert (forall j, b_next (t6 j) = if decide (j = head) then i else if decide (j = i) then f
            else if decide (j = p) then n else b_next (t j)) as Hnx.
  { intros j. unfold t6, t5, t4, t3, t2, t1, fset. repeat (case_decide; subst; cbn); try done; congruence. }
  assert (forall j, b_prev (t6 j) = if decide (j = f) then i else if decide (j = i) then head
            else if decide (j = n) then p else b_prev (t j)) as Hpv.
  { intros j. unfold t6, t5, t4, t3, t2, t1, fset. repeat (case_decide; subst; cbn); try done; congruence. }
  split.
  2: { intros j. unfold t6, t5, t4, t3, t2, t1. by rewrite !info_fset. }
  assert (f = if decide (p = head) then n else b_next (t head)) as Ef.
  { unfold f, t2, t1, fset. repeat (case_decide; subst; cbn); try done; congruence. }
  destruct l1 as [|z l1]; simpl in D1, Hh1, Hi1.
  - clearbody t6. change p with head in *. clearbody f. case_decide; [|done]. cbn [dll app]. split_and!.
    + rewrite Hnx. by case_decide.
    + rewrite Hpv, Ef. repeat case_decide; congruence.
    + destruct l2 as [|w l2]; simpl in *; unfold n in *.
      * split; [rewrite Hnx|rewrite Hpv]; repeat case_decide; congruence.
      * destruct D2 as (_ & _ & D2). split; [rewrite Hnx; repeat case_decide; congruence|].
        split; [rewrite Hpv; repeat case_decide; congruence|].
        apply NoDup_cons in N2 as [Nw N2]. rewrite not_elem_of_cons in Ni, Hh2.
        eapply dll_ext; [| |exact D2].
        -- intros j [->|Hj]; rewrite Hnx; repeat case_decide; subst; naive_solver.
        -- intros j [->|Hj]; rewrite Hpv; repeat case_decide; subst; naive_solver.
  - destruct D1 as (Ez & Ezp & D1). rewrite not_elem_of_cons in Hh1, Hi1. apply NoDup_cons in N1 as [Nz N1].
    assert (p <> head) as Hph.
    { unfold p. simpl. destruct (lastn_in z l1) as [->|Hin]; [intros ->; tauto|]. intros E. rewrite E in Hin. tauto. }
    destruct (decide (p = head)); [done|]. rewrite Ez in Ef.
    assert (n <> z) as Hnz.
    { unfold n. destruct l2 as [|w l2]; simpl; [intros <-; tauto|]. intros ->. apply (N12 z); [left|right; left]. }
    clearbody t6 f. cbn [dll app]. split_and!.
    + rewrite Hnx. by case_decide.
    + rewrite Hpv. repeat case_decide; subst; naive_solver.
    + rewrite Hnx. repeat case_decide; congruence.
    + rewrite Hpv, Ef. repeat case_decide; congruence.
    + apply (dll_splice t t6 l1 z i l2 head); try done.
      * apply NoDup_cons. split; [|apply NoDup_app; split_and!; try done].
        -- rewrite not_elem_of_app. split; [done|]. intros H. apply (N12 z); [left|by right].
        -- intros j Hj Hj2. apply (N12 j); by right.
      * rewrite not_elem_of_cons, not_elem_of_app. tauto.
      * change (lastn z l1) with p. fold n. rewrite Hnx. repeat case_decide; congruence.
      * change (lastn z l1) with p. fold n. rewrite Hpv. repeat case_decide; congruence.
      * change (lastn z l1) with p. intros j Hj [->|Hin]%elem_of_cons; rewrite Hnx;
          repeat case_decide; try done; [naive_solver..| |]; apply elem_of_app in Hin; naive_solver.
      * fold n. intros j Hj Hin. rewrite Hpv.
        assert (j <> f /\ j <> i) as [Hjf Hji].
        { rewrite elem_of_app in Hin. rewrite Ef. destruct Hin as [->|[Hin|Hin]]; [split; [tauto|done]|split..];
            try (intros ->; tauto). intros ->. apply (N12 z); [left|by right]. }
        repeat case_decide; congruence.
Qed.

Lemma to_front_linked s i :
  linked (bufs s) -> (i < nbuf)%nat ->
  exists t', to_front i s = Done tt (set_bufs t' s) /\ linked t' /\ forall j, info (t' j) = info (bufs s j).
Proof.
  intros (ord & Hd & Ho) Hi. destruct (ord_facts ord Ho) as (Hh & Hnd & _ & He).
  pose proof (proj2 (He i) Hi) as Hin. apply list_elem_of_split in Hin as (l1 & l2 & ->).
  destruct (to_front_spec s i l1 l2 Hd) as (t' & E & Hd' & Hinfo).
  { by apply NoDup_cons. }
  exists t'. split_and!; try done. exists (i :: l1 ++ l2). split; [done|].
  rewrite <- Ho. by rewrite Permutation_middle.
Qed.

Lemma bio_brelse_law s a blk h :
  bio_rep s a -> a_held a !! blk = Some h ->
  u32 (refs a blk - 1) <> 0 \/ a_cache a blk = a_disk a blk ->
  exists s', bio_brelse h s = Done tt s' /\ bio_rep s' (unhold blk (add_ref blk (-1) a)).
Proof.
  intros R Hh Hclean. destruct (held_buf s a blk h R Hh) as (Hc & Hok & Hl).
  pose proof Hc as (Hi & Hdev & Hb).
  unfold bio_brelse. rewrite (bind_Done _ _ _ _ _ (holding_buf_held s a blk h R Hh)). cbn [negb].
  assert (unlock_buf h s = Done tt (set_block_lock h (mk_sleeplock false false 0) s)) as Eu.
  { unfold unlock_buf. apply releasesleep_spec; [apply block_lens|apply Hok]. }
  rewrite (bind_Done _ _ _ _ _ Eu). set (s1 := set_block_lock _ _ _).
  unfold bc_acquire, acquire_lk, bind at 1. change (bc_lock s1) with (bc_lock s). rewrite (r_lock _ _ R).
  cbn [obind]. unfold modify, bind at 1, gets, bind at 1. cbn [obind].
  set (s2 := upd_buf h _ _).
  set (b2 := mk_buf (b_valid (bufs s h)) (b_dev (bufs s h)) (b_blockno (bufs s h)) (mk_sleeplock false false 0)
               (u32 (b_refcnt (bufs s h) - 1)) (b_prev (bufs s h)) (b_next (bufs s h)) (b_data (bufs s h))).
  assert (bufs s2 h = b2) as E2.
  { unfold s2, s1, set_block_lock. rewrite upd_buf_eq. cbn. rewrite fset_eq. done. }
  assert (forall j, j <> h -> bufs s2 j = bufs s j) as E2'.
  { intros j Hj. unfold s2, s1, set_block_lock. rewrite upd_buf_ne by done. cbn. by rewrite fset_ne. }
  assert (linked (bufs s2)) as Hlk.
  { unfold s2, s1, set_block_lock. apply linked_upd; try done. cbn. apply (linked_upd h (with_lock _) s); try done. apply R. }
  assert (exists t', (if b_refcnt (bufs s2 h) =? 0 then to_front h else ret tt) s2 = Done tt (set_bufs t' s2) /\
            linked t' /\ forall j, info (t' j) = info (bufs s2 j)) as (t' & E3 & Hlk' & Hinf).
  { destruct (_ =? 0); [by apply to_front_linked|]. exists (bufs s2). split_and!; done. }
  rewrite (bind_Done _ _ _ _ _ E3). unfold bc_release, release_lk. eexists. split; [reflexivity|].
  assert (info (t' h) = info b2) as Eh by (by rewrite Hinf, E2).
  apply (rep_update s a _ _ h blk); try done; cbn.
  - apply R.
  - apply R.
  - intros j Hj _. by rewrite Hinf, E2'.
  - unfold caches. cbn. unfold info in Eh. injection Eh as _ E E' _ _ _. split; [done|].
    rewrite E, E'. done.
  - intros j Hj. by apply (r_uniq _ _ R j h blk).
  - intros old (_ & _ & <-) Hne. congruence.
  - intros x Hx. destruct (agree_add_ref blk (-1) a x Hx) as (? & ? & ? & ?). split_and!; try done. cbn.
    by rewrite lookup_delete_ne.
  - eapply buf_ok_info; [exact Eh|]. destruct Hok. split; cbn; try done.
    + change (refs (unhold blk (add_ref blk (-1) a)) blk) with (refs (add_ref blk (-1) a) blk).
      rewrite refs_add_ref. case_decide; [|done]. by rewrite ok_refcnt0.
    + by rewrite lookup_delete_eq.
    + intros E _. rewrite ok_refcnt0 in E. by destruct Hclean.
  - intros c. apply (add_ref_range blk (-1) a c).
Qed.

(** ** Reading *)

(** What [bget] leaves: buffer [i] is the one for [blk], locked by the caller. *)
Record got (s : bio) (a : blocks) (blk : Z) (i : nat) (s1 : bio) : Prop := {
  g_lock : bc_lock s1 = false;
  g_disk : disk s1 = disk s;
  g_writes : writes s1 = writes s;
  g_linked : linked (bufs s1);
  g_range : (i < nbuf)%nat;
  g_others j : j <> i -> bufs s1 j = bufs s j;
  g_dev : b_dev (bufs s1 i) = ROOTDEV;
  g_block : b_blockno (bufs s1 i) = blk;
  g_sl : b_lock (bufs s1 i) = mk_sleeplock false true pid;
  g_refcnt : b_refcnt (bufs s1 i) = u32 (refs a blk + 1);
  g_data : if b_valid (bufs s1 i) then b_data (bufs s1 i) = a_cache a blk else a_cache a blk = a_disk a blk;
  g_only j : caches s j blk -> j = i;
  g_old old : caches s i old -> old <> blk ->
    a_refs a !! old = None /\ a_held a !! old = None /\ a_cache a old = a_disk a old;
}.

Lemma lock_buf_free i s fuel :
  sl_lk (b_lock (bufs s i)) = false -> sl_locked (b_lock (bufs s i)) = false ->
  lock_buf i fuel s = Done tt (upd_buf i (with_lock (mk_sleeplock false true pid)) s).
Proof. intros. unfold lock_buf. rewrite acquiresleep_free; [done|apply block_lens|done|done]. Qed.

(** [bget] after its scan: update the buffer, drop the list lock, lock the buffer. *)
Lemma take_buffer i f s fuel :
  bc_lock s = true ->
  sl_lk (b_lock (f (bufs s i))) = false -> sl_locked (b_lock (f (bufs s i))) = false ->
  exists s1, (modify (upd_buf i f) ;;; bc_release ;;; lock_buf i fuel ;;; ret i) s = Done i s1 /\
    bc_lock s1 = false /\ disk s1 = disk s /\ writes s1 = writes s /\
    bufs s1 i = with_lock (mk_sleeplock false true pid) (f (bufs s i)) /\
    (forall j, j <> i -> bufs s1 j = bufs s j).
Proof.
  intros Hl H1 H2. unfold modify, bind at 1. cbn [obind]. unfold bc_release, release_lk, bind at 1.
  change (bc_lock (upd_buf i f s)) with (bc_lock s). rewrite Hl. cbn [obind].
  set (s1 := set_bc_lock false (upd_buf i f s)).
  assert (bufs s1 i = f (bufs s i)) as E by (cbn; apply fset_eq).
  rewrite (bind_Done _ _ s1 tt (upd_buf i (with_lock (mk_sleeplock false true pid)) s1))
    by (apply lock_buf_free; by rewrite E).
  eexists. split; [reflexivity|]. split_and!; try done.
  - by rewrite upd_buf_eq, E.
  - intros j Hj. rewrite upd_buf_ne by done. cbn. by apply fset_ne.
Qed.

Lemma free_slot s a ord :
  bio_rep s a -> ord ≡ₚ seq 0 nbuf -> Z.of_nat (size (a_refs a)) < NBUF ->
  exists i, List.find (fun i => is_unused (bufs s i)) (reverse ord) = Some i.
Proof.
  intros R Ho Hsz. destruct (List.find _ _) as [i|] eqn:Ef; [by exists i|]. exfalso.
  assert (forall i, (i < nbuf)%nat -> b_refcnt (bufs s i) <> 0) as Hall.
  { intros i Hi E. pose proof (find_none _ _ Ef i) as Hn. unfold is_unused in Hn. rewrite E in Hn.
    discriminate Hn. apply list_elem_of_In. apply elem_of_reverse. apply (ord_facts ord Ho). done. }
  assert (forall i, (i < nbuf)%nat -> caches s i (b_blockno (bufs s i)) /\ a_refs a !! b_blockno (bufs s i) <> None) as Hc.
  { intros i Hi. destruct (r_buf _ _ R i Hi) as [[Hd Hok]|(_ & Hz & _)]; [|by destruct (Hall i Hi)].
    split; [done|]. intros E. apply (Hall i Hi). rewrite (ok_refcnt _ _ _ _ Hok). unfold refs. by rewrite E. }
  assert (nbuf <= size (a_refs a))%nat as Hle.
  { rewrite <- (size_dom (D := gset Z)).
    rewrite <- (length_seq nbuf 0) at 1. rewrite <- (length_fmap (fun i => b_blockno (bufs s i))).
    rewrite <- (size_list_to_set (C := gset Z)).
    - apply subseteq_size. intros x Hx. apply elem_of_list_to_set, list_elem_of_fmap in Hx as (i & -> & Hi).
      apply elem_of_seq in Hi. apply elem_of_dom, not_eq_None_Some. apply Hc. lia.
    - apply NoDup_fmap_2_strong; [|apply NoDup_seq]. intros i j Hi%elem_of_seq Hj%elem_of_seq E.
      apply (r_uniq _ _ R i j (b_blockno (bufs s i))); [apply Hc; lia|]. rewrite E. apply Hc. lia. }
  unfold nbuf in Hle. lia.
Qed.

Lemma bget_spec s a blk fuel :
  bio_rep s a -> a_held a !! blk = None -> no_hazard a -> room a blk ->
  exists i s1, bget ROOTDEV blk fuel s = Done i s1 /\ got s a blk i s1.
Proof.
  intros R Hnh Hz Hroom. destruct (r_linked _ _ R) as (ord & Hd & Ho).
  destruct (ord_facts ord Ho) as (Hh & Hnd & Hlen & He).
  unfold bget, bc_acquire, acquire_lk, bind at 1. rewrite (r_lock _ _ R). cbn [obind].
  unfold gets, bind at 1. cbn [obind]. change (bufs (set_bc_lock true s)) with (bufs s).
  rewrite (scan_next _ _ ord) by (done || lia).
  destruct (List.find _ ord) as [i|] eqn:Ef.
  - apply find_some in Ef as [Hin Hb]. apply andb_true_iff in Hb as [Hb1%Z.eqb_eq Hb2%Z.eqb_eq].
    assert (caches s i blk) as Hc. { split; [|done]. apply He. by apply list_elem_of_In. }
    pose proof (caches_ok _ _ _ _ R Hc) as Hok. pose proof (ok_held _ _ _ _ Hok) as Eh. rewrite Hnh in Eh.
    destruct (take_buffer i (fun b => with_refcnt (b_refcnt b + 1) b) (set_bc_lock true s) fuel)
      as (s1 & E & F1 & F2 & F3 & F4 & F5); [done|apply Hok|cbn; by destruct (sl_locked _)|].
    exists i, s1. split; [exact E|]. cbn in F4.
    assert (forall j, bufs s1 j = bufs s j \/ j = i) as Fj by (intros j; destruct (decide (j = i)); [by right|left; by apply F5]).
    split; try done; rewrite ?F4; cbn; try done.
    + eapply linked_ext; [| |apply R]; intros j; (destruct (Fj j) as [-> | ->]; [done|by rewrite F4]).
    + apply Hc.
    + by rewrite (ok_refcnt _ _ _ _ Hok).
    + apply Hok.
    + intros j Hj. by apply (r_uniq _ _ R j i blk).
    + intros old (_ & _ & <-) Hne. congruence.
  - assert (forall j, ~ caches s j blk) as Hnc.
    { intros j (Hj1 & Hj2 & Hj3). pose proof (find_none _ _ Ef j) as Hn. unfold is_block in Hn.
      rewrite Hj2, Hj3, !Z.eqb_refl in Hn. discriminate Hn. apply list_elem_of_In. by apply He. }
    destruct (r_uncached _ _ R blk Hnc) as (Hr0 & _ & Hcl).
    assert (refs a blk = 0) as Hr by (unfold refs; by rewrite Hr0).
    destruct Hroom as [?|Hsz]; [done|].
    rewrite (scan_prev _ _ ord) by (done || lia).
    destruct (free_slot s a ord R Ho Hsz) as [i Ei]. rewrite Ei.
    apply find_some in Ei as [Hin Hu%Z.eqb_eq].
    assert (i < nbuf)%nat as Hi by (apply He; by apply elem_of_reverse, list_elem_of_In).
    assert (forall old, caches s i old -> a_refs a !! old = None /\ a_held a !! old = None /\
              a_cache a old = a_disk a old /\ sl_locked (b_lock (bufs s i)) = false) as Hold.
    { intros old Hc. pose proof (caches_ok _ _ _ _ R Hc) as Hok.
      pose proof (ok_refcnt _ _ _ _ Hok) as Er. rewrite Hu in Er.
      assert (a_held a !! old = None) as Hn.
      { destruct (a_held a !! old) eqn:E; [|done]. by destruct (Hz _ _ E). }
      pose proof (ok_held _ _ _ _ Hok) as Eh. rewrite Hn in Eh.
      destruct (sl_locked (b_lock (bufs s i))) eqn:El; [done|]. split_and!; try done.
      - unfold refs in Er. destruct (a_refs a !! old) eqn:E; [|done]. apply (r_range _ _ R) in E. simpl in Er. lia.
      - by apply (ok_clean _ _ _ _ Hok). }
    assert (sl_lk (b_lock (bufs s i)) = false /\ sl_locked (b_lock (bufs s i)) = false) as [L1 L2].
    { destruct (r_buf _ _ R i Hi) as [[Hdv Hok]|(_ & _ & ? & ?)]; [|done].
      split; [apply Hok|]. by apply (Hold (b_blockno (bufs s i))). }
    destruct (take_buffer i (recycled ROOTDEV blk) (set_bc_lock true s) fuel) as (s1 & E & F1 & F2 & F3 & F4 & F5); try done.
    exists i, s1. split; [exact E|]. cbn in F4.
    assert (forall j, bufs s1 j = bufs s j \/ j = i) as Fj by (intros j; destruct (decide (j = i)); [by right|left; by apply F5]).
    split; try done; rewrite ?F4; cbn; try done.
    + eapply linked_ext; [| |apply R]; intros j; (destruct (Fj j) as [-> | ->]; [done|by rewrite F4]).
    + by rewrite Hr.
    + intros j Hj. by destruct (Hnc j).
    + intros old Hc _. destruct (Hold old Hc) as (? & ? & ? & _). done.
Qed.

Lemma bio_bread_law s a blk fuel :
  bio_rep s a -> a_held a !! blk = None -> no_hazard a -> room a blk ->
  exists h s', bio_bread ROOTDEV blk fuel s = Done h s' /\ bio_rep s' (hold blk h (add_ref blk 1 a)).
Proof.
  intros R Hnh Hz Hroom. destruct (bget_spec s a blk fuel R Hnh Hz Hroom) as (i & s1 & E & G).
  unfold bio_bread. rewrite (bind_Done _ _ _ _ _ E). unfold gets, bind at 1. cbn [obind].
  assert (exists s2, (if negb (b_valid (bufs s1 i)) then disk_rw i false ;;; modify (upd_buf i (with_valid true))
                      else ret tt) s1 = Done tt s2 /\
            bc_lock s2 = false /\ disk s2 = disk s /\ writes s2 = writes s /\ linked (bufs s2) /\
            (forall j, j <> i -> bufs s2 j = bufs s j) /\
            b_dev (bufs s2 i) = ROOTDEV /\ b_blockno (bufs s2 i) = blk /\
            b_lock (bufs s2 i) = mk_sleeplock false true pid /\ b_refcnt (bufs s2 i) = u32 (refs a blk + 1) /\
            b_valid (bufs s2 i) = true /\ b_data (bufs s2 i) = a_cache a blk)
    as (s2 & E2 & F1 & F2 & F3 & F4 & F5 & F6 & F7 & F8 & F9 & F10 & F11).
  { pose proof (g_data _ _ _ _ _ G) as Hdat. destruct (b_valid (bufs s1 i)) eqn:Ev; cbn [negb].
    - exists s1. destruct G. split_and!; done.
    - unfold disk_rw, modify, bind. cbn [obind]. eexists. split; [reflexivity|]. destruct G.
      assert (forall j, j <> i -> fset (fset (bufs s1) i (with_data (disk s1 (b_blockno (bufs s1 i))) (bufs s1 i))) i
                (with_valid true (with_data (disk s1 (b_blockno (bufs s1 i))) (bufs s1 i))) j = bufs s1 j) as Hj.
      { intros j Hj. by rewrite !fset_ne. }
      unfold upd_buf. cbn. rewrite !fset_eq. cbn. split_and!; try done.
      + eapply linked_ext; [| |exact g_linked0]; intros j; (destruct (decide (j = i)) as [->|Hne];
          [by rewrite fset_eq|by rewrite Hj]).
      + intros j Hne. rewrite Hj by done. by apply g_others0.
      + rewrite g_block0, g_disk0, (r_disk _ _ R). done. }
  rewrite (bind_Done _ _ _ _ _ E2). exists i, s2. split; [done|].
  apply (rep_update s a _ _ i blk); try done.
  - apply G.
  - rewrite F2. apply R.
  - rewrite F3. apply R.
  - intros j Hj _. by rewrite F5.
  - split; [apply G|done].
  - apply (g_only _ _ _ _ _ G).
  - apply (g_old _ _ _ _ _ G).
  - intros x Hx. destruct (agree_add_ref blk 1 a x Hx) as (? & ? & ? & ?). split_and!; try done. cbn.
    by rewrite lookup_insert_ne.
  - split; rewrite ?F8, ?F9, ?F10, ?F11; cbn; try done.
    + change (refs (hold blk i (add_ref blk 1 a)) blk) with (refs (add_ref blk 1 a) blk).
      rewrite refs_add_ref. by case_decide.
    + by rewrite lookup_insert_eq.
  - intros c. apply (add_ref_range blk 1 a c).
Qed.

(** ** Initialisation *)

(** Memory before [binit]: zeroed buffers, garbage-free because the kernel's
    bss is cleared. *)
Definition zero_buf : buf := mk_buf false 0 0 initsleeplock 0 0 0 [].
Definition power_on (d : Z -> block) : bio := mk_bio false (fun _ => zero_buf) d [].

(** The part of a table [binit] has linked: buffers [n-1 ... 0] in this order. *)
Lemma binit_link_spec s i :
  dll (bufs s) head (reverse (seq 0 i)) head -> (i < nbuf)%nat ->
  exists t', binit_link i s = Done tt (set_bufs t' s) /\ dll t' head (reverse (seq 0 (S i))) head /\
    (forall j, j <> i -> info (t' j) = info (bufs s j)) /\ info (t' i) = info (with_lock initsleeplock (bufs s i)).
Proof.
  intros Hd Hi. set (l := reverse (seq 0 i)) in *. set (t := bufs s) in *.
  pose proof (dll_next _ _ _ _ Hd) as En. set (f := first l head) in *.
  set (t1 := fset t i (with_next f (t i))).
  set (t2 := fset t1 i (with_prev head (t1 i))).
  set (t3 := fset t2 i (with_lock initsleeplock (t2 i))).
  set (t4 := fset t3 f (with_prev i (t3 f))).
  set (t5 := fset t4 head (with_next i (t4 head))).
  exists t5. split.
  { unfold binit_link, gets, modify, bind, upd_buf, set_bufs. cbn. change (bufs s) with t. by rewrite En. }
  assert (forall j, j ∈ l -> j <> i /\ j <> head) as Hl.
  { intros j Hj. unfold l in Hj. rewrite elem_of_reverse, elem_of_seq in Hj. unfold head. lia. }
  assert (f <> i) as Hfi.
  { unfold f. destruct l as [|z l'] eqn:El; simpl; [unfold head; lia|]. apply Hl. left. }
  assert (i <> head) as Hih by (unfold head; lia).
  assert (forall j, b_next (t5 j) = if decide (j = head) then i else if decide (j = i) then f else b_next (t j)) as Hnx.
  { intros j. clearbody f. unfold t5, t4, t3, t2, t1, fset. repeat (case_decide; cbn); congruence. }
  assert (forall j, b_prev (t5 j) = if decide (j = f) then i else if decide (j = i) then head else b_prev (t j)) as Hpv.
  { intros j. clearbody f. unfold t5, t4, t3, t2, t1, fset. repeat (case_decide; cbn); congruence. }
  split_and!.
  - rewrite seq_S, reverse_snoc, Nat.add_0_l. fold l. clearbody t5. assert (f = first l head) as Ef by done. clearbody f. cbn [dll].
    split; [rewrite Hnx; by case_decide|]. split; [rewrite Hpv; repeat case_decide; congruence|].
    assert (NoDup l) as Hnd by (unfold l; rewrite reverse_Permutation; apply NoDup_seq).
    destruct l as [|z l'] eqn:El; cbn [dll]; simpl in Ef.
    + split; [rewrite Hnx|rewrite Hpv]; repeat case_decide; congruence.
    + destruct Hd as (_ & _ & Hd). apply NoDup_cons in Hnd as [Hz _].
      split; [rewrite Hnx; repeat case_decide; congruence|]. split; [rewrite Hpv; repeat case_decide; congruence|].
      eapply dll_ext; [| |exact Hd].
      * intros j Hj. assert (j <> i /\ j <> head) as [? ?] by (apply Hl; destruct Hj as [->|]; [left|by right]).
        rewrite Hnx. repeat case_decide; congruence.
      * intros j Hj. rewrite Hpv. destruct Hj as [->|Hj].
        -- assert (z <> head) by (apply Hl; left). repeat case_decide; congruence.
        -- assert (j <> i) by (apply Hl; by right). repeat case_decide; try congruence.
  - intros j Hj. unfold t5, t4. rewrite !info_fset by done. unfold t3, t2, t1. by rewrite !fset_ne.
  - unfold t5, t4. rewrite !info_fset by done. unfold t3, t2, t1. by rewrite !fset_eq.
Qed.

Lemma binit_loop_spec k : forall i s,
  dll (bufs s) head (reverse (seq 0 i)) head -> (i + k = nbuf)%nat ->
  exists t', binit_loop i k s = Done tt (set_bufs t' s) /\ dll t' head (reverse (seq 0 nbuf)) head /\
    (forall j, (j < i)%nat -> info (t' j) = info (bufs s j)) /\
    (forall j, (i <= j < nbuf)%nat -> info (t' j) = info (with_lock initsleeplock (bufs s j))).
Proof.
  induction k as [|k IH]; intros i s Hd Hk.
  - exists (bufs s). replace nbuf with i by lia. cbn. destruct s. split_and!; try done. lia.
  - cbn [binit_loop]. destruct (binit_link_spec s i Hd ltac:(lia)) as (t1 & E1 & D1 & H1 & H1').
    rewrite (bind_Done _ _ _ _ _ E1).
    destruct (IH (S i) (set_bufs t1 s)) as (t2 & E2 & D2 & H2 & H2'); [done|lia|].
    exists t2. rewrite E2. destruct s as [lk t d w]. cbn in *. split_and!; try done.
    + intros j Hj. rewrite H2 by lia. apply H1. lia.
    + intros j Hj. destruct (decide (j = i)) as [->|Hne]; [rewrite H2 by lia; done|].
      rewrite H2' by lia. specialize (H1 j Hne). unfold info in *. cbn. congruence.
Qed.

Lemma binit_spec d :
  exists s, binit (power_on d) = Done tt s /\ bio_rep s (booted d).
Proof.
  unfold binit, modify. do 3 rewrite bind_Done with (a := tt) (s' := _) by reflexivity.
  match goal with |- exists s, binit_loop _ _ ?s0 = _ /\ _ => set (s0' := s0) end.
  destruct (binit_loop_spec nbuf 0 s0') as (t & E & D & _ & H).
  { unfold s0', upd_buf, power_on. cbn [bufs set_bufs set_bc_lock seq reverse].
    change (reverse []) with (@nil nat). cbn [dll]. by rewrite !fset_eq. }
  { lia. }
  exists (set_bufs t s0'). split; [exact E|]. clear E.
  assert (forall i, (i < nbuf)%nat -> info (t i) = info zero_buf) as Hz.
  { intros i Hi. rewrite H by lia. unfold s0', upd_buf. cbn [bufs set_bufs set_bc_lock power_on].
    assert (i <> head) by (unfold head; lia). by rewrite !fset_ne. }
  assert (forall i x, ~ caches (set_bufs t s0') i x) as Hnc.
  { intros i x (Hi & Hd & _). cbn in Hd. specialize (Hz i Hi). unfold info in Hz. injection Hz as _ E2 _ _ _ _.
    rewrite E2 in Hd. done. }
  split.
  - reflexivity.
  - exists (reverse (seq 0 nbuf)). split; [exact D|]. by rewrite reverse_Permutation.
  - reflexivity.
  - reflexivity.
  - intros i Hi. right. eapply buf_fresh_info; [exact (Hz i Hi)|]. by repeat split.
  - intros i j x Hc. by destruct (Hnc i x).
  - intros x _. split_and!; reflexivity.
  - intros x c Hx. cbn in Hx. by rewrite lookup_empty in Hx.
Qed.

(** ** The interface *)

Definition bio_bdata (i : nat) : M bio block := gets (fun s => b_data (bufs s i)).
Definition bio_bblockno (i : nat) : M bio Z := gets (fun s => b_blockno (bufs s i)).

Lemma bio_bdata_law s a blk h :
  bio_rep s a -> a_held a !! blk = Some h -> bio_bdata h s = Done (a_cache a blk) s.
Proof.
  intros R Hh. destruct (held_buf s a blk h R Hh) as (_ & Hok & Hl).
  destruct (ok_owner _ _ _ _ Hok Hl) as [_ Hv]. pose proof (ok_data _ _ _ _ Hok) as Hd. rewrite Hv in Hd.
  unfold bio_bdata, gets. by rewrite Hd.
Qed.

Lemma bio_bblockno_law s a blk h :
  bio_rep s a -> a_held a !! blk = Some h -> bio_bblockno h s = Done blk s.
Proof.
  intros R Hh. destruct (held_buf s a blk h R Hh) as ((_ & _ & <-) & _). done.
Qed.

Definition boot_bio (d : Z -> block) : bio :=
  match binit (power_on d) with Done _ s => s | _ => power_on d end.

Lemma boot_bio_rep d : bio_rep (boot_bio d) (booted d).
Proof. unfold boot_bio. destruct (binit_spec d) as (s & -> & H). exact H. Qed.

(** The buffer cache implements the block layer.  No other process holds a
    buffer the caller asks for, so [bget] never has to wait for its lock. *)
#[export] Instance bio_layer : BlockLayer bio := {
  bread dev blockno := bio_bread dev blockno 0;
  bwrite := bio_bwrite;
  brelse := bio_brelse;
  bpin := bio_bpin;
  bunpin := bio_bunpin;
  bdata := bio_bdata;
  bblockno := bio_bblockno;
  bmodify := bio_bmodify;
  boot := boot_bio;
  bl_dev := ROOTDEV;
  bl_rep := bio_rep;
  boot_law := boot_bio_rep;
  refs_law s a b c R := r_range s a R b c;
  bread_law s a b := bio_bread_law s a b 0;
  bdata_law := bio_bdata_law;
  bblockno_law := bio_bblockno_law;
  bmodify_law := bio_bmodify_law;
  bwrite_law := bio_bwrite_law;
  brelse_law := bio_brelse_law;
  bpin_law := bio_bpin_law;
  bunpin_law := bio_bunpin_law;
}.

(** ** Properties *)

(** [C22] [bread] of a block no one holds, with room in the cache, never panics
    or waits: it returns a buffer that holds the block's current contents,
    locked by the caller and counted once more, and the contents of no other
    block change, whichever buffer was recycled. *)
Theorem bread_returns_block s a blk fuel :
  bio_rep s a -> a_held a !! blk = None -> no_hazard a -> room a blk ->
  exists h s', bio_bread ROOTDEV blk fuel s = Done h s' /\
    bio_rep s' (hold blk h (add_ref blk 1 a)) /\ b_data (bufs s' h) = a_cache a blk /\
    b_blockno (bufs s' h) = blk /\ b_lock (bufs s' h) = mk_sleeplock false true pid.
Proof.
  intros R Hnh Hz Hroom. destruct (bio_bread_law s a blk fuel R Hnh Hz Hroom) as (h & s' & E & R').
  exists h, s'. split; [done|]. split; [done|].
  assert (a_held (hold blk h (add_ref blk 1 a)) !! blk = Some h) as Hh by (cbn; by rewrite lookup_insert_eq).
  destruct (held_buf _ _ _ _ R' Hh) as ((_ & _ & Hb) & Hok & Hl).
  destruct (ok_owner _ _ _ _ Hok Hl) as [Hp Hv]. pose proof (ok_data _ _ _ _ Hok) as Hd. rewrite Hv in Hd.
  split_and!; try done. pose proof (ok_spin _ _ _ _ Hok).
  destruct (b_lock (bufs s' h)) as [x y z]; simpl in *. congruence.
Qed.

(** [brelse] of a held buffer puts it at the most-recently-used end of the
    list when its count drops to zero and leaves the order of the others;
    recycling takes the first unused buffer from the other end. *)
Theorem brelse_keeps_lru_order s a blk h ord :
  bio_rep s a -> a_held a !! blk = Some h -> refs a blk = 1 -> a_cache a blk = a_disk a blk ->
  dll (bufs s) head ord head -> ord ≡ₚ seq 0 nbuf ->
  exists s' l1 l2, bio_brelse h s = Done tt s' /\ ord = l1 ++ h :: l2 /\
    dll (bufs s') head (h :: l1 ++ l2) head /\ b_refcnt (bufs s' h) = 0 /\
    bio_rep s' (unhold blk (add_ref blk (-1) a)).
Proof.
  intros R Hh Hr Hcl Hd Ho. destruct (bio_brelse_law s a blk h R Hh (or_intror Hcl)) as (s' & E & R').
  destruct (held_buf s a blk h R Hh) as (Hc & Hok & Hl). pose proof Hc as (Hi & _).
  destruct (ord_facts ord Ho) as (Hhd & Hnd & _ & He).
  pose proof (proj2 (He h) Hi) as Hin. apply list_elem_of_split in Hin as (l1 & l2 & ->).
  exists s', l1, l2. split; [done|]. split; [done|].
  revert E. unfold bio_brelse. rewrite (bind_Done _ _ _ _ _ (holding_buf_held s a blk h R Hh)). cbn [negb].
  assert (unlock_buf h s = Done tt (set_block_lock h (mk_sleeplock false false 0) s)) as Eu.
  { unfold unlock_buf. apply releasesleep_spec; [apply block_lens|apply Hok]. }
  rewrite (bind_Done _ _ _ _ _ Eu). set (s1 := set_block_lock _ _ _).
  unfold bc_acquire, acquire_lk, bind at 1. change (bc_lock s1) with (bc_lock s). rewrite (r_lock _ _ R).
  cbn [obind]. unfold modify, bind at 1, gets, bind at 1. cbn [obind]. set (s2 := upd_buf h _ _).
  assert (b_refcnt (bufs s2 h) = 0) as E2.
  { unfold s2, s1, set_block_lock. rewrite upd_buf_eq. cbn. rewrite fset_eq. cbn. rewrite (ok_refcnt _ _ _ _ Hok), Hr. done. }
  rewrite E2, Z.eqb_refl.
  assert (dll (bufs s2) head (l1 ++ h :: l2) head) as Hd2.
  { assert (forall j, b_next (bufs s2 j) = b_next (bufs s j) /\ b_prev (bufs s2 j) = b_prev (bufs s j)) as Hj.
    { intros j. unfold s2, s1, set_block_lock, upd_buf. cbn. unfold fset. repeat (case_decide; subst; cbn); done. }
    eapply dll_ext; [..|exact Hd]; intros j _; apply Hj. }
  destruct (to_front_spec s2 h l1 l2 Hd2) as (t' & E3 & D3 & I3).
  { by apply NoDup_cons. }
  rewrite (bind_Done _ _ _ _ _ E3). unfold bc_release, release_lk. change (bc_lock (set_bufs t' s2)) with true.
  intros [= <-]. split; [exact D3|]. split; [|exact R']. specialize (I3 h). unfold info in I3. injection I3 as _ _ _ _ E4 _. etrans; [exact E4|exact E2].
Qed.

(** When a block is not cached and every buffer is referenced, [bget] panics. *)
Lemma bget_panics_when_full s a blk fuel :
  bio_rep s a -> (forall i, ~ caches s i blk) ->
  (forall i, (i < nbuf)%nat -> b_refcnt (bufs s i) <> 0) ->
  bget ROOTDEV blk fuel s = Panicked "bget: no buffers".
Proof.
  intros R Hnc Hfull. destruct (r_linked _ _ R) as (ord & Hd & Ho).
  destruct (ord_facts ord Ho) as (Hh & _ & Hlen & He).
  unfold bget, bc_acquire, acquire_lk, bind at 1. rewrite (r_lock _ _ R). cbn [obind].
  unfold gets, bind at 1. cbn [obind]. change (bufs (set_bc_lock true s)) with (bufs s).
  rewrite (scan_next _ _ ord), (scan_prev _ _ ord) by (done || lia).
  destruct (List.find _ ord) as [i|] eqn:Ef.
  { apply find_some in Ef as [Hin [Hb1%Z.eqb_eq Hb2%Z.eqb_eq]%andb_true_iff].
    destruct (Hnc i). split; [|done]. apply He. by apply list_elem_of_In. }
  destruct (List.find _ (reverse ord)) as [i|] eqn:Ef2; [|done].
  apply find_some in Ef2 as [Hin Hu%Z.eqb_eq]. destruct (Hfull i); [|done].
  apply He. by apply elem_of_reverse, list_elem_of_In.
Qed.

End Bio.

(** *** Witnesses: the first read after boot *)

Definition demo_disk : Z -> block := fun b => [byte.of_Z b].

Lemma boot_room b : room (booted demo_disk) b.
Proof. right. cbn. rewrite map_size_empty. done. Qed.

Lemma boot_no_hazard : no_hazard (booted demo_disk).
Proof. intros b h. cbn. by rewrite lookup_empty. Qed.

Lemma bread_returns_block_witness :
  exists h s', bio_bread 7 ROOTDEV 33 0 (boot_bio demo_disk) = Done h s' /\ b_data (bufs s' h) = [byte.of_Z 33].
Proof.
  destruct (bread_returns_block 7 (boot_bio demo_disk) (booted demo_disk) 33 0 (boot_bio_rep 7 demo_disk))
    as (h & s' & E & _ & D & _); [apply lookup_empty|apply boot_no_hazard|apply boot_room|].
  exists h, s'. split; [exact E|exact D].
Defined.

Lemma brelse_keeps_lru_order_witness :
  exists h s s', bio_bread 7 ROOTDEV 33 0 (boot_bio demo_disk) = Done h s /\
    bio_brelse 7 h s = Done tt s' /\ b_refcnt (bufs s' h) = 0.
Proof.
  destruct (bio_bread_law 7 (boot_bio demo_disk) (booted demo_disk) 33 0 (boot_bio_rep 7 demo_disk))
    as (h & s & E & R); [apply lookup_empty|apply boot_no_hazard|apply boot_room|].
  destruct (r_linked _ _ _ R) as (ord & Hd & Ho).
  destruct (brelse_keeps_lru_order 7 s _ 33 h ord R) as (s' & l1 & l2 & E' & _ & _ & Hz & _).
  - cbn. apply lookup_insert_eq.
  - reflexivity.
  - reflexivity.
  - exact Hd.
  - exact Ho.
  - exists h, s, s'. split; [exact E|]. split; [exact E'|exact Hz].
Defined.
