(* ===== verification/Log.v ===== *)
(** * Write-ahead log: kernel/log.c

    The log is written against the [BlockLayer] interface; the theorems hold
    for every implementation of it, in particular for the buffer cache of
    Bio.v.  [lstate] is the log's own state beside the block layer's. *)

From S2P Require Import Prelude CMem Riscv BlockLayer.

(** ** Words in a block: the on-disk header *)

Definition get32 (d : block) (off : nat) : Z := le_combine (take 4 (drop off d)).
Definition put32 (d : block) (off : nat) (v : Z) : block := list_inserts off (le_split 4 v) d.

(** [struct logheader] and [struct log]; [block[]] as a table. *)
Record log := mk_log {
  lg_lock : bool;
  lg_start : Z;
  lg_size : Z;
  lg_outstanding : Z;
  lg_committing : bool;
  lg_dev : Z;
  lh_n : Z;
  lh_block : Z -> Z;
}.

(** Access to the header in a buffer: [hb->n], [hb->block[i]]. *)
Definition hdr_n (d : block) : Z := s32 (get32 d 0).
Definition hdr_block (d : block) (i : Z) : Z := s32 (get32 d (Z.to_nat (4 + 4 * i))).

(** [hb->n = n; for (i = 0; i < n; i++) hb->block[i] = block[i]] *)
Fixpoint put_blocks (blk : Z -> Z) (i : Z) (left : nat) (d : block) : block :=
  match left with
  | O => d
  | S left' => put_blocks blk (i + 1) left' (put32 d (Z.to_nat (4 + 4 * i)) (blk i))
  end.
Definition put_header (n : Z) (blk : Z -> Z) (d : block) : block :=
  put_blocks blk 0 (Z.to_nat n) (put32 d 0 n).

Section Log.

Context {S : Type} `{BL : BlockLayer S}.

Record lstate := mk_lstate { lg : log; bs : S }.

Definition set_lg (l : log) (s : lstate) : lstate := mk_lstate l (bs s).
Definition set_bs (b : S) (s : lstate) : lstate := mk_lstate (lg s) b.
Definition onb {A} (m : M S A) : M lstate A := lift bs set_bs m.

Definition set_lg_lock (b : bool) (l : log) : log :=
  mk_log b (lg_start l) (lg_size l) (lg_outstanding l) (lg_committing l) (lg_dev l) (lh_n l) (lh_block l).
Definition set_outstanding (z : Z) (l : log) : log :=
  mk_log (lg_lock l) (lg_start l) (lg_size l) z (lg_committing l) (lg_dev l) (lh_n l) (lh_block l).
Definition set_committing (b : bool) (l : log) : log :=
  mk_log (lg_lock l) (lg_start l) (lg_size l) (lg_outstanding l) b (lg_dev l) (lh_n l) (lh_block l).
Definition set_header (n : Z) (blk : Z -> Z) (l : log) : log :=
  mk_log (lg_lock l) (lg_start l) (lg_size l) (lg_outstanding l) (lg_committing l) (lg_dev l) n blk.
Definition modify_lg (f : log -> log) : M lstate unit := modify (fun s => set_lg (f (lg s)) s).

Definition log_acquire : M lstate unit :=
  acquire_lk (fun s => lg_lock (lg s)) (fun b s => set_lg (set_lg_lock b (lg s)) s).
Definition log_release : M lstate unit :=
  release_lk (fun s => lg_lock (lg s)) (fun b s => set_lg (set_lg_lock b (lg s)) s).
Definition log_sleep : M lstate unit :=
  sleep_lk (fun s => lg_lock (lg s)) (fun b s => set_lg (set_lg_lock b (lg s)) s) 0.

(** ** Operations *)

Fixpoint install_loop (tail : Z) (left : nat) : M lstate unit :=
  match left with
  | O => ret tt
  | Datatypes.S left' =>
      l <- gets lg ;;
      lbuf <- onb (bread (lg_dev l) (lg_start l + tail + 1)) ;;
      dbuf <- onb (bread (lg_dev l) (lh_block l tail)) ;;
      d <- onb (bdata lbuf) ;;
      onb (bmodify dbuf (fun _ => d)) ;;;
      onb (bwrite dbuf) ;;;
      onb (bunpin dbuf) ;;;
      onb (brelse lbuf) ;;;
      onb (brelse dbuf) ;;;
      install_loop (tail + 1) left'
  end.

Definition install_trans : M lstate unit :=
  n <- gets (fun s => lh_n (lg s)) ;;
  install_loop 0 (Z.to_nat n).

Definition read_head : M lstate unit :=
  l <- gets lg ;;
  buf <- onb (bread (lg_dev l) (lg_start l)) ;;
  d <- onb (bdata buf) ;;
  modify_lg (fun l => set_header (hdr_n d)
    (fun i => if (0 <=? i) && (i <? hdr_n d) then hdr_block d i else lh_block l i) l) ;;;
  onb (brelse buf).

Definition write_head : M lstate unit :=
  l <- gets lg ;;
  buf <- onb (bread (lg_dev l) (lg_start l)) ;;
  onb (bmodify buf (put_header (lh_n l) (lh_block l))) ;;;
  onb (bwrite buf) ;;;
  onb (brelse buf).

Definition recover_from_log : M lstate unit :=
  read_head ;;;
  install_trans ;;;
  modify_lg (fun l => set_header 0 (lh_block l) l) ;;;
  write_head.

(** [sizeof(struct logheader)] is [4 + 4 * LOGSIZE]. *)
Definition initlog (dev logstart nlog : Z) : M lstate unit :=
  if 4 + 4 * LOGSIZE >=? BSIZE then panic "initlog: too big logheader" else
  modify_lg (set_lg_lock false) ;;;
  modify_lg (fun l => mk_log (lg_lock l) logstart nlog (lg_outstanding l) (lg_committing l) dev
                        (lh_n l) (lh_block l)) ;;;
  recover_from_log.

(** The loop of [begin_op]; the fuel bounds the wake-ups. *)
Fixpoint begin_op_loop (fuel : nat) : M lstate unit :=
  l <- gets lg ;;
  if lg_committing l || (lh_n l + (lg_outstanding l + 1) * MAXOPBLOCKS >? LOGSIZE) then
    match fuel with
    | O => exhausted
    | Datatypes.S f => log_sleep ;;; begin_op_loop f
    end
  else
    modify_lg (fun l => set_outstanding (lg_outstanding l + 1) l) ;;;
    log_release.

Definition begin_op (fuel : nat) : M lstate unit := log_acquire ;;; begin_op_loop fuel.

Fixpoint write_log_loop (tail : Z) (left : nat) : M lstate unit :=
  match left with
  | O => ret tt
  | Datatypes.S left' =>
      l <- gets lg ;;
      to <- onb (bread (lg_dev l) (lg_start l + tail + 1)) ;;
      from <- onb (bread (lg_dev l) (lh_block l tail)) ;;
      d <- onb (bdata from) ;;
      onb (bmodify to (fun _ => d)) ;;;
      onb (bwrite to) ;;;
      onb (brelse from) ;;;
      onb (brelse to) ;;;
      write_log_loop (tail + 1) left'
  end.

Definition write_log : M lstate unit :=
  n <- gets (fun s => lh_n (lg s)) ;;
  write_log_loop 0 (Z.to_nat n).

Definition commit : M lstate unit :=
  n <- gets (fun s => lh_n (lg s)) ;;
  if n >? 0 then
    write_log ;;;
    write_head ;;;
    install_trans ;;;
    modify_lg (fun l => set_header 0 (lh_block l) l) ;;;
    write_head
  else ret tt.

Definition end_op : M lstate unit :=
  log_acquire ;;;
  modify_lg (fun l => set_outstanding (lg_outstanding l - 1) l) ;;;
  l <- gets lg ;;
  if lg_committing l then panic "log.committing" else
  let do_commit := lg_outstanding l =? 0 in
  (if do_commit then modify_lg (set_committing true) else wakeup_chan 0) ;;;
  log_release ;;;
  if do_commit then
    commit ;;;
    log_acquire ;;;
    modify_lg (set_committing false) ;;;
    wakeup_chan 0 ;;;
    log_release
  else ret tt.

(** [for (i = 0; i < log.lh.n; i++) if (log.lh.block[i] == b) break;] *)
Fixpoint find_block (blk : Z -> Z) (b : Z) (i : Z) (left : nat) : Z :=
  match left with
  | O => i
  | Datatypes.S left' => if blk i =? b then i else find_block blk b (i + 1) left'
  end.

Definition log_write (h : nat) : M lstate unit :=
  l <- gets lg ;;
  if (lh_n l >=? LOGSIZE) || (lh_n l >=? lg_size l - 1) then panic "too big a transaction" else
  if lg_outstanding l <? 1 then panic "log_write outside of trans" else
  log_acquire ;;;
  b <- onb (bblockno h) ;;
  let i := find_block (lh_block l) b 0 (Z.to_nat (lh_n l)) in
  modify_lg (fun l => set_header (lh_n l) (fset (lh_block l) i b) l) ;;;
  (if i =? lh_n l then
     onb (bpin h) ;;;
     modify_lg (fun l => set_header (lh_n l + 1) (lh_block l) l)
   else ret tt) ;;;
  log_release.

(** ** The header codec *)

Lemma get_put_same d off v : (off + 4 <= length d)%nat -> get32 (put32 d off v) off = u32 v.
Proof.
  intros H. unfold get32, put32.
  assert (take 4 (drop off (list_inserts off (le_split 4 v) d)) = le_split 4 v) as ->; [|apply le_combine_split].
  apply list_eq. intros i. pose proof (length_le_split 4 v) as Hl.
  destruct (decide (i < 4)%nat) as [Hi|Hi].
  - rewrite lookup_take_lt by done. rewrite lookup_drop.
    rewrite list_lookup_inserts by (rewrite ?Hl; lia). f_equal. lia.
  - rewrite lookup_take_ge by lia. symmetry. apply lookup_ge_None. lia.
Qed.

Lemma get_put_other d off off' v :
  (off + 4 <= off' \/ off' + 4 <= off)%nat -> get32 (put32 d off v) off' = get32 d off'.
Proof.
  intros H. unfold get32, put32. f_equal. apply list_eq. intros i. pose proof (length_le_split 4 v) as Hl.
  destruct (decide (i < 4)%nat) as [Hi|Hi]; [|by rewrite !lookup_take_ge by lia].
  rewrite !lookup_take_lt, !lookup_drop by done.
  destruct H; [apply list_lookup_inserts_ge; rewrite Hl; lia|apply list_lookup_inserts_lt; lia].
Qed.

Lemma length_put32 d off v : length (put32 d off v) = length d.
Proof. apply length_inserts. Qed.

Lemma length_put_blocks blk k : forall i d, length (put_blocks blk i k d) = length d.
Proof. induction k as [|k IH]; intros i d; simpl; [done|]. by rewrite IH, length_put32. Qed.

Lemma put_blocks_before blk k : forall i d off,
  0 <= i -> (off + 4 <= Z.to_nat (4 + 4 * i))%nat -> get32 (put_blocks blk i k d) off = get32 d off.
Proof.
  induction k as [|k IH]; intros i d off Hi Ho; simpl; [done|].
  rewrite IH by lia. apply get_put_other. lia.
Qed.

Lemma put_blocks_get blk k : forall i d j,
  0 <= i -> (Z.to_nat (4 + 4 * (i + Z.of_nat k)) <= length d)%nat -> i <= j < i + Z.of_nat k ->
  get32 (put_blocks blk i k d) (Z.to_nat (4 + 4 * j)) = u32 (blk j).
Proof.
  induction k as [|k IH]; intros i d j Hi Hl Hj; [lia|]. simpl.
  destruct (decide (j = i)) as [->|Hne].
  - rewrite put_blocks_before by lia. apply get_put_same. lia.
  - apply IH; [lia|rewrite length_put32; lia|lia].
Qed.

Definition int_ok (z : Z) : Prop := 0 <= z < 2 ^ 31.

Lemma s32_int z : int_ok z -> s32 (u32 z) = z.
Proof. intros [? ?]. rewrite u32_small, s32_small by lia. done. Qed.

(** A header that was written is read back. *)
Lemma put_header_read n blk d :
  int_ok n -> 4 + 4 * n <= Z.of_nat (length d) ->
  hdr_n (put_header n blk d) = n /\
  (forall i, 0 <= i < n -> int_ok (blk i) -> hdr_block (put_header n blk d) i = blk i) /\
  length (put_header n blk d) = length d.
Proof.
  intros Hn Hl. unfold hdr_n, hdr_block, put_header. split_and!.
  - rewrite put_blocks_before by lia. rewrite get_put_same by (destruct Hn; lia). by apply s32_int.
  - intros i Hi Hok. rewrite put_blocks_get; [by apply s32_int|lia| |destruct Hn; lia].
    rewrite length_put32. destruct Hn. lia.
  - by rewrite length_put_blocks, length_put32.
Qed.

(** ** Abstract effects *)

(** A block written through to the disk. *)
Definition store (b : Z) (d : block) (a : blocks) : blocks :=
  mk_blocks (fset (a_disk a) b d) (fset (a_cache a) b d) (a_refs a) (a_held a) (a_writes a ++ [(b, d)]).

Definition wf (a : blocks) : Prop := forall b c, a_refs a !! b = Some c -> 0 < c < 2 ^ 32.

Lemma wf_add_ref b d a : wf a -> wf (add_ref b d a).
Proof.
  intros H x c. unfold add_ref, with_refs, set_count. cbn. pose proof (u32_range (refs a b + d)).
  destruct (Z.eqb_spec (u32 (refs a b + d)) 0).
  - intros [_ Hx]%lookup_delete_Some. by eapply H.
  - intros [[_ <-]|[_ Hx]]%lookup_insert_Some; [lia|by eapply H].
Qed.

Lemma refs_range a b : wf a -> 0 <= refs a b < 2 ^ 32.
Proof. intros H. unfold refs. destruct (a_refs a !! b) eqn:E; simpl; [apply H in E|]; lia. Qed.

Lemma refs_ext a a' : wf a -> wf a' -> (forall x, refs a x = refs a' x) -> a_refs a = a_refs a'.
Proof.
  intros H H' E. apply map_eq. intros x. specialize (E x). unfold refs in E.
  destruct (a_refs a !! x) eqn:E1, (a_refs a' !! x) eqn:E2; simpl in E; [congruence|..|done].
  - apply H in E1. lia.
  - apply H' in E2. lia.
Qed.

Lemma refs_add b d a x : refs (add_ref b d a) x = if decide (x = b) then u32 (refs a b + d) else refs a x.
Proof.
  unfold refs at 1, add_ref, with_refs, set_count. cbn [a_refs].
  destruct (Z.eqb_spec (u32 (refs a b + d)) 0) as [E|E]; case_decide; subst; simplify_map_eq; done.
Qed.

Lemma size_add_one b a : refs a b = 0 -> wf a -> size (a_refs (add_ref b 1 a)) = Datatypes.S (size (a_refs a)).
Proof.
  intros H Hw. unfold add_ref, with_refs, set_count. cbn [a_refs]. rewrite H. cbn.
  apply map_size_insert_None. unfold refs in H. destruct (a_refs a !! b) eqn:E; [|done].
  apply Hw in E. simpl in H. lia.
Qed.

Lemma u32_back r : 0 <= r < 2 ^ 32 -> u32 (u32 (r + 1) + -1) = r.
Proof. intros H. unfold u32. rewrite Zplus_mod_idemp_l. replace (r + 1 + -1) with r by lia. by apply u32_small. Qed.

Lemma rep_wf s a : bl_rep s a -> wf a.
Proof. intros H b c Hc. by apply (refs_law s a b c). Qed.

Lemma onb_Done {A} (m : M S A) s a b : m (bs s) = Done a b -> onb m s = Done a (set_bs b s).
Proof. intros H. unfold onb, lift. by rewrite H. Qed.

Lemma onb_bind {A B} (m : M S A) (k : A -> M lstate B) s a b :
  m (bs s) = Done a b -> bind (onb m) k s = k a (set_bs b s).
Proof. intros H. by apply bind_Done, onb_Done. Qed.

(** Run the next block operation with the given law. *)
Ltac step_b E := etrans; [eapply onb_bind; exact E|].

Lemma no_hazard_empty a : a_held a = ∅ -> no_hazard a.
Proof. intros H b h. by rewrite H, lookup_empty. Qed.

Lemma blocks_eq a a' :
  a_disk a = a_disk a' -> a_cache a = a_cache a' -> a_refs a = a_refs a' -> a_held a = a_held a' ->
  a_writes a = a_writes a' -> a = a'.
Proof. destruct a, a'. simpl. by intros -> -> -> -> ->. Qed.

(** The accesses to block [b], nothing else being held. *)
Lemma rmw_spec s a b f :
  bl_rep (bs s) a -> a_held a = ∅ -> room a b ->
  exists s', (buf <- onb (bread bl_dev b) ;; onb (bmodify buf f) ;;; onb (bwrite buf) ;;; onb (brelse buf)) s
             = Done tt (set_bs s' s) /\ bl_rep s' (store b (f (a_cache a b)) a).
Proof.
  intros R Hh Hroom. pose proof (rep_wf _ _ R) as Hw.
  destruct (bread_law (bs s) a b R) as (h & s1 & E1 & R1); [by rewrite Hh|by apply no_hazard_empty|done|].
  destruct (bmodify_law s1 _ b h f R1) as (s2 & E2 & R2); [cbn; by rewrite lookup_insert_eq|].
  destruct (bwrite_law s2 _ b h R2) as (s3 & E3 & R3); [cbn; by rewrite lookup_insert_eq|].
  destruct (brelse_law s3 _ b h R3) as (s4 & E4 & R4);
    [cbn; by rewrite lookup_insert_eq|right; cbn; by rewrite !fset_eq|].
  exists s4. split.
  - step_b E1. step_b E2. step_b E3. exact (onb_Done _ (set_bs s3 s) _ _ E4).
  - match goal with H : bl_rep s4 ?x |- _ => assert (x = store b (f (a_cache a b)) a) as <-; [|done] end.
    unfold store, unhold, put_disk, put_cache, hold. cbn. rewrite fset_eq. f_equal.
    + apply (refs_ext (add_ref b (-1) (add_ref b 1 a)) a); [by do 2 apply wf_add_ref|done|].
      intros x. rewrite !refs_add. repeat case_decide; try done. subst. by apply u32_back, refs_range.
    + rewrite Hh. apply delete_insert_id. by rewrite lookup_empty.
Qed.

(** ** One iteration of the copying loops *)

Lemma install_step s a lb b {B} (k : M lstate B) :
  bl_rep (bs s) a -> a_held a = ∅ -> lb <> b -> refs a lb = 0 -> a_cache a lb = a_disk a lb ->
  Z.of_nat (size (a_refs a)) < NBUF -> refs a b <> 0 \/ Z.of_nat (size (a_refs a)) + 1 < NBUF ->
  exists s', (lbuf <- onb (bread bl_dev lb) ;; dbuf <- onb (bread bl_dev b) ;; d <- onb (bdata lbuf) ;;
              onb (bmodify dbuf (fun _ => d)) ;;; onb (bwrite dbuf) ;;; onb (bunpin dbuf) ;;;
              onb (brelse lbuf) ;;; onb (brelse dbuf) ;;; k) s = k (set_bs s' s) /\
    bl_rep s' (add_ref b (-1) (store b (a_cache a lb) a)).
Proof.
  intros R Hh Hne Hlb Hcl Hsz Hb. pose proof (rep_wf _ _ R) as Hw.
  destruct (bread_law (bs s) a lb R) as (h1 & s1 & E1 & R1);
    [by rewrite Hh|by apply no_hazard_empty|by right|].
  set (a1 := hold lb h1 (add_ref lb 1 a)) in *.
  assert (refs a1 lb = 1) as Hr1.
  { change (refs a1 lb) with (refs (add_ref lb 1 a) lb). rewrite refs_add. case_decide; [|done]. by rewrite Hlb. }
  assert (refs a1 b = refs a b) as Hr2.
  { change (refs a1 b) with (refs (add_ref lb 1 a) b). rewrite refs_add. by case_decide. }
  destruct (bread_law s1 a1 b R1) as (h2 & s2 & E2 & R2).
  { cbn. rewrite Hh, lookup_insert_ne by done. apply lookup_empty. }
  { intros x h. cbn. rewrite Hh. intros [[<- _]|[_ ?]]%lookup_insert_Some; [lia|]. by simplify_map_eq. }
  { unfold room. rewrite Hr2. destruct Hb as [|Hb]; [by left|right].
    change (a_refs a1) with (a_refs (add_ref lb 1 a)). rewrite size_add_one by done. lia. }
  set (a2 := hold b h2 (add_ref b 1 a1)) in *.
  assert (a_held a2 !! lb = Some h1 /\ a_held a2 !! b = Some h2) as [Hh1 Hh2] by (cbn; by simplify_map_eq).
  pose proof (bdata_law s2 a2 lb h1 R2 Hh1) as E3. change (a_cache a2 lb) with (a_cache a lb) in E3.
  destruct (bmodify_law s2 a2 b h2 (fun _ => a_cache a lb) R2 Hh2) as (s4 & E4 & R4).
  destruct (bwrite_law s4 _ b h2 R4) as (s5 & E5 & R5); [done|].
  destruct (bunpin_law s5 _ b h2 R5) as (s6 & E6 & R6); [done|].
  destruct (brelse_law s6 _ lb h1 R6) as (s7 & E7 & R7); [done|right; cbn; by rewrite !fset_ne|].
  destruct (brelse_law s7 _ b h2 R7) as (s8 & E8 & R8);
    [cbn; by rewrite lookup_delete_ne|right; cbn; by rewrite !fset_eq|].
  exists s8. split.
  - step_b E1. step_b E2. step_b E3. step_b E4. step_b E5. step_b E6. step_b E7. step_b E8. done.
  - match goal with H : bl_rep s8 ?x |- _ =>
      assert (x = add_ref b (-1) (store b (a_cache a lb) a)) as <-; [|done] end.
    apply blocks_eq.
    + cbn. by rewrite fset_eq.
    + done.
    + apply (refs_ext (add_ref b (-1) (add_ref lb (-1) (add_ref b (-1) (add_ref b 1 (add_ref lb 1 a)))))
        (add_ref b (-1) (store b (a_cache a lb) a))); [by do 5 apply wf_add_ref|by apply wf_add_ref|].
      intros x. rewrite !refs_add. change (refs (store b (a_cache a lb) a)) with (refs a).
      pose proof (refs_range a b Hw). pose proof (refs_range a lb Hw).
      repeat case_decide; subst; try done; rewrite ?u32_back by done; done.
    + cbn. rewrite Hh. rewrite (delete_insert_ne _ _ _ h2) by done. rewrite !delete_insert_id; [done|apply lookup_empty|].
      by rewrite delete_insert_id by apply lookup_empty.
    + cbn. by rewrite fset_eq.
Qed.

Lemma wlog_step s a lb b {B} (k : M lstate B) :
  bl_rep (bs s) a -> a_held a = ∅ -> lb <> b -> refs a lb = 0 -> refs a b <> 0 ->
  Z.of_nat (size (a_refs a)) < NBUF ->
  exists s', (to <- onb (bread bl_dev lb) ;; from <- onb (bread bl_dev b) ;; d <- onb (bdata from) ;;
              onb (bmodify to (fun _ => d)) ;;; onb (bwrite to) ;;;
              onb (brelse from) ;;; onb (brelse to) ;;; k) s = k (set_bs s' s) /\
    bl_rep s' (store lb (a_cache a b) a).
Proof.
  intros R Hh Hne Hlb Hb Hsz. pose proof (rep_wf _ _ R) as Hw.
  pose proof (refs_range a b Hw) as Hrb. pose proof (refs_range a lb Hw) as Hrl.
  destruct (bread_law (bs s) a lb R) as (h1 & s1 & E1 & R1);
    [by rewrite Hh|by apply no_hazard_empty|by right|].
  set (a1 := hold lb h1 (add_ref lb 1 a)) in *.
  assert (refs a1 lb = 1) as Hr1.
  { change (refs a1 lb) with (refs (add_ref lb 1 a) lb). rewrite refs_add. case_decide; [|done]. by rewrite Hlb. }
  assert (refs a1 b = refs a b) as Hr2.
  { change (refs a1 b) with (refs (add_ref lb 1 a) b). rewrite refs_add. by case_decide. }
  destruct (bread_law s1 a1 b R1) as (h2 & s2 & E2 & R2).
  { cbn. rewrite Hh, lookup_insert_ne by done. apply lookup_empty. }
  { intros x h. cbn. rewrite Hh. intros [[<- _]|[_ ?]]%lookup_insert_Some; [lia|]. by simplify_map_eq. }
  { left. by rewrite Hr2. }
  set (a2 := hold b h2 (add_ref b 1 a1)) in *.
  assert (a_held a2 !! lb = Some h1 /\ a_held a2 !! b = Some h2) as [Hh1 Hh2] by (cbn; by simplify_map_eq).
  pose proof (bdata_law s2 a2 b h2 R2 Hh2) as E3. change (a_cache a2 b) with (a_cache a b) in E3.
  destruct (bmodify_law s2 a2 lb h1 (fun _ => a_cache a b) R2 Hh1) as (s4 & E4 & R4).
  destruct (bwrite_law s4 _ lb h1 R4) as (s5 & E5 & R5); [done|].
  destruct (brelse_law s5 _ b h2 R5) as (s6 & E6 & R6); [done| |].
  { left. match goal with |- u32 (refs ?x b - 1) <> 0 => change (refs x b) with (refs (add_ref b 1 a1) b) end.
    rewrite refs_add. case_decide; [|done]. rewrite Hr2. change (?x - 1) with (x + -1). by rewrite u32_back. }
  destruct (brelse_law s6 _ lb h1 R6) as (s7 & E7 & R7);
    [cbn; by rewrite lookup_delete_ne|right; cbn; by rewrite !fset_eq|].
  exists s7. split.
  - step_b E1. step_b E2. step_b E3. step_b E4. step_b E5. step_b E6. step_b E7. done.
  - match goal with H : bl_rep s7 ?x |- _ => assert (x = store lb (a_cache a b) a) as <-; [|done] end.
    apply blocks_eq.
    + cbn. by rewrite fset_eq.
    + done.
    + apply (refs_ext (add_ref lb (-1) (add_ref b (-1) (add_ref b 1 (add_ref lb 1 a)))) a);
        [by do 4 apply wf_add_ref|done|].
      intros x. rewrite !refs_add. repeat case_decide; subst; try done; rewrite ?u32_back by done; done.
    + cbn. rewrite Hh. rewrite delete_insert_id by (rewrite lookup_insert_ne by done; apply lookup_empty).
      apply delete_insert_id, lookup_empty.
    + cbn. by rewrite fset_eq.
Qed.

(** ** Whole loops *)

(** The number of disk blocks of the log, header included. *)
Context (sz : Z).

Definition outside_log (st b : Z) : Prop := b < st \/ st + sz <= b.

(** The home blocks of a transaction: distinct, outside the log. *)
Record geometry (st n : Z) (blk : Z -> Z) : Prop := {
  geo_n : 0 <= n < NBUF;
  geo_fits : n < sz;
  geo_out i : 0 <= i < n -> int_ok (blk i) /\ outside_log st (blk i);
  geo_inj i j : 0 <= i < n -> 0 <= j < n -> blk i = blk j -> i = j;
}.

Lemma geo_home st n blk : geometry st n blk ->
  forall i, 0 <= i < n -> int_ok (blk i) /\ (blk i < st \/ st + n < blk i).
Proof. intros [_ Hn Ho _] i Hi. destruct (Ho i Hi) as [? [?|?]]; (split; [done|lia]). Qed.

(** The abstract effect of the loops on [left] entries starting at [tail]. *)
Fixpoint logged (st : Z) (blk : Z -> Z) (tail : Z) (left : nat) (a : blocks) : blocks :=
  match left with
  | O => a
  | Datatypes.S k => logged st blk (tail + 1) k (store (st + tail + 1) (a_cache a (blk tail)) a)
  end.

Fixpoint installed (st : Z) (blk : Z -> Z) (tail : Z) (left : nat) (a : blocks) : blocks :=
  match left with
  | O => a
  | Datatypes.S k => installed st blk (tail + 1) k
      (add_ref (blk tail) (-1) (store (blk tail) (a_cache a (st + tail + 1)) a))
  end.

Lemma write_log_loop_spec k : forall s a st n blk tail,
  lg_start (lg s) = st -> lh_block (lg s) = blk -> lg_dev (lg s) = bl_dev ->
  geometry st n blk -> 0 <= tail -> tail + Z.of_nat k <= n ->
  bl_rep (bs s) a -> a_held a = ∅ -> Z.of_nat (size (a_refs a)) < NBUF ->
  (forall j, 0 <= j < n -> refs a (st + j + 1) = 0 /\ refs a (blk j) <> 0) ->
  exists s', write_log_loop tail k s = Done tt (set_bs s' s) /\ bl_rep s' (logged st blk tail k a).
Proof.
  induction k as [|k IH]; intros s a st n blk tail Hst Hblk Hdev G H0 Hn R Hh Hsz Hr.
  - exists (bs s). split; [by destruct s|done].
  - cbn [write_log_loop logged]. unfold gets, bind at 1. cbn [obind]. rewrite Hst, Hblk, Hdev.
    destruct (geo_home _ _ _ G tail ltac:(lia)) as [_ Hhome].
    destruct (wlog_step s a (st + tail + 1) (blk tail) (write_log_loop (tail + 1) k)) as (s1 & E & R1);
      try done; try (apply Hr; lia); [lia|].
    destruct (IH (set_bs s1 s) (store (st + tail + 1) (a_cache a (blk tail)) a) st n blk (tail + 1)) as (s2 & E2 & R2);
      try done; try lia.
    exists s2. split; [|done]. rewrite E. exact E2.
Qed.

(** [c] is the count of every home block: 1 when the transaction has pinned
    them, 0 during recovery. *)
Lemma install_loop_spec k : forall s a st n blk tail c,
  lg_start (lg s) = st -> lh_block (lg s) = blk -> lg_dev (lg s) = bl_dev ->
  geometry st n blk -> 0 <= tail -> tail + Z.of_nat k <= n ->
  bl_rep (bs s) a -> a_held a = ∅ ->
  (c = 1 /\ Z.of_nat (size (a_refs a)) < NBUF \/ c = 0 /\ Z.of_nat (size (a_refs a)) + Z.of_nat k < NBUF) ->
  (forall j, 0 <= j < n -> refs a (st + j + 1) = 0 /\ a_cache a (st + j + 1) = a_disk a (st + j + 1)) ->
  (forall j, tail <= j < n -> refs a (blk j) = c) ->
  exists s', install_loop tail k s = Done tt (set_bs s' s) /\ bl_rep s' (installed st blk tail k a).
Proof.
  induction k as [|k IH]; intros s a st n blk tail c Hst Hblk Hdev G H0 Hn R Hh Hsz Hlog Hc.
  - exists (bs s). split; [by destruct s|done].
  - cbn [install_loop installed]. unfold gets, bind at 1. cbn [obind]. rewrite Hst, Hblk, Hdev.
    destruct (geo_home _ _ _ G tail ltac:(lia)) as [_ Hhome].
    destruct (install_step s a (st + tail + 1) (blk tail) (install_loop (tail + 1) k)) as (s1 & E & R1); try done.
    { lia. }
    { apply Hlog. lia. }
    { apply Hlog. lia. }
    { lia. }
    { rewrite Hc by lia. lia. }
    set (a1 := add_ref (blk tail) (-1) (store (blk tail) (a_cache a (st + tail + 1)) a)) in *.
    assert (forall x, refs a1 x = if decide (x = blk tail) then u32 (c + -1) else refs a x) as Hr1.
    { intros x. unfold a1. rewrite refs_add. change (refs (store (blk tail) (a_cache a (st + tail + 1)) a)) with (refs a).
      by rewrite Hc by lia. }
    assert (c = 1 /\ Z.of_nat (size (a_refs a1)) < NBUF \/ c = 0 /\ Z.of_nat (size (a_refs a1)) + Z.of_nat k < NBUF) as Hsz1.
    { unfold a1, add_ref, with_refs, set_count. cbn [a_refs store].
      change (refs (store (blk tail) (a_cache a (st + tail + 1)) a) (blk tail)) with (refs a (blk tail)). rewrite Hc by lia.
      destruct Hsz as [[-> ?]|[-> ?]]; [left|right]; (split; [done|]).
      - change (u32 (1 + -1) =? 0) with true. cbv iota. rewrite map_size_delete. destruct (a_refs a !! blk tail); unfold id; lia.
      - change (u32 (0 + -1) =? 0) with false. cbv iota. rewrite map_size_insert. destruct (a_refs a !! blk tail); unfold id; lia. }
    destruct (IH (set_bs s1 s) a1 st n blk (tail + 1) c) as (s2 & E2 & R2); try done; try lia.
    + intros j Hj. destruct (geo_home _ _ _ G tail ltac:(lia)) as [_ Hj']. rewrite Hr1. destruct (Hlog j Hj).
      split; [case_decide; [lia|done]|]. cbn. by rewrite !fset_ne by lia.
    + intros j Hj. rewrite Hr1. case_decide as Hd; [|apply Hc; lia].
      apply (geo_inj _ _ _ G) in Hd; lia.
    + exists s2. split; [|done]. rewrite E. exact E2.
Qed.

(** ** Disk writes *)

Definition replay (d : Z -> block) (ws : list (Z * block)) : Z -> block :=
  foldl (fun d w => fset d (fst w) (snd w)) d ws.

(** What the two loops write, [C] being the contents they copy from. *)
Fixpoint log_ws (C : Z -> block) (st : Z) (blk : Z -> Z) (tail : Z) (left : nat) : list (Z * block) :=
  match left with
  | O => []
  | Datatypes.S k => (st + tail + 1, C (blk tail)) :: log_ws C st blk (tail + 1) k
  end.

Fixpoint inst_ws (C : Z -> block) (st : Z) (blk : Z -> Z) (tail : Z) (left : nat) : list (Z * block) :=
  match left with
  | O => []
  | Datatypes.S k => (blk tail, C (st + tail + 1)) :: inst_ws C st blk (tail + 1) k
  end.

Lemma replay_app d ws ws' : replay d (ws ++ ws') = replay (replay d ws) ws'.
Proof. apply foldl_app. Qed.

Lemma replay_other d ws b : Forall (fun w => fst w <> b) ws -> replay d ws b = d b.
Proof.
  revert d. induction ws as [|w ws IH]; intros d; [done|]. intros [Hw Hws]%Forall_cons.
  simpl. change (replay (fset d w.1 w.2) ws b = d b). rewrite IH by done. by apply fset_ne.
Qed.

Lemma log_ws_ext C C' st blk k : forall tail,
  (forall j, tail <= j < tail + Z.of_nat k -> C (blk j) = C' (blk j)) ->
  log_ws C st blk tail k = log_ws C' st blk tail k.
Proof.
  induction k as [|k IH]; intros tail H; simpl; [done|]. rewrite H by lia. f_equal. apply IH. intros. apply H. lia.
Qed.

Lemma inst_ws_ext C C' st blk k : forall tail,
  (forall j, tail <= j < tail + Z.of_nat k -> C (st + j + 1) = C' (st + j + 1)) ->
  inst_ws C st blk tail k = inst_ws C' st blk tail k.
Proof.
  induction k as [|k IH]; intros tail H; simpl; [done|]. rewrite H by lia. f_equal. apply IH. intros. apply H. lia.
Qed.

Lemma log_ws_blocks C st blk k : forall tail w, w ∈ log_ws C st blk tail k ->
  exists j, tail <= j < tail + Z.of_nat k /\ w = (st + j + 1, C (blk j)).
Proof.
  induction k as [|k IH]; intros tail w; simpl; [by intros ?%elem_of_nil|].
  intros [->|Hw]%elem_of_cons; [exists tail; split; [lia|done]|].
  destruct (IH _ _ Hw) as (j & Hj & ->). exists j. split; [lia|done].
Qed.

Lemma inst_ws_blocks C st blk k : forall tail w, w ∈ inst_ws C st blk tail k ->
  exists j, tail <= j < tail + Z.of_nat k /\ w = (blk j, C (st + j + 1)).
Proof.
  induction k as [|k IH]; intros tail w; simpl; [by intros ?%elem_of_nil|].
  intros [->|Hw]%elem_of_cons; [exists tail; split; [lia|done]|].
  destruct (IH _ _ Hw) as (j & Hj & ->). exists j. split; [lia|done].
Qed.

(** The value of an entry that is written once. *)
Lemma replay_log_ws C st blk k : forall tail d j,
  tail <= j < tail + Z.of_nat k -> replay d (log_ws C st blk tail k) (st + j + 1) = C (blk j).
Proof.
  induction k as [|k IH]; intros tail d j Hj; [lia|]. cbn [log_ws].
  change (replay (fset d (st + tail + 1) (C (blk tail))) (log_ws C st blk (tail + 1) k) (st + j + 1) = C (blk j)).
  destruct (decide (j = tail)) as [->|Hne]; [|apply IH; lia].
  rewrite replay_other; [apply fset_eq|]. apply Forall_forall. intros w Hw.
  apply log_ws_blocks in Hw as (i & Hi & ->). simpl. lia.
Qed.

Lemma replay_inst_ws C st n blk k : forall tail d j,
  geometry st n blk -> 0 <= tail -> tail + Z.of_nat k <= n -> tail <= j < tail + Z.of_nat k ->
  replay d (inst_ws C st blk tail k) (blk j) = C (st + j + 1).
Proof.
  induction k as [|k IH]; intros tail d j G H0 Hn Hj; [lia|]. cbn [inst_ws].
  change (replay (fset d (blk tail) (C (st + tail + 1))) (inst_ws C st blk (tail + 1) k) (blk j) = C (st + j + 1)).
  destruct (decide (j = tail)) as [->|Hne]; [|apply IH; [done|lia..]].
  rewrite replay_other; [apply fset_eq|]. apply Forall_forall. intros w Hw.
  apply inst_ws_blocks in Hw as (i & Hi & ->). simpl. intros E. apply (geo_inj _ _ _ G) in E; lia.
Qed.

Record logged_facts (st : Z) (blk : Z -> Z) (tail : Z) (k : nat) (a a' : blocks) : Prop := {
  lf_refs : a_refs a' = a_refs a;
  lf_held : a_held a' = a_held a;
  lf_disk : a_disk a' = replay (a_disk a) (log_ws (a_cache a) st blk tail k);
  lf_cache : a_cache a' = replay (a_cache a) (log_ws (a_cache a) st blk tail k);
  lf_writes : a_writes a' = a_writes a ++ log_ws (a_cache a) st blk tail k;
}.

Lemma logged_spec st n blk k : forall tail a,
  geometry st n blk -> 0 <= tail -> tail + Z.of_nat k <= n ->
  logged_facts st blk tail k a (logged st blk tail k a).
Proof.
  induction k as [|k IH]; intros tail a G H0 Hn; cbn [logged log_ws].
  { split; try done. by rewrite app_nil_r. }
  destruct (IH (tail + 1) (store (st + tail + 1) (a_cache a (blk tail)) a) G ltac:(lia) ltac:(lia)) as [F1 F2 F3 F4 F5].
  assert (log_ws (a_cache (store (st + tail + 1) (a_cache a (blk tail)) a)) st blk (tail + 1) k =
          log_ws (a_cache a) st blk (tail + 1) k) as E.
  { apply log_ws_ext. intros j Hj. cbn. apply fset_ne. destruct (geo_home _ _ _ G j ltac:(lia)). lia. }
  rewrite E in F3, F4, F5. split; try done. rewrite F5. cbn. by rewrite <- app_assoc.
Qed.

Record installed_facts (st : Z) (blk : Z -> Z) (tail : Z) (k : nat) (c : Z) (a a' : blocks) : Prop := {
  if_refs j : tail <= j < tail + Z.of_nat k -> refs a' (blk j) = u32 (c + -1);
  if_other x : (forall j, tail <= j < tail + Z.of_nat k -> x <> blk j) -> refs a' x = refs a x;
  if_held : a_held a' = a_held a;
  if_disk : a_disk a' = replay (a_disk a) (inst_ws (a_cache a) st blk tail k);
  if_cache : a_cache a' = replay (a_cache a) (inst_ws (a_cache a) st blk tail k);
  if_writes : a_writes a' = a_writes a ++ inst_ws (a_cache a) st blk tail k;
}.

Lemma installed_spec st n blk k c : forall tail a,
  geometry st n blk -> 0 <= tail -> tail + Z.of_nat k <= n ->
  (forall j, tail <= j < tail + Z.of_nat k -> refs a (blk j) = c) ->
  installed_facts st blk tail k c a (installed st blk tail k a).
Proof.
  induction k as [|k IH]; intros tail a G H0 Hn Hc; cbn [installed inst_ws].
  { split; try done; [lia|]. by rewrite app_nil_r. }
  set (a1 := add_ref (blk tail) (-1) (store (blk tail) (a_cache a (st + tail + 1)) a)).
  assert (forall x, refs a1 x = if decide (x = blk tail) then u32 (c + -1) else refs a x) as Hr1.
  { intros x. unfold a1. rewrite refs_add. change (refs (store (blk tail) (a_cache a (st + tail + 1)) a)) with (refs a).
    by rewrite Hc by lia. }
  assert (forall j, tail + 1 <= j < tail + 1 + Z.of_nat k -> blk j <> blk tail) as Hne.
  { intros j Hj E. apply (geo_inj _ _ _ G) in E; lia. }
  destruct (IH (tail + 1) a1 G ltac:(lia) ltac:(lia)) as [F1 F1' F2 F3 F4 F5].
  { intros j Hj. rewrite Hr1. case_decide; [by destruct (Hne j Hj)|]. apply Hc. lia. }
  assert (inst_ws (a_cache a1) st blk (tail + 1) k = inst_ws (a_cache a) st blk (tail + 1) k) as E.
  { apply inst_ws_ext. intros j Hj. cbn. apply fset_ne. destruct (geo_home _ _ _ G tail ltac:(lia)). lia. }
  rewrite E in F3, F4, F5. split; try done.
  - intros j Hj. destruct (decide (j = tail)) as [->|]; [|apply F1; lia].
    rewrite F1' by (intros i Hi E'; by apply (Hne i Hi)). rewrite Hr1. by case_decide.
  - intros x Hx. rewrite F1' by (intros j Hj; apply Hx; lia). rewrite Hr1. case_decide as Hd; [|done].
    by destruct (Hx tail ltac:(lia)).
  - rewrite F5. cbn. by rewrite <- app_assoc.
Qed.

Lemma write_head_spec s a :
  lg_dev (lg s) = bl_dev -> bl_rep (bs s) a -> a_held a = ∅ -> room a (lg_start (lg s)) ->
  exists s', write_head s = Done tt (set_bs s' s) /\
    bl_rep s' (store (lg_start (lg s)) (put_header (lh_n (lg s)) (lh_block (lg s)) (a_cache a (lg_start (lg s)))) a).
Proof.
  intros Hd R Hh Hroom. unfold write_head, gets, bind at 1. cbn [obind]. rewrite Hd.
  by apply rmw_spec.
Qed.

Lemma size_refs_le a a' : wf a' -> (forall x, refs a' x <> 0 -> refs a x <> 0) -> (size (a_refs a') <= size (a_refs a))%nat.
Proof.
  intros Hw H. rewrite <- !(size_dom (D := gset Z)). apply subseteq_size. intros x Hx.
  apply elem_of_dom in Hx as [c Hc]. apply elem_of_dom.
  assert (refs a x <> 0) as Hr.
  { apply H. unfold refs. rewrite Hc. simpl. apply Hw in Hc. lia. }
  unfold refs in Hr. destruct (a_refs a !! x); [by eexists|done].
Qed.

(** ** Recovery

    A disk from which recovery produces the contents [X] outside the log: its
    header lists home blocks whose new contents are in the log. *)
Record recoverable (st : Z) (d X : Z -> block) (n : Z) (blk : Z -> Z) : Prop := {
  rc_geo : geometry st n blk;
  rc_n : hdr_n (d st) = n;
  rc_blk i : 0 <= i < n -> hdr_block (d st) i = blk i;
  rc_len : Z.of_nat (length (d st)) = BSIZE;
  rc_data j : 0 <= j < n -> d (st + j + 1) = X (blk j);
  rc_rest b : outside_log st b -> (forall j, 0 <= j < n -> b <> blk j) -> d b = X b;
}.

Definition recovery_ws (st : Z) (d : Z -> block) (n : Z) (blk : Z -> Z) : list (Z * block) :=
  inst_ws d st blk 0 (Z.to_nat n) ++ [(st, put_header 0 blk (d st))].

Lemma read_head_spec s a :
  lg_dev (lg s) = bl_dev -> bl_rep (bs s) a -> a_held a = ∅ -> room a (lg_start (lg s)) ->
  a_cache a (lg_start (lg s)) = a_disk a (lg_start (lg s)) ->
  exists s', read_head s = Done tt s' /\ bl_rep (bs s') a /\
    lg s' = set_header (hdr_n (a_disk a (lg_start (lg s))))
      (fun i => if (0 <=? i) && (i <? hdr_n (a_disk a (lg_start (lg s)))) then hdr_block (a_disk a (lg_start (lg s))) i
                else lh_block (lg s) i) (lg s).
Proof.
  intros Hd R Hh Hroom Hcl. unfold read_head, gets, bind at 1. cbn [obind]. rewrite Hd.
  set (st := lg_start (lg s)) in *. pose proof (rep_wf _ _ R) as Hw.
  destruct (bread_law (bs s) a st R) as (h & s1 & E1 & R1); [by rewrite Hh|by apply no_hazard_empty|done|].
  pose proof (bdata_law s1 _ st h R1 ltac:(cbn; apply lookup_insert_eq)) as E2. cbn in E2.
  destruct (brelse_law s1 _ st h R1) as (s3 & E3 & R3); [cbn; apply lookup_insert_eq|by right|].
  eexists. split.
  - step_b E1. step_b E2. unfold modify_lg, modify, bind. cbn [obind]. eapply onb_Done. exact E3.
  - split; [|by rewrite Hcl]. cbn.
    match goal with H : bl_rep s3 ?x |- _ => assert (x = a) as <-; [|done] end.
    apply blocks_eq; try done.
    + apply (refs_ext (add_ref st (-1) (add_ref st 1 a)) a); [by do 2 apply wf_add_ref|done|].
      intros x. rewrite !refs_add. repeat case_decide; try done. subst. by apply u32_back, refs_range.
    + cbn. rewrite Hh. apply delete_insert_id, lookup_empty.
Qed.

Lemma in_tx_dec (blk : Z -> Z) n b : (exists j, 0 <= j < n /\ b = blk j) \/ (forall j, 0 <= j < n -> b <> blk j).
Proof.
  destruct (decide (Exists (fun j => b = blk j) (seqZ 0 n))) as [H|H].
  - left. apply Exists_exists in H as (j & Hj & ->). exists j. apply elem_of_seqZ in Hj. split; [lia|done].
  - right. intros j Hj ->. apply H, Exists_exists. exists j. split; [|done]. apply elem_of_seqZ. lia.
Qed.

Lemma prefix_app_cases {A} (p l1 l2 : list A) :
  p `prefix_of` l1 ++ l2 -> p `prefix_of` l1 \/ exists q, p = l1 ++ q /\ q `prefix_of` l2.
Proof.
  revert p. induction l1 as [|x l1 IH]; intros p Hp; simpl in *; [right; by exists p|].
  destruct p as [|y p]; [left; apply prefix_nil|].
  assert (x = y) as -> by (by apply prefix_cons_inv_1 in Hp).
  apply prefix_cons_inv_2 in Hp. destruct (IH p Hp) as [H|(q & -> & Hq)]; [left; by apply prefix_cons|right].
  by exists q.
Qed.

Lemma prefix_one {A} (p : list A) x : p `prefix_of` [x] -> p = [] \/ p = [x].
Proof.
  destruct p as [|y p]; [by left|]. intros Hp. right.
  assert (x = y) as -> by (by apply prefix_cons_inv_1 in Hp). apply prefix_cons_inv_2, prefix_nil_inv in Hp. by subst.
Qed.

Lemma prefix_Forall {A} (P : A -> Prop) p l : p `prefix_of` l -> Forall P l -> Forall P p.
Proof. intros [k ->] [H _]%Forall_app. done. Qed.

Lemma geometry_0 st n blk : geometry st n blk -> geometry st 0 blk.
Proof. intros [[? ?] ? _ _]. split; try lia; unfold NBUF, MAXOPBLOCKS; lia. Qed.

(** Any prefix of the installation leaves header, log and other blocks alone. *)
Lemma inst_prefix st n blk C d p :
  geometry st n blk -> p `prefix_of` inst_ws C st blk 0 (Z.to_nat n) ->
  replay d p st = d st /\ (forall j, 0 <= j < n -> replay d p (st + j + 1) = d (st + j + 1)) /\
  (forall b, (forall j, 0 <= j < n -> b <> blk j) -> replay d p b = d b).
Proof.
  intros G Hp.
  assert (forall b, (forall j, 0 <= j < n -> b <> blk j) -> replay d p b = d b) as Hother.
  { intros b Hb. apply replay_other. eapply prefix_Forall; [done|]. apply Forall_forall. intros w Hw.
    apply inst_ws_blocks in Hw as (j & Hj & ->). simpl. intros E. apply (Hb j); [|done]. lia. }
  split_and!; [| |done]; [apply Hother|intros i Hi; apply Hother]; intros j Hj;
    destruct (geo_home _ _ _ G j Hj); lia.
Qed.

Lemma recovery_prefix st d X n blk (p : list (Z * block)) :
  recoverable st d X n blk -> p `prefix_of` recovery_ws st d n blk ->
  exists n' blk', recoverable st (replay d p) X n' blk' /\ (p = recovery_ws st d n blk -> n' = 0).
Proof.
  intros [G Hn Hb Hl Hd Hr] [Hp|(q & -> & Hq)]%prefix_app_cases.
  - destruct (inst_prefix _ _ _ _ d _ G Hp) as (P1 & P2 & P3). exists n, blk. split.
    + split; rewrite ?P1; try done.
      * intros j Hj. rewrite P2 by done. by apply Hd.
      * intros b Ho Hne. rewrite P3 by done. by apply Hr.
    + intros ->. apply prefix_length in Hp. unfold recovery_ws in Hp. rewrite length_app in Hp. simpl in Hp. lia.
  - destruct (inst_prefix st n blk d d (inst_ws d st blk 0 (Z.to_nat n)) G ltac:(done)) as (P1 & P2 & P3).
    assert (forall b, outside_log st b -> replay d (inst_ws d st blk 0 (Z.to_nat n)) b = X b) as Hhome.
    { intros b Ho. destruct (in_tx_dec blk n b) as [(j & Hj & ->)|Hno].
      - rewrite (replay_inst_ws d st n) by (done || lia). by apply Hd.
      - rewrite P3 by done. by apply Hr. }
    apply prefix_one in Hq as [->| ->].
    + exists n, blk. rewrite app_nil_r. split.
      * split; rewrite ?P1; try done; [intros j Hj; rewrite P2 by done; by apply Hd|intros; by apply Hhome].
      * intros E. apply (f_equal length) in E. unfold recovery_ws in E. rewrite length_app in E. simpl in E. lia.
    + exists 0, blk. split; [|done]. rewrite replay_app.
      assert (replay (replay d (inst_ws d st blk 0 (Z.to_nat n))) [(st, put_header 0 blk (d st))] st
              = put_header 0 blk (d st)) as Est by (cbn; apply fset_eq).
      destruct (put_header_read 0 blk (d st)) as (Q1 & _ & Q3); [done|rewrite Hl; done|].
      split; rewrite ?Est; try done.
      * by eapply geometry_0.
      * intros; lia.
      * by rewrite Q3.
      * intros; lia.
      * intros b Ho _. cbn. rewrite fset_ne; [by apply Hhome|].
        destruct Ho; [lia|]. pose proof (geo_fits _ _ _ G). destruct (geo_n _ _ _ G). lia.
Qed.

Lemma recoverable_ext st d X n blk blk' :
  (forall i, 0 <= i < n -> blk' i = blk i) -> recoverable st d X n blk -> recoverable st d X n blk'.
Proof.
  intros H [[G1 G2 G3 G4] ? Hb ? Hd Hr]. split; try done.
  - split; try done.
    + intros i Hi. rewrite H by done. by apply G3.
    + intros i j Hi Hj. rewrite !H by done. by apply G4.
  - intros i Hi. rewrite H by done. by apply Hb.
  - intros j Hj. rewrite H by done. by apply Hd.
  - intros b Ho Hne. apply Hr; [done|]. intros j Hj. rewrite <- H by done. by apply Hne.
Qed.

(** What recovery reaches from disk [d]: the contents [X] outside the log, an
    empty log, and every prefix of its writes again recoverable. *)
Record recovered (st : Z) (d X : Z -> block) (n : Z) (blk : Z -> Z) (s' : lstate) (a' : blocks) : Prop := {
  rd_rep : bl_rep (bs s') a';
  rd_held : a_held a' = ∅;
  rd_n : lh_n (lg s') = 0;
  rd_disk : a_disk a' = replay d (a_writes a');
  rd_crash (p : list (Z * block)) : p `prefix_of` a_writes a' ->
    exists n' blk', recoverable st (replay d p) X n' blk';
  rd_home b : outside_log st b -> a_disk a' b = X b;
  rd_empty : hdr_n (a_disk a' st) = 0;
  rd_leak j : 0 <= j < n -> refs a' (blk j) = 2 ^ 32 - 1;
}.

Lemma initlog_spec l0 nlog st d X n blk :
  recoverable st d X n blk ->
  exists s' a', initlog bl_dev st nlog (mk_lstate l0 (boot d)) = Done tt s' /\ recovered st d X n blk s' a'.
Proof.
  intros Hrc. unfold initlog. change (4 + 4 * LOGSIZE >=? BSIZE) with false. cbv iota.
  unfold modify_lg, modify, bind at 1 2. cbn [obind]. unfold set_lg. cbn [lg bs set_lg_lock].
  match goal with |- context [recover_from_log ?x] => set (s0 := x) end.
  assert (bl_rep (bs s0) (booted d)) as R0 by apply boot_law.
  assert (room (booted d) st) as Hroom by (right; cbn; rewrite map_size_empty; done).
  destruct (read_head_spec s0 (booted d)) as (s1 & E1 & R1 & L1); [done|done|done|exact Hroom|done|].
  change (lg_start (lg s0)) with st in L1. cbn [a_disk booted] in L1.
  rewrite (rc_n _ _ _ _ _ Hrc) in L1.
  set (blk' := fun i => if (0 <=? i) && (i <? n) then hdr_block (d st) i else lh_block (lg s0) i) in L1.
  assert (forall i, 0 <= i < n -> blk' i = blk i) as Eb.
  { intros i Hi. unfold blk'. rewrite <- (rc_blk _ _ _ _ _ Hrc) by done. zcmp. }
  pose proof (recoverable_ext _ _ _ _ _ blk' Eb Hrc) as Hrc'. pose proof (rc_geo _ _ _ _ _ Hrc') as G.
  pose proof (geo_n _ _ _ G) as Hn.
  unfold recover_from_log. rewrite (bind_Done _ _ _ _ _ E1).
  unfold install_trans, gets, bind at 1 2. cbn [obind]. rewrite L1. cbn [lh_n set_header].
  destruct (install_loop_spec (Z.to_nat n) s1 (booted d) st n blk' 0 0) as (b2 & E2 & R2); rewrite ?L1; try done; try lia.
  { right. split; [done|]. cbn. rewrite map_size_empty. lia. }
  rewrite E2. cbn [obind].
  pose proof (installed_spec st n blk' (Z.to_nat n) 0 0 (booted d) G ltac:(lia) ltac:(lia) ltac:(done)) as F.
  set (a2 := installed st blk' 0 (Z.to_nat n) (booted d)) in *.
  unfold modify_lg, modify, bind at 1. cbn [obind]. change (lg (set_bs b2 s1)) with (lg s1). rewrite L1.
  set (s3 := set_lg _ _).
  assert (Z.of_nat (size (a_refs a2)) < NBUF) as Hsz.
  { assert (size (a_refs a2) <= Z.to_nat n)%nat; [|lia].
    rewrite <- (size_dom (D := gset Z)). rewrite <- (length_seqZ 0 n). rewrite <- (length_fmap blk').
    rewrite <- (size_list_to_set (C := gset Z)).
    2: { apply NoDup_fmap_2_strong; [|apply NoDup_seqZ]. intros i j Hi%elem_of_seqZ Hj%elem_of_seqZ.
         apply (geo_inj _ _ _ G); lia. }
    apply subseteq_size. intros x Hx. apply elem_of_list_to_set, list_elem_of_fmap.
    destruct (in_tx_dec blk' n x) as [(j & Hj & ->)|Hno]; [exists j; split; [done|apply elem_of_seqZ; lia]|].
    exfalso. apply elem_of_dom in Hx as [c Hc]. pose proof (if_other _ _ _ _ _ _ _ F x) as Ho.
    unfold refs in Ho. rewrite Hc in Ho. cbn in Ho. rewrite lookup_empty in Ho. cbn in Ho.
    pose proof (rep_wf _ _ R2 _ _ Hc). assert (c = 0); [|lia]. apply Ho. intros j Hj. apply Hno. lia. }
  destruct (write_head_spec s3 a2) as (b4 & E4 & R4); [done|done|by rewrite (if_held _ _ _ _ _ _ _ F)|by right|].
  rewrite E4. do 2 eexists. split; [reflexivity|].
  change (lg_start (lg s3)) with st in R4. cbn [s3 lg set_lg set_header lh_n lh_block] in R4.
  assert (a_cache a2 st = d st) as Ecst.
  { rewrite (if_cache _ _ _ _ _ _ _ F). cbn [a_cache booted].
    by destruct (inst_prefix st n blk' d d (inst_ws d st blk' 0 (Z.to_nat n)) G) as [? _]. }
  rewrite Ecst in R4.
  assert (a_writes (store st (put_header 0 blk' (d st)) a2) = recovery_ws st d n blk') as Ew.
  { cbn. rewrite (if_writes _ _ _ _ _ _ _ F). done. }
  assert (a_disk (store st (put_header 0 blk' (d st)) a2) = replay d (recovery_ws st d n blk')) as Ed.
  { unfold recovery_ws. rewrite replay_app. cbn. by rewrite (if_disk _ _ _ _ _ _ _ F). }
  destruct (recovery_prefix _ _ _ _ _ (recovery_ws st d n blk') Hrc' ltac:(done)) as (n' & blk'' & Hfin & Hz).
  rewrite (Hz eq_refl) in Hfin.
  split; [exact R4| |done|by rewrite Ew|..].
  - cbn. by rewrite (if_held _ _ _ _ _ _ _ F).
  - intros p Hp. rewrite Ew in Hp. destruct (recovery_prefix _ _ _ _ _ p Hrc' Hp) as (m & mb & Hm & _). by exists m, mb.
  - intros b Ho. rewrite Ed. apply (rc_rest _ _ _ _ _ Hfin); [done|lia].
  - rewrite Ed. apply (rc_n _ _ _ _ _ Hfin).
  - intros j Hj. change (refs (store st (put_header 0 blk' (d st)) a2)) with (refs a2). rewrite <- Eb by done.
    rewrite (if_refs _ _ _ _ _ _ _ F) by lia. done.
Qed.

(** ** Commit *)

(** The state in which [commit] is called: the home blocks of the
    transaction are pinned once, all other blocks are clean, no log block is
    referenced, and the log on disk is empty. *)
Record tx (s : lstate) (a : blocks) : Prop := {
  tx_dev : lg_dev (lg s) = bl_dev;
  tx_rep : bl_rep (bs s) a;
  tx_held : a_held a = ∅;
  tx_geo : geometry (lg_start (lg s)) (lh_n (lg s)) (lh_block (lg s));
  tx_room : Z.of_nat (size (a_refs a)) < NBUF;
  tx_pin j : 0 <= j < lh_n (lg s) -> refs a (lh_block (lg s) j) = 1;
  tx_log j : 0 <= j < lh_n (lg s) -> refs a (lg_start (lg s) + j + 1) = 0;
  tx_clean b : (forall j, 0 <= j < lh_n (lg s) -> b <> lh_block (lg s) j) -> a_cache a b = a_disk a b;
  tx_hdr : hdr_n (a_disk a (lg_start (lg s))) = 0;
  tx_len : Z.of_nat (length (a_disk a (lg_start (lg s)))) = BSIZE;
}.

(** The disk just after the header is written. *)
Definition committed_disk (st n : Z) (blk : Z -> Z) (d C : Z -> block) : Z -> block :=
  fset (replay d (log_ws C st blk 0 (Z.to_nat n))) st (put_header n blk (d st)).

Definition commit_ws (st n : Z) (blk : Z -> Z) (d C : Z -> block) : list (Z * block) :=
  log_ws C st blk 0 (Z.to_nat n) ++
  (st, put_header n blk (d st)) :: recovery_ws st (committed_disk st n blk d C) n blk.

Lemma log_prefix st n blk C d p :
  geometry st n blk -> p `prefix_of` log_ws C st blk 0 (Z.to_nat n) ->
  replay d p st = d st /\ (forall b, outside_log st b -> replay d p b = d b).
Proof.
  intros G Hp.
  assert (forall b, (forall j, 0 <= j < n -> b <> st + j + 1) -> replay d p b = d b) as Hother.
  { intros b Hb. apply replay_other. eapply prefix_Forall; [done|]. apply Forall_forall. intros w Hw.
    apply log_ws_blocks in Hw as (j & Hj & ->). simpl. intros E. apply (Hb j); [|done]. lia. }
  pose proof (geo_fits _ _ _ G). split; [apply Hother; lia|].
  intros b Ho. apply Hother. intros j Hj. unfold outside_log in Ho. lia.
Qed.

Lemma committed_recoverable st n blk d C :
  geometry st n blk -> Z.of_nat (length (d st)) = BSIZE ->
  (forall b, (forall j, 0 <= j < n -> b <> blk j) -> C b = d b) ->
  recoverable st (committed_disk st n blk d C) C n blk.
Proof.
  intros G Hlen Hcl. pose proof (geo_n _ _ _ G) as Hn. pose proof (geo_fits _ _ _ G) as Hf.
  destruct (log_prefix st n blk C d (log_ws C st blk 0 (Z.to_nat n)) G) as [P1 P2]; [done|].
  destruct (put_header_read n blk (d st)) as (Q1 & Q2 & Q3).
  { unfold int_ok. unfold NBUF, MAXOPBLOCKS in Hn. lia. }
  { rewrite Hlen. unfold BSIZE, NBUF, MAXOPBLOCKS in *. lia. }
  assert (committed_disk st n blk d C st = put_header n blk (d st)) as Est by apply fset_eq.
  split; rewrite ?Est; try done.
  - intros i Hi. apply Q2; [done|]. by apply (geo_home _ _ _ G).
  - by rewrite Q3.
  - intros j Hj. unfold committed_disk. rewrite fset_ne by lia. apply replay_log_ws. lia.
  - intros b Ho Hno. unfold committed_disk. rewrite fset_ne by (unfold outside_log in Ho; lia).
    rewrite P2 by done. by rewrite Hcl.
Qed.

Lemma commit_prefix st n blk d C (p : list (Z * block)) :
  geometry st n blk -> Z.of_nat (length (d st)) = BSIZE -> hdr_n (d st) = 0 ->
  (forall b, (forall j, 0 <= j < n -> b <> blk j) -> C b = d b) ->
  p `prefix_of` commit_ws st n blk d C ->
  exists n' blk', recoverable st (replay d p) d n' blk' \/ recoverable st (replay d p) C n' blk'.
Proof.
  intros G Hlen Hz Hcl Hp. apply prefix_app_cases in Hp.
  assert (p `prefix_of` log_ws C st blk 0 (Z.to_nat n) \/
          exists q, p = log_ws C st blk 0 (Z.to_nat n) ++ (st, put_header n blk (d st)) :: q /\
            q `prefix_of` recovery_ws st (committed_disk st n blk d C) n blk) as [Hp'|(q & -> & Hq)].
  { destruct Hp as [?|(q & -> & Hq)]; [by left|]. destruct q as [|w q]; [left; by rewrite app_nil_r|right].
    assert ((st, put_header n blk (d st)) = w) as <- by (by apply prefix_cons_inv_1 in Hq).
    exists q. split; [done|]. by apply prefix_cons_inv_2 in Hq. }
  - exists 0, blk. left. destruct (log_prefix st n blk C d p G Hp') as [P1 P2].
    split; rewrite ?P1; try done; try lia; [by eapply geometry_0|]. intros b Ho _. by apply P2.
  - destruct (recovery_prefix st _ C n blk q (committed_recoverable st n blk d C G Hlen Hcl) Hq)
      as (n' & blk' & Hr & _).
    exists n', blk'. right. rewrite replay_app. exact Hr.
Qed.

Lemma commit_spec s a :
  tx s a -> 0 < lh_n (lg s) ->
  let st := lg_start (lg s) in let n := lh_n (lg s) in let blk := lh_block (lg s) in
  let ws := commit_ws st n blk (a_disk a) (a_cache a) in
  exists b' a', commit s = Done tt (mk_lstate (set_header 0 blk (lg s)) b') /\ bl_rep b' a' /\
    a_held a' = ∅ /\ a_writes a' = a_writes a ++ ws /\ a_disk a' = replay (a_disk a) ws /\
    (forall j, 0 <= j < n -> refs a' (blk j) = 0).
Proof.
  intros [Hdev R Hh G Hroom Hpin Hlog Hcl Hhdr Hlen] Hpos st n blk. cbv zeta.
  fold st n blk in G, Hpin, Hlog, Hcl, Hhdr, Hlen, Hpos. pose proof (geo_n _ _ _ G) as Hn.
  unfold commit, gets, bind at 1. cbn [obind]. fold n. destruct (Z.gtb_spec n 0) as [_|]; [|lia].
  (* write_log *)
  destruct (write_log_loop_spec (Z.to_nat n) s a st n blk 0) as (b1 & E1 & R1); try done; try lia.
  { intros j Hj. rewrite Hlog, Hpin by done. done. }
  unfold write_log, gets, bind at 1 2. cbn [obind]. fold n. rewrite E1. cbn [obind].
  pose proof (logged_spec st n blk (Z.to_nat n) 0 a G ltac:(lia) ltac:(lia)) as [L1 L2 L3 L4 L5].
  set (a1 := logged st blk 0 (Z.to_nat n) a) in *.
  destruct (log_prefix st n blk (a_cache a) (a_disk a) (log_ws (a_cache a) st blk 0 (Z.to_nat n)) G) as [P1 P2]; [done|].
  destruct (log_prefix st n blk (a_cache a) (a_cache a) (log_ws (a_cache a) st blk 0 (Z.to_nat n)) G) as [P1' P2']; [done|].
  assert (a_cache a st = a_disk a st) as Ecst.
  { apply Hcl. intros j Hj. destruct (geo_home _ _ _ G j Hj). lia. }
  (* write_head *)
  destruct (write_head_spec (set_bs b1 s) a1) as (b2 & E2 & R2); [done|done|by rewrite L2| |].
  { right. by rewrite L1. }
  change (lg (set_bs b1 s)) with (lg s) in R2. fold st n blk in R2. rewrite L4, P1', Ecst in R2.
  rewrite (bind_Done _ _ _ _ _ E2).
  set (H := put_header n blk (a_disk a st)) in *. set (a2 := store st H a1) in *.
  (* install_trans *)
  assert (forall x, refs a2 x = refs a x) as Hr2 by (intros x; unfold refs; cbn; by rewrite L1).
  assert (a_disk a2 = committed_disk st n blk (a_disk a) (a_cache a)) as Ed2 by (cbn; by rewrite L3).
  assert (forall j, 0 <= j < n -> a_cache a2 (st + j + 1) = a_disk a2 (st + j + 1)) as Hcd.
  { intros j Hj. cbn. rewrite !fset_ne by lia. rewrite L3, L4, !replay_log_ws by lia. done. }
  unfold install_trans, gets, bind at 1 2. cbn [obind]. change (lh_n (lg (set_bs b2 (set_bs b1 s)))) with n.
  destruct (install_loop_spec (Z.to_nat n) (set_bs b2 (set_bs b1 s)) a2 st n blk 0 1) as (b3 & E3 & R3); try done; try lia.
  { cbn. by rewrite L2. }
  { left. split; [done|]. cbn. by rewrite L1. }
  { intros j Hj. rewrite Hr2. split; [by apply Hlog|by apply Hcd]. }
  { intros j Hj. rewrite Hr2. by apply Hpin. }
  rewrite E3. cbn [obind]. unfold modify_lg, modify, bind at 1. cbn [obind].
  pose proof (installed_spec st n blk (Z.to_nat n) 1 0 a2 G ltac:(lia) ltac:(lia)) as F.
  destruct F as [F1 F1' F2 F3 F4 F5].
  { intros j Hj. rewrite Hr2. apply Hpin. lia. }
  set (a3 := installed st blk 0 (Z.to_nat n) a2) in *.
  assert (inst_ws (a_cache a2) st blk 0 (Z.to_nat n) =
          inst_ws (committed_disk st n blk (a_disk a) (a_cache a)) st blk 0 (Z.to_nat n)) as Ews.
  { apply inst_ws_ext. intros j Hj. rewrite <- Ed2. apply Hcd. lia. }
  (* write_head *)
  match goal with |- context [write_head ?x] => set (s4 := x) end.
  destruct (write_head_spec s4 a3) as (b4 & E4 & R4); [done|done|by rewrite F2; cbn; rewrite L2| |].
  { right. pose proof (rep_wf _ _ R3) as Hw3. pose proof (size_refs_le a a3 Hw3) as Hle.
    assert (size (a_refs a3) <= size (a_refs a))%nat; [|lia]. apply Hle. intros x Hx.
    destruct (in_tx_dec blk n x) as [(j & Hj & ->)|Hno]; [by rewrite Hpin by done|].
    rewrite F1' in Hx by (intros j Hj; apply Hno; lia). by rewrite Hr2 in Hx. }
  change (lg_start (lg s4)) with st in R4. change (lh_n (lg s4)) with 0 in R4. change (lh_block (lg s4)) with blk in R4.
  assert (a_cache a3 st = H) as Ec3.
  { rewrite F4. destruct (inst_prefix st n blk (a_cache a2) (a_cache a2)
      (inst_ws (a_cache a2) st blk 0 (Z.to_nat n)) G) as [Q _]; [done|]. rewrite Q. cbn. apply fset_eq. }
  rewrite Ec3 in R4. exists b4. eexists. split; [rewrite E4; reflexivity|]. split; [exact R4|].
  assert (committed_disk st n blk (a_disk a) (a_cache a) st = H) as EH by apply fset_eq.
  split_and!.
  - cbn. by rewrite F2; cbn; rewrite L2.
  - cbn. rewrite F5, Ews. cbn. rewrite L5. unfold commit_ws, recovery_ws. fold H. rewrite EH.
    by rewrite <- !app_assoc.
  - unfold commit_ws, recovery_ws. fold H. rewrite EH, replay_app.
    change (replay (replay (a_disk a) (log_ws (a_cache a) st blk 0 (Z.to_nat n)))
      ((st, H) :: ?l)) with (replay (committed_disk st n blk (a_disk a) (a_cache a)) l).
    rewrite replay_app. cbn. by rewrite F3, Ews, Ed2.
  - intros j Hj. change (refs (store st (put_header 0 blk H) a3)) with (refs a3). by rewrite F1 by lia.
Qed.

(** ** [log_write] *)

(** The blocks of the running transaction, in log order. *)
Definition tx_blocks (l : log) : list Z := map (lh_block l) (seqZ 0 (lh_n l)).

Lemma find_block_spec blk b k : forall i,
  let r := find_block blk b i k in
  i <= r <= i + Z.of_nat k /\ (forall j, i <= j < r -> blk j <> b) /\ (r < i + Z.of_nat k -> blk r = b).
Proof.
  induction k as [|k IH]; intros i; cbn [find_block]; [split_and!; lia|].
  destruct (Z.eqb_spec (blk i) b) as [E|E]; cbv zeta; [split_and!; try lia; done|].
  destruct (IH (i + 1)) as (H1 & H2 & H3). split_and!; [lia|lia| |].
  - intros j Hj. destruct (decide (j = i)) as [->|]; [done|]. apply H2. lia.
  - intros. apply H3. lia.
Qed.

Lemma seqZ_snoc n : 0 <= n -> seqZ 0 (n + 1) = seqZ 0 n ++ [n].
Proof. intros. rewrite seqZ_app by lia. done. Qed.

Lemma tx_blocks_same (blk blk' : Z -> Z) n : (forall j, 0 <= j < n -> blk' j = blk j) ->
  map blk' (seqZ 0 n) = map blk (seqZ 0 n).
Proof. intros H. apply map_ext_in. intros j Hj%list_elem_of_In%elem_of_seqZ. apply H. lia. Qed.

Lemma log_write_spec s a b h :
  bl_rep (bs s) a -> a_held a !! b = Some h -> lg_lock (lg s) = false -> 0 <= lh_n (lg s) ->
  lh_n (lg s) < LOGSIZE -> lh_n (lg s) < lg_size (lg s) - 1 -> 1 <= lg_outstanding (lg s) ->
  exists s', log_write h s = Done tt s' /\
    (b ∈ tx_blocks (lg s) /\ bl_rep (bs s') a /\ tx_blocks (lg s') = tx_blocks (lg s) \/
     b ∉ tx_blocks (lg s) /\ bl_rep (bs s') (add_ref b 1 a) /\ tx_blocks (lg s') = tx_blocks (lg s) ++ [b]) /\
    lg_outstanding (lg s') = lg_outstanding (lg s) /\ lg_lock (lg s') = false.
Proof.
  intros R Hh Hl Hn Hn1 Hn2 Ho. unfold log_write, gets, bind at 1. cbn [obind].
  destruct (Z.geb_spec (lh_n (lg s)) LOGSIZE); [lia|]. destruct (Z.geb_spec (lh_n (lg s)) (lg_size (lg s) - 1)); [lia|].
  cbn [orb]. destruct (Z.ltb_spec (lg_outstanding (lg s)) 1); [lia|].
  unfold log_acquire, acquire_lk, bind at 1. rewrite Hl. cbn [obind].
  set (s1 := set_lg _ s).
  rewrite (bind_Done _ _ _ _ _ (onb_Done _ s1 _ _ (bblockno_law (bs s) a b h R Hh))).
  destruct (find_block_spec (lh_block (lg s)) b (Z.to_nat (lh_n (lg s))) 0) as (F1 & F2 & F3).
  set (i := find_block _ _ _ _) in *.
  unfold modify_lg at 1, modify at 1, bind at 1. cbn [obind].
  destruct (Z.eqb_spec i (lh_n (lg s))) as [Ei|Ei].
  - destruct (bpin_law (bs s) a b h R Hh) as (b2 & E2 & R2).
    match goal with |- context [set_lg ?l ?x] => set (s2 := set_lg l x) end.
    assert (onb (bpin h) s2 = Done tt (set_bs b2 s2)) as E2' by (by apply onb_Done).
    unfold bind at 1 2. rewrite E2'. cbn [obind]. unfold modify_lg, modify. cbn [obind].
    unfold log_release, release_lk. cbn. eexists. split; [reflexivity|]. split; [right|done].
    unfold tx_blocks. cbn. rewrite seqZ_snoc, map_app by lia. cbn. rewrite Ei, fset_eq. split_and!.
    + rewrite list_elem_of_In, in_map_iff. intros (j & E & Hj%list_elem_of_In%elem_of_seqZ).
      apply (F2 j); [lia|done].
    + done.
    + f_equal. apply tx_blocks_same. intros j Hj. apply fset_ne. lia.
  - unfold ret at 1, bind at 1. cbn [obind]. unfold log_release, release_lk. cbn.
    eexists. split; [reflexivity|]. split; [left|done].
    assert (lh_block (lg s) i = b) as Eb by (apply F3; lia). split_and!.
    + unfold tx_blocks. rewrite list_elem_of_In, in_map_iff. exists i. split; [done|].
      apply list_elem_of_In, elem_of_seqZ. lia.
    + done.
    + unfold tx_blocks. cbn. apply tx_blocks_same. intros j Hj. unfold fset. case_decide; [congruence|done].
Qed.

(** ** Log space *)

(** Computations that leave the log record alone. *)
Definition keeps {A} (m : M lstate A) : Prop := forall s a s', m s = Done a s' -> lg s' = lg s.

Lemma keeps_ret {A} (a : A) : keeps (ret a).
Proof. intros s b s'. by intros [= _ <-]. Qed.
Lemma keeps_gets {A} (f : lstate -> A) : keeps (gets f).
Proof. intros s b s'. by intros [= _ <-]. Qed.
Lemma keeps_onb {A} (m : M S A) : keeps (onb m).
Proof. intros s b s'. unfold onb, lift. destruct (m (bs s)); simpl; try done. by intros [= _ <-]. Qed.
Lemma keeps_bind {A B} (m : M lstate A) (f : A -> M lstate B) :
  keeps m -> (forall a, keeps (f a)) -> keeps (bind m f).
Proof.
  intros Hm Hf s b s' (a & s1 & E1 & E2)%bind_inv. rewrite (Hf a _ _ _ E2). by apply (Hm _ _ _ E1).
Qed.

Create HintDb keeps.
#[local] Hint Resolve keeps_ret keeps_gets keeps_onb keeps_bind : keeps.

Lemma keeps_write_log_loop k : forall i, keeps (write_log_loop i k).
Proof. induction k as [|k IH]; intros i; cbn [write_log_loop]; auto 20 with keeps. Qed.
Lemma keeps_install_loop k : forall i, keeps (install_loop i k).
Proof. induction k as [|k IH]; intros i; cbn [install_loop]; auto 20 with keeps. Qed.
Lemma keeps_write_log : keeps write_log.
Proof. apply keeps_bind; [apply keeps_gets|]. intros. apply keeps_write_log_loop. Qed.
Lemma keeps_install_trans : keeps install_trans.
Proof. apply keeps_bind; [apply keeps_gets|]. intros. apply keeps_install_loop. Qed.
Lemma keeps_write_head : keeps write_head.
Proof. unfold write_head. auto 20 with keeps. Qed.

Lemma commit_lg s s' :
  commit s = Done tt s' -> lg s' = lg s \/ lg s' = set_header 0 (lh_block (lg s)) (lg s).
Proof.
  unfold commit, gets, bind at 1. cbn [obind]. destruct (lh_n (lg s) >? 0); [|intros [= <-]; by left].
  intros E. apply bind_inv in E as ([] & s1 & E1 & E). apply bind_inv in E as ([] & s2 & E2 & E).
  apply bind_inv in E as ([] & s3 & E3 & E4). right.
  apply keeps_write_log in E1. apply keeps_write_head in E2. apply keeps_install_trans in E3.
  unfold modify_lg, modify, bind in E4. cbn [obind] in E4. apply keeps_write_head in E4.
  rewrite E4. cbn. by rewrite E3, E2, E1.
Qed.

(** File-system operations in progress, each with the number of blocks it may
    still write: MAXOPBLOCKS when it begins. *)
Inductive op_step : lstate * list Z -> lstate * list Z -> Prop :=
| op_begin s rs s' : begin_op 0 s = Done tt s' -> op_step (s, rs) (s', MAXOPBLOCKS :: rs)
| op_write s rs1 r rs2 h s' :
    0 < r -> log_write h s = Done tt s' -> op_step (s, rs1 ++ r :: rs2) (s', rs1 ++ (r - 1) :: rs2)
| op_end s rs1 r rs2 s' : end_op s = Done tt s' -> op_step (s, rs1 ++ r :: rs2) (s', rs1 ++ rs2)
| op_blocks s rs b : op_step (s, rs) (set_bs b s, rs).

Definition total (rs : list Z) : Z := foldr Z.add 0 rs.

Lemma total_app rs rs' : total (rs ++ rs') = total rs + total rs'.
Proof. induction rs as [|r rs IH]; simpl; [done|]. unfold total in *. simpl. lia. Qed.

Record space_inv (sz0 : Z) (c : lstate * list Z) : Prop := {
  sp_lock : lg_lock (lg c.1) = false;
  sp_size : lg_size (lg c.1) = sz0;
  sp_n : 0 <= lh_n (lg c.1);
  sp_out : lg_outstanding (lg c.1) = Z.of_nat (length c.2);
  sp_rs : Forall (fun r => 0 <= r <= MAXOPBLOCKS) c.2;
  sp_total : lh_n (lg c.1) + total c.2 <= LOGSIZE;
}.

Lemma total_bound rs : Forall (fun r => 0 <= r <= MAXOPBLOCKS) rs ->
  0 <= total rs <= Z.of_nat (length rs) * MAXOPBLOCKS.
Proof.
  induction 1 as [|r rs Hr _ IH]; [done|]. change (total (r :: rs)) with (r + total rs).
  cbn [length]. unfold MAXOPBLOCKS in *. lia.
Qed.

Lemma begin_op_inv s s' : begin_op 0 s = Done tt s' -> lg_lock (lg s) = false ->
  lh_n (lg s) + (lg_outstanding (lg s) + 1) * MAXOPBLOCKS <= LOGSIZE /\
  lg s' = set_outstanding (lg_outstanding (lg s) + 1) (lg s).
Proof.
  intros E Hl. unfold begin_op, log_acquire, acquire_lk, bind at 1 in E. rewrite Hl in E.
  cbn [obind begin_op_loop] in E. unfold gets, bind at 1 in E. cbn [obind] in E.
  destruct (lg_committing _ || _) eqn:Ec; [done|]. apply orb_false_elim in Ec as [_ Ec]. rewrite Z.gtb_ltb in Ec.
  apply Z.ltb_ge in Ec. cbn in Ec. split; [done|].
  unfold modify_lg, modify, bind, log_release, release_lk in E. cbn in E. injection E as <-. cbn.
  destruct (lg s); simpl in *. by subst.
Qed.

Lemma log_write_inv h s s' : log_write h s = Done tt s' -> lg_lock (lg s) = false -> 0 <= lh_n (lg s) ->
  lh_n (lg s) <= lh_n (lg s') <= lh_n (lg s) + 1 /\ lg_lock (lg s') = false /\
  lg_size (lg s') = lg_size (lg s) /\ lg_outstanding (lg s') = lg_outstanding (lg s).
Proof.
  intros E Hl Hn. unfold log_write, gets, bind at 1 in E. cbn [obind] in E.
  destruct (_ || _); [done|]. destruct (_ <? _); [done|].
  apply bind_inv in E as ([] & s1 & E1 & E). unfold log_acquire, acquire_lk in E1. rewrite Hl in E1. injection E1 as <-.
  apply bind_inv in E as (b & s2 & E2 & E). apply keeps_onb in E2.
  apply bind_inv in E as ([] & s3 & E3 & E). injection E3 as <-.
  apply bind_inv in E as ([] & s4 & E4 & E).
  assert (exists n', lh_n (lg s) <= n' <= lh_n (lg s) + 1 /\
            lg s4 = set_header n' (lh_block (lg s4)) (set_lg_lock true (lg s))) as (n' & Hn' & L4).
  { destruct (_ =? _).
    - apply bind_inv in E4 as ([] & s5 & E5 & E4). apply keeps_onb in E5. injection E4 as <-.
      exists (lh_n (lg s) + 1). split; [lia|]. cbn. rewrite E5. cbn. rewrite E2. done.
    - injection E4 as <-. exists (lh_n (lg s)). split; [lia|]. cbn. rewrite E2. done. }
  unfold log_release, release_lk in E. rewrite L4 in E. cbn in E. injection E as <-. cbn. rewrite ?L4. cbn. split_and!; try done; lia.
Qed.

Lemma end_op_inv s s' : end_op s = Done tt s' -> lg_lock (lg s) = false ->
  (lh_n (lg s') = lh_n (lg s) \/ lh_n (lg s') = 0) /\ lg_lock (lg s') = false /\
  lg_size (lg s') = lg_size (lg s) /\ lg_outstanding (lg s') = lg_outstanding (lg s) - 1.
Proof.
  intros E Hl. unfold end_op in E. apply bind_inv in E as ([] & s1 & E1 & E).
  unfold log_acquire, acquire_lk in E1. rewrite Hl in E1. injection E1 as <-.
  unfold modify_lg at 1, modify at 1, bind at 1, gets, bind at 1 in E. cbn [obind] in E.
  destruct (lg_committing _); [done|].
  apply bind_inv in E as ([] & s2 & E2 & E).
  assert (exists c, lg s2 = set_committing c (set_outstanding (lg_outstanding (lg s) - 1) (set_lg_lock true (lg s)))) as [c L2].
  { destruct (_ =? 0); injection E2 as <-; [by exists true|exists (lg_committing (lg s))]. cbn. by destruct (lg s). }
  apply bind_inv in E as ([] & s3 & E3 & E). unfold log_release, release_lk in E3. rewrite L2 in E3. cbn in E3.
  injection E3 as <-. destruct (_ =? 0).
  - apply bind_inv in E as ([] & s4 & E4 & E). apply commit_lg in E4. cbn in E4. rewrite ?L2 in E4. cbn in E4.
    apply bind_inv in E as ([] & s5 & E5 & E). unfold log_acquire, acquire_lk in E5.
    assert (lg_lock (lg s4) = false) as Hl4 by (destruct E4 as [-> | ->]; done). rewrite Hl4 in E5. injection E5 as <-.
    unfold modify_lg, modify, bind, wakeup_chan, ret in E. cbn in E. unfold log_release, release_lk in E. cbn in E.
    injection E as <-. cbn. destruct E4 as [-> | ->]; cbn; split_and!; try done; [by left|by right].
  - injection E as <-. cbn. rewrite ?L2. cbn. split_and!; try done. by left.
Qed.

Lemma op_step_inv sz0 c c' : space_inv sz0 c -> op_step c c' -> space_inv sz0 c'.
Proof.
  intros [I1 I2 I3 I4 I5 I6] Hs. destruct Hs as [s rs s' E|s rs1 r rs2 h s' Hr E|s rs1 r rs2 s' E|s rs b]; cbn [fst snd] in *.
  - destruct (begin_op_inv _ _ E I1) as [Hle L]. pose proof (total_bound _ I5).
    split; cbn [fst snd]; rewrite ?L; cbn [lg_lock lg_size lh_n lg_outstanding set_outstanding length]; try done.
    + rewrite I4. lia.
    + constructor; [unfold MAXOPBLOCKS; lia|done].
    + rewrite I4 in Hle. change (total (MAXOPBLOCKS :: rs)) with (MAXOPBLOCKS + total rs). lia.
  - destruct (log_write_inv _ _ _ E I1 I3) as (Hn & Hl & Hz & Ho).
    apply Forall_app in I5 as [F1 [Fr F2]%Forall_cons]. rewrite total_app in I6. change (total (r :: rs2)) with (r + total rs2) in I6.
    split; cbn [fst snd]; try done; try congruence; try lia.
    + rewrite Ho, I4, !length_app. done.
    + apply Forall_app. split; [done|]. constructor; [lia|done].
    + rewrite total_app. change (total (r - 1 :: rs2)) with (r - 1 + total rs2). lia.
  - destruct (end_op_inv _ _ E I1) as (Hn & Hl & Hz & Ho).
    apply Forall_app in I5 as [F1 [Fr F2]%Forall_cons]. rewrite total_app in I6. change (total (r :: rs2)) with (r + total rs2) in I6.
    split; cbn [fst snd]; try done; try congruence; try lia.
    + rewrite Ho, I4, !length_app. cbn [length]. lia.
    + by apply Forall_app.
    + rewrite total_app. lia.
  - split; done.
Qed.

Lemma op_reachable_inv sz0 c c' : rtc op_step c c' -> space_inv sz0 c -> space_inv sz0 c'.
Proof.
  induction 1 as [|c1 c2 c3 Hst _ IH]; [done|]. intros I. apply IH. by eapply op_step_inv.
Qed.

(** ** Properties *)

(** [C1] Crash atomicity of [commit].  Committing a transaction never panics
    and leaves its blocks on disk.  If the machine stops after any prefix of
    the disk writes of [commit], running [initlog] after the reboot succeeds,
    empties the log, and leaves the blocks outside the log either all as they
    were before the transaction or all as the transaction left them. *)
Theorem commit_crash_atomic s a :
  tx s a -> 0 < lh_n (lg s) ->
  exists s' a' ws, commit s = Done tt s' /\ bl_rep (bs s') a' /\ lh_n (lg s') = 0 /\
    a_writes a' = a_writes a ++ ws /\
    (forall b, outside_log (lg_start (lg s)) b -> a_disk a' b = a_cache a b) /\
    forall p l0 nlog, p `prefix_of` ws ->
      exists s2 a2, initlog bl_dev (lg_start (lg s)) nlog (mk_lstate l0 (boot (replay (a_disk a) p))) = Done tt s2 /\
        bl_rep (bs s2) a2 /\ hdr_n (a_disk a2 (lg_start (lg s))) = 0 /\
        ((forall b, outside_log (lg_start (lg s)) b -> a_disk a2 b = a_disk a b) \/
         (forall b, outside_log (lg_start (lg s)) b -> a_disk a2 b = a_cache a b)).
Proof.
  intros Ht Hpos. destruct (commit_spec s a Ht Hpos) as (b' & a' & E & R & _ & Ew & Ed & _).
  set (st := lg_start (lg s)) in *. set (n := lh_n (lg s)) in *. set (blk := lh_block (lg s)) in *.
  pose proof Ht as [_ _ _ G _ _ _ Hcl Hhdr Hlen]. fold st n blk in G, Hcl, Hhdr, Hlen.
  do 2 eexists. exists (commit_ws st n blk (a_disk a) (a_cache a)).
  split; [exact E|]. split; [exact R|]. split; [done|]. split; [exact Ew|]. split.
  - intros b Ho. rewrite Ed. unfold commit_ws. rewrite replay_app.
    destruct (recovery_prefix st _ _ n blk (recovery_ws st (committed_disk st n blk (a_disk a) (a_cache a)) n blk)
      (committed_recoverable st n blk (a_disk a) (a_cache a) G Hlen Hcl)) as (n' & blk' & Hr & Hz); [done|].
    rewrite (Hz eq_refl) in Hr. apply (rc_rest _ _ _ _ _ Hr); [done|lia].
  - intros p l0 nlog Hp. destruct (commit_prefix st n blk (a_disk a) (a_cache a) p G Hlen Hhdr Hcl Hp)
      as (n' & blk' & [Hr|Hr]);
      destruct (initlog_spec l0 nlog st _ _ _ _ Hr) as (s2 & a2 & E2 & D); exists s2, a2;
      (split; [exact E2|]); (split; [apply D|]); (split; [apply (rd_empty _ _ _ _ _ _ _ D)|]); [left|right]; apply D.
Qed.

(** [C21] Recovery terminates without panicking from every disk a crash can
    leave, restores the intended contents outside the log, and may itself be
    interrupted: after any prefix of its own writes the disk is again one
    from which recovery reaches the same contents. *)
Theorem recovery_restartable l0 nlog st d X n blk :
  recoverable st d X n blk ->
  exists s' a', initlog bl_dev st nlog (mk_lstate l0 (boot d)) = Done tt s' /\ bl_rep (bs s') a' /\
    (forall b, outside_log st b -> a_disk a' b = X b) /\ lh_n (lg s') = 0 /\
    (forall p, p `prefix_of` a_writes a' -> exists n' blk', recoverable st (replay d p) X n' blk').
Proof.
  intros Hr. destruct (initlog_spec l0 nlog st d X n blk Hr) as (s' & a' & E & D).
  exists s', a'. split; [done|]. split; [apply D|]. split; [apply D|]. split; [apply D|apply D].
Qed.

(** After recovery has installed a block, its buffer is left with
    reference count 2^32 - 1: [install_trans] drops a pin that only [commit]
    takes.  The buffer is never recycled again, and its next user holds it
    with count 0. *)
Theorem recovery_leaks_buffers l0 nlog st d X n blk :
  recoverable st d X n blk ->
  exists s' a', initlog bl_dev st nlog (mk_lstate l0 (boot d)) = Done tt s' /\ bl_rep (bs s') a' /\
    (forall j, 0 <= j < n -> refs a' (blk j) = 2 ^ 32 - 1) /\
    (forall j, 0 <= j < n -> refs (add_ref (blk j) 1 a') (blk j) = 0).
Proof.
  intros Hr. destruct (initlog_spec l0 nlog st d X n blk Hr) as (s' & a' & E & D).
  exists s', a'. split; [done|]. split; [apply D|]. split; [apply D|].
  intros j Hj. rewrite refs_add. case_decide; [|done]. by rewrite (rd_leak _ _ _ _ _ _ _ D).
Qed.

(** [log_write] of a held buffer inside an operation, with room in the
    log: a block that is in the transaction already is absorbed and nothing
    else happens; a new block is appended and its buffer pinned once. *)
Theorem log_write_absorbs s a b h :
  bl_rep (bs s) a -> a_held a !! b = Some h -> lg_lock (lg s) = false -> 0 <= lh_n (lg s) ->
  lh_n (lg s) < LOGSIZE -> lh_n (lg s) < lg_size (lg s) - 1 -> 1 <= lg_outstanding (lg s) ->
  exists s', log_write h s = Done tt s' /\
    (b ∈ tx_blocks (lg s) /\ bl_rep (bs s') a /\ tx_blocks (lg s') = tx_blocks (lg s) \/
     b ∉ tx_blocks (lg s) /\ bl_rep (bs s') (add_ref b 1 a) /\ tx_blocks (lg s') = tx_blocks (lg s) ++ [b]).
Proof.
  intros R Hh Hl Hn H1 H2 Ho. destruct (log_write_spec s a b h R Hh Hl Hn H1 H2 Ho) as (s' & E & C & _).
  by exists s'.
Qed.

(** [C25] Space reservation: when the log area has more than LOGSIZE blocks,
    an operation that [begin_op] has admitted and that has written fewer than
    MAXOPBLOCKS blocks can always write one more, in every interleaving of
    operations. *)
Theorem log_space_suffices s0 s rs r a b h :
  lg_lock (lg s0) = false -> lh_n (lg s0) = 0 -> lg_outstanding (lg s0) = 0 -> LOGSIZE < lg_size (lg s0) ->
  rtc op_step (s0, []) (s, rs) -> r ∈ rs -> 0 < r ->
  bl_rep (bs s) a -> a_held a !! b = Some h ->
  exists s', log_write h s = Done tt s'.
Proof.
  intros H1 H2 H3 H4 Hs Hr Hpos R Hh.
  assert (space_inv (lg_size (lg s0)) (s, rs)) as I.
  { assert (space_inv (lg_size (lg s0)) (s0, [])) as I0 by (split; cbn; try done; try lia; rewrite H2; done).
    by eapply op_reachable_inv. }
  destruct I as [I1 I2 I3 I4 I5 I6]. cbn [fst snd] in *.
  assert (r <= total rs) as Hle.
  { apply list_elem_of_split in Hr as (l1 & l2 & ->). apply Forall_app in I5 as [F1 [Fr F2]%Forall_cons].
    rewrite total_app. change (total (r :: l2)) with (r + total l2).
    pose proof (total_bound _ F1). pose proof (total_bound _ F2). lia. }
  destruct (log_write_spec s a b h R Hh I1 I3) as (s' & E & _).
  - lia.
  - lia.
  - rewrite I4. destruct rs; [by apply elem_of_nil in Hr|]. cbn [length]. lia.
  - by exists s'.
Qed.

(** *** A log of LOGSIZE blocks is too small *)










End Log.
