(* ===== verification/LogBio.v ===== *)
(** * The log on the buffer cache: concrete runs of Log.v over Bio.v

    The theorems of Log.v hold for every block layer; here they are applied to
    the buffer cache of Bio.v, on a disk of zeroed blocks whose log occupies
    blocks 2 to 31, with one transaction that changes block 40. *)

From S2P Require Import Prelude CMem Riscv Sleeplock BlockLayer Bio Log.

Definition zdisk : Z -> block := fun _ => replicate 1024 Byte.x00.
Definition new_block : block := replicate 1024 Byte.x01.
Definition the_pid : Z := 7.
#[local] Instance cache : BlockLayer bio := bio_layer the_pid.

Definition run_log : log := mk_log false 2 30 1 true ROOTDEV 1 (fun _ => 40).
Definition tx_abs : blocks := mk_blocks zdisk (fset zdisk 40 new_block) {[40 := 1]} ∅ [].

Lemma zheader : hdr_n (zdisk 2) = 0.
Proof. vm_compute. reflexivity. Qed.

Lemma zlen b : Z.of_nat (length (zdisk b)) = BSIZE.
Proof. unfold zdisk. by rewrite length_replicate. Qed.

Lemma zroom b : room (booted zdisk) b.
Proof. right. cbn. rewrite map_size_empty. done. Qed.

(** The cache after block 40 has been read, changed, pinned and released. *)
Lemma tx_cache : exists b, bl_rep b tx_abs.
Proof.
  destruct (bread_law (boot zdisk) (booted zdisk) 40 (boot_law zdisk)) as (h & s1 & _ & R1);
    [apply lookup_empty|by apply no_hazard_empty|apply zroom|].
  destruct (bmodify_law s1 _ 40 h (fun _ => new_block) R1) as (s2 & _ & R2); [cbn; apply lookup_insert_eq|].
  destruct (bpin_law s2 _ 40 h R2) as (s3 & _ & R3); [cbn; apply lookup_insert_eq|].
  destruct (brelse_law s3 _ 40 h R3) as (s4 & _ & R4); [cbn; apply lookup_insert_eq|by left|].
  exists s4. match goal with H : bl_rep s4 ?x |- _ => assert (x = tx_abs) as <-; [|exact H] end.
  apply blocks_eq; reflexivity.
Qed.

Lemma run_tx b : bl_rep b tx_abs -> tx 30 (mk_lstate run_log b) tx_abs.
Proof.
  intros R. split; cbn [lg bs lg_start lh_n lh_block lg_dev run_log a_held a_refs a_cache a_disk tx_abs].
  - reflexivity.
  - exact R.
  - reflexivity.
  - split.
    + done.
    + done.
    + intros i Hi. split; [done|]. right. done.
    + intros i j Hi Hj _. lia.
  - by rewrite map_size_singleton.
  - intros j Hj. reflexivity.
  - intros j Hj. assert (j = 0) as -> by lia. reflexivity.
  - intros x Hx. apply fset_ne. apply (Hx 0). lia.
  - apply zheader.
  - apply zlen.
Qed.

Lemma commit_crash_atomic_witness :
  exists b s' a', commit (mk_lstate run_log b) = Done tt s' /\ bl_rep (bs s') a' /\ a_disk a' 40 = new_block.
Proof.
  destruct tx_cache as [b R]. exists b.
  destruct (commit_crash_atomic 30 (mk_lstate run_log b) tx_abs (run_tx b R)) as (s' & a' & ws & E & R' & _ & _ & H & _).
  { reflexivity. }
  exists s', a'. split; [exact E|]. split; [exact R'|]. rewrite H; [reflexivity|by right].
Defined.

(** The disk of a crash right after the header of that transaction was written. *)
Definition crash_disk : Z -> block := committed_disk 2 1 (fun _ => 40) zdisk (fset zdisk 40 new_block).

Lemma crash_recoverable : recoverable 30 2 crash_disk (fset zdisk 40 new_block) 1 (fun _ => 40).
Proof.
  apply committed_recoverable.
  - split; [done|done| |]; [intros i Hi; split; [done|by right]|intros i j Hi Hj _; lia].
  - apply zlen.
  - intros x Hx. apply fset_ne. apply (Hx 0). lia.
Qed.

Lemma recovery_restartable_witness :
  exists s' a', initlog ROOTDEV 2 30 (mk_lstate run_log (boot crash_disk)) = Done tt s' /\
    bl_rep (bs s') a' /\ a_disk a' 40 = new_block.
Proof.
  destruct (recovery_restartable 30 run_log 30 2 crash_disk (fset zdisk 40 new_block) 1 (fun _ => 40) crash_recoverable) as (s' & a' & E & R & H & _).
  exists s', a'. split; [exact E|]. split; [exact R|]. rewrite H; [reflexivity|by right].
Defined.

Lemma recovery_leaks_buffers_witness :
  exists s' a', initlog ROOTDEV 2 30 (mk_lstate run_log (boot crash_disk)) = Done tt s' /\
    bl_rep (bs s') a' /\ refs a' 40 = 4294967295.
Proof.
  destruct (recovery_leaks_buffers 30 run_log 30 2 crash_disk (fset zdisk 40 new_block) 1 (fun _ => 40) crash_recoverable) as (s' & a' & E & R & H & _).
  exists s', a'. split; [exact E|]. split; [exact R|]. apply (H 0). lia.
Defined.

Definition idle_log : log := mk_log false 2 30 0 false ROOTDEV 0 (fun _ => 0).
Definition roomy_log : log := mk_log false 2 31 0 false ROOTDEV 0 (fun _ => 0).

Lemma read_40 : exists h s, bread ROOTDEV 40 (boot zdisk) = Done h s /\ bl_rep s (hold 40 h (add_ref 40 1 (booted zdisk))).
Proof.
  destruct (bread_law (boot zdisk) (booted zdisk) 40 (boot_law zdisk)) as (h & s & E & R);
    [apply lookup_empty|by apply no_hazard_empty|apply zroom|]. exists h, s. split; [exact E|exact R].
Qed.

Lemma log_write_absorbs_witness :
  exists h s s', bread ROOTDEV 40 (boot zdisk) = Done h s /\
    log_write h (mk_lstate (set_outstanding 1 idle_log) s) = Done tt s' /\ tx_blocks (lg s') = [40].
Proof.
  destruct read_40 as (h & s & E & R).
  destruct (log_write_absorbs (mk_lstate (set_outstanding 1 idle_log) s) _ 40 h R) as (s' & E' & C).
  - cbn. apply lookup_insert_eq.
  - reflexivity.
  - cbn. lia.
  - reflexivity.
  - reflexivity.
  - cbn. lia.
  - exists h, s, s'. split; [exact E|]. split; [exact E'|].
    destruct C as [(Hin & _)|(_ & _ & Eb)]; [|exact Eb]. apply elem_of_nil in Hin. destruct Hin.
Defined.

Lemma log_space_suffices_witness :
  exists h s s1 s', begin_op 0 (mk_lstate roomy_log s) = Done tt s1 /\ log_write h s1 = Done tt s'.
Proof.
  destruct read_40 as (h & s & E & R). exists h, s. eexists.
  assert (begin_op 0 (mk_lstate roomy_log s) = Done tt (mk_lstate (set_outstanding 1 roomy_log) s)) as Eb by reflexivity.
  destruct (log_space_suffices (mk_lstate roomy_log s) (mk_lstate (set_outstanding 1 roomy_log) s) [MAXOPBLOCKS]
              MAXOPBLOCKS (hold 40 h (add_ref 40 1 (booted zdisk))) 40 h) as (s' & E').
  - reflexivity.
  - reflexivity.
  - reflexivity.
  - reflexivity.
  - apply rtc_once, op_begin. exact Eb.
  - left.
  - reflexivity.
  - exact R.
  - cbn. apply lookup_insert_eq.
  - exists s'. split; [exact Eb|exact E'].
Defined.

