(* ===== verification/Pipe.v ===== *)
(** * Pipes: kernel/pipe.c

    The state is the pipe and the [killed] flags of the processes that use
    it.  A process's memory is given by what [copyin] and [copyout] of one
    byte do at each address; it does not change while the process is inside
    the system call.  [pipealloc] is in File.v, with the file table. *)

From S2P Require Import Prelude CMem.

Definition PIPESIZE : Z := 512.

Record pipe := mk_pipe {
  p_lock : bool;
  p_data : Z -> byte;
  p_nread : Z;
  p_nwrite : Z;
  p_readopen : bool;
  p_writeopen : bool;
}.

(** [p_freed]: the page of the pipe has been given back with [kfree]. *)
Record pst := mk_pst { pi : pipe; p_killed : Z -> bool; p_freed : bool }.

Definition set_pi (f : pipe -> pipe) (s : pst) : pst := mk_pst (f (pi s)) (p_killed s) (p_freed s).
Definition set_p_lock (b : bool) (p : pipe) : pipe :=
  mk_pipe b (p_data p) (p_nread p) (p_nwrite p) (p_readopen p) (p_writeopen p).
Definition pipe_put (ch : byte) (p : pipe) : pipe :=
  mk_pipe (p_lock p) (fset (p_data p) (p_nwrite p mod PIPESIZE) ch) (p_nread p) (u32 (p_nwrite p + 1))
    (p_readopen p) (p_writeopen p).
Definition pipe_take (p : pipe) : pipe :=
  mk_pipe (p_lock p) (p_data p) (u32 (p_nread p + 1)) (p_nwrite p) (p_readopen p) (p_writeopen p).
Definition pipe_close_end (writable : bool) (p : pipe) : pipe :=
  if writable then mk_pipe (p_lock p) (p_data p) (p_nread p) (p_nwrite p) (p_readopen p) false
  else mk_pipe (p_lock p) (p_data p) (p_nread p) (p_nwrite p) false (p_writeopen p).

Definition pipe_get_lock (s : pst) : bool := p_lock (pi s).
Definition pipe_set_lock (b : bool) (s : pst) : pst := set_pi (set_p_lock b) s.
Definition pipe_acquire : M pst unit := acquire_lk pipe_get_lock pipe_set_lock.
Definition pipe_release : M pst unit := release_lk pipe_get_lock pipe_set_lock.

(** The sleep channels [&pi->nread] and [&pi->nwrite]. *)
Definition chan_nread : Z := 1.
Definition chan_nwrite : Z := 2.

(** The initialisation of [pipealloc]. *)
Definition pipe_init (data : Z -> byte) : pipe := mk_pipe false data 0 0 true true.

Definition pipeclose (writable : bool) : M pst unit :=
  pipe_acquire ;;;
  modify (set_pi (pipe_close_end writable)) ;;;
  wakeup_chan (if writable then chan_nread else chan_nwrite) ;;;
  p <- gets pi ;;
  if negb (p_readopen p) && negb (p_writeopen p) then
    pipe_release ;;; modify (fun s => mk_pst (pi s) (p_killed s) true)
  else pipe_release.

Definition pipe_full (p : pipe) : bool := p_nwrite p =? u32 (p_nread p + PIPESIZE).
Definition pipe_empty (p : pipe) : bool := p_nread p =? p_nwrite p.

(** The wait loop of [pipewrite]; [false] means it has released the lock and
    returns -1.  The fuel bounds the wake-ups. *)
Fixpoint pipewrite_wait (pid : Z) (fuel : nat) : M pst bool :=
  p <- gets pi ;;
  if pipe_full p then
    k <- gets (fun s => p_killed s pid) ;;
    if negb (p_readopen p) || k then pipe_release ;;; ret false
    else match fuel with
         | O => exhausted
         | S f => wakeup_chan chan_nread ;;; sleep_lk pipe_get_lock pipe_set_lock chan_nwrite ;;; pipewrite_wait pid f
         end
  else ret true.

(** The [for] loop; [copyin a] is the byte at user address [a], if readable. *)
Fixpoint pipewrite_loop (pid : Z) (copyin : Z -> option byte) (addr i : Z) (left fuel : nat) : M pst bool :=
  match left with
  | O => ret true
  | S left' =>
      go <- pipewrite_wait pid fuel ;;
      if negb go then ret false else
      match copyin (u64 (addr + i)) with
      | None => ret true
      | Some ch => modify (set_pi (pipe_put ch)) ;;; pipewrite_loop pid copyin addr (i + 1) left' fuel
      end
  end.

Definition pipewrite (pid : Z) (copyin : Z -> option byte) (addr n : Z) (fuel : nat) : M pst Z :=
  pipe_acquire ;;;
  ok <- pipewrite_loop pid copyin addr 0 (Z.to_nat n) fuel ;;
  if negb ok then ret (-1) else
  wakeup_chan chan_nread ;;;
  pipe_release ;;;
  ret n.

Fixpoint piperead_wait (pid : Z) (fuel : nat) : M pst bool :=
  p <- gets pi ;;
  if pipe_empty p && p_writeopen p then
    k <- gets (fun s => p_killed s pid) ;;
    if (k : bool) then pipe_release ;;; ret false
    else match fuel with
         | O => exhausted
         | S f => sleep_lk pipe_get_lock pipe_set_lock chan_nread ;;; piperead_wait pid f
         end
  else ret true.

(** The copy loop; [copyout a] tells whether the byte at [a] can be written.
    Returns [i] and the bytes stored in user memory. *)
Fixpoint piperead_loop (copyout : Z -> bool) (addr i : Z) (left : nat) : M pst (Z * list byte) :=
  match left with
  | O => ret (i, [])
  | S left' =>
      p <- gets pi ;;
      if pipe_empty p then ret (i, []) else
      let ch := p_data p (p_nread p mod PIPESIZE) in
      modify (set_pi pipe_take) ;;;
      if copyout (u64 (addr + i)) then
        r <- piperead_loop copyout addr (i + 1) left' ;; ret (fst r, ch :: snd r)
      else ret (i, [])
  end.

Definition piperead (pid : Z) (copyout : Z -> bool) (addr n : Z) (fuel : nat) : M pst (Z * list byte) :=
  pipe_acquire ;;;
  ok <- piperead_wait pid fuel ;;
  if negb ok then ret (-1, []) else
  r <- piperead_loop copyout addr 0 (Z.to_nat n) ;;
  wakeup_chan chan_nwrite ;;;
  pipe_release ;;;
  ret r.

(** ** The queue a pipe represents *)

Definition pipe_len (p : pipe) : Z := u32 (p_nwrite p - p_nread p).
Definition contents (p : pipe) : list byte :=
  map (fun i => p_data p ((p_nread p + Z.of_nat i) mod PIPESIZE)) (seq 0 (Z.to_nat (pipe_len p))).

Record pipe_ok (p : pipe) : Prop := {
  ok_nread : 0 <= p_nread p < 2 ^ 32;
  ok_nwrite : 0 <= p_nwrite p < 2 ^ 32;
  ok_len : pipe_len p <= PIPESIZE;
}.

Definition pipe_inv (s : pst) : Prop := p_lock (pi s) = false /\ pipe_ok (pi s).

Lemma length_contents p : Z.of_nat (length (contents p)) = pipe_len p.
Proof. unfold contents. rewrite length_map, length_seq. pose proof (u32_range (p_nwrite p - p_nread p)). unfold pipe_len. lia. Qed.

Lemma pipe_full_len p : pipe_ok p -> pipe_full p = (pipe_len p =? PIPESIZE).
Proof.
  intros [H1 H2 H3]. unfold pipe_full, pipe_len, u32, PIPESIZE in *. change (2 ^ 32) with 4294967296 in *.
  zcmp; divlia.
Qed.

Lemma pipe_empty_len p : pipe_ok p -> pipe_empty p = (pipe_len p =? 0).
Proof.
  intros [H1 H2 H3]. unfold pipe_empty, pipe_len, u32, PIPESIZE in *. change (2 ^ 32) with 4294967296 in *.
  zcmp; divlia.
Qed.

Lemma pipe_put_spec ch p :
  pipe_ok p -> pipe_full p = false -> pipe_ok (pipe_put ch p) /\ contents (pipe_put ch p) = contents p ++ [ch].
Proof.
  intros Hok Hf. rewrite pipe_full_len in Hf by done. apply Z.eqb_neq in Hf. destruct Hok as [H1 H2 H3].
  assert (0 <= pipe_len p < 2 ^ 32) as Hr by apply u32_range.
  assert (pipe_len (pipe_put ch p) = pipe_len p + 1) as El.
  { unfold pipe_len, pipe_put, u32, PIPESIZE in *. cbn. change (2 ^ 32) with 4294967296 in *. divlia. }
  split; [split; cbn|].
  - done.
  - apply u32_range.
  - lia.
  - unfold contents. rewrite El, Z2Nat.inj_add, Nat.add_1_r, seq_S, map_app by lia. cbn [map].
    assert (p_nwrite p mod PIPESIZE = (p_nread p + pipe_len p) mod PIPESIZE) as Ei.
    { unfold pipe_len, u32, PIPESIZE in *. change (2 ^ 32) with 4294967296 in *. divlia. }
    cbn [p_data pipe_put p_nread]. rewrite Nat.add_0_l, Z2Nat.id, <- Ei, fset_eq by lia. f_equal.
    apply map_ext_in. intros i Hi%in_seq. apply fset_ne. rewrite Ei. unfold PIPESIZE in *. divlia.
Qed.

Lemma pipe_take_spec p :
  pipe_ok p -> pipe_empty p = false ->
  pipe_ok (pipe_take p) /\ contents p = p_data p (p_nread p mod PIPESIZE) :: contents (pipe_take p).
Proof.
  intros Hok Hf. rewrite pipe_empty_len in Hf by done. apply Z.eqb_neq in Hf. destruct Hok as [H1 H2 H3].
  assert (0 <= pipe_len p < 2 ^ 32) as Hr by apply u32_range.
  assert (pipe_len (pipe_take p) = pipe_len p - 1) as El.
  { unfold pipe_len, pipe_take, u32, PIPESIZE in *. cbn. change (2 ^ 32) with 4294967296 in *. divlia. }
  split; [split; cbn|].
  - apply u32_range.
  - done.
  - lia.
  - unfold contents. rewrite El. replace (Z.to_nat (pipe_len p)) with (S (Z.to_nat (pipe_len p - 1))) by lia.
    cbn [seq map]. rewrite Z.add_0_r, <- seq_shift, map_map. f_equal. apply map_ext.
    intros i. cbn [p_data p_nread pipe_take]. f_equal. unfold u32, PIPESIZE. change (2 ^ 32) with 4294967296. divlia.
Qed.

(** ** Writers *)

Section Write.

Context (pid : Z) (copyin : Z -> option byte) (addr n : Z).

(** Between [g] and [g'] the writer has appended the user's bytes number [g]
    to [g' - 1] and changed nothing else readers can see. *)
Definition wrote (g : Z) (s0 s : pst) (g' : Z) : Prop :=
  exists chunk, g' = g + Z.of_nat (length chunk) /\
    (forall j ch, chunk !! j = Some ch -> copyin (u64 (addr + (g + Z.of_nat j))) = Some ch) /\
    contents (pi s) = contents (pi s0) ++ chunk /\
    p_readopen (pi s) = p_readopen (pi s0) /\ p_writeopen (pi s) = p_writeopen (pi s0).

Lemma wrote_refl g s s0 :
  contents (pi s) = contents (pi s0) -> p_readopen (pi s) = p_readopen (pi s0) ->
  p_writeopen (pi s) = p_writeopen (pi s0) -> wrote g s0 s g.
Proof.
  intros H1 H2 H3. exists []. rewrite app_nil_r. split; [simpl; lia|]. split; [|done].
  intros j ch. by rewrite lookup_nil.
Qed.

Lemma wrote_same g s0 s s' g' :
  contents (pi s') = contents (pi s) -> p_readopen (pi s') = p_readopen (pi s) ->
  p_writeopen (pi s') = p_writeopen (pi s) -> wrote g s0 s g' -> wrote g s0 s' g'.
Proof. intros H1 H2 H3 (c & ? & ? & ? & ? & ?). exists c. rewrite H1, H2, H3. done. Qed.

Lemma wrote_snoc g s0 s g' ch :
  wrote g s0 s g' -> copyin (u64 (addr + g')) = Some ch -> pipe_ok (pi s) -> pipe_full (pi s) = false ->
  wrote g s0 (set_pi (pipe_put ch) s) (g' + 1).
Proof.
  intros (c & -> & Hc & E1 & E2 & E3) Hch Hok Hf. exists (c ++ [ch]). rewrite length_app. simpl.
  destruct (pipe_put_spec ch (pi s) Hok Hf) as [_ Ec]. split_and!; try done.
  - lia.
  - intros j ch'. rewrite lookup_app. destruct (c !! j) eqn:Ej; [intros [= <-]; by apply Hc|].
    intros Hj. apply lookup_ge_None in Ej.
    destruct (j - length c)%nat as [|k] eqn:Ek; simpl in Hj; [|by rewrite lookup_nil in Hj].
    injection Hj as <-. by replace j with (length c) by lia.
  - rewrite Ec, E1. by rewrite app_assoc.
Qed.

Definition at_byte (i : Z) (g : Z) (s0 s : pst) : Prop :=
  p_lock (pi s) = true /\ pipe_ok (pi s) /\ wrote g s0 s i.

(** What the writer has done when it gives up: the pipe is full and has no
    reader, or the writer was killed. *)
Definition gave_up (i : Z) (g : Z) (s0 s : pst) : Prop :=
  pipe_inv s /\ wrote g s0 s i /\ pipe_full (pi s) = true /\ (p_readopen (pi s) = false \/ p_killed s pid = true).

Lemma pipewrite_wait_spec i fuel : forall g s0 s,
  at_byte i g s0 s ->
  traced pipe_inv wrote
    (fun g s0 (ok : bool) s => if ok then at_byte i g s0 s /\ pipe_full (pi s) = false else gave_up i g s0 s)
    g s0 (pipewrite_wait pid fuel s).
Proof.
  induction fuel as [|fuel IH]; intros g s0 s Ha; pose proof Ha as (Hl & Hok & Hw);
    cbn [pipewrite_wait]; rewrite bind_gets;
    (destruct (pipe_full (pi s)) eqn:Ef; [|by split]); rewrite bind_gets;
    (destruct (negb (p_readopen (pi s)) || p_killed s pid) eqn:Eg;
     [unfold pipe_release; rewrite (bind_Done _ _ _ _ _ (release_lk_held pipe_get_lock pipe_set_lock s Hl)); cbn; split_and!; cbn;
      [by destruct Hok|eapply wrote_same; [..|exact Hw]; done|exact Ef|
       apply orb_true_iff in Eg as [E%negb_true_iff|E]; [by left|by right]]|]).
  - done.
  - unfold wakeup_chan. rewrite bind_ret. apply traced_sleep_lk with (g' := i); [done|..].
    + eapply wrote_same; [..|exact Hw]; done.
    + by destruct Hok.
    + intros s' [Hl' Hok']. split; [done|]. apply IH.
      split_and!; [done|by destruct Hok'|by apply wrote_refl].
Qed.

Lemma pipewrite_loop_spec fuel k : forall i g s0 s,
  at_byte i g s0 s -> i + Z.of_nat k = n ->
  traced pipe_inv wrote
    (fun g s0 (ok : bool) s => exists i', i <= i' <= n /\
       if ok then at_byte i' g s0 s /\ (i' = n \/ copyin (u64 (addr + i')) = None) else gave_up i' g s0 s /\ i' < n)
    g s0 (pipewrite_loop pid copyin addr i k fuel s).
Proof.
  induction k as [|k IH]; intros i g s0 s Ha Hn; cbn [pipewrite_loop].
  { cbn. exists i. split; [lia|]. split; [done|left; lia]. }
  unfold bind at 1. apply traced_bind. eapply traced_mono; [|by apply pipewrite_wait_spec].
  intros g1 s1 [|] s2; cbn [negb].
  - intros [(Hl & Hok & Hw) Hf]. destruct (copyin (u64 (addr + i))) as [ch|] eqn:Ech.
    + unfold modify, bind. cbn [obind]. eapply traced_mono; [|apply IH; [|lia]].
      * intros g' s' ok s'' (i' & Hi' & H). exists i'. split; [lia|done].
      * split_and!; [done|by apply pipe_put_spec|by apply wrote_snoc].
    + exists i. split; [lia|]. split; [done|by right].
  - intros Hg. exists i. split; [lia|]. split; [done|lia].
Qed.

End Write.

(** ** Readers *)

Lemma piperead_loop_spec copyout addr k : forall i s,
  p_lock (pi s) = true -> pipe_ok (pi s) ->
  exists r s', piperead_loop copyout addr i k s = Done r s' /\
    p_lock (pi s') = true /\ pipe_ok (pi s') /\ p_killed s' = p_killed s /\
    p_readopen (pi s') = p_readopen (pi s) /\ p_writeopen (pi s') = p_writeopen (pi s) /\
    fst r = i + Z.of_nat (length (snd r)) /\ (length (snd r) <= k)%nat /\
    (contents (pi s) = snd r ++ contents (pi s') /\
       (length (snd r) = k \/ contents (pi s') = []) \/
     exists lost, contents (pi s) = snd r ++ lost :: contents (pi s') /\ (length (snd r) < k)%nat /\
       copyout (u64 (addr + fst r)) = false).
Proof.
  induction k as [|k IH]; intros i s Hl Hok; cbn [piperead_loop].
  { exists (i, []), s. cbn. split_and!; try done; try lia. left. split; [done|by left]. }
  rewrite bind_gets. destruct (pipe_empty (pi s)) eqn:Ee.
  { exists (i, []), s. cbn. split_and!; try done; try lia. left. split; [done|]. right.
    rewrite pipe_empty_len in Ee by done. apply Z.eqb_eq in Ee. pose proof (length_contents (pi s)) as E.
    rewrite Ee in E. apply nil_length_inv. lia. }
  destruct (pipe_take_spec (pi s) Hok Ee) as [Hok' Ec].
  rewrite bind_modify. destruct (copyout (u64 (addr + i))) eqn:Eo.
  - destruct (IH (i + 1) (set_pi pipe_take s)) as (r & s' & E & H1 & H2 & H3 & H4 & H5 & H6 & H7 & H8); [done|done|].
    rewrite (bind_Done _ _ _ _ _ E). do 2 eexists. split; [reflexivity|]. cbn [fst snd length].
    split_and!; try done; try lia. cbn [pi set_pi] in H8. rewrite Ec.
    destruct H8 as [[E8 H8]|(lost & E8 & Hk & Hno)]; [left|right].
    + rewrite E8. split; [done|]. destruct H8; [left; lia|by right].
    + exists lost. rewrite E8. split_and!; try done. lia.
  - exists (i, []), (set_pi pipe_take s). cbn [fst snd length app]. split_and!; try done; try lia.
    right. eexists. split_and!; [exact Ec|lia|done].
Qed.

(** Between two sleeps a waiting reader takes nothing. *)
Definition untouched (g : unit) (s0 s : pst) (g' : unit) : Prop :=
  contents (pi s) = contents (pi s0) /\
  p_readopen (pi s) = p_readopen (pi s0) /\ p_writeopen (pi s) = p_writeopen (pi s0).

Lemma pipe_ready s :
  pipe_ok (pi s) -> pipe_empty (pi s) && p_writeopen (pi s) = false ->
  contents (pi s) <> [] \/ p_writeopen (pi s) = false.
Proof.
  intros Hok E. apply andb_false_iff in E as [E|E]; [left|by right].
  rewrite pipe_empty_len in E by done. apply Z.eqb_neq in E. intros En.
  pose proof (length_contents (pi s)) as El. rewrite En in El. simpl in El. lia.
Qed.

Lemma piperead_wait_spec pid fuel : forall g s0 s,
  p_lock (pi s) = true -> pipe_ok (pi s) -> untouched g s0 s tt ->
  traced pipe_inv untouched (fun g s0 (ok : bool) s => untouched g s0 s tt /\
    if ok then p_lock (pi s) = true /\ pipe_ok (pi s) /\ (contents (pi s) <> [] \/ p_writeopen (pi s) = false)
    else pipe_inv s /\ p_killed s pid = true) g s0 (piperead_wait pid fuel s).
Proof.
  induction fuel as [|fuel IH]; intros g s0 s Hl Hok Hu; cbn [piperead_wait]; rewrite bind_gets;
    (destruct (pipe_empty (pi s) && p_writeopen (pi s)) eqn:Ee; [|by cbn; auto using pipe_ready]);
    rewrite bind_gets;
    (destruct (p_killed s pid) eqn:Ek;
     [unfold pipe_release; rewrite (bind_Done _ _ _ _ _ (release_lk_held pipe_get_lock pipe_set_lock s Hl)); cbn;
      split; [done|split; [by destruct Hok|done]]|]).
  - done.
  - apply traced_sleep_lk with (g' := tt); [done|done|by destruct Hok|]. intros s' [Hl' Hok']. split; [done|].
    apply IH; [done|by destruct Hok'|done].
Qed.

(** ** The system calls *)

(** How a write of [n] bytes ends, [i] of which are in the pipe. *)
Definition write_end (pid : Z) (copyin : Z -> option byte) (addr n i r : Z) (s : pst) : Prop :=
  r = n /\ (i = n \/ copyin (u64 (addr + i)) = None) \/
  r = -1 /\ i < n /\ pipe_full (pi s) = true /\ (p_readopen (pi s) = false \/ p_killed s pid = true).

(** [C17] Whatever other processes do to the pipe while a writer sleeps, each
    stretch the writer runs appends to the queue exactly the next bytes of its
    user buffer, in order, never overruns the 512 bytes, and leaves the two
    open flags alone.  The write ends with all [n] bytes appended, or short of
    them at the first unreadable user byte (and still returns [n]), or with -1
    when the pipe is full and has no reader or the writer was killed. *)
Theorem pipewrite_appends (pid : Z) (copyin : Z -> option byte) (addr n : Z) (fuel : nat) (s : pst)
  (Hs : pipe_inv s) (Hn : 0 <= n < 2 ^ 31) :
  traced pipe_inv (wrote copyin addr)
    (fun g s0 r s' => pipe_inv s' /\ exists i, 0 <= i <= n /\ wrote copyin addr g s0 s' i /\
       write_end pid copyin addr n i r s')
    0 s (pipewrite pid copyin addr n fuel s).
Proof.
  destruct Hs as [Hl Hok]. unfold pipewrite, pipe_acquire.
  rewrite (bind_Done _ _ _ _ _ (acquire_lk_free pipe_get_lock pipe_set_lock s Hl)). apply traced_bind.
  eapply traced_mono; [|apply pipewrite_loop_spec with (n := n); [|lia]].
  - intros g s0 [|] s' (i & Hi & H); cbn [negb].
    + destruct H as [(Hl' & Hok' & Hw) Hend]. unfold wakeup_chan, pipe_release. rewrite bind_ret.
      rewrite (bind_Done _ _ _ _ _ (release_lk_held pipe_get_lock pipe_set_lock s' Hl')). cbn.
      split; [by destruct Hok'|]. exists i. split; [done|].
      split; [by eapply wrote_same; [..|exact Hw]|by left].
    + destruct H as [(Hinv & Hw & Hf & Hk) Hlt]. cbn. split; [done|]. exists i.
      split; [done|]. split; [done|]. by right.
  - split_and!; [done|by destruct Hok|by apply wrote_refl].
Qed.

(** [C27] A reader that has waited takes a prefix of the queue and stores it in
    user memory in order: it returns the number of bytes it stored, as many as
    were asked for or all there were.  The exception is an unwritable user
    byte, where the read ends: the byte meant for it has left the pipe and is
    lost, and is not counted.  So 0 means end of file (the queue empty and no
    writer), an empty request, or a first user byte that is unwritable.  While
    it waits it takes nothing; it returns -1 only when it was killed. *)
Theorem piperead_takes (pid : Z) (copyout : Z -> bool) (addr n : Z) (fuel : nat) (s : pst) (Hs : pipe_inv s) :
  traced pipe_inv untouched
    (fun _ s0 r s' => pipe_inv s' /\ Z.of_nat (length (snd r)) <= Z.max n 0 /\
       p_readopen (pi s') = p_readopen (pi s0) /\ p_writeopen (pi s') = p_writeopen (pi s0) /\
       (r = (-1, []) /\ p_killed s' pid = true /\ contents (pi s') = contents (pi s0) \/
        fst r = Z.of_nat (length (snd r)) /\ (contents (pi s0) <> [] \/ p_writeopen (pi s0) = false) /\
        (contents (pi s0) = snd r ++ contents (pi s') /\ (fst r = Z.max n 0 \/ contents (pi s') = []) \/
         exists lost, contents (pi s0) = snd r ++ lost :: contents (pi s') /\ fst r < n /\
           copyout (u64 (addr + fst r)) = false)) /\
       (fst r = 0 -> n <= 0 \/ (contents (pi s0) = [] /\ p_writeopen (pi s0) = false) \/ (contents (pi s0) <> [] /\ copyout (u64 addr) = false)))
    tt s (piperead pid copyout addr n fuel s).
Proof.
  destruct Hs as [Hl Hok]. unfold piperead, pipe_acquire.
  rewrite (bind_Done _ _ _ _ _ (acquire_lk_free pipe_get_lock pipe_set_lock s Hl)). apply traced_bind.
  eapply traced_mono; [|apply piperead_wait_spec; [done|by destruct Hok|done]].
  intros g s0 [|] s' ((Ec & Er & Ew) & H); cbn [negb].
  - destruct H as (Hl' & Hok' & Hgo).
    destruct (piperead_loop_spec copyout addr (Z.to_nat n) 0 s' Hl' Hok')
      as (r & s2 & E & H1 & H2 & H3 & H4 & H5 & H6 & H7 & H8).
    rewrite (bind_Done _ _ _ _ _ E). unfold wakeup_chan, pipe_release. rewrite bind_ret.
    rewrite (bind_Done _ _ _ _ _ (release_lk_held pipe_get_lock pipe_set_lock s2 H1)). cbn.
    rewrite Ec in Hgo, H8. rewrite Ew in Hgo. assert (fst r = Z.of_nat (length (snd r))) as Hlen by lia.
    split; [by destruct H2|]. split; [lia|]. split; [congruence|]. split; [congruence|]. split.
    + right. split; [done|]. split; [done|]. destruct H8 as [[E8 H8]|(lost & E8 & Hk & Hno)]; [left|right].
      * split; [done|]. destruct H8; [left; lia|by right].
      * exists lost. split; [done|]. split; [lia|done].
    + intros H0. assert (snd r = []) as Hnil by (destruct (snd r); [done|cbn in *; lia]). rewrite Hnil in H8. destruct H8 as [[E8 H8]|(lost & E8 & Hk & Hno)].
      * destruct H8 as [H8|H8]; [left; cbn in *; lia|]. cbn in E8. right; left. rewrite E8, H8 in *. split; [done|]. by destruct Hgo.
      * right; right. split; [by rewrite E8|]. by rewrite H0, Z.add_0_r in Hno.
  - destruct H as [Hinv Hk]. cbn. split; [done|]. split; [lia|]. split; [done|]. split; [done|]. split; [by left|done].
Qed.

Lemma pipewrite_loop_fits pid copyin addr (bs : list byte) : forall i s,
  p_lock (pi s) = true -> pipe_ok (pi s) -> pipe_len (pi s) + Z.of_nat (length bs) <= PIPESIZE ->
  (forall j b, bs !! j = Some b -> copyin (u64 (addr + (i + Z.of_nat j))) = Some b) ->
  exists s', pipewrite_loop pid copyin addr i (length bs) 0 s = Done true s' /\
    p_lock (pi s') = true /\ pipe_ok (pi s') /\ contents (pi s') = contents (pi s) ++ bs.
Proof.
  induction bs as [|b bs IH]; intros i s Hl Hok Hfit Hbs; cbn [pipewrite_loop length].
  { exists s. rewrite app_nil_r. done. }
  assert (pipe_full (pi s) = false) as Hf.
  { rewrite pipe_full_len by done. apply Z.eqb_neq. simpl in Hfit. lia. }
  assert (pipewrite_wait pid 0 s = Done true s) as Ew by (cbn [pipewrite_wait]; rewrite bind_gets, Hf; done).
  rewrite (bind_Done _ _ _ _ _ Ew). cbn [negb].
  specialize (Hbs 0%nat b eq_refl) as Hb. rewrite Z.add_0_r in Hb. rewrite Hb, bind_modify.
  destruct (pipe_put_spec b (pi s) Hok Hf) as [Hok' Ec].
  destruct (IH (i + 1) (set_pi (pipe_put b) s)) as (s' & E & H1 & H2 & H3); [done|done|..].
  - rewrite <- length_contents. cbn [pi set_pi]. rewrite Ec, length_app, Nat2Z.inj_add, length_contents. cbn in *. lia.
  - intros j b' Hj. rewrite <- (Hbs (S j) b' Hj). f_equal. f_equal. lia.
  - exists s'. split_and!; try done. rewrite H3. cbn [pi set_pi]. by rewrite Ec, <- app_assoc.
Qed.

(** What is written is read back: a write that fits into an empty pipe
    returns at once with every byte queued, and a read of at least as many
    bytes into writable memory then returns exactly these bytes, wherever the
    two 32-bit counters stand when it starts. *)
Theorem pipe_write_read (pid pid' addr addr' m : Z) (copyin : Z -> option byte) (bs : list byte) (s : pst)
  (Hs : pipe_inv s) (Hempty : contents (pi s) = [])
  (Hlen : Z.of_nat (length bs) <= PIPESIZE) (Hpos : bs <> []) (Hm : Z.of_nat (length bs) <= m)
  (Hbs : forall j b, bs !! j = Some b -> copyin (u64 (addr + Z.of_nat j)) = Some b) :
  exists s1 s2,
    pipewrite pid copyin addr (Z.of_nat (length bs)) 0 s = Done (Z.of_nat (length bs)) s1 /\
    contents (pi s1) = bs /\
    piperead pid' (fun _ => true) addr' m 0 s1 = Done (Z.of_nat (length bs), bs) s2 /\
    pipe_inv s2 /\ contents (pi s2) = [].
Proof.
  destruct Hs as [Hl Hok]. unfold pipewrite, pipe_acquire.
  rewrite (bind_Done _ _ _ _ _ (acquire_lk_free pipe_get_lock pipe_set_lock s Hl)), Nat2Z.id.
  destruct (pipewrite_loop_fits pid copyin addr bs 0 (pipe_set_lock true s)) as (s1 & E & H1 & H2 & H3);
    [done|by destruct Hok| |done|].
  { pose proof (length_contents (pi s)) as El. rewrite Hempty in El. unfold pipe_set_lock, set_p_lock, pipe_len in *.
    cbn in *. lia. }
  change (contents (pi (pipe_set_lock true s))) with (contents (pi s)) in H3. rewrite Hempty in H3. simpl in H3.
  rewrite (bind_Done _ _ _ _ _ E). cbn [negb]. unfold wakeup_chan, pipe_release. rewrite bind_ret.
  rewrite (bind_Done _ _ _ _ _ (release_lk_held pipe_get_lock pipe_set_lock s1 H1)).
  set (s1' := pipe_set_lock false s1). assert (contents (pi s1') = bs) as Ec by done.
  exists s1'. unfold piperead, pipe_acquire.
  rewrite (bind_Done _ _ _ _ _ (acquire_lk_free pipe_get_lock pipe_set_lock s1' eq_refl)).
  set (s2 := pipe_set_lock true s1'). assert (pipe_ok (pi s2)) as Hok2 by (by destruct H2).
  assert (contents (pi s2) = bs) as Ec2 by done.
  assert (piperead_wait pid' 0 s2 = Done true s2) as Ew.
  { cbn [piperead_wait]. rewrite bind_gets, pipe_empty_len by done.
    replace (pipe_len (pi s2) =? 0) with false; [done|]. symmetry. apply Z.eqb_neq.
    rewrite <- length_contents, Ec2. destruct bs; [done|]. simpl. lia. }
  rewrite (bind_Done _ _ _ _ _ Ew). cbn [negb].
  destruct (piperead_loop_spec (fun _ => true) addr' (Z.to_nat m) 0 s2 eq_refl Hok2)
    as (r & s3 & E3 & K1 & K2 & _ & _ & _ & K6 & K7 & [[K8 K9]|(? & _ & _ & ?)]); [|done].
  rewrite (bind_Done _ _ _ _ _ E3). unfold wakeup_chan, pipe_release. rewrite bind_ret.
  rewrite (bind_Done _ _ _ _ _ (release_lk_held pipe_get_lock pipe_set_lock s3 K1)).
  assert (contents (pi s3) = [] /\ snd r = bs) as [C3 Er].
  { rewrite Ec2 in K8. assert (length bs = length (snd r) + length (contents (pi s3)))%nat as L
      by (rewrite K8; apply length_app).
    assert (contents (pi s3) = []) as C3 by (destruct K9; [apply nil_length_inv; lia|done]).
    rewrite C3, app_nil_r in K8. done. }
  exists (pipe_set_lock false s3). split; [done|]. split; [done|]. split; [|split; [split; [done|by destruct K2]|exact C3]].
  unfold ret. f_equal. rewrite (surjective_pairing r), Er, K6, Er. done.
Qed.

(** *** Examples: a three-byte message, with the counters about to wrap *)

Definition msg3 (a : Z) : option byte :=
  if a =? 100 then Some (byte.of_Z 97) else if a =? 101 then Some (byte.of_Z 98)
  else if a =? 102 then Some (byte.of_Z 99) else None.

Definition old_pipe : pst :=
  mk_pst (mk_pipe false (fun _ => byte.of_Z 0) (2 ^ 32 - 2) (2 ^ 32 - 2) true true) (fun _ => false) false.

Lemma old_pipe_inv : pipe_inv old_pipe.
Proof. split; [done|]. split; vm_compute; repeat split; discriminate. Qed.

Lemma pipewrite_appends_witness :
  exists s', pipewrite 1 msg3 100 4 0 old_pipe = Done 4 s' /\ pipe_inv s' /\
    exists i, 0 <= i <= 4 /\ wrote msg3 100 0 old_pipe s' i /\ write_end 1 msg3 100 4 i 4 s'.
Proof.
  pose proof (pipewrite_appends 1 msg3 100 4 0 old_pipe old_pipe_inv ltac:(lia)) as H.
  destruct (pipewrite 1 msg3 100 4 0 old_pipe) as [r s'| | |] eqn:E; [|discriminate E..].
  assert (r = 4) as -> by (injection E as <- _; reflexivity). exists s'. split; [reflexivity|exact H].
Defined.

Definition msg_pipe : pst := mk_pst (mk_pipe false (fun i => byte.of_Z i) 7 10 true true) (fun _ => false) false.

Lemma piperead_takes_witness :
  piperead 2 (fun a => a <? 2000) 1998 3 0 msg_pipe = Done (2, [byte.of_Z 7; byte.of_Z 8])
    (mk_pst (mk_pipe false (fun i => byte.of_Z i) 10 10 true true) (fun _ => false) false) /\
  pipe_inv msg_pipe /\ traced pipe_inv untouched (fun _ s0 r s' => exists lost,
       contents (pi s0) = snd r ++ lost :: contents (pi s')) tt msg_pipe (piperead 2 (fun a => a <? 2000) 1998 3 0 msg_pipe).
Proof.
  assert (pipe_inv msg_pipe) as Hinv by (split; [done|]; split; vm_compute; repeat split; discriminate).
  split; [reflexivity|]. split; [exact Hinv|].
  pose proof (piperead_takes 2 (fun a => a <? 2000) 1998 3 0 msg_pipe Hinv) as H.
  destruct (piperead 2 (fun a => a <? 2000) 1998 3 0 msg_pipe) as [r s'| | |] eqn:E; [|discriminate E..].
  destruct H as (_ & _ & _ & _ & [[H _]|(H1 & _ & [[H _]|(l & H & _)])] & _).
  - injection E as <- _. discriminate H.
  - injection E as <- <-. vm_compute in H. discriminate H.
  - exists l. exact H.
Defined.

Lemma pipe_write_read_witness :
  exists s1 s2,
    pipewrite 1 msg3 100 3 0 old_pipe = Done 3 s1 /\
    contents (pi s1) = map byte.of_Z [97; 98; 99] /\
    piperead 2 (fun _ => true) 5000 10 0 s1 = Done (3, map byte.of_Z [97; 98; 99]) s2 /\
    pipe_inv s2 /\ contents (pi s2) = [].
Proof.
  apply (pipe_write_read 1 2 100 5000 10 msg3 (map byte.of_Z [97; 98; 99]) old_pipe old_pipe_inv eq_refl).
  - vm_compute. discriminate.
  - discriminate.
  - vm_compute. discriminate.
  - intros [|[|[|j]]] b H; simpl in H; [injection H as <-; reflexivity..|]. by rewrite lookup_nil in H.
Defined.

(** Closing the two ends of a pipe, in either order, frees its page once. *)
Lemma pipeclose_frees_last (w : bool) s :
  pipe_inv s -> p_freed s = false -> p_readopen (pi s) = true -> p_writeopen (pi s) = true ->
  exists s1 s2, pipeclose w s = Done tt s1 /\ p_freed s1 = false /\ pipe_inv s1 /\
    contents (pi s1) = contents (pi s) /\ pipeclose (negb w) s1 = Done tt s2 /\ p_freed s2 = true.
Proof.
  destruct s as [[lk d nr nw ro wo] k f]. intros [Hl Hok] Hf Hr Hw. cbn in *. subst.
  destruct w; do 2 eexists; (split; [reflexivity|]); (split; [reflexivity|]);
    (split; [split; [done|by destruct Hok]|]); split; [reflexivity|by split|reflexivity|by split].
Qed.
