(* ===== verification/Printf.v ===== *)
(** * Formatted output: kernel/printf.c and user/printf.c

    Characters are their codes.  The variable arguments are the sequence of
    64-bit words the calling convention passes, read one by one; a string
    argument is the address of a string, whose characters up to the NUL are
    given by [str]. *)

From S2P Require Import Prelude.

Definition codes (s : string) : list Z := map (fun a => Z.of_N (Ascii.N_of_ascii a)) (String.list_ascii_of_string s).

Definition digits : list Z := codes "0123456789abcdef".
Definition u_digits : list Z := codes "0123456789ABCDEF".
Definition digit_at (digs : list Z) (i : Z) : Z := nth (Z.to_nat i) digs 0.

(** The [do ... while] loop that stores digits, least significant first; the
    fuel is the size of [buf]. *)
Fixpoint store_digits (digs : list Z) (base x : Z) (room : nat) : list Z :=
  match room with
  | O => []
  | S room' =>
      digit_at digs (x mod base) :: (if x / base =? 0 then [] else store_digits digs base (x / base) room')
  end.

Definition BUFSZ : nat := 16.

(** The characters of a number, in the order they are sent. *)
Definition int_chars (digs : list Z) (base x : Z) (neg : bool) : list Z :=
  reverse (store_digits digs base x BUFSZ ++ if neg then [45] else []).

(** [x <<= 4] and [x >> 60] on 64-bit words. *)
Fixpoint ptr_chars (digs : list Z) (x : Z) (n : nat) : list Z :=
  match n with
  | O => []
  | S n' => digit_at digs (Z.shiftr x 60) :: ptr_chars digs (u64 (Z.shiftl x 4)) n'
  end.

(** ** Kernel: printf.c *)

(** The printing state: the [pr] lock, whether to use it, the flag that
    freezes other harts, and what has been sent to the uart. *)
Record prst := mk_prst { pr_lock : bool; pr_locking : bool; panicked : bool; uart_out : list Z }.

Definition set_pr_lock (b : bool) (s : prst) : prst := mk_prst b (pr_locking s) (panicked s) (uart_out s).
Definition uartputc (c : Z) : M prst unit :=
  modify (fun s => mk_prst (pr_lock s) (pr_locking s) (panicked s) (uart_out s ++ [u8 c])).

Definition BACKSPACE : Z := 256.

(** A hart that finds [panicked] set spins for ever. *)
Definition consputc (c : Z) : M prst unit :=
  p <- gets panicked ;;
  if (p : bool) then exhausted else
  if c =? BACKSPACE then uartputc 8 ;;; uartputc 32 ;;; uartputc 8 else uartputc c.

Fixpoint consputs (l : list Z) : M prst unit :=
  match l with [] => ret tt | c :: l' => consputc c ;;; consputs l' end.

Definition printint (xx base : Z) (sign : bool) : M prst unit :=
  let neg := sign && (xx <? 0) in
  let x := if neg then u32 (- xx) else u32 xx in
  consputs (int_chars digits base x neg).

Definition printptr (x : Z) : M prst unit :=
  consputc 48 ;;; consputc 120 ;;; consputs (ptr_chars digits x 16).

Section Printf.

Context (str : Z -> list Z).

Definition str_arg (a : Z) : list Z := if a =? 0 then codes "(null)" else str a.

Fixpoint printf_loop (fmt : list Z) (ap : nat -> Z) (k : nat) : M prst unit :=
  match fmt with
  | [] => ret tt
  | c :: rest =>
      if negb (c =? 37) then consputc c ;;; printf_loop rest ap k
      else match rest with
           | [] => ret tt
           | d :: rest' =>
               if d =? 100 then printint (s32 (ap k)) 10 true ;;; printf_loop rest' ap (S k)
               else if d =? 120 then printint (s32 (ap k)) 16 true ;;; printf_loop rest' ap (S k)
               else if d =? 112 then printptr (u64 (ap k)) ;;; printf_loop rest' ap (S k)
               else if d =? 115 then consputs (str_arg (ap k)) ;;; printf_loop rest' ap (S k)
               else if d =? 37 then consputc 37 ;;; printf_loop rest' ap k
               else consputc 37 ;;; consputc d ;;; printf_loop rest' ap k
           end
  end.

(** [fmt] is [None] for a null pointer. *)
Definition printf (fmt : option (list Z)) (ap : nat -> Z) : M prst unit :=
  locking <- gets pr_locking ;;
  (if (locking : bool) then acquire_lk pr_lock set_pr_lock else ret tt) ;;;
  match fmt with
  | None => panic "null fmt"
  | Some f =>
      printf_loop f ap 0 ;;;
      if (locking : bool) then release_lk pr_lock set_pr_lock else ret tt
  end.

Definition no_args (k : nat) : Z := 0.

(** [panic] up to its endless loop. *)
Definition panic_report (s : list Z) : M prst unit :=
  modify (fun st => mk_prst (pr_lock st) false (panicked st) (uart_out st)) ;;;
  printf (Some (codes "panic: ")) no_args ;;;
  printf (Some s) no_args ;;;
  printf (Some [10]) no_args ;;;
  modify (fun st => mk_prst (pr_lock st) (pr_locking st) true (uart_out st)).

Definition printfinit : M prst unit :=
  modify (fun st => mk_prst false true (panicked st) (uart_out st)).

(** ** User: printf.c

    The bytes that [putc] hands to [write(fd, &c, 1)]. *)

Definition u_printint (xx base : Z) (sgn : bool) : list Z :=
  let neg := sgn && (xx <? 0) in
  let x := if neg then u32 (- xx) else u32 xx in
  int_chars u_digits base x neg.

Definition u_printptr (x : Z) : list Z := [48; 120] ++ ptr_chars u_digits x 16.

(** The loop of [vprintf]; [pct] is [state == '%']. *)
Fixpoint vprintf (fmt : list Z) (ap : nat -> Z) (k : nat) (pct : bool) : list Z :=
  match fmt with
  | [] => []
  | c :: rest =>
      if negb pct then (if c =? 37 then vprintf rest ap k true else u8 c :: vprintf rest ap k false)
      else if c =? 100 then u_printint (s32 (ap k)) 10 true ++ vprintf rest ap (S k) false
      else if c =? 108 then u_printint (s32 (ap k)) 10 false ++ vprintf rest ap (S k) false
      else if c =? 120 then u_printint (s32 (ap k)) 16 false ++ vprintf rest ap (S k) false
      else if c =? 112 then u_printptr (u64 (ap k)) ++ vprintf rest ap (S k) false
      else if c =? 115 then map u8 (str_arg (ap k)) ++ vprintf rest ap (S k) false
      else if c =? 99 then u8 (ap k) :: vprintf rest ap (S k) false
      else if c =? 37 then u8 c :: vprintf rest ap k false
      else 37 :: u8 c :: vprintf rest ap k false
  end.

Definition fprintf (fd : Z) (fmt : list Z) (ap : nat -> Z) : Z * list Z := (fd, vprintf fmt ap 0 false).
Definition u_printf (fmt : list Z) (ap : nat -> Z) : Z * list Z := (1, vprintf fmt ap 0 false).

End Printf.

(** The arguments of a [printf] call. *)
Inductive parg := PInt (v : Z) | PStr (s : list byte).

(** The characters of a C string, up to its NUL. *)
Fixpoint upto_nul (l : list byte) : list byte :=
  match l with
  | [] => []
  | c :: l' => if Byte.eqb c Byte.x00 then [] else c :: upto_nul l'
  end.

(** A string argument is passed as its position among the arguments. *)
Definition parg_word (args : list parg) (k : nat) : Z :=
  match args !! k with Some (PInt v) => v | Some (PStr _) => Z.of_nat k + 1 | None => 0 end.
Definition parg_str (args : list parg) (a : Z) : list Z :=
  match args !! Z.to_nat (a - 1) with Some (PStr s) => map byte.unsigned (upto_nul s) | _ => [] end.

(** ** Numerals *)

(** The value of a character as a digit of [digs], and of a numeral, most
    significant digit first. *)
Fixpoint index_of (c : Z) (l : list Z) : option Z :=
  match l with
  | [] => None
  | d :: l' => if c =? d then Some 0 else i ← index_of c l'; Some (i + 1)
  end.

Fixpoint numeral_value (digs : list Z) (base acc : Z) (l : list Z) : option Z :=
  match l with
  | [] => Some acc
  | c :: l' => v ← index_of c digs; if v <? base then numeral_value digs base (acc * base + v) l' else None
  end.

Definition read_int (digs : list Z) (base : Z) (l : list Z) : option Z :=
  match l with
  | 45 :: l' => v ← numeral_value digs base 0 l'; Some (- v)
  | _ => numeral_value digs base 0 l
  end.

Definition hexdigits (digs : list Z) : Prop :=
  (forall i, 0 <= i < 16 -> index_of (digit_at digs i) digs = Some i) /\ ~ In 45 digs.

Lemma hexdigits_digits : hexdigits digits.
Proof.
  split; [|vm_compute; intuition discriminate]. intros i Hi.
  assert (Forall (fun i => index_of (digit_at digits i) digits = Some i) (map Z.of_nat (seq 0 16))) as H
    by (repeat constructor).
  rewrite Forall_forall in H. apply H. apply list_elem_of_In, in_map_iff. exists (Z.to_nat i).
  split; [lia|]. apply in_seq. lia.
Qed.

Lemma hexdigits_u_digits : hexdigits u_digits.
Proof.
  split; [|vm_compute; intuition discriminate]. intros i Hi.
  assert (Forall (fun i => index_of (digit_at u_digits i) u_digits = Some i) (map Z.of_nat (seq 0 16))) as H
    by (repeat constructor).
  rewrite Forall_forall in H. apply H. apply list_elem_of_In, in_map_iff. exists (Z.to_nat i).
  split; [lia|]. apply in_seq. lia.
Qed.

Lemma numeral_value_snoc digs base l c : forall acc v d,
  numeral_value digs base acc l = Some v -> index_of c digs = Some d -> d < base ->
  numeral_value digs base acc (l ++ [c]) = Some (v * base + d).
Proof.
  induction l as [|c' l IH]; intros acc v d; cbn [numeral_value app].
  - intros [= ->] -> Hd. cbn. by rewrite (proj2 (Z.ltb_lt d base) Hd).
  - destruct (index_of c' digs) as [v'|]; [|done]. cbn. destruct (v' <? base); [|done]. apply IH.
Qed.

Section Numerals.

Context (digs : list Z) (Hdigs : hexdigits digs) (base : Z) (Hbase : 2 <= base <= 16).

Lemma store_digits_value room : forall x, 0 <= x < base ^ Z.of_nat room ->
  room <> O -> numeral_value digs base 0 (reverse (store_digits digs base x room)) = Some x.
Proof.
  induction room as [|room IH]; intros x Hx Hr; [done|]. cbn [store_digits]. rewrite reverse_cons.
  assert (0 <= x mod base < base) by (apply Z.mod_pos_bound; lia).
  assert (index_of (digit_at digs (x mod base)) digs = Some (x mod base)) as Ei by (apply Hdigs; lia).
  replace (Some x) with (Some (x / base * base + x mod base)) by (f_equal; rewrite (Z.div_mod x base) at 3 by lia; lia).
  destruct (Z.eqb_spec (x / base) 0) as [E|E].
  - cbn [reverse rev_append app]. rewrite E.
    apply (numeral_value_snoc digs base [] _ 0 0 _ eq_refl Ei). lia.
  - assert (room <> O).
    { intros ->. change (base ^ Z.of_nat 1) with (base ^ 1) in Hx. rewrite Z.pow_1_r in Hx. apply E, Z.div_small. lia. }
    apply numeral_value_snoc; [|done|lia]. apply IH; [|done]. split; [apply Z.div_pos; lia|].
    apply Z.div_lt_upper_bound; [lia|]. rewrite <- Z.pow_succ_r, <- Nat2Z.inj_succ by lia. lia.
Qed.

Lemma store_digits_in room x c : 0 <= x -> In c (store_digits digs base x room) ->
  exists i, 0 <= i < base /\ c = digit_at digs i.
Proof.
  revert x. induction room as [|room IH]; intros x Hx; [done|]. cbn [store_digits]. intros [<-|H].
  - exists (x mod base). split; [apply Z.mod_pos_bound; lia|done].
  - destruct (x / base =? 0); [done|]. apply (IH (x / base)); [apply Z.div_pos; lia|done].
Qed.

Lemma digit_not_minus i : 0 <= i < 16 -> digit_at digs i <> 45.
Proof.
  intros Hi E. destruct Hdigs as [H1 H2]. specialize (H1 i Hi). rewrite E in H1. apply H2.
  clear -H1. revert i H1. induction digs as [|d l IH]; intros i; cbn [index_of In]; [done|].
  destruct (Z.eqb_spec 45 d); [by left|]. destruct (index_of 45 l) as [j|]; [|done].
  intros _. right. by apply (IH j).
Qed.

(** Every 32-bit number fits the buffer, in any base. *)
Lemma store_digits_value32 x : 0 <= x < 2 ^ 32 -> 4 <= base ->
  numeral_value digs base 0 (reverse (store_digits digs base x BUFSZ)) = Some x.
Proof.
  intros Hx H4. apply store_digits_value; [|done]. split; [lia|]. change (Z.of_nat BUFSZ) with 16.
  eapply Z.lt_le_trans; [apply Hx|]. change (2 ^ 32) with (4 ^ 16). apply Z.pow_le_mono_l. lia.
Qed.

Lemma store_digits_nonempty x : reverse (store_digits digs base x BUFSZ) <> [].
Proof. cbn [store_digits BUFSZ]. rewrite reverse_cons. by destruct (reverse _). Qed.

Lemma read_int_chars x (neg : bool) : 0 <= x < 2 ^ 32 -> 4 <= base ->
  read_int digs base (int_chars digs base x neg) = Some (if neg then - x else x).
Proof.
  intros Hx H4. unfold int_chars. pose proof (store_digits_value32 x Hx H4) as E. rewrite reverse_app. destruct neg.
  - cbn [reverse rev_append app read_int]. by rewrite E.
  - cbn [reverse rev_append app]. pose proof (store_digits_nonempty x) as Hne.
    destruct (reverse (store_digits digs base x BUFSZ)) as [|c l] eqn:El; [done|].
    assert (In c (store_digits digs base x BUFSZ)) as Hin.
    { apply list_elem_of_In. rewrite <- elem_of_reverse, El. by left. }
    apply store_digits_in in Hin as (i & Hi & ->); [|lia].
    pose proof (digit_not_minus i ltac:(lia)) as Hm. rewrite <- E. unfold read_int.
    repeat match goal with |- context [match ?z with _ => _ end] => destruct z; try done end.
Qed.

End Numerals.

(** ** What the kernel's routines send *)

Definition emit (l : list Z) (s : prst) : prst := mk_prst (pr_lock s) (pr_locking s) (panicked s) (uart_out s ++ l).
Definition bytes_ok (l : list Z) : Prop := Forall (fun c => 0 <= c < 256) l.

Lemma emit_nil s : emit [] s = s.
Proof. destruct s. unfold emit. cbn. by rewrite app_nil_r. Qed.

Lemma emit_emit l l' s : emit l' (emit l s) = emit (l ++ l') s.
Proof. unfold emit. cbn. by rewrite app_assoc. Qed.

Lemma consputc_emit c s : panicked s = false -> 0 <= c < 256 -> consputc c s = Done tt (emit [c] s).
Proof.
  intros Hp Hc. unfold consputc. rewrite bind_gets, Hp. unfold BACKSPACE. destruct (Z.eqb_spec c 256); [lia|].
  unfold uartputc, modify, emit. unfold u8. rewrite Z.mod_small by lia. done.
Qed.

Lemma consputs_emit l : forall s, panicked s = false -> bytes_ok l -> consputs l s = Done tt (emit l s).
Proof.
  induction l as [|c l IH]; intros s Hp Hl; cbn [consputs].
  - by rewrite emit_nil.
  - apply Forall_cons in Hl as [Hc Hl]. rewrite (bind_Done _ _ _ _ _ (consputc_emit c s Hp Hc)).
    rewrite IH by done. by rewrite emit_emit.
Qed.

Lemma digit_at_byte digs i : bytes_ok digs -> 0 <= digit_at digs i < 256.
Proof.
  intros H. unfold digit_at. destruct (nth_in_or_default (Z.to_nat i) digs 0) as [Hin| ->]; [|lia].
  unfold bytes_ok in H. rewrite Forall_forall in H. by apply H, list_elem_of_In.
Qed.

Lemma digits_bytes : bytes_ok digits.
Proof. apply (bool_decide_eq_true_1 _). vm_compute. reflexivity. Qed.

Lemma u_digits_bytes : bytes_ok u_digits.
Proof. apply (bool_decide_eq_true_1 _). vm_compute. reflexivity. Qed.

Lemma int_chars_bytes digs base x neg : bytes_ok digs -> bytes_ok (int_chars digs base x neg).
Proof.
  intros H. unfold int_chars, bytes_ok. apply Forall_reverse, Forall_app. split.
  - generalize BUFSZ. intros room. revert x. induction room as [|room IH]; intros x; cbn [store_digits]; constructor.
    + by apply digit_at_byte.
    + destruct (x / base =? 0); [constructor|apply IH].
  - destruct neg; repeat constructor; lia.
Qed.

Lemma ptr_chars_bytes digs n x : bytes_ok digs -> bytes_ok (ptr_chars digs x n).
Proof.
  intros H. revert x. induction n as [|n IH]; intros x; cbn [ptr_chars]; constructor; [by apply digit_at_byte|apply IH].
Qed.

Definition int_range (x : Z) : Prop := - 2 ^ 31 <= x < 2 ^ 31.

Lemma magnitude_range xx : int_range xx ->
  0 <= (if xx <? 0 then u32 (- xx) else u32 xx) < 2 ^ 32 /\
  (if xx <? 0 then - u32 (- xx) else u32 xx) = xx.
Proof.
  unfold int_range. intros Hx. destruct (Z.ltb_spec xx 0); rewrite u32_small by lia; lia.
Qed.

(** [printint] sends the numeral of its argument: for every 32-bit
    integer, the most negative one included, and for decimal and hexadecimal,
    the characters sent read back as the number, and nothing else is sent. *)
Theorem printint_denotes (xx base : Z) (s : prst)
  (Hx : int_range xx) (Hb : base = 10 \/ base = 16) (Hp : panicked s = false) :
  exists out, printint xx base true s = Done tt (emit out s) /\ read_int digits base out = Some xx.
Proof.
  destruct (magnitude_range xx Hx) as [Hr Hv]. unfold printint. cbn [andb].
  eexists. split; [apply consputs_emit; [done|apply int_chars_bytes, digits_bytes]|].
  rewrite (read_int_chars digits hexdigits_digits) by lia. f_equal.
  by destruct (xx <? 0).
Qed.

Lemma printint_denotes_witness :
  (exists out, printint (- 2 ^ 31) 10 true (mk_prst false false false []) = Done tt (emit out (mk_prst false false false [])) /\
     read_int digits 10 out = Some (- 2 ^ 31)) /\
  printint (- 2 ^ 31) 10 true (mk_prst false false false []) = Done tt (mk_prst false false false (codes "-2147483648")).
Proof.
  split; [|reflexivity].
  apply printint_denotes; [split; vm_compute; [discriminate|reflexivity]|left; reflexivity|reflexivity].
Defined.

(** *** The kernel's and the user's formatter *)

(** The formats both formatters treat alike: no [%x] (signed in the kernel),
    [%p] (digits of another case), [%l] or [%c] (unknown to the kernel). *)
Fixpoint common_format (fmt : list Z) : bool :=
  match fmt with
  | [] => true
  | c :: rest =>
      if c =? 37 then
        match rest with
        | [] => true
        | d :: rest' => negb ((d =? 120) || (d =? 112) || (d =? 108) || (d =? 99)) && common_format rest'
        end
      else common_format rest
  end.

Lemma store_digits_dec room : forall x, store_digits digits 10 x room = store_digits u_digits 10 x room.
Proof.
  induction room as [|room IH]; intros x; [done|]. cbn [store_digits]. rewrite IH. f_equal.
  assert (0 <= x mod 10 < 10) as Hm by (apply Z.mod_pos_bound; lia).
  unfold digit_at. revert Hm. generalize (x mod 10). intros d Hd.
  assert (d = 0 \/ d = 1 \/ d = 2 \/ d = 3 \/ d = 4 \/ d = 5 \/ d = 6 \/ d = 7 \/ d = 8 \/ d = 9) as Hc by lia.
  by repeat destruct Hc as [->|Hc]; subst.
Qed.

(** *** The reference: one formatter in two dialects *)

(** A format is characters and directives; a [%] that ends it is nothing. *)
Inductive piece := Lit (c : Z) | Dir (d : Z).

Fixpoint format_pieces (fmt : list Z) : list piece :=
  match fmt with
  | [] => []
  | c :: rest => if c =? 37 then match rest with [] => [] | d :: rest' => Dir d :: format_pieces rest' end else Lit c :: format_pieces rest
  end.

(** The digits, whether [%x] is signed, and whether [%l] and [%c] are known. *)
Record dialect := mk_dialect { dl_digits : list Z; dl_signed_hex : bool; dl_more : bool }.

Definition kernel_dialect : dialect := mk_dialect digits true false.
Definition user_dialect : dialect := mk_dialect u_digits false true.

Definition number (digs : list Z) (base : Z) (signed : bool) (x : Z) : list Z :=
  let neg := signed && (x <? 0) in int_chars digs base (u32 (if neg then - x else x)) neg.

Section Render.

Context (str : Z -> list Z).

(** What a directive shows of its argument. *)
Definition shown (L : dialect) (d a : Z) : option (list Z) :=
  if d =? 100 then Some (number (dl_digits L) 10 true (s32 a))
  else if d =? 120 then Some (number (dl_digits L) 16 (dl_signed_hex L) (s32 a))
  else if d =? 112 then Some (48 :: 120 :: ptr_chars (dl_digits L) (u64 a) 16)
  else if d =? 115 then Some (str_arg str a)
  else if dl_more L && (d =? 108) then Some (number (dl_digits L) 10 false (s32 a))
  else if dl_more L && (d =? 99) then Some [u8 a]
  else None.

(** The text of a format; a directive that is not known stands for itself. *)
Fixpoint rendered (L : dialect) (ps : list piece) (ap : nat -> Z) (k : nat) : list Z :=
  match ps with
  | [] => []
  | Lit c :: ps' => c :: rendered L ps' ap k
  | Dir d :: ps' =>
      match shown L d (ap k) with
      | Some l => l ++ rendered L ps' ap (S k)
      | None => (if d =? 37 then [37] else [37; d]) ++ rendered L ps' ap k
      end
  end.

Context (Hstr : forall a, bytes_ok (str a)).

Lemma str_arg_bytes a : bytes_ok (str_arg str a).
Proof. unfold str_arg. destruct (a =? 0); [|apply Hstr]. apply (bool_decide_eq_true_1 _). vm_compute. reflexivity. Qed.

Lemma map_u8_bytes l : bytes_ok l -> map u8 l = l.
Proof.
  intros H. rewrite <- (map_id l) at 2. apply map_ext_in. intros c Hc%list_elem_of_In.
  unfold bytes_ok in H. rewrite Forall_forall in H. unfold u8. apply Z.mod_small. exact (H c Hc).
Qed.

Lemma printint_shows xx base signed s : panicked s = false -> printint xx base signed s = Done tt (emit (number digits base signed xx) s).
Proof.
  intros Hp. unfold printint, number. cbv zeta. rewrite consputs_emit by auto using int_chars_bytes, digits_bytes. by destruct (signed && (xx <? 0)).
Qed.

Lemma printptr_shows x s : panicked s = false -> printptr x s = Done tt (emit (48 :: 120 :: ptr_chars digits x 16) s).
Proof.
  intros Hp. unfold printptr. rewrite (bind_Done _ _ _ _ _ (consputc_emit 48 s Hp ltac:(lia))), (bind_Done _ _ _ _ _ (consputc_emit 120 (emit [48] s) Hp ltac:(lia))).
  rewrite consputs_emit by (done || apply ptr_chars_bytes, digits_bytes). by rewrite !emit_emit.
Qed.

Lemma kernel_renders n : forall fmt ap k s, (length fmt < n)%nat -> panicked s = false -> bytes_ok fmt ->
  printf_loop str fmt ap k s = Done tt (emit (rendered kernel_dialect (format_pieces fmt) ap k) s).
Proof.
  induction n as [|n IH]; intros fmt ap k s Hlen Hp Hf; [lia|].
  assert (forall l rest k' (m : M prst unit), (length rest < n)%nat -> bytes_ok rest -> m s = Done tt (emit l s) ->
    (m ;;; printf_loop str rest ap k') s = Done tt (emit (l ++ rendered kernel_dialect (format_pieces rest) ap k') s)) as Hstep.
  { intros l rest k' m H1 H2 Hm. rewrite (bind_Done _ _ _ _ _ Hm), IH by done. by rewrite emit_emit. }
  destruct fmt as [|c rest]; cbn [printf_loop format_pieces]; [by rewrite emit_nil|]. apply Forall_cons in Hf as [Hcb Hf]. cbn [length] in Hlen.
  destruct (Z.eqb_spec c 37) as [->|Hne]; cbn [negb]; [|apply (Hstep [c]); [lia|done|by apply consputc_emit]].
  destruct rest as [|d rest]; [by rewrite emit_nil|]. apply Forall_cons in Hf as [Hdb Hf]. cbn [length] in Hlen. cbn [rendered]. unfold shown.
  cbn [kernel_dialect dl_digits dl_signed_hex dl_more andb].
  destruct (d =? 100); [apply Hstep; [lia|done|by apply printint_shows]|]. destruct (d =? 120); [apply Hstep; [lia|done|by apply printint_shows]|].
  destruct (d =? 112); [apply Hstep; [lia|done|by apply printptr_shows]|].
  destruct (d =? 115); [apply Hstep; [lia|done|by apply consputs_emit; [|apply str_arg_bytes]]|].
  destruct (Z.eqb_spec d 37) as [->|]; [apply (Hstep [37]); [lia|done|by apply consputc_emit]|].
  rewrite (bind_Done _ _ _ _ _ (consputc_emit 37 s Hp ltac:(lia))), (bind_Done _ _ _ _ _ (consputc_emit d (emit [37] s) Hp Hdb)).
  rewrite IH by (try done; lia). by rewrite !emit_emit.
Qed.

Lemma u_printint_number xx base signed : u_printint xx base signed = number u_digits base signed xx.
Proof. unfold u_printint, number. cbv zeta. by destruct (signed && (xx <? 0)). Qed.

Lemma user_renders n : forall fmt ap k, (length fmt < n)%nat -> bytes_ok fmt -> vprintf str fmt ap k false = rendered user_dialect (format_pieces fmt) ap k.
Proof.
  induction n as [|n IH]; intros fmt ap k Hlen Hf; [lia|]. destruct fmt as [|c rest]; [done|]. cbn [vprintf format_pieces negb]. apply Forall_cons in Hf as [Hcb Hf]. cbn [length] in Hlen.
  assert (u8 c = c) as Eu by (unfold u8; apply Z.mod_small; lia).
  destruct (Z.eqb_spec c 37) as [->|Hne]; [|rewrite Eu; cbn [rendered]; by rewrite IH by (done || lia)].
  destruct rest as [|d rest]; [done|]. apply Forall_cons in Hf as [Hdb Hf]. cbn [length] in Hlen. cbn [vprintf negb rendered]. unfold shown.
  assert (u8 d = d) as -> by (unfold u8; apply Z.mod_small; lia). cbn [user_dialect dl_digits dl_signed_hex dl_more andb].
  rewrite !u_printint_number, (map_u8_bytes (str_arg str (ap k))) by apply str_arg_bytes. unfold u_printptr. rewrite !IH by (done || lia).
  destruct (Z.eqb_spec d 100); [done|]. destruct (Z.eqb_spec d 108) as [->|]; [done|]. destruct (Z.eqb_spec d 120); [done|]. destruct (Z.eqb_spec d 112); [done|].
  destruct (Z.eqb_spec d 115); [done|]. destruct (Z.eqb_spec d 99); [done|]. by destruct (Z.eqb_spec d 37) as [->|].
Qed.

(** The dialects differ in [%x], [%p], [%l] and [%c] only. *)
Lemma dialects_agree n : forall fmt ap k, (length fmt < n)%nat -> common_format fmt = true ->
  rendered kernel_dialect (format_pieces fmt) ap k = rendered user_dialect (format_pieces fmt) ap k.
Proof.
  induction n as [|n IH]; intros fmt ap k Hlen Hc; [lia|]. destruct fmt as [|c rest]; [done|]. cbn [format_pieces common_format] in *. cbn [length] in Hlen.
  destruct (Z.eqb_spec c 37) as [->|Hne]; [|cbn [rendered]; by rewrite IH by (done || lia)].
  destruct rest as [|d rest]; [done|]. cbn [length] in Hlen. apply andb_true_iff in Hc as [Hd Hc].
  apply negb_true_iff in Hd. apply orb_false_iff in Hd as [Hd H99]. apply orb_false_iff in Hd as [Hd H108]. apply orb_false_iff in Hd as [H120 H112].
  cbn [rendered]. unfold shown. rewrite H120, H112, H108, H99, !andb_false_r, !IH by (done || lia). destruct (d =? 100); [|done].
  unfold number, int_chars. cbn [kernel_dialect user_dialect dl_digits]. by rewrite store_digits_dec.
Qed.

Lemma printf_loop_agrees n : forall fmt ap k s,
  (length fmt < n)%nat -> panicked s = false -> bytes_ok fmt -> common_format fmt = true ->
  printf_loop str fmt ap k s = Done tt (emit (vprintf str fmt ap k false) s).
Proof. intros fmt ap k s Hlen Hp Hf Hc. by rewrite (kernel_renders n), (user_renders n), (dialects_agree n). Qed.

End Render.

Lemma printf_renders (str : Z -> list Z) (fmt : list Z) (ap : nat -> Z) (s : prst) :
  (forall a, bytes_ok (str a)) -> bytes_ok fmt -> panicked s = false -> pr_lock s = false ->
  printf str (Some fmt) ap s = Done tt (emit (rendered str kernel_dialect (format_pieces fmt) ap 0) s).
Proof.
  intros Hstr Hf Hp Hl. pose proof (fun s => kernel_renders str Hstr (S (length fmt)) fmt ap 0 s (Nat.lt_succ_diag_r _)) as H.
  unfold printf. rewrite bind_gets. destruct s as [lk [|] pn out]; cbn in Hp, Hl; subst; cbn [pr_locking].
  - rewrite (bind_Done _ _ _ _ _ (acquire_lk_free pr_lock set_pr_lock (mk_prst false true false out) eq_refl)).
    rewrite (bind_Done _ _ _ _ _ (H (mk_prst true true false out) eq_refl Hf)). by apply release_lk_held.
  - rewrite bind_ret. by rewrite (bind_Done _ _ _ _ _ (H (mk_prst false false false out) eq_refl Hf)).
Qed.

Lemma printf_emits (str : Z -> list Z) (fmt : list Z) (ap : nat -> Z) (s : prst) :
  (forall a, bytes_ok (str a)) -> bytes_ok fmt -> common_format fmt = true -> panicked s = false -> pr_lock s = false ->
  printf str (Some fmt) ap s = Done tt (emit (vprintf str fmt ap 0 false) s).
Proof.
  intros Hstr Hf Hc Hp Hl. rewrite printf_renders by done.
  by rewrite (dialects_agree str (S (length fmt))), (user_renders str Hstr (S (length fmt))) by (done || lia).
Qed.

(** [C28] The kernel's [printf], which looks ahead at the conversion character,
    and the user library's, which keeps a state, are the same formatter in two
    dialects: for every format and every argument list each prints the text
    that the reference gives for its dialect, unknown directives and a [%] at
    the end of the format included; the kernel one holds its lock meanwhile
    and frees it.  The dialects differ in hexadecimal digits (lower case in the
    kernel, upper case in the library), in [%x] (signed in the kernel) and in
    [%l] and [%c] (unknown to the kernel), so formats without [%x], [%p], [%l]
    and [%c] print the same bytes. *)
Theorem printf_agrees_with_user (str : Z -> list Z) (fmt : list Z) (ap : nat -> Z) (s : prst)
  (Hstr : forall a, bytes_ok (str a)) (Hf : bytes_ok fmt) (Hp : panicked s = false) (Hl : pr_lock s = false) :
  printf str (Some fmt) ap s = Done tt (emit (rendered str kernel_dialect (format_pieces fmt) ap 0) s) /\
  snd (u_printf str fmt ap) = rendered str user_dialect (format_pieces fmt) ap 0 /\
  (common_format fmt = true -> printf str (Some fmt) ap s = Done tt (emit (snd (u_printf str fmt ap)) s)).
Proof.
  split; [by apply printf_renders|]. split; [apply (user_renders str Hstr (S (length fmt))); [lia|done]|]. intros Hc. by apply printf_emits.
Qed.

Lemma printf_agrees_with_user_witness :
  printf (fun _ => codes "init") (Some (codes "%s: %x pid %d%% %q%")) (fun k => match k with O => 4096 | _ => 2 ^ 32 - 10 end) (mk_prst false true false [])
  = Done tt (mk_prst false true false (codes "init: -a pid -10% %q")) /\
  snd (u_printf (fun _ => codes "init") (codes "%s: %x pid %d%% %q%") (fun k => match k with O => 4096 | _ => 2 ^ 32 - 10 end)) = codes "init: FFFFFFF6 pid -10% %q".
Proof.
  destruct (printf_agrees_with_user (fun _ => codes "init") (codes "%s: %x pid %d%% %q%") (fun k => match k with O => 4096 | _ => 2 ^ 32 - 10 end) (mk_prst false true false []))
    as (E1 & E2 & _).
  - intros _. apply (bool_decide_eq_true_1 _). vm_compute. reflexivity.
  - apply (bool_decide_eq_true_1 _). vm_compute. reflexivity.
  - reflexivity.
  - reflexivity.
  - rewrite E1, E2. split; vm_compute; reflexivity.
Defined.

(** After a panic every other attempt to print hangs. *)
Lemma panic_report_freezes str msg s :
  panicked s = false -> bytes_ok msg -> common_format msg = true -> (forall a, bytes_ok (str a)) ->
  exists s', panic_report str msg s = Done tt s' /\ panicked s' = true /\
    uart_out s' = uart_out s ++ codes "panic: " ++ vprintf str msg no_args 0 false ++ [10] /\
    forall c, consputc c s' = Exhausted.
Proof.
  intros Hp Hm Hc Hstr. set (s0 := mk_prst (pr_lock s) false false (uart_out s)).
  assert (forall f l, bytes_ok f -> common_format f = true ->
    printf str (Some f) no_args (emit l s0) = Done tt (emit (l ++ vprintf str f no_args 0 false) s0)) as Hpr.
  { intros f l H1 H2. unfold printf. rewrite bind_gets. cbn [pr_locking emit s0]. rewrite bind_ret, <- emit_emit.
    by rewrite (bind_Done _ _ _ _ _ (printf_loop_agrees str Hstr (S (length f)) f no_args 0 (emit l s0)
                  (Nat.lt_succ_diag_r _) eq_refl H1 H2)). }
  unfold panic_report. rewrite bind_modify, Hp.
  replace (mk_prst (pr_lock s) false false (uart_out s)) with (emit [] s0) by apply emit_nil.
  rewrite (bind_Done _ _ _ _ _ (Hpr (codes "panic: ") [] ltac:(apply (bool_decide_eq_true_1 _); vm_compute; reflexivity) eq_refl)).
  rewrite (bind_Done _ _ _ _ _ (Hpr msg _ Hm Hc)).
  rewrite (bind_Done _ _ _ _ _ (Hpr [10] _ ltac:(repeat constructor; lia) eq_refl)).
  eexists. split; [reflexivity|]. split; [reflexivity|]. split; [|reflexivity].
  cbn [uart_out emit s0]. by rewrite <- !app_assoc.
Qed.
