(* ===== verification/Console.v ===== *)
(** * The virtual consoles: kernel/console.c

    Ten input buffers, one of which is active: it receives the characters of
    the uart, and only its output is sent.  User memory is given by what
    [either_copyin] and [either_copyout] of one byte do at each address;
    [procdump] is a parameter here (it prints the process table). *)

From S2P Require Import Prelude Printf.

Definition INPUT_BUF : Z := 128.
Definition NCONS : Z := 10.
(** [C(x)]: control characters. *)
Definition C (x : Z) : Z := x - 64.

Record input := mk_input { in_lock : bool; in_buf : Z -> Z; in_r : Z; in_w : Z; in_e : Z }.

(** [vcons], the index [active], the buffer [consa] points to, the printing
    state and the [killed] flags of processes. *)
Record cst := mk_cst {
  vcons : Z -> input;
  active : Z;
  consa : Z;
  c_pr : prst;
  c_killed : Z -> bool;
}.

Definition set_in_lock (b : bool) (i : input) : input := mk_input b (in_buf i) (in_r i) (in_w i) (in_e i).
Definition set_r (r : Z) (i : input) : input := mk_input (in_lock i) (in_buf i) r (in_w i) (in_e i).
Definition set_w (w : Z) (i : input) : input := mk_input (in_lock i) (in_buf i) (in_r i) w (in_e i).
Definition set_e (e : Z) (i : input) : input := mk_input (in_lock i) (in_buf i) (in_r i) (in_w i) e.
(** [buf[e++ % INPUT_BUF] = c] *)
Definition put_e (c : Z) (i : input) : input :=
  mk_input (in_lock i) (fset (in_buf i) (in_e i mod INPUT_BUF) (u8 c)) (in_r i) (in_w i) (u32 (in_e i + 1)).

Definition on_cons (vc : Z) (f : input -> input) (s : cst) : cst :=
  mk_cst (fset (vcons s) vc (f (vcons s vc))) (active s) (consa s) (c_pr s) (c_killed s).
Definition set_c_pr (p : prst) (s : cst) : cst := mk_cst (vcons s) (active s) (consa s) p (c_killed s).

Definition cons_held (vc : Z) (s : cst) : bool := in_lock (vcons s vc).
Definition cons_hold (vc : Z) (b : bool) (s : cst) : cst := on_cons vc (set_in_lock b) s.
Definition cons_acquire (vc : Z) : M cst unit := acquire_lk (cons_held vc) (cons_hold vc).
Definition cons_release (vc : Z) : M cst unit := release_lk (cons_held vc) (cons_hold vc).

Definition printing {A} (m : M prst A) : M cst A := lift c_pr set_c_pr m.

(** The channel [&cons->r]. *)
Definition chan_r (vc : Z) : Z := vc.

Fixpoint consolewrite_loop (vc : Z) (copyin : Z -> option Z) (src i : Z) (left : nat) : M cst unit :=
  match left with
  | O => ret tt
  | S left' =>
      match copyin (u64 (src + i)) with
      | None => ret tt
      | Some c =>
          a <- gets consa ;;
          (if vc =? a then printing (consputc c) else ret tt) ;;;
          consolewrite_loop vc copyin src (i + 1) left'
      end
  end.

Definition consolewrite (vc : Z) (copyin : Z -> option Z) (src n : Z) : M cst Z :=
  cons_acquire vc ;;;
  consolewrite_loop vc copyin src 0 (Z.to_nat n) ;;;
  cons_release vc ;;;
  ret n.

(** The inner wait loop; [false] means the reader was killed and has released
    the lock.  The fuel bounds the wake-ups. *)
Fixpoint consoleread_wait (pid vc : Z) (fuel : nat) : M cst bool :=
  i <- gets (fun s => vcons s vc) ;;
  if in_r i =? in_w i then
    k <- gets (fun s => c_killed s pid) ;;
    if (k : bool) then cons_release vc ;;; ret false
    else match fuel with
         | O => exhausted
         | S f => sleep_lk (cons_held vc) (cons_hold vc) (chan_r vc) ;;; consoleread_wait pid vc f
         end
  else ret true.

(** The outer loop: [left] is [n], [out] what has been copied to the user so
    far.  Returns the remaining [n], or [None] for the early [return -1]. *)
Fixpoint consoleread_loop (pid vc : Z) (copyout : Z -> bool) (target dst : Z) (left fuel : nat) (out : list Z)
  : M cst (option Z * list Z) :=
  match left with
  | O => ret (Some 0, out)
  | S left' =>
      go <- consoleread_wait pid vc fuel ;;
      if negb go then ret (None, out) else
      i <- gets (fun s => vcons s vc) ;;
      let c := in_buf i (in_r i mod INPUT_BUF) in
      modify (on_cons vc (set_r (u32 (in_r i + 1)))) ;;;
      if c =? C 68 then
        (if Z.of_nat left <? target then modify (on_cons vc (fun j => set_r (u32 (in_r j - 1)) j)) else ret tt) ;;;
        ret (Some (Z.of_nat left), out)
      else if negb (copyout dst) then ret (Some (Z.of_nat left), out)
      else if c =? 10 then ret (Some (Z.of_nat left'), out ++ [c])
      else consoleread_loop pid vc copyout target (u64 (dst + 1)) left' fuel (out ++ [c])
  end.

Definition consoleread (pid vc : Z) (copyout : Z -> bool) (dst n : Z) (fuel : nat) : M cst (Z * list Z) :=
  let target := u32 n in
  cons_acquire vc ;;;
  r <- consoleread_loop pid vc copyout target dst (Z.to_nat n) fuel [] ;;
  match fst r with
  | None => ret (-1, snd r)
  | Some n' => cons_release vc ;;; ret (s32 (target - (if n <? 0 then n else n')), snd r)
  end.

(** The kill-line loop; [n] is at least the number of characters to erase. *)
Fixpoint kill_line (vc : Z) (n : nat) : M cst unit :=
  match n with
  | O => ret tt
  | S n' =>
      i <- gets (fun s => vcons s vc) ;;
      if negb (in_e i =? in_w i) && negb (in_buf i (u32 (in_e i - 1) mod INPUT_BUF) =? 10) then
        modify (on_cons vc (set_e (u32 (in_e i - 1)))) ;;;
        printing (consputc BACKSPACE) ;;;
        kill_line vc n'
      else ret tt
  end.

Section Intr.

Context (procdump : M prst unit).

(** The [default] case of the switch. *)
Definition consoleintr_char (vc c : Z) : M cst unit :=
  i <- gets (fun s => vcons s vc) ;;
  if negb (c =? 0) && (u32 (in_e i - in_r i) <? INPUT_BUF) then
    let c' := if c =? 13 then 10 else c in
    printing (consputc c') ;;;
    modify (on_cons vc (put_e c')) ;;;
    i' <- gets (fun s => vcons s vc) ;;
    if (c' =? 10) || (c' =? C 68) || (in_e i' =? u32 (in_r i' + INPUT_BUF)) then
      modify (on_cons vc (fun j => set_w (in_e j) j)) ;;;
      wakeup_chan (chan_r vc)
    else ret tt
  else ret tt.

Definition switch_text : list Z := [10] ++ codes "Active console now: %d" ++ [10].

(** The [switch]; returns [move_vconsole]. *)
Definition consoleintr_switch (vc c : Z) : M cst Z :=
  i <- gets (fun s => vcons s vc) ;;
  if c =? C 80 then printing procdump ;;; ret 0
  else if c =? C 85 then kill_line vc (Z.to_nat (u32 (in_e i - in_w i))) ;;; ret 0
  else if (c =? C 72) || (c =? 127) then
    (if negb (in_e i =? in_w i) then
       modify (on_cons vc (set_e (u32 (in_e i - 1)))) ;;; printing (consputc BACKSPACE)
     else ret tt) ;;; ret 0
  else if c =? C 78 then ret 1
  else if c =? C 66 then ret (-1)
  else consoleintr_char vc c ;;; ret 0.

Definition consoleintr (c : Z) : M cst unit :=
  vc <- gets consa ;;
  cons_acquire vc ;;;
  move <- consoleintr_switch vc c ;;
  cons_release vc ;;;
  a <- gets active ;;
  if negb (move =? 0) && (0 <=? move + a) && (move + a <? NCONS) then
    modify (fun s => mk_cst (vcons s) (a + move) (a + move) (c_pr s) (c_killed s)) ;;;
    printing (printf (fun _ => []) (Some switch_text) (fun _ => a + move))
  else ret tt.

End Intr.

Definition cread (pid vc_num : Z) (copyout : Z -> bool) (dst n : Z) (fuel : nat) : M cst (Z * list Z) :=
  consoleread pid vc_num copyout dst n fuel.
Definition cwrite (vc_num : Z) (copyin : Z -> option Z) (src n : Z) : M cst Z :=
  consolewrite vc_num copyin src n.

(** The buffers of [consoleinit]; the lock names and the device table are not
    part of this state. *)
Fixpoint consoleinit_loop (i : Z) (left : nat) : M cst unit :=
  match left with
  | O => ret tt
  | S left' =>
      modify (on_cons i (fun j => mk_input false (in_buf j) 0 0 0)) ;;; consoleinit_loop (i + 1) left'
  end.

Definition consoleinit : M cst unit :=
  consoleinit_loop 0 (Z.to_nat NCONS) ;;;
  modify (fun s => mk_cst (vcons s) 0 0 (c_pr s) (c_killed s)).

(** ** A line editor *)

(** The characters a buffer holds between two of its indices. *)
Definition span (b : Z -> Z) (from to : Z) : list Z :=
  map (fun k => b ((from + Z.of_nat k) mod INPUT_BUF)) (seq 0 (Z.to_nat (u32 (to - from)))).

(** What readers may take, and the line still being edited. *)
Definition committed (i : input) : list Z := span (in_buf i) (in_r i) (in_w i).
Definition editing (i : input) : list Z := span (in_buf i) (in_w i) (in_e i).

Record input_ok (i : input) : Prop := {
  io_r : 0 <= in_r i < 2 ^ 32;
  io_w : 0 <= in_w i < 2 ^ 32;
  io_e : 0 <= in_e i < 2 ^ 32;
  io_room : u32 (in_w i - in_r i) + u32 (in_e i - in_w i) <= INPUT_BUF;
  io_line : ~ In 10 (editing i);
}.

Record cons_inv (s : cst) : Prop := {
  ci_inputs : forall vc, 0 <= vc < NCONS -> input_ok (vcons s vc) /\ in_lock (vcons s vc) = false;
  ci_active : active s = consa s /\ 0 <= consa s < NCONS;
  ci_pr : pr_lock (c_pr s) = false /\ panicked (c_pr s) = false;
}.

(** The editor's reaction to a character: new committed text and line, and
    what it shows. *)
Definition edit (c : Z) (done line : list Z) : list Z * list Z * list Z :=
  if c =? C 85 then (done, [], concat (replicate (length line) [8; 32; 8]))
  else if (c =? C 72) || (c =? 127) then
    match line with [] => (done, [], []) | _ => (done, removelast line, [8; 32; 8]) end
  else if (c =? 0) || (INPUT_BUF <=? Z.of_nat (length done + length line)) then (done, line, [])
  else
    let c' := if c =? 13 then 10 else c in
    if (c' =? 10) || (c' =? C 68) || (Z.of_nat (length done + length line) + 1 =? INPUT_BUF)
    then (done ++ line ++ [c'], [], [c']) else (done, line ++ [c'], [c']).

(** ** Spans of the ring *)

Ltac u32lia := unfold u32, INPUT_BUF in *; change (2 ^ 32) with 4294967296 in *; divlia.

Lemma length_span b r w : Z.of_nat (length (span b r w)) = u32 (w - r).
Proof. unfold span. rewrite length_map, length_seq. pose proof (u32_range (w - r)). lia. Qed.

Lemma span_nil b r w : 0 <= r < 2 ^ 32 -> 0 <= w < 2 ^ 32 -> (span b r w = [] <-> r = w).
Proof.
  intros Hr Hw. split.
  - intros E. pose proof (length_span b r w) as El. rewrite E in El. simpl in El. u32lia.
  - intros ->. unfold span. rewrite Z.sub_diag. done.
Qed.

(** One more element at the end, counted. *)
Lemma span_last b r w : 0 <= w < 2 ^ 32 -> u32 (w - r) < INPUT_BUF ->
  span b r (u32 (w + 1)) = span b r w ++ [b (w mod INPUT_BUF)].
Proof.
  intros Hw Hlt. unfold span. assert (u32 (u32 (w + 1) - r) = u32 (w - r) + 1) as -> by u32lia.
  pose proof (u32_range (w - r)). rewrite Z2Nat.inj_add, Nat.add_1_r, seq_S, map_app by lia. cbn [map]. do 3 f_equal.
  u32lia.
Qed.

Lemma span_first b r w : 0 <= r < 2 ^ 32 -> 0 <= w < 2 ^ 32 -> r <> w ->
  span b r w = b (r mod INPUT_BUF) :: span b (u32 (r + 1)) w.
Proof.
  intros Hr Hw Hne. unfold span. assert (u32 (w - u32 (r + 1)) = u32 (w - r) - 1) as -> by u32lia.
  assert (1 <= u32 (w - r)) by u32lia.
  replace (Z.to_nat (u32 (w - r))) with (S (Z.to_nat (u32 (w - r) - 1))) by lia.
  cbn [seq map]. rewrite Z.add_0_r, <- seq_shift, map_map. f_equal. apply map_ext. intros k. f_equal. u32lia.
Qed.

Lemma span_app b r w e : 0 <= r < 2 ^ 32 -> u32 (w - r) + u32 (e - w) <= INPUT_BUF ->
  span b r w ++ span b w e = span b r e.
Proof.
  intros Hr Hle. unfold span. pose proof (u32_range (w - r)). pose proof (u32_range (e - w)).
  assert (u32 (e - r) = u32 (w - r) + u32 (e - w)) as -> by u32lia.
  rewrite Z2Nat.inj_add, seq_app, map_app by lia. f_equal. cbn [Nat.add].
  rewrite <- (Nat.add_0_r (Z.to_nat (u32 (w - r)))).
  generalize (Z.to_nat (u32 (e - w))) as m, 0%nat as j. intros m. induction m as [|m IH]; intros j; [done|].
  cbn [seq map]. f_equal.
  - f_equal. u32lia.
  - rewrite <- Nat.add_succ_r. apply IH.
Qed.

(** A store at the write end does not change what lies before it. *)
Lemma span_fset b r w e c : u32 (w - r) <= u32 (e - r) < INPUT_BUF -> 0 <= e < 2 ^ 32 ->
  span (fset b (e mod INPUT_BUF) c) r w = span b r w.
Proof.
  intros Hle He. unfold span. apply map_ext_in. intros k Hk%in_seq. apply fset_ne. intros E.
  assert (0 <= Z.of_nat k < u32 (e - r) /\ u32 (e - r) < INPUT_BUF) as [? ?] by lia. clear Hk Hle. u32lia.
Qed.

Lemma span_removelast b w e : 0 <= w < 2 ^ 32 -> 0 <= e < 2 ^ 32 -> e <> w -> u32 (e - w) <= INPUT_BUF ->
  span b w e = span b w (u32 (e - 1)) ++ [b (u32 (e - 1) mod INPUT_BUF)].
Proof.
  intros Hw He Hne Hle. rewrite <- span_last; [|apply u32_range|u32lia].
  f_equal. u32lia.
Qed.

(** ** The interrupt handler implements the line editor *)

Lemma lift_Done {S T A} (get : S -> T) set (m : M T A) s a t :
  m (get s) = Done a t -> lift get set m s = Done a (set t s).
Proof. unfold lift. by intros ->. Qed.

Definition show (l : list Z) (s : cst) : cst := set_c_pr (emit l (c_pr s)) s.

Lemma consputc_shows c s : panicked (c_pr s) = false -> 0 <= c < 256 ->
  printing (consputc c) s = Done tt (show [c] s).
Proof. intros Hp Hc. exact (lift_Done c_pr set_c_pr _ s _ _ (consputc_emit c (c_pr s) Hp Hc)). Qed.

Lemma backspace_shows s : panicked (c_pr s) = false -> printing (consputc BACKSPACE) s = Done tt (show [8; 32; 8] s).
Proof.
  intros Hp. unfold printing. assert (consputc BACKSPACE (c_pr s) = Done tt (emit [8; 32; 8] (c_pr s))) as E.
  { unfold consputc. rewrite bind_gets, Hp. unfold emit, uartputc, modify. cbn. by rewrite <- !app_assoc. }
  exact (lift_Done c_pr set_c_pr _ s _ _ E).
Qed.

Lemma show_show l l' s : show l' (show l s) = show (l ++ l') s.
Proof. unfold show. cbn. by rewrite emit_emit. Qed.

Lemma show_on_cons l vc f s : show l (on_cons vc f s) = on_cons vc f (show l s).
Proof. done. Qed.

(** Two states that agree on every buffer and on the rest. *)
Record same_cst (s s' : cst) : Prop := {
  sc_cons : forall k, vcons s k = vcons s' k;
  sc_active : active s = active s';
  sc_consa : consa s = consa s';
  sc_pr : c_pr s = c_pr s';
  sc_killed : c_killed s = c_killed s';
}.

(** The edits of the handler keep the buffer in order and act on the texts it
    represents as the editor prescribes. *)
Lemma erase_spec i : input_ok i -> in_e i <> in_w i ->
  input_ok (set_e (u32 (in_e i - 1)) i) /\
  committed (set_e (u32 (in_e i - 1)) i) = committed i /\
  editing i = editing (set_e (u32 (in_e i - 1)) i) ++ [in_buf i (u32 (in_e i - 1) mod INPUT_BUF)].
Proof.
  intros [Hr Hw He Hroom Hline] Hne. pose proof (u32_range (in_w i - in_r i)).
  assert (editing i = editing (set_e (u32 (in_e i - 1)) i) ++ [in_buf i (u32 (in_e i - 1) mod INPUT_BUF)]) as E.
  { unfold editing. cbn. apply span_removelast; try done. lia. }
  split; [split; cbn|]; try done.
  - apply u32_range.
  - clear -Hroom Hne Hw He Hr. assert (u32 (u32 (in_e i - 1) - in_w i) = u32 (in_e i - in_w i) - 1) as -> by u32lia. lia.
  - intros Hin. apply Hline. rewrite E. apply in_or_app. by left.
Qed.

Lemma put_spec i c : input_ok i -> u32 (in_e i - in_r i) < INPUT_BUF -> 0 <= c < 256 ->
  committed (put_e c i) = committed i /\ editing (put_e c i) = editing i ++ [c] /\
  0 <= in_e (put_e c i) < 2 ^ 32 /\
  u32 (in_w i - in_r i) + u32 (in_e (put_e c i) - in_w i) = u32 (in_w i - in_r i) + u32 (in_e i - in_w i) + 1.
Proof.
  intros [Hr Hw He Hroom Hline] Hlt Hc. assert (u8 c = c) as Ec by (unfold u8; apply Z.mod_small; lia).
  assert (u32 (in_w i - in_r i) <= u32 (in_e i - in_r i)) as Hle.
  { clear -Hr Hw He Hroom. u32lia. }
  assert (u32 (in_e i - in_w i) < INPUT_BUF) as Hlt2.
  { clear -Hr Hw He Hroom Hlt. u32lia. }
  unfold committed, editing, put_e. cbn [in_buf in_r in_w in_e]. rewrite Ec. split; [by apply span_fset|]. split; [|split].
  - rewrite span_last by done. rewrite fset_eq. f_equal. apply span_fset; [|done].
    split; [lia|done].
  - apply u32_range.
  - clear -Hlt2 Hw He. u32lia.
Qed.

Lemma commit_line_spec i : 0 <= in_r i < 2 ^ 32 -> 0 <= in_e i < 2 ^ 32 ->
  u32 (in_w i - in_r i) + u32 (in_e i - in_w i) <= INPUT_BUF ->
  input_ok (set_w (in_e i) i) /\ committed (set_w (in_e i) i) = committed i ++ editing i /\
  editing (set_w (in_e i) i) = [].
Proof.
  intros Hr He Hroom. assert (editing (set_w (in_e i) i) = []) as E.
  { unfold editing. cbn. by apply span_nil. }
  split; [split; [exact Hr|exact He|exact He| |rewrite E; by intros []]|split].
  - cbn. rewrite Z.sub_diag. pose proof (u32_range (in_w i - in_r i)). pose proof (u32_range (in_e i - in_w i)).
    clear -Hroom Hr H H0. u32lia.
  - unfold committed. cbn. symmetry. by apply span_app.
  - done.
Qed.

Lemma room_length i : input_ok i ->
  u32 (in_e i - in_r i) = Z.of_nat (length (committed i) + length (editing i)).
Proof.
  intros [Hr Hw He Hroom Hline]. rewrite Nat2Z.inj_add. unfold committed, editing. rewrite !length_span.
  clear -Hr Hw He Hroom. u32lia.
Qed.

(** The active buffer after a character, and what was shown. *)
Definition edited (vc c : Z) (s s' : cst) : Prop :=
  let i := vcons s vc in let i' := vcons s' vc in
  let '(don, line, out) := edit c (committed i) (editing i) in
  input_ok i' /\ in_lock i' = in_lock i /\ committed i' = don /\ editing i' = line /\
  (forall k, k <> vc -> vcons s' k = vcons s k) /\
  active s' = active s /\ consa s' = consa s /\ c_killed s' = c_killed s /\ c_pr s' = emit out (c_pr s).

Lemma erase_line_spec i : input_ok i -> in_e i <> in_w i ->
  in_buf i (u32 (in_e i - 1) mod INPUT_BUF) <> 10.
Proof.
  intros Hok Hne E. apply (io_line i Hok). destruct (erase_spec i Hok Hne) as (_ & _ & ->).
  apply in_or_app. right. left. exact E.
Qed.

Lemma editing_nil i : input_ok i -> (editing i = [] <-> in_e i = in_w i).
Proof. intros []. unfold editing. rewrite span_nil by done. intuition congruence. Qed.

Lemma kill_line_spec vc n : forall s, input_ok (vcons s vc) -> panicked (c_pr s) = false ->
  n = length (editing (vcons s vc)) ->
  exists s', kill_line vc n s = Done tt s' /\ input_ok (vcons s' vc) /\ in_lock (vcons s' vc) = in_lock (vcons s vc) /\
    committed (vcons s' vc) = committed (vcons s vc) /\ editing (vcons s' vc) = [] /\
    (forall k, k <> vc -> vcons s' k = vcons s k) /\
    active s' = active s /\ consa s' = consa s /\ c_killed s' = c_killed s /\
    c_pr s' = emit (concat (replicate n [8; 32; 8])) (c_pr s).
Proof.
  induction n as [|n IH]; intros s Hok Hp Hn; cbn [kill_line].
  - exists s. rewrite emit_nil. symmetry in Hn. apply nil_length_inv in Hn. done.
  - rewrite bind_gets. assert (in_e (vcons s vc) <> in_w (vcons s vc)) as Hne.
    { intros E. apply editing_nil in E; [|done]. by rewrite E in Hn. }
    rewrite (proj2 (Z.eqb_neq _ _) Hne), (proj2 (Z.eqb_neq _ _) (erase_line_spec _ Hok Hne)). cbn [negb andb].
    destruct (erase_spec _ Hok Hne) as (Hok' & Ec & Ee).
    rewrite bind_modify, (bind_Done _ _ _ _ _ (backspace_shows (on_cons vc (set_e (u32 (in_e (vcons s vc) - 1))) s) Hp)).
    destruct (IH (show [8; 32; 8] (on_cons vc (set_e (u32 (in_e (vcons s vc) - 1))) s))) as (s' & E & H).
    + cbn. by rewrite fset_eq.
    + done.
    + cbn. rewrite fset_eq. rewrite Ee, length_app in Hn. cbn in Hn. lia.
    + exists s'. split; [done|]. cbn [vcons show set_c_pr on_cons active consa c_killed c_pr] in H.
      rewrite fset_eq in H. destruct H as (H1 & H2 & H3 & H4 & H5 & H6 & H7 & H8 & H9).
      split_and!; try done; try congruence.
      * intros k Hk. rewrite H5 by done. by apply fset_ne.
      * rewrite H9, emit_emit. done.
Qed.

(** A single-buffer change followed by some output. *)
Lemma edited_intro vc c s f out don line :
  edit c (committed (vcons s vc)) (editing (vcons s vc)) = (don, line, out) ->
  input_ok (f (vcons s vc)) -> in_lock (f (vcons s vc)) = in_lock (vcons s vc) ->
  committed (f (vcons s vc)) = don -> editing (f (vcons s vc)) = line ->
  edited vc c s (show out (on_cons vc f s)).
Proof.
  intros E H1 H2 H3 H4. unfold edited. rewrite E. cbn [vcons show set_c_pr on_cons active consa c_killed c_pr].
  rewrite fset_eq. split_and!; try done. intros k Hk. by apply fset_ne.
Qed.

Lemma edited_refl vc c s :
  edit c (committed (vcons s vc)) (editing (vcons s vc)) = (committed (vcons s vc), editing (vcons s vc), []) ->
  input_ok (vcons s vc) -> edited vc c s s.
Proof. intros E H. unfold edited. rewrite E, emit_nil. done. Qed.

Lemma consoleintr_erase_spec vc c s : (c =? C 72) || (c =? 127) = true ->
  input_ok (vcons s vc) -> panicked (c_pr s) = false ->
  exists s', (if negb (in_e (vcons s vc) =? in_w (vcons s vc)) then
       modify (on_cons vc (set_e (u32 (in_e (vcons s vc) - 1)))) ;;; printing (consputc BACKSPACE)
     else ret tt) s = Done tt s' /\ edited vc c s s'.
Proof.
  intros Hc Hok Hp. assert ((c =? C 85) = false) as H85.
  { apply orb_true_iff in Hc as [->%Z.eqb_eq| ->%Z.eqb_eq]; reflexivity. }
  destruct (Z.eqb_spec (in_e (vcons s vc)) (in_w (vcons s vc))) as [E|Hne]; cbn [negb].
  - exists s. split; [done|]. apply edited_refl; [|done]. unfold edit. rewrite H85, Hc.
    apply editing_nil in E; [|done]. by rewrite E.
  - rewrite bind_modify, backspace_shows by done. eexists. split; [reflexivity|].
    destruct (erase_spec _ Hok Hne) as (Hok' & Ec & Ee).
    eapply edited_intro; [|exact Hok'|done|exact Ec|reflexivity]. unfold edit. rewrite H85, Hc, Ee at 1.
    rewrite Ee, removelast_last. by destruct (editing (set_e _ _)).
Qed.

Lemma edited_same vc c s s1 s2 : same_cst s1 s2 -> edited vc c s s1 -> edited vc c s s2.
Proof.
  intros [H1 H2 H3 H4 H5]. unfold edited. destruct (edit c _ _) as [[don line] out].
  rewrite <- (H1 vc), <- H2, <- H3, <- H4, <- H5. intros (? & ? & ? & ? & Hk & ?). split_and!; try tauto.
  intros k Hne. rewrite <- H1. by apply Hk.
Qed.

Lemma consoleintr_char_spec vc c s : 0 <= c < 256 -> c <> C 85 -> (c =? C 72) || (c =? 127) = false ->
  input_ok (vcons s vc) -> panicked (c_pr s) = false ->
  exists s', consoleintr_char vc c s = Done tt s' /\ edited vc c s s'.
Proof.
  intros Hc H85 Hbs Hok Hp. apply Z.eqb_neq in H85. unfold consoleintr_char. rewrite bind_gets.
  pose proof (room_length _ Hok) as Hroom. destruct (Z.eqb_spec c 0) as [E0|Hne0]; cbn [negb andb].
  { exists s. split; [done|]. apply edited_refl; [|done]. unfold edit. rewrite H85, Hbs, E0. done. }
  destruct (Z.ltb_spec (u32 (in_e (vcons s vc) - in_r (vcons s vc))) INPUT_BUF) as [Hlt|Hge].
  2: { exists s. split; [done|]. apply edited_refl; [|done]. unfold edit. rewrite H85, Hbs, <- Hroom.
       rewrite (proj2 (Z.leb_le _ _) Hge), orb_true_r. done. }
  set (c' := if c =? 13 then 10 else c). assert (0 <= c' < 256) as Hc' by (unfold c'; destruct (c =? 13); lia).
  destruct (put_spec (vcons s vc) c' Hok Hlt Hc') as (Ec & Ee & He' & Hr').
  rewrite (bind_Done _ _ _ _ _ (consputc_shows c' s Hp Hc')), bind_modify, bind_gets.
  set (i := vcons s vc) in *. assert (vcons (on_cons vc (put_e c') (show [c'] s)) vc = put_e c' i) as Ei by apply fset_eq.
  rewrite Ei. assert ((in_e (put_e c' i) =? u32 (in_r (put_e c' i) + INPUT_BUF)) =
    (Z.of_nat (length (committed i) + length (editing i)) + 1 =? INPUT_BUF)) as Ef.
  { rewrite <- Hroom. destruct Hok as [Hr _ He _ _]. clear -Hr He Hlt. cbn [in_e in_r put_e].
    match goal with |- (?a =? ?b) = (?x =? ?y) => destruct (Z.eqb_spec a b), (Z.eqb_spec x y); try done end; u32lia. }
  assert (edit c (committed i) (editing i) =
    if (c' =? 10) || (c' =? C 68) || (Z.of_nat (length (committed i) + length (editing i)) + 1 =? INPUT_BUF)
    then (committed i ++ editing i ++ [c'], [], [c']) else (committed i, editing i ++ [c'], [c'])) as Eedit.
  { unfold edit. rewrite H85, Hbs, <- Hroom, (proj2 (Z.eqb_neq _ _) Hne0).
    rewrite (proj2 (Z.leb_gt _ _)) by exact Hlt. done. }
  rewrite Ef. destruct ((c' =? 10) || (c' =? C 68) || (Z.of_nat _ + 1 =? INPUT_BUF)) eqn:Ecom.
  - rewrite bind_modify. eexists. split; [reflexivity|].
    assert (u32 (in_w i - in_r i) + u32 (in_e (put_e c' i) - in_w i) <= INPUT_BUF) as Hle.
    { rewrite Hr'. destruct Hok. clear -Hlt io_r0 io_w0 io_e0 io_room0. u32lia. }
    destruct (commit_line_spec (put_e c' i)) as (Hok2 & Ec2 & Ee2); [by destruct Hok|done|done|].
    assert (edited vc c s (show [c'] (on_cons vc (fun j => set_w (in_e (put_e c' j)) (put_e c' j)) s))) as Hed.
    { eapply edited_intro; [exact Eedit|exact Hok2|done| |exact Ee2]. etransitivity; [exact Ec2|]. by rewrite Ec, Ee. }
    revert Hed. apply edited_same. split; try done. intros k. cbn. rewrite !fset_eq. by fset_cases.
  - eexists. split; [reflexivity|]. rewrite <- show_on_cons.
    eapply edited_intro; [exact Eedit| |done|exact Ec|exact Ee].
    destruct Hok as [Hr Hw He Hrm Hline]. split; [exact Hr|exact Hw|exact He'| |].
    + change (u32 (in_w i - in_r i) + u32 (in_e (put_e c' i) - in_w i) <= INPUT_BUF). rewrite Hr'. clear -Hlt Hr Hw He Hrm. u32lia.
    + fold i. rewrite Ee. intros [Hin|[E|[]]]%in_app_or; [done|]. rewrite E in Ecom. done.
Qed.

Lemma consoleintr_switch_edits procdump vc c s : 0 <= c < 256 -> c <> C 80 -> c <> C 78 -> c <> C 66 ->
  input_ok (vcons s vc) -> panicked (c_pr s) = false ->
  exists s', consoleintr_switch procdump vc c s = Done 0 s' /\ edited vc c s s'.
Proof.
  intros Hc H80 H78 H66 Hok Hp. unfold consoleintr_switch. rewrite bind_gets.
  apply Z.eqb_neq in H80, H78, H66. rewrite H80, H78, H66. destruct (Z.eqb_spec c (C 85)) as [E85|H85].
  - destruct (kill_line_spec vc (length (editing (vcons s vc))) s Hok Hp eq_refl) as (s' & E & H).
    assert (Z.to_nat (u32 (in_e (vcons s vc) - in_w (vcons s vc))) = length (editing (vcons s vc))) as El.
    { unfold editing. rewrite <- length_span with (b := in_buf (vcons s vc)). lia. }
    rewrite El, (bind_Done _ _ _ _ _ E). exists s'. split; [done|]. unfold edited, edit.
    rewrite E85, Z.eqb_refl. tauto.
  - destruct ((c =? C 72) || (c =? 127)) eqn:Ebs.
    + destruct (consoleintr_erase_spec vc c s Ebs Hok Hp) as (s' & E & H). rewrite (bind_Done _ _ _ _ _ E).
      by exists s'.
    + destruct (consoleintr_char_spec vc c s Hc H85 Ebs Hok Hp) as (s' & E & H). rewrite (bind_Done _ _ _ _ _ E).
      by exists s'.
Qed.

(** A state with every lock free again. *)
Lemma edited_released vc c s s' : cons_inv s -> consa s = vc ->
  edited vc c (cons_hold vc true s) s' ->
  cons_inv (cons_hold vc false s') /\ edited vc c s (cons_hold vc false s').
Proof.
  intros [Hin [Hact Hrange] [Hpl Hpp]] Hvc. unfold edited. cbn [cons_hold on_cons vcons active consa c_killed c_pr].
  rewrite !fset_eq. destruct (Hin vc ltac:(lia)) as [Hok Hl].
  change (committed (set_in_lock ?b ?i)) with (committed i). change (editing (set_in_lock ?b ?i)) with (editing i).
  destruct (edit c _ _) as [[don line] out]. intros (H1 & H2 & H3 & H4 & H5 & H6 & H7 & H8 & H9).
  assert (input_ok (set_in_lock false (vcons s' vc))) as Hok' by (destruct H1; split; done).
  split; [split|].
  - intros k Hk. cbn. fset_cases; [done|]. rewrite H5 by done. rewrite fset_ne by done. by apply Hin.
  - cbn. split; congruence || lia.
  - cbn. rewrite H9. done.
  - split_and!; try done. intros k Hk. fset_cases. rewrite H5 by done. by apply fset_ne.
Qed.

(** [C29] The interrupt handler is a line editor.  From any consistent state of
    the ten consoles, a character other than the console-switching and
    process-listing ones is handled without panic and makes the active console
    do what [edit] says to its committed text and its current line: erase it,
    erase its last character, append (a carriage return as a newline), commit
    at a newline, an end-of-file or when the 128 bytes are full, or drop the
    character when they are; it shows exactly the echo, and leaves every other
    console and the choice of the active one alone. *)
Theorem consoleintr_edits (procdump : M prst unit) (c : Z) (s : cst)
  (Hc : 0 <= c < 256) (Hs : cons_inv s) (H80 : c <> C 80) (H78 : c <> C 78) (H66 : c <> C 66) :
  exists s', consoleintr procdump c s = Done tt s' /\ cons_inv s' /\ edited (consa s) c s s'.
Proof.
  pose proof Hs as [Hin [Hact Hrange] [Hpl Hpp]]. destruct (Hin (consa s) Hrange) as [Hok Hl].
  unfold consoleintr. rewrite bind_gets. unfold cons_acquire.
  rewrite (bind_Done _ _ _ _ _ (acquire_lk_free (cons_held (consa s)) (cons_hold (consa s)) s Hl)).
  destruct (consoleintr_switch_edits procdump (consa s) c (cons_hold (consa s) true s) Hc H80 H78 H66)
    as (s1 & E1 & H1); [cbn; rewrite fset_eq; destruct Hok; by split|done|].
  rewrite (bind_Done _ _ _ _ _ E1). unfold cons_release.
  assert (cons_held (consa s) s1 = true) as Hh.
  { unfold edited in H1. destruct (edit c _ _) as [[? ?] ?]. destruct H1 as (_ & H2 & _). unfold cons_held.
    rewrite H2. cbn. by rewrite fset_eq. }
  rewrite (bind_Done _ _ _ _ _ (release_lk_held (cons_held (consa s)) (cons_hold (consa s)) s1 Hh)), bind_gets.
  destruct (edited_released (consa s) c s s1 Hs eq_refl H1) as [Hinv Hed].
  exists (cons_hold (consa s) false s1). done.
Qed.

(** ** Readers *)

Lemma advance_spec i : input_ok i -> in_r i <> in_w i ->
  input_ok (set_r (u32 (in_r i + 1)) i) /\ editing (set_r (u32 (in_r i + 1)) i) = editing i /\
  committed i = in_buf i (in_r i mod INPUT_BUF) :: committed (set_r (u32 (in_r i + 1)) i).
Proof.
  intros [Hr Hw He Hroom Hline] Hne. split; [split; cbn; try done|split; [done|by apply span_first]].
  - apply u32_range.
  - assert (u32 (in_w i - u32 (in_r i + 1)) = u32 (in_w i - in_r i) - 1) as ->; [|lia].
    clear -Hr Hw Hne. u32lia.
Qed.

Section Read.

Context (pid vc : Z) (copyout : Z -> bool) (dst n : Z).
Context (Hvc : 0 <= vc < NCONS).

(** Everything but the committed text of the console is as it was. *)
Definition only_read (s0 s : cst) : Prop :=
  editing (vcons s vc) = editing (vcons s0 vc) /\ (forall k, k <> vc -> vcons s k = vcons s0 k) /\
  active s = active s0 /\ consa s = consa s0 /\ c_pr s = c_pr s0 /\ c_killed s = c_killed s0.

(** Between [s0] and [s] the reader took a prefix of the committed text and
    gave it to the user, who had [g] and has [g']. *)
Definition took (g : list Z) (s0 s : cst) (g' : list Z) : Prop :=
  exists chunk, g' = g ++ chunk /\ committed (vcons s0 vc) = chunk ++ committed (vcons s vc) /\ only_read s0 s.

(** The reader is inside its critical section and has delivered [out], which
    holds no complete line and no end of file. *)
Definition reading (out g : list Z) (s0 s : cst) : Prop :=
  in_lock (vcons s vc) = true /\ cons_inv (cons_hold vc false s) /\ took g s0 s out /\ ~ In 10 out /\ ~ In 4 out.

Lemma reading_ok out g s0 s : reading out g s0 s -> input_ok (vcons s vc).
Proof.
  intros (_ & [Hin _ _] & _). destruct (Hin vc Hvc) as [H _]. cbn in H. rewrite fset_eq in H. destruct H. by split.
Qed.

Lemma took_hold b g s0 s out : took g s0 s out -> took g s0 (cons_hold vc b s) out.
Proof.
  intros (chunk & E & Ec & He & Hk & Hrest). exists chunk. unfold only_read. cbn. rewrite fset_eq.
  split_and!; try done; try tauto. intros k Hne. rewrite fset_ne by done. by apply Hk.
Qed.

Lemma reading_start s : cons_inv s -> forall g, ~ In 10 g -> ~ In 4 g -> reading g g s (cons_hold vc true s).
Proof.
  intros Hs g H10 H4. split_and!; try done.
  - cbn. by rewrite fset_eq.
  - destruct Hs as [Hin Ha Hp]. split; [|done|done]. intros k Hk. cbn. fset_cases; [|by apply Hin].
    destruct (Hin vc Hk) as [[] _]. by split; [split|].
  - apply took_hold. exists []. by rewrite app_nil_r.
Qed.

Definition killed_end (g : list Z) (s0 : cst) (r : Z * list Z) (s : cst) : Prop :=
  fst r = -1 /\ c_killed s pid = true /\ took g s0 s (snd r).

Lemma consoleread_wait_spec fuel out : forall g s0 s,
  reading out g s0 s ->
  traced cons_inv took
    (fun g s0 (ok : bool) s => if ok then reading out g s0 s /\ in_r (vcons s vc) <> in_w (vcons s vc)
       else cons_inv s /\ killed_end g s0 (-1, out) s)
    g s0 (consoleread_wait pid vc fuel s).
Proof.
  induction fuel as [|fuel IH]; intros g s0 s Hrd; pose proof Hrd as (Hl & Hinv & Ht & H10 & H4);
    cbn [consoleread_wait]; rewrite bind_gets;
    (destruct (Z.eqb_spec (in_r (vcons s vc)) (in_w (vcons s vc))) as [E|Hne]; [|by split]); rewrite bind_gets;
    (destruct (c_killed s pid) eqn:Ek;
     [unfold cons_release; rewrite (bind_Done _ _ _ _ _ (release_lk_held (cons_held vc) (cons_hold vc) s Hl)); cbn [traced ret];
      split; [done|]; split; [done|]; split; [done|by apply took_hold]|]).
  - done.
  - apply traced_sleep_lk with (g' := out); [done|by apply took_hold|done|].
    intros s' Hs'. split; [by destruct Hs' as [Hin _ _]; apply Hin|]. apply IH. by apply reading_start.
Qed.

(** How a read ends otherwise. *)
Definition read_end (g : list Z) (s0 : cst) (out : list Z) (s : cst) : Prop :=
  ~ In 10 (removelast out) /\ ~ In 4 out /\ Z.of_nat (length out) <= n /\
  (took g s0 s out /\ (Z.of_nat (length out) = n \/ last out = Some 10) \/
   (exists chunk rest, out = g ++ chunk /\ committed (vcons s0 vc) = chunk ++ 4 :: rest /\ only_read s0 s /\
      Z.of_nat (length out) < n /\
      committed (vcons s vc) = if bool_decide (out = []) then rest else 4 :: rest) \/
   (exists chunk lost, out = g ++ chunk /\ committed (vcons s0 vc) = chunk ++ lost :: committed (vcons s vc) /\
      only_read s0 s /\ Z.of_nat (length out) < n /\ copyout (u64 (dst + Z.of_nat (length out))) = false)).

Definition held_end (g : list Z) (s0 : cst) (r : option Z * list Z) (s : cst) : Prop :=
  match fst r with
  | None => cons_inv s /\ killed_end g s0 (-1, snd r) s
  | Some n' => in_lock (vcons s vc) = true /\ cons_inv (cons_hold vc false s) /\
      n' = n - Z.of_nat (length (snd r)) /\ read_end g s0 (snd r) s
  end.

(** One character taken, under the lock. *)
Definition taken (s : cst) : cst := on_cons vc (set_r (u32 (in_r (vcons s vc) + 1))) s.

Lemma taken_spec out g s0 s : reading out g s0 s -> in_r (vcons s vc) <> in_w (vcons s vc) ->
  let c := in_buf (vcons s vc) (in_r (vcons s vc) mod INPUT_BUF) in
  in_lock (vcons (taken s) vc) = true /\ cons_inv (cons_hold vc false (taken s)) /\ only_read s0 (taken s) /\
  exists chunk, out = g ++ chunk /\ committed (vcons s0 vc) = chunk ++ c :: committed (vcons (taken s) vc).
Proof.
  intros Hrd Hne c. pose proof (reading_ok _ _ _ _ Hrd) as Hok. destruct Hrd as (Hl & [Hin Ha Hp] & (chunk & E & Ec & He & Hk & Hrest) & H10 & H4).
  destruct (advance_spec _ Hok Hne) as (Hok' & Ee & Ec'). unfold only_read, taken. cbn [on_cons vcons active consa c_pr c_killed].
  rewrite fset_eq. split; [done|]. split; [|split].
  - split; [|done|done]. intros k Hkr. cbn. fset_cases; [split; [destruct Hok'; by split|done]|].
    specialize (Hin k Hkr). cbn in Hin. by rewrite fset_ne in Hin.
  - split; [exact (eq_trans Ee He)|]. split; [|exact Hrest]. intros k Hkne. rewrite fset_ne by done. by apply Hk.
  - exists chunk. split; [done|]. rewrite Ec, Ec'. done.
Qed.

Lemma reading_more out g s0 s : reading out g s0 s -> in_r (vcons s vc) <> in_w (vcons s vc) ->
  let c := in_buf (vcons s vc) (in_r (vcons s vc) mod INPUT_BUF) in
  took g s0 (taken s) (out ++ [c]).
Proof.
  intros Hrd Hne c. destruct (taken_spec _ _ _ _ Hrd Hne) as (_ & _ & Ho & chunk & E & Ec).
  exists (chunk ++ [c]). split; [by rewrite E, app_assoc|]. by rewrite <- app_assoc.
Qed.

Lemma untaken s b : 0 <= in_r (vcons s vc) < 2 ^ 32 ->
  let s' := on_cons vc (fun j => set_r (u32 (in_r j - 1)) j) (taken s) in
  forall k, vcons (cons_hold vc b s') k = vcons (cons_hold vc b s) k.
Proof.
  intros Hr s' k. cbn. rewrite !fset_eq. fset_cases; [|done]. destruct (vcons s vc) as [lk bf r w e] eqn:E. cbn in *.
  unfold set_in_lock, set_r. cbn. f_equal. clear -Hr. u32lia.
Qed.

(** The three ways the loop body leaves the loop. *)
Lemma eof_end out g s0 s (left : nat) : reading out g s0 s -> in_r (vcons s vc) <> in_w (vcons s vc) ->
  in_buf (vcons s vc) (in_r (vcons s vc) mod INPUT_BUF) = 4 -> Z.of_nat (S left) + Z.of_nat (length out) = n -> n < 2 ^ 31 ->
  held_end g s0 (Some (Z.of_nat (S left)), out)
    (if Z.of_nat (S left) <? n then on_cons vc (fun j => set_r (u32 (in_r j - 1)) j) (taken s) else taken s).
Proof.
  intros Hrd Hne Hc Hn Hmax. destruct (taken_spec _ _ _ _ Hrd Hne) as (Hl & Hinv & Ho & chunk & E & Ec). rewrite Hc in Ec.
  pose proof (reading_ok _ _ _ _ Hrd) as Hok. pose proof Hrd as (Hl0 & Hinv0 & (chunk0 & E0 & Ec0 & Ho0) & H10 & H4).
  assert (chunk0 = chunk) as -> by (rewrite E in E0; by apply app_inv_head in E0).
  assert (~ In 10 (removelast out)) as Hrl.
  { intros Hin. apply H10. destruct out using rev_ind; [done|]. rewrite removelast_last in Hin. apply in_or_app. by left. }
  unfold held_end, read_end. cbn [fst snd]. destruct (Z.ltb_spec (Z.of_nat (S left)) n) as [Hlt|Hge].
  - set (s' := on_cons vc _ (taken s)). pose proof (fun b => untaken s b (io_r _ Hok)) as Hun. cbv zeta in Hun. fold s' in Hun.
    assert (vcons s' vc = vcons s vc) as Ev.
    { unfold s', taken. cbn. rewrite !fset_eq. destruct Hok as [Hr _ _ _ _]. destruct (vcons s vc) as [lk bf r w e]. cbn in *.
      unfold set_r. cbn. f_equal. clear -Hr. u32lia. }
    rewrite Ev. split; [done|]. split.
    { destruct Hinv0 as [Hin Ha Hp]. split; [|done|done]. intros k Hk. rewrite Hun. by apply Hin. }
    split; [lia|]. split_and!; try done; [lia|]. right. left. exists chunk, (committed (vcons (taken s) vc)).
    split; [done|]. split; [done|]. split; [|split; [lia|]].
    + destruct Ho0 as (He & Hk & Hr). unfold only_read. rewrite Ev. split_and!; try done; try tauto.
      intros k Hkne. unfold s', taken. cbn. rewrite !fset_ne by done. by apply Hk.
    + rewrite bool_decide_eq_false_2 by (intros ->; cbn in *; lia).
      apply (app_inv_head chunk). by rewrite <- Ec0, <- Ec.
  - assert (out = []) as ->  by (apply nil_length_inv; lia).
    split; [done|]. split; [done|]. split; [cbn; lia|]. split_and!; try done; [cbn; lia|]. right. left. exists chunk, (committed (vcons (taken s) vc)).
    split_and!; try done. cbn. lia.
Qed.

Lemma not_in_removelast_snoc (x : Z) out : ~ In 10 out -> ~ In 10 (removelast (out ++ [x])).
Proof. by rewrite removelast_last. Qed.

Lemma reading_removelast out g s0 s : reading out g s0 s -> ~ In 10 (removelast out).
Proof.
  intros (_ & _ & _ & H10 & _) Hin. apply H10. destruct out using rev_ind; [done|].
  rewrite removelast_last in Hin. apply in_or_app. by left.
Qed.

Lemma consoleread_loop_spec (Hn : 0 <= n < 2 ^ 31) fuel left : forall out g s0 s,
  reading out g s0 s -> Z.of_nat left + Z.of_nat (length out) = n ->
  traced cons_inv took held_end g s0
    (consoleread_loop pid vc copyout n (u64 (dst + Z.of_nat (length out))) left fuel out s).
Proof.
  induction left as [|left IH]; intros out g s0 s Hrd Hlen; cbn [consoleread_loop].
  { pose proof Hrd as (Hl & Hinv & Ht & H10 & H4). cbn. unfold held_end, read_end. cbn [fst snd].
    split_and!; try done; try lia; [by eapply reading_removelast|]. left. split; [done|]. left. lia. }
  unfold bind at 1. apply traced_bind. eapply traced_mono; [|by apply consoleread_wait_spec].
  clear g s0 s Hrd. intros g s0 [|] s; cbn [negb]; [|intros H; cbn; exact H]. intros [Hrd Hne].
  rewrite bind_gets, bind_modify. fold (taken s).
  set (c := in_buf (vcons s vc) (in_r (vcons s vc) mod INPUT_BUF)).
  destruct (taken_spec _ _ _ _ Hrd Hne) as (Hl & Hinv & Ho & chunk & E & Ec). fold c in Ec.
  pose proof Hrd as (_ & _ & _ & H10 & H4). change (C 68) with 4.
  destruct (Z.eqb_spec c 4) as [Hc4|Hc4].
  { pose proof (eof_end _ _ _ _ left Hrd Hne Hc4 Hlen ltac:(lia)) as Hend.
    destruct (Z.of_nat (S left) <? n); cbn [traced] in *; [rewrite bind_modify|rewrite bind_ret]; exact Hend. }
  destruct (copyout (u64 (dst + Z.of_nat (length out)))) eqn:Eout; cbn [negb].
  2: { cbn. unfold held_end, read_end. cbn [fst snd]. split_and!; try done; try lia; [by eapply reading_removelast|].
       right. right. exists chunk, c. split_and!; try done. lia. }
  pose proof (reading_more _ _ _ _ Hrd Hne) as Hmore. cbv zeta in Hmore. fold c in Hmore.
  assert (~ In 4 (out ++ [c])) as H4' by (intros [?|[?|[]]]%in_app_or; [done|congruence]).
  destruct (Z.eqb_spec c 10) as [Hc10|Hc10].
  - cbn. unfold held_end, read_end. cbn [fst snd]. rewrite length_app. cbn [length].
    split_and!; try done; try lia; [by apply not_in_removelast_snoc|]. left. split; [done|]. right.
    rewrite Hc10. apply last_snoc.
  - replace (u64 (u64 (dst + Z.of_nat (length out)) + 1)) with (u64 (dst + Z.of_nat (length (out ++ [c])))).
    2: { rewrite length_app, Nat2Z.inj_add. cbn. unfold u64. rewrite Zplus_mod_idemp_l. f_equal. lia. }
    apply IH; [|rewrite length_app; cbn; lia]. split_and!; try done.
    intros [?|[?|[]]]%in_app_or; [done|congruence].
Qed.

End Read.

(** Reading a console, whatever interrupts and other readers do while it
    sleeps: each stretch takes a prefix of the committed text and hands it to
    the user in order.  The call returns at most one line: it ends at a newline
    (delivered), when [n] bytes are there, at an end-of-file character (kept
    for the next read unless nothing was delivered, when the read returns 0),
    at an unwritable user byte (whose character is lost), or with -1 if the
    reader was killed; the result is the number of bytes delivered, and the
    line being edited is not touched. *)
Theorem consoleread_delivers (pid vc : Z) (copyout : Z -> bool) (dst n : Z) (fuel : nat) (s : cst)
  (Hs : cons_inv s) (Hvc : 0 <= vc < NCONS) (Hn : 0 <= n < 2 ^ 31) (Hd : 0 <= dst < 2 ^ 64) :
  traced cons_inv (took vc)
    (fun g s0 r s' => cons_inv s' /\
       (killed_end pid vc g s0 r s' \/
        fst r = Z.of_nat (length (snd r)) /\ read_end vc copyout dst n g s0 (snd r) s'))
    [] s (consoleread pid vc copyout dst n fuel s).
Proof.
  unfold consoleread, cons_acquire. rewrite (u32_small n) by lia.
  assert (cons_held vc s = false) as Hl by (destruct Hs as [Hin _ _]; by apply Hin).
  rewrite (bind_Done _ _ _ _ _ (acquire_lk_free (cons_held vc) (cons_hold vc) s Hl)). apply traced_bind.
  assert (reading vc [] [] s (cons_hold vc true s)) as Hst by (apply reading_start; auto).
  pose proof (consoleread_loop_spec pid vc copyout dst n Hvc Hn fuel (Z.to_nat n) [] [] s (cons_hold vc true s)
    Hst ltac:(cbn; lia)) as Hloop.
  cbn [length] in Hloop. rewrite Z.add_0_r, (u64_small dst Hd) in Hloop. eapply traced_mono; [|exact Hloop].
  intros g s0 [[n'|] out] s' Hend; unfold held_end in Hend; cbn [fst snd] in Hend |- *.
  - destruct Hend as (Hl' & Hinv & -> & Hend). unfold cons_release.
    rewrite (bind_Done _ _ _ _ _ (release_lk_held (cons_held vc) (cons_hold vc) s' Hl')). cbn [traced ret].
    rewrite (proj2 (Z.ltb_ge n 0)) by lia. split; [done|]. right. cbn [fst snd]. split.
    + destruct Hend as (_ & _ & Hle & _). rewrite s32_small by lia. lia.
    + destruct Hend as (H1 & H2 & H3 & H). split_and!; try done.
      assert (only_read vc s0 s' -> only_read vc s0 (cons_hold vc false s')) as Ho.
      { intros (He & Hk & Hr). unfold only_read. cbn. rewrite fset_eq. split_and!; try done; try tauto.
        intros k Hne. rewrite fset_ne by done. by apply Hk. }
      assert (committed (vcons (cons_hold vc false s') vc) = committed (vcons s' vc)) as Ecm by (cbn; by rewrite fset_eq).
      destruct H as [[Ht Hlast]|[(chunk & rest & ? & ? & ? & ? & ?)|(chunk & lost & ? & ? & ? & ? & ?)]].
      * left. split; [by apply took_hold|done].
      * right. left. exists chunk, rest. rewrite Ecm. auto.
      * right. right. exists chunk, lost. rewrite Ecm. auto.
  - destruct Hend as [Hinv Hk]. cbn. split; [done|]. by left.
Qed.

(** ** Switching consoles, and the initial state *)

Lemma cons_inv_hold vc b s : cons_inv s -> b = false -> cons_inv (cons_hold vc b s).
Proof.
  intros [Hin Ha Hp] ->. split; [|done|done]. intros k Hk. cbn. fset_cases; [|by apply Hin].
  destruct (Hin vc Hk) as [[] ?]. by split; [split|].
Qed.

Lemma empty_input_ok lk b : input_ok (mk_input lk b 0 0 0).
Proof. split; vm_compute; intuition discriminate. Qed.

Lemma consoleinit_establishes s : pr_lock (c_pr s) = false -> panicked (c_pr s) = false ->
  exists s', consoleinit s = Done tt s' /\ cons_inv s' /\ consa s' = 0 /\
    forall vc, 0 <= vc < NCONS -> committed (vcons s' vc) = [] /\ editing (vcons s' vc) = [].
Proof.
  intros Hl Hp. eexists. split; [reflexivity|]. cbn [consoleinit_loop bind obind modify on_cons].
  assert (forall vc s', 0 <= vc < NCONS -> (forall k, 0 <= k < NCONS -> exists b, vcons s' k = mk_input false b 0 0 0) ->
            input_ok (vcons s' vc) /\ in_lock (vcons s' vc) = false) as Hin.
  { intros vc s' Hvc H. destruct (H vc Hvc) as [b ->]. split; [apply empty_input_ok|done]. }
  assert (forall k, 0 <= k < NCONS -> k = 0 \/ k = 1 \/ k = 2 \/ k = 3 \/ k = 4 \/ k = 5 \/ k = 6 \/ k = 7 \/ k = 8 \/ k = 9) as Hten
    by (unfold NCONS; lia).
  split; [split|split; [done|]].
  - intros vc Hvc. apply Hin; [done|]. intros k Hk.
    destruct (Hten k Hk) as [->|[->|[->|[->|[->|[->|[->|[->|[->| ->]]]]]]]]]; by eexists.
  - done.
  - done.
  - intros k Hk. destruct (Hten k Hk) as [->|[->|[->|[->|[->|[->|[->|[->|[->| ->]]]]]]]]]; done.
Qed.

Lemma switch_text_bytes : bytes_ok switch_text.
Proof. apply (bool_decide_eq_true_1 _). vm_compute. reflexivity. Qed.

(** Control-N and control-B move to the next and the previous console, stop at
    the ends of the range, announce the new one, and touch no buffer. *)
Lemma consoleintr_moves procdump c d s : cons_inv s -> (c = C 78 /\ d = 1 \/ c = C 66 /\ d = -1) ->
  exists s', consoleintr procdump c s = Done tt s' /\ cons_inv s' /\ (forall k, committed (vcons s' k) = committed (vcons s k)) /\
    (forall k, editing (vcons s' k) = editing (vcons s k)) /\
    consa s' = if (0 <=? d + consa s) && (d + consa s <? NCONS) then consa s + d else consa s.
Proof.
  intros Hs Hc. pose proof Hs as [Hin [Hact Hrange] [Hpl Hpp]]. destruct (Hin (consa s) Hrange) as [Hok Hl].
  unfold consoleintr. rewrite bind_gets. unfold cons_acquire, cons_release.
  rewrite (bind_Done _ _ _ _ _ (acquire_lk_free (cons_held (consa s)) (cons_hold (consa s)) s Hl)).
  set (s1 := cons_hold (consa s) true s).
  assert (consoleintr_switch procdump (consa s) c s1 = Done d s1) as Esw by (by destruct Hc as [[-> ->]|[-> ->]]).
  rewrite (bind_Done _ _ _ _ _ Esw).
  assert (cons_held (consa s) s1 = true) as Hh by (unfold cons_held; cbn; by rewrite fset_eq).
  rewrite (bind_Done _ _ _ _ _ (release_lk_held (cons_held (consa s)) (cons_hold (consa s)) s1 Hh)), bind_gets.
  set (s2 := cons_hold (consa s) false s1).
  assert (forall k, vcons s2 k = set_in_lock false (vcons s k) \/ vcons s2 k = vcons s k) as Hk.
  { intros k. cbn. rewrite fset_eq. fset_cases; [by left|by right]. }
  assert (cons_inv s2) as Hs2.
  { split; [|done|done]. intros k Hkr. destruct (Hin k Hkr) as [[] ?]. destruct (Hk k) as [-> | ->]; by split; [split|]. }
  assert (forall k, committed (vcons s2 k) = committed (vcons s k)) as Hcm by (intros k; by destruct (Hk k) as [-> | ->]).
  assert (forall k, editing (vcons s2 k) = editing (vcons s k)) as Hed by (intros k; by destruct (Hk k) as [-> | ->]).
  assert (negb (d =? 0) = true) as -> by (by destruct Hc as [[_ ->]|[_ ->]]).
  change (active s2) with (active s). rewrite Hact. cbn [andb].
  destruct ((0 <=? d + consa s) && (d + consa s <? NCONS)) eqn:Eb; [|by exists s2].
  apply andb_true_iff in Eb as [H0%Z.leb_le H9%Z.ltb_lt]. rewrite bind_modify.
  set (s3 := mk_cst (vcons s2) _ _ (c_pr s2) (c_killed s2)).
  assert (printf (fun _ => []) (Some switch_text) (fun _ => consa s + d) (c_pr s3) =
    Done tt (emit (vprintf (fun _ => []) switch_text (fun _ => consa s + d) 0 false) (c_pr s3))) as E.
  { unfold printf. rewrite bind_gets. change (c_pr s3) with (c_pr s).
    assert (forall p, panicked p = false -> printf_loop (fun _ => []) switch_text (fun _ => consa s + d) 0 p =
      Done tt (emit (vprintf (fun _ => []) switch_text (fun _ => consa s + d) 0 false) p)) as Hloop.
    { intros p Hp. apply printf_loop_agrees with (n := S (length switch_text));
        [intros a; constructor|lia|done|apply switch_text_bytes|reflexivity]. }
    destruct (c_pr s) as [lk [|] pn out]; cbn in Hpl, Hpp; subst; cbn [pr_locking].
    - rewrite (bind_Done _ _ _ _ _ (acquire_lk_free pr_lock set_pr_lock (mk_prst false true false out) eq_refl)).
      rewrite (bind_Done _ _ _ _ _ (Hloop (mk_prst true true false out) eq_refl)). by apply release_lk_held.
    - rewrite bind_ret. by rewrite (bind_Done _ _ _ _ _ (Hloop (mk_prst false false false out) eq_refl)). }
  unfold printing. rewrite (lift_Done c_pr set_c_pr _ s3 _ _ E). eexists. split; [reflexivity|].
  split; [|done]. destruct Hs2 as [Hin2 _ _]. split; [exact Hin2|cbn; lia|done].
Qed.

(** ** Examples *)

Definition boot_console : cst :=
  mk_cst (fun _ => mk_input false (fun _ => 0) 0 0 0) 0 0 (mk_prst false true false []) (fun _ => false).

Lemma boot_console_inv : cons_inv boot_console.
Proof. split; [intros; split; [apply empty_input_ok|done]|split; [done|vm_compute; intuition discriminate]|done]. Qed.

Lemma consoleintr_edits_witness :
  exists s', consoleintr (ret tt) 13 boot_console = Done tt s' /\ cons_inv s' /\ edited 0 13 boot_console s' /\
    committed (vcons s' 0) = [10] /\ uart_out (c_pr s') = [10].
Proof.
  destruct (consoleintr_edits (ret tt) 13 boot_console) as (s' & E & Hinv & Hed);
    [split; vm_compute; [discriminate|reflexivity]|exact boot_console_inv|vm_compute; discriminate..|].
  exists s'. split; [exact E|]. split; [exact Hinv|]. split; [exact Hed|].
  unfold edited in Hed. cbn in Hed. destruct Hed as (_ & _ & Hc & _ & _ & _ & _ & _ & Hp). split; [exact Hc|]. by rewrite Hp.
Defined.

(** The line "hi" and an end of file, waiting to be read. *)
Definition hi_console : cst :=
  mk_cst (fun _ => mk_input false (fun k => nth (Z.to_nat k) [104; 105; 10; 4] 0) 0 4 4) 0 0 (mk_prst false true false []) (fun _ => false).

Lemma consoleread_delivers_witness :
  exists s1 s2, consoleread 7 0 (fun _ => true) 4096 10 0 hi_console = Done (3, [104; 105; 10]) s1 /\ cons_inv s1 /\
    consoleread 7 0 (fun _ => true) 4096 10 0 s1 = Done (0, []) s2 /\ cons_inv s2.
Proof.
  assert (cons_inv hi_console) as Hinv.
  { split; [intros; split; [split; vm_compute; intuition discriminate|done]|split; [done|vm_compute; intuition discriminate]|done]. }
  pose proof (consoleread_delivers 7 0 (fun _ => true) 4096 10 0 hi_console Hinv) as H1.
  destruct (consoleread 7 0 (fun _ => true) 4096 10 0 hi_console) as [r1 s1| | |] eqn:E1; [|discriminate E1..].
  destruct H1 as [Hinv1 _]; [split; vm_compute; [discriminate|reflexivity]..|].
  pose proof (consoleread_delivers 7 0 (fun _ => true) 4096 10 0 s1 Hinv1) as H2. injection E1 as <- <-.
  eexists. destruct (consoleread 7 0 (fun _ => true) 4096 10 0 _) as [r2 s2| | |] eqn:E2 in H2; [|discriminate E2..].
  destruct H2 as [Hinv2 _]; [split; vm_compute; [discriminate|reflexivity]..|].
  exists s2. split; [reflexivity|]. split; [exact Hinv1|]. split; [|exact Hinv2]. rewrite E2. injection E2 as <- _. reflexivity.
Defined.
