(* ===== verification/Tx.v ===== *)
(** * What the log promises to the file system

    Inside a transaction the file system sees the current contents of the
    blocks, holds buffers, and may change a held buffer as long as it hands it
    to [log_write] before it releases it.  [TxLayer] is that interface, with
    one law per operation; [log_layer] shows that the log of Log.v, on any
    block layer, provides it. *)

From S2P Require Import Prelude CMem Riscv BlockLayer Log.

(** Current contents, held buffers, blocks of the running transactions, and
    held blocks that were changed and not yet logged. *)
Record txv := mk_txv {
  v_blocks : Z -> block;
  v_held : gmap Z nat;
  v_logged : gset Z;
  v_fresh : gset Z;
}.

Definition v_hold (b : Z) (h : nat) (v : txv) : txv :=
  mk_txv (v_blocks v) (<[b := h]> (v_held v)) (v_logged v) (v_fresh v).
Definition v_drop (b : Z) (v : txv) : txv :=
  mk_txv (v_blocks v) (delete b (v_held v)) (v_logged v) (v_fresh v).
Definition v_put (b : Z) (d : block) (v : txv) : txv :=
  mk_txv (fset (v_blocks v) b d) (v_held v) (v_logged v) ({[b]} ∪ v_fresh v).
Definition v_log (b : Z) (v : txv) : txv :=
  mk_txv (v_blocks v) (v_held v) ({[b]} ∪ v_logged v) (v_fresh v ∖ {[b]}).

(** Room for one more buffer. *)
Definition v_room (v : txv) : Prop := Z.of_nat (size (v_logged v ∪ dom (v_held v))) < NBUF.

Class TxLayer (X : Type) := {
  t_bread : Z -> Z -> M X nat;
  t_data : nat -> M X block;
  t_modify : nat -> (block -> block) -> M X unit;
  t_log_write : nat -> M X unit;
  t_brelse : nat -> M X unit;
  t_dev : Z;
  (** how many blocks transactions may have logged before [log_write] panics *)
  t_limit : Z;
  t_rep : X -> txv -> Prop;

  t_fresh_law x v : t_rep x v -> v_fresh v ⊆ dom (v_held v);
  t_bread_law x v b :
    t_rep x v -> v_held v !! b = None -> v_room v ->
    exists h x', t_bread t_dev b x = Done h x' /\ t_rep x' (v_hold b h v);
  t_data_law x v b h :
    t_rep x v -> v_held v !! b = Some h -> t_data h x = Done (v_blocks v b) x;
  t_modify_law x v b h f :
    t_rep x v -> v_held v !! b = Some h ->
    exists x', t_modify h f x = Done tt x' /\ t_rep x' (v_put b (f (v_blocks v b)) v);
  t_log_write_law x v b h :
    t_rep x v -> v_held v !! b = Some h -> Z.of_nat (size (v_logged v)) < t_limit ->
    exists x', t_log_write h x = Done tt x' /\ t_rep x' (v_log b v);
  t_brelse_law x v b h :
    t_rep x v -> v_held v !! b = Some h -> b ∉ v_fresh v ->
    exists x', t_brelse h x = Done tt x' /\ t_rep x' (v_drop b v);
}.

(** Changing a block in one go: read, change, log, release. *)
Definition v_write (b : Z) (d : block) (v : txv) : txv :=
  mk_txv (fset (v_blocks v) b d) (v_held v) ({[b]} ∪ v_logged v) (v_fresh v).

Lemma v_drop_hold b h v : v_held v !! b = None -> v_drop b (v_hold b h v) = v.
Proof. intros H. destruct v as [bl he lo fr]. unfold v_drop, v_hold. cbn in *. by rewrite delete_insert_id. Qed.

Lemma v_write_done b d h v : v_held v !! b = None -> b ∉ v_fresh v ->
  v_drop b (v_log b (v_put b d (v_hold b h v))) = v_write b d v.
Proof.
  intros H Hf. destruct v as [bl he lo fr]. unfold v_drop, v_log, v_put, v_hold, v_write. cbn in *.
  rewrite delete_insert_id by done. f_equal. set_solver.
Qed.

(** There is room for [n] more blocks, in the cache and in the log. *)
Definition tx_space (limit n : Z) (v : txv) : Prop :=
  Z.of_nat (size (v_logged v ∪ dom (v_held v))) + n <= NBUF /\ Z.of_nat (size (v_logged v)) + n <= limit.

Lemma tx_space_write limit n b d v : tx_space limit (n + 1) v -> tx_space limit n (v_write b d v).
Proof.
  intros [H1 H2]. unfold tx_space, v_write. cbn. rewrite <- union_assoc_L.
  assert (forall X : gset Z, (size ({[b]} ∪ X) <= size X + 1)%nat) as Hs.
  { intros X. rewrite size_union_alt, size_singleton. pose proof (subseteq_size (X ∖ {[b]}) X ltac:(set_solver)). lia. }
  pose proof (Hs (v_logged v ∪ dom (v_held v))). pose proof (Hs (v_logged v)). lia.
Qed.

(** Writing a block of the transaction again takes no more room. *)
Lemma tx_space_again limit n b d v : b ∈ v_logged v -> tx_space limit n v -> tx_space limit n (v_write b d v).
Proof. intros Hb. unfold tx_space, v_write. cbn. by replace ({[b]} ∪ v_logged v) with (v_logged v) by set_solver. Qed.

Lemma tx_space_mono limit n m v : m <= n -> tx_space limit n v -> tx_space limit m v.
Proof. unfold tx_space. lia. Qed.

Lemma tx_space_hold limit n b h v : tx_space limit (n + 1) v -> tx_space limit n (v_hold b h v).
Proof.
  intros [H1 H2]. unfold tx_space, v_hold. cbn. rewrite dom_insert_L, (union_comm_L (v_logged v)), <- union_assoc_L.
  rewrite size_union_alt, size_singleton, (union_comm_L (dom (v_held v))).
  pose proof (subseteq_size ((v_logged v ∪ dom (v_held v)) ∖ {[b]}) (v_logged v ∪ dom (v_held v)) ltac:(set_solver)). lia.
Qed.

Lemma tx_space_room limit v : tx_space limit 1 v -> v_room v.
Proof. unfold tx_space, v_room. lia. Qed.

(** ** Total correctness over an abstract view

    [twp rep m Q v]: from every concrete state that represents [v], [m]
    returns (it neither panics nor sleeps) in a state that represents some
    view satisfying [Q]. *)

Section Twp.

Context {S V : Type} (rep : S -> V -> Prop).

Definition twp {A} (m : M S A) (Q : A -> V -> Prop) (v : V) : Prop :=
  forall s, rep s v -> exists a s' v', m s = Done a s' /\ rep s' v' /\ Q a v'.

Lemma twp_bind {A B} (m : M S A) (k : A -> M S B) Q v :
  twp m (fun a v' => twp (k a) Q v') v -> twp (bind m k) Q v.
Proof.
  intros H s Hs. destruct (H s Hs) as (a & s1 & v1 & E & R & H1). destruct (H1 s1 R) as (b & s2 & v2 & E2 & R2 & H2).
  exists b, s2, v2. by rewrite (bind_Done _ _ _ _ _ E).
Qed.

Lemma twp_ret {A} (a : A) (Q : A -> V -> Prop) v : Q a v -> twp (ret a) Q v.
Proof. intros H s Hs. by exists a, s, v. Qed.

Lemma twp_mono {A} (m : M S A) (Q Q' : A -> V -> Prop) v :
  (forall a v', Q a v' -> Q' a v') -> twp m Q v -> twp m Q' v.
Proof. intros HQ H s Hs. destruct (H s Hs) as (a & s1 & v1 & E & R & H1). exists a, s1, v1. auto. Qed.

(** From every state that represents [v], [m] panics with [msg]. *)
Definition panics {A} (m : M S A) (msg : string) (v : V) : Prop := forall s, rep s v -> m s = Panicked msg.

Lemma panics_bind {A B} (m : M S A) (k : A -> M S B) msg v :
  twp m (fun a v' => panics (k a) msg v') v -> panics (bind m k) msg v.
Proof.
  intros H s Hs. destruct (H s Hs) as (a & s1 & v1 & E & R & H1). rewrite (bind_Done _ _ _ _ _ E). by apply H1.
Qed.

End Twp.

(** ** The log as a transaction layer *)

Section LogLayer.

Context {S : Type} `{BL : BlockLayer S}.

Record log_rep (s : lstate) (v : txv) (a : blocks) : Prop := {
  lr_rep : bl_rep (bs s) a;
  lr_cache : a_cache a = v_blocks v;
  lr_held : a_held a = v_held v;
  lr_refs : forall b, refs a b = (if decide (b ∈ v_logged v) then 1 else 0) + (if decide (is_Some (v_held v !! b)) then 1 else 0);
  lr_clean : forall b, b ∉ v_logged v -> b ∉ v_fresh v -> a_cache a b = a_disk a b;
  lr_fresh : v_fresh v ⊆ dom (v_held v);
  lr_blocks : v_logged v = list_to_set (tx_blocks (lg s));
  lr_nodup : NoDup (tx_blocks (lg s));
  lr_n : 0 <= lh_n (lg s);
  lr_log : lg_lock (lg s) = false /\ lg_size (lg s) = LOGSIZE /\ 1 <= lg_outstanding (lg s);
}.

Definition log_tx (s : lstate) (v : txv) : Prop := exists a, log_rep s v a.

Lemma size_logged s v a : log_rep s v a -> Z.of_nat (size (v_logged v)) = lh_n (lg s).
Proof.
  intros R. rewrite (lr_blocks _ _ _ R), size_list_to_set by apply R. unfold tx_blocks.
  rewrite length_map, length_seqZ. pose proof (lr_n _ _ _ R). lia.
Qed.

Lemma log_rep_room s v a b : log_rep s v a -> v_room v -> room a b.
Proof.
  intros R H. right. eapply Z.le_lt_trans; [|exact H]. rewrite <- size_dom.
  apply Nat2Z.inj_le, subseteq_size. intros x [c Hc]%elem_of_dom. apply elem_of_union.
  assert (refs a x <> 0) as Hx.
  { unfold refs. rewrite Hc. cbn. pose proof (refs_law _ _ _ _ (lr_rep _ _ _ R) Hc). lia. }
  rewrite (lr_refs _ _ _ R) in Hx. destruct (decide (x ∈ v_logged v)); [by left|].
  destruct (decide (is_Some (v_held v !! x))); [right; by apply elem_of_dom|done].
Qed.

Lemma log_bread_law s v b :
  log_tx s v -> v_held v !! b = None -> v_room v ->
  exists h s', onb (bread bl_dev b) s = Done h s' /\ log_tx s' (v_hold b h v).
Proof.
  intros [a R] Hb Hroom. pose proof R as [H1 H2 H3 H4 H5 H6 H7 H8 H9 H10].
  destruct (bread_law (bs s) a b H1) as (h & s1 & E & R1); [congruence| |by eapply log_rep_room|].
  { intros x hx Hx. rewrite H4. rewrite H3 in Hx. rewrite (decide_True (P := is_Some (v_held v !! x))) by (by rewrite Hx).
    case_decide; lia. }
  exists h, (set_bs s1 s). split; [by apply onb_Done|]. exists (hold b h (add_ref b 1 a)).
  split; cbn [v_hold v_blocks v_held v_logged v_fresh hold add_ref with_refs a_cache a_disk a_held lg set_bs bs]; try done.
  - by rewrite H3.
  - intros x. change (refs (hold b h (add_ref b 1 a)) x) with (refs (add_ref b 1 a) x). rewrite refs_add.
    destruct (decide (x = b)) as [->|Hne].
    + rewrite H4, Hb. rewrite (decide_False (P := is_Some None)) by (by intros []). rewrite lookup_insert_eq.
      rewrite (decide_True (P := is_Some (Some h))) by done. case_decide; reflexivity.
    + rewrite H4, lookup_insert_ne by done. done.
  - rewrite dom_insert_L. set_solver.
Qed.

Lemma log_modify_law s v b h f :
  log_tx s v -> v_held v !! b = Some h ->
  exists s', onb (bmodify h f) s = Done tt s' /\ log_tx s' (v_put b (f (v_blocks v b)) v).
Proof.
  intros [a R] Hb. pose proof R as [H1 H2 H3 H4 H5 H6 H7 H8 H9 H10].
  destruct (bmodify_law (bs s) a b h f H1) as (s1 & E & R1); [congruence|].
  exists (set_bs s1 s). split; [by apply onb_Done|]. exists (put_cache b (f (a_cache a b)) a).
  split; cbn [v_put v_blocks v_held v_logged v_fresh put_cache a_cache a_disk a_held lg set_bs bs]; try done.
  - by rewrite H2.
  - intros x Hx Hf. rewrite fset_ne by set_solver. apply H5; set_solver.
  - apply union_subseteq. split; [|done]. apply singleton_subseteq_l, elem_of_dom. by rewrite Hb.
Qed.

Lemma log_log_write_law s v b h :
  log_tx s v -> v_held v !! b = Some h -> Z.of_nat (size (v_logged v)) < LOGSIZE - 1 ->
  exists s', log_write h s = Done tt s' /\ log_tx s' (v_log b v).
Proof.
  intros [a R] Hb Hlim. pose proof R as [H1 H2 H3 H4 H5 H6 H7 H8 H9 [H10 [H11 H12]]].
  rewrite (size_logged _ _ _ R) in Hlim.
  destruct (log_write_spec s a b h H1) as (s' & E & C & Eo & El); [congruence|done|done|lia|lia|done|].
  destruct (log_write_inv h s s' E H10 H9) as (Hn' & _ & Es & _).
  exists s'. split; [done|].
  assert (dom_held : b ∈ dom (v_held v)) by (apply elem_of_dom; by rewrite Hb).
  destruct C as [(Hin & R' & Et)|(Hni & R' & Et)].
  - assert (v_logged (v_log b v) = v_logged v) as Elog.
    { cbn. assert (b ∈ v_logged v) by (rewrite H7; set_solver). set_solver. }
    exists a. split; rewrite ?Elog; cbn [v_log v_blocks v_held v_fresh]; try done.
    + intros x Hx Hf. apply H5; [done|]. assert (x <> b); [|set_solver]. intros ->. apply Hx. rewrite H7. set_solver.
    + set_solver.
    + by rewrite Et.
    + by rewrite Et.
    + lia.
    + split; [done|]. split; congruence || lia.
  - assert (b ∉ v_logged v) as Hnl by (rewrite H7; set_solver).
    exists (add_ref b 1 a). split; cbn [v_log v_blocks v_held v_fresh v_logged add_ref with_refs a_cache a_disk a_held]; try done.
    + intros x. rewrite refs_add. destruct (decide (x = b)) as [->|Hne].
      * rewrite H4, Hb. rewrite (decide_False (P := b ∈ v_logged v)), (decide_True (P := b ∈ {[b]} ∪ v_logged v)) by set_solver.
        rewrite decide_True by done. reflexivity.
      * rewrite H4. f_equal. destruct (decide (x ∈ v_logged v)), (decide (x ∈ {[b]} ∪ v_logged v)); set_solver.
    + intros x Hx Hf. apply H5; set_solver.
    + set_solver.
    + rewrite Et, H7. set_solver.
    + rewrite Et. apply NoDup_app. split; [done|]. split; [set_solver|apply NoDup_singleton].
    + lia.
    + split; [done|]. split; congruence || lia.
Qed.

Lemma log_brelse_law s v b h :
  log_tx s v -> v_held v !! b = Some h -> b ∉ v_fresh v ->
  exists s', onb (brelse h) s = Done tt s' /\ log_tx s' (v_drop b v).
Proof.
  intros [a R] Hb Hf. pose proof R as [H1 H2 H3 H4 H5 H6 H7 H8 H9 H10].
  assert (refs a b = (if decide (b ∈ v_logged v) then 1 else 0) + 1) as Er.
  { rewrite H4, (decide_True (P := is_Some (v_held v !! b))) by (by rewrite Hb). done. }
  destruct (brelse_law (bs s) a b h H1) as (s1 & E & R1); [congruence| |].
  { rewrite Er. destruct (decide (b ∈ v_logged v)); [by left|right; by apply H5]. }
  exists (set_bs s1 s). split; [by apply onb_Done|]. exists (unhold b (add_ref b (-1) a)).
  split; cbn [v_drop v_blocks v_held v_logged v_fresh unhold add_ref with_refs a_cache a_disk a_held lg set_bs bs]; try done.
  - by rewrite H3.
  - intros x. change (refs (unhold b (add_ref b (-1) a)) x) with (refs (add_ref b (-1) a) x). rewrite refs_add.
    destruct (decide (x = b)) as [->|Hne].
    + rewrite Er, lookup_delete_eq. rewrite (decide_False (P := is_Some None)) by (by intros []). by case_decide.
    + rewrite H4, lookup_delete_ne by done. done.
  - rewrite dom_delete_L. set_solver.
Qed.

Lemma log_fresh_law s v : log_tx s v -> v_fresh v ⊆ dom (v_held v).
Proof. intros [a R]. apply R. Qed.

Lemma log_data_law s v b h : log_tx s v -> v_held v !! b = Some h -> onb (bdata h) s = Done (v_blocks v b) s.
Proof.
  intros [a R] Hb. destruct R as [H1 H2 H3 _ _ _ _ _ _ _]. rewrite <- H2.
  destruct s as [l x]. apply (onb_Done _ (mk_lstate l x)). cbn. apply bdata_law; [done|congruence].
Qed.

#[global] Instance log_layer : TxLayer (@lstate S) := {
  t_bread dev b := onb (bread dev b);
  t_data h := onb (bdata h);
  t_modify h f := onb (bmodify h f);
  t_log_write := log_write;
  t_brelse h := onb (brelse h);
  t_dev := bl_dev;
  t_limit := LOGSIZE - 1;
  t_rep := log_tx;
  t_fresh_law := log_fresh_law;
  t_bread_law := log_bread_law;
  t_data_law := log_data_law;
  t_modify_law := log_modify_law;
  t_log_write_law := log_log_write_law;
  t_brelse_law := log_brelse_law;
}.

End LogLayer.
