(* ===== verification/Fs.v ===== *)
(** * The file system: kernel/fs.c

    Blocks, inodes, directories and path names, against the transaction
    interface of Tx.v.  An inode pointer is an index into the inode cache;
    where the C code tests a pointer for null it is an [option].  User memory
    is given by how many bytes a copy moves before it faults. *)

From S2P Require Import Prelude CMem Riscv Sleeplock BlockLayer Log Tx.

(** ** On-disk format: kernel/fs.h *)

Definition ROOTINO : Z := 1.
Definition FSMAGIC : Z := 0x10203040.
Definition NDIRECT : Z := 12.
Definition NINDIRECT : Z := BSIZE / 4.
Definition MAXFILE : Z := NDIRECT + NINDIRECT.
(** [sizeof(struct dinode)] *)
Definition DINODE_SIZE : Z := 64.
Definition IPB : Z := BSIZE / DINODE_SIZE.
Definition BPB : Z := BSIZE * 8.
Definition DIRSIZ : Z := 14.
(** [sizeof(struct dirent)] *)
Definition DIRENT_SIZE : Z := 16.
Definition T_DIR : Z := 1.
Definition T_FILE : Z := 2.
Definition T_DEVICE : Z := 3.

Record superblock := mk_superblock {
  sb_magic : Z; sb_size : Z; sb_nblocks : Z; sb_ninodes : Z;
  sb_nlog : Z; sb_logstart : Z; sb_inodestart : Z; sb_bmapstart : Z;
}.

Definition IBLOCK (i : Z) (sb : superblock) : Z := u32 (i / IPB + sb_inodestart sb).
Definition BBLOCK (b : Z) (sb : superblock) : Z := u32 (b / BPB + sb_bmapstart sb).

(** Little-endian fields of [k] bytes in a block. *)
Definition getf (k : nat) (d : block) (off : Z) : Z := le_combine (take k (drop (Z.to_nat off) d)).
Definition putf (k : nat) (d : block) (off v : Z) : block := list_inserts (Z.to_nat off) (le_split k v) d.

Definition read_superblock (d : block) : superblock :=
  mk_superblock (getf 4 d 0) (getf 4 d 4) (getf 4 d 8) (getf 4 d 12)
                (getf 4 d 16) (getf 4 d 20) (getf 4 d 24) (getf 4 d 28).

(** The fields of [struct dinode] (and of the copy [struct inode] keeps). *)
Record dinode := mk_dinode {
  di_type : Z; di_major : Z; di_minor : Z; di_nlink : Z; di_size : Z; di_addrs : list Z;
}.

Definition read_dinode (d : block) (off : Z) : dinode :=
  mk_dinode (s16 (getf 2 d off)) (s16 (getf 2 d (off + 2))) (s16 (getf 2 d (off + 4))) (s16 (getf 2 d (off + 6)))
    (getf 4 d (off + 8)) (map (fun k => getf 4 d (off + 12 + 4 * k)) (seqZ 0 (NDIRECT + 1))).

Fixpoint put_addrs (d : block) (off : Z) (l : list Z) : block :=
  match l with [] => d | a :: l' => put_addrs (putf 4 d off a) (off + 4) l' end.

Definition write_dinode (d : block) (off : Z) (i : dinode) : block :=
  let d1 := putf 2 d off (di_type i) in
  let d2 := putf 2 d1 (off + 2) (di_major i) in
  let d3 := putf 2 d2 (off + 4) (di_minor i) in
  let d4 := putf 2 d3 (off + 6) (di_nlink i) in
  let d5 := putf 4 d4 (off + 8) (di_size i) in
  put_addrs d5 (off + 12) (di_addrs i).

(** ** In-memory state *)

Record inode := mk_inode {
  i_dev : Z; i_inum : Z; i_ref : Z; i_lock : sleeplock; i_valid : bool; i_d : dinode;
}.

(** The transaction layer's state [X], the super block, the lock of the inode
    cache and its entries. *)
Record fsys (X : Type) := mk_fsys {
  fx : X; f_sb : superblock; ic_lock : bool; inodes : Z -> inode;
}.
Arguments mk_fsys {X}. Arguments fx {X}. Arguments f_sb {X}. Arguments ic_lock {X}. Arguments inodes {X}.

Definition set_fx {X Y} (x : Y) (s : fsys X) : fsys Y := mk_fsys x (f_sb s) (ic_lock s) (inodes s).
Definition set_sb {X} (sb : superblock) (s : fsys X) : fsys X := mk_fsys (fx s) sb (ic_lock s) (inodes s).
Definition set_ic_lock {X} (b : bool) (s : fsys X) : fsys X := mk_fsys (fx s) (f_sb s) b (inodes s).
Definition set_inode {X} (i : Z) (f : inode -> inode) (s : fsys X) : fsys X :=
  mk_fsys (fx s) (f_sb s) (ic_lock s) (fset (inodes s) i (f (inodes s i))).

Definition with_ref (r : Z) (i : inode) : inode := mk_inode (i_dev i) (i_inum i) r (i_lock i) (i_valid i) (i_d i).
Definition with_lock (l : sleeplock) (i : inode) : inode := mk_inode (i_dev i) (i_inum i) (i_ref i) l (i_valid i) (i_d i).
Definition with_valid (b : bool) (i : inode) : inode := mk_inode (i_dev i) (i_inum i) (i_ref i) (i_lock i) b (i_d i).
Definition with_d (f : dinode -> dinode) (i : inode) : inode := mk_inode (i_dev i) (i_inum i) (i_ref i) (i_lock i) (i_valid i) (f (i_d i)).
Definition with_type (t : Z) (d : dinode) : dinode := mk_dinode t (di_major d) (di_minor d) (di_nlink d) (di_size d) (di_addrs d).
Definition with_nlink (n : Z) (d : dinode) : dinode := mk_dinode (di_type d) (di_major d) (di_minor d) n (di_size d) (di_addrs d).
Definition with_size (n : Z) (d : dinode) : dinode := mk_dinode (di_type d) (di_major d) (di_minor d) (di_nlink d) n (di_addrs d).
Definition with_addr (k a : Z) (d : dinode) : dinode :=
  mk_dinode (di_type d) (di_major d) (di_minor d) (di_nlink d) (di_size d) (<[Z.to_nat k := a]> (di_addrs d)).

Definition addr_at (d : dinode) (k : Z) : Z := nth (Z.to_nat k) (di_addrs d) 0.

(** Bytes and bits of a block. *)
Definition byte_at (d : block) (i : Z) : Z := byte.unsigned (nth (Z.to_nat i) d Byte.x00).
Definition put_byte (i v : Z) (d : block) : block := <[Z.to_nat i := byte.of_Z v]> d.
Definition bit_mask (bi : Z) : Z := Z.shiftl 1 (bi mod 8).
Definition bit_clear (d : block) (bi : Z) : bool := Z.land (byte_at d (bi / 8)) (bit_mask bi) =? 0.
Definition set_bit (bi : Z) (d : block) : block := put_byte (bi / 8) (Z.lor (byte_at d (bi / 8)) (bit_mask bi)) d.
Definition clear_bit (bi : Z) (d : block) : block := put_byte (bi / 8) (Z.land (byte_at d (bi / 8)) (Z.lnot (bit_mask bi))) d.
Definition zero_block : block := replicate (Z.to_nat BSIZE) Byte.x00.

(** Splicing bytes into a block. *)
Definition splice (off : Z) (l : list byte) (d : block) : block := list_inserts (Z.to_nat off) l d.
Definition slice (off m : Z) (d : block) : list byte := take (Z.to_nat m) (drop (Z.to_nat off) d).

Section Fs.

Context {X : Type} `{TX : TxLayer X}.

(** The calling process. *)
Context (pid : Z).

Notation MF := (M (fsys X)).

Definition ontx {A} (m : M X A) : MF A := lift fx set_fx m.
Definition bread (dev b : Z) : MF nat := ontx (t_bread dev b).
Definition bdata (h : nat) : MF block := ontx (t_data h).
Definition bmodify (h : nat) (f : block -> block) : MF unit := ontx (t_modify h f).
Definition log_write (h : nat) : MF unit := ontx (t_log_write h).
Definition brelse (h : nat) : MF unit := ontx (t_brelse h).
Definition the_sb : MF superblock := gets f_sb.
Definition inode_of (ip : Z) : MF inode := gets (fun s => inodes s ip).
Definition upd_inode (ip : Z) (f : inode -> inode) : MF unit := modify (set_inode ip f).

Definition icache_acquire : MF unit := acquire_lk ic_lock set_ic_lock.
Definition icache_release : MF unit := release_lk ic_lock set_ic_lock.

Definition get_ilock (ip : Z) (s : fsys X) : sleeplock := i_lock (inodes s ip).
Definition put_ilock (ip : Z) (l : sleeplock) (s : fsys X) : fsys X := set_inode ip (with_lock l) s.

Definition readsb (dev : Z) : MF unit :=
  bp <- bread dev 1 ;;
  d <- bdata bp ;;
  modify (set_sb (read_superblock d)) ;;;
  brelse bp.

Definition bzero (dev bno : Z) : MF unit :=
  bp <- bread dev bno ;;
  bmodify bp (fun _ => zero_block) ;;;
  log_write bp ;;;
  brelse bp.

(** The inner loop of [balloc]: the first [bi] whose bit is clear. *)
Fixpoint scan_bits (d : block) (b size bi : Z) (left : nat) : option Z :=
  match left with
  | O => None
  | S left' =>
      if b + bi <? size then
        if bit_clear d bi then Some bi else scan_bits d b size (bi + 1) left'
      else None
  end.

(** The outer loop; [left] is the number of bitmap blocks from [b] on. *)
Fixpoint balloc_loop (dev b : Z) (left : nat) : MF Z :=
  sb <- the_sb ;;
  match left with
  | O => panic "balloc: out of blocks"
  | S left' =>
      bp <- bread dev (BBLOCK b sb) ;;
      d <- bdata bp ;;
      match scan_bits d b (sb_size sb) 0 (Z.to_nat BPB) with
      | Some bi =>
          bmodify bp (set_bit bi) ;;;
          log_write bp ;;;
          brelse bp ;;;
          bzero dev (b + bi) ;;;
          ret (b + bi)
      | None =>
          brelse bp ;;;
          balloc_loop dev (b + BPB) left'
      end
  end.

Definition balloc (dev : Z) : MF Z :=
  sb <- the_sb ;;
  balloc_loop dev 0 (Z.to_nat ((sb_size sb + BPB - 1) / BPB)).

Definition bfree (dev b : Z) : MF unit :=
  sb <- the_sb ;;
  bp <- bread dev (BBLOCK b sb) ;;
  let bi := b mod BPB in
  d <- bdata bp ;;
  if bit_clear d bi then panic "freeing free block" else
  bmodify bp (clear_bit bi) ;;;
  log_write bp ;;;
  brelse bp.

(** The loop of [iinit], from entry [i]. *)
Fixpoint iinit_loop (i : Z) (left : nat) : MF unit :=
  match left with
  | O => ret tt
  | S left' => upd_inode i (with_lock initsleeplock) ;;; iinit_loop (i + 1) left'
  end.
Definition iinit : MF unit := modify (set_ic_lock false) ;;; iinit_loop 0 (Z.to_nat NINODE).

(** The search of [iget]: an entry in use for the inode, or the first free
    one. *)
Fixpoint iget_scan (ic : Z -> inode) (dev inum i : Z) (empty : option Z) (left : nat) : option Z * option Z :=
  match left with
  | O => (None, empty)
  | S left' =>
      if (i_ref (ic i) >? 0) && (i_dev (ic i) =? dev) && (i_inum (ic i) =? inum) then (Some i, empty)
      else iget_scan ic dev inum (i + 1)
             (match empty with None => if i_ref (ic i) =? 0 then Some i else None | Some _ => empty end) left'
  end.

Definition iget (dev inum : Z) : MF Z :=
  icache_acquire ;;;
  ic <- gets inodes ;;
  match iget_scan ic dev inum 0 None (Z.to_nat NINODE) with
  | (Some ip, _) =>
      upd_inode ip (fun i => with_ref (s32 (i_ref i + 1)) i) ;;;
      icache_release ;;;
      ret ip
  | (None, None) => panic "iget: no inodes"
  | (None, Some ip) =>
      upd_inode ip (fun i => mk_inode dev inum 1 (i_lock i) false (i_d i)) ;;;
      icache_release ;;;
      ret ip
  end.

Definition idup (ip : Z) : MF Z :=
  icache_acquire ;;;
  upd_inode ip (fun i => with_ref (s32 (i_ref i + 1)) i) ;;;
  icache_release ;;;
  ret ip.

Definition empty_dinode (type : Z) : dinode := mk_dinode (s16 type) 0 0 0 0 (replicate (Z.to_nat (NDIRECT + 1)) 0).

(** The new inode: all bytes of the entry cleared, then [dip->type = type]. *)
Definition clear_dinode (off type : Z) (d : block) : block :=
  putf 2 (splice off (replicate (Z.to_nat DINODE_SIZE) Byte.x00) d) off type.

Fixpoint ialloc_loop (dev type inum : Z) (left : nat) : MF Z :=
  match left with
  | O => panic "ialloc: no inodes"
  | S left' =>
      sb <- the_sb ;;
      bp <- bread dev (IBLOCK inum sb) ;;
      d <- bdata bp ;;
      let off := DINODE_SIZE * (inum mod IPB) in
      if s16 (getf 2 d off) =? 0 then
        bmodify bp (clear_dinode off type) ;;;
        log_write bp ;;;
        brelse bp ;;;
        iget dev inum
      else
        brelse bp ;;;
        ialloc_loop dev type (inum + 1) left'
  end.

Definition ialloc (dev type : Z) : MF Z :=
  sb <- the_sb ;;
  ialloc_loop dev type 1 (Z.to_nat (sb_ninodes sb - 1)).

Definition iupdate (ip : Z) : MF unit :=
  i <- inode_of ip ;;
  sb <- the_sb ;;
  bp <- bread (i_dev i) (IBLOCK (i_inum i) sb) ;;
  bmodify bp (fun d => write_dinode d (DINODE_SIZE * (i_inum i mod IPB)) (i_d i)) ;;;
  log_write bp ;;;
  brelse bp.

(** The fuel bounds the wake-ups while another process holds the inode. *)
Definition ilock (p : option Z) (fuel : nat) : MF unit :=
  match p with
  | None => panic "ilock"
  | Some ip =>
      i <- inode_of ip ;;
      if i_ref i <? 1 then panic "ilock" else
      acquiresleep (get_ilock ip) (put_ilock ip) ip pid fuel ;;;
      i <- inode_of ip ;;
      if i_valid i then ret tt else
      sb <- the_sb ;;
      bp <- bread (i_dev i) (IBLOCK (i_inum i) sb) ;;
      d <- bdata bp ;;
      upd_inode ip (with_d (fun _ => read_dinode d (DINODE_SIZE * (i_inum i mod IPB)))) ;;;
      brelse bp ;;;
      upd_inode ip (with_valid true) ;;;
      i <- inode_of ip ;;
      if di_type (i_d i) =? 0 then panic "ilock: no type" else ret tt
  end.

Definition iunlock (p : option Z) : MF unit :=
  match p with
  | None => panic "iunlock"
  | Some ip =>
      h <- holdingsleep (get_ilock ip) (put_ilock ip) pid ;;
      i <- inode_of ip ;;
      if negb h || (i_ref i <? 1) then panic "iunlock" else
      releasesleep (get_ilock ip) (put_ilock ip) ip
  end.

Definition bmap (ip bn : Z) : MF Z :=
  i <- inode_of ip ;;
  if bn <? NDIRECT then
    let addr := addr_at (i_d i) bn in
    if addr =? 0 then
      addr <- balloc (i_dev i) ;;
      upd_inode ip (with_d (with_addr bn addr)) ;;;
      ret addr
    else ret addr
  else
    let bn := bn - NDIRECT in
    if bn <? NINDIRECT then
      addr <- (if addr_at (i_d i) NDIRECT =? 0 then
                 addr <- balloc (i_dev i) ;;
                 upd_inode ip (with_d (with_addr NDIRECT addr)) ;;;
                 ret addr
               else ret (addr_at (i_d i) NDIRECT)) ;;
      bp <- bread (i_dev i) addr ;;
      d <- bdata bp ;;
      addr <- (if getf 4 d (4 * bn) =? 0 then
                 addr <- balloc (i_dev i) ;;
                 bmodify bp (fun d => putf 4 d (4 * bn) addr) ;;;
                 log_write bp ;;;
                 ret addr
               else ret (getf 4 d (4 * bn))) ;;
      brelse bp ;;;
      ret addr
    else panic "bmap: out of range".

(** The loops of [itrunc] over the direct and the indirect addresses. *)
Fixpoint itrunc_direct (ip k : Z) (left : nat) : MF unit :=
  match left with
  | O => ret tt
  | S left' =>
      i <- inode_of ip ;;
      (if addr_at (i_d i) k =? 0 then ret tt
       else bfree (i_dev i) (addr_at (i_d i) k) ;;; upd_inode ip (with_d (with_addr k 0))) ;;;
      itrunc_direct ip (k + 1) left'
  end.

Fixpoint itrunc_indirect (dev : Z) (bp : nat) (j : Z) (left : nat) : MF unit :=
  match left with
  | O => ret tt
  | S left' =>
      d <- bdata bp ;;
      (if getf 4 d (4 * j) =? 0 then ret tt else bfree dev (getf 4 d (4 * j))) ;;;
      itrunc_indirect dev bp (j + 1) left'
  end.

Definition itrunc (ip : Z) : MF unit :=
  itrunc_direct ip 0 (Z.to_nat NDIRECT) ;;;
  i <- inode_of ip ;;
  (if addr_at (i_d i) NDIRECT =? 0 then ret tt
   else
     bp <- bread (i_dev i) (addr_at (i_d i) NDIRECT) ;;
     itrunc_indirect (i_dev i) bp 0 (Z.to_nat NINDIRECT) ;;;
     brelse bp ;;;
     bfree (i_dev i) (addr_at (i_d i) NDIRECT) ;;;
     upd_inode ip (with_d (with_addr NDIRECT 0))) ;;;
  upd_inode ip (with_d (with_size 0)) ;;;
  iupdate ip.

Definition iput (ip : Z) (fuel : nat) : MF unit :=
  icache_acquire ;;;
  i <- inode_of ip ;;
  (if (i_ref i =? 1) && i_valid i && (di_nlink (i_d i) =? 0) then
     acquiresleep (get_ilock ip) (put_ilock ip) ip pid fuel ;;;
     icache_release ;;;
     itrunc ip ;;;
     upd_inode ip (with_d (with_type 0)) ;;;
     iupdate ip ;;;
     upd_inode ip (with_valid false) ;;;
     releasesleep (get_ilock ip) (put_ilock ip) ip ;;;
     icache_acquire
   else ret tt) ;;;
  upd_inode ip (fun i => with_ref (s32 (i_ref i - 1)) i) ;;;
  icache_release.

Definition iunlockput (ip : Z) (fuel : nat) : MF unit := iunlock (Some ip) ;;; iput ip fuel.

(** [struct stat]: dev, ino, type, nlink, size *)
Definition stati (ip : Z) : MF (Z * Z * Z * Z * Z) :=
  i <- inode_of ip ;;
  ret (i_dev i, i_inum i, di_type (i_d i), di_nlink (i_d i), di_size (i_d i)).

(** [copyout dst l] is the number of bytes of [l] stored before a fault; the
    copy fails when it is not all of them.  The loop returns what was stored. *)
Fixpoint readi_loop (ip : Z) (copyout : Z -> list byte -> nat) (dst off n tot : Z) (fuel : nat) : MF (list byte) :=
  if tot <? n then
    match fuel with
    | O => exhausted
    | S f =>
        i <- inode_of ip ;;
        a <- bmap ip (off / BSIZE) ;;
        bp <- bread (i_dev i) a ;;
        let m := Z.min (n - tot) (BSIZE - off mod BSIZE) in
        d <- bdata bp ;;
        let l := slice (off mod BSIZE) m d in
        brelse bp ;;;
        if (copyout dst l <? length l)%nat then ret (take (copyout dst l) l)
        else rest <- readi_loop ip copyout (u64 (dst + m)) (u32 (off + m)) n (tot + m) f ;; ret (l ++ rest)
    end
  else ret [].

(** An iteration moves the offset to the next block boundary or ends, so the
    loop runs at most [n / BSIZE + 2] times. *)
Definition readi (ip : Z) (copyout : Z -> list byte -> nat) (dst off n : Z) : MF (Z * list byte) :=
  i <- inode_of ip ;;
  let size := di_size (i_d i) in
  if (off >? size) || (u32 (off + n) <? off) then ret (-1, []) else
  let n := if u32 (off + n) >? size then u32 (size - off) else n in
  l <- readi_loop ip copyout dst off n 0 (Z.to_nat (n / BSIZE + 2)) ;;
  ret (n, l).

(** [copyin src m] is what a copy of [m] bytes fetches before a fault.  The
    loop returns the final [off]. *)
Fixpoint writei_loop (ip : Z) (copyin : Z -> nat -> list byte) (src off n tot : Z) (fuel : nat) : MF Z :=
  if tot <? n then
    match fuel with
    | O => exhausted
    | S f =>
        i <- inode_of ip ;;
        a <- bmap ip (off / BSIZE) ;;
        bp <- bread (i_dev i) a ;;
        let m := Z.min (n - tot) (BSIZE - off mod BSIZE) in
        let l := copyin src (Z.to_nat m) in
        (if (0 <? length l)%nat then bmodify bp (splice (off mod BSIZE) l) else ret tt) ;;;
        if (length l <? Z.to_nat m)%nat then brelse bp ;;; ret off
        else
          log_write bp ;;;
          brelse bp ;;;
          writei_loop ip copyin (u64 (src + m)) (u32 (off + m)) n (tot + m) f
    end
  else ret off.

Definition writei (ip : Z) (copyin : Z -> nat -> list byte) (src off n : Z) : MF Z :=
  i <- inode_of ip ;;
  if (off >? di_size (i_d i)) || (u32 (off + n) <? off) then ret (-1) else
  if u32 (off + n) >? MAXFILE * BSIZE then ret (-1) else
  off' <- writei_loop ip copyin src off n 0 (Z.to_nat (n / BSIZE + 2)) ;;
  (if n >? 0 then
     i <- inode_of ip ;;
     (if off' >? di_size (i_d i) then upd_inode ip (with_d (with_size off')) else ret tt) ;;;
     iupdate ip
   else ret tt) ;;;
  ret n.

(** ** Directories *)

Definition namecmp (s t : reader) : Z := strncmp s t DIRSIZ.

(** Kernel memory never faults. *)
Definition kernel_dst (dst : Z) (l : list byte) : nat := length l.
Definition kernel_src (l : list byte) (src : Z) (m : nat) : list byte := take m (drop (Z.to_nat src) l).

Definition de_inum (de : list byte) : Z := le_combine (take 2 de).
Definition de_name (de : list byte) : list byte := drop 2 de.

(** Returns the inode and the offset of its entry. *)
Fixpoint dirlookup_loop (dp : Z) (name : reader) (off : Z) (fuel : nat) : MF (option (Z * Z)) :=
  i <- inode_of dp ;;
  if off <? di_size (i_d i) then
    match fuel with
    | O => exhausted
    | S f =>
        r <- readi dp kernel_dst 0 off DIRENT_SIZE ;;
        if negb (fst r =? DIRENT_SIZE) then panic "dirlookup read" else
        let de := snd r in
        if de_inum de =? 0 then dirlookup_loop dp name (u32 (off + DIRENT_SIZE)) f
        else if namecmp name (of_list (de_name de)) =? 0 then
          ip <- iget (i_dev i) (de_inum de) ;;
          ret (Some (ip, off))
        else dirlookup_loop dp name (u32 (off + DIRENT_SIZE)) f
    end
  else ret None.

Definition dirlookup (dp : Z) (name : reader) : MF (option (Z * Z)) :=
  i <- inode_of dp ;;
  if negb (di_type (i_d i) =? T_DIR) then panic "dirlookup not DIR" else
  dirlookup_loop dp name 0 (Z.to_nat (di_size (i_d i) / DIRENT_SIZE + 1)).

(** The offset of the first free entry, or the size. *)
Fixpoint dirlink_loop (dp off : Z) (fuel : nat) : MF Z :=
  i <- inode_of dp ;;
  if off <? di_size (i_d i) then
    match fuel with
    | O => exhausted
    | S f =>
        r <- readi dp kernel_dst 0 off DIRENT_SIZE ;;
        if negb (fst r =? DIRENT_SIZE) then panic "dirlink read" else
        if de_inum (snd r) =? 0 then ret off else dirlink_loop dp (off + DIRENT_SIZE) f
    end
  else ret off.

(** [strncpy(de.name, name, DIRSIZ)] *)
Fixpoint name_field (name : reader) (n : nat) : list byte :=
  match n with
  | O => []
  | S n' => if Byte.eqb (name 0%nat) Byte.x00 then replicate n Byte.x00 else name 0%nat :: name_field (advance name 1) n'
  end.

Definition dirlink (dp : Z) (name : reader) (inum : Z) (fuel : nat) : MF Z :=
  r <- dirlookup dp name ;;
  match r with
  | Some (ip, _) => iput ip fuel ;;; ret (-1)
  | None =>
      i <- inode_of dp ;;
      off <- dirlink_loop dp 0 (Z.to_nat (di_size (i_d i) / DIRENT_SIZE + 1)) ;;
      let de := le_split 2 inum ++ name_field name (Z.to_nat DIRSIZ) in
      w <- writei dp (kernel_src de) 0 off DIRENT_SIZE ;;
      if negb (w =? DIRENT_SIZE) then panic "dirlink" else ret 0
  end.

(** ** Paths

    A path is the list of its characters, without the final NUL. *)

Definition slash : byte := byte.of_Z 47.
Definition is_slash (c : byte) : bool := Byte.eqb c slash.

Fixpoint skip_slashes (path : list byte) : list byte :=
  match path with c :: rest => if is_slash c then skip_slashes rest else path | [] => [] end.

(** The characters before the next slash, and the rest. *)
Fixpoint path_elem (path : list byte) : list byte * list byte :=
  match path with
  | [] => ([], [])
  | c :: rest => if is_slash c then ([], path) else let r := path_elem rest in (c :: fst r, snd r)
  end.

(** [None] is the null result; otherwise the new contents of the [name]
    buffer and the rest of the path. *)
Definition skipelem (path name : list byte) : option (list byte * list byte) :=
  let p := skip_slashes path in
  match p with
  | [] => None
  | _ =>
      let '(s, rest) := path_elem p in
      let len := Z.of_nat (length s) in
      let name' := if len >=? DIRSIZ then list_inserts 0 (take (Z.to_nat DIRSIZ) s) name
                   else list_inserts 0 (s ++ [Byte.x00]) name in
      Some (name', skip_slashes rest)
  end.

(** The loop of [namex]; each turn consumes at least one character of the
    path.  [wakes] bounds the wake-ups of each lock.  Returns the inode and the
    contents of [name]. *)
Fixpoint namex_loop (ip : Z) (path name : list byte) (parent : bool) (wakes fuel : nat) : MF (option Z * list byte) :=
  match skipelem path name with
  | None => if parent then iput ip wakes ;;; ret (None, name) else ret (Some ip, name)
  | Some (name', path') =>
      match fuel with
      | O => exhausted
      | S f =>
          ilock (Some ip) wakes ;;;
          i <- inode_of ip ;;
          if negb (di_type (i_d i) =? T_DIR) then iunlockput ip wakes ;;; ret (None, name')
          else if parent && (match path' with [] => true | _ => false end) then
            iunlock (Some ip) ;;; ret (Some ip, name')
          else
            r <- dirlookup ip (of_list name') ;;
            match r with
            | None => iunlockput ip wakes ;;; ret (None, name')
            | Some (next, _) => iunlockput ip wakes ;;; namex_loop next path' name' parent wakes f
            end
      end
  end.

(** [cwd] is the inode of [myproc()->cwd]. *)
Definition namex (cwd : Z) (path : list byte) (parent : bool) (name : list byte) (wakes : nat) : MF (option Z * list byte) :=
  ip <- (match path with
         | c :: _ => if is_slash c then iget ROOTDEV ROOTINO else idup cwd
         | [] => idup cwd
         end) ;;
  namex_loop ip path name parent wakes (length path).

Definition namei (cwd : Z) (path : list byte) (wakes : nat) : MF (option Z) :=
  r <- namex cwd path false (replicate (Z.to_nat DIRSIZ) Byte.x00) wakes ;; ret (fst r).

Definition nameiparent (cwd : Z) (path name : list byte) (wakes : nat) : MF (option Z * list byte) :=
  namex cwd path true name wakes.

(** ** Reasoning rules

    Views of the file system: the same record over the transaction layer's
    view.  [fwp m Q v]: from every state with view [v], [m] returns in a state
    with a view satisfying [Q]. *)

Definition fs_rep (s : fsys X) (v : fsys txv) : Prop :=
  t_rep (fx s) (fx v) /\ f_sb s = f_sb v /\ ic_lock s = ic_lock v /\ inodes s = inodes v.

Definition fwp {A} (m : MF A) (Q : A -> fsys txv -> Prop) (v : fsys txv) : Prop := twp fs_rep m Q v.

Definition tx (f : txv -> txv) (v : fsys txv) : fsys txv := set_fx (f (fx v)) v.
Definition blk (v : fsys txv) (b : Z) : block := v_blocks (fx v) b.
Definition held (v : fsys txv) (b : Z) : option nat := v_held (fx v) !! b.
Definition space (n : Z) (v : fsys txv) : Prop := tx_space t_limit n (fx v).

Lemma fwp_bind {A B} (m : MF A) (k : A -> MF B) Q v : fwp m (fun a => fwp (k a) Q) v -> fwp (bind m k) Q v.
Proof. apply twp_bind. Qed.

Lemma fwp_ret {A} (a : A) (Q : A -> fsys txv -> Prop) v : Q a v -> fwp (ret a) Q v.
Proof. apply twp_ret. Qed.

Lemma fwp_mono {A} (m : MF A) (Q Q' : A -> fsys txv -> Prop) v : (forall a v', Q a v' -> Q' a v') -> fwp m Q v -> fwp m Q' v.
Proof. apply twp_mono. Qed.

Lemma fwp_sb (Q : superblock -> fsys txv -> Prop) v : Q (f_sb v) v -> fwp the_sb Q v.
Proof. intros H s (R & E1 & E2 & E3). exists (f_sb v), s, v. split; [|by split]. unfold the_sb, gets. by rewrite E1. Qed.

Lemma fwp_inode ip (Q : inode -> fsys txv -> Prop) v : Q (inodes v ip) v -> fwp (inode_of ip) Q v.
Proof. intros H s (R & E1 & E2 & E3). exists (inodes v ip), s, v. split; [|by split]. unfold inode_of, gets. by rewrite E3. Qed.

Lemma fwp_inodes (Q : (Z -> inode) -> fsys txv -> Prop) v : Q (inodes v) v -> fwp (gets inodes) Q v.
Proof. intros H s (R & E1 & E2 & E3). exists (inodes v), s, v. split; [|by split]. unfold gets. by rewrite E3. Qed.

Lemma fwp_upd ip f (Q : unit -> fsys txv -> Prop) v : Q tt (set_inode ip f v) -> fwp (upd_inode ip f) Q v.
Proof.
  intros H s (R & E1 & E2 & E3). exists tt, (set_inode ip f s), (set_inode ip f v). split; [done|]. split; [|done].
  unfold fs_rep, set_inode. cbn. by rewrite E3.
Qed.

Lemma fwp_ic_acquire (Q : unit -> fsys txv -> Prop) v : ic_lock v = false -> Q tt (set_ic_lock true v) -> fwp icache_acquire Q v.
Proof.
  intros Hl H s (R & E1 & E2 & E3). exists tt, (set_ic_lock true s), (set_ic_lock true v).
  split; [apply acquire_lk_free; congruence|]. by split.
Qed.

Lemma fwp_ic_release (Q : unit -> fsys txv -> Prop) v : ic_lock v = true -> Q tt (set_ic_lock false v) -> fwp icache_release Q v.
Proof.
  intros Hl H s (R & E1 & E2 & E3). exists tt, (set_ic_lock false s), (set_ic_lock false v).
  split; [apply release_lk_held; congruence|]. by split.
Qed.

Lemma ontx_Done {A} (m : M X A) s a x : m (fx s) = Done a x -> ontx m s = Done a (set_fx x s).
Proof. unfold ontx, lift. by intros ->. Qed.

Lemma fs_rep_tx s v x t : fs_rep s v -> t_rep x t -> fs_rep (set_fx x s) (set_fx t v).
Proof. intros (R & E1 & E2 & E3) H. by split. Qed.

Lemma fwp_bread b (Q : nat -> fsys txv -> Prop) v :
  held v b = None -> space 1 v -> (forall h, Q h (tx (v_hold b h) v)) -> fwp (bread t_dev b) Q v.
Proof.
  intros Hb Hsp H s Hs. destruct (t_bread_law (fx s) (fx v) b) as (h & x & E & R); [apply Hs|done|by eapply tx_space_room|].
  exists h, (set_fx x s), (tx (v_hold b h) v). split; [by apply ontx_Done|]. split; [by apply fs_rep_tx|apply H].
Qed.

Lemma fwp_bdata b h (Q : block -> fsys txv -> Prop) v : held v b = Some h -> Q (blk v b) v -> fwp (bdata h) Q v.
Proof.
  intros Hb H s Hs. exists (blk v b), s, v. split; [|done]. unfold bdata.
  rewrite (ontx_Done (t_data h) s (blk v b) (fx s)); [by destruct s|]. apply t_data_law; [apply Hs|done].
Qed.

Lemma fwp_bmodify b h f (Q : unit -> fsys txv -> Prop) v :
  held v b = Some h -> Q tt (tx (v_put b (f (blk v b))) v) -> fwp (bmodify h f) Q v.
Proof.
  intros Hb H s Hs. destruct (t_modify_law (fx s) (fx v) b h f) as (x & E & R); [apply Hs|done|].
  exists tt, (set_fx x s), (tx (v_put b (f (blk v b))) v). split; [by apply ontx_Done|]. split; [by apply fs_rep_tx|apply H].
Qed.

Lemma fwp_log_write b h (Q : unit -> fsys txv -> Prop) v :
  held v b = Some h -> Z.of_nat (size (v_logged (fx v))) < t_limit -> Q tt (tx (v_log b) v) -> fwp (log_write h) Q v.
Proof.
  intros Hb Hl H s Hs. destruct (t_log_write_law (fx s) (fx v) b h) as (x & E & R); [apply Hs|done|done|].
  exists tt, (set_fx x s), (tx (v_log b) v). split; [by apply ontx_Done|]. split; [by apply fs_rep_tx|apply H].
Qed.

Lemma fwp_brelse b h (Q : unit -> fsys txv -> Prop) v :
  held v b = Some h -> b ∉ v_fresh (fx v) -> Q tt (tx (v_drop b) v) -> fwp (brelse h) Q v.
Proof.
  intros Hb Hl H s Hs. destruct (t_brelse_law (fx s) (fx v) b h) as (x & E & R); [apply Hs|done|done|].
  exists tt, (set_fx x s), (tx (v_drop b) v). split; [by apply ontx_Done|]. split; [by apply fs_rep_tx|apply H].
Qed.

(** Changed buffers are held. *)
Lemma fwp_fresh {A} (m : MF A) Q v : (v_fresh (fx v) ⊆ dom (v_held (fx v)) -> fwp m Q v) -> fwp m Q v.
Proof. intros H s Hs. apply H; [|done]. eapply t_fresh_law, Hs. Qed.

(** The shapes in which the code uses a buffer: look at it and release it, or
    change it, log the change and release it. *)
Lemma fwp_open {A} b (k : nat -> MF A) (Q : A -> fsys txv -> Prop) v :
  held v b = None -> space 1 v ->
  (forall h, b ∉ v_fresh (fx v) -> fwp (k h) Q (tx (v_hold b h) v)) ->
  fwp (bp <- bread t_dev b ;; k bp) Q v.
Proof.
  intros Hb Hsp H. apply fwp_fresh. intros Hf. apply fwp_bind, fwp_bread; [done|done|].
  intros h. apply H. intros Hin%Hf%elem_of_dom. unfold held in Hb. rewrite Hb in Hin. by destruct Hin.
Qed.

Lemma fwp_look {A} b h (k : block -> MF A) (Q : A -> fsys txv -> Prop) v :
  fwp (k (blk v b)) Q (tx (v_hold b h) v) -> fwp (d <- bdata h ;; k d) Q (tx (v_hold b h) v).
Proof. intros H. apply fwp_bind. apply (fwp_bdata b); [cbn; apply lookup_insert_eq|]. exact H. Qed.

Lemma fwp_close b h (Q : unit -> fsys txv -> Prop) v :
  held v b = None -> b ∉ v_fresh (fx v) -> Q tt v -> fwp (brelse h) Q (tx (v_hold b h) v).
Proof.
  intros Hb Hf H. apply (fwp_brelse b); [cbn; apply lookup_insert_eq|done|].
  unfold tx at 1. cbn [fx tx set_fx]. unfold tx. cbn [fx set_fx]. rewrite v_drop_hold by done. by destruct v.
Qed.

Lemma fwp_commit b h f (Q : unit -> fsys txv -> Prop) v :
  held v b = None -> b ∉ v_fresh (fx v) -> space 1 v -> Q tt (tx (v_write b (f (blk v b))) v) ->
  fwp (bmodify h f ;;; log_write h ;;; brelse h) Q (tx (v_hold b h) v).
Proof.
  intros Hb Hf Hsp H. apply fwp_bind, (fwp_bmodify b); [cbn; apply lookup_insert_eq|].
  apply fwp_bind, (fwp_log_write b); [cbn; apply lookup_insert_eq|cbn; destruct Hsp; lia|].
  apply (fwp_brelse b); [cbn; apply lookup_insert_eq|cbn; set_solver|].
  match goal with |- Q _ ?w => replace w with (tx (v_write b (f (blk v b))) v); [done|] end.
  unfold tx. cbn [fx set_fx]. by rewrite <- (v_write_done b _ h (fx v)).
Qed.

(** The same for runs that end in a panic. *)
Lemma fpanics_open {A} b (k : nat -> MF A) msg v :
  held v b = None -> space 1 v ->
  (forall h, b ∉ v_fresh (fx v) -> panics fs_rep (k h) msg (tx (v_hold b h) v)) ->
  panics fs_rep (bp <- bread t_dev b ;; k bp) msg v.
Proof.
  intros Hb Hsp H s Hs. assert (v_fresh (fx v) ⊆ dom (v_held (fx v))) as Hf by (eapply t_fresh_law, Hs).
  assert (b ∉ v_fresh (fx v)) as Hnf.
  { intros Hin%Hf%elem_of_dom. unfold held in Hb. rewrite Hb in Hin. by destruct Hin. }
  revert s Hs. apply panics_bind, fwp_bread; [done|done|]. intros h. by apply H.
Qed.

(** Regrouping, to apply a rule to a prefix of a sequence. *)
Lemma fwp_tail {A B C} (m : MF A) (k : A -> MF B) (r : B -> MF C) Q v :
  fwp (bind m k) (fun b => fwp (r b) Q) v -> fwp (bind m (fun a => bind (k a) r)) Q v.
Proof.
  intros H s Hs. destruct (H s Hs) as (b & s' & v' & E & R & HQ). destruct (HQ s' R) as (c & s2 & v2 & E2 & R2 & HQ2).
  exists c, s2, v2. split; [|done]. apply bind_inv in E as (a & t1 & E1 & E). by rewrite (bind_Done _ _ _ _ _ E1), (bind_Done _ _ _ _ _ E).
Qed.

Lemma fwp_seq3 {A} (m1 m2 m3 : MF unit) (k : MF A) Q v :
  fwp (m1 ;;; m2 ;;; m3) (fun _ => fwp k Q) v -> fwp (m1 ;;; m2 ;;; m3 ;;; k) Q v.
Proof.
  intros H s Hs. destruct (H s Hs) as ([] & s' & v' & E & R & HQ). destruct (HQ s' R) as (a & s2 & v2 & E2 & R2 & HQ2).
  exists a, s2, v2. split; [|done]. apply bind_inv in E as ([] & t1 & E1 & E). apply bind_inv in E as ([] & t2 & E3 & E).
  by rewrite (bind_Done _ _ _ _ _ E1), (bind_Done _ _ _ _ _ E3), (bind_Done _ _ _ _ _ E).
Qed.

End Fs.

(** [fsinit]: read and check the super block, then recover the log. *)
Definition fsinit {S : Type} `{BL : BlockLayer S} (dev : Z) : M (fsys (@lstate S)) unit :=
  readsb dev ;;;
  sb <- the_sb ;;
  if negb (sb_magic sb =? FSMAGIC) then panic "invalid file system" else
  ontx (initlog dev (sb_logstart sb) (sb_nlog sb)).

(** ** Laws of the accessors *)

Lemma space_write `{TX : TxLayer X} n b d v : space n v -> 1 <= n -> space (n - 1) (tx (v_write b d) v).
Proof. intros H Hn. unfold space, tx. cbn. apply tx_space_write. by replace (n - 1 + 1) with n by lia. Qed.

Lemma space_mono `{TX : TxLayer X} n m v : m <= n -> space n v -> space m v.
Proof. unfold space. apply tx_space_mono. Qed.

Lemma space_again `{TX : TxLayer X} n b d v : b ∈ v_logged (fx v) -> space n v -> space n (tx (v_write b d) v).
Proof. unfold space, tx. cbn. apply tx_space_again. Qed.
