(* ===== verification/FsBlocks.v ===== *)
(** * The block allocator of the file system: balloc, bfree, bzero of kernel/fs.c *)

From S2P Require Import Prelude CMem Riscv Sleeplock BlockLayer Log Tx Fs.

(** ** Bits of a bitmap block *)

Lemma byte_at_range d i : 0 <= byte_at d i < 256.
Proof. unfold byte_at. pose proof (byte.unsigned_range (nth (Z.to_nat i) d Byte.x00)). lia. Qed.

Lemma land_bit x k : 0 <= k -> (Z.land x (Z.shiftl 1 k) =? 0) = negb (Z.testbit x k).
Proof.
  intros Hk. destruct (Z.testbit x k) eqn:E; cbn.
  - apply Z.eqb_neq. intros H. apply (f_equal (fun z => Z.testbit z k)) in H.
    rewrite Z.land_spec, E, Z.shiftl_spec, Z.sub_diag, Z.bits_0 in H by lia. done.
  - apply Z.eqb_eq, Z.bits_inj'. intros j Hj. rewrite Z.land_spec, Z.shiftl_spec, Z.bits_0 by lia.
    destruct (decide (j = k)) as [->|Hne]; [by rewrite E|].
    destruct (decide (j < k)); [rewrite (Z.testbit_neg_r 1) by lia; apply andb_false_r|].
    rewrite (Z.bits_above_log2 1 (j - k)) by (cbn; lia). apply andb_false_r.
Qed.

Lemma bit_clear_testbit d bi : bit_clear d bi = negb (Z.testbit (byte_at d (bi / 8)) (bi mod 8)).
Proof. apply land_bit. apply Z.mod_pos_bound. lia. Qed.

Lemma mask_testbit bi j : 0 <= j -> Z.testbit (bit_mask bi) j = (j =? bi mod 8).
Proof.
  intros Hj. unfold bit_mask. pose proof (Z.mod_pos_bound bi 8 ltac:(lia)). rewrite Z.shiftl_spec by lia.
  destruct (Z.eqb_spec j (bi mod 8)) as [->|Hne]; [by rewrite Z.sub_diag|].
  destruct (decide (j < bi mod 8)); [by apply Z.testbit_neg_r; lia|]. apply Z.bits_above_log2; cbn; lia.
Qed.

Definition in_block (d : block) (i : Z) : Prop := 0 <= i < Z.of_nat (length d).

Lemma byte_at_put i v d j : in_block d i -> 0 <= j ->
  byte_at (put_byte i v d) j = if j =? i then u8 v else byte_at d j.
Proof.
  intros [H0 H1] Hj. unfold byte_at, put_byte. rewrite !nth_lookup. destruct (Z.eqb_spec j i) as [->|Hne].
  - rewrite (list_lookup_insert_eq (A := Init.Byte.byte) d) by lia. cbn. apply byte.unsigned_of_Z.
  - rewrite (list_lookup_insert_ne (A := Init.Byte.byte) d) by lia. done.
Qed.

Lemma length_put_byte i v d : length (put_byte i v d) = length d.
Proof. apply length_insert. Qed.

Lemma set_bit_clear d bi bj : in_block d (bi / 8) -> 0 <= bj ->
  bit_clear (set_bit bi d) bj = bit_clear d bj && negb (bj =? bi).
Proof.
  intros Hin Hj. rewrite !bit_clear_testbit. unfold set_bit.
  rewrite byte_at_put by (try done; apply Z.div_pos; lia).
  pose proof (Z.mod_pos_bound bj 8 ltac:(lia)) as Hm. destruct (Z.eqb_spec (bj / 8) (bi / 8)) as [E|E].
  - unfold u8. rewrite Z.mod_pow2_bits_low by lia. rewrite Z.lor_spec, mask_testbit, E by lia.
    replace (bj =? bi) with (bj mod 8 =? bi mod 8) by (zcmp; divlia). by rewrite negb_orb.
  - replace (bj =? bi) with false; [by rewrite andb_true_r|]. symmetry. apply Z.eqb_neq. congruence.
Qed.

Lemma byte_eq (a b : byte) : byte.unsigned a = byte.unsigned b -> a = b.
Proof. intros H. by rewrite <- (byte.of_Z_unsigned a), H, byte.of_Z_unsigned. Qed.

Lemma clear_set_id d bi : in_block d (bi / 8) -> bit_clear d bi = true -> clear_bit bi (set_bit bi d) = d.
Proof.
  intros Hin Hc. pose proof Hin as [H0 H1]. unfold clear_bit, set_bit. rewrite byte_at_put by done. rewrite Z.eqb_refl.
  unfold put_byte. rewrite (list_insert_insert_eq (A := Init.Byte.byte) d). apply (list_insert_id (A := Init.Byte.byte) d).
  destruct (lookup_lt_is_Some_2 d (Z.to_nat (bi / 8))) as [c Ec]; [lia|]. rewrite Ec. f_equal. apply byte_eq.
  assert (byte_at d (bi / 8) = byte.unsigned c) as Eb by (unfold byte_at; by rewrite nth_lookup, Ec).
  rewrite byte.unsigned_of_Z. unfold byte.wrap. rewrite <- Eb. pose proof (byte_at_range d (bi / 8)) as Hr.
  rewrite <- (Z.mod_small (byte_at d (bi / 8)) (2 ^ 8)) at 1 by lia.
  rewrite bit_clear_testbit in Hc. apply negb_true_iff in Hc.
  apply Z.bits_inj'. intros j Hj. destruct (decide (j < 8)).
  - unfold u8. rewrite !Z.mod_pow2_bits_low by lia.
    rewrite Z.land_spec, Z.lnot_spec, mask_testbit, Z.mod_pow2_bits_low, Z.lor_spec, mask_testbit by lia.
    destruct (Z.eqb_spec j (bi mod 8)) as [->|]; [by rewrite Hc|]. by rewrite andb_true_r, orb_false_r.
  - by rewrite !Z.mod_pow2_bits_high by lia.
Qed.

(** ** Zeroed blocks *)

Lemma nth_zero_block k : nth k zero_block Byte.x00 = Byte.x00.
Proof. rewrite nth_lookup. unfold zero_block. destruct (replicate _ _ !! k) eqn:E; [|done]. by apply lookup_replicate in E as [-> _]. Qed.

Lemma getf_zero_block k off : getf k zero_block off = 0.
Proof.
  unfold getf, zero_block. rewrite drop_replicate, take_replicate. generalize (Nat.min k (Z.to_nat BSIZE - Z.to_nat off)). intros n.
  induction n as [|n IH]; [done|]. change (le_combine (replicate (S n) Byte.x00)) with (Z.lor (byte.unsigned Byte.x00) (Z.shiftl (le_combine (replicate n Byte.x00)) 8)).
  by rewrite IH.
Qed.

(** ** The allocator *)

(** Whether the bitmap says that block [b] is free. *)
Definition blk_free (v : fsys txv) (b : Z) : bool := bit_clear (blk v (BBLOCK b (f_sb v))) (b mod BPB).

Lemma scan_bits_spec d b size left : forall bi,
  match scan_bits d b size bi left with
  | Some r => bi <= r < bi + Z.of_nat left /\ b + r < size /\ bit_clear d r = true /\
              forall r', bi <= r' < r -> bit_clear d r' = false
  | None => forall r', bi <= r' < bi + Z.of_nat left -> b + r' < size -> bit_clear d r' = false
  end.
Proof.
  induction left as [|left IH]; intros bi; cbn [scan_bits]; [intros; lia|].
  destruct (Z.ltb_spec (b + bi) size) as [Hlt|Hge]; [|intros; lia].
  destruct (bit_clear d bi) eqn:E; [split_and!; try done; lia|].
  specialize (IH (bi + 1)). destruct (scan_bits d b size (bi + 1) left) as [r|].
  - destruct IH as (H1 & H2 & H3 & H4). split_and!; try done; [lia|lia|].
    intros r' Hr'. destruct (decide (r' = bi)) as [->|]; [done|]. apply H4. lia.
  - intros r' Hr' Hs. destruct (decide (r' = bi)) as [->|]; [done|]. apply IH; lia.
Qed.

Section Alloc.

Context {X : Type} `{TX : TxLayer X}.

(** What an allocation of [b] does to the blocks. *)
Definition allocated (b : Z) (v : fsys txv) : fsys txv :=
  tx (v_write b zero_block) (tx (v_write (BBLOCK b (f_sb v)) (set_bit (b mod BPB) (blk v (BBLOCK b (f_sb v))))) v).

Definition first_free (v : fsys txv) (b : Z) : Prop :=
  0 <= b < sb_size (f_sb v) /\ blk_free v b = true /\ forall b', 0 <= b' < b -> blk_free v b' = false.

(** The bitmap blocks, and the blocks it calls free, are not held by the
    caller. *)
Definition alloc_ready (v : fsys txv) : Prop :=
  (forall b, 0 <= b < sb_size (f_sb v) -> held v (BBLOCK b (f_sb v)) = None) /\
  (forall b, 0 <= b < sb_size (f_sb v) -> blk_free v b = true -> held v b = None).

Lemma fwp_bzero (b : Z) (Q : unit -> fsys txv -> Prop) v :
  held v b = None -> space 1 v -> Q tt (tx (v_write b zero_block) v) -> fwp (bzero t_dev b) Q v.
Proof.
  intros Hb Hsp H. unfold bzero. apply fwp_open; [done|done|]. intros h Hf. by apply fwp_commit.
Qed.

Lemma bitmap_index k r sb : 0 <= r < BPB -> BBLOCK (k * BPB + r) sb = BBLOCK (k * BPB) sb /\ (k * BPB + r) mod BPB = r.
Proof. intros Hr. unfold BBLOCK. change BPB with 8192 in *. split; [f_equal; f_equal|]; divlia. Qed.

Lemma fwp_balloc_loop v left : forall k,
  space 2 v -> alloc_ready v -> 0 <= k ->
  (forall b, 0 <= b < k * BPB -> b < sb_size (f_sb v) -> blk_free v b = false) ->
  (exists b, k * BPB <= b < k * BPB + Z.of_nat left * BPB /\ b < sb_size (f_sb v) /\ blk_free v b = true) ->
  fwp (balloc_loop t_dev (k * BPB) left) (fun r v' => first_free v r /\ v' = allocated r v) v.
Proof.
  induction left as [|left IH]; intros k Hsp Hr Hk Hbefore (c & Hc & Hcs & Hcf); [lia|]. cbn [balloc_loop].
  apply fwp_bind, fwp_sb. pose proof Hr as [Hbm Hfree]. assert (held v (BBLOCK (k * BPB) (f_sb v)) = None) as Hh.
  { apply Hbm. assert (0 <= k * BPB) by (apply Z.mul_nonneg_nonneg; unfold BPB, BSIZE; lia). lia. }
  apply fwp_open; [done|by eapply space_mono; [|exact Hsp]|]. intros h Hfr. apply fwp_look.
  pose proof (scan_bits_spec (blk v (BBLOCK (k * BPB) (f_sb v))) (k * BPB) (sb_size (f_sb v)) (Z.to_nat BPB) 0) as Hscan.
  change (Z.of_nat (Z.to_nat BPB)) with BPB in Hscan.
  destruct (scan_bits _ _ _ 0 _) as [bi|].
  - destruct Hscan as (Hbi & Hs & Hclear & Hfirst). destruct (bitmap_index k bi (f_sb v) Hbi) as [Eb Em].
    assert (blk_free v (k * BPB + bi) = true) as Hfr2 by (unfold blk_free; by rewrite Eb, Em).
    assert (0 <= k * BPB) by (apply Z.mul_nonneg_nonneg; unfold BPB, BSIZE; lia).
    apply fwp_seq3, fwp_commit; [done|done|by eapply space_mono; [|exact Hsp]|].
    apply fwp_bind, fwp_bzero.
    + apply Hfree; [lia|done].
    + apply (space_write 2); [done|lia].
    + apply fwp_ret. split; [|unfold allocated; by rewrite Eb, Em]. split_and!; try done; try lia.
      intros b' Hb'. destruct (decide (b' < k * BPB)); [apply Hbefore; lia|].
      destruct (bitmap_index k (b' - k * BPB) (f_sb v)) as [Eb' Em']; [lia|].
      replace (k * BPB + (b' - k * BPB)) with b' in Eb', Em' by lia. unfold blk_free. rewrite Eb', Em'. apply Hfirst. lia.
  - apply fwp_bind, fwp_close; [done|done|]. replace (k * BPB + BPB) with ((k + 1) * BPB) by lia.
    assert (forall b, k * BPB <= b < (k + 1) * BPB -> b < sb_size (f_sb v) -> blk_free v b = false) as Hnone.
    { intros b Hb Hbs. destruct (bitmap_index k (b - k * BPB) (f_sb v)) as [Eb' Em']; [lia|].
      replace (k * BPB + (b - k * BPB)) with b in Eb', Em' by lia. unfold blk_free. rewrite Eb', Em'. apply Hscan; lia. }
    apply IH; [done|done|lia| |].
    + intros b Hb Hbs. destruct (decide (b < k * BPB)); [apply Hbefore; lia|apply Hnone; lia].
    + exists c. split; [|done]. destruct (decide (c < (k + 1) * BPB)); [|lia].
      rewrite Hnone in Hcf by lia. done.
Qed.

Lemma fwp_balloc v :
  space 2 v -> alloc_ready v -> (exists b, 0 <= b < sb_size (f_sb v) /\ blk_free v b = true) ->
  fwp (balloc t_dev) (fun r v' => first_free v r /\ v' = allocated r v) v.
Proof.
  intros Hsp Hr (c & Hc & Hcf). unfold balloc. apply fwp_bind, fwp_sb.
  apply (fwp_balloc_loop v _ 0); [done|done|lia|intros; lia|].
  exists c. split; [|split; [lia|done]]. rewrite Z2Nat.id by (apply Z.div_pos; unfold BPB, BSIZE; lia).
  change BPB with 8192. divlia.
Qed.

Lemma fwp_bfree v b (Q : unit -> fsys txv -> Prop) :
  space 1 v -> held v (BBLOCK b (f_sb v)) = None -> blk_free v b = false ->
  Q tt (tx (v_write (BBLOCK b (f_sb v)) (clear_bit (b mod BPB) (blk v (BBLOCK b (f_sb v))))) v) ->
  fwp (bfree t_dev b) Q v.
Proof.
  intros Hsp Hh Hf HQ. unfold bfree. apply fwp_bind, fwp_sb. apply fwp_open; [done|done|]. intros h Hfr.
  apply fwp_look. unfold blk_free in Hf. rewrite Hf. by apply fwp_commit.
Qed.

Lemma balloc_loop_full v left : forall k,
  space 1 v -> alloc_ready v -> 0 <= k -> (k + Z.of_nat left - 1) * BPB < sb_size (f_sb v) ->
  (forall b, 0 <= b < sb_size (f_sb v) -> blk_free v b = false) ->
  panics fs_rep (balloc_loop t_dev (k * BPB) left) "balloc: out of blocks" v.
Proof.
  induction left as [|left IH]; intros k Hsp Hr Hk Hend Hfull; cbn [balloc_loop]; [by apply panics_bind, fwp_sb|].
  apply panics_bind, fwp_sb. assert (0 <= k * BPB < sb_size (f_sb v)) as Hb.
  { split; [apply Z.mul_nonneg_nonneg; unfold BPB, BSIZE; lia|]. unfold BPB, BSIZE in *. nia. }
  assert (held v (BBLOCK (k * BPB) (f_sb v)) = None) as Hh by (apply (proj1 Hr); exact Hb).
  apply fpanics_open; [done|done|]. intros h Hfr.
  apply panics_bind. apply (fwp_bdata (BBLOCK (k * BPB) (f_sb v))); [cbn; apply lookup_insert_eq|].
  pose proof (scan_bits_spec (blk v (BBLOCK (k * BPB) (f_sb v))) (k * BPB) (sb_size (f_sb v)) (Z.to_nat BPB) 0) as Hscan.
  change (Z.of_nat (Z.to_nat BPB)) with BPB in Hscan.
  change (blk (tx (v_hold (BBLOCK (k * BPB) (f_sb v)) h) v) (BBLOCK (k * BPB) (f_sb v))) with (blk v (BBLOCK (k * BPB) (f_sb v))).
  destruct (scan_bits _ _ _ 0 _) as [bi|].
  - destruct Hscan as (Hbi & Hs & Hclear & _). destruct (bitmap_index k bi (f_sb v) Hbi) as [Eb Em].
    specialize (Hfull (k * BPB + bi) ltac:(lia)). unfold blk_free in Hfull. rewrite Eb, Em, Hclear in Hfull. done.
  - apply panics_bind, fwp_close; [done|done|]. replace (k * BPB + BPB) with ((k + 1) * BPB) by lia.
    apply IH; [done|done|lia| |done]. replace (k + 1 + Z.of_nat left - 1) with (k + Z.of_nat (S left) - 1) by lia. done.
Qed.

Lemma bfree_free_panics v b :
  space 1 v -> held v (BBLOCK b (f_sb v)) = None -> blk_free v b = true ->
  panics fs_rep (bfree t_dev b) "freeing free block" v.
Proof.
  intros Hsp Hh Hf. unfold bfree. apply panics_bind, fwp_sb. apply fpanics_open; [done|done|]. intros h Hfr.
  apply panics_bind. apply (fwp_bdata (BBLOCK b (f_sb v))); [cbn; apply lookup_insert_eq|].
  unfold blk_free in Hf. change (blk (tx _ v) (BBLOCK b (f_sb v))) with (blk v (BBLOCK b (f_sb v))). by rewrite Hf.
Qed.

(** The bitmap blocks are whole blocks and are themselves marked as used. *)
Definition bitmap_ok (v : fsys txv) : Prop :=
  forall b, 0 <= b < sb_size (f_sb v) ->
    Z.of_nat (length (blk v (BBLOCK b (f_sb v)))) = BSIZE /\
    0 <= BBLOCK b (f_sb v) < sb_size (f_sb v) /\ blk_free v (BBLOCK b (f_sb v)) = false.

Lemma in_bitmap v b : bitmap_ok v -> 0 <= b < sb_size (f_sb v) -> in_block (blk v (BBLOCK b (f_sb v))) (b mod BPB / 8).
Proof.
  intros H Hb. destruct (H b Hb) as [Hl _]. unfold in_block. rewrite Hl. unfold BPB, BSIZE. divlia.
Qed.

Lemma allocated_bits v r b : bitmap_ok v -> blk_free v r = true -> 0 <= r < sb_size (f_sb v) -> 0 <= b < sb_size (f_sb v) ->
  sb_size (f_sb v) <= 2 ^ 31 ->
  blk_free (allocated r v) b = blk_free v b && negb (b =? r).
Proof.
  intros Hbm Hf Hr Hb Hsz. unfold blk_free, allocated, blk. cbn [tx set_fx fx v_write v_blocks f_sb].
  assert (BBLOCK b (f_sb v) <> r) as Hne.
  { intros E. destruct (Hbm b Hb) as (_ & _ & Hu). rewrite E in Hu. congruence. }
  rewrite fset_ne by done. destruct (decide (BBLOCK b (f_sb v) = BBLOCK r (f_sb v))) as [E|E].
  - rewrite E, fset_eq. rewrite set_bit_clear; [|by apply in_bitmap|apply Z.mod_pos_bound; unfold BPB, BSIZE; lia].
    f_equal. f_equal. unfold BBLOCK, u32 in E. change (2 ^ 32) with 4294967296 in E. change BPB with 8192 in *.
    clear -E Hr Hb Hsz. change (2 ^ 31) with 2147483648 in Hsz. zcmp; divlia.
  - rewrite fset_ne by done. replace (b =? r) with false; [by rewrite andb_true_r|]. symmetry. apply Z.eqb_neq. congruence.
Qed.

(** Block allocation.  When the bitmap has a free block, [balloc] returns
    the first one, with its contents zeroed and logged; the bitmap then marks
    exactly that block as used in addition.  When it has none, [balloc]
    panics.  Freeing the block again gives the bitmap back as it was, and
    freeing it twice panics. *)
Theorem balloc_bfree_correct (s : fsys X) (v : fsys txv)
  (Hs : fs_rep s v) (Hsp : space 3 v) (Hr : alloc_ready v) (Hbm : bitmap_ok v)
  (Hsz : 0 <= sb_size (f_sb v) <= 2 ^ 31) :
  ((exists b, 0 <= b < sb_size (f_sb v) /\ blk_free v b = true) ->
   exists r s1 s2 v2,
     balloc t_dev s = Done r s1 /\ fs_rep s1 (allocated r v) /\ first_free v r /\
     blk (allocated r v) r = zero_block /\
     (forall b, 0 <= b < sb_size (f_sb v) -> blk_free (allocated r v) b = blk_free v b && negb (b =? r)) /\
     bfree t_dev r s1 = Done tt s2 /\ fs_rep s2 v2 /\
     (forall b, b <> r -> blk v2 b = blk v b) /\
     bfree t_dev r s2 = Panicked "freeing free block") /\
  ((forall b, 0 <= b < sb_size (f_sb v) -> blk_free v b = false) ->
   balloc t_dev s = Panicked "balloc: out of blocks").
Proof.
  split.
  - intros Hex. destruct (fwp_balloc v ltac:(by eapply space_mono; [|exact Hsp]) Hr Hex s Hs) as (r & s1 & v1 & E1 & R1 & Hfirst & ->).
    pose proof Hfirst as (Hrr & Hrf & _). set (bb := BBLOCK r (f_sb v)).
    assert (bb <> r) as Hne by (intros Eb; destruct (Hbm r Hrr) as (_ & _ & Hu); fold bb in Hu; rewrite Eb in Hu; congruence).
    assert (held v bb = None) as Hh by (by apply (proj1 Hr)).
    assert (blk (allocated r v) bb = set_bit (r mod BPB) (blk v bb)) as Ebb.
    { unfold allocated, blk. cbn. rewrite fset_ne by done. apply fset_eq. }
    assert (space 1 (allocated r v)) as Hsp1 by (apply (space_write 2); [apply (space_write 3); [done|lia]|lia]).
    assert (blk_free (allocated r v) r = false) as Hused.
    { rewrite allocated_bits by (try done; lia). by rewrite Z.eqb_refl, andb_false_r. }
    set (v2 := tx (v_write bb (blk v bb)) (allocated r v)).
    assert (fwp (bfree t_dev r) (fun _ v' => v' = v2) (allocated r v)) as Hfree.
    { apply fwp_bfree; [done|done|done|]. change (f_sb (allocated r v)) with (f_sb v). fold bb.
      rewrite Ebb, clear_set_id; [done|by apply in_bitmap|exact Hrf]. }
    destruct (Hfree s1 R1) as ([] & s2 & ? & E2 & R2 & ->).
    assert (forall b, b <> r -> blk v2 b = blk v b) as Hback.
    { intros b Hb. unfold v2, allocated, blk. cbn. fold bb. destruct (decide (b = bb)) as [->|Hbb]; [apply fset_eq|].
      by rewrite !fset_ne by done. }
    exists r, s1, s2, v2. split_and!; try done.
    + unfold allocated, blk. cbn. apply fset_eq.
    + intros b Hb. apply allocated_bits; try done; lia.
    + apply (bfree_free_panics v2 r); [|done| |done].
      * apply space_again; [cbn; set_solver|done].
      * unfold blk_free. change (f_sb v2) with (f_sb v). fold bb. rewrite Hback by done. exact Hrf.
  - intros Hfull. assert (panics fs_rep (balloc t_dev) "balloc: out of blocks" v) as Hp; [|by apply Hp].
    unfold balloc. apply panics_bind, fwp_sb.
    apply (balloc_loop_full v _ 0); [by eapply space_mono; [|exact Hsp]|done|lia| |done].
    change BPB with 8192. destruct (decide (sb_size (f_sb v) = 0)) as [->|]; [by vm_compute|].
    rewrite Z2Nat.id by divlia. divlia.
Qed.

End Alloc.
