(* ===== verification/FsInode.v ===== *)
(** * Inodes: the on-disk codec, iupdate, ilock, the inode cache *)

From Stdlib Require Import FunctionalExtensionality.
From S2P Require Import Prelude CMem Riscv Sleeplock BlockLayer Log Tx Fs FsBlocks.

(** ** Fields of a block *)

Lemma slice_splice_same off (l : list byte) (d : block) :
  (off + length l <= length d)%nat -> take (length l) (drop off (list_inserts off l d)) = l.
Proof.
  intros H. apply list_eq. intros i. destruct (decide (i < length l)%nat) as [Hi|Hi].
  - rewrite lookup_take_lt, lookup_drop by done. rewrite list_lookup_inserts by lia. f_equal. lia.
  - rewrite lookup_take_ge by lia. symmetry. apply lookup_ge_None. lia.
Qed.

Lemma slice_splice_other off off' k (l : list byte) (d : block) :
  (off + length l <= off' \/ off' + k <= off)%nat -> take k (drop off' (list_inserts off l d)) = take k (drop off' d).
Proof.
  intros H. apply list_eq. intros i. destruct (decide (i < k)%nat) as [Hi|Hi]; [|by rewrite !lookup_take_ge by lia].
  rewrite !lookup_take_lt, !lookup_drop by done.
  destruct H; [apply list_lookup_inserts_ge; lia|apply list_lookup_inserts_lt; lia].
Qed.

Lemma getf_putf_same k d off v : 0 <= off -> off + Z.of_nat k <= Z.of_nat (length d) ->
  getf k (putf k d off v) off = v mod 2 ^ (8 * Z.of_nat k).
Proof.
  intros H0 H. unfold getf, putf. pose proof (length_le_split k v) as Hl.
  rewrite <- Hl at 1. rewrite slice_splice_same by lia. rewrite le_combine_split. f_equal; f_equal; lia.
Qed.

Lemma getf_putf_other k k' d off off' v : 0 <= off -> 0 <= off' -> off + Z.of_nat k <= off' \/ off' + Z.of_nat k' <= off ->
  getf k' (putf k d off v) off' = getf k' d off'.
Proof.
  intros H0 H1 H. unfold getf, putf. rewrite slice_splice_other; [done|]. rewrite length_le_split. lia.
Qed.

Lemma length_putf k d off v : length (putf k d off v) = length d.
Proof. apply length_inserts. Qed.

Lemma getf_range k d off : 0 <= getf k d off < 2 ^ (8 * Z.of_nat k).
Proof.
  unfold getf. pose proof (le_combine_bound (take k (drop (Z.to_nat off) d))) as H. split; [apply H|].
  eapply Z.lt_le_trans; [apply H|]. apply Z.pow_le_mono_r; [lia|]. rewrite length_take. lia.
Qed.

Lemma length_put_addrs l : forall d off, length (put_addrs d off l) = length d.
Proof. induction l as [|a l IH]; intros d off; cbn [put_addrs]; [done|]. by rewrite IH, length_putf. Qed.

Lemma put_addrs_other l : forall d off k off', 0 <= off -> 0 <= off' ->
  off + 4 * Z.of_nat (length l) <= off' \/ off' + Z.of_nat k <= off -> getf k (put_addrs d off l) off' = getf k d off'.
Proof.
  induction l as [|a l IH]; intros d off k off' H0 H1 H; cbn [put_addrs]; [done|]. cbn [length] in H.
  rewrite IH by lia. apply getf_putf_other; lia.
Qed.

Lemma put_addrs_same l : forall d off j, 0 <= off -> off + 4 * Z.of_nat (length l) <= Z.of_nat (length d) ->
  (j < length l)%nat -> getf 4 (put_addrs d off l) (off + 4 * Z.of_nat j) = u32 (nth j l 0).
Proof.
  induction l as [|a l IH]; intros d off j H0 H1 Hj; cbn [put_addrs length] in *; [lia|]. destruct j as [|j]; cbn [nth].
  - rewrite put_addrs_other by lia. rewrite Z.mul_0_r, Z.add_0_r. apply getf_putf_same; cbn; lia.
  - replace (off + 4 * Z.of_nat (S j)) with (off + 4 + 4 * Z.of_nat j) by lia. apply IH; rewrite ?length_putf; lia.
Qed.

Definition short_ok (z : Z) : Prop := - 2 ^ 15 <= z < 2 ^ 15.

(** The C types of the fields. *)
Record dinode_ok (i : dinode) : Prop := {
  dk_type : short_ok (di_type i);
  dk_major : short_ok (di_major i);
  dk_minor : short_ok (di_minor i);
  dk_nlink : short_ok (di_nlink i);
  dk_size : 0 <= di_size i < 2 ^ 32;
  dk_addrs : Z.of_nat (length (di_addrs i)) = NDIRECT + 1;
  dk_addr : Forall (fun a => 0 <= a < 2 ^ 32) (di_addrs i);
}.

Lemma dinode_ok_addr k a d : dinode_ok d -> 0 <= a < 2 ^ 32 -> dinode_ok (with_addr k a d).
Proof.
  intros [H1 H2 H3 H4 H5 H6 H7] Ha. split; cbn; try done; [by rewrite length_insert|]. by apply Forall_insert.
Qed.

Lemma s16_short z : short_ok (s16 z).
Proof. unfold short_ok, s16. change (2 ^ 15) with 32768. change (2 ^ 16) with 65536. divlia. Qed.

(** What is read fits the types. *)
Lemma read_dinode_ok d off : dinode_ok (read_dinode d off).
Proof.
  split; cbn [read_dinode di_type di_major di_minor di_nlink di_size di_addrs]; try apply s16_short.
  - apply (getf_range 4).
  - rewrite length_map, length_seqZ. done.
  - apply Forall_forall. intros a (k & -> & _)%list_elem_of_fmap. apply (getf_range 4).
Qed.

Lemma s16_wrap z : short_ok z -> s16 (z mod 2 ^ 16) = z.
Proof. unfold short_ok, s16. change (2 ^ 15) with 32768. change (2 ^ 16) with 65536. intros H. divlia. Qed.

Lemma getf2_putf d off off' v : 0 <= off -> 0 <= off' -> off + 2 <= off' \/ off' + 2 <= off ->
  getf 2 (putf 2 d off v) off' = getf 2 d off'.
Proof. intros. apply getf_putf_other; cbn; lia. Qed.

(** Step over the stores of [write_dinode] that a read does not see. *)
Ltac skip_stores :=
  repeat match goal with
  | |- context [getf ?k (put_addrs ?d ?o ?l) ?o'] => rewrite (put_addrs_other l d o k o') by (cbn; lia)
  | |- context [getf ?k (putf ?k' ?d ?o ?v) ?o'] => rewrite (getf_putf_other k' k d o o' v) by (cbn; lia)
  end.

Lemma read_write_dinode d off i : dinode_ok i -> 0 <= off -> off + DINODE_SIZE <= Z.of_nat (length d) ->
  read_dinode (write_dinode d off i) off = i.
Proof.
  intros [H1 H2 H3 H4 H5 H6 H7] H0 Hd. unfold DINODE_SIZE in Hd. destruct i as [ty ma mi nl sz ad]. cbn in *.
  assert (off + 12 + 4 * Z.of_nat (length ad) <= Z.of_nat (length d)) as Hfit by (unfold NDIRECT in H6; lia).
  unfold read_dinode, write_dinode. cbn [di_type di_major di_minor di_nlink di_size di_addrs]. f_equal.
  1-4: skip_stores; rewrite getf_putf_same by (rewrite ?length_putf; cbn; lia); by apply s16_wrap.
  - skip_stores. rewrite getf_putf_same by (rewrite ?length_putf; cbn; lia). apply Z.mod_small. cbn. lia.
  - assert (length ad = 13%nat) as El by (unfold NDIRECT in H6; lia). apply (nth_ext _ _ 0 0).
    + by rewrite length_map, El.
    + intros j Hj. rewrite length_map in Hj. change (length (seqZ 0 (NDIRECT + 1))) with 13%nat in Hj.
      rewrite (nth_indep _ 0 (getf 4 (put_addrs (putf 4 (putf 2 (putf 2 (putf 2 (putf 2 d off ty) (off + 2) ma) (off + 4) mi) (off + 6) nl) (off + 8) sz)
        (off + 12) ad) (off + 12 + 4 * 0))) by (by rewrite length_map).
      rewrite (map_nth (fun k => getf 4 _ (off + 12 + 4 * k))).
      replace (nth j (seqZ 0 (NDIRECT + 1)) 0) with (Z.of_nat j).
      2: { rewrite nth_lookup, lookup_seqZ_lt by (unfold NDIRECT; lia). done. }
      rewrite put_addrs_same by (rewrite ?length_putf; lia). apply u32_small.
      rewrite Forall_forall in H7. apply H7, list_elem_of_In, nth_In. lia.
Qed.

Lemma read_other_dinode d off off' i : Z.of_nat (length (di_addrs i)) = NDIRECT + 1 ->
  0 <= off -> 0 <= off' -> off + DINODE_SIZE <= off' \/ off' + DINODE_SIZE <= off ->
  read_dinode (write_dinode d off i) off' = read_dinode d off'.
Proof.
  unfold DINODE_SIZE, NDIRECT. intros Hl H0 H1 H. unfold read_dinode, write_dinode. cbn zeta. f_equal.
  1-5: skip_stores; reflexivity.
  apply map_ext_in. intros k Hk%list_elem_of_In%elem_of_seqZ. unfold NDIRECT in Hk. skip_stores. reflexivity.
Qed.

(** ** The lock of an inode *)

Lemma fset_id {V} (f : Z -> V) k : fset f k (f k) = f.
Proof. apply functional_extensionality. intros x. by fset_cases. Qed.

Lemma fset_fset {V} (f : Z -> V) k a b : fset (fset f k a) k b = fset f k b.
Proof. apply functional_extensionality. intros x. unfold fset. by case_decide. Qed.

#[local] Instance ilock_lens {X} ip : Lens (@get_ilock X ip) (@put_ilock X ip).
Proof.
  split.
  - intros t s. unfold get_ilock, put_ilock, set_inode. cbn. by rewrite fset_eq.
  - intros [x sb lk ic]. unfold get_ilock, put_ilock, set_inode. cbn. f_equal.
    destruct (ic ip) as [dev inum ref l val d] eqn:E. unfold with_lock. cbn. rewrite <- E. apply fset_id.
  - intros t t' [x sb lk ic]. unfold put_ilock, set_inode. cbn. f_equal. by rewrite fset_eq, fset_fset.
Qed.

Section Inode.

Context {X : Type} `{TX : TxLayer X} (pid : Z).

Definition ilock_free (v : fsys txv) (ip : Z) : Prop :=
  sl_lk (i_lock (inodes v ip)) = false /\ sl_locked (i_lock (inodes v ip)) = false.
Definition ilock_mine (v : fsys txv) (ip : Z) : Prop := i_lock (inodes v ip) = mk_sleeplock false true pid.

Lemma fwp_acquiresleep ip fuel (Q : unit -> fsys txv -> Prop) v :
  ilock_free v ip -> Q tt (put_ilock ip (mk_sleeplock false true pid) v) ->
  fwp (acquiresleep (get_ilock ip) (put_ilock ip) ip pid fuel) Q v.
Proof.
  intros [H1 H2] H s Hs. pose proof Hs as (R & E1 & E2 & E3).
  exists tt, (put_ilock ip (mk_sleeplock false true pid) s), (put_ilock ip (mk_sleeplock false true pid) v).
  split; [apply acquiresleep_free; [apply ilock_lens|unfold get_ilock; by rewrite E3..]|]. split; [|done].
  unfold fs_rep, put_ilock, set_inode. cbn. by rewrite E3.
Qed.

Lemma fwp_releasesleep ip (Q : unit -> fsys txv -> Prop) v :
  sl_lk (i_lock (inodes v ip)) = false -> Q tt (put_ilock ip (mk_sleeplock false false 0) v) ->
  fwp (releasesleep (get_ilock ip) (put_ilock ip) ip) Q v.
Proof.
  intros H1 H s Hs. pose proof Hs as (R & E1 & E2 & E3).
  exists tt, (put_ilock ip (mk_sleeplock false false 0) s), (put_ilock ip (mk_sleeplock false false 0) v).
  split; [apply releasesleep_spec; [apply ilock_lens|unfold get_ilock; by rewrite E3]|]. split; [|done].
  unfold fs_rep, put_ilock, set_inode. cbn. by rewrite E3.
Qed.

Lemma fwp_holdingsleep ip (Q : bool -> fsys txv -> Prop) v :
  sl_lk (i_lock (inodes v ip)) = false ->
  Q (sl_locked (i_lock (inodes v ip)) && (sl_pid (i_lock (inodes v ip)) =? pid)) v ->
  fwp (holdingsleep (get_ilock ip) (put_ilock ip) pid) Q v.
Proof.
  intros H1 H s Hs. pose proof Hs as (R & E1 & E2 & E3). eexists _, s, v. split; [|by split].
  rewrite holdingsleep_spec by (apply ilock_lens || (unfold get_ilock; by rewrite E3)). unfold get_ilock. by rewrite E3.
Qed.

Lemma fwp_iunlock ip (Q : unit -> fsys txv -> Prop) v :
  ilock_mine v ip -> 1 <= i_ref (inodes v ip) -> Q tt (put_ilock ip (mk_sleeplock false false 0) v) ->
  fwp (iunlock pid (Some ip)) Q v.
Proof.
  intros Hm Hr H. unfold iunlock. apply fwp_bind, fwp_holdingsleep; [by rewrite Hm|]. apply fwp_bind, fwp_inode.
  rewrite Hm. cbn [sl_locked sl_pid]. rewrite Z.eqb_refl. destruct (Z.ltb_spec (i_ref (inodes v ip)) 1); [lia|].
  cbn. apply fwp_releasesleep; [by rewrite Hm|done].
Qed.

Definition iblk (v : fsys txv) (i : inode) : Z := IBLOCK (i_inum i) (f_sb v).
Definition ioff (i : inode) : Z := DINODE_SIZE * (i_inum i mod IPB).

Lemma fwp_iupdate ip (Q : unit -> fsys txv -> Prop) v :
  let i := inodes v ip in
  i_dev i = t_dev -> held v (iblk v i) = None -> space 1 v ->
  Q tt (tx (v_write (iblk v i) (write_dinode (blk v (iblk v i)) (ioff i) (i_d i))) v) ->
  fwp (iupdate ip) Q v.
Proof.
  intros i Hd Hh Hsp H. unfold iupdate. apply fwp_bind, fwp_inode. apply fwp_bind, fwp_sb. fold i. rewrite Hd.
  apply fwp_open; [done|done|]. intros h Hf.
  by apply (fwp_commit (iblk v i) h (fun d => write_dinode d (ioff i) (i_d i))).
Qed.

(** The state after locking: the lock is ours and the copy of the on-disk
    inode is valid. *)
Definition ilocked (ip : Z) (v : fsys txv) : fsys txv :=
  let i := inodes v ip in
  set_inode ip (fun _ => mk_inode (i_dev i) (i_inum i) (i_ref i) (mk_sleeplock false true pid) true
    (if i_valid i then i_d i else read_dinode (blk v (iblk v i)) (ioff i))) v.

Lemma set_inode_set {Y} ip f g (v : fsys Y) : set_inode ip f (set_inode ip g v) = set_inode ip (fun i => f (g i)) v.
Proof. unfold set_inode. cbn. f_equal. by rewrite fset_eq, fset_fset. Qed.

Lemma set_inode_ext {Y} ip f g (v : fsys Y) : f (inodes v ip) = g (inodes v ip) -> set_inode ip f v = set_inode ip g v.
Proof. unfold set_inode. by intros ->. Qed.

Lemma inodes_set {Y} ip f (v : fsys Y) : inodes (set_inode ip f v) ip = f (inodes v ip).
Proof. cbn. apply fset_eq. Qed.

Lemma fwp_ilock ip fuel (Q : unit -> fsys txv -> Prop) v :
  let i := inodes v ip in
  ilock_free v ip -> 1 <= i_ref i ->
  (i_valid i = false -> i_dev i = t_dev /\ held v (iblk v i) = None /\ space 1 v /\
     di_type (read_dinode (blk v (iblk v i)) (ioff i)) <> 0) ->
  Q tt (ilocked ip v) -> fwp (ilock pid (Some ip) fuel) Q v.
Proof.
  intros i Hf Hr Hload H. unfold ilock. apply fwp_bind, fwp_inode. fold i.
  destruct (Z.ltb_spec (i_ref i) 1); [lia|]. apply fwp_bind, fwp_acquiresleep; [done|].
  apply fwp_bind, fwp_inode. unfold put_ilock. rewrite inodes_set. fold i. cbn [with_lock i_valid i_dev i_inum].
  destruct (i_valid i) eqn:Ev.
  - apply fwp_ret. unfold ilocked in H. fold i in H. rewrite Ev in H.
    rewrite (set_inode_ext ip _ (fun _ => mk_inode (i_dev i) (i_inum i) (i_ref i) (mk_sleeplock false true pid) true (i_d i))); [done|].
    fold i. unfold with_lock. by rewrite Ev.
  - destruct (Hload eq_refl) as (Hd & Hh & Hsp & Hty). rewrite Hd. apply fwp_bind, fwp_sb.
    apply fwp_open; [done|done|]. intros h Hfr. apply fwp_look. apply fwp_bind, fwp_upd.
    apply fwp_bind. set (v1 := set_inode ip (with_lock _) v) in *.
    change (set_inode ip (with_d ?g) (tx (v_hold ?b h) v1)) with (tx (v_hold b h) (set_inode ip (with_d g) v1)).
    apply fwp_close; [done|done|]. apply fwp_bind, fwp_upd. apply fwp_bind, fwp_inode.
    unfold v1. rewrite !set_inode_set, inodes_set. fold i. cbn [with_valid with_d with_lock i_d].
    change (blk (set_inode ip (with_lock (mk_sleeplock false true pid)) v)) with (blk v).
    unfold iblk, ioff in Hty. destruct (Z.eqb_spec (di_type (read_dinode (blk v (iblk v i)) (ioff i))) 0) as [E|E]; [by exfalso; apply Hty|].
    unfold iblk, ioff in E |- *. cbn [f_sb set_inode] in *.
    rewrite (proj2 (Z.eqb_neq _ _) E). apply fwp_ret. unfold ilocked in H. fold i in H. rewrite Ev in H.
    erewrite set_inode_ext; [exact H|]. done.
Qed.

(** ** The inode cache is write-through *)

(** The cache entry is recycled: its copy of the inode is lost. *)
Definition evict (junk : dinode) (ip : Z) : M (fsys X) unit := upd_inode ip (fun i => mk_inode (i_dev i) (i_inum i) (i_ref i) (i_lock i) false junk).

Definition inode_at (v : fsys txv) (inum : Z) : dinode :=
  read_dinode (blk v (IBLOCK inum (f_sb v))) (DINODE_SIZE * (inum mod IPB)).

Lemma ioff_fits i (d : block) : Z.of_nat (length d) = BSIZE -> 0 <= ioff i /\ ioff i + DINODE_SIZE <= Z.of_nat (length d).
Proof. intros ->. unfold ioff, DINODE_SIZE. change IPB with 16. unfold BSIZE. divlia. Qed.

Lemma inode_at_other v inum inum' d :
  Z.of_nat (length (di_addrs d)) = NDIRECT + 1 -> inum <> inum' ->
  0 <= inum < 2 ^ 32 -> 0 <= inum' < 2 ^ 32 -> 0 <= sb_inodestart (f_sb v) < 2 ^ 31 ->
  inode_at (tx (v_write (IBLOCK inum (f_sb v)) (write_dinode (blk v (IBLOCK inum (f_sb v))) (DINODE_SIZE * (inum mod IPB)) d)) v) inum'
  = inode_at v inum'.
Proof.
  intros Hl Hne H0 H1 Hsb. unfold inode_at, blk. cbn [tx set_fx fx v_write v_blocks f_sb].
  destruct (decide (IBLOCK inum' (f_sb v) = IBLOCK inum (f_sb v))) as [E|E]; [|by rewrite fset_ne].
  rewrite E, fset_eq. apply read_other_dinode; [done|..]; unfold DINODE_SIZE, IBLOCK, u32 in *; change IPB with 16 in *;
    change (2 ^ 32) with 4294967296 in *; change (2 ^ 31) with 2147483648 in *; divlia.
Qed.

(** The inode cache is write-through and the on-disk layout loses
    nothing: after [iupdate] and [iunlock], even if the cache entry is then
    recycled, the next [ilock] loads exactly the inode that was in memory, and
    the stored copies of all other inodes are as before. *)
Theorem iupdate_ilock_roundtrip (s : fsys X) (v : fsys txv) (ip : Z) (junk : dinode) (fuel : nat)
  (Hs : fs_rep s v) (Hd : i_dev (inodes v ip) = t_dev) (Hok : dinode_ok (i_d (inodes v ip)))
  (Hty : di_type (i_d (inodes v ip)) <> 0) (Hm : ilock_mine v ip) (Hr : 1 <= i_ref (inodes v ip))
  (Hh : held v (iblk v (inodes v ip)) = None) (Hsp : space 2 v)
  (Hlen : Z.of_nat (length (blk v (iblk v (inodes v ip)))) = BSIZE)
  (Hnum : 0 <= i_inum (inodes v ip) < 2 ^ 32) (Hsb : 0 <= sb_inodestart (f_sb v) < 2 ^ 31) :
  exists s' v', (iupdate ip ;;; iunlock pid (Some ip) ;;; evict junk ip ;;; ilock pid (Some ip) fuel) s = Done tt s' /\
    fs_rep s' v' /\ inodes v' ip = mk_inode t_dev (i_inum (inodes v ip)) (i_ref (inodes v ip)) (mk_sleeplock false true pid) true (i_d (inodes v ip)) /\
    (forall j, j <> ip -> inodes v' j = inodes v j) /\
    (forall inum, 0 <= inum < 2 ^ 32 -> inum <> i_inum (inodes v ip) -> inode_at v' inum = inode_at v inum).
Proof.
  set (i := inodes v ip) in *. destruct (ioff_fits i _ Hlen) as [Ho1 Ho2].
  set (v1 := tx (v_write (iblk v i) (write_dinode (blk v (iblk v i)) (ioff i) (i_d i))) v).
  set (v3 := set_inode ip (fun i => mk_inode (i_dev i) (i_inum i) (i_ref i) (i_lock i) false junk) (put_ilock ip (mk_sleeplock false false 0) v1)).
  assert (inodes v3 ip = mk_inode t_dev (i_inum i) (i_ref i) (mk_sleeplock false false 0) false junk) as E3.
  { unfold v3. rewrite inodes_set. unfold put_ilock. rewrite inodes_set. cbn. fold i. by rewrite Hd. }
  assert (blk v3 (iblk v i) = write_dinode (blk v (iblk v i)) (ioff i) (i_d i)) as Eb by apply fset_eq.
  assert (read_dinode (blk v3 (iblk v i)) (ioff i) = i_d i) as Erd by (rewrite Eb; by apply read_write_dinode).
  assert (fwp (iupdate ip ;;; iunlock pid (Some ip) ;;; evict junk ip ;;; ilock pid (Some ip) fuel) (fun _ v' => v' = ilocked ip v3) v) as H.
  { apply fwp_bind, fwp_iupdate; [done|done|by eapply space_mono; [|exact Hsp]|]. fold i. fold v1.
    apply fwp_bind, fwp_iunlock; [done|done|]. apply fwp_bind, fwp_upd. fold v3. apply fwp_ilock; [unfold ilock_free; by rewrite E3|by rewrite E3| |done].
    intros _. rewrite E3. cbn [i_dev iblk i_inum ioff]. split_and!; try done.
    - unfold v3, v1. change (space 1 (set_inode _ _ (put_ilock _ _ ?w))) with (space 1 w). apply (space_write 2); [done|lia].
    - change (iblk v3 _) with (iblk v i). change (ioff _) with (ioff i). by rewrite Erd. }
  destruct (H s Hs) as ([] & s' & v' & E & R & ->). exists s', (ilocked ip v3). split; [done|]. split; [done|]. split_and!.
  - unfold ilocked. rewrite inodes_set, E3. cbn [i_dev i_inum i_ref i_valid]. f_equal. exact Erd.
  - intros j Hj. unfold ilocked, v3, put_ilock. cbn. rewrite !fset_ne by done. done.
  - intros inum Hin Hne. change (inode_at (ilocked ip v3) inum) with (inode_at v1 inum).
    apply inode_at_other; try done. apply Hok.
Qed.

End Inode.

(** ** Sharing of cache entries *)

Section Icache.

Context {X : Type} `{TX : TxLayer X}.

Definition in_cache (i : Z) : Prop := 0 <= i < NINODE.
Definition in_use (v : fsys txv) (dev inum i : Z) : Prop :=
  in_cache i /\ 0 < i_ref (inodes v i) /\ i_dev (inodes v i) = dev /\ i_inum (inodes v i) = inum.

(** At most one entry per inode. *)
Definition icache_ok (v : fsys txv) : Prop :=
  (forall i, in_cache i -> 0 <= i_ref (inodes v i)) /\
  (forall dev inum i j, in_use v dev inum i -> in_use v dev inum j -> i = j).

Lemma iget_scan_spec ic dev inum left : forall i empty,
  let used k := i_ref (ic k) > 0 /\ i_dev (ic k) = dev /\ i_inum (ic k) = inum in
  match iget_scan ic dev inum i empty left with
  | (Some r, _) => i <= r < i + Z.of_nat left /\ used r
  | (None, e) => (forall k, i <= k < i + Z.of_nat left -> ~ used k) /\
      match e with
      | None => empty = None /\ forall k, i <= k < i + Z.of_nat left -> i_ref (ic k) <> 0
      | Some r => empty = Some r \/ i <= r < i + Z.of_nat left /\ i_ref (ic r) = 0
      end
  end.
Proof.
  induction left as [|left IH]; intros i empty used; cbn [iget_scan].
  { split; [intros; lia|]. destruct empty; [by left|]. split; [done|intros; lia]. }
  destruct ((i_ref (ic i) >? 0) && (i_dev (ic i) =? dev) && (i_inum (ic i) =? inum)) eqn:E.
  { rewrite !andb_true_iff, !Z.eqb_eq in E. split; [lia|]. unfold used. destruct (Z.gtb_spec (i_ref (ic i)) 0); [|intuition done]. intuition lia. }
  assert (~ used i) as Hni.
  { intros (H1 & H2 & H3). rewrite H2, H3, !Z.eqb_refl, !andb_true_r in E. destruct (Z.gtb_spec (i_ref (ic i)) 0); [done|lia]. }
  set (e' := match empty with None => _ | Some _ => _ end). specialize (IH (i + 1) e'). cbv zeta in IH. fold used in IH.
  destruct (iget_scan ic dev inum (i + 1) e' left) as [[r|] e]; [destruct IH; split; [lia|done]|].
  destruct IH as [Hn He]. split.
  - intros k Hk. destruct (decide (k = i)) as [->|]; [done|]. apply Hn. lia.
  - destruct e as [r|].
    + destruct He as [He|[He1 He2]]; [|right; split; [lia|done]]. unfold e' in He. destruct empty; [by left|].
      destruct (Z.eqb_spec (i_ref (ic i)) 0) as [E0|]; [|done]. injection He as <-. right. split; [lia|done].
    + destruct He as [He1 He2]. unfold e' in He1. destruct empty; [done|]. split; [done|].
      destruct (Z.eqb_spec (i_ref (ic i)) 0) as [|E0]; [done|]. intros k Hk. destruct (decide (k = i)) as [->|]; [done|]. apply He2. lia.
Qed.

(** What [iget] does to the entry it returns. *)
Definition gotten (v : fsys txv) (dev inum ip : Z) (v' : fsys txv) : Prop :=
  (in_use v dev inum ip /\ v' = set_inode ip (fun i => with_ref (s32 (i_ref i + 1)) i) v) \/
  ((forall j, ~ in_use v dev inum j) /\ in_cache ip /\ i_ref (inodes v ip) = 0 /\
   v' = set_inode ip (fun i => mk_inode dev inum 1 (i_lock i) false (i_d i)) v).

Lemma unlock_relock (v : fsys txv) f ip :
  ic_lock v = false -> set_ic_lock false (set_inode ip f (set_ic_lock true v)) = set_inode ip f v.
Proof. destruct v. cbn. by intros ->. Qed.

Lemma scan_used v dev inum i :
  in_cache i -> i_ref (inodes v i) > 0 /\ i_dev (inodes v i) = dev /\ i_inum (inodes v i) = inum <-> in_use v dev inum i.
Proof. unfold in_use. intuition lia. Qed.

Lemma fwp_iget dev inum (Q : Z -> fsys txv -> Prop) v :
  ic_lock v = false ->
  (exists j, in_cache j /\ (in_use v dev inum j \/ i_ref (inodes v j) = 0)) ->
  (forall ip v', gotten v dev inum ip v' -> Q ip v') ->
  fwp (iget dev inum) Q v.
Proof.
  intros Hl (j & Hj & Hfree) H. unfold iget. apply fwp_bind, fwp_ic_acquire; [done|]. apply fwp_bind, fwp_inodes.
  cbn [inodes set_ic_lock]. pose proof (iget_scan_spec (inodes v) dev inum (Z.to_nat NINODE) 0 None) as Hscan. cbv zeta in Hscan.
  change (Z.of_nat (Z.to_nat NINODE)) with NINODE in Hscan.
  destruct (iget_scan (inodes v) dev inum 0 None (Z.to_nat NINODE)) as [[r|] e].
  - destruct Hscan as [Hr Hu]. apply fwp_bind, fwp_upd, fwp_bind, fwp_ic_release; [done|]. rewrite unlock_relock by done.
    apply fwp_ret, H. left. split; [|done]. apply scan_used; [unfold in_cache; lia|done].
  - destruct Hscan as [Hn He]. destruct e as [r|].
    + destruct He as [He|[Hr1 Hr2]]; [done|]. apply fwp_bind, fwp_upd, fwp_bind, fwp_ic_release; [done|].
      rewrite unlock_relock by done. apply fwp_ret, H. right. split; [|split; [unfold in_cache; lia|done]].
      intros k Hk. pose proof Hk as [Hc _]. apply (Hn k); [unfold in_cache in Hc; lia|by apply scan_used].
    + exfalso. destruct He as [_ He]. destruct Hfree as [Hu|H0].
      * apply (Hn j); [unfold in_cache in Hj; lia|by apply scan_used].
      * by apply (He j); [unfold in_cache in Hj; lia|].
Qed.

Lemma iget_full dev inum v :
  ic_lock v = false -> (forall j, in_cache j -> i_ref (inodes v j) <> 0 /\ ~ in_use v dev inum j) ->
  panics fs_rep (@iget X dev inum) "iget: no inodes" v.
Proof.
  intros Hl Hfull. unfold iget. apply panics_bind, fwp_ic_acquire; [done|]. apply panics_bind, fwp_inodes.
  cbn [inodes set_ic_lock]. pose proof (iget_scan_spec (inodes v) dev inum (Z.to_nat NINODE) 0 None) as Hscan. cbv zeta in Hscan.
  change (Z.of_nat (Z.to_nat NINODE)) with NINODE in Hscan.
  destruct (iget_scan (inodes v) dev inum 0 None (Z.to_nat NINODE)) as [[r|] e].
  - exfalso. destruct Hscan as [Hr Hu]. apply (Hfull r); [unfold in_cache; lia|]. apply scan_used; [unfold in_cache; lia|done].
  - destruct Hscan as [_ He]. destruct e as [r|]; [|done]. exfalso. destruct He as [He|[Hr1 Hr2]]; [done|].
    destruct (Hfull r) as [Hx _]; [unfold in_cache; lia|done].
Qed.

Lemma gotten_ok v dev inum ip v' :
  icache_ok v -> gotten v dev inum ip v' -> i_ref (inodes v ip) < 2 ^ 31 - 1 -> icache_ok v' /\ in_use v' dev inum ip.
Proof.
  intros [Hpos Huniq] Hg Hmax.
  assert (exists r, 0 < r /\ i_ref (inodes v' ip) = r /\ i_dev (inodes v' ip) = dev /\ i_inum (inodes v' ip) = inum /\
    in_cache ip /\ (forall j, j <> ip -> inodes v' j = inodes v j) /\ (forall j, j <> ip -> ~ in_use v dev inum j)) as (r & Hr & E1 & E2 & E3 & Hc & Hoth & Hnone).
  { destruct Hg as [[Hu ->]|(Hn & Hc & H0 & ->)].
    - destruct Hu as (Hc & Hp & Hd & Hi). exists (i_ref (inodes v ip) + 1). rewrite inodes_set. cbn.
      rewrite s32_small by lia. split_and!; try done; try lia; [intros j Hj; by apply fset_ne|].
      intros j Hj Hu. apply Hj. by apply (Huniq dev inum).
    - exists 1. rewrite inodes_set. cbn. split_and!; try done. intros j Hj. by apply fset_ne. }
  assert (in_use v' dev inum ip) as Hu by (unfold in_use; rewrite E1; split_and!; done || lia). split; [split|done].
  - intros j Hj. destruct (decide (j = ip)) as [->|Hne]; [lia|]. rewrite Hoth by done. by apply Hpos.
  - intros d n a b Ha Hb. destruct (decide (a = ip)) as [->|Hna], (decide (b = ip)) as [->|Hnb]; try done.
    + exfalso. destruct Ha as (_ & _ & Ed & En). destruct Hb as (Hb1 & Hb). rewrite Hoth in Hb by done.
      apply (Hnone b Hnb). split; [done|]. by rewrite <- E2, <- E3, Ed, En.
    + exfalso. destruct Hb as (_ & _ & Ed & En). destruct Ha as (Ha1 & Ha). rewrite Hoth in Ha by done.
      apply (Hnone a Hna). split; [done|]. by rewrite <- E2, <- E3, Ed, En.
    + unfold in_use in Ha, Hb. rewrite Hoth in Ha, Hb by done. by apply (Huniq d n).
Qed.

(** The inode cache hands out one entry per inode: [iget] returns the
    entry that is already in use for the inode, with one more reference, and
    otherwise takes a free entry, marked invalid so that its stale contents
    are not used; no two entries in use ever stand for the same inode.  With
    neither, it panics. *)
Theorem iget_shares_entries (s : fsys X) (v : fsys txv) (dev inum : Z)
  (Hs : fs_rep s v) (Hl : ic_lock v = false) (Hok : icache_ok v)
  (Hmax : forall i, i_ref (inodes v i) < 2 ^ 31 - 1) :
  ((exists j, in_cache j /\ (in_use v dev inum j \/ i_ref (inodes v j) = 0)) ->
   exists ip s' v', iget dev inum s = Done ip s' /\ fs_rep s' v' /\ gotten v dev inum ip v' /\
     icache_ok v' /\ in_use v' dev inum ip) /\
  ((forall j, in_cache j -> i_ref (inodes v j) <> 0 /\ ~ in_use v dev inum j) ->
   iget dev inum s = Panicked "iget: no inodes").
Proof.
  split.
  - intros Hfree.
    destruct (fwp_iget dev inum (gotten v dev inum) v Hl Hfree (fun _ _ H => H) s Hs) as (ip & s' & v' & E & R & Hg).
    exists ip, s', v'. destruct (gotten_ok v dev inum ip v' Hok Hg (Hmax ip)) as [H1 H2]. done.
  - intros Hfull. by apply (iget_full dev inum v Hl Hfull s Hs).
Qed.

End Icache.
