(* ===== verification/FsFile.v ===== *)
(** * File contents: bmap, readi, writei of kernel/fs.c *)

From S2P Require Import Prelude CMem Riscv Sleeplock BlockLayer Log Tx Fs FsBlocks FsInode.

(** ** The file an inode represents *)

(** The block address of block [bn] of the file (0 if there is none). *)
Definition faddr (v : fsys txv) (i : dinode) (bn : Z) : Z :=
  if bn <? NDIRECT then addr_at i bn else getf 4 (blk v (addr_at i NDIRECT)) (4 * (bn - NDIRECT)).

Definition fbyte (v : fsys txv) (i : dinode) (k : Z) : byte :=
  nth (Z.to_nat (k mod BSIZE)) (blk v (faddr v i (k / BSIZE))) Byte.x00.

Definition content (v : fsys txv) (i : dinode) (off n : Z) : list byte := map (fbyte v i) (seqZ off n).

(** The first [N] blocks of the file exist, are whole, distinct, and not in
    use by the caller; [dev] is the inode's device. *)
Record mapped (dev : Z) (v : fsys txv) (i : inode) (N : Z) : Prop := {
  mp_dev : i_dev i = dev;
  mp_max : N <= MAXFILE;
  mp_addr bn : 0 <= bn < N -> faddr v (i_d i) bn <> 0;
  mp_held bn : 0 <= bn < N -> held v (faddr v (i_d i) bn) = None;
  mp_len bn : 0 <= bn < N -> Z.of_nat (length (blk v (faddr v (i_d i) bn))) = BSIZE;
  mp_inj bn bn' : 0 <= bn < N -> 0 <= bn' < N -> faddr v (i_d i) bn = faddr v (i_d i) bn' -> bn = bn';
  mp_ind : NDIRECT < N -> addr_at (i_d i) NDIRECT <> 0 /\ held v (addr_at (i_d i) NDIRECT) = None /\
    forall bn, 0 <= bn < N -> faddr v (i_d i) bn <> addr_at (i_d i) NDIRECT;
}.

Lemma seqZ_split a n m : 0 <= n -> 0 <= m -> seqZ a (n + m) = seqZ a n ++ seqZ (a + n) m.
Proof. intros. by apply seqZ_app. Qed.

Lemma content_app v i off n m : 0 <= n -> 0 <= m -> content v i off (n + m) = content v i off n ++ content v i (off + n) m.
Proof. intros. unfold content. by rewrite seqZ_split, map_app. Qed.

Lemma length_content v i off n : 0 <= n -> Z.of_nat (length (content v i off n)) = n.
Proof. intros. unfold content. rewrite length_map, length_seqZ. lia. Qed.

(** Within one block the contents are a slice of the block. *)
Lemma slice_content v i off m :
  0 <= off -> 0 <= m -> off mod BSIZE + m <= BSIZE -> Z.of_nat (length (blk v (faddr v i (off / BSIZE)))) = BSIZE ->
  slice (off mod BSIZE) m (blk v (faddr v i (off / BSIZE))) = content v i off m.
Proof.
  intros H0 Hm Hfit Hlen. unfold slice, content. pose proof (Z.mod_pos_bound off BSIZE ltac:(unfold BSIZE; lia)) as Hmod.
  apply list_eq. intros j. rewrite list_lookup_fmap. destruct (decide (Z.of_nat j < m)) as [Hj|Hj].
  - rewrite lookup_take_lt, lookup_drop, lookup_seqZ_lt by lia. cbn. unfold fbyte.
    replace ((off + Z.of_nat j) / BSIZE) with (off / BSIZE) by (unfold BSIZE in *; divlia).
    replace ((off + Z.of_nat j) mod BSIZE) with (off mod BSIZE + Z.of_nat j) by (unfold BSIZE in *; divlia).
    destruct (lookup_lt_is_Some_2 (blk v (faddr v i (off / BSIZE))) (Z.to_nat (off mod BSIZE) + j)) as [c Ec]; [lia|].
    rewrite Ec. f_equal. symmetry. apply nth_lookup_Some. rewrite <- Ec. f_equal. lia.
  - rewrite lookup_take_ge, lookup_seqZ_ge by lia. done.
Qed.

Section File.

Context {X : Type} `{TX : TxLayer X}.

Lemma fwp_bmap ip bn N (Q : Z -> fsys txv -> Prop) v :
  mapped t_dev v (inodes v ip) N -> 0 <= bn < N -> space 1 v -> Q (faddr v (i_d (inodes v ip)) bn) v -> fwp (bmap ip bn) Q v.
Proof.
  intros Hm Hbn Hsp H. pose proof (mp_addr _ _ _ _ Hm bn Hbn) as Ha. pose proof (mp_max _ _ _ _ Hm) as Hmax.
  unfold bmap. apply fwp_bind, fwp_inode. unfold faddr in Ha, H. destruct (Z.ltb_spec bn NDIRECT) as [Hlt|Hge].
  - rewrite (proj2 (Z.eqb_neq _ _) Ha). by apply fwp_ret.
  - rewrite (proj2 (Z.ltb_lt (bn - NDIRECT) NINDIRECT)) by (unfold MAXFILE in Hmax; lia).
    destruct (mp_ind _ _ _ _ Hm ltac:(lia)) as (Hi0 & Hih & _). rewrite (proj2 (Z.eqb_neq _ _) Hi0).
    apply fwp_bind, fwp_ret. rewrite (mp_dev _ _ _ _ Hm). apply fwp_open; [done|done|]. intros h Hf. apply fwp_look.
    rewrite (proj2 (Z.eqb_neq _ _) Ha). apply fwp_bind, fwp_ret. apply fwp_bind, fwp_close; [done|done|]. by apply fwp_ret.
Qed.

(** *** Reading *)

(** What a copy to user memory that may fault stores. *)
Definition stored (copyout : Z -> list byte -> nat) (l out : list byte) : Prop :=
  out `prefix_of` l /\ ((forall dst l', copyout dst l' = length l') -> out = l).

Lemma fwp_readi_loop ip copyout N v : mapped t_dev v (inodes v ip) N -> space 1 v -> forall fuel dst off n tot,
  0 <= off -> 0 <= tot <= n -> off + (n - tot) <= N * BSIZE -> N * BSIZE < 2 ^ 32 ->
  (tot < n -> off mod BSIZE + (n - tot) <= Z.of_nat fuel * BSIZE) ->
  fwp (readi_loop ip copyout dst off n tot fuel)
    (fun l v' => v' = v /\ stored copyout (content v (i_d (inodes v ip)) off (n - tot)) l) v.
Proof.
  intros Hm Hsp. induction fuel as [|fuel IH]; intros dst off n tot Ho Ht Hn Hmax Hfuel; cbn [readi_loop];
    (destruct (Z.ltb_spec tot n) as [Hlt|Hge];
     [|apply fwp_ret; split; [done|]; replace (n - tot) with 0 by lia; by split]).
  { pose proof (Z.mod_pos_bound off BSIZE ltac:(unfold BSIZE; lia)). specialize (Hfuel Hlt). lia. }
  specialize (Hfuel Hlt). set (i := i_d (inodes v ip)) in *. set (m := Z.min (n - tot) (BSIZE - off mod BSIZE)).
  pose proof (Z.mod_pos_bound off BSIZE ltac:(unfold BSIZE; lia)) as Hmod.
  assert (0 <= off / BSIZE < N) as Hbn by (unfold BSIZE in *; divlia).
  assert (0 < m /\ off mod BSIZE + m <= BSIZE) as [Hm0 Hm1] by lia.
  apply fwp_bind, fwp_inode. apply fwp_bind. eapply fwp_bmap; [done|done|done|]. fold i. rewrite (mp_dev _ _ _ _ Hm).
  apply fwp_open; [by apply (mp_held _ _ _ _ Hm)|done|]. intros h Hf. apply fwp_look. fold m.
  rewrite (slice_content v i off m) by (try lia; by apply (mp_len _ _ _ _ Hm)).
  set (l := content v i off m). apply fwp_bind, fwp_close; [by apply (mp_held _ _ _ _ Hm)|done|].
  replace (content v i off (n - tot)) with (l ++ content v i (off + m) (n - (tot + m))).
  2: { unfold l. rewrite <- content_app by lia. f_equal. lia. }
  destruct (Nat.ltb_spec (copyout dst l) (length l)) as [Hc|Hc].
  - apply fwp_ret. split; [done|]. split.
    + apply prefix_app_r. apply prefix_take.
    + intros Hall. rewrite Hall in Hc. lia.
  - assert (u32 (off + m) = off + m) as Eo.
    { apply u32_small. split; [lia|]. eapply Z.le_lt_trans; [|exact Hmax]. lia. }
    apply fwp_bind. eapply fwp_mono; [|apply IH; rewrite ?Eo; try lia].
    + intros rest v' [-> [Hp Hall]]. rewrite Eo in Hp, Hall. apply fwp_ret. split; [done|]. split.
      * by apply prefix_app.
      * intros H. by rewrite (Hall H).
    + intros Hmore. assert (m = BSIZE - off mod BSIZE) as Em by lia.
      replace ((off + m) mod BSIZE) with 0 by (rewrite Em; unfold BSIZE in *; divlia). lia.
Qed.

Lemma fwp_readi ip copyout N dst off n v :
  let i := i_d (inodes v ip) in
  mapped t_dev v (inodes v ip) N -> space 1 v -> 0 <= di_size i <= N * BSIZE -> N * BSIZE < 2 ^ 32 ->
  0 <= off <= di_size i -> 0 <= n -> off + n < 2 ^ 32 ->
  fwp (readi ip copyout dst off n)
    (fun r v' => v' = v /\ fst r = Z.min n (di_size i - off) /\
       stored copyout (content v i off (Z.min n (di_size i - off))) (snd r)) v.
Proof.
  intros i Hm Hsp Hsz Hmax Hoff Hn Hon. unfold readi. apply fwp_bind, fwp_inode. fold i.
  rewrite (u32_small (off + n)) by lia. destruct (Z.gtb_spec off (di_size i)); [lia|].
  destruct (Z.ltb_spec (off + n) off); [lia|]. cbn [orb].
  set (n' := if off + n >? di_size i then _ else n).
  assert (n' = Z.min n (di_size i - off)) as En.
  { unfold n'. destruct (Z.gtb_spec (off + n) (di_size i)); [rewrite u32_small by lia|]; lia. }
  rewrite En. set (k := Z.min n (di_size i - off)). apply fwp_bind.
  eapply fwp_mono; [|eapply (fwp_readi_loop ip copyout N); [done|done|lia..|]].
  - intros l v' [-> Hst]. apply fwp_ret. split; [done|]. split; [done|]. fold i in Hst. by rewrite Z.sub_0_r in Hst.
  - intros _. pose proof (Z.mod_pos_bound off BSIZE ltac:(unfold BSIZE; lia)). rewrite Z2Nat.id by (unfold BSIZE; divlia).
    unfold BSIZE in *. divlia.
Qed.

(** Reading a file whose blocks are all present, direct or indirect:
    [readi] terminates, changes nothing, and copies out the bytes of the file
    from [off] on, in order: all of them up to the request or the end of the
    file when the destination does not fault, a prefix otherwise (the result
    counts them all even then).  A request that starts beyond the end or whose
    end overflows 32 bits returns -1. *)
Theorem readi_reads_file (s : fsys X) (v : fsys txv) (ip N dst off n : Z) (copyout : Z -> list byte -> nat)
  (Hs : fs_rep s v) (Hm : mapped t_dev v (inodes v ip) N) (Hsp : space 1 v)
  (Hsz : 0 <= di_size (i_d (inodes v ip)) <= N * BSIZE) (Hoff : 0 <= off < 2 ^ 32) (Hn : 0 <= n < 2 ^ 32) :
  let i := i_d (inodes v ip) in
  exists r l s', readi ip copyout dst off n s = Done (r, l) s' /\ fs_rep s' v /\
    if (off <=? di_size i) && (off + n <? 2 ^ 32)
    then r = Z.min n (di_size i - off) /\ stored copyout (content v i off r) l
    else r = -1 /\ l = [].
Proof.
  intros i. assert (N * BSIZE < 2 ^ 32) as Hmax.
  { pose proof (mp_max _ _ _ _ Hm). change MAXFILE with 268 in *. unfold BSIZE. lia. }
  assert (fwp (readi ip copyout dst off n) (fun r v' => v' = v /\
    if (off <=? di_size i) && (off + n <? 2 ^ 32)
    then fst r = Z.min n (di_size i - off) /\ stored copyout (content v i off (fst r)) (snd r)
    else r = (-1, [])) v) as H.
  { destruct ((off <=? di_size i) && (off + n <? 2 ^ 32)) eqn:E.
    - apply andb_true_iff in E as [E1%Z.leb_le E2%Z.ltb_lt].
      pose proof (fwp_readi ip copyout N dst off n v Hm Hsp Hsz Hmax) as L. cbv zeta in L. fold i in L.
      eapply fwp_mono; [|apply L; lia].
      intros r v' (-> & -> & Hst). done.
    - unfold readi. apply fwp_bind, fwp_inode. fold i.
      assert ((off >? di_size i) || (u32 (off + n) <? off) = true) as ->; [|by apply fwp_ret].
      apply andb_false_iff in E as [E%Z.leb_gt|E%Z.ltb_ge].
      + destruct (Z.gtb_spec off (di_size i)); [done|lia].
      + apply orb_true_iff. right. apply Z.ltb_lt. unfold u32. change (2 ^ 32) with 4294967296 in *. divlia. }
  destruct (H s Hs) as ([r l] & s' & v' & E & R & -> & Hr). exists r, l, s'. split; [done|]. split; [done|].
  destruct ((off <=? di_size i) && (off + n <? 2 ^ 32)); [done|]. by injection Hr as -> ->.
Qed.

(** *** Writing over blocks that are present *)

(** The file after the bytes [bs] were stored at [off]. *)
Definition patched (f : Z -> byte) (off : Z) (bs : list byte) (k : Z) : byte :=
  if (off <=? k) && (k <? off + Z.of_nat (length bs)) then nth (Z.to_nat (k - off)) bs Byte.x00 else f k.

Lemma nth_splice (d : block) (off : Z) (l : list byte) (j : nat) :
  0 <= off -> off + Z.of_nat (length l) <= Z.of_nat (length d) ->
  nth j (splice off l d) Byte.x00 =
  if (off <=? Z.of_nat j) && (Z.of_nat j <? off + Z.of_nat (length l)) then nth (j - Z.to_nat off) l Byte.x00 else nth j d Byte.x00.
Proof.
  intros H0 H1. unfold splice. rewrite !nth_lookup. destruct (Z.leb_spec off (Z.of_nat j)); cbn [andb].
  - destruct (Z.ltb_spec (Z.of_nat j) (off + Z.of_nat (length l))).
    + rewrite list_lookup_inserts by lia. done.
    + rewrite list_lookup_inserts_ge by lia. done.
  - rewrite list_lookup_inserts_lt by lia. done.
Qed.

Lemma patched_ext f g off bs k : f k = g k -> patched f off bs k = patched g off bs k.
Proof. intros E. unfold patched. by destruct (_ && _). Qed.

Lemma patched_app f off bs bs' k : patched (patched f off bs) (off + Z.of_nat (length bs)) bs' k = patched f off (bs ++ bs') k.
Proof.
  unfold patched. rewrite length_app, Nat2Z.inj_add.
  destruct (Z.leb_spec off k), (Z.leb_spec (off + Z.of_nat (length bs)) k), (Z.ltb_spec k (off + Z.of_nat (length bs) + Z.of_nat (length bs'))),
    (Z.ltb_spec k (off + Z.of_nat (length bs))), (Z.ltb_spec k (off + (Z.of_nat (length bs) + Z.of_nat (length bs')))); cbn [andb]; try lia; try done.
  - rewrite app_nth2 by lia. f_equal. lia.
  - by rewrite app_nth1 by lia.
Qed.

Lemma patched_nil f off k : patched f off [] k = f k.
Proof. unfold patched. cbn [length]. destruct (Z.leb_spec off k), (Z.ltb_spec k (off + Z.of_nat 0)); try done; lia. Qed.

(** Bytes within one block. *)
Lemma patched_outside f off bs k : 0 <= off -> k / BSIZE <> off / BSIZE -> off mod BSIZE + Z.of_nat (length bs) <= BSIZE -> patched f off bs k = f k.
Proof.
  intros H0 Hne Hfit. unfold patched. replace ((off <=? k) && (k <? off + Z.of_nat (length bs))) with false; [done|]. symmetry. apply andb_false_iff.
  destruct (Z.leb_spec off k); [right|by left]. apply Z.ltb_ge. destruct (decide (k < off + Z.of_nat (length bs))); [|lia].
  exfalso. apply Hne. unfold BSIZE in *. divlia.
Qed.

Lemma patched_splice f (d : block) off bs k : 0 <= off -> 0 <= k -> k / BSIZE = off / BSIZE -> off mod BSIZE + Z.of_nat (length bs) <= BSIZE ->
  Z.of_nat (length d) = BSIZE -> f k = nth (Z.to_nat (k mod BSIZE)) d Byte.x00 ->
  nth (Z.to_nat (k mod BSIZE)) (splice (off mod BSIZE) bs d) Byte.x00 = patched f off bs k.
Proof.
  intros H0 Hk E Hfit Hl Hf. pose proof (Z.mod_pos_bound off BSIZE ltac:(unfold BSIZE; lia)). pose proof (Z.mod_pos_bound k BSIZE ltac:(unfold BSIZE; lia)).
  rewrite nth_splice by lia. unfold patched. rewrite Hf, Z2Nat.id by lia.
  replace ((off <=? k) && (k <? off + Z.of_nat (length bs)))
    with ((off mod BSIZE <=? k mod BSIZE) && (k mod BSIZE <? off mod BSIZE + Z.of_nat (length bs))).
  2: { f_equal; [destruct (Z.leb_spec (off mod BSIZE) (k mod BSIZE)), (Z.leb_spec off k)|
                 destruct (Z.ltb_spec (k mod BSIZE) (off mod BSIZE + Z.of_nat (length bs))), (Z.ltb_spec k (off + Z.of_nat (length bs)))];
         try done; unfold BSIZE in *; divlia. }
  destruct ((off mod BSIZE <=? k mod BSIZE) && _) eqn:Ein; [|done].
  apply andb_true_iff in Ein as [Ein%Z.leb_le _]. f_equal. unfold BSIZE in *. divlia.
Qed.

Record file_written (i : inode) (N off : Z) (bs : list byte) (v v' : fsys txv) : Prop := {
  fw_inodes : inodes v' = inodes v;
  fw_sb : f_sb v' = f_sb v;
  fw_lock : ic_lock v' = ic_lock v;
  fw_held : v_held (fx v') = v_held (fx v);
  fw_addr bn : 0 <= bn < N -> faddr v' (i_d i) bn = faddr v (i_d i) bn;
  fw_bytes k : 0 <= k < N * BSIZE -> fbyte v' (i_d i) k = patched (fbyte v (i_d i)) off bs k;
  fw_len bn : 0 <= bn < N -> length (blk v' (faddr v (i_d i) bn)) = length (blk v (faddr v (i_d i) bn));
  fw_other a : (forall bn, 0 <= bn < N -> a <> faddr v (i_d i) bn) -> blk v' a = blk v a;
}.

Lemma mapped_written dev i N off bs v v' : file_written i N off bs v v' -> mapped dev v i N -> mapped dev v' i N.
Proof.
  intros [H1 H2 H3 H4 H5 H6 H7 H8] [M1 M2 M3 M4 M5 M6 M7]. unfold held in *. split; unfold held; try done.
  - intros bn Hbn. rewrite H5 by done. by apply M3.
  - intros bn Hbn. rewrite H5, H4 by done. by apply M4.
  - intros bn Hbn. rewrite H5, H7 by done. by apply M5.
  - intros bn bn' Hbn Hbn'. rewrite !H5 by done. by apply M6.
  - intros HN. destruct (M7 HN) as (A & B & C). rewrite H4. split; [done|]. split; [done|].
    intros bn Hbn. rewrite H5 by done. by apply C.
Qed.

(** One block of the write. *)
Lemma written_step dev i N off l v : mapped dev v i N -> 0 <= off -> off / BSIZE < N -> off mod BSIZE + Z.of_nat (length l) <= BSIZE ->
  let a := faddr v (i_d i) (off / BSIZE) in
  file_written i N off l v (tx (v_write a (splice (off mod BSIZE) l (blk v a))) v).
Proof.
  intros Hm H0 HN Hfit a. pose proof Hm as [M1 M2 M3 M4 M5 M6 M7].
  pose proof (Z.mod_pos_bound off BSIZE ltac:(unfold BSIZE; lia)) as Hmod.
  assert (0 <= off / BSIZE < N) as Hbn by (split; [apply Z.div_pos; unfold BSIZE; lia|done]).
  set (v' := tx _ v). assert (forall x, blk v' x = if decide (x = a) then splice (off mod BSIZE) l (blk v a) else blk v x) as Hb by done.
  assert (forall bn, 0 <= bn < N -> faddr v' (i_d i) bn = faddr v (i_d i) bn) as Ha.
  { intros bn Hb2. unfold faddr. destruct (Z.ltb_spec bn NDIRECT); [done|]. rewrite Hb, decide_False; [done|].
    destruct (M7 ltac:(lia)) as (_ & _ & C). intros E. by apply (C (off / BSIZE) Hbn). }
  split; try done.
  - intros k Hk. assert (0 <= k / BSIZE < N) as Hkb by (unfold BSIZE in *; divlia). unfold fbyte at 1. rewrite Ha, Hb by done.
    pose proof (M5 _ Hbn) as Hl. fold a in Hl.
    pose proof (Z.mod_pos_bound k BSIZE ltac:(unfold BSIZE; lia)) as Hkm.
    destruct (decide (faddr v (i_d i) (k / BSIZE) = a)) as [E|E].
    + apply M6 in E; [|done|done]. apply patched_splice; try done; [lia|]. unfold fbyte. by rewrite E.
    + rewrite patched_outside; [done|done| |done]. intros E'. apply E. unfold a. by rewrite E'.
  - intros bn Hb2. rewrite Hb. destruct (decide _) as [E|E]; [|done]. rewrite E. apply length_inserts.
  - intros x Hx. rewrite Hb, decide_False; [done|]. by apply Hx.
Qed.

Lemma written_trans i N off bs bs' v v1 v2 :
  file_written i N off bs v v1 -> file_written i N (off + Z.of_nat (length bs)) bs' v1 v2 -> file_written i N off (bs ++ bs') v v2.
Proof.
  intros [A1 A2 A3 A4 A5 A6 A7 A8] [B1 B2 B3 B4 B5 B6 B7 B8]. split; try congruence.
  - intros bn Hbn. rewrite B5 by done. by apply A5.
  - intros k Hk. rewrite B6, <- patched_app by done. by apply patched_ext, A6.
  - intros bn Hbn. rewrite <- A7 by done. rewrite <- A5 by done. by apply B7.
  - intros a Ha. rewrite B8, A8; [done|done|]. intros bn Hbn. rewrite A5 by done. by apply Ha.
Qed.

(** The source of the copy is readable and holds [data]. *)
Definition copies (copyin : Z -> nat -> list byte) (src : Z) (data : list byte) : Prop :=
  forall a m, 0 <= a -> a + Z.of_nat m <= Z.of_nat (length data) ->
    copyin (u64 (src + a)) m = take m (drop (Z.to_nat a) data).

Lemma written_nothing i N off v : file_written i N off [] v v.
Proof.
  split; try done. intros k Hk. by rewrite patched_nil.
Qed.

Lemma drop_step (data : list byte) (a m : nat) : drop a data = take m (drop a data) ++ drop (a + m) data.
Proof. rewrite <- drop_drop. by rewrite take_drop. Qed.

Lemma fwp_writei_loop ip i copyin src data N e : copies copyin src data -> N * BSIZE < 2 ^ 32 -> 1 <= e -> forall fuel off tot v,
  inodes v ip = i -> mapped t_dev v i N -> space (Z.of_nat fuel + e) v ->
  let n := Z.of_nat (length data) in
  0 <= off -> 0 <= tot <= n -> off + (n - tot) <= N * BSIZE ->
  (tot < n -> off mod BSIZE + (n - tot) <= Z.of_nat fuel * BSIZE) ->
  fwp (writei_loop ip copyin (u64 (src + tot)) off n tot fuel)
    (fun off' v' => off' = off + (n - tot) /\ file_written i N off (drop (Z.to_nat tot) data) v v' /\ space e v') v.
Proof.
  intros Hcp Hmax He. induction fuel as [|fuel IH]; intros off tot v Hi Hm Hsp n Ho Ht Hn Hfuel; cbn [writei_loop];
    (destruct (Z.ltb_spec tot n) as [Hlt|Hge];
     [|apply fwp_ret; split; [lia|]; split; [|eapply space_mono; [|exact Hsp]; lia];
       rewrite drop_ge by lia; apply written_nothing]).
  { pose proof (Z.mod_pos_bound off BSIZE ltac:(unfold BSIZE; lia)). specialize (Hfuel Hlt). lia. }
  specialize (Hfuel Hlt). set (m := Z.min (n - tot) (BSIZE - off mod BSIZE)).
  pose proof (Z.mod_pos_bound off BSIZE ltac:(unfold BSIZE; lia)) as Hmod.
  assert (0 <= off / BSIZE < N) as Hbn by (unfold BSIZE in *; divlia).
  assert (0 < m /\ off mod BSIZE + m <= BSIZE) as [Hm0 Hm1] by lia.
  apply fwp_bind, fwp_inode. apply fwp_bind. eapply fwp_bmap; [by rewrite Hi|done|eapply space_mono; [|exact Hsp]; lia|].
  rewrite Hi, (mp_dev _ _ _ _ Hm). apply fwp_open; [by apply (mp_held _ _ _ _ Hm)|eapply space_mono; [|exact Hsp]; lia|].
  intros h Hf. fold m. set (l := copyin (u64 (src + tot)) (Z.to_nat m)).
  assert (l = take (Z.to_nat m) (drop (Z.to_nat tot) data)) as El by (apply Hcp; lia).
  assert (Z.of_nat (length l) = m) as Hl by (rewrite El, length_take, length_drop; lia).
  rewrite (proj2 (Nat.ltb_lt 0 (length l))) by lia. rewrite (proj2 (Nat.ltb_ge (length l) (Z.to_nat m))) by lia.
  set (a := faddr v (i_d i) (off / BSIZE)) in *.
  apply fwp_seq3, (fwp_commit a h (splice (off mod BSIZE) l)); [by apply (mp_held _ _ _ _ Hm)|done|eapply space_mono; [|exact Hsp]; lia|].
  set (v1 := tx _ v). assert (file_written i N off l v v1) as Hw by (eapply written_step; try done; lia).
  assert (u32 (off + m) = off + m) as -> by (apply u32_small; lia).
  replace (u64 (u64 (src + tot) + m)) with (u64 (src + (tot + m))) by (unfold u64; rewrite Zplus_mod_idemp_l; f_equal; lia).
  eapply fwp_mono; [|apply IH; try lia].
  - intros off' v' (-> & Hw2 & Hsp'). split; [fold n; lia|]. split; [|done].
    rewrite (drop_step data (Z.to_nat tot) (Z.to_nat m)), <- El. apply (written_trans i N off l _ v v1); [done|].
    rewrite Hl. by replace (Z.to_nat tot + Z.to_nat m)%nat with (Z.to_nat (tot + m)) by lia.
  - rewrite (fw_inodes _ _ _ _ _ _ Hw). done.
  - by eapply mapped_written.
  - replace (Z.of_nat fuel + e) with (Z.of_nat (S fuel) + e - 1) by lia. apply space_write; [done|lia].
  - fold n. intros Hmore. assert (m = BSIZE - off mod BSIZE) as Em by lia.
    replace ((off + m) mod BSIZE) with 0 by (rewrite Em; unfold BSIZE in *; divlia). lia.
Qed.

(** The inode block is apart from the file's blocks. *)
Definition inode_apart (v : fsys txv) (i : inode) (N : Z) : Prop :=
  held v (iblk v i) = None /\ (forall bn, 0 <= bn < N -> faddr v (i_d i) bn <> iblk v i) /\
  (NDIRECT < N -> addr_at (i_d i) NDIRECT <> iblk v i).

Definition grown (i : inode) (off n : Z) : inode := with_d (with_size (Z.max (di_size (i_d i)) (off + n))) i.

Lemma fwp_writei ip copyin src data N off v :
  let i := inodes v ip in let n := Z.of_nat (length data) in
  copies copyin src data -> mapped t_dev v i N -> inode_apart v i N ->
  0 <= src < 2 ^ 64 -> space (n / BSIZE + 4) v -> 0 < n -> 0 <= off <= di_size (i_d i) -> off + n <= N * BSIZE ->
  fwp (writei ip copyin src off n)
    (fun r v' => r = n /\ space 1 v' /\ exists v1, file_written i N off data v v1 /\
       v' = tx (v_write (iblk v i) (write_dinode (blk v (iblk v i)) (ioff i) (i_d (grown i off n)))) (set_inode ip (fun _ => grown i off n) v1)) v.
Proof.
  intros i n Hcp Hm (Hih & Hia & Hii) Hsrc Hsp Hn Hoff Hon. pose proof (mp_max _ _ _ _ Hm) as HN.
  assert (N * BSIZE <= MAXFILE * BSIZE) as Hmx by (unfold BSIZE; lia). change (MAXFILE * BSIZE) with 274432 in *.
  unfold writei. apply fwp_bind, fwp_inode. fold i. rewrite (u32_small (off + n)) by lia.
  destruct (Z.gtb_spec off (di_size (i_d i))); [lia|]. destruct (Z.ltb_spec (off + n) off); [lia|]. cbn [orb].
  change (MAXFILE * BSIZE) with 274432. destruct (Z.gtb_spec (off + n) 274432); [lia|].
  apply fwp_bind. assert (src = u64 (src + 0)) as Es by (rewrite Z.add_0_r, u64_small; lia).
  rewrite Es at 1. eapply fwp_mono; [|apply (fwp_writei_loop ip i copyin src data N 2 Hcp ltac:(lia) ltac:(lia)); try done; try lia].
  - intros off' v1 (-> & Hw & Hsp1). rewrite drop_0 in Hw. fold n. rewrite Z.sub_0_r. destruct (Z.gtb_spec n 0); [|lia].
    assert (inodes v1 ip = i) as E1 by (by rewrite (fw_inodes _ _ _ _ _ _ Hw)).
    assert (blk v1 (iblk v i) = blk v (iblk v i)) as Eb by (apply (fw_other _ _ _ _ _ _ Hw); intros bn Hbn E; by apply (Hia bn Hbn)).
    apply fwp_bind, fwp_bind, fwp_inode. rewrite E1.
    assert (forall v2, v2 = set_inode ip (fun _ => grown i off n) v1 -> fwp (iupdate ip)
      (fun _ => fwp (ret n) (fun r v' => r = n /\ space 1 v' /\ exists v1, file_written i N off data v v1 /\
         v' = tx (v_write (iblk v i) (write_dinode (blk v (iblk v i)) (ioff i) (i_d (grown i off n)))) (set_inode ip (fun _ => grown i off n) v1))) v2) as Hupd.
    { intros v2 ->. assert (inodes (set_inode ip (fun _ => grown i off n) v1) ip = grown i off n) as Eg by apply inodes_set.
      assert (iblk (set_inode ip (fun _ => grown i off n) v1) (grown i off n) = iblk v i) as Ei
        by (unfold iblk; cbn; by rewrite (fw_sb _ _ _ _ _ _ Hw)).
      apply fwp_iupdate; rewrite ?Eg, ?Ei; [apply (mp_dev _ _ _ _ Hm)|unfold held; cbn; by rewrite (fw_held _ _ _ _ _ _ Hw)|eapply space_mono; [|exact Hsp1]; lia|].
      apply fwp_ret. split; [done|]. split; [by apply (space_write 2)|]. exists v1. split; [done|]. rewrite <- Eb. done. }
    destruct (Z.gtb_spec (off + n) (di_size (i_d i))) as [Hgt|Hle].
    + apply fwp_bind, fwp_upd. apply Hupd. apply set_inode_ext. rewrite E1. unfold grown.
      by replace (Z.max (di_size (i_d i)) (off + n)) with (off + n) by lia.
    + apply fwp_bind, fwp_ret. apply Hupd. unfold grown. replace (Z.max (di_size (i_d i)) (off + n)) with (di_size (i_d i)) by lia.
      destruct v1 as [fx1 sb1 lk1 in1]. unfold set_inode. cbn in *. f_equal.
      rewrite <- (fset_id in1 ip) at 1. f_equal. rewrite E1. by destruct i as [? ? ? ? ? []].
  - rewrite Z2Nat.id by (unfold BSIZE; divlia). by replace (n / BSIZE + 2 + 2) with (n / BSIZE + 4) by lia.
  - fold n. intros _. rewrite Z2Nat.id by (unfold BSIZE; divlia). pose proof (Z.mod_pos_bound off BSIZE ltac:(unfold BSIZE; lia)).
    unfold BSIZE in *. divlia.
Qed.

(** The view after the whole write. *)
Lemma written_view i N off data v v1 ip n d :
  mapped t_dev v i N -> inode_apart v i N -> file_written i N off data v v1 ->
  let v' := tx (v_write (iblk v i) d) (set_inode ip (fun _ => grown i off n) v1) in
  mapped t_dev v' (grown i off n) N /\
  (forall k, 0 <= k < N * BSIZE -> fbyte v' (i_d (grown i off n)) k = patched (fbyte v (i_d i)) off data k).
Proof.
  intros Hm (Hih & Hia & Hii) Hw v'. pose proof (mapped_written _ _ _ _ _ _ _ Hw Hm) as Hm1. pose proof Hw as [W1 W2 W3 W4 W5 W6 W7 W8].
  assert (forall a, a <> iblk v i -> blk v' a = blk v1 a) as Hb by (intros a Ha; by apply fset_ne).
  assert (forall bn, 0 <= bn < N -> faddr v' (i_d (grown i off n)) bn = faddr v1 (i_d i) bn) as Ha.
  { intros bn Hbn. unfold faddr. destruct (Z.ltb_spec bn NDIRECT); [done|].
    change (addr_at (i_d (grown i off n)) NDIRECT) with (addr_at (i_d i) NDIRECT). rewrite Hb; [done|]. apply Hii. lia. }
  assert (forall bn, 0 <= bn < N -> faddr v1 (i_d i) bn <> iblk v i) as Hne by (intros bn Hbn; rewrite W5 by done; by apply Hia).
  destruct Hm1 as [M1 M2 M3 M4 M5 M6 M7]. split; [split; try done|].
  - intros bn Hbn. rewrite Ha by done. by apply M3.
  - intros bn Hbn. rewrite Ha by done. by apply M4.
  - intros bn Hbn. rewrite Ha, Hb by (try done; by apply Hne). by apply M5.
  - intros bn bn' Hbn Hbn'. rewrite !Ha by done. by apply M6.
  - intros HN. destruct (M7 HN) as (A & B & C). split; [done|]. split; [done|]. intros bn Hbn. rewrite Ha by done. by apply C.
  - intros k Hk. rewrite <- W6 by done. unfold fbyte. assert (0 <= k / BSIZE < N) as Hkb by (unfold BSIZE in *; divlia).
    rewrite Ha, Hb by (try done; by apply Hne). done.
Qed.

Lemma content_patched v v' i i' off data :
  (forall k, off <= k < off + Z.of_nat (length data) -> fbyte v' i' k = patched (fbyte v i) off data k) ->
  content v' i' off (Z.of_nat (length data)) = data.
Proof.
  intros H. unfold content. apply list_eq. intros j. rewrite list_lookup_fmap. destruct (decide (j < length data)%nat) as [Hj|Hj].
  - rewrite lookup_seqZ_lt by lia. cbn. rewrite H by lia. unfold patched.
    rewrite (proj2 (Z.leb_le _ _)), (proj2 (Z.ltb_lt _ _)) by lia. cbn. destruct (lookup_lt_is_Some_2 data j Hj) as [c Ec]. rewrite Ec. f_equal.
    apply nth_lookup_Some. rewrite <- Ec. f_equal. lia.
  - rewrite lookup_seqZ_ge by lia. cbn. symmetry. apply lookup_ge_None. lia.
Qed.

(** Writing and reading back, across direct and indirect blocks: when the
    blocks that [off .. off+n) falls into are present, [writei] returns [n],
    the bytes of the file change exactly there, the size grows to the end of
    the write, and a [readi] of the same range then returns the data. *)
Theorem writei_readi_roundtrip (s : fsys X) (v : fsys txv) (ip N src dst off : Z)
  (copyin : Z -> nat -> list byte) (copyout : Z -> list byte -> nat) (data : list byte)
  (Hs : fs_rep s v) (Hm : mapped t_dev v (inodes v ip) N) (Ha : inode_apart v (inodes v ip) N)
  (Hcp : copies copyin src data) (Hsrc : 0 <= src < 2 ^ 64) (Hdata : data <> [])
  (Hsp : space (Z.of_nat (length data) / BSIZE + 4) v)
  (Hsz : di_size (i_d (inodes v ip)) <= N * BSIZE) (Hoff : 0 <= off <= di_size (i_d (inodes v ip)))
  (Hend : off + Z.of_nat (length data) <= N * BSIZE) (Hout : forall d l, copyout d l = length l) :
  let n := Z.of_nat (length data) in
  exists s1 v1 s2, writei ip copyin src off n s = Done n s1 /\ fs_rep s1 v1 /\
    di_size (i_d (inodes v1 ip)) = Z.max (di_size (i_d (inodes v ip))) (off + n) /\
    (forall k, 0 <= k < N * BSIZE -> fbyte v1 (i_d (inodes v1 ip)) k = patched (fbyte v (i_d (inodes v ip))) off data k) /\
    readi ip copyout dst off n s1 = Done (n, data) s2 /\ fs_rep s2 v1.
Proof.
  intros n. set (i := inodes v ip) in *. assert (0 < n) as Hn by (unfold n; destruct data; [done|cbn; lia]).
  pose proof (mp_max _ _ _ _ Hm) as HN. change MAXFILE with 268 in HN.
  destruct (fwp_writei ip copyin src data N off v Hcp Hm Ha Hsrc Hsp Hn Hoff Hend s Hs)
    as (r & s1 & v1 & E & R & -> & Hsp1 & v0 & Hw & ->). fold i n in E, R, Hw.
  destruct (written_view i N off data v v0 ip n (write_dinode (blk v (iblk v i)) (ioff i) (i_d (grown i off n))) Hm Ha Hw) as [Hm1 Hb1].
  set (v1 := tx _ _) in *. assert (inodes v1 ip = grown i off n) as Ei by apply inodes_set.
  pose proof (fwp_readi ip copyout N dst off n v1) as Hrd. cbv zeta in Hrd. rewrite Ei in Hrd.
  change (di_size (i_d (grown i off n))) with (Z.max (di_size (i_d i)) (off + n)) in Hrd.
  destruct (Hrd Hm1 Hsp1 ltac:(lia) ltac:(unfold BSIZE; lia) ltac:(lia) ltac:(lia) ltac:(unfold BSIZE in *; lia) s1 R)
    as ([r l] & s2 & v2 & E2 & R2 & -> & Er & _ & Hl). cbn [fst snd] in Er, Hl. specialize (Hl Hout).
  replace (Z.min n (Z.max (di_size (i_d i)) (off + n) - off)) with n in Er, Hl by lia. subst r l.
  assert (content v1 (i_d (grown i off n)) off n = data) as Ec by (eapply content_patched; intros k Hk; apply Hb1; unfold n in *; lia).
  rewrite Ec in E2.
  exists s1, v1, s2. rewrite Ei. split_and!; try done.
Qed.

End File.
