(* ===== verification/FsDir.v ===== *)
(** * Directories and path names: dirlookup, dirlink, skipelem of kernel/fs.c *)

From S2P Require Import Prelude CMem Riscv Sleeplock BlockLayer Log Tx Fs FsBlocks FsInode FsFile.

(** ** Names *)

(** The characters of a name, up to its NUL and at most [n]. *)
Fixpoint cname (p : reader) (n : nat) : list byte :=
  match n with
  | O => []
  | S n' => if Byte.eqb (p 0%nat) Byte.x00 then [] else p 0%nat :: cname (advance p 1) n'
  end.

Lemma byte_eqb_eq (a b : byte) : Byte.eqb a b = true <-> a = b.
Proof. split; [apply Byte.byte_dec_bl|apply Byte.byte_dec_lb]. Qed.

Lemma strncmp_cname n : forall p q, strncmp_loop p q n = 0 <-> cname p n = cname q n.
Proof.
  induction n as [|n IH]; intros p q; cbn [strncmp_loop cname]; [done|].
  destruct (Byte.eqb (p 0%nat) Byte.x00) eqn:Ep; cbn [negb andb].
  - apply byte_eqb_eq in Ep. rewrite Ep. destruct (Byte.eqb (q 0%nat) Byte.x00) eqn:Eq.
    + apply byte_eqb_eq in Eq. rewrite Eq. done.
    + split; [|done]. intros H. exfalso. assert (byte.unsigned (q 0%nat) = byte.unsigned Byte.x00) as E by (cbn in *; lia).
      apply byte_eq in E. rewrite E in Eq. done.
  - destruct (Byte.eqb (p 0%nat) (q 0%nat)) eqn:Epq.
    + apply byte_eqb_eq in Epq. rewrite <- Epq, Ep, IH. split; [by intros ->|by intros [=]].
    + split.
      * intros H. exfalso. assert (p 0%nat = q 0%nat) as E by (apply byte_eq; lia). rewrite (proj2 (byte_eqb_eq _ _) E) in Epq. done.
      * destruct (Byte.eqb (q 0%nat) Byte.x00); [done|]. intros [= E _]. rewrite (proj2 (byte_eqb_eq _ _) E) in Epq. done.
Qed.

Lemma length_name_field n : forall p, length (name_field p n) = n.
Proof.
  induction n as [|n IH]; intros p; cbn [name_field]; [done|].
  destruct (Byte.eqb _ _); [apply length_replicate|]. cbn [length]. by rewrite IH.
Qed.

Lemma advance_cons c l : advance (of_list (c :: l)) 1 = of_list l.
Proof. done. Qed.

Lemma cname_name_field n : forall p, cname (of_list (name_field p n)) n = cname p n.
Proof.
  induction n as [|n IH]; intros p; cbn [name_field cname]; [done|].
  destruct (Byte.eqb (p 0%nat) Byte.x00) eqn:E; [done|]. unfold of_list at 1 2. cbn [nth]. rewrite E.
  by rewrite advance_cons, IH.
Qed.

(** ** Entries *)

Definition dent (v : fsys txv) (i : dinode) (k : Z) : list byte := content v i (DIRENT_SIZE * k) DIRENT_SIZE.

(** Entry [k] is in use for the name. *)
Definition dmatch (v : fsys txv) (i : dinode) (name : reader) (k : Z) : Prop :=
  de_inum (dent v i k) <> 0 /\ cname (of_list (de_name (dent v i k))) (Z.to_nat DIRSIZ) = cname name (Z.to_nat DIRSIZ).

Lemma namecmp_dmatch v i name k :
  de_inum (dent v i k) <> 0 -> (namecmp name (of_list (de_name (dent v i k))) =? 0) = true <-> dmatch v i name k.
Proof.
  intros H0. rewrite Z.eqb_eq. unfold namecmp, strncmp. rewrite strncmp_cname. unfold dmatch. intuition congruence.
Qed.

Section Dir.

Context {X : Type} `{TX : TxLayer X}.

(** A directory of [K] entries whose blocks are present. *)
Record is_dir (v : fsys txv) (dp K N : Z) : Prop := {
  id_type : di_type (i_d (inodes v dp)) = T_DIR;
  id_size : di_size (i_d (inodes v dp)) = DIRENT_SIZE * K;
  id_K : 0 <= K /\ DIRENT_SIZE * K <= N * BSIZE;
  id_mapped : mapped t_dev v (inodes v dp) N;
}.

Lemma dir_bounds v dp K N : is_dir v dp K N -> N * BSIZE <= 274432.
Proof. intros [_ _ _ H]. apply mp_max in H. change MAXFILE with 268 in H. unfold BSIZE. lia. Qed.

Lemma fwp_dirent dp K N k (Q : Z * list byte -> fsys txv -> Prop) v :
  is_dir v dp K N -> space 1 v -> 0 <= k < K -> Q (DIRENT_SIZE, dent v (i_d (inodes v dp)) k) v ->
  fwp (readi dp kernel_dst 0 (DIRENT_SIZE * k) DIRENT_SIZE) Q v.
Proof.
  intros Hd Hsp Hk HQ. pose proof (dir_bounds _ _ _ _ Hd) as Hb. destruct Hd as [H1 H2 [H3 H3'] H4].
  pose proof (fwp_readi dp kernel_dst N 0 (DIRENT_SIZE * k) DIRENT_SIZE v H4 Hsp) as L. cbv zeta in L. rewrite H2 in L.
  unfold DIRENT_SIZE in *. eapply fwp_mono; [|apply L; lia]. intros [r l] v' (-> & Er & _ & Hl). cbn [fst snd] in *.
  rewrite Hl in * by done. replace (Z.min 16 (16 * K - 16 * k)) with 16 in * by lia. subst r. exact HQ.
Qed.

(** How a lookup ends. *)
Definition looked_up (v : fsys txv) (dp K : Z) (name : reader) (k0 : Z) (r : option (Z * Z)) (v' : fsys txv) : Prop :=
  match r with
  | None => v' = v /\ forall k, k0 <= k < K -> ~ dmatch v (i_d (inodes v dp)) name k
  | Some (ip, off) => exists k, off = DIRENT_SIZE * k /\ k0 <= k < K /\ dmatch v (i_d (inodes v dp)) name k /\
      (forall k', k0 <= k' < k -> ~ dmatch v (i_d (inodes v dp)) name k') /\
      gotten v t_dev (de_inum (dent v (i_d (inodes v dp)) k)) ip v'
  end.

Definition cache_room (v : fsys txv) : Prop := ic_lock v = false /\ exists j, in_cache j /\ i_ref (inodes v j) = 0.

Lemma fwp_dirlookup_loop dp K N name v : is_dir v dp K N -> space 1 v -> cache_room v -> forall fuel k,
  0 <= k <= K -> K - k <= Z.of_nat fuel ->
  fwp (dirlookup_loop dp name (DIRENT_SIZE * k) fuel) (looked_up v dp K name k) v.
Proof.
  intros Hd Hsp [Hl [j [Hj Hj0]]]. pose proof (dir_bounds _ _ _ _ Hd) as Hb. pose proof Hd as [H1 H2 [H3 H3'] H4].
  assert (forall k r v', 0 <= k < K -> ~ dmatch v (i_d (inodes v dp)) name k -> looked_up v dp K name (k + 1) r v' -> looked_up v dp K name k r v') as Hskip.
  { intros k r v' Hk Hno. destruct r as [[ip off]|]; cbn.
    - intros (k' & E & Hk' & Hm & Hn & Hg). exists k'. split_and!; try done; try lia.
      intros k'' Hk''. destruct (decide (k'' = k)) as [->|]; [done|]. apply Hn. lia.
    - intros [-> Hn]. split; [done|]. intros k'' Hk''. destruct (decide (k'' = k)) as [->|]; [done|]. apply Hn. lia. }
  induction fuel as [|fuel IH]; intros k Hk Hf; cbn [dirlookup_loop]; apply fwp_bind, fwp_inode; rewrite H2;
    (destruct (Z.ltb_spec (DIRENT_SIZE * k) (DIRENT_SIZE * K)) as [Hlt|Hge];
     [|apply fwp_ret; split; [done|]; unfold DIRENT_SIZE in *; intros; lia]); unfold DIRENT_SIZE in Hlt; [lia|].
  apply fwp_bind. eapply fwp_dirent; [done|done|lia|]. cbn [fst snd]. rewrite Z.eqb_refl. cbn [negb].
  assert (u32 (DIRENT_SIZE * k + DIRENT_SIZE) = DIRENT_SIZE * (k + 1)) as -> by (rewrite u32_small; unfold DIRENT_SIZE in *; lia).
  set (de := dent v (i_d (inodes v dp)) k). destruct (Z.eqb_spec (de_inum de) 0) as [E0|E0].
  - eapply fwp_mono; [|apply IH; lia]. intros r v'. apply Hskip; [lia|]. intros [Hx _]. by apply Hx.
  - pose proof (namecmp_dmatch v (i_d (inodes v dp)) name k E0) as Hcmp. fold de in Hcmp.
    destruct (namecmp name (of_list (de_name de)) =? 0) eqn:Ec.
    + rewrite (mp_dev _ _ _ _ H4). apply fwp_bind. apply fwp_iget; [done|exists j; auto|]. intros ip v' Hg.
      apply fwp_ret. exists k. split; [done|]. split; [lia|]. split; [by apply Hcmp|]. split; [intros; lia|done].
    + eapply fwp_mono; [|apply IH; lia]. intros r v'. apply Hskip; [lia|]. intros Hm. apply Hcmp in Hm. done.
Qed.

Lemma fwp_dirlookup dp K N name v :
  is_dir v dp K N -> space 1 v -> cache_room v -> fwp (dirlookup dp name) (looked_up v dp K name 0) v.
Proof.
  intros Hd Hsp Hc. pose proof Hd as [H1 H2 [H3 H3'] H4]. unfold dirlookup. apply fwp_bind, fwp_inode. rewrite H1. cbn.
  eapply (fwp_dirlookup_loop dp K N name v Hd Hsp Hc _ 0); [lia|]. rewrite H2. unfold DIRENT_SIZE. rewrite Z2Nat.id by divlia. divlia.
Qed.

(** Looking a name up in a directory finds the first entry in use with
    that name (compared up to 14 characters or the NUL) and returns the cache
    entry of its inode with the offset of the entry, or reports that no entry
    has the name; the directory itself is not changed. *)
Theorem dirlookup_finds (s : fsys X) (v : fsys txv) (dp K N : Z) (name : reader)
  (Hs : fs_rep s v) (Hd : is_dir v dp K N) (Hsp : space 1 v) (Hc : cache_room v) :
  exists r s' v', dirlookup dp name s = Done r s' /\ fs_rep s' v' /\ looked_up v dp K name 0 r v'.
Proof.
  destruct (fwp_dirlookup dp K N name v Hd Hsp Hc s Hs) as (r & s' & v' & E & R & H). by exists r, s', v'.
Qed.

(** ** Adding an entry *)

Lemma fwp_dirlink_loop dp K N v : is_dir v dp K N -> space 1 v -> forall fuel k,
  0 <= k <= K -> K - k <= Z.of_nat fuel ->
  fwp (dirlink_loop dp (DIRENT_SIZE * k) fuel) (fun off v' => v' = v /\ exists k', off = DIRENT_SIZE * k' /\ k <= k' <= K /\
    (k' = K \/ de_inum (dent v (i_d (inodes v dp)) k') = 0)) v.
Proof.
  intros Hd Hsp. pose proof (dir_bounds _ _ _ _ Hd) as Hb. pose proof Hd as [H1 H2 [H3 H3'] H4].
  induction fuel as [|fuel IH]; intros k Hk Hf; cbn [dirlink_loop]; apply fwp_bind, fwp_inode; rewrite H2;
    (destruct (Z.ltb_spec (DIRENT_SIZE * k) (DIRENT_SIZE * K)) as [Hlt|Hge];
     [|apply fwp_ret; split; [done|]; exists k; unfold DIRENT_SIZE in *; split; [done|]; split; [lia|left; lia]]);
    unfold DIRENT_SIZE in Hlt; [lia|].
  apply fwp_bind. eapply fwp_dirent; [done|done|lia|]. cbn [fst snd]. rewrite Z.eqb_refl. cbn [negb].
  destruct (Z.eqb_spec (de_inum (dent v (i_d (inodes v dp)) k)) 0) as [E0|E0].
  - apply fwp_ret. split; [done|]. exists k. split; [done|]. split; [lia|by right].
  - replace (DIRENT_SIZE * k + DIRENT_SIZE) with (DIRENT_SIZE * (k + 1)) by (unfold DIRENT_SIZE; lia).
    eapply fwp_mono; [|apply IH; lia]. intros off v' (-> & k' & -> & Hk' & Hor). split; [done|]. exists k'. split; [done|]. split; [lia|done].
Qed.

Definition new_entry (name : reader) (inum : Z) : list byte := le_split 2 inum ++ name_field name (Z.to_nat DIRSIZ).

Lemma length_new_entry name inum : Z.of_nat (length (new_entry name inum)) = DIRENT_SIZE.
Proof. unfold new_entry. rewrite length_app, length_le_split, length_name_field. done. Qed.

Lemma new_entry_inum name inum : de_inum (new_entry name inum) = u16 inum.
Proof. unfold de_inum, new_entry. rewrite take_app_length' by (by rewrite length_le_split). apply le_combine_split. Qed.

Lemma new_entry_name name inum : cname (of_list (de_name (new_entry name inum))) (Z.to_nat DIRSIZ) = cname name (Z.to_nat DIRSIZ).
Proof. unfold de_name, new_entry. rewrite drop_app_length' by (by rewrite length_le_split). apply cname_name_field. Qed.

Lemma copies_kernel l : Z.of_nat (length l) < 2 ^ 64 -> copies (kernel_src l) 0 l.
Proof. intros H a m Ha Hm. unfold kernel_src. rewrite Z.add_0_l, u64_small by lia. done. Qed.

Lemma dent_patched v v' i i' N k k' e :
  (forall j, 0 <= j < N * BSIZE -> fbyte v' i' j = patched (fbyte v i) (DIRENT_SIZE * k) e j) ->
  Z.of_nat (length e) = DIRENT_SIZE -> 0 <= k -> 0 <= k' -> DIRENT_SIZE * (k' + 1) <= N * BSIZE ->
  dent v' i' k' = if decide (k' = k) then e else dent v i k'.
Proof.
  intros H He Hk Hk' HN. unfold DIRENT_SIZE in *. destruct (decide (k' = k)) as [->|Hne].
  - unfold dent, DIRENT_SIZE. pose proof (content_patched v v' i i' (16 * k) e) as L. rewrite He in L. apply L. intros j Hj. apply H. lia.
  - unfold dent, content. apply map_ext_in. intros j Hj%list_elem_of_In%elem_of_seqZ. unfold DIRENT_SIZE in Hj.
    rewrite H by lia. unfold patched. rewrite He. destruct (Z.leb_spec (16 * k) j), (Z.ltb_spec j (16 * k + 16)); try done. lia.
Qed.

Lemma fwp_dirlink pid dp K N name inum fuel v :
  is_dir v dp K N -> inode_apart v (inodes v dp) N -> cache_room v -> space 4 v ->
  DIRENT_SIZE * (K + 1) <= N * BSIZE ->
  (forall k, 0 <= k < K -> ~ dmatch v (i_d (inodes v dp)) name k) ->
  fwp (dirlink pid dp name inum fuel) (fun r v' => r = 0 /\ space 1 v' /\ cache_room v' /\ exists k K', 0 <= k <= K /\ K' = Z.max K (k + 1) /\
    (k = K \/ de_inum (dent v (i_d (inodes v dp)) k) = 0) /\ is_dir v' dp K' N /\
    forall k', 0 <= k' < K' -> dent v' (i_d (inodes v' dp)) k' = if decide (k' = k) then new_entry name inum else dent v (i_d (inodes v dp)) k') v.
Proof.
  intros Hd Ha Hc Hsp HN Hno. pose proof Hd as [H1 H2 [H3 H3'] H4]. assert (space 1 v) as Hsp1 by (eapply space_mono; [|exact Hsp]; lia).
  unfold dirlink. apply fwp_bind. eapply fwp_mono; [|by apply (fwp_dirlookup dp K N name v)].
  intros [[ip off]|] v'; cbn [looked_up]; [intros (k & _ & Hk & Hm & _); by apply Hno in Hm|]. intros [-> _].
  apply fwp_bind, fwp_inode. apply fwp_bind. eapply fwp_mono;
    [|eapply (fwp_dirlink_loop dp K N v Hd Hsp1 _ 0); [lia|rewrite H2; unfold DIRENT_SIZE; rewrite Z2Nat.id by divlia; divlia]].
  intros off v' (-> & k & -> & Hk & Hor). fold (new_entry name inum). set (e := new_entry name inum).
  pose proof (length_new_entry name inum) as He. fold e in He. apply fwp_bind.
  pose proof (fwp_writei dp (kernel_src e) 0 e N (DIRENT_SIZE * k) v) as Hw. cbv zeta in Hw. rewrite He in Hw.
  eapply fwp_mono; [|apply Hw; try done; try (apply copies_kernel; rewrite He; done); unfold DIRENT_SIZE in *; lia].
  intros r v' (-> & Hsp' & v1 & Hfw & ->). rewrite Z.eqb_refl. cbn [negb].
  match goal with |- context [v_write _ ?d] => destruct (written_view _ N _ e v v1 dp DIRENT_SIZE d H4 Ha Hfw) as [Hm' Hb'] end. apply fwp_ret. split; [done|]. split; [done|].
  set (v' := tx _ _) in *. set (i := inodes v dp) in *. assert (inodes v' dp = grown i (DIRENT_SIZE * k) DIRENT_SIZE) as Ei by apply inodes_set.
  split.
  { destruct Hc as [Hl (j & Hj & Hj0)]. split; [cbn; by rewrite (fw_lock _ _ _ _ _ _ Hfw)|]. exists j. split; [done|].
    destruct (decide (j = dp)) as [->|Hne]; [by rewrite Ei|]. cbn. rewrite fset_ne by done. by rewrite (fw_inodes _ _ _ _ _ _ Hfw). }
  exists k, (Z.max K (k + 1)). split; [done|]. split; [done|]. split; [done|]. rewrite Ei. split.
  - split; rewrite ?Ei; [done| |unfold DIRENT_SIZE in *; lia|done]. cbn. fold i in H2. rewrite H2. unfold DIRENT_SIZE. lia.
  - intros k' Hk'. apply (dent_patched v v' (i_d i) _ N k k' e); try done; unfold DIRENT_SIZE in *; lia.
Qed.

(** A new entry is found again: linking a name that the directory does not
    have returns 0, fills a free entry (or one past the end), keeps every other
    entry, and a lookup of the name afterwards returns the inode that was
    linked, however long the name is. *)
Theorem dirlink_then_lookup (s : fsys X) (v : fsys txv) (pid dp K N inum : Z) (name : reader) (fuel : nat)
  (Hs : fs_rep s v) (Hd : is_dir v dp K N) (Ha : inode_apart v (inodes v dp) N) (Hc : cache_room v) (Hsp : space 4 v)
  (HN : DIRENT_SIZE * (K + 1) <= N * BSIZE) (Hi : 0 < inum < 2 ^ 16)
  (Hno : forall k, 0 <= k < K -> ~ dmatch v (i_d (inodes v dp)) name k) :
  exists s1 v1 k ip s2 v2, dirlink pid dp name inum fuel s = Done 0 s1 /\ fs_rep s1 v1 /\ 0 <= k <= K /\
    (forall k', 0 <= k' < K -> k' <> k -> dent v1 (i_d (inodes v1 dp)) k' = dent v (i_d (inodes v dp)) k') /\
    dirlookup dp name s1 = Done (Some (ip, DIRENT_SIZE * k)) s2 /\ fs_rep s2 v2 /\ gotten v1 t_dev inum ip v2.
Proof.
  destruct (fwp_dirlink pid dp K N name inum fuel v Hd Ha Hc Hsp HN Hno s Hs)
    as (r & s1 & v1 & E1 & R1 & -> & Hsp1 & Hc1 & k & K' & Hk & -> & Hor & Hd1 & Hent).
  destruct (fwp_dirlookup dp _ N name v1 Hd1 Hsp1 Hc1 s1 R1) as (r & s2 & v2 & E2 & R2 & Hlk).
  assert (dmatch v1 (i_d (inodes v1 dp)) name k) as Hmk.
  { unfold dmatch. rewrite Hent, decide_True by (try done; lia). rewrite new_entry_inum, new_entry_name. split; [|done].
    unfold u16. rewrite Z.mod_small by lia. lia. }
  assert (forall k', 0 <= k' < Z.max K (k + 1) -> k' <> k -> ~ dmatch v1 (i_d (inodes v1 dp)) name k') as Hothers.
  { intros k' Hk' Hne. unfold dmatch. rewrite Hent, decide_False by (try done; lia). apply Hno. lia. }
  destruct r as [[ip off]|]; cbn [looked_up] in Hlk.
  2: { destruct Hlk as [_ Hn]. exfalso. apply (Hn k); [lia|done]. }
  destruct Hlk as (k1 & -> & Hk1 & Hm1 & _ & Hg). destruct (decide (k1 = k)) as [->|Hne]; [|by apply Hothers in Hm1].
  rewrite Hent, decide_True, new_entry_inum in Hg by (try done; lia). unfold u16 in Hg. rewrite Z.mod_small in Hg by lia.
  exists s1, v1, k, ip, s2, v2. split_and!; try done; try lia.
  intros k' Hk' Hne. rewrite Hent, decide_False by (try done; lia). done.
Qed.

End Dir.

(** ** Path names *)

(** Reference: the non-empty pieces between slashes. *)
Definition flush (cur : list byte) : list (list byte) := match cur with [] => [] | _ => [cur] end.
Fixpoint pieces (cur path : list byte) : list (list byte) :=
  match path with
  | [] => flush cur
  | c :: rest => if is_slash c then flush cur ++ pieces [] rest else pieces (cur ++ [c]) rest
  end.
Definition components (path : list byte) : list (list byte) := pieces [] path.

(** The names that repeated [skipelem] puts into the buffer, as [namex] sees
    them. *)
Fixpoint path_walk (path name : list byte) (fuel : nat) : option (list (list byte)) :=
  match skipelem path name with
  | None => Some []
  | Some (name', path') =>
      match fuel with
      | O => None
      | S f => l ← path_walk path' name' f; Some (cname (of_list name') (Z.to_nat DIRSIZ) :: l)
      end
  end.

Lemma pieces_skip path : components (skip_slashes path) = components path.
Proof.
  induction path as [|c path IH]; [done|]. cbn [skip_slashes]. destruct (is_slash c) eqn:E; [|done].
  rewrite IH. unfold components. cbn [pieces]. by rewrite E.
Qed.

Lemma pieces_elem path : forall cur, pieces cur path = flush (cur ++ fst (path_elem path)) ++ components (snd (path_elem path)).
Proof.
  induction path as [|c path IH]; intros cur; cbn [path_elem]; [cbn; by rewrite !app_nil_r|].
  destruct (is_slash c) eqn:E; cbn [fst snd].
  - rewrite app_nil_r. cbn [pieces]. rewrite E. unfold components. cbn [pieces]. by rewrite E.
  - cbn [pieces]. rewrite E, IH. by rewrite <- app_assoc.
Qed.

Lemma skip_slashes_length path : (length (skip_slashes path) <= length path)%nat.
Proof. induction path as [|c path IH]; cbn; [lia|]. destruct (is_slash c); cbn; lia. Qed.

Lemma path_elem_app path : fst (path_elem path) ++ snd (path_elem path) = path.
Proof. induction path as [|c path IH]; cbn; [done|]. destruct (is_slash c); cbn; [done|]. by rewrite IH. Qed.

Lemma skip_slashes_head path c rest : skip_slashes path = c :: rest -> is_slash c = false.
Proof. induction path as [|d path IH]; cbn; [done|]. destruct (is_slash d) eqn:E; [done|]. by intros [= -> _]. Qed.

Lemma cname_take n : forall l, Forall (fun c => c <> Byte.x00) l -> (n <= length l)%nat -> forall r, cname (of_list (take n l ++ r)) n = take n l.
Proof.
  induction n as [|n IH]; intros l Hl Hn r; [done|]. destruct l as [|c l]; cbn [length] in Hn; [lia|].
  apply Forall_cons in Hl as [Hc Hl]. cbn [take app cname]. unfold of_list at 1 2. cbn [nth].
  destruct (Byte.eqb c Byte.x00) eqn:E; [by apply byte_eqb_eq in E|]. rewrite advance_cons, IH by (done || lia). done.
Qed.

Lemma cname_short n : forall l, Forall (fun c => c <> Byte.x00) l -> (length l < n)%nat -> forall r, cname (of_list (l ++ Byte.x00 :: r)) n = l.
Proof.
  induction n as [|n IH]; intros l Hl Hn r; [lia|]. destruct l as [|c l]; [done|]. apply Forall_cons in Hl as [Hc Hl].
  cbn [app cname length] in *. unfold of_list at 1 2. cbn [nth]. destruct (Byte.eqb c Byte.x00) eqn:E; [by apply byte_eqb_eq in E|].
  rewrite advance_cons, IH by (done || lia). done.
Qed.

Lemma inserts_front (l name : list byte) : (length l <= length name)%nat -> list_inserts 0 l name = l ++ drop (length l) name.
Proof.
  intros H. rewrite <- (take_drop (length l) name) at 1. rewrite list_inserts_0_r; [done|]. rewrite length_take. lia.
Qed.

Lemma components_nonempty c rest : is_slash c = false -> components (c :: rest) <> [].
Proof. intros H. unfold components. rewrite pieces_elem. cbn [path_elem app]. by rewrite H. Qed.

(** The buffer after [skipelem]: the component, cut to 14 characters. *)
Lemma skipelem_spec path name :
  Forall (fun c => c <> Byte.x00) path -> Z.of_nat (length name) = DIRSIZ ->
  match skipelem path name with
  | None => components path = []
  | Some (name', path') => exists s, components path = s :: components path' /\
      cname (of_list name') (Z.to_nat DIRSIZ) = take (Z.to_nat DIRSIZ) s /\
      Z.of_nat (length name') = DIRSIZ /\ (length path' < length path)%nat /\ Forall (fun c => c <> Byte.x00) path' /\
      (forall c rest, path' = c :: rest -> is_slash c = false)
  end.
Proof.
  intros Hnz Hname. unfold skipelem. pose proof (skip_slashes_length path) as Hlen.
  assert (Forall (fun c => c <> Byte.x00) (skip_slashes path)) as Hp.
  { clear Hlen. induction path as [|c path IH]; [done|]. cbn [skip_slashes]. apply Forall_cons in Hnz as [? ?].
    destruct (is_slash c); [by apply IH|by constructor]. }
  rewrite <- pieces_skip. destruct (skip_slashes path) as [|c p] eqn:Es; [done|]. pose proof (skip_slashes_head _ _ _ Es) as Hc.
  pose proof (path_elem_app (c :: p)) as Happ. pose proof (pieces_elem (c :: p) []) as Hpc. cbn [app] in Hpc.
  destruct (path_elem (c :: p)) as [s rest] eqn:Ee. cbn [fst snd] in *.
  assert (s <> []) as Hs by (cbn [path_elem] in Ee; rewrite Hc in Ee; by injection Ee as <- _).
  rewrite <- Happ in Hp. apply Forall_app in Hp as [Hps Hpr]. exists s. split_and!.
  - unfold components at 1. rewrite Hpc, pieces_skip. by destruct s.
  - unfold DIRSIZ in *. destruct (Z.geb_spec (Z.of_nat (length s)) 14).
    + rewrite inserts_front by (rewrite length_take; lia). change (Z.to_nat 14) with 14%nat. apply cname_take; [done|lia].
    + rewrite inserts_front by (rewrite length_app; cbn; lia). rewrite <- app_assoc. change (Z.to_nat 14) with 14%nat. rewrite (take_ge s) by lia. apply cname_short; [done|lia].
  - destruct (_ >=? _); by rewrite length_inserts.
  - pose proof (skip_slashes_length rest). rewrite <- Happ, length_app in Hlen. destruct s; [done|]. cbn in *. lia.
  - clear -Hpr. induction rest as [|d rest IH]; [done|]. cbn [skip_slashes]. apply Forall_cons in Hpr as [? ?].
    destruct (is_slash d); [by apply IH|by constructor].
  - intros d r Hd. by eapply skip_slashes_head.
Qed.

(** Walking a path: repeated [skipelem] terminates and yields exactly the
    non-empty pieces between slashes, in order and each cut to 14 characters,
    whatever the number of leading, doubled or trailing slashes; the rest it
    returns is empty exactly after the last piece. *)
Theorem skipelem_walks_components (path name : list byte)
  (Hnz : Forall (fun c => c <> Byte.x00) path) (Hname : Z.of_nat (length name) = DIRSIZ) :
  path_walk path name (length path) = Some (map (take (Z.to_nat DIRSIZ)) (components path)) /\
  forall name' path', skipelem path name = Some (name', path') -> path' = [] <-> length (components path) = 1%nat.
Proof.
  split.
  - remember (length path) as n eqn:En. assert (length path <= n)%nat as Hn by lia. clear En. revert path name Hnz Hname Hn.
    induction n as [|n IH]; intros path name Hnz Hname Hn; cbn [path_walk]; pose proof (skipelem_spec path name Hnz Hname) as Hs;
      (destruct (skipelem path name) as [[name' path']|]; [|by rewrite Hs]); destruct Hs as (s & Hc & Hcn & Hln & Hlt & Hnz' & _); [lia|].
    rewrite IH by (done || lia). cbn. by rewrite Hcn, Hc.
  - intros name' path' E. pose proof (skipelem_spec path name Hnz Hname) as Hs. rewrite E in Hs.
    destruct Hs as (s & Hc & _ & _ & _ & _ & Hhead). rewrite Hc. cbn [length]. split; [by intros ->|].
    intros Hl. destruct path' as [|c rest]; [done|]. exfalso. specialize (Hhead c rest eq_refl).
    apply (components_nonempty c rest Hhead), nil_length_inv. lia.
Qed.

Lemma skipelem_walks_components_witness :
  path_walk (map byte.of_Z [47; 47; 97; 47; 98; 98; 47]) (replicate 14 Byte.x00) 7 = Some [[byte.of_Z 97]; [byte.of_Z 98; byte.of_Z 98]].
Proof.
  refine (proj1 (skipelem_walks_components (map byte.of_Z [47; 47; 97; 47; 98; 98; 47]) (replicate 14 Byte.x00) _ eq_refl)).
  repeat constructor; discriminate.
Defined.
