(* ===== verification/FsSpace.v ===== *)
(** * Which block belongs to what

    The space of the file system: every inode owns the blocks its address
    slots name (twelve direct addresses, the indirect block, and the addresses
    in that block); no block is owned twice, and the bitmap marks exactly the
    owned data blocks and the blocks before them.  [bmap], which allocates
    blocks on demand, keeps it that way. *)

From S2P Require Import Prelude CMem Riscv Sleeplock BlockLayer Log Tx Fs FsBlocks FsInode FsFile.

(** ** Address slots *)

Definition NSLOT : Z := MAXFILE + 1.

(** Slots 0 to 11 are the direct addresses, 12 is the indirect block, the rest
    are the addresses in it. *)
Definition slot (v : fsys txv) (d : dinode) (k : Z) : Z :=
  if k <=? NDIRECT then addr_at d k
  else if addr_at d NDIRECT =? 0 then 0 else getf 4 (blk v (addr_at d NDIRECT)) (4 * (k - NDIRECT - 1)).

(** The slot of block [bn] of the file. *)
Definition bslot (bn : Z) : Z := if bn <? NDIRECT then bn else bn + 1.

(** The bytes of a file; where it has no block they are zero. *)
Definition hbyte (v : fsys txv) (d : dinode) (k : Z) : byte :=
  let a := slot v d (bslot (k / BSIZE)) in
  if a =? 0 then Byte.x00 else nth (Z.to_nat (k mod BSIZE)) (blk v a) Byte.x00.

(** The first data block. *)
Definition dstart (sb : superblock) : Z := sb_size sb - sb_nblocks sb.

(** The areas follow each other as mkfs lays them out. *)
Record sb_ok (sb : superblock) : Prop := {
  so_inode : 0 <= sb_inodestart sb;
  so_inodes : 0 <= sb_ninodes sb < 2 ^ 32;
  so_bmap : sb_inodestart sb + sb_ninodes sb / IPB < sb_bmapstart sb;
  so_data : sb_bmapstart sb + sb_size sb / BPB < dstart sb;
  so_blocks : 0 <= sb_nblocks sb;
  so_size : sb_size sb <= 2 ^ 31;
}.

Definition inum_ok (sb : superblock) (inum : Z) : Prop := 0 <= inum < sb_ninodes sb.
Definition slot_ok (k : Z) : Prop := 0 <= k < NSLOT.

(** Inode [inum] owns block [b] through slot [k]; [I] gives the inodes. *)
Definition owns (v : fsys txv) (I : Z -> dinode) (inum k b : Z) : Prop :=
  inum_ok (f_sb v) inum /\ slot_ok k /\ slot v (I inum) k = b /\ b <> 0.

Record accounted (v : fsys txv) (I : Z -> dinode) : Prop := {
  ac_sb : sb_ok (f_sb v);
  ac_len b : 0 <= b < sb_size (f_sb v) -> Z.of_nat (length (blk v b)) = BSIZE;
  ac_dinode inum : inum_ok (f_sb v) inum -> dinode_ok (I inum);
  ac_meta b : 0 <= b < dstart (f_sb v) -> blk_free v b = false;
  ac_range inum k b : owns v I inum k b -> dstart (f_sb v) <= b < sb_size (f_sb v) /\ blk_free v b = false;
  ac_once inum k inum' k' b : owns v I inum k b -> owns v I inum' k' b -> inum = inum' /\ k = k';
  ac_all b : dstart (f_sb v) <= b < sb_size (f_sb v) -> blk_free v b = false -> exists inum k, owns v I inum k b;
}.

(** The invariant of the disk. *)
Definition space_ok (v : fsys txv) : Prop := accounted v (inode_at v).

(** ** Layout *)

Section Layout.

Context (sb : superblock) (Hsb : sb_ok sb).

Lemma bblock_range b : 0 <= b < sb_size sb -> BBLOCK b sb = b / BPB + sb_bmapstart sb /\ 0 <= BBLOCK b sb < dstart sb.
Proof.
  intros Hb. destruct Hsb as [A B C D E F]. unfold BBLOCK, dstart in *. change BPB with 8192 in *. change IPB with 16 in *.
  rewrite u32_small by (change (2 ^ 31) with 2147483648 in *; divlia). split; [done|]. divlia.
Qed.

Lemma iblock_range inum : inum_ok sb inum -> 0 <= IBLOCK inum sb < dstart sb /\ forall b, 0 <= b < sb_size sb -> IBLOCK inum sb <> BBLOCK b sb.
Proof.
  intros Hi. pose proof Hsb as [A B C D E F]. assert (0 <= sb_size sb) as Hs.
  { unfold dstart in D. change BPB with 8192 in *. change IPB with 16 in *. divlia. }
  unfold inum_ok, IBLOCK, dstart in *. change BPB with 8192 in *. change IPB with 16 in *.
  rewrite u32_small by (change (2 ^ 31) with 2147483648 in *; divlia). split; [divlia|].
  intros b Hb. destruct (bblock_range b Hb) as [-> _]. change BPB with 8192. divlia.
Qed.

Lemma dstart_size : 0 < dstart sb <= sb_size sb.
Proof. destruct Hsb as [A B C D E F]. unfold dstart in *. change BPB with 8192 in *. change IPB with 16 in *. divlia. Qed.

End Layout.

(** ** Slots under changes *)

Lemma slot_bslot v d bn : bn < NDIRECT \/ addr_at d NDIRECT <> 0 -> slot v d (bslot bn) = faddr v d bn.
Proof.
  intros H. unfold slot, bslot, faddr. destruct (Z.ltb_spec bn NDIRECT).
  - by rewrite (proj2 (Z.leb_le bn NDIRECT)) by lia.
  - rewrite (proj2 (Z.leb_gt (bn + 1) NDIRECT)) by lia. destruct H as [H|H]; [lia|]. rewrite (proj2 (Z.eqb_neq _ _) H). f_equal. lia.
Qed.

Lemma bslot_ok bn : 0 <= bn < MAXFILE -> slot_ok (bslot bn) /\ bslot bn <> NDIRECT.
Proof. intros H. unfold slot_ok, bslot, NSLOT. destruct (Z.ltb_spec bn NDIRECT); unfold NDIRECT in *; lia. Qed.

Lemma bslot_inj bn bn' : bslot bn = bslot bn' -> bn = bn'.
Proof. unfold bslot. destruct (Z.ltb_spec bn NDIRECT), (Z.ltb_spec bn' NDIRECT); lia. Qed.

(** The slots depend on the indirect block only. *)
Lemma slot_ext v v' d k : (addr_at d NDIRECT <> 0 -> blk v' (addr_at d NDIRECT) = blk v (addr_at d NDIRECT)) -> slot v' d k = slot v d k.
Proof.
  intros H. unfold slot. destruct (k <=? NDIRECT); [done|]. destruct (Z.eqb_spec (addr_at d NDIRECT) 0); [done|]. by rewrite H.
Qed.

Lemma slot_indirect v d : slot v d NDIRECT = addr_at d NDIRECT.
Proof. reflexivity. Qed.

Section Accounted.

Context (v : fsys txv) (I : Z -> dinode) (Hac : accounted v I).

Lemma slot_range inum k : inum_ok (f_sb v) inum -> slot_ok k -> slot v (I inum) k <> 0 ->
  dstart (f_sb v) <= slot v (I inum) k < sb_size (f_sb v) /\ blk_free v (slot v (I inum) k) = false.
Proof. intros Hi Hk Hne. by apply (ac_range _ _ Hac inum k). Qed.

Lemma slot_once inum k inum' k' : inum_ok (f_sb v) inum -> slot_ok k -> inum_ok (f_sb v) inum' -> slot_ok k' ->
  slot v (I inum) k <> 0 -> slot v (I inum) k = slot v (I inum') k' -> inum = inum' /\ k = k'.
Proof. intros Hi Hk Hi' Hk' Hne E. apply (ac_once _ _ Hac inum k inum' k' (slot v (I inum) k)); [by split_and!|]. split_and!; try done. Qed.

Lemma accounted_bitmap : bitmap_ok v.
Proof.
  intros b Hb. destruct (bblock_range (f_sb v) (ac_sb _ _ Hac) b Hb) as [_ Hr]. pose proof (dstart_size _ (ac_sb _ _ Hac)).
  split; [apply (ac_len _ _ Hac); lia|]. split; [lia|]. apply (ac_meta _ _ Hac). lia.
Qed.

Lemma free_is_data b : 0 <= b -> blk_free v b = true -> dstart (f_sb v) <= b.
Proof. intros H0 Hf. destruct (decide (b < dstart (f_sb v))); [|lia]. rewrite (ac_meta _ _ Hac) in Hf by lia. done. Qed.

(** Nothing is owned that is free. *)
Lemma free_not_owned b : blk_free v b = true -> forall inum k, ~ owns v I inum k b.
Proof. intros Hf inum k Ho. apply (ac_range _ _ Hac) in Ho as [_ Ho]. congruence. Qed.

End Accounted.

Lemma accounted_ext v I I' : (forall inum, inum_ok (f_sb v) inum -> I inum = I' inum) -> accounted v I -> accounted v I'.
Proof.
  intros HI Hac. assert (forall inum k b, owns v I' inum k b <-> owns v I inum k b) as Ho.
  { intros inum k b. unfold owns. split; intros (H1 & H2 & H3 & H4); split_and!; try done; [by rewrite HI|by rewrite <- HI]. }
  destruct Hac as [A B C D E F G]. split; try done.
  - intros inum Hi. rewrite <- HI by done. by apply C.
  - intros inum k b H%Ho. by apply (E inum k).
  - intros inum k inum' k' b H%Ho H'%Ho. by apply (F inum k inum' k' b).
  - intros b Hb Hf. destruct (G b Hb Hf) as (inum & k & H%Ho). by exists inum, k.
Qed.

(** One more owner of a block that was free. *)
Lemma accounted_give v I v' I' inum k r :
  accounted v I -> inum_ok (f_sb v) inum -> slot_ok k ->
  0 <= r < sb_size (f_sb v) -> blk_free v r = true -> f_sb v' = f_sb v ->
  (forall b, 0 <= b < sb_size (f_sb v) -> length (blk v' b) = length (blk v b)) ->
  (forall b, 0 <= b < sb_size (f_sb v) -> blk_free v' b = blk_free v b && negb (b =? r)) ->
  (forall inum, inum_ok (f_sb v) inum -> dinode_ok (I' inum)) ->
  (forall inum' k' b, owns v' I' inum' k' b <-> owns v I inum' k' b \/ (inum' = inum /\ k' = k /\ b = r)) ->
  accounted v' I'.
Proof.
  intros Hac Hi Hk Hr Hf Hsb Hlen Hfree Hdi Ho. pose proof (free_is_data v I Hac r ltac:(lia) Hf) as Hrd.
  pose proof (dstart_size _ (ac_sb _ _ Hac)) as Hds. pose proof Hac as [A B C D E F G]. split; rewrite ?Hsb; try done.
  - intros b Hb. rewrite Hlen by done. by apply B.
  - intros b Hb. rewrite Hfree, D by lia. done.
  - intros j kk b [H|(-> & -> & ->)]%Ho.
    + apply E in H as [H1 H2]. split; [done|]. rewrite Hfree, H2 by lia. done.
    + split; [lia|]. rewrite Hfree, Z.eqb_refl, andb_false_r by lia. done.
  - intros j kk j' kk' b [H|(-> & -> & ->)]%Ho [H'|(-> & -> & E')]%Ho; try done.
    + by apply (F j kk j' kk' b).
    + subst b. by apply (free_not_owned v I Hac r Hf) in H.
    + by apply (free_not_owned v I Hac r Hf) in H'.
  - intros b Hb Hbf. destruct (decide (b = r)) as [->|Hne]; [exists inum, k; apply Ho; by right|].
    rewrite Hfree in Hbf by lia. rewrite (proj2 (Z.eqb_neq b r) Hne), andb_true_r in Hbf.
    destruct (G b Hb Hbf) as (j & kk & H). exists j, kk. apply Ho. by left.
Qed.

(** ** Allocation *)

Definition nfree (v : fsys txv) : Z := Z.of_nat (length (List.filter (blk_free v) (seqZ 0 (sb_size (f_sb v))))).

Lemma filter_one_less (p p' : Z -> bool) (r : Z) (l : list Z) :
  NoDup l -> r ∈ l -> p r = true -> (forall x, x ∈ l -> p' x = p x && negb (x =? r)) ->
  length (List.filter p l) = S (length (List.filter p' l)).
Proof.
  induction l as [|x l IH]; intros Hn Hr Hp Hpp; [by apply not_elem_of_nil in Hr|]. apply NoDup_cons in Hn as [Hx Hn].
  cbn [List.filter]. rewrite (Hpp x) by set_solver. destruct (Z.eqb_spec x r) as [->|Hne].
  - rewrite Hp. cbn. f_equal. assert (forall y, y ∈ l -> p' y = p y) as E.
    { intros y Hy. rewrite Hpp by set_solver. destruct (Z.eqb_spec y r) as [->|]; [done|]. apply andb_true_r. }
    clear -E. induction l as [|y l IH]; [done|]. cbn. rewrite (E y) by set_solver. specialize (IH ltac:(set_solver)).
    destruct (p y); cbn; by rewrite IH.
  - rewrite andb_true_r. assert (r ∈ l) as Hrl by set_solver.
    specialize (IH Hn Hrl Hp ltac:(intros; apply Hpp; set_solver)). destruct (p x); cbn; by rewrite IH.
Qed.

Lemma nfree_exists v : 0 < nfree v -> exists b, 0 <= b < sb_size (f_sb v) /\ blk_free v b = true.
Proof.
  unfold nfree. destruct (List.filter _ _) as [|b l] eqn:E; [cbn; lia|]. intros _.
  assert (In b (List.filter (blk_free v) (seqZ 0 (sb_size (f_sb v))))) as H by (rewrite E; by left).
  apply List.filter_In in H as [H%list_elem_of_In%elem_of_seqZ Hf]. exists b. split; [lia|done].
Qed.

Section Alloc.

Context (v : fsys txv) (I : Z -> dinode) (Hac : accounted v I) (r : Z) (Hr : 0 <= r < sb_size (f_sb v)) (Hf : blk_free v r = true).

Lemma alloc_new : blk (allocated r v) r = zero_block.
Proof. unfold allocated, blk. cbn. apply fset_eq. Qed.

Lemma alloc_keeps b : b <> r -> b <> BBLOCK r (f_sb v) -> blk (allocated r v) b = blk v b.
Proof. intros H1 H2. unfold allocated, blk. cbn. by rewrite !fset_ne. Qed.

Lemma alloc_keeps_data b : dstart (f_sb v) <= b -> b <> r -> blk (allocated r v) b = blk v b.
Proof.
  intros H1 H2. apply alloc_keeps; [done|]. pose proof (bblock_range _ (ac_sb _ _ Hac) r Hr) as [_ H]. lia.
Qed.

Lemma alloc_keeps_inodes inum : inum_ok (f_sb v) inum -> blk (allocated r v) (IBLOCK inum (f_sb v)) = blk v (IBLOCK inum (f_sb v)).
Proof.
  intros Hi. destruct (iblock_range _ (ac_sb _ _ Hac) inum Hi) as [H1 H2]. apply alloc_keeps; [|by apply H2].
  pose proof (free_is_data v I Hac r ltac:(lia) Hf). lia.
Qed.

Lemma alloc_bits b : 0 <= b < sb_size (f_sb v) -> blk_free (allocated r v) b = blk_free v b && negb (b =? r).
Proof. intros Hb. apply allocated_bits; try done; [by eapply accounted_bitmap|]. apply (ac_sb _ _ Hac). Qed.

Lemma alloc_len b : 0 <= b < sb_size (f_sb v) -> length (blk (allocated r v) b) = length (blk v b).
Proof.
  intros Hb. destruct (decide (b = r)) as [->|Hne].
  - rewrite alloc_new. pose proof (ac_len _ _ Hac r Hr). unfold zero_block. rewrite length_replicate. lia.
  - unfold allocated, blk. cbn. rewrite fset_ne by done. destruct (decide (b = BBLOCK r (f_sb v))) as [->|Hb2]; [|by rewrite fset_ne].
    rewrite fset_eq. apply length_put_byte.
Qed.

Lemma alloc_nfree : nfree (allocated r v) = nfree v - 1.
Proof.
  unfold nfree. rewrite (filter_one_less (blk_free v) (blk_free (allocated r v)) r (seqZ 0 (sb_size (f_sb v)))).
  - change (f_sb (allocated r v)) with (f_sb v). lia.
  - apply NoDup_seqZ.
  - apply elem_of_seqZ. lia.
  - done.
  - intros x Hx%elem_of_seqZ. apply alloc_bits. lia.
Qed.

End Alloc.

(** ** Growing a file

    The file in entry [ip] of the cache, inode [inum], may have got blocks it
    did not have, with zeros in them: nothing in any file has changed. *)

Definition with_addrs (l : list Z) (d : dinode) : dinode := mk_dinode (di_type d) (di_major d) (di_minor d) (di_nlink d) (di_size d) l.

Record grows (ip inum : Z) (I : Z -> dinode) (v v' : fsys txv) : Prop := {
  gr_acc : accounted v' (fset I inum (i_d (inodes v' ip)));
  gr_inode : exists l, inodes v' ip = with_d (with_addrs l) (inodes v ip);
  gr_slots k : slot_ok k -> slot v (I inum) k <> 0 -> slot v' (i_d (inodes v' ip)) k = slot v (I inum) k;
  gr_zero bn : 0 <= bn < MAXFILE -> slot v (I inum) (bslot bn) = 0 ->
    slot v' (i_d (inodes v' ip)) (bslot bn) = 0 \/ blk v' (slot v' (i_d (inodes v' ip)) (bslot bn)) = zero_block;
  gr_data inum' k b : owns v I inum' k b -> (inum' = inum /\ k = NDIRECT) \/ blk v' b = blk v b;
  gr_iblk i : inum_ok (f_sb v) i -> blk v' (IBLOCK i (f_sb v)) = blk v (IBLOCK i (f_sb v));
  gr_others j : j <> ip -> inodes v' j = inodes v j;
  gr_sb : f_sb v' = f_sb v;
  gr_lock : ic_lock v' = ic_lock v;
  gr_held : v_held (fx v') = v_held (fx v);
}.

(** The state in which the file system code works on a file: its inode is in
    the cache. *)
Record working (ip inum : Z) (I : Z -> dinode) (v : fsys txv) : Prop := {
  wk_acc : accounted v I;
  wk_inum : inum_ok (f_sb v) inum;
  wk_i : i_d (inodes v ip) = I inum;
}.

Lemma with_addrs_same i : with_d (with_addrs (di_addrs (i_d i))) i = i.
Proof. by destruct i as [? ? ? ? ? []]. Qed.

Lemma grows_refl ip inum I v : working ip inum I v -> grows ip inum I v v.
Proof.
  intros [H1 H2 H3]. split; try done.
  - eapply accounted_ext; [|exact H1]. intros j _. unfold fset. destruct (decide (j = inum)) as [->|]; [by rewrite H3|done].
  - eexists. symmetry. apply with_addrs_same.
  - intros k Hk Hne. by rewrite H3.
  - intros bn _ E. left. by rewrite H3.
  - by right.
Qed.

Lemma grows_working ip inum I v v' : working ip inum I v -> grows ip inum I v v' -> working ip inum (fset I inum (i_d (inodes v' ip))) v'.
Proof.
  intros [H1 H2 H3] Hg. split; [apply (gr_acc _ _ _ _ _ Hg)|by rewrite (gr_sb _ _ _ _ _ Hg)|by rewrite fset_eq].
Qed.

Lemma grows_other_slots ip inum I v v' inum' k : grows ip inum I v v' -> inum' <> inum -> inum_ok (f_sb v) inum' -> slot v' (I inum') k = slot v (I inum') k.
Proof.
  intros Hg Hne Hi. apply slot_ext. intros Hind.
  destruct (gr_data _ _ _ _ _ Hg inum' NDIRECT (addr_at (I inum') NDIRECT)) as [[? _]|E]; [by split_and!|done|done].
Qed.

(** What is owned stays owned. *)
Lemma grows_owns ip inum I v v' inum' k b : working ip inum I v -> grows ip inum I v v' ->
  owns v I inum' k b -> owns v' (fset I inum (i_d (inodes v' ip))) inum' k b.
Proof.
  intros Hw Hg Ho. pose proof Ho as (Hi & Hk & Hs & Hb). split; [by rewrite (gr_sb _ _ _ _ _ Hg)|]. split; [done|]. split; [|done].
  destruct (decide (inum' = inum)) as [->|Hne].
  - rewrite fset_eq, (gr_slots _ _ _ _ _ Hg) by (try done; congruence). done.
  - rewrite fset_ne by done. rewrite <- Hs. by eapply grows_other_slots.
Qed.

Lemma grows_trans ip inum I v v1 v2 : working ip inum I v ->
  grows ip inum I v v1 -> grows ip inum (fset I inum (i_d (inodes v1 ip))) v1 v2 -> grows ip inum I v v2.
Proof.
  intros Hw G1 G2. pose proof G1 as [A1 A2 A3 A4 A5 A6 A7 A8 A9 A10]. pose proof G2 as [B1 B2 B3 B4 B5 B6 B7 B8 B9 B10].
  rewrite fset_eq in B3, B4. split; try congruence.
  - by rewrite fset_fset in B1.
  - destruct A2 as [l1 E1], B2 as [l2 E2]. exists l2. rewrite E2, E1. by destruct (inodes v ip) as [? ? ? ? ? []].
  - intros k Hk Hne. rewrite <- A3 by done. apply B3; [done|]. by rewrite A3.
  - intros bn Hbn E. destruct (decide (slot v1 (i_d (inodes v1 ip)) (bslot bn) = 0)) as [E1|N1]; [by apply B4|].
    destruct (A4 bn Hbn E) as [?|Hz]; [done|]. right. destruct (bslot_ok bn Hbn) as [Hok Hnd].
    rewrite B3 by done. rewrite <- Hz. destruct (B5 inum (bslot bn) (slot v1 (i_d (inodes v1 ip)) (bslot bn))) as [[_ ?]|H]; [|done|done].
    split_and!; try done; [rewrite A8; apply Hw|by rewrite fset_eq].
  - intros inum' k b Ho. destruct (A5 inum' k b Ho) as [?|E]; [by left|]. destruct (B5 inum' k b) as [?|E2]; [by eapply grows_owns|by left|].
    right. congruence.
  - intros i Hi. rewrite <- A6 by done. rewrite <- A8. apply B6. by rewrite A8.
  - intros j Hj. rewrite B7, A7 by done. done.
Qed.

(** File contents do not change. *)
Lemma grows_bytes ip inum I v v' k : working ip inum I v -> grows ip inum I v v' -> 0 <= k < MAXFILE * BSIZE ->
  hbyte v' (i_d (inodes v' ip)) k = hbyte v (I inum) k.
Proof.
  intros Hw Hg Hk. assert (0 <= k / BSIZE < MAXFILE) as Hbn by (unfold BSIZE in *; divlia).
  destruct (bslot_ok _ Hbn) as [Hok Hnd]. unfold hbyte. destruct (Z.eqb_spec (slot v (I inum) (bslot (k / BSIZE))) 0) as [E|E].
  - destruct (gr_zero _ _ _ _ _ Hg _ Hbn E) as [-> | ->]; [done|]. destruct (_ =? 0); [done|]. apply nth_zero_block.
  - rewrite (gr_slots _ _ _ _ _ Hg) by done. rewrite (proj2 (Z.eqb_neq _ _) E).
    destruct (gr_data _ _ _ _ _ Hg inum (bslot (k / BSIZE)) (slot v (I inum) (bslot (k / BSIZE)))) as [[_ ?]|H]; [|done|by rewrite H].
    split_and!; try done. apply Hw.
Qed.

Lemma grows_other_bytes ip inum I v v' inum' k : working ip inum I v -> grows ip inum I v v' -> inum' <> inum -> inum_ok (f_sb v) inum' ->
  0 <= k < MAXFILE * BSIZE -> hbyte v' (I inum') k = hbyte v (I inum') k.
Proof.
  intros Hw Hg Hne Hi Hk. assert (0 <= k / BSIZE < MAXFILE) as Hbn by (unfold BSIZE in *; divlia).
  destruct (bslot_ok _ Hbn) as [Hok Hnd].
  assert (forall k b, slot_ok k -> slot v (I inum') k = b -> b <> 0 -> blk v' b = blk v b) as Hb.
  { intros kk b Hkk E Hb. destruct (gr_data _ _ _ _ _ Hg inum' kk b) as [[? _]|H]; [by split_and!|done|done]. }
  assert (slot v' (I inum') (bslot (k / BSIZE)) = slot v (I inum') (bslot (k / BSIZE))) as Es by (by eapply grows_other_slots).
  unfold hbyte. rewrite Es. destruct (Z.eqb_spec (slot v (I inum') (bslot (k / BSIZE))) 0) as [E|E]; [done|].
  by rewrite (Hb (bslot (k / BSIZE)) _ Hok eq_refl E).
Qed.

(** A free block, zeroed, goes into an empty slot of the file. *)
Section Give.

Context (ip inum : Z) (I : Z -> dinode) (v v' : fsys txv) (k r : Z) (l : list Z).
Context (Hw : working ip inum I v) (Hk : slot_ok k) (Hempty : slot v (I inum) k = 0).
Context (Hr : 0 <= r < sb_size (f_sb v)) (Hfree : blk_free v r = true).
Context (Hi : inodes v' ip = with_d (with_addrs l) (inodes v ip)) (Hok : dinode_ok (i_d (inodes v' ip))).
Context (Hslot : forall k', slot_ok k' -> slot v' (i_d (inodes v' ip)) k' = if decide (k' = k) then r else slot v (I inum) k').
Context (Hz : blk v' r = zero_block).
Context (Hdata : forall b, dstart (f_sb v) <= b -> b <> r -> b <> addr_at (I inum) NDIRECT -> blk v' b = blk v b).
Context (Hiblk : forall i, inum_ok (f_sb v) i -> blk v' (IBLOCK i (f_sb v)) = blk v (IBLOCK i (f_sb v))).
Context (Hlen : forall b, 0 <= b < sb_size (f_sb v) -> length (blk v' b) = length (blk v b)).
Context (Hbits : forall b, 0 <= b < sb_size (f_sb v) -> blk_free v' b = blk_free v b && negb (b =? r)).
Context (Hother : forall j, j <> ip -> inodes v' j = inodes v j) (Hsb : f_sb v' = f_sb v) (Hlock : ic_lock v' = ic_lock v) (Hheld : v_held (fx v') = v_held (fx v)).

Lemma give_nonzero : r <> 0.
Proof. pose proof (free_is_data _ _ (wk_acc _ _ _ _ Hw) r ltac:(lia) Hfree). pose proof (dstart_size _ (ac_sb _ _ (wk_acc _ _ _ _ Hw))). lia. Qed.

Lemma give_owned inum' k' b : owns v I inum' k' b -> (inum' = inum /\ k' = NDIRECT) \/ blk v' b = blk v b.
Proof.
  intros Ho. destruct (decide (inum' = inum /\ k' = NDIRECT)) as [?|Hne]; [by left|right].
  pose proof (ac_range _ _ (wk_acc _ _ _ _ Hw) _ _ _ Ho) as [H1 H2]. apply Hdata; [lia|congruence|].
  intros E. destruct (ac_once _ _ (wk_acc _ _ _ _ Hw) inum' k' inum NDIRECT b Ho) as [-> ->]; [|by apply Hne].
  split_and!; try done; [apply Hw|apply Ho].
Qed.

Lemma give_other inum' k' : inum_ok (f_sb v) inum' -> inum' <> inum -> slot v' (I inum') k' = slot v (I inum') k'.
Proof.
  intros Hi' Hne. apply slot_ext. intros Hind. destruct (give_owned inum' NDIRECT (addr_at (I inum') NDIRECT)) as [[? _]|E]; [by split_and!|done|done].
Qed.

Lemma give_owns inum' k' b : owns v' (fset I inum (i_d (inodes v' ip))) inum' k' b <-> owns v I inum' k' b \/ (inum' = inum /\ k' = k /\ b = r).
Proof.
  unfold owns. rewrite Hsb. split.
  - intros (H1 & H2 & H3 & H4). destruct (decide (inum' = inum)) as [->|Hne].
    + rewrite fset_eq, Hslot in H3 by done. destruct (decide (k' = k)); [by right|by left].
    + rewrite fset_ne, give_other in H3 by done. by left.
  - intros [(H1 & H2 & H3 & H4)|(-> & -> & ->)].
    + split_and!; try done. destruct (decide (inum' = inum)) as [->|Hne]; [|by rewrite fset_ne, give_other].
      rewrite fset_eq, Hslot by done. rewrite decide_False; [done|]. intros ->. congruence.
    + split_and!; [apply Hw|done|rewrite fset_eq, Hslot by done; by rewrite decide_True|apply give_nonzero].
Qed.

Lemma grows_give : grows ip inum I v v'.
Proof.
  split; try done.
  - apply (accounted_give v I v' _ inum k r); try done; [apply Hw|apply Hw| |apply give_owns].
    intros j Hj. unfold fset. destruct (decide (j = inum)); [done|]. by apply (ac_dinode _ _ (wk_acc _ _ _ _ Hw)).
  - by exists l.
  - intros k' Hk' Hne. rewrite Hslot by done. rewrite decide_False; [done|]. intros ->. congruence.
  - intros bn Hbn E. destruct (bslot_ok bn Hbn) as [H1 H2]. rewrite Hslot by done. destruct (decide _); [by right|by left].
  - intros inum' k' b. apply give_owned.
Qed.

End Give.

Lemma addr_at_insert d k r k' : Z.of_nat (length (di_addrs d)) = NDIRECT + 1 -> 0 <= k <= NDIRECT -> 0 <= k' ->
  addr_at (with_addr k r d) k' = if decide (k' = k) then r else addr_at d k'.
Proof.
  intros Hl Hk Hk'. unfold addr_at, with_addr. cbn [di_addrs]. rewrite !nth_lookup. destruct (decide (k' = k)) as [->|Hne].
  - by rewrite list_lookup_insert_eq by lia.
  - by rewrite list_lookup_insert_ne by lia.
Qed.

(** The inode gets a direct or the indirect block. *)
Lemma grows_addr ip inum I v k r : working ip inum I v -> 0 <= k <= NDIRECT -> addr_at (I inum) k = 0 ->
  0 <= r < sb_size (f_sb v) -> blk_free v r = true ->
  grows ip inum I v (set_inode ip (with_d (with_addr k r)) (allocated r v)).
Proof.
  intros Hw Hk He Hr Hf. pose proof (wk_acc _ _ _ _ Hw) as Hac. set (v' := set_inode _ _ _).
  assert (inodes v' ip = with_d (with_addr k r) (inodes v ip)) as Ei by exact (inodes_set ip _ (allocated r v)).
  pose proof (ac_dinode _ _ Hac inum (wk_inum _ _ _ _ Hw)) as Hdi. pose proof (wk_i _ _ _ _ Hw) as Hwi.
  pose proof (so_size _ (ac_sb _ _ Hac)) as Hsz. pose proof (free_is_data _ _ Hac r ltac:(lia) Hf) as Hrd.
  apply (grows_give ip inum I v v' k r (<[Z.to_nat k := r]> (di_addrs (i_d (inodes v ip))))); try done.
  - unfold slot_ok, NSLOT. change MAXFILE with 268. unfold NDIRECT in Hk. lia.
  - unfold slot. by rewrite (proj2 (Z.leb_le _ _)) by lia.
  - rewrite Ei. cbn. rewrite Hwi. apply dinode_ok_addr; [done|]. lia.
  - intros k' Hk'. rewrite Ei. cbn [with_d i_d]. rewrite Hwi. unfold slot at 1 2. unfold slot_ok in Hk'.
    assert (0 <= NDIRECT) by done. rewrite !(addr_at_insert _ k r) by (try apply Hdi; lia).
    destruct (Z.leb_spec k' NDIRECT) as [Hle|Hgt]; [done|]. rewrite (decide_False (P := k' = k)) by lia.
    destruct (decide (NDIRECT = k)) as [Ek|Ek].
    + subst k. rewrite He. cbn [Z.eqb]. destruct (r =? 0); [done|].
      change (blk v' r) with (blk (allocated r v) r). rewrite alloc_new. apply getf_zero_block.
    + destruct (Z.eqb_spec (addr_at (I inum) NDIRECT) 0) as [|Hne]; [done|].
      change (blk v') with (blk (allocated r v)). destruct (slot_range _ _ Hac inum NDIRECT) as [H1 H2]; [apply Hw|done|done|].
      rewrite slot_indirect in H1, H2. rewrite (alloc_keeps_data v I); [done|done|done|lia|congruence].
  - apply alloc_new.
  - intros b Hb Hne _. by apply (alloc_keeps_data v I).
  - intros i Hi. by apply (alloc_keeps_inodes v I).
  - intros b Hb. by apply (alloc_len v I).
  - intros b Hb. by apply (alloc_bits v I).
  - intros j Hj. cbn. by rewrite fset_ne.
Qed.

(** The indirect block gets an address. *)
Lemma grows_entry ip inum I v j r : working ip inum I v -> 0 <= j < NINDIRECT -> addr_at (I inum) NDIRECT <> 0 ->
  getf 4 (blk v (addr_at (I inum) NDIRECT)) (4 * j) = 0 -> 0 <= r < sb_size (f_sb v) -> blk_free v r = true ->
  let ind := addr_at (I inum) NDIRECT in
  grows ip inum I v (tx (v_write ind (putf 4 (blk v ind) (4 * j) r)) (allocated r v)).
Proof.
  intros Hw Hj Hind He Hr Hf ind. pose proof (wk_acc _ _ _ _ Hw) as Hac. set (v' := tx _ _).
  pose proof (wk_i _ _ _ _ Hw) as Hwi. destruct (slot_range _ _ Hac inum NDIRECT) as [H1 H2]; [apply Hw|done|done|].
  rewrite slot_indirect in H1, H2. fold ind in H1, H2, Hind, He. pose proof (so_size _ (ac_sb _ _ Hac)) as Hsz.
  pose proof (dstart_size _ (ac_sb _ _ Hac)) as Hds. assert (ind <> r) as Hnr by congruence.
  assert (forall b, b <> ind -> blk v' b = blk (allocated r v) b) as Hb by (intros b Hb; by apply fset_ne).
  assert (blk v' ind = putf 4 (blk v ind) (4 * j) r) as Hbi by apply fset_eq.
  pose proof (ac_len _ _ Hac ind ltac:(lia)) as Hl. change NINDIRECT with 256 in Hj.
  assert (forall b, 0 <= b < sb_size (f_sb v) -> BBLOCK b (f_sb v) <> ind) as Hbb.
  { intros b Hb2. destruct (bblock_range _ (ac_sb _ _ Hac) b Hb2) as [_ H]. lia. }
  apply (grows_give ip inum I v v' (j + NDIRECT + 1) r (di_addrs (i_d (inodes v ip)))); try done.
  - unfold slot_ok, NSLOT. change MAXFILE with 268. unfold NDIRECT. lia.
  - unfold slot. rewrite (proj2 (Z.leb_gt _ _)) by lia. fold ind. rewrite (proj2 (Z.eqb_neq _ _) Hind). by replace (4 * (j + NDIRECT + 1 - NDIRECT - 1)) with (4 * j) by lia.
  - symmetry. apply with_addrs_same.
  - change (inodes v' ip) with (inodes v ip). rewrite Hwi. apply (ac_dinode _ _ Hac), Hw.
  - intros k' Hk'. change (inodes v' ip) with (inodes v ip). rewrite Hwi. unfold slot. unfold slot_ok, NSLOT in Hk'. change MAXFILE with 268 in Hk'.
    destruct (Z.leb_spec k' NDIRECT) as [Hle|Hgt]; [rewrite decide_False by lia; done|]. fold ind. rewrite (proj2 (Z.eqb_neq _ _) Hind), Hbi.
    unfold NDIRECT in *. unfold BSIZE in Hl. destruct (decide (k' = j + 12 + 1)) as [->|Hne].
    + replace (4 * (j + 12 + 1 - 12 - 1)) with (4 * j) by lia. rewrite getf_putf_same by lia. apply Z.mod_small. lia.
    + apply getf_putf_other; lia.
  - rewrite Hb by done. apply alloc_new.
  - intros b H3 H4 H5. rewrite Hb by done. by apply (alloc_keeps_data v I).
  - intros i Hi. destruct (iblock_range _ (ac_sb _ _ Hac) i Hi) as [H3 _]. rewrite Hb by lia. by apply (alloc_keeps_inodes v I).
  - intros b H3. destruct (decide (b = ind)) as [->|Hne]; [by rewrite Hbi, length_putf|]. rewrite Hb by done. by apply (alloc_len v I).
  - intros b H3. rewrite <- (alloc_bits v I) by done. unfold blk_free. rewrite Hb by (by apply Hbb). done.
Qed.

(** ** [bmap] on demand *)

Section Bmap.

Context {X : Type} `{TX : TxLayer X}.

Lemma space_hold n b h v : space (n + 1) v -> space n (tx (v_hold b h) v).
Proof. unfold space. apply tx_space_hold. Qed.

Lemma space_allocated n r v : 0 <= n -> space (n + 2) v -> space n (allocated r v).
Proof.
  intros Hn H. replace n with (n + 2 - 1 - 1) by lia. unfold allocated. apply space_write; [|lia]. apply space_write; [done|lia].
Qed.

(** Allocation while the caller holds at most one buffer, of a used data block. *)
Lemma fwp_balloc_acc I v : accounted v I -> (forall b h, held v b = Some h -> dstart (f_sb v) <= b /\ blk_free v b = false) ->
  space 2 v -> 0 < nfree v -> fwp (balloc t_dev) (fun r v' => 0 <= r < sb_size (f_sb v) /\ blk_free v r = true /\ v' = allocated r v) v.
Proof.
  intros Hac Hh Hsp Hn. eapply fwp_mono; [|apply fwp_balloc; [done| |by apply nfree_exists]].
  - intros r v' [(H1 & H2 & _) ->]. done.
  - split.
    + intros b Hb. destruct (held v (BBLOCK b (f_sb v))) as [h|] eqn:E; [|done]. apply Hh in E as [E _].
      destruct (bblock_range _ (ac_sb _ _ Hac) b Hb) as [_ H]. lia.
    + intros b Hb Hf. destruct (held v b) as [h|] eqn:E; [|done]. apply Hh in E as [_ E]. congruence.
Qed.

Definition unheld (v : fsys txv) : Prop := v_held (fx v) = ∅.

Lemma unheld_held v b : unheld v -> held v b = None.
Proof. unfold unheld, held. intros ->. apply lookup_empty. Qed.

(** What [bmap] leaves. *)
Definition bmapped (ip inum : Z) (I : Z -> dinode) (bn e : Z) (v : fsys txv) (a : Z) (v' : fsys txv) : Prop :=
  grows ip inum I v v' /\ a = slot v' (i_d (inodes v' ip)) (bslot bn) /\ a <> 0 /\ nfree v - 2 <= nfree v' /\ space e v'.

(** The indirect block is there. *)
Lemma fwp_bmap_entry ip inum I bn e v : working ip inum I v -> unheld v -> NDIRECT <= bn < MAXFILE ->
  addr_at (I inum) NDIRECT <> 0 -> 1 <= e -> space (e + 3) v -> 1 <= nfree v ->
  fwp (bp <- bread t_dev (addr_at (I inum) NDIRECT) ;;
       d <- bdata bp ;;
       addr <- (if getf 4 d (4 * (bn - NDIRECT)) =? 0 then
                  addr <- balloc t_dev ;;
                  bmodify bp (fun d => putf 4 d (4 * (bn - NDIRECT)) addr) ;;;
                  log_write bp ;;;
                  ret addr
                else ret (getf 4 d (4 * (bn - NDIRECT)))) ;;
       brelse bp ;;;
       ret addr)
    (fun a v' => grows ip inum I v v' /\ a = slot v' (i_d (inodes v' ip)) (bslot bn) /\ a <> 0 /\ nfree v - 1 <= nfree v' /\ space e v') v.
Proof.
  intros Hw Hh Hbn Hind He Hsp Hn. pose proof (wk_acc _ _ _ _ Hw) as Hac. set (ind := addr_at (I inum) NDIRECT) in *.
  destruct (slot_range _ _ Hac inum NDIRECT) as [H1 H2]; [apply Hw|done|done|]. rewrite slot_indirect in H1, H2. fold ind in H1, H2.
  assert (bslot bn = bn - NDIRECT + NDIRECT + 1) as Eb by (unfold bslot; rewrite (proj2 (Z.ltb_ge _ _)) by lia; lia).
  assert (0 <= bn - NDIRECT < NINDIRECT) as Hj by (unfold MAXFILE in Hbn; lia). set (j := bn - NDIRECT) in *.
  assert (forall w, slot w (I inum) (bslot bn) = getf 4 (blk w ind) (4 * j)) as Hs.
  { intros w. unfold slot. rewrite Eb, (proj2 (Z.leb_gt _ _)) by lia. fold ind. rewrite (proj2 (Z.eqb_neq _ _) Hind). f_equal. lia. }
  apply fwp_open; [by apply unheld_held|eapply space_mono; [|exact Hsp]; lia|]. intros h Hfr. apply fwp_look. apply fwp_bind.
  destruct (Z.eqb_spec (getf 4 (blk v ind) (4 * j)) 0) as [E0|E0].
  - apply fwp_bind. eapply fwp_mono; [|apply (fwp_balloc_acc I)].
    + intros r v1 (Hr & Hrf & ->). change (f_sb (tx _ v)) with (f_sb v) in Hr. change (blk_free (tx _ v) r) with (blk_free v r) in Hrf.
      change (allocated r (tx (v_hold ind h) v)) with (tx (v_hold ind h) (allocated r v)).
      assert (ind <> r) as Hne by congruence.
      apply fwp_bind, (fwp_bmodify ind); [cbn; apply lookup_insert_eq|].
      assert (space (e + 1) (allocated r v)) as Hsp1 by (apply space_allocated; [lia|by replace (e + 1 + 2) with (e + 3) by lia]).
      apply fwp_bind, (fwp_log_write ind); [cbn; apply lookup_insert_eq|destruct Hsp1 as [_ Hsp1]; cbn in Hsp1 |- *; lia|].
      apply fwp_ret, fwp_bind, (fwp_brelse ind); [cbn; apply lookup_insert_eq|cbn; set_solver|]. apply fwp_ret.
      match goal with |- grows _ _ _ _ ?w /\ _ => replace w with (tx (v_write ind (putf 4 (blk v ind) (4 * j) r)) (allocated r v)) end.
      2: { assert (blk (tx (v_hold ind h) (allocated r v)) ind = blk v ind) as Ebl by (apply (alloc_keeps_data v I); (done || lia)).
           rewrite Ebl. unfold tx. cbn [fx set_fx]. by rewrite <- (v_write_done ind _ h (fx (allocated r v))) by (done || by apply (unheld_held v)). }
      pose proof (grows_entry ip inum I v j r Hw Hj Hind E0 Hr Hrf) as Hg. cbv zeta in Hg. fold ind in Hg. set (v' := tx _ _) in *.
      split; [done|]. assert (slot v' (i_d (inodes v' ip)) (bslot bn) = r) as Es.
      { change (inodes v' ip) with (inodes v ip). rewrite (wk_i _ _ _ _ Hw), Hs. unfold v', blk at 1. cbn. rewrite fset_eq.
        rewrite getf_putf_same; [apply Z.mod_small; pose proof (so_size _ (ac_sb _ _ Hac)); lia|lia|].
        pose proof (ac_len _ _ Hac ind ltac:(pose proof (dstart_size _ (ac_sb _ _ Hac)); lia)). change NINDIRECT with 256 in Hj. unfold BSIZE in *. lia. }
      rewrite Es. split; [done|]. pose proof (free_is_data _ _ Hac r ltac:(lia) Hrf). pose proof (dstart_size _ (ac_sb _ _ Hac)).
      split; [lia|]. split.
      * replace (nfree v') with (nfree (allocated r v)); [rewrite (alloc_nfree v I) by done; lia|].
        unfold nfree. change (f_sb v') with (f_sb v). change (f_sb (allocated r v)) with (f_sb v). f_equal. f_equal.
        apply filter_ext_in. intros b Hb%list_elem_of_In%elem_of_seqZ. unfold blk_free. change (f_sb v') with (f_sb v). change (f_sb (allocated r v)) with (f_sb v).
        destruct (bblock_range _ (ac_sb _ _ Hac) b ltac:(lia)) as [_ Hbb]. assert (blk v' (BBLOCK b (f_sb v)) = blk (allocated r v) (BBLOCK b (f_sb v))) as ->; [apply fset_ne; lia|done].
      * replace e with (e + 1 - 1) by lia. apply space_write; [done|lia].
    + by split; apply Hac.
    + intros b h'. unfold held. cbn. intros Hb. change (f_sb (tx _ v)) with (f_sb v). change (blk_free (tx _ v) b) with (blk_free v b).
      destruct (decide (b = ind)) as [->|Hne]; [split; [lia|done]|]. rewrite lookup_insert_ne in Hb by done. by rewrite Hh, lookup_empty in Hb.
    + apply space_hold. eapply space_mono; [|exact Hsp]. lia.
    + change (nfree (tx _ v)) with (nfree v). lia.
  - apply fwp_ret, fwp_bind, fwp_close; [by apply unheld_held|done|]. apply fwp_ret.
    split; [by apply grows_refl|]. rewrite (wk_i _ _ _ _ Hw), Hs. split_and!; try done; [lia|eapply space_mono; [|exact Hsp]; lia].
Qed.

Lemma fwp_bmap_grows ip inum I bn e v : working ip inum I v -> unheld v -> i_dev (inodes v ip) = t_dev -> 0 <= bn < MAXFILE ->
  1 <= e -> space (e + 5) v -> 2 <= nfree v -> fwp (bmap ip bn) (bmapped ip inum I bn e v) v.
Proof.
  intros Hw Hh Hdev Hbn He Hsp Hn. pose proof (wk_acc _ _ _ _ Hw) as Hac. pose proof (wk_i _ _ _ _ Hw) as Hwi.
  assert (forall b h, held v b = Some h -> dstart (f_sb v) <= b /\ blk_free v b = false) as Hh'.
  { intros b h Hb. by rewrite unheld_held in Hb. }
  assert (dinode_ok (I inum)) as Hdi by (apply (ac_dinode _ _ Hac), Hw).
  unfold bmap. apply fwp_bind, fwp_inode. rewrite Hwi, Hdev. destruct (Z.ltb_spec bn NDIRECT) as [Hlt|Hge].
  - assert (bslot bn = bn) as Eb by (unfold bslot; by rewrite (proj2 (Z.ltb_lt _ _))).
    assert (forall w d, slot w d bn = addr_at d bn) as Es by (intros w d; unfold slot; by rewrite (proj2 (Z.leb_le bn NDIRECT)) by lia).
    destruct (Z.eqb_spec (addr_at (I inum) bn) 0) as [E0|E0].
    + apply fwp_bind. eapply fwp_mono; [|apply (fwp_balloc_acc I); [done|done|eapply space_mono; [|exact Hsp]; lia|lia]].
      intros r v1 (Hr & Hrf & ->). apply fwp_bind, fwp_upd, fwp_ret.
      pose proof (grows_addr ip inum I v bn r Hw ltac:(lia) E0 Hr Hrf) as Hg. unfold bmapped. split; [done|]. rewrite Eb, Es.
      replace (i_d (inodes (set_inode ip (with_d (with_addr bn r)) (allocated r v)) ip)) with (with_addr bn r (I inum))
        by (rewrite (inodes_set ip _ (allocated r v)); cbn; by rewrite Hwi).
      rewrite addr_at_insert by (try apply Hdi; lia). rewrite decide_True by done.
      pose proof (free_is_data _ _ Hac r ltac:(lia) Hrf). pose proof (dstart_size _ (ac_sb _ _ Hac)).
      split; [done|]. split; [lia|]. split.
      * change (nfree (set_inode _ _ ?w)) with (nfree w). rewrite (alloc_nfree v I) by done. lia.
      * change (space e (set_inode _ _ ?w)) with (space e w). apply space_allocated; [lia|]. eapply space_mono; [|exact Hsp]. lia.
    + apply fwp_ret. split; [by apply grows_refl|]. rewrite Eb, Es, Hwi. split_and!; try done; [lia|eapply space_mono; [|exact Hsp]; lia].
  - rewrite (proj2 (Z.ltb_lt (bn - NDIRECT) NINDIRECT)) by (unfold MAXFILE in Hbn; lia). apply fwp_bind.
    destruct (Z.eqb_spec (addr_at (I inum) NDIRECT) 0) as [E0|E0].
    + apply fwp_bind. eapply fwp_mono; [|apply (fwp_balloc_acc I); [done|done|eapply space_mono; [|exact Hsp]; lia|lia]].
      intros r v1 (Hr & Hrf & ->). apply fwp_bind, fwp_upd, fwp_ret.
      pose proof (grows_addr ip inum I v NDIRECT r Hw ltac:(unfold NDIRECT; lia) E0 Hr Hrf) as Hg. set (v1 := set_inode _ _ _) in *.
      pose proof (grows_working _ _ _ _ _ Hw Hg) as Hw1.
      assert (i_d (inodes v1 ip) = with_addr NDIRECT r (I inum)) as E1 by (unfold v1; rewrite (inodes_set ip _ (allocated r v)); cbn; by rewrite Hwi).
      assert (addr_at (fset I inum (i_d (inodes v1 ip)) inum) NDIRECT = r) as Er.
      { rewrite fset_eq, E1, addr_at_insert by (try apply Hdi; unfold NDIRECT; lia). by rewrite decide_True. }
      pose proof (free_is_data _ _ Hac r ltac:(lia) Hrf) as Hrd. pose proof (dstart_size _ (ac_sb _ _ Hac)) as Hds.
      assert (nfree v1 = nfree v - 1) as En by (change (nfree v1) with (nfree (allocated r v)); by apply (alloc_nfree v I)).
      pose proof (fwp_bmap_entry ip inum _ bn e v1 Hw1 Hh ltac:(lia)) as Hent. rewrite Er in Hent. eapply fwp_mono; [|apply Hent; [lia|done| |lia]].
      * intros a v2 (G2 & Ha & Ha0 & Hn2 & Hsp2). split; [by eapply grows_trans|]. split_and!; try done. lia.
      * change (space (e + 3) v1) with (space (e + 3) (allocated r v)). apply space_allocated; [lia|]. by replace (e + 3 + 2) with (e + 5) by lia.
    + apply fwp_ret. eapply fwp_mono; [|apply (fwp_bmap_entry ip inum I bn e v Hw Hh ltac:(lia) E0 He); [eapply space_mono; [|exact Hsp]; lia|lia]].
      intros a v2 (G2 & Ha & Ha0 & Hn2 & Hsp2). split_and!; try done. lia.
Qed.

End Bmap.
