(* ===== verification/FsGrow.v ===== *)
(** * Writing files that grow: writei of kernel/fs.c

    [writei] with blocks allocated on demand: the bytes of the file change
    where they are written and nowhere else, no other file changes, and the
    space stays accounted for. *)

From S2P Require Import Prelude CMem Riscv Sleeplock BlockLayer Log Tx Fs FsBlocks FsInode FsFile FsSpace.

(** ** Writing into a block that is there *)

(** Nothing that matters for the space has changed. *)
Lemma accounted_same v v' I : accounted v I -> f_sb v' = f_sb v ->
  (forall b, 0 <= b < sb_size (f_sb v) -> length (blk v' b) = length (blk v b)) ->
  (forall b, 0 <= b < sb_size (f_sb v) -> blk v' (BBLOCK b (f_sb v)) = blk v (BBLOCK b (f_sb v))) ->
  (forall inum k, inum_ok (f_sb v) inum -> slot_ok k -> slot v' (I inum) k = slot v (I inum) k) ->
  accounted v' I.
Proof.
  intros Hac Hsb Hlen Hbm Hs. assert (forall b, 0 <= b < sb_size (f_sb v) -> blk_free v' b = blk_free v b) as Hf.
  { intros b Hb. unfold blk_free. by rewrite Hsb, Hbm. }
  assert (forall inum k b, owns v' I inum k b <-> owns v I inum k b) as Ho.
  { intros inum k b. unfold owns. rewrite Hsb. split; intros (H1 & H2 & H3 & H4); split_and!; try done; rewrite <- H3; [symmetry|]; by apply Hs. }
  pose proof (dstart_size _ (ac_sb _ _ Hac)) as Hds. destruct Hac as [A B C D E F G]. split; rewrite ?Hsb; try done.
  - intros b Hb. rewrite Hlen by done. by apply B.
  - intros b Hb. rewrite Hf by lia. by apply D.
  - intros inum k b H%Ho. destruct (E _ _ _ H) as [H1 H2]. split; [done|]. by rewrite Hf by lia.
  - intros inum k inum' k' b H%Ho H'%Ho. by apply (F inum k inum' k' b).
  - intros b Hb Hbf. rewrite Hf in Hbf by lia. destruct (G b Hb Hbf) as (inum & k & H%Ho). by exists inum, k.
Qed.

(** The file in entry [ip], inode [inum], had [bs] written at [off]. *)
Record extended (ip inum : Z) (I : Z -> dinode) (off : Z) (bs : list byte) (v v' : fsys txv) : Prop := {
  ex_acc : accounted v' (fset I inum (i_d (inodes v' ip)));
  ex_inode : exists l, inodes v' ip = with_d (with_addrs l) (inodes v ip);
  ex_slots k : slot_ok k -> slot v (I inum) k <> 0 -> slot v' (i_d (inodes v' ip)) k <> 0;
  ex_bytes k : 0 <= k < MAXFILE * BSIZE -> hbyte v' (i_d (inodes v' ip)) k = patched (hbyte v (I inum)) off bs k;
  ex_other_bytes inum' k : inum' <> inum -> inum_ok (f_sb v) inum' -> 0 <= k < MAXFILE * BSIZE -> hbyte v' (I inum') k = hbyte v (I inum') k;
  ex_other_slots inum' k : inum' <> inum -> inum_ok (f_sb v) inum' -> slot v' (I inum') k = slot v (I inum') k;
  ex_iblk i : inum_ok (f_sb v) i -> blk v' (IBLOCK i (f_sb v)) = blk v (IBLOCK i (f_sb v));
  ex_others j : j <> ip -> inodes v' j = inodes v j;
  ex_sb : f_sb v' = f_sb v;
  ex_lock : ic_lock v' = ic_lock v;
  ex_held : v_held (fx v') = v_held (fx v);
}.

Lemma extended_working ip inum I off bs v v' : working ip inum I v -> extended ip inum I off bs v v' ->
  working ip inum (fset I inum (i_d (inodes v' ip))) v'.
Proof. intros [H1 H2 H3] He. split; [apply He|by rewrite (ex_sb _ _ _ _ _ _ _ He)|by rewrite fset_eq]. Qed.

Lemma grows_extended ip inum I off v v' : working ip inum I v -> grows ip inum I v v' -> extended ip inum I off [] v v'.
Proof.
  intros Hw Hg. pose proof Hg as [A1 A2 A3 A4 A5 A6 A7 A8 A9 A10]. split; try done.
  - intros k Hk Hne. by rewrite A3.
  - intros k Hk. rewrite patched_nil. by eapply grows_bytes.
  - intros inum' k Hne Hi Hk. by eapply grows_other_bytes.
  - intros inum' k Hne Hi. by eapply grows_other_slots.
Qed.

Lemma extended_trans ip inum I off bs bs' v v1 v2 : extended ip inum I off bs v v1 ->
  extended ip inum (fset I inum (i_d (inodes v1 ip))) (off + Z.of_nat (length bs)) bs' v1 v2 -> extended ip inum I off (bs ++ bs') v v2.
Proof.
  intros [A1 A2 A3 A4 A5 A5' A6 A7 A8 A9 A10] [B1 B2 B3 B4 B5 B5' B6 B7 B8 B9 B10]. rewrite fset_eq in B3, B4. split; try congruence.
  - by rewrite fset_fset in B1.
  - destruct A2 as [l1 E1], B2 as [l2 E2]. exists l2. rewrite E2, E1. by destruct (inodes v ip) as [? ? ? ? ? []].
  - intros k Hk Hne. apply B3; [done|]. by apply A3.
  - intros k Hk. rewrite B4, <- patched_app by done. by apply patched_ext, A4.
  - intros inum' k Hne Hi Hk. specialize (B5 inum' k Hne). rewrite fset_ne in B5 by done. rewrite B5, A5; [done|done|done|done|by rewrite A8|done].
  - intros inum' k Hne Hi. specialize (B5' inum' k Hne). rewrite fset_ne in B5' by done. rewrite B5', A5'; [done|done|done|by rewrite A8].
  - intros i Hi. rewrite <- A6 by done. rewrite <- A8. apply B6. by rewrite A8.
  - intros j Hj. rewrite B7, A7 by done. done.
Qed.

(** Some bytes of one block. *)
Lemma extended_block ip inum I off bs v : working ip inum I v -> 0 <= off < MAXFILE * BSIZE ->
  off mod BSIZE + Z.of_nat (length bs) <= BSIZE ->
  let a := slot v (I inum) (bslot (off / BSIZE)) in a <> 0 ->
  extended ip inum I off bs v (tx (v_write a (splice (off mod BSIZE) bs (blk v a))) v).
Proof.
  intros Hw Hoff Hfit a Ha. pose proof (wk_acc _ _ _ _ Hw) as Hac. pose proof (wk_i _ _ _ _ Hw) as Hwi. pose proof (wk_inum _ _ _ _ Hw) as Hin.
  assert (0 <= off / BSIZE < MAXFILE) as Hbn by (unfold BSIZE in *; divlia). destruct (bslot_ok _ Hbn) as [Hok Hnd].
  destruct (slot_range _ _ Hac inum _ Hin Hok Ha) as [Hr Hu]. fold a in Hr, Hu. pose proof (dstart_size _ (ac_sb _ _ Hac)) as Hds.
  set (v' := tx _ v). assert (forall b, b <> a -> blk v' b = blk v b) as Hb by (intros b Hb; by apply fset_ne).
  assert (blk v' a = splice (off mod BSIZE) bs (blk v a)) as Hba by apply fset_eq.
  assert (forall inum' k, inum_ok (f_sb v) inum' -> slot v' (I inum') k = slot v (I inum') k) as Hs.
  { intros inum' k Hi. apply slot_ext. intros Hind. apply Hb. intros E.
    destruct (slot_once _ _ Hac inum' NDIRECT inum (bslot (off / BSIZE))) as [_ E2]; done. }
  assert (accounted v' I) as Hac'.
  { eapply accounted_same; [exact Hac|done| | |intros; by apply Hs].
    - intros b Hb2. destruct (decide (b = a)) as [->|]; [rewrite Hba; apply length_inserts|by rewrite Hb].
    - intros b Hb2. destruct (bblock_range _ (ac_sb _ _ Hac) b Hb2) as [_ H]. apply Hb. lia. }
  change (inodes v' ip) with (inodes v ip). split; try done; change (inodes v' ip) with (inodes v ip); rewrite ?Hwi.
  - eapply accounted_ext; [|exact Hac']. intros j _. unfold fset. by destruct (decide (j = inum)) as [->|].
  - eexists. symmetry. apply with_addrs_same.
  - intros k Hk. by rewrite Hs.
  - intros k Hk. unfold hbyte at 1. rewrite Hs by done. assert (0 <= k / BSIZE < MAXFILE) as Hkb by (unfold BSIZE in *; divlia).
    destruct (decide (k / BSIZE = off / BSIZE)) as [E|E].
    + rewrite E. fold a. rewrite (proj2 (Z.eqb_neq _ _) Ha), Hba. apply patched_splice; try done; try lia; [apply (ac_len _ _ Hac); lia|].
      unfold hbyte. rewrite E. fold a. by rewrite (proj2 (Z.eqb_neq _ _) Ha).
    + rewrite patched_outside by (try done; lia). unfold hbyte. destruct (Z.eqb_spec (slot v (I inum) (bslot (k / BSIZE))) 0) as [|Hne]; [done|].
      rewrite Hb; [done|]. intros E2. destruct (slot_once _ _ Hac inum (bslot (k / BSIZE)) inum (bslot (off / BSIZE))) as [_ E3]; try done.
      * by apply bslot_ok.
      * by apply bslot_inj in E3.
  - intros inum' k Hne Hi Hk. unfold hbyte. rewrite Hs by done. destruct (Z.eqb_spec (slot v (I inum') (bslot (k / BSIZE))) 0) as [|Hz]; [done|].
    assert (0 <= k / BSIZE < MAXFILE) as Hkb by (unfold BSIZE in *; divlia).
    rewrite Hb; [done|]. intros E2. destruct (slot_once _ _ Hac inum' (bslot (k / BSIZE)) inum (bslot (off / BSIZE))) as [E3 _]; try done. by apply bslot_ok.
  - intros inum' k Hne Hi. by apply Hs.
  - intros i Hi. apply Hb. destruct (iblock_range _ (ac_sb _ _ Hac) i Hi) as [H _]. lia.
Qed.

Lemma nfree_data I a d v : accounted v I -> dstart (f_sb v) <= a -> nfree (tx (v_write a d) v) = nfree v.
Proof.
  intros Hac Ha. unfold nfree. change (f_sb (tx _ v)) with (f_sb v). f_equal. f_equal. apply filter_ext_in.
  intros b Hb%list_elem_of_In%elem_of_seqZ. unfold blk_free. change (f_sb (tx _ v)) with (f_sb v).
  destruct (bblock_range _ (ac_sb _ _ Hac) b ltac:(lia)) as [_ Hbb].
  assert (blk (tx (v_write a d) v) (BBLOCK b (f_sb v)) = blk v (BBLOCK b (f_sb v))) as ->; [apply fset_ne; lia|done].
Qed.

(** ** Writing the inode back *)

Lemma length_write_dinode d off i : length (write_dinode d off i) = length d.
Proof. unfold write_dinode. by rewrite length_put_addrs, !length_putf. Qed.

(** The space depends on the addresses of the inodes only. *)
Lemma slot_addrs v d d' k : di_addrs d' = di_addrs d -> slot v d' k = slot v d k.
Proof. intros E. unfold slot, addr_at. by rewrite E. Qed.

Lemma hbyte_addrs v d d' k : di_addrs d' = di_addrs d -> hbyte v d' k = hbyte v d k.
Proof. intros E. unfold hbyte. by rewrite (slot_addrs v d d'). Qed.

Lemma accounted_addrs v I I' : accounted v I -> (forall i, inum_ok (f_sb v) i -> dinode_ok (I' i) /\ di_addrs (I' i) = di_addrs (I i)) -> accounted v I'.
Proof.
  intros [A B C D E F G] HI. assert (forall inum k b, owns v I' inum k b <-> owns v I inum k b) as Ho.
  { intros inum k b. unfold owns. split; intros (H1 & H2 & H3 & H4); split_and!; try done; rewrite <- H3; [symmetry|]; by apply slot_addrs, HI. }
  split; try done.
  - intros i Hi. by apply HI.
  - intros inum k b H%Ho. by apply (E inum k).
  - intros inum k inum' k' b H%Ho H'%Ho. by apply (F inum k inum' k' b).
  - intros b Hb Hf. destruct (G b Hb Hf) as (inum & k & H%Ho). by exists inum, k.
Qed.

(** Nor on anything but the data blocks. *)
Lemma slot_same v v' I j k : accounted v I -> inum_ok (f_sb v) j -> (forall b, dstart (f_sb v) <= b -> blk v' b = blk v b) -> slot v' (I j) k = slot v (I j) k.
Proof.
  intros Hac Hj Hb. apply slot_ext. intros Hind. apply Hb. destruct (slot_range _ _ Hac j NDIRECT Hj) as [H _]; [done|done|]. rewrite slot_indirect in H. lia.
Qed.

Lemma hbyte_same v v' I j k : accounted v I -> inum_ok (f_sb v) j -> 0 <= k < MAXFILE * BSIZE ->
  (forall b, dstart (f_sb v) <= b -> blk v' b = blk v b) -> hbyte v' (I j) k = hbyte v (I j) k.
Proof.
  intros Hac Hj Hk Hb. assert (0 <= k / BSIZE < MAXFILE) as Hkb by (unfold BSIZE in *; divlia). unfold hbyte. rewrite (slot_same v v') by done.
  destruct (Z.eqb_spec (slot v (I j) (bslot (k / BSIZE))) 0) as [|Hne]; [done|]. rewrite Hb; [done|].
  destruct (slot_range _ _ Hac j (bslot (k / BSIZE)) Hj) as [H _]; [by apply bslot_ok|done|]. lia.
Qed.

(** After [iupdate] the disk agrees with the cache. *)
Lemma iupdate_space ip inum I v : working ip inum I v -> i_inum (inodes v ip) = inum ->
  (forall j, inum_ok (f_sb v) j -> j <> inum -> inode_at v j = I j) ->
  let i := inodes v ip in
  let v' := tx (v_write (iblk v i) (write_dinode (blk v (iblk v i)) (ioff i) (i_d i))) v in
  space_ok v' /\ (forall j, inum_ok (f_sb v) j -> inode_at v' j = I j) /\
  (forall j k, inum_ok (f_sb v) j -> slot v' (I j) k = slot v (I j) k) /\
  (forall j k, inum_ok (f_sb v) j -> 0 <= k < MAXFILE * BSIZE -> hbyte v' (I j) k = hbyte v (I j) k).
Proof.
  intros Hw Hi Hdisk i v'. pose proof (wk_acc _ _ _ _ Hw) as Hac. pose proof (wk_inum _ _ _ _ Hw) as Hin. pose proof (wk_i _ _ _ _ Hw) as Hwi. fold i in Hwi.
  pose proof (ac_sb _ _ Hac) as Hsb. pose proof (dstart_size _ Hsb) as Hds. destruct (iblock_range _ Hsb inum Hin) as [Hib Hibb].
  assert (iblk v i = IBLOCK inum (f_sb v)) as Eib by (unfold iblk, i; by rewrite Hi).
  assert (ioff i = DINODE_SIZE * (inum mod IPB)) as Eio by (unfold ioff, i; by rewrite Hi).
  pose proof (ac_dinode _ _ Hac inum Hin) as Hdi. pose proof (ac_len _ _ Hac (iblk v i) ltac:(rewrite Eib; lia)) as Hl.
  assert (forall b, b <> iblk v i -> blk v' b = blk v b) as Hb by (intros b Hb; by apply fset_ne).
  assert (blk v' (iblk v i) = write_dinode (blk v (iblk v i)) (ioff i) (i_d i)) as Hbi by apply fset_eq.
  assert (forall b, dstart (f_sb v) <= b -> blk v' b = blk v b) as Hdata by (intros b Hb2; apply Hb; lia).
  assert (forall j k, inum_ok (f_sb v) j -> slot v' (I j) k = slot v (I j) k) as Hs by (intros; by apply slot_same).
  assert (forall j, inum_ok (f_sb v) j -> inode_at v' j = I j) as Hat.
  { intros j Hj. destruct (decide (j = inum)) as [->|Hne].
    - unfold inode_at. change (f_sb v') with (f_sb v). rewrite <- Eib, Hbi, <- Eio, Hwi. apply read_write_dinode; [done|..];
        by destruct (ioff_fits i _ Hl).
    - rewrite <- Hdisk by done. unfold v'. rewrite Eib, Eio. apply inode_at_other; [rewrite Hwi; apply Hdi|done|..]; unfold inum_ok in *;
        destruct Hsb as [S1 S2 S3 S4 S5 S6]; try lia. clear -S1 S2 S3 S4 S5 S6 Hds. unfold dstart in *. change IPB with 16 in *. change BPB with 8192 in *. divlia. }
  split; [|split; [done|split; [done|]]].
  - apply (accounted_ext v' I); [intros j Hj; by rewrite Hat|]. eapply accounted_same; [exact Hac|done| | |intros; by apply Hs].
    + intros b Hb2. destruct (decide (b = iblk v i)) as [->|]; [by rewrite Hbi, length_write_dinode|by rewrite Hb].
    + intros b Hb2. apply Hb. rewrite Eib. intros E. by apply (Hibb b).
  - intros j k Hj Hk. by apply hbyte_same.
Qed.

(** ** The whole write *)

(** The blocks under the bytes [off .. off+n) are there. *)
Definition present (v : fsys txv) (d : dinode) (off n : Z) : Prop :=
  forall bn, 0 < n -> 0 <= bn < MAXFILE -> off / BSIZE <= bn -> bn * BSIZE < off + n -> slot v d (bslot bn) <> 0.

Section Writei.

Context {X : Type} `{TX : TxLayer X}.

Context (ip inum : Z) (copyin : Z -> nat -> list byte) (src : Z) (data : list byte) (Hcp : copies copyin src data).

#[local] Notation n := (Z.of_nat (length data)).

Lemma fwp_writei_loop_grows e : 1 <= e -> forall m fuel off tot I v,
  working ip inum I v -> unheld v -> i_dev (inodes v ip) = t_dev -> (m <= fuel)%nat ->
  0 <= off -> 0 <= tot <= n -> off + (n - tot) <= MAXFILE * BSIZE ->
  (tot < n -> off mod BSIZE + (n - tot) <= Z.of_nat m * BSIZE) ->
  space (6 * Z.of_nat m + e) v -> 2 * Z.of_nat m <= nfree v ->
  fwp (writei_loop ip copyin (u64 (src + tot)) off n tot fuel)
    (fun off' v' => off' = off + (n - tot) /\ extended ip inum I off (drop (Z.to_nat tot) data) v v' /\
       present v' (i_d (inodes v' ip)) off (n - tot) /\ space e v') v.
Proof.
  intros He. induction m as [|m IH]; intros fuel off tot I v Hw Hh Hdev Hfuel Ho Ht Hn Hm Hsp Hfree.
  - assert (n <= tot) as Hge by (destruct (decide (tot < n)) as [H|]; [specialize (Hm H); pose proof (Z.mod_pos_bound off BSIZE ltac:(unfold BSIZE; lia)); lia|lia]).
    assert (fwp (ret off : M (fsys X) Z) (fun off' v' => off' = off + (n - tot) /\ extended ip inum I off (drop (Z.to_nat tot) data) v v' /\
       present v' (i_d (inodes v' ip)) off (n - tot) /\ space e v') v) as H.
    { apply fwp_ret. split; [lia|]. split; [|split; [|eapply space_mono; [|exact Hsp]; lia]].
      - rewrite drop_ge by lia. apply grows_extended; [done|by apply grows_refl].
      - intros bn H0. lia. }
    destruct fuel; cbn [writei_loop]; destruct (Z.ltb_spec tot n); try lia; done.
  - destruct fuel as [|fuel]; [lia|]. cbn [writei_loop]. destruct (Z.ltb_spec tot n) as [Hlt|Hge].
    2: { apply fwp_ret. split; [lia|]. split; [|split; [|eapply space_mono; [|exact Hsp]; lia]].
      - rewrite drop_ge by lia. apply grows_extended; [done|by apply grows_refl].
      - intros bn H0. lia. }
    specialize (Hm Hlt). set (l0 := Z.min (n - tot) (BSIZE - off mod BSIZE)).
    pose proof (Z.mod_pos_bound off BSIZE ltac:(unfold BSIZE; lia)) as Hmod.
    assert (0 <= off / BSIZE < MAXFILE) as Hbn by (unfold BSIZE in *; divlia).
    assert (0 < l0 /\ off mod BSIZE + l0 <= BSIZE) as [Hl0 Hl1] by lia.
    apply fwp_bind, fwp_inode, fwp_bind. eapply fwp_mono; [|apply (fwp_bmap_grows ip inum I (off / BSIZE) (6 * Z.of_nat m + e + 1)); try done; [lia| |lia]].
    2: { eapply space_mono; [|exact Hsp]. lia. }
    intros a v1 (Hg & Ea & Ha0 & Hn1 & Hsp1). rewrite Hdev.
    pose proof (grows_working _ _ _ _ _ Hw Hg) as Hw1. set (I1 := fset I inum (i_d (inodes v1 ip))) in *.
    assert (slot v1 (I1 inum) (bslot (off / BSIZE)) = a) as Es by (unfold I1; by rewrite fset_eq).
    assert (unheld v1) as Hh1 by (unfold unheld; by rewrite (gr_held _ _ _ _ _ Hg)).
    apply fwp_open; [by apply unheld_held|eapply space_mono; [|exact Hsp1]; lia|]. intros h Hf. fold l0.
    set (l := copyin (u64 (src + tot)) (Z.to_nat l0)).
    assert (l = take (Z.to_nat l0) (drop (Z.to_nat tot) data)) as El by (apply Hcp; lia).
    assert (Z.of_nat (length l) = l0) as Hl by (rewrite El, length_take, length_drop; lia).
    rewrite (proj2 (Nat.ltb_lt 0 (length l))) by lia. rewrite (proj2 (Nat.ltb_ge (length l) (Z.to_nat l0))) by lia.
    apply fwp_seq3, (fwp_commit a h (splice (off mod BSIZE) l)); [by apply unheld_held|done|eapply space_mono; [|exact Hsp1]; lia|].
    pose proof (extended_block ip inum I1 off l v1 Hw1 ltac:(unfold BSIZE in *; divlia) ltac:(lia)) as Hx. cbv zeta in Hx. rewrite Es in Hx. specialize (Hx Ha0).
    set (v2 := tx _ v1) in *. pose proof (extended_working _ _ _ _ _ _ _ Hw1 Hx) as Hw2.
    assert (extended ip inum I off l v v2) as Hx1.
    { apply (extended_trans ip inum I off [] l v v1 v2); [by apply grows_extended|]. by rewrite Z.add_0_r. }
    assert (fset I1 inum (i_d (inodes v2 ip)) = fset I inum (i_d (inodes v2 ip))) as EI by (unfold I1; apply fset_fset). rewrite EI in Hw2.
    assert (u32 (off + l0) = off + l0) as -> by (apply u32_small; change MAXFILE with 268 in *; unfold BSIZE in *; lia).
    replace (u64 (u64 (src + tot) + l0)) with (u64 (src + (tot + l0))) by (unfold u64; rewrite Zplus_mod_idemp_l; f_equal; lia).
    assert (dstart (f_sb v1) <= a) as Had.
    { destruct (slot_range _ _ (wk_acc _ _ _ _ Hw1) inum (bslot (off / BSIZE))) as [H _]; [apply Hw1|by apply bslot_ok|by rewrite Es|]. rewrite Es in H. lia. }
    eapply fwp_mono; [|apply (IH fuel (off + l0) (tot + l0) _ v2 Hw2); try lia].
    + intros off' v' (-> & Hx2 & Hp & Hsp'). split; [lia|]. split; [|split; [|done]].
      * rewrite (drop_step data (Z.to_nat tot) (Z.to_nat l0)), <- El. eapply extended_trans; [exact Hx1|]. rewrite Hl.
        by replace (Z.to_nat tot + Z.to_nat l0)%nat with (Z.to_nat (tot + l0)) by lia.
      * intros bn _ Hb0 Hb1 Hb2. destruct (decide (bn = off / BSIZE)) as [->|Hne].
        -- apply (ex_slots _ _ _ _ _ _ _ Hx2); [by apply bslot_ok|]. rewrite fset_eq.
           apply (ex_slots _ _ _ _ _ _ _ Hx); [by apply bslot_ok|by rewrite Es].
        -- assert (l0 = BSIZE - off mod BSIZE) as E0.
           { destruct (decide (l0 = n - tot)) as [E|]; [|lia]. exfalso. apply Hne. unfold BSIZE in *. divlia. }
           assert (off / BSIZE < bn) by lia. apply Hp; [rewrite E0; unfold BSIZE in *; divlia|done| |lia]. replace (off + l0) with ((off / BSIZE + 1) * BSIZE) by (rewrite E0; unfold BSIZE in *; divlia).
           rewrite Z.div_mul by (unfold BSIZE; lia). lia.
    + unfold unheld, v2. by cbn.
    + unfold v2. change (inodes (tx _ v1) ip) with (inodes v1 ip). destruct (gr_inode _ _ _ _ _ Hg) as [ll ->]. done.
    + intros Hmore. assert (l0 = BSIZE - off mod BSIZE) as Em by lia.
      replace ((off + l0) mod BSIZE) with 0 by (rewrite Em; unfold BSIZE in *; divlia). lia.
    + replace (6 * Z.of_nat m + e) with (6 * Z.of_nat m + e + 1 - 1) by lia. unfold v2. apply space_write; [done|lia].
    + unfold v2. rewrite (nfree_data I1) by (apply Hw1 || done). lia.
Qed.

(** What [writei] leaves behind. *)
Definition write_done (v : fsys txv) (off : Z) (v' : fsys txv) : Prop :=
  let d := inode_at v inum in let d' := inode_at v' inum in
  space_ok v' /\ f_sb v' = f_sb v /\ unheld v' /\ ic_lock v' = ic_lock v /\ (forall j, j <> ip -> inodes v' j = inodes v j) /\
  inodes v' ip = with_d (fun _ => d') (inodes v ip) /\
  di_size d' = Z.max (di_size d) (off + n) /\ di_type d' = di_type d /\ di_nlink d' = di_nlink d /\
  (forall k, 0 <= k < MAXFILE * BSIZE -> hbyte v' d' k = patched (hbyte v d) off data k) /\
  present v' d' off n /\ (forall k, slot_ok k -> slot v d k <> 0 -> slot v' d' k <> 0) /\
  (forall j, inum_ok (f_sb v) j -> j <> inum -> inode_at v' j = inode_at v j /\
     (forall k, 0 <= k < MAXFILE * BSIZE -> hbyte v' (inode_at v' j) k = hbyte v (inode_at v j) k) /\
     forall k, slot v' (inode_at v' j) k = slot v (inode_at v j) k).

(** From the end of the loop to the end of [writei]. *)
Lemma write_finish v v1 off : working ip inum (inode_at v) v -> i_inum (inodes v ip) = inum -> unheld v ->
  extended ip inum (inode_at v) off data v v1 -> present v1 (i_d (inodes v1 ip)) off n -> 0 <= off -> off + n <= MAXFILE * BSIZE ->
  let g := fun i => with_d (with_size (Z.max (di_size (i_d i)) (off + n))) i in
  let v2 := set_inode ip g v1 in let i := inodes v2 ip in
  write_done v off (tx (v_write (iblk v2 i) (write_dinode (blk v2 (iblk v2 i)) (ioff i) (i_d i))) v2).
Proof.
  intros Hw Hi Hh Hx Hp Ho Hon g v2 i. pose proof Hx as [X1 X2 X3 X4 X5 X5' X6 X7 X8 X9 X10]. pose proof (wk_i _ _ _ _ Hw) as Hwi. pose proof (wk_inum _ _ _ _ Hw) as Hin.
  destruct X2 as [l El]. set (d1 := i_d (inodes v1 ip)) in *. set (d2 := with_size (Z.max (di_size d1) (off + n)) d1).
  assert (i_d i = d2) as Ed by (unfold i, v2; by rewrite inodes_set). change MAXFILE with 268 in Hon. unfold BSIZE in Hon.
  assert (d1 = with_addrs l (inode_at v inum)) as E1 by (unfold d1; rewrite El; cbn; by rewrite Hwi).
  assert (dinode_ok d1) as Hd1 by (specialize (ac_dinode _ _ X1 inum); rewrite fset_eq, X8; auto).
  assert (dinode_ok d2) as Hd2 by (destruct Hd1; split; try done; cbn; lia).
  set (I2 := fset (inode_at v) inum d2).
  assert (working ip inum I2 v2) as Hw2.
  { split; [|by rewrite <- X8 in Hin|unfold I2; by rewrite fset_eq]. apply (accounted_same v1 v2); [|done..].
    eapply accounted_addrs; [exact X1|]. intros j Hj. unfold I2, fset. destruct (decide (j = inum)); [done|]. split; [|done].
    apply (ac_dinode _ _ (wk_acc _ _ _ _ Hw)). by rewrite X8 in Hj. }
  assert (i_inum i = inum) as Ein by (unfold i, v2; rewrite inodes_set; unfold g; cbn; by rewrite El).
  assert (forall j, inum_ok (f_sb v2) j -> j <> inum -> inode_at v2 j = I2 j) as Hdisk.
  { intros j Hj Hne. unfold I2. rewrite fset_ne by done. change (inode_at v2 j) with (inode_at v1 j). unfold inode_at. rewrite X8. f_equal.
    apply X6. change (f_sb v2) with (f_sb v1) in Hj. by rewrite X8 in Hj. }
  destruct (iupdate_space ip inum I2 v2 Hw2 Ein Hdisk) as (S1 & S2 & S3 & S4). fold i in S1, S2, S3, S4. set (v' := tx _ v2) in *.
  change (f_sb v2) with (f_sb v1) in S2, S3, S4. rewrite X8 in S2, S3, S4.
  assert (inode_at v' inum = d2) as E' by (rewrite (S2 inum Hin); unfold I2; by rewrite fset_eq).
  assert (I2 inum = d2) as EI by (unfold I2; by rewrite fset_eq).
  assert (forall k, slot v' d2 k = slot v1 d1 k) as Hs.
  { intros k. specialize (S3 inum k Hin). rewrite EI in S3. rewrite S3. change (slot v2 d2 k) with (slot v1 d2 k). by apply slot_addrs. }
  unfold write_done. rewrite E'. split; [done|]. split; [done|]. split; [unfold unheld; by rewrite <- Hh, <- X10|]. split; [done|]. split.
  { intros j Hj. change (inodes v' j) with (fset (inodes v1) ip (g (inodes v1 ip)) j). rewrite fset_ne by done. by apply X7. }
  split. { change (inodes v' ip) with (inodes v2 ip). unfold v2. rewrite inodes_set. unfold g, d2, d1. rewrite El. by destruct (inodes v ip) as [? ? ? ? ? []]. }
  split; [unfold d2; cbn; by rewrite E1|]. split; [unfold d2; cbn; by rewrite E1|]. split; [unfold d2; cbn; by rewrite E1|]. split.
  { intros k Hk. rewrite <- X4 by done. specialize (S4 inum k Hin Hk). rewrite EI in S4. rewrite S4. change (hbyte v2 d2 k) with (hbyte v1 d2 k). by apply hbyte_addrs. }
  split. { intros bn Hb0 Hb1 Hb2 Hb3. rewrite Hs. by apply Hp. }
  split. { intros k Hk Hne. rewrite Hs. by apply X3. }
  intros j Hj Hne. assert (inode_at v' j = inode_at v j) as Ej by (rewrite (S2 j Hj); unfold I2; by rewrite fset_ne).
  split; [done|]. rewrite Ej. split.
  - intros k Hk. rewrite <- (X5 j k Hne Hj Hk). specialize (S4 j k Hj Hk). unfold I2 in S4. rewrite fset_ne in S4 by done. exact S4.
  - intros k. rewrite <- (X5' j k Hne Hj). specialize (S3 j k Hj). unfold I2 in S3. rewrite fset_ne in S3 by done. exact S3.
Qed.

(** From the loop to the end of [writei]; [R] is what more is known of the
    blocks when the loop ends. *)
Lemma fwp_writei_after (R : txv -> Prop) off v : space_ok v -> inum_ok (f_sb v) inum -> i_inum (inodes v ip) = inum -> i_d (inodes v ip) = inode_at v inum ->
  i_dev (inodes v ip) = t_dev -> unheld v -> 0 <= src < 2 ^ 64 -> 0 < n -> 0 <= off <= di_size (inode_at v inum) -> off + n <= MAXFILE * BSIZE ->
  fwp (writei_loop ip copyin src off n 0 (Z.to_nat (n / BSIZE + 2))) (fun off' v1 => off' = off + n /\ extended ip inum (inode_at v) off data v v1 /\
    present v1 (i_d (inodes v1 ip)) off n /\ space 2 v1 /\ R (fx v1)) v ->
  fwp (writei ip copyin src off n) (fun r v' => r = n /\ write_done v off v' /\ space 1 v' /\ exists x b d, R x /\ fx v' = v_write b d x) v.
Proof.
  intros Hsp Hin Hi Hd Hdev Hh Hsrc Hn Hoff Hon Hloop.
  assert (working ip inum (inode_at v) v) as Hw by done.
  pose proof Hon as Hon'. change (MAXFILE * BSIZE) with 274432 in Hon'.
  unfold writei. apply fwp_bind, fwp_inode. rewrite Hd, (u32_small (off + n)) by lia.
  destruct (Z.gtb_spec off (di_size (inode_at v inum))); [lia|]. destruct (Z.ltb_spec (off + n) off); [lia|]. cbn [orb].
  change (MAXFILE * BSIZE) with 274432. destruct (Z.gtb_spec (off + n) 274432); [lia|].
  apply fwp_bind. eapply fwp_mono; [|exact Hloop]. intros off' v1 (-> & Hx & Hp & Hsp1 & HR). destruct (Z.gtb_spec n 0); [|lia].
  pose proof (write_finish v v1 off Hw Hi Hh Hx Hp ltac:(lia) Hon) as Hfin. cbv zeta in Hfin. set (g := fun i => _) in Hfin. set (v2 := set_inode ip _ v1) in *.
  destruct (ex_inode _ _ _ _ _ _ _ Hx) as [l El].
  assert (fwp (iupdate ip) (fun _ => fwp (ret n) (fun r v' => r = n /\ write_done v off v' /\ space 1 v' /\ exists x b d, R x /\ fx v' = v_write b d x)) v2) as Hupd.
  { apply fwp_iupdate.
    - unfold v2. rewrite inodes_set. cbn. by rewrite El.
    - unfold held. change (v_held (fx v2)) with (v_held (fx v1)). rewrite (ex_held _ _ _ _ _ _ _ Hx), Hh. apply lookup_empty.
    - change (space 1 v2) with (space 1 v1). eapply space_mono; [|exact Hsp1]. lia.
    - apply fwp_ret. split; [done|]. split; [done|]. split; [apply (space_write 2); [done|lia]|]. by eexists _, _, _. }
  apply fwp_bind, fwp_bind, fwp_inode. destruct (Z.gtb_spec (off + n) (di_size (i_d (inodes v1 ip)))) as [Hgt|Hle].
  - apply fwp_bind, fwp_upd. replace (set_inode ip (with_d (with_size (off + n))) v1) with v2; [done|]. apply set_inode_ext. unfold g.
    by replace (Z.max (di_size (i_d (inodes v1 ip))) (off + n)) with (off + n) by lia.
  - apply fwp_bind, fwp_ret. replace v1 with v2; [done|]. unfold v2, set_inode. destruct v1 as [fx1 sb1 lk1 in1]. cbn in *. f_equal.
    trans (fset in1 ip (in1 ip)); [f_equal|apply fset_id]. unfold g. replace (Z.max (di_size (i_d (in1 ip))) (off + n)) with (di_size (i_d (in1 ip))) by lia.
    by destruct (in1 ip) as [? ? ? ? ? []].
Qed.

Lemma fwp_writei_grows m off v : space_ok v -> inum_ok (f_sb v) inum -> i_inum (inodes v ip) = inum -> i_d (inodes v ip) = inode_at v inum ->
  i_dev (inodes v ip) = t_dev -> unheld v -> 0 <= src < 2 ^ 64 -> 0 < n -> 0 <= off <= di_size (inode_at v inum) -> off + n <= MAXFILE * BSIZE ->
  off mod BSIZE + n <= Z.of_nat m * BSIZE -> space (6 * Z.of_nat m + 2) v -> 2 * Z.of_nat m <= nfree v -> (m <= Z.to_nat (n / BSIZE + 2))%nat ->
  fwp (writei ip copyin src off n) (fun r v' => r = n /\ write_done v off v' /\ space 1 v') v.
Proof.
  intros Hsp Hin Hi Hd Hdev Hh Hsrc Hn Hoff Hon Hm Hspc Hnf Hmf. assert (working ip inum (inode_at v) v) as Hw by done.
  eapply fwp_mono; [|apply (fwp_writei_after (fun _ => True)); try done].
  - intros r v' (A & B & C & _). done.
  - assert (src = u64 (src + 0)) as Es by (rewrite Z.add_0_r, u64_small; lia). rewrite Es at 1.
    eapply fwp_mono; [|apply (fwp_writei_loop_grows 2 ltac:(lia) m _ off 0 (inode_at v) v Hw Hh Hdev); try lia; done].
    intros off' v1 (-> & Hx & Hp & Hsp1). rewrite drop_0 in Hx. rewrite Z.sub_0_r in *. done.
Qed.

End Writei.

(** ** Files without holes *)

(** Entry [ip] of the cache holds inode [inum] as the disk has it, and every
    block below the size of the file is there. *)
Record cached (dev : Z) (v : fsys txv) (ip inum : Z) : Prop := {
  ca_ok : inum_ok (f_sb v) inum;
  ca_inum : i_inum (inodes v ip) = inum;
  ca_d : i_d (inodes v ip) = inode_at v inum;
  ca_dev : i_dev (inodes v ip) = dev;
  ca_size : di_size (inode_at v inum) <= MAXFILE * BSIZE;
  ca_full : present v (inode_at v inum) 0 (di_size (inode_at v inum));
}.

(** The number of blocks that [n] bytes from [off] on touch. *)
Definition touched (off n : Z) : Z := (off mod BSIZE + n + (BSIZE - 1)) / BSIZE.

Lemma present_addr v d bn n : present v d 0 n -> 0 <= bn < MAXFILE -> bn * BSIZE < n ->
  slot v d (bslot bn) = faddr v d bn /\ faddr v d bn <> 0 /\ (NDIRECT <= bn -> addr_at d NDIRECT <> 0).
Proof.
  intros Hp Hbn Hn. pose proof (Hp bn ltac:(unfold BSIZE in *; lia) Hbn ltac:(change (0 / BSIZE) with 0; lia) ltac:(lia)) as Hne.
  assert (bn < NDIRECT \/ addr_at d NDIRECT <> 0) as Hor.
  { destruct (decide (bn < NDIRECT)); [by left|right]. intros E. apply Hne. unfold slot, bslot. rewrite (proj2 (Z.ltb_ge _ _)) by lia.
    rewrite (proj2 (Z.leb_gt _ _)) by lia. by rewrite E. }
  rewrite slot_bslot in Hne |- * by done. split_and!; try done. intros H. destruct Hor; [lia|done].
Qed.

Lemma cached_mapped dev v ip inum : space_ok v -> unheld v -> cached dev v ip inum ->
  mapped dev v (inodes v ip) ((di_size (inode_at v inum) + (BSIZE - 1)) / BSIZE).
Proof.
  intros Hsp Hh [C1 C2 C3 C4 C5 C6]. set (d := inode_at v inum) in *. set (N := (di_size d + (BSIZE - 1)) / BSIZE).
  pose proof (dstart_size _ (ac_sb _ _ Hsp)) as Hds.
  assert (forall bn, 0 <= bn < N -> 0 <= bn < MAXFILE /\ bn * BSIZE < di_size d) as Hr.
  { intros bn Hb. change MAXFILE with 268 in *. unfold N, BSIZE in *. divlia. }
  assert (forall bn, 0 <= bn < N -> slot v d (bslot bn) = faddr v d bn /\ faddr v d bn <> 0 /\ slot_ok (bslot bn)) as Ha.
  { intros bn Hb. destruct (Hr bn Hb) as [H1 H2]. destruct (present_addr v d bn _ C6 H1 H2) as (E & H3 & _). split_and!; try done. by apply bslot_ok. }
  split; rewrite ?C3; try done; try (fold d).
  - change MAXFILE with 268 in *. unfold N, BSIZE in *. divlia.
  - intros bn Hb. by apply Ha.
  - intros bn Hb. by apply unheld_held.
  - intros bn Hb. destruct (Ha bn Hb) as (E & H3 & H4). apply (ac_len _ _ Hsp). rewrite <- E in *.
    destruct (slot_range v _ Hsp inum (bslot bn)) as [H _]; try done. fold d in H. lia.
  - intros bn bn' Hb Hb'. destruct (Ha bn Hb) as (<- & H3 & H4), (Ha bn' Hb') as (<- & H5 & H6). intros E.
    destruct (slot_once v _ Hsp inum (bslot bn) inum (bslot bn') C1 H4 C1 H6 H3 E) as [_ E2]. by apply bslot_inj.
  - intros HN. destruct (Hr NDIRECT ltac:(unfold NDIRECT in *; lia)) as [H1 H2]. destruct (present_addr v d NDIRECT _ C6 H1 H2) as (_ & _ & Hind).
    specialize (Hind ltac:(lia)). split; [done|]. split; [by apply unheld_held|]. intros bn Hb E. destruct (Ha bn Hb) as (E2 & H3 & H4).
    destruct (Hr bn Hb) as [Hb1 _]. destruct (bslot_ok bn Hb1) as [_ Hnd]. apply Hnd.
    rewrite <- E2 in H3, E. by destruct (slot_once v _ Hsp inum (bslot bn) inum NDIRECT C1 H4 C1 ltac:(done) H3 E) as [_ E3].
Qed.

Lemma cached_bytes dev v ip inum k : cached dev v ip inum -> 0 <= k < di_size (inode_at v inum) ->
  fbyte v (inode_at v inum) k = hbyte v (inode_at v inum) k.
Proof.
  intros [C1 C2 C3 C4 C5 C6] Hk. change MAXFILE with 268 in C5. assert (0 <= k / BSIZE < MAXFILE) as Hb by (change MAXFILE with 268; unfold BSIZE in *; divlia).
  destruct (present_addr v _ (k / BSIZE) _ C6 Hb ltac:(unfold BSIZE in *; divlia)) as (E & H & _).
  unfold fbyte, hbyte. by rewrite E, (proj2 (Z.eqb_neq _ _) H).
Qed.

(** [C8] Writing a file, whatever blocks it takes: when the file has no holes
    and the disk has room, [writei] from any offset up to the end of the file
    returns [n], allocating the blocks (and the indirect block) it needs; the
    bytes of the file change exactly where they are written, its size grows to
    the end of the write, no byte of any other file changes, the inode is on
    disk, the bitmap marks exactly the blocks that some inode owns, none owned
    twice, and reading the same range gives the data back. *)
Theorem writei_extends {X : Type} `{TX : TxLayer X} (s : fsys X) (v : fsys txv) (ip inum src dst off : Z)
  (copyin : Z -> nat -> list byte) (copyout : Z -> list byte -> nat) (data : list byte)
  (Hs : fs_rep s v) (Hsp : space_ok v) (Hc : cached t_dev v ip inum) (Hh : unheld v)
  (Hcp : copies copyin src data) (Hsrc : 0 <= src < 2 ^ 64) (Hdata : data <> [])
  (Hoff : 0 <= off <= di_size (inode_at v inum)) (Hend : off + Z.of_nat (length data) <= MAXFILE * BSIZE)
  (Hlog : space (6 * touched off (Z.of_nat (length data)) + 2) v) (Hfree : 2 * touched off (Z.of_nat (length data)) <= nfree v)
  (Hout : forall d l, copyout d l = length l) :
  let n := Z.of_nat (length data) in
  exists s1 v1 s2, writei ip copyin src off n s = Done n s1 /\ fs_rep s1 v1 /\ space_ok v1 /\ cached t_dev v1 ip inum /\
    di_size (inode_at v1 inum) = Z.max (di_size (inode_at v inum)) (off + n) /\
    (forall k, 0 <= k < MAXFILE * BSIZE -> hbyte v1 (inode_at v1 inum) k = patched (hbyte v (inode_at v inum)) off data k) /\
    (forall j, inum_ok (f_sb v) j -> j <> inum -> inode_at v1 j = inode_at v j /\
       forall k, 0 <= k < MAXFILE * BSIZE -> hbyte v1 (inode_at v1 j) k = hbyte v (inode_at v j) k) /\
    readi ip copyout dst off n s1 = Done (n, data) s2 /\ fs_rep s2 v1.
Proof.
  intros n. assert (0 < n) as Hn by (unfold n; destruct data; [done|cbn; lia]). pose proof Hc as [C1 C2 C3 C4 C5 C6].
  pose proof (Z.mod_pos_bound off BSIZE ltac:(unfold BSIZE; lia)) as Hmod. change MAXFILE with 268 in Hend, C5.
  assert (0 <= touched off n) as Hb0 by (unfold touched, BSIZE in *; divlia).
  destruct (fwp_writei_grows ip inum copyin src data Hcp (Z.to_nat (touched off n)) off v Hsp C1 C2 C3 C4 Hh Hsrc Hn Hoff Hend) with (s := s)
    as (r & s1 & v1 & E1 & R1 & -> & Hwd & Hsp1); rewrite ?Z2Nat.id by done; try done.
  { unfold touched, BSIZE in *. divlia. }
  { apply Z2Nat.inj_le; [done|unfold BSIZE; divlia|]. fold n. unfold touched, BSIZE in *. divlia. }
  destruct Hwd as (D1 & D2 & D3 & D4 & D5 & D6 & D7 & D8 & D9 & D10 & D11 & D12 & D13). fold n in D7, D11, E1.
  assert (cached t_dev v1 ip inum) as Hc1.
  { split; [by rewrite D2|by rewrite D6|by rewrite D6|by rewrite D6|change MAXFILE with 268; rewrite D7; lia|].
    intros bn H0 H1 _ H2. rewrite D7 in H2. destruct (decide (bn * BSIZE < di_size (inode_at v inum))) as [Hlt|Hge].
    - apply D12; [by apply bslot_ok|]. apply C6; [unfold BSIZE in *; lia|done|change (0 / BSIZE) with 0; lia|lia].
    - apply D11; try done; unfold BSIZE in *; try lia. divlia. }
  pose proof (cached_mapped _ _ _ _ D1 D3 Hc1) as Hm.
  pose proof (fwp_readi ip copyout _ dst off n v1 Hm Hsp1) as Hrd. cbv zeta in Hrd. rewrite (ca_d _ _ _ _ Hc1), D7 in Hrd.
  destruct (Hrd ltac:(unfold BSIZE in *; divlia) ltac:(unfold BSIZE in *; divlia) ltac:(lia) ltac:(lia) ltac:(unfold BSIZE in *; lia) s1 R1)
    as ([r l] & s2 & v2 & E2 & R2 & -> & Er & _ & Hl). cbn [fst snd] in Er, Hl. specialize (Hl Hout).
  replace (Z.min n (Z.max (di_size (inode_at v inum)) (off + n) - off)) with n in Er, Hl by lia. subst r l.
  assert (content v1 (inode_at v1 inum) off n = data) as Ec.
  { unfold n. apply (content_patched v v1 (inode_at v inum)). intros k Hk. fold n in Hk. rewrite (cached_bytes _ _ ip) by (try exact Hc1; lia).
    rewrite D10 by (change MAXFILE with 268; lia). unfold patched. rewrite (proj2 (Z.leb_le _ _)), (proj2 (Z.ltb_lt _ _)) by (fold n; lia). done. }
  rewrite Ec in E2. exists s1, v1, s2. split_and!; try done. intros j Hj Hne. destruct (D13 j Hj Hne) as (A & B & _). done.
Qed.
