(* ===== verification/FsTrunc.v ===== *)
(** * Giving the blocks of a file back: itrunc of kernel/fs.c *)

From S2P Require Import Prelude CMem Riscv Sleeplock BlockLayer Log Tx Fs FsBlocks FsInode FsFile FsSpace FsGrow.

(** ** Clearing bits *)

Lemma clear_bit_clear d bi bj : in_block d (bi / 8) -> 0 <= bj ->
  bit_clear (clear_bit bi d) bj = bit_clear d bj || (bj =? bi).
Proof.
  intros Hin Hj. rewrite !bit_clear_testbit. unfold clear_bit.
  rewrite byte_at_put by (try done; apply Z.div_pos; lia).
  pose proof (Z.mod_pos_bound bj 8 ltac:(lia)) as Hm. destruct (Z.eqb_spec (bj / 8) (bi / 8)) as [E|E].
  - unfold u8. rewrite Z.mod_pow2_bits_low by lia. rewrite Z.land_spec, Z.lnot_spec, mask_testbit, E by lia.
    replace (bj =? bi) with (bj mod 8 =? bi mod 8) by (zcmp; divlia). by rewrite negb_andb, negb_involutive.
  - replace (bj =? bi) with false; [by rewrite orb_false_r|]. symmetry. apply Z.eqb_neq. congruence.
Qed.

Definition cleared (b : Z) (v : fsys txv) : fsys txv :=
  tx (v_write (BBLOCK b (f_sb v)) (clear_bit (b mod BPB) (blk v (BBLOCK b (f_sb v))))) v.

Lemma cleared_bits v b b' : Z.of_nat (length (blk v (BBLOCK b (f_sb v)))) = BSIZE -> sb_ok (f_sb v) -> 0 <= b < sb_size (f_sb v) -> 0 <= b' < sb_size (f_sb v) ->
  blk_free (cleared b v) b' = blk_free v b' || (b' =? b).
Proof.
  intros Hlen Hsb Hb Hb'. assert (in_block (blk v (BBLOCK b (f_sb v))) (b mod BPB / 8)) as Hin.
  { unfold in_block. rewrite Hlen. change BPB with 8192. unfold BSIZE. divlia. }
  unfold blk_free, cleared, blk in *. cbn [tx set_fx fx v_write v_blocks f_sb].
  destruct (bblock_range _ Hsb b Hb) as [E1 _], (bblock_range _ Hsb b' Hb') as [E2 _].
  destruct (decide (BBLOCK b' (f_sb v) = BBLOCK b (f_sb v))) as [E|E].
  - rewrite E, fset_eq. rewrite clear_bit_clear; [|done|apply Z.mod_pos_bound; unfold BPB, BSIZE; lia].
    f_equal. rewrite E1, E2 in E. change BPB with 8192 in *. zcmp; divlia.
  - rewrite fset_ne by done. replace (b' =? b) with false; [by rewrite orb_false_r|]. symmetry. apply Z.eqb_neq. congruence.
Qed.

(** ** Blocks without an owner

    [freed P v v']: from [v] to [v'] the blocks in [P] were freed, and nothing
    else happened to the blocks. *)

Definition bitmap_set (sb : superblock) : gset Z := list_to_set (map (fun b => BBLOCK b sb) (seqZ 0 (sb_size sb))).

Lemma elem_of_bitmap sb b : 0 <= b < sb_size sb -> BBLOCK b sb ∈ bitmap_set sb.
Proof. intros Hb. apply elem_of_list_to_set, list_elem_of_fmap. exists b. split; [done|]. apply elem_of_seqZ. lia. Qed.

Lemma data_not_bitmap sb b : sb_ok sb -> dstart sb <= b -> b ∉ bitmap_set sb.
Proof.
  intros Hsb Hb Hin%elem_of_list_to_set%list_elem_of_fmap. destruct Hin as (x & E & Hx%elem_of_seqZ).
  destruct (bblock_range _ Hsb x ltac:(lia)) as [_ H]. lia.
Qed.

Record freed (P : Z -> Prop) (v v' : fsys txv) : Prop := {
  fr_sb : f_sb v' = f_sb v;
  fr_lock : ic_lock v' = ic_lock v;
  fr_held : v_held (fx v') = v_held (fx v);
  fr_fresh : v_fresh (fx v') = v_fresh (fx v);
  fr_logged : v_logged (fx v') ⊆ v_logged (fx v) ∪ bitmap_set (f_sb v);
  fr_blk b : b ∉ bitmap_set (f_sb v) -> blk v' b = blk v b;
  fr_len b : length (blk v' b) = length (blk v b);
  fr_bits b : 0 <= b < sb_size (f_sb v) -> blk_free v' b = true <-> blk_free v b = true \/ P b;
}.

Lemma freed_iff (P P' : Z -> Prop) v v' : (forall b, P b <-> P' b) -> freed P v v' -> freed P' v v'.
Proof. intros HP [A B C D E F G H]. split; try done. intros b Hb. rewrite H by done. by rewrite HP. Qed.

Lemma freed_refl v : freed (fun _ => False) v v.
Proof. split; try done; [set_solver|]. intros b Hb. tauto. Qed.

Section Freed.

Context {X : Type} `{TX : TxLayer X}.

(** Room for the bitmap and [e] blocks more. *)
Definition bitmap_space (e : Z) (v : fsys txv) : Prop :=
  Z.of_nat (size (v_logged (fx v) ∪ dom (v_held (fx v)) ∪ bitmap_set (f_sb v))) + e <= NBUF /\
  Z.of_nat (size (v_logged (fx v) ∪ bitmap_set (f_sb v))) + e <= t_limit.

Lemma freed_space P e v v' : freed P v v' -> bitmap_space e v -> space e v'.
Proof.
  intros [A B C D E F G H] [S1 S2]. unfold space, tx_space. rewrite C.
  pose proof (subseteq_size (v_logged (fx v') ∪ dom (v_held (fx v))) (v_logged (fx v) ∪ dom (v_held (fx v)) ∪ bitmap_set (f_sb v)) ltac:(set_solver)).
  pose proof (subseteq_size (v_logged (fx v')) (v_logged (fx v) ∪ bitmap_set (f_sb v)) ltac:(set_solver)). lia.
Qed.

Lemma fwp_bfree_freed P v v1 b (Q : unit -> fsys txv -> Prop) :
  bitmap_ok v -> sb_ok (f_sb v) -> bitmap_space 1 v -> 0 <= b < sb_size (f_sb v) ->
  freed P v v1 -> held v (BBLOCK b (f_sb v)) = None -> blk_free v b = false -> ~ P b ->
  (freed (fun x => P x \/ x = b) v (cleared b v1) -> Q tt (cleared b v1)) -> fwp (bfree t_dev b) Q v1.
Proof.
  intros Hbm Hsb Hsp Hb Hf Hh Hu HP HQ. pose proof Hf as [A B C D E F G H].
  assert (blk_free v1 b = false) as Hu1.
  { destruct (blk_free v1 b) eqn:E1; [|done]. apply H in E1 as [E1|E1]; [congruence|done|done]. }
  apply fwp_bfree; [by eapply freed_space|by rewrite A; unfold held in *; rewrite C|done|]. fold (cleared b v1). apply HQ.
  split; try done.
  - cbn. rewrite A. pose proof (elem_of_bitmap (f_sb v) b Hb). set_solver.
  - intros x Hx. unfold cleared. rewrite A. pose proof (elem_of_bitmap (f_sb v) b Hb).
    assert (blk (tx (v_write (BBLOCK b (f_sb v)) (clear_bit (b mod BPB) (blk v1 (BBLOCK b (f_sb v))))) v1) x = blk v1 x) as ->; [apply fset_ne; set_solver|by apply F].
  - intros x. unfold cleared. rewrite A. unfold blk at 1. cbn. unfold fset. destruct (decide _) as [->|]; [|apply G]. rewrite <- G. apply length_put_byte.
  - intros x Hx. rewrite cleared_bits; rewrite ?A, ?G; try done; [|by apply Hbm]. rewrite orb_true_iff, H, Z.eqb_eq by done. tauto.
Qed.

End Freed.

Lemma freed_inode P v v1 ip f : freed P v v1 -> freed P v (set_inode ip f v1).
Proof. intros [A B C D E F G H]. by split. Qed.

(** The first [k] addresses gone. *)
Definition zeros (k : Z) (l : list Z) : list Z := replicate (Z.to_nat k) 0 ++ drop (Z.to_nat k) l.

Lemma zeros_at k l j : 0 <= k -> Z.of_nat (length l) = NDIRECT + 1 -> k <= NDIRECT + 1 -> nth j (zeros k l) 0 = if (Z.of_nat j <? k) then 0 else nth j l 0.
Proof.
  intros Hk Hl Hk'. unfold zeros. destruct (Z.ltb_spec (Z.of_nat j) k).
  - rewrite app_nth1 by (rewrite length_replicate; lia). rewrite nth_lookup. destruct (replicate _ _ !! j) eqn:E; [|done]. by apply lookup_replicate in E as [-> _].
  - rewrite app_nth2 by (rewrite length_replicate; lia). rewrite length_replicate, !nth_lookup, lookup_drop. do 2 f_equal. lia.
Qed.

Lemma zeros_length k l : 0 <= k -> k <= Z.of_nat (length l) -> length (zeros k l) = length l.
Proof. intros H1 H2. unfold zeros. rewrite length_app, length_replicate, length_drop. lia. Qed.

Lemma zeros_next k l : 0 <= k -> k < Z.of_nat (length l) -> <[Z.to_nat k := 0]> (zeros k l) = zeros (k + 1) l.
Proof.
  intros H1 H2. unfold zeros. rewrite insert_app_r_alt by (rewrite length_replicate; lia). rewrite length_replicate, Nat.sub_diag.
  destruct (drop (Z.to_nat k) l) as [|x l'] eqn:E; [apply (f_equal length) in E; rewrite length_drop in E; cbn in E; lia|].
  cbn. replace (Z.to_nat (k + 1)) with (Z.to_nat k + 1)%nat by lia. rewrite replicate_add, <- app_assoc. f_equal. cbn. f_equal.
  rewrite <- drop_drop, E. by rewrite skipn_cons, drop_0.
Qed.

Lemma zeros_skip k l : 0 <= k -> k < Z.of_nat (length l) -> nth (Z.to_nat k) l 0 = 0 -> zeros k l = zeros (k + 1) l.
Proof.
  intros H1 H2 H3. rewrite <- zeros_next by done. symmetry. apply list_insert_id. unfold zeros.
  rewrite lookup_app_r by (rewrite length_replicate; lia). rewrite length_replicate, lookup_drop, Nat.sub_diag, Nat.add_0_r.
  destruct (l !! Z.to_nat k) eqn:E; [|apply lookup_ge_None in E; lia]. rewrite nth_lookup, E in H3. cbn in H3. by subst.
Qed.

(** ** The loops *)

Section Itrunc.

Context {X : Type} `{TX : TxLayer X}.

Context (ip inum : Z) (I : Z -> dinode) (v : fsys txv) (Hw : working ip inum I v) (Hh : unheld v) (Hdev : i_dev (inodes v ip) = t_dev).
Context (Hsp : bitmap_space 2 v).

#[local] Notation d := (I inum).

(** What the slots [K] own. *)
Definition gone (K : Z -> Prop) (b : Z) : Prop := exists k, K k /\ owns v I inum k b.

Lemma gone_iff (K K' : Z -> Prop) b : (forall k, slot_ok k -> slot v d k <> 0 -> K k <-> K' k) -> gone K b <-> gone K' b.
Proof. intros H. split; intros (k & H1 & H2); pose proof H2 as (_ & A & <- & B); exists k; split; try done; by apply (H k A B). Qed.

Lemma slot_not_gone (K : Z -> Prop) k : ~ K k -> slot_ok k -> slot v d k <> 0 -> ~ gone K (slot v d k).
Proof.
  intros HK Hk Hne (k' & H1 & Ho). destruct (ac_once _ _ (wk_acc _ _ _ _ Hw) inum k' inum k (slot v d k) Ho) as [_ ->]; [|done].
  split_and!; try done. apply Hw.
Qed.

(** Freeing what slot [k] names. *)
Lemma fwp_free_slot (K K' : Z -> Prop) w w1 k (Q : unit -> fsys txv -> Prop) : (forall b, blk_free w b = blk_free v b) -> bitmap_ok w -> f_sb w = f_sb v -> bitmap_space 1 w ->
  (forall b, 0 <= b < sb_size (f_sb v) -> held w (BBLOCK b (f_sb v)) = None) ->
  slot_ok k -> slot v d k <> 0 -> ~ K k -> (forall k', slot_ok k' -> K' k' <-> K k' \/ k' = k) -> freed (gone K) w w1 ->
  (freed (gone K') w (cleared (slot v d k) w1) -> Q tt (cleared (slot v d k) w1)) -> fwp (bfree t_dev (slot v d k)) Q w1.
Proof.
  intros Hbits Hbm Hsb Hsp1 Hheld Hk Hne HK HK' Hf HQ. pose proof (wk_acc _ _ _ _ Hw) as Hac. pose proof (dstart_size _ (ac_sb _ _ Hac)) as Hds.
  destruct (slot_range _ _ Hac inum k (wk_inum _ _ _ _ Hw) Hk Hne) as [H1 H2].
  apply (fwp_bfree_freed (gone K) w w1); rewrite ?Hsb; try done; [apply Hac|lia|apply Hheld; lia|by rewrite Hbits|by apply slot_not_gone|].
  intros Hf'. apply HQ. eapply freed_iff; [|exact Hf']. intros b. split.
  - intros [(k' & H3 & Ho)| ->]; [exists k'; split; [apply HK'; [apply Ho|by left]|done]|].
    exists k. split; [apply HK'; [done|by right]|]. split_and!; try done. apply Hw.
  - intros (k' & H3 & Ho). pose proof Ho as (_ & Hk' & E & _). apply HK' in H3 as [H3| ->]; [left; by exists k'|by right|done].
Qed.

Lemma fwp_itrunc_direct left : forall k v1, 0 <= k -> k + Z.of_nat left = NDIRECT ->
  freed (gone (fun k' => k' < k)) v v1 -> inodes v1 = fset (inodes v) ip (with_d (with_addrs (zeros k (di_addrs d))) (inodes v ip)) ->
  fwp (itrunc_direct ip k left)
    (fun _ v2 => freed (gone (fun k' => k' < NDIRECT)) v v2 /\ inodes v2 = fset (inodes v) ip (with_d (with_addrs (zeros NDIRECT (di_addrs d))) (inodes v ip))) v1.
Proof.
  pose proof (wk_acc _ _ _ _ Hw) as Hac. pose proof (ac_dinode _ _ Hac inum (wk_inum _ _ _ _ Hw)) as Hdi. pose proof (dk_addrs _ Hdi) as Hl.
  induction left as [|left IH]; intros k v1 Hk Hleft Hf Hi; cbn [itrunc_direct].
  { apply fwp_ret. replace k with NDIRECT in * by lia. done. }
  assert (slot v d k = addr_at d k) as Es by (unfold slot; by rewrite (proj2 (Z.leb_le _ _)) by lia).
  apply fwp_bind, fwp_inode. rewrite Hi, fset_eq. cbn [with_d i_d i_dev]. rewrite Hdev.
  assert (addr_at (with_addrs (zeros k (di_addrs d)) (i_d (inodes v ip))) k = slot v d k) as Ea.
  { rewrite Es. unfold addr_at. cbn. rewrite zeros_at by lia. by rewrite (proj2 (Z.ltb_ge _ _)) by lia. }
  rewrite Ea. apply fwp_bind. destruct (Z.eqb_spec (slot v d k) 0) as [E0|E0].
  - apply fwp_ret, IH; [lia|lia| |].
    + eapply freed_iff; [|exact Hf]. intros b. apply gone_iff. intros k' _ Hne. assert (k' <> k) by congruence. lia.
    + rewrite Hi. f_equal. f_equal. f_equal. apply zeros_skip; [lia|lia|]. by rewrite Es in E0.
  - apply fwp_bind. eapply (fwp_free_slot (fun k' => k' < k) (fun k' => k' < k + 1) v v1 k); try done.
    + by eapply accounted_bitmap.
    + destruct Hsp; split; lia.
    + intros b Hb. by apply unheld_held.
    + unfold slot_ok, NSLOT. change MAXFILE with 268. unfold NDIRECT in *. lia.
    + lia.
    + lia.
    + intros Hf'. apply fwp_upd. apply IH; [lia|lia|by apply freed_inode|].
      cbn. rewrite Hi, fset_fset, fset_eq. f_equal. unfold with_d. cbn. f_equal. unfold with_addr, with_addrs. cbn. f_equal. apply zeros_next; lia.
Qed.

(** The block of addresses is held; [w] is [v] with it. *)
Lemma fwp_itrunc_indirect h left : addr_at d NDIRECT <> 0 -> let ind := addr_at d NDIRECT in let w := tx (v_hold ind h) v in
  forall j w1, 0 <= j -> j + Z.of_nat left = NINDIRECT -> freed (gone (fun k => k < NDIRECT \/ NDIRECT < k < NDIRECT + 1 + j)) w w1 ->
  fwp (itrunc_indirect t_dev h j left) (fun _ w2 => freed (gone (fun k => k <> NDIRECT)) w w2 /\ inodes w2 = inodes w1) w1.
Proof.
  intros Hind ind w. pose proof (wk_acc _ _ _ _ Hw) as Hac. destruct (slot_range _ _ Hac inum NDIRECT (wk_inum _ _ _ _ Hw) ltac:(done) Hind) as [Hr _].
  rewrite slot_indirect in Hr. fold ind in Hr.
  assert (forall b, 0 <= b < sb_size (f_sb v) -> BBLOCK b (f_sb v) <> ind) as Hbb.
  { intros b Hb. destruct (bblock_range _ (ac_sb _ _ Hac) b Hb) as [_ H]. lia. }
  assert (ind ∉ bitmap_set (f_sb v)) as Hnb by (apply data_not_bitmap; [apply Hac|lia]).
  induction left as [|left IH]; intros j w1 Hj Hleft Hf; cbn [itrunc_indirect].
  { apply fwp_ret. split; [|done]. eapply freed_iff; [|exact Hf]. intros b. apply gone_iff. intros k Hk _. unfold slot_ok, NSLOT, MAXFILE in Hk. lia. }
  assert (held w1 ind = Some h) as Hheld by (unfold held; rewrite (fr_held _ _ _ Hf); cbn; apply lookup_insert_eq).
  apply fwp_bind, (fwp_bdata ind); [done|]. rewrite (fr_blk _ _ _ Hf ind) by done. change (blk w ind) with (blk v ind).
  assert (slot v d (NDIRECT + 1 + j) = getf 4 (blk v ind) (4 * j)) as Es.
  { unfold slot. rewrite (proj2 (Z.leb_gt _ _)) by lia. fold ind. rewrite (proj2 (Z.eqb_neq ind 0) Hind). f_equal. lia. }
  rewrite <- Es. assert (slot_ok (NDIRECT + 1 + j)) as Hok by (unfold slot_ok, NSLOT, MAXFILE; unfold NDIRECT; lia).
  assert (inodes (cleared (slot v d (NDIRECT + 1 + j)) w1) = inodes w1) as Ei by done.
  apply fwp_bind. destruct (Z.eqb_spec (slot v d (NDIRECT + 1 + j)) 0) as [E0|E0].
  - apply fwp_ret, IH; [lia|lia|]. eapply freed_iff; [|exact Hf]. intros b. apply gone_iff. intros k _ Hne.
    assert (k <> NDIRECT + 1 + j) by congruence. lia.
  - eapply (fwp_free_slot (fun k => k < NDIRECT \/ NDIRECT < k < NDIRECT + 1 + j) (fun k => k < NDIRECT \/ NDIRECT < k < NDIRECT + 1 + (j + 1)) w w1); try done.
    + exact (accounted_bitmap v I Hac).
    + destruct Hsp as [S1 S2]. split; cbn; [|lia].
      rewrite Hh in S1. rewrite dom_empty_L in S1. unfold unheld in Hh. rewrite Hh, insert_empty, dom_singleton_L.
      pose proof (size_union_alt (v_logged (fx v) ∪ bitmap_set (f_sb v)) {[ind]}) as Hu.
      pose proof (subseteq_size ({[ind]} ∖ (v_logged (fx v) ∪ bitmap_set (f_sb v))) {[ind]} ltac:(set_solver)) as Hu2. rewrite size_singleton in Hu2.
      replace (v_logged (fx v) ∪ {[ind]} ∪ bitmap_set (f_sb v)) with ((v_logged (fx v) ∪ bitmap_set (f_sb v)) ∪ {[ind]}) by set_solver.
      rewrite union_empty_r_L in S1. lia.
    + intros b Hb. unfold held. cbn. rewrite lookup_insert_ne by (intros E; by apply (Hbb b)). by apply (unheld_held v).
    + unfold slot_ok, NDIRECT in *. lia.
    + lia.
    + intros Hf'. eapply fwp_mono; [|apply IH; [lia|lia|done]]. intros [] w2 [H1 H2]. split; [done|]. by rewrite H2.
Qed.

(** What [itrunc] leaves of the inode. *)
Definition emptied : dinode := with_size 0 (with_addrs (replicate (Z.to_nat (NDIRECT + 1)) 0) d).

Lemma emptied_slot w k : slot w emptied k = 0.
Proof.
  assert (forall k, addr_at emptied k = 0) as H.
  { intros k'. unfold addr_at, emptied. cbn [with_size with_addrs di_addrs]. rewrite nth_lookup. destruct (replicate _ _ !! _) eqn:E; [|done]. by apply lookup_replicate in E as [-> _]. }
  unfold slot. rewrite !H. by destruct (k <=? NDIRECT).
Qed.

Lemma zeros_all : zeros (NDIRECT + 1) (di_addrs d) = replicate (Z.to_nat (NDIRECT + 1)) 0.
Proof.
  pose proof (dk_addrs _ (ac_dinode _ _ (wk_acc _ _ _ _ Hw) inum (wk_inum _ _ _ _ Hw))) as Hl. unfold zeros. rewrite drop_ge by lia. by rewrite app_nil_r.
Qed.

Lemma freed_accounted v' : freed (gone (fun _ => True)) v v' -> accounted v' (fset I inum emptied).
Proof.
  intros Hf. pose proof (wk_acc _ _ _ _ Hw) as Hac. pose proof (dstart_size _ (ac_sb _ _ Hac)) as Hds. pose proof Hf as [A B C D E F G H].
  assert (forall j k, inum_ok (f_sb v) j -> slot v' (I j) k = slot v (I j) k) as Hs.
  { intros j k Hj. apply slot_same; [done|done|]. intros b Hb. apply F, data_not_bitmap; [apply Hac|done]. }
  assert (forall j k b, owns v' (fset I inum emptied) j k b <-> owns v I j k b /\ j <> inum) as Ho.
  { intros j k b. unfold owns. rewrite A. destruct (decide (j = inum)) as [->|Hne].
    - rewrite fset_eq, emptied_slot. split; [intros (_ & _ & <- & ?); done|intros [_ ?]; done].
    - rewrite fset_ne by done. split; [intros (H1 & H2 & H3 & H4); rewrite Hs in H3 by done; done|intros [(H1 & H2 & H3 & H4) _]; by rewrite Hs]. }
  assert (forall b j k, owns v I j k b -> gone (fun _ => True) b -> j = inum) as Hgone.
  { intros b j k H1 (k' & _ & H2). by destruct (ac_once _ _ Hac _ _ _ _ _ H1 H2). }
  assert (forall b, 0 <= b < sb_size (f_sb v) -> blk_free v' b = false <-> blk_free v b = false /\ ~ gone (fun _ => True) b) as Hu.
  { intros b Hb. specialize (H b Hb). rewrite <- !not_true_iff_false. tauto. }
  split; rewrite ?A; try apply Hac.
  - intros b Hb. rewrite G. by apply (ac_len _ _ Hac).
  - intros j Hj. unfold fset. destruct (decide (j = inum)); [|by apply (ac_dinode _ _ Hac)]. pose proof (ac_dinode _ _ Hac inum (wk_inum _ _ _ _ Hw)) as [D1 D2 D3 D4 D5 D6 D7].
    split; try done. cbn. repeat constructor; lia.
  - intros b Hb. apply Hu; [lia|]. split; [by apply (ac_meta _ _ Hac)|]. intros (k & _ & Hb2). apply (ac_range _ _ Hac) in Hb2. lia.
  - intros j k b [H1 H2]%Ho. destruct (ac_range _ _ Hac _ _ _ H1) as [H3 H4]. split; [done|]. apply Hu; [lia|]. split; [done|]. intros H5. apply H2. by apply (Hgone b j k).
  - intros j k j' k' b [H1 _]%Ho [H2 _]%Ho. by apply (ac_once _ _ Hac _ _ _ _ b).
  - intros b Hb [H1 H2]%Hu; [|lia]. destruct (ac_all _ _ Hac b Hb H1) as (j & k & H3). exists j, k. apply Ho. split; [done|]. intros ->. apply H2. by exists k.
Qed.

(** Opening and closing a buffer around the loop. *)
Lemma freed_hold P v1 b h : freed P v v1 -> freed P (tx (v_hold b h) v) (tx (v_hold b h) v1).
Proof. intros [A B C D E F G H]. split; try done. cbn. by rewrite C. Qed.

Lemma freed_drop P b h w2 : freed P (tx (v_hold b h) v) w2 -> freed P v (tx (v_drop b) w2).
Proof.
  intros [A B C D E F G H]. split; try done. cbn in *. rewrite C. unfold unheld in Hh. rewrite Hh. apply delete_insert_id. apply lookup_empty.
Qed.

Definition trunc_addrs (w : fsys txv) (K : Z -> Prop) (k : Z) : Prop :=
  freed (gone K) v w /\ inodes w = fset (inodes v) ip (with_d (with_addrs (zeros k (di_addrs d))) (inodes v ip)).

(** After both loops every block of the file is free. *)
Lemma fwp_itrunc_blocks v1 : trunc_addrs v1 (fun k => k < NDIRECT) NDIRECT ->
  fwp (i <- inode_of ip ;;
       if addr_at (i_d i) NDIRECT =? 0 then ret tt
       else
         bp <- bread (i_dev i) (addr_at (i_d i) NDIRECT) ;;
         itrunc_indirect (i_dev i) bp 0 (Z.to_nat NINDIRECT) ;;;
         brelse bp ;;;
         bfree (i_dev i) (addr_at (i_d i) NDIRECT) ;;;
         upd_inode ip (with_d (with_addr NDIRECT 0)))
    (fun _ w => trunc_addrs w (fun _ => True) (NDIRECT + 1)) v1.
Proof.
  intros [Hf Hi]. pose proof (wk_acc _ _ _ _ Hw) as Hac. pose proof (ac_dinode _ _ Hac inum (wk_inum _ _ _ _ Hw)) as Hdi. pose proof (dk_addrs _ Hdi) as Hl.
  apply fwp_bind, fwp_inode. rewrite Hi, fset_eq. cbn [with_d i_d i_dev]. rewrite Hdev.
  assert (addr_at (with_addrs (zeros NDIRECT (di_addrs d)) (i_d (inodes v ip))) NDIRECT = addr_at d NDIRECT) as Ea.
  { unfold addr_at. cbn [with_addrs di_addrs]. rewrite zeros_at by (unfold NDIRECT in *; lia). by rewrite (proj2 (Z.ltb_ge _ _)) by (unfold NDIRECT; lia). }
  rewrite Ea. destruct (Z.eqb_spec (addr_at d NDIRECT) 0) as [E0|E0].
  - apply fwp_ret. split.
    + eapply freed_iff; [|exact Hf]. intros b. apply gone_iff. intros k _ Hne. split; [done|]. intros _. destruct (decide (k < NDIRECT)); [done|].
      exfalso. apply Hne. unfold slot. rewrite E0. destruct (Z.leb_spec k NDIRECT); [by replace k with NDIRECT by lia|done].
    + rewrite Hi. f_equal. f_equal. f_equal. apply zeros_skip; [done|unfold NDIRECT in *; lia|done].
  - set (ind := addr_at d NDIRECT) in *. pose proof (fun h => fwp_itrunc_indirect h (Z.to_nat NINDIRECT) E0) as Hloop. cbv zeta in Hloop. fold ind in Hloop.
    assert (bitmap_space 1 v) as Hsp1 by (destruct Hsp; split; lia).
    apply fwp_open; [unfold held; by rewrite (fr_held _ _ _ Hf), Hh, lookup_empty|eapply freed_space; [exact Hf|exact Hsp1]|]. intros h Hfr.
    apply fwp_bind. eapply fwp_mono; [|apply (Hloop h 0 (tx (v_hold ind h) v1)); [done|done|]].
    2: { apply freed_hold. eapply freed_iff; [|exact Hf]. intros b. apply gone_iff. intros k _ _. lia. }
    intros [] w2 [Hf2 Hi2]. assert (held w2 ind = Some h) as Hh2 by (unfold held; rewrite (fr_held _ _ _ Hf2); cbn; apply lookup_insert_eq).
    apply fwp_bind, (fwp_brelse ind); [done|rewrite (fr_fresh _ _ _ Hf2); cbn; by rewrite <- (fr_fresh _ _ _ Hf)|].
    apply freed_drop in Hf2. apply fwp_bind. change ind with (slot v d NDIRECT) at 1.
    eapply (fwp_free_slot (fun k => k <> NDIRECT) (fun _ => True) v); try done.
    + by eapply accounted_bitmap.
    + intros b Hb. by apply unheld_held.
    + intros H. by apply H.
    + intros k _. destruct (decide (k = NDIRECT)); tauto.
    + intros Hf3. apply fwp_upd. split; [by apply freed_inode|]. cbn. rewrite Hi2. cbn. rewrite Hi, fset_fset, fset_eq. f_equal. unfold with_d. cbn. f_equal.
      unfold with_addr, with_addrs. cbn [di_addrs di_type di_major di_minor di_nlink di_size]. f_equal. apply zeros_next; unfold NDIRECT in *; lia.
Qed.

End Itrunc.

(** The whole of [itrunc]. *)
Definition truncated (ip inum : Z) (v v' : fsys txv) : Prop :=
  space_ok v' /\ f_sb v' = f_sb v /\ ic_lock v' = ic_lock v /\ v_held (fx v') = v_held (fx v) /\
  inodes v' = fset (inodes v) ip (with_d (fun _ => inode_at v' inum) (inodes v ip)) /\
  inode_at v' inum = with_size 0 (with_addrs (replicate 13 0) (inode_at v inum)) /\
  (forall b, 0 <= b < sb_size (f_sb v) -> blk_free v' b = true <-> blk_free v b = true \/ exists k, owns v (inode_at v) inum k b) /\
  (forall j, inum_ok (f_sb v) j -> j <> inum -> inode_at v' j = inode_at v j /\ (forall k, slot v' (inode_at v' j) k = slot v (inode_at v j) k) /\
     forall k, 0 <= k < MAXFILE * BSIZE -> hbyte v' (inode_at v' j) k = hbyte v (inode_at v j) k).

Lemma fwp_itrunc {X : Type} `{TX : TxLayer X} (v : fsys txv) (ip inum : Z) : space_ok v -> inum_ok (f_sb v) inum -> i_inum (inodes v ip) = inum ->
  i_d (inodes v ip) = inode_at v inum -> i_dev (inodes v ip) = t_dev -> unheld v -> bitmap_space 2 v ->
  fwp (itrunc ip) (fun _ v' => truncated ip inum v v' /\ space 1 v') v.
Proof.
  intros Hok Hin Hi Hd Hdev Hh Hsp.
  assert (working ip inum (inode_at v) v) as Hw by done. set (I := inode_at v) in *. set (d0 := emptied inum I).
  assert (fwp (itrunc ip) (fun _ v' => exists w, freed (gone inum I v (fun _ => True)) v w /\ inodes w = fset (inodes v) ip (with_d (fun _ => d0) (inodes v ip)) /\
    space 2 w /\
    let i := inodes w ip in v' = tx (v_write (iblk w i) (write_dinode (blk w (iblk w i)) (ioff i) (i_d i))) w) v) as H.
  { unfold itrunc. apply fwp_bind. eapply fwp_mono; [|apply (fwp_itrunc_direct ip inum I v Hw Hh Hdev Hsp (Z.to_nat NDIRECT) 0 v); [done|done| |]].
    - intros [] v1 H1. eapply fwp_tail. eapply fwp_mono; [|apply (fwp_itrunc_blocks ip inum I v Hw Hh Hdev Hsp v1 H1)].
      intros [] w [Hf Hiw]. apply fwp_bind, fwp_upd.
      assert (inodes (set_inode ip (with_d (with_size 0)) w) = fset (inodes v) ip (with_d (fun _ => d0) (inodes v ip))) as Ei.
      { cbn. rewrite Hiw, fset_fset, fset_eq. f_equal. unfold d0, emptied. rewrite <- (zeros_all ip inum I v Hw), <- Hd. done. }
      apply (freed_inode _ _ _ ip (with_d (with_size 0))) in Hf. set (w2 := set_inode _ _ w) in *.
      apply fwp_iupdate; [by rewrite Ei, fset_eq|unfold held; by rewrite (fr_held _ _ _ Hf), Hh, lookup_empty|eapply space_mono; [|eapply freed_space; [exact Hf|exact Hsp]]; lia|].
      exists w2. split; [done|]. split; [done|]. split; [|done]. eapply freed_space; [exact Hf|exact Hsp].
    - eapply freed_iff; [|apply freed_refl]. intros b. split; [done|]. intros (k & Hk & _ & [Hk2 _] & _). lia.
    - change (zeros 0 (di_addrs (I inum))) with (di_addrs (I inum)). rewrite <- Hd, with_addrs_same. symmetry. apply fset_id. }
  eapply fwp_mono; [|exact H]. intros [] v' (w & Hf & Hiw & Hspw & ->). set (i := inodes w ip) in *.
  assert (i = with_d (fun _ => d0) (inodes v ip)) as Ei by (unfold i; by rewrite Hiw, fset_eq).
  pose proof (freed_accounted ip inum I v Hw w Hf) as Hac. fold d0 in Hac. pose proof (fr_sb _ _ _ Hf) as Hsb.
  assert (working ip inum (fset I inum d0) w) as Hw' by (split; [done|by rewrite Hsb|fold i; by rewrite Ei, fset_eq]).
  destruct (iupdate_space ip inum (fset I inum d0) w Hw') as (S1 & S2 & S3 & S4).
  { fold i. by rewrite Ei. }
  { intros j Hj Hne. rewrite fset_ne by done. unfold I, inode_at. rewrite Hsb in *. f_equal. apply (fr_blk _ _ _ Hf).
    destruct (iblock_range _ (ac_sb _ _ Hok) j Hj) as [_ H2]. intros Hx%elem_of_list_to_set%list_elem_of_fmap. destruct Hx as (b & Eb & Hb%elem_of_seqZ). apply (H2 b); [lia|done]. }
  fold i in S1, S2, S3, S4. set (v' := tx _ w) in *. rewrite Hsb in S2, S3, S4.
  assert (inode_at v' inum = d0) as E0 by (rewrite S2, fset_eq by done; done).
  split; [|unfold v'; apply (space_write 2); [exact Hspw|lia]]. split; [done|]. split; [exact Hsb|]. split; [exact (fr_lock _ _ _ Hf)|]. split; [exact (fr_held _ _ _ Hf)|]. split; [by rewrite E0|]. split; [done|]. split.
  - intros b Hb. assert (blk_free v' b = blk_free w b) as ->.
    { unfold blk_free. change (f_sb v') with (f_sb w). rewrite Hsb. destruct (iblock_range _ (ac_sb _ _ Hok) inum Hin) as [_ H2].
      assert (blk v' (BBLOCK b (f_sb v)) = blk w (BBLOCK b (f_sb v))) as ->; [|done]. apply fset_ne. intros Eb. apply (H2 b Hb).
      rewrite Eb. unfold iblk. rewrite Hsb, Ei. cbn. by rewrite Hi. }
    rewrite (fr_bits _ _ _ Hf b Hb). split; intros [H1|H1]; auto; right; [destruct H1 as (k & _ & H1); by exists k|destruct H1 as (k & H1); by exists k].
  - intros j Hj Hne. assert (inode_at v' j = I j) as Ej by (rewrite S2, fset_ne by done; done). split; [done|]. rewrite Ej. assert (forall b, dstart (f_sb v) <= b -> blk w b = blk v b) as Hb.
    { intros b Hb. apply (fr_blk _ _ _ Hf), data_not_bitmap; [apply Hok|done]. }
    split.
    + intros k. specialize (S3 j k Hj). rewrite fset_ne in S3 by done. rewrite S3. by apply slot_same.
    + intros k Hk. specialize (S4 j k Hj Hk). rewrite fset_ne in S4 by done. rewrite S4. by apply hbyte_same.
Qed.

(** Truncation gives back exactly the blocks of the file: on a disk whose
    space is accounted for, [itrunc] returns with the file empty, in the cache
    and on disk; the blocks that are free afterwards are those that were and
    those the inode owned, direct, indirect, and the block of addresses; no
    other inode and no byte of another file changes, and the space is still
    accounted for. *)
Theorem itrunc_frees {X : Type} `{TX : TxLayer X} (s : fsys X) (v : fsys txv) (ip inum : Z)
  (Hs : fs_rep s v) (Hok : space_ok v) (Hin : inum_ok (f_sb v) inum) (Hi : i_inum (inodes v ip) = inum) (Hd : i_d (inodes v ip) = inode_at v inum)
  (Hdev : i_dev (inodes v ip) = t_dev) (Hh : unheld v) (Hsp : bitmap_space 2 v) :
  exists s' v', itrunc ip s = Done tt s' /\ fs_rep s' v' /\ space_ok v' /\
    inodes v' = fset (inodes v) ip (with_d (fun _ => inode_at v' inum) (inodes v ip)) /\
    inode_at v' inum = with_size 0 (with_addrs (replicate 13 0) (inode_at v inum)) /\
    (forall b, 0 <= b < sb_size (f_sb v) -> blk_free v' b = true <-> blk_free v b = true \/ exists k, owns v (inode_at v) inum k b) /\
    (forall j, inum_ok (f_sb v) j -> j <> inum -> inode_at v' j = inode_at v j /\
       forall k, 0 <= k < MAXFILE * BSIZE -> hbyte v' (inode_at v' j) k = hbyte v (inode_at v j) k).
Proof.
  destruct (fwp_itrunc v ip inum Hok Hin Hi Hd Hdev Hh Hsp s Hs) as ([] & s' & v' & E & R & (H1 & _ & _ & _ & H2 & H3 & H4 & H5) & _).
  exists s', v'. split_and!; try done. intros j Hj Hne. by destruct (H5 j Hj Hne) as (A & _ & B).
Qed.
