(* ===== verification/FsPath.v ===== *)
(** * Path names: namei and nameiparent of kernel/fs.c

    The code walks a path with cache entries it locks, looks into, unlocks and
    gives back.  The reference resolves the names on the disk alone.  They
    agree, and no reference is lost or left over on any branch. *)

From S2P Require Import Prelude CMem Riscv Sleeplock BlockLayer Log Tx Fs FsBlocks FsInode FsFile FsDir FsSpace FsGrow.

(** ** Reference: names on the disk *)

#[export] Instance byte_eq_decision : EqDecision Init.Byte.byte.
Proof. intros a b. destruct (Byte.eqb a b) eqn:E; [left; by apply byte_eqb_eq|right; intros H; apply byte_eqb_eq in H; congruence]. Defined.

(** Entry [k] of the directory is in use and has the name. *)
Definition entry_named (v : fsys txv) (d : dinode) (name : list byte) (k : Z) : bool :=
  negb (de_inum (dent v d k) =? 0) && bool_decide (cname (of_list (de_name (dent v d k))) (Z.to_nat DIRSIZ) = name).

Definition dir_find (v : fsys txv) (d : dinode) (name : list byte) : option Z :=
  match List.find (entry_named v d name) (seqZ 0 (di_size d / DIRENT_SIZE)) with
  | Some k => Some (de_inum (dent v d k))
  | None => None
  end.

(** Names count up to 14 characters. *)
Definition short_name (c : list byte) : list byte := take (Z.to_nat DIRSIZ) c.

Fixpoint resolve (v : fsys txv) (inum : Z) (names : list (list byte)) : option Z :=
  match names with
  | [] => Some inum
  | c :: names' =>
      if di_type (inode_at v inum) =? T_DIR then
        match dir_find v (inode_at v inum) (short_name c) with
        | Some i => resolve v i names'
        | None => None
        end
      else None
  end.

(** The directory a path ends in, and the last name. *)
Fixpoint resolve_parent (v : fsys txv) (inum : Z) (names : list (list byte)) : option (Z * list byte) :=
  match names with
  | [] => None
  | c :: names' =>
      if di_type (inode_at v inum) =? T_DIR then
        match names' with
        | [] => Some (inum, short_name c)
        | _ => match dir_find v (inode_at v inum) (short_name c) with
               | Some i => resolve_parent v i names'
               | None => None
               end
        end
      else None
  end.

(** ** Well-formed trees *)

(** Inodes in use, and those with names. *)
Definition in_table (v : fsys txv) (inum : Z) : Prop := inum_ok (f_sb v) inum /\ di_type (inode_at v inum) <> 0.
Definition live (v : fsys txv) (inum : Z) : Prop := in_table v inum /\ di_nlink (inode_at v inum) <> 0.

(** A directory is made of whole entries, without holes, that lead to inodes
    in use. *)
Record dir_ok (v : fsys txv) (d : dinode) : Prop := {
  do_size : di_size d mod DIRENT_SIZE = 0 /\ 0 <= di_size d <= MAXFILE * BSIZE;
  do_full : present v d 0 (di_size d);
  do_live k : 0 <= k < di_size d / DIRENT_SIZE -> de_inum (dent v d k) <> 0 -> live v (de_inum (dent v d k));
}.

Definition tree_ok (v : fsys txv) : Prop := forall inum, live v inum -> di_type (inode_at v inum) = T_DIR -> dir_ok v (inode_at v inum).

Lemma find_first {A} (p : A -> bool) (l : list A) :
  match List.find p l with
  | Some x => exists i, l !! i = Some x /\ p x = true /\ forall j y, (j < i)%nat -> l !! j = Some y -> p y = false
  | None => forall x, x ∈ l -> p x = false
  end.
Proof.
  induction l as [|a l IH]; cbn; [intros x Hx; by apply not_elem_of_nil in Hx|]. destruct (p a) eqn:E.
  - exists 0%nat. split; [done|]. split; [done|]. intros j y Hj. lia.
  - destruct (List.find p l) as [x|].
    + destruct IH as (i & H1 & H2 & H3). exists (S i). split; [done|]. split; [done|]. intros [|j] y Hj Hy; [by injection Hy as <-|]. apply (H3 j); [lia|done].
    + intros x [-> |Hx]%elem_of_cons; [done|by apply IH].
Qed.

Lemma entry_dmatch v d name c k : cname name (Z.to_nat DIRSIZ) = c -> entry_named v d c k = true <-> dmatch v d name k.
Proof.
  intros <-. unfold entry_named, dmatch. rewrite andb_true_iff, negb_true_iff, Z.eqb_neq, bool_decide_eq_true. done.
Qed.

(** The lookup of the code and the lookup of the reference. *)
Lemma dir_find_first v d name c k : cname name (Z.to_nat DIRSIZ) = c -> 0 <= k < di_size d / DIRENT_SIZE -> dmatch v d name k ->
  (forall k', 0 <= k' < k -> ~ dmatch v d name k') -> dir_find v d c = Some (de_inum (dent v d k)).
Proof.
  intros Hc Hk Hm Hn. unfold dir_find. pose proof (find_first (entry_named v d c) (seqZ 0 (di_size d / DIRENT_SIZE))) as H.
  destruct (List.find _ _) as [x|].
  - destruct H as (i & Hi & Hx & Hfirst). apply lookup_seqZ in Hi as [-> Hi]. f_equal. f_equal. f_equal.
    destruct (Z.lt_total (0 + Z.of_nat i) k) as [Hlt|[E|Hgt]]; [|done|].
    + exfalso. apply (Hn (0 + Z.of_nat i)); [lia|]. by eapply entry_dmatch.
    + specialize (Hfirst (Z.to_nat k) k ltac:(lia) ltac:(apply lookup_seqZ; lia)). eapply entry_dmatch in Hm; [|exact Hc]. congruence.
  - specialize (H k ltac:(apply elem_of_seqZ; lia)). eapply entry_dmatch in Hm; [|exact Hc]. congruence.
Qed.

Lemma dir_find_none v d name c : cname name (Z.to_nat DIRSIZ) = c ->
  (forall k, 0 <= k < di_size d / DIRENT_SIZE -> ~ dmatch v d name k) -> dir_find v d c = None.
Proof.
  intros Hc Hn. unfold dir_find. pose proof (find_first (entry_named v d c) (seqZ 0 (di_size d / DIRENT_SIZE))) as H.
  destruct (List.find _ _) as [x|]; [|done]. destruct H as (i & Hi & Hx & _). apply lookup_seqZ in Hi as [-> Hi].
  exfalso. apply (Hn (0 + Z.of_nat i)); [lia|]. by eapply entry_dmatch.
Qed.

(** ** The cache between calls *)

Section Calm.

Context {X : Type} `{TX : TxLayer X}.

Context (pid : Z).

(** [l] are the entries the caller has locked. *)
Definition lock_ok (l : list Z) (j : Z) (k : sleeplock) : Prop :=
  if decide (j ∈ l) then k = mk_sleeplock false true pid else sl_lk k = false /\ sl_locked k = false.

Record entry_ok (v : fsys txv) (l : list Z) (j : Z) : Prop := {
  en_lock : lock_ok l j (i_lock (inodes v j));
  en_ref : 0 <= i_ref (inodes v j);
  en_sync : 0 < i_ref (inodes v j) -> i_dev (inodes v j) = t_dev -> i_valid (inodes v j) = true -> i_d (inodes v j) = inode_at v (i_inum (inodes v j));
  en_table : 0 < i_ref (inodes v j) -> i_dev (inodes v j) = t_dev -> in_table v (i_inum (inodes v j));
}.

Record calm (l : list Z) (v : fsys txv) : Prop := {
  cm_lock : ic_lock v = false;
  cm_held : unheld v;
  cm_entry j : in_cache j -> entry_ok v l j;
  cm_once dev inum i j : in_use v dev inum i -> in_use v dev inum j -> i = j;
}.

(** The blocks, the super block and the lock of the cache are as before. *)
Definition same_disk (v v' : fsys txv) : Prop := fx v' = fx v /\ f_sb v' = f_sb v /\ ic_lock v' = ic_lock v.

Lemma same_disk_set v ip f : same_disk v (set_inode ip f v).
Proof. done. Qed.

Lemma same_disk_trans v v1 v2 : same_disk v v1 -> same_disk v1 v2 -> same_disk v v2.
Proof. intros (A & B & C) (D & E & F). split; [congruence|]. split; congruence. Qed.

Lemma same_inode_at v v' inum : same_disk v v' -> inode_at v' inum = inode_at v inum.
Proof. intros (A & B & _). unfold inode_at, blk. by rewrite A, B. Qed.

Lemma same_in_table v v' inum : same_disk v v' -> in_table v inum -> in_table v' inum.
Proof. intros Hs. unfold in_table. rewrite (same_inode_at v v' inum Hs). destruct Hs as (_ & -> & _). done. Qed.

(** One entry changes, for the same inode or for one that no entry has. *)
Lemma calm_set l l' v ip e : calm l v -> (forall j, j <> ip -> j ∈ l <-> j ∈ l') ->
  lock_ok l' ip (i_lock e) -> 0 <= i_ref e -> (0 < i_ref e -> i_dev e = t_dev -> i_valid e = true -> i_d e = inode_at v (i_inum e)) ->
  (0 < i_ref e -> i_dev e = t_dev -> in_table v (i_inum e)) ->
  ((0 < i_ref e -> in_use v (i_dev e) (i_inum e) ip) \/ (forall j, j <> ip -> ~ in_use v (i_dev e) (i_inum e) j)) ->
  calm l' (set_inode ip (fun _ => e) v).
Proof.
  intros [A B C D] Hl He1 He2 He3 He4 Hid. set (v' := set_inode _ _ v).
  assert (inodes v' ip = e) as Ei by apply inodes_set. assert (forall j, j <> ip -> inodes v' j = inodes v j) as Eo by (intros j Hj; by apply fset_ne).
  split; try done.
  - intros j Hj. destruct (decide (j = ip)) as [->|Hne]; [split; by rewrite Ei|]. destruct (C j Hj) as [C1 C2 C3 C4]. split; rewrite ?Eo by done; try done.
    unfold lock_ok in *. destruct (decide (j ∈ l)) as [E|E], (decide (j ∈ l')) as [E'|E']; try done; exfalso.
    + by apply E', Hl.
    + by apply E, Hl.
  - assert (forall dev inum j, j <> ip -> in_use v' dev inum j <-> in_use v dev inum j) as Hu by (intros dev inum j Hj; unfold in_use; by rewrite Eo).
    assert (forall dev inum j, j <> ip -> in_use v' dev inum ip -> in_use v' dev inum j -> False) as Hx.
    { intros dev inum j Hj (H1 & H2 & H3 & H4) H5%Hu; [|done]. rewrite Ei in H2, H3, H4. subst dev inum. destruct Hid as [Hid|Hid].
      - apply Hj. symmetry. by eapply D; [apply Hid|].
      - by apply (Hid j). }
    intros dev inum i j Hi Hj. destruct (decide (i = ip)) as [->|Hni], (decide (j = ip)) as [->|Hnj]; try done.
    + exfalso. by apply (Hx dev inum j).
    + exfalso. by apply (Hx dev inum i).
    + apply Hu in Hi, Hj; [|done|done]. by apply (D dev inum).
Qed.

(** ** References *)

Fixpoint times (j : Z) (l : list Z) : Z := match l with [] => 0 | x :: l' => (if decide (x = j) then 1 else 0) + times j l' end.

(** From [v0] to [v] the caller has got a reference to each entry of [l]. *)
Definition refs (v0 v : fsys txv) (l : list Z) : Prop := forall j, i_ref (inodes v j) = i_ref (inodes v0 j) + times j l.

Lemma times_nonneg j l : 0 <= times j l <= Z.of_nat (length l).
Proof. induction l as [|x l IH]; cbn; [lia|]. destruct (decide _); lia. Qed.

(** The entries in use at [v0] are those of the same inodes at [v]. *)
Definition kept (v0 v : fsys txv) : Prop :=
  forall j, 0 < i_ref (inodes v0 j) -> i_dev (inodes v j) = i_dev (inodes v0 j) /\ i_inum (inodes v j) = i_inum (inodes v0 j).

(** From [v0] to [v] the caller has locked the entries [l] and got the
    references [held]; nothing else happened. *)
Record walked (v0 v : fsys txv) (l : list Z) (held : list Z) : Prop := {
  wl_calm : calm l v;
  wl_disk : same_disk v0 v;
  wl_refs : refs v0 v held;
  wl_kept : kept v0 v;
}.

Section Walk.

Context (v0 : fsys txv) (Hmax : forall j, i_ref (inodes v0 j) < 2 ^ 30).

Lemma walk_bound v l held j : walked v0 v l held -> (length held <= 2)%nat -> i_ref (inodes v j) < 2 ^ 30 + 2.
Proof. intros [_ _ H _] Hl. rewrite H. pose proof (times_nonneg j held). specialize (Hmax j). lia. Qed.

(** An entry changes and keeps its inode. *)
Lemma walk_set v l l' held held' ip f : walked v0 v l held -> in_cache ip -> (forall j, j <> ip -> j ∈ l <-> j ∈ l') ->
  let e := f (inodes v ip) in
  lock_ok l' ip (i_lock e) -> i_dev e = i_dev (inodes v ip) -> i_inum e = i_inum (inodes v ip) ->
  0 <= i_ref e -> (0 < i_ref e -> 0 < i_ref (inodes v ip)) ->
  (0 < i_ref e -> i_dev e = t_dev -> i_valid e = true -> i_d e = inode_at v (i_inum e)) ->
  (forall j, times j held' = times j held + (if decide (j = ip) then i_ref e - i_ref (inodes v ip) else 0)) ->
  walked v0 (set_inode ip f v) l' held'.
Proof.
  intros [W1 W2 W3 W4] Hc Hl e E1 E2 E3 E4 E5 E6 Ht. rewrite (set_inode_ext ip f (fun _ => e)) by done. split.
  - eapply calm_set; [exact W1|done|done|done|done| |].
    + intros H Hd. rewrite E3. apply (cm_entry _ _ W1 ip Hc); [auto|congruence].
    + left. intros H. unfold in_use. rewrite E2, E3. auto.
  - eapply same_disk_trans; [exact W2|apply same_disk_set].
  - intros j. rewrite Ht. specialize (W3 j). destruct (decide (j = ip)) as [->|Hne].
    + rewrite inodes_set. lia.
    + cbn. rewrite fset_ne by done. lia.
  - intros j Hj. destruct (W4 j Hj) as [K1 K2]. destruct (decide (j = ip)) as [->|Hne]; [rewrite inodes_set; by rewrite E2, E3|]. cbn. by rewrite fset_ne.
Qed.

Lemma walk_gotten v l held inum ip v' : walked v0 v l held -> (length held <= 2)%nat -> in_table v0 inum -> gotten v t_dev inum ip v' ->
  walked v0 v' l (ip :: held) /\ in_use v' t_dev inum ip /\ (forall j, j <> ip -> inodes v' j = inodes v j) /\
  (forall j dev i, in_use v dev i j -> in_use v' dev i j).
Proof.
  intros Hw Hlen Htab Hg. pose proof Hw as [W1 W2 W3 W4]. pose proof (walk_bound v l held ip Hw Hlen) as Hb. destruct Hg as [[Hu ->]|(Hn & Hc & H0 & ->)].
  - pose proof Hu as (Hc & Hp & Hd & Hi). assert (s32 (i_ref (inodes v ip) + 1) = i_ref (inodes v ip) + 1) as Es by (apply s32_small; lia).
    destruct (cm_entry _ _ W1 ip Hc) as [C1 C2 C3 C4]. split; [|split; [|split]].
    + apply (walk_set v l l held (ip :: held)); try done; cbn; rewrite ?Es; try done; try lia; [intros; apply C3; (done || lia)|].
      intros j. destruct (decide (ip = j)), (decide (j = ip)); try congruence; lia.
    + unfold in_use. rewrite inodes_set. cbn. rewrite Es. split_and!; try done. lia.
    + intros j Hj. by apply fset_ne.
    + intros j dev i (A & B & C & D). unfold in_use. destruct (decide (j = ip)) as [->|Hne]; [|cbn; rewrite fset_ne by done; done].
      rewrite inodes_set. cbn. rewrite Es. split_and!; try done. lia.
  - destruct (cm_entry _ _ W1 ip Hc) as [C1 C2 C3 C4]. split; [|split; [|split]].
    + rewrite (set_inode_ext ip _ (fun _ => mk_inode t_dev inum 1 (i_lock (inodes v ip)) false (i_d (inodes v ip)))) by done. split.
      * eapply calm_set; [exact W1|done|done|done|done| |right; intros j _; apply Hn]. intros _ _. cbn. by apply (same_in_table v0).
      * eapply same_disk_trans; [exact W2|apply same_disk_set].
      * intros j. specialize (W3 j). cbn [times]. destruct (decide (ip = j)) as [<-|Hne]; [rewrite inodes_set; cbn; lia|]. cbn. rewrite fset_ne by done. lia.
      * intros j Hj. assert (j <> ip) as Hne by (intros ->; rewrite W3 in H0; pose proof (times_nonneg ip held); lia). cbn. rewrite fset_ne by done. by apply W4.
    + unfold in_use. rewrite inodes_set. cbn. split_and!; try done.
    + intros j Hj. by apply fset_ne.
    + intros j dev i (A & B & C & D). assert (j <> ip) by (intros ->; lia). unfold in_use. cbn. rewrite fset_ne by done. done.
Qed.

(** *** The calls *)

Lemma fwp_ilock_walk v l held ip inum fuel (Q : unit -> fsys txv -> Prop) : walked v0 v l held -> ip ∉ l -> in_use v t_dev inum ip -> in_table v0 inum -> space 1 v0 ->
  (walked v0 (ilocked pid ip v) (ip :: l) held -> in_use (ilocked pid ip v) t_dev inum ip -> i_valid (inodes (ilocked pid ip v) ip) = true ->
   i_d (inodes (ilocked pid ip v) ip) = inode_at v0 inum -> Q tt (ilocked pid ip v)) ->
  fwp (ilock pid (Some ip) fuel) Q v.
Proof.
  intros Hw Hnl Hu [L1 L2] Hsp HQ. pose proof Hw as [W1 W2 W3 W4]. pose proof Hu as (Hc & Hp & Hd & Hi). destruct (cm_entry _ _ W1 ip Hc) as [C1 C2 C3 C4].
  pose proof (same_inode_at v0 v inum W2) as Eat. unfold lock_ok in C1. rewrite decide_False in C1 by done.
  assert ((if i_valid (inodes v ip) then i_d (inodes v ip) else read_dinode (blk v (iblk v (inodes v ip))) (ioff (inodes v ip))) = inode_at v0 inum) as Ed.
  { destruct (i_valid (inodes v ip)) eqn:Ev; [rewrite C3, Hi by (done || lia); done|]. rewrite <- Eat. unfold inode_at, iblk, ioff. by rewrite Hi. }
  assert (inodes (ilocked pid ip v) ip = mk_inode t_dev inum (i_ref (inodes v ip)) (mk_sleeplock false true pid) true (inode_at v0 inum)) as El.
  { unfold ilocked. rewrite inodes_set, Hd, Hi, Ed. done. }
  apply fwp_ilock; [done|lia| |].
  - intros Ev. rewrite Ev in Ed. split; [done|]. split; [by apply unheld_held, W1|]. split; [unfold space; destruct W2 as (-> & _); exact Hsp|by rewrite Ed].
  - apply HQ; [|unfold in_use; by rewrite El|by rewrite El|by rewrite El].
    unfold ilocked. apply (walk_set v l (ip :: l) held held); cbn; try done.
    + set_solver.
    + unfold lock_ok. by rewrite decide_True by set_solver.
    + intros _ _ _. rewrite Hi, Ed, Eat. done.
    + intros j. destruct (decide (j = ip)); lia.
Qed.

Lemma fwp_iunlock_walk v l held ip (Q : unit -> fsys txv -> Prop) : walked v0 v (ip :: l) held -> ip ∉ l -> in_cache ip -> 1 <= i_ref (inodes v ip) ->
  (walked v0 (put_ilock ip (mk_sleeplock false false 0) v) l held -> Q tt (put_ilock ip (mk_sleeplock false false 0) v)) -> fwp (iunlock pid (Some ip)) Q v.
Proof.
  intros Hw Hnl Hc Hr HQ. pose proof Hw as [W1 W2 W3 W4]. destruct (cm_entry _ _ W1 ip Hc) as [C1 C2 C3 C4].
  apply fwp_iunlock; [unfold ilock_mine, lock_ok in *; by rewrite decide_True in C1 by set_solver|done|]. apply HQ. unfold put_ilock.
  apply (walk_set v (ip :: l) l held held); cbn; try done.
  - set_solver.
  - unfold lock_ok. by rewrite decide_False.
  - intros j. destruct (decide (j = ip)); lia.
Qed.

(** Giving back a reference to an inode that is linked, or still referenced. *)
Lemma fwp_iput_walk v l held ip inum fuel (Q : unit -> fsys txv -> Prop) : walked v0 v l (ip :: held) -> (length held <= 1)%nat -> in_use v t_dev inum ip ->
  (i_ref (inodes v ip) = 1 -> di_nlink (inode_at v0 inum) <> 0) ->
  (forall v', walked v0 v' l held -> (forall j, j <> ip -> inodes v' j = inodes v j) ->
     v' = set_inode ip (with_ref (i_ref (inodes v ip) - 1)) v -> Q tt v') -> fwp (iput pid ip fuel) Q v.
Proof.
  intros Hw Hlen Hu L3 HQ. pose proof Hw as [W1 W2 W3 W4]. pose proof Hu as (Hc & Hp & Hd & Hi). destruct (cm_entry _ _ W1 ip Hc) as [C1 C2 C3 C4].
  pose proof (walk_bound v l (ip :: held) ip Hw ltac:(cbn; lia)) as Hb. pose proof (cm_lock _ _ W1) as Hlk.
  unfold iput. apply fwp_bind, fwp_ic_acquire; [done|]. apply fwp_bind, fwp_inode. cbn [inodes set_ic_lock].
  assert ((i_ref (inodes v ip) =? 1) && i_valid (inodes v ip) && (di_nlink (i_d (inodes v ip)) =? 0) = false) as ->.
  { destruct (i_valid (inodes v ip)) eqn:Ev; [|by rewrite andb_false_r]. rewrite C3, Hi, (same_inode_at v0) by (done || lia).
    destruct (Z.eqb_spec (i_ref (inodes v ip)) 1) as [E|]; [|done]. rewrite (proj2 (Z.eqb_neq _ _) (L3 E)). apply andb_false_r. }
  apply fwp_bind, fwp_ret, fwp_bind, fwp_upd, fwp_ic_release; [done|]. rewrite unlock_relock by done.
  assert (set_inode ip (fun i => with_ref (s32 (i_ref i - 1)) i) v = set_inode ip (with_ref (i_ref (inodes v ip) - 1)) v) as ->.
  { apply set_inode_ext. by rewrite s32_small by lia. }
  apply HQ; [|intros j Hj; by apply fset_ne|done]. apply (walk_set v l l (ip :: held) held); cbn; try done; try lia.
  - intros _. apply C3. lia.
  - intros j. destruct (decide (ip = j)), (decide (j = ip)); try congruence; lia.
Qed.

Lemma fwp_idup_walk ip inum (Q : Z -> fsys txv -> Prop) : calm [] v0 -> in_use v0 t_dev inum ip ->
  (forall v, walked v0 v [] [ip] -> in_use v t_dev inum ip -> Q ip v) -> fwp (idup ip) Q v0.
Proof.
  intros Hc Hu HQ. assert (in_table v0 inum) as Htab by (pose proof Hu as (U1 & U2 & U3 & <-); by apply (cm_entry _ _ Hc ip U1)).
  unfold idup. apply fwp_bind, fwp_ic_acquire; [apply Hc|]. apply fwp_bind, fwp_upd, fwp_bind, fwp_ic_release; [done|].
  rewrite unlock_relock by apply Hc. apply fwp_ret. assert (walked v0 v0 [] []) as Hw by (split; [done|done|intros j; cbn; lia|done]).
  destruct (walk_gotten v0 [] [] inum ip _ Hw ltac:(cbn; lia) Htab (or_introl (conj Hu eq_refl))) as (H1 & H2 & _). by apply HQ.
Qed.

(** *** The loop *)

Context (Hok : space_ok v0) (Htree : tree_ok v0) (Hsp : space 1 v0).
Context (Hroom : exists j j', j <> j' /\ in_cache j /\ in_cache j' /\ i_ref (inodes v0 j) = 0 /\ i_ref (inodes v0 j') = 0).

Lemma same_space v : same_disk v0 v -> space_ok v.
Proof.
  intros (A & B & C). apply (accounted_ext v (inode_at v0)); [intros i _; symmetry; by apply same_inode_at|].
  eapply accounted_same; [exact Hok|done|..]; intros; unfold blk, slot, blk; by rewrite A.
Qed.

(** A locked directory is as the disk has it, and one for the lookup. *)
Lemma walk_cached v l held ip inum : walked v0 v l held -> in_use v t_dev inum ip -> i_d (inodes v ip) = inode_at v0 inum -> live v0 inum ->
  di_type (inode_at v0 inum) = T_DIR -> cached t_dev v ip inum.
Proof.
  intros [W1 W2 W3 W4] (Hc & Hp & Hd & Hi) Ed Hl Ht. pose proof (Htree inum Hl Ht) as [[D1 D2] D3 D4]. pose proof W2 as (A & B & C).
  pose proof (same_inode_at v0 v inum W2) as Eat.
  split; rewrite ?B, ?Eat; try done; [apply (proj1 Hl)|apply D2|]. intros bn H0 H1 H2 H3. specialize (D3 bn H0 H1 H2 H3). unfold slot, blk in *. by rewrite A.
Qed.

Lemma walk_dir v l held ip inum : walked v0 v l held -> in_use v t_dev inum ip -> i_d (inodes v ip) = inode_at v0 inum -> live v0 inum ->
  di_type (inode_at v0 inum) = T_DIR -> exists N, is_dir v ip (di_size (inode_at v0 inum) / DIRENT_SIZE) N.
Proof.
  intros Hw Hu Ed Hl Ht. pose proof (walk_cached v l held ip inum Hw Hu Ed Hl Ht) as Hca. pose proof Hw as [W1 W2 W3 W4]. pose proof (Htree inum Hl Ht) as [[D1 D2] D3 D4].
  pose proof (cached_mapped _ _ _ _ (same_space v W2) (cm_held _ _ W1) Hca) as Hm. rewrite (same_inode_at v0 v inum W2) in Hm. eexists. split; [by rewrite Ed| | |exact Hm].
  - rewrite Ed. unfold DIRENT_SIZE in *. divlia.
  - unfold DIRENT_SIZE, BSIZE in *. divlia.
Qed.

Lemma walk_room v l held ip : walked v0 v l held -> (forall j, j <> ip -> times j held = 0) -> cache_room v.
Proof.
  intros [W1 W2 W3 W4] Ht. split; [apply W1|]. destruct Hroom as (j & j' & Hne & H1 & H2 & H3 & H4).
  destruct (decide (j = ip)) as [->|Hj]; [exists j'|exists j]; (split; [done|]); rewrite W3, Ht by congruence; lia.
Qed.

Lemma looked_up_disk v ip K name r v' : fx v = fx v0 -> i_d (inodes v ip) = inode_at v0 (i_inum (inodes v ip)) ->
  looked_up v ip K name 0 r v' ->
  match r with
  | None => v' = v /\ forall k, 0 <= k < K -> ~ dmatch v0 (inode_at v0 (i_inum (inodes v ip))) name k
  | Some (nx, off) => exists k, 0 <= k < K /\ dmatch v0 (inode_at v0 (i_inum (inodes v ip))) name k /\
      (forall k', 0 <= k' < k -> ~ dmatch v0 (inode_at v0 (i_inum (inodes v ip))) name k') /\
      gotten v t_dev (de_inum (dent v0 (inode_at v0 (i_inum (inodes v ip))) k)) nx v' /\ off = DIRENT_SIZE * k
  end.
Proof.
  intros A Ed. unfold looked_up. rewrite Ed.
  assert (forall d k, dent v d k = dent v0 d k) as Hde by (intros d k; unfold dent, content, fbyte, faddr, blk; by rewrite A).
  assert (forall d k, dmatch v d name k <-> dmatch v0 d name k) as Hdm by (intros d k; unfold dmatch; by rewrite Hde).
  destruct r as [[nx off]|].
  - intros (k & Eo & Hk & Hm & Hn & Hg). exists k. split; [done|]. split; [by apply Hdm|]. split; [intros k' Hk' H%Hdm; by apply (Hn k')|]. by rewrite <- Hde.
  - intros [-> Hn]. split; [done|]. intros k Hk H%Hdm. by apply (Hn k).
Qed.

(** How the walk ends. *)
Definition arrived (found : option Z) (r : option Z) (v : fsys txv) : Prop :=
  match found with
  | Some i => exists ip, r = Some ip /\ walked v0 v [] [ip] /\ in_use v t_dev i ip /\ live v0 i
  | None => r = None /\ walked v0 v [] []
  end.

Definition ended (parent : bool) (inum : Z) (names : list (list byte)) (r : option Z * list byte) (v : fsys txv) : Prop :=
  if parent then
    arrived (fst <$> resolve_parent v0 inum names) (fst r) v /\
    (forall i c, resolve_parent v0 inum names = Some (i, c) -> cname (of_list (snd r)) (Z.to_nat DIRSIZ) = c /\ Z.of_nat (length (snd r)) = DIRSIZ)
  else arrived (resolve v0 inum names) (fst r) v.

Lemma ended_step parent inum c names i r v : di_type (inode_at v0 inum) = T_DIR -> dir_find v0 (inode_at v0 inum) (short_name c) = Some i ->
  (parent = true -> names <> []) -> ended parent i names r v -> ended parent inum (c :: names) r v.
Proof.
  intros Ht Hf Hn. unfold ended. destruct parent; cbn [resolve resolve_parent]; rewrite Ht, Z.eqb_refl, Hf; [|done].
  destruct names; [|done]. by destruct (Hn eq_refl).
Qed.

Lemma ended_missing parent inum c names name v : di_type (inode_at v0 inum) = T_DIR -> dir_find v0 (inode_at v0 inum) (short_name c) = None ->
  (parent = true -> names <> []) -> walked v0 v [] [] -> ended parent inum (c :: names) (None, name) v.
Proof.
  intros Ht Hf Hn Hw. unfold ended. destruct parent; cbn [resolve resolve_parent]; rewrite Ht, Z.eqb_refl, Hf; [|done].
  destruct names; [by destruct (Hn eq_refl)|]. done.
Qed.

(** Unlocking and giving back, at the end or before the next name. *)
Lemma fwp_iunlockput_keep v l held ip inum fuel (Q : unit -> fsys txv -> Prop) : walked v0 v (ip :: l) held -> ip ∉ l -> (forall j, times j held = times j (ip :: List.tl held)) ->
  (length held <= 2)%nat -> in_use v t_dev inum ip ->
  (i_ref (inodes v ip) = 1 -> di_nlink (inode_at v0 inum) <> 0) ->
  (forall v', walked v0 v' l (List.tl held) -> (forall j, j <> ip -> inodes v' j = inodes v j) ->
     (forall dev i, in_use v dev i ip -> 1 < i_ref (inodes v ip) -> in_use v' dev i ip) -> Q tt v') -> fwp (iunlockput pid ip fuel) Q v.
Proof.
  intros Hw Hnl Ht Hlen Hu Hl HQ. pose proof Hu as (Hc & Hp & Hd & Hi). unfold iunlockput. apply fwp_bind, (fwp_iunlock_walk v l held); [done|done|done|lia|].
  intros Hw1. set (v1 := put_ilock ip _ v) in *. assert (inodes v1 ip = with_lock (mk_sleeplock false false 0) (inodes v ip)) as E1 by apply inodes_set.
  apply (fwp_iput_walk v1 l (List.tl held) ip inum).
  - destruct Hw1 as [A B C D]. split; [done|done| |done]. intros j. rewrite C. by rewrite Ht.
  - destruct held; cbn in *; lia.
  - unfold in_use. by rewrite E1.
  - by rewrite E1.
  - intros v' Hw2 Ho ->. apply HQ; [done| |].
    + intros j Hj. rewrite Ho by done. cbn. by rewrite fset_ne.
    + intros dev i (U1 & U2 & U3 & U4) Hr. unfold in_use. rewrite inodes_set, E1. cbn. split_and!; try done. lia.
Qed.

Lemma fwp_iunlockput_walk v l held ip inum fuel (Q : unit -> fsys txv -> Prop) : walked v0 v (ip :: l) held -> ip ∉ l -> (forall j, times j held = times j (ip :: List.tl held)) ->
  (length held <= 2)%nat -> in_use v t_dev inum ip -> live v0 inum ->
  (forall v', walked v0 v' l (List.tl held) -> (forall j, j <> ip -> inodes v' j = inodes v j) ->
     (forall dev i, in_use v dev i ip -> 1 < i_ref (inodes v ip) -> in_use v' dev i ip) -> Q tt v') -> fwp (iunlockput pid ip fuel) Q v.
Proof. intros H1 H2 H3 H4 H5 Hl. apply (fwp_iunlockput_keep v l held ip inum); try done. intros _. apply Hl. Qed.

Lemma fwp_namex_loop parent wakes fuel : forall path name ip inum v, (length path <= fuel)%nat ->
  Forall (fun c => c <> Byte.x00) path -> Z.of_nat (length name) = DIRSIZ -> walked v0 v [] [ip] -> in_use v t_dev inum ip -> live v0 inum ->
  fwp (namex_loop pid ip path name parent wakes fuel) (ended parent inum (components path)) v.
Proof.
  induction fuel as [|fuel IH]; intros path name ip inum v Hlen Hnz Hname Hw Hu Hl; cbn [namex_loop];
    pose proof (skipelem_spec path name Hnz Hname) as Hs; (destruct (skipelem path name) as [[name' path']|];
      [destruct Hs as (c & Hcs & Hcn & Hln & Hlt & Hnz' & Hhead); try lia|
       rewrite Hs; destruct parent; unfold ended; cbn [resolve resolve_parent fmap option_fmap option_map];
         [apply fwp_bind, (fwp_iput_walk v [] [] ip inum); [done|cbn; lia|done|intros _; apply Hl|]; intros v' Hw' _ _; apply fwp_ret; split; [split; [done|exact Hw']|done]
         |apply fwp_ret; exists ip; split; [done|]; split; [done|]; split; done]]).
  apply fwp_bind, (fwp_ilock_walk v [] [ip] ip inum wakes); [done|set_solver|done|apply Hl|done|]. set (v1 := ilocked pid ip v). intros Hw1 Hu1 Hv1 Ed1.
  apply fwp_bind, fwp_inode. rewrite Ed1, Hcs. pose proof Hu1 as (U1 & U2 & U3 & U4).
  destruct (Z.eqb_spec (di_type (inode_at v0 inum)) T_DIR) as [Ht|Ht]; cbn [negb].
  2: { apply fwp_bind, (fwp_iunlockput_walk v1 [] [ip] ip inum); [done|set_solver|done|cbn; lia|done|done|]. intros v2 Hw2 _ _. apply fwp_ret.
       unfold ended. cbn [resolve resolve_parent]. rewrite (proj2 (Z.eqb_neq _ _) Ht). destruct parent; cbn; [split; [by split|done]|by split]. }
  destruct (decide (parent = true /\ path' = [])) as [[-> ->]|Hgo].
  { cbn [andb]. apply fwp_bind, (fwp_iunlock_walk v1 [] [ip] ip); [done|set_solver|done|lia|]. intros Hw2. apply fwp_ret. unfold ended. cbn [resolve_parent components pieces flush fst snd].
    rewrite Ht, Z.eqb_refl. cbn. split; [|intros i c' [= <- <-]; done].
    exists ip. split; [done|]. split; [done|]. split; [|done]. unfold in_use. unfold put_ilock. rewrite inodes_set. done. }
  replace (parent && match path' with [] => true | _ => false end) with false.
  2: { symmetry. destruct parent, path'; try done. exfalso. by apply Hgo. }
  destruct (walk_dir v1 [ip] [ip] ip inum Hw1 Hu1 Ed1 Hl Ht) as [N Hdir]. set (d := inode_at v0 inum) in *. set (K := di_size d / DIRENT_SIZE) in *.
  assert (cache_room v1) as Hcr by (apply (walk_room v1 [ip] [ip] ip Hw1); intros j Hj; cbn; by rewrite decide_False).
  pose proof (wl_disk _ _ _ _ Hw1) as Hsame. pose proof Hsame as (A1 & _).
  apply fwp_bind. eapply fwp_mono; [|apply (fwp_dirlookup ip K N (of_list name') v1 Hdir); [unfold space; rewrite A1; exact Hsp|done]].
  intros r v2 Hlk. apply looked_up_disk in Hlk; [|done|by rewrite Ed1, U4]. rewrite U4 in Hlk. fold d in Hlk. fold (short_name c) in Hcn.
  assert (parent = true -> components path' <> []) as Hnames.
  { intros ->. destruct path' as [|c' rest]; [exfalso; by apply Hgo|]. by apply components_nonempty, (Hhead c' rest). }
  destruct r as [[nx off]|].
  - destruct Hlk as (k & Hk & Hm & Hn & Hg & _). pose proof (dir_find_first v0 d _ _ k Hcn Hk Hm Hn) as Hfind.
    pose proof (do_live _ _ (Htree inum Hl Ht) k Hk (proj1 Hm)) as Hlive. set (i := de_inum (dent v0 d k)) in *.
    destruct (walk_gotten v1 [ip] [ip] i nx v2 Hw1 ltac:(cbn; lia) (proj1 Hlive) Hg) as (Hw2 & Hu2 & Ho2 & Hk2).
    apply fwp_bind, (fwp_iunlockput_walk v2 [] [ip; nx] ip inum); [|set_solver|done|cbn; lia|by apply Hk2|done|].
    { destruct Hw2 as [W1 W2 W3 W4]. split; [done|done| |done]. intros j. rewrite W3. cbn. lia. }
    intros v3 Hw3 Ho3 Hself. cbn [List.tl] in Hw3. eapply fwp_mono; [|apply (IH path' name' nx i v3); try done; [lia|]].
    + intros r v4. by apply (ended_step parent inum c _ i).
    + destruct (decide (nx = ip)) as [->|Hne]; [|unfold in_use; by rewrite Ho3].
      apply Hself; [done|]. rewrite (wl_refs _ _ _ _ Hw2). cbn. rewrite !decide_True by done. pose proof (wl_refs _ _ _ _ Hw1 ip) as E. cbn [times] in E. rewrite decide_True in E by done.
      lia.
  - destruct Hlk as [-> Hn]. pose proof (dir_find_none v0 d _ _ Hcn Hn) as Hfind.
    apply fwp_bind, (fwp_iunlockput_walk v1 [] [ip] ip inum); [done|set_solver|done|cbn; lia|done|done|]. intros v3 Hw3 _ _. apply fwp_ret.
    by apply ended_missing.
Qed.

Lemma fwp_namex parent wakes cwd path name cino : calm [] v0 -> Forall (fun c => c <> Byte.x00) path -> Z.of_nat (length name) = DIRSIZ ->
  in_use v0 t_dev cino cwd -> live v0 cino -> live v0 ROOTINO -> t_dev = ROOTDEV ->
  let start := match path with c :: _ => if is_slash c then ROOTINO else cino | [] => cino end in
  fwp (namex pid cwd path parent name wakes) (ended parent start (components path)) v0.
Proof.
  intros Hc Hnz Hname Hu Hl Hr Hdev start. unfold namex. apply fwp_bind.
  assert (forall ip v, walked v0 v [] [ip] -> in_use v t_dev start ip -> fwp (namex_loop pid ip path name parent wakes (length path)) (ended parent start (components path)) v) as Hloop.
  { intros ip v Hw Hiu. apply fwp_namex_loop; try done. unfold start. destruct path as [|c p]; [done|]. by destruct (is_slash c). }
  assert (fwp (iget ROOTDEV ROOTINO) (fun ip v => walked v0 v [] [ip] /\ in_use v t_dev ROOTINO ip) v0) as Hget.
  { destruct Hroom as (j & _ & _ & Hj & _ & H0 & _). apply fwp_iget; [apply Hc|exists j; auto|]. intros ip v Hg. rewrite <- Hdev in Hg.
    destruct (walk_gotten v0 [] [] ROOTINO ip v ltac:(split; [done|done|intros x; cbn; lia|done]) ltac:(cbn; lia) (proj1 Hr) Hg) as (H1 & H2 & _). done. }
  assert (fwp (idup cwd) (fun ip v => walked v0 v [] [ip] /\ in_use v t_dev cino ip) v0) as Hdup by (by apply (fwp_idup_walk cwd cino)).
  destruct path as [|c p]; [eapply fwp_mono; [|exact Hdup]; intros ip v [H1 H2]; by apply Hloop|].
  unfold start in *. destruct (is_slash c); [eapply fwp_mono; [|exact Hget]|eapply fwp_mono; [|exact Hdup]]; intros ip v [H1 H2]; by apply Hloop.
Qed.

End Walk.

End Calm.

(** [C30] Path lookup: on a well-formed tree, when two entries of the inode cache
    are free and the log has room, [namei] and [nameiparent] terminate and agree with resolving the components of the path on the disk, one
    directory after the other, from the root or the current directory, names
    counting up to 14 characters: they return the cache entry of the inode
    reached (and the last name), with exactly one more reference to it, or
    nothing when a component is missing or not a directory; on every branch
    all other references, the inodes they refer to and all locks are as before,
    and the disk is not touched. *)
Theorem namei_resolves {X : Type} `{TX : TxLayer X} (pid : Z) (s : fsys X) (v : fsys txv) (cwd cino : Z) (path : list byte) (name : list byte) (wakes : nat)
  (Hs : fs_rep s v) (Hc : calm pid [] v) (Hmax : forall j, i_ref (inodes v j) < 2 ^ 30) (Hok : space_ok v) (Htree : tree_ok v) (Hsp : space 1 v)
  (Hroom : exists j j', j <> j' /\ in_cache j /\ in_cache j' /\ i_ref (inodes v j) = 0 /\ i_ref (inodes v j') = 0)
  (Hcwd : in_use v t_dev cino cwd) (Hl : live v cino) (Hr : live v ROOTINO) (Hdev : t_dev = ROOTDEV)
  (Hnz : Forall (fun c => c <> Byte.x00) path) (Hname : Z.of_nat (length name) = DIRSIZ) :
  let start := match path with c :: _ => if is_slash c then ROOTINO else cino | [] => cino end in
  (exists r s' v', namei pid cwd path wakes s = Done r s' /\ fs_rep s' v' /\ calm pid [] v' /\ same_disk v v' /\ kept v v' /\
     match resolve v start (components path) with
     | Some i => exists ip, r = Some ip /\ in_use v' t_dev i ip /\ refs v v' [ip]
     | None => r = None /\ refs v v' []
     end) /\
  (exists r s' v', nameiparent pid cwd path name wakes s = Done r s' /\ fs_rep s' v' /\ calm pid [] v' /\ same_disk v v' /\ kept v v' /\
     match resolve_parent v start (components path) with
     | Some (i, c) => exists ip, fst r = Some ip /\ in_use v' t_dev i ip /\ refs v v' [ip] /\ cname (of_list (snd r)) (Z.to_nat DIRSIZ) = c
     | None => fst r = None /\ refs v v' []
     end).
Proof.
  intros start. split.
  - destruct (fwp_namex pid v Hmax Hok Htree Hsp Hroom false wakes cwd path (replicate (Z.to_nat DIRSIZ) Byte.x00) cino Hc Hnz eq_refl Hcwd Hl Hr Hdev s Hs)
      as (r & s' & v' & E & R & H). fold start in H. cbn [ended] in H. exists (fst r), s', v'.
    split; [unfold namei; by rewrite (bind_Done _ _ _ _ _ E)|]. split; [done|]. unfold arrived in H.
    destruct (resolve v start (components path)) as [i|]; [destruct H as (ip & E1 & [W1 W2 W3 W4] & H2 & _)|destruct H as (E1 & [W1 W2 W3 W4])]; split_and!; try done. by exists ip.
  - destruct (fwp_namex pid v Hmax Hok Htree Hsp Hroom true wakes cwd path name cino Hc Hnz Hname Hcwd Hl Hr Hdev s Hs) as (r & s' & v' & E & R & H & Hn).
    fold start in H, Hn. exists r, s', v'. split; [done|]. split; [done|]. unfold arrived in H.
    destruct (resolve_parent v start (components path)) as [[i c]|]; cbn in H; [destruct H as (ip & E1 & [W1 W2 W3 W4] & H2 & _)|destruct H as (E1 & [W1 W2 W3 W4])]; split_and!; try done.
    exists ip. destruct (Hn i c eq_refl) as [Hcn _]. done.
Qed.
