(* ===== verification/FsLink.v ===== *)
(** * New inodes and new names: ialloc and dirlink of kernel/fs.c

    An inode is taken from the table, and an entry for it is put into a
    directory, which may have to grow.  Both keep the space of the disk and
    the tree of directories well formed. *)

From Stdlib Require Import FunctionalExtensionality.
From S2P Require Import Prelude CMem Riscv Sleeplock BlockLayer Log Tx Fs FsBlocks FsInode FsFile FsDir FsSpace FsGrow FsPath.

(** ** Storing an inode *)

Definition put_dinode (inum : Z) (d : dinode) (v : fsys txv) : fsys txv :=
  tx (v_write (IBLOCK inum (f_sb v)) (write_dinode (blk v (IBLOCK inum (f_sb v))) (DINODE_SIZE * (inum mod IPB)) d)) v.

Record stored_inode (inum : Z) (d : dinode) (v v' : fsys txv) : Prop := {
  st_space : space_ok v';
  st_at : inode_at v' inum = d;
  st_other j : inum_ok (f_sb v) j -> j <> inum -> inode_at v' j = inode_at v j;
  st_slot j k : inum_ok (f_sb v) j -> slot v' (inode_at v' j) k = slot v (inode_at v j) k;
  st_byte j k : inum_ok (f_sb v) j -> 0 <= k < MAXFILE * BSIZE -> hbyte v' (inode_at v' j) k = hbyte v (inode_at v j) k;
}.

Lemma put_dinode_space inum d v : space_ok v -> inum_ok (f_sb v) inum -> dinode_ok d -> di_addrs d = di_addrs (inode_at v inum) ->
  stored_inode inum d v (put_dinode inum d v).
Proof.
  intros Hsp Hin Hd Ha. set (I := fset (inode_at v) inum d). set (w := set_inode 0 (fun _ => mk_inode 0 inum 1 initsleeplock true d) v).
  assert (accounted v I) as Hac.
  { apply (accounted_addrs v (inode_at v)); [done|]. intros i Hi. unfold I. destruct (decide (i = inum)) as [->|Hne];
      [by rewrite fset_eq|rewrite fset_ne by done; split; [apply read_dinode_ok|done]]. }
  assert (accounted w I) as Hacw by (eapply accounted_same; [exact Hac|done..]).
  assert (working 0 inum I w) as Hw by (split; [done|done|unfold I; by rewrite fset_eq]).
  destruct (iupdate_space 0 inum I w Hw eq_refl) as (A & B & C & D).
  { intros j _ Hj. unfold I. by rewrite fset_ne. }
  assert (forall j, inum_ok (f_sb v) j -> inode_at (put_dinode inum d v) j = I j) as Hat by exact B.
  assert (forall j k, inum_ok (f_sb v) j -> slot v (I j) k = slot v (inode_at v j) k) as Hs.
  { intros j k _. unfold I. destruct (decide (j = inum)) as [->|Hne]; [rewrite fset_eq|by rewrite fset_ne]. by apply slot_addrs. }
  assert (forall j k, inum_ok (f_sb v) j -> hbyte v (I j) k = hbyte v (inode_at v j) k) as Hh.
  { intros j k _. unfold I. destruct (decide (j = inum)) as [->|Hne]; [rewrite fset_eq|by rewrite fset_ne]. by apply hbyte_addrs. }
  split.
  - set (w' := tx _ w) in A. apply (accounted_ext _ I); [intros j Hj; by rewrite Hat|]. apply (accounted_same w'); [|done..].
    apply (accounted_ext w' (inode_at w')); [|exact A]. intros j Hj. by apply B.
  - rewrite Hat by done. unfold I. by rewrite fset_eq.
  - intros j Hj Hne. rewrite Hat by done. unfold I. by rewrite fset_ne.
  - intros j k Hj. rewrite Hat by done. rewrite <- Hs by done. by apply C.
  - intros j k Hj Hk. rewrite Hat by done. rewrite <- Hh by done. by apply D.
Qed.

(** ** Taking an inode *)

Lemma splice_app off (l1 l2 d : list byte) : 0 <= off -> off + Z.of_nat (length l1) + Z.of_nat (length l2) <= Z.of_nat (length d) ->
  splice (off + Z.of_nat (length l1)) l2 (splice off l1 d) = splice off (l1 ++ l2) d.
Proof.
  intros H0 Hl. assert (forall o l (x : block), length (splice o l x) = length x) as Hlen by (intros; apply length_inserts).
  apply (nth_ext _ _ Byte.x00 Byte.x00); [by rewrite !Hlen|]. intros j _.
  rewrite !nth_splice by (rewrite ?Hlen, ?length_app; lia). rewrite length_app.
  destruct (Z.leb_spec off (Z.of_nat j)), (Z.leb_spec (off + Z.of_nat (length l1)) (Z.of_nat j)),
    (Z.ltb_spec (Z.of_nat j) (off + Z.of_nat (length l1) + Z.of_nat (length l2))), (Z.ltb_spec (Z.of_nat j) (off + Z.of_nat (length l1))),
    (Z.ltb_spec (Z.of_nat j) (off + Z.of_nat (length l1 + length l2))); cbn [andb]; try done; try lia.
  - rewrite app_nth2 by lia. f_equal. lia.
  - rewrite app_nth1 by lia. done.
Qed.

Lemma splice_splice off (l l' d : list byte) : 0 <= off -> (length l' <= length l)%nat -> off + Z.of_nat (length l) <= Z.of_nat (length d) ->
  splice off l' (splice off l d) = splice off (l' ++ drop (length l') l) d.
Proof.
  intros H0 Hl Hd. rewrite <- (take_drop (length l') l) at 1. assert (length (take (length l') l) = length l') as El by (rewrite length_take; lia).
  assert (length (drop (length l') l) = (length l - length l')%nat) as Er by apply length_drop.
  rewrite <- !splice_app by lia. rewrite El. apply (nth_ext _ _ Byte.x00 Byte.x00); [by unfold splice; rewrite !length_inserts|]. intros j _.
  assert (forall o l (x : block), length (splice o l x) = length x) as Hlen by (intros; apply length_inserts).
  rewrite !nth_splice by (rewrite ?Hlen; lia). rewrite El, Er.
  destruct (Z.leb_spec off (Z.of_nat j)), (Z.ltb_spec (Z.of_nat j) (off + Z.of_nat (length l'))),
    (Z.leb_spec (off + Z.of_nat (length l')) (Z.of_nat j)); cbn [andb]; try done; lia.
Qed.

Lemma put_zero_addrs n : forall d off, 0 <= off -> off + 4 * Z.of_nat n <= Z.of_nat (length d) ->
  put_addrs d off (replicate n 0) = splice off (replicate (4 * n) Byte.x00) d.
Proof.
  induction n as [|n IH]; intros d off H0 Hd; [done|]. cbn [replicate put_addrs].
  rewrite IH by (rewrite ?length_putf; lia). unfold putf. fold (splice off (le_split 4 0) d).
  change (le_split 4 0) with (replicate 4 Byte.x00). replace (off + 4) with (off + Z.of_nat (length (replicate 4 Byte.x00))) by (cbn; lia).
  rewrite splice_app by (rewrite ?length_replicate; lia). f_equal. rewrite <- replicate_add. f_equal. lia.
Qed.

(** Clearing an inode and setting its type stores an empty inode. *)
Lemma clear_dinode_write d off type : 0 <= off -> off + DINODE_SIZE <= Z.of_nat (length d) -> 0 <= type < 2 ^ 15 ->
  clear_dinode off type d = write_dinode d off (empty_dinode type).
Proof.
  intros H0 Hd Ht. unfold DINODE_SIZE in Hd. assert (s16 type = type) as Es by (unfold s16; rewrite Z.mod_small; lia).
  unfold clear_dinode, write_dinode, empty_dinode. cbn [di_type di_major di_minor di_nlink di_size di_addrs]. rewrite Es.
  rewrite put_zero_addrs by (rewrite ?length_putf; change (Z.to_nat (NDIRECT + 1)) with 13%nat; lia).
  unfold putf. change (le_split 2 0) with (replicate 2 Byte.x00). change (le_split 4 0) with (replicate 4 Byte.x00).
  change (Z.to_nat DINODE_SIZE) with 64%nat. change (4 * Z.to_nat (NDIRECT + 1))%nat with 52%nat.
  repeat match goal with |- context [list_inserts (Z.to_nat ?o) ?l ?x] => fold (splice o l x) end.
  assert (length (le_split 2 type) = 2%nat) as El by apply length_le_split.
  rewrite splice_splice by (rewrite ?El, ?length_replicate; cbn; lia). rewrite El.
  replace (off + 12) with (off + 8 + Z.of_nat (length (replicate 4 Byte.x00))) by (cbn; lia). rewrite splice_app; [|lia|unfold splice; rewrite !length_inserts; cbn; lia].
  replace (off + 8) with (off + 6 + Z.of_nat (length (replicate 2 Byte.x00))) by (cbn; lia). rewrite splice_app; [|lia|unfold splice; rewrite !length_inserts; cbn; lia].
  replace (off + 6) with (off + 4 + Z.of_nat (length (replicate 2 Byte.x00))) by (cbn; lia). rewrite splice_app; [|lia|unfold splice; rewrite !length_inserts; cbn; lia].
  replace (off + 4) with (off + 2 + Z.of_nat (length (replicate 2 Byte.x00))) by (cbn; lia). rewrite splice_app; [|lia|unfold splice; rewrite !length_inserts; cbn; lia].
  replace (off + 2) with (off + Z.of_nat (length (le_split 2 type))) by (rewrite El; lia). rewrite splice_app; [done|lia|rewrite El; cbn; lia].
Qed.

Section Link.

Context {X : Type} `{TX : TxLayer X}.

Context (pid : Z).

Local Notation calm := (calm pid).
Local Notation walked := (walked pid).

Lemma fwp_ialloc type v (Q : Z -> fsys txv -> Prop) : space_ok v -> unheld v -> space 1 v -> 0 <= type < 2 ^ 15 -> cache_room v ->
  (exists n, 1 <= n < sb_ninodes (f_sb v) /\ di_type (inode_at v n) = 0) ->
  (forall n ip v', 1 <= n < sb_ninodes (f_sb v) -> di_type (inode_at v n) = 0 -> gotten (put_dinode n (empty_dinode type) v) t_dev n ip v' -> Q ip v') ->
  fwp (ialloc t_dev type) Q v.
Proof.
  intros Hok Hh Hsp Ht [Hl Hroom] Hfree HQ. unfold ialloc. apply fwp_bind, fwp_sb.
  assert (forall left inum, 1 <= inum -> inum + Z.of_nat left = sb_ninodes (f_sb v) ->
    (exists n, inum <= n < sb_ninodes (f_sb v) /\ di_type (inode_at v n) = 0) -> fwp (ialloc_loop t_dev type inum left) Q v) as Hloop.
  { induction left as [|left IH]; intros inum H1 Hlen Hex; [destruct Hex as (n & Hn & _); lia|]. cbn [ialloc_loop].
    assert (inum_ok (f_sb v) inum) as Hin by (unfold inum_ok; lia). apply fwp_bind, fwp_sb. set (b := IBLOCK inum (f_sb v)).
    pose proof (unheld_held v b Hh) as Hhb. apply fwp_open; [done|done|]. intros h Hf. apply fwp_look.
    change (s16 (getf 2 (blk v b) (DINODE_SIZE * (inum mod IPB)))) with (di_type (inode_at v inum)).
    destruct (Z.eqb_spec (di_type (inode_at v inum)) 0) as [E0|E0].
    - apply fwp_seq3. apply (fwp_commit b h (clear_dinode (DINODE_SIZE * (inum mod IPB)) type)); [done|done|done|].
      destruct (iblock_range _ (ac_sb _ _ Hok) inum Hin) as [Hib _]. pose proof (dstart_size _ (ac_sb _ _ Hok)) as Hds.
      rewrite clear_dinode_write; [|..|done].
      2-3: rewrite ?(ac_len _ _ Hok) by (unfold b; lia); unfold DINODE_SIZE, BSIZE; change IPB with 16; divlia.
      destruct Hroom as (j & Hj & Hj0). apply fwp_iget; [done|exists j; auto|]. intros ip v' Hg. apply (HQ inum); [lia|done|exact Hg].
    - apply fwp_bind. apply (fwp_close b h); [done|done|]. apply IH; [lia|lia|]. destruct Hex as (n & Hn & En). exists n. split; [|done].
      destruct (decide (n = inum)) as [->|]; [done|lia]. }
  destruct Hfree as (n & Hn & En). apply Hloop; [lia|lia|]. by exists n.
Qed.

(** The disk changes under the cache: what the entries in use need. *)
Lemma calm_disk l v v' e d : calm l v -> f_sb v' = f_sb v -> ic_lock v' = ic_lock v -> unheld v' ->
  inodes v' = fset (inodes v) e (with_d d (inodes v e)) ->
  (forall j, in_cache j -> 0 < i_ref (inodes v j) -> i_dev (inodes v j) = t_dev ->
     di_type (inode_at v' (i_inum (inodes v j))) <> 0 /\ (i_valid (inodes v j) = true -> i_d (inodes v' j) = inode_at v' (i_inum (inodes v j)))) ->
  calm l v'.
Proof.
  intros [A B C D] Hsb Hlk Hh Hi Hd.
  assert (forall j, exists x, inodes v' j = with_d x (inodes v j)) as Hj.
  { intros j. rewrite Hi. destruct (decide (j = e)) as [->|Hne]; [exists d; by rewrite fset_eq|exists (fun x => x); rewrite fset_ne by done].
    by destruct (inodes v j). }
  assert (forall dev inum j, in_use v' dev inum j <-> in_use v dev inum j) as Hu.
  { intros dev inum j. unfold in_use. destruct (Hj j) as [x ->]. done. }
  split; [by rewrite Hlk|done| |intros dev inum i j H1%Hu H2%Hu; by apply (D dev inum)].
  intros j Hc. destruct (C j Hc) as [C1 C2 C3 C4]. specialize (Hd j Hc). destruct (Hj j) as [x Ex]. rewrite Ex in *. cbn in Hd. split; rewrite Ex; cbn; try done.
  - intros H1 H2 H3. destruct (Hd H1 H2) as [_ H4]. by apply H4.
  - intros H1 H2. destruct (Hd H1 H2) as [H3 _]. split; [rewrite Hsb; by apply C4|done].
Qed.

(** One inode changes, in its entry and on the disk. *)
Lemma calm_update l v v' e n f : calm l v -> f_sb v' = f_sb v -> ic_lock v' = ic_lock v -> unheld v' ->
  inodes v' = fset (inodes v) e (with_d f (inodes v e)) -> in_use v t_dev n e -> f (i_d (inodes v e)) = inode_at v' n -> di_type (inode_at v' n) <> 0 ->
  (forall j, inum_ok (f_sb v) j -> j <> n -> inode_at v' j = inode_at v j) -> calm l v'.
Proof.
  intros Hc Hsb Hlk Hh Hi Hu Hd Ht Ho. apply (calm_disk l v v' e f); try done. intros j Hj H1 H2.
  destruct (cm_entry _ _ _ Hc j Hj) as [_ _ C3 C4]. destruct (C4 H1 H2) as [T1 T2]. rewrite Hi.
  destruct (decide (i_inum (inodes v j) = n)) as [En|En].
  - assert (j = e) as -> by (by apply (cm_once _ _ _ Hc t_dev n)). rewrite En, fset_eq. split; [done|]. by intros _.
  - rewrite Ho by done. split; [done|]. intros Hv. rewrite fset_ne; [by apply C3|]. intros ->. by destruct Hu as (_ & _ & _ & E).
Qed.

Definition on_disk (v0 v : fsys txv) : fsys txv := set_fx (fx v) v0.

Lemma walked_rebase v0 v v' l held : walked v0 v l held -> calm l v' -> f_sb v' = f_sb v -> ic_lock v' = ic_lock v ->
  (forall j, i_ref (inodes v' j) = i_ref (inodes v j) /\ i_dev (inodes v' j) = i_dev (inodes v j) /\ i_inum (inodes v' j) = i_inum (inodes v j)) ->
  walked (on_disk v0 v') v' l held.
Proof.
  intros [W1 (A & B & C) W3 W4] Hc Hsb Hlk Hr. split; [done|split_and!; cbn; congruence| |].
  - intros j. rewrite (proj1 (Hr j)). apply W3.
  - intros j Hj. destruct (Hr j) as (_ & -> & ->). by apply W4.
Qed.

(** An inode is written, in its entry and on the disk. *)
Lemma walked_write v0 v v' l held dp i e off : f_sb v = f_sb v0 -> walked (on_disk v0 v) v l held -> in_use v t_dev i dp -> di_type (inode_at v i) <> 0 ->
  write_done dp i e v off v' -> inodes v' = fset (inodes v) dp (with_d (fun _ => inode_at v' i) (inodes v dp)) /\ walked (on_disk v0 v') v' l held.
Proof.
  intros Hsb Hw Hu Ht (S1 & S2 & S3 & S4 & S5 & S6 & S7 & S8 & _ & _ & _ & _ & S9).
  assert (inodes v' = fset (inodes v) dp (with_d (fun _ => inode_at v' i) (inodes v dp))) as Hi'.
  { apply functional_extensionality. intros j. destruct (decide (j = dp)) as [->|Hj]; [by rewrite fset_eq|rewrite fset_ne by done; by apply S5]. }
  split; [done|]. assert (calm l v') as Hc.
  { apply (calm_update _ v v' dp i (fun _ => inode_at v' i)); try done; [apply Hw|by rewrite S8|]. intros j Hj Hji. by destruct (S9 j Hj Hji) as [E _]. }
  assert (forall j, i_ref (inodes v' j) = i_ref (inodes v j) /\ i_dev (inodes v' j) = i_dev (inodes v j) /\ i_inum (inodes v' j) = i_inum (inodes v j)) as Hid.
  { intros j. rewrite Hi'. destruct (decide (j = dp)) as [->|]; [by rewrite fset_eq|by rewrite fset_ne]. }
  destruct Hw as [W1 (A1 & A2 & A3) W3 W4]. split; [done|split_and!; cbn in *; congruence| |].
  - intros j. rewrite (proj1 (Hid j)). apply W3.
  - intros j Hj. destruct (Hid j) as (_ & -> & ->). by apply W4.
Qed.

(** ** Linking *)

Lemma fwp_dirlink_grows dp i K N name inum fuel v (Q : Z -> fsys txv -> Prop) :
  is_dir v dp K N -> i_d (inodes v dp) = inode_at v i -> i_inum (inodes v dp) = i -> i_dev (inodes v dp) = t_dev -> inum_ok (f_sb v) i ->
  space_ok v -> unheld v -> cache_room v -> space 8 v -> 2 <= nfree v -> DIRENT_SIZE * (K + 1) <= MAXFILE * BSIZE ->
  (forall k, 0 <= k < K -> ~ dmatch v (inode_at v i) name k) ->
  (forall k v', 0 <= k <= K -> (k = K \/ de_inum (dent v (inode_at v i) k) = 0) ->
     write_done dp i (new_entry name inum) v (DIRENT_SIZE * k) v' -> space 1 v' -> Q 0 v') ->
  fwp (dirlink pid dp name inum fuel) Q v.
Proof.
  intros Hd Ed Ei Edev Hin Hok Hh Hc Hsp Hfree HN Hno HQ. pose proof Hd as [H1 H2 [H3 H3'] H4].
  assert (space 1 v) as Hsp1 by (eapply space_mono; [|exact Hsp]; lia). rewrite <- Ed in Hno, HQ.
  unfold dirlink. apply fwp_bind. eapply fwp_mono; [|by apply (fwp_dirlookup dp K N name v)].
  intros [[ip off]|] v'; cbn [looked_up]; [intros (k & _ & Hk & Hm & _); by apply Hno in Hm|]. intros [-> _].
  apply fwp_bind, fwp_inode. apply fwp_bind. eapply fwp_mono;
    [|eapply (fwp_dirlink_loop dp K N v Hd Hsp1 _ 0); [lia|rewrite H2; unfold DIRENT_SIZE; rewrite Z2Nat.id by divlia; divlia]].
  intros off v' (-> & k & -> & Hk & Hor). fold (new_entry name inum). set (e := new_entry name inum) in *.
  pose proof (length_new_entry name inum) as He. fold e in He. apply fwp_bind.
  pose proof (fwp_writei_grows dp i (kernel_src e) 0 e (copies_kernel e ltac:(rewrite He; done)) 1 (DIRENT_SIZE * k) v) as Hw. rewrite He in Hw.
  rewrite Ed in H2. change (MAXFILE * BSIZE) with 274432 in *. eapply fwp_mono; [|apply Hw; try done; try (rewrite H2); unfold DIRENT_SIZE, BSIZE in *; try lia; divlia].
  intros r v' (-> & Hwd & Hsp'). rewrite Z.eqb_refl. cbn [negb]. apply fwp_ret. by apply (HQ k).
Qed.

End Link.

(** ** What a directory says afterwards *)

Lemma present_bytes v d k n : present v d 0 n -> 0 <= k < n -> n <= MAXFILE * BSIZE -> fbyte v d k = hbyte v d k.
Proof.
  intros Hp Hk Hn. change (MAXFILE * BSIZE) with 274432 in Hn. assert (0 <= k / BSIZE < MAXFILE) as Hb by (change MAXFILE with 268; unfold BSIZE; divlia).
  destruct (present_addr v d (k / BSIZE) n Hp Hb ltac:(unfold BSIZE in *; divlia)) as (E & H & _).
  unfold fbyte, hbyte. by rewrite E, (proj2 (Z.eqb_neq _ _) H).
Qed.

Lemma dent_bytes v d v' d' k : (forall j, DIRENT_SIZE * k <= j < DIRENT_SIZE * (k + 1) -> fbyte v' d' j = fbyte v d j) -> dent v' d' k = dent v d k.
Proof.
  intros H. unfold dent, content. apply map_ext_in. intros j Hj%list_elem_of_In%elem_of_seqZ. apply H. unfold DIRENT_SIZE in *. lia.
Qed.

Lemma find_ext {A} (f g : A -> bool) l : (forall x, x ∈ l -> f x = g x) -> List.find f l = List.find g l.
Proof.
  induction l as [|x l IH]; intros H; [done|]. cbn. rewrite (H x) by left. rewrite IH; [done|]. intros y Hy. apply H. by right.
Qed.

Lemma find_app {A} (f : A -> bool) l1 l2 : List.find f (l1 ++ l2) = match List.find f l1 with Some x => Some x | None => List.find f l2 end.
Proof. induction l1 as [|x l1 IH]; cbn; [done|]. by destruct (f x). Qed.

Lemma dir_find_same v d v' d' c : di_size d' = di_size d -> (forall k, 0 <= k < di_size d / DIRENT_SIZE -> dent v' d' k = dent v d k) ->
  dir_find v' d' c = dir_find v d c.
Proof.
  intros Es He. unfold dir_find. rewrite Es, (find_ext _ (entry_named v d c)) by (intros x Hx%elem_of_seqZ; unfold entry_named; by rewrite He by lia).
  pose proof (find_first (entry_named v d c) (seqZ 0 (di_size d / DIRENT_SIZE))) as Hf. destruct (List.find _ _) as [x|]; [|done].
  destruct Hf as (m & Hm & _). apply lookup_seqZ in Hm as [-> Hm]. by rewrite He by lia.
Qed.

Lemma dir_find_live v d c j : dir_ok v d -> dir_find v d c = Some j -> live v j.
Proof.
  intros Hd Ef. unfold dir_find in Ef. pose proof (find_first (entry_named v d c) (seqZ 0 (di_size d / DIRENT_SIZE))) as Hf.
  destruct (List.find _ _) as [x|]; [|done]. injection Ef as <-. destruct Hf as (m & Hm & Hx & _). apply lookup_seqZ in Hm as [-> Hm].
  apply (do_live _ _ Hd); [lia|]. unfold entry_named in Hx. apply andb_true_iff in Hx as [Hx _]. by apply negb_true_iff, Z.eqb_neq in Hx.
Qed.

Lemma dir_find_absent v d name : dir_find v d (cname name (Z.to_nat DIRSIZ)) = None -> forall k, 0 <= k < di_size d / DIRENT_SIZE -> ~ dmatch v d name k.
Proof.
  unfold dir_find. pose proof (find_first (entry_named v d (cname name (Z.to_nat DIRSIZ))) (seqZ 0 (di_size d / DIRENT_SIZE))) as Hf.
  destruct (List.find _ _) as [x|]; [done|]. intros _ k Hk Hm. specialize (Hf k ltac:(apply elem_of_seqZ; lia)).
  apply (entry_dmatch v d name _ k eq_refl) in Hm. congruence.
Qed.

(** An untouched directory. *)
Lemma dir_kept v d v' d' : dir_ok v d -> di_size d' = di_size d ->
  (forall k, slot v' d' k = slot v d k) -> (forall k, 0 <= k < MAXFILE * BSIZE -> hbyte v' d' k = hbyte v d k) ->
  (forall k, 0 <= k < di_size d / DIRENT_SIZE -> de_inum (dent v d k) <> 0 -> live v (de_inum (dent v d k)) -> live v' (de_inum (dent v d k))) ->
  dir_ok v' d' /\ (forall k, 0 <= k < di_size d / DIRENT_SIZE -> dent v' d' k = dent v d k).
Proof.
  intros [[D1 D1'] D2 D3] Es Hs Hb Hlive. assert (present v' d' 0 (di_size d)) as Hp by (intros bn H1 H2 H3 H4; rewrite Hs; by apply D2).
  assert (forall k, 0 <= k < di_size d / DIRENT_SIZE -> dent v' d' k = dent v d k) as He.
  { intros k Hk. apply dent_bytes. intros j Hj. assert (0 <= j < di_size d) as Hjs by (unfold DIRENT_SIZE in *; divlia).
    rewrite (present_bytes v' d' j (di_size d)), (present_bytes v d j (di_size d)) by (done || lia). apply Hb. lia. }
  split; [|done]. split; rewrite Es; [done|done|]. intros k Hk. rewrite He by done. intros Hne. apply Hlive; [done|done|]. by apply D3.
Qed.

(** An entry of a directory is overwritten, or one is added. *)
Section Entry.

Context (dp i : Z) (e : list byte) (He : Z.of_nat (length e) = DIRENT_SIZE) (k : Z) (v v' : fsys txv).

Let d := inode_at v i.
Let d' := inode_at v' i.
Let K := di_size d / DIRENT_SIZE.

Context (Hdir : dir_ok v d) (Hwd : write_done dp i e v (DIRENT_SIZE * k) v') (Hk : 0 <= k <= K) (Hfit : DIRENT_SIZE * (Z.max K (k + 1)) <= MAXFILE * BSIZE).

Lemma entry_size : di_size d = DIRENT_SIZE * K /\ di_size d' = DIRENT_SIZE * Z.max K (k + 1).
Proof.
  destruct (do_size _ _ Hdir) as [H1 H2]. assert (di_size d = DIRENT_SIZE * K) as E by (unfold K, DIRENT_SIZE in *; divlia).
  split; [done|]. destruct Hwd as (_ & _ & _ & _ & _ & _ & Hs & _). rewrite He in Hs. fold d d' in Hs. unfold DIRENT_SIZE in *. lia.
Qed.

Lemma entry_count : di_size d' / DIRENT_SIZE = Z.max K (k + 1).
Proof. destruct entry_size as [_ ->]. unfold DIRENT_SIZE. divlia. Qed.

Lemma entry_present : present v' d' 0 (di_size d').
Proof.
  destruct entry_size as [E E']. destruct Hwd as (_ & _ & _ & _ & _ & _ & _ & _ & _ & _ & Hp & Hsl & _). rewrite He in Hp. fold d d' in Hp, Hsl.
  intros bn H1 H2 H3 H4. rewrite E' in H4. destruct (decide (bn * BSIZE < di_size d)) as [Hlt|Hge].
  - apply Hsl; [by apply bslot_ok|]. apply (do_full _ _ Hdir); [|done|done|lia]. unfold BSIZE in *; lia.
  - apply Hp; [done|done| |]; rewrite E in Hge; unfold DIRENT_SIZE, BSIZE in *; divlia.
Qed.

Lemma entry_written k' : 0 <= k' < Z.max K (k + 1) -> dent v' d' k' = if decide (k' = k) then e else dent v d k'.
Proof.
  intros Hk'. destruct entry_size as [E E'].
  destruct Hwd as (_ & _ & _ & _ & _ & _ & _ & _ & _ & Hb & _). fold d d' in Hb.
  assert (forall j, 0 <= j < di_size d' -> fbyte v' d' j = patched (hbyte v d) (DIRENT_SIZE * k) e j) as Hf.
  { intros j Hj. assert (di_size d' <= MAXFILE * BSIZE) by (rewrite E'; unfold DIRENT_SIZE in *; lia).
    rewrite (present_bytes v' d' j (di_size d')) by (apply entry_present || lia). apply Hb. lia. }
  destruct (decide (k' = k)) as [->|Hne].
  - unfold dent. pose proof (content_patched v v' d d' (DIRENT_SIZE * k) e) as L. rewrite He in L. apply L. intros j Hj.
    rewrite Hf by (unfold DIRENT_SIZE in *; lia). unfold patched. by rewrite He, (proj2 (Z.leb_le _ _)), (proj2 (Z.ltb_lt _ _)) by lia.
  - apply dent_bytes. intros j Hj. rewrite Hf by (unfold DIRENT_SIZE in *; lia). unfold patched. rewrite He.
    destruct (Z.leb_spec (DIRENT_SIZE * k) j), (Z.ltb_spec j (DIRENT_SIZE * k + DIRENT_SIZE)); cbn [andb];
      try (unfold DIRENT_SIZE in *; lia); symmetry; apply (present_bytes v d j (di_size d)); (apply Hdir || (destruct (do_size _ _ Hdir); unfold DIRENT_SIZE in *; lia)).
Qed.

Lemma entry_dir_ok : (forall k', 0 <= k' < K -> k' <> k -> de_inum (dent v d k') <> 0 -> live v' (de_inum (dent v d k'))) ->
  (de_inum e <> 0 -> live v' (de_inum e)) -> dir_ok v' d'.
Proof.
  intros Hlive Hnew. destruct entry_size as [E E']. split.
  - rewrite E'. split; [unfold DIRENT_SIZE; divlia|]. unfold DIRENT_SIZE in *. lia.
  - apply entry_present.
  - rewrite entry_count. intros k' Hk'. rewrite entry_written by lia. destruct (decide (k' = k)); [done|]. apply Hlive; [lia|done].
Qed.

End Entry.

Section Linked.

Context (dp i : Z) (name : reader) (inum : Z) (k : Z) (v v' : fsys txv).

Let d := inode_at v i.
Let d' := inode_at v' i.
Let K := di_size d / DIRENT_SIZE.

Context (Hdir : dir_ok v d) (Hwd : write_done dp i (new_entry name inum) v (DIRENT_SIZE * k) v')
  (Hk : 0 <= k <= K) (Hfit : DIRENT_SIZE * (Z.max K (k + 1)) <= MAXFILE * BSIZE).

Let linked_count : di_size d' / DIRENT_SIZE = Z.max K (k + 1) := entry_count dp i _ (length_new_entry name inum) k v v' Hdir Hwd.
Let linked_entry : forall k', 0 <= k' < Z.max K (k + 1) -> dent v' d' k' = if decide (k' = k) then new_entry name inum else dent v d k' :=
  entry_written dp i _ (length_new_entry name inum) k v v' Hdir Hwd Hk Hfit.

Context (Hinum : 0 < inum < 2 ^ 16) (Hold : k = K \/ de_inum (dent v d k) = 0) (Hno : forall k', 0 <= k' < K -> ~ dmatch v d name k').

Lemma linked_inum : de_inum (new_entry name inum) = inum.
Proof. rewrite new_entry_inum. unfold u16. apply Z.mod_small. lia. Qed.

Lemma linked_found : dir_find v' d' (cname name (Z.to_nat DIRSIZ)) = Some inum.
Proof.
  rewrite (dir_find_first v' d' name _ k eq_refl).
  - by rewrite linked_entry, decide_True, linked_inum by lia.
  - rewrite linked_count. lia.
  - unfold dmatch. rewrite linked_entry, decide_True, linked_inum, new_entry_name by lia. split; [lia|done].
  - intros k' Hk'. unfold dmatch. rewrite linked_entry, decide_False by lia. apply Hno. lia.
Qed.

Lemma linked_others c : c <> cname name (Z.to_nat DIRSIZ) -> dir_find v' d' c = dir_find v d c.
Proof.
  intros Hc. unfold dir_find. rewrite linked_count. fold K.
  assert (entry_named v' d' c k = false) as Hnew.
  { unfold entry_named. rewrite linked_entry, decide_True, new_entry_name by lia. rewrite bool_decide_eq_false_2 by congruence. apply andb_false_r. }
  assert (forall k', 0 <= k' < K -> entry_named v' d' c k' = entry_named v d c k') as Hsame.
  { intros k' Hk'. destruct (decide (k' = k)) as [->|Hne].
    - rewrite Hnew. destruct Hold as [|E]; [lia|]. unfold entry_named. by rewrite E.
    - unfold entry_named. by rewrite linked_entry, decide_False by lia. }
  assert (List.find (entry_named v' d' c) (seqZ 0 (Z.max K (k + 1))) = List.find (entry_named v d c) (seqZ 0 K)) as ->.
  { rewrite (find_ext (entry_named v d c) (entry_named v' d' c) (seqZ 0 K)) by (intros x Hx%elem_of_seqZ; symmetry; apply Hsame; lia). destruct (decide (k = K)) as [E|Hne].
    - replace (Z.max K (k + 1)) with (K + 1) by lia. rewrite seqZ_app by lia. rewrite find_app. destruct (List.find _ (seqZ 0 K)); [done|].
      assert (seqZ (0 + K) 1 = [k]) as -> by (unfold seqZ; change (seq 0 (Z.to_nat 1)) with [0%nat]; cbn [fmap list_fmap]; f_equal; lia).
      cbn [List.find]. by rewrite Hnew.
    - by replace (Z.max K (k + 1)) with K by lia. }
  pose proof (find_first (entry_named v d c) (seqZ 0 K)) as Hf. destruct (List.find _ _) as [x|]; [|done].
  destruct Hf as (n & Hn & Hx & _). apply lookup_seqZ in Hn as [-> Hn]. rewrite linked_entry by lia.
  rewrite decide_False; [done|]. intros E. rewrite <- Hsame, E, Hnew in Hx by lia. done.
Qed.

Lemma linked_dir_ok : (forall j, live v j -> live v' j) -> live v' inum -> dir_ok v' d'.
Proof.
  intros Hlive Hnew. apply (entry_dir_ok dp i _ (length_new_entry name inum) k v v' Hdir Hwd Hk Hfit); [|by rewrite linked_inum].
  intros k' Hk' _ Hne. by apply Hlive, (do_live _ _ Hdir).
Qed.

End Linked.

(** ** The tree afterwards *)

(** An inode number without an inode has no blocks. *)
Definition spare_ok (v : fsys txv) : Prop :=
  forall j, inum_ok (f_sb v) j -> di_type (inode_at v j) = 0 -> di_addrs (inode_at v j) = replicate (Z.to_nat (NDIRECT + 1)) 0.

(** From [v] to [v'] inode [inum], which was free, became [d], and directory
    [i] got the name [c] for it; nothing else happened to the files. *)
Record made (i : Z) (c : list byte) (inum : Z) (d : dinode) (v v' : fsys txv) : Prop := {
  md_space : space_ok v';
  md_tree : tree_ok v';
  md_spare : spare_ok v';
  md_sb : f_sb v' = f_sb v;
  md_free : inum_ok (f_sb v) inum /\ di_type (inode_at v inum) = 0;
  md_new : inode_at v' inum = d;
  md_found : dir_find v' (inode_at v' i) c = Some inum;
  md_names c' : c' <> c -> dir_find v' (inode_at v' i) c' = dir_find v (inode_at v i) c';
  md_dir : di_type (inode_at v' i) = di_type (inode_at v i) /\ di_nlink (inode_at v' i) = di_nlink (inode_at v i);
  md_other j : inum_ok (f_sb v) j -> j <> i -> j <> inum -> inode_at v' j = inode_at v j /\
    (forall k, slot v' (inode_at v' j) k = slot v (inode_at v j) k) /\
    forall k, 0 <= k < MAXFILE * BSIZE -> hbyte v' (inode_at v' j) k = hbyte v (inode_at v j) k;
}.

Lemma made_fresh i c inum d v v' j : made i c inum d v v' -> live v j -> j <> inum.
Proof. intros Hm Hl ->. destruct (md_free _ _ _ _ _ _ Hm) as [_ E]. by destruct (proj2 (proj1 Hl)). Qed.

(** The path that was created leads to the new inode. *)
Lemma made_resolves i c inum d v v' : made i c inum d v v' -> tree_ok v -> (forall j, live v j -> live v' j) -> dir_find v (inode_at v i) c = None ->
  forall names start, live v start -> resolve_parent v start names = Some (i, c) -> resolve v' start names = Some inum.
Proof.
  intros Hm Htree Hlive Hnone. induction names as [|n names IH]; intros start Hl; [done|]. cbn [resolve resolve_parent].
  destruct (Z.eqb_spec (di_type (inode_at v start)) T_DIR) as [Ht|]; [|done]. pose proof (Htree start Hl Ht) as Hd.
  assert (di_type (inode_at v' start) = T_DIR /\ forall n', (start = i -> n' <> c) -> dir_find v' (inode_at v' start) n' = dir_find v (inode_at v start) n') as [Ht' Hfind].
  { destruct (decide (start = i)) as [->|Hne].
    - split; [by rewrite (proj1 (md_dir _ _ _ _ _ _ Hm))|]. intros n' Hn. by apply (md_names _ _ _ _ _ _ Hm), Hn.
    - destruct (md_other _ _ _ _ _ _ Hm start (proj1 (proj1 Hl)) Hne (made_fresh _ _ _ _ _ _ _ Hm Hl)) as (E1 & E2 & E3). split; [by rewrite E1|].
      intros n' _. apply dir_find_same; [by rewrite E1|]. apply (dir_kept v _ v' _ Hd); [by rewrite E1|done|done|]. intros k _ _. apply Hlive. }
  rewrite Ht', Z.eqb_refl. destruct names as [|n2 names].
  - intros [= -> <-]. by rewrite (md_found _ _ _ _ _ _ Hm).
  - destruct (dir_find v (inode_at v start) (short_name n)) as [j|] eqn:Ef; [|done]. intros Hp.
    rewrite Hfind, Ef by (intros -> E; congruence). apply IH; [by eapply dir_find_live|done].
Qed.

Lemma stored_trans inum d d' v v1 v2 : f_sb v1 = f_sb v -> stored_inode inum d v v1 -> stored_inode inum d' v1 v2 -> stored_inode inum d' v v2.
Proof.
  intros Hsb [A1 A2 A3 A4 A5] [B1 B2 B3 B4 B5]. rewrite Hsb in *. split; [done|done|..].
  - intros j Hj Hne. by rewrite B3, A3.
  - intros j k Hj. by rewrite B4, A4.
  - intros j k Hj Hk. by rewrite B5, A5.
Qed.

Section Made.

Context (dp i inum k : Z) (name : reader) (d : dinode) (v w v' : fsys txv).

Context (Hok : space_ok v) (Htree : tree_ok v) (Hspare : spare_ok v) (Hi : live v i) (Hdir : di_type (inode_at v i) = T_DIR).
Context (Hin : inum_ok (f_sb v) inum) (H16 : 0 < inum < 2 ^ 16) (Hfree : di_type (inode_at v inum) = 0).
Context (Hsb : f_sb w = f_sb v) (Hst : stored_inode inum d v w) (Hty : di_type d <> 0 /\ di_type d <> T_DIR) (Hln : di_nlink d <> 0).
Context (Hnone : dir_find v (inode_at v i) (cname name (Z.to_nat DIRSIZ)) = None).

Lemma live_fresh j : live v j -> j <> inum.
Proof. intros Hl ->. by destruct (proj2 (proj1 Hl)). Qed.

Lemma stored_live j : live v j -> live w j.
Proof.
  intros Hl. pose proof (live_fresh j Hl) as Hne. pose proof Hl as [[L1 L2] L3]. unfold live, in_table. rewrite Hsb, (st_other _ _ _ _ Hst) by done. done.
Qed.

(** The directories before the entry is added. *)
Lemma stored_dir j : live v j -> di_type (inode_at v j) = T_DIR -> inode_at w j = inode_at v j /\ dir_ok w (inode_at w j) /\
  forall c, dir_find w (inode_at w j) c = dir_find v (inode_at v j) c.
Proof.
  intros Hl Ht. pose proof (live_fresh j Hl) as Hne. pose proof (proj1 (proj1 Hl)) as Hj. pose proof (st_other _ _ _ _ Hst j Hj Hne) as E.
  destruct (dir_kept v (inode_at v j) w (inode_at w j) (Htree j Hl Ht)) as [A B]; [by rewrite E| | |intros k' _ _; apply stored_live|].
  - intros k'. by apply (st_slot _ _ _ _ Hst).
  - intros k' Hk'. by apply (st_byte _ _ _ _ Hst).
  - split; [done|]. split; [done|]. intros c. apply dir_find_same; [by rewrite E|done].
Qed.

Lemma stored_tree : tree_ok w.
Proof.
  intros j [[L1 L2] L3] Ht. rewrite Hsb in L1. destruct (decide (j = inum)) as [->|Hne]; [rewrite (st_at _ _ _ _ Hst) in Ht; by destruct Hty|].
  pose proof (st_other _ _ _ _ Hst j L1 Hne) as E. rewrite E in L2, L3, Ht. by apply stored_dir.
Qed.

Let K := di_size (inode_at w i) / DIRENT_SIZE.

Context (Hk : 0 <= k <= K) (Hfit : DIRENT_SIZE * (K + 1) <= MAXFILE * BSIZE) (Hold : k = K \/ de_inum (dent w (inode_at w i) k) = 0).
Context (Hwd : write_done dp i (new_entry name inum) w (DIRENT_SIZE * k) v').

Lemma made_other j : inum_ok (f_sb v) j -> j <> i -> j <> inum -> inode_at v' j = inode_at v j /\
  (forall k, slot v' (inode_at v' j) k = slot v (inode_at v j) k) /\ forall k, 0 <= k < MAXFILE * BSIZE -> hbyte v' (inode_at v' j) k = hbyte v (inode_at v j) k.
Proof.
  intros Hj Hne Hne'. destruct Hwd as (_ & _ & _ & _ & _ & _ & _ & _ & _ & _ & _ & _ & Hother). destruct (Hother j ltac:(by rewrite Hsb) Hne) as (E1 & E2 & E3).
  split_and!.
  - rewrite E1. by apply (st_other _ _ _ _ Hst).
  - intros k'. rewrite E3. by apply (st_slot _ _ _ _ Hst).
  - intros k' Hk'. rewrite E2 by done. by apply (st_byte _ _ _ _ Hst).
Qed.

Lemma made_new : inode_at v' inum = d.
Proof.
  destruct Hwd as (_ & _ & _ & _ & _ & _ & _ & _ & _ & _ & _ & _ & Hother). destruct (Hother inum ltac:(by rewrite Hsb)) as (E1 & _).
  { intros E. by apply (live_fresh i Hi). }
  rewrite E1. apply Hst.
Qed.

Lemma made_dir : di_type (inode_at v' i) = di_type (inode_at v i) /\ di_nlink (inode_at v' i) = di_nlink (inode_at v i).
Proof.
  destruct Hwd as (_ & _ & _ & _ & _ & _ & _ & E1 & E2 & _). destruct (stored_dir i Hi Hdir) as (E & _). rewrite E1, E2, E. done.
Qed.

Lemma made_live j : live v j -> live v' j.
Proof.
  intros Hl. pose proof (live_fresh j Hl) as Hne. pose proof Hl as [[L1 L2] L3]. destruct Hwd as (_ & Hsb' & _).
  unfold live, in_table. rewrite Hsb', Hsb. destruct (decide (j = i)) as [->|Hj]; [destruct made_dir as [-> ->]; done|].
  destruct (made_other j L1 Hj Hne) as [-> _]. done.
Qed.

Lemma made_by_link : made i (cname name (Z.to_nat DIRSIZ)) inum d v v'.
Proof.
  destruct (stored_dir i Hi Hdir) as (Ei & Hdw & Hfw). pose proof Hwd as (Hsp & Hsb' & _).
  assert (forall k', 0 <= k' < K -> ~ dmatch w (inode_at w i) name k') as Hno by (apply dir_find_absent; by rewrite Hfw).
  assert (live v' inum) as Hnew by (unfold live, in_table; rewrite Hsb', Hsb, made_new; tauto).
  assert (DIRENT_SIZE * Z.max K (k + 1) <= MAXFILE * BSIZE) as Hfit' by (unfold DIRENT_SIZE in *; lia).
  assert (forall j, live w j -> live v' j) as Hlw.
  { intros j Hj. destruct (decide (j = inum)) as [->|Hne]; [done|]. apply made_live. destruct Hj as [[J1 J2] J3]. rewrite Hsb in J1.
    unfold live, in_table. rewrite <- (st_other _ _ _ _ Hst j J1 Hne). done. }
  split; try done.
  - intros j Hl Ht. destruct (decide (j = i)) as [->|Hji]; [by apply (linked_dir_ok dp i name inum k w v')|].
    destruct (decide (j = inum)) as [->|Hjn]; [rewrite made_new in Ht; tauto|]. pose proof Hl as [[L1 L2] L3]. rewrite Hsb', Hsb in L1.
    destruct (made_other j L1 Hji Hjn) as (E1 & E2 & E3). assert (live v j) as Hlj by (unfold live, in_table; rewrite <- E1; done).
    apply (dir_kept v (inode_at v j)); [apply Htree; [done|by rewrite <- E1]|by rewrite E1|done|done|intros k' _ _; apply made_live].
  - intros j Hj Ht. rewrite Hsb', Hsb in Hj. destruct (decide (j = i)) as [->|Hji]; [destruct made_dir as [E _]; rewrite E, Hdir in Ht; done|].
    destruct (decide (j = inum)) as [->|Hjn]; [rewrite made_new in Ht; tauto|]. destruct (made_other j Hj Hji Hjn) as (E1 & _). rewrite E1 in *. by apply Hspare.
  - by rewrite Hsb'.
  - apply made_new.
  - by apply (linked_found dp i name inum k w v').
  - intros c Hc. rewrite <- Hfw. by apply (linked_others dp i name inum k w v').
  - apply made_dir.
  - intros j. apply made_other.
Qed.

End Made.
