(* ===== verification/Mkfs.v ===== *)
(** * The file system image builder: mkfs/mkfs.c

    The image is a host file of whole sectors; a sector on which the host
    cannot seek, read or write makes the program exit.  A file to be copied is
    given by what the successive calls of [read] return.  [exit(1)] and a
    failing assertion are panics; what the program prints is left out.  The
    host is little-endian, like the machine the image is for. *)

From S2P Require Import Prelude CMem Riscv BlockLayer Log Fs.

Definition NINODES : Z := 200.

Definition nbitmap : Z := FSSIZE / (BSIZE * 8) + 1.
Definition ninodeblocks : Z := NINODES / IPB + 1.
Definition nlog : Z := LOGSIZE.
Definition nmeta : Z := 2 + nlog + ninodeblocks + nbitmap.
Definition nblocks : Z := FSSIZE - nmeta.

(** The bytes the pointer [a] stores, read back as one integer. *)
Definition xshort (x : Z) : Z := le_combine [byte.of_Z x; byte.of_Z (Z.shiftr x 8)].
Definition xint (x : Z) : Z :=
  le_combine [byte.of_Z x; byte.of_Z (Z.shiftr x 8); byte.of_Z (Z.shiftr x 16); byte.of_Z (Z.shiftr x 24)].

(** [sb], as [main] fills it. *)
Definition the_super : superblock :=
  mk_superblock FSMAGIC (xint FSSIZE) (xint nblocks) (xint NINODES) (xint nlog) (xint 2) (xint (2 + nlog))
    (xint (2 + nlog + ninodeblocks)).

Definition super_bytes (sb : superblock) : list byte :=
  concat (map (le_split 4) [sb_magic sb; sb_size sb; sb_nblocks sb; sb_ninodes sb; sb_nlog sb; sb_logstart sb; sb_inodestart sb; sb_bmapstart sb]).

(** The image, its length in sectors, and the two allocation counters. *)
Record mkst := mk_mkst { img : Z -> block; img_size : Z; freeinode : Z; freeblock : Z }.

Definition set_img (f : Z -> block) (n : Z) (s : mkst) : mkst := mk_mkst f n (freeinode s) (freeblock s).
Definition set_freeinode (n : Z) (s : mkst) : mkst := mk_mkst (img s) (img_size s) n (freeblock s).
Definition set_freeblock (n : Z) (s : mkst) : mkst := mk_mkst (img s) (img_size s) (freeinode s) n.

Section Mkfs.

(** The host: sectors it fails on, whether it can create the image, and the
    results of reading a file until the end ([None] if it cannot be opened). *)
Context (io_fails : Z -> bool) (creat : list byte -> bool) (host : list byte -> option (list (list byte))).

Notation MK := (M mkst).

(** The sector at [sec * BSIZE], an unsigned product. *)
Definition sector (sec : Z) : Z := u32 (sec * BSIZE) / BSIZE.

Definition wsect (sec : Z) (buf : block) : MK unit :=
  if io_fails (sector sec) then panic "write" else
  modify (fun s => set_img (fset (img s) (sector sec) buf) (Z.max (img_size s) (sector sec + 1)) s).

Definition rsect (sec : Z) : MK block :=
  n <- gets img_size ;;
  if io_fails (sector sec) || (sector sec >=? n) then panic "read" else gets (fun s => img s (sector sec)).

Definition winode (inum : Z) (din : dinode) : MK unit :=
  let bn := IBLOCK inum the_super in
  buf <- rsect bn ;;
  wsect bn (write_dinode buf (DINODE_SIZE * (inum mod IPB)) din).

Definition rinode (inum : Z) : MK dinode :=
  let bn := IBLOCK inum the_super in
  buf <- rsect bn ;;
  ret (read_dinode buf (DINODE_SIZE * (inum mod IPB))).

Definition ialloc (type : Z) : MK Z :=
  inum <- gets freeinode ;;
  modify (set_freeinode (u32 (inum + 1))) ;;;
  winode inum (mk_dinode (s16 (xshort type)) 0 0 (s16 (xshort 1)) (xint 0) (replicate (Z.to_nat (NDIRECT + 1)) 0)) ;;;
  ret inum.

(** [freeblock++] *)
Definition next_block : MK Z :=
  b <- gets freeblock ;;
  modify (set_freeblock (u32 (b + 1))) ;;;
  ret b.

(** The block [x] that holds block [fbn] of the file, and [din] with the
    addresses this allocates. *)
Definition block_for (din : dinode) (fbn : Z) : MK (Z * dinode) :=
  if fbn <? NDIRECT then
    din <- (if xint (addr_at din fbn) =? 0 then b <- next_block ;; ret (with_addr fbn (xint b) din) else ret din) ;;
    ret (xint (addr_at din fbn), din)
  else
    let k := 4 * (fbn - NDIRECT) in
    din <- (if xint (addr_at din NDIRECT) =? 0 then b <- next_block ;; ret (with_addr NDIRECT (xint b) din) else ret din) ;;
    indirect <- rsect (xint (addr_at din NDIRECT)) ;;
    indirect <- (if getf 4 indirect k =? 0 then
                   b <- next_block ;;
                   let indirect := putf 4 indirect k (xint b) in
                   wsect (xint (addr_at din NDIRECT)) indirect ;;;
                   ret indirect
                 else ret indirect) ;;
    ret (xint (getf 4 indirect k), din).

(** The loop of [iappend]; [p] is what is left to append. *)
Fixpoint iappend_loop (din : dinode) (off : Z) (p : list byte) (fuel : nat) : MK (dinode * Z) :=
  let n := Z.of_nat (length p) in
  if n >? 0 then
    match fuel with
    | O => exhausted
    | S f =>
        let fbn := off / BSIZE in
        if negb (fbn <? MAXFILE) then panic "assert" else
        r <- block_for din fbn ;;
        let '(x, din) := r in
        let n1 := Z.min n (u32 ((fbn + 1) * BSIZE - off)) in
        buf <- rsect x ;;
        wsect x (splice (off - fbn * BSIZE) (take (Z.to_nat n1) p) buf) ;;;
        iappend_loop din (u32 (off + n1)) (drop (Z.to_nat n1) p) f
    end
  else ret (din, off).

(** Each turn appends at least one byte. *)
Definition iappend (inum : Z) (p : list byte) : MK unit :=
  din <- rinode inum ;;
  r <- iappend_loop din (xint (di_size din)) p (length p) ;;
  let '(din, off) := r in
  winode inum (with_size (xint off) din).

(** [buf[i/8] = buf[i/8] | (0x1 << (i%8))] for [i] from 0 to [used - 1]. *)
Fixpoint mark_used (i : Z) (left : nat) (buf : block) : block :=
  match left with O => buf | S left' => mark_used (i + 1) left' (set_bit i buf) end.

Definition balloc (used : Z) : MK unit :=
  if negb (used <? BSIZE * 8) then panic "assert" else
  wsect (sb_bmapstart the_super) (mark_used 0 (Z.to_nat used) zero_block).

(** [struct dirent] for the inode, with the name as [strcpy] and [strncpy]
    leave it in a cleared entry. *)
Definition dirent (inum : Z) (name : list byte) : list byte :=
  le_split 2 (xshort inum) ++ name_field (of_list name) (Z.to_nat DIRSIZ).

Definition user_prefix : list byte := map byte.of_Z [117; 115; 101; 114; 47].
Definition c_underscore : byte := byte.of_Z 95.
Definition m_dot : list byte := [Byte.x2e].
Definition m_dotdot : list byte := [Byte.x2e; Byte.x2e].

Fixpoint starts_with (pre l : list byte) : bool :=
  match pre, l with
  | [], _ => true
  | a :: pre', b :: l' => Byte.eqb a b && starts_with pre' l'
  | _ :: _, [] => false
  end.
Definition strip_user (arg : list byte) : list byte := if starts_with user_prefix arg then drop 5 arg else arg.
Definition strip_underscore (name : list byte) : list byte :=
  match name with c :: rest => if Byte.eqb c c_underscore then rest else name | [] => name end.

Fixpoint zero_sectors (i : Z) (left : nat) : MK unit :=
  match left with O => ret tt | S left' => wsect i zero_block ;;; zero_sectors (i + 1) left' end.

(** [while ((cc = read(fd, buf, sizeof(buf))) > 0) iappend(inum, buf, cc)] *)
Fixpoint append_reads (inum : Z) (reads : list (list byte)) : MK unit :=
  match reads with
  | [] => ret tt
  | r :: reads' => if (0 <? length r)%nat then iappend inum r ;;; append_reads inum reads' else ret tt
  end.

(** One turn of the loop over the arguments. *)
Definition add_file (rootino : Z) (arg : list byte) : MK unit :=
  let shortname := strip_user arg in
  if existsb is_slash shortname then panic "assert" else
  match host arg with
  | None => panic "open"
  | Some reads =>
      let shortname := strip_underscore shortname in
      inum <- ialloc T_FILE ;;
      iappend rootino (dirent inum shortname) ;;;
      append_reads inum reads
  end.

Fixpoint add_files (rootino : Z) (args : list (list byte)) : MK unit :=
  match args with [] => ret tt | a :: args' => add_file rootino a ;;; add_files rootino args' end.

(** [exit(0)] is the return of [main]. *)
Definition main (argv : list (list byte)) : MK unit :=
  match argv with
  | _ :: image :: args =>
      if negb (creat image) then panic "open" else
      modify (set_img (fun _ => zero_block) 0) ;;;
      modify (set_freeblock nmeta) ;;;
      zero_sectors 0 (Z.to_nat FSSIZE) ;;;
      wsect 1 (splice 0 (super_bytes the_super) zero_block) ;;;
      rootino <- ialloc T_DIR ;;
      if negb (rootino =? ROOTINO) then panic "assert" else
      iappend rootino (dirent rootino m_dot) ;;;
      iappend rootino (dirent rootino m_dotdot) ;;;
      add_files rootino args ;;;
      din <- rinode rootino ;;
      let off := xint (di_size din) in
      let off := u32 ((off / BSIZE + 1) * BSIZE) in
      winode rootino (with_size (xint off) din) ;;;
      used <- gets freeblock ;;
      balloc (s32 used)
  | _ => panic "usage"
  end.

End Mkfs.

(** The state before [main]: [uint freeinode = 1]. *)
Definition mkst0 : mkst := mk_mkst (fun _ => zero_block) 0 1 0.
