(* ===== verification/MkfsInv.v ===== *)
(** * The layout of an image under construction

    What the image builder keeps true of the blocks it has written: every
    block it has handed out belongs to one file, and the rest is zero. *)

From S2P Require Import Prelude CMem Riscv BlockLayer Log Sleeplock Tx Fs FsBlocks FsInode FsFile FsDir Mkfs.

Lemma xint_u32 x : xint x = u32 x.
Proof.
  unfold xint, u32. change (2 ^ 32) with (2 ^ (Z.of_nat 4 * 8)). rewrite <- le_combine_split. done.
Qed.

Lemma xshort_u16 x : xshort x = u16 x.
Proof.
  unfold xshort, u16. change (2 ^ 16) with (2 ^ (Z.of_nat 2 * 8)). by rewrite <- le_combine_split.
Qed.

(** The image as the kernel sees it. *)
Definition view (B : Z -> block) : fsys txv :=
  mk_fsys (mk_txv B ∅ ∅ ∅) the_super false (fun _ => mk_inode 0 0 0 initsleeplock false (empty_dinode 0)).

(** A file under construction: its inode, the number of its blocks, and its
    contents. *)
Record mfile := mk_mfile { mf_di : dinode; mf_n : Z; mf_c : list byte }.

Definition blocks_of (v : fsys txv) (f : mfile) : list Z :=
  map (faddr v (mf_di f)) (seqZ 0 (mf_n f)) ++ (if addr_at (mf_di f) NDIRECT =? 0 then [] else [addr_at (mf_di f) NDIRECT]).

(** The blocks hold the contents and then zeros; there are no addresses beyond
    them. *)
Record file_ok (v : fsys txv) (f : mfile) : Prop := {
  fo_dinode : dinode_ok (mf_di f);
  fo_n : 0 <= mf_n f <= MAXFILE;
  fo_len : Z.of_nat (length (mf_c f)) <= mf_n f * BSIZE;
  fo_bytes k : 0 <= k < mf_n f * BSIZE -> fbyte v (mf_di f) k = nth (Z.to_nat k) (mf_c f) Byte.x00;
  fo_direct k : mf_n f <= k < NDIRECT -> addr_at (mf_di f) k = 0;
  fo_ind : addr_at (mf_di f) NDIRECT = 0 -> mf_n f <= NDIRECT;
  fo_rest k : addr_at (mf_di f) NDIRECT <> 0 -> NDIRECT <= k < MAXFILE -> mf_n f <= k -> faddr v (mf_di f) k = 0;
}.

Record layout (v : fsys txv) (free : Z) (fs : list mfile) : Prop := {
  ly_files j f : fs !! j = Some f -> file_ok v f;
  ly_perm : Permutation (concat (map (blocks_of v) fs)) (seqZ nmeta (free - nmeta));
  ly_free : nmeta <= free <= FSSIZE;
  ly_zero b : free <= b < FSSIZE -> blk v b = zero_block;
  ly_len b : 0 <= b < FSSIZE -> Z.of_nat (length (blk v b)) = BSIZE;
}.

(** ** Ownership *)

Lemma concat_insert {A B} (g : A -> list B) (l : list A) j x :
  l !! j = Some x -> exists a b, concat (map g l) = a ++ g x ++ b /\ forall y, concat (map g (<[j := y]> l)) = a ++ g y ++ b.
Proof.
  intros H. exists (concat (map g (take j l))), (concat (map g (drop (S j) l))). split.
  - rewrite <- (take_drop_middle l j x H) at 1. by rewrite map_app, concat_app.
  - intros y. rewrite insert_take_drop by (by eapply lookup_lt_Some). by rewrite map_app, concat_app.
Qed.

Lemma nodup_concat_once {A B} (g : A -> list B) (l : list A) j j' x y b : NoDup (concat (map g l)) ->
  l !! j = Some x -> l !! j' = Some y -> b ∈ g x -> b ∈ g y -> j <> j' -> False.
Proof.
  assert (forall l k z, l !! k = Some z -> b ∈ g z -> b ∈ concat (map g l)) as Hc.
  { intros l2 k z Hk Hz. destruct (concat_insert g l2 k z Hk) as (p & q & -> & _). set_solver. }
  revert j j'. induction l as [|a l IH]; intros j j' Hnd Hx Hy Hb Hb' Hne; [done|]. cbn [map concat] in Hnd. apply NoDup_app in Hnd as (_ & Hd & Hnd).
  destruct j as [|j], j' as [|j']; cbn in Hx, Hy.
  - by apply Hne.
  - injection Hx as <-. apply (Hd b); [done|]. by eapply Hc.
  - injection Hy as <-. apply (Hd b); [done|]. by eapply Hc.
  - apply (IH j j'); try done. congruence.
Qed.

Lemma elem_of_blocks v f a :
  a ∈ blocks_of v f <-> (exists k, 0 <= k < mf_n f /\ a = faddr v (mf_di f) k) \/ (a = addr_at (mf_di f) NDIRECT /\ a <> 0).
Proof.
  unfold blocks_of. rewrite elem_of_app, list_elem_of_fmap. setoid_rewrite elem_of_seqZ. split.
  - intros [(k & -> & Hk)|H]; [left; exists k; split; [lia|done]|right].
    destruct (Z.eqb_spec (addr_at (mf_di f) NDIRECT) 0); [set_solver|]. apply list_elem_of_singleton in H. by subst.
  - intros [(k & Hk & ->)|[-> H]]; [left; exists k; split; [done|lia]|right].
    rewrite (proj2 (Z.eqb_neq _ _) H). set_solver.
Qed.

Section Owned.

Context (v : fsys txv) (free : Z) (fs : list mfile) (HL : layout v free fs).

Lemma owned_range j f a : fs !! j = Some f -> a ∈ blocks_of v f -> nmeta <= a < free.
Proof.
  intros Hf Ha. assert (a ∈ seqZ nmeta (free - nmeta)) as H%elem_of_seqZ; [|lia].
  rewrite <- (ly_perm _ _ _ HL). destruct (concat_insert (blocks_of v) fs j f Hf) as (x & y & -> & _). set_solver.
Qed.

Lemma owned_nodup : NoDup (concat (map (blocks_of v) fs)).
Proof. rewrite (ly_perm _ _ _ HL). apply NoDup_seqZ. Qed.

Lemma owned_nodup_file j f : fs !! j = Some f -> NoDup (blocks_of v f).
Proof.
  intros Hf. pose proof owned_nodup as H. destruct (concat_insert (blocks_of v) fs j f Hf) as (x & y & E & _).
  rewrite E in H. by apply NoDup_app in H as (_ & _ & (H & _)%NoDup_app).
Qed.

Lemma owned_once j j' f f' a : fs !! j = Some f -> fs !! j' = Some f' -> a ∈ blocks_of v f -> a ∈ blocks_of v f' -> j = j'.
Proof.
  intros Hf Hf' Ha Ha'. destruct (decide (j = j')) as [|Hne]; [done|exfalso]. by apply (nodup_concat_once (blocks_of v) fs j j' f f' a owned_nodup).
Qed.

Lemma owned_addr j f k : fs !! j = Some f -> 0 <= k < mf_n f -> nmeta <= faddr v (mf_di f) k < free.
Proof. intros Hf Hk. eapply owned_range; [done|]. apply elem_of_blocks. left. by exists k. Qed.

Lemma owned_ind j f : fs !! j = Some f -> addr_at (mf_di f) NDIRECT <> 0 -> nmeta <= addr_at (mf_di f) NDIRECT < free.
Proof. intros Hf Hk. eapply owned_range; [done|]. apply elem_of_blocks. by right. Qed.

(** What the code of kernel/fs.c asks of a file. *)
Lemma layout_mapped j f : fs !! j = Some f -> v_held (fx v) = ∅ -> mapped 0 v (mk_inode 0 0 0 initsleeplock true (mf_di f)) (mf_n f).
Proof.
  intros Hf Hh. pose proof (ly_files _ _ _ HL j f Hf) as Hk.
  pose proof (owned_nodup_file j f Hf) as Hnd. pose proof (ly_free _ _ _ HL).
  assert (forall b, held v b = None) as Hheld by (intros b; unfold held; by rewrite Hh).
  split; cbn; try done.
  - apply Hk.
  - intros bn Hb. pose proof (owned_addr j f bn Hf Hb). change nmeta with 46 in *. lia.
  - intros bn Hb. apply (ly_len _ _ _ HL). pose proof (owned_addr j f bn Hf Hb). change nmeta with 46 in *. lia.
  - intros bn bn' Hb Hb' E. unfold blocks_of in Hnd. apply NoDup_app in Hnd as (Hnd & _ & _).
    assert (Z.to_nat bn = Z.to_nat bn'); [|lia].
    eapply (NoDup_lookup _ _ _ (faddr v (mf_di f) bn) Hnd); rewrite list_lookup_fmap, lookup_seqZ_lt by lia; cbn; f_equal; [|rewrite E]; f_equal; lia.
  - intros HN. assert (addr_at (mf_di f) NDIRECT <> 0) as Hi by (intros Hz%(fo_ind _ _ Hk); lia).
    split; [done|]. split; [done|]. intros bn Hb E. unfold blocks_of in Hnd. rewrite (proj2 (Z.eqb_neq _ _) Hi) in Hnd.
    apply NoDup_app in Hnd as (_ & Hnd & _). apply (Hnd (faddr v (mf_di f) bn)); [|rewrite E; set_solver].
    apply list_elem_of_fmap. exists bn. split; [done|]. apply elem_of_seqZ. lia.
Qed.

End Owned.

(** A file does not see changes to blocks that are not its own. *)
Lemma file_frame v v' f :
  (forall a, a ∈ blocks_of v f -> blk v' a = blk v a) -> (0 <= mf_n f -> addr_at (mf_di f) NDIRECT = 0 -> mf_n f <= NDIRECT) ->
  blocks_of v' f = blocks_of v f /\ (file_ok v f -> file_ok v' f).
Proof.
  intros Hb Hi.
  assert (forall k, addr_at (mf_di f) NDIRECT <> 0 \/ k < NDIRECT -> faddr v' (mf_di f) k = faddr v (mf_di f) k) as Ha.
  { intros k Hk. unfold faddr. destruct (Z.ltb_spec k NDIRECT); [done|]. rewrite Hb; [done|]. apply elem_of_blocks. right. destruct Hk; [done|lia]. }
  assert (forall k, 0 <= k < mf_n f -> faddr v' (mf_di f) k = faddr v (mf_di f) k) as Ha'.
  { intros k Hk. apply Ha. destruct (decide (addr_at (mf_di f) NDIRECT = 0)) as [E|]; [right|by left]. specialize (Hi ltac:(lia) E). lia. }
  split.
  - unfold blocks_of. f_equal. apply map_ext_in. intros k Hk%list_elem_of_In%elem_of_seqZ. apply Ha'. lia.
  - intros [H1 H2 H3 H4 H5 H6 H7]. split; try done.
    + intros k Hk. rewrite <- H4 by done. assert (0 <= k / BSIZE < mf_n f) by (unfold BSIZE in *; divlia). unfold fbyte. rewrite Ha' by done.
      rewrite Hb; [done|]. apply elem_of_blocks. left. by exists (k / BSIZE).
    + intros k H0 Hk Hn. rewrite Ha by (by left). by apply H7.
Qed.

(** ** Changing one file *)

Lemma layout_update v free fs j f v' free' f' :
  layout v free fs -> fs !! j = Some f -> file_ok v' f' ->
  Permutation (blocks_of v' f') (blocks_of v f ++ seqZ free (free' - free)) ->
  free <= free' <= FSSIZE ->
  (forall b, b ∉ blocks_of v f -> b < free -> blk v' b = blk v b) ->
  (forall b, free' <= b < FSSIZE -> blk v' b = zero_block) ->
  (forall b, 0 <= b < FSSIZE -> length (blk v' b) = length (blk v b)) ->
  layout v' free' (<[j := f']> fs).
Proof.
  intros HL Hf Hok Hp Hfree Hfr Hz Hlen.
  assert (forall i g, i <> j -> fs !! i = Some g -> blocks_of v' g = blocks_of v g /\ (file_ok v g -> file_ok v' g)) as Hother.
  { intros i g Hne Hg. apply file_frame.
    - intros a Ha. apply Hfr; [|by eapply (owned_range v free fs HL)]. intros Ha'. by apply Hne, (owned_once v free fs HL i j g f a).
    - intros _. apply (ly_files _ _ _ HL i g Hg). }
  assert (concat (map (blocks_of v') (<[j := f']> fs)) = concat (map (fun g => g) (<[j := blocks_of v' f']> (map (blocks_of v) fs)))) as E.
  { rewrite map_id. f_equal. apply list_eq. intros i. destruct (decide (i = j)) as [->|Hne].
    - assert (j < length fs)%nat by (by eapply lookup_lt_Some). by rewrite list_lookup_fmap, !list_lookup_insert_eq by (rewrite ?length_map; done).
    - rewrite list_lookup_fmap, !list_lookup_insert_ne, list_lookup_fmap by done. destruct (fs !! i) as [g|] eqn:Eg; [|done]. cbn.
      f_equal. by apply (Hother i). }
  split.
  - intros i g Hg. apply list_lookup_insert_Some in Hg as [(-> & <- & _)|(Hne & Hg)]; [done|].
    apply (Hother i g); [done|done|]. by apply (ly_files _ _ _ HL i).
  - rewrite E. destruct (concat_insert (fun g => g) (map (blocks_of v) fs) j (blocks_of v f)) as (x & y & E1 & E2); [by rewrite list_lookup_fmap, Hf|].
    rewrite E2. rewrite map_id in E1. pose proof (ly_perm _ _ _ HL) as HP. rewrite E1 in HP. pose proof (ly_free _ _ _ HL).
    replace (free' - nmeta) with ((free - nmeta) + (free' - free)) by lia. rewrite seqZ_split by lia. rewrite <- HP, Hp.
    replace (nmeta + (free - nmeta)) with free by lia. rewrite <- !app_assoc. apply Permutation_app_head, Permutation_app_head, Permutation_app_comm.
  - pose proof (ly_free _ _ _ HL). lia.
  - done.
  - intros b Hb. rewrite Hlen by done. by apply (ly_len _ _ _ HL).
Qed.

Lemma addr_with_addr k a d k' : 0 <= k' -> 0 <= k < Z.of_nat (length (di_addrs d)) ->
  addr_at (with_addr k a d) k' = if decide (k' = k) then a else addr_at d k'.
Proof.
  intros H' Hk. unfold addr_at, with_addr. cbn. rewrite !nth_lookup. destruct (decide (k' = k)) as [->|Hne].
  - rewrite list_lookup_insert_eq by lia. done.
  - rewrite list_lookup_insert_ne by lia. done.
Qed.

(** Appending bytes to the last block. *)
Lemma layout_write v free fs j f l :
  v_held (fx v) = ∅ -> layout v free fs -> fs !! j = Some f ->
  let off := Z.of_nat (length (mf_c f)) in
  off / BSIZE < mf_n f -> off mod BSIZE + Z.of_nat (length l) <= BSIZE ->
  let a := faddr v (mf_di f) (off / BSIZE) in
  layout (tx (v_write a (splice (off mod BSIZE) l (blk v a))) v) free (<[j := mk_mfile (mf_di f) (mf_n f) (mf_c f ++ l)]> fs).
Proof.
  intros Hh HL Hf off Hn Hfit a. pose proof (layout_mapped v free fs HL j f Hf Hh) as Hm. pose proof (ly_files _ _ _ HL j f Hf) as Hk.
  assert (0 <= off / BSIZE) as H0 by (apply Z.div_pos; unfold BSIZE; lia). pose proof (ly_free _ _ _ HL) as Hfree.
  pose proof (owned_addr v free fs HL j f (off / BSIZE) Hf ltac:(lia)) as Hrange. fold a in Hrange.
  pose proof (written_step 0 _ _ off l v Hm ltac:(lia) Hn Hfit) as Hw. cbn [i_d] in Hw. fold a in Hw. set (v' := tx _ v) in *.
  assert (forall b, blk v' b = if decide (b = a) then splice (off mod BSIZE) l (blk v a) else blk v b) as Hb by done.
  assert (forall k, addr_at (mf_di f) NDIRECT <> 0 \/ k < NDIRECT -> faddr v' (mf_di f) k = faddr v (mf_di f) k) as Ha.
  { intros k Hc. unfold faddr. destruct (Z.ltb_spec k NDIRECT); [done|]. destruct Hc as [Hc|]; [|lia]. rewrite Hb, decide_False; [done|].
    intros E. pose proof (owned_nodup_file v free fs HL j f Hf) as Hnd. unfold blocks_of in Hnd. rewrite (proj2 (Z.eqb_neq _ _) Hc) in Hnd.
    apply NoDup_app in Hnd as (_ & Hnd & _). apply (Hnd a); [|rewrite E; set_solver]. apply list_elem_of_fmap. exists (off / BSIZE). split; [done|].
    apply elem_of_seqZ. lia. }
  eapply layout_update; [exact HL|exact Hf|..].
  - destruct Hk as [K1 K2 K3 K4 K5 K6 K7]. split; cbn [mf_di mf_n mf_c]; try done.
    + rewrite length_app, Nat2Z.inj_add. fold off. unfold BSIZE in *. divlia.
    + intros k Hkk. pose proof (fw_bytes _ _ _ _ _ _ Hw k Hkk) as E. cbn [i_d] in E. rewrite E. unfold patched.
      destruct (Z.leb_spec off k); cbn [andb].
      * destruct (Z.ltb_spec k (off + Z.of_nat (length l))).
        -- rewrite app_nth2 by lia. f_equal. lia.
        -- rewrite K4, !nth_overflow by (rewrite ?length_app; lia). done.
      * rewrite K4, app_nth1 by lia. done.
    + intros k Hi Hkk Hnk. rewrite Ha by (by left). by apply K7.
  - rewrite Z.sub_diag. cbn [seqZ]. rewrite app_nil_r. unfold blocks_of. cbn [mf_di mf_n]. apply Permutation_app_tail.
    erewrite map_ext_in; [done|]. intros k Hk1%list_elem_of_In%elem_of_seqZ. apply Ha.
    destruct (decide (addr_at (mf_di f) NDIRECT = 0)) as [E|]; [right|by left]. apply (fo_ind _ _ Hk) in E. lia.
  - lia.
  - intros b Hnb _. rewrite Hb, decide_False; [done|]. intros ->. apply Hnb, elem_of_blocks. left. by exists (off / BSIZE).
  - intros b Hbz. rewrite Hb, decide_False by lia. by apply (ly_zero _ _ _ HL).
  - intros b _. rewrite Hb. destruct (decide (b = a)) as [->|]; [|done]. apply length_inserts.
Qed.

(** ** Giving a file one more block *)

Lemma seqZ_grow a n : 0 <= n -> seqZ a (n + 1) = seqZ a n ++ [a + n].
Proof. intros. rewrite seqZ_split by lia. by rewrite (seqZ_cons (a + n) 1) by lia. Qed.

(** The bytes of a file after it got the zero block [a] as block [n]. *)
Lemma grown_bytes v v' di di' n c a :
  0 <= n -> (forall k, 0 <= k < n -> faddr v' di' k = faddr v di k /\ blk v' (faddr v di k) = blk v (faddr v di k)) ->
  faddr v' di' n = a -> blk v' a = zero_block -> Z.of_nat (length c) <= n * BSIZE ->
  (forall k, 0 <= k < n * BSIZE -> fbyte v di k = nth (Z.to_nat k) c Byte.x00) ->
  forall k, 0 <= k < (n + 1) * BSIZE -> fbyte v' di' k = nth (Z.to_nat k) c Byte.x00.
Proof.
  intros Hn0 Hold Ha Hz Hc Hb k Hk. unfold fbyte. destruct (decide (k < n * BSIZE)).
  - rewrite <- Hb by lia. unfold fbyte. destruct (Hold (k / BSIZE)) as [-> ->]; [|done]. unfold BSIZE in *. divlia.
  - replace (k / BSIZE) with n by (unfold BSIZE in *; divlia). by rewrite Ha, Hz, nth_zero_block, nth_overflow by lia.
Qed.

Section Grow.

Context (v : fsys txv) (free : Z) (fs : list mfile) (HL : layout v free fs).
Context (j : nat) (f : mfile) (Hf : fs !! j = Some f) (Hroom : free < FSSIZE).

Lemma free_fresh k : 0 <= k < mf_n f -> faddr v (mf_di f) k <> free.
Proof. intros Hk E. pose proof (owned_addr v free fs HL j f k Hf Hk). lia. Qed.

Lemma free_word : 0 < free < 2 ^ 32.
Proof. pose proof (ly_free _ _ _ HL). change nmeta with 46 in *. unfold FSSIZE in *. lia. Qed.

Lemma addrs_len : Z.of_nat (length (di_addrs (mf_di f))) = 13.
Proof. apply (dk_addrs _ (fo_dinode _ _ (ly_files _ _ _ HL j f Hf))). Qed.

Lemma layout_grow v' f' :
  file_ok v' f' -> Permutation (blocks_of v' f') (blocks_of v f ++ [free]) ->
  (forall b, b ∉ blocks_of v f -> b < free -> blk v' b = blk v b) ->
  (forall b, free < b < FSSIZE -> blk v' b = blk v b) ->
  (forall b, 0 <= b < FSSIZE -> length (blk v' b) = length (blk v b)) ->
  layout v' (free + 1) (<[j := f']> fs).
Proof.
  intros Hok Hp Hfr Hz Hlen. eapply layout_update; [exact HL|exact Hf|done| |lia|done| |done].
  - rewrite Hp. replace (free + 1 - free) with 1 by lia. by rewrite (seqZ_cons free 1) by lia.
  - intros b Hb. rewrite Hz by lia. apply (ly_zero _ _ _ HL). lia.
Qed.

Lemma layout_direct : mf_n f < NDIRECT ->
  layout v (free + 1) (<[j := mk_mfile (with_addr (mf_n f) free (mf_di f)) (mf_n f + 1) (mf_c f)]> fs).
Proof.
  intros Hn. pose proof (ly_files _ _ _ HL j f Hf) as [K1 K2 K3 K4 K5 K6 K7]. pose proof addrs_len as Hl. pose proof free_word as Hw.
  assert (forall k, 0 <= k -> k <> mf_n f -> addr_at (with_addr (mf_n f) free (mf_di f)) k = addr_at (mf_di f) k) as Ha.
  { intros k Hk Hne. rewrite addr_with_addr by (unfold NDIRECT in Hn; lia). by rewrite decide_False by lia. }
  assert (addr_at (with_addr (mf_n f) free (mf_di f)) (mf_n f) = free) as Hnew.
  { rewrite addr_with_addr by (unfold NDIRECT in Hn; lia). by rewrite decide_True. }
  assert (forall k, 0 <= k -> k <> mf_n f -> faddr v (with_addr (mf_n f) free (mf_di f)) k = faddr v (mf_di f) k) as Hfa.
  { intros k Hk Hne. unfold faddr. destruct (Z.ltb_spec k NDIRECT); [by apply Ha|]. by rewrite (Ha NDIRECT) by (unfold NDIRECT in *; lia). }
  apply layout_grow; try done.
  - split; cbn [mf_di mf_n mf_c].
    + apply dinode_ok_addr; [done|lia].
    + change MAXFILE with 268 in *. unfold NDIRECT in *. lia.
    + unfold BSIZE in *. lia.
    + apply (grown_bytes v v (mf_di f) _ _ _ free); [lia| | |apply (ly_zero _ _ _ HL); lia|done|done].
      * intros k Hk. split; [|done]. apply Hfa; lia.
      * unfold faddr. by rewrite (proj2 (Z.ltb_lt _ _) Hn).
    + intros k Hk. rewrite Ha by lia. apply K5. lia.
    + rewrite Ha by (unfold NDIRECT in *; lia). lia.
    + rewrite Ha by (unfold NDIRECT in *; lia). intros k Hi Hk Hk2. rewrite Hfa by (unfold NDIRECT in *; lia). apply K7; [done|done|lia].
  - unfold blocks_of. cbn [mf_di mf_n]. rewrite (Ha NDIRECT) by (unfold NDIRECT in *; lia). rewrite seqZ_grow, map_app by lia. cbn [map].
    rewrite Z.add_0_l. replace (faddr v _ (mf_n f)) with free by (unfold faddr; by rewrite (proj2 (Z.ltb_lt _ _) Hn)).
    rewrite <- !app_assoc. erewrite map_ext_in; [apply Permutation_app_head, Permutation_app_comm|].
    intros k Hk%list_elem_of_In%elem_of_seqZ. apply Hfa; lia.
Qed.

Lemma layout_table : addr_at (mf_di f) NDIRECT = 0 -> 
  layout v (free + 1) (<[j := mk_mfile (with_addr NDIRECT free (mf_di f)) (mf_n f) (mf_c f)]> fs).
Proof.
  intros Hn. pose proof (ly_files _ _ _ HL j f Hf) as [K1 K2 K3 K4 K5 K6 K7]. pose proof addrs_len as Hl. pose proof free_word as Hw.
  specialize (K6 Hn). set (di' := with_addr NDIRECT free (mf_di f)).
  assert (forall k, 0 <= k < NDIRECT -> addr_at di' k = addr_at (mf_di f) k) as Ha.
  { intros k Hk. unfold di'. rewrite addr_with_addr by (unfold NDIRECT; lia). by rewrite decide_False by lia. }
  assert (addr_at di' NDIRECT = free) as Hnew.
  { unfold di'. rewrite addr_with_addr by (unfold NDIRECT; lia). by rewrite decide_True. }
  assert (forall k, 0 <= k < NDIRECT -> faddr v di' k = faddr v (mf_di f) k) as Hfa.
  { intros k Hk. unfold faddr. rewrite (proj2 (Z.ltb_lt k NDIRECT)) by lia. by apply Ha. }
  apply layout_grow; try done.
  - split; cbn [mf_di mf_n mf_c]; try done.
    + apply dinode_ok_addr; [done|lia].
    + intros k Hk. rewrite <- K4 by done. unfold fbyte. rewrite Hfa; [done|]. unfold BSIZE in *. divlia.
    + intros k Hk. rewrite Ha by lia. by apply K5.
    + intros k _ Hk _. unfold faddr. rewrite (proj2 (Z.ltb_ge _ _)) by lia. rewrite Hnew, (ly_zero _ _ _ HL) by lia. apply getf_zero_block.
  - unfold blocks_of. cbn [mf_di mf_n]. rewrite Hnew, Hn. rewrite (proj2 (Z.eqb_neq free 0)) by lia. cbn [Z.eqb]. rewrite app_nil_r.
    erewrite map_ext_in; [done|]. intros k Hk%list_elem_of_In%elem_of_seqZ. apply Hfa; lia.
Qed.

Lemma layout_entry : addr_at (mf_di f) NDIRECT <> 0 -> NDIRECT <= mf_n f < MAXFILE ->
  let t := addr_at (mf_di f) NDIRECT in
  layout (tx (v_write t (putf 4 (blk v t) (4 * (mf_n f - NDIRECT)) free)) v) (free + 1) (<[j := mk_mfile (mf_di f) (mf_n f + 1) (mf_c f)]> fs).
Proof.
  intros Hi Hn t. pose proof (ly_files _ _ _ HL j f Hf) as [K1 K2 K3 K4 K5 K6 K7]. pose proof free_word as Hw.
  pose proof (owned_ind v free fs HL j f Hf Hi) as Ht. fold t in Ht, Hi. set (v' := tx _ v).
  pose proof (ly_len _ _ _ HL t ltac:(change nmeta with 46 in *; lia)) as Hlt.
  assert (forall b, blk v' b = if decide (b = t) then putf 4 (blk v t) (4 * (mf_n f - NDIRECT)) free else blk v b) as Hb by done.
  assert (forall k, 0 <= k < MAXFILE -> faddr v' (mf_di f) k = if decide (k = mf_n f) then free else faddr v (mf_di f) k) as Hfa.
  { intros k Hk. unfold faddr. destruct (Z.ltb_spec k NDIRECT); [by rewrite decide_False by lia|]. fold t. rewrite Hb, decide_True by done.
    change MAXFILE with 268 in *. unfold NDIRECT, BSIZE in *. destruct (decide (k = mf_n f)) as [->|Hne].
    - rewrite getf_putf_same by lia. apply u32_small. lia.
    - rewrite getf_putf_other by lia. done. }
  assert (forall k, 0 <= k < mf_n f -> faddr v (mf_di f) k <> t) as Hdt.
  { intros k Hk E. pose proof (owned_nodup_file v free fs HL j f Hf) as Hnd. unfold blocks_of in Hnd. fold t in Hnd. rewrite (proj2 (Z.eqb_neq _ _) Hi) in Hnd.
    apply NoDup_app in Hnd as (_ & Hnd & _). apply (Hnd t); [|set_solver]. rewrite <- E. apply list_elem_of_fmap. exists k. split; [done|].
    apply elem_of_seqZ. lia. }
  apply layout_grow.
  - split; cbn [mf_di mf_n mf_c]; try done.
    + lia.
    + unfold BSIZE in *. lia.
    + apply (grown_bytes v v' (mf_di f) _ _ _ free); [lia| | | |done|done].
      * intros k Hk. rewrite Hfa, decide_False by lia. split; [done|]. rewrite Hb, decide_False; [done|]. by apply Hdt.
      * by rewrite Hfa, decide_True by lia.
      * rewrite Hb, decide_False by lia. apply (ly_zero _ _ _ HL). lia.
    + intros k Hk. apply K5. lia.
    + intros k _ Hk Hk2. rewrite Hfa, decide_False by (unfold NDIRECT in *; lia). apply K7; [done|done|lia].
  - unfold blocks_of. cbn [mf_di mf_n]. fold t. rewrite (proj2 (Z.eqb_neq _ _) Hi). rewrite seqZ_grow, map_app by lia. cbn [map].
    rewrite Z.add_0_l, (Hfa (mf_n f)), decide_True by lia. rewrite <- !app_assoc.
    erewrite map_ext_in; [apply Permutation_app_head, Permutation_app_comm|].
    intros k Hk%list_elem_of_In%elem_of_seqZ. rewrite Hfa, decide_False by lia. done.
  - intros b Hnb _. rewrite Hb, decide_False; [done|]. intros ->. apply Hnb, elem_of_blocks. by right.
  - intros b Hbz. by rewrite Hb, decide_False by lia.
  - intros b _. rewrite Hb. destruct (decide (b = t)) as [->|]; [|done]. apply length_putf.
Qed.

End Grow.

(** The blocks before the data do not matter. *)
Lemma layout_frame v v' free fs :
  (forall b, nmeta <= b -> blk v' b = blk v b) -> (forall b, 0 <= b < FSSIZE -> length (blk v' b) = length (blk v b)) ->
  layout v free fs -> layout v' free fs.
Proof.
  intros Hb Hlen HL. assert (forall j f, fs !! j = Some f -> blocks_of v' f = blocks_of v f /\ (file_ok v f -> file_ok v' f)) as Hf.
  { intros j f Hf. apply file_frame; [|intros _; apply (ly_files _ _ _ HL j f Hf)]. intros a Ha. apply Hb.
    by apply (owned_range v free fs HL j f). }
  split.
  - intros j f Hj. by apply (Hf j), (ly_files _ _ _ HL j).
  - rewrite <- (ly_perm _ _ _ HL). erewrite map_ext_in; [done|]. intros f Hi%list_elem_of_In%list_elem_of_lookup. destruct Hi as [j Hj]. by apply (Hf j).
  - apply HL.
  - intros b Hbz. pose proof (ly_free _ _ _ HL). rewrite Hb by lia. by apply HL.
  - intros b Hbz. rewrite Hlen by done. by apply HL.
Qed.

Lemma view_write B a d free fs : layout (tx (v_write a d) (view B)) free fs -> layout (view (fset B a d)) free fs.
Proof. by apply layout_frame. Qed.

(** Recording the size, and a new file. *)
Lemma layout_size v free fs j f z : layout v free fs -> fs !! j = Some f -> 0 <= z < 2 ^ 32 ->
  layout v free (<[j := mk_mfile (with_size z (mf_di f)) (mf_n f) (mf_c f)]> fs).
Proof.
  intros HL Hf Hz. pose proof (ly_files _ _ _ HL j f Hf) as [K1 K2 K3 K4 K5 K6 K7]. destruct K1.
  eapply layout_update; try done; [|pose proof (ly_free _ _ _ HL); lia|apply HL].
  rewrite Z.sub_diag. cbn [seqZ]. by rewrite app_nil_r.
Qed.

Definition new_file (type : Z) : mfile := mk_mfile (mk_dinode type 0 0 1 0 (replicate (Z.to_nat (NDIRECT + 1)) 0)) 0 [].

Lemma new_file_addr type k : addr_at (mf_di (new_file type)) k = 0.
Proof.
  unfold addr_at. cbn [new_file mf_di di_addrs]. rewrite nth_lookup. destruct (replicate _ _ !! _) eqn:E; [|done].
  by apply lookup_replicate in E as [-> _].
Qed.

Lemma layout_new v free fs type : layout v free fs -> short_ok type -> layout v free (fs ++ [new_file type]).
Proof.
  intros HL Ht. assert (blocks_of v (new_file type) = []) as E by (unfold blocks_of; by rewrite new_file_addr).
  split; [|rewrite map_app, concat_app; cbn [map concat]; rewrite E, !app_nil_r; apply HL|apply HL..].
  - intros j f Hf. apply lookup_app_Some in Hf as [Hf|[_ Hf]]; [by apply (ly_files _ _ _ HL j)|].
    apply list_lookup_singleton_Some in Hf as [_ <-]. split.
    + split; cbn; try done; try (unfold short_ok; lia). by repeat constructor.
    + cbn. change MAXFILE with 268. lia.
    + cbn. lia.
    + cbn. lia.
    + intros k _. apply new_file_addr.
    + cbn. unfold NDIRECT. lia.
    + intros k H. by rewrite new_file_addr in H.
Qed.
