(* ===== verification/MkfsSpec.v ===== *)
(** * What the image builder builds: mkfs/mkfs.c *)

From S2P Require Import Prelude CMem Riscv BlockLayer Log Sleeplock Tx Fs FsBlocks FsInode FsFile FsDir FsSpace Mkfs MkfsInv.

(** [m] returns, and [Q] holds then. *)
Definition runs {S A} (m : M S A) (Q : A -> S -> Prop) (s : S) : Prop := exists a s', m s = Done a s' /\ Q a s'.

Lemma runs_bind {S A B} (m : M S A) (k : A -> M S B) Q s : runs m (fun a => runs (k a) Q) s -> runs (bind m k) Q s.
Proof. intros (a & s1 & E & b & s2 & E2 & H). exists b, s2. by rewrite (bind_Done _ _ _ _ _ E). Qed.

Lemma runs_mono {S A} (m : M S A) (Q Q' : A -> S -> Prop) s : (forall a s', Q a s' -> Q' a s') -> runs m Q s -> runs m Q' s.
Proof. intros H (a & s1 & E & HQ). exists a, s1. auto. Qed.

Lemma runs_ret {S A} (a : A) (Q : A -> S -> Prop) s : Q a s -> runs (ret a) Q s.
Proof. intros H. by exists a, s. Qed.

Lemma runs_gets {S A} (g : S -> A) (Q : A -> S -> Prop) s : Q (g s) s -> runs (gets g) Q s.
Proof. intros H. by exists (g s), s. Qed.

Lemma runs_modify {S} (g : S -> S) (Q : unit -> S -> Prop) s : Q tt (g s) -> runs (modify g) Q s.
Proof. intros H. by exists tt, (g s). Qed.

(** The number of data blocks of [n] bytes, and of all blocks they take. *)
Definition nblk (n : Z) : Z := (n + BSIZE - 1) / BSIZE.
Definition need (n : Z) : Z := nblk n + (if NDIRECT <? nblk n then 1 else 0).

Lemma nblk_step n : 0 <= n -> nblk (n + 1) = n / BSIZE + 1 /\ nblk n = if n mod BSIZE =? 0 then n / BSIZE else n / BSIZE + 1.
Proof. intros H. unfold nblk, BSIZE. destruct (Z.eqb_spec (n mod 1024) 0); divlia. Qed.

Lemma need_mono n m : 0 <= n <= m -> need n <= need m.
Proof.
  intros H. unfold need. assert (nblk n <= nblk m) by (unfold nblk, BSIZE; divlia).
  destruct (Z.ltb_spec NDIRECT (nblk n)), (Z.ltb_spec NDIRECT (nblk m)); lia.
Qed.

Lemma nblk_within n m : 0 <= n -> 0 < m -> n mod BSIZE + m <= BSIZE -> nblk (n + m) = n / BSIZE + 1.
Proof. unfold nblk, BSIZE. intros. divlia. Qed.

(** Between two appends a file has the blocks it needs. *)
Definition settled (f : mfile) : Prop :=
  mf_n f = nblk (Z.of_nat (length (mf_c f))) /\ (addr_at (mf_di f) NDIRECT = 0 <-> mf_n f <= NDIRECT).

(** What allocation keeps of an inode. *)
Definition same_head (d d' : dinode) : Prop :=
  di_type d' = di_type d /\ di_major d' = di_major d /\ di_minor d' = di_minor d /\ di_nlink d' = di_nlink d /\ di_size d' = di_size d.

(** The blocks before the data, and the counters that file data does not
    change. *)
Definition quiet (s s' : mkst) : Prop :=
  (forall b, b < nmeta -> img s' b = img s b) /\ img_size s' = img_size s /\ freeinode s' = freeinode s.

Lemma quiet_refl s : quiet s s.
Proof. done. Qed.

Lemma quiet_trans s1 s2 s3 : quiet s1 s2 -> quiet s2 s3 -> quiet s1 s3.
Proof. intros (A1 & A2 & A3) (B1 & B2 & B3). split_and!; [|congruence|congruence]. intros b Hb. rewrite B1 by done. by apply A1. Qed.

Section Build.

Context (io_fails : Z -> bool) (creat : list byte -> bool) (host : list byte -> option (list (list byte))).
Context (Hio : forall b, io_fails b = false).

Lemma sector_id b : 0 <= b < FSSIZE -> sector b = b.
Proof. unfold sector, FSSIZE, BSIZE. intros H. rewrite u32_small by lia. divlia. Qed.

Lemma runs_rsect b (Q : block -> mkst -> Prop) s : img_size s = FSSIZE -> 0 <= b < FSSIZE -> Q (img s b) s -> runs (rsect io_fails b) Q s.
Proof.
  intros Hs Hb H. unfold rsect. apply runs_bind, runs_gets. rewrite sector_id, Hio, Hs by done. cbn [orb].
  rewrite Z.geb_leb, (proj2 (Z.leb_gt _ _)) by lia. by apply runs_gets.
Qed.

Definition stored_at (b : Z) (d : block) (s : mkst) : mkst := set_img (fset (img s) b d) (img_size s) s.

Lemma runs_wsect b d (Q : unit -> mkst -> Prop) s : img_size s = FSSIZE -> 0 <= b < FSSIZE -> Q tt (stored_at b d s) -> runs (wsect io_fails b d) Q s.
Proof.
  intros Hs Hb H. unfold wsect. rewrite sector_id, Hio by done. apply runs_modify. unfold stored_at in H.
  by rewrite Z.max_l by lia.
Qed.

(** ** One block *)

Definition working (s : mkst) (fs : list mfile) : Prop := layout (view (img s)) (freeblock s) fs /\ img_size s = FSSIZE.

Definition took (s0 : mkst) (fs : list mfile) (j : nat) (f : mfile) (n : Z) (r : Z * dinode) (s : mkst) : Prop :=
  let f' := mk_mfile (snd r) (n / BSIZE + 1) (mf_c f) in
  fst r = faddr (view (img s)) (snd r) (n / BSIZE) /\ working s (<[j := f']> fs) /\
  freeblock s = freeblock s0 + need (n + 1) - need n /\ same_head (mf_di f) (snd r) /\
  (addr_at (snd r) NDIRECT = 0 <-> n / BSIZE + 1 <= NDIRECT) /\ quiet s0 s.

Lemma block_for_direct s fs j f (n := Z.of_nat (length (mf_c f))) :
  working s fs -> fs !! j = Some f -> settled f -> n / BSIZE < NDIRECT -> freeblock s + need (n + 1) - need n <= FSSIZE ->
  runs (block_for io_fails (mf_di f) (n / BSIZE)) (took s fs j f n) s.
Proof.
  intros [HL Hs] Hf [Hn Hi] Hd Hroom. assert (0 <= n) as H0 by lia. pose proof (nblk_step n H0) as [E1 E2]. fold n in Hn.
  pose proof (ly_files _ _ _ HL j f Hf) as Hok. pose proof (ly_free _ _ _ HL) as Hfree. unfold block_for. rewrite (proj2 (Z.ltb_lt _ _) Hd).
  unfold took. rewrite E2 in Hn. assert (0 <= n / BSIZE) by (unfold BSIZE; divlia).
  assert (need (n + 1) - need n = if n mod BSIZE =? 0 then 1 else 0) as En.
  { unfold need. rewrite E1, E2. destruct (Z.eqb_spec (n mod BSIZE) 0); rewrite !(proj2 (Z.ltb_ge _ _)) by lia; lia. }
  rewrite xint_u32. destruct (Z.eqb_spec (n mod BSIZE) 0).
  - assert (addr_at (mf_di f) (n / BSIZE) = 0) as Ea by (apply (fo_direct _ _ Hok); lia). rewrite Ea. cbn [u32 Z.eqb].
    apply runs_bind, runs_bind. unfold next_block. apply runs_bind, runs_gets. apply runs_bind, runs_modify, runs_ret, runs_ret, runs_ret.
    pose proof (free_word _ _ _ HL ltac:(lia)) as Hw. rewrite !xint_u32, (u32_small (freeblock s)) by lia. cbn [fst snd].
    pose proof (layout_direct _ _ _ HL j f Hf ltac:(lia) ltac:(lia)) as HL'. rewrite Hn in HL'.
    pose proof (addrs_len _ _ _ HL j f Hf) as Hal.
    assert (addr_at (with_addr (n / BSIZE) (freeblock s) (mf_di f)) (n / BSIZE) = freeblock s) as Eb.
    { rewrite addr_with_addr by (unfold NDIRECT in *; lia). by rewrite decide_True. }
    rewrite Eb, u32_small by lia. split_and!; try done.
    + unfold faddr. rewrite (proj2 (Z.ltb_lt _ _) Hd). by rewrite Eb.
    + cbn. rewrite u32_small by (unfold FSSIZE in *; lia). by split.
    + cbn. rewrite u32_small by (unfold FSSIZE in *; lia). lia.
    + rewrite addr_with_addr by (unfold NDIRECT in *; lia). rewrite decide_False by lia. rewrite Hi. lia.
  - pose proof (owned_addr _ _ _ HL j f (n / BSIZE) Hf ltac:(lia)) as Ha. unfold faddr in Ha. rewrite (proj2 (Z.ltb_lt _ _) Hd) in Ha.
    change nmeta with 46 in Ha. unfold FSSIZE in *. rewrite u32_small by lia. rewrite (proj2 (Z.eqb_neq _ _)) by lia.
    apply runs_bind, runs_ret, runs_ret. cbn [fst snd]. rewrite xint_u32, u32_small by lia. split_and!; try done.
    + unfold faddr. by rewrite (proj2 (Z.ltb_lt _ _) Hd).
    + rewrite <- Hn. rewrite list_insert_id; [done|]. by destruct f.
    + lia.
    + rewrite Hi. lia.
Qed.

(** The entry of block [n] in the table of indirect blocks. *)
Definition find_entry (din : dinode) (k : Z) : M mkst (Z * dinode) :=
  indirect <- rsect io_fails (xint (addr_at din NDIRECT)) ;;
  indirect <- (if getf 4 indirect k =? 0 then
                 b <- next_block ;;
                 let indirect := putf 4 indirect k (xint b) in
                 wsect io_fails (xint (addr_at din NDIRECT)) indirect ;;;
                 ret indirect
               else ret indirect) ;;
  ret (xint (getf 4 indirect k), din).

Lemma find_entry_new s fs j f :
  working s fs -> fs !! j = Some f -> addr_at (mf_di f) NDIRECT <> 0 -> NDIRECT <= mf_n f < MAXFILE -> freeblock s < FSSIZE ->
  runs (find_entry (mf_di f) (4 * (mf_n f - NDIRECT)))
    (fun r s' => r = (faddr (view (img s')) (mf_di f) (mf_n f), mf_di f) /\ working s' (<[j := mk_mfile (mf_di f) (mf_n f + 1) (mf_c f)]> fs) /\
                 freeblock s' = freeblock s + 1 /\ quiet s s') s.
Proof.
  intros [HL Hs] Hf Hi Hn Hroom. pose proof (ly_files _ _ _ HL j f Hf) as Hok. pose proof (owned_ind _ _ _ HL j f Hf Hi) as Ht.
  pose proof (free_word _ _ _ HL Hroom) as Hw. pose proof (layout_entry _ _ _ HL j f Hf Hroom Hi Hn) as HL'. cbn zeta in HL'.
  pose proof (fo_rest _ _ Hok (mf_n f) Hi Hn ltac:(lia)) as Hz. unfold faddr in Hz. rewrite (proj2 (Z.ltb_ge _ _)) in Hz by lia.
  set (t := addr_at (mf_di f) NDIRECT) in *. assert (xint t = t) as Et by (rewrite xint_u32; apply u32_small; change nmeta with 46 in *; unfold FSSIZE in *; lia).
  pose proof (ly_len _ _ _ HL t ltac:(change nmeta with 46 in *; lia)) as Hlt.
  unfold find_entry. fold t. rewrite Et. apply runs_bind, runs_rsect; [done|change nmeta with 46 in *; lia|].
  change (img s t) with (blk (view (img s)) t). rewrite Hz. cbn [Z.eqb]. apply runs_bind, runs_bind. unfold next_block.
  apply runs_bind, runs_gets, runs_bind, runs_modify, runs_ret. apply runs_bind, runs_wsect; [done|change nmeta with 46 in *; lia|].
  apply runs_ret, runs_ret. rewrite (xint_u32 (freeblock s)), (u32_small (freeblock s)) by lia.
  rewrite getf_putf_same by (change MAXFILE with 268 in *; unfold NDIRECT, BSIZE in *; lia). rewrite xint_u32.
  replace (u32 _) with (freeblock s).
  2: { symmetry. unfold u32. change (2 ^ (8 * Z.of_nat 4)) with (2 ^ 32). rewrite Z.mod_mod by lia. by apply u32_small; lia. }
  split_and!.
  - f_equal. unfold faddr. rewrite (proj2 (Z.ltb_ge _ _)) by lia. cbn. fold t. rewrite fset_eq. change (blk (view (img s)) t) with (img s t) in *.
    rewrite getf_putf_same by (change MAXFILE with 268 in *; unfold NDIRECT, BSIZE in *; lia). symmetry. apply u32_small. lia.
  - split; [|done]. cbn. rewrite u32_small by (unfold FSSIZE in *; lia). by apply view_write.
  - cbn. rewrite u32_small by (unfold FSSIZE in *; lia). done.
  - split_and!; try done. intros b Hb. cbn. rewrite fset_ne by lia. done.
Qed.

Lemma find_entry_old s fs j f k :
  working s fs -> fs !! j = Some f -> NDIRECT <= k < mf_n f ->
  runs (find_entry (mf_di f) (4 * (k - NDIRECT))) (fun r s' => r = (faddr (view (img s)) (mf_di f) k, mf_di f) /\ s' = s) s.
Proof.
  intros [HL Hs] Hf Hk. pose proof (ly_files _ _ _ HL j f Hf) as Hok.
  assert (addr_at (mf_di f) NDIRECT <> 0) as Hi by (intros E%(fo_ind _ _ Hok); lia).
  pose proof (owned_ind _ _ _ HL j f Hf Hi) as Ht. pose proof (owned_addr _ _ _ HL j f k Hf ltac:(unfold NDIRECT in *; lia)) as Ha.
  pose proof (ly_free _ _ _ HL). set (t := addr_at (mf_di f) NDIRECT) in *.
  assert (xint t = t) as Et by (rewrite xint_u32; apply u32_small; change nmeta with 46 in *; unfold FSSIZE in *; lia).
  unfold find_entry. fold t. rewrite Et. apply runs_bind, runs_rsect; [done|change nmeta with 46 in *; lia|].
  unfold faddr in *. rewrite (proj2 (Z.ltb_ge _ _)) in * by lia. fold t in Ha. fold t.
  change (img s t) with (blk (view (img s)) t). change nmeta with 46 in *. rewrite (proj2 (Z.eqb_neq _ _)) by lia.
  apply runs_bind, runs_ret, runs_ret. rewrite xint_u32, u32_small by (unfold FSSIZE in *; lia). done.
Qed.

Lemma block_for_indirect s fs j f (n := Z.of_nat (length (mf_c f))) :
  working s fs -> fs !! j = Some f -> settled f -> NDIRECT <= n / BSIZE < MAXFILE -> freeblock s + need (n + 1) - need n <= FSSIZE ->
  runs (block_for io_fails (mf_di f) (n / BSIZE)) (took s fs j f n) s.
Proof.
  intros [HL Hs] Hf [Hn Hi] Hd Hroom. assert (0 <= n) as H0 by lia. pose proof (nblk_step n H0) as [E1 E2]. fold n in Hn.
  pose proof (ly_files _ _ _ HL j f Hf) as Hok. pose proof (ly_free _ _ _ HL) as Hfree. unfold block_for. rewrite (proj2 (Z.ltb_ge _ _)) by lia.
  rewrite E2 in Hn.
  assert (need (n + 1) - need n = if n mod BSIZE =? 0 then if n / BSIZE =? NDIRECT then 2 else 1 else 0) as En.
  { unfold need. rewrite E1, E2. destruct (Z.eqb_spec (n mod BSIZE) 0), (Z.eqb_spec (n / BSIZE) NDIRECT);
      rewrite ?(proj2 (Z.ltb_lt NDIRECT (n / BSIZE + 1))) by lia; try lia.
    - rewrite (proj2 (Z.ltb_ge _ _)) by lia. lia.
    - rewrite (proj2 (Z.ltb_lt _ _)) by lia. lia. }
  destruct (Z.eqb_spec (n mod BSIZE) 0); [destruct (Z.eqb_spec (n / BSIZE) NDIRECT) as [Ed|Ed]|].
  - assert (addr_at (mf_di f) NDIRECT = 0) as Ea by (apply Hi; lia). rewrite Ea. change (xint 0 =? 0) with true. cbn iota.
    apply runs_bind, runs_bind. unfold next_block at 1. apply runs_bind, runs_gets, runs_bind, runs_modify, runs_ret, runs_ret.
    pose proof (free_word _ _ _ HL ltac:(lia)) as Hw. rewrite (xint_u32 (freeblock s)), (u32_small (freeblock s)), (u32_small (freeblock s + 1)) by (unfold FSSIZE in *; lia).
    pose proof (layout_table _ _ _ HL j f Hf ltac:(lia) Ea) as HL'. pose proof (addrs_len _ _ _ HL j f Hf) as Hal.
    set (di' := with_addr NDIRECT (freeblock s) (mf_di f)) in *. set (s1 := set_freeblock (freeblock s + 1) s).
    assert (addr_at di' NDIRECT = freeblock s) as Eb by (unfold di'; rewrite addr_with_addr by (unfold NDIRECT; lia); by rewrite decide_True).
    assert (j < length fs)%nat as Hj by (by eapply lookup_lt_Some).
    eapply runs_mono; [|rewrite <- Hn; exact (find_entry_new s1 (<[j := mk_mfile di' (mf_n f) (mf_c f)]> fs) j (mk_mfile di' (mf_n f) (mf_c f))
      (conj HL' Hs) (list_lookup_insert_eq _ _ _ Hj) ltac:(cbn [mf_di]; rewrite Eb; lia) ltac:(cbn; lia) ltac:(cbn; lia))].
    cbn [mf_di mf_n mf_c]. intros r s' (-> & Hw' & Hfb & Hq). unfold took. cbn [fst snd]. rewrite list_insert_insert_eq, Hn in Hw'. rewrite Hn.
    split; [done|]. split; [done|]. split; [cbn in Hfb; lia|]. split; [done|]. split; [rewrite Eb; lia|]. exact Hq.
  - assert (addr_at (mf_di f) NDIRECT <> 0) as Ea by (rewrite Hi; lia). pose proof (owned_ind _ _ _ HL j f Hf Ea) as Ht.
    change nmeta with 46 in *. rewrite xint_u32, u32_small, (proj2 (Z.eqb_neq _ _)) by (unfold FSSIZE in *; lia). apply runs_bind, runs_ret.
    eapply runs_mono; [|rewrite <- Hn; exact (find_entry_new s fs j f (conj HL Hs) Hf Ea ltac:(lia) ltac:(lia))].
    intros r s' (-> & Hw' & Hfb & Hq). unfold took. cbn [fst snd]. rewrite Hn in *.
    split; [done|]. split; [done|]. split; [lia|]. split; [done|]. split; [rewrite Hi; lia|]. exact Hq.
  - assert (addr_at (mf_di f) NDIRECT <> 0) as Ea by (rewrite Hi; lia). pose proof (owned_ind _ _ _ HL j f Hf Ea) as Ht.
    change nmeta with 46 in *. rewrite xint_u32, u32_small, (proj2 (Z.eqb_neq _ _)) by (unfold FSSIZE in *; lia). apply runs_bind, runs_ret.
    eapply runs_mono; [|exact (find_entry_old s fs j f (n / BSIZE) (conj HL Hs) Hf ltac:(lia))].
    intros r s' (-> & ->). unfold took. cbn [fst snd]. rewrite <- Hn, list_insert_id by (by destruct f).
    split; [done|]. split; [done|]. split; [lia|]. split; [done|]. split; [done|]. done.
Qed.

Lemma block_for_spec s fs j f (n := Z.of_nat (length (mf_c f))) :
  working s fs -> fs !! j = Some f -> settled f -> n / BSIZE < MAXFILE -> freeblock s + need (n + 1) - need n <= FSSIZE ->
  runs (block_for io_fails (mf_di f) (n / BSIZE)) (took s fs j f n) s.
Proof.
  intros. destruct (decide (n / BSIZE < NDIRECT)); [by apply block_for_direct|apply block_for_indirect; try done; fold n; lia].
Qed.

(** ** Appending *)

Definition appended (s0 : mkst) (fs : list mfile) (j : nat) (f : mfile) (p : list byte) (di' : dinode) (s : mkst) : Prop :=
  let n := Z.of_nat (length (mf_c f)) in
  let f' := mk_mfile di' (nblk (n + Z.of_nat (length p))) (mf_c f ++ p) in
  working s (<[j := f']> fs) /\ settled f' /\ same_head (mf_di f) di' /\
  freeblock s = freeblock s0 + need (n + Z.of_nat (length p)) - need n /\ quiet s0 s.

Lemma appended_nothing s fs j f : working s fs -> fs !! j = Some f -> settled f -> appended s fs j f [] (mf_di f) s.
Proof.
  intros Hw Hf Hst. pose proof Hst as [Hn _]. unfold appended. cbn [length]. rewrite Z.add_0_r, app_nil_r, <- Hn.
  destruct f as [d n c]. cbn [mf_di mf_n mf_c] in *. rewrite list_insert_id by done.
  split; [done|]. split; [done|]. split; [done|]. split; [lia|done].
Qed.

Lemma appended_trans s0 s1 s2 fs j f p q d1 d2 :
  appended s0 fs j f p d1 s1 ->
  appended s1 (<[j := mk_mfile d1 (nblk (Z.of_nat (length (mf_c f)) + Z.of_nat (length p))) (mf_c f ++ p)]> fs) j
    (mk_mfile d1 (nblk (Z.of_nat (length (mf_c f)) + Z.of_nat (length p))) (mf_c f ++ p)) q d2 s2 ->
  appended s0 fs j f (p ++ q) d2 s2.
Proof.
  intros (A1 & A2 & A3 & A4 & A5). unfold appended. cbn [mf_di mf_c]. rewrite list_insert_insert_eq, <- app_assoc, !length_app, !Nat2Z.inj_add, Z.add_assoc.
  intros (B1 & B2 & B3 & B4 & B5). split; [done|]. split; [done|]. split; [|split; [lia|by eapply quiet_trans]].
  destruct A3 as (?&?&?&?&?), B3 as (?&?&?&?&?). unfold same_head in *. cbn [mf_di] in *. split_and!; congruence.
Qed.

(** One turn of the loop. *)
Lemma append_block s fs j f l (n := Z.of_nat (length (mf_c f))) :
  working s fs -> fs !! j = Some f -> settled f -> n / BSIZE < MAXFILE -> (0 < length l)%nat -> n mod BSIZE + Z.of_nat (length l) <= BSIZE ->
  freeblock s + need (n + 1) - need n <= FSSIZE ->
  runs (r <- block_for io_fails (mf_di f) (n / BSIZE) ;;
        buf <- rsect io_fails (fst r) ;;
        wsect io_fails (fst r) (splice (n - n / BSIZE * BSIZE) l buf) ;;;
        ret (snd r)) (appended s fs j f l) s.
Proof.
  intros Hw Hf Hst Hmax Hl Hfit Hroom. apply runs_bind. eapply runs_mono; [|by apply (block_for_spec s fs j f)].
  intros [x di'] s1 (Ex & [HL1 Hs1] & Hfb & Hh & Hi & Hq). cbn [fst snd] in Ex, HL1, Hh, Hi. fold n in Ex, HL1, Hfb, Hi.
  set (f1 := mk_mfile di' (n / BSIZE + 1) (mf_c f)) in *. assert (j < length fs)%nat as Hj by (by eapply lookup_lt_Some).
  assert (0 <= n / BSIZE) by (unfold BSIZE; divlia).
  pose proof (owned_addr _ _ _ HL1 j f1 (n / BSIZE) (list_lookup_insert_eq _ _ _ Hj) ltac:(cbn; lia)) as Hx.
  cbn [mf_di f1] in Hx. rewrite <- Ex in Hx. pose proof (ly_free _ _ _ HL1). change nmeta with 46 in *.
  pose proof (layout_write (view (img s1)) _ _ j f1 l eq_refl HL1 (list_lookup_insert_eq _ _ _ Hj) ltac:(cbn; fold n; lia) ltac:(cbn; fold n; lia)) as HL2.
  cbn [mf_di mf_c mf_n f1] in HL2. fold n in HL2. rewrite <- Ex, list_insert_insert_eq in HL2.
  cbn [fst snd]. apply runs_bind, runs_rsect; [done|lia|]. apply runs_bind, runs_wsect; [done|lia|]. apply runs_ret.
  assert (n - n / BSIZE * BSIZE = n mod BSIZE) as -> by (unfold BSIZE; divlia).
  assert (nblk (n + Z.of_nat (length l)) = n / BSIZE + 1) as En by (apply nblk_within; lia).
  unfold appended. fold n. rewrite En. split; [split; [by apply view_write|done]|].
  split; [split; cbn [mf_n mf_c mf_di]; [by rewrite length_app, Nat2Z.inj_add; fold n; rewrite En|done]|]. split; [done|]. split.
  - cbn [stored_at set_img freeblock]. rewrite Hfb. unfold need. rewrite En. destruct (nblk_step n ltac:(lia)) as [-> _]. done.
  - eapply quiet_trans; [exact Hq|]. split; [|done]. intros b Hb. cbn. change nmeta with 46 in Hb. by rewrite fset_ne by lia.
Qed.

Lemma iappend_loop_spec j : forall fuel p s fs f, let n := Z.of_nat (length (mf_c f)) in
  working s fs -> fs !! j = Some f -> settled f -> (length p <= fuel)%nat -> n + Z.of_nat (length p) <= MAXFILE * BSIZE ->
  freeblock s + need (n + Z.of_nat (length p)) - need n <= FSSIZE ->
  runs (iappend_loop io_fails (mf_di f) n p fuel)
    (fun r s' => snd r = n + Z.of_nat (length p) /\ appended s fs j f p (fst r) s') s.
Proof.
  induction fuel as [|fuel IH]; intros p s fs f n Hw Hf Hst Hfuel Hmax Hroom; cbn [iappend_loop]; destruct p as [|c p]; try (cbn in Hfuel; lia).
  1,2: cbn [length Z.of_nat Z.gtb Z.compare]; apply runs_ret; split; [cbn; lia|]; by apply appended_nothing.
  set (q := c :: p) in *. assert (0 < Z.of_nat (length q)) as Hq by (cbn; lia). rewrite (proj2 (Z.gtb_lt _ _)) by lia.
  assert (n / BSIZE < MAXFILE) as Hm by (unfold BSIZE in *; change MAXFILE with 268 in *; divlia). rewrite (proj2 (Z.ltb_lt _ _) Hm). cbn [negb].
  set (n1 := Z.min _ _). assert (n1 = Z.min (Z.of_nat (length q)) (BSIZE - n mod BSIZE)) as E1.
  { unfold n1. f_equal. rewrite u32_small; unfold BSIZE in *; change MAXFILE with 268 in *; divlia. }
  pose proof (Z.mod_pos_bound n BSIZE ltac:(unfold BSIZE; lia)) as Hmod. set (l := take (Z.to_nat n1) q).
  assert (Z.of_nat (length l) = n1) as El by (unfold l; rewrite length_take; lia).
  pose proof (need_mono (n + 1) (n + Z.of_nat (length q)) ltac:(lia)) as Hmono.
  pose proof (append_block s fs j f l Hw Hf Hst Hm ltac:(lia) ltac:(fold n; lia) ltac:(fold n; lia)) as (di' & s1 & E & Ha). fold n in E.
  assert (exists x, (r <- block_for io_fails (mf_di f) (n / BSIZE) ;; let '(x, din) := r in buf <- rsect io_fails x ;;
            wsect io_fails x (splice (n - n / BSIZE * BSIZE) l buf) ;;; iappend_loop io_fails din (u32 (n + n1)) (drop (Z.to_nat n1) q) fuel) s =
          x /\ x = iappend_loop io_fails di' (u32 (n + n1)) (drop (Z.to_nat n1) q) fuel s1) as (x & Ex & Ex').
  { eexists. split; [reflexivity|]. revert E. unfold bind. destruct (block_for _ _ _ s) as [[x d] s'| | |]; cbn [obind]; try done. cbn [fst snd].
    destruct (rsect _ _ s') as [buf s''| | |]; cbn [obind]; try done. destruct (wsect _ _ _ s'') as [[] s3| | |]; cbn [obind]; try done.
    unfold ret. by intros [= -> ->]. }
  unfold runs. rewrite Ex, Ex'. clear Ex Ex' E x.
  pose proof Ha as (A1 & A2 & A3 & A4 & A5). fold n in A1, A2, A4. rewrite El in *. set (f2 := mk_mfile di' _ _) in *.
  assert (j < length fs)%nat as Hj by (by eapply lookup_lt_Some).
  assert (Z.of_nat (length (mf_c f2)) = n + n1) as E2 by (cbn [f2 mf_c]; rewrite length_app, Nat2Z.inj_add, El; done).
  assert (Z.of_nat (length (drop (Z.to_nat n1) q)) = Z.of_nat (length q) - n1) as Ed by (rewrite length_drop; lia).
  specialize (IH (drop (Z.to_nat n1) q) s1 (<[j := f2]> fs) f2). cbn zeta in IH. rewrite E2, Ed in IH.
  replace (n + n1 + (Z.of_nat (length q) - n1)) with (n + Z.of_nat (length q)) in IH by lia.
  rewrite u32_small by (unfold BSIZE in *; change MAXFILE with 268 in *; lia).
  destruct (IH A1 (list_lookup_insert_eq _ _ _ Hj) A2 ltac:(lia) Hmax ltac:(lia)) as (r & s2 & E & Er & Hr).
  exists r, s2. split; [exact E|]. split; [done|].
  replace q with (l ++ drop (Z.to_nat n1) q) by apply take_drop. eapply appended_trans; [exact Ha|]. fold n. rewrite El. exact Hr.
Qed.

(** ** The inode table *)

Definition kind (d : dinode) : Z * Z * Z * Z := (di_type d, di_major d, di_minor d, di_nlink d).

(** The blocks before the inodes. *)
Definition head_block (b : Z) : block := if b =? 1 then splice 0 (super_bytes the_super) zero_block else zero_block.

Record disk_ok (s : mkst) (fs : list mfile) : Prop := {
  go_work : working s fs;
  go_inum : freeinode s = 1 + Z.of_nat (length fs) /\ 1 + Z.of_nat (length fs) <= NINODES;
  go_table j f : fs !! j = Some f -> inode_at (view (img s)) (1 + Z.of_nat j) = mf_di f;
  go_file j f : fs !! j = Some f -> settled f /\ di_size (mf_di f) = Z.of_nat (length (mf_c f));
  go_head b : 0 <= b < 2 + nlog -> img s b = head_block b;
  go_rest i : 0 <= i < NINODES -> i < 1 \/ 1 + Z.of_nat (length fs) <= i -> inode_at (view (img s)) i = empty_dinode 0;
}.

Lemma inum_block i : 0 <= i <= NINODES -> 2 + nlog <= IBLOCK i the_super < nmeta /\ 0 <= DINODE_SIZE * (i mod IPB) /\ DINODE_SIZE * (i mod IPB) + DINODE_SIZE <= BSIZE.
Proof.
  unfold IBLOCK. change (sb_inodestart the_super) with 32. change IPB with 16. change nmeta with 46. change (2 + nlog) with 32.
  unfold NINODES, DINODE_SIZE, BSIZE. intros H. rewrite u32_small; divlia.
Qed.

Lemma runs_rinode i (Q : dinode -> mkst -> Prop) s :
  img_size s = FSSIZE -> 0 <= i <= NINODES -> Q (inode_at (view (img s)) i) s -> runs (rinode io_fails i) Q s.
Proof.
  intros Hs Hi H. destruct (inum_block i Hi) as (Hb & _). change nmeta with 46 in *. change (2 + nlog) with 32 in *.
  unfold rinode. apply runs_bind, runs_rsect; [done|unfold FSSIZE; lia|]. by apply runs_ret.
Qed.

(** The inode [i] is now [d]; everything else is as before. *)
Definition inode_put (i : Z) (d : dinode) (fs : list mfile) (s s' : mkst) : Prop :=
  working s' fs /\ inode_at (view (img s')) i = d /\
  (forall i', 0 <= i' <= NINODES -> i' <> i -> inode_at (view (img s')) i' = inode_at (view (img s)) i') /\
  (forall b, b < 2 + nlog -> img s' b = img s b) /\ freeinode s' = freeinode s /\ freeblock s' = freeblock s.

Lemma winode_spec i d fs s : working s fs -> 0 <= i <= NINODES -> dinode_ok d -> runs (winode io_fails i d) (fun _ => inode_put i d fs s) s.
Proof.
  intros [HL Hs] Hi Hd. destruct (inum_block i Hi) as (Hb & Ho & Hfit). set (bn := IBLOCK i the_super) in *. set (o := DINODE_SIZE * (i mod IPB)) in *.
  change nmeta with 46 in *. change (2 + nlog) with 32 in *. pose proof (ly_len _ _ _ HL bn ltac:(unfold FSSIZE; lia)) as Hlen.
  unfold winode. fold bn o. apply runs_bind, runs_rsect; [done|unfold FSSIZE; lia|]. apply runs_wsect; [done|unfold FSSIZE; lia|].
  assert (length (write_dinode (img s bn) o d) = length (img s bn)) as El by (unfold write_dinode; by rewrite length_put_addrs, !length_putf).
  split; [|split; [|split; [|split; [|done]]]].
  - split; [|done]. cbn [stored_at set_img img freeblock]. eapply layout_frame; [..|exact HL].
    + intros b Hb1. change nmeta with 46 in *. cbn. by rewrite fset_ne by lia.
    + intros b _. cbn. destruct (decide (b = bn)) as [->|]; [by rewrite fset_eq|by rewrite fset_ne].
  - unfold inode_at, blk. cbn [view f_sb fx v_blocks stored_at set_img img]. fold bn o. rewrite fset_eq. apply read_write_dinode; [done|done|].
    change (blk (view (img s)) bn) with (img s bn) in Hlen. lia.
  - intros i' Hi' Hne. unfold NINODES in *. apply (inode_at_other (view (img s)) i i' d); try lia; [apply Hd|]. change (0 <= 32 < 2 ^ 31). lia.
  - intros b Hb1. change (2 + nlog) with 32 in Hb1. cbn. by rewrite fset_ne by lia.
Qed.

Lemma disk_room s fs j f : disk_ok s fs -> fs !! j = Some f -> 0 <= 1 + Z.of_nat j <= NINODES.
Proof. intros H Hf%lookup_lt_Some. pose proof (go_inum _ _ H). lia. Qed.

Lemma ialloc_spec type s fs : disk_ok s fs -> 2 + Z.of_nat (length fs) <= NINODES -> 0 <= type < 2 ^ 15 ->
  runs (ialloc io_fails type)
    (fun r s' => r = 1 + Z.of_nat (length fs) /\ disk_ok s' (fs ++ [new_file type]) /\ freeblock s' = freeblock s) s.
Proof.
  intros H Hn Ht. pose proof H as [[HL Hs] [Hi _] H3 H4 H5 H6]. unfold ialloc. apply runs_bind, runs_gets, runs_bind, runs_modify.
  rewrite Hi, xshort_u16. change (s16 (xshort 1)) with 1. change (xint 0) with 0. replace (s16 (u16 type)) with type.
  2: { symmetry. apply s16_wrap. unfold short_ok. lia. }
  change (mk_dinode type 0 0 1 0 _) with (mf_di (new_file type)). assert (short_ok type) as Hsh by (unfold short_ok; lia).
  pose proof (layout_new _ _ _ type HL Hsh) as HL'.
  assert (dinode_ok (mf_di (new_file type))) as Hok by (apply (ly_files _ _ _ HL' (length fs) (new_file type)), list_lookup_middle; done).
  apply runs_bind. eapply runs_mono; [|apply (winode_spec _ _ (fs ++ [new_file type])); [split; [exact HL'|done]|unfold NINODES in *; lia|exact Hok]].
  intros [] s' (W1 & W2 & W3 & W4 & W5 & W6). apply runs_ret. split; [done|]. split; [|done]. split; [done|..].
  - rewrite W5, length_app. cbn. rewrite u32_small by (unfold NINODES in *; lia). lia.
  - intros j f Hf. apply lookup_app_Some in Hf as [Hf|[Hj Hf]].
    + pose proof (disk_room _ _ _ _ H Hf). apply lookup_lt_Some in Hf as Hlt. rewrite W3 by lia. by apply H3.
    + apply list_lookup_singleton_Some in Hf as [E <-]. by replace (Z.of_nat j) with (Z.of_nat (length fs)) by lia.
  - intros j f Hf. apply lookup_app_Some in Hf as [Hf|[Hj Hf]]; [by apply (H4 j)|].
    apply list_lookup_singleton_Some in Hf as [E <-]. split; [|done]. split; [done|]. rewrite new_file_addr. cbn. unfold NDIRECT. lia.
  - intros b Hb. rewrite W4 by lia. by apply H5.
  - intros i Hir Hor. rewrite length_app in Hor. cbn in Hor. rewrite W3 by lia. apply H6; [done|lia].
Qed.

(** The file [j] has grown by [p]. *)
Definition extended (s0 : mkst) (fs : list mfile) (j : nat) (f : mfile) (p : list byte) (s : mkst) : Prop :=
  let n := Z.of_nat (length (mf_c f)) in
  exists f', disk_ok s (<[j := f']> fs) /\ mf_c f' = mf_c f ++ p /\ kind (mf_di f') = kind (mf_di f) /\
  freeblock s = freeblock s0 + need (n + Z.of_nat (length p)) - need n.

Lemma iappend_spec s fs j f p (n := Z.of_nat (length (mf_c f))) :
  disk_ok s fs -> fs !! j = Some f -> n + Z.of_nat (length p) <= MAXFILE * BSIZE ->
  freeblock s + need (n + Z.of_nat (length p)) - need n <= FSSIZE ->
  runs (iappend io_fails (1 + Z.of_nat j) p) (fun _ => extended s fs j f p) s.
Proof.
  intros H Hf Hmax Hroom. pose proof H as [[HL Hs] Hi H3 H4 H5 H6]. pose proof (disk_room _ _ _ _ H Hf) as Hj. destruct (H4 j f Hf) as [Hst Hsz].
  unfold iappend. apply runs_bind, runs_rinode; [done|done|]. rewrite (H3 j f Hf), Hsz. fold n. change MAXFILE with 268 in *. unfold BSIZE in Hmax.
  rewrite xint_u32, u32_small by lia. apply runs_bind.
  eapply runs_mono; [|apply (iappend_loop_spec j (length p) p s fs f); try done].
  intros [di' off] s1 (Eo & (HL1 & Hs1) & Hst' & Hh & Hfb & Hq1 & Hq2 & Hq3). cbn [fst snd] in *. fold n in Eo, HL1, Hst', Hfb.
  assert (j < length fs)%nat as Hlt by (by eapply lookup_lt_Some). rewrite Eo, xint_u32, u32_small by lia. set (f1 := mk_mfile di' _ _) in *.
  pose proof (layout_size _ _ _ j f1 (n + Z.of_nat (length p)) HL1 (list_lookup_insert_eq _ _ _ Hlt) ltac:(lia)) as HL2.
  rewrite list_insert_insert_eq in HL2. cbn [f1 mf_di mf_n mf_c] in HL2. set (f2 := mk_mfile (with_size _ di') _ _) in *.
  assert (dinode_ok (mf_di f2)) as Hok by (apply (ly_files _ _ _ HL2 j), list_lookup_insert_eq; done).
  eapply runs_mono; [|apply (winode_spec _ _ (<[j := f2]> fs)); [by split|done|exact Hok]].
  intros [] s2 (W1 & W2 & W3 & W4 & W5 & W6). exists f2. split; [|split; [done|split; [|fold n; congruence]]].
  - split; [done|..].
    + rewrite length_insert, W5, Hq3. exact Hi.
    + intros i g Hg. apply list_lookup_insert_Some in Hg as [(<- & <- & _)|(Hne & Hg)]; [done|].
      pose proof (disk_room _ _ _ _ H Hg) as Hir. rewrite W3, <- (H3 i g Hg) by lia. unfold inode_at. f_equal.
      destruct (inum_block _ Hir) as (Hb & _). apply Hq1. apply Hb.
    + intros i g Hg. apply list_lookup_insert_Some in Hg as [(<- & <- & _)|(Hne & Hg)]; [|by apply (H4 i)].
      split; [exact Hst'|]. cbn. rewrite length_app. lia.
    + intros b Hb. rewrite W4, Hq1 by (change nmeta with 46; change (2 + nlog) with 32 in *; lia). by apply H5.
    + intros i Hir Hor. rewrite length_insert in Hor. rewrite W3 by lia. rewrite <- (H6 i Hir Hor). unfold inode_at. f_equal.
      destruct (inum_block i ltac:(lia)) as (Hb & _). apply Hq1. apply Hb.
  - destruct Hh as (?&?&?&?&_). unfold kind. cbn [f2 mf_di with_size di_type di_major di_minor di_nlink]. congruence.
Qed.

(** ** Copying files *)

(** What the loop around [read] sees of a file. *)
Fixpoint read_all (reads : list (list byte)) : list byte :=
  match reads with [] => [] | r :: reads' => if (0 <? length r)%nat then r ++ read_all reads' else [] end.

Lemma extended_nothing s fs j f : disk_ok s fs -> fs !! j = Some f -> extended s fs j f [] s.
Proof.
  intros H Hf. exists f. rewrite list_insert_id, app_nil_r by done. split; [done|]. split; [done|]. split; [done|]. cbn. rewrite Z.add_0_r. lia.
Qed.

Lemma append_reads_spec j : forall reads s fs f, let n := Z.of_nat (length (mf_c f)) in
  disk_ok s fs -> fs !! j = Some f -> n + Z.of_nat (length (read_all reads)) <= MAXFILE * BSIZE ->
  freeblock s + need (n + Z.of_nat (length (read_all reads))) - need n <= FSSIZE ->
  runs (append_reads io_fails (1 + Z.of_nat j) reads) (fun _ => extended s fs j f (read_all reads)) s.
Proof.
  induction reads as [|r reads IH]; intros s fs f n H Hf Hmax Hroom; cbn [append_reads read_all] in *; [by apply runs_ret, extended_nothing|].
  destruct (0 <? length r)%nat; [|by apply runs_ret, extended_nothing]. rewrite length_app, Nat2Z.inj_add, Z.add_assoc in Hmax, Hroom.
  pose proof (need_mono (n + Z.of_nat (length r)) (n + Z.of_nat (length r) + Z.of_nat (length (read_all reads))) ltac:(lia)).
  apply runs_bind. eapply runs_mono; [|apply (iappend_spec s fs j f r H Hf); fold n; lia].
  intros [] s1 (f1 & H1 & E1 & K1 & F1). fold n in F1.
  assert (Z.of_nat (length (mf_c f1)) = n + Z.of_nat (length r)) as En by (rewrite E1, length_app; lia).
  eapply runs_mono; [|apply (IH s1 (<[j := f1]> fs) f1 H1); rewrite ?En; [apply list_lookup_insert_eq; by eapply lookup_lt_Some|lia|lia]].
  intros [] s2 (f2 & H2 & E2 & K2 & F2). rewrite En in F2. rewrite list_insert_insert_eq in H2. exists f2. split; [done|].
  split; [by rewrite E2, E1, app_assoc|]. split; [congruence|]. fold n. rewrite length_app, Nat2Z.inj_add, Z.add_assoc. lia.
Qed.

Definition input (arg : list byte) : list byte := match host arg with Some reads => read_all reads | None => [] end.
Definition short (arg : list byte) : list byte := strip_underscore (strip_user arg).

Lemma length_dirent i name : Z.of_nat (length (dirent i name)) = DIRENT_SIZE.
Proof. unfold dirent. by rewrite length_app, length_le_split, length_name_field. Qed.

Definition regular : Z * Z * Z * Z := (T_FILE, 0, 0, 1).

(** An argument that can be copied. *)
Definition arg_ok (arg : list byte) : Prop :=
  existsb is_slash (strip_user arg) = false /\ is_Some (host arg) /\ Z.of_nat (length (input arg)) <= MAXFILE * BSIZE.

Lemma add_file_spec arg s root fl (n := Z.of_nat (length (mf_c root))) (m := Z.of_nat (length (input arg))) :
  disk_ok s (root :: fl) -> arg_ok arg -> 3 + Z.of_nat (length fl) <= NINODES -> n + DIRENT_SIZE <= MAXFILE * BSIZE ->
  freeblock s + need (n + DIRENT_SIZE) - need n + need m <= FSSIZE ->
  runs (add_file io_fails host ROOTINO arg)
    (fun _ s' => exists root' f, disk_ok s' (root' :: fl ++ [f]) /\
       mf_c root' = mf_c root ++ dirent (2 + Z.of_nat (length fl)) (short arg) /\ kind (mf_di root') = kind (mf_di root) /\
       mf_c f = input arg /\ kind (mf_di f) = regular /\
       freeblock s' = freeblock s + need (n + DIRENT_SIZE) - need n + need m) s.
Proof.
  intros H (Hsl & [reads Hr] & Hm) Hin Hn Hroom. unfold add_file. rewrite Hsl, Hr. fold (short arg).
  assert (input arg = read_all reads) as Ei by (unfold input; by rewrite Hr). unfold m in *. rewrite Ei in *.
  pose proof (need_mono 0 (Z.of_nat (length (read_all reads))) ltac:(lia)) as Hpos. change (need 0) with 0 in Hpos.
  apply runs_bind. eapply runs_mono; [|apply (ialloc_spec T_FILE s (root :: fl) H); [cbn [length]; lia|unfold T_FILE; lia]].
  intros i s1 (-> & H1 & F1). replace (1 + Z.of_nat (length (root :: fl))) with (2 + Z.of_nat (length fl)) by (cbn [length]; lia).
  pose proof (length_dirent (2 + Z.of_nat (length fl)) (short arg)) as Ed.
  apply runs_bind. eapply runs_mono; [|apply (iappend_spec s1 _ 0 root _ H1); [done|fold n; rewrite ?Ed; lia..]].
  intros [] s2 (root' & H2 & E2 & K2 & F2). fold n in F2. cbn [insert list_insert app] in H2. rewrite Ed in F2.
  replace (2 + Z.of_nat (length fl)) with (1 + Z.of_nat (length (root' :: fl))) by (cbn [length]; lia).
  eapply runs_mono; [|apply (append_reads_spec (length (root' :: fl)) reads s2 (root' :: fl ++ [new_file T_FILE]) (new_file T_FILE) H2)].
  - intros [] s3 (f & H3 & E3 & K3 & F3). exists root', f.
    replace (<[length (root' :: fl) := f]> (root' :: fl ++ [new_file T_FILE])) with (root' :: fl ++ [f]) in H3.
    2: { change (<[length (root' :: fl) := f]> _) with (root' :: <[length fl := f]> (fl ++ [new_file T_FILE])).
         by rewrite insert_app_r_alt, Nat.sub_diag by done. }
    cbn [new_file mf_c app length] in E3, F3. change (Z.of_nat 0) with 0 in F3. rewrite Z.add_0_l in F3. change (need 0) with 0 in F3. split; [done|]. split; [|split; [done|split; [done|split; [done|lia]]]].
    rewrite E2. do 2 f_equal. cbn [length]. lia.
  - change ((fl ++ [new_file T_FILE]) !! length fl = Some (new_file T_FILE)). by apply list_lookup_middle.
  - cbn [new_file mf_c length]. lia.
  - cbn [new_file mf_c length]. change (need (Z.of_nat 0)) with 0. rewrite Z.add_0_l. lia.
Qed.

(** The entries of the copied files, from inode [i] on. *)
Fixpoint entries (i : Z) (args : list (list byte)) : list byte :=
  match args with [] => [] | a :: args' => dirent i (short a) ++ entries (i + 1) args' end.

Lemma length_entries args : forall i, Z.of_nat (length (entries i args)) = DIRENT_SIZE * Z.of_nat (length args).
Proof. induction args as [|a args IH]; intros i; [done|]. cbn [entries length]. rewrite length_app, Nat2Z.inj_add, IH, length_dirent. lia. Qed.

Fixpoint total_need (args : list (list byte)) : Z :=
  match args with [] => 0 | a :: args' => need (Z.of_nat (length (input a))) + total_need args' end.

Lemma total_need_pos args : 0 <= total_need args.
Proof.
  induction args as [|a args IH]; [done|]. cbn [total_need]. pose proof (need_mono 0 (Z.of_nat (length (input a))) ltac:(lia)) as H.
  change (need 0) with 0 in H. lia.
Qed.

Lemma add_files_spec args : forall s root fl, let n := Z.of_nat (length (mf_c root)) in
  disk_ok s (root :: fl) -> Forall arg_ok args -> 2 + Z.of_nat (length fl) + Z.of_nat (length args) <= NINODES ->
  n + DIRENT_SIZE * Z.of_nat (length args) <= MAXFILE * BSIZE ->
  freeblock s + need (n + DIRENT_SIZE * Z.of_nat (length args)) - need n + total_need args <= FSSIZE ->
  runs (add_files io_fails host ROOTINO args)
    (fun _ s' => exists root' fl', disk_ok s' (root' :: fl ++ fl') /\
       mf_c root' = mf_c root ++ entries (2 + Z.of_nat (length fl)) args /\ kind (mf_di root') = kind (mf_di root) /\
       map mf_c fl' = map input args /\ Forall (fun f => kind (mf_di f) = regular) fl' /\
       freeblock s' = freeblock s + need (n + DIRENT_SIZE * Z.of_nat (length args)) - need n + total_need args) s.
Proof.
  induction args as [|a args IH]; intros s root fl n H Ha Hin Hn Hroom; cbn [add_files entries].
  - apply runs_ret. exists root, []. rewrite !app_nil_r. cbn [length map total_need].
    replace (n + DIRENT_SIZE * Z.of_nat 0) with n by lia. split; [done|]. split; [done|]. split; [done|]. split; [done|]. split; [done|lia].
  - apply Forall_cons in Ha as [Ha Hargs]. cbn [length total_need] in *. pose proof (total_need_pos args) as Hp.
    pose proof (need_mono (n + DIRENT_SIZE) (n + DIRENT_SIZE * Z.of_nat (S (length args))) ltac:(unfold DIRENT_SIZE in *; lia)) as Hm.
    apply runs_bind. eapply runs_mono; [|apply (add_file_spec a s root fl H Ha); fold n; unfold DIRENT_SIZE in *; lia].
    intros [] s1 (root1 & f & H1 & E1 & K1 & E2 & K2 & F1). fold n in F1.
    assert (Z.of_nat (length (mf_c root1)) = n + DIRENT_SIZE) as En by (rewrite E1, length_app, Nat2Z.inj_add, length_dirent; done).
    replace (n + DIRENT_SIZE * Z.of_nat (S (length args))) with (n + DIRENT_SIZE + DIRENT_SIZE * Z.of_nat (length args)) in * by lia.
    eapply runs_mono; [|apply (IH s1 root1 (fl ++ [f]) H1 Hargs); rewrite ?length_app, ?En; cbn [length]; lia].
    intros [] s2 (root2 & fl2 & H2 & E3 & K3 & E4 & K4 & F2). rewrite En in F2. exists root2, (f :: fl2). rewrite <- app_assoc in H2.
    split; [exact H2|]. split.
    { rewrite E3, E1, <- app_assoc, length_app. cbn [length]. do 3 f_equal. lia. }
    split; [congruence|]. split; [cbn [map]; by rewrite E2, E4|]. split; [by constructor|lia].
Qed.

(** ** The whole image *)

Lemma zero_sectors_spec left : forall i s, (forall b, img s b = zero_block) -> img_size s = i -> 0 <= i -> i + Z.of_nat left <= FSSIZE ->
  runs (zero_sectors io_fails i left)
    (fun _ s' => (forall b, img s' b = zero_block) /\ img_size s' = i + Z.of_nat left /\ freeinode s' = freeinode s /\ freeblock s' = freeblock s) s.
Proof.
  induction left as [|left IH]; intros i s Hz Hs Hi Hl; cbn [zero_sectors]; [apply runs_ret; split_and!; try done; lia|].
  apply runs_bind. unfold wsect. rewrite sector_id, Hio by lia. apply runs_modify. set (s1 := set_img _ _ s).
  eapply runs_mono; [|apply (IH (i + 1) s1); [|cbn; lia|lia|lia]].
  - intros [] s' (A & B & C & D). split_and!; try done. lia.
  - intros b. cbn. destruct (decide (b = i)) as [->|]; [by rewrite fset_eq|by rewrite fset_ne].
Qed.

Lemma mark_used_bits left : forall i buf b, length buf = Z.to_nat BSIZE -> 0 <= i -> i + Z.of_nat left <= BPB -> 0 <= b ->
  length (mark_used i left buf) = length buf /\
  bit_clear (mark_used i left buf) b = bit_clear buf b && negb ((i <=? b) && (b <? i + Z.of_nat left)).
Proof.
  induction left as [|left IH]; intros i buf b Hl Hi Hle Hb; cbn [mark_used].
  - split; [done|]. replace ((i <=? b) && _) with false; [by rewrite andb_true_r|]. symmetry. apply andb_false_iff.
    destruct (Z.leb_spec i b); [right; apply Z.ltb_ge; lia|by left].
  - assert (length (set_bit i buf) = length buf) as Es by apply length_put_byte.
    destruct (IH (i + 1) (set_bit i buf) b) as [E1 ->]; [congruence|lia|lia|done|]. split; [congruence|].
    rewrite set_bit_clear; [|unfold in_block; rewrite Hl; unfold BPB, BSIZE in *; divlia|done]. rewrite <- andb_assoc. f_equal.
    destruct (Z.eqb_spec b i), (Z.leb_spec (i + 1) b), (Z.leb_spec i b), (Z.ltb_spec b (i + 1 + Z.of_nat left)), (Z.ltb_spec b (i + Z.of_nat (S left)));
      try done; lia.
Qed.

(** What the finished image holds, file by file. *)
Record image (s : mkst) (args : list (list byte)) (root : mfile) (fl : list mfile) : Prop := {
  im_work : working s (root :: fl);
  im_table j f : (root :: fl) !! j = Some f -> inode_at (view (img s)) (1 + Z.of_nat j) = mf_di f;
  im_settled j f : (root :: fl) !! j = Some f -> settled f;
  im_root : mf_c root = dirent ROOTINO m_dot ++ dirent ROOTINO m_dotdot ++ entries 2 args /\ kind (mf_di root) = (T_DIR, 0, 0, 1) /\
    di_size (mf_di root) = (DIRENT_SIZE * (2 + Z.of_nat (length args)) / BSIZE + 1) * BSIZE;
  im_files : map mf_c fl = map input args;
  im_file j f : fl !! j = Some f -> kind (mf_di f) = regular /\ di_size (mf_di f) = Z.of_nat (length (mf_c f));
  im_head b : 0 <= b < 2 + nlog -> img s b = head_block b;
  im_bits b : 0 <= b < FSSIZE -> bit_clear (img s (sb_bmapstart the_super)) b = negb (b <? freeblock s);
  im_inodes : 2 + Z.of_nat (length fl) <= NINODES;
  im_rest i : 0 <= i < NINODES -> i < 1 \/ 2 + Z.of_nat (length fl) <= i -> inode_at (view (img s)) i = empty_dinode 0;
  im_free : freeblock s = nmeta + need (DIRENT_SIZE * (2 + Z.of_nat (length args))) + total_need args;
}.

(** The image has room for the arguments. *)
Definition fits (args : list (list byte)) : Prop :=
  2 + Z.of_nat (length args) <= NINODES /\
  nmeta + need (DIRENT_SIZE * (2 + Z.of_nat (length args))) + total_need args <= FSSIZE.

Lemma read_zero_dinode off : read_dinode zero_block off = empty_dinode 0.
Proof. unfold read_dinode. rewrite !getf_zero_block, (map_ext _ (fun _ => 0)); [reflexivity|]. intros k. apply getf_zero_block. Qed.

(** The image before the first file. *)
Lemma empty_image s : (forall b, img s b = zero_block) -> img_size s = FSSIZE -> freeinode s = 1 -> freeblock s = nmeta ->
  disk_ok (stored_at 1 (head_block 1) s) [].
Proof.
  intros Hz Hs Hi Hb. split; [|cbn; rewrite Hi; unfold NINODES; lia|done|done| |].
  - split; [|done]. cbn [stored_at set_img img freeblock]. rewrite Hb. split; [done| |unfold FSSIZE; change nmeta with 46; lia|..].
    + by rewrite Z.sub_diag.
    + intros b Hr. change nmeta with 46 in Hr. cbn. rewrite fset_ne by lia. apply Hz.
    + intros b _. cbn. destruct (decide (b = 1)) as [->|]; [by rewrite fset_eq|]. rewrite fset_ne by done. by rewrite Hz.
  - intros b Hr. cbn. destruct (decide (b = 1)) as [->|]; [by rewrite fset_eq|]. rewrite fset_ne, Hz by done.
    unfold head_block. by rewrite (proj2 (Z.eqb_neq b 1)).
  - intros i Hr _. destruct (inum_block i ltac:(lia)) as (Hbl & _). unfold inode_at, blk. cbn [view fx v_blocks f_sb stored_at set_img img].
    change (2 + nlog) with 32 in Hbl. rewrite fset_ne, Hz by lia. apply read_zero_dinode.
Qed.

(** The root directory before the files are added. *)
Lemma root_spec {A} (k : Z -> M mkst A) (Q : A -> mkst -> Prop) s : disk_ok s [] -> freeblock s = nmeta ->
  (forall root s', disk_ok s' [root] -> mf_c root = dirent ROOTINO m_dot ++ dirent ROOTINO m_dotdot ->
     kind (mf_di root) = (T_DIR, 0, 0, 1) -> freeblock s' = nmeta + need (DIRENT_SIZE * 2) -> runs (k ROOTINO) Q s') ->
  runs (rootino <- ialloc io_fails T_DIR ;;
        if negb (rootino =? ROOTINO) then panic "assert" else
        iappend io_fails rootino (dirent rootino m_dot) ;;;
        iappend io_fails rootino (dirent rootino m_dotdot) ;;;
        k rootino) Q s.
Proof.
  intros H Hb Hk. apply runs_bind. eapply runs_mono; [|apply (ialloc_spec T_DIR s [] H); [unfold NINODES; cbn; lia|unfold T_DIR; lia]].
  intros i s1 (-> & H1 & F1). cbn [length Z.of_nat Z.add app] in *. cbn [ROOTINO Z.eqb Pos.eqb negb]. rewrite Hb in F1.
  apply runs_bind. eapply runs_mono; [|apply (iappend_spec s1 _ 0 _ _ H1 eq_refl); cbn; rewrite ?F1; vm_compute; congruence].
  intros [] s2 (r1 & H2 & E2 & K2 & F2). cbn [insert list_insert] in H2.
  apply runs_bind. eapply runs_mono; [|apply (iappend_spec s2 _ 0 _ _ H2 eq_refl); rewrite ?F2, ?F1, ?E2; vm_compute; congruence].
  intros [] s3 (r2 & H3 & E3 & K3 & F3). apply (Hk r2 s3); [exact H3|by rewrite E3, E2|by rewrite K3, K2|].
  rewrite F3, F2, F1, E2. by vm_compute.
Qed.

(** The size of the root directory, and the bitmap. *)
Lemma finish_spec args s root fl :
  disk_ok s (root :: fl) -> mf_c root = dirent ROOTINO m_dot ++ dirent ROOTINO m_dotdot ++ entries 2 args ->
  kind (mf_di root) = (T_DIR, 0, 0, 1) -> map mf_c fl = map input args -> Forall (fun f => kind (mf_di f) = regular) fl ->
  freeblock s = nmeta + need (DIRENT_SIZE * (2 + Z.of_nat (length args))) + total_need args ->
  runs (din <- rinode io_fails ROOTINO ;;
        let off := xint (di_size din) in
        let off := u32 ((off / BSIZE + 1) * BSIZE) in
        winode io_fails ROOTINO (with_size (xint off) din) ;;;
        used <- gets freeblock ;;
        balloc io_fails (s32 used)) (fun _ s' => exists root', image s' args root' fl) s.
Proof.
  intros H Hc Hk Hm Hr Hfb. pose proof H as [[HL Hs] Hi H3 H4 H5 H6]. pose proof (ly_free _ _ _ HL) as Hfree. unfold FSSIZE in Hfree.
  destruct (H4 0%nat root eq_refl) as [Hst Hsz]. pose proof (H3 0%nat root eq_refl) as Hroot. change (1 + Z.of_nat 0) with ROOTINO in Hroot.
  assert (di_size (mf_di root) = DIRENT_SIZE * (2 + Z.of_nat (length args))) as En.
  { rewrite Hsz, Hc, !length_app, !Nat2Z.inj_add, !length_dirent, length_entries. lia. }
  assert (0 <= di_size (mf_di root) <= 16 * 202) as Hb.
  { assert (length args = length fl) as El by (rewrite <- (length_map input args), <- Hm; apply length_map). rewrite En, El.
    cbn [length] in Hi. unfold NINODES, DIRENT_SIZE in *. lia. }
  set (z := (di_size (mf_di root) / BSIZE + 1) * BSIZE). assert (0 <= z < 2 ^ 32) as Hz by (unfold z, BSIZE; divlia).
  apply runs_bind, runs_rinode; [done|unfold ROOTINO, NINODES; lia|]. rewrite Hroot. cbn zeta.
  rewrite (xint_u32 (di_size (mf_di root))), (u32_small (di_size (mf_di root))) by lia. fold z. rewrite (u32_small z), xint_u32, (u32_small z) by lia.
  pose proof (layout_size _ _ _ 0 root z HL eq_refl Hz) as HL2. cbn [insert list_insert] in HL2. set (root' := mk_mfile (with_size z _) _ _) in HL2.
  apply runs_bind. eapply runs_mono; [|apply (winode_spec ROOTINO (mf_di root') (root' :: fl)); [by split|unfold ROOTINO, NINODES; lia|]].
  2: { exact (fo_dinode _ _ (ly_files _ _ _ HL2 0%nat root' eq_refl)). }
  intros [] s1 ([HL3 Hs3] & W2 & W3 & W4 & W5 & W6). apply runs_bind, runs_gets. change nmeta with 46 in Hfree. rewrite W6 in *.
  rewrite s32_small by lia. unfold balloc. rewrite (proj2 (Z.ltb_lt _ _)) by (unfold BSIZE; lia). cbn [negb]. change (sb_bmapstart the_super) with 45 in *.
  apply runs_wsect; [done|unfold FSSIZE; lia|]. set (bits := mark_used _ _ _). set (s2 := stored_at 45 bits s1).
  assert (forall b, 0 <= b -> length bits = length zero_block /\ bit_clear bits b = bit_clear zero_block b && negb ((0 <=? b) && (b <? 0 + Z.of_nat (Z.to_nat (freeblock s))))) as Hbits.
  { intros b Hb0. apply mark_used_bits; [done|lia|unfold BPB, BSIZE; lia|done]. }
  assert (forall b, b <> 45 -> img s2 b = img s1 b) as Him by (intros b Hne; cbn; by rewrite fset_ne).
  assert (forall i, 0 <= i <= NINODES -> inode_at (view (img s2)) i = inode_at (view (img s1)) i) as Hat.
  { intros i Hir. unfold inode_at. f_equal. unfold blk. cbn [view fx v_blocks f_sb]. apply Him. unfold IBLOCK. change (sb_inodestart the_super) with 32.
    change IPB with 16. unfold NINODES in Hir. rewrite u32_small; divlia. }
  exists root'. split.
  - split; [|done]. change (freeblock s2) with (freeblock s1). rewrite W6. eapply layout_frame; [..|exact HL3].
    + intros b Hb1. change nmeta with 46 in Hb1. apply Him. lia.
    + intros b Hb1. unfold blk. cbn [view fx v_blocks]. destruct (decide (b = 45)) as [->|]; [|by rewrite Him].
      cbn. rewrite fset_eq. destruct (Hbits 0 ltac:(lia)) as [-> _]. pose proof (ly_len _ _ _ HL3 45 ltac:(unfold FSSIZE; lia)) as Hl. cbn in Hl.
      change (length zero_block) with (Z.to_nat BSIZE). lia.
  - intros j f Hf. assert (1 + Z.of_nat j <= NINODES) as Hj by (apply lookup_lt_Some in Hf; cbn [length] in *; lia).
    rewrite Hat by lia. destruct j as [|j]; [injection Hf as <-; exact W2|]. rewrite W3 by (unfold ROOTINO; lia). by apply (H3 (S j)).
  - intros [|j] f Hf; [injection Hf as <-; exact Hst|]. by apply (H4 (S j)).
  - split; [done|]. split; [done|]. cbn. unfold z. by rewrite En.
  - done.
  - intros j f Hf. rewrite Forall_lookup in Hr. split; [by eapply Hr|]. by apply (H4 (S j)).
  - intros b Hb1. rewrite Him, W4 by (change (2 + nlog) with 32 in *; lia). by apply H5.
  - intros b Hb1. assert (img s2 (sb_bmapstart the_super) = bits) as -> by (cbn [s2 stored_at set_img img]; apply fset_eq).
    destruct (Hbits b ltac:(lia)) as [_ ->].
    replace (bit_clear zero_block b) with true by (unfold bit_clear, byte_at; by rewrite nth_zero_block).
    change (freeblock s2) with (freeblock s1). rewrite W6, Z2Nat.id, Z.add_0_l, (proj2 (Z.leb_le 0 b)) by lia. done.
  - cbn [length] in Hi. lia.
  - intros i Hir Hor. rewrite Hat, W3 by (unfold ROOTINO; lia). apply H6; [done|]. cbn [length]. lia.
  - change (freeblock s2) with (freeblock s1). by rewrite W6.
Qed.

Lemma main_runs prog out args s :
  creat out = true -> freeinode s = 1 -> Forall arg_ok args -> fits args ->
  runs (main io_fails creat host (prog :: out :: args)) (fun _ s' => exists root fl, image s' args root fl) s.
Proof.
  intros Hc Hi Ha [Hn Hroom]. unfold main. rewrite Hc. cbn [negb]. apply runs_bind, runs_modify, runs_bind, runs_modify.
  apply runs_bind. eapply runs_mono; [|apply (zero_sectors_spec (Z.to_nat FSSIZE) 0); [done|done|lia|unfold FSSIZE; lia]].
  intros [] s1 (Hz & Hs & Hi1 & Hb1). cbn in Hi1, Hb1. rewrite Z2Nat.id, Z.add_0_l in Hs by (unfold FSSIZE; lia).
  apply runs_bind, runs_wsect; [done|unfold FSSIZE; lia|]. change (splice 0 _ zero_block) with (head_block 1).
  pose proof (empty_image s1 Hz Hs ltac:(congruence) Hb1) as H0. set (s2 := stored_at _ _ s1) in *.
  apply root_spec; [exact H0|exact Hb1|]. intros root s3 H1 E1 K1 F1.
  assert (Z.of_nat (length (mf_c root)) = DIRENT_SIZE * 2) as El by (by rewrite E1).
  assert (DIRENT_SIZE * 2 + DIRENT_SIZE * Z.of_nat (length args) = DIRENT_SIZE * (2 + Z.of_nat (length args))) as Et by lia.
  apply runs_bind. eapply runs_mono; [|apply (add_files_spec args s3 root [] H1 Ha); rewrite ?El, ?Et; cbn [length]].
  - intros [] s4 (root' & fl & H2 & E2 & K2 & E3 & K3 & F2). rewrite El, Et in F2. cbn [app length Z.of_nat Z.add] in H2, E2.
    eapply runs_mono; [|apply (finish_spec args s4 root' fl); try done].
    + intros [] s5 [root'' Him]. by exists root'', fl.
    + by rewrite E2, E1, <- app_assoc.
    + by rewrite K2.
    + rewrite F2, F1. lia.
  - lia.
  - change MAXFILE with 268. unfold DIRENT_SIZE, BSIZE, NINODES in *. lia.
  - rewrite F1. lia.
Qed.

End Build.

(** ** The image for the kernel *)

(** All the block addresses of an inode. *)
Definition pointers (v : fsys txv) (d : dinode) : list Z :=
  filter (fun a => a <> 0)
    (di_addrs d ++ (if addr_at d NDIRECT =? 0 then [] else map (fun k => getf 4 (blk v (addr_at d NDIRECT)) (4 * k)) (seqZ 0 NINDIRECT))).

(** They are what the slots name. *)
Lemma pointers_slots v d : dinode_ok d -> pointers v d = filter (fun a => a <> 0) (map (slot v d) (seqZ 0 NSLOT)).
Proof.
  intros Hd. pose proof (dk_addrs _ Hd) as Hl. unfold pointers. change NSLOT with ((NDIRECT + 1) + NINDIRECT).
  rewrite seqZ_split, map_app, !filter_app by done. f_equal.
  - f_equal. apply list_eq. intros j. rewrite list_lookup_fmap. destruct (decide (Z.of_nat j < NDIRECT + 1)) as [Hj|Hj].
    + rewrite lookup_seqZ_lt by done. cbn [fmap option_fmap option_map]. unfold slot, addr_at. rewrite (proj2 (Z.leb_le _ _)) by lia.
      destruct (lookup_lt_is_Some_2 (di_addrs d) j) as [a Ea]; [lia|]. rewrite Ea. f_equal. symmetry. apply nth_lookup_Some. rewrite <- Ea. f_equal. lia.
    + rewrite lookup_seqZ_ge by lia. cbn. apply lookup_ge_None. lia.
  - assert (map (slot v d) (seqZ (0 + (NDIRECT + 1)) NINDIRECT) = map (fun k => if addr_at d NDIRECT =? 0 then 0 else getf 4 (blk v (addr_at d NDIRECT)) (4 * k)) (seqZ 0 NINDIRECT)) as E.
    { apply list_eq. intros j. rewrite !list_lookup_fmap. destruct (decide (Z.of_nat j < NINDIRECT)) as [Hj|Hj]; [|by rewrite !lookup_seqZ_ge by lia].
      rewrite !lookup_seqZ_lt by done. cbn [fmap option_fmap option_map]. f_equal. unfold slot. rewrite (proj2 (Z.leb_gt _ _)) by lia.
      destruct (addr_at d NDIRECT =? 0); [done|]. f_equal. lia. }
    rewrite E. destruct (addr_at d NDIRECT =? 0); [|done]. symmetry. generalize (seqZ 0 NINDIRECT). intros l.
    induction l as [|x l IH]; [done|]. cbn [map]. by rewrite filter_cons_False by tauto.
Qed.

Lemma elem_of_pointers v d b : dinode_ok d -> b ∈ pointers v d <-> b <> 0 /\ exists k, slot_ok k /\ slot v d k = b.
Proof.
  intros Hd. rewrite (pointers_slots v d Hd), list_elem_of_filter, list_elem_of_fmap. unfold slot_ok. split.
  - intros [Hb (k & -> & Hk%elem_of_seqZ)]. split; [done|]. exists k. split; [lia|done].
  - intros [Hb (k & Hk & <-)]. split; [done|]. exists k. split; [done|]. apply elem_of_seqZ. lia.
Qed.

Lemma nodup_filter_map {A} (g : A -> Z) (l : list A) i j x y : NoDup (filter (fun a => a <> 0) (map g l)) ->
  l !! i = Some x -> l !! j = Some y -> g x = g y -> g x <> 0 -> i = j.
Proof.
  revert i j. induction l as [|z l IH]; intros i j Hn Hi Hj E Hne; [done|]. cbn [map] in Hn.
  assert (forall a k, l !! k = Some a -> g a <> 0 -> g a ∈ filter (fun a => a <> 0) (map g l)) as Hin.
  { intros a k Ha Hnz. apply list_elem_of_filter. split; [done|]. apply list_elem_of_fmap. exists a. split; [done|]. by eapply list_elem_of_lookup_2. }
  destruct (decide (g z = 0)) as [E0|E0].
  - rewrite filter_cons_False in Hn by tauto. destruct i, j; cbn in Hi, Hj; simplify_eq; try congruence. f_equal. by apply (IH i j).
  - rewrite filter_cons_True in Hn by done. apply NoDup_cons in Hn as [Hz Hn]. destruct i, j; cbn in Hi, Hj; simplify_eq; try done.
    + exfalso. apply Hz. rewrite E. eapply Hin; [done|congruence].
    + exfalso. apply Hz. rewrite <- E. by eapply Hin.
    + f_equal. by apply (IH i j).
Qed.

(** When the addresses of the first inodes are the blocks from the first data
    block up to [free], each once, and the other inodes have none, the space
    is accounted for. *)
Lemma pointers_accounted v m free : sb_ok (f_sb v) ->
  (forall b, 0 <= b < sb_size (f_sb v) -> Z.of_nat (length (blk v b)) = BSIZE) ->
  0 <= m -> 1 + m <= sb_ninodes (f_sb v) -> dstart (f_sb v) <= free <= sb_size (f_sb v) ->
  (forall i, inum_ok (f_sb v) i -> i < 1 \/ 1 + m <= i -> inode_at v i = empty_dinode 0) ->
  Permutation (concat (map (fun i => pointers v (inode_at v i)) (seqZ 1 m))) (seqZ (dstart (f_sb v)) (free - dstart (f_sb v))) ->
  (forall b, 0 <= b < sb_size (f_sb v) -> blk_free v b = (free <=? b)) -> space_ok v.
Proof.
  intros Hsb Hlen Hm Hmax Hfree Hrest Hperm Hbits. pose proof (dstart_size _ Hsb) as Hds.
  assert (forall i, dinode_ok (inode_at v i)) as Hdi by (intros i; apply read_dinode_ok).
  assert (forall i, 1 <= i < 1 + m -> seqZ 1 m !! Z.to_nat (i - 1) = Some i) as Hseq by (intros i Hi; apply lookup_seqZ; lia).
  assert (NoDup (concat (map (fun i => pointers v (inode_at v i)) (seqZ 1 m)))) as Hnd by (rewrite Hperm; apply NoDup_seqZ).
  assert (forall i k b, owns v (inode_at v) i k b -> 1 <= i < 1 + m /\ b ∈ pointers v (inode_at v i)) as Ho.
  { intros i k b (Hi & Hk & E & Hb). split; [|apply elem_of_pointers; [done|]; split; [done|]; by exists k]. destruct (decide (1 <= i < 1 + m)); [done|].
    rewrite Hrest in E by (done || lia). exfalso. apply Hb. rewrite <- E. unfold slot. assert (forall k, addr_at (empty_dinode 0) k = 0) as Hz.
    { intros k'. unfold addr_at, empty_dinode. cbn [di_addrs]. rewrite nth_lookup. destruct (replicate _ _ !! _) eqn:Er; [|done]. by apply lookup_replicate in Er as [-> _]. }
    rewrite !Hz. by destruct (k <=? NDIRECT). }
  assert (forall i b, 1 <= i < 1 + m -> b ∈ pointers v (inode_at v i) -> dstart (f_sb v) <= b < free) as Hr.
  { intros i b Hi Hb. assert (b ∈ seqZ (dstart (f_sb v)) (free - dstart (f_sb v))) as H%elem_of_seqZ; [|lia]. rewrite <- Hperm.
    destruct (concat_insert (fun i => pointers v (inode_at v i)) _ _ _ (Hseq i Hi)) as (x & y & -> & _). set_solver. }
  split; try done.
  - intros b Hb. rewrite Hbits by lia. apply Z.leb_gt. lia.
  - intros i k b H%Ho. destruct H as [Hi Hb]. pose proof (Hr i b Hi Hb). split; [lia|]. rewrite Hbits by lia. apply Z.leb_gt. lia.
  - intros i k i' k' b H H'. pose proof (Ho _ _ _ H) as [Hi Hb]. pose proof (Ho _ _ _ H') as [Hi' Hb'].
    assert (i = i') as <-.
    { destruct (decide (i = i')) as [|Hne]; [done|exfalso]. eapply (nodup_concat_once (fun i => pointers v (inode_at v i)) _ (Z.to_nat (i - 1)) (Z.to_nat (i' - 1)) i i' b Hnd);
        [by apply Hseq|by apply Hseq|done|done|lia]. }
    split; [done|]. destruct H as (_ & Hk & E & Hz), H' as (_ & Hk' & E' & _).
    destruct (concat_insert (fun i => pointers v (inode_at v i)) _ _ _ (Hseq i Hi)) as (x & y & Ex & _). rewrite Ex in Hnd.
    apply NoDup_app in Hnd as (_ & _ & (Hn & _)%NoDup_app). rewrite (pointers_slots v _ (Hdi i)) in Hn. unfold slot_ok in *.
    pose proof (nodup_filter_map _ _ (Z.to_nat k) (Z.to_nat k') k k' Hn ltac:(apply lookup_seqZ; lia) ltac:(apply lookup_seqZ; lia) ltac:(congruence) ltac:(congruence)). lia.
  - intros b Hb Hf. rewrite Hbits in Hf by lia. apply Z.leb_gt in Hf. assert (b ∈ seqZ (dstart (f_sb v)) (free - dstart (f_sb v))) as Hin by (apply elem_of_seqZ; lia).
    rewrite <- Hperm in Hin. apply list_elem_of_In, in_concat in Hin as (l & (i & <- & Hi%list_elem_of_In%elem_of_seqZ)%in_map_iff & Hb2%list_elem_of_In).
    apply elem_of_pointers in Hb2 as [Hz (k & Hk & E)]; [|done]. exists i, k. split_and!; try done. unfold inum_ok. lia.
Qed.

Lemma filter_nonzero (l : list Z) : Forall (fun x => x <> 0) l -> filter (fun x => x <> 0) l = l.
Proof. induction 1 as [|x l Hx _ IH]; [done|]. by rewrite filter_cons_True, IH. Qed.

Lemma filter_zeros (l : list Z) : Forall (fun x => x = 0) l -> filter (fun x => x <> 0) l = [].
Proof. induction 1 as [|x l Hx _ IH]; [done|]. rewrite filter_cons_False; [done|]. tauto. Qed.

Lemma filter_prefix (g : Z -> Z) a m M : 0 <= m <= M -> (forall k, a <= k < a + m -> g k <> 0) -> (forall k, a + m <= k < a + M -> g k = 0) ->
  filter (fun x => x <> 0) (map g (seqZ a M)) = map g (seqZ a m).
Proof.
  intros Hm Hn Hz. replace M with (m + (M - m)) by lia. rewrite seqZ_split, map_app, filter_app by lia.
  rewrite filter_nonzero, filter_zeros; [apply app_nil_r|..]; apply Forall_forall; intros x Hx%list_elem_of_fmap;
    destruct Hx as (k & -> & Hk%elem_of_seqZ); [apply Hz|apply Hn]; lia.
Qed.

Lemma addrs_map d : Z.of_nat (length (di_addrs d)) = NDIRECT + 1 -> di_addrs d = map (addr_at d) (seqZ 0 NDIRECT) ++ [addr_at d NDIRECT].
Proof.
  intros Hl. change [addr_at d NDIRECT] with (map (addr_at d) [NDIRECT]). rewrite <- map_app.
  change (seqZ 0 NDIRECT ++ [NDIRECT]) with (seqZ 0 (NDIRECT + 1)). apply list_eq. intros i. rewrite list_lookup_fmap.
  destruct (decide (Z.of_nat i < NDIRECT + 1)).
  - rewrite lookup_seqZ_lt by lia. cbn [fmap option_fmap option_map]. unfold addr_at. rewrite Z.add_0_l, Nat2Z.id, nth_lookup.
    destruct (lookup_lt_is_Some_2 (di_addrs d) i ltac:(lia)) as [x ->]. done.
  - rewrite lookup_seqZ_ge, lookup_ge_None_2 by lia. done.
Qed.

(** The addresses in an inode are the blocks of the file. *)
Lemma pointers_blocks v free fs j f : layout v free fs -> fs !! j = Some f -> settled f -> Permutation (pointers v (mf_di f)) (blocks_of v f).
Proof.
  intros HL Hf [_ Hi]. pose proof (ly_files _ _ _ HL j f Hf) as Hok. pose proof (fo_n _ _ Hok) as Hn.
  assert (forall k, 0 <= k < mf_n f -> faddr v (mf_di f) k <> 0) as Hnz.
  { intros k Hk. pose proof (owned_addr _ _ _ HL j f k Hf Hk). change nmeta with 46 in *. lia. }
  unfold pointers. rewrite addrs_map by apply (dk_addrs _ (fo_dinode _ _ Hok)). unfold blocks_of.
  assert (forall k, k < NDIRECT -> faddr v (mf_di f) k = addr_at (mf_di f) k) as Hd by (intros k Hk; unfold faddr; by rewrite (proj2 (Z.ltb_lt _ _))).
  destruct (Z.eqb_spec (addr_at (mf_di f) NDIRECT) 0) as [E|E].
  - apply Hi in E as Hle. rewrite !app_nil_r, filter_app, E. change (filter _ [0]) with (@nil Z). rewrite app_nil_r.
    rewrite (filter_prefix _ 0 (mf_n f)); [|lia|intros k Hk; rewrite <- Hd by lia; apply Hnz; lia|intros k Hk; apply (fo_direct _ _ Hok); lia].
    erewrite map_ext_in; [done|]. intros k Hk%list_elem_of_In%elem_of_seqZ. symmetry. apply Hd. lia.
  - assert (NDIRECT < mf_n f) as Hlt by (destruct (decide (mf_n f <= NDIRECT)) as [Hle|]; [by apply Hi in Hle|lia]).
    assert (map (fun k => getf 4 (blk v (addr_at (mf_di f) NDIRECT)) (4 * k)) (seqZ 0 NINDIRECT) = map (faddr v (mf_di f)) (seqZ NDIRECT NINDIRECT)) as Em.
    { replace (seqZ NDIRECT NINDIRECT) with (map (fun k => NDIRECT + k) (seqZ 0 NINDIRECT)) by reflexivity. rewrite map_map. apply map_ext_in.
      intros k Hk%list_elem_of_In%elem_of_seqZ. unfold faddr. rewrite (proj2 (Z.ltb_ge _ _)) by lia. do 2 f_equal. lia. }
    rewrite Em, !filter_app. rewrite (filter_prefix (addr_at (mf_di f)) 0 NDIRECT); [|unfold NDIRECT; lia| |lia].
    2: { intros k Hk. rewrite <- Hd by lia. apply Hnz. lia. }
    rewrite (filter_prefix _ NDIRECT (mf_n f - NDIRECT)); [|change NINDIRECT with 256; change MAXFILE with 268 in *; unfold NDIRECT in *; lia| |].
    2: { intros k Hk. apply Hnz. unfold NDIRECT in *. lia. }
    2: { intros k Hk. apply (fo_rest _ _ Hok); [done|change NINDIRECT with 256 in *; change MAXFILE with 268; unfold NDIRECT in *; lia|lia]. }
    rewrite filter_nonzero by (by repeat constructor). replace (mf_n f) with (NDIRECT + (mf_n f - NDIRECT)) at 2 by lia.
    rewrite (seqZ_split 0 NDIRECT) by (unfold NDIRECT in *; lia). rewrite map_app, <- !app_assoc. erewrite map_ext_in; [|intros k Hk%list_elem_of_In%elem_of_seqZ; symmetry; apply Hd; lia].
    apply Permutation_app_head, Permutation_app_comm.
Qed.

Lemma content_within v f off m : file_ok v f -> 0 <= off -> 0 <= m -> off + m <= Z.of_nat (length (mf_c f)) ->
  content v (mf_di f) off m = take (Z.to_nat m) (drop (Z.to_nat off) (mf_c f)).
Proof.
  intros Hok Ho Hm Hle. pose proof (fo_len _ _ Hok). unfold content. apply list_eq. intros i. rewrite list_lookup_fmap.
  destruct (decide (Z.of_nat i < m)).
  - rewrite lookup_seqZ_lt, lookup_take_lt, lookup_drop by lia. cbn [fmap option_fmap option_map]. rewrite (fo_bytes _ _ Hok) by lia.
    rewrite nth_lookup. replace (Z.to_nat (off + Z.of_nat i)) with (Z.to_nat off + i)%nat by lia.
    destruct (lookup_lt_is_Some_2 (mf_c f) (Z.to_nat off + i) ltac:(lia)) as [x ->]. done.
  - rewrite lookup_seqZ_ge, lookup_take_ge by lia. done.
Qed.

Lemma content_after v f off m : file_ok v f -> Z.of_nat (length (mf_c f)) <= off -> 0 <= m -> off + m <= mf_n f * BSIZE ->
  content v (mf_di f) off m = replicate (Z.to_nat m) Byte.x00.
Proof.
  intros Hok Ho Hm Hle. unfold content. apply list_eq. intros i. rewrite list_lookup_fmap. destruct (decide (Z.of_nat i < m)).
  - rewrite lookup_seqZ_lt, lookup_replicate_2 by lia. cbn [fmap option_fmap option_map]. rewrite (fo_bytes _ _ Hok) by lia.
    by rewrite nth_overflow by lia.
  - rewrite lookup_seqZ_ge, lookup_ge_None_2 by (rewrite ?length_replicate; lia). done.
Qed.

Lemma entries_at args : forall i k a, args !! k = Some a ->
  take (Z.to_nat DIRENT_SIZE) (drop (Z.to_nat (DIRENT_SIZE * Z.of_nat k)) (entries i args)) = dirent (i + Z.of_nat k) (short a).
Proof.
  induction args as [|a args IH]; intros i k b Hk; [done|]. cbn [entries].
  assert (length (dirent i (short a)) = Z.to_nat DIRENT_SIZE) as El by (pose proof (length_dirent i (short a)); lia).
  destruct k as [|k]; cbn [lookup list_lookup] in Hk.
  - injection Hk as <-. rewrite Z.mul_0_r, drop_0, Z.add_0_r. rewrite <- El. by rewrite take_app_length.
  - replace (Z.to_nat (DIRENT_SIZE * Z.of_nat (S k))) with (length (dirent i (short a)) + Z.to_nat (DIRENT_SIZE * Z.of_nat k))%nat by (rewrite El; unfold DIRENT_SIZE; lia).
    rewrite drop_app_add, (IH (i + 1) k b Hk). f_equal. lia.
Qed.

Lemma dirent_reads i name : 0 <= i < 2 ^ 16 -> de_inum (dirent i name) = i /\
  cname (of_list (de_name (dirent i name))) (Z.to_nat DIRSIZ) = cname (of_list name) (Z.to_nat DIRSIZ).
Proof.
  intros Hi. change (dirent i name) with (new_entry (of_list name) (xshort i)). rewrite new_entry_inum, new_entry_name, xshort_u16.
  split; [|done]. unfold u16. rewrite Z.mod_mod by lia. by apply Z.mod_small.
Qed.

(** What the kernel finds on the disk. *)
Record built (host : list byte -> option (list (list byte))) (args : list (list byte)) (s : mkst) : Prop := {
  (** the super block, an empty log, and the size it gives *)
  bu_size : img_size s = FSSIZE;
  bu_super : read_superblock (img s 1) = mk_superblock FSMAGIC FSSIZE nblocks NINODES LOGSIZE 2 (2 + nlog) (2 + nlog + ninodeblocks);
  bu_log b : 2 <= b < 2 + nlog -> img s b = zero_block;
  (** the root directory: ".", "..", one entry per file, and free entries *)
  bu_root : kind (inode_at (view (img s)) ROOTINO) = (T_DIR, 0, 0, 1);
  bu_dots : let root := inode_at (view (img s)) ROOTINO in
    dmatch (view (img s)) root (of_list m_dot) 0 /\ de_inum (dent (view (img s)) root 0) = ROOTINO /\
    dmatch (view (img s)) root (of_list m_dotdot) 1 /\ de_inum (dent (view (img s)) root 1) = ROOTINO;
  bu_entry k a : args !! k = Some a -> let root := inode_at (view (img s)) ROOTINO in let i := 2 + Z.of_nat k in
    dmatch (view (img s)) root (of_list (short a)) i /\ de_inum (dent (view (img s)) root i) = i;
  bu_unused k : 2 + Z.of_nat (length args) <= k -> DIRENT_SIZE * (k + 1) <= nblk (DIRENT_SIZE * (2 + Z.of_nat (length args))) * BSIZE ->
    de_inum (dent (view (img s)) (inode_at (view (img s)) ROOTINO) k) = 0;
  (** the files *)
  bu_file k a : args !! k = Some a -> let d := inode_at (view (img s)) (2 + Z.of_nat k) in
    kind d = regular /\ di_size d = Z.of_nat (length (input host a)) /\ content (view (img s)) d 0 (di_size d) = input host a;
  (** every block handed out is used once, and the bitmap says so *)
  bu_blocks : Permutation (concat (map (fun i => pointers (view (img s)) (inode_at (view (img s)) i)) (seqZ 1 (1 + Z.of_nat (length args)))))
                (seqZ nmeta (freeblock s - nmeta));
  bu_bitmap b : 0 <= b < FSSIZE -> blk_free (view (img s)) b = (freeblock s <=? b);
  bu_space : space_ok (view (img s));
  (** the size of the root directory is rounded up beyond its last block when
      that is full *)
  bu_hole : let n := DIRENT_SIZE * (2 + Z.of_nat (length args)) in
    let root := inode_at (view (img s)) ROOTINO in
    di_size root = (n / BSIZE + 1) * BSIZE /\ (n mod BSIZE = 0 -> faddr (view (img s)) root (n / BSIZE) = 0);
}.

Section Kernel.

Context (host : list byte -> option (list (list byte))) (s : mkst) (args : list (list byte)) (root : mfile) (fl : list mfile).
Context (H : image host s args root fl).

#[local] Notation v := (view (img s)).
#[local] Notation n := (DIRENT_SIZE * (2 + Z.of_nat (length args))).

Lemma image_layout : layout v (freeblock s) (root :: fl).
Proof. apply (im_work _ _ _ _ _ H). Qed.

Lemma image_root : inode_at v ROOTINO = mf_di root.
Proof. apply (im_table _ _ _ _ _ H 0%nat root eq_refl). Qed.

Lemma root_ok : file_ok v root.
Proof. apply (ly_files _ _ _ image_layout 0%nat). done. Qed.

Lemma root_length : Z.of_nat (length (mf_c root)) = n.
Proof. destruct (im_root _ _ _ _ _ H) as [-> _]. rewrite !length_app, !Nat2Z.inj_add, !length_dirent, length_entries. lia. Qed.

(** Entry [k] of the root directory is the [k]-th piece of its contents. *)
Lemma root_dent k : 0 <= k < 2 + Z.of_nat (length args) ->
  dent v (inode_at v ROOTINO) k = take (Z.to_nat DIRENT_SIZE) (drop (Z.to_nat (DIRENT_SIZE * k)) (mf_c root)).
Proof.
  intros Hk. rewrite image_root. apply content_within; [apply root_ok|..]; try rewrite root_length; unfold DIRENT_SIZE; lia.
Qed.

Lemma dent_found k i name : 0 < i < 2 ^ 16 -> dent v (inode_at v ROOTINO) k = dirent i name ->
  dmatch v (inode_at v ROOTINO) (of_list name) k /\ de_inum (dent v (inode_at v ROOTINO) k) = i.
Proof. intros Hi E. destruct (dirent_reads i name ltac:(lia)) as [E1 E2]. unfold dmatch. rewrite E, E1, E2. split; [|done]. split; [lia|done]. Qed.

Lemma image_dots :
  dent v (inode_at v ROOTINO) 0 = dirent ROOTINO m_dot /\ dent v (inode_at v ROOTINO) 1 = dirent ROOTINO m_dotdot.
Proof. rewrite !root_dent by lia. destruct (im_root _ _ _ _ _ H) as [-> _]. done. Qed.

Lemma image_entry k a : args !! k = Some a -> dent v (inode_at v ROOTINO) (2 + Z.of_nat k) = dirent (2 + Z.of_nat k) (short a).
Proof.
  intros Ha. assert (k < length args)%nat by (by eapply lookup_lt_Some). rewrite root_dent by lia. destruct (im_root _ _ _ _ _ H) as [-> _].
  rewrite app_assoc. replace (Z.to_nat (DIRENT_SIZE * (2 + Z.of_nat k)))
    with (length (dirent ROOTINO m_dot ++ dirent ROOTINO m_dotdot) + Z.to_nat (DIRENT_SIZE * Z.of_nat k))%nat.
  - rewrite drop_app_add. by apply entries_at.
  - change (length _) with 32%nat. unfold DIRENT_SIZE. lia.
Qed.

Lemma image_size : length args = length fl /\ 2 + Z.of_nat (length args) < 2 ^ 16.
Proof.
  split; [rewrite <- (length_map (input host) args), <- (im_files _ _ _ _ _ H); apply length_map|].
  pose proof (fo_n _ _ root_ok). pose proof (fo_len _ _ root_ok) as Hl. rewrite root_length in Hl. change MAXFILE with 268 in *. unfold DIRENT_SIZE, BSIZE in *. lia.
Qed.

Lemma image_file k a : args !! k = Some a -> exists f, fl !! k = Some f /\ mf_c f = input host a /\ inode_at v (2 + Z.of_nat k) = mf_di f.
Proof.
  intros Ha. destruct image_size as [El _]. destruct (lookup_lt_is_Some_2 fl k) as [f Hf]; [rewrite <- El; by eapply lookup_lt_Some|].
  exists f. split; [done|]. split.
  - assert (map mf_c fl !! k = map (input host) args !! k) as E by (by rewrite (im_files _ _ _ _ _ H)).
    rewrite !list_lookup_fmap, Ha, Hf in E. by injection E.
  - pose proof (im_table _ _ _ _ _ H (S k) f Hf) as E. by replace (2 + Z.of_nat k) with (1 + Z.of_nat (S k)) by lia.
Qed.

Lemma image_pointers : Permutation (concat (map (fun i => pointers v (inode_at v i)) (seqZ 1 (1 + Z.of_nat (length args))))) (seqZ nmeta (freeblock s - nmeta)).
Proof.
  destruct image_size as [El _]. rewrite <- (ly_perm _ _ _ image_layout).
  assert (forall fs j0, (forall j f, fs !! j = Some f -> (root :: fl) !! (j0 + j)%nat = Some f) ->
    Permutation (concat (map (fun i => pointers v (inode_at v i)) (seqZ (1 + Z.of_nat j0) (Z.of_nat (length fs))))) (concat (map (blocks_of v) fs))) as Hp.
  { induction fs as [|f fs IH]; intros j0 Hj; [done|]. cbn [length]. rewrite seqZ_cons by lia. cbn [map concat].
    pose proof (Hj 0%nat f eq_refl) as Hf. rewrite Nat.add_0_r in Hf. apply Permutation_app.
    - rewrite (im_table _ _ _ _ _ H j0 f Hf). eapply pointers_blocks; [exact image_layout|exact Hf|]. by apply (im_settled _ _ _ _ _ H j0).
    - replace (Z.succ (1 + Z.of_nat j0)) with (1 + Z.of_nat (S j0)) by lia. replace (Z.pred (Z.of_nat (S (length fs)))) with (Z.of_nat (length fs)) by lia.
      apply IH. intros j g Hg. specialize (Hj (S j) g Hg). by replace (S j0 + j)%nat with (j0 + S j)%nat by lia. }
  specialize (Hp (root :: fl) 0%nat ltac:(done)). cbn [length] in Hp. rewrite El. by replace (1 + Z.of_nat (length fl)) with (Z.of_nat (S (length fl))) by lia.
Qed.

Lemma image_bitmap b : 0 <= b < FSSIZE -> blk_free v b = (freeblock s <=? b).
Proof.
  intros Hb. unfold blk_free, blk. replace (BBLOCK b _) with (sb_bmapstart the_super).
  - cbn [view fx v_blocks]. rewrite Z.mod_small by (unfold FSSIZE, BPB, BSIZE in *; lia). rewrite (im_bits _ _ _ _ _ H b Hb). by rewrite Z.leb_antisym.
  - unfold BBLOCK. cbn [view f_sb]. change (sb_bmapstart the_super) with 45. unfold FSSIZE, BPB, BSIZE in *. rewrite u32_small; divlia.
Qed.

(** The space of the image is accounted for, as the kernel keeps it. *)
Lemma image_space : space_ok v.
Proof.
  destruct image_size as [El _]. pose proof (im_inodes _ _ _ _ _ H) as Hn. pose proof (ly_free _ _ _ image_layout) as Hf.
  apply (pointers_accounted v (1 + Z.of_nat (length args)) (freeblock s)).
  - split; vm_compute; (split; congruence) || congruence.
  - exact (ly_len _ _ _ image_layout).
  - lia.
  - change (sb_ninodes (f_sb v)) with NINODES. lia.
  - exact Hf.
  - intros i Hi Hor. apply (im_rest _ _ _ _ _ H); [exact Hi|]. rewrite <- El. lia.
  - exact image_pointers.
  - exact image_bitmap.
Qed.

Lemma image_built : built host args s.
Proof.
  pose proof (im_root _ _ _ _ _ H) as (_ & Hk & Hsz). destruct image_size as [El Hsmall]. pose proof root_ok as Hok. pose proof root_length as Hl.
  destruct (im_settled _ _ _ _ _ H 0%nat root eq_refl) as [Hn _]. rewrite Hl in Hn.
  split.
  - apply (im_work _ _ _ _ _ H).
  - rewrite (im_head _ _ _ _ _ H) by (change (2 + nlog) with 32; lia). by vm_compute.
  - intros b Hb. rewrite (im_head _ _ _ _ _ H) by lia. unfold head_block. by rewrite (proj2 (Z.eqb_neq b 1)) by lia.
  - by rewrite image_root.
  - destruct image_dots as [E0 E1]. split; [by apply dent_found in E0 as [? _]|]. split; [by apply dent_found in E0 as [_ ?]|].
    split; [by apply dent_found in E1 as [? _]|by apply dent_found in E1 as [_ ?]].
  - intros k a Ha. apply dent_found; [|by apply image_entry]. apply lookup_lt_Some in Ha. lia.
  - intros k Hk1 Hk2. rewrite image_root. unfold dent. rewrite content_after; [done|done|rewrite Hl; unfold DIRENT_SIZE; lia|unfold DIRENT_SIZE; lia|].
    rewrite Hn. unfold DIRENT_SIZE in *. lia.
  - intros k a Ha. destruct (image_file k a Ha) as (f & Hf & Ec & ->). destruct (im_file _ _ _ _ _ H k f Hf) as [Hkf Hsf]. cbn zeta.
    split; [done|]. rewrite Hsf, Ec. split; [done|]. rewrite content_within; [|apply (ly_files _ _ _ image_layout (S k)); done|lia|lia|rewrite Ec; lia].
    rewrite Ec, Nat2Z.id. apply firstn_all.
  - apply image_pointers.
  - apply image_bitmap.
  - apply image_space.
  - cbn zeta. rewrite image_root. split; [done|]. intros Hm. pose proof (fo_n _ _ Hok) as Hmax.
    assert (n / BSIZE = mf_n root) as -> by (rewrite Hn; unfold nblk, BSIZE in *; divlia). unfold faddr.
    pose proof (im_inodes _ _ _ _ _ H) as Hi. assert (mf_n root < NDIRECT).
    { rewrite Hn, El. unfold nblk, NDIRECT, NINODES, DIRENT_SIZE, BSIZE in *. divlia. }
    rewrite (proj2 (Z.ltb_lt _ _)) by done. apply (fo_direct _ _ Hok). lia.
Qed.

End Kernel.

(** [C4] mkfs succeeds on every list of files that fits (enough inodes and
    blocks, no file beyond MAXFILE blocks, no slash in a name after "user/"),
    however the reads of the host split the files, and the image it leaves is
    the file system the kernel expects: the super block reads back, the log is
    empty, the root directory holds ".", ".." and each file under its name
    without "user/" and the leading underscore, every file has its contents
    and size in the inode its entry names, the blocks handed out are exactly
    those the inodes point to, each once, and the bitmap marks exactly the
    blocks in use: the invariant of the space that the kernel then keeps.  When the entries fill their last block the size of the
    root directory also covers a block it does not have. *)
Theorem mkfs_builds_file_system (io_fails : Z -> bool) (creat : list byte -> bool) (host : list byte -> option (list (list byte)))
  (prog out : list byte) (args : list (list byte)) (s : mkst)
  (Hio : forall b, io_fails b = false) (Hout : creat out = true) (Hs : freeinode s = 1)
  (Hargs : Forall (arg_ok host) args) (Hfits : fits host args) :
  exists s', main io_fails creat host (prog :: out :: args) s = Done tt s' /\ built host args s'.
Proof.
  destruct (main_runs io_fails creat host Hio prog out args s Hout Hs Hargs Hfits) as ([] & s' & E & root & fl & H).
  exists s'. split; [exact E|]. exact (image_built host s' args root fl H).
Qed.

(** A small file read in two pieces and one that needs indirect blocks. *)
Definition demo_cat : list byte := user_prefix ++ map byte.of_Z [95; 99; 97; 116].
Definition demo_readme : list byte := map byte.of_Z [82; 69; 65; 68; 77; 69].
Definition demo_host (name : list byte) : option (list (list byte)) :=
  if starts_with user_prefix name then Some [map byte.of_Z [1; 2; 3]; map byte.of_Z [4]] else Some (replicate 13 (replicate 1000 Byte.x41)).

Lemma mkfs_builds_file_system_witness :
  exists s', main (fun _ => false) (fun _ => true) demo_host [[]; []; demo_cat; demo_readme] mkst0 = Done tt s' /\ built demo_host [demo_cat; demo_readme] s'.
Proof.
  apply (mkfs_builds_file_system (fun _ => false) (fun _ => true) demo_host [] [] [demo_cat; demo_readme] mkst0); [reflexivity|reflexivity|reflexivity|..].
  - repeat constructor; try (exists (replicate 13 (replicate 1000 Byte.x41)); reflexivity); try (eexists; reflexivity); vm_compute; congruence.
  - split; vm_compute; congruence.
Defined.
