(* ===== verification/FsDemo.v ===== *)
(** * The file system on the log and the buffer cache: concrete runs

    The theorems of the Fs files hold for every transaction layer; here they
    are applied to the log of Log.v on the buffer cache of Bio.v, on a small
    disk: inodes in block 32, the bitmap in block 45 (blocks 0 to 47 in use),
    a root directory with its entries in block 46. *)

From S2P Require Import Prelude CMem Riscv Sleeplock BlockLayer Bio Log LogBio Tx Fs FsBlocks FsInode FsFile FsDir.

#[local] Instance demo_cache : BlockLayer bio := bio_layer the_pid.

Definition bitmap_block : block := replicate 6 Byte.xff ++ replicate 1018 Byte.x00.

(** One entry, ".", and one free entry. *)
Definition dir_block : block := map byte.of_Z [1; 0; 46] ++ replicate 1021 Byte.x00.

Definition demo_disk (b : Z) : block := if b =? 45 then bitmap_block else if b =? 46 then dir_block else zdisk b.

Definition demo_sb : superblock := mk_superblock FSMAGIC 64 18 16 30 2 32 45.
Definition demo_log : log := mk_log false 2 30 1 false ROOTDEV 0 (fun _ => 0).
Definition root_dinode : dinode := mk_dinode T_DIR 0 0 1 32 (46 :: replicate 12 0).
Definition my_lock : sleeplock := mk_sleeplock false true the_pid.
Definition free_inode : inode := mk_inode 0 0 0 initsleeplock false (empty_dinode 0).
Definition demo_inodes (i : Z) : inode := if i =? 0 then mk_inode ROOTDEV 1 1 my_lock true root_dinode else free_inode.

Definition demo_fs : fsys (@lstate bio) := mk_fsys (mk_lstate demo_log (boot demo_disk)) demo_sb false demo_inodes.
Definition demo_view : fsys txv := mk_fsys (mk_txv demo_disk ∅ ∅ ∅) demo_sb false demo_inodes.

(** A machine that has just started, on any disk, with any inode cache. *)
Lemma clean_rep disk ic : fs_rep (mk_fsys (mk_lstate demo_log (boot disk)) demo_sb false ic) (mk_fsys (mk_txv disk ∅ ∅ ∅) demo_sb false ic).
Proof.
  split; [|done]. exists (booted disk). split; cbn [fx bs lg v_blocks v_held v_logged v_fresh].
  - apply boot_law.
  - done.
  - done.
  - intros b. unfold refs. cbn. rewrite !lookup_empty. cbn. rewrite !decide_False; [done|by intros [? ?]|set_solver].
  - done.
  - set_solver.
  - done.
  - constructor.
  - done.
  - done.
Qed.

Lemma demo_rep : fs_rep demo_fs demo_view.
Proof. apply clean_rep. Qed.

Lemma demo_space n : n <= 29 -> space n demo_view.
Proof. intros H. unfold space, tx_space. cbn [fx demo_view v_logged v_held].
  rewrite dom_empty_L, union_empty_l_L, size_empty. change NBUF with 30. change t_limit with 29. lia. Qed.

Lemma demo_held b : held demo_view b = None.
Proof. apply lookup_empty. Qed.

Lemma demo_bblock b : 0 <= b < 64 -> BBLOCK b demo_sb = 45.
Proof. intros H. unfold BBLOCK. change BPB with 8192. rewrite Z.div_small by lia. reflexivity. Qed.

Lemma balloc_bfree_correct_witness :
  exists r s1, balloc ROOTDEV demo_fs = Done r s1 /\ 0 <= r < 64 /\ blk_free demo_view r = true.
Proof.
  destruct (proj1 (balloc_bfree_correct demo_fs demo_view demo_rep (demo_space 3 ltac:(lia))
    (conj (fun b _ => demo_held _) (fun b _ _ => demo_held b))
    ltac:(intros b Hb; change (f_sb demo_view) with demo_sb in *; rewrite (demo_bblock b Hb);
          split; [vm_compute; reflexivity|]; split; [vm_compute; split; [discriminate|reflexivity]|vm_compute; reflexivity])
    ltac:(vm_compute; split; discriminate)))
    as (r & s1 & _ & _ & E & _ & (Hr & Hf & _) & _).
  - exists 48. split; [split; [lia|reflexivity]|]. vm_compute. reflexivity.
  - exists r, s1. split; [exact E|]. split; [exact Hr|exact Hf].
Defined.

Lemma root_dinode_ok : dinode_ok root_dinode.
Proof.
  split; unfold short_ok; cbn [di_type di_major di_minor di_nlink di_size root_dinode T_DIR]; try (unfold T_DIR; lia).
  - reflexivity.
  - apply (bool_decide_eq_true_1 _). vm_compute. reflexivity.
Qed.

Lemma iupdate_ilock_roundtrip_witness :
  exists s' v', (iupdate 0 ;;; iunlock the_pid (Some 0) ;;; evict (empty_dinode 0) 0 ;;; ilock the_pid (Some 0) 0) demo_fs = Done tt s' /\
    fs_rep s' v' /\ i_d (inodes v' 0) = root_dinode.
Proof.
  destruct (iupdate_ilock_roundtrip the_pid demo_fs demo_view 0 (empty_dinode 0) 0 demo_rep eq_refl) as (s' & v' & E & R & Ei & _).
  - exact root_dinode_ok.
  - discriminate.
  - reflexivity.
  - vm_compute. discriminate.
  - apply demo_held.
  - apply demo_space. lia.
  - reflexivity.
  - vm_compute. split; [discriminate|reflexivity].
  - vm_compute. split; [discriminate|reflexivity].
  - exists s', v'. split; [exact E|]. split; [exact R|]. rewrite Ei. reflexivity.
Defined.

Lemma demo_icache_ok : icache_ok demo_view.
Proof.
  split.
  - intros i _. cbn. unfold demo_inodes. by destruct (i =? 0).
  - intros dev inum i j (_ & Hi & _) (_ & Hj & _). cbn in Hi, Hj. unfold demo_inodes in *.
    destruct (Z.eqb_spec i 0), (Z.eqb_spec j 0); cbn in *; lia.
Qed.

Lemma iget_shares_entries_witness :
  exists ip s' v', iget ROOTDEV 5 demo_fs = Done ip s' /\ fs_rep s' v' /\ icache_ok v' /\ in_use v' ROOTDEV 5 ip.
Proof.
  destruct (proj1 (iget_shares_entries demo_fs demo_view ROOTDEV 5 demo_rep eq_refl demo_icache_ok
    ltac:(intros i; cbn; unfold demo_inodes; destruct (i =? 0); vm_compute; reflexivity)))
    as (ip & s' & v' & E & R & _ & Hok & Hu).
  - exists 7. split; [vm_compute; split; [discriminate|reflexivity]|right; reflexivity].
  - exists ip, s', v'. split; [exact E|]. split; [exact R|]. split; [exact Hok|exact Hu].
Defined.

Lemma root_mapped : mapped ROOTDEV demo_view (inodes demo_view 0) 1.
Proof.
  split.
  - reflexivity.
  - vm_compute. discriminate.
  - intros bn Hbn. assert (bn = 0) as -> by lia. discriminate.
  - intros bn Hbn. apply demo_held.
  - intros bn Hbn. assert (bn = 0) as -> by lia. reflexivity.
  - intros bn bn' Hbn Hbn' _. lia.
  - unfold NDIRECT. lia.
Qed.

Lemma root_apart : inode_apart demo_view (inodes demo_view 0) 1.
Proof.
  split; [apply demo_held|]. split; [|unfold NDIRECT; lia].
  intros bn Hbn. assert (bn = 0) as -> by lia. discriminate.
Qed.

Lemma root_is_dir : is_dir demo_view 0 2 1.
Proof. split; [reflexivity|reflexivity|vm_compute; split; discriminate|exact root_mapped]. Qed.

Definition no_fault (dst : Z) (l : list byte) : nat := length l.

Lemma readi_reads_file_witness :
  exists s', readi 0 no_fault 4096 16 100 demo_fs = Done (16, replicate 16 Byte.x00) s' /\ fs_rep s' demo_view.
Proof.
  destruct (readi_reads_file demo_fs demo_view 0 1 4096 16 100 no_fault demo_rep root_mapped (demo_space 1 ltac:(lia)))
    as (r & l & s' & E & R & Hr).
  - vm_compute. split; discriminate.
  - vm_compute. split; [discriminate|reflexivity].
  - vm_compute. split; [discriminate|reflexivity].
  - destruct Hr as [-> [_ Hl]]. exists s'. split; [|exact R]. rewrite E. f_equal. f_equal.
    rewrite Hl by reflexivity. reflexivity.
Defined.

Definition ten_bytes : list byte := map byte.of_Z [1; 2; 3; 4; 5; 6; 7; 8; 9; 10].

Lemma writei_readi_roundtrip_witness :
  exists s1 s2, writei 0 (kernel_src ten_bytes) 0 30 10 demo_fs = Done 10 s1 /\
    readi 0 no_fault 0 30 10 s1 = Done (10, ten_bytes) s2.
Proof.
  destruct (writei_readi_roundtrip demo_fs demo_view 0 1 0 0 30 (kernel_src ten_bytes) no_fault ten_bytes
    demo_rep root_mapped root_apart) as (s1 & v1 & s2 & E1 & _ & _ & _ & E2 & _).
  - apply copies_kernel. reflexivity.
  - vm_compute. split; [discriminate|reflexivity].
  - discriminate.
  - apply demo_space. vm_compute. discriminate.
  - vm_compute. discriminate.
  - vm_compute. split; discriminate.
  - vm_compute. discriminate.
  - reflexivity.
  - exists s1, s2. split; [exact E1|exact E2].
Defined.

Lemma demo_room : cache_room demo_view.
Proof. split; [reflexivity|]. exists 7. split; [vm_compute; split; [discriminate|reflexivity]|reflexivity]. Qed.

Definition name_dot : reader := of_list [byte.of_Z 46].
Definition name_b : reader := of_list [byte.of_Z 98].

Lemma dirlookup_finds_witness :
  exists r s' v', dirlookup 0 name_dot demo_fs = Done r s' /\ fs_rep s' v' /\ looked_up demo_view 0 2 name_dot 0 r v'.
Proof. exact (dirlookup_finds demo_fs demo_view 0 2 1 name_dot demo_rep root_is_dir (demo_space 1 ltac:(lia)) demo_room). Defined.

Lemma no_b k : 0 <= k < 2 -> ~ dmatch demo_view (i_d (inodes demo_view 0)) name_b k.
Proof.
  intros Hk [H1 H2]. assert (k = 0 \/ k = 1) as [-> | ->] by lia.
  - vm_compute in H2. discriminate H2.
  - apply H1. reflexivity.
Qed.

Lemma dirlink_then_lookup_witness :
  exists s1 k ip s2, dirlink the_pid 0 name_b 3 0 demo_fs = Done 0 s1 /\ dirlookup 0 name_b s1 = Done (Some (ip, DIRENT_SIZE * k)) s2.
Proof.
  destruct (dirlink_then_lookup demo_fs demo_view the_pid 0 2 1 3 name_b 0 demo_rep root_is_dir root_apart demo_room (demo_space 4 ltac:(lia)))
    as (s1 & v1 & k & ip & s2 & v2 & E1 & _ & _ & _ & E2 & _).
  - vm_compute. discriminate.
  - vm_compute. split; reflexivity.
  - exact no_b.
  - exists s1, k, ip, s2. split; [exact E1|exact E2].
Defined.
