(* ===== verification/FsSpaceDemo.v ===== *)
(** * Growing, truncating and walking on a concrete disk

    The theorems of FsGrow.v, FsTrunc.v and FsPath.v at the disk of FsDemo.v with the
    root inode written and only its block marked. *)

From S2P Require Import Prelude CMem Riscv Sleeplock BlockLayer Bio Log LogBio Tx Fs FsBlocks FsInode FsFile FsDir FsDemo FsSpace FsGrow FsTrunc FsPath.

#[local] Instance space_cache : BlockLayer bio := bio_layer the_pid.

(** Blocks 0 to 46 are in use. *)
Definition tight_bitmap : block := replicate 5 Byte.xff ++ [Byte.x7f] ++ replicate 1018 Byte.x00.

Definition tight_disk (b : Z) : block :=
  if b =? 32 then write_dinode zero_block 64 root_dinode else if b =? 45 then tight_bitmap else if b =? 46 then dir_block else zdisk b.

Definition tight_fs : fsys (@lstate bio) := mk_fsys (mk_lstate demo_log (boot tight_disk)) demo_sb false demo_inodes.
Definition tight_view : fsys txv := mk_fsys (mk_txv tight_disk ∅ ∅ ∅) demo_sb false demo_inodes.

Lemma tight_rep : fs_rep tight_fs tight_view.
Proof. apply clean_rep. Qed.

Lemma tight_space n : n <= 29 -> space n tight_view.
Proof. exact (demo_space n). Qed.

Lemma tight_inode : inode_at tight_view 1 = root_dinode.
Proof. vm_compute. reflexivity. Qed.

Lemma forallb_range (p : Z -> bool) a n i : forallb p (seqZ a n) = true -> a <= i < a + n -> p i = true.
Proof. intros H Hi. rewrite forallb_forall in H. apply H, list_elem_of_In, elem_of_seqZ. lia. Qed.

(** The only address in the inodes is that of the directory. *)
Definition tight_addr (inum : Z) (d : dinode) (k : Z) : bool := slot tight_view d k =? if (inum =? 1) && (k =? 0) then 46 else 0.
Definition tight_row (inum : Z) : bool := let d := inode_at tight_view inum in forallb (tight_addr inum d) (seqZ 0 NSLOT).
Definition tight_block (b : Z) : bool := Bool.eqb (blk_free tight_view b) (47 <=? b) && (Z.of_nat (length (blk tight_view b)) =? BSIZE).

Lemma tight_rows : forallb tight_row (seqZ 0 16) = true.
Proof. vm_compute. reflexivity. Qed.

Lemma tight_blocks : forallb tight_block (seqZ 0 64) = true.
Proof. vm_compute. reflexivity. Qed.

Lemma tight_slot inum k : 0 <= inum < 16 -> slot_ok k -> slot tight_view (inode_at tight_view inum) k = if (inum =? 1) && (k =? 0) then 46 else 0.
Proof.
  intros Hi Hk. pose proof (forallb_range tight_row 0 16 inum tight_rows ltac:(lia)) as H. unfold tight_row in H. cbv zeta in H.
  apply (forallb_range (tight_addr inum (inode_at tight_view inum)) 0 NSLOT k) in H; [by apply Z.eqb_eq|unfold slot_ok in Hk; lia].
Qed.

Lemma tight_bit b : 0 <= b < 64 -> blk_free tight_view b = (47 <=? b) /\ Z.of_nat (length (blk tight_view b)) = BSIZE.
Proof.
  intros Hb. pose proof (forallb_range tight_block 0 64 b tight_blocks ltac:(lia)) as H. unfold tight_block in H.
  apply andb_true_iff in H as [H1%Bool.eqb_prop H2%Z.eqb_eq]. done.
Qed.

Lemma tight_owner inum k b : owns tight_view (inode_at tight_view) inum k b -> inum = 1 /\ k = 0 /\ b = 46.
Proof.
  intros (Hi & Hk & E & Hb). rewrite tight_slot in E by done. destruct (Z.eqb_spec inum 1), (Z.eqb_spec k 0); cbn in E; lia.
Qed.

Lemma tight_root : owns tight_view (inode_at tight_view) 1 0 46.
Proof. split; [vm_compute; split; congruence|]. split; [done|]. rewrite tight_slot by (done || lia). done. Qed.

Lemma tight_ok : space_ok tight_view.
Proof.
  change (dstart (f_sb tight_view)) with 46. split.
  - split; vm_compute; (split; congruence) || congruence.
  - intros b Hb. by apply tight_bit.
  - intros inum _. apply read_dinode_ok.
  - intros b Hb. change (dstart (f_sb tight_view)) with 46 in Hb. destruct (tight_bit b) as [-> _]; [lia|]. apply Z.leb_gt. lia.
  - intros inum k b (_ & _ & ->)%tight_owner. split; [vm_compute; split; congruence|]. vm_compute. reflexivity.
  - intros inum k inum' k' b (-> & -> & _)%tight_owner (-> & -> & _)%tight_owner. done.
  - intros b Hb Hf. change (dstart (f_sb tight_view)) with 46 in Hb. change (sb_size (f_sb tight_view)) with 64 in Hb.
    destruct (tight_bit b) as [E _]; [lia|]. rewrite E in Hf. apply Z.leb_gt in Hf. assert (b = 46) as -> by lia.
    exists 1, 0. exact tight_root.
Qed.

Lemma tight_cached : cached ROOTDEV tight_view 0 1.
Proof.
  split; rewrite ?tight_inode; try reflexivity; try (vm_compute; split; congruence); try (vm_compute; congruence).
  intros bn _ Hbn _ Hlt. assert (bn = 0) as -> by (change (di_size root_dinode) with 32 in Hlt; unfold BSIZE in Hlt; lia). discriminate.
Qed.

(** Fifteen hundred bytes behind the directory's entries, into a new block. *)
Definition many_bytes : list byte := replicate 1500 Byte.x41.

Lemma writei_extends_witness :
  exists s1 v1 s2, writei 0 (kernel_src many_bytes) 0 32 1500 tight_fs = Done 1500 s1 /\ fs_rep s1 v1 /\ space_ok v1 /\
    di_size (inode_at v1 1) = 1532 /\ readi 0 no_fault 0 32 1500 s1 = Done (1500, many_bytes) s2.
Proof.
  destruct (writei_extends tight_fs tight_view 0 1 0 0 32 (kernel_src many_bytes) no_fault many_bytes tight_rep tight_ok tight_cached eq_refl)
    as (s1 & v1 & s2 & E1 & R1 & Hok & _ & Hsz & _ & _ & E2 & _).
  - apply copies_kernel. vm_compute. reflexivity.
  - vm_compute. split; congruence.
  - discriminate.
  - rewrite tight_inode. vm_compute. split; congruence.
  - vm_compute. congruence.
  - apply tight_space. vm_compute. congruence.
  - vm_compute. congruence.
  - reflexivity.
  - exists s1, v1, s2. split; [exact E1|]. split; [exact R1|]. split; [exact Hok|]. split; [|exact E2]. rewrite Hsz, tight_inode. vm_compute. reflexivity.
Defined.

Lemma itrunc_frees_witness :
  exists s' v', itrunc 0 tight_fs = Done tt s' /\ fs_rep s' v' /\ space_ok v' /\ di_size (inode_at v' 1) = 0 /\ blk_free v' 46 = true.
Proof.
  destruct (itrunc_frees tight_fs tight_view 0 1 tight_rep tight_ok) as (s' & v' & E & R & Hok & _ & Hd & Hb & _).
  - vm_compute. split; congruence.
  - reflexivity.
  - rewrite tight_inode. reflexivity.
  - reflexivity.
  - reflexivity.
  - split; vm_compute; congruence.
  - exists s', v'. split; [exact E|]. split; [exact R|]. split; [exact Hok|]. split; [rewrite Hd; reflexivity|]. apply Hb; [vm_compute; split; congruence|].
    right. exists 0. exact tight_root.
Defined.

(** ** A walk *)

(** The root directory is the current directory, not locked. *)
Definition idle_inodes (i : Z) : inode := if i =? 0 then mk_inode ROOTDEV 1 1 initsleeplock true root_dinode else free_inode.
Definition idle_fs : fsys (@lstate bio) := mk_fsys (mk_lstate demo_log (boot tight_disk)) demo_sb false idle_inodes.
Definition idle_view : fsys txv := mk_fsys (mk_txv tight_disk ∅ ∅ ∅) demo_sb false idle_inodes.

Lemma idle_live inum : live idle_view inum -> inum = 1.
Proof.
  intros [[[H1 H2] Ht] _]. assert (forallb (fun i => (i =? 1) || (di_type (inode_at idle_view i) =? 0)) (seqZ 0 16) = true) as H by (vm_compute; reflexivity).
  pose proof (forallb_range _ 0 16 inum H ltac:(split; [exact H1|exact H2])) as H3. apply orb_true_iff in H3 as [H3%Z.eqb_eq|H3%Z.eqb_eq]; [exact H3|contradiction].
Qed.

Lemma idle_root : live idle_view 1.
Proof. split; [split; [vm_compute; split; congruence|vm_compute; congruence]|vm_compute; congruence]. Qed.

Lemma idle_tree : tree_ok idle_view.
Proof.
  intros inum Hl _. apply idle_live in Hl as ->. change (inode_at idle_view 1) with (inode_at tight_view 1). rewrite tight_inode. split.
  - vm_compute. split; [reflexivity|]. split; congruence.
  - intros bn _ Hbn _ Hlt. assert (bn = 0) as -> by (change (di_size root_dinode) with 32 in Hlt; unfold BSIZE in Hlt; lia). discriminate.
  - change (di_size root_dinode / DIRENT_SIZE) with 2. intros k Hk. assert (k = 0 \/ k = 1) as [-> | ->] by lia; intros H.
    + assert (de_inum (dent idle_view root_dinode 0) = 1) as -> by (vm_compute; reflexivity). exact idle_root.
    + exfalso. apply H. vm_compute. reflexivity.
Qed.

Lemma idle_calm : calm the_pid [] idle_view.
Proof.
  split; [reflexivity|reflexivity| |].
  - intros j _. split; cbn [idle_view inodes]; unfold idle_inodes, lock_ok; destruct (j =? 0); cbn; done.
  - intros dev inum i j (_ & Hi & _) (_ & Hj & _). cbn in Hi, Hj. unfold idle_inodes in *. destruct (Z.eqb_spec i 0), (Z.eqb_spec j 0); cbn in *; lia.
Qed.

Definition dot_path : list byte := map byte.of_Z [47; 47; 46; 47].

Lemma namei_resolves_witness : exists ip s' v', namei the_pid 0 dot_path 0 idle_fs = Done (Some ip) s' /\ fs_rep s' v' /\ in_use v' ROOTDEV 1 ip.
Proof.
  destruct (proj1 (namei_resolves the_pid idle_fs idle_view 0 1 dot_path (replicate 14 Byte.x00) 0 (clean_rep tight_disk idle_inodes) idle_calm
    ltac:(intros j; cbn; unfold idle_inodes; destruct (j =? 0); vm_compute; reflexivity)
    (same_space tight_view tight_ok idle_view (conj eq_refl (conj eq_refl eq_refl))) idle_tree (demo_space 1 ltac:(lia))
    ltac:(exists 3, 4; split; [lia|]; split; [vm_compute; split; congruence|]; split; [vm_compute; split; congruence|]; split; reflexivity)
    ltac:(split; [vm_compute; split; congruence|]; split; [vm_compute; congruence|]; split; reflexivity)
    idle_root idle_root eq_refl ltac:(repeat constructor; discriminate) eq_refl)) as (r & s' & v' & E & R & _ & _ & _ & H).
  assert (resolve idle_view ROOTINO (components dot_path) = Some 1) as Er by (vm_compute; reflexivity).
  change (match dot_path with c :: _ => if is_slash c then ROOTINO else 1 | [] => 1 end) with ROOTINO in H. rewrite Er in H.
  destruct H as (ip & -> & Hu & _). exists ip, s', v'. split; [exact E|]. split; [exact R|exact Hu].
Defined.
