(* ===== verification/Virtio.v ===== *)
(** * The disk driver: kernel/virtio_disk.c

    The descriptor table and the rings it shares with the device, the
    bookkeeping of requests in flight, and the device itself as far as the
    legacy virtio specification describes it: it fetches the heads of new
    descriptor chains from the available ring in order, performs the transfers
    in any order, and reports each completed chain in the used ring, with an
    error status when the lengths, directions or links of its descriptors are
    wrong (a disk that fails is not modelled: a good request succeeds).  A buffer
    is named by a number; an address in a descriptor is a tagged pointer to the
    request header on the caller's stack, to a buffer's data, or to a status
    byte.  The device runs between the driver's critical sections. *)

From S2P Require Import Prelude Rely Riscv BlockLayer.

Definition NUM : Z := 8.
Definition VRING_DESC_F_NEXT : Z := 1.
Definition VRING_DESC_F_WRITE : Z := 2.
Definition VIRTIO_BLK_T_IN : Z := 0.
Definition VIRTIO_BLK_T_OUT : Z := 1.

Inductive dma := DNull | DHdr (b : Z) | DData (b : Z) | DStatus (i : Z).

Record vdesc := mk_vdesc { vd_addr : dma; vd_len : Z; vd_flags : Z; vd_next : Z }.

Record vdisk := mk_vdisk {
  v_lock : bool;
  v_free : Z -> bool;
  v_desc : Z -> vdesc;
  v_avail_idx : Z;            (* avail[1] *)
  v_avail : Z -> Z;           (* avail[2 + .] *)
  v_used_id : Z;              (* used->id *)
  v_used : Z -> Z;            (* used->elems[.].id *)
  v_used_idx : Z;
  v_info : Z -> option Z;     (* info[.].b *)
  v_status : Z -> Z;          (* info[.].status *)
  v_hdr : Z -> Z * Z * Z;     (* buf0 of the transfer of a buffer *)
  v_bdisk : Z -> bool;        (* b->disk *)
  v_data : Z -> block;        (* b->data *)
  v_regs : list (Z * Z);      (* registers written *)
  v_image : Z -> block;       (* the disk's contents *)
  v_seen : Z;                 (* the device's place in the available ring *)
  v_taken : list Z;           (* chains the device works on *)
}.

(** Updates of one field. *)
Definition put_lock x s := mk_vdisk x (v_free s) (v_desc s) (v_avail_idx s) (v_avail s) (v_used_id s) (v_used s) (v_used_idx s) (v_info s) (v_status s) (v_hdr s) (v_bdisk s) (v_data s) (v_regs s) (v_image s) (v_seen s) (v_taken s).
Definition put_free x s := mk_vdisk (v_lock s) x (v_desc s) (v_avail_idx s) (v_avail s) (v_used_id s) (v_used s) (v_used_idx s) (v_info s) (v_status s) (v_hdr s) (v_bdisk s) (v_data s) (v_regs s) (v_image s) (v_seen s) (v_taken s).
Definition put_desc x s := mk_vdisk (v_lock s) (v_free s) x (v_avail_idx s) (v_avail s) (v_used_id s) (v_used s) (v_used_idx s) (v_info s) (v_status s) (v_hdr s) (v_bdisk s) (v_data s) (v_regs s) (v_image s) (v_seen s) (v_taken s).
Definition put_avail i x s := mk_vdisk (v_lock s) (v_free s) (v_desc s) i x (v_used_id s) (v_used s) (v_used_idx s) (v_info s) (v_status s) (v_hdr s) (v_bdisk s) (v_data s) (v_regs s) (v_image s) (v_seen s) (v_taken s).
Definition put_used i x s := mk_vdisk (v_lock s) (v_free s) (v_desc s) (v_avail_idx s) (v_avail s) i x (v_used_idx s) (v_info s) (v_status s) (v_hdr s) (v_bdisk s) (v_data s) (v_regs s) (v_image s) (v_seen s) (v_taken s).
Definition put_used_idx x s := mk_vdisk (v_lock s) (v_free s) (v_desc s) (v_avail_idx s) (v_avail s) (v_used_id s) (v_used s) x (v_info s) (v_status s) (v_hdr s) (v_bdisk s) (v_data s) (v_regs s) (v_image s) (v_seen s) (v_taken s).
Definition put_info x s := mk_vdisk (v_lock s) (v_free s) (v_desc s) (v_avail_idx s) (v_avail s) (v_used_id s) (v_used s) (v_used_idx s) x (v_status s) (v_hdr s) (v_bdisk s) (v_data s) (v_regs s) (v_image s) (v_seen s) (v_taken s).
Definition put_status x s := mk_vdisk (v_lock s) (v_free s) (v_desc s) (v_avail_idx s) (v_avail s) (v_used_id s) (v_used s) (v_used_idx s) (v_info s) x (v_hdr s) (v_bdisk s) (v_data s) (v_regs s) (v_image s) (v_seen s) (v_taken s).
Definition put_hdr x s := mk_vdisk (v_lock s) (v_free s) (v_desc s) (v_avail_idx s) (v_avail s) (v_used_id s) (v_used s) (v_used_idx s) (v_info s) (v_status s) x (v_bdisk s) (v_data s) (v_regs s) (v_image s) (v_seen s) (v_taken s).
Definition put_bdisk x s := mk_vdisk (v_lock s) (v_free s) (v_desc s) (v_avail_idx s) (v_avail s) (v_used_id s) (v_used s) (v_used_idx s) (v_info s) (v_status s) (v_hdr s) x (v_data s) (v_regs s) (v_image s) (v_seen s) (v_taken s).
Definition put_data x s := mk_vdisk (v_lock s) (v_free s) (v_desc s) (v_avail_idx s) (v_avail s) (v_used_id s) (v_used s) (v_used_idx s) (v_info s) (v_status s) (v_hdr s) (v_bdisk s) x (v_regs s) (v_image s) (v_seen s) (v_taken s).
Definition put_reg r v s := mk_vdisk (v_lock s) (v_free s) (v_desc s) (v_avail_idx s) (v_avail s) (v_used_id s) (v_used s) (v_used_idx s) (v_info s) (v_status s) (v_hdr s) (v_bdisk s) (v_data s) (v_regs s ++ [(r, v)]) (v_image s) (v_seen s) (v_taken s).
Definition put_image x s := mk_vdisk (v_lock s) (v_free s) (v_desc s) (v_avail_idx s) (v_avail s) (v_used_id s) (v_used s) (v_used_idx s) (v_info s) (v_status s) (v_hdr s) (v_bdisk s) (v_data s) (v_regs s) x (v_seen s) (v_taken s).
Definition put_dev n l s := mk_vdisk (v_lock s) (v_free s) (v_desc s) (v_avail_idx s) (v_avail s) (v_used_id s) (v_used s) (v_used_idx s) (v_info s) (v_status s) (v_hdr s) (v_bdisk s) (v_data s) (v_regs s) (v_image s) n l.

Notation MV := (M vdisk).

Definition vd_acquire : MV unit := acquire_lk v_lock put_lock.
Definition vd_release : MV unit := release_lk v_lock put_lock.
Definition set_desc (i : Z) (d : vdesc) (s : vdisk) : vdisk := put_desc (fset (v_desc s) i d) s.

(** ** Initialisation *)

Definition VIRTIO_MMIO_MAGIC_VALUE : Z := 0x000.
Definition VIRTIO_MMIO_VERSION : Z := 0x004.
Definition VIRTIO_MMIO_DEVICE_ID : Z := 0x008.
Definition VIRTIO_MMIO_VENDOR_ID : Z := 0x00c.
Definition VIRTIO_MMIO_DEVICE_FEATURES : Z := 0x010.
Definition VIRTIO_MMIO_DRIVER_FEATURES : Z := 0x020.
Definition VIRTIO_MMIO_GUEST_PAGE_SIZE : Z := 0x028.
Definition VIRTIO_MMIO_QUEUE_SEL : Z := 0x030.
Definition VIRTIO_MMIO_QUEUE_NUM_MAX : Z := 0x034.
Definition VIRTIO_MMIO_QUEUE_NUM : Z := 0x038.
Definition VIRTIO_MMIO_QUEUE_PFN : Z := 0x040.
Definition VIRTIO_MMIO_QUEUE_NOTIFY : Z := 0x050.
Definition VIRTIO_MMIO_STATUS : Z := 0x070.

Definition clear_bits (bits : list Z) (f : Z) : Z := fold_left (fun f b => Z.land f (Z.lnot (Z.shiftl 1 b))) bits f.
Definition refused_features : list Z := [5; 7; 11; 12; 27; 29; 28].

(** [read] gives the registers' values, [pages] is the address of the rings. *)
Definition virtio_disk_init (read : Z -> Z) (pages : Z) : MV unit :=
  modify (put_lock false) ;;;
  if negb (read VIRTIO_MMIO_MAGIC_VALUE =? 0x74726976) || negb (read VIRTIO_MMIO_VERSION =? 1) ||
     negb (read VIRTIO_MMIO_DEVICE_ID =? 2) || negb (read VIRTIO_MMIO_VENDOR_ID =? 0x554d4551)
  then panic "could not find virtio disk" else
  modify (put_reg VIRTIO_MMIO_STATUS 1) ;;;
  modify (put_reg VIRTIO_MMIO_STATUS (Z.lor 1 2)) ;;;
  let features := clear_bits refused_features (read VIRTIO_MMIO_DEVICE_FEATURES) in
  modify (put_reg VIRTIO_MMIO_DRIVER_FEATURES (u32 features)) ;;;
  modify (put_reg VIRTIO_MMIO_STATUS (Z.lor (Z.lor 1 2) 8)) ;;;
  modify (put_reg VIRTIO_MMIO_STATUS (Z.lor (Z.lor (Z.lor 1 2) 8) 4)) ;;;
  modify (put_reg VIRTIO_MMIO_GUEST_PAGE_SIZE PGSIZE) ;;;
  modify (put_reg VIRTIO_MMIO_QUEUE_SEL 0) ;;;
  let max := read VIRTIO_MMIO_QUEUE_NUM_MAX in
  if max =? 0 then panic "virtio disk has no queue 0" else
  if max <? NUM then panic "virtio disk max queue too short" else
  modify (put_reg VIRTIO_MMIO_QUEUE_NUM NUM) ;;;
  modify (put_desc (fun _ => mk_vdesc DNull 0 0 0)) ;;;
  modify (put_avail 0 (fun _ => 0)) ;;;
  modify (put_used 0 (fun _ => 0)) ;;;
  modify (put_reg VIRTIO_MMIO_QUEUE_PFN (u32 (Z.shiftr pages PGSHIFT))) ;;;
  modify (fun s => put_free (fun i => if (0 <=? i) && (i <? NUM) then true else v_free s i) s).

(** ** Descriptors *)

Fixpoint alloc_desc_loop (i : Z) (left : nat) : MV Z :=
  match left with
  | O => ret (-1)
  | S l =>
      f <- gets (fun s => v_free s i) ;;
      if (f : bool) then modify (fun s => put_free (fset (v_free s) i false) s) ;;; ret i else alloc_desc_loop (i + 1) l
  end.
Definition alloc_desc : MV Z := alloc_desc_loop 0 (Z.to_nat NUM).

(** The sleep channel [&disk.free[0]]; a buffer's channel is its number. *)
Definition chan_free : Z := -1.

Definition free_desc (i : Z) : MV unit :=
  if i >=? NUM then panic "virtio_disk_intr 1" else
  f <- gets (fun s => v_free s i) ;;
  if (f : bool) then panic "virtio_disk_intr 2" else
  modify (fun s => set_desc i (mk_vdesc DNull (vd_len (v_desc s i)) (vd_flags (v_desc s i)) (vd_next (v_desc s i))) s) ;;;
  modify (fun s => put_free (fset (v_free s) i true) s) ;;;
  wakeup_chan chan_free.

(** [while(1)]; a chain has at most [NUM] descriptors, since freeing one twice
    panics. *)
Fixpoint free_chain (i : Z) (fuel : nat) : MV unit :=
  match fuel with
  | O => exhausted
  | S f =>
      free_desc i ;;;
      d <- gets (fun s => v_desc s i) ;;
      if negb (Z.land (vd_flags d) VRING_DESC_F_NEXT =? 0) then free_chain (vd_next d) f else ret tt
  end.

(** The three indices, or [None] for the result -1. *)
Definition alloc3_desc : MV (option (Z * Z * Z)) :=
  i0 <- alloc_desc ;;
  if i0 <? 0 then ret None else
  i1 <- alloc_desc ;;
  if i1 <? 0 then free_desc i0 ;;; ret None else
  i2 <- alloc_desc ;;
  if i2 <? 0 then free_desc i0 ;;; free_desc i1 ;;; ret None else
  ret (Some (i0, i1, i2)).

(** ** Transfers *)

Section Rw.

(** [b->blockno] *)
Context (blockno : Z -> Z).

Fixpoint alloc3_wait (fuel : nat) : MV (Z * Z * Z) :=
  r <- alloc3_desc ;;
  match r with
  | Some idx => ret idx
  | None => match fuel with
            | O => exhausted
            | S f => sleep_lk v_lock put_lock chan_free ;;; alloc3_wait f
            end
  end.

Fixpoint done_wait (b : Z) (fuel : nat) : MV unit :=
  d <- gets (fun s => v_bdisk s b) ;;
  if (d : bool) then
    match fuel with
    | O => exhausted
    | S f => sleep_lk v_lock put_lock b ;;; done_wait b f
    end
  else ret tt.

(** Formatting the three descriptors and handing them to the device. *)
Definition post_request (b : Z) (write : bool) (idx : Z * Z * Z) : MV unit :=
  let '(i0, i1, i2) := idx in
  let sector := u32 (blockno b * (BSIZE / 512)) in
  modify (fun s => put_hdr (fset (v_hdr s) b (if write then VIRTIO_BLK_T_OUT else VIRTIO_BLK_T_IN, 0, sector)) s) ;;;
  modify (set_desc i0 (mk_vdesc (DHdr b) 16 VRING_DESC_F_NEXT i1)) ;;;
  modify (set_desc i1 (mk_vdesc (DData b) BSIZE (Z.lor (if write then 0 else VRING_DESC_F_WRITE) VRING_DESC_F_NEXT) i2)) ;;;
  modify (fun s => put_status (fset (v_status s) i0 0) s) ;;;
  modify (set_desc i2 (mk_vdesc (DStatus i0) 1 VRING_DESC_F_WRITE 0)) ;;;
  modify (fun s => put_bdisk (fset (v_bdisk s) b true) s) ;;;
  modify (fun s => put_info (fset (v_info s) i0 (Some b)) s) ;;;
  modify (fun s => put_avail (v_avail_idx s) (fset (v_avail s) (v_avail_idx s mod NUM) i0) s) ;;;
  modify (fun s => put_avail (u16 (v_avail_idx s + 1)) (v_avail s) s) ;;;
  modify (put_reg VIRTIO_MMIO_QUEUE_NOTIFY 0).

Definition virtio_disk_rw (b : Z) (write : bool) (wakes : nat) : MV unit :=
  vd_acquire ;;;
  idx <- alloc3_wait wakes ;;
  post_request b write idx ;;;
  done_wait b wakes ;;;
  modify (fun s => put_info (fset (v_info s) (fst (fst idx)) None) s) ;;;
  free_chain (fst (fst idx)) (Z.to_nat NUM) ;;;
  vd_release.

(** The interrupt handler's loop; [left] bounds the entries it finds. *)
Fixpoint intr_loop (left : nat) : MV unit :=
  s <- gets id ;;
  if negb (v_used_idx s mod NUM =? v_used_id s mod NUM) then
    match left with
    | O => exhausted
    | S l =>
        let i := v_used s (v_used_idx s) in
        if negb (v_status s i =? 0) then panic "virtio_disk_intr status" else
        match v_info s i with
        | None => panic "kerneltrap"
        | Some b =>
            modify (fun s => put_bdisk (fset (v_bdisk s) b false) s) ;;;
            wakeup_chan b ;;;
            modify (fun s => put_used_idx ((v_used_idx s + 1) mod NUM) s) ;;;
            intr_loop l
        end
    end
  else ret tt.

Definition virtio_disk_intr : MV unit := vd_acquire ;;; intr_loop (Z.to_nat NUM) ;;; vd_release.

(** ** The device *)

Definition has (flags bit : Z) : bool := negb (Z.land flags bit =? 0).

(** A request as the device wants it: a header of 16 bytes that it reads, a
    block that it writes when the request is a read and reads when it is a
    write, a status byte that it writes, linked in this order. *)
Definition well_formed (type : Z) (d0 d1 d2 : vdesc) : bool :=
  (vd_len d0 =? 16) && has (vd_flags d0) VRING_DESC_F_NEXT && negb (has (vd_flags d0) VRING_DESC_F_WRITE) &&
  (vd_len d1 =? BSIZE) && has (vd_flags d1) VRING_DESC_F_NEXT &&
  Bool.eqb (has (vd_flags d1) VRING_DESC_F_WRITE) (type =? VIRTIO_BLK_T_IN) &&
  (vd_len d2 =? 1) && negb (has (vd_flags d2) VRING_DESC_F_NEXT) && has (vd_flags d2) VRING_DESC_F_WRITE.

Definition VIRTIO_BLK_S_IOERR : Z := 1.

(** Reporting the chain at [h] in the used ring. *)
Definition device_report (h : Z) (s : vdisk) : vdisk :=
  put_used (u16 (v_used_id s + 1)) (fset (v_used s) (v_used_id s mod NUM) h) s.

(** Performing the transfer of the chain at [h] and reporting it.  A chain that
    is not well formed moves no data and has an error status; one whose
    descriptors point elsewhere is reported with nothing done. *)
Definition device_transfer (h : Z) (s : vdisk) : vdisk :=
  let d0 := v_desc s h in
  let d1 := v_desc s (vd_next d0) in
  let d2 := v_desc s (vd_next d1) in
  match vd_addr d0, vd_addr d1, vd_addr d2 with
  | DHdr b, DData b', DStatus i =>
      let '(type, _, sector) := v_hdr s b in
      let blk := sector / (BSIZE / 512) in
      if well_formed type d0 d1 d2 then
        let s := if type =? VIRTIO_BLK_T_OUT then put_image (fset (v_image s) blk (v_data s b')) s
                 else put_data (fset (v_data s) b' (v_image s blk)) s in
        device_report h (put_status (fset (v_status s) i 0) s)
      else device_report h (put_status (fset (v_status s) i VIRTIO_BLK_S_IOERR) s)
  | _, _, _ => device_report h s
  end.

Inductive device_step (s : vdisk) : vdisk -> Prop :=
| dev_fetch :
    v_seen s <> v_avail_idx s ->
    device_step s (put_dev (u16 (v_seen s + 1)) (v_taken s ++ [v_avail s (v_seen s mod NUM)]) s)
| dev_complete l1 h l2 :
    v_taken s = l1 ++ h :: l2 ->
    device_step s (put_dev (v_seen s) (l1 ++ l2) (device_transfer h s)).

End Rw.
