(* ===== verification/VirtioInv.v ===== *)
(** * The disk driver and the device together

    The invariant of the descriptor table and the rings, for any number of
    processes, the interrupt handler and the device; and what a transfer does. *)

From S2P Require Import Prelude Rely Riscv BlockLayer Virtio.

Section VirtioInv.

Context (blockno : Z -> Z).

(** The buffers of the cache hold different blocks. *)
Definition is_buf (b : Z) : Prop := 0 <= b < NBUF.
Context (blockno_inj : forall b b', is_buf b -> is_buf b' -> blockno b = blockno b' -> b = b').
Context (blockno_range : forall b, is_buf b -> 0 <= blockno b < 2 ^ 31).

Definition in_ring (i : Z) : Prop := 0 <= i < NUM.

(** The chain that begins at [h]. *)
Definition second (s : vdisk) (h : Z) : Z := vd_next (v_desc s h).
Definition third (s : vdisk) (h : Z) : Z := vd_next (v_desc s (second s h)).
Definition chain (s : vdisk) (h : Z) : list Z := [h; second s h; third s h].

(** Heads the device has not fetched, and heads it has reported and the
    interrupt handler has not seen. *)
Definition n_posted (s : vdisk) : Z := u16 (v_avail_idx s - v_seen s).
Definition n_used (s : vdisk) : Z := (v_used_id s - v_used_idx s) mod NUM.
Definition posted (s : vdisk) : list Z := map (fun j => v_avail s ((v_seen s + j) mod NUM)) (seqZ 0 (n_posted s)).
Definition reported (s : vdisk) : list Z := map (fun j => v_used s ((v_used_idx s + j) mod NUM)) (seqZ 0 (n_used s)).
Definition heads (s : vdisk) : list Z := posted s ++ v_taken s ++ reported s.

(** A request for buffer [b] at [h]. *)
Record request (s : vdisk) (h b : Z) : Prop := {
  rq_buf : is_buf b;
  rq_range : Forall in_ring (chain s h);
  rq_nodup : NoDup (chain s h);
  rq_hdr : exists type, v_hdr s b = (type, 0, 2 * blockno b) /\ (type = VIRTIO_BLK_T_IN \/ type = VIRTIO_BLK_T_OUT);
  rq_addr0 : vd_addr (v_desc s h) = DHdr b;
  rq_addr1 : vd_addr (v_desc s (second s h)) = DData b;
  rq_addr2 : vd_addr (v_desc s (third s h)) = DStatus h;
  rq_next0 : Z.land (vd_flags (v_desc s h)) VRING_DESC_F_NEXT <> 0;
  rq_next1 : Z.land (vd_flags (v_desc s (second s h))) VRING_DESC_F_NEXT <> 0;
  rq_next2 : Z.land (vd_flags (v_desc s (third s h))) VRING_DESC_F_NEXT = 0;
  rq_formed : well_formed (fst (fst (v_hdr s b))) (v_desc s h) (v_desc s (second s h)) (v_desc s (third s h)) = true;
  rq_status : v_status s h = 0;
}.

Record vinv (s : vdisk) : Prop := {
  vi_avail : 0 <= v_avail_idx s < 2 ^ 16;
  vi_seen : 0 <= v_seen s < 2 ^ 16;
  vi_used_id : 0 <= v_used_id s < 2 ^ 16;
  vi_used_idx : in_ring (v_used_idx s);
  vi_nodup : NoDup (heads s);
  vi_heads h : h ∈ heads s <-> exists b, v_info s h = Some b /\ v_bdisk s b = true;
  vi_request h b : v_info s h = Some b -> request s h b;
  vi_apart h h' b b' : v_info s h = Some b -> v_info s h' = Some b' -> h <> h' ->
    b <> b' /\ forall i, i ∈ chain s h -> i ∉ chain s h';
  vi_free i : in_ring i -> v_free s i = false <-> exists h b, v_info s h = Some b /\ i ∈ chain s h;
  vi_moved h b : v_info s h = Some b -> h ∈ reported s \/ v_bdisk s b = false -> v_data s b = v_image s (blockno b);
  vi_busy b : v_bdisk s b = true -> exists h, v_info s h = Some b;
}.

(** At most two requests are in flight. *)
Lemma few_heads s : vinv s -> (length (heads s) <= 2)%nat.
Proof.
  intros Hs. pose proof (vi_nodup s Hs) as Hnd. pose proof (vi_heads s Hs) as Hh.
  destruct (heads s) as [|h1 [|h2 [|h3 l]]]; cbn; try lia. exfalso.
  assert (exists b, v_info s h1 = Some b) as [b1 E1] by (destruct (proj1 (Hh h1)) as (b & ? & _); [set_solver|eauto]).
  assert (exists b, v_info s h2 = Some b) as [b2 E2] by (destruct (proj1 (Hh h2)) as (b & ? & _); [set_solver|eauto]).
  assert (exists b, v_info s h3 = Some b) as [b3 E3] by (destruct (proj1 (Hh h3)) as (b & ? & _); [set_solver|eauto]).
  rewrite !NoDup_cons in Hnd. destruct Hnd as (N1 & N2 & N3 & _).
  destruct (vi_apart s Hs h1 h2 b1 b2) as [_ A12]; [done|done|set_solver|].
  destruct (vi_apart s Hs h1 h3 b1 b3) as [_ A13]; [done|done|set_solver|].
  destruct (vi_apart s Hs h2 h3 b2 b3) as [_ A23]; [done|done|set_solver|].
  pose proof (rq_nodup _ _ _ (vi_request s Hs h1 b1 E1)) as D1. pose proof (rq_nodup _ _ _ (vi_request s Hs h2 b2 E2)) as D2.
  pose proof (rq_nodup _ _ _ (vi_request s Hs h3 b3 E3)) as D3.
  pose proof (rq_range _ _ _ (vi_request s Hs h1 b1 E1)) as R1. pose proof (rq_range _ _ _ (vi_request s Hs h2 b2 E2)) as R2.
  pose proof (rq_range _ _ _ (vi_request s Hs h3 b3 E3)) as R3.
  assert (NoDup (chain s h1 ++ chain s h2 ++ chain s h3)) as Hall.
  { apply NoDup_app. split; [done|]. split; [intros i Hi; rewrite elem_of_app; naive_solver|]. apply NoDup_app. split; [done|]. split; done. }
  assert (Forall in_ring (chain s h1 ++ chain s h2 ++ chain s h3)) as Hr by (by rewrite !Forall_app).
  assert (length (chain s h1 ++ chain s h2 ++ chain s h3) <= length (seqZ 0 NUM))%nat as Hlen; [|rewrite length_seqZ in Hlen; change (Z.to_nat NUM) with 8%nat in Hlen; cbn [chain app length] in Hlen; unfold chain in Hlen; cbn in Hlen; lia].
  apply submseteq_length, NoDup_submseteq; [done|]. intros i Hi. rewrite elem_of_seqZ. rewrite Forall_forall in Hr.
  specialize (Hr i Hi). unfold in_ring in Hr. lia.
Qed.

(** ** Changes the invariant does not see *)

Record same_flight (s s' : vdisk) : Prop := {
  sf_free i : v_free s' i = v_free s i;
  sf_desc i : in_ring i -> v_free s i = false -> v_desc s' i = v_desc s i;
  sf_avail_idx : v_avail_idx s' = v_avail_idx s;
  sf_avail : v_avail s' = v_avail s;
  sf_used_id : v_used_id s' = v_used_id s;
  sf_used : v_used s' = v_used s;
  sf_used_idx : v_used_idx s' = v_used_idx s;
  sf_info : v_info s' = v_info s;
  sf_status : v_status s' = v_status s;
  sf_hdr : v_hdr s' = v_hdr s;
  sf_bdisk : v_bdisk s' = v_bdisk s;
  sf_data : v_data s' = v_data s;
  sf_image : v_image s' = v_image s;
  sf_seen : v_seen s' = v_seen s;
  sf_taken : v_taken s' = v_taken s;
}.

Lemma same_flight_refl s : same_flight s s.
Proof. by split. Qed.

Lemma same_flight_trans s1 s2 s3 : same_flight s1 s2 -> same_flight s2 s3 -> same_flight s1 s3.
Proof.
  intros [] []. split; try congruence. intros i Hi Hf. rewrite sf_desc1; [by apply sf_desc0|done|congruence].
Qed.

Lemma chain_busy s h b i : vinv s -> v_info s h = Some b -> i ∈ chain s h -> in_ring i /\ v_free s i = false.
Proof.
  intros Hs Hh Hi. pose proof (rq_range _ _ _ (vi_request s Hs h b Hh)) as Hr. rewrite Forall_forall in Hr.
  split; [by apply Hr|]. apply (vi_free s Hs); [by apply Hr|]. by exists h, b.
Qed.

(** The chain of a request depends only on its own descriptors. *)
Lemma chain_same s s' h :
  v_desc s' h = v_desc s h -> v_desc s' (second s h) = v_desc s (second s h) -> chain s' h = chain s h.
Proof. intros E0 E1. unfold chain, third, second in *. rewrite E0, E1. done. Qed.

Lemma request_same s s' h b :
  request s h b -> (forall i, i ∈ chain s h -> v_desc s' i = v_desc s i) -> v_hdr s' b = v_hdr s b -> v_status s' h = v_status s h ->
  request s' h b /\ chain s' h = chain s h.
Proof.
  intros [] Hd Hh Hst.
  assert (v_desc s' h = v_desc s h) as D0 by (apply Hd; unfold chain; set_solver).
  assert (v_desc s' (second s h) = v_desc s (second s h)) as D1 by (apply Hd; unfold chain; set_solver).
  assert (v_desc s' (third s h) = v_desc s (third s h)) as D2 by (apply Hd; unfold chain; set_solver).
  assert (chain s' h = chain s h) as Ec by (by apply chain_same).
  assert (second s' h = second s h) as E1 by (unfold second; by rewrite D0).
  assert (third s' h = third s h) as E2 by (unfold third; by rewrite E1, D1).
  split; [|done]. split; rewrite ?Ec, ?E1, ?E2, ?D0, ?D1, ?D2, ?Hh, ?Hst; done.
Qed.

Lemma same_flight_inv s s' : vinv s -> same_flight s s' -> vinv s'.
Proof.
  intros Hs [].
  assert (forall h b, v_info s h = Some b -> request s' h b /\ chain s' h = chain s h) as Hreq.
  { intros h b Hh. apply request_same; [by apply vi_request| |by rewrite sf_hdr0|by rewrite sf_status0].
    intros i Hi. destruct (chain_busy s h b i Hs Hh Hi). by apply sf_desc0. }
  assert (heads s' = heads s) as Eh.
  { unfold heads, posted, reported, n_posted, n_used. by rewrite sf_avail_idx0, sf_avail0, sf_used_id0, sf_used0, sf_used_idx0, sf_seen0, sf_taken0. }
  assert (reported s' = reported s) as Er by (unfold reported, n_used; by rewrite sf_used_id0, sf_used0, sf_used_idx0).
  destruct Hs as [H1 H2 H3 H4 H5 H6 H7 H8 H9 H10 H11].
  split; rewrite ?sf_avail_idx0, ?sf_seen0, ?sf_used_id0, ?sf_used_idx0, ?Eh, ?Er, ?sf_info0, ?sf_bdisk0, ?sf_data0, ?sf_image0; try done.
  - intros h b Hh. by apply Hreq.
  - intros h h' b b' Hh Hh' Hne. destruct (Hreq h b Hh) as [_ ->]. destruct (Hreq h' b' Hh') as [_ ->]. by apply (H8 h h' b b').
  - intros i Hi. rewrite sf_free0, H9 by done. split; intros (h & b & Hh & Hc); exists h, b; (split; [done|]);
      destruct (Hreq h b Hh) as [_ Ec]; [by rewrite Ec|by rewrite <- Ec].
Qed.

(** ** Allocating descriptors *)

Lemma alloc_desc_loop_spec left : forall i s,
  (exists j, i <= j < i + Z.of_nat left /\ v_free s j = true /\ alloc_desc_loop i left s = Done j (put_free (fset (v_free s) j false) s)) \/
  ((forall j, i <= j < i + Z.of_nat left -> v_free s j = false) /\ alloc_desc_loop i left s = Done (-1) s).
Proof.
  induction left as [|l IH]; intros i s; cbn [alloc_desc_loop]; [right; split; [lia|done]|].
  rewrite bind_gets. destruct (v_free s i) eqn:E.
  - left. exists i. rewrite bind_modify. split; [lia|done].
  - destruct (IH (i + 1) s) as [(j & Hj & Hf & ->)|(Hf & ->)]; [left; exists j; split; [lia|done]|right].
    split; [|done]. intros j Hj. destruct (decide (j = i)) as [->|]; [done|]. apply Hf. lia.
Qed.

Lemma alloc_desc_spec s :
  (exists j, in_ring j /\ v_free s j = true /\ alloc_desc s = Done j (put_free (fset (v_free s) j false) s)) \/
  alloc_desc s = Done (-1) s.
Proof.
  unfold alloc_desc. destruct (alloc_desc_loop_spec (Z.to_nat NUM) 0 s) as [(j & Hj & Hf & E)|(_ & E)]; [left|by right].
  exists j. split; [unfold in_ring; change (Z.of_nat (Z.to_nat NUM)) with NUM in Hj; lia|done].
Qed.

Definition null_addr (d : vdesc) : vdesc := mk_vdesc DNull (vd_len d) (vd_flags d) (vd_next d).
Definition freed_desc (i : Z) (s : vdisk) : vdisk := put_free (fset (v_free s) i true) (set_desc i (null_addr (v_desc s i)) s).

Lemma free_desc_spec i s : in_ring i -> v_free s i = false -> free_desc i s = Done tt (freed_desc i s).
Proof.
  intros Hi Hf. unfold free_desc, in_ring in *. rewrite Z.geb_leb, (proj2 (Z.leb_gt NUM i)) by lia.
  by rewrite bind_gets, Hf, !bind_modify.
Qed.

(** Taking a free descriptor and giving it back. *)
Definition take_desc (i : Z) (s : vdisk) : vdisk := put_free (fset (v_free s) i false) s.

Lemma take_free_same i s s1 :
  v_free s i = true -> same_flight (take_desc i s) s1 -> v_free s1 i = false -> same_flight s (freed_desc i s1).
Proof.
  intros Hf [] H1. split; cbn; try done.
  - intros k. unfold take_desc in *; cbn in *. destruct (decide (k = i)) as [->|Hne]; [by rewrite fset_eq|].
    rewrite fset_ne by done. rewrite sf_free0. by rewrite fset_ne.
  - intros k Hk Hkf. assert (k <> i) by congruence. rewrite fset_ne by done. apply sf_desc0; [done|]. cbn. by rewrite fset_ne.
Qed.

(** All or nothing. *)
Lemma alloc3_desc_spec s :
  (exists i0 i1 i2, NoDup [i0; i1; i2] /\ Forall (fun i => in_ring i /\ v_free s i = true) [i0; i1; i2] /\
     alloc3_desc s = Done (Some (i0, i1, i2)) (take_desc i2 (take_desc i1 (take_desc i0 s)))) \/
  (exists s', alloc3_desc s = Done None s' /\ same_flight s s' /\ v_lock s' = v_lock s).
Proof.
  unfold alloc3_desc. destruct (alloc_desc_spec s) as [(i0 & R0 & F0 & E0)|E0].
  2: { right. exists s. rewrite (bind_Done _ _ _ _ _ E0). split; [done|]. split; [apply same_flight_refl|done]. }
  rewrite (bind_Done _ _ _ _ _ E0). rewrite (proj2 (Z.ltb_ge i0 0)) by (unfold in_ring in R0; lia).
  fold (take_desc i0 s). set (s1 := take_desc i0 s).
  destruct (alloc_desc_spec s1) as [(i1 & R1 & F1 & E1)|E1].
  2: { right. rewrite (bind_Done _ _ _ _ _ E1). cbn [Z.ltb Z.compare]. exists (freed_desc i0 s1).
       rewrite (bind_Done _ _ _ _ _ (free_desc_spec i0 s1 R0 ltac:(cbn; by rewrite fset_eq))).
       split; [done|]. split; [|done]. apply take_free_same; [done|apply same_flight_refl|cbn; by rewrite fset_eq]. }
  rewrite (bind_Done _ _ _ _ _ E1). rewrite (proj2 (Z.ltb_ge i1 0)) by (unfold in_ring in R1; lia).
  assert (i1 <> i0 /\ v_free s i1 = true) as [N10 F1'].
  { cbn in F1. destruct (decide (i1 = i0)) as [->|]; [by rewrite fset_eq in F1|]. by rewrite fset_ne in F1. }
  fold (take_desc i1 s1). set (s2 := take_desc i1 s1).
  destruct (alloc_desc_spec s2) as [(i2 & R2 & F2 & E2)|E2].
  - left. rewrite (bind_Done _ _ _ _ _ E2). rewrite (proj2 (Z.ltb_ge i2 0)) by (unfold in_ring in R2; lia).
    assert (i2 <> i1 /\ i2 <> i0 /\ v_free s i2 = true) as (N21 & N20 & F2').
    { cbn in F2. destruct (decide (i2 = i1)) as [->|]; [by rewrite fset_eq in F2|]. rewrite fset_ne in F2 by done.
      destruct (decide (i2 = i0)) as [->|]; [by rewrite fset_eq in F2|]. by rewrite fset_ne in F2. }
    exists i0, i1, i2. split; [repeat (apply NoDup_cons_2; [rewrite ?not_elem_of_cons; repeat split; try done; by apply not_elem_of_nil|]); by apply NoDup_nil_2|]. split; [do 3 (apply Forall_cons_2; [done|]); by apply Forall_nil_2|done].
  - right. rewrite (bind_Done _ _ _ _ _ E2). cbn [Z.ltb Z.compare].
    assert (v_free s2 i0 = false) as B0 by (cbn; rewrite fset_ne by done; by rewrite fset_eq).
    assert (v_free (freed_desc i0 s2) i1 = false) as B1 by (cbn; rewrite fset_ne by done; by rewrite fset_eq).
    rewrite (bind_Done _ _ _ _ _ (free_desc_spec i0 s2 R0 B0)), (bind_Done _ _ _ _ _ (free_desc_spec i1 _ R1 B1)).
    exists (freed_desc i1 (freed_desc i0 s2)). split; [done|]. split; [|done].
    apply take_free_same; [done| |done]. split; cbn; try done.
    + intros k. destruct (decide (k = i0)) as [->|Hk0]; [rewrite fset_eq, !fset_ne by done; by rewrite F0|].
      rewrite fset_ne by done. destruct (decide (k = i1)) as [->|Hk1]; [by rewrite !fset_eq|]. by rewrite !fset_ne.
    + intros k Hk Hkf. rewrite fset_ne; [done|]. intros ->. rewrite fset_ne in Hkf by done. congruence.
Qed.

(** ** The rings *)

Lemma mod_NUM_u16 x : u16 x mod NUM = x mod NUM.
Proof. unfold u16, NUM. change (2 ^ 16) with 65536. Z.div_mod_to_equations; lia. Qed.

Lemma ring_distinct x j k : 0 <= j < NUM -> 0 <= k < NUM -> j <> k -> (x + j) mod NUM <> (x + k) mod NUM.
Proof. unfold NUM. intros. Z.div_mod_to_equations; lia. Qed.

Lemma map_ring_snoc (f : Z -> Z) x n v :
  0 <= n < NUM -> map (fun j => fset f ((x + n) mod NUM) v ((x + j) mod NUM)) (seqZ 0 (n + 1)) =
                  map (fun j => f ((x + j) mod NUM)) (seqZ 0 n) ++ [v].
Proof.
  intros Hn. rewrite seqZ_app, map_app by lia. f_equal.
  - apply map_ext_in. intros j Hj%list_elem_of_In%elem_of_seqZ. rewrite fset_ne; [done|]. apply ring_distinct; lia.
  - rewrite (seqZ_cons _ 1) by lia. rewrite seqZ_nil by lia. cbn. by rewrite fset_eq.
Qed.

Lemma map_ring_cons (f : Z -> Z) x n :
  0 < n -> map (fun j => f ((x + j) mod NUM)) (seqZ 0 n) =
           f (x mod NUM) :: map (fun j => f ((x + 1 + j) mod NUM)) (seqZ 0 (n - 1)).
Proof.
  intros Hn. rewrite (seqZ_cons 0 n) by lia. cbn [map]. rewrite Z.add_0_r. f_equal.
  replace (Z.succ 0) with (1 + 0) by lia. replace (Z.pred n) with (n - 1) by lia.
  rewrite <- (fmap_add_seqZ 1 0 (n - 1)). rewrite (map_map _ _ (seqZ 0 (n - 1))). apply map_ext. intros j. f_equal. f_equal. lia.
Qed.

Lemma length_posted s : length (posted s) = Z.to_nat (n_posted s).
Proof. unfold posted. by rewrite length_map, length_seqZ. Qed.

Lemma length_reported s : length (reported s) = Z.to_nat (n_used s).
Proof. unfold reported. by rewrite length_map, length_seqZ. Qed.

Lemma few_posted s : vinv s -> 0 <= n_posted s <= 2.
Proof.
  intros Hs. pose proof (few_heads s Hs) as H. unfold heads in H. rewrite !length_app, length_posted in H.
  split; [apply Z.mod_pos_bound; done|lia].
Qed.

Lemma few_used s : vinv s -> 0 <= n_used s /\ n_used s + Z.of_nat (length (v_taken s)) <= 2.
Proof.
  intros Hs. pose proof (few_heads s Hs) as H. unfold heads in H. rewrite !length_app, length_reported in H.
  assert (0 <= n_used s) by (apply Z.mod_pos_bound; done). lia.
Qed.

(** ** What the agents leave alone *)

Record kept (b : Z) (s s' : vdisk) : Prop := {
  kp_info h : v_info s' h = Some b <-> v_info s h = Some b;
  kp_hdr h : v_info s h = Some b -> v_hdr s' b = v_hdr s b;
  kp_idle : v_bdisk s b = false ->
    v_bdisk s' b = false /\ v_data s' b = v_data s b /\ v_image s' (blockno b) = v_image s (blockno b);
  kp_out h : v_info s h = Some b -> fst (fst (v_hdr s b)) = VIRTIO_BLK_T_OUT -> v_data s' b = v_data s b;
  kp_in h : v_info s h = Some b -> fst (fst (v_hdr s b)) = VIRTIO_BLK_T_IN -> v_image s' (blockno b) = v_image s (blockno b);
}.

Lemma kept_refl b s : kept b s s.
Proof. by split. Qed.

Lemma kept_trans b s1 s2 s3 : kept b s1 s2 -> kept b s2 s3 -> kept b s1 s3.
Proof.
  intros [A1 A2 A3 A4 A5] [B1 B2 B3 B4 B5]. split.
  - intros h. by rewrite B1.
  - intros h Hh. rewrite (B2 h) by (by apply A1). by apply (A2 h).
  - intros Hi. destruct (A3 Hi) as (? & ? & ?). destruct B3 as (? & ? & ?); [done|]. split_and!; congruence.
  - intros h Hh Ht. rewrite (B4 h); [by apply (A4 h)|by apply A1|by rewrite (A2 h)].
  - intros h Hh Ht. rewrite (B5 h); [by apply (A5 h)|by apply A1|by rewrite (A2 h)].
Qed.

Lemma same_flight_kept b s s' : same_flight s s' -> kept b s s'.
Proof. intros []. split; intros *; rewrite ?sf_info0, ?sf_hdr0, ?sf_bdisk0, ?sf_data0, ?sf_image0; done. Qed.

Definition vrely (b : Z) (s s' : vdisk) : Prop :=
  v_lock s = false -> vinv s -> v_lock s' = false /\ vinv s' /\ kept b s s'.
Definition vguar (b : Z) (s s' : vdisk) : Prop :=
  v_lock s' = false /\ vinv s' /\ forall b', is_buf b' -> b' <> b -> kept b' s s'.

(** Inside a critical section of the transfer of [b] that began in [s0]. *)
Definition inside (b : Z) (s0 s : vdisk) : Prop := v_lock s = true /\ vinv s /\ forall b', is_buf b' -> b' <> b -> kept b' s0 s.

Lemma put_lock_same x s : same_flight s (put_lock x s).
Proof. by split. Qed.

Lemma inside_start b s : v_lock s = false -> vinv s -> inside b s (put_lock true s).
Proof.
  intros Hl Hs. split; [done|]. split; [eapply same_flight_inv; [done|apply put_lock_same]|].
  intros b' _ _. apply same_flight_kept, put_lock_same.
Qed.

Lemma inside_end b s0 s : inside b s0 s -> vguar b s0 (put_lock false s).
Proof.
  intros (Hl & Hs & Hk). split; [done|]. split; [eapply same_flight_inv; [done|apply put_lock_same]|].
  intros b' Hbuf Hb. eapply kept_trans; [by apply Hk|]. apply same_flight_kept, put_lock_same.
Qed.

Lemma inside_same b s0 s s' : inside b s0 s -> same_flight s s' -> v_lock s' = v_lock s -> inside b s0 s'.
Proof.
  intros (Hl & Hs & Hk) Hf He. split; [congruence|]. split; [by eapply same_flight_inv|].
  intros b' Hbuf Hb. eapply kept_trans; [by apply Hk|]. by apply same_flight_kept.
Qed.

(** The caller's buffer: not in flight, or in flight at [h]. *)
Definition idle (b : Z) (D0 I0 : block) (s : vdisk) : Prop :=
  (forall h, v_info s h <> Some b) /\ v_bdisk s b = false /\ v_data s b = D0 /\ v_image s (blockno b) = I0.
Definition op_type (write : bool) : Z := if write then VIRTIO_BLK_T_OUT else VIRTIO_BLK_T_IN.
Definition flying (b h : Z) (write : bool) (D0 I0 : block) (s : vdisk) : Prop :=
  v_info s h = Some b /\ fst (fst (v_hdr s b)) = op_type write /\
  (write = true -> v_data s b = D0) /\ (write = false -> v_image s (blockno b) = I0).

Lemma idle_kept b D0 I0 s s' : idle b D0 I0 s -> kept b s s' -> idle b D0 I0 s'.
Proof.
  intros (H1 & H2 & H3 & H4) [K1 _ K3 _ _]. destruct (K3 H2) as (E1 & E2 & E3).
  split; [intros h Hh; by apply (H1 h), K1|]. split_and!; congruence.
Qed.

Lemma flying_kept b h w D0 I0 s s' : flying b h w D0 I0 s -> kept b s s' -> flying b h w D0 I0 s'.
Proof.
  intros (H1 & H2 & H3 & H4) [K1 K2 K3 K4 K5]. split; [by apply K1|]. split; [by rewrite (K2 h)|]. split.
  - intros ->. rewrite (K4 h); [by apply H3|done|done].
  - intros ->. rewrite (K5 h); [by apply H4|done|done].
Qed.

(** ** Posting a request *)

Section Post.

Context (b : Z) (write : bool) (i0 i1 i2 : Z) (t s4 : vdisk).
Context (Hbuf : is_buf b) (Ht : vinv t) (Hidle : forall h, v_info t h <> Some b) (Hbd : v_bdisk t b = false).
Context (Hnd : NoDup [i0; i1; i2]).
Context (Hfree : Forall (fun i => in_ring i /\ v_free t i = true) [i0; i1; i2]).
Context (E4 : post_request blockno b write (i0, i1, i2) (take_desc i2 (take_desc i1 (take_desc i0 t))) = Done tt s4).

Lemma post_distinct : i0 <> i1 /\ i0 <> i2 /\ i1 <> i2.
Proof. rewrite !NoDup_cons in Hnd. destruct Hnd as (A & B & _). set_solver. Qed.

Lemma post_in i : i ∈ [i0; i1; i2] -> in_ring i /\ v_free t i = true.
Proof. rewrite Forall_forall in Hfree. apply Hfree. Qed.

(** A chain in flight has none of the new descriptors. *)
Lemma post_other h b' i : v_info t h = Some b' -> i ∈ chain t h -> i ∉ [i0; i1; i2].
Proof. intros Hh Hi Hin. destruct (chain_busy t h b' i Ht Hh Hi) as [_ Hf]. destruct (post_in i Hin). congruence. Qed.

Lemma post_head h b' : v_info t h = Some b' -> h <> i0.
Proof. intros Hh ->. apply (post_other i0 b' i0 Hh); unfold chain; set_solver. Qed.

Lemma post_head0 : i0 ∉ heads t.
Proof. intros Hin. apply (vi_heads t Ht) in Hin as (b' & Hb & _). by apply (post_head i0 b'). Qed.

(** The resulting state, field by field. *)
Lemma post_fields :
  v_lock s4 = v_lock t /\ v_avail_idx s4 = u16 (v_avail_idx t + 1) /\ v_avail s4 = fset (v_avail t) (v_avail_idx t mod NUM) i0 /\
  v_used_id s4 = v_used_id t /\ v_used s4 = v_used t /\ v_used_idx s4 = v_used_idx t /\ v_seen s4 = v_seen t /\ v_taken s4 = v_taken t /\
  v_info s4 = fset (v_info t) i0 (Some b) /\ v_status s4 = fset (v_status t) i0 0 /\ v_bdisk s4 = fset (v_bdisk t) b true /\
  v_data s4 = v_data t /\ v_image s4 = v_image t /\ v_hdr s4 = fset (v_hdr t) b (op_type write, 0, u32 (blockno b * (BSIZE / 512))) /\
  v_free s4 = fset (fset (fset (v_free t) i0 false) i1 false) i2 false.
Proof.
  unfold post_request in E4. rewrite !bind_modify in E4. unfold modify in E4. injection E4 as <-. by destruct write.
Qed.

Lemma post_desc i : i ∉ [i0; i1; i2] -> v_desc s4 i = v_desc t i.
Proof.
  intros Hi. unfold post_request in E4. rewrite !bind_modify in E4. unfold modify in E4. injection E4 as <-. cbn.
  rewrite !fset_ne; set_solver.
Qed.

Lemma post_descs :
  v_desc s4 i0 = mk_vdesc (DHdr b) 16 VRING_DESC_F_NEXT i1 /\
  v_desc s4 i1 = mk_vdesc (DData b) BSIZE (Z.lor (if write then 0 else VRING_DESC_F_WRITE) VRING_DESC_F_NEXT) i2 /\
  v_desc s4 i2 = mk_vdesc (DStatus i0) 1 VRING_DESC_F_WRITE 0.
Proof.
  destruct post_distinct as (N01 & N02 & N12).
  unfold post_request in E4. rewrite !bind_modify in E4. unfold modify in E4. injection E4 as <-. cbn.
  split; [rewrite 2!fset_ne by done; by rewrite fset_eq|]. split; [rewrite fset_ne by done; by rewrite fset_eq|by rewrite fset_eq].
Qed.

Lemma post_chain : chain s4 i0 = [i0; i1; i2].
Proof. destruct post_descs as (D0 & D1 & D2). unfold chain, third, second. rewrite D0. cbn. rewrite D1. done. Qed.

Lemma post_request_new : request s4 i0 b.
Proof.
  destruct post_descs as (D0 & D1 & D2).
  destruct post_fields as (_ & _ & _ & _ & _ & _ & _ & _ & _ & Est & _ & _ & _ & Eh & _).
  assert (second s4 i0 = i1) as E1 by (unfold second; by rewrite D0).
  assert (third s4 i0 = i2) as E2 by (unfold third; by rewrite E1, D1).
  split; rewrite ?post_chain, ?E1, ?E2, ?D0, ?D1, ?D2; try done.
  - eapply Forall_impl; [exact Hfree|]. by intros i [? _].
  - rewrite Eh, fset_eq. exists (op_type write). split; [|destruct write; [by right|by left]].
    f_equal. change (BSIZE / 512) with 2. pose proof (blockno_range b Hbuf). rewrite u32_small by lia. lia.
  - by destruct write.
  - rewrite Eh, fset_eq. by destruct write.
  - by rewrite Est, fset_eq.
Qed.

Lemma post_request_old h b' : v_info t h = Some b' -> request s4 h b' /\ chain s4 h = chain t h.
Proof.
  intros Hh. destruct post_fields as (_ & _ & _ & _ & _ & _ & _ & _ & _ & Est & _ & _ & _ & Eh & _).
  apply request_same; [by apply vi_request| | |].
  - intros i Hi. apply post_desc. by eapply post_other.
  - rewrite Eh, fset_ne; [done|]. intros ->. by apply (Hidle h).
  - rewrite Est, fset_ne; [done|]. by eapply post_head.
Qed.

Lemma post_heads : heads s4 = posted t ++ [i0] ++ v_taken t ++ reported t.
Proof.
  destruct post_fields as (_ & Ea & Eav & Eu & Eus & Eui & Ese & Eta & _).
  unfold heads. rewrite (app_assoc (posted t)). f_equal; [|f_equal; [done|unfold reported, n_used; by rewrite Eu, Eus, Eui]].
  pose proof (few_posted t Ht) as Hn. pose proof (vi_avail t Ht). pose proof (vi_seen t Ht).
  unfold posted. assert (n_posted s4 = n_posted t + 1) as En.
  { unfold n_posted in *. rewrite Ea, Ese. unfold u16 in *. change (2 ^ 16) with 65536 in *. Z.div_mod_to_equations; lia. }
  rewrite En, Eav, Ese.
  assert (v_avail_idx t mod NUM = (v_seen t + n_posted t) mod NUM) as ->.
  { unfold n_posted, u16, NUM. change (2 ^ 16) with 65536. Z.div_mod_to_equations; lia. }
  apply map_ring_snoc. unfold NUM. lia.
Qed.

Lemma post_info h b' : v_info s4 h = Some b' <-> (h = i0 /\ b' = b) \/ (h <> i0 /\ v_info t h = Some b').
Proof.
  destruct post_fields as (_ & _ & _ & _ & _ & _ & _ & _ & Ei & _). rewrite Ei.
  destruct (decide (h = i0)) as [->|Hne]; [rewrite fset_eq|rewrite fset_ne by done]; naive_solver.
Qed.

Lemma post_inv : vinv s4.
Proof.
  destruct post_fields as (_ & Ea & Eav & Eu & Eus & Eui & Ese & Eta & Ei & Est & Ebd & Eda & Eim & Eh & Ef).
  destruct post_distinct as (N01 & N02 & N12). pose proof post_head0 as Hnew.
  assert (reported s4 = reported t) as Er by (unfold reported, n_used; by rewrite Eu, Eus, Eui).
  assert (forall h, h ∈ heads s4 <-> h = i0 \/ h ∈ heads t) as Hh.
  { intros h. rewrite post_heads. unfold heads. rewrite !elem_of_app, list_elem_of_singleton. naive_solver. }
  assert (forall b', b' <> b -> v_bdisk s4 b' = v_bdisk t b') as Ebd' by (intros b' Hb; by rewrite Ebd, fset_ne).
  assert (forall h b', v_info t h = Some b' -> b' <> b) as Hb by (intros h b' Hh' ->; by apply (Hidle h)).
  split; rewrite ?Ea, ?Ese, ?Eu, ?Eui, ?Er.
  - unfold u16. by apply Z.mod_pos_bound.
  - by apply vi_seen.
  - by apply vi_used_id.
  - by apply vi_used_idx.
  - rewrite post_heads. pose proof (vi_nodup t Ht) as Hnd0. unfold heads in Hnd0, Hnew.
    rewrite (Permutation_app_comm (posted t)). cbn. apply NoDup_cons. split.
    + intros Hin. apply Hnew. rewrite !elem_of_app in *. naive_solver.
    + by rewrite (Permutation_app_comm _ (posted t)).
  - intros h. rewrite Hh, (vi_heads t Ht h). split.
    + intros [->|(b' & Hb' & Hd)]; [exists b; rewrite post_info, Ebd, fset_eq; auto|].
      exists b'. rewrite post_info, Ebd' by by eapply Hb. split; [right; split; [by eapply post_head|done]|done].
    + intros (b' & [[-> ->]|[Hne Hb']]%post_info & Hd); [by left|right]. exists b'. rewrite Ebd' in Hd by by eapply Hb. done.
  - intros h b' [[-> ->]|[Hne Hb']]%post_info; [apply post_request_new|]. by apply post_request_old.
  - intros h h' c c' [[-> ->]|[Hne Hc]]%post_info [[-> ->]|[Hne' Hc']]%post_info Hd; [done| | |].
    + destruct (post_request_old h' c' Hc') as [_ ->]. rewrite post_chain. split; [by apply not_eq_sym; eapply Hb|].
      intros i Hi Hi'. by apply (post_other h' c' i).
    + destruct (post_request_old h c Hc) as [_ ->]. rewrite post_chain. split; [by eapply Hb|].
      intros i Hi. by apply (post_other h c i).
    + destruct (post_request_old h c Hc) as [_ ->]. destruct (post_request_old h' c' Hc') as [_ ->]. by apply (vi_apart t Ht h h').
  - intros i Hi. assert (v_free s4 i = false <-> i ∈ [i0; i1; i2] \/ v_free t i = false) as ->.
    { rewrite Ef. destruct (decide (i = i2)) as [->|]; [rewrite fset_eq; set_solver|rewrite fset_ne by done].
      destruct (decide (i = i1)) as [->|]; [rewrite fset_eq; set_solver|rewrite fset_ne by done].
      destruct (decide (i = i0)) as [->|]; [rewrite fset_eq; set_solver|rewrite fset_ne by done]. set_solver. }
    rewrite (vi_free t Ht i Hi). split.
    + intros [Hin|(h & c & Hc & Hin)]; [exists i0, b; rewrite post_info, post_chain; auto|].
      exists h, c. destruct (post_request_old h c Hc) as [_ ->]. rewrite post_info. split; [right; split; [by eapply post_head|done]|done].
    + intros (h & c & [[-> ->]|[Hne Hc]]%post_info & Hin); [left; by rewrite post_chain in Hin|right].
      exists h, c. destruct (post_request_old h c Hc) as [_ Ec]. by rewrite Ec in Hin.
  - intros h c [[-> ->]|[Hne Hc]]%post_info [Hin|Hd].
    + exfalso. apply Hnew. unfold heads. rewrite !elem_of_app. naive_solver.
    + by rewrite Ebd, fset_eq in Hd.
    + rewrite Eda, Eim. by apply (vi_moved t Ht h); [|left].
    + rewrite Eda, Eim. rewrite Ebd' in Hd by by eapply Hb. by apply (vi_moved t Ht h); [|right].
  - intros c Hc. destruct (decide (c = b)) as [->|Hne]; [exists i0; rewrite post_info; auto|].
    rewrite Ebd' in Hc by done. destruct (vi_busy t Ht c Hc) as [h Hhc]. exists h. rewrite post_info. right. split; [by eapply post_head|done].
Qed.

Lemma post_kept b' : b' <> b -> kept b' t s4.
Proof.
  intros Hne. destruct post_fields as (_ & _ & _ & _ & _ & _ & _ & _ & _ & _ & Ebd & Eda & Eim & Eh & _).
  split; intros *; rewrite ?Eh, ?Ebd, ?Eda, ?Eim, ?fset_ne by done; try done.
  rewrite post_info. split; [naive_solver|]. intros Hh. right. split; [by eapply post_head|done].
Qed.

Lemma post_flying D0 I0 : v_data t b = D0 -> v_image t (blockno b) = I0 -> flying b i0 write D0 I0 s4.
Proof.
  intros HD HI. destruct post_fields as (_ & _ & _ & _ & _ & _ & _ & _ & _ & _ & _ & Eda & Eim & Eh & _).
  split; [rewrite post_info; auto|]. rewrite Eh, fset_eq, Eda, Eim. done.
Qed.

End Post.

(** ** Taking a finished request down *)

Section Finish.

Context (b h : Z) (u : vdisk).
Context (Hu : vinv u) (Hh : v_info u h = Some b) (Hbd : v_bdisk u b = false).

Definition cleared : vdisk := put_info (fset (v_info u) h None) u.
Definition finished : vdisk := freed_desc (third u h) (freed_desc (second u h) (freed_desc h cleared)).

Lemma finish_distinct : h <> second u h /\ h <> third u h /\ second u h <> third u h.
Proof. pose proof (rq_nodup _ _ _ (vi_request u Hu h b Hh)) as Hnd. unfold chain in Hnd. rewrite !NoDup_cons in Hnd. set_solver. Qed.

Lemma free_chain_step i f s :
  in_ring i -> v_free s i = false -> Z.land (vd_flags (v_desc s i)) VRING_DESC_F_NEXT <> 0 ->
  free_chain i (S f) s = free_chain (vd_next (v_desc s i)) f (freed_desc i s).
Proof.
  intros Hi Hf Hn. cbn [free_chain]. rewrite (bind_Done _ _ _ _ _ (free_desc_spec i s Hi Hf)), bind_gets. cbn. rewrite fset_eq. cbn.
  by rewrite (proj2 (Z.eqb_neq _ 0) Hn).
Qed.

Lemma finish_run : free_chain h (Z.to_nat NUM) cleared = Done tt finished.
Proof.
  destruct (vi_request u Hu h b Hh) as [_ Hr Hnd _ _ _ _ Hn0 Hn1 Hn2 _]. destruct finish_distinct as (N01 & N02 & N12).
  assert (forall i, i ∈ chain u h -> in_ring i /\ v_free u i = false) as Hb by (intros i Hi; by apply (chain_busy u h b)).
  destruct (Hb h) as [R0 F0]; [unfold chain; set_solver|]. destruct (Hb (second u h)) as [R1 F1]; [unfold chain; set_solver|].
  destruct (Hb (third u h)) as [R2 F2]; [unfold chain; set_solver|].
  change (Z.to_nat NUM) with 8%nat. rewrite free_chain_step by done. fold (second u h).
  change (vd_next (v_desc cleared h)) with (second u h).
  rewrite free_chain_step; [|done|cbn; by rewrite fset_ne|cbn; by rewrite fset_ne].
  assert (vd_next (v_desc (freed_desc h cleared) (second u h)) = third u h) as -> by (cbn; by rewrite fset_ne).
  cbn [free_chain]. rewrite (bind_Done _ _ _ _ _ (free_desc_spec (third u h) (freed_desc (second u h) (freed_desc h cleared)) R2 ltac:(cbn; by rewrite !fset_ne))), bind_gets.
  cbn. rewrite fset_eq. cbn. rewrite !fset_ne by done. by rewrite Hn2.
Qed.

Lemma finish_desc i : i ∉ chain u h -> v_desc finished i = v_desc u i.
Proof. intros Hi. unfold chain in Hi. cbn. rewrite !fset_ne; set_solver. Qed.

Lemma finish_free i : v_free finished i = true <-> i ∈ chain u h \/ v_free u i = true.
Proof.
  cbn. unfold chain. destruct (decide (i = third u h)) as [->|]; [rewrite fset_eq; set_solver|rewrite fset_ne by done].
  destruct (decide (i = second u h)) as [->|]; [rewrite fset_eq; set_solver|rewrite fset_ne by done].
  destruct (decide (i = h)) as [->|]; [rewrite fset_eq; set_solver|rewrite fset_ne by done]. set_solver.
Qed.

Lemma finish_info k c : v_info finished k = Some c <-> k <> h /\ v_info u k = Some c.
Proof. cbn. destruct (decide (k = h)) as [->|Hne]; [rewrite fset_eq|rewrite fset_ne by done]; naive_solver. Qed.

Lemma finish_request k c : k <> h -> v_info u k = Some c -> request finished k c /\ chain finished k = chain u k.
Proof.
  intros Hk Hc. apply request_same; [by apply vi_request| |done|done]. intros i Hi. apply finish_desc.
  by apply (vi_apart u Hu k h c b Hc Hh Hk).
Qed.

Lemma finish_inv : vinv finished.
Proof.
  destruct Hu as [H1 H2 H3 H4 H5 H6 H7 H8 H9 H10 H11].
  assert (forall k, k ∈ heads u -> k <> h) as Hne.
  { intros k (c & Hc & Hd)%H6 ->. rewrite Hh in Hc. simplify_eq. congruence. }
  split; try done.
  - intros k. change (heads finished) with (heads u). rewrite (H6 k). split.
    + intros (c & Hc & Hd). exists c. rewrite finish_info. split; [|done]. split; [|done]. apply Hne, H6. by exists c.
    + intros (c & [Hk Hc]%finish_info & Hd). by exists c.
  - intros k c [Hk Hc]%finish_info. by apply finish_request.
  - intros k k' c c' [Hk Hc]%finish_info [Hk' Hc']%finish_info Hd.
    destruct (finish_request k c Hk Hc) as [_ ->]. destruct (finish_request k' c' Hk' Hc') as [_ ->]. by apply (H8 k k').
  - intros i Hi. rewrite <- not_true_iff_false, finish_free.
    assert (v_free u i = true <-> ~ exists k c, v_info u k = Some c /\ i ∈ chain u k) as -> by (rewrite <- (H9 i Hi); by destruct (v_free u i)).
    split.
    + intros Hn. destruct (decide (v_free u i = false)) as [Hf|Hf].
      * apply (H9 i Hi) in Hf as (k & c & Hc & Hin). assert (k <> h) as Hk by (intros ->; apply Hn; by left).
        exists k, c. destruct (finish_request k c Hk Hc) as [_ ->]. by rewrite finish_info.
      * exfalso. apply Hn. right. rewrite <- (H9 i Hi). done.
    + intros (k & c & [Hk Hc]%finish_info & Hin) [Hin'|Hno].
      * destruct (finish_request k c Hk Hc) as [_ Ec]. rewrite Ec in Hin. by apply (H8 k h c b Hc Hh Hk) in Hin.
      * apply Hno. exists k, c. destruct (finish_request k c Hk Hc) as [_ Ec]. by rewrite <- Ec.
  - intros k c [Hk Hc]%finish_info. by apply (H10 k c).
  - intros c Hc. destruct (H11 c Hc) as [k Hkc]. exists k. rewrite finish_info. split; [|done]. intros ->. cbn in Hc. rewrite Hh in Hkc. simplify_eq. congruence.
Qed.

Lemma finish_kept b' : b' <> b -> kept b' u finished.
Proof. intros Hne. split; try done. intros k. rewrite finish_info. split; [naive_solver|]. intros Hk. split; [|done]. intros ->. congruence. Qed.

Lemma finish_idle : idle b (v_data u b) (v_image u (blockno b)) finished /\ v_data finished b = v_image finished (blockno b).
Proof.
  split; [split; [|done]|].
  - intros k [Hk Hc]%finish_info. by destruct (vi_apart u Hu k h b b Hc Hh Hk).
  - apply (vi_moved u Hu h b Hh). by right.
Qed.

End Finish.

(** ** A transfer *)

Lemma rely_inside b s0 s s' :
  inside b s0 s -> vrely b (put_lock false s) s' ->
  v_lock s' = false /\ vinv s' /\ kept b s s'.
Proof.
  intros (Hl & Hs & _) HR. destruct HR as (H1 & H2 & H3); [done|eapply same_flight_inv; [done|apply put_lock_same]|].
  split; [done|]. split; [done|]. eapply kept_trans; [apply same_flight_kept, put_lock_same|exact H3].
Qed.

Lemma alloc3_wait_spec b D0 I0 fuel : forall s0 s,
  inside b s0 s -> idle b D0 I0 s ->
  sure (vrely b) (vguar b)
    (fun s0 idx s => exists t, inside b s0 t /\ idle b D0 I0 t /\
       let '(i0, i1, i2) := idx in
       NoDup [i0; i1; i2] /\ Forall (fun i => in_ring i /\ v_free t i = true) [i0; i1; i2] /\
       s = take_desc i2 (take_desc i1 (take_desc i0 t))) s0 (alloc3_wait fuel s).
Proof.
  induction fuel as [|f IH]; intros s0 s Hs Hi; cbn [alloc3_wait];
    (destruct (alloc3_desc_spec s) as [(i0 & i1 & i2 & Hnd & Hf & E)|(s1 & E & Hsf & El)]; rewrite (bind_Done _ _ _ _ _ E);
     [cbn; by exists s|]); [done|].
  assert (inside b s0 s1) as Hs1 by (by eapply inside_same). assert (idle b D0 I0 s1) as Hi1 by (eapply idle_kept; [exact Hi|by apply same_flight_kept]).
  apply sure_sleep_lk; [by destruct Hs1|by apply inside_end|]. intros s2 HR.
  destruct (rely_inside b s0 s1 s2 Hs1 HR) as (L2 & V2 & K2). split; [done|]. apply IH; [by apply inside_start|].
  eapply idle_kept; [eapply idle_kept; [exact Hi1|exact K2]|apply same_flight_kept, put_lock_same].
Qed.

Lemma done_wait_spec b h w D0 I0 fuel : forall s0 s,
  inside b s0 s -> flying b h w D0 I0 s ->
  sure (vrely b) (vguar b) (fun s0 _ s => inside b s0 s /\ flying b h w D0 I0 s /\ v_bdisk s b = false) s0 (done_wait b fuel s).
Proof.
  induction fuel as [|f IH]; intros s0 s Hs Hi; cbn [done_wait]; rewrite bind_gets; destruct (v_bdisk s b) eqn:E; try done.
  apply sure_sleep_lk; [by destruct Hs|by apply inside_end|]. intros s2 HR.
  destruct (rely_inside b s0 s s2 Hs HR) as (L2 & V2 & K2). split; [done|]. apply IH; [by apply inside_start|].
  eapply flying_kept; [eapply flying_kept; [exact Hi|exact K2]|apply same_flight_kept, put_lock_same].
Qed.

(** What the caller finds when the transfer returns. *)
Definition transferred (b : Z) (write : bool) (D0 I0 : block) (s : vdisk) : Prop :=
  (forall h, v_info s h <> Some b) /\ v_bdisk s b = false /\
  v_data s b = (if write then D0 else I0) /\ v_image s (blockno b) = (if write then D0 else I0).

Lemma virtio_disk_rw_spec b w wakes s D0 I0 :
  is_buf b -> v_lock s = false -> vinv s -> idle b D0 I0 s ->
  sure (vrely b) (vguar b) (fun s0 _ s => vguar b s0 s /\ transferred b w D0 I0 s) s (virtio_disk_rw blockno b w wakes s).
Proof.
  intros Hbuf Hl Hs Hi. unfold virtio_disk_rw, vd_acquire. rewrite (bind_Done _ _ _ _ _ (acquire_lk_free _ _ s Hl)).
  apply sure_bind. eapply sure_mono; [|apply (alloc3_wait_spec b D0 I0); [by apply inside_start|]].
  2: { eapply idle_kept; [exact Hi|apply same_flight_kept, put_lock_same]. }
  intros s0 [[i0 i1] i2] s1 (t & (Lt & Vt & Kt) & (Ht1 & Ht2 & Ht3 & Ht4) & Hnd & Hf & ->).
  destruct (post_request blockno b w (i0, i1, i2) (take_desc i2 (take_desc i1 (take_desc i0 t)))) as [[] s4| | |] eqn:E4.
  2-4: unfold post_request in E4; rewrite !bind_modify in E4; done.
  rewrite (bind_Done _ _ _ _ _ E4).
  assert (inside b s0 s4) as H4.
  { destruct (post_fields b w i0 i1 i2 t s4 E4) as (E & _). split; [congruence|]. split; [by eapply post_inv|].
    intros b' Hb' Hb. eapply kept_trans; [by apply Kt|]. by eapply (post_kept b w i0 i1 i2 t s4). }
  apply sure_bind. eapply sure_mono; [|apply (done_wait_spec b i0 w D0 I0); [exact H4|by eapply (post_flying b w i0 i1 i2 t s4)]].
  cbn [fst snd]. intros s5 _ u ((Lu & Vu & Ku) & (Hu & Htype & HD & HI) & Hbd). rewrite bind_modify. fold (cleared i0 u).
  rewrite (bind_Done _ _ _ _ _ (finish_run b i0 u Vu Hu Hbd)). unfold vd_release. rewrite release_lk_held by done. cbn [sure].
  assert (inside b s5 (finished i0 u)) as Hin.
  { split; [done|]. split; [by eapply finish_inv|]. intros b' Hb' Hb. eapply kept_trans; [by apply Ku|]. by eapply finish_kept. }
  split; [by apply inside_end|]. destruct (finish_idle b i0 u Vu Hu Hbd) as [(F1 & F2 & F3 & F4) F5].
  split; [done|]. split; [done|]. cbn in *. destruct w.
  - specialize (HD eq_refl). split; congruence.
  - specialize (HI eq_refl). split; congruence.
Qed.

(** ** The interrupt handler *)

Section Intr.

Context (s : vdisk) (h b : Z).
Context (Hs : vinv s) (Hn : 0 < n_used s) (Eh : v_used s (v_used_idx s) = h) (Hb : v_info s h = Some b).

Definition acked : vdisk := put_used_idx ((v_used_idx s + 1) mod NUM) (put_bdisk (fset (v_bdisk s) b false) s).

Lemma acked_n : n_used acked = n_used s - 1.
Proof.
  pose proof (few_used s Hs). unfold n_used in *. cbn. unfold NUM in *. Z.div_mod_to_equations; lia.
Qed.

Lemma reported_cons : reported s = h :: reported acked.
Proof.
  unfold reported at 1. rewrite map_ring_cons by done. f_equal.
  - rewrite Z.mod_small by (apply (vi_used_idx s Hs)). done.
  - unfold reported. rewrite acked_n. cbn. apply map_ext. intros j. f_equal. unfold NUM. Z.div_mod_to_equations; lia.
Qed.

Lemma heads_cons : heads s ≡ₚ h :: heads acked.
Proof. unfold heads. rewrite reported_cons. cbn. by rewrite !Permutation_middle. Qed.

Lemma acked_only k c : v_info s k = Some c -> k <> h -> c <> b.
Proof. intros Hk Hne. by apply (vi_apart s Hs k h c b Hk Hb Hne). Qed.

Lemma acked_inv : vinv acked.
Proof.
  pose proof (vi_nodup s Hs) as Hnd. rewrite heads_cons, NoDup_cons in Hnd. destruct Hnd as [Hh Hnd].
  assert (forall k, k ∈ heads s <-> k = h \/ k ∈ heads acked) as Hin by (intros k; rewrite heads_cons; by rewrite elem_of_cons).
  assert (forall c, c <> b -> v_bdisk acked c = v_bdisk s c) as Ebd by (intros c Hc; cbn; by rewrite fset_ne).
  assert (v_bdisk acked b = false) as Ebb by (cbn; by rewrite fset_eq).
  destruct (vi_request s Hs h b Hb).
  split; try (by apply Hs); try done.
  - cbn. unfold in_ring. by apply Z.mod_pos_bound.
  - intros k. split.
    + intros Hk. destruct (proj1 (vi_heads s Hs k)) as (c & Hc & Hd); [apply Hin; by right|]. exists c. split; [done|].
      rewrite Ebd; [done|]. apply (acked_only k); [done|]. intros ->. done.
    + intros (c & Hc & Hd). assert (c <> b) by congruence. rewrite Ebd in Hd by done.
      assert (k ∈ heads s) as Hk by (apply vi_heads; [done|by exists c]). apply Hin in Hk as [->|]; [|done].
      cbn in Hc. rewrite Hb in Hc. congruence.
  - intros k c Hk. destruct (vi_request s Hs k c Hk). by split.
  - intros k c Hk Hor. change (v_data s c = v_image s (blockno c)). destruct (decide (k = h)) as [->|Hne].
    + assert (c = b) as -> by (cbn in Hk; congruence). apply (vi_moved s Hs h); [done|left]. rewrite reported_cons. by left.
    + apply (vi_moved s Hs k); [done|]. destruct Hor as [Hr|Hd]; [left; rewrite reported_cons; by right|right].
      rewrite Ebd in Hd; [done|]. by apply (acked_only k).
  - intros c Hc. destruct (decide (c = b)) as [->|]; [congruence|]. rewrite Ebd in Hc by done. by apply vi_busy in Hc.
Qed.

Lemma acked_kept c : kept c s acked.
Proof.
  split; try done. intros Hc. cbn. destruct (decide (c = b)) as [->|]; [by rewrite fset_eq|]. by rewrite fset_ne.
Qed.

End Intr.

Lemma reported_head s : vinv s -> 0 < n_used s ->
  exists b, v_info s (v_used s (v_used_idx s)) = Some b /\ v_status s (v_used s (v_used_idx s)) = 0.
Proof.
  intros Hs Hn. assert (v_used s (v_used_idx s) ∈ heads s) as Hin.
  { unfold heads. rewrite !elem_of_app. right. right. unfold reported. rewrite map_ring_cons by done.
    rewrite Z.mod_small by (apply (vi_used_idx s Hs)). by left. }
  apply (vi_heads s Hs) in Hin as (b & Hb & _). exists b. split; [done|]. by destruct (vi_request s Hs _ _ Hb).
Qed.

Lemma intr_loop_spec left : forall s, vinv s -> n_used s <= Z.of_nat left ->
  exists s', intr_loop left s = Done tt s' /\ vinv s' /\ v_lock s' = v_lock s /\ (forall b, kept b s s') /\ reported s' = [].
Proof.
  induction left as [|l IH]; intros s Hs Hn; pose proof (few_used s Hs) as [Hn0 _];
    cbn [intr_loop]; rewrite bind_gets; cbn [id];
    (assert ((v_used_idx s mod NUM =? v_used_id s mod NUM) = (n_used s =? 0)) as ->;
      [unfold n_used, NUM in *; destruct (Z.eqb_spec (v_used_idx s mod 8) (v_used_id s mod 8)), (Z.eqb_spec ((v_used_id s - v_used_idx s) mod 8) 0); try done; exfalso; Z.div_mod_to_equations; lia|]);
    destruct (Z.eqb_spec (n_used s) 0) as [E|E]; cbn [negb].
  1,3: exists s; split; [done|]; split; [done|]; split; [done|]; split; [intros; apply kept_refl|]; unfold reported; by rewrite E.
  - lia.
  - destruct (reported_head s Hs ltac:(lia)) as (b & Hb & Hst). rewrite Hst, Hb. cbn [negb Z.eqb].
    rewrite bind_modify. unfold wakeup_chan. rewrite bind_ret, bind_modify.
    change (put_used_idx _ _) with (acked s b).
    assert (vinv (acked s b)) as Ha by (eapply acked_inv; [done|lia|reflexivity|done]).
    destruct (IH (acked s b) Ha) as (s' & E1 & E2 & E3 & E4 & E5); [rewrite (acked_n s b Hs ltac:(lia)); lia|].
    exists s'. split; [exact E1|]. split; [done|]. split; [done|]. split; [|done]. intros c. eapply kept_trans; [apply acked_kept|apply E4].
Qed.

Lemma virtio_disk_intr_spec s : v_lock s = false -> vinv s ->
  exists s', virtio_disk_intr s = Done tt s' /\ v_lock s' = false /\ vinv s' /\ (forall b, kept b s s') /\ reported s' = [].
Proof.
  intros Hl Hs. unfold virtio_disk_intr, vd_acquire. rewrite (bind_Done _ _ _ _ _ (acquire_lk_free _ _ s Hl)).
  assert (vinv (put_lock true s)) as H1 by (eapply same_flight_inv; [done|apply put_lock_same]).
  destruct (intr_loop_spec (Z.to_nat NUM) (put_lock true s) H1) as (s' & E1 & E2 & E3 & E4 & E5).
  { pose proof (few_used _ H1). change (Z.of_nat (Z.to_nat NUM)) with 8. lia. }
  rewrite (bind_Done _ _ _ _ _ E1). unfold vd_release. rewrite release_lk_held by (by rewrite E3).
  eexists. split; [reflexivity|]. split; [done|]. split; [eapply same_flight_inv; [exact E2|apply put_lock_same]|].
  split; [|done]. intros b. eapply kept_trans; [apply same_flight_kept, (put_lock_same true)|].
  eapply kept_trans; [apply E4|]. apply same_flight_kept, put_lock_same.
Qed.

(** ** The device *)

(** A change of the rings only, that keeps the set of heads. *)
Lemma rings_inv s s' :
  vinv s -> heads s' ≡ₚ heads s -> (forall h, h ∈ reported s' -> h ∈ reported s) ->
  0 <= v_avail_idx s' < 2 ^ 16 -> 0 <= v_seen s' < 2 ^ 16 -> 0 <= v_used_id s' < 2 ^ 16 -> in_ring (v_used_idx s') ->
  v_free s' = v_free s -> v_desc s' = v_desc s -> v_info s' = v_info s -> v_status s' = v_status s -> v_hdr s' = v_hdr s ->
  v_bdisk s' = v_bdisk s -> v_data s' = v_data s -> v_image s' = v_image s -> vinv s'.
Proof.
  intros Hs Hp Hr R1 R2 R3 R4 Ef Ed Ei Est Eh Eb Eda Eim.
  assert (forall h b, v_info s h = Some b -> request s' h b /\ chain s' h = chain s h) as Hreq.
  { intros h b Hh. apply request_same; [by apply vi_request|by rewrite Ed|by rewrite Eh|by rewrite Est]. }
  destruct Hs as [H1 H2 H3 H4 H5 H6 H7 H8 H9 H10 H11].
  split; rewrite ?Ei, ?Eb, ?Eda, ?Eim, ?Ef; try done.
  - by rewrite Hp.
  - intros h. by rewrite Hp.
  - intros h b Hh. by apply Hreq.
  - intros h h' b b' Hh Hh' Hne. destruct (Hreq h b Hh) as [_ ->]. destruct (Hreq h' b' Hh') as [_ ->]. by apply (H8 h h' b b').
  - intros i Hi. rewrite H9 by done. split; intros (h & b & Hh & Hc); exists h, b; (split; [done|]);
      destruct (Hreq h b Hh) as [_ Ec]; [by rewrite Ec|by rewrite <- Ec].
  - intros h b Hh [Hin|Hd]; apply (H10 h); auto.
Qed.

Lemma dev_fetch_spec s : vinv s -> v_seen s <> v_avail_idx s ->
  let s' := put_dev (u16 (v_seen s + 1)) (v_taken s ++ [v_avail s (v_seen s mod NUM)]) s in
  vinv s' /\ forall b, kept b s s'.
Proof.
  intros Hs Hne s'. split; [|intros b; by split].
  pose proof (vi_avail s Hs). pose proof (vi_seen s Hs). pose proof (few_posted s Hs) as Hp.
  assert (0 < n_posted s) as Hpos.
  { unfold n_posted, u16 in *. change (2 ^ 16) with 65536 in *. Z.div_mod_to_equations; lia. }
  assert (n_posted s' = n_posted s - 1) as En.
  { unfold n_posted, u16 in *. cbn. unfold u16. change (2 ^ 16) with 65536 in *. Z.div_mod_to_equations; lia. }
  apply (rings_inv s s'); try done; try (by apply Hs).
  - unfold heads. assert (posted s = v_avail s (v_seen s mod NUM) :: posted s') as ->.
    { unfold posted at 1. rewrite map_ring_cons by done. f_equal. unfold posted. rewrite En. cbn. apply map_ext. intros j.
      f_equal. unfold u16, NUM. change (2 ^ 16) with 65536. Z.div_mod_to_equations; lia. }
    cbn [v_taken put_dev s']. change (reported s') with (reported s). rewrite (Permutation_app_comm (v_taken s)). cbn. symmetry. apply Permutation_middle.
  - cbn. unfold u16. by apply Z.mod_pos_bound.
Qed.

Lemma device_transfer_spec s h l1 l2 :
  vinv s -> v_taken s = l1 ++ h :: l2 -> let s' := put_dev (v_seen s) (l1 ++ l2) (device_transfer h s) in
  vinv s' /\ forall b, is_buf b -> kept b s s'.
Proof.
  intros Hs Et s2. assert (h ∈ heads s) as Hin by (unfold heads; rewrite Et, !elem_of_app, elem_of_cons; auto).
  destruct (proj1 (vi_heads s Hs h) Hin) as (b & Hb & Hbd). pose proof (vi_request s Hs h b Hb) as Hrq.
  destruct Hrq as [Hbuf _ _ (type & Eh & Hty) A0 A1 A2 _ _ _ Hwf Hst].
  assert (2 * blockno b / (BSIZE / 512) = blockno b) as Eb by (change (BSIZE / 512) with 2; Z.div_mod_to_equations; lia).
  rewrite Eh in Hwf. cbn [fst] in Hwf.
  assert (s2 = put_dev (v_seen s) (l1 ++ l2) (device_report h (put_status (fset (v_status s) h 0)
    (if type =? VIRTIO_BLK_T_OUT then put_image (fset (v_image s) (blockno b) (v_data s b)) s
     else put_data (fset (v_data s) b (v_image s (blockno b))) s)))) as E.
  { unfold s2, device_transfer. fold (second s h). fold (third s h). rewrite A0, A1, A2, Eh, Hwf, Eb. by destruct (type =? _). }
  pose proof (vi_used_id s Hs) as Hu. pose proof (vi_used_idx s Hs) as Hui. unfold in_ring in Hui. pose proof (few_used s Hs) as [Hn Hn2].
  rewrite Et, length_app in Hn2. cbn [length] in Hn2.
  assert (v_avail_idx s2 = v_avail_idx s /\ v_avail s2 = v_avail s /\ v_seen s2 = v_seen s /\ v_used_idx s2 = v_used_idx s /\
    v_used_id s2 = u16 (v_used_id s + 1) /\ v_used s2 = fset (v_used s) (v_used_id s mod NUM) h /\
    v_free s2 = v_free s /\ v_desc s2 = v_desc s /\ v_info s2 = v_info s /\ v_hdr s2 = v_hdr s /\ v_bdisk s2 = v_bdisk s /\
    v_status s2 = fset (v_status s) h 0 /\ v_taken s2 = l1 ++ l2) as (Q1 & Q2 & Q3 & Q4 & Q5 & Q6 & Q7 & Q8 & Q9 & Q10 & Q11 & Q12 & Q13).
  { rewrite E. by destruct Hty as [-> | ->]. }
  assert ((forall c, c <> b -> v_data s2 c = v_data s c) /\ (forall c, is_buf c -> c <> b -> v_image s2 (blockno c) = v_image s (blockno c)) /\
    v_data s2 b = v_image s2 (blockno b) /\ (type = VIRTIO_BLK_T_OUT -> v_data s2 b = v_data s b) /\
    (type = VIRTIO_BLK_T_IN -> v_image s2 (blockno b) = v_image s (blockno b))) as (T1 & T2 & T3 & T4 & T5).
  { rewrite E. destruct Hty as [-> | ->]; cbn; rewrite ?fset_eq;
      split_and!; try done.
    - intros c Hc. by rewrite fset_ne.
    - intros c Hcb Hc. rewrite fset_ne; [done|]. intros Hbn. by apply Hc, blockno_inj. }
  clear E. clearbody s2.
  assert (n_used s2 = n_used s + 1) as En.
  { unfold n_used in *. rewrite Q4, Q5. unfold u16, NUM in *. change (2 ^ 16) with 65536 in *. Z.div_mod_to_equations; lia. }
  assert (reported s2 = reported s ++ [h]) as Er.
  { unfold reported. rewrite En, Q4, Q6. assert (v_used_id s mod NUM = (v_used_idx s + n_used s) mod NUM) as ->
      by (unfold n_used, NUM; Z.div_mod_to_equations; lia). apply map_ring_snoc. unfold NUM. lia. }
  assert (heads s2 ≡ₚ heads s) as Hp.
  { unfold heads. rewrite Er, Q13, Et. unfold posted, n_posted. rewrite Q1, Q2, Q3. f_equiv. rewrite <- !app_assoc. f_equiv.
    rewrite (app_assoc l2). by rewrite (Permutation_app_comm (l2 ++ reported s)). }
  assert (forall k c, v_info s k = Some c -> k <> h -> c <> b) as Honly by (intros k c Hk Hne; by apply (vi_apart s Hs k h c b Hk Hb Hne)).
  assert (forall k c, v_info s k = Some c -> request s2 k c /\ chain s2 k = chain s k) as Hreq.
  { intros k c Hk. apply request_same; [by apply vi_request|by rewrite Q8|by rewrite Q10|]. rewrite Q12.
    destruct (decide (k = h)) as [->|]; [by rewrite fset_eq|by rewrite fset_ne]. }
  split.
  - pose proof Hs as Hs0. destruct Hs as [H1 H2 H3 H4 H5 H6 H7 H8 H9 H10 H11].
    split; rewrite ?Q1, ?Q3, ?Q4, ?Q5, ?Q7, ?Q9, ?Q11; try done.
    + unfold u16. by apply Z.mod_pos_bound.
    + by rewrite Hp.
    + intros k. by rewrite Hp.
    + intros k c Hk. by apply Hreq.
    + intros k k' c c' Hk Hk' Hne. destruct (Hreq k c Hk) as [_ ->]. destruct (Hreq k' c' Hk') as [_ ->]. by apply (H8 k k' c c').
    + intros i Hi. rewrite H9 by done. split; intros (k & c & Hk & Hc); exists k, c; (split; [done|]);
        destruct (Hreq k c Hk) as [_ Ec]; [by rewrite Ec|by rewrite <- Ec].
    + intros k c Hk Hor. destruct (decide (k = h)) as [->|Hne]; [assert (c = b) as -> by congruence; done|].
      rewrite T1, T2; [|by destruct (vi_request s Hs0 k c Hk)|by apply (Honly k)|by apply (Honly k)]. apply (H10 k); [done|]. destruct Hor as [Hr|Hd]; [left|by right].
      rewrite Er, elem_of_app, list_elem_of_singleton in Hr. by destruct Hr.
  - intros c Hc. destruct (decide (c = b)) as [->|Hne].
    + split; rewrite ?Q9, ?Q10, ?Q11; try done; [congruence|intros k Hk|intros k Hk]; rewrite Eh; cbn; auto.
    + split; rewrite ?Q9, ?Q10, ?Q11, ?T1, ?T2 by done; done.
Qed.

Lemma device_step_spec s s' : vinv s -> v_lock s = false -> device_step s s' -> v_lock s' = false /\ vinv s' /\ forall b, is_buf b -> kept b s s'.
Proof.
  intros Hs Hl Hd. destruct Hd as [Hne|l1 h l2 Et].
  - split; [done|]. destruct (dev_fetch_spec s Hs Hne) as [? ?]. by split.
  - split; [|by apply (device_transfer_spec s h l1 l2)].
    unfold device_transfer. destruct (vd_addr _); try done. destruct (vd_addr _); try done. destruct (vd_addr _); try done.
    destruct (v_hdr s b) as [[? ?] ?]. destruct (well_formed _ _ _ _); [|done]. by destruct (_ =? _).
Qed.

(** [C2] A disk transfer is atomic for its caller: whatever other transfers,
    the device and the interrupt handler do while it sleeps, [virtio_disk_rw]
    does not panic, and when it returns the disk block and the buffer both hold
    what the buffer held at the call (for a write) or what the block held at
    the call (for a read), no descriptor of it is left in use, and no other
    transfer is disturbed.  Conversely the device's steps (it reports an error
    for descriptors of wrong length or direction, and there are none), the interrupt
    handler (which does not panic either) and every other transfer only do what
    the caller relies on. *)
Theorem disk_transfer_atomic (b : Z) (write : bool) (wakes : nat) (s : vdisk) (D0 I0 : block)
    (Hbuf : is_buf b) (Hl : v_lock s = false) (Hs : vinv s) (Hidle : idle b D0 I0 s) :
  sure (vrely b) (vguar b) (fun s0 _ s' => vguar b s0 s' /\ transferred b write D0 I0 s') s
    (virtio_disk_rw blockno b write wakes s) /\
  (forall b' s s', is_buf b' -> b' <> b -> vguar b s s' -> vrely b' s s') /\
  (forall s s', device_step s s' -> vrely b s s') /\
  (forall s, v_lock s = false -> vinv s -> exists s', virtio_disk_intr s = Done tt s' /\ vrely b s s').
Proof.
  split; [by apply virtio_disk_rw_spec|]. split; [|split].
  - intros b' t t' Hb' Hne (H1 & H2 & H3) _ _. split; [done|]. split; [done|]. by apply H3.
  - intros t t' Hd Hlt Ht. destruct (device_step_spec t t' Ht Hlt Hd) as (H1 & H2 & H3). split; [done|]. split; [done|]. by apply H3.
  - intros t Hlt Ht. destruct (virtio_disk_intr_spec t Hlt Ht) as (t' & E & H1 & H2 & H3 & _). exists t'. split; [done|].
    intros _ _. split; [done|]. split; [done|]. apply H3.
Qed.

(** The driver starts with every descriptor free and nothing in flight. *)
Lemma init_inv read pages s s' :
  virtio_disk_init read pages s = Done tt s' ->
  (forall i, v_info s i = None) -> (forall b, v_bdisk s b = false) -> v_used_idx s = 0 -> v_seen s = 0 -> v_taken s = [] ->
  v_lock s' = false /\ vinv s'.
Proof using Type.
  clear blockno_inj blockno_range.
  unfold virtio_disk_init. rewrite bind_modify. destruct (_ || _); [done|]. rewrite !bind_modify.
  destruct (_ =? 0); [done|]. destruct (_ <? NUM); [done|]. rewrite !bind_modify. unfold modify. intros [= <-] Hi Hb Hu Hse Ht.
  split; [done|].
  split; cbn; rewrite ?Hse, ?Hu; try done.
  - unfold heads, posted, reported, n_posted, n_used. cbn. rewrite Hu, Hse, Ht. cbn. by apply NoDup_nil_2.
  - intros h. unfold heads, posted, reported, n_posted, n_used. cbn. rewrite Hu, Hse, Ht. cbn. rewrite Hi. set_solver.
  - intros h b'. by rewrite Hi.
  - intros h h' b' c'. by rewrite Hi.
  - intros i Hr. unfold in_ring in Hr. rewrite (proj2 (Z.leb_le 0 i)), (proj2 (Z.ltb_lt i NUM)) by lia. cbn.
    split; [done|]. intros (h & b' & Hh & _). by rewrite Hi in Hh.
  - intros h b'. by rewrite Hi.
  - intros b'. by rewrite Hb.
Qed.

End VirtioInv.

(** A machine whose device answers as QEMU's does. *)
Definition qemu_regs (r : Z) : Z :=
  if r =? VIRTIO_MMIO_MAGIC_VALUE then 0x74726976 else if r =? VIRTIO_MMIO_VERSION then 1 else
  if r =? VIRTIO_MMIO_DEVICE_ID then 2 else if r =? VIRTIO_MMIO_VENDOR_ID then 0x554d4551 else
  if r =? VIRTIO_MMIO_QUEUE_NUM_MAX then 1024 else 0.
Definition null_desc : vdesc := mk_vdesc DNull 0 0 0.
Definition cold_disk : vdisk :=
  mk_vdisk false (fun _ => false) (fun _ => null_desc) 0 (fun _ => 0) 0 (fun _ => 0) 0 (fun _ => None) (fun _ => 0)
    (fun _ => (0, 0, 0)) (fun _ => false) (fun _ => []) [] (fun b => replicate 1024 (byte.of_Z b)) 0 [].
Definition warm_disk : vdisk :=
  match virtio_disk_init qemu_regs 0x80020000 cold_disk with Done _ s => s | _ => cold_disk end.

Lemma disk_transfer_atomic_witness :
  sure (vrely (fun b => b) 3) (vguar (fun b => b) 3)
    (fun s0 _ s' => vguar (fun b => b) 3 s0 s' /\ transferred (fun b => b) 3 false [] (replicate 1024 Byte.x03) s')
    warm_disk (virtio_disk_rw (fun b => b) 3 false 5 warm_disk).
Proof.
  refine (proj1 (disk_transfer_atomic (fun b => b) _ _ 3 false 5 warm_disk [] (replicate 1024 Byte.x03) _ _ _ _)).
  - by intros.
  - unfold is_buf, NBUF, MAXOPBLOCKS. intros b Hb. lia.
  - by vm_compute.
  - reflexivity.
  - by eapply (init_inv (fun b => b) qemu_regs 0x80020000 cold_disk).
  - split; [done|]. split; [done|]. split; [done|]. by vm_compute.
Defined.
