(* ===== verification/Proc.v ===== *)
(** * Processes: kernel/proc.c

    The process table, with the allocator and physical memory it draws on
    (Kalloc.v, Vm.v) and the file layer behind an interface.  Processes are
    named by their index in the table; [me] is the caller ([myproc()]).
    Switching to the scheduler is a sleep of the calling code: it gives up its
    process lock and continues when a scheduler has picked the process again.
    The interrupt-nesting checks of [sched] belong to Spinlock.v. *)

From S2P Require Import Prelude Rely CMem Riscv Kalloc Vm.

Inductive procstate := UNUSED | SLEEPING | RUNNABLE | RUNNING | SUSPENDED | ZOMBIE.

#[export] Instance procstate_eq_dec : EqDecision procstate.
Proof. solve_decision. Defined.

Definition st_eqb (a b : procstate) : bool := bool_decide (a = b).

Record proc := mk_proc {
  p_lock : bool;
  p_state : procstate;
  p_parent : option Z;
  p_chan : Z;
  p_killed : bool;
  p_xstate : Z;
  p_pid : Z;
  p_kstack : Z;
  p_sz : Z;
  p_pagetable : Z;
  p_tf : Z;
  p_context : Z * Z;
  p_ofile : list Z;
  p_cwd : Z;
  p_name : list byte;
  p_tracing : bool;
}.

(** Updates of one field. *)
Definition set_lock b p := mk_proc b (p_state p) (p_parent p) (p_chan p) (p_killed p) (p_xstate p) (p_pid p) (p_kstack p) (p_sz p) (p_pagetable p) (p_tf p) (p_context p) (p_ofile p) (p_cwd p) (p_name p) (p_tracing p).
Definition set_state st p := mk_proc (p_lock p) st (p_parent p) (p_chan p) (p_killed p) (p_xstate p) (p_pid p) (p_kstack p) (p_sz p) (p_pagetable p) (p_tf p) (p_context p) (p_ofile p) (p_cwd p) (p_name p) (p_tracing p).
Definition set_parent q p := mk_proc (p_lock p) (p_state p) q (p_chan p) (p_killed p) (p_xstate p) (p_pid p) (p_kstack p) (p_sz p) (p_pagetable p) (p_tf p) (p_context p) (p_ofile p) (p_cwd p) (p_name p) (p_tracing p).
Definition set_chan c p := mk_proc (p_lock p) (p_state p) (p_parent p) c (p_killed p) (p_xstate p) (p_pid p) (p_kstack p) (p_sz p) (p_pagetable p) (p_tf p) (p_context p) (p_ofile p) (p_cwd p) (p_name p) (p_tracing p).
Definition set_killed b p := mk_proc (p_lock p) (p_state p) (p_parent p) (p_chan p) b (p_xstate p) (p_pid p) (p_kstack p) (p_sz p) (p_pagetable p) (p_tf p) (p_context p) (p_ofile p) (p_cwd p) (p_name p) (p_tracing p).
Definition set_xstate x p := mk_proc (p_lock p) (p_state p) (p_parent p) (p_chan p) (p_killed p) x (p_pid p) (p_kstack p) (p_sz p) (p_pagetable p) (p_tf p) (p_context p) (p_ofile p) (p_cwd p) (p_name p) (p_tracing p).
Definition set_pid n p := mk_proc (p_lock p) (p_state p) (p_parent p) (p_chan p) (p_killed p) (p_xstate p) n (p_kstack p) (p_sz p) (p_pagetable p) (p_tf p) (p_context p) (p_ofile p) (p_cwd p) (p_name p) (p_tracing p).
Definition set_kstack n p := mk_proc (p_lock p) (p_state p) (p_parent p) (p_chan p) (p_killed p) (p_xstate p) (p_pid p) n (p_sz p) (p_pagetable p) (p_tf p) (p_context p) (p_ofile p) (p_cwd p) (p_name p) (p_tracing p).
Definition set_sz n p := mk_proc (p_lock p) (p_state p) (p_parent p) (p_chan p) (p_killed p) (p_xstate p) (p_pid p) (p_kstack p) n (p_pagetable p) (p_tf p) (p_context p) (p_ofile p) (p_cwd p) (p_name p) (p_tracing p).
Definition set_pagetable n p := mk_proc (p_lock p) (p_state p) (p_parent p) (p_chan p) (p_killed p) (p_xstate p) (p_pid p) (p_kstack p) (p_sz p) n (p_tf p) (p_context p) (p_ofile p) (p_cwd p) (p_name p) (p_tracing p).
Definition set_tf n p := mk_proc (p_lock p) (p_state p) (p_parent p) (p_chan p) (p_killed p) (p_xstate p) (p_pid p) (p_kstack p) (p_sz p) (p_pagetable p) n (p_context p) (p_ofile p) (p_cwd p) (p_name p) (p_tracing p).
Definition set_context c p := mk_proc (p_lock p) (p_state p) (p_parent p) (p_chan p) (p_killed p) (p_xstate p) (p_pid p) (p_kstack p) (p_sz p) (p_pagetable p) (p_tf p) c (p_ofile p) (p_cwd p) (p_name p) (p_tracing p).
Definition set_ofile fd f p := mk_proc (p_lock p) (p_state p) (p_parent p) (p_chan p) (p_killed p) (p_xstate p) (p_pid p) (p_kstack p) (p_sz p) (p_pagetable p) (p_tf p) (p_context p) (<[Z.to_nat fd := f]> (p_ofile p)) (p_cwd p) (p_name p) (p_tracing p).
Definition set_cwd c p := mk_proc (p_lock p) (p_state p) (p_parent p) (p_chan p) (p_killed p) (p_xstate p) (p_pid p) (p_kstack p) (p_sz p) (p_pagetable p) (p_tf p) (p_context p) (p_ofile p) c (p_name p) (p_tracing p).
Definition set_name n p := mk_proc (p_lock p) (p_state p) (p_parent p) (p_chan p) (p_killed p) (p_xstate p) (p_pid p) (p_kstack p) (p_sz p) (p_pagetable p) (p_tf p) (p_context p) (p_ofile p) (p_cwd p) n (p_tracing p).
Definition set_tracing b p := mk_proc (p_lock p) (p_state p) (p_parent p) (p_chan p) (p_killed p) (p_xstate p) (p_pid p) (p_kstack p) (p_sz p) (p_pagetable p) (p_tf p) (p_context p) (p_ofile p) (p_cwd p) (p_name p) b.

Definition ofile_at (p : proc) (fd : Z) : Z := nth (Z.to_nat fd) (p_ofile p) 0.

(** [struct trapframe]: byte offsets of the saved words the kernel touches. *)
Definition TF_SIZE : Z := 288.
Definition tf_epc : Z := 24.
Definition tf_sp : Z := 48.
Definition tf_a0 : Z := 112.

(** ** The file layer, as processes use it *)

(** Pointers are numbers, 0 is the null pointer.  A user buffer is given to
    [filewrite] as what a copy of [n] bytes from an address fetches before it
    faults; [readi] into a kernel buffer returns its result with the bytes it
    stored.  The file layer shares the page allocator: pipes live in pages. *)
Class FileEnv (F : Type) := {
  e_filedup : Z -> M (kmem * F) Z;
  e_fileclose : Z -> M (kmem * F) unit;
  e_filewrite : Z -> (Z -> nat -> list byte) -> Z -> Z -> M (kmem * F) Z;
  e_idup : Z -> M (kmem * F) Z;
  e_iput : Z -> M (kmem * F) unit;
  e_ilock : Z -> M (kmem * F) unit;
  e_iunlockput : Z -> M (kmem * F) unit;
  e_readi : Z -> Z -> Z -> M (kmem * F) (Z * list byte);
  e_begin_op : M (kmem * F) unit;
  e_end_op : M (kmem * F) unit;
  e_namei : Z -> list byte -> M (kmem * F) Z;
  (** duplicating references only takes spin locks *)
  e_filedup_awake f : awake (e_filedup f);
  e_idup_awake i : awake (e_idup i);
}.

(** A string routine of CMem.v on two separate buffers; the new destination. *)
Definition on_bufs (f : mem -> Z -> Z -> mem) (dst src : list byte) : list byte :=
  read_bytes (f (write_bytes (write_bytes (fun _ => Byte.x00) 0 dst) 4096 src) 0 4096) 0 (length dst).
Definition safestrcpy_buf (n : Z) (dst src : list byte) : list byte := on_bufs (fun m d s => safestrcpy m d s n) dst src.
Definition strncpy_buf (n : Z) (dst src : list byte) : list byte := on_bufs (fun m d s => strncpy m d s n) dst src.

(** What a copy from user memory fetches before a fault. *)
Definition user_src (k : kmem) (pagetable : Z) (fuel : nat) (src : Z) (n : nat) : list byte :=
  match copyin pagetable src (Z.of_nat n) fuel k with Done (_, bs) _ => bs | _ => [] end.
(** The same from kernel memory, and from a kernel buffer. *)
Definition ram_src (k : kmem) (src : Z) (n : nat) : list byte := read_bytes (ram k) src n.
Definition buf_src (l : list byte) (src : Z) (n : nat) : list byte := take n (drop (Z.to_nat src) l).

(** ** State *)

Record kst (F : Type) := mk_kst {
  procs : Z -> proc;
  nextpid : Z;
  pid_lock : bool;
  initproc : option Z;
  km : kmem;
  files : F;
}.
Arguments mk_kst {F}. Arguments procs {F}. Arguments nextpid {F}. Arguments pid_lock {F}. Arguments initproc {F}. Arguments km {F}. Arguments files {F}.

Definition upd {F} (i : Z) (f : proc -> proc) (s : kst F) : kst F :=
  mk_kst (fset (procs s) i (f (procs s i))) (nextpid s) (pid_lock s) (initproc s) (km s) (files s).
Definition set_nextpid {F} n (s : kst F) : kst F := mk_kst (procs s) n (pid_lock s) (initproc s) (km s) (files s).
Definition set_pid_lock {F} b (s : kst F) : kst F := mk_kst (procs s) (nextpid s) b (initproc s) (km s) (files s).
Definition set_initproc {F} q (s : kst F) : kst F := mk_kst (procs s) (nextpid s) (pid_lock s) q (km s) (files s).
Definition set_km {F} k (s : kst F) : kst F := mk_kst (procs s) (nextpid s) (pid_lock s) (initproc s) k (files s).
Definition set_files {F} f (s : kst F) : kst F := mk_kst (procs s) (nextpid s) (pid_lock s) (initproc s) (km s) f.

(** A process as a sleep channel (the address of its table entry). *)
Definition proc_chan (i : Z) : Z := i + 1.

Section Proc.

Context {F : Type} `{FE : FileEnv F}.

(** Linker symbols: the end of the kernel, the trampoline page, [forkret]. *)
Context (kend trampoline forkret_pc : Z).

Notation MK := (M (kst F)).

Definition onk {A} (m : M kmem A) : MK A := lift km set_km m.
Definition kf (s : kst F) : kmem * F := (km s, files s).
Definition set_kf (x : kmem * F) (s : kst F) : kst F := set_km (fst x) (set_files (snd x) s).
Definition onf {A} (m : M (kmem * F) A) : MK A := lift kf set_kf m.
Definition proc_of (i : Z) : MK proc := gets (fun s => procs s i).
Definition upd_proc (i : Z) (f : proc -> proc) : MK unit := modify (upd i f).
Definition acquire_p (i : Z) : MK unit := acquire_lk (fun s => p_lock (procs s i)) (fun b => upd i (set_lock b)).
Definition release_p (i : Z) : MK unit := release_lk (fun s => p_lock (procs s i)) (fun b => upd i (set_lock b)).

(** Loops over the table, [for (p = proc; p < &proc[NPROC]; p++)]; the body
    returns [Some] to leave the loop. *)
Fixpoint for_procs {A} (body : Z -> MK (option A)) (i : Z) (left : nat) : MK (option A) :=
  match left with
  | O => ret None
  | S left' => r <- body i ;; match r with Some a => ret (Some a) | None => for_procs body (i + 1) left' end
  end.
Definition each_proc {A} (body : Z -> MK (option A)) : MK (option A) := for_procs body 0 (Z.to_nat NPROC).

(** [for (p ...) { acquire(&p->lock); ... release(&p->lock); }] without exit *)
Definition each_locked (body : Z -> MK unit) : MK unit :=
  _ <- each_proc (A := unit) (fun i => acquire_p i ;;; body i ;;; release_p i ;;; ret None) ;; ret tt.

(** [procinit], for the entries from [i] on; [kpgtbl] is the kernel's page
    table.  The call of [kvminithart] at its end (Trap.v) loads the register
    that holds the table already. *)
Fixpoint procinit_loop (kpgtbl i : Z) (left fuel : nat) : MK unit :=
  match left with
  | O => ret tt
  | S left' =>
      upd_proc i (set_lock false) ;;;
      pa <- onk kalloc ;;
      if pa =? 0 then panic "kalloc" else
      let va := KSTACK i in
      onk (kvmmap kpgtbl va pa PGSIZE (Z.lor PTE_R PTE_W) fuel) ;;;
      upd_proc i (set_kstack va) ;;;
      procinit_loop kpgtbl (i + 1) left' fuel
  end.
Definition procinit (kpgtbl : Z) (fuel : nat) : MK unit :=
  modify (set_pid_lock false) ;;; procinit_loop kpgtbl 0 (Z.to_nat NPROC) fuel.

Definition allocpid : MK Z :=
  acquire_lk pid_lock set_pid_lock ;;;
  pid <- gets nextpid ;;
  modify (fun s => set_nextpid (s32 (nextpid s + 1)) s) ;;;
  release_lk pid_lock set_pid_lock ;;;
  ret pid.

Definition proc_pagetable (tf : Z) (fuel : nat) : M kmem Z :=
  pagetable <- uvmcreate ;;
  _ <- mappages pagetable TRAMPOLINE PGSIZE trampoline (Z.lor PTE_R PTE_X) fuel ;;
  _ <- mappages pagetable TRAPFRAME PGSIZE tf (Z.lor PTE_R PTE_W) fuel ;;
  ret pagetable.

Definition proc_freepagetable (pagetable sz : Z) (fuel : nat) : M kmem unit :=
  uvmunmap kend pagetable TRAMPOLINE PGSIZE false fuel ;;;
  uvmunmap kend pagetable TRAPFRAME PGSIZE false fuel ;;;
  if sz >? 0 then uvmfree kend pagetable sz fuel else ret tt.

(** Returns with the lock of the entry held. *)
Definition allocproc (fuel : nat) : MK (option Z) :=
  r <- each_proc (fun i => acquire_p i ;;; p <- proc_of i ;;
         if st_eqb (p_state p) UNUSED then ret (Some i) else release_p i ;;; ret None) ;;
  match r with
  | None => ret None
  | Some i =>
      pid <- allocpid ;;
      upd_proc i (set_pid pid) ;;;
      tf <- onk kalloc ;;
      upd_proc i (set_tf tf) ;;;
      if tf =? 0 then release_p i ;;; ret None else
      pagetable <- onk (proc_pagetable tf fuel) ;;
      upd_proc i (set_pagetable pagetable) ;;;
      upd_proc i (fun p => set_context (forkret_pc, p_kstack p + PGSIZE) p) ;;;
      upd_proc i (set_tracing false) ;;;
      ret (Some i)
  end.

(** [p->name[0] = 0] *)
Definition cut_name (p : proc) : proc := set_name (<[0%nat := Byte.x00]> (p_name p)) p.

Definition freeproc (i : Z) (fuel : nat) : MK unit :=
  p <- proc_of i ;;
  (if negb (p_tf p =? 0) then onk (kfree kend (p_tf p)) else ret tt) ;;;
  upd_proc i (set_tf 0) ;;;
  (if negb (p_pagetable p =? 0) then onk (proc_freepagetable (p_pagetable p) (p_sz p) fuel) else ret tt) ;;;
  upd_proc i (set_pagetable 0) ;;;
  upd_proc i (set_sz 0) ;;;
  upd_proc i (set_pid 0) ;;;
  upd_proc i (set_parent None) ;;;
  upd_proc i cut_name ;;;
  upd_proc i (set_chan 0) ;;;
  upd_proc i (set_killed false) ;;;
  upd_proc i (set_xstate 0) ;;;
  upd_proc i (set_state UNUSED).

(** A user program that calls exec("/init"), and the name of its process. *)
Definition initcode : list byte := map byte.of_Z
  [0x17; 0x05; 0x00; 0x00; 0x13; 0x05; 0x05; 0x02;
   0x97; 0x05; 0x00; 0x00; 0x93; 0x85; 0x05; 0x02;
   0x9d; 0x48; 0x73; 0x00; 0x00; 0x00; 0x89; 0x48;
   0x73; 0x00; 0x00; 0x00; 0xef; 0xf0; 0xbf; 0xff;
   0x2f; 0x69; 0x6e; 0x69; 0x74; 0x00; 0x00; 0x01;
   0x20; 0x00; 0x00; 0x00; 0x00; 0x00; 0x00; 0x00;
   0x00; 0x00; 0x00].
Definition initcode_name : list byte := map byte.of_Z [105; 110; 105; 116; 99; 111; 100; 101; 0].

Definition userinit (fuel : nat) : MK unit :=
  r <- allocproc fuel ;;
  match r with
  | None => panic "kerneltrap"
  | Some i =>
      modify (set_initproc (Some i)) ;;;
      p <- proc_of i ;;
      onk (uvminit (p_pagetable p) initcode fuel) ;;;
      upd_proc i (set_sz PGSIZE) ;;;
      onk (modify_ram (fun m => store64 m (p_tf p + tf_epc) 0)) ;;;
      onk (modify_ram (fun m => store64 m (p_tf p + tf_sp) PGSIZE)) ;;;
      upd_proc i (fun p => set_name (safestrcpy_buf 16 (p_name p) initcode_name) p) ;;;
      cwd <- onf (e_namei 0 [byte.of_Z 47]) ;;
      upd_proc i (set_cwd cwd) ;;;
      upd_proc i (set_state RUNNABLE) ;;;
      release_p i
  end.

Definition growproc (me n : Z) (fuel : nat) : MK Z :=
  p <- proc_of me ;;
  let sz := u32 (p_sz p) in
  if n >? 0 then
    r <- onk (uvmalloc kend (p_pagetable p) sz (u32 (sz + n)) fuel) ;;
    let sz := u32 r in
    if sz =? 0 then ret (-1) else upd_proc me (set_sz sz) ;;; ret 0
  else if n <? 0 then
    r <- onk (uvmdealloc kend (p_pagetable p) sz (u32 (sz + n)) fuel) ;;
    upd_proc me (set_sz (u32 r)) ;;; ret 0
  else upd_proc me (set_sz sz) ;;; ret 0.

(** [if (p->ofile[i]) np->ofile[i] = filedup(p->ofile[i])] *)
Fixpoint fork_files (me np fd : Z) (left : nat) : MK unit :=
  match left with
  | O => ret tt
  | S left' =>
      p <- proc_of me ;;
      (if negb (ofile_at p fd =? 0) then f <- onf (e_filedup (ofile_at p fd)) ;; upd_proc np (set_ofile fd f) else ret tt) ;;;
      fork_files me np (fd + 1) left'
  end.

Definition fork (me : Z) (fuel : nat) : MK Z :=
  r <- allocproc fuel ;;
  match r with
  | None => ret (-1)
  | Some np =>
      p <- proc_of me ;;
      q <- proc_of np ;;
      c <- onk (uvmcopy kend (p_pagetable p) (p_pagetable q) (p_sz p) fuel) ;;
      if c <? 0 then freeproc np fuel ;;; release_p np ;;; ret (-1) else
      upd_proc np (set_sz (p_sz p)) ;;;
      upd_proc np (set_parent (Some me)) ;;;
      onk (modify_ram (fun m => write_bytes m (p_tf q) (read_bytes m (p_tf p) (Z.to_nat TF_SIZE)))) ;;;
      onk (modify_ram (fun m => store64 m (p_tf q + tf_a0) 0)) ;;;
      fork_files me np 0 (Z.to_nat NOFILE) ;;;
      cwd <- onf (e_idup (p_cwd p)) ;;
      upd_proc np (set_cwd cwd) ;;;
      upd_proc np (fun q => set_name (safestrcpy_buf 16 (p_name q) (p_name p)) q) ;;;
      pid <- gets (fun s => p_pid (procs s np)) ;;
      upd_proc np (set_state RUNNABLE) ;;;
      release_p np ;;;
      ret pid
  end.

Definition reparent (me : Z) : MK unit :=
  _ <- each_proc (A := unit) (fun i =>
         p <- proc_of i ;;
         if bool_decide (p_parent p = Some me) then
           acquire_p i ;;;
           init <- gets initproc ;;
           upd_proc i (set_parent init) ;;;
           release_p i ;;; ret None
         else ret None) ;;
  ret tt.

(** The scheduler's half of a switch: what happens to a process between its
    call of [swtch] and the return of it. *)
Definition switch_out (me : Z) : MK unit := release_p me.
Definition switch_in (me : Z) : MK unit :=
  p <- proc_of me ;;
  if st_eqb (p_state p) RUNNABLE then acquire_p me ;;; upd_proc me (set_state RUNNING) else exhausted.

Definition sched (me : Z) : MK unit :=
  p <- proc_of me ;;
  if negb (p_lock p) then panic "sched p->lock" else
  if st_eqb (p_state p) RUNNING then panic "sched running" else
  switch_out me ;;; sleep_on (p_chan p) ;;; switch_in me.

Definition yield (me : Z) : MK unit :=
  acquire_p me ;;;
  upd_proc me (set_state RUNNABLE) ;;;
  sched me ;;;
  release_p me.

(** [sleep(chan, lk)] for a lock other than the process's own, and for its
    own. *)
Definition sleep (me chan : Z) (get : kst F -> bool) (set : bool -> kst F -> kst F) : MK unit :=
  acquire_p me ;;;
  release_lk get set ;;;
  upd_proc me (set_chan chan) ;;;
  upd_proc me (set_state SLEEPING) ;;;
  sched me ;;;
  upd_proc me (set_chan 0) ;;;
  release_p me ;;;
  acquire_lk get set.

Definition sleep_own (me chan : Z) : MK unit :=
  upd_proc me (set_chan chan) ;;;
  upd_proc me (set_state SLEEPING) ;;;
  sched me ;;;
  upd_proc me (set_chan 0).

Definition wakeup (chan : Z) : MK unit :=
  each_locked (fun i =>
    p <- proc_of i ;;
    if st_eqb (p_state p) SLEEPING && (p_chan p =? chan) then upd_proc i (set_state RUNNABLE) else ret tt).

Definition wakeup1 (i : Z) : MK unit :=
  p <- proc_of i ;;
  if negb (p_lock p) then panic "wakeup1" else
  if (p_chan p =? proc_chan i) && st_eqb (p_state p) SLEEPING then upd_proc i (set_state RUNNABLE) else ret tt.

(** The loop of [exit] that closes the files. *)
Fixpoint exit_files (me fd : Z) (left : nat) : MK unit :=
  match left with
  | O => ret tt
  | S left' =>
      p <- proc_of me ;;
      (if negb (ofile_at p fd =? 0) then onf (e_fileclose (ofile_at p fd)) ;;; upd_proc me (set_ofile fd 0) else ret tt) ;;;
      exit_files me (fd + 1) left'
  end.

Definition exit (me status : Z) : MK unit :=
  init <- gets initproc ;;
  if bool_decide (init = Some me) then panic "init exiting" else
  exit_files me 0 (Z.to_nat NOFILE) ;;;
  onf e_begin_op ;;;
  p <- proc_of me ;;
  onf (e_iput (p_cwd p)) ;;;
  onf e_end_op ;;;
  upd_proc me (set_cwd 0) ;;;
  init <- gets initproc ;;
  match init with
  | None => panic "kerneltrap"
  | Some ini =>
      acquire_p ini ;;;
      wakeup1 ini ;;;
      release_p ini ;;;
      acquire_p me ;;;
      p <- proc_of me ;;
      release_p me ;;;
      match p_parent p with
      | None => panic "kerneltrap"
      | Some original_parent =>
          acquire_p original_parent ;;;
          acquire_p me ;;;
          reparent me ;;;
          wakeup1 original_parent ;;;
          upd_proc me (set_xstate status) ;;;
          upd_proc me (set_state ZOMBIE) ;;;
          release_p original_parent ;;;
          sched me ;;;
          panic "zombie exit"
      end
  end.

(** One scan of the table by [wait]: [Some] is its result, [None] with the
    flag [havekids] otherwise. *)
Fixpoint wait_scan (me addr i : Z) (havekids : bool) (left fuel : nat) : MK (option Z * bool) :=
  match left with
  | O => ret (None, havekids)
  | S left' =>
      np <- proc_of i ;;
      if bool_decide (p_parent np = Some me) then
        acquire_p i ;;;
        np <- proc_of i ;;
        if st_eqb (p_state np) ZOMBIE then
          let pid := p_pid np in
          p <- proc_of me ;;
          c <- (if negb (addr =? 0) then onk (copyout (p_pagetable p) addr (le_split 4 (p_xstate np)) fuel) else ret 0) ;;
          if c <? 0 then release_p i ;;; release_p me ;;; ret (Some (-1), true) else
          freeproc i fuel ;;;
          release_p i ;;;
          release_p me ;;;
          ret (Some pid, true)
        else
          release_p i ;;;
          wait_scan me addr (i + 1) true left' fuel
      else wait_scan me addr (i + 1) havekids left' fuel
  end.

(** The endless loop; [wakes] bounds the wake-ups. *)
Fixpoint wait_loop (me addr : Z) (wakes fuel : nat) : MK Z :=
  r <- wait_scan me addr 0 false (Z.to_nat NPROC) fuel ;;
  match fst r with
  | Some v => ret v
  | None =>
      p <- proc_of me ;;
      if negb (snd r) || p_killed p then release_p me ;;; ret (-1) else
      match wakes with
      | O => exhausted
      | S w => sleep_own me (proc_chan me) ;;; wait_loop me addr w fuel
      end
  end.

Definition wait (me addr : Z) (wakes fuel : nat) : MK Z := acquire_p me ;;; wait_loop me addr wakes fuel.

(** One visit of the scheduler to entry [i]: the part before the switch, and
    whether it switches. *)
Definition scheduler_visit (i : Z) : MK bool :=
  acquire_p i ;;;
  p <- proc_of i ;;
  if st_eqb (p_state p) RUNNABLE then upd_proc i (set_state RUNNING) ;;; ret true
  else release_p i ;;; ret false.

Definition kill (pid : Z) : MK Z :=
  r <- each_proc (fun i =>
         acquire_p i ;;;
         p <- proc_of i ;;
         if p_pid p =? pid then
           upd_proc i (set_killed true) ;;;
           (if st_eqb (p_state p) SLEEPING || st_eqb (p_state p) SUSPENDED then upd_proc i (set_state RUNNABLE) else ret tt) ;;;
           release_p i ;;;
           ret (Some 0)
         else release_p i ;;; ret None) ;;
  ret (match r with Some v => v | None => -1 end).

Definition either_copyout (me : Z) (user_dst : bool) (dst : Z) (src : list byte) (fuel : nat) : MK Z :=
  p <- proc_of me ;;
  if user_dst then onk (copyout (p_pagetable p) dst src fuel)
  else onk (modify_ram (fun m => write_bytes m dst src)) ;;; ret 0.

Definition either_copyin (me : Z) (user_src : bool) (src len : Z) (fuel : nat) : MK (Z * list byte) :=
  p <- proc_of me ;;
  if user_src then onk (copyin (p_pagetable p) src len fuel)
  else gets (fun s => (0, read_bytes (ram (km s)) src (Z.to_nat len))).

Definition traceon (me : Z) : MK unit := upd_proc me (set_tracing true).

(** [struct pinfo]: the count and 64 entries of 24 bytes.  Storing an entry
    leaves the rest of its name field as it was. *)
Definition PDATA_SIZE : Z := 24.
Definition PINFO_SIZE : Z := 4 + NPROC * PDATA_SIZE.
Definition put_pdata (kpi : list byte) (i : Z) (p : proc) : list byte :=
  let off := Z.to_nat (4 + PDATA_SIZE * i) in
  let kpi := list_inserts off (le_split 4 (p_pid p) ++ le_split 4 (p_sz p)) kpi in
  list_inserts (off + 8) (safestrcpy_buf 16 (take 16 (drop (off + 8) kpi)) (p_name p)) kpi.

(** The table scan of [kps] over the stack buffer [kpi]. *)
Fixpoint kps_scan (kpi : list byte) (count i : Z) (left : nat) : MK (list byte * Z) :=
  match left with
  | O => ret (kpi, count)
  | S left' =>
      acquire_p i ;;;
      p <- proc_of i ;;
      release_p i ;;;
      if st_eqb (p_state p) UNUSED then kps_scan kpi count (i + 1) left'
      else kps_scan (put_pdata kpi count p) (count + 1) (i + 1) left'
  end.

(** [stack] is what the stack held where [kpi] lies. *)
Definition kps (me piaddr : Z) (stack : list byte) (fuel : nat) : MK unit :=
  r <- kps_scan stack 0 0 (Z.to_nat NPROC) ;;
  p <- proc_of me ;;
  _ <- onk (copyout (p_pagetable p) piaddr (list_inserts 0 (le_split 4 (snd r)) (fst r)) fuel) ;;
  ret tt.

(** [struct header] of a suspended process. *)
Record header := mk_header { h_name : list byte; h_mem_sz : Z; h_stack_sz : Z; h_code_sz : Z; h_tracing : Z }.
Definition HEADER_SIZE : Z := 32.
Definition header_bytes (h : header) : list byte :=
  h_name h ++ le_split 4 (h_mem_sz h) ++ le_split 4 (h_stack_sz h) ++ le_split 4 (h_code_sz h) ++ le_split 4 (h_tracing h).
Definition int_at (l : list byte) (off : nat) : Z := s32 (le_combine (take 4 (drop off l))).
Definition read_header (l : list byte) : header := mk_header (take 16 l) (int_at l 16) (int_at l 20) (int_at l 24) (int_at l 28).

(** The image [filewrite] takes from the caller's page table. *)
Definition filewrite_user (me f src n : Z) (fuel : nat) : MK Z :=
  s <- gets id ;;
  onf (e_filewrite f (user_src (km s) (p_pagetable (procs s me)) fuel) src n).
Definition filewrite_ram (f src n : Z) : MK Z :=
  s <- gets id ;;
  onf (e_filewrite f (ram_src (km s)) src n).

(** The caller borrows the page table of the process it writes out. *)
Definition ksuspend (me pid f : Z) (fuel : nat) : MK Z :=
  r <- each_proc (fun i =>
         acquire_p i ;;;
         p <- proc_of i ;;
         if p_pid p =? pid then upd_proc i (set_state SUSPENDED) ;;; release_p i ;;; ret (Some i)
         else release_p i ;;; ret None) ;;
  match r with
  | None => ret (-1)
  | Some i =>
      dstp <- proc_of i ;;
      let hdr := mk_header (strncpy_buf 16 (replicate 16 Byte.x00) (p_name dstp)) (s32 (p_sz dstp)) PGSIZE
                           (s32 (p_sz dstp - 2 * PGSIZE)) (if p_tracing dstp then 1 else 0) in
      p <- proc_of me ;;
      let tmp := p_pagetable p in
      upd_proc me (set_pagetable (p_pagetable dstp)) ;;;
      _ <- onf (e_filewrite f (buf_src (header_bytes hdr)) 0 HEADER_SIZE) ;;
      tf <- gets (fun s => p_tf (procs s i)) ;;
      _ <- filewrite_ram f tf TF_SIZE ;;
      _ <- filewrite_user me f 0 (h_code_sz hdr) fuel ;;
      _ <- filewrite_user me f (u64 (h_code_sz hdr + PGSIZE)) PGSIZE fuel ;;
      upd_proc me (set_pagetable tmp) ;;;
      _ <- kill pid ;;
      ret 0
  end.

(** [readi] into a kernel address. *)
Definition readi_ram (ip pa off n : Z) : MK Z :=
  r <- onf (e_readi ip off n) ;;
  onk (modify_ram (fun m => write_bytes m pa (snd r))) ;;;
  ret (fst r).

(** [for (i = 0; i < sz; i += PGSIZE)]; [fuel] bounds the pages. *)
Fixpoint loadseg_loop (pagetable va ip offset sz i : Z) (fuel : nat) : MK Z :=
  if i <? sz then
    match fuel with
    | O => exhausted
    | S fuel' =>
        pa <- onk (walkaddr pagetable (u64 (va + i))) ;;
        if pa =? 0 then panic "loadseg: address should exist" else
        let n := if sz - i <? PGSIZE then sz - i else PGSIZE in
        r <- readi_ram ip pa (u32 (offset + i)) n ;;
        if negb (u32 r =? n) then ret (-1) else
        loadseg_loop pagetable va ip offset sz (u32 (i + PGSIZE)) fuel'
    end
  else ret 0.
Definition loadseg (pagetable va ip offset sz : Z) (fuel : nat) : MK Z :=
  if negb (va mod PGSIZE =? 0) then panic "loadseg: va must be page aligned" else
  loadseg_loop pagetable va ip offset sz 0 fuel.

Definition kresume (me : Z) (path : list byte) (fuel : nat) : MK Z :=
  p <- proc_of me ;;
  onf e_begin_op ;;;
  ip <- onf (e_namei (p_cwd p) path) ;;
  if ip =? 0 then onf e_end_op ;;; ret (-1) else
  pagetable <- onk (proc_pagetable (p_tf p) fuel) ;;
  if pagetable =? 0 then onf e_end_op ;;; ret (-1) else
  onf (e_ilock ip) ;;;
  rh <- onf (e_readi ip 0 HEADER_SIZE) ;;
  if negb (fst rh =? HEADER_SIZE) then onf (e_iunlockput ip) ;;; onf e_end_op ;;; ret (-1) else
  let hdr := read_header (snd rh) in
  rt <- onf (e_readi ip HEADER_SIZE TF_SIZE) ;;
  if negb (fst rt =? TF_SIZE) then onf (e_iunlockput ip) ;;; onf e_end_op ;;; ret (-1) else
  let tf := snd rt in
  let off := HEADER_SIZE + TF_SIZE in
  _ <- onk (uvmalloc kend pagetable 0 (u64 (h_mem_sz hdr)) fuel) ;;
  _ <- loadseg pagetable 0 ip (u32 off) (u32 (h_code_sz hdr)) fuel ;;
  let off := s32 (off + h_code_sz hdr) in
  let sz := Z.land (s32 (h_code_sz hdr + PGSIZE - 1)) (Z.lnot (PGSIZE - 1)) in
  _ <- loadseg pagetable (u64 (s32 (sz + PGSIZE))) ip (u32 off) PGSIZE fuel ;;
  onk (uvmclear pagetable (u64 sz)) ;;;
  onf e_end_op ;;;
  onf (e_iunlockput ip) ;;;
  p <- proc_of me ;;
  onk (modify_ram (fun m => write_bytes m (p_tf p) tf)) ;;;
  let oldpagetable := p_pagetable p in
  let oldsz := s32 (p_sz p) in
  upd_proc me (set_pagetable pagetable) ;;;
  upd_proc me (set_sz (u64 (h_mem_sz hdr))) ;;;
  upd_proc me (fun p => set_name (strncpy_buf 16 (p_name p) (h_name hdr)) p) ;;;
  onk (proc_freepagetable oldpagetable (u64 oldsz) fuel) ;;;
  ret 0.

(** [procdump]: the arguments of each [printf] line: the pid, the name of the
    state and the process's name. *)
Definition state_name (st : procstate) : string :=
  match st with
  | UNUSED => "unused" | SLEEPING => "sleep " | RUNNABLE => "runble"
  | RUNNING => "run   " | ZOMBIE => "zombie" | SUSPENDED => "suspended"
  end.
Definition procdump (s : kst F) : list (Z * string * list byte) :=
  map (fun i => let p := procs s i in (p_pid p, state_name (p_state p), p_name p))
      (filter (fun i => p_state (procs s i) <> UNUSED) (seqZ 0 NPROC)).

(** [forkret], up to [usertrapret]; [first] is its static variable, [fsinit]
    the initialisation of the file system. *)
Definition forkret (me : Z) (fsinit : M (kmem * F) unit) (first : bool) : MK bool :=
  release_p me ;;;
  (if first then onf fsinit else ret tt) ;;; ret false.

End Proc.
