(* ===== verification/ProcVm.v ===== *)
(** * The memory of a process, from proc_pagetable to proc_freepagetable

    kernel/proc.c builds the page table of a process with the trampoline and
    the trap frame in it, grows and shrinks the memory below them, and frees
    it all when the process is gone. *)

From S2P Require Import Prelude Rely CMem Riscv Kalloc Vm Uvm VmFree Proc.

Section ProcVm.

Variables kend trampoline : Z.
Hypothesis kend_range : KERNBASE <= kend <= PHYSTOP.
Hypothesis tramp_ok : 0 <= trampoline < PHYSTOP /\ trampoline mod PGSIZE = 0.

Local Notation as_inv := (as_inv kend).
Local Notation usim := (usim kend).

(** The address space of a process of [sz] bytes with its trap frame at [tf]. *)
Record space (s : kmem) (T : ptree) (l : list Z) (sz tf : Z) : Prop := {
  sp_as : as_inv s T l;
  sp_size : 0 <= sz <= TRAPFRAME;
  sp_user va : in_user va -> mapped s T va <-> va < PGROUNDUP sz;
  sp_tramp : pte_of (ram s) T TRAMPOLINE = mk_pte trampoline (Z.lor PTE_R PTE_X);
  sp_frame : pte_of (ram s) T TRAPFRAME = mk_pte tf (Z.lor PTE_R PTE_W);
}.

(** Every page of [l0] is free, a table or mapped; nothing else was written. *)
Record owned (s0 : kmem) (l0 : list Z) (s : kmem) (T : ptree) (l : list Z) : Prop := {
  ow_world u : world s T l u <-> u ∈ l0;
  ow_frame a : (forall u, u ∈ l0 -> outside u a) -> ram s a = ram s0 a;
}.

Lemma owned_usim s0 l0 s T l s' T' l' : owned s0 l0 s T l -> usim s T l s' T' l' -> owned s0 l0 s' T' l'.
Proof.
  intros [O1 O2] U. split.
  - intros u. by rewrite (us_world _ _ _ _ _ _ _ U).
  - intros a Ha. rewrite (us_frame _ _ _ _ _ _ _ U); [by apply O2|]. intros u Hu. by apply Ha, O1.
Qed.

Lemma space_usim s T l sz tf s' T' l' sz' :
  space s T l sz tf -> usim s T l s' T' l' -> 0 <= sz' <= TRAPFRAME ->
  (forall va, in_user va -> mapped s' T' va <-> va < PGROUNDUP sz') -> space s' T' l' sz' tf.
Proof.
  intros [_ _ _ H1 H2] U Hsz Hm. split; [apply U|done|done|..]; by rewrite (us_high _ _ _ _ _ _ _ U).
Qed.

Lemma roundup_mono a b : 0 <= a <= b -> b <= TRAPFRAME -> PGROUNDUP a <= PGROUNDUP b.
Proof.
  intros H Hb. pose proof (user_u64 b Hb). destruct (PGROUNDUP_bounds a ltac:(lia) ltac:(lia)), (PGROUNDUP_bounds b ltac:(lia) ltac:(lia)).
  unfold PGSIZE in *. divlia.
Qed.

(** Growing, as [growproc] does it: 0 means that nothing changed. *)
Lemma uvmalloc_space s T l sz tf n fuel :
  space s T l sz tf -> sz <= n <= TRAPFRAME -> (2 * Z.to_nat (n / PGSIZE) + 3 < fuel)%nat ->
  exists r s' T' l', uvmalloc kend (pt_root T) sz n fuel s = Done r s' /\ pt_root T' = pt_root T /\
    usim s T l s' T' l' /\ space s' T' l' (if r =? 0 then sz else r) tf.
Proof.
  intros Hs Hn Hf. pose proof (sp_size _ _ _ _ _ Hs) as Hsz. pose proof (roundup_mono sz n ltac:(lia) ltac:(lia)) as Hmono.
  destruct (uvmalloc_spec kend kend_range s T l sz n fuel (sp_as _ _ _ _ _ Hs) Hsz) as (r & s' & T' & l' & E & U & R); [lia| |done|].
  { intros x Hx Hm. apply (sp_user _ _ _ _ _ Hs) in Hm; [lia|].
    destruct (PGROUNDUP_bounds sz ltac:(lia) (user_u64 _ (proj2 Hsz))). unfold in_user. lia. }
  exists r, s', T', l'. split; [done|]. split; [apply U|]. split; [done|].
  assert ((forall x, in_user x -> uview s' T' x = uview s T x) -> space s' T' l' sz tf) as Hsame.
  { intros V. eapply space_usim; [done..|]. intros va Hva. rewrite <- uview_mapped, V, uview_mapped by done. by apply (sp_user _ _ _ _ _ Hs). }
  destruct R as [(? & _)|[(_ & -> & V)|(_ & -> & V)]]; [lia| |by apply Hsame].
  assert (space s' T' l' n tf) as Hgrown.
  { eapply space_usim; [done..|lia|]. intros va Hva. rewrite <- uview_mapped, V by done.
    destruct (Z.leb_spec (PGROUNDUP sz) va), (Z.ltb_spec va (PGROUNDUP n)); cbn [andb]; rewrite ?uview_mapped, ?(sp_user _ _ _ _ _ Hs) by done;
      [done|lia..]. }
  destruct (Z.eqb_spec n 0); [|done]. replace sz with n by lia. done.
Qed.

Lemma uvmdealloc_space s T l sz tf n fuel :
  space s T l sz tf -> 0 <= n < sz -> (Z.to_nat (sz / PGSIZE) < fuel)%nat ->
  exists s' l', uvmdealloc kend (pt_root T) sz n fuel s = Done n s' /\ usim s T l s' T l' /\ space s' T l' n tf.
Proof.
  intros Hs Hn Hf. pose proof (sp_size _ _ _ _ _ Hs) as Hsz. pose proof (roundup_mono n sz ltac:(lia) ltac:(lia)) as Hmono.
  destruct (PGROUNDUP_bounds sz ltac:(lia) (user_u64 _ (proj2 Hsz))) as [Hb _].
  destruct (PGROUNDUP_bounds n ltac:(lia) (user_u64 n ltac:(lia))) as [Hb' _].
  destruct (uvmdealloc_spec kend kend_range s T l sz n fuel (sp_as _ _ _ _ _ Hs)) as (s' & l' & E & U & V); [lia|done| |done|].
  { intros x Hx. apply (sp_user _ _ _ _ _ Hs); unfold in_user; lia. }
  rewrite Z.min_r in E by lia. exists s', l'. split_and!; [done|done|]. eapply space_usim; [done..|lia|].
  intros va Hva. rewrite <- uview_mapped, V by done. destruct (Z.ltb_spec n sz); [|lia].
  destruct (Z.leb_spec (PGROUNDUP n) va), (Z.ltb_spec va (PGROUNDUP sz)); cbn [andb]; rewrite ?uview_mapped, ?(sp_user _ _ _ _ _ Hs) by done;
    [split; [done|lia]|lia..].
Qed.

(** The process writes to its own memory. *)
Definition user_write (T : ptree) (s : kmem) (m' : mem) : Prop :=
  forall a, (forall va, in_user va -> mapped s T va -> outside (PTE2PA (pte_of (ram s) T va)) a) -> m' a = ram s a.

Lemma user_write_space s T l sz tf m' :
  space s T l sz tf -> user_write T s m' -> usim s T l (set_ram m' s) T l /\ space (set_ram m' s) T l sz tf.
Proof.
  intros Hs Hw. pose proof (sp_as _ _ _ _ _ Hs) as Ha. pose proof (as_vm _ _ _ _ Ha) as Hv. pose proof (vm_rep _ _ _ _ Hv) as Hr.
  assert (forall p a, page_ok kend p -> p ∈ l \/ (exists q, table_at T q = Some p) -> p <= a < p + PGSIZE -> m' a = ram s a) as Hout.
  { intros p a Hp Hpl Hin. apply Hw. intros va Hva Hm. destruct (as_page _ _ _ _ Ha va Hva Hm) as (Hu & Hul & Hut).
    eapply (inside_outside kend p); [done|exact Hu| |done]. intros E. cbn in Hul, Hut. rewrite <- E in Hul, Hut. destruct Hpl as [|[q Hq]]; [done|by apply (Hut q)]. }
  assert (forall q t a, table_at T q = Some t -> t <= a < t + PGSIZE -> m' a = ram s a) as Htab.
  { intros q t a Hq. apply Hout; [by apply (rep_page _ _ _ Hr q)|right; by exists q]. }
  assert (forall va, pte_of m' T va = pte_of (ram s) T va) as Hp by (intros va; by apply pte_of_outside).
  assert (usim s T l (set_ram m' s) T l) as U.
  { split; cbn [ram set_ram].
    - split; cbn [ram set_ram]; [split; cbn [ram set_ram]| | |]; intros *; rewrite ?Hp; try apply Ha.
      + apply kmem_inv_ram; [apply Hv|]. intros p Hpl. apply load64_ext. intros a Hin.
        assert (page_ok kend p) as Hpp by (pose proof (kinv_pages _ _ _ (vm_kmem _ _ _ _ Hv)) as Hf; rewrite Forall_forall in Hf; by apply Hf).
        apply (Hout p); [done|by left|unfold PGSIZE; lia].
      + by eapply pt_rep_outside.
    - done.
    - intros u. split; (intros [H|q H|va Hva H1 H2]; [by apply w_free|by eapply w_table|]); cbn [ram set_ram] in *; rewrite ?Hp in *;
        (eapply w_mapped; [exact Hva|..]; cbn [ram set_ram]; rewrite ?Hp; done).
    - intros a Hna. apply Hw. intros va Hva Hm. apply Hna. by eapply w_mapped.
    - intros va _. apply Hp. }
  split; [done|]. eapply space_usim; [done..|apply Hs|]. intros va Hva. unfold mapped. cbn [ram set_ram]. rewrite Hp. by apply (sp_user _ _ _ _ _ Hs).
Qed.

(** Taking out the pages above the user's memory frees nothing. *)
Lemma uvmunmap_high s T l va fuel :
  as_inv s T l -> TRAPFRAME <= va < MAXVA -> va mod PGSIZE = 0 -> mapped s T va -> PTE_FLAGS (pte_of (ram s) T va) <> PTE_V -> (0 < fuel)%nat ->
  exists s', uvmunmap kend (pt_root T) va PGSIZE false fuel s = Done tt s' /\ as_inv s' T l /\
    (forall x, 0 <= x < MAXVA -> pte_of (ram s') T x = if x / PGSIZE =? va / PGSIZE then 0 else pte_of (ram s) T x) /\
    forall a, (forall q u, table_at T q = Some u -> outside u a) -> ram s' a = ram s a.
Proof.
  intros Hi Hva Hal Hm Hfl Hf. pose proof (vm_rep _ _ _ _ (as_vm _ _ _ _ Hi)) as Hr.
  assert (exists t, pt_l0 T !! (PX 2 va, PX 1 va) = Some t) as [t Ht].
  { unfold mapped, pte_of in Hm. destruct (pt_l0 T !! _) as [t|]; [by exists t|done]. }
  pose proof (vm_inv_write_leaf kend s T l va 0 t (as_vm _ _ _ _ Hi) ltac:(change TRAPFRAME with 274877898752 in *; lia) ltac:(done) Ht) as G.
  set (s' := set_ram (store64 (ram s) (t + 8 * PX 0 va) 0) s) in *.
  assert (forall x, 0 <= x < MAXVA -> pte_of (ram s') T x = if x / PGSIZE =? va / PGSIZE then 0 else pte_of (ram s) T x) as Hp.
  { intros x Hx. rewrite (rm_pte _ _ _ _ _ _ _ _ G) by done. unfold edited, edit_one. by destruct (_ =? _). }
  assert (forall x, in_user x -> pte_of (ram s') T x = pte_of (ram s) T x) as Hpu.
  { intros x Hx. rewrite Hp by (by apply user_max). destruct (Z.eqb_spec (x / PGSIZE) (va / PGSIZE)) as [E|]; [|done].
    by destruct (high_page x va Hx (proj1 Hva)). }
  exists s'. split_and!; [| |done|apply G].
  - unfold uvmunmap. destruct (page_range va PGSIZE) as (E1 & _ & _ & _);
      [change TRAPFRAME with 274877898752 in *; lia|done|change TRAPFRAME with 274877898752 in *; change MAXVA with 274877906944 in *; unfold PGSIZE in *; divlia|].
    assert (extra_pages va PGSIZE = 0%nat) as Eex by (unfold extra_pages, PGSIZE in *; divlia).
    rewrite Eex, Z.mul_0_l, Z.add_0_r in E1. rewrite E1, PGROUNDDOWN_aligned by done.
    destruct fuel as [|fuel]; [lia|]. cbn [uvmunmap_loop].
    rewrite (bind_Done _ _ _ _ _ (walk_present kend kend_range s T va t false Hr ltac:(change TRAPFRAME with 274877898752 in *; lia) Ht)).
    pose proof (page_bounds kend kend_range t (rep_page _ _ _ Hr (PLow _ _) t Ht)) as (Hpos & _). pose proof (PX_range 0 va).
    destruct (Z.eqb_spec (t + 8 * PX 0 va) 0); [lia|]. unfold read_pte, gets, bind at 1. cbn [obind].
    assert (load64 (ram s) (t + 8 * PX 0 va) = pte_of (ram s) T va) as -> by (unfold pte_of; by rewrite Ht).
    destruct (Z.eqb_spec (Z.land (pte_of (ram s) T va) PTE_V) 0) as [Ez|]; [unfold mapped, valid in Hm; by rewrite Ez in Hm|].
    destruct (Z.eqb_spec (PTE_FLAGS (pte_of (ram s) T va)) PTE_V); [done|].
    rewrite (bind_Done _ _ s tt s) by done. rewrite (bind_Done _ _ s tt s') by done. by rewrite Z.eqb_refl.
  - split; [apply G|..]; intros *.
    + intros Hx. rewrite Hpu by done. by apply Hi.
    + intros Hx Hx'. rewrite !Hpu by done. by apply Hi.
    + intros Hx. rewrite Hpu by done. by apply Hi.
Qed.

Lemma world_same s s' T l u : (forall x, in_user x -> pte_of (ram s') T x = pte_of (ram s) T x) -> world s' T l u <-> world s T l u.
Proof.
  intros Hp. split; (intros [H|q H|va Hva H1 H2]; [by apply w_free|by eapply w_table|]);
    (apply (w_mapped _ _ _ _ va Hva); rewrite ?Hp in *; done).
Qed.

(** Taking out trampoline and trap frame leaves the memory of the user. *)
Lemma unmap_frames s T l sz tf fuel :
  space s T l sz tf -> 0 <= tf < PHYSTOP -> tf mod PGSIZE = 0 -> (0 < fuel)%nat ->
  exists s', (uvmunmap kend (pt_root T) TRAMPOLINE PGSIZE false fuel ;;; uvmunmap kend (pt_root T) TRAPFRAME PGSIZE false fuel) s = Done tt s' /\
    as_inv s' T l /\ (forall va, 0 <= va < MAXVA -> mapped s' T va <-> va < PGROUNDUP sz) /\
    (forall u, world s' T l u <-> world s T l u) /\ forall a, (forall u, world s T l u -> outside u a) -> ram s' a = ram s a.
Proof.
  intros Hs Htf Hal Hf. change PHYSTOP with 2281701376 in *.
  destruct (mk_pte_ok trampoline (Z.lor PTE_R PTE_X)) as (_ & F1 & _ & V1); [change (2 ^ 56) with 72057594037927936; lia|apply tramp_ok|done|].
  destruct (mk_pte_ok tf (Z.lor PTE_R PTE_W)) as (_ & F2 & _ & V2); [change (2 ^ 56) with 72057594037927936; lia|done|done|].
  destruct (uvmunmap_high s T l TRAMPOLINE fuel (sp_as _ _ _ _ _ Hs)) as (s1 & E1 & I1 & P1 & O1); [done|done| | |done|].
  { unfold mapped. by rewrite (sp_tramp _ _ _ _ _ Hs). }
  { by rewrite (sp_tramp _ _ _ _ _ Hs), F1. }
  assert (pte_of (ram s1) T TRAPFRAME = mk_pte tf (Z.lor PTE_R PTE_W)) as E by (rewrite P1 by done; apply (sp_frame _ _ _ _ _ Hs)).
  destruct (uvmunmap_high s1 T l TRAPFRAME fuel I1) as (s2 & E2 & I2 & P2 & O2); [done|done|unfold mapped; by rewrite E|by rewrite E, F2|done|].
  exists s2. rewrite (bind_Done _ _ _ _ _ E1). split; [done|]. split; [done|].
  assert (forall x, in_user x -> pte_of (ram s2) T x = pte_of (ram s) T x) as Hpu.
  { intros x Hx. rewrite P2, P1 by (by apply user_max). unfold in_user in Hx. change TRAPFRAME with 274877898752 in *.
    change TRAMPOLINE with 274877902848 in *. unfold PGSIZE in *. zcmp; divlia. }
  split_and!; [|by intros u; apply world_same|].
  - intros va Hva. destruct (decide (va < TRAPFRAME)) as [Hlt|Hge].
    + unfold mapped. rewrite Hpu by (unfold in_user; lia). apply (sp_user _ _ _ _ _ Hs). unfold in_user; lia.
    + pose proof (sp_size _ _ _ _ _ Hs) as Hsz. destruct (PGROUNDUP_bounds sz ltac:(lia) (user_u64 _ (proj2 Hsz))) as [Hb Hba].
      assert (~ va < PGROUNDUP sz) as Hno by (change TRAPFRAME with 274877898752 in *; unfold PGSIZE in *; divlia).
      split; [|done]. unfold mapped. rewrite P2, P1 by done. intros Hv. exfalso. revert Hv.
      change TRAPFRAME with 274877898752 in *. change TRAMPOLINE with 274877902848 in *. change MAXVA with 274877906944 in *. unfold PGSIZE in *.
      zcmp; try done. divlia.
  - intros a Ha. rewrite O2, O1; [done|intros q u Hq; apply Ha; by eapply w_table..].
Qed.

Lemma proc_freepagetable_spec s T l sz tf s0 l0 fuel :
  space s T l sz tf -> owned s0 l0 s T l -> 0 <= tf < PHYSTOP -> tf mod PGSIZE = 0 -> (Z.to_nat (sz / PGSIZE) < fuel)%nat ->
  exists s' l', proc_freepagetable kend (pt_root T) sz fuel s = Done tt s' /\ kmem_inv kend s' l' /\
    (forall u, u ∈ l' <-> if decide (0 < sz) then u ∈ l0 else u ∈ l) /\
    forall a, (forall u, u ∈ l0 -> outside u a) -> ram s' a = ram s0 a.
Proof.
  intros Hs Ho Htf Hal Hf. destruct (unmap_frames s T l sz tf fuel Hs Htf Hal ltac:(lia)) as (s1 & E & I1 & M1 & W1 & O1).
  pose proof (sp_size _ _ _ _ _ Hs) as Hsz.
  assert (proc_freepagetable kend (pt_root T) sz fuel s = (if sz >? 0 then uvmfree kend (pt_root T) sz fuel else ret tt) s1) as ->.
  { unfold proc_freepagetable. revert E. unfold bind. destruct (uvmunmap kend _ TRAMPOLINE _ _ _ s); cbn [obind]; try discriminate. by intros ->. }
  assert (forall a, (forall u, u ∈ l0 -> outside u a) -> ram s1 a = ram s0 a) as Hfr.
  { intros a Ha. rewrite O1 by (intros u Hu; by apply Ha, (ow_world _ _ _ _ _ Ho)). by apply (ow_frame _ _ _ _ _ Ho). }
  rewrite Z.gtb_ltb. destruct (Z.ltb_spec 0 sz); case_decide; try lia.
  - destruct (uvmfree_spec kend kend_range s1 T l sz fuel I1) as (s' & l' & E' & Hk & Hl & Hfr'); [lia|done| |].
    { unfold extra_pages, PGSIZE in *. divlia. }
    exists s', l'. split_and!; [done|done|intros u; by rewrite Hl, W1, (ow_world _ _ _ _ _ Ho)|].
    intros a Ha. rewrite Hfr' by (intros u Hu; by apply Ha, (ow_world _ _ _ _ _ Ho), W1). by apply Hfr.
  - exists s1, l. split_and!; [done|apply I1|done|done].
Qed.

(** Mapping one page when there is room for the tables it needs. *)
Lemma mappages_one s T l va pa perm fuel :
  vm_inv kend s T l -> 0 <= va < MAXVA -> va mod PGSIZE = 0 -> 0 <= pa < PHYSTOP -> pa mod PGSIZE = 0 -> 0 <= perm < 2 ^ 10 ->
  valid (pte_of (ram s) T va) = false -> (table_cost T va <= length l)%nat -> (0 < fuel)%nat ->
  exists s' T' l', mappages (pt_root T) va PGSIZE pa perm fuel s = Done 0 s' /\
    remap kend (edit_one (va / PGSIZE) (mk_pte pa perm)) s T l s' T' l'.
Proof.
  intros Hi Hva Hal Hpa Hpal Hperm Hn Hc Hf. change PHYSTOP with 2281701376 in *.
  assert ((va + PGSIZE - 1) / PGSIZE = va / PGSIZE) as Epg by (unfold PGSIZE in *; divlia).
  assert (extra_pages va PGSIZE = 0%nat) as Eex by (unfold extra_pages; rewrite Epg; lia).
  assert (range_cost T va (va + PGSIZE - 1) = table_cost T va) as Ec.
  { unfold range_cost. assert ((va + PGSIZE - 1) / 2 ^ 21 = va / 2 ^ 21) as -> by (change (2 ^ 21) with 2097152; unfold PGSIZE in *; divlia). lia. }
  destruct (mappages_spec kend kend_range s T l va PGSIZE pa perm fuel Hi) as (r & s' & T' & l' & j & E & G & R);
    try done; try lia; rewrite ?Eex in *; try done.
  - change MAXVA with 274877906944 in *. unfold PGSIZE in *. divlia.
  - change (2 ^ 56) with 72057594037927936. unfold PGSIZE. lia.
  - rewrite Epg. intros x Hx. rewrite (pte_of_same_page _ _ x va); [done| |lia|lia]. unfold PGSIZE in *. divlia.
  - destruct R as [(-> & -> & _)|(_ & _ & _ & _ & Hl)]; [|lia]. exists s', T', l'. split; [done|]. eapply remap_edit; [|exact G].
    intros p. unfold edit_range, edit_one. zcmp; try lia. do 2 f_equal. subst p. lia.
Qed.

Lemma proc_pagetable_spec s l p tf fuel :
  kmem_inv kend s (p :: l) -> (2 <= length l)%nat -> 0 <= tf < PHYSTOP -> tf mod PGSIZE = 0 -> (0 < fuel)%nat ->
  exists s' T l', proc_pagetable trampoline tf fuel s = Done p s' /\ pt_root T = p /\ space s' T l' 0 tf /\ owned s (p :: l) s' T l'.
Proof.
  intros Hk Hl Htf Hal Hf. destruct (uvmcreate_spec kend kend_range s l p Hk) as (s1 & E1 & I1 & O1).
  destruct (mk_pte_ok trampoline (Z.lor PTE_R PTE_X)) as (_ & _ & _ & V1); [change PHYSTOP with 2281701376 in *; lia|apply tramp_ok|done|].
  destruct (mappages_one s1 (empty_tree p) l TRAMPOLINE trampoline (Z.lor PTE_R PTE_X) fuel I1) as (s2 & T2 & l2 & E2 & G2); try done; try apply tramp_ok.
  assert (forall x, 0 <= x < MAXVA -> pte_of (ram s2) T2 x = if x / PGSIZE =? TRAMPOLINE / PGSIZE then mk_pte trampoline (Z.lor PTE_R PTE_X) else 0) as P2.
  { intros x Hx. rewrite (rm_pte _ _ _ _ _ _ _ _ G2) by done. unfold edited, edit_one. destruct (_ =? _); [done|apply pte_of_empty]. }
  assert (table_cost T2 TRAPFRAME = 0%nat) as Hc.
  { assert (valid (pte_of (ram s2) T2 TRAMPOLINE) = true) as Hv by (rewrite P2 by done; by rewrite Z.eqb_refl).
    unfold table_cost. unfold pte_of in Hv. change (PX 2 TRAPFRAME, PX 1 TRAPFRAME) with (PX 2 TRAMPOLINE, PX 1 TRAMPOLINE).
    by destruct (pt_l0 T2 !! _). }
  pose proof (rm_root _ _ _ _ _ _ _ _ G2) as Er. cbn [pt_root empty_tree] in Er.
  destruct (mappages_one s2 T2 l2 TRAPFRAME tf (Z.lor PTE_R PTE_W) fuel (rm_inv _ _ _ _ _ _ _ _ G2)) as (s3 & T3 & l3 & E3 & G3); try done; try lia.
  { by rewrite P2. }
  assert (forall x, 0 <= x < MAXVA -> pte_of (ram s3) T3 x = if x / PGSIZE =? TRAPFRAME / PGSIZE then mk_pte tf (Z.lor PTE_R PTE_W)
      else if x / PGSIZE =? TRAMPOLINE / PGSIZE then mk_pte trampoline (Z.lor PTE_R PTE_X) else 0) as P3.
  { intros x Hx. rewrite (rm_pte _ _ _ _ _ _ _ _ G3) by done. unfold edited, edit_one. destruct (_ =? _); [done|by apply P2]. }
  assert (forall x, in_user x -> pte_of (ram s3) T3 x = 0) as P3u.
  { intros x Hx. rewrite P3 by (by apply user_max). unfold in_user in Hx. change TRAPFRAME with 274877898752 in *.
    change TRAMPOLINE with 274877902848 in *. unfold PGSIZE in *. zcmp; divlia. }
  pose proof (remap_trans kend _ _ _ _ _ _ _ _ _ _ _ G2 G3) as G.
  assert (forall q u, table_at T3 q = Some u -> u ∈ p :: l) as Htab.
  { intros q u Hq. destruct (rm_new _ _ _ _ _ _ _ _ G q u Hq) as [Ht|]; [|by right].
    destruct q; cbn in Ht; [injection Ht as <-; left|by rewrite lookup_empty in Ht..]. }
  exists s3, T3, l3. split.
  { unfold proc_pagetable. rewrite (bind_Done _ _ _ _ _ E1). cbn [pt_root empty_tree] in E2. rewrite (bind_Done _ _ _ _ _ E2), <- Er.
    by rewrite (bind_Done _ _ _ _ _ E3). }
  split; [by rewrite (rm_root _ _ _ _ _ _ _ _ G3)|]. split; split.
  - split; [apply G|..]; intros *; [intros Hx|intros Hx _|intros Hx]; rewrite ?P3u by done; done.
  - done.
  - intros va Hva. unfold mapped. rewrite P3u by done. change (PGROUNDUP 0) with 0. unfold in_user in Hva. split; [done|lia].
  - by rewrite P3.
  - by rewrite P3.
  - intros u. split.
    + intros [Hu|q Hq|va Hva H1 _]; [|by eapply Htab|by rewrite P3u in H1].
      right. destruct (rm_suffix _ _ _ _ _ _ _ _ G) as [k ->]. apply elem_of_app. by right.
    + intros [-> | Hu]%elem_of_cons.
      * apply (w_table _ _ _ _ PRoot). cbn. by rewrite (rm_root _ _ _ _ _ _ _ _ G3), Er.
      * destruct (rm_used _ _ _ _ _ _ _ _ G u Hu) as [|[q Hq]]; [by apply w_free|by apply (w_table _ _ _ _ q)].
  - intros a Ha. rewrite (rm_frame _ _ _ _ _ _ _ _ G) by (intros q u Hq; by eapply Ha, Htab). apply O1, Ha. left.
Qed.

(** ** The life of an address space *)

(** What happens to the memory of a process with page table [pt] and [sz]
    bytes while it lives: [growproc] in its two directions, refused growth
    included, and stores of the process through its page table. *)
Inductive lives (pt : Z) : kmem -> Z -> kmem -> Z -> Prop :=
| lives_refl s sz : lives pt s sz s sz
| lives_grow s sz n fuel r s1 s' sz' :
    sz <= n <= TRAPFRAME -> (2 * Z.to_nat (n / PGSIZE) + 3 < fuel)%nat ->
    uvmalloc kend pt sz n fuel s = Done r s1 -> lives pt s1 (if r =? 0 then sz else r) s' sz' -> lives pt s sz s' sz'
| lives_shrink s sz n fuel r s1 s' sz' :
    0 <= n < sz -> (Z.to_nat (sz / PGSIZE) < fuel)%nat ->
    uvmdealloc kend pt sz n fuel s = Done r s1 -> lives pt s1 r s' sz' -> lives pt s sz s' sz'
| lives_store s sz va pa b s' sz' :
    0 <= va -> walkaddr pt va s = Done pa s -> pa <> 0 ->
    lives pt (set_ram (write_bytes (ram s) (pa + va mod PGSIZE) [b]) s) sz s' sz' -> lives pt s sz s' sz'.

Lemma user_bit_flags e : user_bit e = negb (Z.land (PTE_FLAGS e) PTE_U =? 0).
Proof. unfold user_bit, PTE_FLAGS. by rewrite <- Z.land_assoc. Qed.

Lemma space_top s T l sz tf : space s T l sz tf -> 0 <= tf < PHYSTOP -> tf mod PGSIZE = 0 -> kernel_top s T.
Proof.
  intros Hs Htf Hal x Hx. change PHYSTOP with 2281701376 in *. rewrite user_bit_flags.
  destruct (decide (x < TRAMPOLINE)) as [Hlt|Hge].
  - rewrite (pte_of_same_page _ _ x TRAPFRAME), (sp_frame _ _ _ _ _ Hs).
    + by destruct (mk_pte_ok tf (Z.lor PTE_R PTE_W)) as (_ & -> & _); [change (2 ^ 56) with 72057594037927936; lia|..].
    + change TRAPFRAME with 274877898752 in *. lia.
    + done.
    + change TRAPFRAME with 274877898752 in *. change TRAMPOLINE with 274877902848 in *. unfold PGSIZE. divlia.
  - rewrite (pte_of_same_page _ _ x TRAMPOLINE), (sp_tramp _ _ _ _ _ Hs).
    + by destruct (mk_pte_ok trampoline (Z.lor PTE_R PTE_X)) as (_ & -> & _); [change (2 ^ 56) with 72057594037927936; lia|apply tramp_ok|..].
    + change TRAPFRAME with 274877898752 in *. lia.
    + done.
    + change MAXVA with 274877906944 in *. change TRAMPOLINE with 274877902848 in *. unfold PGSIZE. divlia.
Qed.

Lemma store_write s T l sz tf va pa b :
  space s T l sz tf -> 0 <= tf < PHYSTOP -> tf mod PGSIZE = 0 -> 0 <= va -> walkaddr (pt_root T) va s = Done pa s -> pa <> 0 ->
  user_write T s (write_bytes (ram s) (pa + va mod PGSIZE) [b]).
Proof.
  intros Hs Htf Hal Hva E Hnz a Ha.
  rewrite (walkaddr_spec kend kend_range s T va (vm_rep _ _ _ _ (as_vm _ _ _ _ (sp_as _ _ _ _ _ Hs))) Hva) in E.
  injection E as E. fold (user_ok s T va) in E. destruct (user_ok s T va) eqn:Hu; [|done]. subst pa.
  pose proof (user_ok_user s T va (space_top _ _ _ _ _ Hs Htf Hal) Hva Hu) as Hin.
  assert (mapped s T va) as Hm by (unfold user_ok in Hu; unfold mapped; by destruct (valid _); [|rewrite andb_false_r in Hu]).
  specialize (Ha va Hin Hm). pose proof (page_byte (PTE2PA (pte_of (ram s) T va)) va).
  apply write_bytes_outside. cbn [length]. unfold outside in Ha. lia.
Qed.

Lemma lives_space pt s0 l0 tf s sz s' sz' : lives pt s sz s' sz' -> 0 <= tf < PHYSTOP -> tf mod PGSIZE = 0 ->
  forall T l, pt_root T = pt -> space s T l sz tf -> owned s0 l0 s T l ->
  exists T' l', pt_root T' = pt /\ space s' T' l' sz' tf /\ owned s0 l0 s' T' l'.
Proof.
  intros Hl Htf Hal. induction Hl as [|? ? ? ? ? ? ? ? Hn Hf E _ IH|? ? ? ? ? ? ? ? Hn Hf E _ IH|s sz va pa b s' sz' Hva E Hnz _ IH]; intros T l Hr Hs Ho; subst pt.
  - by exists T, l.
  - destruct (uvmalloc_space _ _ _ _ _ _ _ Hs Hn Hf) as (r' & s2 & T2 & l2 & E2 & Er & U & Hs2). rewrite E in E2. injection E2 as -> ->.
    apply (IH T2 l2 Er Hs2). by eapply owned_usim.
  - destruct (uvmdealloc_space _ _ _ _ _ _ _ Hs Hn Hf) as (s2 & l2 & E2 & U & Hs2). rewrite E in E2. injection E2 as -> ->.
    apply (IH T l2 eq_refl Hs2). by eapply owned_usim.
  - destruct (user_write_space _ _ _ _ _ _ Hs (store_write _ _ _ _ _ va pa b Hs Htf Hal Hva E Hnz)) as [U Hs2].
    apply (IH T l eq_refl Hs2). by eapply owned_usim.
Qed.

(** [C11] No page is lost over the life of an address space that ends with a
    size above 0: with three pages
    free, [proc_pagetable] builds one, and however the process then grows,
    shrinks and stores into its memory, [proc_freepagetable] puts exactly the
    pages back that were free at the start, and no byte outside them has
    changed.  That is so when the process has memory; of a process whose size
    is 0 the page table is not freed ([fork] that fails to copy its parent ends
    there). *)
Theorem address_space_lifecycle s l tf fuel :
  kmem_inv kend s l -> (3 <= length l)%nat -> 0 <= tf < PHYSTOP -> tf mod PGSIZE = 0 -> (0 < fuel)%nat ->
  exists pt s1, proc_pagetable trampoline tf fuel s = Done pt s1 /\ pt ∈ l /\
    forall s2 sz fuel', lives pt s1 0 s2 sz -> (Z.to_nat (sz / PGSIZE) < fuel')%nat ->
      exists s3 l3, proc_freepagetable kend pt sz fuel' s2 = Done tt s3 /\ kmem_inv kend s3 l3 /\
        (0 < sz -> l3 ≡ₚ l) /\ (sz = 0 -> pt ∉ l3) /\
        forall a, (forall u, u ∈ l -> outside u a) -> ram s3 a = ram s a.
Proof.
  intros Hk Hl Htf Hal Hf. destruct l as [|p l]; [cbn in Hl; lia|]. cbn [length] in Hl.
  destruct (proc_pagetable_spec s l p tf fuel Hk ltac:(lia) Htf Hal Hf) as (s1 & T & l1 & E & Er & Hs & Ho).
  exists p, s1. split; [done|]. split; [left|]. intros s2 sz fuel' Hlv Hf'.
  destruct (lives_space p s (p :: l) tf s1 0 s2 sz Hlv Htf Hal T l1 Er Hs Ho) as (T2 & l2 & Er2 & Hs2 & Ho2).
  destruct (proc_freepagetable_spec s2 T2 l2 sz tf s (p :: l) fuel' Hs2 Ho2 Htf Hal Hf') as (s3 & l3 & E3 & Hk3 & Hl3 & Hfr).
  exists s3, l3. rewrite <- Er2 at 1. split_and!; [done|done|..|done].
  - intros Hsz. apply NoDup_Permutation; [apply Hk3|apply Hk|]. intros u. rewrite Hl3. by case_decide.
  - intros ->. rewrite Hl3. case_decide; [lia|]. apply (vm_tables _ _ _ _ (as_vm _ _ _ _ (sp_as _ _ _ _ _ Hs2)) PRoot). cbn. by rewrite Er2.
Qed.

End ProcVm.

(** A machine with eight free pages, enough for a process of one page. *)
Definition free_ram : mem :=
  foldr (fun k m => store64 m (demo_page k) (if k =? 8 then 0 else demo_page (k + 1))) (fun _ => Byte.x00) (seqZ 1 8).
Definition free_kmem : kmem := mk_kmem false (demo_page 1) free_ram.
Definition free_list : list Z := demo_page <$> seqZ 1 8.

Lemma free_kmem_inv : kmem_inv demo_end free_kmem free_list.
Proof.
  split; [done|by vm_compute| |].
  - apply (bool_decide_unpack (NoDup free_list)). by vm_compute.
  - apply Forall_fmap, Forall_forall. intros k Hk%elem_of_seqZ. apply demo_page_ok. lia.
Qed.

Definition small_life : M kmem Z := pt <- proc_pagetable KERNBASE KERNBASE 1 ;; uvmalloc demo_end pt 0 PGSIZE 10.

Lemma small_life_grows : match small_life free_kmem with Done r _ => r =? PGSIZE | _ => false end = true.
Proof. by vm_compute. Qed.

Lemma address_space_lifecycle_witness : exists s2 s3 l3,
  small_life free_kmem = Done PGSIZE s2 /\ proc_freepagetable demo_end (demo_page 1) PGSIZE 10 s2 = Done tt s3 /\
  kmem_inv demo_end s3 l3 /\ l3 ≡ₚ free_list.
Proof.
  destruct (address_space_lifecycle demo_end KERNBASE demo_end_range ltac:(by vm_compute) free_kmem free_list KERNBASE 1
    free_kmem_inv ltac:(vm_compute; lia) ltac:(by vm_compute) ltac:(by vm_compute) ltac:(lia)) as (pt & s1 & E & _ & H).
  pose proof small_life_grows as Hg. unfold small_life in *. rewrite (bind_Done _ _ _ _ _ E) in *.
  destruct (uvmalloc demo_end pt 0 PGSIZE 10 s1) as [r s2| | |] eqn:E2; [|done..]. apply Z.eqb_eq in Hg as ->.
  destruct (H s2 PGSIZE 10%nat) as (s3 & l3 & E3 & Hk & Hl & _).
  - eapply (lives_grow _ _ s1 0 PGSIZE 10); [vm_compute; split; congruence|vm_compute; lia|exact E2|]. apply lives_refl.
  - vm_compute. lia.
  - exists s2, s3, l3. split; [done|]. assert (pt = demo_page 1) as <-.
    { assert (match proc_pagetable KERNBASE KERNBASE 1 free_kmem with Done p _ => p =? demo_page 1 | _ => false end = true) as Hp by (by vm_compute).
      rewrite E in Hp. by apply Z.eqb_eq. }
    split; [exact E3|]. split; [exact Hk|apply Hl]. unfold PGSIZE. lia.
Defined.
