(* ===== verification/Exec.v ===== *)
(** * Running a program: kernel/exec.c

    [exec] over the process table of Proc.v, the page tables of Vm.v and the
    file layer.  The path and the arguments are the strings behind the kernel
    pointers; the structures of elf.h are decoded from the bytes [readi]
    stored.  The second half of the file shows that the stack a new program
    starts on holds its arguments. *)

From S2P Require Import Prelude Rely CMem Riscv Kalloc Vm Uvm Proc.

(** ** kernel/elf.h *)

Definition field (l : list byte) (off n : nat) : Z := le_combine (take n (drop off l)).

Definition ELF_MAGIC : Z := 0x464C457F.
Definition ELF_PROG_LOAD : Z := 1.
Definition ELFHDR_SIZE : Z := 64.
Definition PROGHDR_SIZE : Z := 56.

Record elfhdr := mk_elfhdr {
  eh_magic : Z; eh_elf : list byte; eh_type : Z; eh_machine : Z; eh_version : Z; eh_entry : Z; eh_phoff : Z; eh_shoff : Z;
  eh_flags : Z; eh_ehsize : Z; eh_phentsize : Z; eh_phnum : Z; eh_shentsize : Z; eh_shnum : Z; eh_shstrndx : Z }.
Definition read_elfhdr (l : list byte) : elfhdr :=
  mk_elfhdr (field l 0 4) (take 12 (drop 4 l)) (field l 16 2) (field l 18 2) (field l 20 4) (field l 24 8) (field l 32 8) (field l 40 8)
            (field l 48 4) (field l 52 2) (field l 54 2) (field l 56 2) (field l 58 2) (field l 60 2) (field l 62 2).

Record proghdr := mk_proghdr {
  ph_type : Z; ph_flags : Z; ph_off : Z; ph_vaddr : Z; ph_paddr : Z; ph_filesz : Z; ph_memsz : Z; ph_align : Z }.
Definition read_proghdr (l : list byte) : proghdr :=
  mk_proghdr (field l 0 4) (field l 4 4) (field l 8 8) (field l 16 8) (field l 24 8) (field l 32 8) (field l 40 8) (field l 48 8).

(** ** The user stack *)

(** The loop over [argv], from entry [argc] on: [None] is a [goto bad];
    [ustack] has the addresses pushed so far. *)
Fixpoint push_strings (pagetable stackbase : Z) (argv : list (list byte)) (argc sp : Z) (ustack : list Z) (fuel : nat)
  : M kmem (option (Z * Z * list Z)) :=
  match argv with
  | [] => ret (Some (argc, sp, ustack))
  | arg :: argv' =>
      if argc >=? MAXARG then ret None else
      let sp := u64 (sp - (Z.of_nat (length arg) + 1)) in
      let sp := sp - sp mod 16 in
      if sp <? stackbase then ret None else
      r <- copyout pagetable sp (arg ++ [Byte.x00]) fuel ;;
      if r <? 0 then ret None else
      push_strings pagetable stackbase argv' (argc + 1) sp (ustack ++ [sp]) fuel
  end.

(** The strings, then the array of their addresses; the number of arguments
    and the final stack pointer. *)
Definition push_args (pagetable stackbase : Z) (argv : list (list byte)) (sp : Z) (fuel : nat) : M kmem (option (Z * Z)) :=
  r <- push_strings pagetable stackbase argv 0 sp [] fuel ;;
  match r with
  | None => ret None
  | Some (argc, sp, ustack) =>
      let sp := u64 (sp - (argc + 1) * 8) in
      let sp := sp - sp mod 16 in
      if sp <? stackbase then ret None else
      c <- copyout pagetable sp (concat (map (le_split 8) (ustack ++ [0]))) fuel ;;
      if c <? 0 then ret None else ret (Some (argc, sp))
  end.

(** [for(last=s=path; *s; s++) if( *s == '/') last = s+1] *)
Fixpoint base_name (last s : list byte) : list byte :=
  match s with
  | [] => last
  | c :: s' => base_name (if Byte.eqb c (byte.of_Z 47) then s' else last) s'
  end.

Definition tf_a1 : Z := 120.

Section Exec.

Context {F : Type} `{FE : FileEnv F}.
Context (kend trampoline : Z).

Notation MK := (M (kst F)).

(** The label [bad]. *)
Definition exec_bad (pagetable sz ip : Z) (fuel : nat) : MK Z :=
  (if negb (pagetable =? 0) then onk (proc_freepagetable kend pagetable sz fuel) else ret tt) ;;;
  (if negb (ip =? 0) then onf (e_iunlockput ip) ;;; onf e_end_op else ret tt) ;;;
  ret (-1).

(** The loop over the program headers, [left] of them from file offset [off];
    whether all were loaded, and [sz]. *)
Fixpoint exec_load (pagetable ip off sz : Z) (left fuel : nat) : MK (bool * Z) :=
  match left with
  | O => ret (true, sz)
  | S left' =>
      r <- onf (e_readi ip (u32 off) PROGHDR_SIZE) ;;
      if negb (fst r =? PROGHDR_SIZE) then ret (false, sz) else
      let ph := read_proghdr (snd r) in
      if negb (ph_type ph =? ELF_PROG_LOAD) then exec_load pagetable ip (s32 (off + PROGHDR_SIZE)) sz left' fuel else
      if ph_memsz ph <? ph_filesz ph then ret (false, sz) else
      if u64 (ph_vaddr ph + ph_memsz ph) <? ph_vaddr ph then ret (false, sz) else
      sz <- onk (uvmalloc kend pagetable sz (u64 (ph_vaddr ph + ph_memsz ph)) fuel) ;;
      if sz =? 0 then ret (false, sz) else
      if negb (ph_vaddr ph mod PGSIZE =? 0) then ret (false, sz) else
      c <- loadseg pagetable (ph_vaddr ph) ip (u32 (ph_off ph)) (u32 (ph_filesz ph)) fuel ;;
      if c <? 0 then ret (false, sz) else
      exec_load pagetable ip (s32 (off + PROGHDR_SIZE)) sz left' fuel
  end.

(** The last part: nothing can fail any more. *)
Definition exec_commit (me pagetable sz sp argc entry oldsz : Z) (path : list byte) (fuel : nat) : MK Z :=
  p <- proc_of me ;;
  onk (modify_ram (fun m => store64 m (p_tf p + tf_a1) sp)) ;;;
  upd_proc me (fun p => set_name (safestrcpy_buf 16 (p_name p) (base_name path path ++ [Byte.x00])) p) ;;;
  oldpagetable <- gets (fun s => p_pagetable (procs s me)) ;;
  upd_proc me (set_pagetable pagetable) ;;;
  upd_proc me (set_sz sz) ;;;
  onk (modify_ram (fun m => store64 m (p_tf p + tf_epc) entry)) ;;;
  onk (modify_ram (fun m => store64 m (p_tf p + tf_sp) sp)) ;;;
  onk (proc_freepagetable kend oldpagetable oldsz fuel) ;;;
  ret (s32 argc).

(** From the two pages of the stack on. *)
Definition exec_stack (me pagetable sz entry : Z) (path : list byte) (argv : list (list byte)) (fuel : nat) : MK Z :=
  oldsz <- gets (fun s => p_sz (procs s me)) ;;
  let sz := PGROUNDUP sz in
  sz <- onk (uvmalloc kend pagetable sz (u64 (sz + 2 * PGSIZE)) fuel) ;;
  if sz =? 0 then exec_bad pagetable sz 0 fuel else
  onk (uvmclear pagetable (u64 (sz - 2 * PGSIZE))) ;;;
  r <- onk (push_args pagetable (u64 (sz - PGSIZE)) argv sz fuel) ;;
  match r with
  | None => exec_bad pagetable sz 0 fuel
  | Some (argc, sp) => exec_commit me pagetable sz sp argc entry oldsz path fuel
  end.

Definition exec (me : Z) (path : list byte) (argv : list (list byte)) (fuel : nat) : MK Z :=
  onf e_begin_op ;;;
  p <- proc_of me ;;
  ip <- onf (e_namei (p_cwd p) path) ;;
  if ip =? 0 then onf e_end_op ;;; ret (-1) else
  onf (e_ilock ip) ;;;
  r <- onf (e_readi ip 0 ELFHDR_SIZE) ;;
  if negb (fst r =? ELFHDR_SIZE) then exec_bad 0 0 ip fuel else
  let elf := read_elfhdr (snd r) in
  if negb (eh_magic elf =? ELF_MAGIC) then exec_bad 0 0 ip fuel else
  p <- proc_of me ;;
  pagetable <- onk (proc_pagetable trampoline (p_tf p) fuel) ;;
  if pagetable =? 0 then exec_bad 0 0 ip fuel else
  l <- exec_load pagetable ip (s32 (eh_phoff elf)) 0 (Z.to_nat (eh_phnum elf)) fuel ;;
  if negb (fst l) then exec_bad pagetable (snd l) ip fuel else
  onf (e_iunlockput ip) ;;;
  onf e_end_op ;;;
  exec_stack me pagetable (snd l) (eh_entry elf) path argv fuel.

End Exec.

(** ** The arguments arrive *)

(** Where the strings go, from [sp] down: the reference for the loop, in terms
    of rounding down to multiples of 16. *)
Definition align16 (x : Z) : Z := 16 * (x / 16).

Fixpoint place_args (stackbase sp : Z) (argv : list (list byte)) : option (list Z) :=
  match argv with
  | [] => Some []
  | arg :: argv' =>
      let a := align16 (sp - (Z.of_nat (length arg) + 1)) in
      if a <? stackbase then None else option_map (cons a) (place_args stackbase a argv')
  end.

(** The last address of [ps], [sp] when there is none. *)
Definition lowest (sp : Z) (ps : list Z) : Z := List.last ps sp.

(** The whole stack: where the array of addresses goes and where the strings
    go, [None] when there are too many arguments or they do not fit. *)
Definition place_stack (stackbase top : Z) (argv : list (list byte)) : option (Z * list Z) :=
  let n := Z.of_nat (length argv) in
  if MAXARG <? n then None else
  match place_args stackbase top argv with
  | None => None
  | Some ps =>
      let sp := align16 (lowest top ps - 8 * (n + 1)) in
      if sp <? stackbase then None else Some (sp, ps)
  end.

(** The bytes [bs] at a user address. *)
Definition uread (s : kmem) (T : ptree) (a : Z) (bs : list byte) : Prop :=
  forall i b, bs !! i = Some b -> exists f, uview s T (a + Z.of_nat i) = Some (f, b).

Section Stack.

Context (kend : Z) (kend_range : KERNBASE <= kend <= PHYSTOP).
Context (T : ptree) (l : list Z) (stackbase top : Z) (fuel : nat).
Hypothesis base_page : 8 * (MAXARG + 1) <= stackbase <= top.
(** Bounds as numbers. *)
Ltac stack := change MAXARG with 32 in *; unfold PGSIZE in *.

Hypothesis fuel_page : (Z.to_nat PGSIZE <= fuel)%nat.

(** The stack page is mapped for the user. *)
Record stack_ok (s : kmem) : Prop := {
  so_inv : as_inv kend s T l;
  so_top : kernel_top s T;
  so_user x : stackbase <= x < top -> user_ok s T x = true;
}.

Lemma stack_in_user s x : stack_ok s -> stackbase <= x < top -> in_user x.
Proof.
  intros Hs Hx. apply (user_ok_user s T x); [apply Hs|stack; lia|by apply Hs].
Qed.

(** A copy that stays in the stack page succeeds and changes only its range. *)
Lemma copyout_stack s sp bs :
  stack_ok s -> stackbase <= sp -> sp + Z.of_nat (length bs) <= top -> Z.of_nat (length bs) <= PGSIZE -> top < 2 ^ 64 ->
  exists s', copyout (pt_root T) sp bs fuel s = Done 0 s' /\ stack_ok s' /\ usim kend s T l s' T l /\ uread s' T sp bs /\
    (forall x, in_user x -> x < sp \/ sp + Z.of_nat (length bs) <= x -> uview s' T x = uview s T x).
Proof.
  intros Hs Hb He Hlen Htop.
  destruct (copyout_spec kend kend_range fuel s T l sp bs (so_inv _ Hs) (so_top _ Hs)) as (r & s' & n & E & U & P & Hn & R & A & V).
  { stack; lia. }
  { stack; lia. }
  destruct R as [[-> ->]|(_ & ? & Hno)]; [|rewrite (so_user _ Hs) in Hno by lia; done].
  exists s'. split_and!; try done.
  - split; [apply U| |].
    + intros x Hx. rewrite P. by apply (so_top _ Hs).
    + intros x Hx. rewrite (user_ok_usim s T s' P). by apply (so_user _ Hs).
  - intros i b Hi. pose proof (lookup_lt_Some _ _ _ Hi). eexists. rewrite V by (apply (stack_in_user s); [done|lia]).
    destruct (Z.leb_spec sp (sp + Z.of_nat i)); [|lia]. destruct (Z.ltb_spec (sp + Z.of_nat i) (sp + Z.of_nat (length bs))); [|lia].
    cbn [andb]. replace (Z.to_nat (sp + Z.of_nat i - sp)) with i by lia. by rewrite (nth_lookup_Some _ _ _ _ Hi).
  - intros x Hx Ho. rewrite V by done. destruct (Z.leb_spec sp x), (Z.ltb_spec x (sp + Z.of_nat (length bs))); done || lia.
Qed.

Lemma uread_frame s s' a bs :
  uread s T a bs -> (forall x, a <= x < a + Z.of_nat (length bs) -> uview s' T x = uview s T x) -> uread s' T a bs.
Proof.
  intros H Hf i b Hi. pose proof (lookup_lt_Some _ _ _ Hi). destruct (H i b Hi) as [f Hv]. exists f. by rewrite Hf by lia.
Qed.

Lemma align16_bounds x : 0 <= x -> 0 <= align16 x <= x /\ x < align16 x + 16 /\ align16 x mod 16 = 0 /\ x - x mod 16 = align16 x.
Proof. unfold align16. intros. split_and!; divlia. Qed.

Hypothesis top_range : top < 2 ^ 64.

Lemma lowest_cons sp a ps : lowest sp (a :: ps) = lowest a ps.
Proof. unfold lowest. revert a. induction ps as [|b ps IH]; intros a; [done|]. simpl in *. by destruct ps. Qed.

Lemma place_args_lowest sp argv ps : stackbase <= sp -> place_args stackbase sp argv = Some ps -> stackbase <= lowest sp ps <= sp.
Proof.
  revert sp ps. induction argv as [|arg argv IH]; intros sp ps Hsp; simpl; [intros [= <-]; unfold lowest; simpl; lia|].
  destruct (Z.ltb_spec (align16 (sp - (Z.of_nat (length arg) + 1))) stackbase); [done|].
  destruct (place_args stackbase _ argv) as [qs|] eqn:E; [|done]. intros [= <-]. rewrite lowest_cons.
  destruct (IH _ _ H E). assert (align16 (sp - (Z.of_nat (length arg) + 1)) <= sp) by (unfold align16; divlia). lia.
Qed.

Lemma push_strings_spec argv : forall s argc sp ustack,
  stack_ok s -> stackbase <= sp <= top -> Forall (fun a => Z.of_nat (length a) < Z.min stackbase PGSIZE) argv ->
  exists r s', push_strings (pt_root T) stackbase argv argc sp ustack fuel s = Done r s' /\
    stack_ok s' /\ usim kend s T l s' T l /\
    (forall x, in_user x -> x < stackbase \/ sp <= x -> uview s' T x = uview s T x) /\
    match r with
    | None => MAXARG < argc + Z.of_nat (length argv) \/ place_args stackbase sp argv = None
    | Some (n, sp', us) => argc + Z.of_nat (length argv) <= Z.max argc MAXARG /\ n = argc + Z.of_nat (length argv) /\
        exists ps, place_args stackbase sp argv = Some ps /\ sp' = lowest sp ps /\ us = ustack ++ ps /\
          Forall2 (fun p a => sp' <= p /\ p + Z.of_nat (length a) + 1 <= sp /\ uread s' T p (a ++ [Byte.x00])) ps argv
    end.
Proof.
  induction argv as [|arg argv IH]; intros s argc sp ustack Hs Hsp Hlen; cbn [push_strings].
  { eexists _, s. split; [reflexivity|]. split_and!; try done; [apply usim_refl, Hs|simpl; lia|simpl; lia|].
    exists []. by rewrite app_nil_r. }
  apply Forall_cons in Hlen as [Ha Hlen].
  destruct (Z.geb_spec argc MAXARG).
  { eexists _, s. split; [reflexivity|]. split_and!; try done; [apply usim_refl, Hs|]. left. simpl. lia. }
  rewrite u64_small by (stack; lia).
  destruct (align16_bounds (sp - (Z.of_nat (length arg) + 1)) ltac:(stack; lia)) as (A1 & A2 & A3 & A4). rewrite A4.
  cbn [place_args]. set (a := align16 _) in *.
  destruct (Z.ltb_spec a stackbase).
  { eexists _, s. split; [reflexivity|]. split_and!; try done; [apply usim_refl, Hs|]. by right. }
  assert (Z.of_nat (length (arg ++ [Byte.x00])) = Z.of_nat (length arg) + 1) as El by (rewrite length_app; simpl; lia).
  destruct (copyout_stack s a (arg ++ [Byte.x00]) Hs ltac:(lia) ltac:(lia) ltac:(lia) top_range) as (s1 & E1 & Hs1 & U1 & R1 & V1).
  rewrite El in V1. rewrite (bind_Done _ _ _ _ _ E1). cbn [Z.ltb Z.compare].
  destruct (IH s1 (argc + 1) a (ustack ++ [a]) Hs1 ltac:(lia) Hlen) as (r & s' & E & Hs' & U & V & R).
  exists r, s'. split; [exact E|]. split; [done|]. split; [by eapply usim_trans|]. split.
  { intros x Hx Ho. rewrite V, V1 by (done || lia). done. }
  destruct r as [[[n sp'] us]|].
  - destruct R as (R2 & -> & ps & R3 & R4 & -> & R5). rewrite R3. cbn [length option_map]. split_and!; [lia|lia|].
    exists (a :: ps). rewrite lowest_cons. split_and!; try done; [by rewrite <- app_assoc|].
    destruct (place_args_lowest a argv ps ltac:(lia) R3). constructor.
    + split_and!; [lia|lia|]. apply (uread_frame s1); [done|]. intros x Hx. apply V; [|lia].
      apply (stack_in_user s1); [done|]. lia.
    + eapply Forall2_impl; [exact R5|]. intros p arg' (? & ? & ?). split_and!; [done|lia|done].
  - destruct R as [R|R]; [left; simpl; lia|right; by rewrite R].
Qed.

Lemma place_stack_None argv :
  MAXARG < Z.of_nat (length argv) \/ place_args stackbase top argv = None -> place_stack stackbase top argv = None.
Proof. unfold place_stack. intros H. destruct (Z.ltb_spec MAXARG (Z.of_nat (length argv))); [done|]. destruct H as [? | ->]; [lia|done]. Qed.

Lemma length_pointers (ps : list Z) : Z.of_nat (length (concat (map (le_split 8) ps))) = 8 * Z.of_nat (length ps).
Proof.
  induction ps as [|p ps IH]; [done|]. cbn [map concat]. rewrite length_app, length_le_split. cbn [length]. lia.
Qed.

(** [C32] The stack of a new program: [push_args] returns, whatever the
    arguments (each shorter than a page), and it succeeds exactly when the
    reference layout [place_stack] exists, that is when there are at most
    MAXARG arguments and, with every string and then the array of addresses
    put at the next lower multiple of 16, the array still begins inside the
    page.  On success the stack pointer is the array's place, a multiple of
    16; the array has the addresses of the layout, closed by a null; each
    address lies above the array, inside the page, and has the NUL-terminated
    argument.  Either way nothing outside the page changes. *)
Theorem exec_stack_layout s argv :
  stack_ok s -> Forall (fun a => Z.of_nat (length a) < Z.min stackbase PGSIZE) argv ->
  exists s', let argc := Z.of_nat (length argv) in
    push_args (pt_root T) stackbase argv top fuel s =
      Done (option_map (fun r => (argc, fst r)) (place_stack stackbase top argv)) s' /\
    usim kend s T l s' T l /\
    (forall x, in_user x -> x < stackbase \/ top <= x -> uview s' T x = uview s T x) /\
    (forall sp ps, place_stack stackbase top argv = Some (sp, ps) ->
      argc <= MAXARG /\ sp mod 16 = 0 /\ stackbase <= sp /\
      uread s' T sp (concat (map (le_split 8) (ps ++ [0]))) /\
      Forall2 (fun p a => sp + 8 * (argc + 1) <= p /\ p + Z.of_nat (length a) + 1 <= top /\ uread s' T p (a ++ [Byte.x00])) ps argv).
Proof.
  intros Hs Hlen.
  destruct (push_strings_spec argv s 0 top [] Hs ltac:(lia) Hlen) as (r & s1 & E1 & Hs1 & U1 & V1 & R1).
  unfold push_args. rewrite (bind_Done _ _ _ _ _ E1). cbv zeta. destruct r as [[[argc sp] us]|].
  2: { exists s1. rewrite place_stack_None by (destruct R1; [left; lia|by right]). by split_and!. }
  unfold place_stack. cbv zeta.
  destruct R1 as (R2 & -> & ps & R3 & -> & -> & R5). simpl app in *. rewrite R3.
  destruct (place_args_lowest top argv ps ltac:(lia) R3) as [L1 L2].
  assert (0 <= Z.of_nat (length argv) <= MAXARG) as Hargc by (change MAXARG with 32 in *; lia).
  destruct (Z.ltb_spec MAXARG (Z.of_nat (length argv))); [lia|].
  change MAXARG with 32 in Hargc. replace ((0 + Z.of_nat (length argv) + 1) * 8) with (8 * (Z.of_nat (length argv) + 1)) by lia.
  rewrite u64_small by (stack; lia).
  destruct (align16_bounds (lowest top ps - 8 * (Z.of_nat (length argv) + 1)) ltac:(stack; lia)) as (A1 & A2 & A3 & A4). rewrite A4.
  set (a := align16 _) in *. destruct (Z.ltb_spec a stackbase).
  { exists s1. by split_and!. }
  pose proof (Forall2_length _ _ _ R5) as Elen. pose proof (length_pointers (ps ++ [0])) as El. rewrite length_app in El. simpl in El.
  destruct (copyout_stack s1 a (concat (map (le_split 8) (ps ++ [0]))) Hs1) as (s2 & E2 & Hs2 & U2 & Rd2 & V2);
    [lia|lia|stack; lia|done|].
  rewrite (bind_Done _ _ _ _ _ E2). cbn [Z.ltb Z.compare].
  exists s2. split; [done|]. split; [by eapply usim_trans|]. split.
  { intros x Hx Ho. rewrite V2, V1 by (done || lia). done. }
  intros ? ? [= <- <-]. split_and!; [lia|done|lia|done|].
  eapply Forall2_impl; [exact R5|]. intros p arg (P1 & P2 & P3). split_and!; [lia|lia|].
  apply (uread_frame s1); [done|]. intros x Hx. rewrite length_app in Hx. simpl in Hx.
  apply V2; [apply (stack_in_user s1); [done|stack; lia]|lia].
Qed.
End Stack.

(** A program called with two arguments, on the first page of an address
    space. *)
Definition demo_argv : list (list byte) := [[Byte.x68; Byte.x69]; [Byte.x78]].

Lemma exec_stack_layout_witness :
  exists s', push_args (demo_page 1) 512 demo_argv 4096 (Z.to_nat 4096) (demo true) = Done (Some (2, 4032)) s' /\
    uread s' demo_tree 4064 [Byte.x78; Byte.x00].
Proof.
  assert (stack_ok demo_end demo_tree [demo_page 5] 512 4096 (demo true)) as Hs.
  { split; [apply demo_as_inv|apply demo_top|]. intros x Hx. apply demo_user_ok. unfold PGSIZE. lia. }
  destruct (exec_stack_layout demo_end demo_end_range demo_tree [demo_page 5] 512 4096 (Z.to_nat 4096) ltac:(vm_compute; split; discriminate)
    ltac:(unfold PGSIZE; lia) ltac:(lia) (demo true) demo_argv Hs) as (s' & E & _ & _ & R).
  { repeat (apply Forall_cons; split; [vm_compute; reflexivity|]). apply Forall_nil. exact I. }
  exists s'. split; [exact E|].
  destruct (R 4032 [4080; 4064] eq_refl) as (_ & _ & _ & _ & F).
  inversion F as [|? ? ? ? _ F1]. subst. inversion F1 as [|? ? ? ? (_ & _ & G) _]. exact G.
Defined.
