(* ===== verification/ProcInv.v ===== *)
(** * The process table invariant

    What every operation of kernel/proc.c maintains, in every interleaving:
    live processes have distinct positive pids, a live parent (or are the
    first process), and a zombie has no children. *)

From S2P Require Import Prelude Rely CMem Riscv Kalloc Vm VmAwake Proc Exec.

Definition in_table (i : Z) : Prop := 0 <= i < NPROC.

Section Inv.

Context {F : Type} `{FE : FileEnv F}.
Context (kend trampoline forkret_pc : Z).

(** The first process, which adopts orphans. *)
Context (ini : Z).

Implicit Types s : kst F.

Definition live s (i : Z) : Prop := in_table i /\ p_state (procs s i) <> UNUSED.

(** The invariant; [ex] is an entry under construction, whose parent field is
    already set. *)
Record inv_ex (ex : option Z) s : Prop := {
  pi_next : 0 < nextpid s;
  pi_pid i : live s i -> 0 < p_pid (procs s i) < nextpid s;
  pi_uniq i j : live s i -> live s j -> p_pid (procs s i) = p_pid (procs s j) -> i = j;
  pi_parent i : live s i -> i = ini \/ exists q, p_parent (procs s i) = Some q /\ live s q;
  pi_init : initproc s = Some ini /\ live s ini /\ p_state (procs s ini) <> ZOMBIE;
  pi_zombie i j : live s i -> live s j -> p_state (procs s i) = ZOMBIE -> p_parent (procs s j) <> Some i;
  pi_unused i : in_table i -> ex <> Some i -> p_state (procs s i) = UNUSED -> p_parent (procs s i) = None;
}.

Definition ptable_inv s : Prop := inv_ex None s.

(** A process that runs or will run again. *)
Definition active s (i : Z) : Prop := live s i /\ p_state (procs s i) <> ZOMBIE.

(** What a process relies on while it is not running, and what it guarantees
    to the others. *)
Definition ready (me : Z) s : Prop := ptable_inv s /\ active s me.
Definition others (me : Z) s0 s : Prop := forall j, j <> me -> active s0 j -> active s j.
Definition rely (me : Z) s s' : Prop := ready me s -> ready me s'.
Definition guar (me : Z) s0 s : Prop := ptable_inv s /\ others me s0 s.

(** The pids have not run out, and no free entry carries a pid. *)
Definition pids_ok s : Prop :=
  nextpid s < 2 ^ 31 - 1 /\ forall i, in_table i -> p_state (procs s i) = UNUSED -> p_pid (procs s i) = 0.

(** *** Changes the invariant does not see *)

Definition core (p : proc) : procstate * option Z * Z := (p_state p, p_parent p, p_pid p).

Record same_core s s' : Prop := {
  sc_procs i : core (procs s' i) = core (procs s i);
  sc_next : nextpid s' = nextpid s;
  sc_init : initproc s' = initproc s;
}.

Lemma core_fields p q : core p = core q -> p_state p = p_state q /\ p_parent p = p_parent q /\ p_pid p = p_pid q.
Proof. unfold core. by intros [=]. Qed.

Lemma same_core_refl s : same_core s s.
Proof. by split. Qed.

Lemma same_core_trans s1 s2 s3 : same_core s1 s2 -> same_core s2 s3 -> same_core s1 s3.
Proof. intros [A1 A2 A3] [B1 B2 B3]. split; [intros i; by rewrite B1|congruence|congruence]. Qed.

Lemma same_core_upd i f s : (forall p, core (f p) = core p) -> same_core s (upd i f s).
Proof. intros Hf. split; [|done|done]. intros k. cbn. fset_cases; [apply Hf|done]. Qed.

Lemma same_core_live s s' i : same_core s s' -> live s' i <-> live s i.
Proof. intros [H _ _]. unfold live. destruct (core_fields _ _ (H i)) as (-> & _ & _). done. Qed.

Lemma same_core_inv ex s s' : same_core s s' -> inv_ex ex s -> inv_ex ex s'.
Proof.
  intros Hs [H0 H1 H2 H3 H4 H5 H6]. pose proof Hs as [Hc Hn Hi].
  assert (forall i, p_state (procs s' i) = p_state (procs s i) /\ p_parent (procs s' i) = p_parent (procs s i) /\ p_pid (procs s' i) = p_pid (procs s i)) as He
    by (intros i; apply core_fields, Hc).
  split.
  - by rewrite Hn.
  - intros i Hl%(same_core_live _ _ _ Hs). destruct (He i) as (_ & _ & ->). rewrite Hn. by apply H1.
  - intros i j Hli%(same_core_live _ _ _ Hs) Hlj%(same_core_live _ _ _ Hs). destruct (He i) as (_ & _ & ->), (He j) as (_ & _ & ->). by apply H2.
  - intros i Hl%(same_core_live _ _ _ Hs). destruct (He i) as (_ & -> & _). destruct (H3 i Hl) as [?|(q & ? & ?)]; [by left|].
    right. exists q. split; [done|]. by apply (same_core_live _ _ _ Hs).
  - destruct H4 as (Hq & Hl & Hz). split; [by rewrite Hi|]. split; [by apply (same_core_live _ _ _ Hs)|].
    by destruct (He ini) as (-> & _ & _).
  - intros i j Hli%(same_core_live _ _ _ Hs) Hlj%(same_core_live _ _ _ Hs). destruct (He i) as (-> & _ & _), (He j) as (_ & -> & _). by apply H5.
  - intros i. destruct (He i) as (-> & -> & _). apply H6.
Qed.

(** A state predicate that only depends on the core. *)
Definition stable (P : kst F -> Prop) : Prop := forall s s', same_core s s' -> P s -> P s'.

Lemma stable_inv ex : stable (inv_ex ex).
Proof. intros s s' H. by apply same_core_inv. Qed.

Lemma stable_live me : stable (fun s => live s me).
Proof. intros s s' H. by apply same_core_live. Qed.

Lemma same_core_active s s' i : same_core s s' -> active s' i <-> active s i.
Proof.
  intros Hs. unfold active. rewrite (same_core_live _ _ _ Hs). destruct Hs as [H _ _].
  destruct (core_fields _ _ (H i)) as (-> & _ & _). reflexivity.
Qed.

(** Within a segment that began in [s0]. *)
Definition running (ex : option Z) (me : Z) s0 s : Prop := inv_ex ex s /\ active s me /\ others me s0 s.

Lemma stable_running ex me s0 : stable (running ex me s0).
Proof.
  intros s s' Hs (H1 & H2 & H3). split; [by eapply stable_inv|]. split; [by eapply same_core_active|].
  intros j Hj Ha. eapply same_core_active; [done|]. by apply H3.
Qed.

Lemma stable_and P Q : stable P -> stable Q -> stable (fun s => P s /\ Q s).
Proof. intros HP HQ s s' H [H1 H2]. split; [by eapply HP|by eapply HQ]. Qed.

(** Code that leaves the core alone and does not sleep. *)
Definition quiet {A} (m : M (kst F) A) : Prop := forall s, post (fun _ s' => same_core s s') (m s).

Lemma quiet_bind {A B} (m : M (kst F) A) (k : A -> M (kst F) B) : quiet m -> (forall a, quiet (k a)) -> quiet (bind m k).
Proof.
  intros Hm Hk s. apply post_bind. eapply post_mono; [|apply Hm]. intros a s1 H1. cbn.
  eapply post_mono; [|apply Hk]. intros b s2 H2. eapply same_core_trans; [exact H1|exact H2].
Qed.
Lemma quiet_ret {A} (a : A) : quiet (ret a).
Proof. intros s. by split. Qed.
Lemma quiet_gets {A} (f : kst F -> A) : quiet (gets f).
Proof. intros s. by split. Qed.
Lemma quiet_panic {A} msg : quiet (A := A) (panic msg).
Proof. by intros s. Qed.
Lemma quiet_exhausted {A} : quiet (A := A) exhausted.
Proof. by intros s. Qed.
Lemma quiet_if {A} (b : bool) (m1 m2 : M (kst F) A) : quiet m1 -> quiet m2 -> quiet (if b then m1 else m2).
Proof. by destruct b. Qed.
Lemma quiet_upd i f : (forall p, core (f p) = core p) -> quiet (upd_proc i f).
Proof. intros Hf s. by apply same_core_upd. Qed.
Lemma quiet_acquire_p i : quiet (acquire_p i).
Proof. intros s. apply post_acquire. by apply same_core_upd. Qed.
Lemma quiet_release_p i : quiet (release_p i).
Proof. intros s. apply post_release. by apply same_core_upd. Qed.
Lemma quiet_onk {A} (m : M kmem A) : awake m -> quiet (onk m).
Proof. intros Hm s. apply post_lift; [done|]. intros a t. by split. Qed.
Lemma quiet_onf {A} (m : M (kmem * F) A) : awake m -> quiet (onf m).
Proof. intros Hm s. apply post_lift; [done|]. intros a t. by split. Qed.

Lemma quiet_post {A} (m : M (kst F) A) P s : quiet m -> stable P -> P s -> post (fun _ => P) (m s).
Proof. intros Hm HP Hs. eapply post_mono; [|apply Hm]. intros a s' H. eapply HP; [exact H|exact Hs]. Qed.

#[local] Hint Resolve quiet_ret quiet_gets quiet_panic quiet_exhausted quiet_acquire_p quiet_release_p : quiet.

Lemma quiet_proc_of i : quiet (proc_of i).
Proof. apply quiet_gets. Qed.
#[local] Hint Resolve quiet_proc_of : quiet.

(** Proof search over the structure of quiet code. *)
Ltac quiet :=
  repeat first
    [ apply quiet_bind; [|intros ?]
    | apply quiet_if
    | apply quiet_upd; done
    | solve [eauto with quiet]
    | apply quiet_onk; solve [eauto with awake]
    | apply quiet_onf; solve [eauto with awake] ].

(** *** Stepping through code that runs in one go *)

Lemma post_quiet {A B} (m : M (kst F) A) (k : A -> M (kst F) B) (P : kst F -> Prop) (Q : B -> kst F -> Prop) s :
  quiet m -> stable P -> P s -> (forall a s', P s' -> post Q (k a s')) -> post Q (bind m k s).
Proof. intros Hm HP Hs Hk. apply post_bind. eapply post_mono; [|by eapply quiet_post]. done. Qed.

Lemma post_for_procs {A} (P : kst F -> Prop) (Q : option A -> kst F -> Prop) body n i s :
  (forall j s, i <= j < i + Z.of_nat n -> P s ->
     post (fun r s => match r with None => P s | Some a => Q (Some a) s end) (body j s)) ->
  (forall s, P s -> Q None s) -> P s -> post Q (for_procs body i n s).
Proof.
  revert i s. induction n as [|n IH]; intros i s Hb HQ Hs; cbn [for_procs]; [by apply HQ|].
  apply post_bind. eapply post_mono; [|apply Hb; [lia|done]]. intros [a|] s'; cbn; [done|].
  intros Hs'. apply IH; [|done|done]. intros j t Hj Ht. apply Hb; [lia|done].
Qed.

(** The same with an invariant that follows the index. *)
Lemma post_for_procs_at (P : Z -> kst F -> Prop) (body : Z -> M (kst F) (option unit)) n i s :
  (forall j s, i <= j < i + Z.of_nat n -> P j s -> post (fun r s => r = None /\ P (j + 1) s) (body j s)) ->
  P i s -> post (fun _ => P (i + Z.of_nat n)) (for_procs body i n s).
Proof.
  revert i s. induction n as [|n IH]; intros i s Hb Hs; cbn [for_procs]; [cbn; by rewrite Z.add_0_r|].
  apply post_bind. eapply post_mono; [|apply Hb; [lia|done]]. intros r s' [-> Hs'].
  eapply post_mono; [|apply IH; [|exact Hs']].
  - intros r0 t Ht. cbn beta in *. by replace (i + Z.of_nat (S n)) with (i + 1 + Z.of_nat n) by lia.
  - intros j t Hj Ht. apply Hb; [lia|done].
Qed.

Lemma post_each_proc {A} (P : kst F -> Prop) (Q : option A -> kst F -> Prop) body s :
  (forall j s, in_table j -> P s -> post (fun r s => match r with None => P s | Some a => Q (Some a) s end) (body j s)) ->
  (forall s, P s -> Q None s) -> P s -> post Q (each_proc body s).
Proof. intros Hb. apply post_for_procs. intros j t Hj. apply Hb. unfold in_table, NPROC in *. lia. Qed.

(** *** Changes of one entry *)

Lemma others_refl me s : others me s s.
Proof. by intros j. Qed.

Lemma st_eqb_true a b : st_eqb a b = true <-> a = b.
Proof. unfold st_eqb. apply bool_decide_eq_true. Qed.

Definition runs (st : procstate) : Prop := st <> UNUSED /\ st <> ZOMBIE.

Lemma live_set_state i st s j : live s i -> st <> UNUSED -> live (upd i (set_state st) s) j <-> live s j.
Proof. intros [Hi Hs] Hst. unfold live. cbn. fset_cases; naive_solver. Qed.

Lemma inv_set_state ex i st s : inv_ex ex s -> live s i -> runs st -> inv_ex ex (upd i (set_state st) s).
Proof.
  intros [H0 H1 H2 H3 H4 H5 H6] Hl [Hu Hz]. pose proof (fun j => live_set_state i st s j Hl Hu) as Hlive.
  assert (forall j, p_parent (procs (upd i (set_state st) s) j) = p_parent (procs s j)) as Hpar by (intros j; cbn; by fset_cases).
  assert (forall j, p_pid (procs (upd i (set_state st) s) j) = p_pid (procs s j)) as Hpid by (intros j; cbn; by fset_cases).
  assert (forall j, p_state (procs (upd i (set_state st) s) j) = ZOMBIE -> p_state (procs s j) = ZOMBIE) as Hzo
    by (intros j; cbn; fset_cases; done).
  split.
  - done.
  - intros j Hj. rewrite Hpid. by apply H1, Hlive.
  - intros j k Hj Hk. rewrite !Hpid. apply H2; by apply Hlive.
  - intros j Hj. rewrite Hpar. destruct (H3 j) as [?|(q & ? & ?)]; [by apply Hlive|by left|]. right. exists q. split; [done|]. by apply Hlive.
  - destruct H4 as (Hq & Ha & Hb). split; [done|]. split; [by apply Hlive|]. intros Hc. by apply Hb, Hzo.
  - intros j k Hj Hk Hc. rewrite Hpar. apply H5; [by apply Hlive|by apply Hlive|by apply Hzo].
  - intros j Hj Hex Hs. rewrite Hpar. apply H6; [done|done|]. revert Hs. cbn. fset_cases; done.
Qed.

Lemma active_set_state i st s j : runs st -> live s i -> active s j -> active (upd i (set_state st) s) j.
Proof.
  intros [Hu Hz] Hi [Hl Ha]. split; [by apply live_set_state|]. cbn. fset_cases; done.
Qed.

Lemma running_set_state ex me s0 i st s :
  running ex me s0 s -> live s i -> runs st -> running ex me s0 (upd i (set_state st) s).
Proof.
  intros (H1 & H2 & H3) Hl Hst. split; [by apply inv_set_state|]. split; [by apply active_set_state|].
  intros j Hj Ha. apply active_set_state; [done|done|]. by apply H3.
Qed.

Lemma running_upd ex me s0 i f s : (forall p, core (f p) = core p) -> running ex me s0 s -> running ex me s0 (upd i f s).
Proof. intros Hf. apply stable_running. by apply same_core_upd. Qed.

(** ** The operations *)

Lemma live_of s i st : in_table i -> p_state (procs s i) = st -> st <> UNUSED -> live s i.
Proof. intros Hi <- Hs. by split. Qed.

Lemma post_wake me s0 i (b : bool) s :
  running None me s0 s -> (b = true -> live s i) ->
  post (fun _ => running None me s0) ((if b then upd_proc i (set_state RUNNABLE) else ret tt) s).
Proof. intros Hr Hb. destruct b; cbn; [|done]. by apply running_set_state; [|apply Hb|]. Qed.

Lemma post_wakeup me s0 chan s : running None me s0 s -> post (fun _ => running None me s0) (wakeup chan s).
Proof.
  intros Hs. unfold wakeup, each_locked. apply post_bind.
  apply (post_mono (fun _ => running None me s0)); [done|].
  apply (post_each_proc (running None me s0)); [|done|done]. intros j t Hj Ht.
  eapply post_quiet; [apply quiet_acquire_p|apply (stable_running None me s0)|done|]. intros _ t1 H1.
  apply post_bind. unfold proc_of. rewrite bind_gets.
  eapply post_mono; [|apply post_wake; [exact H1|]].
  - intros u t2 H2. cbn beta in *. eapply post_quiet; [apply quiet_release_p|apply (stable_running None me s0)|done|]. by intros.
  - intros [Hsl _]%andb_prop. apply st_eqb_true in Hsl. by apply (live_of _ _ SLEEPING).
Qed.

Lemma post_wakeup1 me s0 i s : in_table i -> running None me s0 s -> post (fun _ => running None me s0) (wakeup1 i s).
Proof.
  intros Hi Hs. unfold wakeup1, proc_of. rewrite bind_gets. destruct (negb _); [done|].
  apply post_wake; [done|]. intros [_ Hsl]%andb_prop. apply st_eqb_true in Hsl. by apply (live_of _ _ SLEEPING).
Qed.

Lemma post_kill me s0 pid s : running None me s0 s -> post (fun _ => running None me s0) (kill pid s).
Proof.
  intros Hs. unfold kill. apply post_bind.
  apply (post_mono (fun _ => running None me s0)); [done|].
  apply (post_each_proc (running None me s0)); [|done|done]. intros j t Hj Ht.
  eapply post_quiet; [apply quiet_acquire_p|apply (stable_running None me s0)|done|]. intros _ t1 H1.
  unfold proc_of. rewrite bind_gets. destruct (_ =? pid).
  - unfold upd_proc at 1. rewrite bind_modify. apply post_bind. eapply post_mono; [|apply post_wake].
    + intros u t2 H2. cbn beta in *. eapply post_quiet; [apply quiet_release_p|apply (stable_running None me s0)|done|]. by intros.
    + by apply running_upd.
    + intros Ho. apply orb_prop in Ho. eapply same_core_live; [by apply same_core_upd|].
      destruct Ho as [Ho|Ho]; apply st_eqb_true in Ho; by eapply live_of.
  - eapply post_quiet; [apply quiet_release_p|apply (stable_running None me s0)|done|]. by intros.
Qed.

(** *** Code that sleeps *)

Notation proto me := (rg (within pids_ok (rely me)) (guar me)).

Lemma running_guar me s0 s : running None me s0 s -> guar me s0 s.
Proof. by intros (H1 & H2 & H3). Qed.

Lemma running_resume me s0 s s' : running None me s0 s -> within pids_ok (rely me) s s' -> running None me s' s' /\ pids_ok s'.
Proof.
  intros (H1 & H2 & H3) [HR HB]. destruct HR as [H4 H5]; [done|]. split; [|done]. split; [done|]. split; [done|apply others_refl].
Qed.

Lemma rg_post {A} me (Q : kst F -> A -> kst F -> Prop) s0 (o : outcome (kst F) A) :
  post (fun a s => Q s0 a s) o -> proto me Q s0 o.
Proof. apply post_rg. Qed.

Lemma rg_quiet {A B} me (m : M (kst F) A) (k : A -> M (kst F) B) (P : kst F -> Prop) (Q : kst F -> B -> kst F -> Prop) s0 s :
  quiet m -> stable P -> P s -> (forall a s', P s' -> proto me Q s0 (k a s')) -> proto me Q s0 (bind m k s).
Proof.
  intros Hm HP Hs Hk. apply rg_bind, rg_post. eapply post_mono; [|by eapply quiet_post]. done.
Qed.

Lemma rg_onf {A} me (m : M (kmem * F) A) s0 s : running None me s0 s -> proto me (fun s0 _ s => running None me s0 s) s0 (onf m s).
Proof.
  apply rg_lift.
  - intros t0 t u Ht. assert (running None me t0 (set_kf u t)) as Hr by (by eapply stable_running; [|exact Ht]).
    split; [by apply running_guar|done].
  - intros t0 t t' Ht HR. by eapply running_resume.
Qed.

Lemma rg_switch_in me s : running None me s s -> proto me (fun s0 _ s => running None me s0 s) s (switch_in me s).
Proof.
  intros Hs. unfold switch_in, proc_of. rewrite bind_gets. destruct (st_eqb _ _) eqn:E; [|done].
  apply st_eqb_true in E.
  eapply (rg_quiet _ _ _ (fun t => running None me s t /\ live t me)); [apply quiet_acquire_p| | |].
  - apply stable_and; [apply stable_running|apply stable_live].
  - split; [done|]. by destruct Hs as (_ & [? _] & _).
  - intros _ t [H1 H2]. cbn. by apply running_set_state.
Qed.

Lemma rg_sched me s0 s : running None me s0 s -> proto me (fun s0 _ s => running None me s0 s) s0 (sched me s).
Proof.
  intros Hs. unfold sched, proc_of. rewrite bind_gets. destruct (negb _); [done|]. destruct (st_eqb _ _); [done|].
  eapply rg_quiet; [apply quiet_release_p|apply (stable_running None me s0)|done|]. intros _ t Ht.
  cbn. split; [by apply running_guar|]. intros t' Ht'. by apply rg_switch_in, (running_resume me s0 t).
Qed.

(** Composition of segments in which the process keeps running. *)
Lemma rg_then {A B} me (m : M (kst F) A) (k : A -> M (kst F) B) s0 s :
  proto me (fun s0 _ s => running None me s0 s) s0 (m s) ->
  (forall a s0 s, running None me s0 s -> proto me (fun s0 _ s => running None me s0 s) s0 (k a s)) ->
  proto me (fun s0 _ s => running None me s0 s) s0 (bind m k s).
Proof. intros Hm Hk. apply rg_bind. eapply rg_mono; [|exact Hm]. cbn. intros. by apply Hk. Qed.

Lemma rg_q {A} me (m : M (kst F) A) s0 s :
  quiet m -> running None me s0 s -> proto me (fun s0 _ s => running None me s0 s) s0 (m s).
Proof. intros Hm Hs. apply rg_post. apply quiet_post; [done|apply stable_running|done]. Qed.

Lemma rg_set_own me st s0 s :
  runs st -> running None me s0 s -> proto me (fun s0 _ s => running None me s0 s) s0 (upd_proc me (set_state st) s).
Proof. intros Hst Hs. cbn. apply running_set_state; [done| |done]. by destruct Hs as (_ & [? _] & _). Qed.

Lemma rg_yield me s0 s : running None me s0 s -> proto me (fun s0 _ s => running None me s0 s) s0 (yield me s).
Proof.
  intros Hs. unfold yield.
  apply rg_then; [by apply rg_q; [apply quiet_acquire_p|]|]. clear s0 s Hs. intros _ s0 s Hs.
  apply rg_then; [by apply rg_set_own|]. clear s0 s Hs. intros _ s0 s Hs.
  apply rg_then; [by apply rg_sched|]. clear s0 s Hs. intros _ s0 s Hs. by apply rg_q; [apply quiet_release_p|].
Qed.

Lemma rg_sleep_own me chan s0 s : running None me s0 s -> proto me (fun s0 _ s => running None me s0 s) s0 (sleep_own me chan s).
Proof.
  intros Hs. unfold sleep_own.
  apply rg_then; [by apply rg_q; [apply quiet_upd|]|]. clear s0 s Hs. intros _ s0 s Hs.
  apply rg_then; [by apply rg_set_own|]. clear s0 s Hs. intros _ s0 s Hs.
  apply rg_then; [by apply rg_sched|]. clear s0 s Hs. intros _ s0 s Hs. by apply rg_q; [apply quiet_upd|].
Qed.

(** The lock is one of the file layer's. *)
Definition get_flock (get : F -> bool) s : bool := get (files s).
Definition set_flock (set : bool -> F -> F) (b : bool) s : kst F := set_files (set b (files s)) s.

Lemma rg_sleep me chan get set s0 s :
  running None me s0 s -> proto me (fun s0 _ s => running None me s0 s) s0 (sleep me chan (get_flock get) (set_flock set) s).
Proof.
  intros Hs. unfold sleep.
  apply rg_then; [by apply rg_q; [apply quiet_acquire_p|]|]. clear s0 s Hs. intros _ s0 s Hs.
  apply rg_then; [apply rg_q; [|done]; intros t; by apply post_release|]. clear s0 s Hs. intros _ s0 s Hs.
  apply rg_then; [by apply rg_q; [apply quiet_upd|]|]. clear s0 s Hs. intros _ s0 s Hs.
  apply rg_then; [by apply rg_set_own|]. clear s0 s Hs. intros _ s0 s Hs.
  apply rg_then; [by apply rg_sched|]. clear s0 s Hs. intros _ s0 s Hs.
  apply rg_then; [by apply rg_q; [apply quiet_upd|]|]. clear s0 s Hs. intros _ s0 s Hs.
  apply rg_then; [by apply rg_q; [apply quiet_release_p|]|]. clear s0 s Hs. intros _ s0 s Hs.
  apply rg_q; [|done]; intros t; by apply post_acquire.
Qed.

(** *** Freeing an entry *)

Record freed (i : Z) s s' : Prop := {
  fr_core j : j <> i -> core (procs s' j) = core (procs s j);
  fr_next : nextpid s' = nextpid s;
  fr_init : initproc s' = initproc s;
  fr_state : p_state (procs s' i) = UNUSED;
  fr_parent : p_parent (procs s' i) = None;
  fr_pid : p_pid (procs s' i) = 0;
}.

Lemma awake_proc_freepagetable pt sz fuel : awake (proc_freepagetable kend pt sz fuel).
Proof. unfold proc_freepagetable. awake. Qed.
Lemma awake_proc_pagetable tf fuel : awake (proc_pagetable trampoline tf fuel).
Proof. unfold proc_pagetable. awake. Qed.
#[local] Hint Resolve awake_proc_freepagetable awake_proc_pagetable : awake.

Lemma stable_same s : stable (same_core s).
Proof. intros t t' H1 H2. by eapply same_core_trans. Qed.

Lemma post_freeproc i fuel s : post (fun _ => freed i s) (freeproc kend i fuel s).
Proof.
  unfold freeproc, proc_of. rewrite bind_gets.
  eapply post_quiet; [|apply (stable_same s)|apply same_core_refl|]; [apply quiet_if; [apply quiet_onk; auto with awake|apply quiet_ret]|].
  intros _ s1 H1.
  eapply post_quiet; [by apply quiet_upd|apply (stable_same s)|exact H1|]. clear s1 H1. intros _ s1 H1.
  eapply post_quiet; [|apply (stable_same s)|exact H1|]; [apply quiet_if; [apply quiet_onk; auto with awake|apply quiet_ret]|].
  clear s1 H1. intros _ s1 [Hc Hn Hi].
  unfold upd_proc. cbn. split; cbn; rewrite ?fset_eq; try done. intros j Hj. rewrite !fset_ne by done. apply Hc.
Qed.

Lemma freed_live i s s' j : freed i s s' -> live s' j <-> live s j /\ j <> i.
Proof.
  intros [Hc _ _ Hs _ _]. unfold live. destruct (decide (j = i)) as [->|Hne]; [naive_solver|].
  destruct (core_fields _ _ (Hc j Hne)) as (-> & _ & _). naive_solver.
Qed.

Lemma freed_inv i s s' : freed i s s' -> ~ active s i -> in_table i -> inv_ex None s -> inv_ex None s'.
Proof.
  intros Hf Ha Hi [H0 H1 H2 H3 H4 H5 H6]. pose proof Hf as [Hc Hn Hin Hs Hp _].
  pose proof (fun j => freed_live i s s' j Hf) as Hl.
  assert (forall j, j <> i -> p_state (procs s' j) = p_state (procs s j) /\ p_parent (procs s' j) = p_parent (procs s j) /\ p_pid (procs s' j) = p_pid (procs s j)) as He
    by (intros j Hj; by apply core_fields, Hc).
  split.
  - by rewrite Hn.
  - intros j [Hj Hne]%Hl. destruct (He j Hne) as (_ & _ & ->). rewrite Hn. by apply H1.
  - intros j k [Hj Hne]%Hl [Hk Hnk]%Hl. destruct (He j Hne) as (_ & _ & ->), (He k Hnk) as (_ & _ & ->). by apply H2.
  - intros j [Hj Hne]%Hl. destruct (He j Hne) as (_ & -> & _). destruct (H3 j Hj) as [?|(q & Hq & Hql)]; [by left|].
    right. exists q. split; [done|]. apply Hl. split; [done|]. intros ->.
    destruct (decide (p_state (procs s i) = ZOMBIE)) as [Hz|Hz]; [|by apply Ha]. by apply (H5 i j).
  - destruct H4 as (Hq & Hql & Hqz). assert (ini <> i) as Hne by (intros ->; by apply Ha).
    destruct (He ini Hne) as (-> & _ & _). rewrite Hin. split; [done|]. split; [by apply Hl|done].
  - intros j k [Hj Hne]%Hl [Hk Hnk]%Hl. destruct (He j Hne) as (-> & _ & _), (He k Hnk) as (_ & -> & _). by apply H5.
  - intros j Hj _ Hju. destruct (decide (j = i)) as [->|Hne]; [done|]. destruct (He j Hne) as (E1 & -> & _).
    apply H6; [done|done|congruence].
Qed.

Lemma freed_running me i s0 s s' :
  freed i s s' -> ~ active s i -> in_table i -> running None me s0 s -> running None me s0 s'.
Proof.
  intros Hf Ha Hi (H1 & H2 & H3).
  assert (forall j, active s j -> active s' j) as Hact.
  { intros j [Hl Hz]. assert (j <> i) as Hne by (intros ->; by apply Ha). split; [by eapply freed_live|].
    destruct Hf as [Hc _ _ _ _ _]. by destruct (core_fields _ _ (Hc j Hne)) as (-> & _ & _). }
  split; [by eapply freed_inv|]. split; [by apply Hact|]. intros j Hj Hj0. by apply Hact, H3.
Qed.

(** *** Allocating an entry *)

(** An entry that has its pid and is not yet live. *)
Record fresh (i : Z) s : Prop := {
  fs_table : in_table i;
  fs_unused : p_state (procs s i) = UNUSED;
  fs_pid : 0 < p_pid (procs s i) < nextpid s;
  fs_new j : live s j -> p_pid (procs s j) <> p_pid (procs s i);
}.

Lemma stable_fresh i : stable (fresh i).
Proof.
  intros s s' Hs [H1 H2 H3 H4]. pose proof Hs as [Hc Hn _]. destruct (core_fields _ _ (Hc i)) as (E1 & _ & E3).
  split; [done|by rewrite E1|by rewrite E3, Hn|]. intros j Hj%(same_core_live _ _ _ Hs). rewrite E3.
  destruct (core_fields _ _ (Hc j)) as (_ & _ & ->). by apply H4.
Qed.

Lemma fresh_assigned i me s0 s :
  running None me s0 s -> nextpid s < 2 ^ 31 - 1 -> in_table i -> p_state (procs s i) = UNUSED ->
  let s' := upd i (set_pid (nextpid s)) (set_nextpid (s32 (nextpid s + 1)) s) in
  running None me s0 s' /\ fresh i s'.
Proof.
  intros ([H0 H1 H2 H3 H4 H5 H6] & Ha & Ho) Hb Hi Hu s'.
  assert (nextpid s' = nextpid s + 1) as Hn by (cbn; apply s32_small; lia).
  assert (forall j, p_state (procs s' j) = p_state (procs s j)) as Est by (intros j; cbn; by fset_cases).
  assert (forall j, p_parent (procs s' j) = p_parent (procs s j)) as Epa by (intros j; cbn; by fset_cases).
  assert (forall j, live s' j <-> live s j) as Hl by (intros j; unfold live; by rewrite Est).
  assert (forall j, active s' j <-> active s j) as Hac by (intros j; unfold active; by rewrite Hl, Est).
  assert (forall j, live s j -> p_pid (procs s' j) = p_pid (procs s j)) as Epid.
  { intros j [_ Hj]. cbn. by fset_cases. }
  split; [split; [split|split]|split].
  - lia.
  - intros j Hj%Hl. rewrite Epid, Hn by done. pose proof (H1 j Hj). lia.
  - intros j k Hj%Hl Hk%Hl. rewrite !Epid by done. by apply H2.
  - intros j Hj%Hl. rewrite Epa. destruct (H3 j Hj) as [?|(q & ? & ?)]; [by left|right]. exists q. by rewrite Hl.
  - rewrite Hl, Est. by apply H4.
  - intros j k Hj%Hl Hk%Hl. rewrite Est, Epa. by apply H5.
  - intros j Hj Hex. rewrite Est, Epa. by apply H6.
  - by apply Hac.
  - intros j Hj Hja. by apply Hac, Ho.
  - done.
  - by rewrite Est.
  - rewrite Hn. cbn. rewrite fset_eq. cbn. lia.
  - intros j Hj%Hl. rewrite Epid by done. cbn. rewrite fset_eq. cbn. pose proof (H1 j Hj). lia.
Qed.

Definition may_alloc me s0 s : Prop := running None me s0 s /\ nextpid s < 2 ^ 31 - 1.

Lemma stable_may_alloc me s0 : stable (may_alloc me s0).
Proof. apply stable_and; [apply stable_running|]. intros s s' [_ H _]. by rewrite H. Qed.

Definition allocated me s0 (r : option Z) s : Prop :=
  running None me s0 s /\ match r with Some i => fresh i s | None => True end.

Lemma stable_allocated me s0 i : stable (allocated me s0 (Some i)).
Proof. apply stable_and; [apply stable_running|apply stable_fresh]. Qed.

Lemma stable_unused i : stable (fun s => p_state (procs s i) = UNUSED).
Proof. intros s s' [Hc _ _]. by destruct (core_fields _ _ (Hc i)) as (-> & _ & _). Qed.

Lemma post_allocpid me s0 i s (Q : Z -> kst F -> Prop) :
  may_alloc me s0 s -> in_table i -> p_state (procs s i) = UNUSED ->
  (forall pid s', allocated me s0 (Some i) (upd i (set_pid pid) s') -> Q pid s') -> post Q (allocpid s).
Proof.
  intros [Hr Hn] Hi Hu HQ. unfold allocpid. apply post_bind, post_acquire. rewrite bind_gets, bind_modify.
  apply post_bind, post_release. cbn. apply HQ.
  apply (stable_allocated me s0 i (upd i (set_pid (nextpid s)) (set_nextpid (s32 (nextpid s + 1)) s))); [by split|].
  by apply fresh_assigned.
Qed.

Lemma post_allocproc me s0 fuel s : may_alloc me s0 s -> post (allocated me s0) (allocproc trampoline forkret_pc fuel s).
Proof.
  intros Hs. unfold allocproc. apply post_bind.
  apply (post_mono (fun r t => may_alloc me s0 t /\ match r with Some i => in_table i /\ p_state (procs t i) = UNUSED | None => True end)).
  2: { apply (post_each_proc (may_alloc me s0)); [|done|done]. intros j t Hj Ht.
       eapply post_quiet; [apply quiet_acquire_p|apply stable_may_alloc|exact Ht|]. intros _ t1 H1.
       unfold proc_of. rewrite bind_gets. destruct (st_eqb _ _) eqn:E; [by apply st_eqb_true in E|].
       eapply post_quiet; [apply quiet_release_p|apply stable_may_alloc|exact H1|]. by intros. }
  intros [i|] t [Ht Hi]; [|by destruct Ht]. destruct Hi as [Hi Hu].
  apply post_bind, (post_allocpid me s0 i); [done..|]. intros pid t1 H1. unfold upd_proc at 1. rewrite bind_modify.
  eapply post_quiet; [apply quiet_onk; auto with awake|apply (stable_allocated me s0 i)|exact H1|]. intros tf t2 H2.
  eapply post_quiet; [by apply quiet_upd|apply (stable_allocated me s0 i)|exact H2|]. intros _ t3 H3.
  destruct (tf =? 0).
  - eapply post_quiet; [apply quiet_release_p|apply (stable_allocated me s0 i)|exact H3|]. intros _ t4 [H4 _]. by split.
  - eapply post_quiet; [apply quiet_onk; auto with awake|apply (stable_allocated me s0 i)|exact H3|]. intros pt t4 H4.
    do 3 (eapply post_quiet; [by apply quiet_upd|apply (stable_allocated me s0 i)|eassumption|]; intros ? ? ?).
    done.
Qed.

(** *** Giving birth *)

(** A fresh entry whose parent is set. *)
Record unborn (me np : Z) s0 s : Prop := {
  ub_inv : inv_ex (Some np) s;
  ub_active : active s me;
  ub_others : others me s0 s;
  ub_fresh : fresh np s;
  ub_parent : p_parent (procs s np) = Some me;
}.

Lemma stable_unborn me np s0 : stable (unborn me np s0).
Proof.
  intros s s' Hs [H1 H2 H3 H4 H5]. pose proof Hs as [Hc _ _].
  destruct (stable_running (Some np) me s0 s s' Hs) as (K1 & K2 & K3); [done|].
  split; [done|done|done|by eapply stable_fresh|]. by destruct (core_fields _ _ (Hc np)) as (_ & -> & _).
Qed.

Lemma unborn_start me np s0 s : allocated me s0 (Some np) s -> unborn me np s0 (upd np (set_parent (Some me)) s).
Proof.
  intros [([H0 H1 H2 H3 H4 H5 H6] & Ha & Ho) [Hi Hu Hp Hn]]. set (s' := upd np (set_parent (Some me)) s).
  assert (forall j, p_state (procs s' j) = p_state (procs s j)) as Est by (intros j; cbn; by fset_cases).
  assert (forall j, p_pid (procs s' j) = p_pid (procs s j)) as Epid by (intros j; cbn; by fset_cases).
  assert (forall j, live s' j <-> live s j) as Hl by (intros j; unfold live; by rewrite Est).
  assert (forall j, active s' j <-> active s j) as Hac by (intros j; unfold active; by rewrite Hl, Est).
  assert (forall j, j <> np -> p_parent (procs s' j) = p_parent (procs s j)) as Epa by (intros j Hj; cbn; by fset_cases).
  assert (forall j, live s j -> j <> np) as Hne by (intros j [_ Hj] ->; done).
  split; [split|by apply Hac| |split|].
  - done.
  - intros j Hj%Hl. rewrite Epid. by apply H1.
  - intros j k Hj%Hl Hk%Hl. rewrite !Epid. by apply H2.
  - intros j Hj%Hl. rewrite Epa by by apply Hne. destruct (H3 j Hj) as [?|(q & ? & ?)]; [by left|right]. exists q. by rewrite Hl.
  - rewrite Hl, Est. by apply H4.
  - intros j k Hj%Hl Hk%Hl. rewrite Est, Epa by by apply Hne. by apply H5.
  - intros j Hj Hex. rewrite Est, Epa by congruence. by apply H6.
  - intros j Hj Hja. by apply Hac, Ho.
  - done.
  - by rewrite Est.
  - by rewrite Epid.
  - intros j Hj%Hl. rewrite !Epid. by apply Hn.
  - cbn. by rewrite fset_eq.
Qed.

Lemma unborn_born me np s0 s : unborn me np s0 s -> running None me s0 (upd np (set_state RUNNABLE) s).
Proof.
  intros [[H0 H1 H2 H3 H4 H5 H6] Ha Ho [Hi Hu Hp Hn] Hpar]. set (s' := upd np (set_state RUNNABLE) s).
  assert (forall j, p_pid (procs s' j) = p_pid (procs s j)) as Epid by (intros j; cbn; by fset_cases).
  assert (forall j, p_parent (procs s' j) = p_parent (procs s j)) as Epa by (intros j; cbn; by fset_cases).
  assert (forall j, j <> np -> p_state (procs s' j) = p_state (procs s j)) as Est by (intros j Hj; cbn; by fset_cases).
  assert (p_state (procs s' np) = RUNNABLE) as Enp by (cbn; by rewrite fset_eq).
  assert (forall j, live s j -> j <> np) as Hne by (intros j [_ Hj] ->; done).
  assert (forall j, live s' j <-> live s j \/ j = np) as Hl.
  { intros j. destruct (decide (j = np)) as [->|Hj]; unfold live; [rewrite Enp|rewrite Est by done]; naive_solver. }
  assert (forall j, active s j -> active s' j) as Hac.
  { intros j [Hj Hz]. split; [apply Hl; by left|]. rewrite Est by by apply Hne. done. }
  split; [split|split].
  - done.
  - intros j Hj. rewrite Epid. apply Hl in Hj as [Hj| ->]; [by apply H1|done].
  - intros j k Hj Hk. rewrite !Epid. apply Hl in Hj as [Hj| ->]; apply Hl in Hk as [Hk| ->]; intros He;
      [by apply H2|by apply Hn in Hj|by apply Hn in Hk|done].
  - intros j Hj. rewrite Epa. apply Hl in Hj as [Hj| ->].
    + destruct (H3 j Hj) as [?|(q & ? & ?)]; [by left|right]. exists q. split; [done|]. apply Hl. by left.
    + right. exists me. split; [done|]. by apply Hac.
  - destruct H4 as (Hq & Hq1 & Hq2). split; [done|]. split; [apply Hl; by left|]. by rewrite Est by by apply Hne.
  - intros j k Hj Hk. rewrite Epa. apply Hl in Hj as [Hj| ->]; [|by rewrite Enp]. rewrite Est by by apply Hne.
    apply Hl in Hk as [Hk| ->]; [by apply H5|]. intros Hz. rewrite Hpar. intros [= ->]. by destruct Ha.
  - intros j Hj _ Hju. rewrite Epa. destruct (decide (j = np)) as [->|Hnj]; [by rewrite Enp in Hju|].
    apply H6; [done|congruence|by rewrite Est in Hju].
  - by apply Hac.
  - intros j Hj Hja. by apply Hac, Ho.
Qed.

Lemma quiet_fork_files me np fd left : quiet (fork_files me np fd left).
Proof.
  revert fd. induction left as [|l IH]; intros fd; cbn [fork_files]; [apply quiet_ret|].
  apply quiet_bind; [apply quiet_proc_of|]. intros p. apply quiet_bind; [|intros _; apply IH].
  apply quiet_if; [|apply quiet_ret]. apply quiet_bind; [apply quiet_onf, e_filedup_awake|]. intros f. by apply quiet_upd.
Qed.

(** Skips a step of quiet code, keeping the stable property [P]. *)
Ltac skip P :=
  eapply post_quiet; [first [by apply quiet_upd|apply quiet_acquire_p|apply quiet_release_p
    |apply quiet_onk; solve [auto with awake]|apply quiet_onf; solve [auto with awake]|apply quiet_fork_files]|apply P|eassumption|];
  intros ? ? ?.

Lemma post_fork me fuel s0 s :
  may_alloc me s0 s -> post (fun _ => running None me s0) (fork kend trampoline forkret_pc me fuel s).
Proof.
  intros Hs. unfold fork. apply post_bind. eapply post_mono; [|by apply post_allocproc].
  intros [np|] t Ht; [|by destruct Ht]. unfold proc_of. rewrite !bind_gets.
  skip (stable_allocated me s0 np). destruct (_ <? 0).
  - apply post_bind. eapply post_mono; [|apply post_freeproc]. intros u t2 Hf. cbn beta in *.
    assert (running None me s0 t2) by (match goal with H : allocated _ _ _ _ |- _ => destruct H as [Hr [Hi Hu _ _]] end;
      eapply freed_running; [done|intros [[_ Hl] _]; done|done|done]).
    skip (stable_running None me s0). done.
  - skip (stable_allocated me s0 np). unfold upd_proc at 1. rewrite bind_modify.
    match goal with H : allocated _ _ _ ?t |- _ => is_var t; pose proof (unborn_start me np s0 _ H) end.
    do 3 skip (stable_unborn me np s0).
    eapply post_quiet; [apply quiet_onf, e_idup_awake|apply (stable_unborn me np s0)|eassumption|]; intros ? ? ?.
    do 2 skip (stable_unborn me np s0). rewrite bind_gets. unfold upd_proc at 1. rewrite bind_modify.
    match goal with H : unborn _ _ _ ?t |- post _ (bind _ _ (upd _ _ ?t)) => pose proof (unborn_born me np s0 _ H) end.
    skip (stable_running None me s0). done.
Qed.

(** *** Exit *)

Lemma parent_table s i q : inv_ex None s -> in_table i -> p_parent (procs s i) = Some q -> live s i.
Proof. intros [_ _ _ _ _ _ H6] Hi Hp. split; [done|]. intros Hu. rewrite H6 in Hp; done. Qed.

Lemma running_adopt me s0 i s :
  running None me s0 s -> live s i -> running None me s0 (upd i (set_parent (Some ini)) s).
Proof.
  intros ([H0 H1 H2 H3 H4 H5 H6] & Ha & Ho) Hi. set (s' := upd i (set_parent (Some ini)) s).
  assert (forall j, p_state (procs s' j) = p_state (procs s j)) as Est by (intros j; cbn; by fset_cases).
  assert (forall j, p_pid (procs s' j) = p_pid (procs s j)) as Epid by (intros j; cbn; by fset_cases).
  assert (forall j, live s' j <-> live s j) as Hl by (intros j; unfold live; by rewrite Est).
  assert (forall j, active s' j <-> active s j) as Hac by (intros j; unfold active; by rewrite Hl, Est).
  assert (forall j, p_parent (procs s' j) = p_parent (procs s j) \/ j = i /\ p_parent (procs s' j) = Some ini) as Epa
    by (intros j; cbn; fset_cases; auto).
  split; [split|split].
  - done.
  - intros j Hj%Hl. rewrite Epid. by apply H1.
  - intros j k Hj%Hl Hk%Hl. rewrite !Epid. by apply H2.
  - intros j Hj%Hl. destruct (Epa j) as [->|[-> ->]].
    + destruct (H3 j Hj) as [?|(q & ? & ?)]; [by left|right]. exists q. by rewrite Hl.
    + right. exists ini. rewrite Hl. by destruct H4 as (_ & ? & _).
  - rewrite Hl, Est. by apply H4.
  - intros j k Hj%Hl Hk%Hl. rewrite Est. destruct (Epa k) as [->|[-> ->]]; [by apply H5|].
    intros Hz [= ->]. by destruct H4 as (_ & _ & ?).
  - intros j Hj Hex. rewrite Est. intros Hu. destruct (Epa j) as [->|[-> ->]]; [by apply H6|]. by destruct Hi.
  - by apply Hac.
  - intros j Hj Hja. by apply Hac, Ho.
Qed.

(** No entry below [k] is a child of [me]. *)
Definition disowned me k s : Prop := forall i, 0 <= i < k -> p_parent (procs s i) <> Some me.

Lemma stable_disowned me k : stable (disowned me k).
Proof. intros s s' [Hc _ _] H i Hi. destruct (core_fields _ _ (Hc i)) as (_ & -> & _). by apply H. Qed.

Lemma running_init me s0 s : running None me s0 s -> initproc s = Some ini /\ in_table ini.
Proof. intros ([_ _ _ _ (H1 & [H2 _] & _) _ _] & _ & _). done. Qed.

Lemma post_reparent me s0 s :
  me <> ini -> running None me s0 s -> post (fun _ s => running None me s0 s /\ disowned me NPROC s) (reparent me s).
Proof.
  intros Hne Hs. unfold reparent, each_proc. apply post_bind.
  eapply post_mono; [|apply (post_for_procs_at (fun k s => running None me s0 s /\ disowned me k s)); [|split; [done|]]].
  - intros r t Ht. exact Ht.
  - intros j t Hj [Ht Hd]. unfold proc_of. rewrite bind_gets. case_bool_decide as Hp.
    + assert (in_table j) as Hjt by (unfold in_table, NPROC in *; lia).
      assert (live t j) as Hl by (eapply parent_table; [apply Ht|done|done]).
      eapply (post_quiet _ _ (fun t => (running None me s0 t /\ disowned me j t) /\ live t j)); [apply quiet_acquire_p| |done|].
      { apply stable_and; [apply stable_and; [apply stable_running|apply stable_disowned]|apply stable_live]. }
      intros _ t1 [[H1 H2] H3]. rewrite bind_gets. destruct (running_init _ _ _ H1) as [Hin _]. rewrite Hin.
      unfold upd_proc. rewrite bind_modify.
      assert (disowned me (j + 1) (upd j (set_parent (Some ini)) t1)) as Hd1.
      { intros i Hi. cbn. fset_cases; [cbn; congruence|]. apply H2. lia. }
      eapply (post_quiet _ _ (fun t => running None me s0 t /\ disowned me (j + 1) t)); [apply quiet_release_p| | |].
      { apply stable_and; [apply stable_running|apply stable_disowned]. }
      { split; [by apply running_adopt|done]. }
      by intros.
    + cbn. split; [done|]. split; [done|]. intros i Hi. destruct (decide (i = j)) as [->|]; [done|]. apply Hd. lia.
  - intros i Hi. lia.
Qed.

(** The last step of [exit]. *)
Lemma guar_zombie me s0 s :
  me <> ini -> running None me s0 s -> disowned me NPROC s -> guar me s0 (upd me (set_state ZOMBIE) s).
Proof.
  intros Hne ([H0 H1 H2 H3 H4 H5 H6] & [[Hm Hmu] Hmz] & Ho) Hd. set (s' := upd me (set_state ZOMBIE) s).
  assert (forall j, p_pid (procs s' j) = p_pid (procs s j)) as Epid by (intros j; cbn; by fset_cases).
  assert (forall j, p_parent (procs s' j) = p_parent (procs s j)) as Epa by (intros j; cbn; by fset_cases).
  assert (forall j, j <> me -> p_state (procs s' j) = p_state (procs s j)) as Est by (intros j Hj; cbn; by fset_cases).
  assert (p_state (procs s' me) = ZOMBIE) as Eme by (cbn; by rewrite fset_eq).
  assert (forall j, live s' j <-> live s j) as Hl.
  { intros j. unfold live. destruct (decide (j = me)) as [->|Hj]; [rewrite Eme|rewrite Est by done]; naive_solver. }
  split; [split|].
  - done.
  - intros j Hj%Hl. rewrite Epid. by apply H1.
  - intros j k Hj%Hl Hk%Hl. rewrite !Epid. by apply H2.
  - intros j Hj%Hl. rewrite Epa. destruct (H3 j Hj) as [?|(q & ? & ?)]; [by left|right]. exists q. by rewrite Hl.
  - rewrite Hl, Est by done. by apply H4.
  - intros j k Hj%Hl Hk%Hl. rewrite Epa. destruct (decide (j = me)) as [->|Hj']; [intros _; by apply Hd, Hk|].
    rewrite Est by done. by apply H5.
  - intros j Hj Hex. rewrite Epa. destruct (decide (j = me)) as [->|Hj']; [by rewrite Eme|]. rewrite Est by done. by apply H6.
  - intros j Hj Hja. destruct (Ho j Hj Hja) as [Hjl Hjz]. split; [by apply Hl|]. by rewrite Est.
Qed.

Lemma rg_exit_files me fd left s0 s :
  running None me s0 s -> proto me (fun s0 _ s => running None me s0 s) s0 (exit_files me fd left s).
Proof.
  revert fd s0 s. induction left as [|l IH]; intros fd s0 s Hs; cbn [exit_files]; [done|].
  unfold proc_of. rewrite bind_gets. apply rg_then; [|intros; by apply IH].
  destruct (negb _); [|done]. apply rg_then; [by apply rg_onf|]. intros _ t0 t Ht. by apply rg_q; [apply quiet_upd|].
Qed.

Lemma stable_guar me s0 : stable (guar me s0).
Proof.
  intros s s' Hs [H1 H2]. split; [by eapply stable_inv|]. intros j Hj Ha. eapply same_core_active; [done|]. by apply H2.
Qed.

(** Zombies do not come back. *)
Lemma rg_zombie_sched me (Q : kst F -> unit -> kst F -> Prop) s0 s :
  guar me s0 s -> proto me Q s0 ((sched me ;;; panic "zombie exit") s).
Proof.
  intros Hs. apply rg_bind. unfold sched, proc_of. rewrite bind_gets. destruct (negb _); [done|]. destruct (st_eqb _ _); [done|].
  eapply rg_quiet; [apply quiet_release_p|apply stable_guar|exact Hs|]. intros _ t Ht.
  apply rg_bind. split; [done|]. intros t' _. cbn [rg obind]. unfold switch_in, proc_of. rewrite bind_gets.
  destruct (st_eqb _ _); [|done]. apply rg_bind, rg_acquire. done.
Qed.

(** Skips a quiet step, keeping [P]. *)
Ltac rskip P :=
  eapply rg_quiet; [first [by apply quiet_upd|apply quiet_acquire_p|apply quiet_release_p]|apply P|eassumption|];
  intros ? ? ?.

Lemma rg_exit_end me op status (Q : kst F -> unit -> kst F -> Prop) s0 s :
  me <> ini -> in_table op -> running None me s0 s ->
  proto me Q s0
    ((acquire_p op ;;; acquire_p me ;;; reparent me ;;; wakeup1 op ;;; upd_proc me (set_xstate status) ;;;
      upd_proc me (set_state ZOMBIE) ;;; release_p op ;;; sched me ;;; panic "zombie exit") s).
Proof.
  intros Hne Hop Hs. do 2 rskip (stable_running None me s0).
  apply rg_bind, rg_post. eapply post_mono; [|by apply post_reparent]. intros u t [Ht Hd]. cbn beta.
  apply rg_bind, rg_post. unfold wakeup1, proc_of. rewrite bind_gets. destruct (negb _); [done|].
  assert (forall t, running None me s0 t /\ disowned me NPROC t -> proto me Q s0
    ((upd_proc me (set_xstate status) ;;; upd_proc me (set_state ZOMBIE) ;;; release_p op ;;; sched me ;;; panic "zombie exit") t)) as Hlast.
  { intros t1 [H1 H2]. unfold upd_proc. rewrite !bind_modify.
    assert (guar me s0 (upd me (set_state ZOMBIE) (upd me (set_xstate status) t1))) as Hg.
    { apply guar_zombie; [done|by apply running_upd|]. eapply stable_disowned; [by apply same_core_upd|done]. }
    rskip (stable_guar me s0). by apply rg_zombie_sched. }
  destruct (_ && _) eqn:E; [|by apply Hlast]. apply andb_prop in E as [_ E]. apply st_eqb_true in E. cbn. apply Hlast.
  split; [apply running_set_state; [done|by eapply live_of|done]|].
  intros i Hi. cbn. fset_cases; [cbn|]; by apply Hd.
Qed.

(** [exit] does not return. *)
Lemma rg_exit me status s0 s : running None me s0 s -> proto me (fun _ _ _ => False) s0 (exit me status s).
Proof.
  intros Hs. unfold exit. rewrite bind_gets. case_bool_decide as Hi; [done|].
  assert (me <> ini) as Hne by (intros ->; by apply Hi, (running_init _ _ _ Hs)). clear Hi.
  apply rg_bind. eapply rg_mono; [|by apply rg_exit_files]. clear s0 s Hs. intros s0 u s Hs. cbn beta in *; clear u.
  apply rg_bind. eapply rg_mono; [|by apply rg_onf]. clear s0 s Hs. intros s0 u s Hs. cbn beta in *; clear u.
  unfold proc_of. rewrite bind_gets.
  apply rg_bind. eapply rg_mono; [|by apply rg_onf]. clear s0 s Hs. intros s0 u s Hs. cbn beta in *; clear u.
  apply rg_bind. eapply rg_mono; [|by apply rg_onf]. clear s0 s Hs. intros s0 u s Hs. cbn beta in *; clear u.
  rskip (stable_running None me s0). rewrite bind_gets.
  match goal with H : running None me s0 ?t |- context [initproc ?t] => destruct (running_init _ _ _ H) as [-> Hit] end.
  rskip (stable_running None me s0).
  apply rg_bind, rg_post. eapply post_mono; [|by apply post_wakeup1]. clear s Hs. intros u s1 Hs1. cbn beta in *.
  do 2 rskip (stable_running None me s0). rewrite bind_gets.
  match goal with H : running None me s0 ?t |- context [p_parent (procs ?t me)] =>
    destruct H as (Hinv & Hact & Hoth); destruct (pi_parent _ _ Hinv me) as [?|(q & -> & Hq)]; [apply Hact|done|] end.
  eapply rg_quiet; [apply quiet_release_p|apply (stable_running None me s0)|done|]. intros _ t Ht.
  apply rg_exit_end; [done|by destruct Hq|done].
Qed.

(** *** Wait *)

Lemma post_wait_scan me addr i hk left fuel s0 s :
  0 <= i -> i + Z.of_nat left <= NPROC -> running None me s0 s ->
  post (fun _ => running None me s0) (wait_scan kend me addr i hk left fuel s).
Proof.
  revert i hk s. induction left as [|l IH]; intros i hk s Hi Hl Hs; cbn [wait_scan]; [done|].
  unfold proc_of. rewrite bind_gets. case_bool_decide as Hp; [|apply IH; [lia|lia|done]].
  skip (stable_running None me s0). rewrite bind_gets. destruct (st_eqb _ _) eqn:E; cycle 1.
  { skip (stable_running None me s0). apply IH; [lia|lia|done]. }
  apply st_eqb_true in E. rewrite bind_gets.
  match goal with H : running None me s0 ?t |- _ => is_var t; rename t into t1; rename H into H1 end.
  eapply (post_quiet _ _ (fun t => running None me s0 t /\ p_state (procs t i) = ZOMBIE)).
  - apply quiet_if; [apply quiet_onk; auto with awake|apply quiet_ret].
  - apply stable_and; [apply stable_running|]. intros t t' [Hc _ _]. by destruct (core_fields _ _ (Hc i)) as (-> & _ & _).
  - done.
  - intros c t2 [H2 Hz]. destruct (c <? 0); [do 2 skip (stable_running None me s0); done|].
    apply post_bind. eapply post_mono; [|apply post_freeproc]. intros u t3 Hf. cbn beta in *.
    assert (running None me s0 t3) by (eapply freed_running; [done|by intros [_ ?]|unfold in_table; lia|done]).
    do 2 skip (stable_running None me s0). done.
Qed.

Lemma rg_wait_loop me addr wakes fuel s0 s :
  running None me s0 s -> proto me (fun s0 _ s => running None me s0 s) s0 (wait_loop kend me addr wakes fuel s).
Proof.
  revert s0 s. induction wakes as [|w IH]; intros s0 s Hs; cbn [wait_loop].
  all: apply rg_then; [apply rg_post, post_wait_scan; [done|by unfold NPROC|done]|].
  all: intros r t0 t Ht; destruct (fst r); [done|]; unfold proc_of; rewrite bind_gets; destruct (_ || _).
  all: try (rskip (stable_running None me t0); done).
  - done.
  - apply rg_then; [by apply rg_sleep_own|]. intros _ t1 t2 Ht2. by apply IH.
Qed.

Lemma rg_wait me addr wakes fuel s0 s :
  running None me s0 s -> proto me (fun s0 _ s => running None me s0 s) s0 (wait kend me addr wakes fuel s).
Proof. intros Hs. unfold wait. rskip (stable_running None me s0). by apply rg_wait_loop. Qed.

(** *** The other calls *)

Lemma quiet_growproc me n fuel : quiet (growproc kend me n fuel).
Proof.
  unfold growproc. apply quiet_bind; [apply quiet_proc_of|]. intros p. cbv zeta. repeat apply quiet_if.
  - apply quiet_bind; [apply quiet_onk; auto with awake|]. intros r. apply quiet_if; [apply quiet_ret|].
    apply quiet_bind; [by apply quiet_upd|intros; apply quiet_ret].
  - apply quiet_bind; [apply quiet_onk; auto with awake|]. intros r.
    apply quiet_bind; [by apply quiet_upd|intros; apply quiet_ret].
  - apply quiet_bind; [by apply quiet_upd|intros; apply quiet_ret].
Qed.

Lemma quiet_kps_scan kpi n i left : quiet (kps_scan kpi n i left).
Proof.
  revert kpi n i. induction left as [|l IH]; intros kpi n i; cbn [kps_scan]; [apply quiet_ret|].
  apply quiet_bind; [apply quiet_acquire_p|intros _]. apply quiet_bind; [apply quiet_proc_of|intros p].
  apply quiet_bind; [apply quiet_release_p|intros _]. by apply quiet_if.
Qed.

Lemma quiet_kps me piaddr stack fuel : quiet (kps me piaddr stack fuel).
Proof.
  unfold kps. apply quiet_bind; [apply quiet_kps_scan|intros r]. apply quiet_bind; [apply quiet_proc_of|intros p].
  apply quiet_bind; [apply quiet_onk; auto with awake|intros; apply quiet_ret].
Qed.

(** The scan of [ksuspend]; the pid is not that of a free entry. *)
Lemma rg_ksuspend me pid f fuel s0 s :
  running None me s0 s -> pids_ok s -> pid <> 0 ->
  proto me (fun s0 _ s => running None me s0 s) s0 (ksuspend me pid f fuel s).
Proof.
  intros Hs [_ Hfree] Hpid. unfold ksuspend. apply rg_then.
  { apply rg_post. set (P := fun t => running None me s0 t /\ forall i, in_table i -> p_state (procs t i) = UNUSED -> p_pid (procs t i) = 0).
    assert (stable P) as HP.
    { apply stable_and; [apply stable_running|]. intros t t' [Hc _ _] Ht i. destruct (core_fields _ _ (Hc i)) as (-> & _ & ->). apply Ht. }
    apply (post_each_proc P); [|by intros t [? _]|done]. intros j t Hj Ht.
    eapply post_quiet; [apply quiet_acquire_p|exact HP|exact Ht|]. intros _ t1 H1. unfold proc_of. rewrite bind_gets.
    destruct (Z.eqb_spec (p_pid (procs t1 j)) pid) as [Hp|Hp].
    - unfold upd_proc. rewrite bind_modify. destruct H1 as [H1 H2].
      assert (running None me s0 (upd j (set_state SUSPENDED) t1)).
      { apply running_set_state; [done| |done]. split; [done|]. intros Hu. specialize (H2 j Hj Hu). congruence. }
      skip (stable_running None me s0). done.
    - eapply post_quiet; [apply quiet_release_p|exact HP|exact H1|]. by intros. }
  intros [i|] t0 t Ht; [|done]. unfold proc_of. rewrite !bind_gets.
  apply rg_then; [by apply rg_q; [apply quiet_upd|]|]. intros ? ? ? ?.
  apply rg_then; [by apply rg_onf|]. intros ? ? ? ?. rewrite bind_gets.
  apply rg_then; [unfold filewrite_ram; rewrite bind_gets; by apply rg_onf|]. intros ? ? ? ?.
  apply rg_then; [unfold filewrite_user; rewrite bind_gets; by apply rg_onf|]. intros ? ? ? ?.
  apply rg_then; [unfold filewrite_user; rewrite bind_gets; by apply rg_onf|]. intros ? ? ? ?.
  apply rg_then; [by apply rg_q; [apply quiet_upd|]|]. intros ? ? ? ?.
  apply rg_then; [by apply rg_post, post_kill|]. by intros.
Qed.

(** *** Resuming *)

(** One step that may sleep. *)
Ltac rthen := apply rg_then; [first
  [ by apply rg_onf
  | by apply rg_q; [apply quiet_onk; auto with awake|]
  | by apply rg_q; [by apply quiet_upd|]
  | done ]|]; intros ? ? ? ?.

Lemma rg_loadseg_loop me pt va ip off sz i fuel s0 s :
  running None me s0 s -> proto me (fun s0 _ s => running None me s0 s) s0 (loadseg_loop pt va ip off sz i fuel s).
Proof.
  revert i s0 s. induction fuel as [|f IH]; intros i s0 s Hs; cbn [loadseg_loop]; destruct (i <? sz); try done.
  rthen. destruct (_ =? 0); [done|]. cbv zeta. apply rg_then.
  - unfold readi_ram. do 2 rthen. done.
  - intros r t0 t Ht. destruct (negb _); [done|]. by apply IH.
Qed.

Lemma rg_loadseg me pt va ip off sz fuel s0 s :
  running None me s0 s -> proto me (fun s0 _ s => running None me s0 s) s0 (loadseg pt va ip off sz fuel s).
Proof. intros Hs. unfold loadseg. destruct (negb _); [done|]. by apply rg_loadseg_loop. Qed.

Lemma rg_kresume me path fuel s0 s :
  running None me s0 s -> proto me (fun s0 _ s => running None me s0 s) s0 (kresume kend trampoline me path fuel s).
Proof.
  intros Hs. unfold kresume, proc_of. rewrite bind_gets. do 2 rthen.
  destruct (_ =? 0); [rthen; done|]. rthen. destruct (_ =? 0); [rthen; done|]. do 2 rthen.
  destruct (negb _); [do 2 rthen; done|]. cbv zeta. rthen. destruct (negb _); [do 2 rthen; done|]. rthen.
  apply rg_then; [by apply rg_loadseg|]. intros ? ? ? ?. apply rg_then; [by apply rg_loadseg|]. intros ? ? ? ?.
  do 3 rthen. rewrite bind_gets. do 5 rthen. done.
Qed.

(** *** Exec *)

Lemma awake_push_strings pt base argv argc sp us fuel : awake (push_strings pt base argv argc sp us fuel).
Proof. revert argc sp us. induction argv as [|a argv IH]; intros argc sp us; cbn [push_strings]; awake. Qed.
Lemma awake_push_args pt base argv sp fuel : awake (push_args pt base argv sp fuel).
Proof.
  unfold push_args. apply awake_bind; [apply awake_push_strings|]. intros [[[argc sp'] us]|]; awake.
Qed.
#[local] Hint Resolve awake_push_args : awake.

Lemma rg_exec_bad me pt sz ip fuel s0 s :
  running None me s0 s -> proto me (fun s0 _ s => running None me s0 s) s0 (exec_bad kend pt sz ip fuel s).
Proof.
  intros Hs. unfold exec_bad. apply rg_then; [destruct (negb _); [by apply rg_q; [apply quiet_onk; auto with awake|]|done]|].
  intros ? ? ? ?. apply rg_then; [destruct (negb _); [rthen; by apply rg_onf|done]|]. by intros.
Qed.

Lemma rg_exec_load me pt ip off sz left fuel s0 s :
  running None me s0 s -> proto me (fun s0 _ s => running None me s0 s) s0 (exec_load kend pt ip off sz left fuel s).
Proof.
  revert off sz s0 s. induction left as [|n IH]; intros off sz s0 s Hs; cbn [exec_load]; [done|].
  rthen. cbv zeta. destruct (negb _); [done|]. destruct (negb _); [by apply IH|]. destruct (_ <? _); [done|]. destruct (_ <? _); [done|].
  rthen. destruct (_ =? 0); [done|]. destruct (negb _); [done|].
  apply rg_then; [by apply rg_loadseg|]. intros ? ? ? ?. destruct (_ <? 0); [done|]. by apply IH.
Qed.

Lemma rg_exec_commit me pt sz sp argc entry oldsz path fuel s0 s :
  running None me s0 s -> proto me (fun s0 _ s => running None me s0 s) s0 (exec_commit kend me pt sz sp argc entry oldsz path fuel s).
Proof. intros Hs. unfold exec_commit, proc_of. rewrite bind_gets. do 2 rthen. rewrite bind_gets. do 5 rthen. done. Qed.

Lemma rg_exec me path argv fuel s0 s :
  running None me s0 s -> proto me (fun s0 _ s => running None me s0 s) s0 (exec kend trampoline me path argv fuel s).
Proof.
  intros Hs. unfold exec, proc_of. rthen. rewrite bind_gets. rthen. destruct (_ =? 0); [rthen; done|]. do 2 rthen.
  destruct (negb _); [by apply rg_exec_bad|]. cbv zeta. destruct (negb _); [by apply rg_exec_bad|].
  rewrite bind_gets. rthen. destruct (_ =? 0); [by apply rg_exec_bad|].
  apply rg_then; [by apply rg_exec_load|]. intros ? ? ? ?. destruct (negb _); [by apply rg_exec_bad|]. do 2 rthen.
  unfold exec_stack. rewrite bind_gets. cbv zeta. rthen. destruct (_ =? 0); [by apply rg_exec_bad|]. rthen.
  apply rg_then; [by apply rg_q; [apply quiet_onk; auto with awake|]|].
  intros [[argc sp]|] ? ? ?; [by apply rg_exec_commit|by apply rg_exec_bad].
Qed.

(** ** Any number of processes *)

Lemma stable_pids_ok : stable pids_ok.
Proof.
  intros s s' [Hc Hn _] [H1 H2]. split; [by rewrite Hn|]. intros i. destruct (core_fields _ _ (Hc i)) as (-> & _ & ->). apply H2.
Qed.

Lemma running_live ex me s0 s : running ex me s0 s -> live s me.
Proof. by intros (_ & [? _] & _). Qed.

(** After a switch the bound on the pids holds again. *)
Lemma rg_yield_ok me s0 s :
  running None me s0 s -> proto me (fun s0 _ s => running None me s0 s /\ pids_ok s) s0 (yield me s).
Proof.
  intros Hs. unfold yield. rskip (stable_running None me s0). unfold upd_proc at 1. rewrite bind_modify.
  match goal with H : running None me s0 ?t |- _ => is_var t; rename H into H1; rename t into t1 end.
  apply rg_bind. unfold sched, proc_of. rewrite bind_gets. destruct (negb _); [done|]. destruct (st_eqb _ _); [done|].
  eapply (rg_quiet _ _ _ (running None me s0)); [apply quiet_release_p|apply stable_running| |].
  { apply running_set_state; [done|by eapply running_live|done]. }
  intros _ t2 H2. apply rg_bind. split; [by apply running_guar|]. intros t3 H3.
  destruct (running_resume _ _ _ _ H2 H3) as [H4 H5]. cbn [rg obind]. unfold switch_in, proc_of. rewrite bind_gets.
  destruct (st_eqb _ _); [|done].
  eapply (rg_quiet _ _ _ (fun t => running None me t3 t /\ pids_ok t)); [apply quiet_acquire_p| |done|].
  { apply stable_and; [apply stable_running|apply stable_pids_ok]. }
  intros _ t4 [H6 H7]. cbn [rg upd_proc modify]. unfold upd_proc, modify. cbn beta.
  apply rg_post, (quiet_post _ (fun t => running None me t3 t /\ pids_ok t)); [apply quiet_release_p| |].
  { apply stable_and; [apply stable_running|apply stable_pids_ok]. }
  split; [apply running_set_state; [done|by eapply running_live|done]|]. destruct H7 as [H8 H9]. split; [done|].
  intros i Hi. cbn. fset_cases; [done|]. by apply H9.
Qed.

(** The calls a process makes of the process layer. *)
Inductive pcall :=
| CFork | CExit (status : Z) | CWait (addr : Z) | CKill (pid : Z) | CYield
| CSleep (chan : Z) (get : F -> bool) (set : bool -> F -> F) | CWakeup (chan : Z)
| CGrow (n : Z) | CPs (piaddr : Z) (stack : list byte) | CSuspend (pid f : Z) | CResume (path : list byte) | CTrace
| CExec (path : list byte) (argv : list (list byte)).

Definition run_call (me : Z) (wakes fuel : nat) (c : pcall) : M (kst F) Z :=
  match c with
  | CFork => fork kend trampoline forkret_pc me fuel
  | CExit st => exit me st ;;; ret 0
  | CWait addr => wait kend me addr wakes fuel
  | CKill pid => kill pid
  | CYield => yield me ;;; ret 0
  | CSleep chan get set => sleep me chan (get_flock get) (set_flock set) ;;; ret 0
  | CWakeup chan => wakeup chan ;;; ret 0
  | CGrow n => growproc kend me n fuel
  | CPs a stack => kps me a stack fuel ;;; ret 0
  | CSuspend pid f => ksuspend me pid f fuel
  | CResume path => kresume kend trampoline me path fuel
  | CTrace => traceon me ;;; ret 0
  | CExec path argv => exec kend trampoline me path argv fuel
  end.

Definition call_ok (c : pcall) : Prop := match c with CSuspend pid _ => pid <> 0 | _ => True end.

(** A process makes its calls one after the other and may be descheduled
    between them. *)
Fixpoint run_calls (me : Z) (wakes fuel : nat) (cs : list pcall) : M (kst F) unit :=
  match cs with
  | [] => ret tt
  | c :: cs' => run_call me wakes fuel c ;;; yield me ;;; run_calls me wakes fuel cs'
  end.

Lemma rg_call me wakes fuel c s0 s :
  running None me s0 s -> pids_ok s -> call_ok c ->
  proto me (fun s0 _ s => running None me s0 s) s0 (run_call me wakes fuel c s).
Proof.
  intros Hs Hb Hok. destruct c; cbn [run_call].
  - apply rg_post, post_fork. split; [done|by destruct Hb].
  - apply rg_bind. eapply rg_mono; [|by apply rg_exit]. done.
  - by apply rg_wait.
  - by apply rg_post, post_kill.
  - apply rg_then; [by apply rg_yield|done].
  - apply rg_then; [by apply rg_sleep|done].
  - apply rg_then; [by apply rg_post, post_wakeup|done].
  - by apply rg_q; [apply quiet_growproc|].
  - apply rg_then; [by apply rg_q; [apply quiet_kps|]|done].
  - by apply rg_ksuspend.
  - by apply rg_kresume.
  - apply rg_then; [by apply rg_q; [apply quiet_upd|]|done].
  - by apply rg_exec.
Qed.

Lemma rg_calls me wakes fuel cs s0 s :
  running None me s0 s -> pids_ok s -> Forall call_ok cs ->
  proto me (fun s0 _ s => guar me s0 s) s0 (run_calls me wakes fuel cs s).
Proof.
  intros Hs Hb Hcs. revert s0 s Hs Hb. induction Hcs as [|c cs Hc _ IH]; intros s0 s Hs Hb; cbn [run_calls];
    [by apply running_guar|].
  apply rg_bind. eapply rg_mono; [|by apply rg_call]. intros t0 r t Ht. cbn beta in *.
  apply rg_bind. eapply rg_mono; [|by apply rg_yield_ok]. intros t1 u t2 [H1 H2]. by apply IH.
Qed.

(** A pool of processes: each with its entry of the table and its calls. *)
Definition spawn (wakes fuel : nat) (ps : list (Z * list pcall)) : list (thread (kst F) unit) :=
  map (fun pc => Waiting (run_calls (fst pc) wakes fuel (snd pc))) ps.

(** The process of thread [i] (outside the table when there is none). *)
Definition who (ps : list (Z * list pcall)) (i : nat) : Z :=
  match ps !! i with Some pc => fst pc | None => - Z.of_nat i - 1 end.

Definition pool_run (p p' : kst F * list (thread (kst F) unit)) : Prop :=
  rtc (fun p p' => pids_ok (fst p) /\ pool_step p p') p p'.

Lemma who_inj s ps i j :
  NoDup (map fst ps) -> Forall (fun pc => active s (fst pc) /\ Forall call_ok (snd pc)) ps -> i <> j -> who ps i <> who ps j.
Proof.
  intros Hnd Hps Hij. unfold who. rewrite Forall_lookup in Hps.
  assert (forall k pc, ps !! k = Some pc -> 0 <= fst pc) as Hpos by (intros k pc Hk; destruct (Hps k pc Hk) as [[[[? _] _] _] _]; done).
  destruct (ps !! i) as [p|] eqn:Ei, (ps !! j) as [q|] eqn:Ej.
  - intros He. apply Hij. eapply (NoDup_lookup (map fst ps)); [done|by rewrite list_lookup_fmap, Ei|].
    rewrite list_lookup_fmap, Ej. cbn. by rewrite He.
  - specialize (Hpos i p Ei). lia.
  - specialize (Hpos j q Ej). lia.
  - lia.
Qed.

(** Whatever calls any number of processes make, in every interleaving of
    the pieces of code between their sleeps, the process table keeps its
    invariant: live processes have distinct positive pids below [nextpid], a
    live parent (unless it is the first process), zombies have no children,
    the first process never exits, and a free entry has no parent.  The runs
    considered are those in which the 32-bit pids do not run out, no free
    entry carries a pid, and nobody suspends pid 0. *)
Theorem interleaving_keeps_table wakes fuel (ps : list (Z * list pcall)) s p' :
  ptable_inv s -> NoDup (map fst ps) ->
  Forall (fun pc => active s (fst pc) /\ Forall call_ok (snd pc)) ps ->
  pool_run (s, spawn wakes fuel ps) p' -> ptable_inv (fst p').
Proof.
  intros Hinv Hnd Hps Hrun.
  refine (proj1 (pool_rg_reachable ptable_inv pids_ok (fun i => rely (who ps i)) (fun i => guar (who ps i)) _ _ _ _ _ _ _ Hrun)).
  - by intros i t H.
  - unfold rely. naive_solver.
  - intros i j t t' Hij Ht [H1 H2] [_ Ha]. split; [done|]. apply H2; [|done]. by eapply who_inj.
  - by intros i t t' _ [? _].
  - split; [done|]. intros i t Hi. cbn [fst snd] in *. unfold spawn in Hi. rewrite list_lookup_fmap in Hi.
    destruct (ps !! i) as [pc|] eqn:Ei; [|done]. cbn in Hi. simplify_eq. unfold who. rewrite Ei.
    destruct (proj1 (Forall_lookup _ _) Hps i pc Ei) as [Hact Hok]. intros t' [HR HB].
    destruct (HR (conj Hinv Hact)) as [H1 H2]. apply rg_calls; [|done|done]. split; [done|]. split; [done|apply others_refl].
Qed.

End Inv.
