(* ===== verification/ProcSpec.v ===== *)
(** * Processes on a concrete table

    A table with the first process and one child, on a file layer without
    files: the invariant holds of it, so the theorems of ProcInv.v apply, and
    what [kill], [suspend] and [ps] do with entries they should not touch. *)

From S2P Require Import Prelude Rely CMem Riscv Kalloc Vm Proc ProcInv.

(** A file layer that has no files. *)
#[local] Instance no_files : FileEnv unit.
Proof.
  refine {| e_filedup := fun f => ret f; e_fileclose := fun _ => ret tt; e_filewrite := fun _ _ _ n => ret n;
            e_idup := fun i => ret i; e_iput := fun _ => ret tt; e_ilock := fun _ => ret tt; e_iunlockput := fun _ => ret tt;
            e_readi := fun _ _ _ => ret (0, []); e_begin_op := ret tt; e_end_op := ret tt; e_namei := fun _ _ => ret 1 |};
  intros; apply awake_ret.
Defined.

Definition no_name : list byte := replicate 16 Byte.x00.
Definition free_proc : proc :=
  mk_proc false UNUSED None 0 false 0 0 0 0 0 0 (0, 0) (replicate 16 0) 0 no_name false.
Definition init_proc : proc := set_pid 1 (set_state RUNNING free_proc).
Definition child_proc (st : procstate) : proc := set_parent (Some 0) (set_pid 2 (set_state st free_proc)).

(** Two processes, with their trapframes, and what is around the table. *)
Definition two_kst {F} (tf0 tf1 : Z) (st : procstate) (k : kmem) (f : F) : kst F :=
  mk_kst (fset (fset (fun _ => free_proc) 0 (set_tf tf0 init_proc)) 1 (set_tf tf1 (child_proc st))) 3 false (Some 0) k f.
Definition two_procs (st : procstate) : kst unit := two_kst 0 0 st (mk_kmem false 0 (fun _ => Byte.x00)) tt.

Definition state_of (o : outcome (kst unit) Z) (i : Z) : option procstate :=
  match o with Done _ s => Some (p_state (procs s i)) | _ => None end.

Section TwoProcs.

Context {F : Type} (tf0 tf1 : Z) (st : procstate) (k : kmem) (f : F).

Notation two := (two_kst tf0 tf1 st k f).

Lemma two_kst_entry i : procs two i = if decide (i = 1) then set_tf tf1 (child_proc st) else if decide (i = 0) then set_tf tf0 init_proc else free_proc.
Proof. done. Qed.

Lemma two_kst_live i : st <> UNUSED -> live two i <-> i = 0 \/ i = 1.
Proof.
  intros Hst. unfold live. rewrite two_kst_entry. unfold in_table, NPROC. repeat case_decide; subst; cbn.
  - split; [by right|]. intros _. split; [lia|done].
  - split; [by left|]. intros _. split; [lia|done].
  - naive_solver.
Qed.

Lemma two_kst_inv : st <> UNUSED -> ptable_inv 0 two.
Proof.
  intros Hst. pose proof (fun i => two_kst_live i Hst) as Hl. split.
  - done.
  - intros i [-> | ->]%Hl; by vm_compute.
  - intros i j [-> | ->]%Hl [-> | ->]%Hl; done.
  - intros i [-> | ->]%Hl; [by left|right]. exists 0. split; [done|]. apply Hl. by left.
  - split; [done|]. split; [apply Hl; by left|done].
  - intros i j [-> | ->]%Hl [-> | ->]%Hl; done.
  - intros i Hi _. rewrite two_kst_entry. repeat case_decide; done.
Qed.

Lemma two_kst_pids_ok : st <> UNUSED -> pids_ok two.
Proof. intros Hst. split; [by vm_compute|]. intros i Hi. rewrite two_kst_entry. repeat case_decide; done. Qed.

End TwoProcs.

(** The two processes: the child exits while the parent waits for it. *)
Definition family : list (Z * list (pcall (F := unit))) := [(0, [CWait 0]); (1, [CKill 1; CExit 7])].

(** One step of thread [i]. *)
Definition exec_step {S A} (i : nat) (p : S * list (thread S A)) : S * list (thread S A) :=
  match snd p !! i with
  | Some (Waiting k) => (snd (settle (k (fst p)) (fst p)), <[i := fst (settle (k (fst p)) (fst p))]> (snd p))
  | _ => p
  end.

Definition family_start : kst unit * list (thread (kst unit) unit) := (two_procs RUNNING, spawn (FE := no_files) 0 0 0 1 5 family).

Lemma family_pids_ok : pids_ok (fst family_start).
Proof. by apply two_kst_pids_ok. Qed.

(** The child runs until it is descheduled after [kill]. *)
Lemma interleaving_keeps_table_witness :
  state_of (match fst (exec_step 1 family_start) with s => Done 0 s end) 1 = Some RUNNABLE /\
  ptable_inv 0 (fst (exec_step 1 family_start)).
Proof.
  split; [by vm_compute|].
  apply (interleaving_keeps_table 0 0 0 0 1 5 family (two_procs RUNNING)).
  - by apply two_kst_inv.
  - apply (bool_decide_unpack _). by vm_compute.
  - repeat constructor; cbn; try done; by vm_compute.
  - apply rtc_once. split; [apply family_pids_ok|]. by apply (pool_resume (two_procs RUNNING) _ 1%nat).
Defined.

(** ** Entries [kill] and [suspend] should not find *)

(** [kill(0)] matches a free entry (pid 0), marks it killed and reports
    success; [allocproc] does not clear the mark. *)
Lemma kill_zero_marks_free_entry :
  match kill 0 (two_procs RUNNING) with
  | Done r s => r = 0 /\ p_state (procs s 2) = UNUSED /\ p_killed (procs s 2) = true
  | _ => False
  end.
Proof. by vm_compute. Qed.

(** [suspend(0)] turns a free entry, without memory, into a runnable one. *)
Lemma suspend_zero_runs_free_entry :
  match ksuspend (FE := no_files) 0 0 5 9 (two_procs RUNNING) with
  | Done r s => r = 0 /\ p_state (procs s 2) = RUNNABLE /\ p_pagetable (procs s 2) = 0
  | _ => False
  end.
Proof. by vm_compute. Qed.

(** Suspending a zombie makes it runnable again: its parent no longer finds
    it, and when it is scheduled [exit] panics. *)
Lemma suspend_revives_zombie :
  match ksuspend (FE := no_files) 0 2 5 9 (two_procs ZOMBIE) with
  | Done r s => r = 0 /\ p_state (procs s 1) = RUNNABLE
  | _ => False
  end.
Proof. by vm_compute. Qed.

(** [ps] hands out what the kernel stack held before: the bytes of a name
    field after the terminating NUL, and the unused entries. *)
Lemma ps_leaks_stack :
  match kps_scan (F := unit) (replicate (Z.to_nat PINFO_SIZE) Byte.xaa) 0 0 (Z.to_nat NPROC) (two_procs RUNNING) with
  | Done (kpi, count) _ => count = 2 /\ take 3 (drop 12 kpi) = [Byte.x00; Byte.x00; Byte.xaa] /\ nth 100 kpi Byte.x00 = Byte.xaa
  | _ => False
  end.
Proof. by vm_compute. Qed.
