(* ===== verification/File.v ===== *)
(** * Files: kernel/file.c and [pipealloc] of kernel/pipe.c

    The system's file table over the layers it dispatches to: pipes (Pipe.v),
    inodes (Fs.v, with the log of Log.v) and devices.  File and inode pointers
    are indices plus one, 0 is the null pointer; a pipe is named by the address
    of its page.  User memory is given, as in Fs.v, by what a copy fetches or
    stores before a fault. *)

From S2P Require Import Prelude Rely CMem Riscv Kalloc Vm VmAwake Sleeplock BlockLayer Log Pipe Tx Fs Proc.

Inductive fdtype := FD_NONE | FD_PIPE | FD_INODE | FD_DEVICE.

#[export] Instance fdtype_eq : EqDecision fdtype.
Proof. solve_decision. Defined.

Record file := mk_file {
  fl_type : fdtype;
  fl_ref : Z;
  fl_readable : bool;
  fl_writable : bool;
  fl_pipe : Z;
  fl_ip : Z;
  fl_off : Z;
  fl_major : Z;
}.

Definition with_fref (r : Z) (f : file) : file := mk_file (fl_type f) r (fl_readable f) (fl_writable f) (fl_pipe f) (fl_ip f) (fl_off f) (fl_major f).
Definition with_ftype (t : fdtype) (f : file) : file := mk_file t (fl_ref f) (fl_readable f) (fl_writable f) (fl_pipe f) (fl_ip f) (fl_off f) (fl_major f).
Definition with_foff (o : Z) (f : file) : file := mk_file (fl_type f) (fl_ref f) (fl_readable f) (fl_writable f) (fl_pipe f) (fl_ip f) o (fl_major f).
Definition with_pipe (r w : bool) (p : Z) (f : file) : file := mk_file FD_PIPE (fl_ref f) r w p (fl_ip f) (fl_off f) (fl_major f).

(** [struct stat]; [pad] is what lies in its padding. *)
Definition stat_bytes (st : Z * Z * Z * Z * Z) (pad : list byte) : list byte :=
  let '(dev, ino, type, nlink, size) := st in
  le_split 4 dev ++ le_split 4 ino ++ le_split 2 type ++ le_split 2 nlink ++ take 4 pad ++ le_split 8 size.

(** What a user buffer stores of a list of bytes, and fetches. *)
Definition udst : Type := Z -> list byte -> nat.
Definition usrc : Type := Z -> nat -> list byte.
Definition byte_dst (d : udst) (a : Z) : bool := (0 <? d a [Byte.x00])%nat.
Definition byte_src (u : usrc) (a : Z) : option byte := head (u a 1%nat).

(** [struct devsw]; a device's routines over the state of the devices. *)
Record devsw (D : Type) := mk_devsw {
  d_read : option (Z -> udst -> Z -> Z -> M D (Z * list byte));
  d_write : option (Z -> usrc -> Z -> Z -> M D Z);
}.
Arguments d_read {D}. Arguments d_write {D}. Arguments mk_devsw {D}.

(** ** The file table alone *)

Record ftable := mk_ftable { ft_lock : bool; ft_file : Z -> file }.

Definition set_ft_lock (b : bool) (t : ftable) : ftable := mk_ftable b (ft_file t).
Definition set_file (i : Z) (g : file -> file) (t : ftable) : ftable := mk_ftable (ft_lock t) (fset (ft_file t) i (g (ft_file t i))).
Definition ft_acquire : M ftable unit := acquire_lk ft_lock set_ft_lock.
Definition ft_release : M ftable unit := release_lk ft_lock set_ft_lock.

Definition fileinit : M ftable unit := modify (set_ft_lock false).

Fixpoint filealloc_loop (i : Z) (left : nat) : M ftable Z :=
  match left with
  | O => ft_release ;;; ret 0
  | S left' =>
      f <- gets (fun t => ft_file t i) ;;
      if fl_ref f =? 0 then modify (set_file i (with_fref 1)) ;;; ft_release ;;; ret (i + 1)
      else filealloc_loop (i + 1) left'
  end.
Definition filealloc : M ftable Z := ft_acquire ;;; filealloc_loop 0 (Z.to_nat NFILE).

Definition filedup (f : Z) : M ftable Z :=
  ft_acquire ;;;
  e <- gets (fun t => ft_file t (f - 1)) ;;
  if fl_ref e <? 1 then panic "filedup" else
  modify (set_file (f - 1) (with_fref (s32 (fl_ref e + 1)))) ;;;
  ft_release ;;;
  ret f.

(** The part of [fileclose] that holds the lock: the copy [ff] of the entry
    when this was the last reference. *)
Definition fileclose_ref (f : Z) : M ftable (option file) :=
  ft_acquire ;;;
  e <- gets (fun t => ft_file t (f - 1)) ;;
  if fl_ref e <? 1 then panic "fileclose" else
  let r := s32 (fl_ref e - 1) in
  modify (set_file (f - 1) (with_fref r)) ;;;
  if r >? 0 then ft_release ;;; ret None else
  ff <- gets (fun t => ft_file t (f - 1)) ;;
  modify (set_file (f - 1) (with_fref 0)) ;;;
  modify (set_file (f - 1) (with_ftype FD_NONE)) ;;;
  ft_release ;;;
  ret (Some ff).

(** ** The layers together *)

Section File.

Context {S : Type} `{BL : BlockLayer S} {D : Type}.

Record fl := mk_fl {
  f_table : ftable;
  f_sys : fsys (@lstate S);
  f_pipes : Z -> pipe;
  f_killed : Z -> bool;
  f_freed : Z -> bool;
  f_dev : D;
}.

Definition set_table t (s : fl) : fl := mk_fl t (f_sys s) (f_pipes s) (f_killed s) (f_freed s) (f_dev s).
Definition set_sys x (s : fl) : fl := mk_fl (f_table s) x (f_pipes s) (f_killed s) (f_freed s) (f_dev s).
Definition set_dev d (s : fl) : fl := mk_fl (f_table s) (f_sys s) (f_pipes s) (f_killed s) (f_freed s) d.

(** A pipe in its page. *)
Definition get_pst (a : Z) (s : fl) : pst := mk_pst (f_pipes s a) (f_killed s) (f_freed s a).
Definition set_pst (a : Z) (x : pst) (s : fl) : fl :=
  mk_fl (f_table s) (f_sys s) (fset (f_pipes s) a (pi x)) (Pipe.p_killed x) (fset (f_freed s) a (p_freed x)) (f_dev s).

Notation MX := (M (kmem * fl)).

Definition over {A} (m : M fl A) : MX A := lift snd (fun t x => (fst x, t)) m.
Definition mem_op {A} (m : M kmem A) : MX A := lift fst (fun k x => (k, snd x)) m.
Definition on_table {A} (m : M ftable A) : MX A := over (lift f_table set_table m).
Definition on_fs {A} (m : M (fsys (@lstate S)) A) : MX A := over (lift f_sys set_sys m).
Definition on_log {A} (m : M (@lstate S) A) : MX A := on_fs (lift fx set_fx m).
Definition on_pipe {A} (a : Z) (m : M pst A) : MX A := over (lift (get_pst a) (set_pst a) m).
Definition on_dev {A} (m : M D A) : MX A := over (lift f_dev set_dev m).
Definition file_at (f : Z) : MX file := gets (fun x => ft_file (f_table (snd x)) (f - 1)).
Definition upd_file (f : Z) (g : file -> file) : MX unit := on_table (modify (set_file (f - 1) g)).

(** The process, the kernel's end, the device switch, and the bound on the
    wake-ups. *)
Context (pid kend : Z) (devs : Z -> devsw D) (wakes : nat).

(** [pipeclose] with the [kfree] of the page. *)
Definition pipeclose_page (a : Z) (writable : bool) : MX unit :=
  on_pipe a (pipeclose writable) ;;;
  fr <- gets (fun x => f_freed (snd x) a) ;;
  if (fr : bool) then mem_op (kfree kend a) else ret tt.

Definition fileclose (f : Z) : MX unit :=
  last <- on_table (fileclose_ref f) ;;
  match last with
  | None => ret tt
  | Some ff =>
      match fl_type ff with
      | FD_PIPE => pipeclose_page (fl_pipe ff) (fl_writable ff)
      | FD_INODE | FD_DEVICE =>
          on_log (begin_op wakes) ;;;
          on_fs (iput pid (fl_ip ff - 1) wakes) ;;;
          on_log end_op
      | FD_NONE => ret tt
      end
  end.

(** The result and what was stored in user memory; [pad] lies in the kernel's
    stack where the padding of the structure is. *)
Definition filestat (f addr : Z) (dst : udst) (pad : list byte) : MX (Z * list byte) :=
  e <- file_at f ;;
  match fl_type e with
  | FD_INODE | FD_DEVICE =>
      on_fs (ilock pid (Some (fl_ip e - 1)) wakes) ;;;
      st <- on_fs (stati (fl_ip e - 1)) ;;
      on_fs (iunlock pid (Some (fl_ip e - 1))) ;;;
      let l := stat_bytes st pad in
      if (dst addr l <? length l)%nat then ret (-1, take (dst addr l) l) else ret (0, l)
  | _ => ret (-1, [])
  end.

Definition fileread (f addr : Z) (dst : udst) (n : Z) : MX (Z * list byte) :=
  e <- file_at f ;;
  if negb (fl_readable e) then ret (-1, []) else
  match fl_type e with
  | FD_PIPE => on_pipe (fl_pipe e) (piperead pid (byte_dst dst) addr n wakes)
  | FD_DEVICE =>
      if (fl_major e <? 0) || (fl_major e >=? NDEV) then ret (-1, []) else
      match d_read (devs (fl_major e)) with
      | None => ret (-1, [])
      | Some rd => on_dev (rd (fl_major e) dst addr n)
      end
  | FD_INODE =>
      on_fs (ilock pid (Some (fl_ip e - 1)) wakes) ;;;
      e1 <- file_at f ;;
      r <- on_fs (readi (fl_ip e - 1) dst addr (fl_off e1) (u32 n)) ;;
      (if fst r >? 0 then upd_file f (fun e => with_foff (u32 (fl_off e + fst r)) e) else ret tt) ;;;
      on_fs (iunlock pid (Some (fl_ip e - 1))) ;;;
      ret r
  | FD_NONE => panic "fileread"
  end.

(** [((MAXOPBLOCKS-1-1-2) / 2) * BSIZE] *)
Definition max_write : Z := ((MAXOPBLOCKS - 1 - 1 - 2) / 2) * BSIZE.

(** The loop over the transactions of an inode write; returns [i]. *)
Fixpoint filewrite_loop (f ip addr : Z) (src : usrc) (n i : Z) (fuel : nat) : MX Z :=
  if i <? n then
    match fuel with
    | O => exhausted
    | Datatypes.S fuel' =>
        let n1 := if n - i >? max_write then max_write else n - i in
        on_log (begin_op wakes) ;;;
        on_fs (ilock pid (Some (ip - 1)) wakes) ;;;
        e <- file_at f ;;
        r <- on_fs (writei (ip - 1) src (u64 (addr + i)) (fl_off e) n1) ;;
        (if r >? 0 then upd_file f (fun e => with_foff (u32 (fl_off e + r)) e) else ret tt) ;;;
        on_fs (iunlock pid (Some (ip - 1))) ;;;
        on_log end_op ;;;
        if r <? 0 then ret i else
        if negb (r =? n1) then panic "short filewrite" else
        filewrite_loop f ip addr src n (i + r) fuel'
    end
  else ret i.

Definition filewrite (f addr : Z) (src : usrc) (n : Z) : MX Z :=
  e <- file_at f ;;
  if negb (fl_writable e) then ret (-1) else
  match fl_type e with
  | FD_PIPE => on_pipe (fl_pipe e) (pipewrite pid (byte_src src) addr n wakes)
  | FD_DEVICE =>
      if (fl_major e <? 0) || (fl_major e >=? NDEV) then ret (-1) else
      match d_write (devs (fl_major e)) with
      | None => ret (-1)
      | Some wr => on_dev (wr (fl_major e) src addr n)
      end
  | FD_INODE =>
      i <- filewrite_loop f (fl_ip e) addr src n 0 (Z.to_nat (n / max_write + 1)) ;;
      ret (if i =? n then n else -1)
  | FD_NONE => panic "filewrite"
  end.

(** Starting the pipe in its new page: the data is what the page holds. *)
Definition pipe_start (a : Z) : MX unit :=
  over (modify (fun s => set_pst a (mk_pst (pipe_init (p_data (f_pipes s a))) (f_killed s) false) s)).

Definition pipealloc : MX (Z * Z * Z) :=
  let bad (f0 f1 pa : Z) : MX (Z * Z * Z) :=
    (if negb (pa =? 0) then mem_op (kfree kend pa) else ret tt) ;;;
    (if negb (f0 =? 0) then fileclose f0 else ret tt) ;;;
    (if negb (f1 =? 0) then fileclose f1 else ret tt) ;;;
    ret (-1, f0, f1) in
  f0 <- on_table filealloc ;;
  if f0 =? 0 then bad 0 0 0 else
  f1 <- on_table filealloc ;;
  if f1 =? 0 then bad f0 0 0 else
  pa <- mem_op kalloc ;;
  if pa =? 0 then bad f0 f1 0 else
  pipe_start pa ;;;
  upd_file f0 (with_pipe true false pa) ;;;
  upd_file f1 (with_pipe false true pa) ;;;
  ret (0, f0, f1).

End File.
