(* ===== verification/FileInv.v ===== *)
(** * The file table's reference counts

    [filealloc], [filedup] and [fileclose] keep, for every entry, exactly the
    number of references that are held; the file layer of File.v is an
    implementation of the interface that Proc.v relies on. *)

From S2P Require Import Prelude Rely CMem Riscv Kalloc Vm VmAwake Sleeplock BlockLayer Log Pipe Tx Fs Proc File.

(** ** Clients of the table

    [c f] is the number of references to [f] that are held; a client only
    duplicates and closes references that it holds. *)

Definition counts : Type := Z -> Z.

Definition file_ptr (f : Z) : Prop := 1 <= f <= NFILE.

Inductive ft_step : ftable * counts -> ftable * counts -> Prop :=
| ft_alloc t c f t' : filealloc t = Done f t' -> f <> 0 -> ft_step (t, c) (t', fset c f 1)
| ft_alloc_none t c t' : filealloc t = Done 0 t' -> ft_step (t, c) (t', c)
| ft_dup t c f f' t' : 0 < c f < 2 ^ 31 - 1 -> filedup f t = Done f' t' -> ft_step (t, c) (t', fset c f (c f + 1))
| ft_close t c f r t' : 0 < c f -> fileclose_ref f t = Done r t' -> ft_step (t, c) (t', fset c f (c f - 1)).

Record ft_inv (x : ftable * counts) : Prop := {
  fi_lock : ft_lock x.1 = false;
  fi_ref f : file_ptr f -> fl_ref (ft_file x.1 (f - 1)) = x.2 f;
  fi_range f : 0 <= x.2 f < 2 ^ 31;
  fi_held f : 0 < x.2 f -> file_ptr f;
}.

(** The first free entry from [i] on. *)
Fixpoint first_free (t : ftable) (i : Z) (left : nat) : option Z :=
  match left with
  | O => None
  | S l => if fl_ref (ft_file t i) =? 0 then Some i else first_free t (i + 1) l
  end.

Definition taken (i : Z) (t : ftable) : ftable := set_file i (with_fref 1) t.

Lemma filealloc_loop_spec left : forall i t, ft_lock t = true ->
  filealloc_loop i left t =
    match first_free t i left with
    | Some j => Done (j + 1) (set_ft_lock false (taken j t))
    | None => Done 0 (set_ft_lock false t)
    end.
Proof.
  induction left as [|l IH]; intros i t Hl; cbn [filealloc_loop first_free].
  - unfold ft_release. by rewrite (bind_Done _ _ _ _ _ (release_lk_held _ _ t Hl)).
  - rewrite bind_gets. destruct (_ =? 0); [|by apply IH]. rewrite bind_modify. unfold ft_release.
    by rewrite (bind_Done _ _ _ _ _ (release_lk_held _ _ (taken i t) Hl)).
Qed.

Lemma first_free_Some t left : forall i j, first_free t i left = Some j ->
  i <= j < i + Z.of_nat left /\ fl_ref (ft_file t j) = 0 /\ forall k, i <= k < j -> fl_ref (ft_file t k) <> 0.
Proof.
  induction left as [|l IH]; intros i j; cbn [first_free]; [done|]. destruct (Z.eqb_spec (fl_ref (ft_file t i)) 0) as [E|E].
  - intros [= <-]. split; [lia|]. split; [done|]. lia.
  - intros (H1 & H2 & H3)%IH. split; [lia|]. split; [done|]. intros k Hk. destruct (decide (k = i)) as [->|]; [done|]. apply H3. lia.
Qed.

Lemma first_free_None t left : forall i, first_free t i left = None -> forall k, i <= k < i + Z.of_nat left -> fl_ref (ft_file t k) <> 0.
Proof.
  induction left as [|l IH]; intros i; cbn [first_free]; [lia|]. destruct (Z.eqb_spec (fl_ref (ft_file t i)) 0) as [E|E]; [done|].
  intros H k Hk. destruct (decide (k = i)) as [->|]; [done|]. apply (IH (i + 1) H). lia.
Qed.

Lemma filealloc_spec t : ft_lock t = false ->
  filealloc t = match first_free t 0 (Z.to_nat NFILE) with
                | Some j => Done (j + 1) (set_ft_lock false (taken j t))
                | None => Done 0 (set_ft_lock false t)
                end.
Proof.
  intros Hl. unfold filealloc, ft_acquire. rewrite (bind_Done _ _ _ _ _ (acquire_lk_free _ _ t Hl)).
  rewrite filealloc_loop_spec by done.
  assert (forall l i, first_free (set_ft_lock true t) i l = first_free t i l) as E by (induction l as [|l IH]; intros i; cbn; [done|by rewrite IH]).
  rewrite E. by destruct (first_free t 0 _).
Qed.

Lemma filedup_spec f t : ft_lock t = false -> 1 <= fl_ref (ft_file t (f - 1)) < 2 ^ 31 - 1 ->
  filedup f t = Done f (set_ft_lock false (set_file (f - 1) (with_fref (fl_ref (ft_file t (f - 1)) + 1)) t)).
Proof.
  intros Hl Hr. unfold filedup, ft_acquire. rewrite (bind_Done _ _ _ _ _ (acquire_lk_free _ _ t Hl)), bind_gets.
  cbn [set_ft_lock ft_file]. rewrite (proj2 (Z.ltb_ge _ _)) by lia. rewrite bind_modify, s32_small by lia. done.
Qed.

(** Closing: the entry is emptied exactly when this was the last reference. *)
Lemma fileclose_ref_spec f t : ft_lock t = false -> 1 <= fl_ref (ft_file t (f - 1)) < 2 ^ 31 ->
  exists t', fileclose_ref f t =
    Done (if fl_ref (ft_file t (f - 1)) =? 1 then Some (with_fref 0 (ft_file t (f - 1))) else None) t' /\
    ft_lock t' = false /\ fl_ref (ft_file t' (f - 1)) = fl_ref (ft_file t (f - 1)) - 1 /\
    (forall k, k <> f - 1 -> ft_file t' k = ft_file t k) /\
    (fl_ref (ft_file t (f - 1)) = 1 -> fl_type (ft_file t' (f - 1)) = FD_NONE).
Proof.
  intros Hl Hr. unfold fileclose_ref, ft_acquire. rewrite (bind_Done _ _ _ _ _ (acquire_lk_free _ _ t Hl)), bind_gets.
  cbn [set_ft_lock ft_file]. rewrite (proj2 (Z.ltb_ge _ _)) by lia. rewrite bind_modify, s32_small by lia.
  destruct (Z.eqb_spec (fl_ref (ft_file t (f - 1))) 1) as [E|E].
  - rewrite E. change (1 - 1 >? 0) with false. cbv iota. rewrite bind_gets, !bind_modify. cbn -[fset]. rewrite !fset_eq.
    eexists. split; [reflexivity|]. cbn -[fset]. rewrite !fset_eq. cbn -[fset].
    split; [done|]. split; [done|]. split; [|done]. intros k Hk. by rewrite !fset_ne.
  - rewrite (proj2 (Z.gtb_gt _ 0)) by lia. cbn -[fset]. eexists. split; [reflexivity|]. cbn -[fset]. rewrite fset_eq. cbn -[fset].
    split; [done|]. split; [done|]. split; [|done]. intros k Hk. by rewrite fset_ne.
Qed.

Lemma ft_inv_step x y : ft_inv x -> ft_step x y -> ft_inv y.
Proof.
  intros [H1 H2 H3 H4] Hs. destruct Hs as [t c f t' Ha Hf|t c t' Ha|t c f f' t' Hc Hd|t c f r t' Hc Hd]; cbn [fst snd] in *.
  - rewrite filealloc_spec in Ha by done. destruct (first_free t 0 _) as [j|] eqn:E; [|simplify_eq].
    apply first_free_Some in E as (Hj & Hj0 & _). rewrite Z2Nat.id in Hj by done. simplify_eq.
    assert (file_ptr (j + 1)) as Hp by (unfold file_ptr; lia).
    split; cbn [fst snd].
    + done.
    + intros g Hg. cbn -[fset]. destruct (decide (g = j + 1)) as [->|Hne].
      * replace (j + 1 - 1) with j by lia. by rewrite !fset_eq.
      * rewrite !fset_ne by lia. by apply H2.
    + intros g. destruct (decide (g = j + 1)) as [->|Hne]; [rewrite fset_eq; lia|]. rewrite fset_ne by done. apply H3.
    + intros g. destruct (decide (g = j + 1)) as [->|Hne]; [done|]. rewrite fset_ne by done. apply H4.
  - rewrite filealloc_spec in Ha by done. destruct (first_free t 0 _) as [j|] eqn:E.
    + apply first_free_Some in E as (Hj & _). injection Ha as Ha _. lia.
    + by injection Ha as <-.
  - pose proof (H4 f ltac:(lia)) as Hp. pose proof (H2 f Hp) as Hr. rewrite filedup_spec in Hd by (done || lia). simplify_eq.
    split; cbn [fst snd].
    + done.
    + intros g Hg. cbn -[fset]. destruct (decide (g = f')) as [->|Hne].
      * rewrite !fset_eq. cbn. lia.
      * rewrite !fset_ne by lia. by apply H2.
    + intros g. destruct (decide (g = f')) as [->|Hne]; [rewrite fset_eq; lia|]. rewrite fset_ne by done. apply H3.
    + intros g. destruct (decide (g = f')) as [->|Hne]; [done|]. rewrite fset_ne by done. apply H4.
  - pose proof (H4 f ltac:(lia)) as Hp. pose proof (H2 f Hp) as Hr. pose proof (H3 f) as Hrange.
    destruct (fileclose_ref_spec f t) as (t1 & E1 & E2 & E3 & E4 & _); [done|lia|]. rewrite E1 in Hd. simplify_eq.
    split; cbn [fst snd].
    + done.
    + intros g Hg. destruct (decide (g = f)) as [->|Hne].
      * rewrite fset_eq, E3. lia.
      * rewrite fset_ne by done. rewrite E4 by lia. by apply H2.
    + intros g. destruct (decide (g = f)) as [->|Hne]; [rewrite fset_eq; lia|]. rewrite fset_ne by done. apply H3.
    + intros g. destruct (decide (g = f)) as [->|Hne]; [by rewrite fset_eq|]. rewrite fset_ne by done. apply H4.
Qed.

Lemma ft_inv_reach x y : ft_inv x -> rtc ft_step x y -> ft_inv y.
Proof. intros Hx Hs. induction Hs as [|x y z H _ IH]; [done|]. apply IH. by eapply ft_inv_step. Qed.

(** An empty table. *)
Definition no_file : file := mk_file FD_NONE 0 false false 0 0 0 0.
Definition empty_table : ftable := mk_ftable false (fun _ => no_file).

Lemma ft_inv_empty : ft_inv (empty_table, fun _ => 0).
Proof. split; cbn; try done. Qed.

(** [C15] References to files are counted exactly: after any sequence of
    allocations, duplications and closings by clients that only use references
    they hold, an allocation hands out an entry to which nobody holds a
    reference, and fails only when every entry is in use; duplicating or
    closing a held reference never panics; and the close that releases the
    underlying pipe or inode is exactly the one of the last reference. *)
Theorem file_references_exact (t : ftable) (c : counts)
    (Hreach : rtc ft_step (empty_table, fun _ => 0) (t, c)) :
  (exists f t', filealloc t = Done f t' /\
     if f =? 0 then forall g, file_ptr g -> 0 < c g else file_ptr f /\ c f = 0 /\ forall g, 1 <= g < f -> 0 < c g) /\
  (forall f, 0 < c f < 2 ^ 31 - 1 -> exists t', filedup f t = Done f t') /\
  (forall f, 0 < c f -> exists r t', fileclose_ref f t = Done r t' /\ (c f = 1 <-> is_Some r)).
Proof.
  destruct (ft_inv_reach _ _ ft_inv_empty Hreach) as [H1 H2 H3 H4]. cbn [fst snd] in *. split; [|split].
  - rewrite filealloc_spec by done. destruct (first_free t 0 _) as [j|] eqn:E.
    + apply first_free_Some in E as (Hj & Hj0 & Hjk). rewrite Z2Nat.id in Hj by done. do 2 eexists. split; [reflexivity|].
      rewrite (proj2 (Z.eqb_neq _ 0)) by lia. assert (file_ptr (j + 1)) as Hp by (unfold file_ptr; lia). split; [done|].
      split; [rewrite <- H2 by done; by replace (j + 1 - 1) with j by lia|].
      intros g Hg. assert (c g <> 0); [|pose proof (H3 g); lia].
      rewrite <- H2 by (unfold file_ptr in *; lia). apply Hjk. lia.
    + do 2 eexists. split; [reflexivity|]. cbn [Z.eqb]. intros g Hg. assert (c g <> 0); [|pose proof (H3 g); lia].
      rewrite <- H2 by done. eapply first_free_None; [exact E|]. rewrite Z2Nat.id by done. unfold file_ptr in Hg. lia.
  - intros f Hf. pose proof (H2 f (H4 f ltac:(lia))) as Hr. rewrite filedup_spec by (done || lia). by eexists.
  - intros f Hf. pose proof (H2 f (H4 f ltac:(lia))) as Hr. pose proof (H3 f).
    destruct (fileclose_ref_spec f t) as (t1 & E1 & _); [done|lia|]. do 2 eexists. split; [exact E1|]. rewrite Hr.
    destruct (Z.eqb_spec (c f) 1); split; intros H0; try done; try lia; by destruct H0.
Qed.

(** One file open twice. *)
Definition opened : ftable := set_ft_lock false (taken 0 empty_table).
Definition shared : ftable := set_ft_lock false (set_file 0 (with_fref 2) opened).

Definition one_ref : counts := fset (fun _ => 0) 1 1.
Definition two_refs : counts := fset one_ref 1 (one_ref 1 + 1).

Lemma file_references_exact_witness :
  exists r t', fileclose_ref 1 shared = Done r t' /\ (two_refs 1 = 1 <-> is_Some r).
Proof.
  apply (file_references_exact shared two_refs); [|by vm_compute].
  eapply rtc_l; [apply (ft_alloc empty_table _ 1 opened); [by vm_compute|done]|].
  eapply rtc_l; [|apply rtc_refl]. apply (ft_dup opened one_ref 1 1 shared); [by vm_compute|by vm_compute].
Defined.

(** ** The interface of Proc.v *)

Section Env.

Context {S : Type} `{BL : BlockLayer S} {D : Type}.
Context (pid kend : Z) (devs : Z -> devsw D) (wakes : nat).

Lemma awake_lift {T U A} (get : T -> U) set (m : M U A) : awake m -> awake (lift get set m).
Proof. intros Hm s. unfold lift. specialize (Hm (get s)). by destruct (m (get s)). Qed.

Lemma awake_filedup f : awake (filedup f).
Proof. unfold filedup, ft_acquire, ft_release. awake. Qed.

Lemma awake_idup {X} ip : awake (idup (X := X) ip).
Proof.
  unfold idup, icache_acquire, icache_release, inode_of, upd_inode. awake.
Qed.

(** The file layer implements what processes use of it. *)
#[export] Instance file_env : FileEnv (fl (S := S) (D := D)).
Proof.
  refine {|
    e_filedup := fun f => on_table (filedup f);
    e_fileclose := fileclose pid kend wakes;
    e_filewrite := fun f src a n => filewrite pid devs wakes f a src n;
    e_idup := fun ip => r <- on_fs (idup (ip - 1)) ;; ret (r + 1);
    e_iput := fun ip => on_fs (iput pid (ip - 1) wakes);
    e_ilock := fun ip => on_fs (ilock pid (Some (ip - 1)) wakes);
    e_iunlockput := fun ip => on_fs (iunlockput pid (ip - 1) wakes);
    e_readi := fun ip off n => on_fs (readi (ip - 1) kernel_dst 0 off n);
    e_begin_op := on_log (begin_op wakes);
    e_end_op := on_log end_op;
    e_namei := fun cwd path => r <- on_fs (namei pid (cwd - 1) path wakes) ;; ret (match r with Some ip => ip + 1 | None => 0 end) |}.
  - intros f. apply awake_lift, awake_lift, awake_filedup.
  - intros ip. apply awake_bind; [|intros; apply awake_ret]. apply awake_lift, awake_lift, awake_idup.
Defined.

End Env.
