(* ===== verification/SleepWake.v ===== *)
(** * Sleep and wakeup, one lock operation at a time

    Proc.v runs the code between two sleeps in one go.  Here [sleep],
    [wakeup], [sched] and the scheduler's loop of kernel/proc.c are interleaved
    statement by statement, on as many harts as there are agents: a process
    that waits for a condition under a lock [lk], a process that makes the
    condition true and wakes it, and the scheduler of the waiting process's
    hart.  A spin lock blocks its [acquire] until it is free. *)

From S2P Require Import Prelude Proc.

(** Program counters: each names the next statement. *)
Inductive sleeper_pc :=
| S_acquire_lk      (* acquire(lk) *)
| S_test            (* while (!condition) *)
| S_acquire_p       (* sleep: acquire(&p->lock) *)
| S_release_lk      (* release(lk) *)
| S_chan            (* p->chan = chan *)
| S_state           (* p->state = SLEEPING *)
| S_sched           (* sched(): swtch to the scheduler *)
| S_off             (* not on a hart *)
| S_tidy            (* p->chan = 0 *)
| S_release_p       (* release(&p->lock) *)
| S_exit            (* release(lk), out of the loop *)
| S_done.

Inductive waker_pc :=
| W_acquire_lk | W_cond | W_acquire_p | W_wake | W_release_p | W_release_lk | W_done.

Inductive sched_pc :=
| C_switched        (* in swtch, the process runs *)
| C_release         (* release(&p->lock) *)
| C_acquire         (* acquire(&p->lock) *)
| C_test.           (* if (p->state == RUNNABLE) *)

Inductive agent := Sleeper | Waker | Scheduler.

#[export] Instance sleeper_pc_eq : EqDecision sleeper_pc. Proof. solve_decision. Defined.
#[export] Instance waker_pc_eq : EqDecision waker_pc. Proof. solve_decision. Defined.
#[export] Instance sched_pc_eq : EqDecision sched_pc. Proof. solve_decision. Defined.
#[export] Instance agent_eq : EqDecision agent. Proof. solve_decision. Defined.

Record sw := mk_sw {
  sw_lk : option agent;      (* holder of lk *)
  sw_pl : option agent;      (* holder of p->lock *)
  sw_state : procstate;
  sw_chan : bool;            (* p->chan is the channel *)
  sw_cond : bool;
  sw_s : sleeper_pc;
  sw_w : waker_pc;
  sw_c : sched_pc;
}.

#[export] Instance sw_eq : EqDecision sw. Proof. solve_decision. Defined.

(** The process is about to look at the condition. *)
Definition sw_init : sw := mk_sw None None RUNNING false false S_acquire_lk W_acquire_lk C_switched.

Definition is_free (l : option agent) : bool := match l with None => true | Some _ => false end.

(** [sleep] and the loop around it. *)
Definition sleeper_step (x : sw) : option sw :=
  let '(mk_sw lk pl st ch cd s w c) := x in
  match s with
  | S_acquire_lk => if is_free lk then Some (mk_sw (Some Sleeper) pl st ch cd S_test w c) else None
  | S_test => Some (mk_sw lk pl st ch cd (if cd then S_exit else S_acquire_p) w c)
  | S_acquire_p => if is_free pl then Some (mk_sw lk (Some Sleeper) st ch cd S_release_lk w c) else None
  | S_release_lk => Some (mk_sw None pl st ch cd S_chan w c)
  | S_chan => Some (mk_sw lk pl st true cd S_state w c)
  | S_state => Some (mk_sw lk pl SLEEPING ch cd S_sched w c)
  | S_sched => Some (mk_sw lk (Some Scheduler) st ch cd S_off w C_release)
  | S_off => None
  | S_tidy => Some (mk_sw lk pl st false cd S_release_p w c)
  | S_release_p => Some (mk_sw lk None st ch cd S_acquire_lk w c)
  | S_exit => Some (mk_sw None pl st ch cd S_done w c)
  | S_done => None
  end.

(** Making the condition true and [wakeup]'s visit of the process. *)
Definition waker_step (x : sw) : option sw :=
  let '(mk_sw lk pl st ch cd s w c) := x in
  match w with
  | W_acquire_lk => if is_free lk then Some (mk_sw (Some Waker) pl st ch cd s W_cond c) else None
  | W_cond => Some (mk_sw lk pl st ch true s W_acquire_p c)
  | W_acquire_p => if is_free pl then Some (mk_sw lk (Some Waker) st ch cd s W_wake c) else None
  | W_wake => Some (mk_sw lk pl (if st_eqb st SLEEPING && ch then RUNNABLE else st) ch cd s W_release_p c)
  | W_release_p => Some (mk_sw lk None st ch cd s W_release_lk c)
  | W_release_lk => Some (mk_sw None pl st ch cd s W_done c)
  | W_done => None
  end.

(** The scheduler's visits of the process. *)
Definition scheduler_step (x : sw) : option sw :=
  let '(mk_sw lk pl st ch cd s w c) := x in
  match c with
  | C_switched => None
  | C_release => Some (mk_sw lk None st ch cd s w C_acquire)
  | C_acquire => if is_free pl then Some (mk_sw lk (Some Scheduler) st ch cd s w C_test) else None
  | C_test => if st_eqb st RUNNABLE then Some (mk_sw lk (Some Sleeper) RUNNING ch cd S_tidy w C_switched)
              else Some (mk_sw lk pl st ch cd s w C_release)
  end.

Inductive sw_step (x y : sw) : Prop :=
| by_sleeper : sleeper_step x = Some y -> sw_step x y
| by_waker : waker_step x = Some y -> sw_step x y
| by_scheduler : scheduler_step x = Some y -> sw_step x y.

(** ** The reachable states *)

Definition succs (x : sw) : list sw :=
  omap id [sleeper_step x; waker_step x; scheduler_step x].

Lemma succs_step x y : sw_step x y <-> y ∈ succs x.
Proof.
  unfold succs. rewrite list_elem_of_omap. split.
  - intros [H|H|H]; eexists; (split; [|exact H]); set_solver.
  - intros (o & Ho & Hy). cbn in Hy. subst o. rewrite !elem_of_cons in Ho. destruct Ho as [H|[H|[H|H]]]; [by apply by_sleeper|by apply by_waker|by apply by_scheduler|by apply elem_of_nil in H].
Qed.

(** Breadth-first search. *)
Fixpoint explore (fuel : nat) (seen new : list sw) : list sw :=
  match fuel with
  | O => seen
  | S f =>
      let next := filter (fun y => y ∉ seen) (remove_dups (new ≫= succs)) in
      match next with [] => seen | _ => explore f (next ++ seen) next end
  end.

Definition sw_states : list sw := Eval vm_compute in explore 60 [sw_init] [sw_init].

Lemma sw_states_closed : Forall (fun x => Forall (fun y => y ∈ sw_states) (succs x)) sw_states.
Proof. apply (bool_decide_unpack _). by vm_compute. Qed.

Lemma sw_reachable x : rtc sw_step sw_init x -> x ∈ sw_states.
Proof.
  assert (forall a, rtc sw_step a x -> a ∈ sw_states -> x ∈ sw_states) as H.
  { intros a Hr. induction Hr as [|a b c Hs _ IH]; [done|]. intros Ha. apply IH.
    pose proof (proj1 (Forall_forall _ _) sw_states_closed a Ha) as Hc. apply (proj1 (Forall_forall _ _) Hc). by apply succs_step. }
  intros Hr. apply (H sw_init Hr). apply (bool_decide_unpack _). by vm_compute.
Qed.

(** ** No wake-up is lost *)

(** Every maximal run from [x] reaches [P]: there is always a next step until
    [P] holds, and whichever step is taken [P] is still inevitable. *)
Inductive inevitable (P : sw -> Prop) (x : sw) : Prop :=
| now : P x -> inevitable P x
| later : (exists y, sw_step x y) -> (forall y, sw_step x y -> inevitable P y) -> inevitable P x.

Fixpoint inevitable_in (n : nat) (p : sw -> bool) (x : sw) : bool :=
  p x || match n with
         | O => false
         | S n' => negb (bool_decide (succs x = [])) && forallb (inevitable_in n' p) (succs x)
         end.

Lemma inevitable_in_sound n p x : inevitable_in n p x = true -> inevitable (fun x => p x = true) x.
Proof.
  revert x. induction n as [|n IH]; intros x; cbn [inevitable_in]; rewrite orb_true_iff; intros [H|H]; try by apply now.
  apply andb_prop in H as [Hne Hall]. apply later.
  - destruct (succs x) as [|y l] eqn:E; [by rewrite bool_decide_true in Hne|].
    exists y. apply succs_step. rewrite E. set_solver.
  - intros y Hy%succs_step. apply IH. rewrite forallb_forall in Hall. apply Hall. by apply list_elem_of_In.
Qed.

Definition sleeper_done (x : sw) : bool := bool_decide (sw_s x = S_done).
Definition waker_done (x : sw) : bool := bool_decide (sw_w x = W_done).

(** [C5] No wake-up is lost: in every interleaving, statement by statement, of
    a process sleeping on a condition, the process that makes it true and
    calls [wakeup], and the scheduler, once the waker is done the sleeper is
    not left [SLEEPING], and every continuation of the run brings it out of
    its loop; before that, some agent can always take a step (no deadlock). *)
Theorem no_lost_wakeup x :
  rtc sw_step sw_init x ->
  (waker_done x = true -> ~ (sw_s x = S_off /\ sw_state x = SLEEPING) /\ inevitable (fun y => sleeper_done y = true) x) /\
  (waker_done x = false -> exists y, sw_step x y).
Proof.
  intros Hx%sw_reachable.
  assert (Forall (fun x => (waker_done x = true -> ~ (sw_s x = S_off /\ sw_state x = SLEEPING) /\ inevitable_in 20 sleeper_done x = true)
                           /\ (waker_done x = false -> succs x <> [])) sw_states) as Hall
    by (apply (bool_decide_unpack _); by vm_compute).
  destruct (proj1 (Forall_forall _ _) Hall x Hx) as [H1 H2]. split.
  - intros Hw. destruct (H1 Hw) as [Ha Hb]. split; [done|by eapply inevitable_in_sound].
  - intros Hw. specialize (H2 Hw). destruct (succs x) as [|y l] eqn:E; [done|]. exists y. apply succs_step. rewrite E. set_solver.
Qed.

(** The waker runs while the process is asleep. *)
Definition sw_slept : sw := mk_sw None None RUNNABLE true true S_off W_done C_acquire.

Lemma no_lost_wakeup_witness : inevitable (fun y => sleeper_done y = true) sw_slept.
Proof.
  refine (proj2 (proj1 (no_lost_wakeup sw_slept _) eq_refl)).
  do 7 (eapply rtc_l; [apply by_sleeper; reflexivity|]). eapply rtc_l; [apply by_scheduler; reflexivity|].
  do 6 (eapply rtc_l; [apply by_waker; reflexivity|]). apply rtc_refl.
Defined.
