(* ===== verification/Syscall.v ===== *)
(** * System calls: kernel/syscall.c and kernel/sysproc.c

    The kernel state around the process table: the clock, the console that
    [printf] writes to, the registers of the hart that runs the code, and the
    file layer.  A world with a file layer is itself a file layer, so the
    process code of Proc.v runs in it unchanged.

    [argint] and [argaddr] always return 0 in C; here they return the argument,
    and the callers' tests of the status are left out.  A system call returns
    the C value; [syscall] converts it to 64 bits. *)

From S2P Require Import Prelude Rely CMem Riscv Kalloc Vm Printf Proc Exec.

(** ** The kernel around the process table *)

(** The supervisor registers trap.c uses, of the hart that runs the code. *)
Record hart := mk_hart {
  sstatus : Z; sie : Z; scause : Z; sepc : Z; stval : Z; stvec : Z; sip : Z; satp : Z; tp : Z;
}.

Record world (F : Type) := mk_world {
  ticks : Z;
  tickslock : bool;
  w_pr : prst;
  w_hart : hart;
  w_files : F;
}.
Arguments mk_world {F}. Arguments ticks {F}. Arguments tickslock {F}. Arguments w_pr {F}. Arguments w_hart {F}. Arguments w_files {F}.

Definition set_ticks {F} n (w : world F) : world F := mk_world n (tickslock w) (w_pr w) (w_hart w) (w_files w).
Definition set_tickslock {F} b (w : world F) : world F := mk_world (ticks w) b (w_pr w) (w_hart w) (w_files w).
Definition set_pr {F} x (w : world F) : world F := mk_world (ticks w) (tickslock w) x (w_hart w) (w_files w).
Definition set_hart {F} h (w : world F) : world F := mk_world (ticks w) (tickslock w) (w_pr w) h (w_files w).
Definition set_wfiles {F} f (w : world F) : world F := mk_world (ticks w) (tickslock w) (w_pr w) (w_hart w) f.

(** Code of the file layer, in a world. *)
Definition on_files {F A} (m : M (kmem * F) A) : M (kmem * world F) A :=
  lift (fun x => (fst x, w_files (snd x))) (fun y x => (fst y, set_wfiles (snd y) (snd x))) m.

Lemma awake_on_files {F A} (m : M (kmem * F) A) : awake m -> awake (on_files m).
Proof. intros Hm s. unfold on_files, lift. specialize (Hm (fst s, w_files (snd s))). by destruct (m _). Qed.

#[export] Instance world_env {F} `{FE : FileEnv F} : FileEnv (world F).
Proof.
  refine {|
    e_filedup := fun f => on_files (e_filedup f);
    e_fileclose := fun f => on_files (e_fileclose f);
    e_filewrite := fun f src a n => on_files (e_filewrite f src a n);
    e_idup := fun i => on_files (e_idup i);
    e_iput := fun i => on_files (e_iput i);
    e_ilock := fun i => on_files (e_ilock i);
    e_iunlockput := fun i => on_files (e_iunlockput i);
    e_readi := fun i off n => on_files (e_readi i off n);
    e_begin_op := on_files e_begin_op;
    e_end_op := on_files e_end_op;
    e_namei := fun cwd path => on_files (e_namei cwd path) |}.
  - intros f. apply awake_on_files, e_filedup_awake.
  - intros i. apply awake_on_files, e_idup_awake.
Defined.

(** [trapframe]: the argument registers. *)
Definition tf_a7 : Z := 168.
Definition tf_arg (n : Z) : Z := tf_a0 + 8 * n.

Section Syscall.

Context {F : Type} `{FE : FileEnv F}.
Context (kend trampoline forkret_pc : Z).

Notation MW := (M (kst (world F))).

Definition kprintf (fmt : string) (args : list parg) : MW unit :=
  onf (lift (fun x => w_pr (snd x)) (fun y x => (fst x, set_pr y (snd x)))
         (printf (parg_str args) (Some (codes fmt)) (parg_word args))).

(** The process, and the bounds for loops. *)
Context (me : Z) (wakes fuel : nat).

Definition fetchaddr (addr : Z) : MW (Z * Z) :=
  p <- proc_of me ;;
  if (addr >=? p_sz p) || (u64 (addr + 8) >? p_sz p) then ret (-1, 0) else
  r <- onk (copyin (p_pagetable p) addr 8 fuel) ;;
  if negb (fst r =? 0) then ret (-1, 0) else ret (0, le_combine (snd r)).

(** The result, and what is in the buffer. *)
Definition fetchstr (addr max : Z) : MW (Z * list byte) :=
  p <- proc_of me ;;
  r <- onk (copyinstr (p_pagetable p) addr (u64 max) fuel) ;;
  if fst r <? 0 then ret r else ret (Z.of_nat (length (upto_nul (snd r))), snd r).

Definition argraw (n : Z) : MW Z :=
  if (0 <=? n) && (n <=? 5) then
    p <- proc_of me ;;
    gets (fun s => load64 (ram (km s)) (p_tf p + tf_arg n))
  else panic "argraw".

Definition argint (n : Z) : MW Z := v <- argraw n ;; ret (s32 v).
Definition argaddr (n : Z) : MW Z := argraw n.
Definition argstr (n max : Z) : MW (Z * list byte) := addr <- argaddr n ;; fetchstr addr max.

(** [if (myproc()->tracing) printf(...)], with the pid as first argument *)
Definition trace (fmt : string) (args : list parg) : MW unit :=
  p <- proc_of me ;;
  if p_tracing p then kprintf fmt (PInt (p_pid p) :: args) else ret tt.

(** A newline, in front of most of the messages. *)
Definition nl : string := String (Ascii.ascii_of_nat 10) "".

(** ** kernel/sysproc.c *)

Definition sys_exit : MW Z :=
  n <- argint 0 ;;
  trace (nl +:+ "[%d]sys_exit(%d)") [PInt n] ;;;
  exit me n ;;;
  ret 0.

Definition sys_getpid : MW Z :=
  trace (nl +:+ "[%d]sys_getpid()") [] ;;;
  p <- proc_of me ;;
  ret (p_pid p).

Definition sys_fork : MW Z :=
  trace (nl +:+ "[%d]sys_fork()") [] ;;;
  fork kend trampoline forkret_pc me fuel.

Definition sys_wait : MW Z :=
  p <- argaddr 0 ;;
  trace (nl +:+ "[%d]sys_wait(%d)") [PInt p] ;;;
  wait kend me p wakes fuel.

Definition sys_sbrk : MW Z :=
  n <- argint 0 ;;
  trace (nl +:+ "[%d]sys_sbrk(%d)") [PInt n] ;;;
  p <- proc_of me ;;
  let addr := s32 (p_sz p) in
  r <- growproc kend me n fuel ;;
  if r <? 0 then ret (-1) else ret addr.

Definition tickslock_get (s : kst (world F)) : bool := tickslock (files s).
Definition tickslock_set (b : bool) (s : kst (world F)) : kst (world F) := set_files (set_tickslock b (files s)) s.
Definition ticks_acquire : MW unit := acquire_lk tickslock_get tickslock_set.
Definition ticks_release : MW unit := release_lk tickslock_get tickslock_set.
Definition the_ticks : MW Z := gets (fun s => ticks (files s)).

(** [&ticks] as a sleep channel. *)
Definition ticks_chan : Z := 4096.

(** [while (ticks - ticks0 < n)]: an unsigned comparison.  [wakes] bounds the
    wake-ups. *)
Fixpoint sleep_loop (ticks0 n : Z) (wakes : nat) : MW Z :=
  now <- the_ticks ;;
  if u32 (now - ticks0) <? u32 n then
    p <- proc_of me ;;
    if p_killed p then ticks_release ;;; ret (-1) else
    match wakes with
    | O => exhausted
    | S w => sleep me ticks_chan tickslock_get tickslock_set ;;; sleep_loop ticks0 n w
    end
  else ticks_release ;;; ret 0.

Definition sys_sleep : MW Z :=
  n <- argint 0 ;;
  trace (nl +:+ "[%d]sys_sleep(%d)") [PInt n] ;;;
  ticks_acquire ;;;
  ticks0 <- the_ticks ;;
  sleep_loop ticks0 n wakes.

Definition sys_kill : MW Z :=
  pid <- argint 0 ;;
  trace (nl +:+ "[%d]sys_kill(%d)") [PInt pid] ;;;
  kill pid.

Definition sys_uptime : MW Z :=
  trace (nl +:+ "[%d]sys_uptime()") [] ;;;
  ticks_acquire ;;;
  xticks <- the_ticks ;;
  ticks_release ;;;
  ret xticks.

Definition sys_traceon : MW Z := traceon me ;;; ret 0.

(** [stack] is what the kernel stack holds where [kps] puts its table. *)
Definition sys_ps (stack : list byte) : MW Z :=
  trace "[%d]ps" [] ;;;
  piaddr <- argaddr 0 ;;
  kps me piaddr stack fuel ;;;
  ret 0.

Definition sys_resume : MW Z :=
  r <- argstr 0 16 ;;
  if fst r <? 0 then ret (-1) else
  trace (nl +:+ "[%d]sys_resumeproc(%s)") [PStr (snd r)] ;;;
  kresume kend trampoline me (upto_nul (snd r)) fuel.

End Syscall.

(** ** Sleeping for a number of ticks *)

Section SleepTicks.

Context {F : Type} (me : Z).

Implicit Types s : kst (world F).

(** A process that runs, and one that is resumed: no locks held, and the clock
    has advanced, by less than half its range, since the process went to
    sleep. *)
Definition idle_locks s : Prop := p_lock (procs s me) = false /\ tickslock (files s) = false.
Definition resumed (s s' : kst (world F)) : Prop :=
  idle_locks s' /\ p_state (procs s' me) = RUNNABLE /\
  exists d, 1 <= d <= 2 ^ 31 /\ ticks (files s') = u32 (ticks (files s) + d).

Lemma sleep_ticks_spec s (Q : unit -> kst (world F) -> Prop) :
  p_lock (procs s me) = false -> tickslock (files s) = true ->
  (forall s1 s2, ticks (files s1) = ticks (files s) -> resumed s1 s2 ->
     forall s3, ticks (files s3) = ticks (files s2) -> p_lock (procs s3 me) = false -> tickslock (files s3) = true -> Q tt s3) ->
  ends resumed Q (sleep me ticks_chan tickslock_get tickslock_set s).
Proof.
  intros Hl Ht HQ. unfold sleep, acquire_p, release_p, upd_proc.
  erewrite (bind_Done (acquire_lk _ _)); [|apply acquire_lk_free; exact Hl].
  erewrite (bind_Done (release_lk _ _)); [|apply release_lk_held; exact Ht].
  rewrite !bind_modify. apply ends_bind. unfold sched, proc_of. rewrite bind_gets. cbn -[fset]. rewrite !fset_eq. cbn -[fset].
  change (st_eqb SLEEPING RUNNING) with false. cbv iota. unfold switch_out, release_p. erewrite bind_Done; [|apply release_lk_held; cbn -[fset]; by rewrite !fset_eq].
  apply ends_bind. cbn -[fset]. intros s2 ([H1 H2] & H3 & H4).
  unfold switch_in, proc_of, acquire_p, release_p, upd_proc. rewrite H3. cbn [st_eqb].
  change (st_eqb RUNNABLE RUNNABLE) with true. cbv iota.
  erewrite (bind_Done (acquire_lk _ _)); [|apply acquire_lk_free; exact H1]. cbn -[fset].
  erewrite bind_Done; [|apply release_lk_held; cbn -[fset]; by rewrite !fset_eq].
  erewrite acquire_lk_free; [|exact H2]. cbn [ends].
  eapply (HQ _ s2); [| |done| |]; [|by split; [|split; [|exact H4]]| |]; cbn -[fset]; by rewrite ?fset_eq.
Qed.

(** Time since [ticks0], as the loop computes it. *)
Definition elapsed (ticks0 : Z) s : Z := u32 (ticks (files s) - ticks0).

Lemma elapsed_step ticks0 s s' d : elapsed ticks0 s < 2 ^ 31 -> 1 <= d <= 2 ^ 31 -> ticks (files s') = u32 (ticks (files s) + d) ->
  elapsed ticks0 s' = elapsed ticks0 s + d.
Proof.
  unfold elapsed. intros He Hd ->. pose proof (u32_range (ticks (files s) - ticks0)).
  unfold u32 in *. rewrite Zminus_mod_idemp_l.
  replace (ticks (files s) + d - ticks0) with (ticks (files s) - ticks0 + d) by lia.
  rewrite <- Zplus_mod_idemp_l. apply Z.mod_small. lia.
Qed.

Lemma sleep_loop_ends ticks0 n wakes s :
  0 <= n < 2 ^ 31 -> (Z.to_nat (n - elapsed ticks0 s) <= wakes)%nat ->
  p_lock (procs s me) = false -> tickslock (files s) = true ->
  ends resumed (fun r s' => tickslock (files s') = false /\
      (r = 0 /\ n <= elapsed ticks0 s' \/ r = -1 /\ elapsed ticks0 s' < n /\ p_killed (procs s' me) = true))
    (sleep_loop me ticks0 n wakes s).
Proof.
  intros Hn. revert s. induction wakes as [|w IH]; intros s Hw Hl Ht; cbn [sleep_loop]; unfold the_ticks, proc_of, ticks_release;
    rewrite bind_gets; fold (elapsed ticks0 s); rewrite (u32_small n) by lia; destruct (Z.ltb_spec (elapsed ticks0 s) n) as [Hlt|Hge].
  all: rewrite ?bind_gets; try (destruct (p_killed (procs s me)) eqn:Hk).
  all: try (erewrite (bind_Done (release_lk _ _)); [|apply release_lk_held; exact Ht]; cbn; split; [done|auto]; fail).
  - lia.
  - apply ends_bind, sleep_ticks_spec; [done|done|]. intros s1 s2 E1 (_ & _ & d & Hd & E2) s3 E3 Hl3 Ht3.
    assert (elapsed ticks0 s3 = elapsed ticks0 s + d) as E.
    { apply elapsed_step; [lia|done|]. by rewrite E3, E2, E1. }
    apply IH; [lia|done|done].
Qed.

End SleepTicks.

(** [C35] sleep(n) waits for n clock ticks: when each wake-up finds the clock
    advanced (across the wrap-around of the 32-bit counter), [sys_sleep] for
    n >= 0 returns after at most n wake-ups.  It returns 0 only when at least
    n ticks have passed since the call, and -1 only when the process has been
    killed before that; it releases the clock's lock and never panics. *)
Theorem sys_sleep_waits {F} (me : Z) (wakes : nat) (s : kst (world F)) (n : Z) :
  n = s32 (load64 (ram (km s)) (p_tf (procs s me) + tf_arg 0)) -> 0 <= n <= Z.of_nat wakes ->
  idle_locks me s -> p_tracing (procs s me) = false ->
  ends (resumed me) (fun r s' => tickslock (files s') = false /\
      (r = 0 /\ n <= u32 (ticks (files s') - ticks (files s)) \/
       r = -1 /\ u32 (ticks (files s') - ticks (files s)) < n /\ p_killed (procs s' me) = true))
    (sys_sleep me wakes s).
Proof.
  intros -> Hn [Hl Ht] Htr. unfold sys_sleep, argint, argraw, trace. cbn [Z.leb Z.compare andb].
  rewrite (bind_Done _ _ s _ s (eq_refl : (v <- (p <- proc_of me ;; gets (fun s => load64 (ram (km s)) (p_tf p + tf_arg 0))) ;; ret (s32 v)) s = Done _ s)).
  erewrite (bind_Done (p <- proc_of me ;; _)); [|unfold proc_of; rewrite bind_gets, Htr; reflexivity].
  unfold ticks_acquire, the_ticks. erewrite (bind_Done (acquire_lk _ _)); [|apply acquire_lk_free; exact Ht]. rewrite bind_gets.
  pose proof (s32_range (load64 (ram (km s)) (p_tf (procs s me) + tf_arg 0))).
  apply (sleep_loop_ends me); [lia| |exact Hl|done].
  pose proof (u32_range (ticks (files s) - ticks (files s))). unfold elapsed. cbn. lia.
Qed.
