(* ===== verification/Sysfile.v ===== *)
(** * The file system calls: kernel/sysfile.c

    The parts between [begin_op] and [end_op] are computations of the file
    system (Fs.v); the calls themselves run in the kernel state of Syscall.v
    over the file layer of File.v.  A read delivers its bytes to user memory
    when it returns. *)

From S2P Require Import Prelude Rely CMem Riscv Kalloc Vm Sleeplock BlockLayer Log Pipe Tx Fs Printf Proc Exec File FileInv Syscall.

(** kernel/fcntl.h *)
Definition O_RDONLY : Z := 0x000.
Definition O_WRONLY : Z := 0x001.
Definition O_RDWR : Z := 0x002.
Definition O_CREATE : Z := 0x200.

Definition has (mode flag : Z) : bool := negb (Z.land mode flag =? 0).

Definition dot : list byte := [Byte.x2e].
Definition dotdot : list byte := [Byte.x2e; Byte.x2e].

(** ** Inside a transaction *)

Section Tx.

Context {X : Type} `{TX : TxLayer X}.

(** The process, its current directory, what the stack holds at [name], and
    the bound on the wake-ups. *)
Context (pid cwd : Z) (namebuf : list byte) (wakes : nat).

Notation MF := (M (fsys X)).

(** [ip->nlink += d] *)
Definition add_nlink (d : Z) (i : inode) : inode := with_d (fun di => with_nlink (s16 (di_nlink di + d)) di) i.

(** The label [bad] of [sys_link]. *)
Definition link_bad (ip : Z) : MF Z :=
  ilock pid (Some ip) wakes ;;;
  upd_inode ip (add_nlink (-1)) ;;;
  iupdate ip ;;;
  iunlockput pid ip wakes ;;;
  ret (-1).

Definition link_tx (old new : list byte) : MF Z :=
  r <- namei pid cwd old wakes ;;
  match r with
  | None => ret (-1)
  | Some ip =>
      ilock pid (Some ip) wakes ;;;
      i <- inode_of ip ;;
      if di_type (i_d i) =? T_DIR then iunlockput pid ip wakes ;;; ret (-1) else
      upd_inode ip (add_nlink 1) ;;;
      iupdate ip ;;;
      iunlock pid (Some ip) ;;;
      r <- nameiparent pid cwd new namebuf wakes ;;
      match fst r with
      | None => link_bad ip
      | Some dp =>
          ilock pid (Some dp) wakes ;;;
          d <- inode_of dp ;;
          i <- inode_of ip ;;
          c <- (if negb (i_dev d =? i_dev i) then ret (-1) else dirlink pid dp (of_list (snd r)) (i_inum i) wakes) ;;
          if c <? 0 then iunlockput pid dp wakes ;;; link_bad ip else
          iunlockput pid dp wakes ;;;
          iput pid ip wakes ;;;
          ret 0
      end
  end.

(** The loop of [isdirempty] from offset [off]. *)
Fixpoint isdirempty_loop (dp off : Z) (fuel : nat) : MF bool :=
  i <- inode_of dp ;;
  if off <? di_size (i_d i) then
    match fuel with
    | O => exhausted
    | S f =>
        r <- readi dp kernel_dst 0 off DIRENT_SIZE ;;
        if negb (fst r =? DIRENT_SIZE) then panic "isdirempty: readi" else
        if negb (de_inum (snd r) =? 0) then ret false else isdirempty_loop dp (off + DIRENT_SIZE) f
    end
  else ret true.
Definition isdirempty (dp : Z) : MF bool :=
  i <- inode_of dp ;;
  isdirempty_loop dp (2 * DIRENT_SIZE) (Z.to_nat (di_size (i_d i) / DIRENT_SIZE + 1)).

(** The label [bad] of [sys_unlink]. *)
Definition unlink_bad (dp : Z) : MF Z := iunlockput pid dp wakes ;;; ret (-1).

Definition unlink_tx (path : list byte) : MF Z :=
  r <- nameiparent pid cwd path namebuf wakes ;;
  match fst r with
  | None => ret (-1)
  | Some dp =>
      let name := of_list (snd r) in
      ilock pid (Some dp) wakes ;;;
      if (namecmp name (of_list dot) =? 0) || (namecmp name (of_list dotdot) =? 0) then unlink_bad dp else
      l <- dirlookup dp name ;;
      match l with
      | None => unlink_bad dp
      | Some (ip, off) =>
          ilock pid (Some ip) wakes ;;;
          i <- inode_of ip ;;
          if di_nlink (i_d i) <? 1 then panic "unlink: nlink < 1" else
          e <- (if di_type (i_d i) =? T_DIR then isdirempty ip else ret true) ;;
          if negb e then iunlockput pid ip wakes ;;; unlink_bad dp else
          w <- writei dp (kernel_src (replicate (Z.to_nat DIRENT_SIZE) Byte.x00)) 0 off DIRENT_SIZE ;;
          if negb (w =? DIRENT_SIZE) then panic "unlink: writei" else
          i <- inode_of ip ;;
          (if di_type (i_d i) =? T_DIR then upd_inode dp (add_nlink (-1)) ;;; iupdate dp else ret tt) ;;;
          iunlockput pid dp wakes ;;;
          upd_inode ip (add_nlink (-1)) ;;;
          iupdate ip ;;;
          iunlockput pid ip wakes ;;;
          ret 0
      end
  end.

(** [ip->major = major; ip->minor = minor; ip->nlink = 1] *)
Definition set_created (major minor : Z) (di : dinode) : dinode :=
  mk_dinode (di_type di) (s16 major) (s16 minor) 1 (di_size di) (di_addrs di).

(** The "." and ".." entries of a new directory. *)
Definition create_dots (dp ip : Z) : MF unit :=
  upd_inode dp (add_nlink 1) ;;;
  iupdate dp ;;;
  i <- inode_of ip ;;
  a <- dirlink pid ip (of_list dot) (i_inum i) wakes ;;
  if a <? 0 then panic "create dots" else
  d <- inode_of dp ;;
  b <- dirlink pid ip (of_list dotdot) (i_inum d) wakes ;;
  if b <? 0 then panic "create dots" else ret tt.

(** The inode is returned locked. *)
Definition create (path : list byte) (type major minor : Z) : MF (option Z) :=
  r <- nameiparent pid cwd path namebuf wakes ;;
  match fst r with
  | None => ret None
  | Some dp =>
      let name := of_list (snd r) in
      ilock pid (Some dp) wakes ;;;
      l <- dirlookup dp name ;;
      match l with
      | Some (ip, _) =>
          iunlockput pid dp wakes ;;;
          ilock pid (Some ip) wakes ;;;
          i <- inode_of ip ;;
          if (type =? T_FILE) && ((di_type (i_d i) =? T_FILE) || (di_type (i_d i) =? T_DEVICE)) then ret (Some ip) else
          iunlockput pid ip wakes ;;;
          ret None
      | None =>
          d <- inode_of dp ;;
          ip <- ialloc (i_dev d) type ;;
          ilock pid (Some ip) wakes ;;;
          upd_inode ip (with_d (set_created major minor)) ;;;
          iupdate ip ;;;
          (if type =? T_DIR then create_dots dp ip else ret tt) ;;;
          i <- inode_of ip ;;
          c <- dirlink pid dp name (i_inum i) wakes ;;
          if c <? 0 then panic "create: dirlink" else
          iunlockput pid dp wakes ;;;
          ret (Some ip)
      end
  end.

End Tx.

(** ** User memory *)

(** The number of bytes [copyout] stores before a fault. *)
Fixpoint stored (k : kmem) (pagetable dstva len : Z) (fuel : nat) : Z :=
  if len >? 0 then
    match fuel with
    | O => 0
    | S f =>
        let va0 := PGROUNDDOWN dstva in
        match walkaddr pagetable va0 k with
        | Done pa0 _ =>
            if pa0 =? 0 then 0 else
            let n0 := PGSIZE - (dstva - va0) in
            let n := if n0 >? len then len else n0 in
            n + stored k pagetable (u64 (va0 + PGSIZE)) (len - n) f
        | _ => 0
        end
    end
  else 0.
Definition user_dst (k : kmem) (pagetable : Z) (fuel : nat) : udst :=
  fun a l => Z.to_nat (stored k pagetable a (Z.of_nat (length l)) fuel).

(** ** The calls *)

Section Sysfile.

Context {S : Type} `{BL : BlockLayer S} {D : Type}.

Notation FL := (fl (S := S) (D := D)).
Notation MW := (M (kst (world FL))).

(** Linker symbols, the device switch. *)
Context (kend trampoline : Z) (devs : Z -> devsw D).

(** The process, bounds for loops, and what the kernel stack holds. *)
Context (me : Z) (wakes fuel : nat) (stack : list byte).

#[local] Instance the_env : FileEnv FL := file_env me kend devs wakes.

Definition onx {A} (m : M (kmem * FL) A) : MW A := onf (on_files m).
Definition begin_tx : MW unit := onx (on_log (begin_op wakes)).
Definition end_tx : MW unit := onx (on_log end_op).
Definition fs {A} (m : M (fsys (@lstate S)) A) : MW A := onx (on_fs m).
#[local] Notation trace := (Syscall.trace me).
#[local] Notation argint := (Syscall.argint me).
#[local] Notation argaddr := (Syscall.argaddr me).
Definition argpath (n : Z) : MW (Z * list byte) := argstr me fuel n MAXPATH.

(** The descriptor and the file; [None] is the error. *)
Definition argfd (n : Z) : MW (option (Z * Z)) :=
  fd <- argint n ;;
  if (fd <? 0) || (fd >=? NOFILE) then ret None else
  p <- proc_of me ;;
  if ofile_at p fd =? 0 then ret None else ret (Some (fd, ofile_at p fd)).

Fixpoint fdalloc_loop (f fd : Z) (left : nat) : MW Z :=
  match left with
  | O => ret (-1)
  | Datatypes.S left' =>
      p <- proc_of me ;;
      if ofile_at p fd =? 0 then upd_proc me (set_ofile fd f) ;;; ret fd
      else fdalloc_loop f (fd + 1) left'
  end.
Definition fdalloc (f : Z) : MW Z := fdalloc_loop f 0 (Z.to_nat NOFILE).

Definition cputc_encoded (c : byte) : MW unit :=
  if byte.unsigned c =? 10 then kprintf "\n" [] else kprintf "%s" [PStr [c; Byte.x00]].

Fixpoint cprintfn (l : list byte) : MW unit :=
  match l with [] => ret tt | c :: l' => cputc_encoded c ;;; cprintfn l' end.

Definition sys_dup : MW Z :=
  a <- argfd 0 ;;
  match a with
  | None => ret (-1)
  | Some (fdin, f) =>
      fd <- fdalloc f ;;
      if fd <? 0 then ret (-1) else
      trace (nl +:+ "[%d]sys_dup(%d, ") [PInt fdin] ;;;
      _ <- onx (on_table (filedup f)) ;;
      ret fd
  end.

(** What a file operation stored at [addr]. *)
Definition store_user (addr : Z) (l : list byte) : MW unit :=
  p <- proc_of me ;;
  _ <- onk (copyout (p_pagetable p) addr l fuel) ;;
  ret tt.
Definition the_dst : MW udst := gets (fun s => user_dst (km s) (p_pagetable (procs s me)) fuel).
Definition the_src : MW usrc := gets (fun s => user_src (km s) (p_pagetable (procs s me)) fuel).

Definition sys_read : MW Z :=
  a <- argfd 0 ;;
  match a with
  | None => ret (-1)
  | Some (fd, f) =>
      n <- argint 2 ;;
      p <- argaddr 1 ;;
      trace (nl +:+ "[%d]sys_read(%d, %d, %d) ") [PInt fd; PInt p; PInt n] ;;;
      dst <- the_dst ;;
      r <- onx (fileread me devs wakes f p dst n) ;;
      store_user p (snd r) ;;;
      ret (fst r)
  end.

(** The trace of a write: [stack] is what [instr] holds before. *)
Definition trace_write (fd p n : Z) : MW unit :=
  q <- proc_of me ;;
  if p_tracing q then
    r <- fetchstr me fuel p n ;;
    kprintf (nl +:+ "[%d]sys_write(%d, ") [PInt (p_pid q); PInt fd] ;;;
    cprintfn (take (Z.to_nat n) (list_inserts 0 (snd r) stack)) ;;;
    kprintf ", %d)" [PInt n]
  else ret tt.

Definition sys_write : MW Z :=
  a <- argfd 0 ;;
  match a with
  | None => ret (-1)
  | Some (fd, f) =>
      n <- argint 2 ;;
      p <- argaddr 1 ;;
      trace_write fd p n ;;;
      src <- the_src ;;
      onx (filewrite me devs wakes f p src n)
  end.

Definition sys_close : MW Z :=
  a <- argfd 0 ;;
  match a with
  | None => ret (-1)
  | Some (fd, f) =>
      trace (nl +:+ "[%d]sys_close(%d) ") [PInt fd] ;;;
      upd_proc me (set_ofile fd 0) ;;;
      onx (fileclose me kend wakes f) ;;;
      ret 0
  end.

Definition sys_fstat : MW Z :=
  a <- argfd 0 ;;
  match a with
  | None => ret (-1)
  | Some (fd, f) =>
      st <- argaddr 1 ;;
      trace (nl +:+ "[%d]sys_fstat(%d, %d) ") [PInt fd; PInt st] ;;;
      dst <- the_dst ;;
      r <- onx (filestat me wakes f st dst stack) ;;
      store_user st (snd r) ;;;
      ret (fst r)
  end.

(** The inode of the current directory, and the rest of the stack as [name]. *)
Definition the_cwd : MW Z := p <- proc_of me ;; ret (p_cwd p - 1).
Definition namebuf : list byte := take (Z.to_nat DIRSIZ) stack.

Definition sys_link : MW Z :=
  old <- argpath 0 ;;
  if fst old <? 0 then ret (-1) else
  new <- argpath 1 ;;
  if fst new <? 0 then ret (-1) else
  trace (nl +:+ "[%d]sys_link(%s, %s) ") [PStr (snd old); PStr (snd new)] ;;;
  begin_tx ;;;
  cwd <- the_cwd ;;
  r <- fs (link_tx me cwd namebuf wakes (upto_nul (snd old)) (upto_nul (snd new))) ;;
  end_tx ;;;
  ret r.

Definition sys_unlink : MW Z :=
  path <- argpath 0 ;;
  if fst path <? 0 then ret (-1) else
  trace (nl +:+ "[%d]sys_unlink(%s)") [PStr (snd path)] ;;;
  begin_tx ;;;
  cwd <- the_cwd ;;
  r <- fs (unlink_tx me cwd namebuf wakes (upto_nul (snd path))) ;;
  end_tx ;;;
  ret r.

(** The inode that [sys_open] opens, locked. *)
Definition open_inode (path : list byte) (omode : Z) : MW (option Z) :=
  cwd <- the_cwd ;;
  if has omode O_CREATE then fs (create me cwd namebuf wakes path T_FILE 0 0) else
  r <- fs (namei me cwd path wakes) ;;
  match r with
  | None => ret None
  | Some ip =>
      fs (ilock me (Some ip) wakes) ;;;
      i <- fs (inode_of ip) ;;
      if (di_type (i_d i) =? T_DIR) && negb (omode =? O_RDONLY) then
        fs (iunlockput me ip wakes) ;;; ret None
      else ret (Some ip)
  end.

(** [if ((f = filealloc()) == 0 || (fd = fdalloc(f)) < 0) { if (f) fileclose(f); ... }]:
    the file and the descriptor. *)
Definition open_file : MW (option (Z * Z)) :=
  f <- onx (on_table filealloc) ;;
  if f =? 0 then ret None else
  fd <- fdalloc f ;;
  if fd <? 0 then onx (fileclose me kend wakes f) ;;; ret None else ret (Some (f, fd)).

(** The fields of the new file. *)
Definition opened (i : inode) (ip omode : Z) (f : file) : file :=
  let dev := di_type (i_d i) =? T_DEVICE in
  mk_file (if dev then FD_DEVICE else FD_INODE) (fl_ref f) (negb (has omode O_WRONLY)) (has omode O_WRONLY || has omode O_RDWR)
          (fl_pipe f) (ip + 1) (if dev then fl_off f else 0) (if dev then di_major (i_d i) else fl_major f).

Definition sys_open : MW Z :=
  path <- argpath 0 ;;
  if fst path <? 0 then ret (-1) else
  omode <- argint 1 ;;
  trace (nl +:+ "[%d]sys_open(%s, %d)") [PStr (snd path); PInt omode] ;;;
  begin_tx ;;;
  r <- open_inode (upto_nul (snd path)) omode ;;
  match r with
  | None => end_tx ;;; ret (-1)
  | Some ip =>
      i <- fs (inode_of ip) ;;
      if (di_type (i_d i) =? T_DEVICE) && ((di_major (i_d i) <? 0) || (di_major (i_d i) >=? NDEV)) then
        fs (iunlockput me ip wakes) ;;; end_tx ;;; ret (-1)
      else
        o <- open_file ;;
        match o with
        | None => fs (iunlockput me ip wakes) ;;; end_tx ;;; ret (-1)
        | Some (f, fd) =>
            i <- fs (inode_of ip) ;;
            onx (upd_file f (opened i ip omode)) ;;;
            fs (iunlock me (Some ip)) ;;;
            end_tx ;;;
            ret fd
        end
  end.

Definition sys_mkdir : MW Z :=
  begin_tx ;;;
  path <- argpath 0 ;;
  if fst path <? 0 then end_tx ;;; ret (-1) else
  cwd <- the_cwd ;;
  r <- fs (create me cwd namebuf wakes (upto_nul (snd path)) T_DIR 0 0) ;;
  match r with
  | None => end_tx ;;; ret (-1)
  | Some ip =>
      trace (nl +:+ "[%d]sys_mkdir(%s)") [PStr (snd path)] ;;;
      fs (iunlockput me ip wakes) ;;;
      end_tx ;;;
      ret 0
  end.

Definition sys_mknod : MW Z :=
  begin_tx ;;;
  path <- argpath 0 ;;
  if fst path <? 0 then end_tx ;;; ret (-1) else
  major <- argint 1 ;;
  minor <- argint 2 ;;
  cwd <- the_cwd ;;
  r <- fs (create me cwd namebuf wakes (upto_nul (snd path)) T_DEVICE major minor) ;;
  match r with
  | None => end_tx ;;; ret (-1)
  | Some ip =>
      trace (nl +:+ "[%d]sys_mknod(%s, %d, %d)") [PStr (snd path); PInt major; PInt minor] ;;;
      fs (iunlockput me ip wakes) ;;;
      end_tx ;;;
      ret 0
  end.

Definition sys_chdir : MW Z :=
  begin_tx ;;;
  path <- argpath 0 ;;
  if fst path <? 0 then end_tx ;;; ret (-1) else
  cwd <- the_cwd ;;
  r <- fs (namei me cwd (upto_nul (snd path)) wakes) ;;
  match r with
  | None => end_tx ;;; ret (-1)
  | Some ip =>
      trace (nl +:+ "[%d]sys_chdir(%s)") [PStr (snd path)] ;;;
      fs (ilock me (Some ip) wakes) ;;;
      i <- fs (inode_of ip) ;;
      if negb (di_type (i_d i) =? T_DIR) then fs (iunlockput me ip wakes) ;;; end_tx ;;; ret (-1) else
      fs (iunlock me (Some ip)) ;;;
      cwd <- the_cwd ;;
      fs (iput me cwd wakes) ;;;
      end_tx ;;;
      upd_proc me (set_cwd (ip + 1)) ;;;
      ret 0
  end.

(** The loop of [sys_exec] from entry [i] of the user's array, [left] entries
    of [argv] remaining: whether it ended at a null pointer, and the pages
    allocated for [argv]. *)
Fixpoint fetch_args (uargv i : Z) (left : nat) : MW (bool * list Z) :=
  match left with
  | O => ret (false, [])
  | Datatypes.S left' =>
      r <- fetchaddr me fuel (u64 (uargv + 8 * i)) ;;
      if fst r <? 0 then ret (false, []) else
      if snd r =? 0 then ret (true, []) else
      pa <- onk kalloc ;;
      if pa =? 0 then panic "sys_exec kalloc" else
      c <- fetchstr me fuel (snd r) PGSIZE ;;
      onk (modify_ram (fun m => write_bytes m pa (snd c))) ;;;
      if fst c <? 0 then ret (false, [pa]) else
      rest <- fetch_args uargv (i + 1) left' ;;
      ret (fst rest, pa :: snd rest)
  end.

Fixpoint free_args (argv : list Z) : MW unit :=
  match argv with [] => ret tt | pa :: argv' => onk (kfree kend pa) ;;; free_args argv' end.

(** The strings in the pages of [argv]. *)
Definition arg_strings (argv : list Z) : MW (list (list byte)) :=
  gets (fun s => map (fun pa => upto_nul (read_bytes (ram (km s)) pa (Z.to_nat PGSIZE))) argv).

Fixpoint print_args (args : list (list byte)) : MW unit :=
  match args with [] => ret tt | a :: args' => kprintf ", %s" [PStr a] ;;; print_args args' end.
Definition trace_exec (path : list byte) (args : list (list byte)) : MW unit :=
  p <- proc_of me ;;
  if p_tracing p then
    kprintf (nl +:+ "[%d]sys_exec(%s") [PInt (p_pid p); PStr path] ;;;
    print_args args ;;;
    kprintf ")" []
  else ret tt.

Definition sys_exec : MW Z :=
  path <- argpath 0 ;;
  if fst path <? 0 then ret (-1) else
  uargv <- argaddr 1 ;;
  r <- fetch_args uargv 0 (Z.to_nat MAXARG) ;;
  if negb (fst r) then free_args (snd r) ;;; ret (-1) else
  args <- arg_strings (snd r) ;;
  trace_exec (snd path) args ;;;
  v <- exec kend trampoline me (upto_nul (snd path)) args fuel ;;
  free_args (snd r) ;;;
  ret v.

(** Undoing a pipe whose descriptors [fds] were already stored. *)
Fixpoint clear_fds (fds : list Z) : MW unit :=
  match fds with [] => ret tt | fd :: fds' => upd_proc me (set_ofile fd 0) ;;; clear_fds fds' end.
Definition pipe_fail (fds : list Z) (rf wf : Z) : MW Z :=
  clear_fds fds ;;;
  onx (fileclose me kend wakes rf) ;;;
  onx (fileclose me kend wakes wf) ;;;
  ret (-1).

Definition sys_pipe : MW Z :=
  fdarray <- argaddr 0 ;;
  r <- onx (pipealloc me kend wakes) ;;
  let '(c, rf, wf) := r in
  if c <? 0 then ret (-1) else
  fd0 <- fdalloc rf ;;
  if fd0 <? 0 then pipe_fail [] rf wf else
  fd1 <- fdalloc wf ;;
  if fd1 <? 0 then pipe_fail [fd0] rf wf else
  trace (nl +:+ "[%d]sys_pipe(%d,%d)") [PInt fd0; PInt fd1] ;;;
  p <- proc_of me ;;
  a <- onk (copyout (p_pagetable p) fdarray (le_split 4 fd0) fuel) ;;
  if a <? 0 then pipe_fail [fd0; fd1] rf wf else
  b <- onk (copyout (p_pagetable p) (u64 (fdarray + 4)) (le_split 4 fd1) fuel) ;;
  if b <? 0 then pipe_fail [fd0; fd1] rf wf else ret 0.

(** From the second argument on; the trace prints [path], which holds what the
    stack holds. *)
Definition suspend_call (pid : Z) : MW Z :=
  a <- argfd 1 ;;
  match a with
  | None => ret (-1)
  | Some (_, fp) =>
      trace (nl +:+ "[%d]sys_suspendproc(%d, %s)") [PInt pid; PStr stack] ;;;
      ksuspend me pid fp fuel
  end.
Definition sys_suspend : MW Z := pid <- argint 0 ;; suspend_call pid.

End Sysfile.
