(* ===== verification/FsCreate.v ===== *)
(** * Creating a file: create of kernel/sysfile.c

    The whole of [create] for files and devices: the path is walked to its
    last directory, an existing name is opened or refused, and otherwise an
    inode is taken and the name is linked to it. *)

From Stdlib Require Import FunctionalExtensionality.
From S2P Require Import Prelude CMem Riscv Sleeplock BlockLayer Log Tx Fs FsBlocks FsInode FsFile FsDir FsSpace FsGrow FsPath FsLink Sysfile.

(** ** The same disk in another view *)

Lemma dir_ok_same v v' d : same_disk v v' -> dir_ok v d -> dir_ok v' d.
Proof.
  intros (A & B & _) [D1 D2 D3]. split; [done| |].
  - intros bn H1 H2 H3 H4. specialize (D2 bn H1 H2 H3 H4). unfold slot, blk in *. by rewrite A.
  - intros k Hk. specialize (D3 k Hk). unfold dent, content, fbyte, faddr, live, in_table, inode_at, blk in *. by rewrite A, B.
Qed.

Lemma tree_ok_same v v' : same_disk v v' -> tree_ok v -> tree_ok v'.
Proof.
  intros Hs Ht inum Hl Hd. rewrite (same_inode_at v v' inum Hs) in *. apply (dir_ok_same v v' _ Hs), Ht; [|done].
  destruct Hl as [[L1 L2] L3]. rewrite (same_inode_at v v' inum Hs) in *. destruct Hs as (_ & B & _). rewrite B in L1. done.
Qed.

Lemma made_same i c inum d v v' w : made i c inum d v v' -> same_disk v' w -> made i c inum d v w.
Proof.
  intros [M1 M2 M3 M4 M5 M6 M7 M8 M9 M10] Hs. pose proof Hs as (A & B & _).
  assert (forall j, inode_at w j = inode_at v' j) as Hat by (intros j; by apply same_inode_at).
  assert (forall x y, dir_find w x y = dir_find v' x y) as Hf.
  { intros x y. unfold dir_find, entry_named, dent, content, fbyte, faddr, blk. by rewrite A. }
  split; rewrite ?Hat, ?Hf, ?B; try done.
  - by apply (same_space v').
  - by apply (tree_ok_same v').
  - intros j Hj. rewrite Hat. apply M3. by rewrite <- B.
  - intros c' Hc. rewrite Hf. by apply M8.
  - intros j Hj H1 H2. rewrite Hat. destruct (M10 j Hj H1 H2) as (E1 & E2 & E3). unfold slot, hbyte, slot, blk in *. rewrite A. done.
Qed.

Lemma resolve_parent_dir v names : forall start i c, resolve_parent v start names = Some (i, c) -> di_type (inode_at v i) = T_DIR.
Proof.
  induction names as [|n names IH]; intros start i c; cbn [resolve_parent]; [done|].
  destruct (Z.eqb_spec (di_type (inode_at v start)) T_DIR) as [E|]; [|done]. destruct names as [|n2 names]; [by intros [= <- _]|].
  destruct (dir_find _ _ _); [apply IH|done].
Qed.

Lemma nfree_inode v inum d : space_ok v -> inum_ok (f_sb v) inum -> nfree (put_dinode inum d v) = nfree v.
Proof.
  intros Hok Hin. unfold nfree, put_dinode. change (f_sb (tx _ v)) with (f_sb v). f_equal. f_equal. apply filter_ext_in.
  intros b Hb%list_elem_of_In%elem_of_seqZ. unfold blk_free. change (f_sb (tx _ v)) with (f_sb v).
  destruct (iblock_range _ (ac_sb _ _ Hok) inum Hin) as [_ Hne]. specialize (Hne b ltac:(lia)).
  match goal with |- bit_clear (blk (tx ?f v) ?x) _ = _ => assert (blk (tx f v) x = blk v x) as ->; [by apply fset_ne|done] end.
Qed.

Lemma nfree_same v v' : same_disk v v' -> nfree v' = nfree v.
Proof. intros (A & B & _). unfold nfree, blk_free, blk. by rewrite A, B. Qed.

Lemma stored_same v w inum d v' : same_disk v w -> stored_inode inum d w v' -> stored_inode inum d v v'.
Proof.
  intros Hs [A1 A2 A3 A4 A5]. pose proof Hs as (A & B & _). rewrite B in *. split; [done|done|..].
  - intros j Hj Hne. rewrite A3 by done. by apply same_inode_at.
  - intros j k Hj. rewrite A4, (same_inode_at v w j Hs) by done. unfold slot, blk. by rewrite A.
  - intros j k Hj Hk. rewrite A5, (same_inode_at v w j Hs) by done. unfold hbyte, slot, blk. by rewrite A.
Qed.

Section Create.

Context {X : Type} `{TX : TxLayer X}.

Context (pid : Z) (wakes : nat).

Local Notation calm := (calm pid).
Local Notation walked := (walked pid).

Lemma calm_perm l l' v : (forall j, j ∈ l <-> j ∈ l') -> calm l v -> calm l' v.
Proof.
  intros Hl [A B C D]. split; try done. intros j Hj. destruct (C j Hj) as [C1 C2 C3 C4]. split; try done.
  unfold lock_ok in *. destruct (decide (j ∈ l)) as [E|E], (decide (j ∈ l')) as [E'|E']; try done; exfalso; [by apply E', Hl|by apply E, Hl].
Qed.

Context (v0 : fsys txv) (Hcalm : calm [] v0) (Hmax : forall j, i_ref (inodes v0 j) < 2 ^ 30).
Context (Hok : space_ok v0) (Htree : tree_ok v0) (Hspare : spare_ok v0) (Hnum : sb_ninodes (f_sb v0) <= 2 ^ 16).
Context (Hroom : exists j1 j2 j3, j1 <> j2 /\ j1 <> j3 /\ j2 <> j3 /\ in_cache j1 /\ in_cache j2 /\ in_cache j3 /\
  i_ref (inodes v0 j1) = 0 /\ i_ref (inodes v0 j2) = 0 /\ i_ref (inodes v0 j3) = 0).

Lemma walked_room w v l a b : inodes w = inodes v0 -> walked w v l [a; b] \/ walked w v l [b] -> cache_room v.
Proof.
  intros Ew Hw. assert (ic_lock v = false /\ forall j, j <> a -> j <> b -> i_ref (inodes v j) = i_ref (inodes v0 j)) as [Hl Hr].
  { destruct Hw as [[W1 _ W3 _]|[W1 _ W3 _]]; (split; [apply W1|]; intros j Ha Hb; rewrite W3, Ew; cbn; rewrite ?decide_False by congruence; lia). }
  split; [done|]. destruct Hroom as (j1 & j2 & j3 & N1 & N2 & N3 & C1 & C2 & C3 & R1 & R2 & R3).
  assert (exists j, in_cache j /\ i_ref (inodes v0 j) = 0 /\ j <> a /\ j <> b) as (j & Hc & H0 & Ha & Hb).
  { destruct (decide (j1 = a)), (decide (j1 = b)), (decide (j2 = a)), (decide (j2 = b)); try congruence;
      first [by exists j1|by exists j2|exists j3; split_and!; congruence]. }
  exists j. split; [done|]. by rewrite Hr.
Qed.

(** *** The inode *)

Context (type major minor : Z) (Htype : 0 < type < 2 ^ 15).

Definition created : dinode := set_created major minor (empty_dinode type).

Lemma empty_ok : dinode_ok (empty_dinode type).
Proof. split; cbn; try apply s16_short; try (unfold short_ok; lia); repeat constructor; lia. Qed.

Lemma created_ok : dinode_ok created /\ di_type created = type.
Proof.
  split; [split; cbn; try apply s16_short; try (unfold short_ok; lia); repeat constructor; lia|]. cbn. unfold s16. rewrite Z.mod_small; lia.
Qed.

(** Entries in use are of inodes in use, so an unused inode is in none. *)
Lemma fresh_entries l v n d : calm l v -> di_type (inode_at v n) = 0 -> stored_inode n d v (put_dinode n d v) -> calm l (put_dinode n d v).
Proof.
  intros Hc H0 Hst. apply (calm_disk pid l v _ 0 (fun x => x)); try done.
  - by destruct Hc as [_ H _ _].
  - change (inodes (put_dinode n d v)) with (inodes v). assert (with_d (fun x => x) (inodes v 0) = inodes v 0) as -> by (by destruct (inodes v 0)).
    symmetry. apply fset_id.
  - intros j Hj H1 H2. destruct (cm_entry _ _ _ Hc j Hj) as [_ _ C3 C4]. destruct (C4 H1 H2) as [T1 T2].
    assert (i_inum (inodes v j) <> n) as Hne by (intros E; by rewrite E in T2). rewrite (st_other _ _ _ _ Hst) by done.
    split; [done|]. intros Hv. by apply C3.
Qed.

Lemma fwp_new_inode {A} (k : Z -> M (fsys X) A) (Q : A -> fsys txv -> Prop) v dp i : walked v0 v [dp] [dp] -> in_use v t_dev i dp -> live v0 i -> space 10 v0 ->
  (exists n, 1 <= n < sb_ninodes (f_sb v0) /\ di_type (inode_at v0 n) = 0) ->
  (forall ip n v', 1 <= n < sb_ninodes (f_sb v0) -> di_type (inode_at v0 n) = 0 -> ip <> dp -> f_sb v' = f_sb v0 -> stored_inode n created v0 v' ->
     walked (on_disk v0 v') v' [ip; dp] [ip; dp] -> in_use v' t_dev n ip -> inodes v' dp = inodes v dp -> space 8 v' -> nfree v' = nfree v0 -> fwp (k ip) Q v') ->
  fwp (ip <- ialloc t_dev type ;; ilock pid (Some ip) wakes ;;; upd_inode ip (with_d (set_created major minor)) ;;; iupdate ip ;;; k ip) Q v.
Proof.
  intros Hw Hu Hl Hsp Hfree HQ. pose proof Hw as [W1 W2 W3 W4]. pose proof W2 as (A1 & A2 & A3).
  assert (space 10 v) as Hspv by (unfold space in *; by rewrite A1). pose proof (same_space v0 Hok v W2) as Hokv.
  apply fwp_bind. apply fwp_ialloc; [done|apply W1|eapply space_mono; [|exact Hspv]; lia|lia|by apply (walked_room v0 v [dp] dp dp eq_refl); right| |].
  { destruct Hfree as (n & H1 & H2). exists n. by rewrite A2, (same_inode_at v0 v n W2). }
  intros n ip v2 Hn Hn0 Hg. rewrite (same_inode_at v0 v n W2) in Hn0. rewrite A2 in Hn. assert (inum_ok (f_sb v) n) as Hin by (unfold inum_ok; rewrite A2; lia).
  assert (n <> i) as Hni by (intros ->; by destruct (proj2 (proj1 Hl))).
  pose proof (Hspare n ltac:(unfold inum_ok; lia) Hn0) as Hz.
  pose proof (put_dinode_space n (empty_dinode type) v Hokv Hin empty_ok ltac:(by rewrite (same_inode_at v0 v n W2), Hz)) as Hst1.
  set (v1 := put_dinode n (empty_dinode type) v) in *. set (b1 := on_disk v0 v1).
  assert (walked b1 v1 [dp] [dp]) as Hw1.
  { apply (walked_rebase pid v0 v v1); [done| |done|done|done]. apply fresh_entries; [done|by rewrite (same_inode_at v0 v n W2)|done]. }
  assert (same_disk b1 v1) as Hs1 by apply Hw1.
  assert (in_table b1 n) as Htab1.
  { split; [unfold inum_ok; cbn; lia|]. rewrite <- (same_inode_at b1 v1 n Hs1), (st_at _ _ _ _ Hst1). cbn. unfold s16. rewrite Z.mod_small; lia. }
  destruct (walk_gotten pid b1 Hmax v1 [dp] [dp] n ip v2 Hw1 ltac:(cbn; lia) Htab1 Hg) as (Hw2 & Hu2 & Ho2 & Hk2).
  assert (ip <> dp) as Hne.
  { intros ->. assert (in_use v2 t_dev i dp) as (_ & _ & _ & E) by (apply Hk2; exact Hu). destruct Hu2 as (_ & _ & _ & E'). congruence. }
  assert (space 9 v1) as Hsp1 by (apply (space_write 10); [exact Hspv|lia]).
  apply fwp_bind, (fwp_ilock_walk pid b1 Hmax v2 [dp] [ip; dp] ip n); [done|set_solver|done|done|eapply space_mono; [|exact Hsp1]; lia|].
  set (v3 := ilocked pid ip v2). intros Hw3 Hu3 Hv3 Ed3. apply fwp_bind, fwp_upd. set (v4 := set_inode ip _ v3).
  pose proof Hu3 as (U1 & U2 & U3 & U4). assert (same_disk b1 v3) as Hs3 by apply Hw3. assert (same_disk b1 v4) as Hs4 by exact Hs3.
  rewrite <- (same_inode_at b1 v1 n Hs1), (st_at _ _ _ _ Hst1) in Ed3.
  assert (inodes v4 ip = with_d (set_created major minor) (inodes v3 ip)) as E4 by apply inodes_set.
  assert (i_d (inodes v4 ip) = created) as Ed4 by (rewrite E4; cbn [i_d with_d]; by rewrite Ed3).
  assert (space_ok b1) as Hokb by (apply (same_space v1 (st_space _ _ _ _ Hst1)); by destruct Hs1 as (B1 & B2 & B3); split_and!).
  pose proof (same_space b1 Hokb v4 Hs4) as Hok4.
  assert (f_sb v4 = f_sb v0) as Hsb4 by apply Hs4. assert (inum_ok (f_sb v4) n) as Hin4 by (unfold inum_ok; rewrite Hsb4; lia).
  assert (forall j, inode_at v4 j = inode_at v1 j) as Hat4 by (intros j; by rewrite (same_inode_at b1 v4 j Hs4), (same_inode_at b1 v1 j Hs1)).
  pose proof (put_dinode_space n created v4 Hok4 Hin4 (proj1 created_ok) ltac:(by rewrite Hat4, (st_at _ _ _ _ Hst1))) as Hst2.
  apply fwp_bind, fwp_iupdate; [rewrite E4; apply U3|apply unheld_held; unfold unheld; change (fx v4) with (fx v3); apply Hw3| |].
  { unfold space. destruct Hs4 as (-> & _). eapply space_mono; [|exact Hsp1]. lia. }
  match goal with |- fwp _ _ ?x => replace x with (put_dinode n created v4) end.
  2: { unfold put_dinode, iblk, ioff. rewrite Ed4. assert (i_inum (inodes v4 ip) = n) as -> by (rewrite E4; exact U4). done. }
  set (v5 := put_dinode n created v4) in *.
  assert (same_disk v1 v4) as Hs14 by (destruct Hs1 as (B1 & B2 & B3), Hs4 as (C1 & C2 & C3); split_and!; congruence).
  assert (calm [ip; dp] v5) as Hc5.
  { apply (calm_update pid _ v3 v5 ip n (set_created major minor)); try done; [apply Hw3|apply Hw3|..].
    - rewrite (st_at _ _ _ _ Hst2). by rewrite Ed3.
    - rewrite (st_at _ _ _ _ Hst2). destruct created_ok as [_ ->]. lia.
    - intros j Hj Hjn. by rewrite (st_other _ _ _ _ Hst2). }
  apply (HQ ip n v5); try done.
  - apply (stored_same v0 v _ _ _ W2). apply (stored_trans n (empty_dinode type) created v v1); [done|done|]. by apply (stored_same v1 v4).
  - apply (walked_rebase pid b1 v3 v5); try done. intros j. change (inodes v5 j) with (inodes v4 j).
    destruct (decide (j = ip)) as [->|Hj]; [by rewrite E4|]. assert (inodes v4 j = inodes v3 j) as -> by (by apply fset_ne). done.
  - unfold in_use. change (inodes v5) with (inodes v4). rewrite E4. done.
  - change (inodes v5 dp) with (inodes v4 dp). assert (inodes v4 dp = inodes v3 dp) as -> by (apply fset_ne; congruence).
    assert (inodes v3 dp = inodes v2 dp) as -> by (apply fset_ne; congruence). by rewrite Ho2.
  - apply (space_write 9); [|lia]. unfold space. destruct Hs4 as (-> & _). exact Hsp1.
  - unfold v5. rewrite (nfree_inode v4 n created Hok4 Hin4), (nfree_same v1 v4 Hs14). unfold v1. rewrite (nfree_inode v n _ Hokv Hin). by apply nfree_same.
Qed.

(** *** The name *)

Context (Hnodir : type <> T_DIR).

Lemma on_disk_same v : f_sb v = f_sb v0 -> ic_lock v = ic_lock v0 -> same_disk v (on_disk v0 v).
Proof. intros A B. split_and!; done. Qed.

Section Link_new.

Context (dp ip i inum : Z) (name : reader) (v : fsys txv).
Context (Hsb : f_sb v = f_sb v0) (Hst : stored_inode inum created v0 v) (Hw : walked (on_disk v0 v) v [ip; dp] [ip; dp]).
Context (Hu : in_use v t_dev inum ip) (Hud : in_use v t_dev i dp) (Hne : ip <> dp) (Ed : i_d (inodes v dp) = inode_at v i).
Context (Hl : live v0 i) (Ht : di_type (inode_at v0 i) = T_DIR) (Hn : 1 <= inum < sb_ninodes (f_sb v0)) (Hn0 : di_type (inode_at v0 inum) = 0).
Context (Hnone : dir_find v0 (inode_at v0 i) (cname name (Z.to_nat DIRSIZ)) = None) (Hfit : di_size (inode_at v0 i) + DIRENT_SIZE <= MAXFILE * BSIZE).

Let K := di_size (inode_at v i) / DIRENT_SIZE.

Lemma created_type : di_type created <> 0 /\ di_type created <> T_DIR.
Proof. destruct created_ok as [_ ->]. split; [lia|done]. Qed.

Lemma link_fits : inode_at v i = inode_at v0 i /\ DIRENT_SIZE * (K + 1) <= MAXFILE * BSIZE.
Proof.
  destruct (stored_dir inum created v0 v Htree Hn0 Hsb Hst i Hl Ht) as (Ei & _). split; [done|].
  unfold K. rewrite Ei. clear -Hfit. unfold DIRENT_SIZE in *. divlia.
Qed.

(** The directory is one for [dirlink]. *)
Lemma link_dir : exists N, is_dir v dp K N.
Proof.
  destruct link_fits as [Ei _]. assert (ic_lock v = ic_lock v0) as Hlk by (destruct (wl_disk _ _ _ _ _ Hw) as (_ & _ & E); exact E).
  pose proof (on_disk_same v Hsb Hlk) as Hb. pose proof (stored_tree inum created v0 v Htree Hn0 Hsb Hst created_type) as Htw.
  pose proof (stored_live inum created v0 v Hn0 Hsb Hst i Hl) as Hlw. set (b := on_disk v0 v) in *.
  assert (inode_at b i = inode_at v i) as Eb by (by apply same_inode_at).
  assert (live b i) as Hlb by (unfold live, in_table; rewrite Eb; cbn; rewrite <- Hsb; exact Hlw).
  destruct (walk_dir pid b (same_space v (st_space _ _ _ _ Hst) b Hb) (tree_ok_same v b Hb Htw) v [ip; dp] [ip; dp] dp i Hw Hud) as [N Hdir];
    [by rewrite Eb|done|by rewrite Eb, Ei|]. rewrite Eb in Hdir. by exists N.
Qed.

Context (k : Z) (v' : fsys txv) (Hk : 0 <= k <= K) (Hold : k = K \/ de_inum (dent v (inode_at v i) k) = 0).
Context (Hwd : write_done dp i (new_entry name inum) v (DIRENT_SIZE * k) v').

(** The cache after the write. *)
Lemma link_walked : inodes v' = fset (inodes v) dp (with_d (fun _ => inode_at v' i) (inodes v dp)) /\ walked (on_disk v0 v') v' [ip; dp] [ip; dp].
Proof. destruct link_fits as [Ei _]. apply (walked_write pid v0 v v' _ _ dp i (new_entry name inum) (DIRENT_SIZE * k)); try done. by rewrite Ei, Ht. Qed.

Lemma fwp_link_end (Q : option Z -> fsys txv -> Prop) :
  (forall v', made i (cname name (Z.to_nat DIRSIZ)) inum created v0 v' -> (forall j, live v0 j -> live v' j) ->
     walked (on_disk v0 v') v' [ip] [ip] -> in_use v' t_dev inum ip -> Q (Some ip) v') ->
  fwp (iunlockput pid dp wakes ;;; ret (Some ip)) Q v'.
Proof.
  intros HQ. pose proof Hwd as (_ & S2 & _). assert (inum_ok (f_sb v0) inum) as Hinn by (unfold inum_ok; lia). destruct link_walked as [link_entries Hw2].
  assert (walked (on_disk v0 v') v' [dp; ip] [dp; ip]) as Hw'.
  { destruct Hw2 as [W1 W2 W3 W4]. split; [apply (calm_perm [ip; dp]); [set_solver|done]|done| |done]. intros j. rewrite W3. cbn. lia. }
  pose proof (made_by_link dp i inum k name created v0 v v' Htree Hspare Hl Ht Hinn ltac:(lia) Hn0 Hsb Hst created_type ltac:(done) Hnone Hk (proj2 link_fits) Hold Hwd) as Hmade.
  pose proof (made_live dp i inum k name created v0 v v' Htree Hl Ht Hn0 Hsb Hst Hwd) as Hlive.
  assert (same_disk v' (on_disk v0 v')) as Hb' by (apply on_disk_same; [congruence|by destruct (wl_disk _ _ _ _ _ Hw') as (_ & _ & E)]).
  apply fwp_bind, (fwp_iunlockput_walk pid (on_disk v0 v') Hmax v' [ip] [dp; ip] dp i); [done|set_solver|done|cbn; lia| | |].
  { unfold in_use. rewrite link_entries, fset_eq. exact Hud. }
  { unfold live, in_table. rewrite (same_inode_at v' _ i Hb'). destruct (Hlive i Hl) as [[L1 L2] L3]. cbn in *. rewrite S2, Hsb in L1. done. }
  intros v2 Hw3 Ho2 _. cbn [List.tl] in Hw3. apply fwp_ret. assert (same_disk v' v2) as Hs2.
  { destruct (wl_disk _ _ _ _ _ Hw3) as (B1 & B2 & B3), Hb' as (C1 & C2 & C3). split_and!; congruence. }
  apply HQ.
  - by apply (made_same _ _ _ _ _ v').
  - intros j Hj. specialize (Hlive j Hj). unfold live, in_table in *. rewrite (same_inode_at v' v2 j Hs2). destruct Hs2 as (_ & -> & _). done.
  - assert (on_disk v0 v2 = on_disk v0 v') as -> by (unfold on_disk; by destruct Hs2 as (-> & _)). done.
  - unfold in_use. rewrite Ho2, link_entries, fset_ne by done. exact Hu.
Qed.

End Link_new.

Lemma fwp_link_new dp ip i inum name v (Q : option Z -> fsys txv -> Prop) :
  f_sb v = f_sb v0 -> stored_inode inum created v0 v -> walked (on_disk v0 v) v [ip; dp] [ip; dp] -> in_use v t_dev inum ip -> in_use v t_dev i dp -> ip <> dp ->
  i_d (inodes v dp) = inode_at v i -> live v0 i -> di_type (inode_at v0 i) = T_DIR -> 1 <= inum < sb_ninodes (f_sb v0) -> di_type (inode_at v0 inum) = 0 ->
  dir_find v0 (inode_at v0 i) (cname name (Z.to_nat DIRSIZ)) = None -> di_size (inode_at v0 i) + DIRENT_SIZE <= MAXFILE * BSIZE ->
  space 8 v -> 2 <= nfree v ->
  (forall v', made i (cname name (Z.to_nat DIRSIZ)) inum created v0 v' -> (forall j, live v0 j -> live v' j) ->
     walked (on_disk v0 v') v' [ip] [ip] -> in_use v' t_dev inum ip -> Q (Some ip) v') ->
  fwp (e <- inode_of ip ;; c <- dirlink pid dp name (i_inum e) wakes ;;
       if c <? 0 then panic "create: dirlink" else iunlockput pid dp wakes ;;; ret (Some ip)) Q v.
Proof.
  intros Hsb Hst Hw Hu Hud Hne Ed Hl Ht Hn Hn0 Hnone Hfit Hsp Hfree HQ.
  destruct (link_fits i inum v Hsb Hst Hl Ht Hn0 Hfit) as [Ei HfitK]. destruct (link_dir dp ip i inum v Hsb Hst Hw Hud Ed Hl Ht Hn0 Hfit) as [N Hdir].
  apply fwp_bind, fwp_inode. pose proof Hu as (U1 & U2 & U3 & U4). rewrite U4. pose proof Hud as (D1 & D2 & D3 & D4).
  apply fwp_bind, (fwp_dirlink_grows pid dp i (di_size (inode_at v i) / DIRENT_SIZE) N); try done;
    [rewrite Hsb; apply Hl|apply Hst|apply Hw|by apply (walked_room (on_disk v0 v) v [ip; dp] ip dp eq_refl); left| |].
  { apply dir_find_absent. by destruct (stored_dir inum created v0 v Htree Hn0 Hsb Hst i Hl Ht) as (_ & _ & ->). }
  intros k v' Hk Hold Hwd _. cbn [Z.ltb Z.compare]. by apply (fwp_link_end dp ip i inum name v Hsb Hst Hw Hu Hud Hne Ed Hl Ht Hn Hn0 Hnone Hfit k v').
Qed.

(** *** The whole call *)

(** An existing name is handed out for a file or a device, and only when a file
    is asked for. *)
Definition opens (j : Z) : bool :=
  (type =? T_FILE) && ((di_type (inode_at v0 j) =? T_FILE) || (di_type (inode_at v0 j) =? T_DEVICE)).

Definition created_as (start : Z) (names : list (list byte)) (r : option Z) (v' : fsys txv) : Prop :=
  match resolve_parent v0 start names with
  | None => r = None /\ walked v0 v' [] []
  | Some (i, c) =>
      match dir_find v0 (inode_at v0 i) c with
      | Some j => if opens j then exists ip, r = Some ip /\ walked v0 v' [ip] [ip] /\ in_use v' t_dev j ip else r = None /\ walked v0 v' [] []
      | None => exists ip inum, r = Some ip /\ made i c inum created v0 v' /\ walked (on_disk v0 v') v' [ip] [ip] /\ in_use v' t_dev inum ip /\
          resolve v' start names = Some inum
      end
  end.

(** The name exists. *)
Lemma fwp_create_old dp i j ip v (Q : option Z -> fsys txv -> Prop) :
  walked v0 v [dp] [ip; dp] -> in_use v t_dev i dp -> live v0 i -> in_use v t_dev j ip -> live v0 j -> space 1 v0 ->
  (if opens j then forall v', walked v0 v' [ip] [ip] -> in_use v' t_dev j ip -> Q (Some ip) v' else forall v', walked v0 v' [] [] -> Q None v') ->
  fwp (iunlockput pid dp wakes ;;; ilock pid (Some ip) wakes ;;; e <- inode_of ip ;;
       if (type =? T_FILE) && ((di_type (i_d e) =? T_FILE) || (di_type (i_d e) =? T_DEVICE)) then ret (Some ip) else iunlockput pid ip wakes ;;; ret None) Q v.
Proof.
  intros Hw Hud Hli Hu Hl Hsp HQ. assert (walked v0 v [dp] [dp; ip]) as Hw1.
  { destruct Hw as [W1 W2 W3 W4]. split; [done|done| |done]. intros x. rewrite W3. cbn. lia. }
  apply fwp_bind, (fwp_iunlockput_walk pid v0 Hmax v [] [dp; ip] dp i); [done|set_solver|done|cbn; lia|done|done|].
  intros v2 Hw2 Ho2 Hself. cbn [List.tl] in Hw2. assert (in_use v2 t_dev j ip) as Hu2.
  { destruct (decide (ip = dp)) as [->|Hne]; [|unfold in_use; by rewrite Ho2]. apply Hself; [done|]. rewrite (wl_refs _ _ _ _ _ Hw1). cbn. rewrite !decide_True by done.
    pose proof (en_ref _ _ _ _ (cm_entry _ _ _ Hcalm dp (proj1 Hu))). lia. }
  apply fwp_bind, (fwp_ilock_walk pid v0 Hmax v2 [] [ip] ip j); [done|set_solver|done|apply Hl|done|]. intros Hw3 Hu3 _ Ed3.
  apply fwp_bind, fwp_inode. rewrite Ed3. unfold opens in HQ. destruct (_ && _); [apply fwp_ret; by apply HQ|].
  apply fwp_bind, (fwp_iunlockput_walk pid v0 Hmax _ [] [ip] ip j); [done|set_solver|done|cbn; lia|done|done|]. intros v4 Hw4 _ _. apply fwp_ret. by apply HQ.
Qed.

Lemma fwp_create cwd namebuf path cino : Forall (fun c => c <> Byte.x00) path -> Z.of_nat (length namebuf) = DIRSIZ ->
  in_use v0 t_dev cino cwd -> live v0 cino -> live v0 ROOTINO -> t_dev = ROOTDEV -> space 10 v0 -> 2 <= nfree v0 ->
  (exists n, 1 <= n < sb_ninodes (f_sb v0) /\ di_type (inode_at v0 n) = 0) ->
  let start := match path with c :: _ => if is_slash c then ROOTINO else cino | [] => cino end in
  (forall i c, resolve_parent v0 start (components path) = Some (i, c) -> di_size (inode_at v0 i) + DIRENT_SIZE <= MAXFILE * BSIZE) ->
  fwp (create pid cwd namebuf wakes path type major minor) (created_as start (components path)) v0.
Proof.
  intros Hnz Hname Hu Hl Hr Hdev Hsp Hfree Hspn start Hfit. assert (space 1 v0) as Hsp1 by (eapply space_mono; [|exact Hsp]; lia).
  assert (live v0 start) as Hls by (unfold start; destruct path as [|c p]; [done|by destruct (is_slash c)]).
  assert (exists j j', j <> j' /\ in_cache j /\ in_cache j' /\ i_ref (inodes v0 j) = 0 /\ i_ref (inodes v0 j') = 0) as Hroom2.
  { destruct Hroom as (j1 & j2 & j3 & N1 & N2 & N3 & C1 & C2 & C3 & R1 & R2 & R3). by exists j1, j2. }
  unfold create. apply fwp_bind. unfold nameiparent.
  eapply fwp_mono; [|apply (fwp_namex pid v0 Hmax Hok Htree Hsp1 Hroom2 true wakes cwd path namebuf cino); done].
  intros r v (Ha & Hnm). fold start in Ha, Hnm. unfold created_as. destruct (resolve_parent v0 start (components path)) as [[i c]|] eqn:Ep; cbn in Ha.
  2: { destruct Ha as [-> Hw]. by apply fwp_ret. }
  destruct Ha as (dp & Er & Hw & Hud & Hli). rewrite Er. destruct (Hnm i c eq_refl) as [Hcn _].
  pose proof (resolve_parent_dir _ _ _ _ _ Ep) as Ht.
  apply fwp_bind, (fwp_ilock_walk pid v0 Hmax v [] [dp] dp i); [done|set_solver|done|apply Hli|done|]. set (v1 := ilocked pid dp v). intros Hw1 Hu1 Hv1 Ed1.
  pose proof Hu1 as (U1 & U2 & U3 & U4). pose proof (wl_disk _ _ _ _ _ Hw1) as Hs1.
  destruct (walk_dir pid v0 Hok Htree v1 [dp] [dp] dp i Hw1 Hu1 Ed1 Hli Ht) as [N Hdir].
  apply fwp_bind. eapply fwp_mono; [|apply (fwp_dirlookup dp _ N (of_list (snd r)) v1 Hdir); [unfold space; destruct Hs1 as (-> & _); exact Hsp1|]].
  2: { by apply (walked_room v0 v1 [dp] dp dp eq_refl); right. }
  intros lk v2 Hlk. apply (looked_up_disk v0 v1 dp _ (of_list (snd r))) in Hlk; [|apply Hs1|by rewrite U4]. rewrite U4 in Hlk.
  destruct lk as [[ip off]|].
  - destruct Hlk as (k & Hk & Hm & Hn & Hg & _). rewrite (dir_find_first v0 _ _ _ k Hcn Hk Hm Hn).
    pose proof (do_live _ _ (Htree i Hli Ht) k Hk (proj1 Hm)) as Hlive. set (j := de_inum (dent v0 (inode_at v0 i) k)) in *.
    destruct (walk_gotten pid v0 Hmax v1 [dp] [dp] j ip v2 Hw1 ltac:(cbn; lia) (proj1 Hlive) Hg) as (Hw2 & Hu2 & _ & Hk2).
    apply (fwp_create_old dp i j ip v2); try done; [by apply Hk2|]. destruct (opens j); [intros v' H1 H2; by exists ip|done].
  - destruct Hlk as [-> Hn]. pose proof (dir_find_none v0 _ _ _ Hcn Hn) as Hnone. rewrite Hnone. apply fwp_bind, fwp_inode. rewrite U3.
    apply (fwp_new_inode _ _ v1 dp i); try done. intros ip n v2 Hn1 Hn0 Hne Hsb Hst Hw2 Hu2 Ho2 Hsp2 Hnf.
    rewrite (proj2 (Z.eqb_neq type T_DIR) Hnodir). apply fwp_bind, fwp_ret.
    destruct (stored_dir n created v0 v2 Htree Hn0 Hsb Hst i Hli Ht) as (Ei & _).
    apply (fwp_link_new dp ip i n (of_list (snd r)) v2); try done.
    + unfold in_use. rewrite Ho2. done.
    + by rewrite Ho2, Ed1, Ei.
    + by rewrite Hcn.
    + by eapply Hfit.
    + by rewrite Hnf.
    + rewrite Hcn. intros v' Hmade Hlive Hw' Hu'. exists ip, n. split_and!; try done. by eapply made_resolves.
Qed.

End Create.

(** [C9] [create] makes a file or a device, or opens an existing file: on a
    well-formed file system with room for it, it terminates without a panic.
    Where the directory of the path does not exist, or the name exists and
    does not fit the request, it returns nothing, the disk unchanged. Where
    the name is an existing file or device and a file is asked for, it returns
    the entry of its inode. Otherwise it takes a free inode, initialises it and
    enters the name in the directory: the path now resolves to that inode,
    every other name of the directory, every other inode and its contents are
    as before, and the tree and the accounting of the blocks are well formed
    again. On every branch exactly the returned inode is locked and referenced
    once more, and no other reference or lock has changed. *)
Theorem create_makes_file {X : Type} `{TX : TxLayer X} (pid : Z) (s : fsys X) (v : fsys txv) (cwd cino : Z) (path namebuf : list byte) (wakes : nat) (type major minor : Z)
  (Hs : fs_rep s v) (Hc : calm pid [] v) (Hmax : forall j, i_ref (inodes v j) < 2 ^ 30) (Hok : space_ok v) (Htree : tree_ok v) (Hspare : spare_ok v)
  (Hnum : sb_ninodes (f_sb v) <= 2 ^ 16)
  (Hroom : exists j1 j2 j3, j1 <> j2 /\ j1 <> j3 /\ j2 <> j3 /\ in_cache j1 /\ in_cache j2 /\ in_cache j3 /\
    i_ref (inodes v j1) = 0 /\ i_ref (inodes v j2) = 0 /\ i_ref (inodes v j3) = 0)
  (Htype : 0 < type < 2 ^ 15) (Hnodir : type <> T_DIR) (Hnz : Forall (fun c => c <> Byte.x00) path) (Hname : Z.of_nat (length namebuf) = DIRSIZ)
  (Hcwd : in_use v t_dev cino cwd) (Hl : live v cino) (Hr : live v ROOTINO) (Hdev : t_dev = ROOTDEV) (Hsp : space 10 v) (Hfree : 2 <= nfree v)
  (Hinode : exists n, 1 <= n < sb_ninodes (f_sb v) /\ di_type (inode_at v n) = 0) :
  let start := match path with c :: _ => if is_slash c then ROOTINO else cino | [] => cino end in
  (forall i c, resolve_parent v start (components path) = Some (i, c) -> di_size (inode_at v i) + DIRENT_SIZE <= MAXFILE * BSIZE) ->
  exists r s' v', create pid cwd namebuf wakes path type major minor s = Done r s' /\ fs_rep s' v' /\
    match resolve_parent v start (components path) with
    | None => r = None /\ walked pid v v' [] []
    | Some (i, c) =>
        match dir_find v (inode_at v i) c with
        | Some j =>
            if (type =? T_FILE) && ((di_type (inode_at v j) =? T_FILE) || (di_type (inode_at v j) =? T_DEVICE))
            then exists ip, r = Some ip /\ walked pid v v' [ip] [ip] /\ in_use v' t_dev j ip
            else r = None /\ walked pid v v' [] []
        | None => exists ip inum, r = Some ip /\ made i c inum (created type major minor) v v' /\ walked pid (on_disk v v') v' [ip] [ip] /\
            in_use v' t_dev inum ip /\ resolve v' start (components path) = Some inum
        end
    end.
Proof.
  intros start Hfit. destruct (fwp_create pid wakes v Hc Hmax Hok Htree Hspare Hnum Hroom type major minor Htype Hnodir cwd namebuf path cino
    Hnz Hname Hcwd Hl Hr Hdev Hsp Hfree Hinode Hfit s Hs) as (r & s' & v' & E & R & H). by exists r, s', v'.
Qed.
