(* ===== verification/FsCreateDemo.v ===== *)
(** * Creating a file on a concrete disk

    The theorem of FsCreate.v at the idle file system of FsSpaceDemo.v: the
    file "/a" is made in the root directory. *)

From S2P Require Import Prelude CMem Riscv Sleeplock BlockLayer Bio Log LogBio Tx Fs FsBlocks FsInode FsFile FsDir FsDemo FsSpace FsGrow FsTrunc FsPath FsSpaceDemo FsLink Sysfile FsCreate.

#[local] Instance create_cache : BlockLayer bio := bio_layer the_pid.

Definition slash_a : list byte := [Byte.x2f; Byte.x61].

Definition spare_inode (j : Z) : bool :=
  negb (di_type (inode_at idle_view j) =? 0) || bool_decide (di_addrs (inode_at idle_view j) = replicate (Z.to_nat (NDIRECT + 1)) 0).

Lemma idle_spare : spare_ok idle_view.
Proof.
  intros j Hj H0. assert (forallb spare_inode (seqZ 0 16) = true) as H by (vm_compute; reflexivity).
  apply (forallb_range _ 0 16 j) in H; [|exact Hj]. unfold spare_inode in H. rewrite H0 in H. by apply bool_decide_eq_true in H.
Qed.

Lemma slash_a_parent : resolve_parent idle_view ROOTINO (components slash_a) = Some (1, [Byte.x61]).
Proof. vm_compute. reflexivity. Qed.

Lemma slash_a_absent : dir_find idle_view (inode_at idle_view 1) [Byte.x61] = None.
Proof. vm_compute. reflexivity. Qed.

Lemma idle_free : nfree idle_view = 17 /\ di_type (inode_at idle_view 2) = 0 /\ di_size (inode_at idle_view 1) = 32.
Proof. vm_compute. done. Qed.

(** Entries 3, 4 and 5 of the cache are free. *)
Lemma idle_room : exists j1 j2 j3, j1 <> j2 /\ j1 <> j3 /\ j2 <> j3 /\ in_cache j1 /\ in_cache j2 /\ in_cache j3 /\
  i_ref (inodes idle_view j1) = 0 /\ i_ref (inodes idle_view j2) = 0 /\ i_ref (inodes idle_view j3) = 0.
Proof. exists 3, 4, 5. split_and!; try lia; try reflexivity; vm_compute; split; congruence. Qed.

Lemma idle_refs j : i_ref (inodes idle_view j) < 2 ^ 30.
Proof. cbn. unfold idle_inodes. destruct (j =? 0); reflexivity. Qed.

Lemma idle_cwd : in_use idle_view ROOTDEV 1 0.
Proof. split; [vm_compute; split; congruence|]. split; [vm_compute; congruence|]. by split. Qed.

Lemma create_makes_file_witness : exists ip inum s' v', create the_pid 0 (replicate 14 Byte.x00) 0 slash_a T_FILE 0 0 idle_fs = Done (Some ip) s' /\
  fs_rep s' v' /\ in_use v' ROOTDEV inum ip /\ resolve v' ROOTINO (components slash_a) = Some inum.
Proof.
  destruct idle_free as (Hf & Hi & Hsz).
  destruct (create_makes_file the_pid idle_fs idle_view 0 1 slash_a (replicate 14 Byte.x00) 0 T_FILE 0 0 (clean_rep tight_disk idle_inodes) idle_calm idle_refs
    (same_space tight_view tight_ok idle_view (conj eq_refl (conj eq_refl eq_refl))) idle_tree idle_spare ltac:(vm_compute; congruence) idle_room
    ltac:(vm_compute; split; congruence) ltac:(discriminate) ltac:(repeat constructor; discriminate) eq_refl idle_cwd idle_root idle_root eq_refl
    (demo_space 10 ltac:(lia)) ltac:(rewrite Hf; lia) ltac:(exists 2; split; [vm_compute; split; congruence|exact Hi]))
    as (r & s' & v' & E & R & H).
  - intros i c. change (match slash_a with c :: _ => if is_slash c then ROOTINO else 1 | [] => 1 end) with ROOTINO. rewrite slash_a_parent.
    intros [= <- _]. rewrite Hsz. vm_compute. congruence.
  - change (match slash_a with c :: _ => if is_slash c then ROOTINO else 1 | [] => 1 end) with ROOTINO in H. rewrite slash_a_parent, slash_a_absent in H.
    destruct H as (ip & inum & -> & _ & _ & Hu & Hr). exists ip, inum, s', v'. split; [exact E|]. split; [exact R|]. split; [exact Hu|exact Hr].
Defined.
