(* ===== verification/FsUnlink.v ===== *)
(** * Removing a name: unlink of kernel/sysfile.c

    [unlink_tx], the part of [sys_unlink] inside the transaction, on names of
    files and devices: the entry of the directory is cleared, the link count
    goes down, and the last link of an inode that nobody has open gives the
    inode and its blocks back. *)

From S2P Require Import Prelude CMem Riscv Sleeplock BlockLayer Log Tx Fs FsBlocks FsInode FsFile FsDir FsSpace FsGrow FsTrunc FsPath FsLink Sysfile FsCreate.

(** ** The cleared entry *)

Definition zero_entry : list byte := replicate (Z.to_nat DIRENT_SIZE) Byte.x00.

Lemma find_none {A} (p : A -> bool) l : (forall x, x ∈ l -> p x = false) -> List.find p l = None.
Proof. induction l as [|x l IH]; intros H; [done|]. cbn. rewrite (H x) by left. apply IH. intros y Hy. apply H. by right. Qed.

Section Cleared.

Context (dp i k : Z) (c : list byte) (v w : fsys txv).

Let d := inode_at v i.
Let d' := inode_at w i.
Let K := di_size d / DIRENT_SIZE.

Context (Hdir : dir_ok v d) (Hwd : write_done dp i zero_entry v (DIRENT_SIZE * k) w) (Hk : 0 <= k < K) (Hc : entry_named v d c k = true).

Lemma cleared_fits : DIRENT_SIZE * Z.max K (k + 1) <= MAXFILE * BSIZE.
Proof. destruct (do_size _ _ Hdir) as [H1 H2]. unfold K, DIRENT_SIZE in *. divlia. Qed.

Lemma cleared_count : di_size d' / DIRENT_SIZE = K.
Proof. unfold d'. rewrite (entry_count dp i zero_entry eq_refl k v w Hdir Hwd). fold d K. lia. Qed.

Lemma cleared_entry k' : 0 <= k' < K -> dent w d' k' = if decide (k' = k) then zero_entry else dent v d k'.
Proof. intros Hk'. apply (entry_written dp i zero_entry eq_refl k v w Hdir Hwd ltac:(fold d K; lia) cleared_fits). fold d K. lia. Qed.

Lemma cleared_named c' k' : 0 <= k' < K -> entry_named w d' c' k' = if decide (k' = k) then false else entry_named v d c' k'.
Proof. intros Hk'. unfold entry_named. rewrite cleared_entry by done. by destruct (decide (k' = k)). Qed.

Lemma cleared_gone : (forall k', 0 <= k' < K -> entry_named v d c k' = true -> k' = k) -> dir_find w d' c = None.
Proof.
  intros Hone. unfold dir_find. rewrite cleared_count, find_none; [done|]. intros k' Hk'%elem_of_seqZ. rewrite cleared_named by lia.
  destruct (decide (k' = k)) as [|Hne]; [done|]. destruct (entry_named v d c k') eqn:E; [|done]. by apply Hone in E; [|lia].
Qed.

Lemma cleared_others c' : c' <> c -> dir_find w d' c' = dir_find v d c'.
Proof.
  intros Hne. assert (entry_named v d c' k = false) as Hk0.
  { unfold entry_named in *. apply andb_true_iff in Hc as [_ E%bool_decide_eq_true]. rewrite bool_decide_eq_false_2 by congruence. apply andb_false_r. }
  unfold dir_find. rewrite cleared_count. fold K. rewrite (find_ext _ (entry_named v d c')).
  2: { intros k' Hk'%elem_of_seqZ. rewrite cleared_named by lia. by destruct (decide (k' = k)) as [->|]. }
  pose proof (find_first (entry_named v d c') (seqZ 0 K)) as Hf. destruct (List.find _ _) as [x|]; [|done].
  destruct Hf as (m & Hm & Hx & _). apply lookup_seqZ in Hm as [-> Hm]. rewrite cleared_entry, decide_False by (lia || congruence). done.
Qed.

End Cleared.

(** ** Changes to one inode *)

Record only_inode (j : Z) (v v' : fsys txv) : Prop := {
  oi_space : space_ok v';
  oi_sb : f_sb v' = f_sb v;
  oi_other x : inum_ok (f_sb v) x -> x <> j -> inode_at v' x = inode_at v x /\ (forall k, slot v' (inode_at v' x) k = slot v (inode_at v x) k) /\
    forall k, 0 <= k < MAXFILE * BSIZE -> hbyte v' (inode_at v' x) k = hbyte v (inode_at v x) k;
}.

Lemma only_trans j v v1 v2 : only_inode j v v1 -> only_inode j v1 v2 -> only_inode j v v2.
Proof.
  intros [A1 A2 A3] [B1 B2 B3]. rewrite A2 in *. split; [done|done|]. intros x Hx Hne. destruct (A3 x Hx Hne) as (E1 & E2 & E3), (B3 x Hx Hne) as (F1 & F2 & F3).
  split_and!; [congruence|intros k; congruence|]. intros k Hk. rewrite F3, E3; done.
Qed.

Lemma only_stored j d v v' : f_sb v' = f_sb v -> stored_inode j d v v' -> only_inode j v v'.
Proof. intros Hsb [A1 A2 A3 A4 A5]. split; [done|done|]. intros x Hx Hne. split_and!; auto. Qed.

Lemma only_truncated ip j v v' : truncated ip j v v' -> only_inode j v v'.
Proof. intros (A & B & _ & _ & _ & _ & _ & C). by split. Qed.

Lemma only_same j v v' v2 : only_inode j v v' -> same_disk v' v2 -> only_inode j v v2.
Proof.
  intros [A1 A2 A3] Hs. pose proof Hs as (E & F & _). split; [by apply (same_space v')|congruence|]. intros x Hx Hne.
  destruct (A3 x Hx Hne) as (E1 & E2 & E3). rewrite (same_inode_at v' v2 x Hs). split_and!; [done|..].
  - intros k. rewrite <- E2. unfold slot, blk. by rewrite E.
  - intros k Hk. rewrite <- E3 by done. unfold hbyte, slot, blk. by rewrite E.
Qed.

(** ** The tree afterwards *)

(** Entry [k] of directory [i] names inode [j]. *)
Definition names (v : fsys txv) (i k j : Z) : Prop :=
  live v i /\ di_type (inode_at v i) = T_DIR /\ 0 <= k < di_size (inode_at v i) / DIRENT_SIZE /\ de_inum (dent v (inode_at v i) k) = j.

(** From [v] to [v'] directory [i] lost the name [c] of inode [j], which became
    [d]; nothing else happened to the files. *)
Record removed (i : Z) (c : list byte) (j : Z) (d : dinode) (v v' : fsys txv) : Prop := {
  rm_space : space_ok v';
  rm_tree : tree_ok v';
  rm_spare : spare_ok v';
  rm_sb : f_sb v' = f_sb v;
  rm_gone : dir_find v' (inode_at v' i) c = None;
  rm_names c' : c' <> c -> dir_find v' (inode_at v' i) c' = dir_find v (inode_at v i) c';
  rm_dir : di_type (inode_at v' i) = di_type (inode_at v i) /\ di_nlink (inode_at v' i) = di_nlink (inode_at v i);
  rm_inode : inode_at v' j = d;
  rm_other x : inum_ok (f_sb v) x -> x <> i -> x <> j -> inode_at v' x = inode_at v x /\
    (forall k, slot v' (inode_at v' x) k = slot v (inode_at v x) k) /\
    forall k, 0 <= k < MAXFILE * BSIZE -> hbyte v' (inode_at v' x) k = hbyte v (inode_at v x) k;
}.

Section Removed.

Context (dp i k j : Z) (c : list byte) (d : dinode) (v w v' : fsys txv).

Context (Htree : tree_ok v) (Hspare : spare_ok v) (Hi : live v i) (Ht : di_type (inode_at v i) = T_DIR) (Hjn : di_type (inode_at v j) <> T_DIR).
Context (Hk : 0 <= k < di_size (inode_at v i) / DIRENT_SIZE) (Hc : entry_named v (inode_at v i) c k = true) (Hj : de_inum (dent v (inode_at v i) k) = j).
Context (Hc1 : forall k', 0 <= k' < di_size (inode_at v i) / DIRENT_SIZE -> entry_named v (inode_at v i) c k' = true -> k' = k).
Context (Hwd : write_done dp i zero_entry v (DIRENT_SIZE * k) w) (Hch : only_inode j w v').
Context (Hd : inode_at v' j = d) (Hdt : di_type d <> T_DIR) (Hda : di_type d = 0 -> di_addrs d = replicate (Z.to_nat (NDIRECT + 1)) 0).
Context (Hone : live v' j \/ forall i' k', names v i' k' j -> i' = i /\ k' = k).

Let Hdir := Htree i Hi Ht.

Lemma removed_live_j : live v j.
Proof. rewrite <- Hj. apply (do_live _ _ Hdir); [done|]. unfold entry_named in Hc. apply andb_true_iff in Hc as [E _]. by apply negb_true_iff, Z.eqb_neq in E. Qed.

Lemma removed_ij : i <> j.
Proof. congruence. Qed.

(** The inodes other than the directory, after the write. *)
Lemma wrote_other x : inum_ok (f_sb v) x -> x <> i -> inode_at w x = inode_at v x /\ (forall k, slot w (inode_at w x) k = slot v (inode_at v x) k) /\
  forall k, 0 <= k < MAXFILE * BSIZE -> hbyte w (inode_at w x) k = hbyte v (inode_at v x) k.
Proof. intros Hx Hne. destruct Hwd as (_ & _ & _ & _ & _ & _ & _ & _ & _ & _ & _ & _ & H). destruct (H x Hx Hne) as (A & B & C). done. Qed.

Lemma wrote_kind x : inum_ok (f_sb v) x -> di_type (inode_at w x) = di_type (inode_at v x) /\ di_nlink (inode_at w x) = di_nlink (inode_at v x).
Proof.
  intros Hx. destruct (decide (x = i)) as [->|Hne]; [|by destruct (wrote_other x Hx Hne) as (-> & _)].
  by destruct Hwd as (_ & _ & _ & _ & _ & _ & _ & A & B & _).
Qed.

Lemma wrote_live x : live w x <-> live v x.
Proof.
  destruct Hwd as (_ & Hsb & _). unfold live, in_table. rewrite Hsb.
  split; intros [[A B] C]; destruct (wrote_kind x A) as [E F]; rewrite ?E, ?F in *; done.
Qed.

Lemma wrote_dir x : live v x -> di_type (inode_at v x) = T_DIR -> x <> i ->
  dir_ok w (inode_at w x) /\ forall k, 0 <= k < di_size (inode_at v x) / DIRENT_SIZE -> dent w (inode_at w x) k = dent v (inode_at v x) k.
Proof.
  intros Hl Hx Hne. destruct (wrote_other x (proj1 (proj1 Hl)) Hne) as (E1 & E2 & E3).
  apply (dir_kept v (inode_at v x)); [by apply Htree|by rewrite E1|done|done|]. intros k' _ _. by apply wrote_live.
Qed.

Lemma wrote_tree : tree_ok w.
Proof.
  intros x Hl%wrote_live Hx. destruct (wrote_kind x (proj1 (proj1 Hl))) as [E _]. rewrite E in Hx. destruct (decide (x = i)) as [->|Hne]; [|by apply wrote_dir].
  apply (entry_dir_ok dp i zero_entry eq_refl k v w Hdir Hwd ltac:(lia) (cleared_fits i k v Hdir Hk)); [|done].
  intros k' Hk' _ H0. apply wrote_live. by apply (do_live _ _ Hdir).
Qed.

(** No name of the inode is left, or it is still linked. *)
Lemma wrote_names i' k' : names w i' k' j -> names v i' k' j /\ ~ (i' = i /\ k' = k).
Proof.
  intros (Hl%wrote_live & A & B & C). destruct (wrote_kind i' (proj1 (proj1 Hl))) as [E _]. rewrite E in A.
  assert (j <> 0) as Hj0.
  { rewrite <- Hj. unfold entry_named in Hc. apply andb_true_iff in Hc as [E0 _]. by apply negb_true_iff, Z.eqb_neq in E0. }
  destruct (decide (i' = i)) as [->|Hne].
  - rewrite (cleared_count dp i k v w Hdir Hwd Hk) in B. rewrite (cleared_entry dp i k v w Hdir Hwd Hk) in C by done.
    destruct (decide (k' = k)) as [->|Hne]; [by destruct Hj0|]. split; [done|]. intros [_ H]. done.
  - destruct (wrote_other i' (proj1 (proj1 Hl)) Hne) as (E1 & _). rewrite E1 in B. destruct (wrote_dir i' Hl A Hne) as [_ F]. rewrite F in C by done.
    split; [done|]. intros [H _]. done.
Qed.

Lemma kept_live x : x <> j -> live w x -> live v' x.
Proof.
  intros Hne [[A B] C]. destruct (oi_other _ _ _ Hch x A Hne) as (E & _). unfold live, in_table. by rewrite E, (oi_sb _ _ _ Hch).
Qed.

Lemma kept_dir x : live w x -> di_type (inode_at w x) = T_DIR -> inode_at v' x = inode_at w x /\ dir_ok v' (inode_at v' x) /\
  forall c', dir_find v' (inode_at v' x) c' = dir_find w (inode_at w x) c'.
Proof.
  intros Hl Hx. assert (x <> j) as Hne.
  { intros ->. destruct (wrote_kind j (proj1 (proj1 removed_live_j))) as [E _]. congruence. }
  destruct (oi_other _ _ _ Hch x (proj1 (proj1 Hl)) Hne) as (E1 & E2 & E3).
  destruct (dir_kept w (inode_at w x) v' (inode_at v' x) (wrote_tree x Hl Hx)) as [A B]; [by rewrite E1|done|done| |].
  { intros k' Hk' H0 Hl'. destruct (decide (de_inum (dent w (inode_at w x) k') = j)) as [E|]; [|by apply kept_live].
    destruct Hone as [H|H]; [by rewrite E|]. destruct (wrote_names x k') as [N1 N2]; [done|]. by apply H in N1. }
  split; [done|]. split; [done|]. intros c'. by apply dir_find_same; [rewrite E1|].
Qed.

Lemma removed_by_unlink : removed i c j d v v'.
Proof.
  pose proof Hwd as (_ & Hsb & _). pose proof (oi_sb _ _ _ Hch) as Hsb'. pose proof (proj2 (wrote_live i) Hi) as Hiw.
  destruct (wrote_kind i (proj1 (proj1 Hi))) as [Ti Ni]. destruct (kept_dir i Hiw ltac:(congruence)) as (Ei & _ & Fi).
  assert (forall x, inum_ok (f_sb v) x -> x <> i -> x <> j -> inode_at v' x = inode_at v x /\ (forall k, slot v' (inode_at v' x) k = slot v (inode_at v x) k) /\
    forall k, 0 <= k < MAXFILE * BSIZE -> hbyte v' (inode_at v' x) k = hbyte v (inode_at v x) k) as Hother.
  { intros x Hx H1 H2. destruct (wrote_other x Hx H1) as (A & B & C). destruct (oi_other _ _ _ Hch x ltac:(by rewrite Hsb) H2) as (A' & B' & C').
    split_and!; [congruence|intros; congruence|]. intros k' Hk'. rewrite C', C; done. }
  split; try done.
  - apply (oi_space _ _ _ Hch).
  - intros x Hl Hx. destruct (decide (x = j)) as [->|Hne]; [by rewrite Hd in Hx|]. destruct Hl as [[L1 L2] L3]. rewrite Hsb' in L1.
    destruct (oi_other _ _ _ Hch x L1 Hne) as (E & _). rewrite E in L2, L3, Hx. by apply kept_dir.
  - intros x Hx H0. destruct (decide (x = j)) as [->|Hne]; [rewrite Hd in *; auto|]. rewrite Hsb', Hsb in Hx.
    destruct (decide (x = i)) as [->|Hni]; [rewrite Ei, Ti, Ht in H0; done|]. destruct (Hother x Hx Hni Hne) as (E & _). rewrite E in *. by apply Hspare.
  - congruence.
  - rewrite Fi. by apply (cleared_gone dp i k c v w Hdir Hwd Hk).
  - intros c' Hc'. rewrite Fi. by apply (cleared_others dp i k c v w Hdir Hwd Hk Hc).
  - rewrite Ei. done.
Qed.

End Removed.

(** ** The steps *)

Section Steps.

Context {X : Type} `{TX : TxLayer X}.

Lemma bitmap_space_write e v v' b d : fx v' = v_write b d (fx v) -> f_sb v' = f_sb v -> bitmap_space e v -> bitmap_space (e - 1) v'.
Proof.
  intros E Hsb [A B]. unfold bitmap_space. rewrite E, Hsb. cbn [v_write v_logged v_held].
  assert (forall S : gset Z, Z.of_nat (size ({[b]} ∪ S)) <= Z.of_nat (size S) + 1) as Hs by (intros S; pose proof (size_union_alt {[b]} S); rewrite size_singleton in *; pose proof (subseteq_size (S ∖ {[b]}) S ltac:(set_solver)); lia).
  pose proof (Hs (v_logged (fx v) ∪ dom (v_held (fx v)) ∪ bitmap_set (f_sb v))). pose proof (Hs (v_logged (fx v) ∪ bitmap_set (f_sb v))).
  rewrite <- !(assoc_L (∪)) in *. lia.
Qed.

Lemma bitmap_space_mono e e' v : e <= e' -> bitmap_space e' v -> bitmap_space e v.
Proof. intros He [A B]. split; lia. Qed.

Lemma bitmap_space_same e v v' : fx v' = fx v -> f_sb v' = f_sb v -> bitmap_space e v -> bitmap_space e v'.
Proof. unfold bitmap_space. by intros -> ->. Qed.

Lemma bitmap_space_space e v : bitmap_space e v -> space e v.
Proof. apply (freed_space (fun _ => False)), freed_refl. Qed.

(** Bytes of one block of a file are overwritten. *)
Lemma fwp_writei_inplace ip inum copyin src data off v : copies copyin src data -> cached t_dev v ip inum -> space_ok v -> unheld v ->
  let n := Z.of_nat (length data) in 0 <= src < 2 ^ 64 -> 0 < n -> 0 <= off -> off + n <= di_size (inode_at v inum) -> off mod BSIZE + n <= BSIZE -> space 3 v ->
  fwp (writei ip copyin src off n) (fun r v' => r = n /\ write_done ip inum data v off v' /\ exists b d b' d', fx v' = v_write b' d' (v_write b d (fx v))) v.
Proof.
  intros Hcp Hca Hok Hh n Hsrc Hn Hoff Hend Hfit Hsp. pose proof (cached_mapped _ _ _ _ Hok Hh Hca) as Hm. pose proof Hca as [C1 C2 C3 C4 C5 C6].
  set (N := (di_size (inode_at v inum) + (BSIZE - 1)) / BSIZE) in *. set (d := inode_at v inum) in *.
  assert (0 <= off / BSIZE < N) as Hbn by (unfold N, BSIZE in *; divlia).
  assert (0 <= off / BSIZE < MAXFILE) as Hbm by (change (MAXFILE * BSIZE) with 274432 in C5; change MAXFILE with 268; unfold BSIZE in *; divlia).
  destruct (present_addr v d (off / BSIZE) _ C6 Hbm ltac:(unfold BSIZE in *; divlia)) as (Es & Ha0 & _).
  assert (working ip inum (inode_at v) v) as Hw by done.
  pose proof (extended_block ip inum (inode_at v) off data v Hw ltac:(change (MAXFILE * BSIZE) with 274432 in *; lia) Hfit) as Hx. cbv zeta in Hx. fold d in Hx. rewrite Es in Hx. specialize (Hx Ha0).
  set (a := faddr v d (off / BSIZE)) in *. set (v1 := tx (v_write a _) v) in Hx.
  eapply fwp_mono; [|apply (fwp_writei_after ip inum copyin src data (fun x => exists b d, x = v_write b d (fx v))); try done; try (fold d; lia)].
  - intros r v' (-> & H1 & _ & x & b' & d' & (b & e & ->) & E). split; [done|]. split; [done|]. by exists b, e, b', d'.
  - fold n. destruct (Z.to_nat (n / BSIZE + 2)) as [|f] eqn:Ef; [unfold BSIZE in *; divlia|]. cbn [writei_loop]. destruct (Z.ltb_spec 0 n); [|lia].
    apply fwp_bind, fwp_inode. apply fwp_bind. eapply (fwp_bmap ip _ N); [done|done|eapply space_mono; [|exact Hsp]; lia|]. rewrite C3, C4. fold d a.
    pose proof (mp_held _ _ _ _ Hm _ Hbn) as Hha. rewrite C3 in Hha. fold d a in Hha.
    apply fwp_open; [done|eapply space_mono; [|exact Hsp]; lia|]. intros h Hf. rewrite Z.sub_0_r, Z.min_l by lia.
    assert (copyin src (Z.to_nat n) = data) as ->.
    { specialize (Hcp 0 (Z.to_nat n) ltac:(lia) ltac:(lia)). rewrite Z.add_0_r, u64_small in Hcp by lia. rewrite Hcp. cbn. apply firstn_all2. lia. }
    rewrite (proj2 (Nat.ltb_lt 0 (length data))) by lia. rewrite (proj2 (Nat.ltb_ge (length data) (Z.to_nat n))) by lia.
    apply fwp_seq3, (fwp_commit a h (splice (off mod BSIZE) data)); [done|done|eapply space_mono; [|exact Hsp]; lia|]. fold v1.
    assert (space 2 v1) as Hsp1 by (apply (space_write 3); [done|lia]).
    assert (fwp (ret (u32 (off + n)) : M (fsys X) Z) (fun off' v1 => off' = off + n /\ extended ip inum (inode_at v) off data v v1 /\
      present v1 (i_d (inodes v1 ip)) off n /\ space 2 v1 /\ exists b d, fx v1 = v_write b d (fx v)) v1) as Hret.
    { apply fwp_ret. split; [apply u32_small; change (MAXFILE * BSIZE) with 274432 in *; lia|]. split; [done|]. split; [|split; [done|by eexists _, _]].
      intros bn _ H2 H3 H4. change (inodes v1 ip) with (inodes v ip). rewrite C3. fold d.
      assert (bn = off / BSIZE) as -> by (unfold BSIZE in *; divlia). pose proof (ex_slots _ _ _ _ _ _ _ Hx (bslot (off / BSIZE)) ltac:(by apply bslot_ok)) as Hs.
      change (inodes v1 ip) with (inodes v ip) in Hs. rewrite C3 in Hs. fold d in Hs. apply Hs. by rewrite Es. }
    destruct f; cbn [writei_loop]; rewrite Z.add_0_l, Z.ltb_irrefl; exact Hret.
Qed.

End Steps.

Lemma blk_free_put n d v b : space_ok v -> inum_ok (f_sb v) n -> 0 <= b < sb_size (f_sb v) -> blk_free (put_dinode n d v) b = blk_free v b.
Proof.
  intros Hok Hin Hb. destruct (iblock_range _ (ac_sb _ _ Hok) n Hin) as [_ Hne]. specialize (Hne b Hb). unfold blk_free, put_dinode.
  change (f_sb (tx _ v)) with (f_sb v). match goal with |- bit_clear (blk (tx ?f v) ?x) _ = _ => assert (blk (tx f v) x = blk v x) as ->; [by apply fset_ne|done] end.
Qed.

(** The inode that [iput] leaves when it was the last. *)
Definition emptied_inode (d : dinode) : dinode := with_type 0 (with_size 0 (with_addrs (replicate 13 0) d)).

Lemma emptied_inode_ok d : dinode_ok d -> dinode_ok (emptied_inode d).
Proof. intros [A B C D E F G]. split; cbn; first [done | unfold short_ok; lia | repeat constructor; lia]. Qed.

Section Free.

Context {X : Type} `{TX : TxLayer X}.

Context (pid : Z).

Local Notation calm := (calm pid).

(** The entry of an inode that is gone. *)
Lemma calm_freed l v v' ip j e : calm l v -> f_sb v' = f_sb v -> ic_lock v' = false -> unheld v' -> inodes v' = fset (inodes v) ip e ->
  lock_ok pid l ip (i_lock e) -> i_ref e = 0 -> in_use v t_dev j ip -> (forall n, inum_ok (f_sb v) n -> n <> j -> inode_at v' n = inode_at v n) -> calm l v'.
Proof.
  intros [A B C D] Hsb Hlk Hh Hi He H0 Hu Ho.
  assert (inodes v' ip = e) as Ei by (by rewrite Hi, fset_eq). assert (forall x, x <> ip -> inodes v' x = inodes v x) as Eo by (intros x Hx; by rewrite Hi, fset_ne).
  assert (forall dev n x, in_use v' dev n x -> x <> ip /\ in_use v dev n x) as Huse.
  { intros dev n x (H1 & H2 & H3 & H4). assert (x <> ip) as Hx by (intros ->; rewrite Ei in H2; lia). rewrite Eo in * by done. done. }
  split; [done|done| |intros dev n x y [_ Hx]%Huse [_ Hy]%Huse; by apply (D dev n)].
  intros x Hx. destruct (decide (x = ip)) as [->|Hne]; [split; rewrite Ei; try done; lia|].
  destruct (C x Hx) as [C1 C2 C3 C4]. split; rewrite ?Eo by done; try done.
  - intros H1 H2 H3. rewrite Ho; [by apply C3|by apply C4|]. intros E. apply Hne. by apply (D t_dev j).
  - intros H1 H2. destruct (C4 H1 H2) as [T1 T2]. unfold in_table. rewrite Hsb, Ho; [done|done|]. intros E. apply Hne. by apply (D t_dev j).
Qed.

Lemma fwp_iput_free v ip j fuel (Q : unit -> fsys txv -> Prop) : calm [] v -> in_use v t_dev j ip -> i_ref (inodes v ip) = 1 -> i_valid (inodes v ip) = true ->
  di_nlink (inode_at v j) = 0 -> space_ok v -> bitmap_space 2 v ->
  (forall v', only_inode j v v' -> inode_at v' j = emptied_inode (inode_at v j) -> (forall k b, owns v (inode_at v) j k b -> blk_free v' b = true) ->
     calm [] v' -> i_ref (inodes v' ip) = 0 -> (forall x, x <> ip -> inodes v' x = inodes v x) -> Q tt v') ->
  fwp (iput pid ip fuel) Q v.
Proof.
  intros Hc Hu Hr Hv Hn Hok Hsp HQ. pose proof Hu as (U1 & U2 & U3 & U4). pose proof Hc as [Hlk Hh Hen Hon]. destruct (Hen ip U1) as [C1 C2 C3 C4].
  unfold lock_ok in C1. rewrite decide_False in C1 by set_solver. specialize (C3 ltac:(lia) U3 Hv). rewrite U4 in C3. destruct (C4 ltac:(lia) U3) as [T1 T2]. rewrite U4 in T1, T2.
  unfold iput. apply fwp_bind, fwp_ic_acquire; [done|]. apply fwp_bind, fwp_inode. cbn [inodes set_ic_lock]. rewrite Hr, Hv, C3, Hn. cbn [Z.eqb Pos.eqb andb].
  apply fwp_bind, fwp_bind, fwp_acquiresleep; [done|]. apply fwp_bind, fwp_ic_release; [done|]. unfold put_ilock. rewrite unlock_relock by done.
  set (v1 := set_inode ip _ v). assert (inodes v1 ip = with_lock (mk_sleeplock false true pid) (inodes v ip)) as E1 by apply inodes_set.
  apply fwp_bind. eapply fwp_mono; [|apply (fwp_itrunc v1 ip j); try done; [by apply (same_space v)|by rewrite E1..]].
  intros [] v2 (Htr & Hsp2). pose proof Htr as (S1 & S2 & S3 & S4 & S5 & S6 & S7 & S8). apply fwp_bind, fwp_upd. set (v3 := set_inode ip _ v2).
  assert (inodes v3 ip = with_d (with_type 0) (with_d (fun _ => inode_at v2 j) (inodes v1 ip))) as E3 by (unfold v3; by rewrite inodes_set, S5, fset_eq).
  assert (i_d (inodes v3 ip) = emptied_inode (inode_at v j)) as Ed3 by (rewrite E3; cbn [i_d with_d]; by rewrite S6).
  assert (unheld v2) as Hh2 by (unfold unheld; rewrite S4; apply Hh). assert (inum_ok (f_sb v3) j) as Hin3 by (unfold v3; cbn; by rewrite S2).
  apply fwp_bind, fwp_iupdate; [by rewrite E3, E1|by apply unheld_held|exact Hsp2|].
  match goal with |- fwp _ _ ?x => replace x with (put_dinode j (emptied_inode (inode_at v j)) v3) end.
  2: { unfold put_dinode, iblk, ioff. rewrite Ed3. assert (i_inum (inodes v3 ip) = j) as -> by (rewrite E3, E1; exact U4). done. }
  pose proof (put_dinode_space j (emptied_inode (inode_at v j)) v3 ltac:(by apply (same_space v2)) Hin3 (emptied_inode_ok _ (ac_dinode _ _ Hok j T1)) ltac:(by rewrite (same_inode_at v2 v3 j), S6)) as Hst.
  set (v4 := put_dinode j _ v3) in *. apply fwp_bind, fwp_upd. apply fwp_bind, fwp_releasesleep; [cbn; rewrite fset_eq; cbn; rewrite fset_eq, S5, fset_eq, E1; done|].
  set (v6 := put_ilock ip _ _). assert (ic_lock v6 = false) as Hlk6 by (unfold v6; cbn; by rewrite S3).
  apply fwp_ic_acquire; [done|]. apply fwp_bind, fwp_upd, fwp_ic_release; [done|]. rewrite unlock_relock by done. set (v7 := set_inode ip _ v6).
  assert (only_inode j v v4) as Ho4.
  { apply (only_trans j v v2); [destruct (only_truncated ip j v1 v2 Htr) as [A B C]; by split|]. apply (only_stored j (emptied_inode (inode_at v j))); [done|]. by apply (stored_same v2 v3). }
  assert (same_disk v4 v7) as Hs7 by done. pose proof (only_same j v v4 v7 Ho4 Hs7) as Ho7.
  assert (exists e, inodes v7 = fset (inodes v) ip e /\ i_lock e = mk_sleeplock false false 0 /\ i_ref e = 0) as (e & Ee & El & Er).
  { unfold v7, v6, v4, v3, put_ilock, set_inode. cbn. rewrite S5. unfold v1, set_inode. cbn. rewrite !fset_fset, !fset_eq. eexists. split; [done|]. cbn. by rewrite Hr. }
  apply HQ; try done.
  - rewrite (same_inode_at v4 v7 j Hs7). apply Hst.
  - intros k b Hb. assert (blk_free v7 b = blk_free v4 b) as -> by done. destruct (ac_range _ _ Hok j k b Hb) as [Hr1 _].
    pose proof (dstart_size _ (ac_sb _ _ Hok)) as Hds. unfold v4. rewrite blk_free_put; [|by apply (same_space v2)|done|change (f_sb v3) with (f_sb v2); rewrite S2; change (f_sb v1) with (f_sb v); lia].
    change (blk_free v3 b) with (blk_free v2 b). apply S7; [change (f_sb v1) with (f_sb v); lia|]. right. by exists k.
  - apply (calm_freed [] v v7 ip j e); try done.
    + unfold lock_ok. rewrite decide_False by set_solver. by rewrite El.
    + intros n H1 H2. by apply Ho7.
  - by rewrite Ee, fset_eq.
  - intros x Hx. by rewrite Ee, fset_ne.
Qed.

End Free.

(** ** The last steps: one link less *)

Definition dropped (d : dinode) : dinode := with_nlink (di_nlink d - 1) d.

(** What has become of inode [j]: it lost a link, and when that was the last
    and [free] the inode and its blocks are free. *)
Definition link_dropped (free : Prop) (j : Z) (v v' : fsys txv) : Prop :=
  let d := dropped (inode_at v j) in
  (~ (di_nlink d = 0 /\ free) /\ inode_at v' j = d /\ (forall k, slot v' d k = slot v (inode_at v j) k) /\
     forall k, 0 <= k < MAXFILE * BSIZE -> hbyte v' d k = hbyte v (inode_at v j) k) \/
  (di_nlink d = 0 /\ free /\ inode_at v' j = emptied_inode d /\ forall k b, owns v (inode_at v) j k b -> blk_free v' b = true).

Section Drop.

Context {X : Type} `{TX : TxLayer X}.

Context (pid : Z) (wakes : nat) (v0 : fsys txv) (Hmax : forall j, i_ref (inodes v0 j) < 2 ^ 30).

Local Notation calm := (calm pid).
Local Notation walked := (walked pid).

Lemma fwp_drop_link ip j u (Q : Z -> fsys txv -> Prop) : walked v0 u [ip] [ip] -> in_use u t_dev j ip -> i_valid (inodes u ip) = true -> i_d (inodes u ip) = inode_at u j ->
  space_ok u -> di_type (inode_at u j) <> 0 -> 1 <= di_nlink (inode_at u j) -> bitmap_space 3 u ->
  (forall v', only_inode j u v' -> calm [] v' -> refs v0 v' [] -> kept v0 v' -> link_dropped (i_ref (inodes u ip) = 1) j u v' -> Q 0 v') ->
  fwp (upd_inode ip (add_nlink (-1)) ;;; iupdate ip ;;; iunlockput pid ip wakes ;;; ret 0) Q u.
Proof.
  intros Hw Hu Hv Hd Hok Ht Hn Hsp HQ. pose proof Hu as (U1 & U2 & U3 & U4). pose proof (wl_calm _ _ _ _ _ Hw) as Hc.
  assert (inum_ok (f_sb u) j) as Hin by (rewrite <- U4; apply (cm_entry _ _ _ Hc ip U1); [lia|done]). pose proof (ac_dinode _ _ Hok j Hin) as Hdok.
  apply fwp_bind, fwp_upd. set (u1 := set_inode ip _ u). set (d1 := dropped (inode_at u j)).
  assert (short_ok (di_nlink d1)) as Hs by (pose proof (dk_nlink _ Hdok) as Hs; unfold short_ok in *; cbn [d1 dropped with_nlink di_nlink]; lia).
  assert (inodes u1 ip = with_d (fun _ => d1) (inodes u ip)) as E1.
  { unfold u1. rewrite inodes_set. unfold add_nlink, with_d, d1, dropped. rewrite Hd. f_equal. unfold with_nlink. f_equal. unfold short_ok in Hs. change (di_nlink d1) with (di_nlink (inode_at u j) - 1) in Hs.
    unfold s16. rewrite Z.mod_small; lia. }
  apply fwp_bind, fwp_iupdate; [by rewrite E1|by apply unheld_held, Hc|apply bitmap_space_space; eapply bitmap_space_mono; [|exact Hsp]; lia|].
  match goal with |- fwp _ _ ?x => replace x with (put_dinode j d1 u1) end.
  2: { unfold put_dinode, iblk, ioff. rewrite E1. cbn [i_d i_inum with_d]. by rewrite U4. }
  assert (dinode_ok d1) as Hd1 by (destruct Hdok; by split).
  pose proof (put_dinode_space j d1 u1 ltac:(by apply (same_space u)) Hin Hd1 eq_refl) as Hst. apply (stored_same u) in Hst; [|done].
  set (u2 := put_dinode j d1 u1) in *. assert (only_inode j u u2) as Ho2 by (by apply (only_stored j d1)).
  assert (calm [ip] u2) as Hc2.
  { apply (calm_update pid _ u u2 ip j (fun _ => d1)); try done; [apply Hc| |rewrite (st_at _ _ _ _ Hst); done|by rewrite (st_at _ _ _ _ Hst)|].
    - change (inodes u2) with (inodes u1). unfold u1, set_inode. cbn. f_equal. rewrite <- E1. unfold u1. by rewrite inodes_set.
    - intros x Hx Hne. by apply (st_other _ _ _ _ Hst). }
  pose proof (walked_rebase pid v0 u u2 [ip] [ip] Hw Hc2 eq_refl eq_refl) as Hw2. set (b := on_disk v0 u2) in *.
  assert (walked b u2 [ip] [ip]) as Hwb.
  { apply Hw2. intros x. change (inodes u2) with (inodes u1). unfold u1, set_inode. cbn. unfold fset. by destruct (decide (x = ip)) as [->|]. }
  assert (inodes u2 ip = with_d (fun _ => d1) (inodes u ip)) as E2 by exact E1.
  apply fwp_bind. unfold iunlockput. apply fwp_bind, (fwp_iunlock_walk pid b Hmax u2 [] [ip]); [done|set_solver|done|rewrite E2; cbn; lia|].
  set (x := put_ilock ip _ u2). intros Hwx. assert (inodes x ip = with_lock (mk_sleeplock false false 0) (inodes u2 ip)) as Ex by apply inodes_set.
  assert (in_use x t_dev j ip) as Hux by (unfold in_use; rewrite Ex, E2; done). assert (same_disk u2 x) as Hsx by done.
  pose proof (only_same j u u2 x Ho2 Hsx) as Hox. assert (inode_at x j = d1) as Exj by (rewrite (same_inode_at u2 x j Hsx); apply Hst).
  destruct (decide (di_nlink d1 = 0 /\ i_ref (inodes u ip) = 1)) as [[H0 H1]|Hno].
  - apply (fwp_iput_free pid x ip j); try done; [apply Hwx|by rewrite Ex, E2|by rewrite Ex, E2|by rewrite Exj|apply Hox| |].
    { apply (bitmap_space_write 3 u x (IBLOCK j (f_sb u1)) (write_dinode (blk u1 (IBLOCK j (f_sb u1))) (DINODE_SIZE * (j mod IPB)) d1)); done. }
    intros v' Hov Ev Hfr Hcv Hr0 Hro. apply fwp_ret. pose proof (wl_refs _ _ _ _ _ Hwx) as Hrx. assert (i_ref (inodes v0 ip) = 0) as Hz.
    { specialize (Hrx ip). rewrite Ex, E2 in Hrx. cbn in Hrx. rewrite decide_True in Hrx by done. lia. }
    apply HQ; [by apply (only_trans j u x)|done|..].
    + intros y. cbn. destruct (decide (y = ip)) as [->|Hy]; [lia|]. rewrite Hro, (Hrx y) by done. cbn. rewrite decide_False by congruence. done.
    + intros y Hy. assert (y <> ip) as Hne by (intros ->; lia). rewrite Hro by done. by apply (wl_kept _ _ _ _ _ Hwx).
    + right. split; [done|]. split; [done|]. split; [by rewrite Ev, Exj|]. intros k bb (O1 & O2 & O3 & O4). apply (Hfr k). split; [done|]. split; [done|].
      split; [|done]. rewrite <- O3. change (slot u2 (inode_at u2 j) k = slot u (inode_at u j) k). by apply (st_slot _ _ _ _ Hst).
  - apply (fwp_iput_walk pid b Hmax x [] [] ip j); [done|cbn; lia|done| |].
    { intros H1. rewrite Ex, E2 in H1. cbn in H1. rewrite <- (same_inode_at b x j (wl_disk _ _ _ _ _ Hwx)), Exj. intros H0. by apply Hno. }
    intros v' Hwv _ Ev. apply fwp_ret. assert (same_disk x v') as Hsv by (by rewrite Ev). pose proof (only_same j u x v' Hox Hsv) as Hov.
    apply HQ; [done|apply Hwv|exact (wl_refs _ _ _ _ _ Hwv)|exact (wl_kept _ _ _ _ _ Hwv)|]. left. split; [done|]. split; [by rewrite (same_inode_at x v' j Hsv)|].
    pose proof (st_slot _ _ _ _ Hst j) as Hsl. pose proof (st_byte _ _ _ _ Hst j) as Hby. rewrite (st_at _ _ _ _ Hst) in Hsl, Hby. split.
    + intros k. rewrite <- (Hsl k Hin). rewrite Ev. done.
    + intros k Hk. rewrite <- (Hby k Hin Hk). rewrite Ev. done.
Qed.

End Drop.

(** ** The whole call *)

(** A directory has a name once, and a file with one link has one name. *)
Definition names_ok (v : fsys txv) : Prop :=
  forall i c k k', live v i -> di_type (inode_at v i) = T_DIR -> 0 <= k < di_size (inode_at v i) / DIRENT_SIZE -> 0 <= k' < di_size (inode_at v i) / DIRENT_SIZE ->
    entry_named v (inode_at v i) c k = true -> entry_named v (inode_at v i) c k' = true -> k = k'.

Definition links_ok (v : fsys txv) : Prop :=
  forall j, live v j -> di_type (inode_at v j) <> T_DIR -> 1 <= di_nlink (inode_at v j) /\
    (di_nlink (inode_at v j) = 1 -> forall i k i' k', names v i k j -> names v i' k' j -> i = i' /\ k = k').

(** The same disk under another cache. *)
Lemma removed_base i c j d v0 v v' : same_disk v0 v -> removed i c j d v v' -> removed i c j d v0 v'.
Proof.
  destruct v0 as [f0 s0 l0 m0], v as [f s l m]. intros (E1 & E2 & E3) [R1 R2 R3 R4 R5 R6 R7 R8 R9]. cbn in E1, E2, E3. subst f s l.
  split; [exact R1|exact R2|exact R3|exact R4|exact R5|exact R6|exact R7|exact R8|exact R9].
Qed.

Lemma dropped_base F j v0 v v' : same_disk v0 v -> link_dropped F j v v' -> link_dropped F j v0 v'.
Proof. destruct v0 as [f0 s0 l0 m0], v as [f s l m]. intros (E1 & E2 & E3). cbn in E1, E2, E3. subst f s l. exact id. Qed.

Lemma dropped_iff (F F' : Prop) j v v' : (F <-> F') -> link_dropped F j v v' -> link_dropped F' j v v'.
Proof. unfold link_dropped. tauto. Qed.

(** Statements about the disk alone. *)
Lemma same_names v v' : same_disk v v' -> (spare_ok v -> spare_ok v') /\ (forall x, live v x -> live v' x) /\ (forall i k j, names v' i k j -> names v i k j) /\
  (forall x, inode_at v' x = inode_at v x) /\ (forall d k, dent v' d k = dent v d k) /\ (forall d c k, entry_named v' d c k = entry_named v d c k).
Proof. destruct v as [f s l m], v' as [f' s' l' m']. intros (E1 & E2 & E3). cbn in E1, E2, E3. subst f' s' l'. split_and!; done. Qed.

(** Inode [j] after a write to another inode. *)
Lemma dropped_before F j v w v' : f_sb w = f_sb v -> inode_at w j = inode_at v j -> (forall k, slot w (inode_at w j) k = slot v (inode_at v j) k) ->
  (forall k, 0 <= k < MAXFILE * BSIZE -> hbyte w (inode_at w j) k = hbyte v (inode_at v j) k) -> link_dropped F j w v' -> link_dropped F j v v'.
Proof.
  intros Hsb Ej Hs Hh. unfold link_dropped. rewrite Ej. intros [(A & B & C & D)|(A & B & C & D)]; [left|right]; split_and!; try done.
  - intros k. rewrite C, <- Hs. by rewrite Ej.
  - intros k Hk. rewrite D, <- Hh by done. by rewrite Ej.
  - intros k b (O1 & O2 & O3 & O4). apply (D k b). split; [by rewrite Hsb|]. split; [done|]. split; [by rewrite Hs|done].
Qed.

Section Unlink.

Context {X : Type} `{TX : TxLayer X}.

Context (pid : Z) (wakes : nat).

Local Notation calm := (calm pid).
Local Notation walked := (walked pid).

Context (v0 : fsys txv) (Hcalm : calm [] v0) (Hmax : forall j, i_ref (inodes v0 j) < 2 ^ 30).
Context (Hok : space_ok v0) (Htree : tree_ok v0) (Hspare : spare_ok v0) (Hnames : names_ok v0) (Hlinks : links_ok v0) (Hsp : bitmap_space 5 v0).
Context (Hroom : exists j j', j <> j' /\ in_cache j /\ in_cache j' /\ i_ref (inodes v0 j) = 0 /\ i_ref (inodes v0 j') = 0).

(** The name [c] of file [j] is removed from directory [i]. *)
Definition unlinked (i : Z) (c : list byte) (j : Z) (v' : fsys txv) : Prop :=
  exists d, removed i c j d v0 v' /\ link_dropped (forall e, ~ in_use v0 t_dev j e) j v0 v' /\ calm [] v' /\ refs v0 v' [] /\ kept v0 v'.

Lemma fwp_unlink_found dp i ip j k c v (Q : Z -> fsys txv -> Prop) : walked v0 v [ip; dp] [ip; dp] -> in_use v t_dev i dp -> in_use v t_dev j ip ->
  i_d (inodes v dp) = inode_at v0 i -> i_d (inodes v ip) = inode_at v0 j -> i_valid (inodes v ip) = true ->
  live v0 i -> di_type (inode_at v0 i) = T_DIR -> di_type (inode_at v0 j) <> T_DIR ->
  0 <= k < di_size (inode_at v0 i) / DIRENT_SIZE -> entry_named v0 (inode_at v0 i) c k = true -> de_inum (dent v0 (inode_at v0 i) k) = j ->
  (forall v', unlinked i c j v' -> Q 0 v') ->
  fwp (w <- writei dp (kernel_src (replicate (Z.to_nat DIRENT_SIZE) Byte.x00)) 0 (DIRENT_SIZE * k) DIRENT_SIZE ;;
       if negb (w =? DIRENT_SIZE) then panic "unlink: writei" else
       i <- inode_of ip ;;
       (if di_type (i_d i) =? T_DIR then upd_inode dp (add_nlink (-1)) ;;; iupdate dp else ret tt) ;;;
       iunlockput pid dp wakes ;;;
       upd_inode ip (add_nlink (-1)) ;;;
       iupdate ip ;;;
       iunlockput pid ip wakes ;;;
       ret 0) Q v.
Proof.
  intros Hw Hud Hu Edp Eip Hv Hli Hti Htj Hk Hc Hj HQ. pose proof Hw as [W1 W2 W3 W4]. pose proof W2 as (A1 & A2 & A3). pose proof Hu as (U1 & U2 & U3 & U4). pose proof Hud as (D1 & D2 & D3 & D4).
  assert (live v0 j) as Hlj.
  { rewrite <- Hj. apply (do_live _ _ (Htree i Hli Hti) k Hk). unfold entry_named in Hc. apply andb_true_iff in Hc as [E _]. by apply negb_true_iff, Z.eqb_neq in E. }
  destruct (Hlinks j Hlj Htj) as [Hn1 Hone]. assert (ip <> dp) as Hne by congruence. assert (i <> j) as Hij by congruence.
  destruct (do_size _ _ (Htree i Hli Hti)) as [Hmod Hsz].
  pose proof (walk_cached pid v0 Htree v _ _ dp i Hw Hud Edp Hli Hti) as Hca. pose proof (same_space v0 Hok v W2) as Hokv.
  assert (bitmap_space 5 v) as Hspv by (by apply (bitmap_space_same 5 v0)). assert (space 3 v) as Hsp3 by (apply bitmap_space_space; eapply bitmap_space_mono; [|exact Hspv]; lia).
  apply fwp_bind. eapply fwp_mono; [|apply (fwp_writei_inplace dp i (kernel_src zero_entry) 0 zero_entry (DIRENT_SIZE * k) v); try done].
  2: { by apply copies_kernel. }
  2: { apply W1. }
  2: { unfold DIRENT_SIZE. lia. }
  2: { rewrite (same_inode_at v0 v i W2). change (Z.of_nat (length zero_entry)) with DIRENT_SIZE. unfold DIRENT_SIZE in *. divlia. }
  2: { change (Z.of_nat (length zero_entry)) with 16. unfold DIRENT_SIZE, BSIZE. divlia. }
  intros r w (-> & Hwd & b1 & e1 & b2 & e2 & Efx). change (Z.of_nat (length zero_entry) =? DIRENT_SIZE) with true. cbn [negb].
  assert (on_disk v0 v = v0) as Eod by (unfold on_disk; rewrite A1; by destruct v0).
  destruct (walked_write pid v0 v w [ip; dp] [ip; dp] dp i zero_entry (DIRENT_SIZE * k)) as [Ew Hw1]; [done|by rewrite Eod|done| |done|].
  { rewrite (same_inode_at v0 v i W2), Hti. done. }
  pose proof Hwd as (S1 & S2 & _ & S4 & _ & _ & _ & S8 & S9 & _ & _ & _ & S13). set (b := on_disk v0 w) in *.
  assert (inodes w ip = inodes v ip) as Ewi by (by rewrite Ew, fset_ne). apply fwp_bind, fwp_inode. rewrite Ewi, Eip, (proj2 (Z.eqb_neq _ _) Htj). apply fwp_bind, fwp_ret.
  assert (walked b w [dp; ip] [dp; ip]) as Hw1'.
  { destruct Hw1 as [B1 B2 B3 B4]. split; [by apply (calm_perm pid [ip; dp]); [set_solver|]|done| |done]. intros x. rewrite B3. cbn. lia. }
  assert (same_disk b w) as Hsbw by apply Hw1. assert (inum_ok (f_sb v) i /\ inum_ok (f_sb v) j) as [Hini Hinj] by (rewrite A2; split; [apply Hli|apply Hlj]).
  destruct (S13 j Hinj ltac:(done)) as (Ewj & Ewh & Ews). rewrite (same_inode_at v0 v j W2) in Ewj.
  apply fwp_bind, (fwp_iunlockput_walk pid b Hmax w [ip] [dp; ip] dp i); [done|set_solver|done|cbn; lia|unfold in_use; by rewrite Ew, fset_eq| |].
  { rewrite (same_inode_at v0 v i W2) in S8, S9. unfold live, in_table. rewrite <- (same_inode_at b w i Hsbw), S8, S9. exact Hli. }
  intros u Hwu Hou _. cbn [List.tl] in Hwu. assert (inodes u ip = inodes v ip) as Eui by (by rewrite Hou). pose proof (wl_disk _ _ _ _ _ Hwu) as Hsbu.
  assert (same_disk w u) as Hswu by (destruct Hsbw as (B1 & B2 & B3), Hsbu as (C1 & C2 & C3); split_and!; congruence).
  assert (inode_at u j = inode_at v0 j) as Euj by (by rewrite (same_inode_at w u j Hswu)).
  apply (fwp_drop_link pid wakes b Hmax ip j u); [done|unfold in_use; by rewrite Eui|by rewrite Eui|by rewrite Eui, Eip, Euj|by apply (same_space w)|rewrite Euj; apply Hlj|by rewrite Euj| |].
  { apply (bitmap_space_same 3 w); [apply Hswu|apply Hswu|]. apply (bitmap_space_write 4 (set_fx (v_write b1 e1 (fx v)) v) w b2 e2); [exact Efx|exact S2|].
    by apply (bitmap_space_write 5 v _ b1 e1). }
  intros v' Hov Hcv Hrv Hkv Hdr.
  assert (only_inode j w v') as Howv.
  { destruct Hov as [O1 O2 O3]. destruct Hswu as (F1 & F2 & F3). split; [done|congruence|]. intros x Hx Hxj. destruct (O3 x ltac:(by rewrite F2) Hxj) as (G1 & G2 & G3).
    assert (inode_at u x = inode_at w x) as Eux by (by apply same_inode_at). rewrite Eux in *. split_and!; [done|..].
    - intros m. rewrite G2. unfold slot, blk. by rewrite F1.
    - intros m Hm. rewrite G3 by done. unfold hbyte, slot, blk. by rewrite F1. }
  assert (i_ref (inodes u ip) = 1 <-> forall e, ~ in_use v0 t_dev j e) as Hfree.
  { assert (i_ref (inodes u ip) = i_ref (inodes v0 ip) + 1) as -> by (rewrite Eui, W3; cbn; rewrite decide_True, decide_False by done; lia). split.
    - intros H e He. pose proof He as (E1 & E2 & E3 & E4). destruct (W4 e ltac:(lia)) as [K1 K2]. assert (e = ip) as ->; [|lia].
      apply (cm_once _ _ _ W1 t_dev j); [|done]. unfold in_use. rewrite K1, K2, W3. pose proof (times_nonneg e [ip; dp]). split_and!; try done. lia.
    - intros H. pose proof (en_ref _ _ _ _ (cm_entry _ _ _ Hcalm ip U1)). destruct (decide (i_ref (inodes v0 ip) = 0)) as [->|]; [done|].
      destruct (W4 ip ltac:(lia)) as [K1 K2]. destruct (H ip). unfold in_use. rewrite <- K1, <- K2. split_and!; try done. lia. }
  apply (dropped_iff _ _ _ _ _ Hfree), (dropped_base _ _ w u _ Hswu) in Hdr.
  apply (dropped_before _ _ v w) in Hdr; [|done|by rewrite Ewj, (same_inode_at v0 v j W2)|done|done]. apply (dropped_base _ _ v0 v _ W2) in Hdr.
  apply HQ. exists (inode_at v' j). split; [|by split_and!]. apply (removed_base _ _ _ _ v0 v v' W2).
  destruct (same_names v0 v W2) as (N1 & N2 & N3 & N4 & N5 & N6).
  apply (removed_by_unlink dp i k j c (inode_at v' j) v w v'); try done; rewrite ?N4, ?N5, ?N6; try done.
  - by apply (tree_ok_same v0).
  - by apply N1.
  - by apply N2.
  - intros k' Hk'. rewrite N6. intros Hc'. by apply (Hnames i c).
  - destruct Hdr as [(_ & -> & _)|(_ & _ & -> & _)]; [exact Htj|done].
  - destruct Hdr as [(_ & -> & _)|(_ & _ & -> & _)]; [|done]. intros H0. by destruct (proj2 (proj1 Hlj)).
  - destruct (decide (di_nlink (inode_at v0 j) = 1)) as [E|E].
    + right. intros i' k' Hn%N3. apply (Hone E i' k' i k); [done|]. done.
    + left. destruct Hdr as [(_ & Ej & _)|(H0 & _)]; [|change (di_nlink (inode_at v0 j) - 1 = 0) in H0; lia].
      unfold live, in_table. rewrite Ej, (oi_sb _ _ _ Howv), S2. change (di_nlink (dropped (inode_at v0 j))) with (di_nlink (inode_at v0 j) - 1).
      split; [|lia]. split; [done|]. apply Hlj.
Qed.

Definition is_dots (c : list byte) : bool := bool_decide (c = dot) || bool_decide (c = dotdot).

Lemma namecmp_dots name : (namecmp name (of_list dot) =? 0) || (namecmp name (of_list dotdot) =? 0) = is_dots (cname name (Z.to_nat DIRSIZ)).
Proof.
  assert (forall l, (namecmp name (of_list l) =? 0) = bool_decide (cname name (Z.to_nat DIRSIZ) = cname (of_list l) (Z.to_nat DIRSIZ))) as H.
  { intros l. unfold namecmp, strncmp. apply Bool.eq_iff_eq_true. rewrite Z.eqb_eq, strncmp_cname, bool_decide_eq_true. done. }
  by rewrite !H.
Qed.

Definition unlinked_as (start : Z) (path_names : list (list byte)) (r : Z) (v' : fsys txv) : Prop :=
  match resolve_parent v0 start path_names with
  | None => r = -1 /\ walked v0 v' [] []
  | Some (i, c) =>
      if is_dots c then r = -1 /\ walked v0 v' [] [] else
      match dir_find v0 (inode_at v0 i) c with
      | None => r = -1 /\ walked v0 v' [] []
      | Some j => r = 0 /\ unlinked i c j v'
      end
  end.

Lemma fwp_unlink_bad v dp i (Q : Z -> fsys txv -> Prop) : walked v0 v [dp] [dp] -> in_use v t_dev i dp -> live v0 i ->
  (forall v', walked v0 v' [] [] -> Q (-1) v') -> fwp (unlink_bad pid wakes dp) Q v.
Proof.
  intros Hw Hu Hl HQ. unfold unlink_bad. apply fwp_bind, (fwp_iunlockput_walk pid v0 Hmax v [] [dp] dp i); [done|set_solver|done|cbn; lia|done|done|].
  intros v' Hw' _ _. apply fwp_ret. by apply HQ.
Qed.

Lemma fwp_unlink_tx cwd namebuf path cino : Forall (fun c => c <> Byte.x00) path -> Z.of_nat (length namebuf) = DIRSIZ ->
  in_use v0 t_dev cino cwd -> live v0 cino -> live v0 ROOTINO -> t_dev = ROOTDEV ->
  let start := match path with c :: _ => if is_slash c then ROOTINO else cino | [] => cino end in
  (forall i c j, resolve_parent v0 start (components path) = Some (i, c) -> dir_find v0 (inode_at v0 i) c = Some j -> di_type (inode_at v0 j) <> T_DIR) ->
  fwp (unlink_tx pid cwd namebuf wakes path) (unlinked_as start (components path)) v0.
Proof.
  intros Hnz Hname Hu Hl Hr Hdev start Hfile. assert (space 1 v0) as Hsp1 by (apply bitmap_space_space; eapply bitmap_space_mono; [|exact Hsp]; lia).
  unfold unlink_tx. apply fwp_bind. unfold nameiparent.
  eapply fwp_mono; [|apply (fwp_namex pid v0 Hmax Hok Htree Hsp1 Hroom true wakes cwd path namebuf cino); done].
  intros r v (Ha & Hnm). fold start in Ha, Hnm. unfold unlinked_as. destruct (resolve_parent v0 start (components path)) as [[i c]|] eqn:Ep; cbn in Ha.
  2: { destruct Ha as [-> Hw]. by apply fwp_ret. }
  destruct Ha as (dp & Er & Hw & Hud & Hli). rewrite Er. destruct (Hnm i c eq_refl) as [Hcn _]. pose proof (resolve_parent_dir _ _ _ _ _ Ep) as Ht.
  apply fwp_bind, (fwp_ilock_walk pid v0 Hmax v [] [dp] dp i); [done|set_solver|done|apply Hli|done|]. set (v1 := ilocked pid dp v). intros Hw1 Hu1 Hv1 Ed1.
  pose proof Hu1 as (U1 & U2 & U3 & U4). pose proof (wl_disk _ _ _ _ _ Hw1) as Hs1. rewrite namecmp_dots, Hcn.
  destruct (is_dots c); [by apply (fwp_unlink_bad v1 dp i)|].
  destruct (walk_dir pid v0 Hok Htree v1 [dp] [dp] dp i Hw1 Hu1 Ed1 Hli Ht) as [N Hdir].
  apply fwp_bind. eapply fwp_mono; [|apply (fwp_dirlookup dp _ N (of_list (snd r)) v1 Hdir); [unfold space; destruct Hs1 as (-> & _); exact Hsp1|]].
  2: { apply (walk_room pid v0 Hroom v1 [dp] [dp] dp Hw1). intros j Hj. cbn. by rewrite decide_False. }
  intros lk v2 Hlk. apply (looked_up_disk v0 v1 dp _ (of_list (snd r))) in Hlk; [|apply Hs1|by rewrite U4]. rewrite U4 in Hlk.
  destruct lk as [[ip off]|].
  2: { destruct Hlk as [-> Hn]. rewrite (dir_find_none v0 _ _ _ Hcn Hn). by apply (fwp_unlink_bad v1 dp i). }
  destruct Hlk as (k & Hk & Hm & Hn & Hg & ->). pose proof (dir_find_first v0 _ _ _ k Hcn Hk Hm Hn) as Hfind. rewrite Hfind. specialize (Hfile i c _ eq_refl Hfind).
  pose proof (do_live _ _ (Htree i Hli Ht) k Hk (proj1 Hm)) as Hlive. set (j := de_inum (dent v0 (inode_at v0 i) k)) in *.
  destruct (walk_gotten pid v0 Hmax v1 [dp] [dp] j ip v2 Hw1 ltac:(cbn; lia) (proj1 Hlive) Hg) as (Hw2 & Hu2 & Ho2 & Hk2).
  assert (ip <> dp) as Hne by (intros ->; destruct (Hk2 _ _ _ Hu1) as (_ & _ & _ & E), Hu2 as (_ & _ & _ & E'); congruence).
  apply fwp_bind, (fwp_ilock_walk pid v0 Hmax v2 [dp] [ip; dp] ip j); [done|set_solver|done|apply Hlive|done|]. set (v3 := ilocked pid ip v2). intros Hw3 Hu3 Hv3 Ed3.
  assert (inodes v3 dp = inodes v1 dp) as E3 by (unfold v3, ilocked; cbn; rewrite fset_ne by congruence; by rewrite Ho2 by congruence).
  apply fwp_bind, fwp_inode. rewrite Ed3. destruct (Hlinks j Hlive Hfile) as [Hn1 _]. destruct (Z.ltb_spec (di_nlink (inode_at v0 j)) 1); [lia|].
  rewrite (proj2 (Z.eqb_neq _ _) Hfile). apply fwp_bind, fwp_ret. cbn [negb].
  apply (fwp_unlink_found dp i ip j k c v3); try done; [unfold in_use; by rewrite E3|by rewrite E3|by eapply entry_dmatch].
Qed.

End Unlink.

(** [C10] [unlink] of a file or device: on a well-formed file system, when two
    entries of the inode cache are free and the log has room for one
    operation, it terminates without a panic.  Where the path has no such directory or name,
    or the name is "." or "..", it returns -1 and nothing has changed.
    Otherwise it returns 0 and the name is gone: every other name of the
    directory, every other inode and its contents are as before, the tree and
    the accounting of the blocks are well formed, and the inode has one link
    less.  When that was its last link and no cache entry refers to it, the
    inode is free and all its blocks are; while somebody has it open, it stays
    with its contents.  On every branch the locks and references are as
    before. *)
Theorem unlink_removes_name {X : Type} `{TX : TxLayer X} (pid : Z) (s : fsys X) (v : fsys txv) (cwd cino : Z) (path namebuf : list byte) (wakes : nat)
  (Hs : fs_rep s v) (Hc : calm pid [] v) (Hmax : forall j, i_ref (inodes v j) < 2 ^ 30) (Hok : space_ok v) (Htree : tree_ok v) (Hspare : spare_ok v)
  (Hnames : names_ok v) (Hlinks : links_ok v) (Hsp : bitmap_space 5 v)
  (Hroom : exists j j', j <> j' /\ in_cache j /\ in_cache j' /\ i_ref (inodes v j) = 0 /\ i_ref (inodes v j') = 0)
  (Hnz : Forall (fun c => c <> Byte.x00) path) (Hname : Z.of_nat (length namebuf) = DIRSIZ)
  (Hcwd : in_use v t_dev cino cwd) (Hl : live v cino) (Hr : live v ROOTINO) (Hdev : t_dev = ROOTDEV) :
  let start := match path with c :: _ => if is_slash c then ROOTINO else cino | [] => cino end in
  (forall i c j, resolve_parent v start (components path) = Some (i, c) -> dir_find v (inode_at v i) c = Some j -> di_type (inode_at v j) <> T_DIR) ->
  exists r s' v', unlink_tx pid cwd namebuf wakes path s = Done r s' /\ fs_rep s' v' /\
    match resolve_parent v start (components path) with
    | None => r = -1 /\ walked pid v v' [] []
    | Some (i, c) =>
        if is_dots c then r = -1 /\ walked pid v v' [] [] else
        match dir_find v (inode_at v i) c with
        | None => r = -1 /\ walked pid v v' [] []
        | Some j => r = 0 /\ exists d, removed i c j d v v' /\ link_dropped (forall e, ~ in_use v t_dev j e) j v v' /\
            calm pid [] v' /\ refs v v' [] /\ kept v v'
        end
    end.
Proof.
  intros start Hfile. destruct (fwp_unlink_tx pid wakes v Hc Hmax Hok Htree Hspare Hnames Hlinks Hsp Hroom cwd namebuf path cino
    Hnz Hname Hcwd Hl Hr Hdev Hfile s Hs) as (r & s' & v' & E & R & H). by exists r, s', v'.
Qed.
