(* ===== verification/FsUnlinkDemo.v ===== *)
(** * Removing a file on a concrete disk

    The theorem of FsUnlink.v at a disk whose root directory holds "." and the
    file "a" of one block, which is removed with its inode. *)

From S2P Require Import Prelude CMem Riscv Sleeplock BlockLayer Bio Log LogBio Tx Fs FsBlocks FsInode FsFile FsDir FsDemo FsSpace FsGrow FsTrunc FsPath FsSpaceDemo FsLink Sysfile FsCreate FsCreateDemo FsUnlink.

#[local] Instance unlink_cache : BlockLayer bio := bio_layer the_pid.

Definition file_dinode : dinode := mk_dinode T_FILE 0 0 1 5 (47 :: replicate 12 0).

(** Blocks 0 to 47 are in use. *)
Definition busy_disk (b : Z) : block :=
  if b =? 32 then write_dinode (write_dinode zero_block 64 root_dinode) 128 file_dinode
  else if b =? 45 then bitmap_block
  else if b =? 46 then map byte.of_Z ([1; 0; 46] ++ replicate 13 0 ++ [2; 0; 97]) ++ replicate 1005 Byte.x00
  else zdisk b.

Definition busy_fs : fsys (@lstate bio) := mk_fsys (mk_lstate demo_log (boot busy_disk)) demo_sb false idle_inodes.
Definition busy_view : fsys txv := mk_fsys (mk_txv busy_disk ∅ ∅ ∅) demo_sb false idle_inodes.

Lemma busy_dirs : inode_at busy_view 1 = root_dinode /\ inode_at busy_view 2 = file_dinode.
Proof. vm_compute. done. Qed.

(** ** The blocks *)

Definition busy_slot (inum k : Z) : Z := if k =? 0 then if inum =? 1 then 46 else if inum =? 2 then 47 else 0 else 0.
Definition busy_row (inum : Z) : bool := let d := inode_at busy_view inum in forallb (fun k => slot busy_view d k =? busy_slot inum k) (seqZ 0 NSLOT).
Definition busy_block (b : Z) : bool := Bool.eqb (blk_free busy_view b) (48 <=? b) && (Z.of_nat (length (blk busy_view b)) =? BSIZE).

Lemma busy_rows : forallb busy_row (seqZ 0 16) = true.
Proof. vm_compute. reflexivity. Qed.

Lemma busy_blocks : forallb busy_block (seqZ 0 64) = true.
Proof. vm_compute. reflexivity. Qed.

Lemma busy_bit b : 0 <= b < 64 -> blk_free busy_view b = (48 <=? b) /\ Z.of_nat (length (blk busy_view b)) = BSIZE.
Proof.
  intros Hb. pose proof (forallb_range busy_block 0 64 b busy_blocks ltac:(lia)) as H. unfold busy_block in H.
  apply andb_true_iff in H as [H1%Bool.eqb_prop H2%Z.eqb_eq]. done.
Qed.

Lemma busy_owner inum k b : owns busy_view (inode_at busy_view) inum k b <-> (inum = 1 /\ k = 0 /\ b = 46) \/ (inum = 2 /\ k = 0 /\ b = 47).
Proof.
  assert (forall inum k, 0 <= inum < 16 -> slot_ok k -> slot busy_view (inode_at busy_view inum) k = busy_slot inum k) as Hs.
  { intros m q Hm Hq. pose proof (forallb_range busy_row 0 16 m busy_rows ltac:(lia)) as H. unfold busy_row in H. cbv zeta in H.
    apply (forallb_range _ 0 NSLOT q) in H; [by apply Z.eqb_eq|unfold slot_ok in Hq; lia]. }
  unfold owns. change (inum_ok (f_sb busy_view) inum) with (0 <= inum < 16). split.
  - intros (Hi & Hk & E & Hb). rewrite Hs in E by done. unfold busy_slot in E. destruct (Z.eqb_spec k 0), (Z.eqb_spec inum 1), (Z.eqb_spec inum 2); lia.
  - intros [(-> & -> & ->)|(-> & -> & ->)]; (split; [lia|]; split; [done|]; rewrite Hs by (done || lia); done).
Qed.

Lemma busy_ok : space_ok busy_view.
Proof.
  split; change (dstart (f_sb busy_view)) with 46; change (sb_size (f_sb busy_view)) with 64.
  - split; vm_compute; (split; congruence) || congruence.
  - intros b Hb. by apply busy_bit.
  - intros inum _. apply read_dinode_ok.
  - intros b Hb. destruct (busy_bit b) as [-> _]; [lia|]. apply Z.leb_gt. lia.
  - intros inum k b [(_ & _ & ->)|(_ & _ & ->)]%busy_owner; (split; [lia|vm_compute; reflexivity]).
  - intros inum k inum' k' b [(-> & -> & ->)|(-> & -> & ->)]%busy_owner [(-> & -> & E)|(-> & -> & E)]%busy_owner; done.
  - intros b Hb Hf. destruct (busy_bit b) as [E _]; [lia|]. rewrite E in Hf. apply Z.leb_gt in Hf.
    assert (b = 46 \/ b = 47) as [-> | ->] by lia; [exists 1, 0|exists 2, 0]; apply busy_owner; tauto.
Qed.

(** ** The names *)

Lemma busy_live inum : live busy_view inum -> inum = 1 \/ inum = 2.
Proof.
  intros [[[H1 H2] Ht] _]. assert (forallb (fun i => (i =? 1) || (i =? 2) || (di_type (inode_at busy_view i) =? 0)) (seqZ 0 16) = true) as H by (vm_compute; reflexivity).
  pose proof (forallb_range _ 0 16 inum H ltac:(split; [exact H1|exact H2])) as H3. apply orb_true_iff in H3 as [H3|H3%Z.eqb_eq]; [|contradiction].
  apply orb_true_iff in H3 as [H3%Z.eqb_eq|H3%Z.eqb_eq]; [by left|by right].
Qed.

Lemma busy_root : live busy_view 1 /\ live busy_view 2.
Proof. repeat split; vm_compute; congruence. Qed.

Lemma busy_dir i : live busy_view i -> di_type (inode_at busy_view i) = T_DIR -> i = 1.
Proof. intros [-> | ->]%busy_live; [done|]. rewrite (proj2 busy_dirs). discriminate. Qed.

Lemma busy_entry : de_inum (dent busy_view root_dinode 0) = 1 /\ de_inum (dent busy_view root_dinode 1) = 2 /\
  cname (of_list (de_name (dent busy_view root_dinode 0))) 14 = [Byte.x2e] /\ cname (of_list (de_name (dent busy_view root_dinode 1))) 14 = [Byte.x61].
Proof. vm_compute. done. Qed.

Lemma busy_tree : tree_ok busy_view.
Proof.
  intros inum Hl Ht. apply busy_dir in Hl as ->; [|done]. rewrite (proj1 busy_dirs). destruct busy_entry as (E0 & E1 & _). split.
  - vm_compute. split; [reflexivity|]. split; congruence.
  - intros bn _ Hbn _ Hlt. assert (bn = 0) as -> by (change (di_size root_dinode) with 32 in Hlt; unfold BSIZE in Hlt; lia). discriminate.
  - change (di_size root_dinode / DIRENT_SIZE) with 2. intros k Hk _. assert (k = 0 \/ k = 1) as [-> | ->] by lia; rewrite ?E0, ?E1; apply busy_root.
Qed.

Lemma busy_spare : spare_ok busy_view.
Proof.
  intros j Hj H0. assert (forallb (fun j => negb (di_type (inode_at busy_view j) =? 0) || bool_decide (di_addrs (inode_at busy_view j) = replicate (Z.to_nat (NDIRECT + 1)) 0))
    (seqZ 0 16) = true) as H by (vm_compute; reflexivity).
  apply (forallb_range _ 0 16 j) in H; [|exact Hj]. cbv beta in H. rewrite H0 in H. by apply bool_decide_eq_true in H.
Qed.

Lemma busy_names : names_ok busy_view.
Proof.
  intros i c k k' Hl Ht. apply busy_dir in Hl as ->; [|done]. rewrite (proj1 busy_dirs). change (di_size root_dinode / DIRENT_SIZE) with 2. intros Hk Hk'.
  unfold entry_named. rewrite !andb_true_iff, !bool_decide_eq_true. change (Z.to_nat DIRSIZ) with 14%nat. destruct busy_entry as (_ & _ & E0 & E1).
  assert (k = 0 \/ k = 1) as [-> | ->] by lia; assert (k' = 0 \/ k' = 1) as [-> | ->] by lia; rewrite ?E0, ?E1; intros [_ <-] [_ E]; done.
Qed.

Lemma busy_links : links_ok busy_view.
Proof.
  intros j [-> | ->]%busy_live; [rewrite (proj1 busy_dirs); by intros []|]. intros _. rewrite (proj2 busy_dirs). split; [done|]. intros _ i k i' k'.
  assert (forall i k, names busy_view i k 2 -> i = 1 /\ k = 1) as H.
  { clear. intros i k (Hl & Ht & Hk & E). apply busy_dir in Hl as ->; [|done]. rewrite (proj1 busy_dirs) in Hk, E. change (di_size root_dinode / DIRENT_SIZE) with 2 in Hk.
    split; [done|]. assert (k = 0 \/ k = 1) as [-> | ->] by lia; [|done]. rewrite (proj1 busy_entry) in E. discriminate. }
  intros [-> ->]%H [-> ->]%H. done.
Qed.

Lemma busy_calm : calm the_pid [] busy_view.
Proof.
  destruct idle_calm as [_ _ _ D]. split; [reflexivity|reflexivity| |exact D].
  intros j _. assert (inodes busy_view j = if j =? 0 then mk_inode ROOTDEV 1 1 initsleeplock true root_dinode else free_inode) as Ej by done.
  destruct (j =? 0); (split; rewrite Ej; [split; reflexivity|done|..]); [intros _ _ _; symmetry; apply busy_dirs|intros _ _; apply busy_root|intros H; discriminate H..].
Qed.

Lemma busy_space : bitmap_space 5 busy_view.
Proof. vm_compute. split; discriminate. Qed.

Lemma busy_path : resolve_parent busy_view ROOTINO (components slash_a) = Some (1, [Byte.x61]) /\ dir_find busy_view (inode_at busy_view 1) [Byte.x61] = Some 2.
Proof. vm_compute. done. Qed.

Lemma unlink_removes_name_witness : exists s' v', unlink_tx the_pid 0 (replicate 14 Byte.x00) 0 slash_a busy_fs = Done 0 s' /\ fs_rep s' v' /\
  dir_find v' (inode_at v' 1) [Byte.x61] = None /\ di_type (inode_at v' 2) = 0 /\ blk_free v' 47 = true.
Proof.
  destruct busy_path as [Hp Hf].
  destruct (unlink_removes_name the_pid busy_fs busy_view 0 1 slash_a (replicate 14 Byte.x00) 0 (clean_rep busy_disk idle_inodes) busy_calm idle_refs busy_ok busy_tree busy_spare
    busy_names busy_links busy_space
    ltac:(exists 3, 4; split; [lia|]; split; [vm_compute; split; congruence|]; split; [vm_compute; split; congruence|]; split; reflexivity)
    ltac:(repeat constructor; discriminate) eq_refl idle_cwd (proj1 busy_root) (proj1 busy_root) eq_refl) as (r & s' & v' & E & R & H).
  - intros i c j. change (match slash_a with c :: _ => if is_slash c then ROOTINO else 1 | [] => 1 end) with ROOTINO. rewrite Hp.
    intros [= <- <-]. rewrite Hf. intros [= <-]. rewrite (proj2 busy_dirs). discriminate.
  - change (match slash_a with c :: _ => if is_slash c then ROOTINO else 1 | [] => 1 end) with ROOTINO in H. rewrite Hp in H.
    change (is_dots [Byte.x61]) with false in H. cbn iota in H. rewrite Hf in H. destruct H as (-> & d & Hrm & Hdr & _).
    exists s', v'. split; [exact E|]. split; [exact R|]. split; [apply Hrm|]. destruct Hdr as [(Hno & _)|(_ & _ & Ej & Hb)].
    + exfalso. apply Hno. rewrite (proj2 busy_dirs). split; [reflexivity|]. intros e (_ & H1 & _ & H2). cbn in H1, H2. unfold idle_inodes in *.
      destruct (e =? 0); discriminate.
    + split; [rewrite Ej; reflexivity|]. apply (Hb 0 47). apply busy_owner. tauto.
Defined.
