(* ===== verification/Devices.v ===== *)
(** * Device registers: kernel/plic.c and kernel/uart.c

    The drivers over memory-mapped registers: [rd] and [wr] are what a load
    from and a store to a register do to the devices, which are hardware.
    The second half runs the serial driver against a serial port with a
    receive queue and a transmitter that is busy for a while. *)

From S2P Require Import Prelude Riscv.

(** Registers of the 16550 serial port, relative to [UART0]. *)
Definition RHR : Z := 0.
Definition THR : Z := 0.
Definition IER : Z := 1.
Definition FCR : Z := 2.
Definition LCR : Z := 3.
Definition LSR : Z := 5.

Section Drivers.

Context {D : Type} (rd : Z -> M D Z) (wr : Z -> Z -> M D unit).

(** ** plic.c; [hart] is [cpuid()] *)

Definition plicinit : M D unit :=
  wr (PLIC + UART0_IRQ * 4) 1 ;;;
  wr (PLIC + VIRTIO0_IRQ * 4) 1.

Definition plicinithart (hart : Z) : M D unit :=
  wr (PLIC_SENABLE hart) (Z.lor (Z.shiftl 1 UART0_IRQ) (Z.shiftl 1 VIRTIO0_IRQ)) ;;;
  wr (PLIC_SPRIORITY hart) 0.

Definition plic_pending : M D Z := rd PLIC_PENDING.

Definition plic_claim (hart : Z) : M D Z := irq <- rd (PLIC_SCLAIM hart) ;; ret (s32 irq).
Definition plic_complete (hart irq : Z) : M D unit := wr (PLIC_SCLAIM hart) (u32 irq).

(** ** uart.c *)

Definition ReadReg (reg : Z) : M D Z := rd (UART0 + reg).
Definition WriteReg (reg v : Z) : M D unit := wr (UART0 + reg) (u8 v).

Definition uartinit : M D unit :=
  WriteReg IER 0x00 ;;;
  WriteReg LCR 0x80 ;;;
  WriteReg 0 0x03 ;;;
  WriteReg 1 0x00 ;;;
  WriteReg LCR 0x03 ;;;
  WriteReg FCR 0x07 ;;;
  WriteReg IER 0x01.

(** The busy wait; [fuel] bounds its turns. *)
Fixpoint uart_wait (fuel : nat) : M D unit :=
  s <- ReadReg LSR ;;
  if Z.land s (Z.shiftl 1 5) =? 0 then match fuel with O => exhausted | S f => uart_wait f end
  else ret tt.
Definition uartputc (c : Z) (fuel : nat) : M D unit := uart_wait fuel ;;; WriteReg THR c.

Definition uartgetc : M D Z :=
  s <- ReadReg LSR ;;
  if negb (Z.land s 0x01 =? 0) then ReadReg RHR else ret (-1).

(** [fuel] bounds the characters handled by one interrupt. *)
Fixpoint uartintr {A} (consoleintr : Z -> M D (list A)) (fuel : nat) : M D (list A) :=
  c <- uartgetc ;;
  if c =? -1 then ret [] else
  match fuel with
  | O => exhausted
  | S f => a <- consoleintr c ;; r <- uartintr consoleintr f ;; ret (a ++ r)
  end.

End Drivers.

(** ** A serial port

    [rx] are the characters received and not yet read, [tx] those sent;
    [busy] is the number of polls until the transmitter is free. *)

Record port := mk_port { rx : list Z; txd : list Z; busy : nat }.

Definition lsr (p : port) : Z :=
  Z.lor (match rx p with [] => 0 | _ => 1 end) (match busy p with O => 32 | _ => 0 end).

Definition port_rd (delay : nat) (a : Z) : M port Z := fun p =>
  if a =? UART0 + LSR then Done (lsr p) (mk_port (rx p) (txd p) (Nat.pred (busy p)))
  else if a =? UART0 + RHR then Done (hd 0 (rx p)) (mk_port (tl (rx p)) (txd p) (busy p))
  else Done 0 p.
Definition port_wr (delay : nat) (a v : Z) : M port unit := fun p =>
  if a =? UART0 + THR then Done tt (mk_port (rx p) (txd p ++ [v]) delay) else Done tt p.

Section Port.

Context (delay : nat).

Lemma ReadReg_lsr p : ReadReg (port_rd delay) LSR p = Done (lsr p) (mk_port (rx p) (txd p) (Nat.pred (busy p))).
Proof. done. Qed.

Lemma lsr_bits p : (Z.land (lsr p) 0x01 =? 0) = (match rx p with [] => true | _ => false end) /\
                   (Z.land (lsr p) (Z.shiftl 1 5) =? 0) = (match busy p with O => false | _ => true end).
Proof. unfold lsr. by destruct (rx p), (busy p). Qed.

(** The transmitter becomes free, and the character is sent once. *)
Lemma uartputc_sends c fuel p : 0 <= c < 256 -> (busy p <= fuel)%nat ->
  uartputc (port_rd delay) (port_wr delay) c fuel p = Done tt (mk_port (rx p) (txd p ++ [c]) delay).
Proof.
  intros Hc. unfold uartputc. revert p. induction fuel as [|f IH]; intros p Hf; cbn [uart_wait].
  all: unfold bind at 1; unfold bind at 1; rewrite ReadReg_lsr; cbn [obind]; rewrite (proj2 (lsr_bits p)); destruct (busy p) as [|b] eqn:E.
  - unfold WriteReg, port_wr, ret. cbn. unfold u8. by rewrite Z.mod_small.
  - lia.
  - unfold WriteReg, port_wr, ret. cbn. unfold u8. by rewrite Z.mod_small.
  - specialize (IH (mk_port (rx p) (txd p) b)). cbn [busy rx txd] in IH. rewrite <- IH by lia. done.
Qed.

(** One interrupt hands every character received so far to the console, in
    the order of arrival. *)
Lemma uartintr_drains p fuel : Forall (fun c => 0 <= c < 256) (rx p) -> (length (rx p) <= fuel)%nat ->
  exists b, uartintr (port_rd delay) (fun c => ret [c]) fuel p = Done (rx p) (mk_port [] (txd p) b).
Proof.
  destruct p as [l t b]. cbn [rx txd busy]. intros Hl. revert b fuel. induction Hl as [|c l Hc Hl IH]; intros b fuel Hf.
  - exists (Nat.pred b). destruct fuel; cbn [uartintr]; unfold uartgetc, bind; rewrite ReadReg_lsr; cbn [obind];
      by rewrite (proj1 (lsr_bits _)).
  - destruct fuel as [|f]; [simpl in Hf; lia|]. destruct (IH (Nat.pred b) f) as [b' IHb]; [simpl in Hf; lia|]. exists b'.
    cbn [uartintr]. unfold uartgetc, bind. rewrite ReadReg_lsr. cbn [obind]. rewrite (proj1 (lsr_bits _)). cbn [rx txd busy negb].
    change (ReadReg (port_rd delay) RHR (mk_port (c :: l) t (Nat.pred b))) with (Done c (mk_port l t (Nat.pred b))). cbn [obind].
    rewrite (proj2 (Z.eqb_neq c (-1))) by lia. unfold ret at 1. cbn [obind]. by rewrite IHb.
Qed.

End Port.
