(* ===== verification/Trap.v ===== *)
(** * Traps and system call dispatch: kernel/trap.c and [syscall] of
    kernel/syscall.c

    The registers of the hart are part of the world (Syscall.v); a process that
    sleeps may wake up on another hart, so whatever runs meanwhile may change
    them.  The handlers of the devices are parameters: they act on the world
    and report the channels they wake (consoleintr is modelled in Console.v,
    virtio_disk_intr in Virtio.v, each over the state of its driver).  The
    return to user space is the jump to [userret] with its arguments. *)

From S2P Require Import Prelude Rely CMem Riscv Kalloc Vm BlockLayer Printf Proc Exec File Syscall Sysfile Devices.

Definition w_sstatus (x : Z) (h : hart) : hart := mk_hart x (sie h) (scause h) (sepc h) (stval h) (stvec h) (sip h) (satp h) (tp h).
Definition w_sie (x : Z) (h : hart) : hart := mk_hart (sstatus h) x (scause h) (sepc h) (stval h) (stvec h) (sip h) (satp h) (tp h).
Definition w_sepc (x : Z) (h : hart) : hart := mk_hart (sstatus h) (sie h) (scause h) x (stval h) (stvec h) (sip h) (satp h) (tp h).
Definition w_stvec (x : Z) (h : hart) : hart := mk_hart (sstatus h) (sie h) (scause h) (sepc h) (stval h) x (sip h) (satp h) (tp h).
Definition w_sip (x : Z) (h : hart) : hart := mk_hart (sstatus h) (sie h) (scause h) (sepc h) (stval h) (stvec h) x (satp h) (tp h).

(** Paging with the kernel's table; [sfence_vma] has no cache to flush here. *)
Definition kvminithart (kernel_pagetable : Z) (h : hart) : hart :=
  mk_hart (sstatus h) (sie h) (scause h) (sepc h) (stval h) (stvec h) (sip h) (MAKE_SATP kernel_pagetable) (tp h).

(** The hardware finds mode Sv39 in bits 60 to 63 and the page number of the
    root table in bits 0 to 43 of satp. *)
Lemma kvminithart_root pt h : 0 <= pt < 2 ^ 56 -> pt mod PGSIZE = 0 ->
  let r := satp (kvminithart pt h) in Z.shiftr r 60 = 8 /\ Z.shiftl (Z.land r (Z.ones 44)) 12 = pt.
Proof.
  intros Hpt Hal r. assert (Z.shiftr pt 12 = pt / 4096) as Es by (by rewrite Z.shiftr_div_pow2).
  assert (0 <= pt / 4096 < 2 ^ 44) as Hr by (change (2 ^ 56) with 72057594037927936 in *; change (2 ^ 44) with 17592186044416; divlia).
  assert (Z.land SATP_SV39 (pt / 4096) = 0) as Hd.
  { apply Z.bits_inj'. intros n Hn. rewrite Z.land_spec, Z.bits_0. change SATP_SV39 with (2 ^ 63). rewrite Z.pow2_bits_eqb by lia.
    destruct (Z.eqb_spec 63 n) as [<-|]; [|done]. rewrite <- (Z.mod_small (pt / 4096) (2 ^ 44)) by done. by rewrite Z.mod_pow2_bits_high. }
  assert (r = 2 ^ 63 + pt / 4096) as ->.
  { unfold r, kvminithart, MAKE_SATP. cbn [satp]. rewrite Es, <- Z.lxor_lor by done. symmetry. by apply Z.add_nocarry_lxor. }
  rewrite Z.shiftr_div_pow2, Z.land_ones, Z.shiftl_mul_pow2 by lia. change (2 ^ 63) with 9223372036854775808.
  change (2 ^ 60) with 1152921504606846976. change (2 ^ 44) with 17592186044416 in *. change (2 ^ 12) with 4096. unfold PGSIZE in *. split; divlia.
Qed.

Definition SIE_SEIE : Z := Z.shiftl 1 9.
Definition SIE_STIE : Z := Z.shiftl 1 5.
Definition SIE_SSIE : Z := Z.shiftl 1 1.

Definition intr_on (h : hart) : hart :=
  let h := w_sie (Z.lor (Z.lor (Z.lor (sie h) SIE_SEIE) SIE_STIE) SIE_SSIE) h in
  w_sstatus (Z.lor (sstatus h) SSTATUS_SIE) h.
(** [~] is the complement of the register, all 64 bits. *)
Definition intr_off (h : hart) : hart := w_sstatus (Z.land (sstatus h) (Z.lnot SSTATUS_SIE)) h.
Definition intr_get (h : hart) : bool := negb (Z.land (sstatus h) SSTATUS_SIE =? 0).

(** More of [struct trapframe]. *)
Definition tf_kernel_satp : Z := 0.
Definition tf_kernel_sp : Z := 8.
Definition tf_kernel_trap : Z := 16.
Definition tf_kernel_hartid : Z := 32.

(** What sets the processor running in user space: the address jumped to and
    its two arguments. *)
Record user_return := mk_user_return { ur_fn : Z; ur_trapframe : Z; ur_satp : Z }.

Section Trap.

Context {F : Type} `{FE : FileEnv F}.

Notation MW := (M (kst (world F))).
Notation MD := (M (kmem * world F)).

(** Hardware registers, and the handlers of the devices. *)
Context (rd : Z -> MD Z) (wr : Z -> Z -> MD unit).
Context (consoleintr : Z -> MD (list Z)) (virtio_disk_intr : MD (list Z)).

(** Linker symbols: [kernelvec], [usertrap], and the offsets of [uservec] and
    [userret] in the trampoline page. *)
Context (kernelvec usertrap_pc uservec_off userret_off : Z).

(** The system call table, the process, and the bound on characters per
    interrupt. *)
Context (table : Z -> option (MW Z)) (me : Z) (fuel : nat).

Definition reg (f : hart -> Z) : MW Z := gets (fun s => f (w_hart (files s))).
Definition upd_hart (f : hart -> hart) : MW unit := modify (fun s => set_files (set_hart (f (w_hart (files s))) (files s)) s).
Definition cpuid : MW Z := v <- reg tp ;; ret (s32 v).

(** [p->tf->... = v] *)
Definition set_tf (off v : Z) : MW unit :=
  p <- proc_of me ;; onk (modify_ram (fun m => store64 m (p_tf p + off) (u64 v))).

(** The states these leave. *)
Definition tf_stored (off v : Z) (s : kst (world F)) : kst (world F) :=
  set_km (mk_kmem (kmem_lock (km s)) (freelist (km s)) (store64 (ram (km s)) (p_tf (procs s me) + off) (u64 v))) s.
Definition hart_set (f : hart -> hart) (s : kst (world F)) : kst (world F) :=
  set_files (set_hart (f (w_hart (files s))) (files s)) s.

Lemma bind_set_tf {A} off v (k : unit -> MW A) s : bind (set_tf off v) k s = k tt (tf_stored off v s).
Proof. done. Qed.
Lemma bind_upd_hart {A} f (k : unit -> MW A) s : bind (upd_hart f) k s = k tt (hart_set f s).
Proof. done. Qed.
Lemma bind_reg {A} f (k : Z -> MW A) s : bind (reg f) k s = k (f (w_hart (files s))) s.
Proof. done. Qed.

Definition trapinit : MW unit := modify (tickslock_set false).
Definition trapinithart : MW unit := upd_hart (w_stvec kernelvec).

Definition clockintr : MW unit :=
  ticks_acquire ;;;
  modify (fun s => set_files (set_ticks (u32 (ticks (files s) + 1)) (files s)) s) ;;;
  wakeup ticks_chan ;;;
  ticks_release.

(** The channels a device woke. *)
Fixpoint wakeups (l : list Z) : MW unit :=
  match l with [] => ret tt | c :: l' => wakeup c ;;; wakeups l' end.

Definition devintr : MW Z :=
  cause <- reg scause ;;
  if negb (Z.land cause 0x8000000000000000 =? 0) && (Z.land cause 0xff =? 9) then
    hart <- cpuid ;;
    irq <- onf (plic_claim rd hart) ;;
    (if irq =? UART0_IRQ then l <- onf (uartintr rd consoleintr fuel) ;; wakeups l
     else if irq =? VIRTIO0_IRQ then l <- onf virtio_disk_intr ;; wakeups l
     else ret tt) ;;;
    hart <- cpuid ;;
    onf (plic_complete wr hart irq) ;;;
    ret 1
  else if cause =? 0x8000000000000001 then
    hart <- cpuid ;;
    (if hart =? 0 then clockintr else ret tt) ;;;
    upd_hart (fun h => w_sip (Z.land (sip h) (Z.lnot 2)) h) ;;;
    ret 2
  else ret 0.

Definition NELEM_syscalls : Z := 26.

Definition syscall : MW unit :=
  p <- proc_of me ;;
  num <- gets (fun s => s32 (load64 (ram (km s)) (p_tf p + tf_a7))) ;;
  match (if (num >? 0) && (num <? NELEM_syscalls) then table num else None) with
  | Some h => v <- h ;; set_tf tf_a0 v
  | None =>
      kprintf ("%d %s: unknown sys call %d" +:+ nl) [PInt (p_pid p); PStr (p_name p); PInt num] ;;;
      set_tf tf_a0 (-1)
  end.

Definition usertrapret : MW user_return :=
  upd_hart intr_off ;;;
  upd_hart (w_stvec (u64 (TRAMPOLINE + uservec_off))) ;;;
  satp <- reg satp ;;
  set_tf tf_kernel_satp satp ;;;
  p <- proc_of me ;;
  set_tf tf_kernel_sp (p_kstack p + PGSIZE) ;;;
  set_tf tf_kernel_trap usertrap_pc ;;;
  tp <- reg tp ;;
  set_tf tf_kernel_hartid tp ;;;
  x <- reg sstatus ;;
  let x := Z.land x (Z.lnot SSTATUS_SPP) in
  let x := Z.lor x SSTATUS_SPIE in
  upd_hart (w_sstatus x) ;;;
  epc <- gets (fun s => load64 (ram (km s)) (p_tf p + tf_epc)) ;;
  upd_hart (w_sepc epc) ;;;
  let satp := MAKE_SATP (p_pagetable p) in
  ret (mk_user_return (u64 (TRAMPOLINE + userret_off)) TRAPFRAME satp).

(** [exit(-1)] does not return; what follows it in the code is what would
    run if it did. *)
Definition exit_if_killed : MW unit :=
  p <- proc_of me ;;
  if p_killed p then exit me (-1) else ret tt.

(** The cause of the trap handled: 0, or what [devintr] returned. *)
Definition usertrap_cause : MW Z :=
  cause <- reg scause ;;
  if cause =? 8 then
    exit_if_killed ;;;
    p <- proc_of me ;;
    epc <- gets (fun s => load64 (ram (km s)) (p_tf p + tf_epc)) ;;
    set_tf tf_epc (epc + 4) ;;;
    upd_hart intr_on ;;;
    syscall ;;;
    ret 0
  else
    which_dev <- devintr ;;
    if negb (which_dev =? 0) then ret which_dev else
    p <- proc_of me ;;
    cause <- reg scause ;;
    kprintf ("usertrap(): unexpected scause %p pid=%d" +:+ nl) [PInt cause; PInt (p_pid p)] ;;;
    epc <- reg sepc ;;
    val <- reg stval ;;
    kprintf ("            sepc=%p stval=%p" +:+ nl) [PInt epc; PInt val] ;;;
    upd_proc me (set_killed true) ;;;
    ret 0.

Definition usertrap : MW user_return :=
  status <- reg sstatus ;;
  if negb (Z.land status SSTATUS_SPP =? 0) then panic "usertrap: not from user mode" else
  upd_hart (w_stvec kernelvec) ;;;
  epc <- reg sepc ;;
  set_tf tf_epc epc ;;;
  which_dev <- usertrap_cause ;;
  exit_if_killed ;;;
  (if which_dev =? 2 then yield me else ret tt) ;;;
  usertrapret.

(** [running] tells whether there is a process on this hart ([myproc() != 0]);
    it is [me]. *)
Definition kerneltrap (running : bool) : MW unit :=
  epc <- reg sepc ;;
  status <- reg sstatus ;;
  cause <- reg scause ;;
  if Z.land status SSTATUS_SPP =? 0 then panic "kerneltrap: not from supervisor mode" else
  h <- gets (fun s => w_hart (files s)) ;;
  if intr_get h then panic "kerneltrap: interrupts enabled" else
  which_dev <- devintr ;;
  if which_dev =? 0 then
    kprintf ("scause %p" +:+ nl) [PInt cause] ;;;
    e <- reg sepc ;;
    v <- reg stval ;;
    kprintf ("sepc=%p stval=%p" +:+ nl) [PInt e; PInt v] ;;;
    panic "kerneltrap"
  else
    p <- proc_of me ;;
    (if (which_dev =? 2) && running && st_eqb (p_state p) RUNNING then yield me else ret tt) ;;;
    upd_hart (w_sepc epc) ;;;
    upd_hart (w_sstatus status).

End Trap.

(** ** The system call table *)

(** kernel/syscall.h *)
Definition SYS_fork : Z := 1.
Definition SYS_exit : Z := 2.
Definition SYS_wait : Z := 3.
Definition SYS_pipe : Z := 4.
Definition SYS_read : Z := 5.
Definition SYS_kill : Z := 6.
Definition SYS_exec : Z := 7.
Definition SYS_fstat : Z := 8.
Definition SYS_chdir : Z := 9.
Definition SYS_dup : Z := 10.
Definition SYS_getpid : Z := 11.
Definition SYS_sbrk : Z := 12.
Definition SYS_sleep : Z := 13.
Definition SYS_uptime : Z := 14.
Definition SYS_open : Z := 15.
Definition SYS_write : Z := 16.
Definition SYS_mknod : Z := 17.
Definition SYS_unlink : Z := 18.
Definition SYS_link : Z := 19.
Definition SYS_mkdir : Z := 20.
Definition SYS_close : Z := 21.
Definition SYS_traceon : Z := 22.
Definition SYS_ps : Z := 23.
Definition SYS_suspend : Z := 24.
Definition SYS_resume : Z := 25.

Section Table.

Context {S : Type} `{BL : BlockLayer S} {D : Type}.
Context (kend trampoline forkret_pc : Z) (devs : Z -> devsw D) (me : Z) (wakes fuel : nat) (stack : list byte).

Notation FL := (fl (S := S) (D := D)).

#[local] Existing Instance the_env.
#[local] Instance my_env : FileEnv FL := the_env kend devs me wakes.

Definition syscalls (num : Z) : option (M (kst (world FL)) Z) :=
  if num =? SYS_fork then Some (sys_fork kend trampoline forkret_pc me fuel)
  else if num =? SYS_exit then Some (sys_exit me)
  else if num =? SYS_wait then Some (sys_wait kend me wakes fuel)
  else if num =? SYS_pipe then Some (sys_pipe kend me wakes fuel)
  else if num =? SYS_read then Some (sys_read devs me wakes fuel)
  else if num =? SYS_kill then Some (sys_kill me)
  else if num =? SYS_exec then Some (sys_exec kend trampoline devs me wakes fuel)
  else if num =? SYS_fstat then Some (sys_fstat me wakes fuel stack)
  else if num =? SYS_chdir then Some (sys_chdir me wakes fuel)
  else if num =? SYS_dup then Some (sys_dup me)
  else if num =? SYS_getpid then Some (sys_getpid me)
  else if num =? SYS_sbrk then Some (sys_sbrk kend me fuel)
  else if num =? SYS_sleep then Some (sys_sleep me wakes)
  else if num =? SYS_uptime then Some (sys_uptime me)
  else if num =? SYS_open then Some (sys_open kend me wakes fuel stack)
  else if num =? SYS_write then Some (sys_write devs me wakes fuel stack)
  else if num =? SYS_mknod then Some (sys_mknod me wakes fuel stack)
  else if num =? SYS_unlink then Some (sys_unlink me wakes fuel stack)
  else if num =? SYS_link then Some (sys_link me wakes fuel stack)
  else if num =? SYS_mkdir then Some (sys_mkdir me wakes fuel stack)
  else if num =? SYS_close then Some (sys_close kend me wakes)
  else if num =? SYS_traceon then Some (sys_traceon me)
  else if num =? SYS_ps then Some (sys_ps me fuel stack)
  else if num =? SYS_suspend then Some (sys_suspend kend devs me wakes fuel stack)
  else if num =? SYS_resume then Some (sys_resume kend trampoline me fuel)
  else None.

End Table.
