(* ===== verification/TrapInv.v ===== *)
(** * Every trap keeps the process table

    The processes of ProcInv.v entering the kernel through [usertrap], with any
    registers and any memory: system calls, device and timer interrupts and
    faults, in every interleaving. *)

From S2P Require Import Prelude Rely CMem Riscv Kalloc Vm VmAwake BlockLayer Printf Proc Exec ProcInv File FileInv Syscall Sysfile Devices Trap.

(** ** Code that keeps the calling process running *)

Section Good.

Context {F : Type} (ini me : Z).

Notation proto := (rg (within pids_ok (rely ini me)) (guar ini me)).
Notation kept := (fun s0 _ s => running ini None me s0 s).

Definition good {A} (m : M (kst F) A) : Prop := forall s0 s, running ini None me s0 s -> proto kept s0 (m s).

Lemma good_bind {A B} (m : M (kst F) A) (k : A -> M (kst F) B) : good m -> (forall a, good (k a)) -> good (bind m k).
Proof. intros Hm Hk s0 s Hs. apply rg_then; [by apply Hm|]. intros a t0 t Ht. by apply Hk. Qed.

Lemma good_quiet {A} (m : M (kst F) A) : quiet m -> good m.
Proof. intros Hm s0 s Hs. by apply rg_q. Qed.

Lemma good_ret {A} (a : A) : good (ret a).
Proof. by intros s0 s Hs. Qed.

Lemma good_panic {A} msg : good (A := A) (panic msg).
Proof. by intros s0 s Hs. Qed.

Lemma good_exhausted {A} : good (A := A) exhausted.
Proof. by intros s0 s Hs. Qed.

Lemma good_gets {A} (f : kst F -> A) : good (gets f).
Proof. apply good_quiet. apply quiet_gets. Qed.

Lemma good_proc_of i : good (proc_of i).
Proof. apply good_gets. Qed.

Lemma good_onf {A} (m : M (kmem * F) A) : good (onf m).
Proof. intros s0 s Hs. by apply rg_onf. Qed.

Lemma good_onk {A} (m : M kmem A) : awake m -> good (onk m).
Proof. intros Hm. by apply good_quiet, quiet_onk. Qed.

Lemma good_upd i f : (forall p, core (f p) = core p) -> good (upd_proc i f).
Proof. intros Hf. by apply good_quiet, quiet_upd. Qed.

(** A change that the process table does not see. *)
Lemma good_modify f : (forall s, same_core s (f s)) -> good (modify f).
Proof. intros Hf. apply good_quiet. intros s. apply Hf. Qed.

Lemma good_acquire get set : (forall b s, same_core s (set b s)) -> good (acquire_lk get set).
Proof. intros Hf. apply good_quiet. intros s. by apply post_acquire. Qed.

Lemma good_release get set : (forall b s, same_core s (set b s)) -> good (release_lk get set).
Proof. intros Hf. apply good_quiet. intros s. by apply post_release. Qed.

Lemma good_wakeup chan : good (wakeup chan).
Proof. intros s0 s Hs. by apply rg_post, post_wakeup. Qed.

Lemma good_yield : good (yield me).
Proof. intros s0 s Hs. by apply rg_yield. Qed.

Lemma good_kill pid : good (kill pid).
Proof. intros s0 s Hs. by apply rg_post, post_kill. Qed.

Lemma good_wait kend addr wakes fuel : good (wait kend me addr wakes fuel).
Proof. intros s0 s Hs. by apply rg_wait. Qed.

Lemma good_growproc kend n fuel : good (growproc kend me n fuel).
Proof. apply good_quiet, quiet_growproc. Qed.

Lemma good_kps a stack fuel : good (kps me a stack fuel).
Proof. apply good_quiet, quiet_kps. Qed.

Lemma good_exit `{FE : FileEnv F} status : good (exit me status).
Proof. intros s0 s Hs. eapply rg_mono; [|by apply rg_exit]. done. Qed.

Lemma good_exec `{FE : FileEnv F} kend trampoline path argv fuel : good (exec kend trampoline me path argv fuel).
Proof. intros s0 s Hs. by apply rg_exec. Qed.

Lemma good_kresume `{FE : FileEnv F} kend trampoline path fuel : good (kresume kend trampoline me path fuel).
Proof. intros s0 s Hs. by apply rg_kresume. Qed.

(** Code that may also rely on the bound on the pids. *)
Definition fine (s0 s : kst F) : Prop := running ini None me s0 s /\ pids_ok s.
Definition starts {A} (m : M (kst F) A) : Prop := forall s0 s, fine s0 s -> proto kept s0 (m s).
Definition early {A} (m : M (kst F) A) : Prop := forall s0 s, fine s0 s -> proto (fun s0 _ s => fine s0 s) s0 (m s).

Lemma stable_fine s0 : stable (fine s0).
Proof. apply stable_and; [apply stable_running|apply stable_pids_ok]. Qed.

Lemma starts_good {A} (m : M (kst F) A) : good m -> starts m.
Proof. intros Hm s0 s [Hs _]. by apply Hm. Qed.

Lemma starts_bind {A B} (m : M (kst F) A) (k : A -> M (kst F) B) : early m -> (forall a, starts (k a)) -> starts (bind m k).
Proof. intros Hm Hk s0 s Hs. apply rg_bind. eapply rg_mono; [|by apply Hm]. intros t0 a t Ht. by apply Hk. Qed.

Lemma early_quiet {A} (m : M (kst F) A) : quiet m -> early m.
Proof. intros Hm s0 s Hs. apply rg_post. apply (quiet_post m (fine s0)); [done|apply stable_fine|done]. Qed.

Lemma early_bind {A B} (m : M (kst F) A) (k : A -> M (kst F) B) : early m -> (forall a, early (k a)) -> early (bind m k).
Proof. intros Hm Hk s0 s Hs. apply rg_bind. eapply rg_mono; [|by apply Hm]. intros t0 a t Ht. by apply Hk. Qed.

Lemma early_onf {A} (m : M (kmem * F) A) : early (onf m).
Proof.
  intros s0 s Hs. apply rg_lift; [| |done].
  - intros t0 t u Ht. assert (fine t0 (set_kf u t)) as Hr by (eapply stable_fine; [|exact Ht]; done).
    split; [by apply running_guar, Hr|done].
  - intros t0 t t' [Ht _] HR. destruct (running_resume _ _ _ _ _ Ht HR) as [H1 H2]. by split.
Qed.

Lemma starts_fork `{FE : FileEnv F} kend trampoline forkret_pc fuel : starts (fork kend trampoline forkret_pc me fuel).
Proof. intros s0 s [Hs Hb]. apply rg_post, post_fork. split; [done|by destruct Hb]. Qed.

Lemma starts_ksuspend `{FE : FileEnv F} pid f fuel : pid <> 0 -> starts (ksuspend me pid f fuel).
Proof. intros Hp s0 s [Hs Hb]. by apply rg_ksuspend. Qed.

End Good.

Create HintDb good.
#[export] Hint Resolve good_ret good_panic good_exhausted good_gets good_proc_of good_onf good_wakeup good_yield good_kill good_wait
  good_growproc good_kps good_exit good_exec good_kresume : good.

(** Search over the structure of the code. *)
Ltac good :=
  repeat first
    [ match goal with
      | |- good _ _ (bind _ _) => apply good_bind; [|intros ?]
      | |- good _ _ (if ?b then _ else _) => destruct b
      | |- good _ _ (match ?x with _ => _ end) => destruct x
      | |- good _ _ (let _ := _ in _) => cbv zeta
      end
    | solve [eauto with good]
    | apply good_upd; done
    | apply good_onk; solve [eauto with awake]
    | apply good_acquire; intros; by split
    | apply good_release; intros; by split
    | apply good_modify; intros; by split ].

(** ** The calls of sysproc.c *)

Section Sysproc.

Context {F : Type} `{FE : FileEnv F}.
Context (kend trampoline forkret_pc ini me : Z).

Lemma good_kprintf fmt args : good (F := world F) ini me (kprintf fmt args).
Proof. apply good_onf. Qed.
#[local] Hint Resolve good_kprintf : good.

Lemma good_trace fmt args : good (F := world F) ini me (trace me fmt args).
Proof. unfold trace. good. Qed.
#[local] Hint Resolve good_trace : good.

Lemma early_trace fmt args : early (F := world F) ini me (trace me fmt args).
Proof.
  unfold trace. apply early_bind; [apply early_quiet, quiet_gets|]. intros p.
  destruct (p_tracing p); [apply early_onf|apply early_quiet, quiet_ret].
Qed.

Lemma quiet_argraw n : quiet (F := world F) (argraw me n).
Proof. unfold argraw. apply quiet_if; [apply quiet_bind; [apply quiet_gets|intros; apply quiet_gets]|apply quiet_panic]. Qed.
Lemma quiet_argint n : quiet (F := world F) (argint me n).
Proof. unfold argint. apply quiet_bind; [apply quiet_argraw|intros; apply quiet_ret]. Qed.
Lemma good_argaddr n : good (F := world F) ini me (argaddr me n).
Proof. apply good_quiet, quiet_argraw. Qed.
Lemma good_argint n : good (F := world F) ini me (argint me n).
Proof. apply good_quiet, quiet_argint. Qed.
#[local] Hint Resolve good_argaddr good_argint : good.

Lemma good_fetchstr fuel addr max : good (F := world F) ini me (fetchstr me fuel addr max).
Proof. unfold fetchstr. good. Qed.
Lemma good_fetchaddr fuel addr : good (F := world F) ini me (fetchaddr me fuel addr).
Proof. unfold fetchaddr. good. Qed.
#[local] Hint Resolve good_fetchstr : good.
Lemma good_argstr fuel n max : good (F := world F) ini me (argstr me fuel n max).
Proof. unfold argstr. good. Qed.
#[local] Hint Resolve good_argstr : good.

Lemma good_sys_exit : good ini me (sys_exit me).
Proof. unfold sys_exit. good. Qed.

Lemma good_sys_getpid : good (F := world F) ini me (sys_getpid me).
Proof. unfold sys_getpid. good. Qed.

Lemma starts_sys_fork fuel : starts ini me (sys_fork kend trampoline forkret_pc me fuel).
Proof. unfold sys_fork. apply starts_bind; [apply early_trace|]. intros _. apply starts_fork. Qed.

Lemma good_sys_wait wakes fuel : good (F := world F) ini me (sys_wait kend me wakes fuel).
Proof. unfold sys_wait. good. Qed.

Lemma good_sys_sbrk fuel : good (F := world F) ini me (sys_sbrk kend me fuel).
Proof. unfold sys_sbrk. good. Qed.

Lemma good_ticks_sleep : good (F := world F) ini me (sleep me ticks_chan tickslock_get tickslock_set).
Proof. intros s0 s Hs. by apply (rg_sleep ini me ticks_chan tickslock set_tickslock). Qed.
#[local] Hint Resolve good_ticks_sleep : good.

Lemma good_sleep_loop ticks0 n wakes : good (F := world F) ini me (sleep_loop me ticks0 n wakes).
Proof. induction wakes as [|w IH]; cbn [sleep_loop]; unfold the_ticks, ticks_release; good. Qed.
#[local] Hint Resolve good_sleep_loop : good.

Lemma good_sys_sleep wakes : good (F := world F) ini me (sys_sleep me wakes).
Proof. unfold sys_sleep, ticks_acquire, the_ticks. good. Qed.

Lemma good_sys_kill : good (F := world F) ini me (sys_kill me).
Proof. unfold sys_kill. good. Qed.

Lemma good_sys_uptime : good (F := world F) ini me (sys_uptime me).
Proof. unfold sys_uptime, ticks_acquire, ticks_release, the_ticks. good. Qed.

Lemma good_sys_traceon : good (F := world F) ini me (sys_traceon me).
Proof. unfold sys_traceon, traceon. good. Qed.

Lemma good_sys_ps fuel stack : good (F := world F) ini me (sys_ps me fuel stack).
Proof. unfold sys_ps. good. Qed.

Lemma good_sys_resume fuel : good ini me (sys_resume kend trampoline me fuel).
Proof. unfold sys_resume. good. Qed.

End Sysproc.

#[export] Hint Resolve good_kprintf good_trace good_argaddr good_argint good_fetchstr good_fetchaddr good_argstr : good.
#[export] Hint Resolve good_sys_exit good_sys_getpid good_sys_wait good_sys_sbrk good_sys_sleep good_sys_kill good_sys_uptime good_sys_traceon
  good_sys_ps good_sys_resume : good.

(** ** The calls of sysfile.c *)

Section Sysfile.

Context {S : Type} `{BL : BlockLayer S} {D : Type}.
Context (kend trampoline forkret_pc ini : Z) (devs : Z -> devsw D) (me : Z) (wakes fuel : nat) (stack : list byte).

Notation FL := (fl (S := S) (D := D)).
Notation good := (good (F := world FL) ini me).

Lemma good_onx {A} (m : M (kmem * FL) A) : good (onx m).
Proof. apply good_onf. Qed.
Lemma good_fs {A} (m : M (Fs.fsys (@Log.lstate S)) A) : good (fs m).
Proof. apply good_onx. Qed.
Lemma good_begin_tx : good (begin_tx wakes).
Proof. apply good_onx. Qed.
Lemma good_end_tx : good end_tx.
Proof. apply good_onx. Qed.
#[local] Hint Resolve good_onx good_fs good_begin_tx good_end_tx : good.

Lemma good_argpath n : good (argpath me fuel n).
Proof. apply good_argstr. Qed.
#[local] Hint Resolve good_argpath : good.

Lemma quiet_argfd n : quiet (F := world FL) (argfd me n).
Proof.
  unfold argfd. apply quiet_bind; [apply quiet_argint|]. intros fd. apply quiet_if; [apply quiet_ret|].
  apply quiet_bind; [apply quiet_gets|]. intros p. apply quiet_if; apply quiet_ret.
Qed.
Lemma good_argfd n : good (argfd me n).
Proof. apply good_quiet, quiet_argfd. Qed.

Lemma good_fdalloc_loop f fd left : good (fdalloc_loop me f fd left).
Proof. revert fd. induction left as [|l IH]; intros fd; cbn [fdalloc_loop]; good. Qed.
Lemma good_fdalloc f : good (fdalloc me f).
Proof. apply good_fdalloc_loop. Qed.
#[local] Hint Resolve good_argfd good_fdalloc : good.

Lemma good_cprintfn l : good (cprintfn l).
Proof. induction l as [|c l IH]; cbn [cprintfn]; unfold cputc_encoded; good. Qed.
#[local] Hint Resolve good_cprintfn : good.

Lemma good_sys_dup : good (sys_dup me).
Proof. unfold sys_dup. good. Qed.

Lemma good_store_user addr l : good (store_user me fuel addr l).
Proof. unfold store_user. good. Qed.
Lemma good_the_dst : good (the_dst me fuel).
Proof. apply good_gets. Qed.
Lemma good_the_src : good (the_src me fuel).
Proof. apply good_gets. Qed.
#[local] Hint Resolve good_store_user good_the_dst good_the_src : good.

Lemma good_sys_read : good (sys_read devs me wakes fuel).
Proof. unfold sys_read. good. Qed.

Lemma good_sys_write : good (sys_write devs me wakes fuel stack).
Proof. unfold sys_write, trace_write. good. Qed.

Lemma good_sys_close : good (sys_close kend me wakes).
Proof. unfold sys_close. good. Qed.

Lemma good_sys_fstat : good (sys_fstat me wakes fuel stack).
Proof. unfold sys_fstat. good. Qed.

Lemma good_the_cwd : good (the_cwd me).
Proof. unfold the_cwd. good. Qed.
#[local] Hint Resolve good_the_cwd : good.

Lemma good_sys_link : good (sys_link me wakes fuel stack).
Proof. unfold sys_link. good. Qed.

Lemma good_sys_unlink : good (sys_unlink me wakes fuel stack).
Proof. unfold sys_unlink. good. Qed.

Lemma good_open_inode path omode : good (open_inode me wakes stack path omode).
Proof. unfold open_inode. good. Qed.
Lemma good_open_file : good (open_file kend me wakes).
Proof. unfold open_file. good. Qed.
#[local] Hint Resolve good_open_inode good_open_file : good.

Lemma good_sys_open : good (sys_open kend me wakes fuel stack).
Proof. unfold sys_open. good. Qed.

Lemma good_sys_mkdir : good (sys_mkdir me wakes fuel stack).
Proof. unfold sys_mkdir. good. Qed.

Lemma good_sys_mknod : good (sys_mknod me wakes fuel stack).
Proof. unfold sys_mknod. good. Qed.

Lemma good_sys_chdir : good (sys_chdir me wakes fuel).
Proof. unfold sys_chdir. good. Qed.

Lemma good_fetch_args uargv i left : good (fetch_args me fuel uargv i left).
Proof. revert i. induction left as [|l IH]; intros i; cbn [fetch_args]; good. Qed.
Lemma good_free_args argv : good (free_args kend argv).
Proof. induction argv as [|a l IH]; cbn [free_args]; good. Qed.
Lemma good_print_args args : good (print_args args).
Proof. induction args as [|a l IH]; cbn [print_args]; good. Qed.
#[local] Hint Resolve good_fetch_args good_free_args good_print_args : good.

Lemma good_sys_exec : good (sys_exec kend trampoline devs me wakes fuel).
Proof. unfold sys_exec, trace_exec, arg_strings. good. Qed.

Lemma good_pipe_fail fds rf wf : good (pipe_fail kend me wakes fds rf wf).
Proof.
  unfold pipe_fail. apply good_bind; [|intros _; good]. induction fds as [|fd fds IH]; cbn [clear_fds]; good.
Qed.
#[local] Hint Resolve good_pipe_fail : good.

Lemma good_sys_pipe : good (sys_pipe kend me wakes fuel).
Proof. unfold sys_pipe. good. Qed.

End Sysfile.

#[export] Hint Resolve good_sys_dup good_sys_read good_sys_write good_sys_close good_sys_fstat good_sys_link good_sys_unlink good_sys_open
  good_sys_mkdir good_sys_mknod good_sys_chdir good_sys_exec good_sys_pipe : good.

(** ** Traps *)

Section Traps.

Context {F : Type} `{FE : FileEnv F}.
Context (ini me : Z).
Context (rd : Z -> M (kmem * world F) Z) (wr : Z -> Z -> M (kmem * world F) unit).
Context (consoleintr : Z -> M (kmem * world F) (list Z)) (virtio_disk_intr : M (kmem * world F) (list Z)).
Context (kernelvec usertrap_pc uservec_off userret_off : Z).

Notation good := (good (F := world F) ini me).

Lemma good_reg f : good (reg f).
Proof. apply good_gets. Qed.
Lemma good_upd_hart f : good (upd_hart f).
Proof. apply good_modify. by intros. Qed.
Lemma good_set_tf off v : good (Trap.set_tf me off v).
Proof. unfold Trap.set_tf. good. Qed.
#[local] Hint Resolve good_reg good_upd_hart good_set_tf : good.

Lemma good_cpuid : good cpuid.
Proof. unfold cpuid. good. Qed.
#[local] Hint Resolve good_cpuid : good.

Lemma good_clockintr : good clockintr.
Proof. unfold clockintr, ticks_acquire, ticks_release. good. Qed.
#[local] Hint Resolve good_clockintr : good.

Lemma good_wakeups l : good (wakeups l).
Proof. induction l as [|c l IH]; cbn [wakeups]; good. Qed.
#[local] Hint Resolve good_wakeups : good.

Lemma good_devintr fuel : good (devintr rd wr consoleintr virtio_disk_intr fuel).
Proof. unfold devintr. good. Qed.
#[local] Hint Resolve good_devintr : good.

Lemma good_exit_if_killed : good (exit_if_killed me).
Proof. unfold exit_if_killed. good. Qed.
#[local] Hint Resolve good_exit_if_killed : good.

Lemma good_usertrapret : good (usertrapret usertrap_pc uservec_off userret_off me).
Proof. unfold usertrapret. good. Qed.
#[local] Hint Resolve good_usertrapret : good.

(** *** System calls *)

Notation proto := (rg (within pids_ok (rely ini me)) (guar ini me)).
Notation kept := (fun s0 _ s => running ini None me s0 s).

(** The number and the first argument of the call, as the kernel sees them. *)
Definition call_num (s : kst (world F)) : Z := s32 (load64 (ram (km s)) (p_tf (procs s me) + tf_a7)).
Definition call_arg0 (s : kst (world F)) : Z := s32 (load64 (ram (km s)) (p_tf (procs s me) + tf_a0)).

(** A table whose entries keep the process table, the entry of [suspend] when
    its argument is not 0. *)
Definition table_ok (table : Z -> option (M (kst (world F)) Z)) : Prop :=
  forall num h s0 s, table num = Some h -> fine ini me s0 s -> (num = SYS_suspend -> call_arg0 s <> 0) -> proto kept s0 (h s).

Lemma rg_syscall table s0 s :
  table_ok table -> fine ini me s0 s -> (call_num s = SYS_suspend -> call_arg0 s <> 0) -> proto kept s0 (syscall table me s).
Proof.
  intros Ht Hs Hn. unfold syscall, proc_of. rewrite !bind_gets. fold (call_num s). destruct (_ && _).
  - destruct (table (call_num s)) as [h|] eqn:E; [|apply (starts_good ini me); [good|done]].
    apply rg_then; [by eapply Ht|]. intros v t0 t Ht'. by apply good_set_tf.
  - apply (starts_good ini me); [good|done].
Qed.

Lemma fine_core (s0 s s' : kst (world F)) : same_core s s' -> fine ini me s0 s -> fine ini me s0 s'.
Proof. apply stable_fine. Qed.

Section Table.

Context (table : Z -> option (M (kst (world F)) Z)) (Htable : table_ok table) (fuel : nat).

Notation usertrap_cause := (usertrap_cause rd wr consoleintr virtio_disk_intr table me fuel).
Notation usertrap := (usertrap rd wr consoleintr virtio_disk_intr kernelvec usertrap_pc uservec_off userret_off table me fuel).

Lemma rg_usertrap_cause s0 s :
  fine ini me s0 s -> (call_num s = SYS_suspend -> call_arg0 s <> 0) -> proto kept s0 (usertrap_cause s).
Proof.
  intros Hs Hn. unfold Trap.usertrap_cause, reg. rewrite bind_gets. destruct (_ =? 8).
  - unfold exit_if_killed, proc_of. apply rg_bind. rewrite bind_gets. destruct (p_killed _).
    { eapply rg_mono; [|by apply rg_exit, Hs]. done. }
    cbn [rg ret]. rewrite !bind_gets, bind_set_tf, bind_upd_hart.
    apply rg_then; [|by intros]. apply rg_syscall; [done| |].
    + eapply fine_core; [|exact Hs]. by split.
    + unfold call_num, call_arg0. cbn. rewrite !load_store_other by (unfold tf_a7, tf_a0, tf_epc; lia). done.
  - destruct Hs as [Hs _]. revert s0 s Hs Hn. intros s0 s Hs _. revert s0 s Hs.
    change (good (which_dev <- devintr rd wr consoleintr virtio_disk_intr fuel ;;
      if negb (which_dev =? 0) then ret which_dev else
      p <- proc_of me ;;
      cause <- reg scause ;;
      kprintf ("usertrap(): unexpected scause %p pid=%d" +:+ nl) [PInt cause; PInt (p_pid p)] ;;;
      epc <- reg sepc ;;
      val <- reg stval ;;
      kprintf ("            sepc=%p stval=%p" +:+ nl) [PInt epc; PInt val] ;;;
      upd_proc me (set_killed true) ;;;
      ret 0)). good.
Qed.

Lemma rg_usertrap s0 s :
  fine ini me s0 s -> (call_num s = SYS_suspend -> call_arg0 s <> 0) -> proto kept s0 (usertrap s).
Proof.
  intros Hs Hn. unfold Trap.usertrap, reg. rewrite bind_gets. destruct (negb _); [done|].
  rewrite bind_upd_hart, bind_gets, bind_set_tf. apply rg_then.
  - apply rg_usertrap_cause.
    + eapply fine_core; [|exact Hs]. by split.
    + unfold call_num, call_arg0. cbn. rewrite !load_store_other by (unfold tf_a7, tf_a0, tf_epc; lia). done.
  - intros w t0 t Ht. revert t0 t Ht. change (good (exit_if_killed me ;;; (if w =? 2 then yield me else ret tt) ;;;
      usertrapret usertrap_pc uservec_off userret_off me)). good.
Qed.

End Table.

(** A trap from user space: the supervisor registers as the hardware sets
    them, and the user registers x1 to x31, which [uservec] saves. *)
Record user_trap := mk_user_trap { ut_hart : hart; ut_regs : list Z }.

Fixpoint save_regs (m : mem) (a : Z) (regs : list Z) : mem :=
  match regs with [] => m | r :: regs' => save_regs (store64 m a r) (a + 8) regs' end.

(** What user code leaves behind: anything in its memory and registers, except
    that it does not suspend process 0. *)
Definition tf_ra : Z := 40.
Definition enter (t : user_trap) : M (kst (world F)) unit :=
  p <- proc_of me ;;
  onk (modify_ram (fun m => save_regs m (p_tf p + tf_ra) (ut_regs t))) ;;;
  upd_hart (fun _ => ut_hart t).

Definition ut_reg (t : user_trap) (x : nat) : Z := nth (x - 1) (ut_regs t) 0.
Definition trap_ok (t : user_trap) : Prop :=
  length (ut_regs t) = 31%nat /\ (s32 (ut_reg t 17) = SYS_suspend -> s32 (ut_reg t 10) <> 0).

Lemma save_regs_below regs : forall m a x, x + 8 <= a -> load64 (save_regs m a regs) x = load64 m x.
Proof.
  induction regs as [|r regs IH]; intros m a x Hx; cbn [save_regs]; [done|].
  rewrite IH by lia. apply load_store_other. lia.
Qed.

Lemma load_save_regs regs : forall m a k, (k < length regs)%nat -> load64 (save_regs m a regs) (a + 8 * Z.of_nat k) = u64 (nth k regs 0).
Proof.
  induction regs as [|r regs IH]; intros m a k Hk; cbn [save_regs length] in *; [lia|]. destruct k as [|k].
  - rewrite Z.mul_0_r, Z.add_0_r, save_regs_below by lia. apply load_store_same.
  - change (nth (S k) (r :: regs) 0) with (nth k regs 0). rewrite <- (IH (store64 m a r) (a + 8) k) by lia. f_equal. lia.
Qed.

Lemma s32_u64 z : s32 (u64 z) = s32 z.
Proof.
  unfold s32, u64. f_equal. rewrite Z.add_mod, (Z.add_mod z) by lia. f_equal. f_equal.
  rewrite <- Znumtheory.Zmod_div_mod; [done|lia|lia|]. by exists (2 ^ 32).
Qed.

Lemma enter_spec t s0 s : trap_ok t -> fine ini me s0 s ->
  exists s', enter t s = Done tt s' /\ fine ini me s0 s' /\ (call_num s' = SYS_suspend -> call_arg0 s' <> 0).
Proof.
  intros [Hl Ht] Hs. eexists. split; [reflexivity|]. split.
  - eapply fine_core; [|exact Hs]. by split.
  - unfold call_num, call_arg0. cbn -[save_regs].
    replace (p_tf (procs s me) + tf_a7) with (p_tf (procs s me) + tf_ra + 8 * Z.of_nat 16) by (unfold tf_a7, tf_ra; lia).
    replace (p_tf (procs s me) + tf_a0) with (p_tf (procs s me) + tf_ra + 8 * Z.of_nat 9) by (unfold tf_a0, tf_ra; lia).
    rewrite !load_save_regs, !s32_u64 by (rewrite Hl; lia). exact Ht.
Qed.

End Traps.

(** ** Any number of processes *)

Section Pool.

Context {S : Type} `{BL : BlockLayer S} {D : Type}.

Notation FL := (fl (S := S) (D := D)).
Notation K := (kst (world FL)).

Context (kend trampoline forkret_pc ini : Z) (devs : Z -> devsw D).
Context (rd : Z -> M (kmem * world FL) Z) (wr : Z -> Z -> M (kmem * world FL) unit).
Context (consoleintr : Z -> M (kmem * world FL) (list Z)) (virtio_disk_intr : M (kmem * world FL) (list Z)).
Context (kernelvec usertrap_pc uservec_off userret_off : Z).
Context (wakes fuel : nat) (stack : list byte).

Definition my_table (me : Z) : Z -> option (M K Z) := syscalls kend trampoline forkret_pc devs me wakes fuel stack.

Lemma argint_0 me (s : K) : argint me 0 s = Done (call_arg0 me s) s.
Proof. reflexivity. Qed.

Lemma starts_suspend_call me pid : pid <> 0 -> starts ini me (suspend_call kend devs me wakes fuel stack pid).
Proof.
  intros Hp. unfold suspend_call. apply starts_bind; [apply early_quiet, quiet_argfd|].
  intros [[fd fp]|]; [|apply starts_good, good_ret].
  apply starts_bind; [apply early_trace|]. intros _. by apply starts_ksuspend.
Qed.

(** What a table entry must satisfy. *)
Definition entry_good me (e : option (M K Z)) : Prop := match e with Some h => good ini me h | None => True end.
Lemma entry_if me (b : bool) h e : good ini me h -> entry_good me e -> entry_good me (if b then Some h else e).
Proof. by destruct b. Qed.

Lemma syscalls_ok me : table_ok ini me (my_table me).
Proof.
  intros num h s0 s. unfold my_table, syscalls. destruct (num =? SYS_fork).
  { intros Hh Hs _. assert (starts ini me h) as Hg by (injection Hh as <-; apply starts_sys_fork). by apply Hg. }
  destruct (Z.eqb_spec num SYS_suspend) as [->|Hn].
  - cbn [Z.eqb]. intros [= <-] Hs Ha. unfold sys_suspend. rewrite (bind_Done _ _ _ _ _ (argint_0 me s)).
    by apply starts_suspend_call; [apply Ha|].
  - intros Hh [Hs _] _. match type of Hh with ?e = _ => assert (entry_good me e) as Hg end.
    { apply entry_if; [apply good_sys_exit|].
      apply entry_if; [apply good_sys_wait|].
      apply entry_if; [apply good_sys_pipe|].
      apply entry_if; [apply good_sys_read|].
      apply entry_if; [apply good_sys_kill|].
      apply entry_if; [apply good_sys_exec|].
      apply entry_if; [apply good_sys_fstat|].
      apply entry_if; [apply good_sys_chdir|].
      apply entry_if; [apply good_sys_dup|].
      apply entry_if; [apply good_sys_getpid|].
      apply entry_if; [apply good_sys_sbrk|].
      apply entry_if; [apply good_sys_sleep|].
      apply entry_if; [apply good_sys_uptime|].
      apply entry_if; [apply good_sys_open|].
      apply entry_if; [apply good_sys_write|].
      apply entry_if; [apply good_sys_mknod|].
      apply entry_if; [apply good_sys_unlink|].
      apply entry_if; [apply good_sys_link|].
      apply entry_if; [apply good_sys_mkdir|].
      apply entry_if; [apply good_sys_close; exact fuel|].
      apply entry_if; [apply good_sys_traceon|].
      apply entry_if; [apply good_sys_ps|]. apply entry_if; [apply good_sys_resume|]. done. }
    rewrite Hh in Hg. by apply Hg.
Qed.

(** The life of a process: it runs user code, and enters the kernel by its
    next trap. *)
Fixpoint life (me : Z) (ts : list user_trap) : M K unit :=
  match ts with
  | [] => ret tt
  | t :: ts' =>
      enter me t ;;;
      _ <- usertrap (FE := the_env kend devs me wakes) rd wr consoleintr virtio_disk_intr kernelvec usertrap_pc uservec_off userret_off
             (my_table me) me fuel ;;
      sleep_on 0 ;;;
      life me ts'
  end.

Lemma rg_life me ts s0 s :
  Forall trap_ok ts -> fine ini me s0 s ->
  rg (within pids_ok (rely ini me)) (guar ini me) (fun s0 _ s => guar ini me s0 s) s0 (life me ts s).
Proof.
  intros Hts. revert s0 s. induction Hts as [|t ts Ht _ IH]; intros s0 s Hs; cbn [life]; [by apply running_guar, Hs|].
  destruct (enter_spec ini me t s0 s Ht Hs) as (s1 & E & H1 & Hn). rewrite (bind_Done _ _ _ _ _ E).
  apply rg_bind. eapply rg_mono; [|apply rg_usertrap; [apply syscalls_ok|done|done]].
  intros t0 r t1 H2. cbn beta in *. apply rg_bind. cbn. split; [by apply running_guar|].
  intros t2 H3. apply IH. destruct (running_resume _ _ _ _ _ H2 H3). by split.
Qed.

Definition lives (ps : list (Z * list user_trap)) : list (thread K unit) := map (fun pt => Waiting (life (fst pt) (snd pt))) ps.

(** The process of thread [i] (outside the table when there is none). *)
Definition whose (ps : list (Z * list user_trap)) (i : nat) : Z :=
  match ps !! i with Some pt => fst pt | None => - Z.of_nat i - 1 end.

Lemma whose_inj (s : K) ps i j :
  NoDup (map fst ps) -> Forall (fun pt => active s (fst pt)) ps -> i <> j -> whose ps i <> whose ps j.
Proof.
  intros Hnd Hps Hij. unfold whose. rewrite Forall_lookup in Hps.
  assert (forall k pt, ps !! k = Some pt -> 0 <= fst pt) as Hpos by (intros k pt Hk; destruct (Hps k pt Hk) as [[[? _] _] _]; done).
  destruct (ps !! i) as [p|] eqn:Ei, (ps !! j) as [q|] eqn:Ej.
  - intros He. apply Hij. eapply (NoDup_lookup (map fst ps)); [done|by rewrite list_lookup_fmap, Ei|].
    rewrite list_lookup_fmap, Ej. cbn. by rewrite He.
  - specialize (Hpos i p Ei). lia.
  - specialize (Hpos j q Ej). lia.
  - lia.
Qed.

(** [C3] The process table keeps its invariant under whatever traps user
    programs take, as long as none of them suspends pid 0 ([trap_ok]; what
    suspend(0) does to a free entry is [suspend_zero_runs_free_entry] of
    ProcSpec.v), the 32-bit pids do not run out and no free entry carries a pid
    ([pids_ok], at every step).  Any number of processes enter the kernel with
    otherwise arbitrary registers and memory (system calls with valid or
    invalid numbers and arguments, faults, device and timer interrupts), and in
    every interleaving of the pieces of kernel code between their sleeps live
    processes have distinct positive pids below [nextpid] and a live parent,
    zombies have no children, the first process never exits, and a free entry
    has no parent. *)
Theorem traps_keep_table (ps : list (Z * list user_trap)) (s : K) p' :
  ptable_inv ini s -> NoDup (map fst ps) ->
  Forall (fun pt => active s (fst pt)) ps -> Forall (fun pt => Forall trap_ok (snd pt)) ps ->
  rtc (fun p p' => pids_ok (fst p) /\ pool_step p p') (s, lives ps) p' -> ptable_inv ini (fst p').
Proof.
  intros Hinv Hnd Hact Hok Hrun.
  refine (proj1 (pool_rg_reachable (ptable_inv ini) pids_ok (fun i => rely ini (whose ps i)) (fun i => guar ini (whose ps i)) _ _ _ _ _ _ _ Hrun)).
  - by intros i t H.
  - unfold rely. naive_solver.
  - intros i j t t' Hij Ht [H1 H2] [_ Ha]. split; [done|]. apply H2; [|done]. by eapply whose_inj.
  - by intros i t t' _ [? _].
  - split; [done|]. intros i t Hi. cbn [fst snd] in *. unfold lives in Hi. rewrite list_lookup_fmap in Hi.
    destruct (ps !! i) as [pt|] eqn:Ei; [|done]. cbn in Hi. simplify_eq. unfold whose. rewrite Ei.
    pose proof (proj1 (Forall_lookup _ _) Hact i pt Ei) as Ha. pose proof (proj1 (Forall_lookup _ _) Hok i pt Ei) as Ho.
    intros t' [HR HB]. destruct (HR (conj Hinv Ha)) as [H1 H2]. apply rg_life; [done|].
    split; [|done]. split; [done|]. split; [done|apply others_refl].
Qed.

End Pool.
