(* ===== verification/TrapSpec.v ===== *)
(** * What a trap does

    A system call as the user program sees it, from the trap to the return;
    unknown system calls; and the transparency of traps taken in the kernel. *)

From S2P Require Import Prelude Rely CMem Riscv Kalloc Vm VmAwake Printf Proc Syscall Devices Trap.

Section Spec.

Context {F : Type} `{FE : FileEnv F}.

Notation K := (kst (world F)).

Context (rd : Z -> M (kmem * world F) Z) (wr : Z -> Z -> M (kmem * world F) unit).
Context (consoleintr : Z -> M (kmem * world F) (list Z)) (virtio_disk_intr : M (kmem * world F) (list Z)).
Context (kernelvec usertrap_pc uservec_off userret_off : Z).
Context (table : Z -> option (M K Z)) (me : Z) (fuel : nat).

Implicit Types s : K.

Notation usertrap := (usertrap rd wr consoleintr virtio_disk_intr kernelvec usertrap_pc uservec_off userret_off table me fuel).
Notation usertrapret := (usertrapret usertrap_pc uservec_off userret_off me).

Definition hart_of s : hart := w_hart (files s).

(** A word of the process's trapframe. *)
Definition tf_word s (off : Z) : Z := load64 (ram (km s)) (p_tf (procs s me) + off).

(** ** Back to user space *)

(** The machine is set up to run the process: user mode with interrupts, at
    the saved program counter, on its own page table; the next trap goes to
    the trampoline, which finds the kernel's page table, stack, handler and
    hart number in the trapframe. *)
Record user_ready (r : user_return) s : Prop := {
  ur_spp : Z.testbit (sstatus (hart_of s)) 8 = false;
  ur_spie : Z.testbit (sstatus (hart_of s)) 5 = true;
  ur_sie : Z.testbit (sstatus (hart_of s)) 1 = false;
  ur_stvec : stvec (hart_of s) = u64 (TRAMPOLINE + uservec_off);
  ur_sepc : sepc (hart_of s) = tf_word s tf_epc;
  ur_ksatp : tf_word s tf_kernel_satp = u64 (satp (hart_of s));
  ur_ksp : tf_word s tf_kernel_sp = u64 (p_kstack (procs s me) + PGSIZE);
  ur_ktrap : tf_word s tf_kernel_trap = u64 usertrap_pc;
  ur_khart : tf_word s tf_kernel_hartid = u64 (tp (hart_of s));
  ur_jump : r = mk_user_return (u64 (TRAMPOLINE + userret_off)) TRAPFRAME (MAKE_SATP (p_pagetable (procs s me)));
}.

Lemma status_bits x :
  let y := Z.lor (Z.land (Z.land x (Z.lnot SSTATUS_SIE)) (Z.lnot SSTATUS_SPP)) SSTATUS_SPIE in
  Z.testbit y 8 = false /\ Z.testbit y 5 = true /\ Z.testbit y 1 = false.
Proof.
  cbv zeta. unfold SSTATUS_SIE, SSTATUS_SPP, SSTATUS_SPIE.
  rewrite !Z.lor_spec, !Z.land_spec, !Z.lnot_spec by lia. cbn. by rewrite !andb_false_r, orb_true_r.
Qed.

(** The trapframe words that [usertrapret] does not set. *)
Definition kept_word (off : Z) : Prop := tf_epc = off \/ tf_kernel_hartid + 8 <= off.

Lemma usertrapret_spec s : exists r s',
  usertrapret s = Done r s' /\ user_ready r s' /\ procs s' = procs s /\ w_pr (files s') = w_pr (files s) /\ w_files (files s') = w_files (files s) /\
  forall off, kept_word off -> tf_word s' off = tf_word s off.
Proof.
  do 2 eexists. split.
  { unfold Trap.usertrapret. rewrite !bind_upd_hart, bind_reg, bind_set_tf. unfold proc_of. rewrite bind_gets, !bind_set_tf, bind_reg, bind_set_tf, bind_reg.
    cbv zeta. rewrite bind_upd_hart, bind_gets, bind_upd_hart. reflexivity. }
  destruct (status_bits (sstatus (hart_of s))) as (B1 & B2 & B3).
  assert (forall off, kept_word off -> forall m p a b c d,
    load64 (store64 (store64 (store64 (store64 m (p + tf_kernel_satp) a) (p + tf_kernel_sp) b) (p + tf_kernel_trap) c) (p + tf_kernel_hartid) d) (p + off) = load64 m (p + off)) as Hk.
  { intros off Ho m p a b c d. unfold kept_word, tf_epc, tf_kernel_satp, tf_kernel_sp, tf_kernel_trap, tf_kernel_hartid in *.
    rewrite !load_store_other by lia. done. }
  split; [split|split; [done|split; [done|split; [done|]]]].
  - exact B1.
  - exact B2.
  - exact B3.
  - done.
  - done.
  - unfold tf_word. cbn. rewrite !load_store_other by (unfold tf_kernel_satp, tf_kernel_sp, tf_kernel_trap, tf_kernel_hartid; lia).
    rewrite load_store_same. apply Z.mod_small, u64_range.
  - unfold tf_word. cbn. rewrite !load_store_other by (unfold tf_kernel_satp, tf_kernel_sp, tf_kernel_trap, tf_kernel_hartid; lia).
    rewrite load_store_same. apply Z.mod_small, u64_range.
  - unfold tf_word. cbn. rewrite !load_store_other by (unfold tf_kernel_satp, tf_kernel_sp, tf_kernel_trap, tf_kernel_hartid; lia).
    rewrite load_store_same. apply Z.mod_small, u64_range.
  - unfold tf_word. cbn. rewrite load_store_same. apply Z.mod_small, u64_range.
  - done.
  - intros off Ho. unfold tf_word. cbn. by apply Hk.
Qed.

(** ** System calls *)

(** The state in which a system call runs: the user's program counter saved
    and moved past the call, traps directed to the kernel, interrupts on. *)
Definition saved_pc s : K := tf_stored me tf_epc (sepc (hart_of s)) (hart_set (w_stvec kernelvec) s).
Definition in_call s : K := hart_set intr_on (tf_stored me tf_epc (tf_word (saved_pc s) tf_epc + 4) (saved_pc s)).

Record traps_with_ecall s : Prop := {
  te_user : Z.land (sstatus (hart_of s)) SSTATUS_SPP = 0;
  te_cause : scause (hart_of s) = 8;
  te_alive : p_killed (procs s me) = false;
}.

(** The number of the call. *)
Definition call_number s : Z := s32 (tf_word s tf_a7).

Lemma usertrap_ecall s s1 : traps_with_ecall s -> syscall table me (in_call s) = Done tt s1 ->
  usertrap s = (exit_if_killed me ;;; usertrapret) s1.
Proof.
  intros [H1 H2 H3] E. unfold Trap.usertrap. rewrite bind_reg. fold (hart_of s). rewrite H1. cbn [negb Z.eqb]. cbv iota.
  rewrite bind_upd_hart, bind_reg, bind_set_tf. unfold usertrap_cause.
  unfold bind at 1. rewrite bind_reg.
  replace (scause _) with 8 by (symmetry; exact H2). cbn [Z.eqb Pos.eqb]. cbv iota.
  unfold exit_if_killed at 1. unfold bind at 1. unfold proc_of at 1. rewrite bind_gets.
  replace (p_killed _) with false by (symmetry; exact H3). cbn [obind ret].
  unfold proc_of at 1. rewrite !bind_gets, bind_set_tf, bind_upd_hart.
  fold (hart_of s) (saved_pc s). fold (tf_word (saved_pc s) tf_epc). fold (in_call s).
  by rewrite (bind_Done _ _ _ _ _ E).
Qed.

Lemma u64_idem z : u64 (u64 z) = u64 z.
Proof. apply Z.mod_small, u64_range. Qed.

Lemma in_call_pc s : tf_word (in_call s) tf_epc = u64 (sepc (hart_of s) + 4).
Proof.
  unfold in_call. unfold tf_word at 1. cbn -[tf_word]. rewrite load_store_same, u64_idem. unfold tf_word. cbn. rewrite load_store_same, u64_idem.
  unfold u64. by rewrite Zplus_mod_idemp_l.
Qed.

Lemma in_call_word s off : off + 8 <= tf_epc \/ tf_epc + 8 <= off -> tf_word (in_call s) off = tf_word s off.
Proof. intros H. unfold tf_word. cbn. by rewrite !load_store_other by lia. Qed.

Lemma in_call_intr s : intr_get (hart_of (in_call s)) = true.
Proof.
  unfold intr_get. apply negb_true_iff, Z.eqb_neq. intros H. apply (f_equal (fun z => Z.testbit z 1)) in H. revert H.
  cbn [in_call hart_set hart_of files set_files w_hart set_hart intr_on w_sstatus w_sie sstatus]. unfold hart_of. cbn [hart_set files set_files w_hart set_hart].
  rewrite Z.land_spec, Z.lor_spec. unfold SSTATUS_SIE. by rewrite orb_true_r.
Qed.

(** What [usertrapret] leaves alone, for the process to see. *)
Definition as_returned s s' : Prop :=
  procs s' = procs s /\ w_pr (files s') = w_pr (files s) /\ w_files (files s') = w_files (files s) /\
  forall off, kept_word off -> tf_word s' off = tf_word s off.

Lemma usertrap_finish s s1 : traps_with_ecall s -> syscall table me (in_call s) = Done tt s1 -> p_killed (procs s1 me) = false ->
  exists r s', usertrap s = Done r s' /\ user_ready r s' /\ as_returned s1 s'.
Proof.
  intros Ht E Hk. rewrite (usertrap_ecall s s1 Ht E).
  unfold exit_if_killed, proc_of. unfold bind at 1. rewrite bind_gets, Hk. cbn [obind ret].
  destruct (usertrapret_spec s1) as (r & s' & E' & Hr). by exists r, s'.
Qed.

(** [C16] A system call, from the trap to the return: when a live process in
    user mode executes the call instruction with a valid number and the
    handler returns [v], the kernel returns to user space, prepared for the
    next trap, with [v] in a0 and every other saved user register as the
    handler left it; the handler ran with interrupts enabled and found the
    saved program counter just past the call instruction, where the process
    continues unless the handler moved it. *)
Theorem usertrap_syscall s h v s1 :
  traps_with_ecall s -> 0 < call_number s < NELEM_syscalls -> table (call_number s) = Some h ->
  h (in_call s) = Done v s1 -> p_killed (procs s1 me) = false ->
  tf_word (in_call s) tf_epc = u64 (sepc (hart_of s) + 4) /\ intr_get (hart_of (in_call s)) = true /\
  exists r s', usertrap s = Done r s' /\ user_ready r s' /\
    tf_word s' tf_a0 = u64 v /\ sepc (hart_of s') = tf_word s1 tf_epc /\
    (forall off, tf_kernel_hartid + 8 <= off -> off + 8 <= tf_a0 \/ tf_a0 + 8 <= off -> tf_word s' off = tf_word s1 off) /\
    procs s' = procs s1 /\ w_files (files s') = w_files (files s1).
Proof.
  intros Ht Hn Htab Hh Hk. split; [apply in_call_pc|]. split; [apply in_call_intr|].
  assert (syscall table me (in_call s) = Done tt (tf_stored me tf_a0 v s1)) as E.
  { unfold syscall, proc_of. rewrite !bind_gets. fold (tf_word (in_call s) tf_a7). rewrite in_call_word by (unfold tf_epc, tf_a7; lia).
    fold (call_number s). rewrite (proj2 (Z.gtb_gt _ _)), (proj2 (Z.ltb_lt _ _)) by lia. cbn [andb]. rewrite Htab.
    by rewrite (bind_Done _ _ _ _ _ Hh). }
  destruct (usertrap_finish s _ Ht E Hk) as (r & s' & Er & Hr & H1 & H2 & H3 & H4). exists r, s'.
  assert (forall off, off + 8 <= tf_a0 \/ tf_a0 + 8 <= off -> tf_word (tf_stored me tf_a0 v s1) off = tf_word s1 off) as Hw.
  { intros off Ho. unfold tf_word. cbn. by rewrite load_store_other by lia. }
  split_and!; try done.
  - rewrite H4 by (right; unfold tf_a0, tf_kernel_hartid; lia). unfold tf_word. cbn. by rewrite load_store_same, u64_idem.
  - rewrite (ur_sepc _ _ Hr), H4 by (by left). apply Hw. unfold tf_epc, tf_a0. lia.
  - intros off Ho Ha. rewrite H4 by (by right). by apply Hw.
Qed.

(** ** Unknown system calls *)

Lemma parg_str_bytes args a : bytes_ok (parg_str args a).
Proof.
  unfold parg_str. destruct (args !! _) as [[v|l]|]; try apply Forall_nil_2.
  apply Forall_map, Forall_forall. intros c _. apply byte.unsigned_range.
Qed.

(** What a [printf] call sends. *)
Definition sent (fmt : string) (args : list parg) : list Z := vprintf (parg_str args) (codes fmt) (parg_word args) 0 false.
Definition printed (l : list Z) s : K := set_files (set_pr (emit l (w_pr (files s))) (files s)) s.

Lemma kprintf_sends fmt args s : bytes_ok (codes fmt) -> common_format (codes fmt) = true ->
  panicked (w_pr (files s)) = false -> pr_lock (w_pr (files s)) = false ->
  kprintf fmt args s = Done tt (printed (sent fmt args) s).
Proof.
  intros Hb Hc Hp Hl. unfold kprintf, onf, lift at 1. unfold lift at 1. cbn [kf snd].
  rewrite printf_emits by (done || apply parg_str_bytes). done.
Qed.

Definition unknown_fmt : string := "%d %s: unknown sys call %d" +:+ nl.

(** [C36] A system call with a number outside the table, or of an empty entry:
    the process goes on behind the call instruction with -1 in a0 and its
    other registers unchanged; the console shows its pid, its name and the
    number; no process and no file is touched. *)
Theorem unknown_syscall s :
  traps_with_ecall s -> ~ (0 < call_number s < NELEM_syscalls) \/ table (call_number s) = None ->
  panicked (w_pr (files s)) = false -> pr_lock (w_pr (files s)) = false ->
  exists r s', usertrap s = Done r s' /\ user_ready r s' /\
    tf_word s' tf_a0 = 2 ^ 64 - 1 /\ sepc (hart_of s') = u64 (sepc (hart_of s) + 4) /\
    (forall off, tf_kernel_hartid + 8 <= off -> off + 8 <= tf_a0 \/ tf_a0 + 8 <= off -> tf_word s' off = tf_word s off) /\
    uart_out (w_pr (files s')) = uart_out (w_pr (files s)) ++
      sent unknown_fmt [PInt (p_pid (procs s me)); PStr (p_name (procs s me)); PInt (call_number s)] /\
    procs s' = procs s /\ w_files (files s') = w_files (files s).
Proof.
  intros Ht Hn Hp Hl. set (args := [PInt (p_pid (procs s me)); PStr (p_name (procs s me)); PInt (call_number s)]).
  assert (syscall table me (in_call s) = Done tt (tf_stored me tf_a0 (-1) (printed (sent unknown_fmt args) (in_call s)))) as E.
  { unfold syscall, proc_of. rewrite !bind_gets. fold (tf_word (in_call s) tf_a7). rewrite in_call_word by (unfold tf_epc, tf_a7; lia).
    fold (call_number s).
    assert ((if (call_number s >? 0) && (call_number s <? NELEM_syscalls) then table (call_number s) else None) = None) as ->.
    { destruct Hn as [Hn|Hn]; [|rewrite Hn; by destruct (_ && _)].
      destruct (Z.gtb_spec (call_number s) 0), (Z.ltb_spec (call_number s) NELEM_syscalls); done || lia. }
    rewrite (bind_Done _ _ _ _ _ (kprintf_sends unknown_fmt args (in_call s) ltac:(apply (bool_decide_eq_true_1 _); vm_compute; reflexivity) eq_refl Hp Hl)).
    done. }
  destruct (usertrap_finish s _ Ht E (te_alive _ Ht)) as (r & s' & Er & Hr & H1 & H2 & H3 & H4). exists r, s'.
  assert (forall off, off + 8 <= tf_a0 \/ tf_a0 + 8 <= off -> tf_word (tf_stored me tf_a0 (-1) (printed (sent unknown_fmt args) (in_call s))) off = tf_word (in_call s) off) as Hw.
  { intros off Ho. unfold tf_word. cbn. by rewrite load_store_other by lia. }
  split_and!; try done.
  - rewrite H4 by (right; unfold tf_a0, tf_kernel_hartid; lia). unfold tf_word. cbn. by rewrite load_store_same, u64_idem.
  - rewrite (ur_sepc _ _ Hr), H4 by (by left). rewrite Hw by (unfold tf_epc, tf_a0; lia). apply in_call_pc.
  - intros off Ho Ha. rewrite H4 by (by right). rewrite Hw by done. apply in_call_word. unfold tf_epc, tf_kernel_hartid in *. lia.
  - by rewrite H2.
Qed.

(** ** Traps in the kernel *)

Notation kerneltrap := (kerneltrap rd wr consoleintr virtio_disk_intr me fuel).
Notation any := (fun _ _ => True).

Lemma rg_any {A B} (m : M K A) (k : A -> M K B) (Q : K -> B -> K -> Prop) s0 s :
  (forall s0 a s, rg any any Q s0 (k a s)) -> rg any any Q s0 (bind m k s).
Proof.
  intros Hk. unfold bind. generalize (m s). intros o. revert s0. induction o as [a t|msg|c t g IH|]; intros s0; simpl; auto.
Qed.

Definition timer_cause : Z := 0x8000000000000001.

Lemma awake_acquire_p i : awake (acquire_p (F := world F) i).
Proof. apply awake_acquire. Qed.
Lemma awake_release_p i : awake (release_p (F := world F) i).
Proof. apply awake_release. Qed.

Lemma awake_for_procs {A} (body : Z -> M K (option A)) i n : (forall j, awake (body j)) -> awake (for_procs body i n).
Proof.
  intros Hb. revert i. induction n as [|n IH]; intros i; cbn [for_procs]; [apply awake_ret|].
  apply awake_bind; [apply Hb|]. intros [a|]; [apply awake_ret|apply IH].
Qed.

Lemma awake_wakeup chan : awake (wakeup (F := world F) chan).
Proof.
  unfold wakeup, each_locked, each_proc. apply awake_bind; [|intros; apply awake_ret]. apply awake_for_procs. intros j.
  apply awake_bind; [apply awake_acquire_p|]. intros _. apply awake_bind; [|intros _; apply awake_bind; [apply awake_release_p|intros; apply awake_ret]].
  apply awake_bind; [apply awake_gets|]. intros p. apply awake_if; [apply awake_modify|apply awake_ret].
Qed.

Lemma awake_wakeups l : awake (wakeups (F := F) l).
Proof. induction l as [|c l IH]; cbn [wakeups]; [apply awake_ret|]. apply awake_bind; [apply awake_wakeup|done]. Qed.

Lemma awake_post {A} (m : M K A) (Q : A -> K -> Prop) s : awake m -> (forall a s', Q a s') -> post Q (m s).
Proof. intros Hm HQ. specialize (Hm s). destruct (m s); cbn; auto. Qed.

Lemma post_awake_bind {A B} (m : M K A) (k : A -> M K B) (Q : B -> K -> Prop) s :
  awake m -> (forall a s', post Q (k a s')) -> post Q (bind m k s).
Proof. intros Hm Hk. apply post_bind. by apply awake_post. Qed.

Lemma awake_onf {A} (m : M (kmem * world F) A) : awake m -> awake (onf m).
Proof. intros Hm s. unfold onf, lift. specialize (Hm (kf s)). by destruct (m (kf s)). Qed.

(** What the trap handler asks of the devices: accesses to their registers and
    their interrupt handlers do not sleep.  TrapDevices.v shows it of the
    drivers of this development. *)
Definition devices_awake : Prop :=
  (forall a, awake (rd a)) /\ (forall a v, awake (wr a v)) /\ (forall c, awake (consoleintr c)) /\ awake virtio_disk_intr.

Lemma awake_uartintr n : (forall a, awake (rd a)) -> (forall c, awake (consoleintr c)) -> awake (uartintr rd consoleintr n).
Proof.
  intros Hr Hc. assert (awake (uartgetc rd)) as Hg.
  { unfold uartgetc, ReadReg. apply awake_bind; [apply Hr|]. intros x. apply awake_if; [apply Hr|apply awake_ret]. }
  induction n as [|n IH]; cbn [uartintr]; (apply awake_bind; [exact Hg|]; intros c; apply awake_if; [apply awake_ret|]).
  - apply awake_exhausted.
  - apply awake_bind; [apply Hc|]. intros a. apply awake_bind; [exact IH|]. intros; apply awake_ret.
Qed.

Lemma devintr_not_timer s : devices_awake -> scause (hart_of s) <> timer_cause ->
  post (fun w _ => w = 0 \/ w = 1) (devintr rd wr consoleintr virtio_disk_intr fuel s).
Proof.
  intros (Hr & Hw & Hc & Hv) Hne. unfold devintr. rewrite bind_reg. destruct (_ && _).
  - unfold cpuid. apply post_awake_bind; [apply awake_bind; [apply awake_gets|intros; apply awake_ret]|]. intros h s1.
    apply post_awake_bind; [apply awake_onf; unfold plic_claim; apply awake_bind; [apply Hr|intros; apply awake_ret]|]. intros irq s2.
    apply post_awake_bind.
    { apply awake_if; [|apply awake_if; [|apply awake_ret]]; (apply awake_bind; [apply awake_onf|intros; apply awake_wakeups]); [by apply awake_uartintr|done]. }
    intros _ s3. apply post_awake_bind; [apply awake_bind; [apply awake_gets|intros; apply awake_ret]|]. intros h' s4.
    apply post_awake_bind; [apply awake_onf; apply Hw|]. intros _ s5. by right.
  - rewrite (proj2 (Z.eqb_neq _ _)) by exact Hne. by left.
Qed.

Lemma awake_consputc c : awake (consputc c).
Proof.
  unfold consputc, Printf.uartputc. apply awake_bind; [apply awake_gets|]. intros [|]; [apply awake_exhausted|].
  apply awake_if; repeat (apply awake_bind; [apply awake_modify|intros _]); apply awake_modify.
Qed.
Lemma awake_consputs l : awake (consputs l).
Proof. induction l as [|c l IH]; cbn [consputs]; [apply awake_ret|]. apply awake_bind; [apply awake_consputc|done]. Qed.

Lemma awake_printf_loop str n : forall fmt ap k, (length fmt < n)%nat -> awake (printf_loop str fmt ap k).
Proof.
  induction n as [|n IH]; intros fmt ap k Hl; [lia|]. destruct fmt as [|c rest]; cbn [printf_loop]; [apply awake_ret|]. cbn [length] in Hl.
  apply awake_if; [apply awake_bind; [apply awake_consputc|intros; apply IH; lia]|].
  destruct rest as [|d rest]; [apply awake_ret|]. cbn [length] in Hl. unfold printint, printptr.
  assert (awake (consputc 48 ;;; consputc 120 ;;; consputs (ptr_chars digits (u64 (ap k)) 16))) as Hptr
    by (do 2 (apply awake_bind; [apply awake_consputc|intros _]); apply awake_consputs).
  repeat apply awake_if; repeat first [apply IH; lia|apply awake_bind; [first [exact Hptr|apply awake_consputs|apply awake_consputc]|intros ?]].
Qed.

Lemma awake_printf str fmt ap : awake (printf str (Some fmt) ap).
Proof.
  unfold printf. apply awake_bind; [apply awake_gets|]. intros [|].
  - apply awake_bind; [apply awake_acquire|]. intros _. apply awake_bind; [eapply awake_printf_loop, Nat.lt_succ_diag_r|]. intros _. apply awake_release.
  - apply awake_bind; [apply awake_ret|]. intros _. apply awake_bind; [eapply awake_printf_loop, Nat.lt_succ_diag_r|]. intros _. apply awake_ret.
Qed.

Lemma awake_kprintf fmt args : awake (kprintf (F := F) fmt args).
Proof.
  apply awake_onf. intros x. unfold lift. pose proof (awake_printf (parg_str args) (codes fmt) (parg_word args)) as H.
  specialize (H (w_pr (snd x))). by destruct (printf _ _ _ _).
Qed.

(** [C37] Traps taken in the kernel are transparent: whatever runs while the
    interrupted code is descheduled, on whatever hart it continues, [sepc] and
    [sstatus] are back to what they were when [kerneltrap] returns.  Provided
    the devices' register accesses and interrupt handlers do not sleep
    ([devices_awake], which the drivers of Console.v, Virtio.v and Devices.v
    satisfy), only a timer interrupt gives up the processor. *)
Theorem kerneltrap_transparent (running : bool) s0 s :
  rg any any (fun _ _ s' => sepc (hart_of s') = sepc (hart_of s) /\ sstatus (hart_of s') = sstatus (hart_of s)) s0 (kerneltrap running s) /\
  (devices_awake -> scause (hart_of s) <> timer_cause -> post (fun _ _ => True) (kerneltrap running s)).
Proof.
  unfold Trap.kerneltrap. rewrite !bind_reg. fold (hart_of s). destruct (_ =? 0); [done|]. rewrite bind_gets. fold (hart_of s).
  destruct (intr_get _); [done|]. split.
  - apply rg_any. intros t0 w t. destruct (w =? 0).
    + do 4 (apply rg_any; intros ? ? ?). done.
    + do 2 (apply rg_any; intros ? ? ?). by rewrite bind_upd_hart.
  - intros Hd Hne. apply post_bind. eapply post_mono; [|by apply devintr_not_timer]. intros w t [->| ->]; cbn [Z.eqb].
    + do 4 (apply post_awake_bind; [first [apply awake_kprintf|apply awake_gets]|intros ? ?]). done.
    + unfold proc_of. rewrite bind_gets. cbn [Pos.eqb andb]. done.
Qed.

End Spec.
