(* ===== verification/SysfileInv.v ===== *)
(** * Descriptors and references

    The file system calls keep the reference count of every file equal to the
    number of descriptors, of all processes, that name it: File.v counts
    exactly what the tables of Proc.v hold. *)

From S2P Require Import Prelude Rely CMem Riscv Kalloc Vm VmAwake Sleeplock BlockLayer Log Pipe Tx Fs Printf Proc ProcInv File FileInv Syscall Sysfile Trap TrapInv TrapSpec.

(** ** Segments

    [seg E m]: each piece of [m] between two sleeps changes the state only as
    [E] allows, whatever happens to it in between. *)

Section Seg.

Context {S : Type} (E : S -> S -> Prop).

Definition seg {A} (m : M S A) : Prop := forall s, rg (fun _ _ => True) E (fun s0 _ s => E s0 s) s (m s).

Context (E_refl : forall s, E s s) (E_trans : forall s1 s2 s3, E s1 s2 -> E s2 s3 -> E s1 s3).

Lemma rg_weaken {A} (Q : S -> A -> S -> Prop) s0 s1 (o : outcome S A) :
  E s0 s1 -> (forall a s, Q s1 a s -> Q s0 a s) -> rg (fun _ _ => True) E Q s1 o -> rg (fun _ _ => True) E Q s0 o.
Proof. intros H1 H2. destruct o as [a s|msg|c s k|]; simpl; [exact (H2 a s)|done| |done]. intros [H3 H4]. split; [by eapply E_trans|done]. Qed.

Lemma seg_bind {A B} (m : M S A) (k : A -> M S B) : seg m -> (forall a, seg (k a)) -> seg (bind m k).
Proof.
  intros Hm Hk s. apply rg_bind. eapply rg_mono; [|apply Hm]. intros s0 a s1 H1.
  eapply rg_weaken; [exact H1| |apply Hk]. intros b s2 H2. exact (E_trans _ _ _ H1 H2).
Qed.

Lemma seg_ret {A} (a : A) : seg (ret a).
Proof. intros s. apply E_refl. Qed.
Lemma seg_panic {A} msg : seg (A := A) (panic msg).
Proof. by intros s. Qed.
Lemma seg_exhausted {A} : seg (A := A) exhausted.
Proof. by intros s. Qed.
Lemma seg_gets {A} (f : S -> A) : seg (gets f).
Proof. intros s. apply E_refl. Qed.
Lemma seg_modify f : (forall s, E s (f s)) -> seg (modify f).
Proof. intros Hf s. apply Hf. Qed.

End Seg.

Lemma seg_any {S A} (m : M S A) : seg (fun _ _ => True) m.
Proof. intros s. generalize (m s). intros o. generalize s. induction o as [a t|msg|c t k IH|]; simpl; auto. Qed.

Lemma seg_lift {S T A} (E : T -> T -> Prop) (E' : S -> S -> Prop) (get : S -> T) set (m : M T A) :
  (forall s t, E (get s) t -> E' s (set t s)) -> seg E m -> seg E' (lift get set m).
Proof.
  intros HE Hm s. unfold lift. specialize (Hm (get s)). revert Hm. generalize (m (get s)). intros o. revert s.
  induction o as [a t|msg|c t k IH|]; intros s; simpl; try done; [by apply HE|]. intros [H1 H2]. split; [by apply HE|].
  intros s' _. apply IH. by apply H2.
Qed.

(** ** What the calls may change of the file table *)

(** Neither the lock, nor the counts, nor the types. *)
Record same_refs (t t' : ftable) : Prop := {
  sr_lock : ft_lock t' = ft_lock t;
  sr_ref k : fl_ref (ft_file t' k) = fl_ref (ft_file t k);
  sr_type k : fl_type (ft_file t' k) = fl_type (ft_file t k);
}.

Lemma same_refs_refl t : same_refs t t.
Proof. by split. Qed.
Lemma same_refs_trans t1 t2 t3 : same_refs t1 t2 -> same_refs t2 t3 -> same_refs t1 t3.
Proof. intros [A1 A2 A3] [B1 B2 B3]. split; [congruence|intros k; by rewrite B2|intros k; by rewrite B3]. Qed.

Section Layer.

Context {S : Type} `{BL : BlockLayer S} {D : Type}.

Notation FL := (fl (S := S) (D := D)).
Notation MX := (M (kmem * FL)).

Definition keeps_refs (x y : kmem * FL) : Prop := same_refs (f_table (snd x)) (f_table (snd y)).
Notation segx := (seg keeps_refs).

Lemma keeps_refl x : keeps_refs x x.
Proof. apply same_refs_refl. Qed.
Lemma keeps_trans x y z : keeps_refs x y -> keeps_refs y z -> keeps_refs x z.
Proof. apply same_refs_trans. Qed.

Lemma segx_bind {A B} (m : MX A) (k : A -> MX B) : segx m -> (forall a, segx (k a)) -> segx (bind m k).
Proof. apply seg_bind. apply keeps_trans. Qed.

Lemma segx_mem {A} (m : M kmem A) : segx (mem_op m).
Proof. eapply seg_lift; [|apply seg_any]. intros s t _. apply same_refs_refl. Qed.
Lemma segx_over {A} (m : M FL A) : seg (fun x y => f_table y = f_table x) m -> segx (over m).
Proof. apply seg_lift. intros s t E. unfold keeps_refs. cbn [snd]. rewrite E. apply same_refs_refl. Qed.
Lemma segx_fs {A} (m : M (fsys (@lstate S)) A) : segx (on_fs m).
Proof. apply segx_over. by eapply seg_lift; [|apply seg_any]. Qed.
Lemma segx_log {A} (m : M (@lstate S) A) : segx (on_log m).
Proof. apply segx_fs. Qed.
Lemma segx_pipe {A} a (m : M pst A) : segx (on_pipe a m).
Proof. apply segx_over. by eapply seg_lift; [|apply seg_any]. Qed.
Lemma segx_dev {A} (m : M D A) : segx (on_dev m).
Proof. apply segx_over. by eapply seg_lift; [|apply seg_any]. Qed.
Lemma segx_file_at f : segx (file_at f).
Proof. apply seg_gets, keeps_refl. Qed.
Lemma segx_ret {A} (a : A) : segx (ret a).
Proof. apply seg_ret, keeps_refl. Qed.
Lemma segx_gets {A} (f : kmem * FL -> A) : segx (gets f).
Proof. apply seg_gets, keeps_refl. Qed.
Lemma segx_panic {A} msg : segx (panic (A := A) msg).
Proof. apply seg_panic. Qed.
Lemma segx_exhausted {A} : segx (exhausted (A := A)).
Proof. apply seg_exhausted. Qed.

Lemma segx_table {A} (m : M ftable A) : seg same_refs m -> segx (on_table m).
Proof.
  intros Hm. unfold on_table, over.
  apply (seg_lift (fun x y => same_refs (f_table x) (f_table y))); [done|]. by apply (seg_lift same_refs).
Qed.

Lemma segx_upd_file f g :
  (forall e, fl_ref (g e) = fl_ref e /\ fl_type (g e) = fl_type e) -> segx (upd_file f g).
Proof.
  intros Hg. apply segx_table, seg_modify. intros t. split; [done| |]; intros k; cbn -[fset]; fset_cases; subst; try done; apply Hg.
Qed.

Create HintDb segx.
#[local] Hint Resolve segx_mem segx_fs segx_log segx_pipe segx_dev segx_file_at segx_ret segx_gets segx_panic segx_exhausted : segx.

Ltac segx :=
  repeat first
    [ match goal with
      | |- seg _ (bind _ _) => apply segx_bind; [|intros ?]
      | |- seg _ (if ?b then _ else _) => destruct b
      | |- seg _ (match ?x with _ => _ end) => destruct x
      | |- seg _ (let _ := _ in _) => cbv zeta
      end
    | solve [eauto with segx]
    | apply segx_upd_file; done ].

Context (pid kend : Z) (devs : Z -> devsw D) (wakes : nat).

Lemma segx_fileread f addr dst n : segx (fileread pid devs wakes f addr dst n).
Proof. unfold fileread. segx. Qed.

Lemma segx_filestat f addr dst pad : segx (filestat pid wakes f addr dst pad).
Proof. unfold filestat. segx. Qed.

Lemma segx_filewrite_loop f ip addr src n i fuel : segx (filewrite_loop pid wakes f ip addr src n i fuel).
Proof. revert i. induction fuel as [|fu IH]; intros i; cbn [filewrite_loop]; segx. Qed.
#[local] Hint Resolve segx_filewrite_loop : segx.

Lemma segx_filewrite f addr src n : segx (filewrite pid devs wakes f addr src n).
Proof. unfold filewrite. segx. Qed.

(** The part of [fileclose] behind the file table. *)
Definition close_layer (last : option file) : MX unit :=
  match last with
  | None => ret tt
  | Some ff =>
      match fl_type ff with
      | FD_PIPE => pipeclose_page kend (fl_pipe ff) (fl_writable ff)
      | FD_INODE | FD_DEVICE => on_log (begin_op wakes) ;;; on_fs (iput pid (fl_ip ff - 1) wakes) ;;; on_log end_op
      | FD_NONE => ret tt
      end
  end.

Lemma segx_close_layer last : segx (close_layer last).
Proof. unfold close_layer, pipeclose_page. segx. Qed.

(** Closing the end of a pipe, or a file that was never used, does not
    sleep. *)
Lemma awake_close_layer last :
  match last with Some ff => fl_type ff = FD_PIPE \/ fl_type ff = FD_NONE | None => True end -> awake (close_layer last).
Proof.
  destruct last as [ff|]; [|intros _; apply awake_ret]. unfold close_layer. intros [-> | ->]; [|apply awake_ret].
  unfold pipeclose_page. apply awake_bind.
  - apply awake_lift, awake_lift. unfold pipeclose, pipe_acquire, pipe_release, wakeup_chan.
    apply awake_bind; [apply awake_acquire|intros _]. apply awake_bind; [apply awake_modify|intros _].
    apply awake_bind; [apply awake_ret|intros _]. apply awake_bind; [apply awake_gets|intros p].
    apply awake_if; [apply awake_bind; [apply awake_release|intros _; apply awake_modify]|apply awake_release].
  - intros _. apply awake_bind; [apply awake_gets|]. intros [|]; [apply awake_lift, awake_kfree|apply awake_ret].
Qed.

End Layer.

(** ** Counting descriptors *)

Definition count (f : Z) (l : list Z) : Z := Z.of_nat (length (filter (fun x => x = f) l)).
Definition hit (x f : Z) : Z := if decide (x = f) then 1 else 0.

Lemma count_cons f x l : count f (x :: l) = hit x f + count f l.
Proof. unfold count, hit. rewrite filter_cons. case_decide; simpl; lia. Qed.

Lemma count_insert f l : forall k x y, l !! k = Some x -> count f (<[k := y]> l) = count f l - hit x f + hit y f.
Proof.
  induction l as [|z l IH]; intros [|k] x y; simpl; try done.
  - intros [= ->]. rewrite !count_cons. lia.
  - intros H. rewrite !count_cons, (IH k x y H). lia.
Qed.

Lemma count_range f l : 0 <= count f l <= Z.of_nat (length l).
Proof. unfold count. pose proof (length_filter (fun x => x = f) l). lia. Qed.

Fixpoint total (g : Z -> Z) (l : list Z) : Z := match l with [] => 0 | i :: l' => g i + total g l' end.

Lemma total_ext g g' l : (forall i, i ∈ l -> g i = g' i) -> total g l = total g' l.
Proof. induction l as [|i l IH]; intros H; simpl; [done|]. rewrite (H i), IH by set_solver. done. Qed.

Lemma total_upd g g' me l : NoDup l -> me ∈ l -> (forall i, i <> me -> g' i = g i) -> total g' l = total g l + (g' me - g me).
Proof.
  intros Hn Hm Hg. induction Hn as [|i l Hi Hn IH]; [by apply elem_of_nil in Hm|]. simpl.
  apply elem_of_cons in Hm as [->|Hm].
  - rewrite (total_ext g' g l); [lia|]. intros j Hj. apply Hg. by intros ->.
  - rewrite IH by done. rewrite (Hg i) by (by intros ->). lia.
Qed.

Lemma total_range g l m : (forall i, 0 <= g i <= m) -> 0 <= total g l <= m * Z.of_nat (length l).
Proof. intros H. induction l as [|i l IH]; simpl; [lia|]. pose proof (H i). lia. Qed.

Definition table_indices : list Z := seqZ 0 NPROC.

Lemma in_table_indices i : in_table i <-> i ∈ table_indices.
Proof. unfold in_table, table_indices. rewrite elem_of_seqZ. lia. Qed.

Section Refs.

Context {S : Type} `{BL : BlockLayer S} {D : Type}.

Notation FL := (fl (S := S) (D := D)).
Notation K := (kst (world FL)).

Implicit Types s : K.

Definition the_table s : ftable := f_table (w_files (files s)).

(** The descriptors that name [f]. *)
Definition refs s (f : Z) : Z := total (fun i => count f (p_ofile (procs s i))) table_indices.

(** The invariant, with [c f] references to [f] in the hands of the running
    code (negative: descriptors without a reference). *)
Record fd_inv (c : Z -> Z) s : Prop := {
  fd_lock : ft_lock (the_table s) = false;
  fd_ref f : file_ptr f -> fl_ref (ft_file (the_table s) (f - 1)) = refs s f + c f;
  fd_len i : length (p_ofile (procs s i)) = Z.to_nat NOFILE;
  fd_ptr i f : f ∈ p_ofile (procs s i) -> f = 0 \/ file_ptr f;
  fd_none f : file_ptr f -> fl_ref (ft_file (the_table s) (f - 1)) = 0 -> fl_type (ft_file (the_table s) (f - 1)) = FD_NONE;
}.

Definition none : Z -> Z := fun _ => 0.

Lemma refs_between s f : (forall i, length (p_ofile (procs s i)) = Z.to_nat NOFILE) -> 0 <= refs s f <= 1024.
Proof.
  intros Hl. destruct (total_range (fun i => count f (p_ofile (procs s i))) table_indices 16) as [H1 H2].
  - intros i. pose proof (count_range f (p_ofile (procs s i))). rewrite Hl in *. change (Z.of_nat (Z.to_nat NOFILE)) with 16 in *. lia.
  - unfold refs. change (Z.of_nat (length table_indices)) with 64 in H2. lia.
Qed.

(** Changes the invariant does not see. *)
Record same_fd s s' : Prop := {
  sf_ofile i : p_ofile (procs s' i) = p_ofile (procs s i);
  sf_refs : same_refs (the_table s) (the_table s');
}.

Lemma same_fd_refl s : same_fd s s.
Proof. split; [done|apply same_refs_refl]. Qed.
Lemma same_fd_trans s1 s2 s3 : same_fd s1 s2 -> same_fd s2 s3 -> same_fd s1 s3.
Proof. intros [A1 A2] [B1 B2]. split; [intros i; by rewrite B1|by eapply same_refs_trans]. Qed.

Lemma same_fd_inv c s s' : same_fd s s' -> fd_inv c s -> fd_inv c s'.
Proof.
  intros [Ho [L R T]] [H1 H2 H3 H4 H5]. assert (forall f, refs s' f = refs s f) as Hr by (intros f; apply total_ext; intros i _; by rewrite Ho).
  split.
  - by rewrite L.
  - intros f Hf. rewrite R, Hr. by apply H2.
  - intros i. rewrite Ho. apply H3.
  - intros i f. rewrite Ho. apply H4.
  - intros f Hf. rewrite R, T. by apply H5.
Qed.

(** ** The steps that move references *)

Definition add (c : Z -> Z) (f d : Z) : Z -> Z := fset c f (c f + d).

Lemma fd_inv_ext c c' s : (forall f, file_ptr f -> c f = c' f) -> fd_inv c s -> fd_inv c' s.
Proof. intros Hc [H1 H2 H3 H4 H5]. split; try done. intros f Hf. rewrite <- Hc by done. by apply H2. Qed.

Lemma add_at c f d g : add c f d g = c g + (if decide (g = f) then d else 0).
Proof. unfold add, fset. destruct (decide (g = f)) as [->|]; lia. Qed.

(** Storing a descriptor. *)
Lemma refs_set_ofile me fd f x s g : in_table me -> p_ofile (procs s me) !! Z.to_nat fd = Some x ->
  refs (upd me (set_ofile fd f) s) g = refs s g - hit x g + hit f g.
Proof.
  intros Hm Hx. unfold refs. rewrite (total_upd (fun i => count g (p_ofile (procs s i))) _ me).
  - cbn -[fset]. rewrite fset_eq. cbn [set_ofile p_ofile]. rewrite (count_insert _ _ _ _ _ Hx). lia.
  - apply NoDup_seqZ.
  - by apply in_table_indices.
  - intros i Hi. cbn -[fset]. by rewrite fset_ne.
Qed.

Lemma fd_inv_set_ofile c me fd f x s : in_table me -> p_ofile (procs s me) !! Z.to_nat fd = Some x -> f = 0 \/ file_ptr f ->
  fd_inv c s -> fd_inv (fun g => c g + hit x g - hit f g) (upd me (set_ofile fd f) s).
Proof.
  intros Hm Hx Hf [H1 H2 H3 H4 H5]. split; try done.
  - intros g Hg. rewrite (refs_set_ofile _ _ _ x) by done. cbn [the_table files upd]. change (the_table (upd me (set_ofile fd f) s)) with (the_table s).
    rewrite H2 by done. lia.
  - intros i. cbn -[fset]. fset_cases; [|apply H3]. cbn. rewrite length_insert. apply H3.
  - intros i g. cbn -[fset]. fset_cases; [|apply H4]. cbn. intros [k Hk]%list_elem_of_lookup.
    apply list_lookup_insert_Some in Hk as [(_ & <- & _)|[_ Hk]]; [done|]. apply (H4 me), list_elem_of_lookup. by exists k.
Qed.

(** Taking an entry of the file table. *)
Lemma fd_inv_table c c' s t' : fd_inv c s ->
  ft_lock t' = false ->
  (forall f, file_ptr f -> fl_ref (ft_file t' (f - 1)) = refs s f + c' f) ->
  (forall f, file_ptr f -> fl_ref (ft_file t' (f - 1)) = 0 -> fl_type (ft_file t' (f - 1)) = FD_NONE) ->
  forall s', procs s' = procs s -> the_table s' = t' -> fd_inv c' s'.
Proof.
  intros [H1 H2 H3 H4 H5] L R N s' Hp Ht. subst t'. split; try done.
  - intros f Hf. rewrite R by done. unfold refs. by rewrite Hp.
  - intros i. rewrite Hp. apply H3.
  - intros i f. rewrite Hp. apply H4.
Qed.

(** ** Running the file layer *)

Definition kx s : kmem * FL := (km s, w_files (files s)).
Definition put (y : kmem * FL) s : K := set_kf (fst y, set_wfiles (snd y) (files s)) s.
Definition put_table (t : ftable) s : K := put (km s, set_table t (w_files (files s))) s.

Lemma onx_Done {A} (m : M (kmem * FL) A) s a y : m (kx s) = Done a y -> onx m s = Done a (put y s).
Proof. intros E. unfold onx, onf, on_files, lift. cbn [kf fst snd]. fold (kx s). by rewrite E. Qed.

Lemma onx_Panicked {A} (m : M (kmem * FL) A) s msg : m (kx s) = Panicked msg -> onx m s = Panicked msg.
Proof. intros E. unfold onx, onf, on_files, lift. cbn [kf fst snd]. fold (kx s). by rewrite E. Qed.

Lemma onx_bind {A B} (m : M (kmem * FL) A) (k : A -> M (kmem * FL) B) s a y :
  m (kx s) = Done a y -> onx (bind m k) s = onx (k a) (put y s).
Proof.
  destruct y as [y1 y2]. intros E. unfold onx, onf, on_files, lift, bind. cbn [kf fst snd]. fold (kx s). rewrite E. cbn [obind].
  change (km (put (y1, y2) s), w_files (files (put (y1, y2) s))) with (y1, y2). by destruct (k a (y1, y2)).
Qed.

Lemma post_onx_bind {A B} (m : M (kmem * FL) A) (k : A -> M (kmem * FL) B) (Q : B -> K -> Prop) s :
  post (fun a y => post Q (onx (k a) (put y s))) (m (kx s)) -> post Q (onx (bind m k) s).
Proof.
  destruct (m (kx s)) as [a y|msg|c y g|] eqn:E; cbn; try done.
  - by rewrite (onx_bind _ _ _ _ _ E).
  - intros _. rewrite (onx_Panicked _ _ msg); [done|]. unfold bind. by rewrite E.
  - intros _. unfold onx, onf, on_files, lift, bind. cbn [kf fst snd]. fold (kx s). by rewrite E.
Qed.

Lemma table_Done {A} (m : M ftable A) s a t : m (the_table s) = Done a t -> on_table m (kx s) = Done a (km s, set_table t (w_files (files s))).
Proof. intros E. unfold on_table, over, lift. cbn [snd kx]. fold (the_table s). by rewrite E. Qed.

Lemma onx_table {A} (m : M ftable A) s a t : m (the_table s) = Done a t -> onx (on_table m) s = Done a (put_table t s).
Proof. intros E. by apply onx_Done, table_Done. Qed.

(** Code of the file layer that keeps the references. *)
Lemma seg_onx {A} (m : M (kmem * FL) A) : seg keeps_refs m -> seg same_fd (onx m).
Proof.
  intros Hm. unfold onx, onf, on_files.
  apply (seg_lift (fun x y => keeps_refs (fst x, w_files (snd x)) (fst y, w_files (snd y)))).
  - intros s t H. by split.
  - apply (seg_lift keeps_refs); [|done]. by intros x y H.
Qed.

(** *** Allocation *)

Lemma post_filealloc c s : fd_inv c s ->
  post (fun f s' => if f =? 0 then same_fd s s' else
          file_ptr f /\ fl_ref (ft_file (the_table s) (f - 1)) = 0 /\ fd_inv (add c f 1) s' /\ fl_type (ft_file (the_table s') (f - 1)) = FD_NONE /\
          procs s' = procs s /\ forall k, k <> f - 1 -> ft_file (the_table s') k = ft_file (the_table s) k)
    (onx (on_table filealloc) s).
Proof.
  intros Hi. pose proof Hi as [H1 H2 H3 H4 H5]. pose proof (filealloc_spec (the_table s) H1) as E.
  destruct (first_free (the_table s) 0 _) as [j|] eqn:Ef; rewrite (onx_table _ _ _ _ E); cbn [post].
  - apply first_free_Some in Ef as (Hj & Hj0 & _). rewrite Z2Nat.id in Hj by done.
    assert (file_ptr (j + 1)) as Hp by (unfold file_ptr; lia).
    rewrite (proj2 (Z.eqb_neq _ 0)) by lia. split; [done|]. replace (j + 1 - 1) with j by lia. split; [done|].
    assert (fl_type (ft_file (the_table s) j) = FD_NONE) as Hn by (specialize (H5 (j + 1) Hp); replace (j + 1 - 1) with j in H5 by lia; auto).
    split; [|split; [cbn -[fset]; by rewrite fset_eq|split; [done|]]].
    + eapply (fd_inv_table c _ s); [done| | | |done|reflexivity].
      * done.
      * intros f Hf. rewrite add_at. cbn -[fset]. specialize (H2 f Hf). destruct (decide (f = j + 1)) as [->|Hne].
        -- replace (j + 1 - 1) with j in * by lia. rewrite fset_eq. cbn. lia.
        -- rewrite fset_ne by lia. lia.
      * intros f Hf. cbn -[fset]. destruct (decide (f = j + 1)) as [->|Hne].
        -- replace (j + 1 - 1) with j by lia. rewrite fset_eq. done.
        -- rewrite fset_ne by lia. by apply H5.
    + intros k Hk. cbn -[fset]. by rewrite fset_ne.
  - by split.
Qed.

Lemma post_filedup c f s : fd_inv c s -> file_ptr f -> c f <= 1 ->
  post (fun _ s' => fd_inv (add c f 1) s') (onx (on_table (filedup f)) s).
Proof.
  intros Hi Hf Hc. pose proof Hi as [H1 H2 H3 H4 H5]. pose proof (refs_between s f H3) as Hr. pose proof (H2 f Hf) as Hv.
  destruct (Z_lt_le_dec (fl_ref (ft_file (the_table s) (f - 1))) 1) as [Hlt|Hge].
  - rewrite (onx_Panicked _ _ "filedup"); [done|]. unfold on_table, over, lift. cbn [snd kx]. fold (the_table s).
    unfold filedup, ft_acquire. rewrite (bind_Done _ _ _ _ _ (acquire_lk_free _ _ _ H1)), bind_gets. cbn [set_ft_lock ft_file].
    by rewrite (proj2 (Z.ltb_lt _ _)) by lia.
  - rewrite (onx_table _ _ _ _ (filedup_spec f (the_table s) H1 ltac:(lia))). cbn [post].
    eapply (fd_inv_table c _ s); [done| | | |done|reflexivity].
    + done.
    + intros g Hg. rewrite add_at. cbn -[fset]. specialize (H2 g Hg). destruct (decide (g = f)) as [->|Hne].
      * rewrite fset_eq. cbn. lia.
      * rewrite fset_ne by lia. lia.
    + intros g Hg. cbn -[fset]. destruct (decide (g = f)) as [->|Hne].
      * rewrite fset_eq. cbn. lia.
      * rewrite fset_ne by lia. by apply H5.
Qed.

(** *** Closing *)

(** Types other than that of the closed file stay. *)
Definition types_but (f : Z) s s' : Prop :=
  forall g, g <> f -> fl_type (ft_file (the_table s') (g - 1)) = fl_type (ft_file (the_table s) (g - 1)).

Lemma close_ref_cases c f s : fd_inv c s -> file_ptr f -> c f <= 1 ->
  (exists msg, fileclose_ref f (the_table s) = Panicked msg) \/
  exists last t', fileclose_ref f (the_table s) = Done last t' /\ fd_inv (add c f (-1)) (put_table t' s) /\ types_but f s (put_table t' s) /\
    match last with Some ff => fl_type ff = fl_type (ft_file (the_table s) (f - 1)) | None => True end.
Proof.
  intros Hi Hf Hc. pose proof Hi as [H1 H2 H3 H4 H5]. pose proof (refs_between s f H3) as Hr. pose proof (H2 f Hf) as Hv.
  destruct (Z_lt_le_dec (fl_ref (ft_file (the_table s) (f - 1))) 1) as [Hlt|Hge].
  - left. exists "fileclose". unfold fileclose_ref, ft_acquire. rewrite (bind_Done _ _ _ _ _ (acquire_lk_free _ _ _ H1)), bind_gets.
    cbn [set_ft_lock ft_file]. by rewrite (proj2 (Z.ltb_lt _ _)) by lia.
  - right. destruct (fileclose_ref_spec f (the_table s)) as (t' & E1 & E2 & E3 & E4 & E5); [done|lia|].
    eexists _, t'. split; [exact E1|]. split; [|split].
    + eapply (fd_inv_table c _ s); [done|done| | |done|reflexivity].
      * intros g Hg. rewrite add_at. specialize (H2 g Hg). destruct (decide (g = f)) as [->|Hne]; [lia|]. rewrite E4 by lia. lia.
      * intros g Hg. destruct (decide (g = f)) as [->|Hne]; [intros H0; apply E5; lia|]. rewrite E4 by lia. by apply H5.
    + intros g Hg. change (the_table (put_table t' s)) with t'. by rewrite E4 by lia.
    + by destruct (_ =? 1).
Qed.

Context (me kend : Z) (wakes : nat).

Lemma fileclose_layers f : fileclose me kend wakes f = (last <- on_table (S := S) (D := D) (fileclose_ref f) ;; close_layer me kend wakes last).
Proof. done. Qed.

(** Closing a pipe end or an unused file, in one go. *)
Lemma post_fileclose c f s : fd_inv c s -> file_ptr f -> c f <= 1 ->
  fl_type (ft_file (the_table s) (f - 1)) = FD_PIPE \/ fl_type (ft_file (the_table s) (f - 1)) = FD_NONE ->
  post (fun _ s' => fd_inv (add c f (-1)) s' /\ types_but f s s') (onx (fileclose me kend wakes f) s).
Proof.
  intros Hi Hf Hc Hty. rewrite fileclose_layers. destruct (close_ref_cases c f s Hi Hf Hc) as [[msg E]|(last & t' & E & H1 & H2 & H3)].
  - rewrite (onx_Panicked _ _ msg); [done|]. unfold bind. unfold on_table, over, lift. cbn [snd kx]. fold (the_table s). by rewrite E.
  - rewrite (onx_bind _ _ _ _ _ (table_Done _ _ _ _ E)).
    pose proof (seg_onx _ (segx_close_layer me kend wakes last) (put_table t' s)) as Hseg.
    assert (awake (onx (D := D) (close_layer me kend wakes last))) as Haw.
    { apply awake_onf, awake_on_files, awake_close_layer. destruct last; [|done]. by rewrite H3. }
    specialize (Haw (put_table t' s)). fold (put_table t' s).
    destruct (onx (close_layer me kend wakes last) (put_table t' s)) as [a s'|msg|ch s' k|]; cbn in *; try done.
    split; [by eapply same_fd_inv|]. intros g Hg. destruct Hseg as [_ [_ _ T]]. rewrite T. by apply H2.
Qed.

(** ** The calls *)

Notation inv := (fd_inv none).
Notation proto := (rg (within (fun _ => True) (fun s s' => inv s -> inv s')) (fun _ s => inv s)).

Definition goodf {A} (m : M K A) : Prop := forall s0 s, inv s -> proto (fun _ _ s => inv s) s0 (m s).

Lemma goodf_seg {A} (m : M K A) : seg same_fd m -> goodf m.
Proof.
  intros Hm s0 s Hs. specialize (Hm s). revert Hm. generalize (m s). intros o. revert s0 s Hs.
  induction o as [a t|msg|ch t k IH|]; intros s0 s Hs; simpl; try done; [by intros H; eapply same_fd_inv|].
  intros [H1 H2]. split; [by eapply same_fd_inv|]. intros s' [H3 _]. eapply IH; [|by apply H2]. apply H3. by eapply same_fd_inv.
Qed.

Lemma goodf_bind {A B} (m : M K A) (k : A -> M K B) : goodf m -> (forall a, goodf (k a)) -> goodf (bind m k).
Proof. intros Hm Hk s0 s Hs. apply rg_bind. eapply rg_mono; [|by apply Hm]. intros t0 a t Ht. by apply Hk. Qed.

Lemma goodf_post {A} (m : M K A) s0 s : post (fun _ => inv) (m s) -> proto (fun _ _ s => inv s) s0 (m s).
Proof. intros H. by apply post_rg. Qed.

(** A first part that does not sleep, with any postcondition. *)
Lemma goodf_first {A B} (m : M K A) (k : A -> M K B) (Q : A -> K -> Prop) s0 s :
  post Q (m s) -> (forall a t, Q a t -> proto (fun _ _ s => inv s) s0 (k a t)) -> proto (fun _ _ s => inv s) s0 (bind m k s).
Proof. intros Hm Hk. apply rg_bind, post_rg. eapply post_mono; [|exact Hm]. intros a t Ht. by apply Hk. Qed.

Lemma goodf_ret {A} (a : A) : goodf (ret a).
Proof. by intros s0 s Hs. Qed.
Lemma goodf_gets {A} (f : K -> A) : goodf (gets f).
Proof. by intros s0 s Hs. Qed.
Lemma goodf_proc_of i : goodf (proc_of i).
Proof. apply goodf_gets. Qed.
Lemma goodf_panic {A} msg : goodf (panic (A := A) msg).
Proof. by intros s0 s Hs. Qed.

Lemma seg_onk {A} (m : M kmem A) : seg same_fd (onk m).
Proof. eapply seg_lift; [|apply seg_any]. intros s t _. by split. Qed.
Lemma seg_kprintf fmt args : seg same_fd (kprintf (F := FL) fmt args).
Proof.
  unfold kprintf, onf. eapply (seg_lift (fun x y => f_table (w_files (snd y)) = f_table (w_files (snd x)))).
  - intros s t H. split; [done|]. unfold the_table. cbn. rewrite H. apply same_refs_refl.
  - by eapply seg_lift; [|apply seg_any].
Qed.
Lemma seg_upd_cwd i v : seg same_fd (upd_proc (F := world FL) i (set_cwd v)).
Proof. apply seg_modify. intros s. split; [|apply same_refs_refl]. intros j. cbn -[fset]. by fset_cases. Qed.

Lemma goodf_onk {A} (m : M kmem A) : goodf (onk m).
Proof. apply goodf_seg, seg_onk. Qed.
Lemma goodf_kprintf fmt args : goodf (kprintf fmt args).
Proof. apply goodf_seg, seg_kprintf. Qed.
Lemma goodf_onx {A} (m : M (kmem * FL) A) : seg keeps_refs m -> goodf (onx m).
Proof. intros Hm. by apply goodf_seg, seg_onx. Qed.
Lemma goodf_fs {A} (m : M (fsys (@lstate S)) A) : goodf (fs m).
Proof. apply goodf_onx, segx_fs. Qed.
Lemma goodf_begin_tx : goodf (begin_tx wakes).
Proof. apply goodf_onx, segx_log. Qed.
Lemma goodf_end_tx : goodf end_tx.
Proof. apply goodf_onx, segx_log. Qed.
Lemma goodf_upd_cwd i v : goodf (upd_proc i (set_cwd v)).
Proof. apply goodf_seg, seg_upd_cwd. Qed.

Create HintDb goodf.
#[local] Hint Resolve goodf_ret goodf_gets goodf_proc_of goodf_panic goodf_onk goodf_kprintf goodf_fs goodf_begin_tx goodf_end_tx goodf_upd_cwd : goodf.

Ltac goodf :=
  repeat first
    [ match goal with
      | |- goodf (bind _ _) => apply goodf_bind; [|intros ?]
      | |- goodf (if ?b then _ else _) => destruct b
      | |- goodf (match ?x with _ => _ end) => destruct x
      | |- goodf (let _ := _ in _) => cbv zeta
      end
    | solve [eauto with goodf] ].

Context (devs : Z -> devsw D) (fuel : nat) (stack : list byte).

Lemma goodf_trace fmt args : goodf (trace me fmt args).
Proof. unfold trace. goodf. Qed.
Lemma goodf_argraw n : goodf (argraw me n).
Proof. unfold argraw. goodf. Qed.
#[local] Hint Resolve goodf_trace goodf_argraw : goodf.
Lemma goodf_argint n : goodf (argint me n).
Proof. unfold argint. goodf. Qed.
Lemma goodf_argaddr n : goodf (argaddr me n).
Proof. unfold argaddr. goodf. Qed.
Lemma goodf_fetchstr a n : goodf (fetchstr me fuel a n).
Proof. unfold fetchstr. goodf. Qed.
#[local] Hint Resolve goodf_argint goodf_argaddr goodf_fetchstr : goodf.
Lemma goodf_argpath n : goodf (argpath me fuel n).
Proof. unfold argpath, argstr. goodf. Qed.
Lemma goodf_the_cwd : goodf (the_cwd me).
Proof. unfold the_cwd. goodf. Qed.
Lemma goodf_the_dst : goodf (the_dst me fuel).
Proof. apply goodf_gets. Qed.
Lemma goodf_the_src : goodf (the_src me fuel).
Proof. apply goodf_gets. Qed.
Lemma goodf_store_user a l : goodf (store_user me fuel a l).
Proof. unfold store_user. goodf. Qed.
Lemma goodf_cprintfn l : goodf (cprintfn l).
Proof. induction l as [|c l IH]; cbn [cprintfn]; unfold cputc_encoded; goodf. Qed.
Lemma goodf_argfd n : goodf (argfd me n).
Proof. unfold argfd. goodf. Qed.
#[local] Hint Resolve goodf_argpath goodf_the_cwd goodf_the_dst goodf_the_src goodf_store_user goodf_cprintfn goodf_argfd : goodf.

Lemma goodf_sys_read : goodf (sys_read devs me wakes fuel).
Proof. unfold sys_read. goodf. apply goodf_onx, segx_fileread. Qed.
Lemma goodf_sys_write : goodf (sys_write devs me wakes fuel stack).
Proof. unfold sys_write, trace_write. goodf. apply goodf_onx, segx_filewrite. Qed.
Lemma goodf_sys_fstat : goodf (sys_fstat me wakes fuel stack).
Proof. unfold sys_fstat. goodf. apply goodf_onx, segx_filestat. Qed.
Lemma goodf_sys_link : goodf (sys_link me wakes fuel stack).
Proof. unfold sys_link. goodf. Qed.
Lemma goodf_sys_unlink : goodf (sys_unlink me wakes fuel stack).
Proof. unfold sys_unlink. goodf. Qed.
Lemma goodf_sys_mkdir : goodf (sys_mkdir me wakes fuel stack).
Proof. unfold sys_mkdir. goodf. Qed.
Lemma goodf_sys_mknod : goodf (sys_mknod me wakes fuel stack).
Proof. unfold sys_mknod. goodf. Qed.
Lemma goodf_sys_chdir : goodf (sys_chdir me wakes fuel).
Proof. unfold sys_chdir. goodf. Qed.

(** *** The calls that move references *)

Hypothesis me_in_table : in_table me.

Lemma post_seg {A} (m : M K A) s : awake m -> seg same_fd m -> post (fun _ s' => same_fd s s') (m s).
Proof. intros Ha Hm. specialize (Ha s). specialize (Hm s). by destruct (m s). Qed.

Lemma post_trace fmt args s : post (fun _ s' => same_fd s s') (trace me fmt args s).
Proof.
  apply post_seg; unfold trace.
  - apply awake_bind; [apply awake_gets|]. intros p. destruct (p_tracing p); [apply awake_kprintf|apply awake_ret].
  - apply seg_bind; [apply same_fd_trans|apply seg_gets, same_fd_refl|]. intros p.
    destruct (p_tracing p); [apply seg_kprintf|apply seg_ret, same_fd_refl].
Qed.

Lemma nth_lookup_default (l : list Z) k : (k < length l)%nat -> l !! k = Some (nth k l 0).
Proof. intros H. destruct (lookup_lt_is_Some_2 l k H) as [x Hx]. by rewrite Hx, (nth_lookup_Some _ _ _ _ Hx). Qed.

Lemma post_argfd c n s : fd_inv c s -> 0 <= n <= 5 ->
  post (fun a s' => s' = s /\ match a with
          | Some (fd, f) => p_ofile (procs s me) !! Z.to_nat fd = Some f /\ file_ptr f
          | None => True end) (argfd me n s).
Proof.
  intros Hi Hn. unfold argfd, argint, argraw, proc_of. rewrite (proj2 (Z.leb_le 0 n)), (proj2 (Z.leb_le n 5)) by lia. cbn [andb].
  set (v := s32 (load64 (ram (km s)) (p_tf (procs s me) + tf_arg n))).
  rewrite (bind_Done _ _ s v s) by done. destruct (Z.ltb_spec v 0); [done|]. destruct (Z.geb_spec v NOFILE); [done|]. cbn [orb].
  rewrite bind_gets. destruct (Z.eqb_spec (ofile_at (procs s me) v) 0) as [E|E]; [done|]. split; [done|].
  assert (p_ofile (procs s me) !! Z.to_nat v = Some (ofile_at (procs s me) v)) as Hl.
  { apply nth_lookup_default. rewrite (fd_len _ _ Hi). lia. }
  split; [done|]. destruct (fd_ptr _ _ Hi me (ofile_at (procs s me) v)); [by eapply list_elem_of_lookup_2|done|done].
Qed.

Lemma post_fdalloc c f s : fd_inv c s -> file_ptr f ->
  post (fun r s' => if r <? 0 then s' = s else
          0 <= r < NOFILE /\ p_ofile (procs s me) !! Z.to_nat r = Some 0 /\ s' = upd me (set_ofile r f) s) (fdalloc me f s).
Proof.
  intros Hi Hf. unfold fdalloc. assert (forall left fd, 0 <= fd -> fd + Z.of_nat left <= NOFILE ->
    post (fun r s' => if r <? 0 then s' = s else
          0 <= r < NOFILE /\ p_ofile (procs s me) !! Z.to_nat r = Some 0 /\ s' = upd me (set_ofile r f) s) (fdalloc_loop me f fd left s)) as H.
  { induction left as [|l IH]; intros fd H1 H2; cbn [fdalloc_loop]; [done|]. unfold proc_of. rewrite bind_gets.
    destruct (Z.eqb_spec (ofile_at (procs s me) fd) 0) as [E|E]; [|apply IH; lia].
    cbn -[fset]. rewrite (proj2 (Z.ltb_ge fd 0)) by lia. split; [lia|]. split; [|done]. rewrite <- E. apply nth_lookup_default.
    rewrite (fd_len _ _ Hi). lia. }
  apply H; [lia|by vm_compute].
Qed.

Lemma hit_ptr (g : Z) : file_ptr g -> hit 0 g = 0.
Proof. unfold hit, file_ptr. intros H. by rewrite decide_False by lia. Qed.

(** Storing [f] in a free slot hands its reference to the table, and clearing
    a slot takes it back. *)
Lemma fd_inv_give c fd f s : fd_inv c s -> file_ptr f -> p_ofile (procs s me) !! Z.to_nat fd = Some 0 ->
  fd_inv (add c f (-1)) (upd me (set_ofile fd f) s).
Proof.
  intros Hi Hf Hl. eapply fd_inv_ext; [|apply (fd_inv_set_ofile c me fd f 0 s me_in_table Hl); [by right|exact Hi]].
  intros g Hg. cbn beta. rewrite add_at, (hit_ptr g) by done. unfold hit. repeat case_decide; congruence || lia.
Qed.

Lemma fd_inv_take c fd f s : fd_inv c s -> p_ofile (procs s me) !! Z.to_nat fd = Some f ->
  fd_inv (add c f 1) (upd me (set_ofile fd 0) s).
Proof.
  intros Hi Hl. eapply fd_inv_ext; [|apply (fd_inv_set_ofile c me fd 0 f s me_in_table Hl); [by left|exact Hi]].
  intros g Hg. cbn beta. rewrite add_at, (hit_ptr g) by done. unfold hit. repeat case_decide; congruence || lia.
Qed.

Lemma none_again f d g : add (add none f d) f (- d) g = none g.
Proof. rewrite !add_at. case_decide; lia. Qed.

Lemma goodf_sys_dup : goodf (sys_dup me).
Proof.
  intros s0 s Hs. unfold sys_dup. eapply goodf_first; [by eapply post_argfd|]. intros [[fdin f]|] t [-> Ha]; [|done]. destruct Ha as [_ Hf].
  eapply goodf_first; [by eapply post_fdalloc|]. intros r t Ht. cbn beta in Ht. destruct (r <? 0); [by subst|].
  destruct Ht as (Hr & Hl & ->).
  eapply goodf_first; [apply post_trace|]. intros u t Ht. cbn beta in Ht.
  eapply goodf_first; [apply (post_filedup (add none f (-1))); [|done|]|].
  - eapply same_fd_inv; [exact Ht|]. by apply fd_inv_give.
  - rewrite add_at. by case_decide.
  - intros u' t' H. cbn beta in H. cbn. eapply fd_inv_ext; [|exact H]. intros g _. apply (none_again f (-1)).
Qed.

Lemma rg_fileclose f s0 s : fd_inv (add none f 1) s -> file_ptr f -> proto (fun _ _ s => inv s) s0 (onx (fileclose me kend wakes f) s).
Proof.
  intros Hi Hf. rewrite fileclose_layers.
  destruct (close_ref_cases (add none f 1) f s Hi Hf ltac:(rewrite add_at; by case_decide)) as [[msg E]|(last & t' & E & H1 & _)].
  - rewrite (onx_Panicked _ _ msg); [done|]. unfold bind. unfold on_table, over, lift. cbn [snd kx]. fold (the_table s). by rewrite E.
  - rewrite (onx_bind _ _ _ _ _ (table_Done _ _ _ _ E)). fold (put_table t' s). apply goodf_onx; [apply segx_close_layer|].
    eapply fd_inv_ext; [|exact H1]. intros g _. apply (none_again f 1).
Qed.

Lemma goodf_sys_close : goodf (sys_close kend me wakes).
Proof.
  intros s0 s Hs. unfold sys_close. eapply goodf_first; [by eapply post_argfd|]. intros [[fd f]|] t [-> Ha]; [|done]. destruct Ha as [Hl Hf].
  eapply goodf_first; [apply post_trace|]. intros u t Ht. cbn beta in Ht. unfold upd_proc. rewrite bind_modify.
  apply rg_bind. eapply rg_mono; [|apply (rg_fileclose f); [|done]].
  - by intros.
  - apply fd_inv_take; [by eapply same_fd_inv|]. destruct Ht as [-> _]. done.
Qed.

(** *** Opening *)

Lemma refs_give c fd f s : fd_inv c s -> file_ptr f -> p_ofile (procs s me) !! Z.to_nat fd = Some 0 ->
  1 <= refs (upd me (set_ofile fd f) s) f.
Proof.
  intros Hi Hf Hl. rewrite (refs_set_ofile _ _ _ 0) by done. rewrite (hit_ptr f) by done. unfold hit. rewrite decide_True by done.
  pose proof (refs_between s f (fd_len _ _ Hi)). lia.
Qed.

Lemma post_open_file s : inv s ->
  post (fun o s' => inv s' /\ match o with Some (f, _) => file_ptr f /\ 1 <= refs s' f | None => True end) (open_file kend me wakes s).
Proof.
  intros Hs. unfold open_file. apply post_bind. eapply post_mono; [|by apply post_filealloc]. intros f t Ht. cbn beta in Ht.
  destruct (f =? 0); [split; [by eapply same_fd_inv|done]|]. destruct Ht as (Hf & _ & Hi & Hty & _).
  apply post_bind. eapply post_mono; [|by eapply post_fdalloc]. intros r t' Ht'. cbn beta in Ht'. destruct (r <? 0).
  - subst t'. apply post_bind. eapply post_mono; [|apply (post_fileclose (add none f 1)); [done|done| |by right]].
    + intros u' t1 [H1 _]. split; [|done]. eapply fd_inv_ext; [|exact H1]. intros g _. apply (none_again f 1).
    + rewrite add_at. by case_decide.
  - destruct Ht' as (Hr & Hl & ->). cbn. split; [|split; [done|by eapply refs_give]].
    eapply fd_inv_ext; [|by apply fd_inv_give]. intros g _. apply (none_again f 1).
Qed.

Lemma same_fd_refs s s' f : same_fd s s' -> refs s' f = refs s f.
Proof. intros [H _]. apply total_ext. intros i _. by rewrite H. Qed.

(** The fields of a file that is in use. *)
Lemma fd_inv_fields c f g s : fd_inv c s -> file_ptr f -> refs s f + c f <> 0 -> (forall e, fl_ref (g e) = fl_ref e) ->
  fd_inv c (put_table (set_file (f - 1) g (the_table s)) s).
Proof.
  intros Hi Hf Hr Hg. pose proof Hi as [H1 H2 H3 H4 H5].
  apply (fd_inv_table c c s (set_file (f - 1) g (the_table s))); [done|done| | |done|reflexivity].
  - intros h Hh. cbn -[fset]. destruct (decide (h = f)) as [->|Hne]; [rewrite fset_eq, Hg|rewrite fset_ne by lia]; by apply H2.
  - intros h Hh. cbn -[fset]. destruct (decide (h = f)) as [->|Hne]; [rewrite fset_eq, Hg|rewrite fset_ne by lia; by apply H5].
    rewrite H2 by done. lia.
Qed.

Lemma goodf_open_inode path omode : goodf (open_inode me wakes stack path omode).
Proof. unfold open_inode. goodf. Qed.

Lemma rg_open_rest ip omode f (fd : Z) s0 s : inv s -> file_ptr f -> 1 <= refs s f ->
  proto (fun _ _ s => inv s) s0
    ((i <- fs (inode_of ip) ;; onx (upd_file f (opened i ip omode)) ;;; fs (iunlock me (Some ip)) ;;; end_tx ;;; ret fd) s).
Proof.
  intros Hs Hf Hr. eapply (goodf_first _ _ (fun _ s' => same_fd s s')).
  { cbn. split; [done|apply same_refs_refl]. }
  intros i t Ht. eapply (goodf_first _ _ (fun _ => inv)).
  - unfold upd_file. rewrite (onx_table _ _ tt (set_file (f - 1) (opened i ip omode) (the_table t)) eq_refl). cbn [post].
    apply fd_inv_fields; [by eapply same_fd_inv|done|rewrite (same_fd_refs s) by done; unfold none; lia|done].
  - intros u' t' Ht'. cbn beta in Ht'. apply (goodf_bind (fs (iunlock me (Some ip)))); [goodf|intros _; goodf|exact Ht'].
Qed.

Lemma goodf_sys_open : goodf (sys_open kend me wakes fuel stack).
Proof.
  unfold sys_open. apply goodf_bind; [goodf|intros path]. destruct (_ <? 0); [goodf|]. apply goodf_bind; [goodf|intros omode].
  apply goodf_bind; [goodf|intros _]. apply goodf_bind; [goodf|intros _]. apply goodf_bind; [apply goodf_open_inode|intros [ip|]; [|goodf]].
  apply goodf_bind; [goodf|intros i]. destruct (_ && _); [goodf|]. intros s0 s Hs.
  eapply goodf_first; [by apply post_open_file|]. intros [[f fd]|] t [Ht Hf].
  - destruct Hf as [Hf Hr]. by apply rg_open_rest.
  - revert s0 t Ht. clear s Hs Hf. intros s0 t Ht.
    apply (goodf_bind (fs (iunlockput me ip wakes))); [goodf|intros _; goodf|exact Ht].
Qed.

(** *** Pipes *)

Lemma post_onx_seq {A B} (m : M (kmem * FL) A) (k : A -> M (kmem * FL) B) (Q : B -> K -> Prop) s :
  post (fun a t => post Q (onx (k a) t)) (onx m s) -> post Q (onx (bind m k) s).
Proof.
  intros H. apply post_onx_bind. destruct (m (kx s)) as [a y|msg|c y g|] eqn:E; try done.
  - by rewrite (onx_Done _ _ _ _ E) in H.
  - revert H. unfold onx, onf, on_files, lift. cbn [kf fst snd]. fold (kx s). by rewrite E.
Qed.

Lemma post_onx_keeps {A} (m : M (kmem * FL) A) s : awake m -> seg keeps_refs m -> post (fun _ s' => same_fd s s') (onx m s).
Proof. intros Ha Hm. apply post_seg; [by apply awake_onf, awake_on_files|by apply seg_onx]. Qed.

Definition file_type s (f : Z) : fdtype := fl_type (ft_file (the_table s) (f - 1)).

(** Two files in the hands of the running code, of types that close in one
    go. *)
Record two_files (ty : fdtype) (f0 f1 : Z) s : Prop := {
  tw_inv : fd_inv (add (add none f0 1) f1 1) s;
  tw_ptr0 : file_ptr f0;
  tw_ptr1 : file_ptr f1;
  tw_ne : f0 <> f1;
  tw_ty0 : file_type s f0 = ty;
  tw_ty1 : file_type s f1 = ty;
}.

Lemma two_files_same ty f0 f1 s s' : same_fd s s' -> two_files ty f0 f1 s -> two_files ty f0 f1 s'.
Proof.
  intros Hs [H1 H2 H3 H4 H5 H6]. pose proof Hs as [_ [_ _ T]]. split; try done; [by eapply same_fd_inv| |]; unfold file_type; by rewrite T.
Qed.

Lemma post_close_two {A} ty f0 f1 (a : A) s : two_files ty f0 f1 s -> ty = FD_PIPE \/ ty = FD_NONE ->
  post (fun _ => inv) ((onx (fileclose me kend wakes f0) ;;; onx (fileclose me kend wakes f1) ;;; ret a) s).
Proof.
  intros [H1 H2 H3 H4 H5 H6] Hty. apply post_bind. eapply post_mono; [|apply (post_fileclose _ f0 s H1 H2)].
  - intros _ t [Ht Hb]. apply post_bind. eapply post_mono; [|apply (post_fileclose _ f1 t Ht H3)].
    + intros _ t' [Ht' _]. cbn. eapply fd_inv_ext; [|exact Ht']. intros g _. rewrite !add_at. unfold none. repeat case_decide; lia.
    + rewrite !add_at. unfold none. repeat case_decide; lia.
    + unfold file_type in H6. by rewrite (Hb f1), H6 by done.
  - rewrite !add_at. unfold none. repeat case_decide; congruence || lia.
  - unfold file_type in H5. by rewrite H5.
Qed.

Lemma post_onx_ret {A} (a : A) (Q : A -> K -> Prop) s : (forall t, same_fd s t -> Q a t) -> post Q (onx (ret a) s).
Proof. intros H. rewrite (onx_Done (ret a) s a (kx s) eq_refl). cbn [post]. apply H. by split. Qed.

Lemma post_onx_close_two ty f0 f1 (a : Z * Z * Z) s : two_files ty f0 f1 s -> ty = FD_PIPE \/ ty = FD_NONE ->
  post (fun r s' => r = a /\ inv s') (onx (fileclose me kend wakes f0 ;;; fileclose me kend wakes f1 ;;; ret a) s).
Proof.
  intros Htw Hty. pose proof (post_close_two ty f0 f1 a s Htw Hty) as H. apply post_onx_seq. unfold bind at 1 in H.
  destruct (onx (fileclose me kend wakes f0) s) as [u t|msg|ch t k|]; try done. cbn [obind post] in *. apply post_onx_seq.
  unfold bind in H. destruct (onx (fileclose me kend wakes f1) t) as [u' t'|msg|ch t' k|]; try done. cbn [obind post ret] in *.
  apply post_onx_ret. intros t2 H2. split; [done|]. by eapply same_fd_inv.
Qed.

(** What [pipealloc] gives: nothing, or two files that are the ends of a
    pipe. *)
Definition got_pipe (r : Z * Z * Z) s : Prop :=
  let '(c, f0, f1) := r in if c <? 0 then inv s else two_files FD_PIPE f0 f1 s.

Lemma put_table_type t s f : file_type (put_table t s) f = fl_type (ft_file t (f - 1)).
Proof. done. Qed.

Lemma onx_upd_file f g s : onx (upd_file f g) s = Done tt (put_table (set_file (f - 1) g (the_table s)) s).
Proof. done. Qed.

Lemma post_pipe_made pa f0 f1 s : two_files FD_NONE f0 f1 s ->
  post got_pipe (onx (pipe_start pa ;;; upd_file f0 (with_pipe true false pa) ;;; upd_file f1 (with_pipe false true pa) ;;; ret (0, f0, f1)) s).
Proof.
  intros Hs. apply post_onx_seq. eapply post_mono; [|apply post_onx_keeps].
  - intros u t Ht. pose proof (two_files_same _ _ _ _ _ Ht Hs) as [H1 H2 H3 H4 H5 H6]. cbn beta.
    apply post_onx_seq. rewrite onx_upd_file. cbn [post]. apply post_onx_seq. rewrite onx_upd_file. cbn [post].
    rewrite (onx_Done (ret (0, f0, f1)) _ _ _ eq_refl). cbn [post got_pipe Z.ltb Z.compare].
    pose proof (refs_between t f0 (fd_len _ _ H1)). pose proof (refs_between t f1 (fd_len _ _ H1)).
    eapply (two_files_same _ _ _ (put_table (set_file (f1 - 1) (with_pipe false true pa) (set_file (f0 - 1) (with_pipe true false pa) (the_table t))) (put_table (set_file (f0 - 1) (with_pipe true false pa) (the_table t)) t)));
      [by split|]. split; try done.
    + apply (fd_inv_fields _ f1 (with_pipe false true pa)); [apply (fd_inv_fields _ f0 (with_pipe true false pa)); try done| done| |done].
      * rewrite !add_at. unfold none. repeat case_decide; lia.
      * change (refs (put_table _ t) f1) with (refs t f1). rewrite !add_at. unfold none. repeat case_decide; lia.
    + rewrite put_table_type. cbn -[fset]. rewrite fset_ne by lia. by rewrite fset_eq.
    + rewrite put_table_type. cbn -[fset]. by rewrite fset_eq.
  - apply awake_lift, awake_modify.
  - apply segx_over, seg_modify. done.
Qed.

Lemma post_onx_skip {B} (k : unit -> M (kmem * FL) B) (Q : B -> K -> Prop) s :
  (forall t, same_fd s t -> post Q (onx (k tt) t)) -> post Q (onx (bind (ret tt) k) s).
Proof. intros H. apply post_onx_seq, post_onx_ret. exact H. Qed.

Lemma post_pipealloc s : inv s -> post got_pipe (onx (pipealloc me kend wakes) s).
Proof.
  intros Hs. unfold pipealloc. apply post_onx_seq. eapply post_mono; [|by apply post_filealloc]. intros f0 t Ht. cbn beta in Ht.
  destruct (Z.eqb_spec f0 0) as [->|N0].
  { do 3 (apply post_onx_skip; intros ? ?). apply post_onx_ret. intros t' Ht'. cbn. eapply same_fd_inv; [|exact Hs].
    repeat (eapply same_fd_trans; [eassumption|]). apply same_fd_refl. }
  destruct Ht as (Hf0 & _ & Hi0 & Hty0 & _).
  apply post_onx_seq. eapply post_mono; [|by apply (post_filealloc _ t Hi0)]. intros f1 t1 Ht1. cbn beta in Ht1.
  destruct (Z.eqb_spec f1 0) as [->|N1]; cbn [negb Z.eqb].
  { apply post_onx_skip. intros t2 H2. pose proof (same_fd_trans _ _ _ Ht1 H2) as H3. apply post_onx_seq.
    eapply post_mono; [|apply (post_fileclose (add none f0 1) f0 t2)].
    - intros u t3 [Hi3 _]. apply post_onx_skip. intros t4 H4. apply post_onx_ret. intros t5 H5. cbn.
      eapply same_fd_inv; [exact (same_fd_trans _ _ _ H4 H5)|]. eapply fd_inv_ext; [|exact Hi3]. intros g _. apply (none_again f0 1).
    - by eapply same_fd_inv.
    - done.
    - rewrite add_at. by case_decide.
    - destruct H3 as [_ [_ _ T]]. rewrite T. by right. }
  destruct Ht1 as (Hf1 & Hz1 & Hi1 & Hty1 & Hp1 & Hk1).
  assert (f0 <> f1) as Hne.
  { intros ->. pose proof (fd_ref _ _ Hi0 f1 Hf1) as E0. pose proof (refs_between t f1 (fd_len _ _ Hi0)).
    rewrite add_at in E0. unfold none in E0. rewrite decide_True in E0 by done. lia. }
  assert (two_files FD_NONE f0 f1 t1) as Htw by (split; try done; unfold file_type; rewrite Hk1 by lia; done).
  apply post_onx_seq. eapply post_mono; [|apply (post_onx_keeps (mem_op kalloc)); [apply awake_lift, awake_kalloc|apply segx_mem]].
  intros pa t2 H2. pose proof (two_files_same _ _ _ _ _ H2 Htw) as Htw2. cbn beta.
  destruct (pa =? 0); [|by apply post_pipe_made].
  apply post_onx_skip. intros t3 H3.
  eapply post_mono; [|apply (post_onx_close_two FD_NONE f0 f1 (-1, f0, f1) t3)]; [|by eapply two_files_same|by right].
  intros r t4 [-> H4]. exact H4.
Qed.

(** Undoing a pipe. *)
Lemma post_pipe_fail fds rf wf s :
  (forall t, clear_fds me fds s = Done tt t -> two_files FD_PIPE rf wf t) -> post (fun _ => inv) (pipe_fail kend me wakes fds rf wf s).
Proof.
  intros H. assert (exists t, clear_fds me fds s = Done tt t) as [t E].
  { clear H. revert s. induction fds as [|fd fds IH]; intros s; cbn [clear_fds]; [by eexists|]. unfold upd_proc. rewrite bind_modify. apply IH. }
  unfold pipe_fail. rewrite (bind_Done _ _ _ _ _ E). eapply post_close_two; [by apply H|by left].
Qed.

Lemma two_files_none ty rf wf s : two_files ty rf wf s -> fd_inv (add (add none wf 1) rf 1) s.
Proof. intros [H _ _ _ _ _]. eapply fd_inv_ext; [|exact H]. intros g _. rewrite !add_at. lia. Qed.

(** One end stored, and both. *)
Record one_end rf wf fd0 s : Prop := {
  oe_inv : fd_inv (add none wf 1) s;
  oe_ptr0 : file_ptr rf;
  oe_ptr1 : file_ptr wf;
  oe_ne : rf <> wf;
  oe_ty0 : file_type s rf = FD_PIPE;
  oe_ty1 : file_type s wf = FD_PIPE;
  oe_fd : p_ofile (procs s me) !! Z.to_nat fd0 = Some rf;
}.

Record both_ends rf wf fd0 fd1 s : Prop := {
  be_inv : inv s;
  be_ptr0 : file_ptr rf;
  be_ptr1 : file_ptr wf;
  be_ne : rf <> wf;
  be_ty0 : file_type s rf = FD_PIPE;
  be_ty1 : file_type s wf = FD_PIPE;
  be_fd0 : p_ofile (procs s me) !! Z.to_nat fd0 = Some rf;
  be_fd1 : p_ofile (procs s me) !! Z.to_nat fd1 = Some wf;
}.

Lemma both_ends_same rf wf fd0 fd1 s s' : same_fd s s' -> both_ends rf wf fd0 fd1 s -> both_ends rf wf fd0 fd1 s'.
Proof.
  intros Hs [H1 H2 H3 H4 H5 H6 H7 H8]. pose proof Hs as [Ho [_ _ T]].
  split; try done; [by eapply same_fd_inv|unfold file_type; by rewrite T|unfold file_type; by rewrite T|by rewrite Ho|by rewrite Ho].
Qed.

Lemma ofile_upd fd f s : p_ofile (procs (upd me (set_ofile fd f) s) me) = <[Z.to_nat fd := f]> (p_ofile (procs s me)).
Proof. cbn -[fset]. by rewrite fset_eq. Qed.

Lemma one_end_back rf wf fd0 s : one_end rf wf fd0 s -> two_files FD_PIPE rf wf (upd me (set_ofile fd0 0) s).
Proof.
  intros [H1 H2 H3 H4 H5 H6 H7]. split; try done. eapply fd_inv_ext; [|exact (fd_inv_take _ _ _ _ H1 H7)].
  intros g _. rewrite !add_at. lia.
Qed.

Lemma both_ends_back rf wf fd0 fd1 s : both_ends rf wf fd0 fd1 s -> one_end wf rf fd1 (upd me (set_ofile fd0 0) s).
Proof.
  intros [H1 H2 H3 H4 H5 H6 H7 H8]. split; try done; [exact (fd_inv_take _ _ _ _ H1 H7)|]. rewrite ofile_upd, list_lookup_insert_ne; [done|].
  intros E. rewrite E in H7. congruence.
Qed.

Lemma two_files_swap ty rf wf s : two_files ty rf wf s -> two_files ty wf rf s.
Proof. intros H. pose proof (two_files_none _ _ _ _ H). destruct H as [H1 H2 H3 H4 H5 H6]. by split. Qed.

Lemma post_pipe_ends rf wf fd0 fd1 fdarray s : both_ends rf wf fd0 fd1 s ->
  post (fun _ => inv)
    ((p <- proc_of me ;;
      a <- onk (copyout (p_pagetable p) fdarray (le_split 4 fd0) fuel) ;;
      if a <? 0 then pipe_fail kend me wakes [fd0; fd1] rf wf else
      b <- onk (copyout (p_pagetable p) (u64 (fdarray + 4)) (le_split 4 fd1) fuel) ;;
      if b <? 0 then pipe_fail kend me wakes [fd0; fd1] rf wf else ret 0) s).
Proof.
  assert (forall t, both_ends rf wf fd0 fd1 t -> post (fun _ => inv) (pipe_fail kend me wakes [fd0; fd1] rf wf t)) as Hfail.
  { intros t Ht. apply post_pipe_fail. intros t' [= <-]. by apply two_files_swap, one_end_back, both_ends_back. }
  assert (forall pt a l t, both_ends rf wf fd0 fd1 t -> post (fun _ => both_ends rf wf fd0 fd1) (onk (copyout pt a l fuel) t)) as Hcopy.
  { intros pt a l t Ht. eapply post_mono; [|apply (post_seg (onk (copyout pt a l fuel)))]; [| |apply seg_onk].
    - intros r t' H'. exact (both_ends_same _ _ _ _ _ _ H' Ht).
    - intros u. unfold onk, lift. pose proof (awake_copyout pt a l fuel (km u)). by destruct (copyout pt a l fuel (km u)). }
  intros Hs. unfold proc_of. rewrite bind_gets. apply post_bind. eapply post_mono; [|by apply Hcopy]. intros a t Ht. cbn beta in Ht.
  destruct (a <? 0); [by apply Hfail|]. apply post_bind. eapply post_mono; [|by apply Hcopy]. intros b t' Ht'. cbn beta in Ht'.
  destruct (b <? 0); [by apply Hfail|]. apply (be_inv _ _ _ _ _ Ht').
Qed.

Lemma goodf_sys_pipe : goodf (sys_pipe kend me wakes fuel).
Proof.
  unfold sys_pipe. apply goodf_bind; [goodf|intros fdarray]. intros s0 s Hs.
  eapply goodf_first; [by apply post_pipealloc|]. intros [[c rf] wf] t Ht. cbn [got_pipe] in Ht. destruct (c <? 0); [done|]. apply goodf_post.
  pose proof (two_files_none _ _ _ _ Ht) as Hi. pose proof Ht as [H1 H2 H3 H4 H5 H6].
  apply post_bind. eapply post_mono; [|by apply (post_fdalloc _ rf t H1)]. intros fd0 t0 Ht0. cbn beta in Ht0. destruct (fd0 <? 0).
  { subst t0. apply post_pipe_fail. by intros t' [= <-]. }
  destruct Ht0 as (R0 & L0 & ->).
  assert (one_end rf wf fd0 (upd me (set_ofile fd0 rf) t)) as Hone.
  { split; try done.
    - eapply fd_inv_ext; [|exact (fd_inv_give _ _ _ _ Hi H2 L0)]. intros g _. rewrite !add_at. repeat case_decide; lia.
    - rewrite ofile_upd. apply list_lookup_insert_eq. by eapply lookup_lt_Some. }
  apply post_bind. eapply post_mono; [|by apply (post_fdalloc _ wf _ (oe_inv _ _ _ _ Hone))]. intros fd1 t1 Ht1. cbn beta in Ht1.
  destruct (fd1 <? 0).
  { subst t1. apply post_pipe_fail. intros t' [= <-]. by apply one_end_back. }
  destruct Ht1 as (R1 & L1 & ->).
  assert (both_ends rf wf fd0 fd1 (upd me (set_ofile fd1 wf) (upd me (set_ofile fd0 rf) t))) as Hboth.
  { destruct Hone as [O1 O2 O3 O4 O5 O6 O7]. split; try done.
    - eapply fd_inv_ext; [|exact (fd_inv_give _ _ _ _ O1 H3 L1)]. intros g _. apply (none_again wf 1).
    - rewrite ofile_upd, list_lookup_insert_ne; [done|]. intros E. rewrite E in L1. rewrite O7 in L1. injection L1 as ->. unfold file_ptr in H2. lia.
    - rewrite ofile_upd. apply list_lookup_insert_eq. by eapply lookup_lt_Some. }
  apply post_bind. eapply post_mono; [|apply post_trace]. intros u t2 Ht2. cbn beta in Ht2. apply post_pipe_ends. by eapply both_ends_same.
Qed.

End Refs.

(** ** Any number of processes *)

Section Calls.

Context {S : Type} `{BL : BlockLayer S} {D : Type}.

Notation FL := (fl (S := S) (D := D)).
Notation K := (kst (world FL)).

Context (kend trampoline forkret_pc : Z) (devs : Z -> devsw D) (wakes fuel : nat) (stack : list byte).

(** The calls of sysfile.c on descriptors and paths. *)
Definition file_calls : list Z :=
  [SYS_pipe; SYS_read; SYS_fstat; SYS_chdir; SYS_dup; SYS_open; SYS_write; SYS_mknod; SYS_unlink; SYS_link; SYS_mkdir; SYS_close].
Definition file_table (me num : Z) : option (M K Z) :=
  if bool_decide (num ∈ file_calls) then syscalls kend trampoline forkret_pc devs me wakes fuel stack num else None.

Lemma goodf_file_call me num h : in_table me -> file_table me num = Some h -> goodf h.
Proof.
  intros Hme. unfold file_table. case_bool_decide as Hn; [|done]. unfold file_calls in Hn.
  repeat (apply elem_of_cons in Hn as [->|Hn]); [..|by apply elem_of_nil in Hn]; cbn [syscalls Z.eqb Pos.eqb]; intros [= <-].
  - by apply goodf_sys_pipe.
  - apply goodf_sys_read.
  - apply goodf_sys_fstat.
  - apply goodf_sys_chdir.
  - by apply goodf_sys_dup.
  - by apply goodf_sys_open.
  - apply goodf_sys_write.
  - apply goodf_sys_mknod.
  - apply goodf_sys_unlink.
  - apply goodf_sys_link.
  - apply goodf_sys_mkdir.
  - by apply goodf_sys_close.
Qed.

(** A process that makes system calls: it runs user code, which leaves any
    numbers in the registers, and calls the kernel. *)
Fixpoint calls (me : Z) (ts : list user_trap) : M K unit :=
  match ts with
  | [] => ret tt
  | t :: ts' => enter me t ;;; syscall (file_table me) me ;;; sleep_on 0 ;;; calls me ts'
  end.

Lemma goodf_set_tf me off v : goodf (S := S) (D := D) (Trap.set_tf me off v).
Proof. unfold Trap.set_tf. apply goodf_bind; [apply goodf_proc_of|intros p; apply goodf_onk]. Qed.

Lemma goodf_syscall me : in_table me -> goodf (syscall (file_table me) me).
Proof.
  intros Hme. unfold syscall. apply goodf_bind; [apply goodf_proc_of|intros p]. apply goodf_bind; [apply goodf_gets|intros num].
  destruct (if _ && _ then file_table me num else None) as [h|] eqn:E.
  - apply goodf_bind; [|intros v; apply goodf_set_tf]. destruct (_ && _); [by eapply goodf_file_call|done].
  - apply goodf_bind; [apply goodf_kprintf|intros _; apply goodf_set_tf].
Qed.

Lemma goodf_calls me ts : in_table me -> goodf (calls me ts).
Proof.
  intros Hme. induction ts as [|t ts IH]; cbn [calls]; [apply goodf_ret|]. apply goodf_bind; [|intros _].
  { unfold enter. apply goodf_bind; [apply goodf_proc_of|intros p]. apply goodf_bind; [apply goodf_onk|intros _].
    apply goodf_seg, seg_modify. intros s. by split. }
  apply goodf_bind; [by apply goodf_syscall|intros _]. apply goodf_bind; [|intros _; exact IH].
  intros s0 s Hs. cbn. split; [done|]. intros s' [H _]. by apply H.
Qed.

Definition callers (ps : list (Z * list user_trap)) : list (thread K unit) := map (fun pt => Waiting (calls (fst pt) (snd pt))) ps.

(** [C14] References follow descriptors: in every interleaving of the file
    system calls (pipe, read, write, open, close, dup, fstat, link, unlink,
    mkdir, mknod, chdir) of any number of processes, with any arguments and on
    every error path, the reference count of each entry of the file table is
    the number of descriptors of all processes that name it, and an entry
    without descriptors is marked free. *)
Theorem descriptors_count_references (ps : list (Z * list user_trap)) (s : K) p' :
  fd_inv none s -> Forall (fun pt => in_table (fst pt)) ps -> rtc pool_step (s, callers ps) p' ->
  forall f, file_ptr f ->
    fl_ref (ft_file (the_table (fst p')) (f - 1)) = refs (fst p') f /\
    (refs (fst p') f = 0 -> fl_type (ft_file (the_table (fst p')) (f - 1)) = FD_NONE).
Proof.
  intros Hs Hps Hrun f Hf.
  assert (fd_inv none (fst p')) as Hi.
  { refine (proj1 (pool_rg_reachable (fd_inv none) (fun _ => True) (fun _ s s' => fd_inv none s -> fd_inv none s') (fun _ _ s => fd_inv none s)
      _ _ _ _ (s, callers ps) p' _ _)).
    - by intros i t H.
    - naive_solver.
    - by intros i j t t' _ _ H.
    - by intros i t t' _ H.
    - split; [done|]. intros i t Hi. cbn [fst snd] in *. unfold callers in Hi. rewrite list_lookup_fmap in Hi.
      destruct (ps !! i) as [pt|] eqn:Ei; [|done]. cbn in Hi. simplify_eq. pose proof (proj1 (Forall_lookup _ _) Hps i pt Ei) as Hin.
      intros t' [HR _]. apply goodf_calls; [done|]. by apply HR.
    - eapply rtc_subrel; [|exact Hrun]. intros x y H. by split. }
  rewrite (fd_ref _ _ Hi f Hf). unfold none. split; [lia|]. intros H0. apply (fd_none _ _ Hi f Hf). rewrite (fd_ref _ _ Hi f Hf). unfold none. lia.
Qed.

End Calls.
