(* ===== verification/SyscallDemo.v ===== *)
(** * Traps and system calls: concrete runs

    The theorems of Syscall.v, TrapInv.v, TrapSpec.v and SysfileInv.v at work
    on two processes with their trapframes, the file layer on the disk of
    FsDemo.v, and devices that are silent. *)

From S2P Require Import Prelude Rely CMem Riscv Kalloc Vm Sleeplock BlockLayer Bio Log LogBio Pipe Tx Fs FsDemo Printf Proc Exec ProcInv ProcSpec File FileInv.
From S2P Require Import Syscall Sysfile Devices Trap TrapInv TrapSpec SysfileInv.

#[local] Instance run_cache : BlockLayer bio := bio_layer the_pid.

Notation FL := (fl (S := bio) (D := unit)).

(** ** The machine *)

Definition idle_pipe (_ : Z) : pipe := pipe_init (fun _ => Byte.x00).
Definition run_files (t : ftable) : FL := mk_fl t demo_fs idle_pipe (fun _ => false) (fun _ => false) tt.
Definition no_devs (_ : Z) : devsw unit := mk_devsw None None.

(** A hart that has just taken a trap from user mode. *)
Definition trap_hart (cause : Z) : hart := mk_hart 0 0 cause 0x1000 0 0 0 0 0.
Definition run_world {F} (cause : Z) (f : F) : world F := mk_world (2 ^ 32 - 1) false (mk_prst false true false []) (trap_hart cause) f.

(** Memory with the two trapframes at 4096 and 8192; [args] are the words from
    a0 on, for the second process. *)
Definition run_kmem (args : list Z) : kmem := mk_kmem false 0 (save_regs (fun _ => Byte.x00) (8192 + tf_a0) args).
Definition machine {F} (args : list Z) (w : world F) : kst (world F) := two_kst 4096 8192 RUNNING (run_kmem args) w.

(** ** Sleeping across the end of the counter *)

Definition sleeper : kst (world unit) := machine [2] (run_world 8 tt).

Lemma sys_sleep_waits_witness :
  ends (resumed 1) (fun r s' => tickslock (files s') = false /\
      (r = 0 /\ 2 <= u32 (ticks (files s') - ticks (files sleeper)) \/
       r = -1 /\ u32 (ticks (files s') - ticks (files sleeper)) < 2 /\ p_killed (procs s' 1) = true))
    (sys_sleep 1 2 sleeper).
Proof. by apply (sys_sleep_waits 1 2 sleeper 2); [vm_compute| |split|]. Defined.

(** ** System calls *)

Definition no_rd {A} (_ : Z) : M A Z := ret 0.
Definition no_wr {A} (_ _ : Z) : M A unit := ret tt.
Definition no_console {A} (_ : Z) : M A (list Z) := ret [].
Definition no_disk {A} : M A (list Z) := ret [].

(** [getpid()], and a call with number 77. *)
Definition with_call (num : Z) : kst (world FL) := machine [0; 0; 0; 0; 0; 0; 0; num] (run_world 8 (run_files empty_table)).
Definition run_table : Z -> option (M (kst (world FL)) Z) := syscalls 0 0 0 no_devs 1 5 5 (replicate 32 Byte.x00).

Lemma getpid_returns {F} me (s : kst (world F)) n : p_tracing (procs s me) = false -> p_pid (procs s me) = n -> sys_getpid me s = Done n s.
Proof. intros Ht <-. unfold sys_getpid, trace, proc_of. unfold bind at 1. rewrite bind_gets, Ht. reflexivity. Qed.

Lemma usertrap_syscall_witness :
  exists r s', usertrap (FE := the_env 0 no_devs 1 5) no_rd no_wr no_console no_disk 77 78 16 32 run_table 1 5 (with_call SYS_getpid) = Done r s' /\
    tf_word 1 s' tf_a0 = 2 /\ sepc (hart_of s') = 0x1004.
Proof.
  destruct (usertrap_syscall (FE := the_env 0 no_devs 1 5) no_rd no_wr no_console no_disk 77 78 16 32 run_table 1 5 (with_call SYS_getpid)
    (sys_getpid 1) 2 (in_call 77 1 (with_call SYS_getpid))) as (_ & _ & r & s' & E & _ & H1 & H2 & _).
  - split; vm_compute; reflexivity.
  - split; vm_compute; reflexivity.
  - assert (call_number 1 (with_call SYS_getpid) = SYS_getpid) as -> by (vm_compute; reflexivity). reflexivity.
  - apply getpid_returns; vm_compute; reflexivity.
  - vm_compute. reflexivity.
  - exists r, s'. split; [exact E|]. split; [exact H1|]. rewrite H2. vm_compute. reflexivity.
Defined.

Lemma unknown_syscall_witness :
  exists r s', usertrap (FE := the_env 0 no_devs 1 5) no_rd no_wr no_console no_disk 77 78 16 32 run_table 1 5 (with_call 77) = Done r s' /\
    tf_word 1 s' tf_a0 = 2 ^ 64 - 1 /\ uart_out (w_pr (files s')) = codes ("2 : unknown sys call 77" +:+ nl).
Proof.
  destruct (unknown_syscall (FE := the_env 0 no_devs 1 5) no_rd no_wr no_console no_disk 77 78 16 32 run_table 1 5 (with_call 77))
    as (r & s' & E & _ & H1 & _ & _ & H2 & _).
  - split; vm_compute; reflexivity.
  - right. assert (call_number 1 (with_call 77) = 77) as -> by (vm_compute; reflexivity). reflexivity.
  - reflexivity.
  - reflexivity.
  - exists r, s'. split; [exact E|]. split; [exact H1|]. rewrite H2. vm_compute. reflexivity.
Defined.

(** ** Interleavings *)

Definition user_regs (a0 a7 : Z) : list Z := replicate 9 0 ++ [a0] ++ replicate 6 0 ++ [a7] ++ replicate 14 0.
Definition ecall (a0 a7 : Z) : user_trap := mk_user_trap (trap_hart 8) (user_regs a0 a7).

(** The first process waits, the second kills itself. *)
Definition trap_family : list (Z * list user_trap) := [(0, [ecall 0 SYS_wait]); (1, [ecall 2 SYS_kill; ecall 0 SYS_getpid])].
Definition trap_start : kst (world FL) := machine [] (run_world 8 (run_files empty_table)).
Definition trap_threads : list (thread (kst (world FL)) unit) :=
  lives 0 0 0 no_devs no_rd no_wr no_console no_disk 77 78 16 32 5 5 [] trap_family.

Lemma traps_keep_table_witness : ptable_inv 0 (fst (exec_step 1 (trap_start, trap_threads))).
Proof.
  apply (traps_keep_table 0 0 0 0 no_devs no_rd no_wr no_console no_disk 77 78 16 32 5 5 [] trap_family trap_start).
  - by apply two_kst_inv.
  - apply (bool_decide_unpack _). by vm_compute.
  - repeat constructor; cbn; try done; by vm_compute.
  - repeat constructor; cbn; done.
  - apply rtc_once. split; [by apply two_kst_pids_ok|]. by apply (pool_resume trap_start trap_threads 1%nat).
Defined.

(** The second process has one file open and duplicates its descriptor. *)
Definition file_start : kst (world FL) := upd 1 (set_ofile 3 1) (machine [] (run_world 8 (run_files FileInv.opened))).
Definition file_family : list (Z * list user_trap) := [(0, [ecall 0 SYS_pipe]); (1, [ecall 3 SYS_dup])].
Definition file_threads : list (thread (kst (world FL)) unit) := callers 0 0 0 no_devs 5 5 [] file_family.

Lemma count_replicate f x n : x <> f -> count f (replicate n x) = 0.
Proof. intros H. induction n as [|n IH]; [done|]. cbn [replicate]. rewrite count_cons, IH. unfold hit. by rewrite decide_False. Qed.

Lemma file_start_inv : fd_inv none file_start.
Proof.
  assert (forall i, p_ofile (procs file_start i) = if decide (i = 1) then <[3%nat := 1]> (replicate 16 0) else replicate 16 0) as Ho.
  { intros i. unfold file_start. cbn -[fset machine]. unfold fset. destruct (decide (i = 1)); [done|]. unfold machine. rewrite two_kst_entry.
    repeat case_decide; done. }
  assert (forall f, ft_file (the_table file_start) (f - 1) = if decide (f - 1 = 0) then with_fref 1 no_file else no_file) as Hft by done.
  split.
  - exact eq_refl.
  - intros f Hf. rewrite Hft. unfold refs.
    rewrite (total_ext _ (fun i => if decide (i = 1) then count f (<[3%nat := 1]> (replicate 16 0)) else count f (replicate 16 0)))
      by (intros i _; rewrite Ho; by case_decide).
    assert (count f (replicate 16 0) = 0) as E0 by (apply count_replicate; unfold file_ptr in Hf; lia).
    rewrite E0. assert (count f (<[3%nat := 1]> (replicate 16 0)) = hit 1 f) as ->.
    { rewrite (count_insert f (replicate 16 0) 3 0 1) by done. rewrite E0, hit_ptr by done. lia. }
    unfold none. vm_compute table_indices. cbn [total]. unfold hit. destruct (decide (f = 1)) as [->|Hne]; [done|].
    rewrite (decide_False (P := 1 = f)), (decide_False (P := f - 1 = 0)) by lia. done.
  - intros i. rewrite Ho. by case_decide.
  - intros i f. rewrite Ho. case_decide; intros Hf.
    + apply list_elem_of_lookup in Hf as [k Hk]. apply list_lookup_insert_Some in Hk as [(_ & <- & _)|[_ Hk]]; [right; by vm_compute|].
      left. by apply lookup_replicate in Hk as [-> _].
    + left. by apply elem_of_replicate in Hf as [-> _].
  - intros f Hf _. rewrite Hft. by case_decide.
Qed.

Lemma descriptors_count_references_witness :
  let s' := fst (exec_step 1 (file_start, file_threads)) in
  refs s' 1 = 2 /\ fl_ref (ft_file (the_table s') 0) = 2.
Proof.
  assert (refs (fst (exec_step 1 (file_start, file_threads))) 1 = 2) as E by (vm_compute; reflexivity). cbv zeta. split; [exact E|].
  rewrite <- E. clear E. refine (proj1 (descriptors_count_references 0 0 0 no_devs 5 5 [] file_family file_start _ _ _ _ 1 _)).
  - apply file_start_inv.
  - repeat constructor; cbn; by vm_compute.
  - apply rtc_once. by apply (pool_resume file_start file_threads 1%nat).
  - by vm_compute.
Defined.
