(* ===== verification/TrapDevices.v ===== *)
(** * Traps with the drivers of the development

    TrapSpec.v leaves the device handlers open and asks that they do not
    sleep.  Here they are the console of Console.v and the disk driver of
    Virtio.v, over the serial port of Devices.v: they keep that promise, and a
    key pressed while the kernel runs ends in the console's buffer. *)

From S2P Require Import Prelude Rely CMem Riscv Kalloc Vm VmAwake Printf Console Virtio Proc ProcSpec FileInv Syscall Devices Trap TrapSpec SyscallDemo.

(** ** The drivers as parts of the world *)

Record drivers := mk_drivers { d_port : port; d_console : cst; d_disk : vdisk }.

Notation DW := (kmem * world drivers)%type.

Definition set_drivers (d : drivers) (x : DW) : DW := (fst x, mk_world (ticks (snd x)) (tickslock (snd x)) (w_pr (snd x)) (w_hart (snd x)) d).

Definition get_port (x : DW) : port := d_port (w_files (snd x)).
Definition put_port (p : port) (x : DW) : DW := let d := w_files (snd x) in set_drivers (mk_drivers p (d_console d) (d_disk d)) x.

(** The console prints with the printing state of the world. *)
Definition get_console (x : DW) : cst := set_c_pr (w_pr (snd x)) (d_console (w_files (snd x))).
Definition put_console (c : cst) (x : DW) : DW :=
  let d := w_files (snd x) in set_drivers (mk_drivers (d_port d) c (d_disk d)) (fst x, set_pr (c_pr c) (snd x)).

Definition get_disk (x : DW) : vdisk := d_disk (w_files (snd x)).
Definition put_disk (v : vdisk) (x : DW) : DW := let d := w_files (snd x) in set_drivers (mk_drivers (d_port d) (d_console d) v) x.

(** The interrupt controller offers the serial port's interrupt while there is
    a character; the other registers are the port's. *)
Definition board_rd (delay : nat) (a : Z) : M DW Z := lift get_port put_port (fun p =>
  if a =? PLIC_SCLAIM 0 then Done (match rx p with [] => 0 | _ => UART0_IRQ end) p else port_rd delay a p).
Definition board_wr (delay : nat) (a v : Z) : M DW unit := lift get_port put_port (port_wr delay a v).

(** The handlers with the channels they wake: the console's when a line is
    committed, the buffers' whose transfers are finished. *)
Definition console_handler (procdump : M prst unit) (c : Z) : M DW (list Z) :=
  before <- gets get_console ;;
  lift get_console put_console (consoleintr procdump c) ;;;
  after <- gets get_console ;;
  let vc := consa before in
  ret (if in_w (vcons after vc) =? in_w (vcons before vc) then [] else [chan_r vc]).

Fixpoint finished (v : vdisk) (idx : Z) (left : nat) : list Z :=
  match left with
  | O => []
  | S l => if idx mod NUM =? v_used_id v mod NUM then [] else
           match v_info v (v_used v idx) with None => [] | Some b => b :: finished v ((idx + 1) mod NUM) l end
  end.
Definition disk_handler : M DW (list Z) :=
  v <- gets get_disk ;;
  lift get_disk put_disk virtio_disk_intr ;;;
  ret (finished v (v_used_idx v) (Z.to_nat NUM)).

(** ** They do not sleep *)


Lemma awake_printing {A} (m : M prst A) : awake m -> awake (printing m).
Proof. apply awake_lift. Qed.

Lemma awake_kill_line vc n : awake (kill_line vc n).
Proof.
  induction n as [|n IH]; cbn [kill_line]; [apply awake_ret|]. apply awake_bind; [apply awake_gets|]. intros i.
  apply awake_if; [|apply awake_ret]. apply awake_bind; [apply awake_modify|]. intros _.
  apply awake_bind; [apply awake_printing, awake_consputc|done].
Qed.

#[local] Hint Resolve awake_kill_line awake_consputc awake_printing : awake.

Lemma awake_consoleintr procdump c : awake procdump -> awake (consoleintr procdump c).
Proof.
  intros Hp. assert (forall vc, awake (consoleintr_switch procdump vc c)) as Hs.
  { intros vc. unfold consoleintr_switch, consoleintr_char, wakeup_chan. awake. }
  unfold consoleintr, cons_acquire, cons_release. awake. apply awake_printing, awake_printf.
Qed.

Lemma awake_intr_loop n : awake (intr_loop n).
Proof.
  induction n as [|n IH]; cbn [intr_loop]; (apply awake_bind; [apply awake_gets|]; intros s; apply awake_if; [|apply awake_ret]); [apply awake_exhausted|].
  cbv zeta. apply awake_if; [apply awake_panic|]. destruct (v_info _ _); [|apply awake_panic]. unfold wakeup_chan. awake.
Qed.

(** The drivers keep the promise that the trap handler relies on. *)
Lemma drivers_awake delay procdump : awake procdump ->
  devices_awake (board_rd delay) (board_wr delay) (console_handler procdump) disk_handler.
Proof.
  intros Hp. split; [|split; [|split]].
  - intros a. apply awake_lift. intros p. unfold port_rd. by repeat destruct (_ =? _).
  - intros a v. apply awake_lift. intros p. unfold port_wr. by destruct (_ =? _).
  - intros c. unfold console_handler. awake. by apply awake_lift, awake_consoleintr.
  - unfold disk_handler. awake. apply awake_lift. unfold virtio_disk_intr, vd_acquire, vd_release. awake. apply awake_intr_loop.
Qed.

(** ** A key pressed while the kernel runs *)

Definition idle_disk : vdisk :=
  mk_vdisk false (fun _ => true) (fun _ => mk_vdesc DNull 0 0 0) 0 (fun _ => 0) 0 (fun _ => 0) 0 (fun _ => None) (fun _ => 0)
    (fun _ => (0, 0, 0)) (fun _ => false) (fun _ => []) [] (fun _ => []) 0 [].

(** The hart was in supervisor mode with interrupts enabled, as [kernelvec]
    finds it: the previous mode is supervisor and interrupts are off now. *)
Definition key_hart : hart := mk_hart SSTATUS_SPP 0 0x8000000000000009 0x80001234 0 0 0 0 0.
Definition key_world : world drivers :=
  mk_world 0 false (mk_prst false true false []) key_hart (mk_drivers (mk_port [120] [] 0) boot_console idle_disk).
Definition key_state : kst (world drivers) := machine [] key_world.

Definition key_trap : outcome (kst (world drivers)) unit :=
  kerneltrap (board_rd 0) (board_wr 0) (console_handler (ret tt)) disk_handler 1 5 true key_state.

Lemma key_trap_returns : match key_trap with Done _ _ => True | _ => False end.
Proof. vm_compute. exact I. Qed.

(** The interrupt does not give up the processor; [sepc] and [sstatus] are
    back, and the character is the console's. *)
Lemma kerneltrap_transparent_witness :
  exists s', key_trap = Done tt s' /\ sepc (hart_of s') = 0x80001234 /\ sstatus (hart_of s') = SSTATUS_SPP /\
    in_buf (vcons (d_console (w_files (files s'))) 0) 0 = 120.
Proof.
  destruct (kerneltrap_transparent (board_rd 0) (board_wr 0) (console_handler (ret tt)) disk_handler 1 5 true key_state key_state) as [H1 H2].
  specialize (H2 (drivers_awake 0 (ret tt) (awake_ret tt)) ltac:(vm_compute; discriminate)).
  fold key_trap in H1, H2. pose proof key_trap_returns as Hd.
  assert (match key_trap with Done _ s' => in_buf (vcons (d_console (w_files (files s'))) 0) 0 = 120 | _ => True end) as Hc by (vm_compute; reflexivity).
  destruct key_trap as [[] s'| | |]; [|destruct Hd..]. exists s'. destruct H1 as [E1 E2]. split; [reflexivity|]. split; [exact E1|]. split; [exact E2|exact Hc].
Defined.
