(* ===== verification/Boot.v ===== *)
(** * Booting: kernel/start.c, kernel/main.c and the timer interrupt of
    kernel/kernelvec.S

    [start] runs in machine mode on every hart, over the machine registers and
    physical memory (the clock is memory-mapped).  [main] is the sequence of
    initialisations each hart goes through; the harts interleave, and only the
    flag [started] holds the others back. *)

From S2P Require Import Prelude CMem Riscv Syscall.

(** ** Machine mode *)

Definition MSTATUS_MPP_MASK : Z := Z.shiftl 3 11.
Definition MSTATUS_MPP_S : Z := Z.shiftl 1 11.
Definition MSTATUS_MIE : Z := Z.shiftl 1 3.
Definition MIE_MTIE : Z := Z.shiftl 1 7.

Record machine := mk_machine {
  mhartid : Z; mstatus : Z; mepc : Z; medeleg : Z; mideleg : Z; mie : Z; mtvec : Z; mscratch : Z; m_satp : Z; m_tp : Z;
  m_mem : mem;
}.

Definition w_mstatus (x : Z) (s : machine) : machine := mk_machine (mhartid s) x (mepc s) (medeleg s) (mideleg s) (mie s) (mtvec s) (mscratch s) (m_satp s) (m_tp s) (m_mem s).
Definition w_mepc (x : Z) (s : machine) : machine := mk_machine (mhartid s) (mstatus s) x (medeleg s) (mideleg s) (mie s) (mtvec s) (mscratch s) (m_satp s) (m_tp s) (m_mem s).
Definition w_medeleg (x : Z) (s : machine) : machine := mk_machine (mhartid s) (mstatus s) (mepc s) x (mideleg s) (mie s) (mtvec s) (mscratch s) (m_satp s) (m_tp s) (m_mem s).
Definition w_mideleg (x : Z) (s : machine) : machine := mk_machine (mhartid s) (mstatus s) (mepc s) (medeleg s) x (mie s) (mtvec s) (mscratch s) (m_satp s) (m_tp s) (m_mem s).
Definition w_mie (x : Z) (s : machine) : machine := mk_machine (mhartid s) (mstatus s) (mepc s) (medeleg s) (mideleg s) x (mtvec s) (mscratch s) (m_satp s) (m_tp s) (m_mem s).
Definition w_mtvec (x : Z) (s : machine) : machine := mk_machine (mhartid s) (mstatus s) (mepc s) (medeleg s) (mideleg s) (mie s) x (mscratch s) (m_satp s) (m_tp s) (m_mem s).
Definition w_mscratch (x : Z) (s : machine) : machine := mk_machine (mhartid s) (mstatus s) (mepc s) (medeleg s) (mideleg s) (mie s) (mtvec s) x (m_satp s) (m_tp s) (m_mem s).
Definition w_satp (x : Z) (s : machine) : machine := mk_machine (mhartid s) (mstatus s) (mepc s) (medeleg s) (mideleg s) (mie s) (mtvec s) (mscratch s) x (m_tp s) (m_mem s).
Definition w_tp (x : Z) (s : machine) : machine := mk_machine (mhartid s) (mstatus s) (mepc s) (medeleg s) (mideleg s) (mie s) (mtvec s) (mscratch s) (m_satp s) x (m_mem s).
Definition put64 (a v : Z) (s : machine) : machine := mk_machine (mhartid s) (mstatus s) (mepc s) (medeleg s) (mideleg s) (mie s) (mtvec s) (mscratch s) (m_satp s) (m_tp s) (store64 (m_mem s) a (u64 v)).

Section Start.

(** Linker symbols. *)
Context (main timervec mscratch0 : Z).

Definition interval : Z := 1000000.
(** [&mscratch0[32 * id]] *)
Definition scratch (id : Z) : Z := mscratch0 + 8 * (32 * id).

Definition timerinit (s : machine) : machine :=
  let id := s32 (mhartid s) in
  let s := put64 (CLINT_MTIMECMP id) (load64 (m_mem s) CLINT_MTIME + interval) s in
  let s := put64 (scratch id + 8 * 4) (CLINT_MTIMECMP id) s in
  let s := put64 (scratch id + 8 * 5) interval s in
  let s := w_mscratch (scratch id) s in
  let s := w_mtvec timervec s in
  let s := w_mstatus (Z.lor (mstatus s) MSTATUS_MIE) s in
  w_mie (Z.lor (mie s) MIE_MTIE) s.

(** Up to [mret]. *)
Definition start (s : machine) : machine :=
  let x := mstatus s in
  let x := Z.land x (Z.lnot MSTATUS_MPP_MASK) in
  let x := Z.lor x MSTATUS_MPP_S in
  let s := w_mstatus x s in
  let s := w_mepc main s in
  let s := w_satp 0 s in
  let s := w_medeleg 0xffff s in
  let s := w_mideleg 0xffff s in
  let s := timerinit s in
  w_tp (s32 (mhartid s)) s.

(** [mret]: where execution goes on, and in which mode (1 is supervisor). *)
Definition mret (s : machine) : Z * Z := (mepc s, Z.land (Z.shiftr (mstatus s) 11) 3).

End Start.

(** ** The timer interrupt *)

(** The registers it uses. *)
Record regs := mk_regs { a0 : Z; a1 : Z; a2 : Z; a3 : Z; r_mscratch : Z; r_sip : Z }.

Definition timervec_code (r : regs) (m : mem) : regs * mem :=
  (* csrrw a0, mscratch, a0 *)
  let r := mk_regs (r_mscratch r) (a1 r) (a2 r) (a3 r) (a0 r) (r_sip r) in
  let m := store64 m (a0 r) (a1 r) in
  let m := store64 m (a0 r + 8) (a2 r) in
  let m := store64 m (a0 r + 16) (a3 r) in
  let r := mk_regs (a0 r) (load64 m (a0 r + 32)) (a2 r) (a3 r) (r_mscratch r) (r_sip r) in
  let r := mk_regs (a0 r) (a1 r) (load64 m (a0 r + 40)) (a3 r) (r_mscratch r) (r_sip r) in
  let r := mk_regs (a0 r) (a1 r) (a2 r) (load64 m (a1 r)) (r_mscratch r) (r_sip r) in
  let r := mk_regs (a0 r) (a1 r) (a2 r) (u64 (a3 r + a2 r)) (r_mscratch r) (r_sip r) in
  let m := store64 m (a1 r) (a3 r) in
  let r := mk_regs (a0 r) 2 (a2 r) (a3 r) (r_mscratch r) (r_sip r) in
  let r := mk_regs (a0 r) (a1 r) (a2 r) (a3 r) (r_mscratch r) (a1 r) in
  let r := mk_regs (a0 r) (a1 r) (a2 r) (load64 m (a0 r + 16)) (r_mscratch r) (r_sip r) in
  let r := mk_regs (a0 r) (a1 r) (load64 m (a0 r + 8)) (a3 r) (r_mscratch r) (r_sip r) in
  let r := mk_regs (a0 r) (load64 m (a0 r)) (a2 r) (a3 r) (r_mscratch r) (r_sip r) in
  (mk_regs (r_mscratch r) (a1 r) (a2 r) (a3 r) (a0 r) (r_sip r), m).

(** ** main *)

(** What a hart does, in order.  [Banner] is the three calls of printf that
    announce the kernel, [Sync] the memory barrier, [Spin] the loop on
    [started]. *)
Inductive action :=
| Consoleinit | Printfinit | Banner | Kinit | Kvminit | Kvminithart | Procinit | Trapinit | Trapinithart | Plicinit | Plicinithart
| Binit | Iinit | Fileinit | Virtio_disk_init | Userinit | Sync | Set_started | Spin | Hello | Scheduler.

Definition main_body (cpuid : Z) : list action :=
  if cpuid =? 0 then
    [Consoleinit; Printfinit; Banner; Kinit; Kvminit; Kvminithart; Procinit; Trapinit; Trapinithart; Plicinit; Plicinithart;
     Binit; Iinit; Fileinit; Virtio_disk_init; Userinit; Sync; Set_started; Scheduler]
  else [Spin; Sync; Hello; Kvminithart; Trapinithart; Plicinithart; Scheduler].

(** The flag, how far each hart has come, and what has been done, the latest
    first. *)
Record boot := mk_boot { started : bool; pc : Z -> nat; done_log : list (Z * action) }.

Definition booting : boot := mk_boot false (fun _ => 0%nat) [].

(** The harts there are. *)
Inductive boot_step (harts : Z -> Prop) : boot -> boot -> Prop :=
| step_spin h s : harts h -> main_body h !! pc s h = Some Spin -> started s = false -> boot_step harts s s
| step_action h a s : harts h -> main_body h !! pc s h = Some a -> (a = Spin -> started s = true) ->
    boot_step harts s (mk_boot (match a with Set_started => true | _ => started s end) (fset (pc s) h (S (pc s h))) ((h, a) :: done_log s)).

(** ** Properties of the boot sequence *)

Section Order.

Context (harts : Z -> Prop).

Definition log_of (h : Z) (l : list (Z * action)) : list action := map snd (List.filter (fun x => fst x =? h) l).

Record boot_inv (s : boot) : Prop := {
  bi_log h : log_of h (done_log s) = rev (take (pc s h) (main_body h));
  bi_started : started s = (18 <=? pc s 0)%nat;
  bi_wait h : h <> 0 -> (0 < pc s h)%nat -> started s = true;
}.

Lemma body_nodup h : NoDup (main_body h).
Proof. unfold main_body. destruct (h =? 0); repeat (constructor; [set_solver|]); constructor. Qed.

Lemma other_body h : h <> 0 -> main_body h = [Spin; Sync; Hello; Kvminithart; Trapinithart; Plicinithart; Scheduler].
Proof. intros H. unfold main_body. by rewrite (proj2 (Z.eqb_neq h 0)). Qed.

Lemma take_next {A} (l : list A) n a : l !! n = Some a -> take (S n) l = take n l ++ [a].
Proof. apply take_S_r. Qed.

(** Where [Set_started] is. *)
Lemma set_started_at h n : main_body h !! n = Some Set_started -> h = 0 /\ n = 17%nat.
Proof.
  unfold main_body. destruct (Z.eqb_spec h 0) as [->|].
  - intros H. split; [done|]. do 19 (destruct n as [|n]; [done|]). done.
  - intros H. do 7 (destruct n as [|n]; [done|]). done.
Qed.

Lemma zero_at_17 a : main_body 0 !! 17%nat = Some a -> a = Set_started.
Proof. by intros [= <-]. Qed.

Lemma boot_step_inv s s' : boot_inv s -> boot_step harts s s' -> boot_inv s'.
Proof.
  intros [H1 H2 H3] Hs. destruct Hs as [h s Hh Ha Hn|h a s Hh Ha Hw]; [by split|].
  assert (started s = true \/ started s = false) as Hst by (destruct (started s); auto).
  split; cbn [started pc done_log].
  - intros h'. unfold log_of. cbn [List.filter fst]. destruct (Z.eqb_spec h h') as [->|Hne].
    + rewrite fset_eq, (take_next _ _ a Ha), rev_app_distr. cbn [map snd rev app]. f_equal. apply H1.
    + rewrite fset_ne by done. apply H1.
  - destruct (decide (h = 0)) as [->|Hne].
    + rewrite fset_eq. destruct (decide (pc s 0 = 17%nat)) as [E|E].
      * rewrite E in Ha. apply zero_at_17 in Ha as ->. by rewrite E.
      * assert (a <> Set_started) by (intros ->; by apply set_started_at in Ha as [_ ?]).
        replace (match a with Set_started => true | _ => started s end) with (started s) by (by destruct a).
        rewrite H2. destruct (Nat.leb_spec 18 (pc s 0)), (Nat.leb_spec 18 (S (pc s 0))); try done; lia.
    + rewrite fset_ne by done. assert (a <> Set_started) by (intros ->; by apply set_started_at in Ha as [? _]).
      rewrite <- H2. by destruct a.
  - intros h' Hne Hpc. assert (started s = true -> match a with Set_started => true | _ => started s end = true) as Hmono by (by destruct a).
    apply Hmono. destruct (decide (h' = h)) as [->|Hd]; [|rewrite fset_ne in Hpc by done; by apply (H3 h')].
    destruct (decide (0 < pc s h)%nat) as [Hp|Hp]; [by apply (H3 h)|]. apply Hw.
    rewrite (other_body h Hne) in Ha. replace (pc s h) with 0%nat in Ha by lia. by injection Ha.
Qed.

(** Everything hart 0 does before the scheduler. *)
Definition initialisations : list action := take 18 (main_body 0).

Lemma elem_log_of h a l : a ∈ log_of h l -> (h, a) ∈ l.
Proof.
  unfold log_of. intros Ha%list_elem_of_In%in_map_iff. destruct Ha as ([h' a'] & E & Hin%List.filter_In). cbn in *. destruct Hin as [Hin Hh%Z.eqb_eq].
  subst. by apply list_elem_of_In.
Qed.

Lemma log_of_elem h a l : (h, a) ∈ l -> a ∈ log_of h l.
Proof.
  intros Ha%list_elem_of_In. apply list_elem_of_In, in_map_iff. exists (h, a). split; [done|]. apply List.filter_In. split; [done|]. apply Z.eqb_refl.
Qed.

Definition orderly (l : list (Z * action)) : Prop :=
  NoDup l /\ forall l1 l2 h a, l = l1 ++ (h, a) :: l2 -> h <> 0 -> forall i, i ∈ initialisations -> (0, i) ∈ l2.

Lemma boot_step_orderly s s' : boot_inv s -> orderly (done_log s) -> boot_step harts s s' -> orderly (done_log s').
Proof.
  intros [H1 H2 H3] [Hn Ho] Hs. destruct Hs as [h s Hh Ha Hst|h a s Hh Ha Hw]; [by split|]. split; cbn [done_log].
  - constructor; [|done]. intros Hin%log_of_elem. rewrite H1 in Hin. apply list_elem_of_In, in_rev, list_elem_of_In in Hin.
    apply list_elem_of_lookup in Hin as [i Hi]. apply lookup_take_Some in Hi as [Hi Hlt].
    pose proof (NoDup_lookup _ _ _ _ (body_nodup h) Ha Hi). lia.
  - intros [|x l1] l2 h' a' E Hne i Hi.
    + injection E as <- <- <-. apply elem_log_of. rewrite H1. apply list_elem_of_In. rewrite <- in_rev. apply list_elem_of_In.
      assert (started s = true) as Hst.
      { destruct (decide (0 < pc s h)%nat); [by apply (H3 h)|]. apply Hw. rewrite (other_body h Hne) in Ha.
        replace (pc s h) with 0%nat in Ha by lia. by injection Ha. }
      rewrite H2 in Hst. apply Nat.leb_le in Hst. unfold initialisations in Hi.
      apply list_elem_of_lookup in Hi as [j Hj]. apply lookup_take_Some in Hj as [Hj Hlt]. apply (list_elem_of_lookup_2 _ j), lookup_take_Some. split; [done|lia].
    + injection E as _ E. by apply (Ho l1 l2 h' a').
Qed.

Lemma boot_reachable s : rtc (boot_step harts) booting s -> boot_inv s /\ orderly (done_log s).
Proof.
  revert s. apply rtc_ind_r.
  - split; [split; [intros h; by destruct (main_body h)|done|cbn; lia]|]. split; [constructor|]. intros l1 l2 h a E. by destruct l1.
  - intros y z _ Hs [Hi Ho]. split; [by eapply boot_step_inv|by eapply boot_step_orderly].
Qed.

End Order.

(** [C39] In every interleaving of any set of harts, no hart but hart 0 prints,
    turns on paging, installs its trap vector, enables interrupts or schedules
    before hart 0 has done all of its initialisations, and every hart does
    each of its steps at most once, in the order of [main]. *)
Theorem boot_order (harts : Z -> Prop) (s : boot) (Hs : rtc (boot_step harts) booting s) :
  NoDup (done_log s) /\
  (forall h, log_of h (done_log s) = rev (take (pc s h) (main_body h))) /\
  forall l1 l2 h a, done_log s = l1 ++ (h, a) :: l2 -> h <> 0 -> forall i, i ∈ initialisations -> (0, i) ∈ l2.
Proof. destruct (boot_reachable harts s Hs) as [[H1 _ _] [H2 H3]]. done. Qed.

(** Two harts: hart 1 spins, hart 0 takes its first step. *)
Lemma boot_order_witness : exists s, rtc (boot_step (fun h => 0 <= h < 2)) booting s /\ done_log s = [(0, Consoleinit)] /\ NoDup (done_log s).
Proof.
  assert (rtc (boot_step (fun h => 0 <= h < 2)) booting (mk_boot false (fset (pc booting) 0 1%nat) [(0, Consoleinit)])) as H.
  { eapply rtc_l; [apply (step_spin _ 1); [lia|reflexivity|reflexivity]|].
    eapply rtc_l; [apply (step_action _ 0 Consoleinit); [lia|reflexivity|discriminate]|]. apply rtc_refl. }
  eexists. split; [exact H|]. split; [reflexivity|]. exact (proj1 (boot_order _ _ H)).
Defined.

(** ** Properties of the timer *)

Section Timer.

Context (main timervec mscratch0 : Z) (Hscratch : CLINT + 0x10000 <= mscratch0).

#[local] Notation scratch := (scratch mscratch0).

(** What [timervec] relies on. *)
Definition prepared (id : Z) (m : mem) : Prop :=
  load64 m (scratch id + 32) = CLINT_MTIMECMP id /\ load64 m (scratch id + 40) = interval.

Definition is_hart (id : Z) : Prop := 0 <= id < NCPU.

Lemma mtimecmp_range id : is_hart id -> CLINT <= CLINT_MTIMECMP id /\ CLINT_MTIMECMP id + 8 <= CLINT + 0x10000 /\ 0 <= CLINT_MTIMECMP id < 2 ^ 64.
Proof. unfold is_hart, CLINT_MTIMECMP, CLINT, NCPU. lia. Qed.

Ltac skip_store := rewrite load_store_other by (unfold scratch, is_hart, CLINT_MTIMECMP, CLINT, NCPU, Boot.scratch in *; lia).

Lemma start_prepares s : is_hart (mhartid s) ->
  let s' := start main timervec mscratch0 s in
  mret s' = (main, 1) /\ m_tp s' = mhartid s /\ m_satp s' = 0 /\ medeleg s' = 0xffff /\ mideleg s' = 0xffff /\
  mscratch s' = scratch (mhartid s) /\ mtvec s' = timervec /\ prepared (mhartid s) (m_mem s') /\
  load64 (m_mem s') (CLINT_MTIMECMP (mhartid s)) = u64 (load64 (m_mem s) CLINT_MTIME + interval).
Proof.
  intros Hid s'. assert (s32 (mhartid s) = mhartid s) as E by (apply s32_small; unfold is_hart, NCPU in Hid; lia).
  pose proof (mtimecmp_range _ Hid) as Hr. unfold s', start, timerinit. cbn. rewrite E.
  split_and!; try done.
  - unfold mret. cbn. f_equal. apply Z.bits_inj'. intros k Hk. rewrite Z.land_spec, Z.shiftr_spec, !Z.lor_spec, Z.land_spec, Z.lnot_spec by lia.
    unfold MSTATUS_MPP_MASK, MSTATUS_MPP_S, MSTATUS_MIE. rewrite !Z.shiftl_spec by lia.
    destruct (decide (k = 0)) as [->|]; [|destruct (decide (k = 1)) as [->|]].
    + cbn. by rewrite !andb_false_r.
    + cbn. by rewrite !andb_false_r.
    + replace (Z.testbit 3 k) with false; [rewrite andb_false_r|]; symmetry; apply Z.bits_above_log2; cbn; lia.
  - split; [skip_store|by rewrite load_store_same]. rewrite load_store_same. unfold u64. rewrite Z.mod_mod by lia. apply Z.mod_small. lia.
  - do 2 skip_store. rewrite load_store_same. unfold u64. by rewrite Z.mod_mod by lia.
Qed.

(** [timervec] with the scratch area of hart [id]. *)
Lemma timervec_runs id r m : is_hart id -> prepared id m -> r_mscratch r = scratch id ->
  (0 <= a1 r < 2 ^ 64) -> (0 <= a2 r < 2 ^ 64) -> (0 <= a3 r < 2 ^ 64) ->
  let '(r', m') := timervec_code r m in
  r' = mk_regs (a0 r) (a1 r) (a2 r) (a3 r) (r_mscratch r) 2 /\
  load64 m' (CLINT_MTIMECMP id) = u64 (load64 m (CLINT_MTIMECMP id) + interval) /\
  (forall a, ~ (scratch id <= a < scratch id + 24) -> ~ (CLINT_MTIMECMP id <= a < CLINT_MTIMECMP id + 8) -> m' a = m a).
Proof.
  intros Hid [P1 P2] Hm H1 H2 H3. pose proof (mtimecmp_range _ Hid) as Hr.
  assert (CLINT + 0x10000 <= scratch id) as Hs by (unfold scratch, is_hart in *; lia).
  destruct r as [x0 x1 x2 x3 sc sp]. cbn [a0 a1 a2 a3 r_mscratch r_sip] in *. subst sc.
  cbv beta iota zeta delta [timervec_code a0 a1 a2 a3 r_mscratch r_sip].
  set (m1 := store64 (store64 (store64 m (scratch id) x1) (scratch id + 8) x2) (scratch id + 16) x3).
  assert (forall a, scratch id + 24 <= a \/ a + 8 <= scratch id -> load64 m1 a = load64 m a) as Hout.
  { intros a Ha. unfold m1. rewrite !load_store_other by lia. done. }
  rewrite !(Hout (scratch id + 32)), !(Hout (scratch id + 40)), P1, P2 by lia. rewrite !(Hout (CLINT_MTIMECMP id)) by lia.
  split; [|split].
  - f_equal; rewrite load_store_other by lia; unfold m1.
    + rewrite !load_store_other, load_store_same by lia. by apply u64_small.
    + rewrite load_store_other, load_store_same by lia. by apply u64_small.
    + rewrite load_store_same. by apply u64_small.
  - rewrite load_store_same. unfold u64. by rewrite Z.mod_mod by lia.
  - intros a Ha Hc. rewrite store64_outside by lia. unfold m1. rewrite !store64_outside by lia. done.
Qed.

End Timer.

(** [C40] The timer interrupt is invisible to the code it interrupts: from
    memory as [start] prepares it, [timervec] returns with all registers as
    they were, moves the comparison register of its hart on by the interval,
    raises the software interrupt, and changes nothing else outside the
    scratch area of its hart, so that the areas of all harts stay prepared for
    the next interrupt. *)
Theorem timer_transparent (mscratch0 : Z) (id : Z) (r : regs) (m : mem)
  (Hscratch : CLINT + 0x10000 <= mscratch0) (Hid : is_hart id) (Hprep : forall i, is_hart i -> prepared mscratch0 i m)
  (Hm : r_mscratch r = scratch mscratch0 id) (H1 : 0 <= a1 r < 2 ^ 64) (H2 : 0 <= a2 r < 2 ^ 64) (H3 : 0 <= a3 r < 2 ^ 64) :
  let '(r', m') := timervec_code r m in
  r' = mk_regs (a0 r) (a1 r) (a2 r) (a3 r) (r_mscratch r) 2 /\
  load64 m' (CLINT_MTIMECMP id) = u64 (load64 m (CLINT_MTIMECMP id) + interval) /\
  (forall a, ~ (scratch mscratch0 id <= a < scratch mscratch0 id + 24) -> ~ (CLINT_MTIMECMP id <= a < CLINT_MTIMECMP id + 8) -> m' a = m a) /\
  forall i, is_hart i -> prepared mscratch0 i m'.
Proof.
  pose proof (timervec_runs mscratch0 Hscratch id r m Hid (Hprep id Hid) Hm H1 H2 H3) as H. destruct (timervec_code r m) as [r' m'].
  destruct H as (E1 & E2 & E3). split; [done|]. split; [done|]. split; [done|]. intros i Hi. destruct (Hprep i Hi) as [P1 P2].
  assert (forall a, scratch mscratch0 i + 32 <= a -> a + 8 <= scratch mscratch0 i + 256 -> load64 m' a = load64 m a) as Hl.
  { intros a Ha1 Ha2. apply load64_ext. intros x Hx. apply E3; unfold scratch, is_hart, CLINT_MTIMECMP, CLINT, NCPU in *; lia. }
  split; rewrite Hl by lia; done.
Qed.

(** Memory with every area prepared. *)
Definition demo_scratch : Z := 0x80010000.
Fixpoint prepare_areas (ids : list Z) (m : mem) : mem :=
  match ids with
  | [] => m
  | i :: ids' => prepare_areas ids' (store64 (store64 m (scratch demo_scratch i + 32) (CLINT_MTIMECMP i)) (scratch demo_scratch i + 40) interval)
  end.
Definition demo_mem : mem := prepare_areas (seqZ 0 NCPU) (fun _ => Byte.x00).
Definition demo_regs : regs := mk_regs 1 2 3 4 (scratch demo_scratch 3) 0.

Lemma demo_prepared i : is_hart i -> prepared demo_scratch i demo_mem.
Proof.
  intros Hi. unfold is_hart, NCPU in Hi.
  assert (i = 0 \/ i = 1 \/ i = 2 \/ i = 3 \/ i = 4 \/ i = 5 \/ i = 6 \/ i = 7) as H by lia.
  destruct H as [->|[->|[->|[->|[->|[->|[->| ->]]]]]]]; split; vm_compute; reflexivity.
Qed.

Lemma timer_transparent_witness : let '(r', m') := timervec_code demo_regs demo_mem in
  r' = mk_regs 1 2 3 4 (scratch demo_scratch 3) 2 /\ load64 m' (CLINT_MTIMECMP 3) = interval.
Proof.
  pose proof (timer_transparent demo_scratch 3 demo_regs demo_mem ltac:(vm_compute; discriminate) ltac:(vm_compute; intuition congruence) demo_prepared eq_refl
    ltac:(vm_compute; intuition congruence) ltac:(vm_compute; intuition congruence) ltac:(vm_compute; intuition congruence)) as H.
  destruct (timervec_code demo_regs demo_mem) as [r' m']. destruct H as (H1 & H2 & _). split; [exact H1|]. rewrite H2. vm_compute. reflexivity.
Defined.
