(* ===== verification/Grep.v ===== *)
(** * user/grep.c

    The pattern matcher and the line filter.  A C string is the list of its
    bytes before the NUL; the regular-expression semantics the matcher is
    compared with is independent of its code: a pattern denotes a sequence of
    items, each of which matches a set of words. *)

From S2P Require Import Prelude CMem.

Definition chr (z : Z) : byte := byte.of_Z z.
Definition c_caret : byte := chr 94.
Definition c_star : byte := chr 42.
Definition c_dollar : byte := chr 36.
Definition c_dot : byte := chr 46.
Definition c_nl : byte := chr 10.

Notation "a =b b" := (Byte.eqb a b) (at level 70).

(** [matchstar]'s loop, for the code [here] of [matchhere(re, .)]. *)
Fixpoint matchstar (here : list byte -> bool) (c : byte) (text : list byte) : bool :=
  here text ||
  match text with
  | [] => false
  | t :: text' => if (t =b c) || (c =b c_dot) then matchstar here c text' else false
  end.

Fixpoint matchhere (re text : list byte) : bool :=
  match re with
  | [] => true
  | c :: re1 =>
      let default :=
        if (c =b c_dollar) && match re1 with [] => true | _ => false end
        then match text with [] => true | _ => false end
        else match text with
             | t :: text' => if (c =b c_dot) || (c =b t) then matchhere re1 text' else false
             | [] => false
             end in
      match re1 with
      | s :: re2 => if s =b c_star then matchstar (matchhere re2) c text else default
      | [] => default
      end
  end.

(** The do-while loop of [match]. *)
Fixpoint match_loop (re text : list byte) : bool :=
  if matchhere re text then true else
  match text with [] => false | _ :: text' => match_loop re text' end.

Definition match_ (re text : list byte) : bool :=
  match re with
  | c :: re' => if c =b c_caret then matchhere re' text else match_loop re text
  | [] => match_loop re text
  end.

(** ** The filter *)

(** [strchr(s, c)]: the offset of the first [c] before a NUL. *)
Fixpoint strchr (s : list byte) (c : byte) : option nat :=
  match s with
  | [] => None
  | x :: s' => if x =b Byte.x00 then None else if x =b c then Some 0%nat else option_map S (strchr s' c)
  end.

(** The inner loop over the lines of the buffer from [p] on: the output and
    what is left behind the last newline. *)
Fixpoint grep_lines (pattern p : list byte) (fuel : nat) : list byte * list byte :=
  match fuel with
  | O => ([], p)
  | S f =>
      match strchr p c_nl with
      | None => ([], p)
      | Some q =>
          let r := grep_lines pattern (drop (q + 1) p) f in
          ((if match_ pattern (take q p) then take (q + 1) p else []) ++ fst r, snd r)
      end
  end.

Definition BUF : nat := 1024.

(** [read(fd, buf+m, sizeof(buf)-m-1)] at the [k]-th call: the input that
    remains is [input], and the read delivers at most [rd k + 1] bytes. *)
Definition grep_read (rd : nat -> nat) (k m : nat) (input : list byte) : nat :=
  Nat.min (Nat.min (S (rd k)) (BUF - m - 1)) (length input).

(** The outer loop; [buf] are the first [m] bytes of the buffer.  [None] when
    the fuel runs out. *)
Fixpoint grep_loop (pattern : list byte) (rd : nat -> nat) (k : nat) (input buf : list byte) (fuel : nat) : option (list byte) :=
  match fuel with
  | O => None
  | S f =>
      let n := grep_read rd k (length buf) input in
      if (n =? 0)%nat then Some [] else
      let r := grep_lines pattern (buf ++ take n input) (length buf + n) in
      option_map (fun out => fst r ++ out) (grep_loop pattern rd (S k) (drop n input) (snd r) f)
  end.

Definition grep (pattern : list byte) (rd : nat -> nat) (input : list byte) : option (list byte) :=
  grep_loop pattern rd 0 input [] (S (length input)).

(** [main]: the arguments, standard input and the files by name; the bytes
    written to the standard output, those written to the standard error, and
    the exit status.  [usage] and [cannot] are the texts of its messages. *)
Section Main.
Context (usage : list byte) (cannot : list byte -> list byte).
Context (stdin : list byte) (files : list byte -> option (list byte)) (rd : nat -> nat).

Fixpoint grep_files (pattern : list byte) (names : list (list byte)) : option (list byte * Z) :=
  match names with
  | [] => Some ([], 0)
  | name :: names' =>
      match files name with
      | None => Some (cannot name, 1)
      | Some input =>
          match grep pattern rd input, grep_files pattern names' with
          | Some out, Some (out', st) => Some (out ++ out', st)
          | _, _ => None
          end
      end
  end.

Definition grep_main (argv : list (list byte)) : option (list byte * list byte * Z) :=
  match argv with
  | [] | [_] => Some ([], usage, 1)
  | [_; pattern] => option_map (fun out => (out, [], 0)) (grep pattern rd stdin)
  | _ :: pattern :: names => option_map (fun r => (fst r, [], snd r)) (grep_files pattern names)
  end.
End Main.

(** ** Regular expressions *)

Inductive item := Chr (c : byte) | Star (c : byte).

(** Which bytes a pattern character stands for. *)
Definition stands (c t : byte) : Prop := c = c_dot \/ c = t.

Definition item_word (i : item) (u : list byte) : Prop :=
  match i with
  | Chr c => exists t, u = [t] /\ stands c t
  | Star c => Forall (stands c) u
  end.

(** The words a sequence of items matches: one piece per item. *)
Definition items_word (its : list item) (u : list byte) : Prop :=
  exists us, Forall2 item_word its us /\ u = concat us.

(** The items of a pattern without its leading [^], and whether it ends in an
    anchor. *)
Fixpoint parse (re : list byte) : list item * bool :=
  match re with
  | [] => ([], false)
  | c :: re1 =>
      match re1 with
      | [] => if c =b c_dollar then ([], true) else ([Chr c], false)
      | s :: re2 =>
          if s =b c_star then let r := parse re2 in (Star c :: fst r, snd r)
          else let r := parse re1 in (Chr c :: fst r, snd r)
      end
  end.

(** A pattern occurs in a text. *)
Definition occurs (at_start : bool) (r : list item * bool) (text : list byte) : Prop :=
  exists pre u post, text = pre ++ u ++ post /\ items_word (fst r) u /\
    (at_start = true -> pre = []) /\ (snd r = true -> post = []).

(** What a pattern means. *)
Definition pattern_occurs (re text : list byte) : Prop :=
  match re with
  | c :: re' => if c =b c_caret then occurs true (parse re') text else occurs false (parse re) text
  | [] => True
  end.

(** ** The matcher implements the semantics *)

Lemma beqb_spec a b : reflect (a = b) (a =b b).
Proof. destruct (a =b b) eqn:E; constructor; [by apply Byte.byte_dec_bl|]. intros ->. by rewrite (Byte.byte_dec_lb (eq_refl b)) in E. Qed.

Lemma items_word_nil u : items_word [] u <-> u = [].
Proof.
  split; [|intros ->; by exists []]. intros (us & H & ->). by inversion H.
Qed.

Lemma items_word_cons i its u :
  items_word (i :: its) u <-> exists a b, u = a ++ b /\ item_word i a /\ items_word its b.
Proof.
  split.
  - intros (us & H & ->). inversion H as [|? a ? us' Ha Hus]; subst. exists a, (concat us'). split; [done|]. split; [done|]. by exists us'.
  - intros (a & b & -> & Ha & us & Hus & ->). exists (a :: us). split; [by constructor|done].
Qed.

(** The pattern matches at the beginning of the text. *)
Definition at_head (r : list item * bool) (text : list byte) : Prop :=
  exists u post, text = u ++ post /\ items_word (fst r) u /\ (snd r = true -> post = []).

Lemma stands_spec c t : (c =b c_dot) || (c =b t) = true <-> stands c t.
Proof. unfold stands. destruct (beqb_spec c c_dot), (beqb_spec c t); cbn; naive_solver. Qed.

Lemma at_head_chr c its e text :
  at_head (Chr c :: its, e) text <-> exists t text', text = t :: text' /\ stands c t /\ at_head (its, e) text'.
Proof.
  split.
  - intros (u & post & -> & Hu & He). cbn in Hu. apply items_word_cons in Hu as (a & b & -> & (t & -> & Ht) & Hb).
    exists t, (b ++ post). split; [done|]. split; [done|]. by exists b, post.
  - intros (t & text' & -> & Ht & u & post & -> & Hu & He). exists (t :: u), post. split; [done|]. split; [|done].
    apply items_word_cons. exists [t], u. split; [done|]. split; [by exists t|done].
Qed.

Lemma at_head_star c its e text :
  at_head (Star c :: its, e) text <->
  at_head (its, e) text \/ exists t text', text = t :: text' /\ stands c t /\ at_head (Star c :: its, e) text'.
Proof.
  split.
  - intros (u & post & -> & Hu & He). cbn in Hu. apply items_word_cons in Hu as (a & b & -> & Ha & Hb). cbn in Ha.
    destruct Ha as [|t a Ht Ha]; [left; by exists b, post|]. right. exists t, ((a ++ b) ++ post). split; [done|]. split; [done|].
    exists (a ++ b), post. split; [done|]. split; [|done]. apply items_word_cons. by exists a, b.
  - intros [(u & post & -> & Hu & He)|(t & text' & -> & Ht & u & post & -> & Hu & He)].
    + exists u, post. split; [done|]. split; [|done]. apply items_word_cons. exists [], u. split; [done|]. split; [by constructor|done].
    + exists (t :: u), post. split; [done|]. split; [|done]. cbn in Hu. apply items_word_cons in Hu as (a & b & -> & Ha & Hb).
      apply items_word_cons. exists (t :: a), b. split; [done|]. split; [by constructor|done].
Qed.

Lemma matchstar_correct here c r :
  (forall text, here text = true <-> at_head r text) ->
  forall text, matchstar here c text = true <-> at_head (Star c :: fst r, snd r) text.
Proof.
  destruct r as [its e]. intros Hh. induction text as [|t text IH]; cbn [matchstar fst snd]; rewrite at_head_star, orb_true_iff, Hh.
  - naive_solver.
  - assert ((t =b c) || (c =b c_dot) = true <-> stands c t) as Hst
      by (unfold stands; destruct (beqb_spec c c_dot), (beqb_spec t c); cbn; naive_solver).
    destruct ((t =b c) || (c =b c_dot)); naive_solver.
Qed.

Lemma at_head_nil text : at_head ([], false) text.
Proof. exists [], text. split; [done|]. split; [by apply items_word_nil|done]. Qed.

Lemma at_head_end text : at_head ([], true) text <-> text = [].
Proof.
  split; [|intros ->; exists [], []; split; [done|]; split; [by apply items_word_nil|done]]. intros (u & post & -> & Hu & He). cbn in *. apply items_word_nil in Hu as ->. by rewrite He.
Qed.

Lemma matchhere_correct n : forall re text, (length re <= n)%nat -> matchhere re text = true <-> at_head (parse re) text.
Proof.
  induction n as [|n IH]; intros re text Hn; destruct re as [|c [|s re2]]; cbn in Hn; try lia.
  1,2: split; [intros _; apply at_head_nil|done].
  - cbn. destruct (beqb_spec c c_dollar) as [->|Hc]; cbn.
    + rewrite at_head_end. destruct text; naive_solver.
    + rewrite at_head_chr. destruct text as [|t text]; [naive_solver|]. pose proof (stands_spec c t) as Hst.
      destruct ((c =b c_dot) || (c =b t)); [|naive_solver]. pose proof (at_head_nil text). naive_solver.
  - cbn [matchhere parse]. destruct (beqb_spec s c_star) as [->|Hs].
    + apply matchstar_correct. intros t. apply IH. lia.
    + rewrite andb_false_r. rewrite at_head_chr. destruct text as [|t text]; [naive_solver|]. pose proof (stands_spec c t) as Hst.
      specialize (IH (s :: re2) text ltac:(cbn; lia)). rewrite (surjective_pairing (parse (s :: re2))) in IH.
      destruct ((c =b c_dot) || (c =b t)); naive_solver.
Qed.

Lemma occurs_start r text : occurs true r text <-> at_head r text.
Proof.
  split.
  - intros (pre & u & post & -> & Hu & Hp & He). rewrite Hp by done. by exists u, post.
  - intros (u & post & -> & Hu & He). by exists [], u, post.
Qed.

Lemma occurs_anywhere r text :
  occurs false r text <-> at_head r text \/ exists t text', text = t :: text' /\ occurs false r text'.
Proof.
  split.
  - intros (pre & u & post & -> & Hu & _ & He). destruct pre as [|t pre]; [left; by exists u, post|].
    right. exists t, (pre ++ u ++ post). split; [done|]. by exists pre, u, post.
  - intros [(u & post & -> & Hu & He)|(t & text' & -> & pre & u & post & -> & Hu & _ & He)]; [by exists [], u, post|].
    by exists (t :: pre), u, post.
Qed.

Lemma match_loop_correct re text : match_loop re text = true <-> occurs false (parse re) text.
Proof.
  induction text as [|t text IH]; cbn [match_loop]; rewrite occurs_anywhere, <- (matchhere_correct (length re)) by done;
    destruct (matchhere re _); naive_solver.
Qed.

(** [C20] The matcher decides the regular-expression semantics: [match] accepts
    a text exactly if it contains a word of the pattern's items (at the
    beginning with a leading [^], at the end with a trailing [$]). *)
Theorem match_correct (re text : list byte) : match_ re text = true <-> pattern_occurs re text.
Proof.
  destruct re as [|c re]; cbn [match_ pattern_occurs]; [destruct text; naive_solver|].
  destruct (c =b c_caret); [|apply match_loop_correct]. rewrite occurs_start. by apply (matchhere_correct (length re)).
Qed.

(** ** The filter prints the matching lines *)

(** The reference: go through the input byte by byte; [cur] is the current
    line so far. *)
Fixpoint matching_lines (pattern cur input : list byte) : list byte :=
  match input with
  | [] => []
  | x :: rest =>
      if x =b c_nl then (if match_ pattern cur then cur ++ [x] else []) ++ matching_lines pattern [] rest
      else matching_lines pattern (cur ++ [x]) rest
  end.

(** The part of the input that is searched: it ends before a NUL byte, which
    [strchr] does not get past, and before the byte that fills the buffer, one
    byte short of its end, with a line that is not complete; [n] is the length
    of the line so far. *)
Fixpoint searched (n : nat) (input : list byte) : list byte :=
  match input with
  | [] => []
  | x :: rest =>
      if x =b Byte.x00 then [] else
      if x =b c_nl then x :: searched 0 rest else
      if (n + 2 <? BUF)%nat then x :: searched (n + 1) rest else []
  end.

(** Every line, with its newline, fits into the buffer beside the NUL. *)
Fixpoint fits (n : nat) (input : list byte) : bool :=
  match input with
  | [] => true
  | x :: rest => if x =b c_nl then fits 0 rest else (n + 2 <? BUF)%nat && fits (n + 1) rest
  end.

Definition no_byte (b : byte) (l : list byte) : Prop := Forall (fun x => x <> b) l.

Lemma matching_lines_app pattern cur p rest :
  no_byte c_nl p -> matching_lines pattern cur (p ++ rest) = matching_lines pattern (cur ++ p) rest.
Proof.
  intros Hp. revert cur. induction Hp as [|x p Hx _ IH]; intros cur; cbn; [by rewrite app_nil_r|].
  destruct (beqb_spec x c_nl); [done|]. by rewrite IH, <- app_assoc.
Qed.

(** With no NUL byte and no long line all of the input is searched. *)
Lemma searched_all input : forall n, no_byte Byte.x00 input -> fits n input = true -> searched n input = input.
Proof.
  induction input as [|x input IH]; intros n Hp; cbn -[BUF]; [done|]. apply Forall_cons in Hp as [Hx Hp].
  destruct (beqb_spec x Byte.x00); [done|]. destruct (beqb_spec x c_nl); [intros H; by rewrite IH|].
  intros [-> H]%andb_prop. by rewrite IH.
Qed.

Lemma searched_prefix input : forall n, exists rest, input = searched n input ++ rest.
Proof.
  induction input as [|x input IH]; intros n; cbn [searched]; [by exists []|].
  destruct (x =b Byte.x00); [by exists (x :: input)|].
  destruct (x =b c_nl); [destruct (IH 0%nat) as [rest E]; exists rest; cbn [app]; by rewrite <- E|].
  destruct (n + 2 <? BUF)%nat; [|by exists (x :: input)]. destruct (IH (n + 1)%nat) as [rest E]. exists rest. cbn [app]. by rewrite <- E.
Qed.

(** A complete line that fits is searched. *)
Lemma searched_line p rest : no_byte c_nl p -> no_byte Byte.x00 p -> forall n, (n + length p < BUF - 1)%nat ->
  searched n (p ++ c_nl :: rest) = p ++ c_nl :: searched 0 rest.
Proof.
  intros Hp. induction Hp as [|x p Hx _ IH]; intros H0 n Hn; [done|]. apply Forall_cons in H0 as [Hx0 H0].
  cbn [app searched]. cbn [length] in Hn. destruct (beqb_spec x Byte.x00); [done|]. destruct (beqb_spec x c_nl); [done|].
  destruct (Nat.ltb_spec (n + 2) BUF); [|lia]. by rewrite IH by (done || lia).
Qed.

(** Nothing is printed of a buffer without a complete line when there is no
    more input or no more room. *)
Lemma searched_stuck pattern p input : strchr p c_nl = None ->
  forall n cur, (n < BUF - 1)%nat -> input = [] \/ (BUF - 1 <= n + length p)%nat ->
  matching_lines pattern cur (searched n (p ++ input)) = [].
Proof.
  induction p as [|x p IH]; intros Hs n cur Hn Ho; [destruct Ho as [-> | Ho]; [done|cbn [length] in Ho; lia]|].
  cbn [strchr] in Hs. cbn [app searched]. cbn [length] in Ho. destruct (beqb_spec x Byte.x00); [done|].
  destruct (beqb_spec x c_nl) as [|Hx]; [done|]. destruct (strchr p c_nl); [done|].
  destruct (Nat.ltb_spec (n + 2) BUF); [|done]. cbn [matching_lines]. destruct (beqb_spec x c_nl); [done|].
  apply IH; [done|lia|]. destruct Ho; [by left|right; lia].
Qed.

Lemma strchr_Some s q : strchr s c_nl = Some q ->
  exists l rest, s = l ++ c_nl :: rest /\ length l = q /\ no_byte c_nl l /\ no_byte Byte.x00 l.
Proof.
  revert q. induction s as [|x s IH]; intros q; cbn; [done|].
  destruct (beqb_spec x Byte.x00); [done|]. destruct (beqb_spec x c_nl) as [->|Hx].
  - intros [= <-]. exists [], s. split_and!; [done|done|by constructor|by constructor].
  - destruct (strchr s c_nl) as [q'|]; [|done]. intros [= <-]. destruct (IH q' eq_refl) as (l & rest & -> & <- & Hl & H0).
    exists (x :: l), rest. split_and!; [done|done|by constructor|by constructor].
Qed.

Lemma grep_lines_spec pattern fuel : forall p rest, (length p <= fuel)%nat -> (length p <= BUF - 1)%nat ->
  let r := grep_lines pattern p fuel in
  strchr (snd r) c_nl = None /\ (length (snd r) <= length p)%nat /\
  matching_lines pattern [] (searched 0 (p ++ rest)) = fst r ++ matching_lines pattern [] (searched 0 (snd r ++ rest)).
Proof.
  induction fuel as [|f IH]; intros p rest Hf Hp; cbn [grep_lines].
  { destruct p; cbn in Hf; [by split_and!|lia]. }
  destruct (strchr p c_nl) as [q|] eqn:E; [|by split_and!].
  apply strchr_Some in E as (l & r & -> & <- & Hl & H0).
  assert (drop (length l + 1) (l ++ c_nl :: r) = r) as -> by (rewrite drop_app_ge by lia; by replace (length l + 1 - length l)%nat with 1%nat by lia).
  assert (take (length l + 1) (l ++ c_nl :: r) = l ++ [c_nl]) as -> by (rewrite take_app_ge by lia; by replace (length l + 1 - length l)%nat with 1%nat by lia).
  rewrite take_app_length. rewrite length_app in Hf, Hp |- *. cbn [length] in Hf, Hp |- *.
  destruct (IH r rest) as (H1 & H2 & H3); [lia|lia|]. cbn [fst snd]. split_and!; [done|lia|].
  rewrite <- app_assoc. cbn [app]. rewrite searched_line by (done || (unfold BUF in *; lia)). rewrite matching_lines_app by done.
  cbn -[c_nl]. destruct (beqb_spec c_nl c_nl); [|done]. rewrite H3. by rewrite <- app_assoc.
Qed.

Lemma grep_loop_spec pattern rd fuel : forall k input buf,
  strchr buf c_nl = None -> (length buf <= BUF - 1)%nat -> (length input < fuel)%nat ->
  grep_loop pattern rd k input buf fuel = Some (matching_lines pattern [] (searched 0 (buf ++ input))).
Proof.
  induction fuel as [|f IH]; intros k input buf Hb Hlen Hf; [lia|]. cbn [grep_loop]. unfold grep_read.
  set (n := Nat.min _ _). destruct (Nat.eqb_spec n 0) as [Hn|Hn].
  { rewrite searched_stuck; [done|done|unfold BUF; lia|]. destruct input; [by left|right]. unfold n, BUF in *. cbn [length] in *. lia. }
  assert (length (take n input) = n) as Ht by (rewrite length_take; lia).
  destruct (grep_lines_spec pattern (length buf + n) (buf ++ take n input) (drop n input)) as (H1 & H2 & H3).
  { rewrite length_app. lia. }
  { rewrite length_app. unfold BUF in *. lia. }
  rewrite length_app in H2. rewrite <- app_assoc, take_drop in H3. rewrite IH; [cbn; by rewrite H3|done|unfold BUF in *; lia|].
  rewrite length_drop. unfold n in *. lia.
Qed.

(** [C31] The filter terminates and, however the input is cut into reads, prints
    exactly the matching complete lines of the part of the input that it
    searches, in order and unchanged.  That part is a prefix of the input: it
    ends before the first NUL byte and inside the first line of more than 1022
    bytes, and it is the whole input when there is neither. *)
Theorem grep_prints_matching_lines (pattern input : list byte) (rd : nat -> nat) :
  grep pattern rd input = Some (matching_lines pattern [] (searched 0 input)) /\
  (exists rest, input = searched 0 input ++ rest) /\
  (no_byte Byte.x00 input -> fits 0 input = true -> searched 0 input = input).
Proof.
  split_and!; [|apply searched_prefix|apply searched_all].
  unfold grep. rewrite grep_loop_spec; [done|done|unfold BUF; cbn; lia|lia].
Qed.

Definition demo_text : list byte := map chr [97; 98; 99; 10; 98; 99; 10; 99; 10; 98; 98].
Definition demo_pattern : list byte := map chr [94; 97; 42; 98].

Lemma grep_prints_matching_lines_witness :
  grep demo_pattern (fun _ => 2%nat) demo_text = Some (map chr [97; 98; 99; 10; 98; 99; 10]).
Proof.
  exact (eq_trans (proj1 (grep_prints_matching_lines demo_pattern demo_text (fun _ => 2%nat))) eq_refl).
Defined.

(** A line that fills the buffer stops the search: the read for more has no
    room, returns 0, and the lines after it are never looked at. *)
Lemma grep_stops_at_long_line :
  grep [chr 98] (fun _ => 1022%nat) (replicate 1023 (chr 97) ++ [c_nl; chr 98; c_nl]) = Some [] /\
  matching_lines [chr 98] [] (replicate 1023 (chr 97) ++ [c_nl; chr 98; c_nl]) = [chr 98; c_nl].
Proof. split; by vm_compute. Qed.
