(* ===== verification/Ulib.v ===== *)
(** * The user library: user/ulib.c

    Strings and memory as in CMem.v; a C string that is only read is the list
    of the codes of its characters before the NUL. *)

From S2P Require Import Prelude CMem Printf.

(** [while(( *s++ = *t++) != 0)]: [None] when no NUL is found within the fuel. *)
Fixpoint strcpy (m : mem) (s t : Z) (fuel : nat) : option mem :=
  match fuel with
  | O => None
  | S f =>
      let m' := upd m s (m t) in
      if Byte.eqb (m t) Byte.x00 then Some m' else strcpy m' (s + 1) (t + 1) f
  end.

Fixpoint strcmp (p q : list Z) : Z :=
  match p, q with
  | [], [] => 0
  | [], y :: _ => 0 - y
  | x :: _, [] => x - 0
  | x :: p', y :: q' => if x =? y then strcmp p' q' else x - y
  end.

Fixpoint u_strlen_loop (m : mem) (s n : Z) (fuel : nat) : option Z :=
  match fuel with
  | O => None
  | S f => if Byte.eqb (m (s + n)) Byte.x00 then Some (u32 n) else u_strlen_loop m s (s32 (n + 1)) f
  end.
Definition u_strlen (m : mem) (s : Z) (fuel : nat) : option Z := u_strlen_loop m s 0 fuel.

Fixpoint u_memset_loop (m : mem) (dst : Z) (c : byte) (i : Z) (left : nat) : mem :=
  match left with
  | O => m
  | S left' => u_memset_loop (upd m (dst + i) c) dst c (i + 1) left'
  end.
Definition u_memset (m : mem) (dst c n : Z) : mem := u_memset_loop m dst (byte.of_Z c) 0 (Z.to_nat n).

(** The address of the first [c] in the string at [s], or null. *)
Fixpoint u_strchr (m : mem) (s : Z) (c : byte) (fuel : nat) : option Z :=
  match fuel with
  | O => None
  | S f =>
      if Byte.eqb (m s) Byte.x00 then Some 0
      else if Byte.eqb (m s) c then Some s else u_strchr m (s + 1) c f
  end.

(** [gets]: the characters stored before the NUL, and the input left; [None] is
    a read that fails. *)
Fixpoint gets_loop (i max : Z) (input : list (option Z)) (left : nat) : list Z * list (option Z) :=
  match left with
  | O => ([], input)
  | S left' =>
      if i + 1 <? max then
        match input with
        | Some c :: input' =>
            if (c =? 10) || (c =? 13) then ([c], input')
            else let r := gets_loop (i + 1) max input' left' in (c :: fst r, snd r)
        | None :: input' => ([], input')
        | [] => ([], [])
        end
      else ([], input)
  end.
Definition u_gets (max : Z) (input : list (option Z)) : list Z * list (option Z) :=
  gets_loop 0 max input (Z.to_nat max).

(** [stat], over the system calls it makes. *)
Section Stat.
Context {S St : Type} (open : list Z -> Z -> M S Z) (fstat : Z -> M S (Z * St)) (close : Z -> M S Z).
Definition O_RDONLY : Z := 0.
Definition stat (n : list Z) : M S (Z * option St) :=
  fd <- open n O_RDONLY ;;
  if fd <? 0 then ret (-1, None) else
  r <- fstat fd ;;
  _ <- close fd ;;
  ret (fst r, Some (snd r)).
End Stat.

Definition is_digit (c : Z) : bool := (48 <=? c) && (c <=? 57).

(** [n = n*10 + *s++ - '0'] *)
Fixpoint atoi_loop (n : Z) (s : list Z) : Z :=
  match s with
  | c :: s' => if is_digit c then atoi_loop (s32 (n * 10 + c - 48)) s' else n
  | [] => n
  end.
Definition atoi (s : list Z) : Z := atoi_loop 0 s.

(** [while(n-- > 0) *dst++ = *src++] *)
Fixpoint u_memmove_loop (m : mem) (dst src : Z) (n : nat) : mem :=
  match n with
  | O => m
  | S n' => u_memmove_loop (upd m dst (m src)) (dst + 1) (src + 1) n'
  end.
Definition u_memmove (m : mem) (vdst vsrc n : Z) : mem := u_memmove_loop m vdst vsrc (Z.to_nat n).

(** ** Numbers *)

Lemma decimal_code c d : index_of c u_digits = Some d -> d < 10 -> c = 48 + d /\ 0 <= d.
Proof.
  intros H Hd. cbn in H. repeat match type of H with context [c =? ?k] => destruct (Z.eqb_spec c k) as [->|_] end;
    cbn in H; simplify_eq; lia.
Qed.

Lemma numeral_value_ge l : forall acc v, 0 <= acc -> numeral_value u_digits 10 acc l = Some v -> acc <= v.
Proof.
  induction l as [|c l IH]; intros acc v Ha; cbn [numeral_value]; [intros [= ->]; lia|].
  destruct (index_of c u_digits) as [d|] eqn:E; [|done]. cbn. destruct (Z.ltb_spec d 10); [|done].
  destruct (decimal_code c d E) as [_ ?]; [done|]. intros Hv. apply IH in Hv; lia.
Qed.

(** The text after the number does not begin with a digit. *)
Definition ends_number (rest : list Z) : Prop := match rest with c :: _ => is_digit c = false | [] => True end.

Lemma atoi_numeral l rest : ends_number rest -> forall acc v,
  0 <= acc -> numeral_value u_digits 10 acc l = Some v -> v < 2 ^ 31 -> atoi_loop acc (l ++ rest) = v.
Proof.
  intros Hrest. induction l as [|c l IH]; intros acc v Ha; cbn [numeral_value app].
  - intros [= ->] _. destruct rest as [|c rest]; [done|]. cbn. by rewrite Hrest.
  - destruct (index_of c u_digits) as [d|] eqn:E; [|done]. cbn -[Z.pow]. destruct (Z.ltb_spec d 10); [|done].
    destruct (decimal_code c d E) as [-> ?]; [done|]. intros Hv Hb.
    assert (acc * 10 + d <= v) by (apply (numeral_value_ge l); [lia|done]).
    unfold is_digit. rewrite (proj2 (Z.leb_le 48 (48 + d))), (proj2 (Z.leb_le (48 + d) 57)) by lia. cbn [andb].
    replace (s32 (acc * 10 + (48 + d) - 48)) with (acc * 10 + d) by (rewrite s32_small; lia). apply IH; [lia|done|done].
Qed.

(** [atoi] reads back what [printf("%d")] prints: every non-negative int,
    whatever text follows; a negative one reads as 0, since [atoi] knows no
    sign. *)
Theorem atoi_reads_printf (xx : Z) (rest : list Z) (Hx : int_range xx) (Hrest : ends_number rest) :
  atoi (u_printint xx 10 true ++ rest) = if xx <? 0 then 0 else xx.
Proof.
  unfold u_printint, int_chars, int_range in *. destruct (Z.ltb_spec xx 0) as [Hn|Hn]; cbn [andb].
  - rewrite reverse_app. done.
  - rewrite app_nil_r. apply atoi_numeral; [done|done| |lia]. rewrite u32_small by lia.
    apply store_digits_value32; [apply hexdigits_u_digits|lia|lia|lia].
Qed.

Lemma atoi_reads_printf_witness : atoi (u_printint 2147483647 10 true ++ [10]) = 2147483647.
Proof. refine (atoi_reads_printf 2147483647 [10] _ _); [unfold int_range; lia|reflexivity]. Defined.

(** ** Memory *)

Lemma u_memmove_forward m d s n : u_memmove_loop m d s n = copy_forward m d s n.
Proof. revert m d s. induction n as [|n IH]; intros m d s; cbn; [done|apply IH]. Qed.

(** The library's [memmove] copies like the kernel's (the bytes the source
    held before the call) unless the destination begins inside the source; in
    that case it repeats the bytes in front of the destination. *)
Theorem u_memmove_agrees (m : mem) (dst src n : Z) (Hn : 0 <= n) (x : Z) :
  u_memmove m dst src n x =
    if bool_decide (src < dst < src + n) && bool_decide (dst <= x < dst + n)
    then m (src + (x - dst) mod (dst - src))
    else memmove m dst src n x.
Proof.
  unfold u_memmove. rewrite u_memmove_forward, memmove_spec.
  destruct (decide (src < dst < src + n)) as [Ho|Ho]; cycle 1.
  { rewrite (bool_decide_false (src < _ < _)) by done. cbn [andb]. rewrite copy_forward_spec by lia.
    rewrite Z2Nat.id by done. done. }
  rewrite (bool_decide_true (src < _ < _)) by done. cbn [andb].
  assert (forall k m d s, 0 < d - s -> copy_forward m d s k x =
    if bool_decide (d <= x < d + Z.of_nat k) then m (s + (x - d) mod (d - s)) else m x) as Hgen.
  { clear. induction k as [|k IH]; intros m d s Hd; cbn [copy_forward].
    - rewrite bool_decide_false by lia. done.
    - rewrite IH by lia. replace (d + 1 - (s + 1)) with (d - s) by lia. unfold upd.
      case_bool_decide as H1; case_bool_decide as H2; try lia.
      + assert (x - d = (x - (d + 1)) + 1) as E by lia. destruct (Z.eqb_spec (s + 1 + (x - (d + 1)) mod (d - s)) d) as [Heq|Hne].
        * f_equal. assert ((x - (d + 1)) mod (d - s) = d - s - 1) as E1 by lia.
          rewrite E. rewrite <- Zplus_mod_idemp_l, E1. replace (d - s - 1 + 1) with (d - s) by lia. rewrite Z_mod_same_full. lia.
        * f_equal. pose proof (Z.mod_pos_bound (x - (d + 1)) (d - s) ltac:(lia)).
          rewrite E, <- Zplus_mod_idemp_l. rewrite (Z.mod_small (_ + 1)) by lia. lia.
      + assert (x = d) as -> by lia. rewrite Z.eqb_refl. rewrite Z.sub_diag, Z.mod_0_l by lia. f_equal. lia.
      + destruct (Z.eqb_spec x d); [lia|done]. }
  rewrite Hgen by lia. rewrite Z2Nat.id by done. case_bool_decide; [done|].
  destruct (Z.leb_spec dst x), (Z.ltb_spec x (dst + n)); cbn; try lia; done.
Qed.

Definition alphabet : mem := fun a => byte.of_Z (97 + a).

Lemma u_memmove_agrees_witness : u_memmove alphabet 2 0 4 5 = byte.of_Z 98 /\ memmove alphabet 2 0 4 5 = byte.of_Z 100.
Proof.
  split; [|reflexivity]. refine (eq_trans (u_memmove_agrees alphabet 2 0 4 _ 5) _); [lia|reflexivity].
Defined.
