(* ===== verification/Umalloc.v ===== *)
(** * The user allocator: user/umalloc.c

    The heap is the process's memory with the static header [base], the
    roving pointer [freep] and the break of the process.  A [Header] is two
    fields in memory: the next pointer (8 bytes) and the size (4 bytes), 16
    bytes in all, and sizes count headers.  The free list is a ring in address
    order; [free] merges a block with its neighbours, [malloc] is next-fit and
    takes the tail of a larger block. *)

From S2P Require Import Prelude CMem Riscv.

Record heap := mk_heap { um : mem; freep : Z; brk : Z }.

Definition set_um m h := mk_heap m (freep h) (brk h).
Definition set_freep p h := mk_heap (um h) p (brk h).
Definition set_brk b h := mk_heap (um h) (freep h) b.

Definition HDR : Z := 16.

(** [p->s.ptr] and [p->s.size] *)
Definition hptr (m : mem) (a : Z) : Z := load64 m a.
Definition hsize (m : mem) (a : Z) : Z := load32 m (a + 8).
Definition set_hptr (m : mem) (a v : Z) : mem := store64 m a v.
Definition set_hsize (m : mem) (a v : Z) : mem := store32 m (a + 8) v.

Notation MH := (M heap).
Definition get_ptr (a : Z) : MH Z := gets (fun h => hptr (um h) a).
Definition get_size (a : Z) : MH Z := gets (fun h => hsize (um h) a).
Definition put_ptr (a v : Z) : MH unit := modify (fun h => set_um (set_hptr (um h) a v) h).
Definition put_size (a v : Z) : MH unit := modify (fun h => set_um (set_hsize (um h) a v) h).

(** [free]'s search for the place of [bp] in the ring. *)
Fixpoint free_search (bp p : Z) (fuel : nat) : MH Z :=
  match fuel with
  | O => exhausted
  | S f =>
      q <- get_ptr p ;;
      if (bp >? p) && (bp <? q) then ret p else
      if (p >=? q) && ((bp >? p) || (bp <? q)) then ret p else
      free_search bp q f
  end.

(** Linking [bp] in behind [p], in two steps: [bp] with its successor in the
    ring, [p] with [bp]. *)
Definition join_next (bp p : Z) : MH unit :=
  n <- get_size bp ;;
  q <- get_ptr p ;;
  if bp + HDR * n =? q then
    k <- get_size q ;;
    put_size bp (u32 (n + k)) ;;;
    q <- get_ptr p ;;
    r <- get_ptr q ;;
    put_ptr bp r
  else put_ptr bp q.

Definition join_prev (bp p : Z) : MH unit :=
  s <- get_size p ;;
  if p + HDR * s =? bp then
    n <- get_size bp ;;
    put_size p (u32 (s + n)) ;;;
    r <- get_ptr bp ;;
    put_ptr p r
  else put_ptr p bp.

Definition free (ap : Z) (fuel : nat) : MH unit :=
  let bp := ap - HDR in
  p <- gets freep ;;
  p <- free_search bp p fuel ;;
  join_next bp p ;;;
  join_prev bp p ;;;
  modify (set_freep p).

Section Umalloc.

(** The address of the static header, and whether the kernel finds the pages
    to grow the process from one size to another. *)
Context (base : Z) (grow : Z -> Z -> bool).

(** The system call [sbrk], as its caller sees it: sys_sbrk's result, the new
    size of the process as [growproc] computes it, and zeroes in new pages. *)
Definition sbrk (n : Z) : MH Z :=
  let n := s32 n in
  b <- gets brk ;;
  let addr := s32 b in
  let sz := u32 b in
  let newsz := u32 (sz + n) in
  if n >? 0 then
    let r := if newsz <? sz then sz else if grow sz newsz then newsz else 0 in
    if r =? 0 then ret (u64 (-1)) else
    modify (fun h => set_um (fun a => if (PGROUNDUP sz <=? a) && (a <? PGROUNDUP r) then Byte.x00 else um h a) h) ;;;
    modify (set_brk r) ;;;
    ret (u64 addr)
  else
    modify (set_brk (if n <? 0 then (if newsz >=? sz then sz else newsz) else sz)) ;;;
    ret (u64 addr).

Definition morecore (nu : Z) (fuel : nat) : MH Z :=
  let nu := if nu <? 4096 then 4096 else nu in
  p <- sbrk (nu * HDR) ;;
  if p =? u64 (-1) then ret 0 else
  put_size p nu ;;;
  free (p + HDR) fuel ;;;
  gets freep.

(** The body of [malloc]'s loop when block [p] is large enough. *)
Definition take_block (nunits prevp p : Z) : MH Z :=
  n <- get_size p ;;
  p <- (if n =? nunits then q <- get_ptr p ;; put_ptr prevp q ;;; ret p
        else
          put_size p (u32 (n - nunits)) ;;;
          n <- get_size p ;;
          let p := p + HDR * n in
          put_size p nunits ;;; ret p) ;;
  modify (set_freep prevp) ;;;
  ret (p + HDR).

Fixpoint malloc_loop (nunits prevp p : Z) (fuel ffuel : nat) : MH Z :=
  match fuel with
  | O => exhausted
  | S f =>
      n <- get_size p ;;
      if n >=? nunits then take_block nunits prevp p else
      fp <- gets freep ;;
      if p =? fp then
        p <- morecore nunits ffuel ;;
        if p =? 0 then ret 0 else
        q <- get_ptr p ;;
        malloc_loop nunits p q f ffuel
      else
        q <- get_ptr p ;;
        malloc_loop nunits p q f ffuel
  end.

Definition nunits_of (nbytes : Z) : Z := u32 ((nbytes + HDR - 1) / HDR + 1).

Definition malloc (nbytes : Z) (fuel : nat) : MH Z :=
  let nunits := nunits_of nbytes in
  fp <- gets freep ;;
  (if fp =? 0 then put_ptr base base ;;; modify (set_freep base) ;;; put_size base 0 else ret tt) ;;;
  prevp <- gets freep ;;
  p <- get_ptr prevp ;;
  malloc_loop nunits prevp p fuel fuel.

End Umalloc.
