(* ===== verification/UmallocInv.v ===== *)
(** * Correctness of the user allocator

    The free list is a ring over [base] and the free blocks in address order,
    no two of them adjacent; together with the blocks handed out they tile the
    memory obtained from the kernel.  [malloc] hands out a block that overlaps
    no other, of at least the size asked for; [free] takes it back; neither
    touches a byte of a block that is in use. *)

From S2P Require Import Prelude CMem Riscv Umalloc.

Notation block := (Z * Z)%type.

(** ** Headers in memory *)

(** Two headers that are equal or do not overlap. *)
Definition apart (a b : Z) : Prop := a + HDR <= b \/ b + HDR <= a.

Lemma hptr_set_eq m a v : 0 <= v < 2 ^ 64 -> hptr (set_hptr m a v) a = v.
Proof. intros. unfold hptr, set_hptr. rewrite load_store_same. by apply u64_small. Qed.
Lemma hsize_set_eq m a v : 0 <= v < 2 ^ 32 -> hsize (set_hsize m a v) a = v.
Proof. intros. unfold hsize, set_hsize. rewrite load_store32_same. by apply u32_small. Qed.
Lemma hptr_set_ne m a b v : apart a b -> hptr (set_hptr m a v) b = hptr m b.
Proof. unfold apart, HDR. intros. apply load_store_other. lia. Qed.
Lemma hsize_set_ne m a b v : apart a b -> hsize (set_hsize m a v) b = hsize m b.
Proof. unfold apart, HDR. intros. apply load32_ext. intros. apply store32_outside. lia. Qed.
Lemma hptr_set_size m a b v : a = b \/ apart a b -> hptr (set_hsize m a v) b = hptr m b.
Proof. unfold apart, HDR. intros. apply load64_ext. intros. apply store32_outside. lia. Qed.
Lemma hsize_set_ptr m a b v : a = b \/ apart a b -> hsize (set_hptr m a v) b = hsize m b.
Proof. unfold apart, HDR. intros. apply load32_ext. intros. apply store64_outside. lia. Qed.
Lemma set_hptr_out m a v x : x < a \/ a + HDR <= x -> set_hptr m a v x = m x.
Proof. unfold HDR. intros. apply store64_outside. lia. Qed.
Lemma set_hsize_out m a v x : x < a \/ a + HDR <= x -> set_hsize m a v x = m x.
Proof. unfold HDR. intros. apply store32_outside. lia. Qed.

(** Reading a header after updates of headers known to be apart. *)
Ltac hdr := repeat first
  [ rewrite hptr_set_eq by lia | rewrite hsize_set_eq by lia
  | rewrite hptr_set_ne by (unfold apart, HDR in *; lia) | rewrite hsize_set_ne by (unfold apart, HDR in *; lia)
  | rewrite hptr_set_size by (unfold apart, HDR in *; lia) | rewrite hsize_set_ptr by (unfold apart, HDR in *; lia) ].

Definition same_hdr (m m' : mem) (a : Z) : Prop := hptr m' a = hptr m a /\ hsize m' a = hsize m a.

Lemma same_hdr_bytes m m' a : (forall x, a <= x < a + HDR -> m' x = m x) -> same_hdr m m' a.
Proof.
  unfold HDR. intros H. split; [apply load64_ext|apply load32_ext]; intros; apply H; lia.
Qed.

(** ** Chains of blocks *)

Definition first (C : list block) (nx : Z) : Z := match C with [] => nx | b :: _ => fst b end.

Fixpoint chain (m : mem) (C : list block) (nx : Z) : Prop :=
  match C with
  | [] => True
  | b :: C' => hsize m (fst b) = snd b /\ hptr m (fst b) = first C' nx /\ chain m C' nx
  end.

Lemma first_app C D nx : first (C ++ D) nx = first C (first D nx).
Proof. by destruct C. Qed.

Lemma chain_app m C D nx : chain m (C ++ D) nx <-> chain m C (first D nx) /\ chain m D nx.
Proof. induction C as [|b C IH]; simpl; [naive_solver|]. rewrite IH, first_app. naive_solver. Qed.

Lemma chain_frame m m' C nx :
  (forall b, b ∈ C -> same_hdr m m' (fst b)) -> chain m C nx -> chain m' C nx.
Proof.
  induction C as [|b C IH]; simpl; [done|]. intros H (H1 & H2 & H3).
  destruct (H b ltac:(by left)) as [-> ->]. split_and!; try done.
  apply IH; [|done]. intros b' Hb. apply H. by right.
Qed.

(** ** Blocks in address order, with a gap between any two *)

Fixpoint ordered (lo : Z) (C : list block) (hi : Z) : Prop :=
  match C with
  | [] => lo < hi
  | b :: C' => lo < fst b /\ 0 < snd b /\ ordered (fst b + HDR * snd b) C' hi
  end.

Lemma ordered_app lo C a n D hi :
  ordered lo (C ++ (a, n) :: D) hi <-> ordered lo C a /\ 0 < n /\ ordered (a + HDR * n) D hi.
Proof. revert lo. induction C as [|b C IH]; intros lo; simpl; [naive_solver|]. rewrite IH. naive_solver. Qed.

Lemma ordered_weaken lo lo' C hi hi' : lo' <= lo -> hi <= hi' -> ordered lo C hi -> ordered lo' C hi'.
Proof.
  revert lo lo'. induction C as [|b C IH]; intros lo lo' H1 H2; simpl; [lia|].
  intros (? & ? & H). split_and!; [lia..|]. by apply (IH (fst b + HDR * snd b)).
Qed.

Lemma ordered_lt lo C hi : ordered lo C hi -> lo < hi.
Proof.
  revert lo. induction C as [|b C IH]; intros lo; simpl; [done|].
  intros (? & ? & H%IH). unfold HDR in *. lia.
Qed.

Lemma ordered_join lo C m m' D hi :
  m <= m' + 1 -> ordered lo C m -> ordered m' D hi -> ordered lo (C ++ D) hi.
Proof.
  revert lo. induction C as [|b C IH]; intros lo Hm; simpl.
  - intros ? H. eapply ordered_weaken; [| |exact H]; lia.
  - intros (? & ? & H) HD. split_and!; try done. by apply IH.
Qed.

Lemma ordered_in lo C hi a n :
  ordered lo C hi -> (a, n) ∈ C -> lo < a /\ 0 < n /\ a + HDR * n < hi.
Proof.
  revert lo. induction C as [|b C IH]; intros lo; simpl; [by intros _ ?%elem_of_nil|].
  intros (? & ? & H) [<-|Hin]%elem_of_cons.
  - simpl in *. apply ordered_lt in H. lia.
  - destruct (IH _ H Hin) as (? & ? & ?). unfold HDR in *. lia.
Qed.

Lemma ordered_length lo C hi : ordered lo C hi -> HDR * Z.of_nat (length C) <= hi - lo.
Proof.
  revert lo. induction C as [|b C IH]; intros lo; simpl; [lia|].
  intros (? & ? & H%IH). unfold HDR in *. lia.
Qed.

(** ** Bytes of blocks *)

Definition covers (b : block) (x : Z) : Prop := fst b <= x < fst b + HDR * snd b.
Definition in_free (C : list block) (x : Z) : Prop := exists b, b ∈ C /\ covers b x.
Definition in_live (live : gmap Z Z) (x : Z) : Prop := exists a n, live !! a = Some n /\ covers (a, n) x.

Lemma in_free_cons b C x : in_free (b :: C) x <-> covers b x \/ in_free C x.
Proof.
  split.
  - intros (c & [->|H]%elem_of_cons & Hc); [by left|right; by exists c].
  - intros [H|(c & H & Hc)]; [exists b|exists c]; (split; [|done]); [by left|by right].
Qed.

Lemma in_free_app C D x : in_free (C ++ D) x <-> in_free C x \/ in_free D x.
Proof. unfold in_free. setoid_rewrite elem_of_app. naive_solver. Qed.

Lemma in_free_nil x : in_free [] x <-> False.
Proof. split; [|done]. by intros (b & ?%elem_of_nil & _). Qed.

Lemma in_live_delete live a n x :
  live !! a = Some n ->
  (forall a' n' x, live !! a' = Some n' -> covers (a', n') x -> covers (a, n) x -> a' = a) ->
  in_live (delete a live) x <-> in_live live x /\ ~ covers (a, n) x.
Proof.
  intros Ha Hd. unfold in_live. split.
  - intros (a' & n' & (Hne & H)%lookup_delete_Some & Hc). split; [by exists a', n'|].
    intros Hc'. apply Hne. symmetry. by apply (Hd a' n' x).
  - intros [(a' & n' & H & Hc) Hnc]. exists a', n'. split; [|done].
    apply lookup_delete_Some. split; [|done]. intros ->. congruence.
Qed.

Lemma in_live_insert live a n x :
  live !! a = None -> in_live (<[a := n]> live) x <-> in_live live x \/ covers (a, n) x.
Proof.
  intros Ha. unfold in_live. split.
  - intros (a' & n' & [[<- <-]|[Hne H]]%lookup_insert_Some & Hc); [by right|left; by exists a', n'].
  - intros [(a' & n' & H & Hc)|Hc].
    + exists a', n'. split; [|done]. apply lookup_insert_Some. right. split; [congruence|done].
    + exists a, n. split; [|done]. apply lookup_insert_Some. by left.
Qed.

Section Ring.

Context (base start : Z).
Hypothesis base_pos : 0 < base.
Hypothesis base_start : base + HDR <= start.

Notation ring L := ((base, 0) :: L).

(** Elements of the ring are in address order. *)
Lemma ring_lt L hi A x s B y t :
  ordered (start - 1) L hi -> ring L = A ++ (x, s) :: B -> (y, t) ∈ B ->
  x + HDR <= y /\ x + HDR * s < y /\ 0 < t /\ y + HDR * t < hi.
Proof.
  intros Ho E Hy. destruct A as [|b A]; simplify_eq/=.
  - destruct (ordered_in _ _ _ _ _ Ho Hy) as (? & ? & ?). unfold HDR in *. lia.
  - apply ordered_app in Ho as (_ & ? & Ho). destruct (ordered_in _ _ _ _ _ Ho Hy) as (? & ? & ?).
    unfold HDR in *. lia.
Qed.

Lemma ring_bounds L hi x s : ordered (start - 1) L hi -> (x, s) ∈ ring L -> base <= x /\ 0 <= s /\ (x = base \/ x + HDR * s < hi /\ start <= x /\ 0 < s).
Proof.
  intros Ho [[= -> ->]|Hx]%elem_of_cons; [lia|].
  destruct (ordered_in _ _ _ _ _ Ho Hx) as (? & ? & ?). unfold HDR in *. lia.
Qed.

(** What the two halves of [free] need of the place found: [bp] lies behind
    [p] and before everything that follows [p] in the ring. *)
Record place (m : mem) (L : list block) (hi : Z) (C1 : list block) (p s : Z) (C2 : list block) (bp n : Z) : Prop := {
  pl_split : ring L = C1 ++ (p, s) :: C2;
  pl_ord : ordered (start - 1) L hi;
  pl_hi : hi <= 2 ^ 31;
  pl_pos : 0 < n;
  pl_start : start <= bp;
  pl_end : bp + HDR * n < hi;
  pl_prev : p + HDR <= bp /\ p + HDR * s <= bp;
  pl_next y t : (y, t) ∈ C2 -> bp + HDR * n <= y;
  pl_size : hsize m bp = n;
  pl_before : chain m C1 p;
  pl_psize : hsize m p = s;
  pl_after : chain m C2 base;
}.
Arguments pl_split {m L hi C1 p s C2 bp n} _. Arguments pl_ord {m L hi C1 p s C2 bp n} _. Arguments pl_hi {m L hi C1 p s C2 bp n} _.
Arguments pl_start {m L hi C1 p s C2 bp n} _. Arguments pl_pos {m L hi C1 p s C2 bp n} _. Arguments pl_end {m L hi C1 p s C2 bp n} _. Arguments pl_prev {m L hi C1 p s C2 bp n} _.
Arguments pl_next {m L hi C1 p s C2 bp n} _. Arguments pl_size {m L hi C1 p s C2 bp n} _. Arguments pl_before {m L hi C1 p s C2 bp n} _.
Arguments pl_psize {m L hi C1 p s C2 bp n} _. Arguments pl_after {m L hi C1 p s C2 bp n} _.

Lemma place_bounds {m L hi C1 p s C2 bp n} : place m L hi C1 p s C2 bp n -> base <= p /\ 0 <= s /\ 0 <= first C2 base < 2 ^ 31.
Proof.
  intros P. destruct (ring_bounds L hi p s (pl_ord P)) as (? & ? & ?).
  { rewrite (pl_split P). apply elem_of_app. right. left. }
  pose proof (pl_hi P). pose proof (pl_end P). pose proof (pl_pos P).
  pose proof (pl_prev P). split_and!; [done..| |].
  all: destruct C2 as [|[y t] C2]; simpl; [unfold HDR in *; lia|];
    destruct (ring_lt L hi C1 p s ((y, t) :: C2) y t (pl_ord P) (pl_split P) ltac:(left)) as (? & ? & ? & ?);
    unfold HDR in *; lia.
Qed.

(** Headers before [p] are apart from [p] and from [bp]; so are those after. *)
Lemma place_apart {m L hi C1 p s C2 bp n} x t :
  place m L hi C1 p s C2 bp n -> (x, t) ∈ C1 -> apart p x /\ apart bp x.
Proof.
  intros P (A & B & E)%list_elem_of_split.
  destruct (ring_lt L hi A x t (B ++ (p, s) :: C2) p s (pl_ord P)) as (? & ? & ? & ?).
  - rewrite (pl_split P), E. by rewrite <- app_assoc.
  - apply elem_of_app. right. left.
  - pose proof (pl_prev P). unfold apart. lia.
Qed.

Lemma place_after {m L hi C1 p s C2 bp n} y t :
  place m L hi C1 p s C2 bp n -> (y, t) ∈ C2 -> p + HDR <= y /\ bp + HDR <= y /\ p + HDR * s < y /\ 0 < t /\ y + HDR * t < hi.
Proof.
  intros P Hy. destruct (ring_lt L hi C1 p s C2 y t (pl_ord P) (pl_split P) Hy) as (? & ? & ? & ?).
  pose proof (pl_next P y t Hy). pose proof (pl_pos P). unfold HDR in *. lia.
Qed.

Lemma place_ordered_after {m L hi C1 p s C2 bp n} :
  place m L hi C1 p s C2 bp n -> ordered (p + HDR * s) C2 hi.
Proof.
  intros P. pose proof (pl_ord P) as Ho. pose proof (pl_split P) as E.
  destruct C1 as [|b C1]; simplify_eq/=.
  - eapply ordered_weaken; [| |exact Ho]; unfold HDR in *; lia.
  - by apply ordered_app in Ho as (_ & _ & ?).
Qed.

(** After [join_next], [bp] is a block of the ring but for the link to it. *)
Lemma join_next_spec h L hi C1 p s C2 bp n :
  place (um h) L hi C1 p s C2 bp n -> hptr (um h) p = first C2 base ->
  exists m1 n1 C2',
    join_next bp p h = Done tt (set_um m1 h) /\
    hsize m1 bp = n1 /\ hptr m1 bp = first C2' base /\ 0 < n1 /\
    chain m1 C1 p /\ hsize m1 p = s /\ chain m1 C2' base /\ ordered (bp + HDR * n1) C2' hi /\
    (forall x, in_free ((bp, n1) :: C2') x <-> covers (bp, n) x \/ in_free C2 x) /\
    (forall x, x < bp \/ bp + HDR <= x -> m1 x = um h x) /\ (length C2' <= length C2)%nat.
Proof.
  intros P Hp. pose proof (place_bounds P) as (B1 & B2 & B3).
  pose proof (pl_pos P). pose proof (pl_prev P) as [V1 V2].
  pose proof (pl_hi P). pose proof (pl_end P).
  pose proof (place_ordered_after P) as Ho.
  unfold join_next, get_size, get_ptr. rewrite !bind_gets, Hp, (pl_size P).
  assert (forall m', (forall x, x < bp \/ bp + HDR <= x -> m' x = um h x) -> chain m' C1 p /\ hsize m' p = s /\ chain m' C2 base) as Hf.
  { intros m' Hm. split_and!.
    - eapply chain_frame; [|apply P]. intros [x t] Hx. apply same_hdr_bytes. intros z Hz. apply Hm.
      destruct (place_apart x t P Hx) as [_ ?]. unfold apart in *. simpl in *. lia.
    - rewrite <- (pl_psize P). apply (same_hdr_bytes (um h)). intros z Hz. apply Hm. lia.
    - eapply chain_frame; [|apply P]. intros [y t] Hy. apply same_hdr_bytes. intros z Hz. apply Hm.
      destruct (place_after y t P Hy) as (_ & ? & _). simpl in *. lia. }
  destruct (Z.eqb_spec (bp + HDR * n) (first C2 base)) as [E|E].
  - destruct C2 as [|[y k] C2]; [unfold HDR in *; simpl in *; lia|]. simpl in E.
    destruct (place_after y k P ltac:(left)) as (? & ? & ? & ? & ?).
    destruct (pl_after P) as (S1 & S2 & S3). simpl in S1, S2.
    destruct Ho as (_ & _ & Ho). simpl in Ho.
    rewrite bind_gets. simpl first. rewrite S1, u32_small by (unfold HDR in *; lia).
    unfold put_size. rewrite bind_modify, !bind_gets. simpl um.
    rewrite (hptr_set_size _ bp p), Hp by (unfold apart; lia). simpl first.
    rewrite (hptr_set_size _ bp y), S2 by (unfold apart; lia).
    assert (0 <= first C2 base < 2 ^ 64) as B4.
    { destruct C2 as [|[z w] C2']; simpl; [unfold HDR in *; lia|].
      destruct (place_after z w P ltac:(right; left)) as (? & ? & ? & ? & ?). unfold HDR in *. lia. }
    exists (set_hptr (set_hsize (um h) bp (n + k)) bp (first C2 base)), (n + k), C2. split; [reflexivity|].
    rewrite (hsize_set_ptr _ bp bp), hsize_set_eq, hptr_set_eq by (lia || (unfold HDR in *; lia)).
    destruct (Hf (set_hptr (set_hsize (um h) bp (n + k)) bp (first C2 base))) as (F1 & F2 & F3).
    { intros x Hx. by rewrite set_hptr_out, set_hsize_out. }
    destruct F3 as (_ & _ & F3). split_and!; try done; [lia|..].
    + replace (bp + HDR * (n + k)) with (y + HDR * k) by (unfold HDR in *; lia). done.
    + intros x. rewrite !in_free_cons. unfold covers. simpl. unfold HDR in *. split.
      * intros [?|?]; [|by right; right]. destruct (decide (x < y)); [left; lia|right; left; lia].
      * intros [?|[?|?]]; [left; lia|left; lia|by right].
    + intros x Hx. by rewrite set_hptr_out, set_hsize_out.
    + simpl. lia.
  - eexists _, n, C2. split; [reflexivity|].
    rewrite (hsize_set_ptr _ bp bp), hptr_set_eq by lia.
    destruct (Hf (set_hptr (um h) bp (first C2 base))) as (F1 & F2 & F3).
    { intros x Hx. by rewrite set_hptr_out. }
    split_and!; try done; [apply P| | |].
    + destruct C2 as [|[y k] C2]; simpl in *; [done|]. destruct Ho as (? & ? & ?). split_and!; try done.
      pose proof (pl_next P y k ltac:(left)). lia.
    + intros x. by rewrite in_free_cons.
    + intros x Hx. by rewrite set_hptr_out.
Qed.

(** [join_prev] completes the ring. *)
Lemma join_prev_spec h m0 L hi C1 p s C2 bp n n1 C2' :
  place m0 L hi C1 p s C2 bp n ->
  hsize (um h) bp = n1 -> hptr (um h) bp = first C2' base -> 0 < n1 ->
  chain (um h) C1 p -> hsize (um h) p = s -> chain (um h) C2' base -> ordered (bp + HDR * n1) C2' hi ->
  (forall x, in_free ((bp, n1) :: C2') x <-> covers (bp, n) x \/ in_free C2 x) ->
  (length C2' <= length C2)%nat ->
  exists m2 L', join_prev bp p h = Done tt (set_um m2 h) /\
    chain m2 (ring L') base /\ ordered (start - 1) L' hi /\ (exists s', (p, s') ∈ ring L') /\
    (forall x, in_free L' x <-> in_free L x \/ covers (bp, n) x) /\
    (forall x, x < p \/ p + HDR <= x -> m2 x = um h x) /\ (length L' <= S (length L))%nat.
Proof.
  intros P Hs Hp Hn1 K1 Ks K2 Ho Hin Hlen. pose proof (place_bounds P) as (B1 & B2 & _).
  pose proof (pl_prev P) as [V1 V2]. pose proof (pl_hi P). pose proof (pl_start P).
  pose proof (ordered_lt _ _ _ Ho).
  assert (0 <= first C2' base < 2 ^ 64) as B3.
  { destruct C2' as [|[z w] C2']; simpl; [unfold HDR in *; lia|].
    destruct (ordered_in _ _ _ _ _ Ho ltac:(left)) as (? & ? & ?). unfold HDR in *. lia. }
  assert (forall m', (forall x, x < p \/ p + HDR <= x -> m' x = um h x) ->
            chain m' C1 p /\ chain m' C2' base /\ same_hdr (um h) m' bp) as Hf.
  { intros m' Hm. split_and!.
    - eapply chain_frame; [|exact K1]. intros [x t] Hx. apply same_hdr_bytes. intros z Hz. apply Hm.
      destruct (place_apart x t P Hx) as [? _]. unfold apart in *. simpl in *. lia.
    - eapply chain_frame; [|exact K2]. intros [y t] Hy. apply same_hdr_bytes. intros z Hz. apply Hm.
      destruct (ordered_in _ _ _ _ _ Ho Hy) as (? & ? & ?). unfold HDR in *. simpl in *. lia.
    - apply same_hdr_bytes. intros z Hz. apply Hm. lia. }
  unfold join_prev, get_size, get_ptr. rewrite bind_gets, Ks.
  pose proof (pl_split P) as E. pose proof (pl_ord P) as Hord.
  destruct (Z.eqb_spec (p + HDR * s) bp) as [Eb|Eb].
  - destruct C1 as [|b C1]; simpl in E; [injection E as <- <- E; unfold HDR in *; lia|].
    injection E as <- ->.
    rewrite bind_gets, Hs, u32_small by (unfold HDR in *; lia).
    unfold put_size. rewrite bind_modify, bind_gets. simpl um.
    rewrite (hptr_set_size _ p) by (unfold apart; lia). rewrite Hp.
    set (m2 := set_hptr (set_hsize (um h) p (s + n1)) p (first C2' base)).
    assert (forall x, x < p \/ p + HDR <= x -> m2 x = um h x) as Hm2.
    { intros x Hx. unfold m2. by rewrite set_hptr_out, set_hsize_out. }
    destruct (Hf m2 Hm2) as (F1 & F2 & _). apply ordered_app in Hord as (O1 & O2 & O3).
    eexists m2, (C1 ++ (p, s + n1) :: C2'). split; [reflexivity|].
    split_and!; try done.
    + change (chain m2 ((base, 0) :: C1 ++ (p, s + n1) :: C2') base)
        with (chain m2 (((base, 0) :: C1) ++ (p, s + n1) :: C2') base).
      apply chain_app. split; [exact F1|]. split_and!; [..|done]; unfold m2; simpl.
      * by rewrite hsize_set_ptr, hsize_set_eq by (unfold HDR in *; lia).
      * by rewrite hptr_set_eq.
    + apply ordered_app. split_and!; [done|lia|].
      by replace (p + HDR * (s + n1)) with (bp + HDR * n1) by lia.
    + eexists. right. apply elem_of_app. right. left.
    + intros x. specialize (Hin x). rewrite !in_free_app, !in_free_cons in *.
      assert (covers (p, s + n1) x <-> covers (p, s) x \/ covers (bp, n1) x) as Hc.
      { unfold covers, HDR in *. simpl. lia. }
      naive_solver.
    + rewrite !length_app. simpl. lia.
  - assert (p + HDR * s < bp) as Hlt by lia.
    set (m2 := set_hptr (um h) p bp).
    assert (forall x, x < p \/ p + HDR <= x -> m2 x = um h x) as Hm2.
    { intros x Hx. unfold m2. by rewrite set_hptr_out. }
    destruct (Hf m2 Hm2) as (F1 & F2 & F3 & F4).
    assert (chain m2 (C1 ++ (p, s) :: (bp, n1) :: C2') base) as Hc.
    { apply chain_app. split; [exact F1|].
      split; [|split; [|split; [|split]]]; simpl.
      - unfold m2. by rewrite hsize_set_ptr by lia.
      - unfold m2. rewrite hptr_set_eq; [done|unfold HDR in *; lia].
      - by rewrite <- Hs.
      - by rewrite <- Hp.
      - done. }
    destruct C1 as [|b C1]; simpl in E; [injection E as <- <- ->|injection E as <- ->].
    + eexists m2, ((bp, n1) :: C2'). split; [reflexivity|]. split_and!; try done.
      * simpl. split_and!; [unfold HDR in *; lia|done..].
      * eexists. left.
      * intros x. rewrite Hin. tauto.
      * simpl. lia.
    + eexists m2, (C1 ++ (p, s) :: (bp, n1) :: C2'). split; [reflexivity|].
      apply ordered_app in Hord as (O1 & O2 & O3). split_and!; try done.
      * apply ordered_app. by split_and!.
      * eexists. right. apply elem_of_app. right. left.
      * intros x. specialize (Hin x). rewrite !in_free_app, !in_free_cons in *. naive_solver.
      * rewrite !length_app. simpl. lia.
Qed.

(** ** The search of [free] *)

Definition stop (bp x y : Z) : bool := (bp >? x) && (bp <? y) || (x >=? y) && ((bp >? x) || (bp <? y)).

Lemma free_search_walk h bp D nx f :
  chain (um h) D nx ->
  (forall D1 x t D2, D = D1 ++ (x, t) :: D2 -> stop bp x (first D2 nx) = false) ->
  free_search bp (first D nx) (length D + f) h = free_search bp nx f h.
Proof.
  induction D as [|[x t] D IH]; [done|]. intros (_ & Hp & Hc) Hs. simpl in Hp.
  cbn [first fst length plus free_search]. unfold get_ptr. rewrite bind_gets, Hp.
  specialize (Hs [] x t D eq_refl) as Hx. unfold stop in Hx. apply orb_false_iff in Hx as [-> ->].
  apply IH; [done|]. intros D1 y u D2 ->. exact (Hs ((x, t) :: D1) y u D2 eq_refl).
Qed.

Lemma free_search_stop h bp p f : stop bp p (hptr (um h) p) = true -> free_search bp p (S f) h = Done p h.
Proof.
  intros Hs. cbn [free_search]. unfold get_ptr. rewrite bind_gets. unfold stop in Hs.
  destruct (_ && (bp <? _)); [done|]. simpl in Hs. by rewrite Hs.
Qed.

Lemma stop_below bp x y : x < y -> y <= bp -> stop bp x y = false.
Proof. unfold stop. intros. destruct (Z.ltb_spec bp y), (Z.geb_spec x y), (Z.gtb_spec bp x); simpl; done || lia. Qed.
Lemma stop_above bp x y : bp < x -> x < y \/ y < bp -> stop bp x y = false.
Proof. unfold stop. intros. destruct (Z.ltb_spec bp y), (Z.geb_spec x y), (Z.gtb_spec bp x); simpl; done || lia. Qed.
Lemma stop_between bp x y : x < bp -> bp < y \/ y <= x -> stop bp x y = true.
Proof. unfold stop. intros. destruct (Z.ltb_spec bp y), (Z.geb_spec x y), (Z.gtb_spec bp x); simpl; done || lia. Qed.

Lemma free_search_spec h L hi C1 p s C2 bp fp t fuel :
  chain (um h) (ring L) base -> ordered (start - 1) L hi -> ring L = C1 ++ (p, s) :: C2 ->
  p < bp -> (forall y u, (y, u) ∈ C2 -> bp < y) -> start <= bp ->
  (fp, t) ∈ ring L -> (length L + 2 <= fuel)%nat ->
  free_search bp fp fuel h = Done p h.
Proof.
  intros Hc Ho E Hp H2 Hb Hf Hfuel. rewrite E in Hc. apply chain_app in Hc as [K1 K2]. simpl in K1.
  assert (length L + 1 = length C1 + 1 + length C2)%nat as Hlen.
  { apply (f_equal length) in E. rewrite length_app in E. simpl in E. lia. }
  assert (forall f, (0 < f)%nat -> free_search bp p f h = Done p h) as Hstop.
  { intros [|f] Hlt; [lia|]. apply free_search_stop. destruct K2 as (_ & K2 & _). simpl in K2. rewrite K2.
    destruct C2 as [|[y u] C2]; simpl.
    - apply stop_between; [done|right]. destruct (ring_bounds L hi p s Ho) as (? & _); [|done]. rewrite E. apply elem_of_app. right; left.
    - apply stop_between; [done|left]. apply (H2 y u). left. }
  assert (forall A B f, C1 = A ++ B -> (length B < f)%nat -> free_search bp (first B p) f h = Done p h) as Hfwd.
  { intros A B f EB Hlt. replace f with (length B + (f - length B))%nat by lia.
    rewrite free_search_walk; [apply Hstop; lia| |].
    - rewrite EB in K1. by apply chain_app in K1 as [_ K1].
    - intros D1 x u D2 ED.
      assert (forall y w, (y, w) ∈ D2 ++ (p, s) :: C2 -> x + HDR <= y) as Hx.
      { intros y w Hy. apply (ring_lt L hi (A ++ D1) x u (D2 ++ (p, s) :: C2) y w Ho); [|done].
        rewrite E, EB, ED. by rewrite <- !app_assoc. }
      assert (x + HDR <= p) by (apply (Hx p s); apply elem_of_app; right; left).
      destruct D2 as [|[y w] D2]; simpl; apply stop_below; unfold HDR in *; try lia.
      + specialize (Hx y w ltac:(left)). lia.
      + destruct (ring_lt L hi (A ++ D1 ++ (x, u) :: []) y w (D2 ++ (p, s) :: C2) p s Ho) as (? & _); [| |unfold HDR in *; lia].
        * rewrite E, EB, ED. by rewrite <- !app_assoc.
        * apply elem_of_app. right; left. }
  assert (first C1 p = base) as Ebase.
  { clear -E. by destruct C1 as [|b C1]; injection E as <- _. }
  rewrite E in Hf. apply elem_of_app in Hf as [(A & B & EA)%list_elem_of_split|[[= -> ->]|(A & B & EA)%list_elem_of_split]%elem_of_cons].
  - apply (Hfwd A ((fp, t) :: B)); [done|]. rewrite EA, length_app in Hlen. simpl in *. lia.
  - apply Hstop. lia.
  - assert (length A + S (length B) = length C2)%nat as HlB by (rewrite EA, length_app; simpl; lia).
    change fp with (first ((fp, t) :: B) base).
    replace fuel with (length ((fp, t) :: B) + (fuel - length ((fp, t) :: B)))%nat by (simpl; lia).
    rewrite free_search_walk; [rewrite <- Ebase; apply (Hfwd [] C1); [done|simpl; lia]| |].
    + destruct K2 as (_ & _ & K2). rewrite EA in K2. by apply chain_app in K2 as [_ K2].
    + intros D1 x u D2 ED.
      assert (bp < x) by (apply (H2 x u); rewrite EA, ED, !elem_of_app; right; right; left).
      apply stop_above; [done|]. destruct D2 as [|[y w] D2]; simpl; [right; unfold HDR in *; lia|left].
      destruct (ring_lt L hi (C1 ++ (p, s) :: A ++ D1) x u ((y, w) :: D2) y w Ho) as (? & _); [|left|unfold HDR in *; lia].
      rewrite E, EA, ED. by rewrite <- app_assoc, <- app_comm_cons, <- app_assoc.
Qed.

(** The place of an address among the elements of a ring. *)
Lemma find_place bp x s (L : list block) :
  x < bp -> exists C1 p s' C2, (x, s) :: L = C1 ++ (p, s') :: C2 /\ p < bp /\
    match C2 with [] => True | b :: _ => bp <= fst b end.
Proof.
  revert x s. induction L as [|[y t] L IH]; intros x s Hx.
  - by exists [], x, s, [].
  - destruct (decide (bp <= y)).
    + by exists [], x, s, ((y, t) :: L).
    + destruct (IH y t ltac:(lia)) as (C1 & p & s' & C2 & E & Hp & H2).
      exists ((x, s) :: C1), p, s', C2. by rewrite E.
Qed.

(** ** The invariant *)

(** [L] are the free blocks, [live] the blocks handed out (units by address
    of their header). *)
Record heap_inv (h : heap) (L : list block) (live : gmap Z Z) : Prop := {
  hi_ring : chain (um h) (ring L) base;
  hi_freep : exists t, (freep h, t) ∈ ring L;
  hi_ord : ordered (start - 1) L (brk h + 1);
  hi_brk : brk h + 1 <= 2 ^ 31;
  hi_start : start <= brk h;
  hi_live a n : live !! a = Some n -> 0 < n /\ start <= a /\ a + HDR * n <= brk h /\ hsize (um h) a = n;
  hi_live_live a n a' n' x : live !! a = Some n -> live !! a' = Some n' -> covers (a, n) x -> covers (a', n') x -> a' = a;
  hi_free_live x : in_free L x -> in_live live x -> False;
  hi_cover x : start <= x < brk h -> in_free L x \/ in_live live x;
}.
Arguments hi_ring {h L live} _. Arguments hi_freep {h L live} _. Arguments hi_ord {h L live} _. Arguments hi_brk {h L live} _. Arguments hi_start {h L live} _.
Arguments hi_live {h L live} _. Arguments hi_live_live {h L live} _. Arguments hi_free_live {h L live} _. Arguments hi_cover {h L live} _.

Lemma hi_length {h L live} : heap_inv h L live -> HDR * Z.of_nat (length L) <= brk h - start + 2.
Proof. intros Hi. pose proof (ordered_length _ _ _ (hi_ord Hi)). lia. Qed.

Lemma live_size_frame (m m' : mem) (live : gmap Z Z) a n :
  live !! a = Some n -> 0 < n -> (forall x, in_live live x -> m' x = m x) -> hsize m' a = hsize m a.
Proof.
  intros Ha Hn Hf. apply load32_ext. intros x Hx. apply Hf. exists a, n. split; [done|].
  unfold covers, HDR. simpl. lia.
Qed.

Lemma heap_place h L live bp n :
  heap_inv h L live -> live !! bp = Some n ->
  exists C1 p s C2, place (um h) L (brk h + 1) C1 p s C2 bp n /\ hptr (um h) p = first C2 base /\
    (forall y u, (y, u) ∈ C2 -> bp < y).
Proof.
  intros Hi Hb. destruct (hi_live Hi _ _ Hb) as (Hn & Hs & He & Hz). pose proof (hi_ord Hi) as Ho.
  destruct (find_place bp base 0 L) as (C1 & p & s & C2 & E & Hp & H2); [unfold HDR in *; lia|].
  pose proof (hi_ring Hi) as Hc. rewrite E in Hc. apply chain_app in Hc as [K1 (K2 & K3 & K4)].
  assert (forall y u, (y, u) ∈ L -> y + HDR * u <= bp \/ bp + HDR * n <= y) as Hd.
  { intros y u Hy. destruct (ordered_in _ _ _ _ _ Ho Hy) as (? & ? & ?).
    destruct (decide (y + HDR * u <= bp)); [by left|]. destruct (decide (bp + HDR * n <= y)); [by right|].
    destruct (hi_free_live Hi (Z.max y bp)).
    - exists (y, u). split; [done|]. unfold covers, HDR in *. simpl. lia.
    - exists bp, n. split; [done|]. unfold covers, HDR in *. simpl. lia. }
  assert (forall y u, (y, u) ∈ C2 -> (y, u) ∈ L) as H2L.
  { intros y u Hy. destruct C1 as [|b C1]; [injection E as _ _ ->; done|injection E as _ ->]. apply elem_of_app. right. by right. }
  assert (forall y u, (y, u) ∈ C2 -> bp <= y) as Hle.
  { intros y u Hy. destruct C2 as [|[z w] C2]; [by apply elem_of_nil in Hy|]. simpl in H2.
    apply elem_of_cons in Hy as [[= -> ->]|Hy]; [done|].
    destruct (ring_lt L (brk h + 1) (C1 ++ [(p, s)]) z w C2 y u Ho) as (? & _); [|done|unfold HDR in *; lia].
    rewrite E. by rewrite <- app_assoc. }
  exists C1, p, s, C2. split; [|split; [done|]].
  - split; try done; [apply Hi|lia| |].
    + destruct (ring_bounds L (brk h + 1) p s Ho) as (? & ? & Hr); [rewrite E; apply elem_of_app; right; left|].
      destruct C1 as [|b C1]; [injection E as ? ? E|injection E as ? E].
      * unfold HDR in *. lia.
      * destruct (Hd p s); [rewrite E; apply elem_of_app; right; left| |];
          destruct (ordered_in _ _ _ p s Ho) as (? & ? & ?); try (rewrite E; apply elem_of_app; right; left); unfold HDR in *; lia.
    + intros y u Hy. pose proof (Hle y u Hy).
      destruct (ordered_in _ _ _ _ _ Ho (H2L y u Hy)) as (? & ? & ?).
      destruct (Hd y u (H2L y u Hy)); unfold HDR in *; lia.
  - intros y u Hy. pose proof (Hle y u Hy). destruct (ordered_in _ _ _ _ _ Ho (H2L y u Hy)) as (? & ? & ?).
    destruct (Hd y u (H2L y u Hy)); unfold HDR in *; lia.
Qed.

(** What the allocator must leave alone: the blocks in use, and everything of
    the program below the heap but [base]. *)
Definition untouched (live : gmap Z Z) (x : Z) : Prop :=
  in_live live x \/ x < start /\ (x < base \/ base + HDR <= x).

(** [free] of a block in use: it leaves [live], and every other block keeps
    its bytes. *)
Lemma free_block h L live bp n fuel :
  heap_inv h L live -> live !! bp = Some n -> (length L + 2 <= fuel)%nat ->
  exists h' L', free (bp + HDR) fuel h = Done tt h' /\ heap_inv h' L' (delete bp live) /\ brk h' = brk h /\
    freep h' <> 0 /\
    (forall x, untouched (delete bp live) x -> um h' x = um h x) /\
    (forall x, in_free L' x <-> in_free L x \/ covers (bp, n) x) /\ (length L' <= S (length L))%nat.
Proof.
  intros Hi Hb Hfuel. destruct (heap_place h L live bp n Hi Hb) as (C1 & p & s & C2 & P & Hp & H2).
  destruct (hi_freep Hi) as [t Ht]. pose proof (pl_split P) as E.
  assert (free_search bp (freep h) fuel h = Done p h) as Hs.
  { pose proof (pl_prev P). eapply free_search_spec; [apply Hi|apply Hi|exact E| |exact H2|apply P|exact Ht|done]. unfold HDR in *. lia. }
  destruct (join_next_spec h L _ C1 p s C2 bp n P Hp) as (m1 & n1 & C2' & E1 & S1 & S2 & S3 & S4 & S5 & S6 & S7 & S8 & S9 & S10).
  destruct (join_prev_spec (set_um m1 h) _ L _ C1 p s C2 bp n n1 C2' P S1 S2 S3 S4 S5 S6 S7 S8 S10)
    as (m2 & L' & E2 & T1 & T2 & T3 & T4 & T5 & T6).
  pose proof (place_bounds P) as (Bp & _).
  assert (forall x, in_live (delete bp live) x <-> in_live live x /\ ~ covers (bp, n) x) as Hdel.
  { intros x. apply in_live_delete; [done|]. intros a' n' x' Ha' C C'. symmetry. by apply (hi_live_live Hi a' n' bp n x'). }
  destruct (ring_bounds L (brk h + 1) p s (pl_ord P)) as (? & ? & Hr); [rewrite E; apply elem_of_app; right; left|].
  assert (forall x, untouched (delete bp live) x -> m2 x = um h x) as Hfr.
  { intros x Hx. assert (~ covers (bp, n) x /\ (x < p \/ p + HDR <= x)) as [Hnb Hnp].
    - pose proof (pl_start P). destruct Hx as [[Hl Hnb]%Hdel|Hx]; [split; [done|]|unfold covers, HDR in *; simpl; lia].
      destruct (decide (p <= x < p + HDR)) as [Hpx|]; [exfalso|unfold HDR in *; lia].
      destruct Hr as [->|(? & ? & ?)].
      + destruct Hl as (a & k & Ha & Hc). destruct (hi_live Hi _ _ Ha) as (? & ? & ? & _). unfold covers, HDR in *; simpl in *; lia.
      + apply (hi_free_live Hi x); [|done]. exists (p, s). split; [|unfold covers, HDR in *; simpl; lia].
        destruct C1 as [|b C1]; [injection E as ? ? _; unfold HDR in *; lia|injection E as _ ->]. apply elem_of_app. right; left.
    - rewrite T5 by done. simpl. apply S9. pose proof (pl_pos P). unfold covers, HDR in *. simpl in *. lia. }
  exists (mk_heap m2 p (brk h)), L'. split_and!; try done.
  - unfold free. replace (bp + HDR - HDR) with bp by lia.
    rewrite bind_gets. erewrite bind_Done by exact Hs. erewrite bind_Done by exact E1. erewrite bind_Done by exact E2. done.
  - split; simpl; try done; [apply Hi|apply Hi| | | |].
    + intros a k (Hne & Ha)%lookup_delete_Some. destruct (hi_live Hi _ _ Ha) as (? & ? & ? & <-). split_and!; try done.
      apply (live_size_frame (um h) m2 (delete bp live) a (hsize (um h) a)); [by apply lookup_delete_Some|done|].
      intros x Hx. apply Hfr. by left.
    + intros a k a' k' x (_ & Ha)%lookup_delete_Some (_ & Ha')%lookup_delete_Some. by apply (hi_live_live Hi).
    + intros x [Hx|Hx]%T4 [Hl Hnb]%Hdel; [by apply (hi_free_live Hi x)|done].
    + intros x Hx. rewrite T4, Hdel. destruct (hi_cover Hi x Hx) as [?|Hl]; [by left; left|].
      destruct (decide (bp <= x < bp + HDR * n)); [left; right; done|right; done].
  - simpl. lia.
Qed.

(** ** Taking a block *)

Lemma taken_exact_ring m A q s p sz B :
  chain m (A ++ (q, s) :: (p, sz) :: B) base -> 0 <= first B base < 2 ^ 64 ->
  (forall x t, (x, t) ∈ A ++ B -> apart q x) ->
  chain (set_hptr m q (hptr m p)) (A ++ (q, s) :: B) base.
Proof.
  intros [K1 (K2 & K3 & K4 & K5 & K6)]%chain_app Hb Hf. simpl in K2, K3, K4, K5.
  assert (forall C, (forall b, b ∈ C -> b ∈ A ++ B) -> forall nx, chain m C nx -> chain (set_hptr m q (hptr m p)) C nx) as Hfr.
  { intros C HC nx. apply chain_frame. intros [x t] Hx. specialize (Hf x t (HC _ Hx)). simpl.
    split; [by apply hptr_set_ne|apply hsize_set_ptr; by right]. }
  apply chain_app. split; [apply Hfr; [intros; apply elem_of_app; by left|exact K1]|].
  split_and!; simpl.
  - rewrite hsize_set_ptr by (by left). done.
  - rewrite K5, hptr_set_eq by lia. done.
  - apply Hfr; [intros; apply elem_of_app; by right|exact K6].
Qed.

Section Take.

Context (h : heap) (L : list block) (live : gmap Z Z) (A : list block) (q s p sz : Z) (B : list block) (nu : Z).
Hypothesis Hi : heap_inv h L live.
Hypothesis E : ring L = A ++ (q, s) :: (p, sz) :: B.
Hypothesis Hnu : 0 < nu <= sz.

Lemma take_list : exists A', L = A' ++ (p, sz) :: B /\ forall C, A ++ (q, s) :: C = ring (A' ++ C).
Proof.
  clear Hi. revert E. destruct A as [|b A0]; intros E; [injection E as <- <- ->; by exists []|injection E as <- ->].
  exists (A0 ++ [(q, s)]). split; [by rewrite <- app_assoc|]. intros C. by rewrite <- app_assoc.
Qed.

Lemma take_p_free : (p, sz) ∈ L.
Proof. destruct take_list as (A' & -> & _). apply elem_of_app. right; left. Qed.

Lemma take_q_ring : (q, s) ∈ ring L.
Proof. rewrite E. apply elem_of_app. right; left. Qed.

Lemma take_p_bounds : start <= p /\ p + HDR * sz <= brk h.
Proof. destruct (ordered_in _ _ _ _ _ (hi_ord Hi) take_p_free) as (? & ? & ?). lia. Qed.

Lemma take_q_bounds : q + HDR <= p /\ base <= q /\ (q = base \/ start <= q /\ 0 < s /\ (q, s) ∈ L).
Proof.
  destruct (ring_lt L _ A q s ((p, sz) :: B) p sz (hi_ord Hi) E ltac:(left)) as (? & _ & _ & _).
  destruct (ring_bounds L _ q s (hi_ord Hi) take_q_ring) as (? & _ & Hq). split_and!; [done..|].
  destruct Hq as [?|(? & ? & ?)]; [by left|]. right. split_and!; try done.
  pose proof take_q_ring as [[= -> ->]|?]%elem_of_cons; [lia|done].
Qed.

Lemma take_before x t : (x, t) ∈ A -> x + HDR <= q /\ x + HDR <= p.
Proof.
  intros (C & D & EC)%list_elem_of_split.
  assert (forall y u, (y, u) ∈ D ++ (q, s) :: (p, sz) :: B -> x + HDR <= y) as Hx.
  { intros y u Hy. apply (ring_lt L (brk h + 1) C x t (D ++ (q, s) :: (p, sz) :: B) y u (hi_ord Hi)); [|exact Hy].
    rewrite E, EC. by rewrite <- app_assoc. }
  split; [apply (Hx q s)|apply (Hx p sz)]; apply elem_of_app; right; [left|right; left].
Qed.

Lemma take_after x t : (x, t) ∈ B -> p + HDR * sz < x < 2 ^ 31.
Proof.
  intros Hx. destruct (ring_lt L (brk h + 1) (A ++ [(q, s)]) p sz B x t (hi_ord Hi)) as (? & ? & ? & ?); [|done|].
  - rewrite E. by rewrite <- app_assoc.
  - pose proof (hi_brk Hi). unfold HDR in *. lia.
Qed.

Lemma take_first : 0 <= first B base < 2 ^ 31.
Proof.
  pose proof take_p_bounds. pose proof (hi_brk Hi).
  assert (forall z w, (z, w) ∈ B -> 0 <= z < 2 ^ 31) as Hz by (intros z w Hz%take_after; unfold HDR in *; lia).
  clear E. destruct B as [|[z w] B0]; simpl; [unfold HDR in *; lia|]. apply (Hz z w). left.
Qed.

Lemma covers_p_free x : covers (p, sz) x -> in_free L x.
Proof. intros Hx. exists (p, sz). split; [apply take_p_free|done]. Qed.

(** Bytes that must not change are in no free block and not in [base]. *)
Lemma untouched_out x b : untouched live x -> b ∈ ring L -> x < fst b \/ fst b + HDR <= x.
Proof.
  intros Hx Hb. destruct b as [y u]. destruct (ring_bounds L _ y u (hi_ord Hi) Hb) as (? & ? & Hy). simpl.
  destruct (decide (y <= x < y + HDR)) as [Hr|]; [exfalso|lia]. destruct Hy as [->|(? & ? & ?)].
  - destruct Hx as [(a & k & Ha & Hc)|?]; [|lia]. destruct (hi_live Hi _ _ Ha) as (? & ? & _). unfold covers in *. simpl in *. lia.
  - destruct Hx as [Hx|?]; [|lia]. apply (hi_free_live Hi x); [|done]. exists (y, u).
    apply elem_of_cons in Hb as [[= -> ->]|Hb]; [lia|]. split; [done|]. unfold covers, HDR in *. simpl. lia.
Qed.

(** The invariant after [nu] units of block [p] have left the free list. *)
Lemma taken_inv m' L' r :
  chain m' (ring L') base -> (q, s) ∈ ring L' -> ordered (start - 1) L' (brk h + 1) ->
  p <= r -> r + HDR * nu <= p + HDR * sz -> hsize m' r = nu ->
  (forall x, in_free L x <-> in_free L' x \/ covers (r, nu) x) -> (forall x, in_free L' x -> covers (r, nu) x -> False) ->
  (forall x, untouched live x -> m' x = um h x) ->
  start <= r /\ live !! r = None /\ (forall x, covers (r, nu) x -> in_free L x) /\
  heap_inv (mk_heap m' q (brk h)) L' (<[r := nu]> live) /\ q <> 0.
Proof.
  intros R1 R2 R3 R4 R5 R6 R7 R8 R10. pose proof take_p_bounds. pose proof take_q_bounds as (_ & ? & _).
  assert (live !! r = None) as Hr.
  { destruct (live !! r) as [k|] eqn:Ek; [|done]. destruct (hi_live Hi _ _ Ek) as (? & _).
    destruct (hi_free_live Hi r); [apply covers_p_free; unfold covers, HDR in *; simpl; lia|].
    exists r, k. split; [done|]. unfold covers, HDR in *. simpl. lia. }
  split_and!; [lia|done|intros x Hx; apply R7; by right| |lia].
  split; simpl; try done; [by exists s|apply Hi|apply Hi| | | |].
  - intros a n [[<- <-]|[Hne Ha]]%lookup_insert_Some; [unfold HDR in *; split_and!; (done || lia)|].
    destruct (hi_live Hi _ _ Ha) as (? & ? & ? & <-). split_and!; try done.
    apply (live_size_frame (um h) m' live a (hsize (um h) a)); [done..|]. intros x Hx. apply R10. by left.
  - intros a n a' n' x [[<- <-]|[Hne Ha]]%lookup_insert_Some [[<- <-]|[Hne' Ha']]%lookup_insert_Some C C'; try done.
    + destruct (hi_free_live Hi x); [apply R7; by right|by exists a', n'].
    + destruct (hi_free_live Hi x); [apply R7; by right|by exists a, n].
    + by apply (hi_live_live Hi a n a' n' x).
  - intros x Hf [Hl|Hl]%in_live_insert; [|by apply (R8 x)|done]. apply (hi_free_live Hi x); [apply R7; by left|done].
  - intros x Hx. rewrite in_live_insert by done. destruct (hi_cover Hi x Hx) as [[?|?]%R7|?]; tauto.
Qed.

(** What [take_block] promises. *)
Definition took (o : outcome heap Z) : Prop :=
  exists r h' L', o = Done (r + HDR) h' /\ start <= r /\ live !! r = None /\
    (forall x, covers (r, nu) x -> in_free L x) /\
    heap_inv h' L' (<[r := nu]> live) /\ brk h' = brk h /\ freep h' <> 0 /\
    (length L' <= length L)%nat /\ (forall x, untouched live x -> um h' x = um h x).

Lemma take_exact : sz = nu -> took (take_block nu q p h).
Proof.
  intros Esz. destruct take_list as (A' & EL & ER). pose proof (hi_ord Hi) as Ho. rewrite EL in Ho.
  apply ordered_app in Ho as (O1 & O2 & O3). pose proof take_q_bounds as (? & ? & _). pose proof take_first.
  pose proof (hi_ring Hi) as Hc. rewrite E in Hc. pose proof Hc as [K1 (K2 & K3 & K4 & K5 & K6)]%chain_app. simpl in *.
  set (m' := set_hptr (um h) q (hptr (um h) p)).
  destruct (taken_inv m' (A' ++ B) p) as (D1 & D2 & D3 & D4 & D5).
  - rewrite <- ER. apply (taken_exact_ring _ A q s p sz B); [done|lia|].
    intros x t [Hx|Hx]%elem_of_app; unfold apart; [apply take_before in Hx|apply take_after in Hx]; unfold HDR in *; lia.
  - rewrite <- ER. apply elem_of_app. right; left.
  - eapply ordered_join; [|exact O1|exact O3]. unfold HDR in *. lia.
  - lia.
  - lia.
  - unfold m'. rewrite hsize_set_ptr by (unfold apart; lia). lia.
  - intros x. rewrite EL, !in_free_app, in_free_cons, <- Esz. tauto.
  - intros x [([y u] & Hb & Hcb)|([y u] & Hb & Hcb)]%in_free_app Hcp.
    + destruct (ordered_in _ _ _ _ _ O1 Hb) as (? & ? & ?). unfold covers, HDR in *. simpl in *. lia.
    + destruct (ordered_in _ _ _ _ _ O3 Hb) as (? & ? & ?). unfold covers, HDR in *. simpl in *. lia.
  - intros x Hx. apply set_hptr_out. apply (untouched_out x (q, s) Hx take_q_ring).
  - exists p, (mk_heap m' q (brk h)), (A' ++ B). split.
    + unfold take_block, get_size, get_ptr. rewrite bind_gets, K4, (proj2 (Z.eqb_eq sz nu) Esz). done.
    + split_and!; try done; [rewrite EL, !length_app; simpl; lia|].
      intros x Hx. apply set_hptr_out. apply (untouched_out x (q, s) Hx take_q_ring).
Qed.

Lemma take_part : nu < sz -> took (take_block nu q p h).
Proof.
  intros Hlt. destruct take_list as (A' & EL & ER). pose proof (hi_ord Hi) as Ho. rewrite EL in Ho.
  apply ordered_app in Ho as (O1 & O2 & O3). pose proof take_q_bounds as (? & ? & _). pose proof take_p_bounds. pose proof (hi_brk Hi).
  pose proof (hi_ring Hi) as Hc. rewrite E in Hc. pose proof Hc as [K1 (K2 & K3 & K4 & K5 & K6)]%chain_app. simpl in *.
  set (r := p + HDR * (sz - nu)). set (m1 := set_hsize (um h) p (sz - nu)). set (m' := set_hsize m1 r nu).
  assert (forall x, untouched live x -> m' x = um h x) as Hun.
  { intros x Hx. unfold m', m1. rewrite set_hsize_out, set_hsize_out; [done| |].
    - apply (untouched_out x (p, sz) Hx). right. apply take_p_free.
    - destruct (decide (r <= x < r + HDR)) as [Hr|]; [exfalso|lia].
      destruct Hx as [Hx|?]; [|unfold r, HDR in *; lia].
      apply (hi_free_live Hi x); [|done]. apply covers_p_free. unfold covers, r, HDR in *. simpl. lia. }
  assert (forall C, (forall b, b ∈ C -> apart (fst b) p /\ apart (fst b) r) -> forall nx, chain (um h) C nx -> chain m' C nx) as Hfr.
  { intros C HC nx. apply chain_frame. intros b Hb. destruct (HC b Hb). unfold apart in *.
    split; unfold m', m1; [rewrite !hptr_set_size by (unfold apart; lia)|rewrite !hsize_set_ne by (unfold apart; lia)]; done. }
  destruct (taken_inv m' (A' ++ (p, sz - nu) :: B) r) as (D1 & D2 & D3 & D4 & D5); try done.
  - rewrite <- ER. apply chain_app. split; [|split; [|split]]; simpl.
    + apply Hfr; [|exact K1]. intros [x t] Hx%take_before. unfold apart, r, HDR in *. simpl. lia.
    + unfold m', m1. rewrite !hsize_set_ne by (unfold apart, r, HDR in *; lia). done.
    + unfold m', m1. rewrite !hptr_set_size by (unfold apart, r, HDR in *; lia). done.
    + split_and!.
      * unfold m', m1. rewrite hsize_set_ne, hsize_set_eq by (unfold apart, r, HDR in *; lia). done.
      * unfold m', m1. rewrite !hptr_set_size by (unfold apart, r, HDR in *; lia). done.
      * apply Hfr; [|exact K6]. intros [x t] Hx%take_after. unfold apart, r, HDR in *. simpl. lia.
  - rewrite <- ER. apply elem_of_app. right; left.
  - apply ordered_app. split_and!; [done|lia|]. eapply ordered_weaken; [| |exact O3]; unfold HDR; lia.
  - unfold r, HDR. lia.
  - unfold r, HDR. lia.
  - unfold m'. rewrite hsize_set_eq; unfold HDR in *; lia.
  - intros x. rewrite EL, !in_free_app, !in_free_cons. unfold covers, r, HDR. simpl.
    destruct (decide (x < p + 16 * (sz - nu))); intuition lia.
  - intros x [([y u] & Hb & Hcb)|[Hb|([y u] & Hb & Hcb)]%in_free_cons]%in_free_app Hcp; unfold covers, r, HDR in *; simpl in *.
    + destruct (ordered_in _ _ _ _ _ O1 Hb) as (? & ? & ?). unfold HDR in *. lia.
    + lia.
    + destruct (ordered_in _ _ _ _ _ O3 Hb) as (? & ? & ?). unfold HDR in *. lia.
  - exists r, (mk_heap m' q (brk h)), (A' ++ (p, sz - nu) :: B). split.
    + unfold take_block, get_size, get_ptr, put_size, put_ptr. rewrite bind_gets, K4, (proj2 (Z.eqb_neq sz nu)) by lia.
      rewrite u32_small by (unfold HDR in *; lia). unfold bind, modify, gets, ret. cbn [obind um set_um].
      rewrite hsize_set_eq by (unfold HDR in *; lia). done.
    + split_and!; try done. rewrite EL, !length_app. simpl. lia.
Qed.

Lemma take_block_spec : took (take_block nu q p h).
Proof. destruct (decide (sz = nu)); [by apply take_exact|apply take_part; lia]. Qed.
End Take.

(** ** The walk of [malloc] *)

Fixpoint lastaddr (prev : Z) (D : list block) : Z :=
  match D with [] => prev | b :: D' => lastaddr (fst b) D' end.

Lemma lastaddr_split x t D E : exists D' s, (x, t) :: D ++ E = D' ++ (lastaddr x D, s) :: E.
Proof.
  revert x t. induction D as [|[y u] D IH]; intros x t; [by exists [], t|].
  destruct (IH y u) as (D' & s & ED). exists ((x, t) :: D'), s. simpl in *. by rewrite ED.
Qed.

Lemma first_fit nu (D : list block) :
  Forall (fun b => snd b < nu) D \/
  exists D1 p sz D2, D = D1 ++ (p, sz) :: D2 /\ Forall (fun b => snd b < nu) D1 /\ nu <= sz.
Proof.
  induction D as [|[y u] D IH]; [by left|]. destruct (decide (nu <= u)).
  - right. by exists [], y, u, D.
  - destruct IH as [IH|(D1 & p & sz & D2 & -> & H1 & H2)].
    + left. constructor; [simpl; lia|done].
    + right. exists ((y, u) :: D1), p, sz, D2. split_and!; try done. constructor; [simpl; lia|done].
Qed.

Section Malloc.

Context (grow : Z -> Z -> bool).

Lemma malloc_walk h nu prev D nx f ff :
  chain (um h) D nx -> Forall (fun b => snd b < nu) D -> (forall b, b ∈ D -> fst b <> freep h) ->
  malloc_loop grow nu prev (first D nx) (length D + f) ff h = malloc_loop grow nu (lastaddr prev D) nx f ff h.
Proof.
  revert prev. induction D as [|[x t] D IH]; [done|]. intros prev (Hs & Hp & Hc) [Hx HD]%Forall_cons Hne.
  simpl in Hs, Hp, Hx. cbn [first fst length plus malloc_loop lastaddr]. unfold get_size, get_ptr.
  rewrite bind_gets, Hs. destruct (Z.geb_spec t nu); [lia|]. rewrite bind_gets.
  destruct (Z.eqb_spec x (freep h)) as [Ex|_]; [by destruct (Hne (x, t) ltac:(left))|].
  rewrite bind_gets, Hp. apply IH; [done..|]. intros b Hb. apply Hne. by right.
Qed.

Lemma malloc_fit h nu prev p sz f ff :
  hsize (um h) p = sz -> nu <= sz -> (0 < f)%nat ->
  malloc_loop grow nu prev p f ff h = take_block nu prev p h.
Proof.
  intros Hs Hle Hf. destruct f; [lia|]. cbn [malloc_loop]. unfold get_size. rewrite bind_gets, Hs.
  destruct (Z.geb_spec sz nu); [done|lia].
Qed.

(** The loop when nothing on the ring fits: [freep] is reached. *)
Definition refill (nu : Z) (f ff : nat) : MH Z :=
  p <- morecore grow nu ff ;;
  if p =? 0 then ret 0 else
  q <- get_ptr p ;;
  malloc_loop grow nu p q f ff.

Lemma malloc_miss h nu prev f ff :
  hsize (um h) (freep h) < nu -> malloc_loop grow nu prev (freep h) (S f) ff h = refill nu f ff h.
Proof.
  intros Hs. cbn [malloc_loop]. unfold get_size. rewrite bind_gets.
  destruct (Z.geb_spec (hsize (um h) (freep h)) nu); [lia|]. by rewrite bind_gets, Z.eqb_refl.
Qed.

(** Starting behind [freep], the loop takes the first block that fits, or
    goes round to [freep]. *)
Lemma malloc_scan h L live nu f ff :
  heap_inv h L live -> 0 < nu ->
  (exists A q s p sz B, ring L = A ++ (q, s) :: (p, sz) :: B /\ nu <= sz /\
     malloc_loop grow nu (freep h) (hptr (um h) (freep h)) (S (length L) + f) ff h = take_block nu q p h) \/
  (Forall (fun b => snd b < nu) L /\
     malloc_loop grow nu (freep h) (hptr (um h) (freep h)) (S (length L) + f) ff h = refill nu f ff h).
Proof.
  intros Hi Hnu. destruct (hi_freep Hi) as [t Ht]. pose proof (hi_ring Hi) as Hc.
  apply list_elem_of_split in Ht as (C1 & C2 & E). rewrite E in Hc.
  apply chain_app in Hc as [K1 (K2 & K3 & K4)]. simpl in K1, K2, K3. rewrite K3.
  assert (S (length L) = length C1 + S (length C2))%nat as ->.
  { apply (f_equal length) in E. rewrite length_app in E. done. }
  assert (forall b, b ∈ C2 -> fst b <> freep h) as N2.
  { intros [x u] Hx. destruct (ring_lt L _ C1 (freep h) t C2 x u (hi_ord Hi) E Hx) as (? & _). unfold HDR in *. simpl. lia. }
  assert (forall b, b ∈ C1 -> fst b <> freep h) as N1.
  { intros [x u] (A & B & EA)%list_elem_of_split.
    destruct (ring_lt L (brk h + 1) A x u (B ++ (freep h, t) :: C2) (freep h) t (hi_ord Hi)) as (? & _).
    - rewrite E, EA. by rewrite <- app_assoc.
    - apply elem_of_app. right; left.
    - unfold HDR in *. simpl. lia. }
  destruct (first_fit nu C2) as [F2|(D1 & p & sz & D2 & -> & F2 & Hle)].
  - replace (length C1 + S (length C2) + f)%nat with (length C2 + (length C1 + S f))%nat by lia.
    rewrite malloc_walk by done.
    assert (forall prev g, malloc_loop grow nu prev base g ff h = malloc_loop grow nu prev (first C1 (freep h)) g ff h) as ->.
    { intros prev g. f_equal. clear -E. by destruct C1; injection E as <- _. }
    destruct (first_fit nu C1) as [F1|(D1 & p & sz & D2 & -> & F1 & Hle)].
    + rewrite malloc_walk by done. destruct (decide (nu <= t)).
      * left. rewrite (malloc_fit _ _ _ _ t) by (done || lia).
        destruct C1 as [|b C1]; [injection E as ? ? ?; lia|injection E as <- ->].
        destruct (lastaddr_split base 0 C1 ((freep h, t) :: C2)) as (D' & s & ED).
        by exists D', (lastaddr base C1), s, (freep h), t, C2.
      * right. rewrite malloc_miss by lia. split; [|done].
        assert (Forall (fun b => snd b < nu) (ring L)) as HF; [|by apply Forall_cons in HF as [_ ?]].
        rewrite E. apply Forall_app. split; [done|]. constructor; [simpl; lia|done].
    + left. rewrite first_app, length_app. simpl first. simpl length.
      replace (length D1 + S (length D2) + S f)%nat with (length D1 + (S (length D2) + S f))%nat by lia.
      apply chain_app in K1 as [K11 (K12 & _)]. simpl in K11, K12.
      rewrite malloc_walk; [|done..|intros b Hb; apply N1; apply elem_of_app; by left].
      rewrite (malloc_fit _ _ _ _ sz) by (done || lia).
      destruct D1 as [|b D1]; [injection E as ? ? ?; lia|injection E as <- ->].
      destruct (lastaddr_split base 0 D1 ((p, sz) :: D2 ++ (freep h, t) :: C2)) as (D' & s & ED).
      exists D', (lastaddr base D1), s, p, sz, (D2 ++ (freep h, t) :: C2). split_and!; try done.
      rewrite <- ED. by rewrite <- app_assoc.
  - left. rewrite first_app. simpl first. rewrite length_app. simpl length.
    replace (length C1 + S (length D1 + S (length D2)) + f)%nat with (length D1 + (length C1 + S (S (length D2)) + f))%nat by lia.
    apply chain_app in K4 as [K41 (K42 & _)]. simpl in K41, K42.
    rewrite malloc_walk; [|done..|intros b Hb; apply N2; apply elem_of_app; by left].
    rewrite (malloc_fit _ _ _ _ sz) by (done || lia).
    destruct (lastaddr_split (freep h) t D1 ((p, sz) :: D2)) as (D' & s & ED).
    exists (C1 ++ D'), (lastaddr (freep h) D1), s, p, sz, D2. split_and!; try done.
    rewrite E, ED. by rewrite <- app_assoc.
Qed.

(** ** Memory from the kernel *)

Hypothesis grow_max : forall b b', grow b b' = true -> b' < 2 ^ 31.

Lemma sbrk_spec h n :
  0 <= brk h -> 0 < n -> n < 2 ^ 31 -> brk h < 2 ^ 31 ->
  if grow (brk h) (brk h + n) then
    exists m, sbrk grow n h = Done (brk h) (mk_heap m (freep h) (brk h + n)) /\ forall x, x < brk h -> m x = um h x
  else sbrk grow n h = Done (u64 (-1)) h.
Proof.
  intros Hb Hn Hn' Hb'. unfold sbrk. rewrite bind_gets, !s32_small, (u32_small (brk h)) by lia.
  destruct (Z.gtb_spec n 0); [|lia]. rewrite u32_small by lia.
  destruct (Z.ltb_spec (brk h + n) (brk h)); [lia|].
  destruct (grow (brk h) (brk h + n)) eqn:Eg; [|done].
  destruct (Z.eqb_spec (brk h + n) 0); [lia|]. rewrite !bind_modify, u64_small by lia. unfold ret.
  eexists. split; [reflexivity|]. intros x Hx. simpl.
  assert (brk h <= PGROUNDUP (brk h)).
  { rewrite PGROUNDUP_eq by (unfold PGSIZE; lia). unfold PGSIZE. divlia. }
  destruct (Z.leb_spec (PGROUNDUP (brk h)) x); [lia|done].
Qed.

Definition refill_units (nu : Z) : Z := if nu <? 4096 then 4096 else nu.

(** A new block at the break, before it is freed. *)
Lemma grown_inv h L live m n :
  heap_inv h L live -> 0 < n -> brk h + HDR * n < 2 ^ 31 -> (forall x, x < brk h -> m x = um h x) ->
  hsize m (brk h) = n ->
  heap_inv (mk_heap m (freep h) (brk h + HDR * n)) L (<[brk h := n]> live) /\ live !! brk h = None /\
  (forall x, untouched live x -> x < brk h).
Proof.
  intros Hi Hn Hmax Hm Hs. pose proof (hi_start Hi).
  assert (live !! brk h = None) as Hnone.
  { destruct (live !! brk h) as [k|] eqn:Ek; [|done]. destruct (hi_live Hi _ _ Ek) as (? & ? & ? & _). unfold HDR in *. lia. }
  assert (forall x, in_live live x -> x < brk h) as Hl.
  { intros x (a & k & Ha & Hc). destruct (hi_live Hi _ _ Ha) as (? & ? & ? & _). unfold covers in *. simpl in *. lia. }
  assert (forall x, in_free L x -> x < brk h) as Hf.
  { intros x ([a k] & Ha & Hc). destruct (ordered_in _ _ _ _ _ (hi_ord Hi) Ha) as (? & ? & ?). unfold covers in *. simpl in *. lia. }
  split_and!; [|done|intros x [?|?]; [by apply Hl|lia]].
  split; cbn [um freep brk]; try (done || lia).
  - apply (chain_frame (um h)); [|apply Hi]. intros [x t] Hx. apply same_hdr_bytes. intros z Hz. apply Hm.
    destruct (ring_bounds L _ x t (hi_ord Hi) Hx) as (? & ? & ?). unfold HDR in *. simpl in *. lia.
  - apply Hi.
  - eapply ordered_weaken; [| |apply Hi]; unfold HDR; lia.
  - unfold HDR in *. lia.
  - intros a k [[<- <-]|[Hne Ha]]%lookup_insert_Some; [split_and!; (done || lia)|].
    destruct (hi_live Hi _ _ Ha) as (? & ? & ? & <-). split_and!; try (done || (unfold HDR in *; lia)).
    apply (live_size_frame (um h) m live a (hsize (um h) a)); [done..|]. intros x Hx. by apply Hm, Hl.
  - intros a k a' k' x [[<- <-]|[Hne Ha]]%lookup_insert_Some [[<- <-]|[Hne' Ha']]%lookup_insert_Some C C'; try done.
    + assert (x < brk h) by (apply Hl; by exists a', k'). unfold covers in *. simpl in *. lia.
    + assert (x < brk h) by (apply Hl; by exists a, k). unfold covers in *. simpl in *. lia.
    + by apply (hi_live_live Hi a k a' k' x).
  - intros x Hx [Hlx|Hc]%in_live_insert; [by apply (hi_free_live Hi x)| |done].
    apply Hf in Hx. unfold covers in *. simpl in *. lia.
  - intros x Hx. rewrite in_live_insert by done. destruct (decide (x < brk h)).
    + destruct (hi_cover Hi x ltac:(lia)); tauto.
    + right. right. unfold covers. simpl. lia.
Qed.

(** Free blocks have gaps between them, so a stretch of free bytes is inside
    one block. *)
Lemma ordered_span lo L0 hi a e :
  ordered lo L0 hi -> a < e -> (forall x, a <= x < e -> in_free L0 x) ->
  exists b, b ∈ L0 /\ fst b <= a /\ e <= fst b + HDR * snd b.
Proof.
  clear. revert lo. induction L0 as [|[y u] L0 IH]; intros lo Ho Ha Hf.
  - destruct (Hf a ltac:(lia)) as (b & Hb%elem_of_nil & _). done.
  - destruct Ho as (H1 & H2 & H3). simpl in *.
    assert (forall x, in_free L0 x -> y + HDR * u < x) as Ht.
    { intros x ([z w] & Hz & Hc). destruct (ordered_in _ _ _ _ _ H3 Hz) as (? & ? & ?). unfold covers in *. simpl in *. lia. }
    destruct (proj1 (in_free_cons _ _ _) (Hf a ltac:(lia))) as [Hc|Hc].
    + exists (y, u). split; [left|]. unfold covers in Hc. simpl in *. split; [lia|].
      destruct (decide (e <= y + HDR * u)); [done|].
      destruct (proj1 (in_free_cons _ _ _) (Hf (y + HDR * u) ltac:(lia))) as [Hc'|Hc'%Ht]; unfold covers in *; simpl in *; lia.
    + destruct (IH _ H3 Ha) as (b & Hb & ?).
      * intros x Hx. destruct (proj1 (in_free_cons _ _ _) (Hf x Hx)) as [Hc'|Hc']; [|done]. apply Ht in Hc. unfold covers in Hc'. simpl in *. lia.
      * exists b. split; [by right|done].
Qed.

Lemma morecore_spec h L live nu ff :
  heap_inv h L live -> 0 < nu -> HDR * refill_units nu < 2 ^ 31 -> (length L + 2 <= ff)%nat ->
  if grow (brk h) (brk h + HDR * refill_units nu) then
    exists h' L', morecore grow nu ff h = Done (freep h') h' /\ heap_inv h' L' live /\ freep h' <> 0 /\
      brk h' = brk h + HDR * refill_units nu /\ Exists (fun b => nu <= snd b) L' /\
      (length L' <= S (length L))%nat /\ (forall x, untouched live x -> um h' x = um h x)
  else morecore grow nu ff h = Done 0 h.
Proof.
  intros Hi Hnu Hmax Hff. unfold morecore. fold (refill_units nu).
  assert (0 < refill_units nu /\ nu <= refill_units nu) as [Hr Hr'] by (unfold refill_units; zcmp).
  pose proof (hi_start Hi). pose proof (hi_brk Hi).
  pose proof (sbrk_spec h (refill_units nu * HDR)) as Hs. rewrite (Z.mul_comm (refill_units nu)) in *.
  unfold HDR in Hs at 1 2 3 4. specialize (Hs ltac:(unfold HDR in *; lia) ltac:(lia) ltac:(unfold HDR in *; lia) ltac:(lia)).
  change 16 with HDR in Hs.
  destruct (grow _ _) eqn:Eg.
  - destruct Hs as (m & Es & Hm). apply grow_max in Eg. erewrite bind_Done by exact Es.
    destruct (Z.eqb_spec (brk h) (u64 (-1))) as [Hbad|_]; [change (u64 (-1)) with (2 ^ 64 - 1) in Hbad; lia|].
    unfold put_size. rewrite bind_modify.
    set (m1 := set_hsize m (brk h) (refill_units nu)). cbn [set_um um freep brk].
    destruct (grown_inv h L live m1 (refill_units nu) Hi Hr Eg) as (Hi1 & Hnone & Hun).
    { intros x Hx. unfold m1. rewrite set_hsize_out by lia. by apply Hm. }
    { apply hsize_set_eq. unfold HDR in *. lia. }
    destruct (free_block _ _ _ (brk h) (refill_units nu) ff Hi1 (lookup_insert_eq _ _ _) Hff) as (h' & L' & E' & Hi' & Hb' & Hf' & Hk' & Hin & Hlen).
    rewrite delete_insert_id in Hi', Hk' by done.
    exists h', L'. erewrite bind_Done by exact E'. split_and!; try done.
    + destruct (ordered_span _ L' _ (brk h) (brk h + HDR * refill_units nu) (hi_ord Hi')) as ([y u] & Hb & ? & ?).
      * unfold HDR. lia.
      * intros x Hx. apply Hin. right. done.
      * apply Exists_exists. exists (y, u). split; [done|]. unfold HDR in *. simpl in *. lia.
    + intros x Hx. rewrite Hk' by done. simpl. unfold m1. pose proof (Hun x Hx). rewrite set_hsize_out by lia. by apply Hm.
  - erewrite bind_Done by exact Hs. done.
Qed.
End Malloc.
End Ring.
