(* ===== verification/UmallocSpec.v ===== *)
(** * What malloc and free promise

    The specifications of [malloc] and [free] of user/umalloc.c, over the
    invariant of UmallocInv.v, their use in any order, and the requests whose
    size does not fit the argument of [sbrk]. *)

From S2P Require Import Prelude CMem Riscv Umalloc UmallocInv.

Section Spec.

Context (base start : Z).
Hypothesis base_pos : 0 < base.
Hypothesis base_start : base + HDR <= start.

Local Notation heap_inv := (heap_inv base start).
Local Notation untouched := (untouched base start).

(** Before the first call of [malloc] there is no ring. *)
Definition heap_ok (h : heap) (L : list block) (live : gmap Z Z) : Prop :=
  heap_inv h L live /\ freep h <> 0 \/
  freep h = 0 /\ L = [] /\ live = ∅ /\ brk h = start /\ brk h + 1 <= 2 ^ 31.

Lemma heap_init h : brk h = start -> brk h + 1 <= 2 ^ 31 ->
  heap_inv (mk_heap (set_hsize (set_hptr (um h) base base) base 0) base (brk h)) [] ∅.
Proof.
  intros Hb Hmax. split; simpl.
  - rewrite hsize_set_eq, hptr_set_size, hptr_set_eq by (unfold HDR in *; lia || (by left)). done.
  - exists 0. left.
  - lia.
  - lia.
  - lia.
  - intros a n H. by rewrite lookup_empty in H.
  - intros a n a' n' x H. by rewrite lookup_empty in H.
  - by intros x ?%in_free_nil.
  - lia.
Qed.

(** Fuel for two rounds of the longest ring that fits the heap. *)
Definition enough_fuel (h : heap) (fuel : nat) : Prop := brk h - start + 26 <= 8 * Z.of_nat fuel.

Lemma fuel_ring h L live fuel : heap_ok h L live -> enough_fuel h fuel -> (2 * length L + 3 <= fuel)%nat.
Proof.
  unfold enough_fuel. intros [[Hi _]|(_ & -> & _ & Hb & _)] Hf; [|simpl; lia].
  pose proof (hi_length base start Hi). unfold HDR in *. lia.
Qed.

(** The requests whose byte count, rounded up to whole units and with a header,
    fits the [int] that [morecore] passes to [sbrk]. *)
Definition request_ok (nbytes : Z) : Prop := 0 <= nbytes <= 2 ^ 31 - 32.

Lemma nunits_bounds nbytes : request_ok nbytes ->
  0 < nunits_of nbytes /\ HDR * refill_units (nunits_of nbytes) < 2 ^ 31 /\ nbytes <= HDR * (nunits_of nbytes - 1).
Proof.
  intros [H1 H2]. unfold nunits_of, HDR in *.
  assert (0 <= (nbytes + 16 - 1) / 16 <= (2 ^ 31 - 17) / 16) by (split; [apply Z.div_pos; lia|apply Z.div_le_mono; lia]).
  assert ((2 ^ 31 - 17) / 16 = 134217726) as E by reflexivity. rewrite E in *.
  rewrite u32_small by lia. unfold refill_units. zcmp; split_and!; try lia; divlia.
Qed.

(** There are no others. *)
Lemma request_ok_exact nbytes : 0 <= nbytes < 2 ^ 32 -> request_ok nbytes <-> HDR * refill_units (nunits_of nbytes) < 2 ^ 31.
Proof.
  intros H. split; [apply nunits_bounds|]. intros Hn. split; [lia|]. destruct (Z.le_gt_cases nbytes (2 ^ 31 - 32)) as [|Hgt]; [done|].
  revert Hn. unfold nunits_of, refill_units, HDR.
  assert ((2 ^ 31 - 16) / 16 <= (nbytes + 16 - 1) / 16 <= (2 ^ 32 + 16) / 16) by (split; apply Z.div_le_mono; lia).
  assert ((2 ^ 31 - 16) / 16 = 134217727) as E1 by reflexivity. assert ((2 ^ 32 + 16) / 16 = 268435457) as E2 by reflexivity.
  rewrite E1, E2 in *. rewrite u32_small by lia. zcmp.
Qed.

Section Malloc.

Context (grow : Z -> Z -> bool).
Hypothesis grow_max : forall b b', grow b b' = true -> b' < 2 ^ 31.

(** What a call of [malloc] that found or obtained memory gives. *)
Definition gave (h : heap) (live : gmap Z Z) (nu : Z) (o : outcome heap Z) : Prop :=
  exists r h' L', o = Done (r + HDR) h' /\ start <= r /\ live !! r = None /\
    heap_inv h' L' (<[r := nu]> live) /\ brk h <= brk h' <= brk h + HDR * refill_units nu /\ freep h' <> 0 /\
    (forall x, untouched live x -> um h' x = um h x).

Lemma refill_spec h L live nu f ff :
  heap_inv h L live -> 0 < nu -> HDR * refill_units nu < 2 ^ 31 -> (length L + 2 <= f)%nat -> (length L + 2 <= ff)%nat ->
  if grow (brk h) (brk h + HDR * refill_units nu) then gave h live nu (refill grow nu f ff h)
  else refill grow nu f ff h = Done 0 h.
Proof.
  intros Hi Hnu Hmax Hf Hff. pose proof (morecore_spec base start base_pos base_start grow grow_max h L live nu ff Hi Hnu Hmax Hff) as Hm.
  destruct (grow _ _) eqn:Eg.
  - destruct Hm as (h1 & L1 & E1 & Hi1 & Hf1 & Hb1 & Hex & Hlen & Hk1). unfold refill. erewrite bind_Done by exact E1.
    destruct (Z.eqb_spec (freep h1) 0) as [|_]; [done|]. unfold get_ptr. rewrite bind_gets.
    replace f with (S (length L1) + (f - S (length L1)))%nat by lia.
    destruct (malloc_scan base start base_pos base_start grow h1 L1 live nu (f - S (length L1)) ff Hi1 Hnu)
      as [(A & q & s & p & sz & B & EL & Hle & ->)|[Hno _]].
    + destruct (take_block_spec base start base_pos base_start h1 L1 live A q s p sz B nu Hi1 EL (conj Hnu Hle))
        as (r & h2 & L2 & E2 & R1 & R2 & _ & R3 & R4 & R5 & _ & R6).
      exists r, h2, L2. split_and!; try done.
      * rewrite R4, Hb1. unfold HDR, refill_units. zcmp.
      * rewrite R4, Hb1. lia.
      * intros x Hx. rewrite R6 by done. by apply Hk1.
    + apply Exists_exists in Hex as (b & Hb & Hle). rewrite Forall_forall in Hno. specialize (Hno b Hb). lia.
  - unfold refill. erewrite bind_Done by exact Hm. done.
Qed.

Lemma malloc_ring h L live nu fuel :
  heap_inv h L live -> freep h <> 0 -> 0 < nu -> HDR * refill_units nu < 2 ^ 31 -> (2 * length L + 3 <= fuel)%nat ->
  let o := malloc_loop grow nu (freep h) (hptr (um h) (freep h)) fuel fuel h in
  gave h live nu o \/
  o = Done 0 h /\ Forall (fun b => snd b < nu) L /\ grow (brk h) (brk h + HDR * refill_units nu) = false.
Proof.
  intros Hi Hfp Hnu Hmax Hfuel o.
  assert (o = malloc_loop grow nu (freep h) (hptr (um h) (freep h)) (S (length L) + (fuel - S (length L))) fuel h) as ->
    by (unfold o; f_equal; lia).
  destruct (malloc_scan base start base_pos base_start grow h L live nu (fuel - S (length L)) fuel Hi Hnu)
    as [(A & q & s & p & sz & B & EL & Hle & ->)|[Hno ->]].
  - left. destruct (take_block_spec base start base_pos base_start h L live A q s p sz B nu Hi EL (conj Hnu Hle))
      as (r & h2 & L2 & E2 & R1 & R2 & _ & R3 & R4 & R5 & _ & R6).
    exists r, h2, L2. split_and!; try done; [lia|]. rewrite R4. unfold HDR, refill_units. zcmp.
  - pose proof (refill_spec h L live nu (fuel - S (length L)) fuel Hi Hnu Hmax ltac:(lia) ltac:(lia)) as Hr.
    destruct (grow _ _) eqn:Eg; [by left|by right].
Qed.

(** The two ends of a call of [malloc], after the ring has been set up. *)
Lemma malloc_outcome h L live nbytes fuel :
  heap_ok h L live -> request_ok nbytes -> enough_fuel h fuel ->
  exists h0, heap_inv h0 L live /\ freep h0 <> 0 /\ brk h0 = brk h /\ (forall x, untouched live x -> um h0 x = um h x) /\
    (gave h0 live (nunits_of nbytes) (malloc base grow nbytes fuel h) \/
     malloc base grow nbytes fuel h = Done 0 h0 /\ Forall (fun b => snd b < nunits_of nbytes) L /\
     grow (brk h) (brk h + HDR * refill_units (nunits_of nbytes)) = false).
Proof.
  intros Hok Hreq Hfuel%(fuel_ring h L live fuel Hok). pose proof (nunits_bounds nbytes Hreq) as (Hnu & Hmax & Hsz).
  assert (exists h0, heap_inv h0 L live /\ freep h0 <> 0 /\ brk h0 = brk h /\
    (forall x, untouched live x -> um h0 x = um h x) /\
    malloc base grow nbytes fuel h = malloc_loop grow (nunits_of nbytes) (freep h0) (hptr (um h0) (freep h0)) fuel fuel h0)
    as (h0 & Hi & Hfp & Hb & Hk & ->).
  { unfold malloc. rewrite bind_gets. destruct Hok as [[Hi Hne]|(Hz & -> & -> & Hb & Hmb)].
    - exists h. destruct (Z.eqb_spec (freep h) 0); [done|]. done.
    - rewrite Hz. exists (mk_heap (set_hsize (set_hptr (um h) base base) base 0) base (brk h)).
      split_and!; try done; [by apply heap_init|simpl; lia|].
      intros x [(a & n & Ha & _)|[_ Hx]]; [by rewrite lookup_empty in Ha|]. simpl. by rewrite set_hsize_out, set_hptr_out by lia. }
  exists h0. split_and!; try done. rewrite <- Hb.
  by destruct (malloc_ring h0 L live (nunits_of nbytes) fuel Hi Hfp Hnu Hmax Hfuel); [left|right].
Qed.

(** [C19] For a request of at most 2^31 - 32 bytes, the largest whose size fits
    the [int] argument of [sbrk] ([request_ok_exact]; of what happens above it
    [malloc_huge_succeeds] is an example), [malloc] always returns.  A null result means that no free block is large
    enough and the kernel refused more memory; nothing changed for the
    program.  Any other result is the payload of a new block: large enough,
    inside the heap, overlapping no block in use; no byte of a block in use,
    and no byte of the program below the heap, has changed. *)
Theorem malloc_correct h L live nbytes fuel :
  heap_ok h L live -> request_ok nbytes -> enough_fuel h fuel ->
  exists p h', malloc base grow nbytes fuel h = Done p h' /\
    (forall x, untouched live x -> um h' x = um h x) /\
    (p = 0 /\ heap_ok h' L live /\ brk h' = brk h /\
       Forall (fun b => snd b < nunits_of nbytes) L /\
       grow (brk h) (brk h + HDR * refill_units (nunits_of nbytes)) = false \/
     p <> 0 /\ live !! (p - HDR) = None /\
       (forall x, p <= x < p + nbytes -> start <= x < brk h' /\ ~ in_live live x) /\
       exists L', heap_ok h' L' (<[p - HDR := nunits_of nbytes]> live)).
Proof.
  intros Hok Hreq Hfuel. pose proof (nunits_bounds nbytes Hreq) as (Hnu & _ & Hsz).
  destruct (malloc_outcome h L live nbytes fuel Hok Hreq Hfuel)
    as (h0 & Hi & Hfp & Hb & Hk & [(r & h' & L' & -> & R1 & R2 & R3 & R4 & R5 & R6)|(-> & H1 & H2)]).
  - exists (r + HDR), h'. split; [done|]. split; [intros x Hx; rewrite R6 by done; by apply Hk|]. right.
    replace (r + HDR - HDR) with r by lia. split_and!; [unfold HDR in *; lia|done| |exists L'; by left].
    intros x Hx. destruct (hi_live _ _ _ _ _ R3 r (nunits_of nbytes) (lookup_insert_eq _ _ _)) as (_ & _ & Hend & _).
    split; [unfold HDR in *; lia|]. intros (a & n & Ha & Hc). assert (a <> r) as Hne by congruence. apply Hne.
    apply (hi_live_live _ _ _ _ _ R3 r (nunits_of nbytes) a n x); [apply lookup_insert_eq| |unfold covers, HDR in *; simpl; lia|done].
    rewrite lookup_insert_ne by congruence. done.
  - exists 0, h0. split; [done|]. split; [done|]. left. split_and!; try done. by left.
Qed.
End Malloc.

(** [free] of a pointer that [malloc] returned always returns; the block is
    no longer in use, its bytes are free again, and nothing else of the
    program has changed. *)
Lemma free_correct h L live p n fuel :
  heap_ok h L live -> live !! (p - HDR) = Some n -> enough_fuel h fuel ->
  exists h' L', free p fuel h = Done tt h' /\ heap_ok h' L' (delete (p - HDR) live) /\ brk h' = brk h /\
    (forall x, in_free L' x <-> in_free L x \/ covers (p - HDR, n) x) /\
    (forall x, untouched (delete (p - HDR) live) x -> um h' x = um h x).
Proof.
  intros Hok Hp Hfuel%(fuel_ring h L live fuel Hok). destruct Hok as [[Hi _]|(_ & _ & -> & _)]; [|by rewrite lookup_empty in Hp].
  destruct (free_block base start base_pos base_start h L live (p - HDR) n fuel Hi Hp ltac:(lia)) as (h' & L' & E & H1 & H2 & H3 & H4 & H5 & _).
  replace (p - HDR + HDR) with p in E by lia. exists h', L'. split_and!; try done. by left.
Qed.

(** ** Programs that use the allocator *)

(** A step of a program: a call of [malloc] or [free], or a store into the
    payload of a block in use. *)
Inductive heap_step : heap * gmap Z Z -> heap * gmap Z Z -> Prop :=
| step_malloc grow nbytes fuel h live p h' :
    (forall b b', grow b b' = true -> b' < 2 ^ 31) -> request_ok nbytes -> enough_fuel h fuel ->
    malloc base grow nbytes fuel h = Done p h' ->
    heap_step (h, live) (h', if p =? 0 then live else <[p - HDR := nunits_of nbytes]> live)
| step_free p n fuel h live h' :
    live !! (p - HDR) = Some n -> enough_fuel h fuel -> free p fuel h = Done tt h' ->
    heap_step (h, live) (h', delete (p - HDR) live)
| step_store a n x b h live :
    live !! a = Some n -> a + HDR <= x < a + HDR * n ->
    heap_step (h, live) (set_um (upd (um h) x b) h, live).

Lemma store_inv h L live a n x b :
  heap_inv h L live -> live !! a = Some n -> a + HDR <= x < a + HDR * n ->
  heap_inv (set_um (upd (um h) x b) h) L live.
Proof.
  intros Hi Ha Hx. assert (in_live live x) as Hl by (exists a, n; split; [done|unfold covers, HDR in *; simpl; lia]).
  split; cbn [um freep brk set_um]; try apply Hi.
  - apply (chain_frame (um h)); [|apply Hi]. intros c Hc. apply same_hdr_bytes. intros z Hz. apply upd_other. intros ->.
    assert (untouched live x) as Hu by (by left).
    destruct (untouched_out base start base_start h L live Hi x c Hu Hc); lia.
  - intros a' n' Ha'. destruct (hi_live _ _ _ _ _ Hi a' n' Ha') as (? & ? & ? & <-). split_and!; try done.
    apply load32_ext. intros z Hz. apply upd_other. intros ->.
    assert (a' = a) as ->.
    { apply (hi_live_live _ _ _ _ _ Hi a n a' (hsize (um h) a') x); [done|done| |]; unfold covers, HDR in *; simpl; lia. }
    unfold HDR in *. lia.
Qed.

Lemma step_ok h live h' live' L :
  heap_ok h L live -> heap_step (h, live) (h', live') -> exists L', heap_ok h' L' live'.
Proof.
  intros Hok Hs. inversion Hs as [grow nbytes fuel ? ? p ? Hmax Hreq Hf E|p n fuel ? ? ? Hp Hf E|a n x b ? ? Ha Hx]; subst.
  - destruct (malloc_outcome grow Hmax h L live nbytes fuel Hok Hreq Hf)
      as (h0 & Hi & Hfp & Hb & _ & [(r & h2 & L' & E' & R1 & _ & R3 & _ & R5 & _)|(E' & _ & _)]); rewrite E' in E; injection E as <- <-.
    + exists L'. destruct (Z.eqb_spec (r + HDR) 0); [unfold HDR in *; lia|]. replace (r + HDR - HDR) with r by lia. by left.
    + exists L. by left.
  - apply (fuel_ring h L live fuel Hok) in Hf. destruct Hok as [[Hi _]|(_ & _ & -> & _)]; [|by rewrite lookup_empty in Hp].
    destruct (free_block base start base_pos base_start h L live (p - HDR) n fuel Hi Hp ltac:(lia)) as (h2 & L' & E' & H1 & _ & H3 & _).
    replace (p - HDR + HDR) with p in E' by lia. rewrite E' in E. injection E as <-. exists L'. by left.
  - exists L. destruct Hok as [[Hi Hne]|(_ & _ & -> & _)]; [|by rewrite lookup_empty in Ha].
    left. split; [by eapply store_inv|done].
Qed.

(** [C18] Whatever a program does with [malloc] (of at most 2^31 - 32 bytes a
    call, [request_ok]), [free] of blocks in use and stores into them, in any
    order: the blocks in use lie inside the heap, no two
    of them overlap, their headers are intact, and together with the free
    blocks they make up all of the memory obtained from the kernel.  Freeing
    any of them then returns and changes nothing the program still uses. *)
Theorem heap_always_tiled h0 h live :
  freep h0 = 0 -> brk h0 = start -> start + 1 <= 2 ^ 31 ->
  rtc heap_step (h0, ∅) (h, live) ->
  (forall a n, live !! a = Some n -> start <= a /\ a + HDR * n <= brk h /\ hsize (um h) a = n) /\
  (forall a n a' n', live !! a = Some n -> live !! a' = Some n' -> a < a' -> a + HDR * n <= a') /\
  (exists L, heap_ok h L live /\
     forall x, start <= x < brk h -> in_free L x /\ ~ in_live live x \/ in_live live x /\ ~ in_free L x) /\
  (forall p n fuel, live !! (p - HDR) = Some n -> enough_fuel h fuel ->
     exists h', free p fuel h = Done tt h' /\ forall x, untouched (delete (p - HDR) live) x -> um h' x = um h x).
Proof.
  intros Hz Hb Hmax Hs.
  assert (exists L, heap_ok h L live) as [L Hok].
  { assert (exists L, heap_ok h0 L ∅) as H0 by (exists []; right; by rewrite Hb).
    remember (h0, ∅ : gmap Z Z) as x0 eqn:E0. remember (h, live) as x1 eqn:E1. clear Hz Hb Hmax.
    revert h0 live h E1 H0 E0. generalize (∅ : gmap Z Z). 
    induction Hs as [x|x [h1 live1] z Hstep _ IH]; intros lv h0 live h E1 [L0 H0] E0; simplify_eq; [by exists L0|].
    eapply (IH live1 h1); [done|by eapply step_ok|done]. }
  assert (forall p n fuel, live !! (p - HDR) = Some n -> enough_fuel h fuel ->
     exists h', free p fuel h = Done tt h' /\ forall x, untouched (delete (p - HDR) live) x -> um h' x = um h x) as Hfree.
  { intros p n fuel Hp Hf. destruct (free_correct h L live p n fuel Hok Hp Hf) as (h' & _ & ? & _ & _ & _ & ?). by exists h'. }
  destruct Hok as [[Hi Hne]|(H1 & -> & -> & H4 & H5)].
  - split_and!; [| | |exact Hfree].
    + intros a n Ha. by destruct (hi_live _ _ _ _ _ Hi a n Ha) as (? & ? & ? & ?).
    + intros a n a' n' Ha Ha' Hlt. destruct (decide (a + HDR * n <= a')); [done|].
      destruct (hi_live _ _ _ _ _ Hi a' n' Ha') as (? & _).
      assert (a' = a); [|lia]. apply (hi_live_live _ _ _ _ _ Hi a n a' n' a' Ha Ha'); unfold covers, HDR in *; simpl; lia.
    + exists L. split; [by left|]. intros x Hx. destruct (hi_cover _ _ _ _ _ Hi x Hx) as [H|H]; [left|right];
        (split; [done|]); intros H'; by apply (hi_free_live _ _ _ _ _ Hi x).
  - split_and!; [intros a n H; by rewrite lookup_empty in H|intros a n a' n' H; by rewrite lookup_empty in H| |exact Hfree].
    exists []. split; [by right|]. lia.
Qed.
End Spec.

(** ** Examples *)

Definition demo_heap : heap := mk_heap (fun _ => Byte.x00) 0 8192.
Definition demo_grow (b b' : Z) : bool := b' <? 2 ^ 27.

Lemma demo_grow_max b b' : demo_grow b b' = true -> b' < 2 ^ 31.
Proof. unfold demo_grow. intros H%Z.ltb_lt. lia. Qed.

Lemma demo_ok : heap_ok 4096 8192 demo_heap [] ∅.
Proof. right. unfold demo_heap. simpl. split_and!; (done || lia). Qed.

(** The first [malloc] of a program obtains memory. *)
Lemma demo_malloc :
  exists r h L, malloc 4096 demo_grow 100 20 demo_heap = Done (r + HDR) h /\
    heap_ok 4096 8192 h L (<[r := 8]> ∅) /\ brk h <= 8192 + 65536.
Proof.
  destruct (malloc_outcome 4096 8192 ltac:(lia) ltac:(unfold HDR; lia) demo_grow demo_grow_max demo_heap [] ∅ 100 20 demo_ok
    ltac:(split; lia) ltac:(unfold enough_fuel; simpl; lia))
    as (h0 & _ & _ & Hb & _ & [(r & h & L & E & _ & _ & Hi & [_ Hmax] & Hf & _)|(_ & _ & Hno)]); [|vm_compute in Hno; discriminate].
  change (nunits_of 100) with 8 in Hi. exists r, h, L. split; [exact E|]. split; [left; split; [exact Hi|exact Hf]|].
  rewrite Hb in Hmax. exact Hmax.
Qed.

Lemma malloc_correct_witness :
  exists p h', malloc 4096 demo_grow 100 20 demo_heap = Done p h' /\ p <> 0 /\ forall x, p <= x < p + 100 -> x < brk h'.
Proof.
  destruct (malloc_correct 4096 8192 ltac:(lia) ltac:(unfold HDR; lia) demo_grow demo_grow_max demo_heap [] ∅ 100 20 demo_ok
    ltac:(split; lia) ltac:(unfold enough_fuel; simpl; lia)) as (p & h' & E & _ & [(_ & _ & _ & _ & Hno)|(Hp & _ & Hx & _)]);
    [vm_compute in Hno; discriminate|].
  exists p, h'. split; [exact E|]. split; [exact Hp|]. intros x H. apply (Hx x H).
Defined.

Lemma heap_always_tiled_witness :
  exists h live, rtc (heap_step 4096 8192) (demo_heap, ∅) (h, live) /\ live <> ∅ /\
    forall a n, live !! a = Some n -> a + HDR * n <= brk h.
Proof.
  destruct demo_malloc as (r & h & L & E & Hok & Hb).
  assert (heap_step 4096 8192 (demo_heap, ∅) (h, <[r := 8]> ∅)) as Hs.
  { pose proof (step_malloc 4096 8192 demo_grow 100 20 demo_heap ∅ (r + HDR) h demo_grow_max
      ltac:(split; lia) ltac:(unfold enough_fuel; simpl; lia) E) as H.
    destruct Hok as [[Hi _]|(_ & _ & Hl & _)]; [|exfalso; exact (insert_non_empty _ _ _ Hl)].
    destruct (hi_live _ _ _ _ _ Hi r 8 (lookup_insert_eq _ _ _)) as (_ & Hr & _).
    destruct (Z.eqb_spec (r + HDR) 0); [unfold HDR in *; lia|]. replace (r + HDR - HDR) with r in H by lia. exact H. }
  exists h, (<[r := 8]> ∅). split; [exact (rtc_once _ _ Hs)|]. split; [apply insert_non_empty|].
  intros a n Ha.
  destruct (heap_always_tiled 4096 8192 ltac:(lia) ltac:(unfold HDR; lia) demo_heap h (<[r := 8]> ∅) eq_refl eq_refl ltac:(lia)
    (rtc_once _ _ Hs)) as (H1 & _). apply (H1 a n Ha).
Defined.

(** A request of nearly 4 GB: the byte count passed to [sbrk] does not fit its
    [int] argument, 16 bytes are obtained, and [malloc] returns a pointer to
    the end of the process with nothing behind it. *)
Lemma malloc_huge_succeeds :
  exists h', malloc 4096 demo_grow (2 ^ 32 - 1) 20 demo_heap = Done (brk h') h' /\ brk h' = brk demo_heap + 16.
Proof.
  assert (match malloc 4096 demo_grow (2 ^ 32 - 1) 20 demo_heap with Done p h' => (p, brk h') | _ => (0, 0) end = (8208, 8208)) as E
    by (vm_compute; reflexivity).
  destruct (malloc _ _ _ _ _) as [p h'| | |]; [|done..]. injection E as -> E. exists h'. by rewrite E.
Qed.
