(* ===== verification/Sh.v ===== *)
(** * The shell: user/sh.c

    The parser reads a NUL-terminated line; a pointer into it is the rest of
    the line it points to, so [s < es] is that something is left and [*s] at
    the end is NUL.  Parsed commands hold such pointers, as the C structures
    do; [nulterminate] then overwrites the ends of the words in the line.  The
    parsers end the program on a syntax error ([Failed]); nested parsers take
    fuel.  The second half is what a command does: [runcmd] as the sequence of
    system calls it makes. *)

From S2P Require Import Prelude CMem.

Notation ptr := (list byte).
Notation "a =c b" := (Byte.eqb a b) (at level 70).

(** [strchr(s, c) != 0] *)
Definition among (s : list byte) (c : byte) : bool := existsb (Byte.eqb c) s.

Definition c_pipe := Byte.x7c.
Definition c_lpar := Byte.x28.
Definition c_rpar := Byte.x29.
Definition c_semi := Byte.x3b.
Definition c_amp := Byte.x26.
Definition c_lt := Byte.x3c.
Definition c_gt := Byte.x3e.
Definition c_plus := Byte.x2b.
Definition c_word := Byte.x61.

Definition whitespace : list byte := [Byte.x20; Byte.x09; Byte.x0d; Byte.x0a; Byte.x0b].
Definition symbols : list byte := [c_lt; c_pipe; c_gt; c_amp; c_semi; c_lpar; c_rpar].

Definition MAXARGS : Z := 10.
Definition O_RDONLY : Z := 0.
Definition O_WRONLY : Z := 1.
Definition O_RDWR : Z := 2.
Definition O_CREATE : Z := 0x200.

(** ** Commands *)

(** A word: where it begins and where it ends ([argv[i]] and [eargv[i]]). *)
Notation word := (ptr * ptr)%type.

Inductive cmd (W : Type) : Type :=
| EXEC (argv : list W)
| REDIR (c : cmd W) (file : W) (mode fd : Z)
| PIPE (left right : cmd W)
| LIST (left right : cmd W)
| BACK (c : cmd W).
Arguments EXEC {W}. Arguments REDIR {W}. Arguments PIPE {W}. Arguments LIST {W}. Arguments BACK {W}.

(** ** Tokens *)

(** [while(s < es && strchr(whitespace, *s)) s++] *)
Fixpoint skip_space (s : ptr) : ptr :=
  match s with c :: s' => if among whitespace c then skip_space s' else s | [] => [] end.

Definition word_char (c : byte) : bool := negb (among whitespace c) && negb (among symbols c).

(** [while(s < es && !strchr(whitespace, *s) && !strchr(symbols, *s)) s++] *)
Fixpoint skip_word (s : ptr) : ptr :=
  match s with c :: s' => if word_char c then skip_word s' else s | [] => [] end.

(** The token's code, its first character, its end, and the rest. *)
Definition gettoken (s : ptr) : byte * ptr * ptr * ptr :=
  let s := skip_space s in
  let '(r, e) :=
    match s with
    | [] => (Byte.x00, [])
    | c :: s' =>
        if among [c_pipe; c_lpar; c_rpar; c_semi; c_amp; c_lt] c then (c, s')
        else if c =c c_gt then
          match s' with d :: s'' => if d =c c_gt then (c_plus, s'') else (c, s') | [] => (c, s') end
        else (c_word, skip_word s)
    end in
  (r, s, e, skip_space e).

Definition peek (s : ptr) (toks : list byte) : bool * ptr :=
  let s := skip_space s in
  (match s with c :: _ => among toks c | [] => false end, s).

(** ** Parsing *)

Inductive parsed (A : Type) : Type :=
| Parsed (a : A) (rest : ptr)
| Failed (msg : string)
| NoFuel.
Arguments Parsed {A}. Arguments Failed {A}. Arguments NoFuel {A}.

Definition pbind {A B} (r : parsed A) (f : A -> ptr -> parsed B) : parsed B :=
  match r with Parsed a s => f a s | Failed msg => Failed msg | NoFuel => NoFuel end.

Fixpoint parseredirs (c : cmd word) (s : ptr) (fuel : nat) : parsed (cmd word) :=
  match fuel with
  | O => NoFuel
  | S f =>
      let (b, s) := peek s [c_lt; c_gt] in
      if b then
        let '(tok, _, _, s) := gettoken s in
        let '(t, q, eq, s) := gettoken s in
        if negb (t =c c_word) then Failed "missing file for redirection" else
        let c := if tok =c c_lt then REDIR c (q, eq) O_RDONLY 0
                 else if tok =c c_gt then REDIR c (q, eq) (Z.lor O_WRONLY O_CREATE) 1
                 else if tok =c c_plus then REDIR c (q, eq) (Z.lor O_WRONLY O_CREATE) 1 else c in
        parseredirs c s f
      else Parsed c s
  end.

(** [cmd->argv[argc] = q; cmd->eargv[argc] = eq]: [cmd] is the node at the
    bottom of the redirections parsed so far. *)
Fixpoint add_arg {W} (w : W) (c : cmd W) : cmd W :=
  match c with
  | EXEC argv => EXEC (argv ++ [w])
  | REDIR c' file mode fd => REDIR (add_arg w c') file mode fd
  | _ => c
  end.

(** The loop of [parseexec]. *)
Fixpoint parseargs (ret : cmd word) (argc : Z) (s : ptr) (fuel : nat) : parsed (cmd word) :=
  match fuel with
  | O => NoFuel
  | S f =>
      let (b, s) := peek s [c_pipe; c_rpar; c_amp; c_semi] in
      if b then Parsed ret s else
      let '(tok, q, eq, s) := gettoken s in
      if tok =c Byte.x00 then Parsed ret s else
      if negb (tok =c c_word) then Failed "syntax" else
      let ret := add_arg (q, eq) ret in
      let argc := argc + 1 in
      if argc >=? MAXARGS then Failed "too many args" else
      pbind (parseredirs ret s f) (fun ret s => parseargs ret argc s f)
  end.

(** [while(peek(ps, es, "&"))] of [parseline] *)
Fixpoint parseback (c : cmd word) (s : ptr) (fuel : nat) : parsed (cmd word) :=
  match fuel with
  | O => NoFuel
  | S f =>
      let (b, s) := peek s [c_amp] in
      if b then let '(_, _, _, s) := gettoken s in parseback (BACK c) s f else Parsed c s
  end.

Fixpoint parseline (s : ptr) (fuel : nat) : parsed (cmd word) :=
  match fuel with
  | O => NoFuel
  | S f =>
      pbind (parsepipe s f) (fun c s =>
      pbind (parseback c s f) (fun c s =>
      let (b, s) := peek s [c_semi] in
      if b then
        let '(_, _, _, s) := gettoken s in
        pbind (parseline s f) (fun c2 s => Parsed (LIST c c2) s)
      else Parsed c s))
  end
with parsepipe (s : ptr) (fuel : nat) : parsed (cmd word) :=
  match fuel with
  | O => NoFuel
  | S f =>
      pbind (parseexec s f) (fun c s =>
      let (b, s) := peek s [c_pipe] in
      if b then
        let '(_, _, _, s) := gettoken s in
        pbind (parsepipe s f) (fun c2 s => Parsed (PIPE c c2) s)
      else Parsed c s)
  end
with parseexec (s : ptr) (fuel : nat) : parsed (cmd word) :=
  match fuel with
  | O => NoFuel
  | S f =>
      let (b, s) := peek s [c_lpar] in
      if b then parseblock s f else
      pbind (parseredirs (EXEC []) s f) (fun ret s => parseargs ret 0 s f)
  end
with parseblock (s : ptr) (fuel : nat) : parsed (cmd word) :=
  match fuel with
  | O => NoFuel
  | S f =>
      let (b, s) := peek s [c_lpar] in
      if negb b then Failed "parseblock" else
      let '(_, _, _, s) := gettoken s in
      pbind (parseline s f) (fun c s =>
      let (b, s) := peek s [c_rpar] in
      if negb b then Failed "syntax - missing )" else
      let '(_, _, _, s) := gettoken s in
      parseredirs c s f)
  end.

(** ** The line after parsing *)

(** The offset of a pointer in a line of length [es]. *)
Definition offset (es : nat) (p : ptr) : nat := (es - length p)%nat.

(** [*e = 0] *)
Definition put_nul (es : nat) (e : ptr) (buf : list byte) : list byte := <[offset es e := Byte.x00]> buf.

Fixpoint nulterminate (es : nat) (c : cmd word) (buf : list byte) : list byte :=
  match c with
  | EXEC argv => fold_left (fun buf w => put_nul es (snd w) buf) argv buf
  | REDIR c' file _ _ => put_nul es (snd file) (nulterminate es c' buf)
  | PIPE l r | LIST l r => nulterminate es r (nulterminate es l buf)
  | BACK c' => nulterminate es c' buf
  end.

(** [parsecmd]: the command and the line, with its final NUL.  What is left
    over is printed before the error. *)
Definition parsecmd (s : list byte) (fuel : nat) : parsed (cmd word * list byte) :=
  pbind (parseline s fuel) (fun c rest =>
  let (_, rest) := peek rest [] in
  match rest with
  | [] => Parsed (c, nulterminate (length s) c (s ++ [Byte.x00])) []
  | _ => Failed "syntax"
  end).

(** What the string at a pointer reads after parsing. *)
Fixpoint cstr (l : list byte) : list byte :=
  match l with [] => [] | c :: l' => if c =c Byte.x00 then [] else c :: cstr l' end.
Definition string_at (buf : list byte) (es : nat) (p : ptr) : list byte := cstr (drop (offset es p) buf).

Fixpoint cmd_map {A B} (f : A -> B) (c : cmd A) : cmd B :=
  match c with
  | EXEC argv => EXEC (map f argv)
  | REDIR c' file mode fd => REDIR (cmd_map f c') (f file) mode fd
  | PIPE l r => PIPE (cmd_map f l) (cmd_map f r)
  | LIST l r => LIST (cmd_map f l) (cmd_map f r)
  | BACK c' => BACK (cmd_map f c')
  end.

(** ** Running commands *)

(** What a process does: the system calls it makes, with what follows each
    result.  [Exec] continues only when it fails; [Fork] has the child, the
    parent and the failure. *)
Inductive prog : Type :=
| Exit (status : Z)
| Exec (argv : list (list byte)) (fail : prog)
| Close (fd : Z) (k : prog)
| Open (file : list byte) (mode : Z) (k : Z -> prog)
| Dup (fd : Z) (k : prog)
| Pipe (k : option (Z * Z) -> prog)
| Fork (child parent fail : prog)
| Wait (k : prog)
| Chdir (path : list byte) (k : Z -> prog)
| Print (fd : Z) (fmt : string) (arg : list byte) (k : prog).

Definition panic_sh (msg : string) : prog := Print 2 msg [] (Exit 1).
Definition fork1 (child parent : prog) : prog := Fork child parent (panic_sh "fork").

Fixpoint runcmd (c : cmd (list byte)) : prog :=
  match c with
  | EXEC [] => Exit 1
  | EXEC (a :: argv) => Exec (a :: argv) (Print 2 "exec %s failed" a (Exit 0))
  | REDIR c' file mode fd =>
      Close fd (Open file mode (fun r =>
        if r <? 0 then Print 2 "open %s failed" file (Exit 1) else runcmd c'))
  | LIST l r => fork1 (runcmd l) (Wait (runcmd r))
  | PIPE l r =>
      Pipe (fun p =>
        match p with
        | None => panic_sh "pipe"
        | Some (p0, p1) =>
            fork1 (Close 1 (Dup p1 (Close p0 (Close p1 (runcmd l)))))
           (fork1 (Close 0 (Dup p0 (Close p0 (Close p1 (runcmd r)))))
           (Close p0 (Close p1 (Wait (Wait (Exit 0))))))
        end)
  | BACK c' => fork1 (runcmd c') (Exit 0)
  end.

(** The main loop on one line [buf] that [getcmd] read; [k] is the rest. *)
Definition is_cd (buf : list byte) : bool :=
  match buf with a :: b :: c :: _ => (a =c Byte.x63) && (b =c Byte.x64) && (c =c Byte.x20) | _ => false end.

Definition shell_line (buf : list byte) (fuel : nat) (k : prog) : prog :=
  if is_cd buf then
    let path := removelast (drop 3 buf) in
    Chdir path (fun r => if r <? 0 then Print 2 "cannot cd %s" path k else k)
  else
    fork1 (match parsecmd buf fuel with
           | Parsed (c, line) _ => runcmd (cmd_map (fun w => string_at line (length buf) (fst w)) c)
           | Failed msg => panic_sh msg
           | NoFuel => Exit 1
           end)
          (Wait k).

(** The lines [getcmd] reads, up to the first empty one. *)
Fixpoint shell_lines (lines : list (list byte)) (fuel : nat) : prog :=
  Print 2 "$ " []
    match lines with
    | [] => Exit 0
    | buf :: lines' => match buf with [] => Exit 0 | _ => shell_line buf fuel (shell_lines lines' fuel) end
    end.

(** [while((fd = open("console", O_RDWR)) >= 0)] *)
Definition console_name : list byte := [Byte.x63; Byte.x6f; Byte.x6e; Byte.x73; Byte.x6f; Byte.x6c; Byte.x65].

Fixpoint open_console (k : prog) (fuel : nat) : prog :=
  match fuel with
  | O => k
  | S f => Open console_name O_RDWR (fun fd => if fd <? 0 then k else if fd >=? 3 then Close fd k else open_console k f)
  end.

Definition shell_main (lines : list (list byte)) (fuel : nat) : prog := open_console (shell_lines lines fuel) 4.
