(* ===== verification/ShParse.v ===== *)
(** * The shell's parser decides its grammar

    An independent lexer and grammar for command lines, and the proof that
    [parsecmd] accepts exactly the lines the grammar derives, with the command
    derived, and that the words of the command read back from the line after
    [nulterminate]. *)

From S2P Require Import Prelude CMem Sh.

(** ** Tokens and grammar *)

Notation text := (list byte).

Inductive token := TWord (w : text) | TSym (c : byte).

Definition flush (w : text) : list token := match w with [] => [] | _ => [TWord w] end.

(** One pass over the characters; [w] is the word being read. *)
Fixpoint lex (w : text) (l : list byte) : list token :=
  match l with
  | [] => flush w
  | c :: l' =>
      if among whitespace c then flush w ++ lex [] l'
      else if c =c c_gt then
        flush w ++ match l' with
                   | d :: l'' => if d =c c_gt then TSym c_plus :: lex [] l'' else TSym c_gt :: lex [] l'
                   | [] => [TSym c_gt]
                   end
      else if among symbols c then flush w ++ TSym c :: lex [] l'
      else lex (w ++ [c]) l'
  end.

Definition redirection : Type := text * Z * Z.

Definition redir_of (c : byte) (f : text) : option redirection :=
  if c =c c_lt then Some (f, O_RDONLY, 0)
  else if (c =c c_gt) || (c =c c_plus) then Some (f, Z.lor O_WRONLY O_CREATE, 1) else None.

Fixpoint wrap {W} (c : cmd W) (rs : list (W * Z * Z)) : cmd W :=
  match rs with [] => c | (f, mode, fd) :: rs' => wrap (REDIR c f mode fd) rs' end.

Inductive d_redirs : list token -> list redirection -> Prop :=
| dr_nil : d_redirs [] []
| dr_cons c f r ts rs : redir_of c f = Some r -> d_redirs ts rs -> d_redirs (TSym c :: TWord f :: ts) (r :: rs).

(** Words and redirections in any order. *)
Inductive d_simple : list token -> list text -> list redirection -> Prop :=
| ds_nil : d_simple [] [] []
| ds_word w ts ws rs : d_simple ts ws rs -> d_simple (TWord w :: ts) (w :: ws) rs
| ds_redir c f r ts ws rs : redir_of c f = Some r -> d_simple ts ws rs -> d_simple (TSym c :: TWord f :: ts) ws (r :: rs).

Fixpoint backs {W} (n : nat) (c : cmd W) : cmd W := match n with O => c | S n' => backs n' (BACK c) end.

Inductive d_line : list token -> cmd text -> Prop :=
| dl_end ts c n : d_pipe ts c -> d_line (ts ++ replicate n (TSym c_amp)) (backs n c)
| dl_list ts c n ts2 c2 : d_pipe ts c -> d_line ts2 c2 ->
    d_line (ts ++ replicate n (TSym c_amp) ++ TSym c_semi :: ts2) (LIST (backs n c) c2)
with d_pipe : list token -> cmd text -> Prop :=
| dp_one ts c : d_atom ts c -> d_pipe ts c
| dp_pipe ts c ts2 c2 : d_atom ts c -> d_pipe ts2 c2 -> d_pipe (ts ++ TSym c_pipe :: ts2) (PIPE c c2)
with d_atom : list token -> cmd text -> Prop :=
| da_simple ts ws rs : d_simple ts ws rs -> Z.of_nat (length ws) < MAXARGS -> d_atom ts (wrap (EXEC ws) rs)
| da_block ts c ts2 rs : d_line ts c -> d_redirs ts2 rs -> d_atom (TSym c_lpar :: ts ++ TSym c_rpar :: ts2) (wrap c rs).

Scheme d_line_ind' := Minimality for d_line Sort Prop
with d_pipe_ind' := Minimality for d_pipe Sort Prop
with d_atom_ind' := Minimality for d_atom Sort Prop.
Combined Scheme derivation_ind from d_line_ind', d_pipe_ind', d_atom_ind'.

(** ** Characters *)

Lemma among_In s c : among s c = true <-> In c s.
Proof.
  unfold among. rewrite existsb_exists. split.
  - intros (x & Hx & E). apply Byte.byte_dec_bl in E. congruence.
  - intros H. exists c. split; [done|]. by apply Byte.byte_dec_lb.
Qed.

Lemma eqb_true (a b : byte) : (a =c b) = true <-> a = b.
Proof. split; [apply Byte.byte_dec_bl|apply Byte.byte_dec_lb]. Qed.

Lemma eqb_false (a b : byte) : (a =c b) = false <-> a <> b.
Proof. rewrite <- eqb_true. by destruct (a =c b). Qed.

(** Facts about the two character classes, by enumeration. *)
Lemma word_char_not c : word_char c = true -> among whitespace c = false /\ among symbols c = false /\ (c =c c_gt) = false.
Proof. by destruct c. Qed.
Lemma space_not_symbol c : among whitespace c = true -> among symbols c = false /\ (c =c c_gt) = false /\ word_char c = false.
Proof. by destruct c. Qed.
Lemma symbol_cases c :
  among whitespace c = false -> word_char c = false ->
  among [c_pipe; c_lpar; c_rpar; c_semi; c_amp; c_lt] c = true /\ among symbols c = true /\ (c =c c_gt) = false /\ (c =c Byte.x00) = false /\ (c =c c_word) = false \/ c = c_gt.
Proof. by destruct c; intros; (right; reflexivity) || (left; split_and!). Qed.
Lemma not_symbol_word c : among [c_pipe; c_lpar; c_rpar; c_semi; c_amp; c_lt] c = false -> (c =c c_gt) = false -> among whitespace c = false -> word_char c = true.
Proof. by destruct c. Qed.

(** ** The lexer and the scanning loops *)

Lemma skip_space_lex l : lex [] (skip_space l) = lex [] l.
Proof. induction l as [|c l IH]; [done|]. cbn [skip_space]. destruct (among whitespace c) eqn:E; [|done]. cbn [lex]. rewrite E. exact IH. Qed.

Lemma skip_space_suffix l : skip_space l `suffix_of` l.
Proof. induction l as [|c l IH]; [done|]. cbn [skip_space]. destruct (among whitespace c); [by apply suffix_cons_r|done]. Qed.

Lemma skip_space_head l : match skip_space l with c :: _ => among whitespace c = false | [] => True end.
Proof. induction l as [|c l IH]; [done|]. cbn [skip_space]. destruct (among whitespace c) eqn:E; [exact IH|done]. Qed.

Lemma skip_space_idem l : skip_space (skip_space l) = skip_space l.
Proof. pose proof (skip_space_head l) as H. destruct (skip_space l) as [|c l']; [done|]. cbn [skip_space]. by rewrite H. Qed.

Lemma skip_word_split q : exists w, q = w ++ skip_word q /\ Forall (fun c => word_char c = true) w /\
  match skip_word q with c :: _ => word_char c = false | [] => True end.
Proof.
  induction q as [|c q (w & E & Hw & Hh)]; [by exists []|]. cbn [skip_word]. destruct (word_char c) eqn:Ec.
  - exists (c :: w). split; [simpl; by rewrite <- E|]. split; [by constructor|done].
  - by exists [].
Qed.

Lemma lex_word w e : forall acc, Forall (fun c => word_char c = true) w -> lex acc (w ++ e) = lex (acc ++ w) e.
Proof.
  induction w as [|c w IH]; intros acc Hw; [by rewrite app_nil_r|]. apply Forall_cons in Hw as [Hc Hw].
  destruct (word_char_not c Hc) as (E1 & E2 & E3). cbn [lex app]. rewrite E1, E3, E2, IH by done. by rewrite <- app_assoc.
Qed.

Lemma lex_boundary w e :
  w <> [] -> match e with c :: _ => word_char c = false | [] => True end -> lex w e = TWord w :: lex [] e.
Proof.
  intros Hw He. destruct w as [|x w]; [done|]. destruct e as [|c e]; [done|]. cbn [lex].
  destruct (among whitespace c) eqn:E1; [done|]. destruct (c =c c_gt) eqn:E2; [done|].
  destruct (symbol_cases c E1 He) as [(_ & -> & _)| ->]; [done|discriminate E2].
Qed.

Lemma first_word c q : word_char c = true ->
  exists w, c :: q = w ++ skip_word (c :: q) /\ w <> [] /\ Forall (fun c => word_char c = true) w /\
    match skip_word (c :: q) with c :: _ => word_char c = false | [] => True end /\ lex [] (c :: q) = TWord w :: lex [] (skip_word (c :: q)).
Proof.
  intros Hw. destruct (skip_word_split q) as (w & Ew & Fw & Bw). exists (c :: w). cbn [skip_word]. rewrite Hw.
  split; [simpl; by rewrite <- Ew|]. split; [done|]. split; [by constructor|]. split; [done|].
  rewrite Ew at 1. change (c :: w ++ skip_word q) with ((c :: w) ++ skip_word q).
  rewrite lex_word by (by constructor). by apply lex_boundary.
Qed.

(** [gettoken] returns the next token of the lexer. *)
Lemma gettoken_spec l : let '(r, q, e, rest) := gettoken l in
  rest `suffix_of` e /\ e `suffix_of` q /\ q `suffix_of` l /\
  (r = Byte.x00 /\ lex [] l = [] /\ rest = [] \/
   r = c_word /\ (exists w, q = w ++ e /\ w <> [] /\ Forall (fun c => word_char c = true) w /\
      match e with c :: _ => word_char c = false | [] => True end /\ lex [] l = TWord w :: lex [] rest) /\ (length rest < length l)%nat \/
   r <> Byte.x00 /\ r <> c_word /\ lex [] l = TSym r :: lex [] rest /\ (length rest < length l)%nat).
Proof.
  unfold gettoken. rewrite <- (skip_space_lex l). pose proof (skip_space_suffix l) as Hs. pose proof (skip_space_head l) as Hh.
  pose proof (suffix_length _ _ Hs) as Hl. destruct (skip_space l) as [|c q].
  { split_and!; [done|done|done|]. by left. }
  assert (forall e r, e `suffix_of` q -> r <> Byte.x00 -> r <> c_word -> lex [] (c :: q) = TSym r :: lex [] e ->
     skip_space e `suffix_of` e /\ e `suffix_of` c :: q /\ c :: q `suffix_of` l /\
     (r = Byte.x00 /\ lex [] (c :: q) = [] /\ skip_space e = [] \/
      r = c_word /\ (exists w, c :: q = w ++ e /\ w <> [] /\ Forall (fun c => word_char c = true) w /\
      match e with c :: _ => word_char c = false | [] => True end /\ lex [] (c :: q) = TWord w :: lex [] (skip_space e)) /\ (length (skip_space e) < length l)%nat \/
      r <> Byte.x00 /\ r <> c_word /\ lex [] (c :: q) = TSym r :: lex [] (skip_space e) /\ (length (skip_space e) < length l)%nat)) as Hsym.
  { intros e r He H1 H2 E. pose proof (suffix_length _ _ (skip_space_suffix e)). pose proof (suffix_length _ _ He). simpl in Hl.
    split; [apply skip_space_suffix|]. split; [by apply suffix_cons_r|]. split; [done|]. right; right. rewrite skip_space_lex. split; [exact H1|]. split; [exact H2|]. split; [exact E|]. lia. }
  destruct (among [c_pipe; c_lpar; c_rpar; c_semi; c_amp; c_lt] c) eqn:E1.
  { apply Hsym; [done| | |]; [by intros ->|by intros ->|]. destruct c; try discriminate E1; reflexivity. }
  destruct (c =c c_gt) eqn:E2.
  { apply eqb_true in E2 as ->. destruct q as [|d q]; [by apply Hsym|]. destruct (d =c c_gt) eqn:E3.
    - apply Hsym; [by apply suffix_cons_r|done|done|]. cbn [lex]. by rewrite E3.
    - apply Hsym; [done|done|done|]. change (lex [] (c_gt :: d :: q)) with (if d =c c_gt then TSym c_plus :: lex [] q else TSym c_gt :: lex [] (d :: q)).
      by rewrite E3. }
  pose proof (not_symbol_word c E1 E2 Hh) as Hw.
  destruct (first_word c q Hw) as (w & Ew & Hne & Fw & Bw & Lw). set (e := skip_word (c :: q)) in *.
  split; [apply skip_space_suffix|]. split; [by exists w|]. split; [done|]. right; left. split; [done|]. split.
  - exists w. split_and!; try done. by rewrite skip_space_lex.
  - pose proof (suffix_length _ _ (skip_space_suffix e)). apply (f_equal length) in Ew. rewrite length_app in Ew.
    destruct w; [done|]. simpl in *. lia.
Qed.

(** The character a token begins with, if it is not a word. *)
Definition sym_char (c : byte) : byte := if c =c c_plus then c_gt else c.

Lemma symbols_of toks c : forallb (among symbols) toks = true -> among toks c = true -> among symbols c = true.
Proof. rewrite forallb_forall. intros H Hc%among_In. by apply H. Qed.

Lemma peek_spec l toks :
  forallb (among symbols) toks = true ->
  let (b, s) := peek l toks in s = skip_space l /\
    b = match lex [] l with TSym c :: _ => among toks (sym_char c) | _ => false end.
Proof.
  intros Ht. unfold peek. split; [done|]. rewrite <- skip_space_lex. pose proof (skip_space_head l) as Hh.
  destruct (skip_space l) as [|c q]; [done|]. destruct (word_char c) eqn:Hw.
  - destruct (first_word c q Hw) as (w & _ & _ & _ & _ & ->). destruct (word_char_not c Hw) as (_ & E & _).
    destruct (among toks c) eqn:Et; [|done]. by rewrite (symbols_of _ c Ht Et) in E.
  - destruct (symbol_cases c Hh Hw) as [(E1 & E2 & E3 & _)| ->].
    + cbn [lex]. rewrite Hh, E3, E2. cbn [flush app]. unfold sym_char. destruct (c =c c_plus) eqn:E4; [|done]. apply eqb_true in E4 as ->. done.
    + cbn [lex]. change (among whitespace c_gt) with false. change (c_gt =c c_gt) with true. cbn iota.
      cbn [flush app]. destruct q as [|d q]; [done|]. destruct (d =c c_gt); done.
Qed.

Lemma skip_space_nil l : lex [] l = [] -> skip_space l = [].
Proof.
  intros H. rewrite <- skip_space_lex in H. pose proof (skip_space_head l) as Hh. destruct (skip_space l) as [|c q]; [done|].
  exfalso. destruct (word_char c) eqn:Hw.
  - destruct (first_word c q Hw) as (w & _ & _ & _ & _ & E). congruence.
  - cbn [lex] in H. rewrite Hh in H. destruct (symbol_cases c Hh Hw) as [(E1 & E2 & E3 & _)| ->].
    + by rewrite E3, E2 in H.
    + cbn in H. by destruct q as [|d q]; [|destruct (d =c c_gt)].
Qed.

(** ** Commands and their words *)

Definition text_of (w : word) : text := take (length (fst w) - length (snd w)) (fst w).
Definition rtext (r : word * Z * Z) : redirection := (text_of (fst (fst r)), snd (fst r), snd r).

Fixpoint words {W} (c : cmd W) : list W :=
  match c with
  | EXEC argv => argv
  | REDIR c' f _ _ => words c' ++ [f]
  | PIPE l r | LIST l r => words l ++ words r
  | BACK c' => words c'
  end.

(** A word of the line [s0]: characters of words up to one that is not. *)
Definition word_ok (s0 : list byte) (w : word) : Prop :=
  fst w `suffix_of` s0 /\ exists t, fst w = t ++ snd w /\ t <> [] /\ Forall (fun c => word_char c = true) t /\
    match snd w with c :: _ => word_char c = false | [] => True end.

Lemma text_of_app t e : text_of (t ++ e, e) = t.
Proof. unfold text_of. simpl. rewrite length_app, Nat.add_sub. apply take_app_length. Qed.

Lemma wrap_app {W} (c : cmd W) rs rs' : wrap c (rs ++ rs') = wrap (wrap c rs) rs'.
Proof. revert c. induction rs as [|[[f m] d] rs IH]; intros c; [done|]. apply IH. Qed.

Lemma add_arg_wrap {W} (w : W) c rs : add_arg w (wrap c rs) = wrap (add_arg w c) rs.
Proof. revert c. induction rs as [|[[f m] d] rs IH]; intros c; [done|]. apply IH. Qed.

Lemma cmd_map_wrap c rs : cmd_map text_of (wrap c rs) = wrap (cmd_map text_of c) (map rtext rs).
Proof. revert c. induction rs as [|[[f m] d] rs IH]; intros c; [done|]. apply IH. Qed.

Lemma words_wrap {W} (c : cmd W) rs : words (wrap c rs) = words c ++ map (fun r => fst (fst r)) rs.
Proof.
  revert c. induction rs as [|[[f m] d] rs IH]; intros c; [by rewrite app_nil_r|]. cbn [wrap map].
  rewrite IH. cbn [words fst]. by rewrite <- app_assoc.
Qed.

Lemma cmd_map_backs n c : cmd_map text_of (backs n c) = backs n (cmd_map text_of c).
Proof. revert c. induction n as [|n IH]; intros c; [done|]. apply IH. Qed.

Lemma words_backs {W} n (c : cmd W) : words (backs n c) = words c.
Proof. revert c. induction n as [|n IH]; intros c; [done|]. apply (IH (BACK c)). Qed.

Lemma d_simple_redirs ts rs ts2 ws rs2 : d_redirs ts rs -> d_simple ts2 ws rs2 -> d_simple (ts ++ ts2) ws (rs ++ rs2).
Proof. induction 1; [done|]. intros. simpl. constructor; auto. Qed.

(** ** Every parsed line is derived *)

Section Sound.

Context (s0 : list byte).

(** A parser that returned [c] from [s]: what it consumed derives [D] of it. *)
Definition sound (D : list token -> cmd text -> Prop) (s : ptr) (c : cmd word) (rest : ptr) : Prop :=
  s `suffix_of` s0 -> rest `suffix_of` s /\ Forall (word_ok s0) (words c) /\
  exists ts, lex [] s = ts ++ lex [] rest /\ D ts (cmd_map text_of c).

Lemma peek_false s toks s' : peek s toks = (false, s') -> s' = skip_space s.
Proof. by intros [=]. Qed.

(** A successful [peek] for symbols, and the [gettoken] after it. *)
Lemma peek_gettoken s toks s1 r q e s2 :
  peek s toks = (true, s1) -> gettoken s1 = (r, q, e, s2) -> forallb (among symbols) toks = true ->
  lex [] s = TSym r :: lex [] s2 /\ among toks (sym_char r) = true /\ s2 `suffix_of` s /\ (length s2 < length s)%nat.
Proof.
  intros Hp Hg Ht. pose proof (peek_spec s toks Ht) as P. rewrite Hp in P. destruct P as [-> P].
  pose proof (gettoken_spec (skip_space s)) as G. rewrite Hg, skip_space_lex in G.
  pose proof (skip_space_suffix s) as Hs. pose proof (suffix_length _ _ Hs).
  destruct G as (G1 & G2 & G3 & [(_ & E & _)|[(_ & (w & _ & _ & _ & _ & E) & _)|(_ & _ & E & Hl)]]); rewrite E in P; try discriminate P.
  split; [done|]. split; [by symmetry|]. split; [|lia]. etrans; [exact G1|]. etrans; [exact G2|]. by etrans.
Qed.

Lemma gettoken_word s q e s2 :
  gettoken s = (c_word, q, e, s2) ->
  lex [] s = TWord (text_of (q, e)) :: lex [] s2 /\ s2 `suffix_of` s /\ (length s2 < length s)%nat /\
  (s `suffix_of` s0 -> word_ok s0 (q, e)).
Proof.
  intros Hg. pose proof (gettoken_spec s) as G. rewrite Hg in G.
  destruct G as (G1 & G2 & G3 & [(? & _)|[(_ & (w & Eq & W1 & W2 & W3 & E) & Hl)|(_ & ? & _)]]); [done| |done].
  subst q. rewrite text_of_app. split_and!; [done| |done|].
  - etrans; [exact G1|]. by etrans.
  - intros Hs. split; [by etrans|]. by exists w.
Qed.

Lemma redir_tok r : among [c_lt; c_gt] (sym_char r) = true -> r = c_lt \/ r = c_gt \/ r = c_plus.
Proof. destruct r; cbn; try discriminate; auto. Qed.

Lemma parseredirs_sound f : forall c s c' rest,
  parseredirs c s f = Parsed c' rest -> s `suffix_of` s0 ->
  exists ts rs, c' = wrap c rs /\ lex [] s = ts ++ lex [] rest /\ d_redirs ts (map rtext rs) /\
    rest `suffix_of` s /\ Forall (word_ok s0) (map (fun r => fst (fst r)) rs).
Proof.
  induction f as [|f IH]; intros c s c' rest; cbn [parseredirs]; [done|].
  destruct (peek s [c_lt; c_gt]) as [b s1] eqn:Hp. destruct b.
  - destruct (gettoken s1) as [[[tok q0] e0] s2] eqn:G1. destruct (gettoken s2) as [[[t q] e] s3] eqn:G2.
    destruct (t =c c_word) eqn:Et; [|done]. apply eqb_true in Et as ->. cbn [negb]. intros Hr Hs.
    destruct (peek_gettoken s _ s1 tok q0 e0 s2 Hp G1 eq_refl) as (L1 & Htok & Hs2 & _).
    destruct (gettoken_word s2 q e s3 G2) as (L2 & Hs3 & _ & Hw).
    assert (exists mode fd, redir_of tok (text_of (q, e)) = Some (text_of (q, e), mode, fd) /\ parseredirs (REDIR c (q, e) mode fd) s3 f = Parsed c' rest) as (mode & fd & Em & Hr').
    { destruct (redir_tok tok Htok) as [->|[->| ->]]; eexists _, _; split; [reflexivity|exact Hr|reflexivity|exact Hr|reflexivity|exact Hr]. }
    destruct (IH _ _ _ _ Hr') as (ts & rs & -> & L & D & Hrest & Hok); [etrans; [exact Hs3|]; by etrans|].
    exists (TSym tok :: TWord (text_of (q, e)) :: ts), ((q, e, mode, fd) :: rs). split_and!; try done.
    + rewrite L1, L2, L. done.
    + cbn [map]. by constructor.
    + etrans; [exact Hrest|]. by etrans.
    + cbn [map fst]. constructor; [apply Hw; by etrans|done].
  - intros [= <- <-] Hs. exists [], []. apply peek_false in Hp as ->. rewrite skip_space_lex. split_and!; try done; [constructor|apply skip_space_suffix].
Qed.

Lemma parseargs_sound f : forall a rs0 s c' rest,
  parseargs (wrap (EXEC a) rs0) (Z.of_nat (length a)) s f = Parsed c' rest -> s `suffix_of` s0 -> Z.of_nat (length a) < MAXARGS ->
  exists ts ws rs, c' = wrap (EXEC (a ++ ws)) (rs0 ++ rs) /\ lex [] s = ts ++ lex [] rest /\ d_simple ts (map text_of ws) (map rtext rs) /\
    Z.of_nat (length (a ++ ws)) < MAXARGS /\
    rest `suffix_of` s /\ Forall (word_ok s0) (ws ++ map (fun r => fst (fst r)) rs).
Proof.
  induction f as [|f IH]; intros a rs0 s c' rest; cbn [parseargs]; [done|].
  destruct (peek s [c_pipe; c_rpar; c_amp; c_semi]) as [b s1] eqn:Hp. assert (s1 = skip_space s) as E1 by (by injection Hp).
  assert (s1 `suffix_of` s) as Hs1 by (rewrite E1; apply skip_space_suffix).
  assert (forall r, r `suffix_of` s1 -> lex [] r = lex [] s -> s `suffix_of` s0 -> Z.of_nat (length a) < MAXARGS -> exists ts ws rs, wrap (EXEC a) rs0 = wrap (EXEC (a ++ ws)) (rs0 ++ rs) /\
     lex [] s = ts ++ lex [] r /\ d_simple ts (map text_of ws) (map rtext rs) /\ Z.of_nat (length (a ++ ws)) < MAXARGS /\
     r `suffix_of` s /\ Forall (word_ok s0) (ws ++ map (fun r => fst (fst r)) rs)) as Hend.
  { intros r Hr El Hs Ha. exists [], [], []. rewrite !app_nil_r. split_and!; try done; [constructor|by etrans]. }
  destruct b; [intros [= <- <-]; apply Hend; [done|by rewrite E1, skip_space_lex]|].
  destruct (gettoken s1) as [[[tok q] e] s2] eqn:G. pose proof (gettoken_spec s1) as GS. rewrite G in GS.
  destruct (tok =c Byte.x00) eqn:Et0.
  { apply eqb_true in Et0 as ->. intros [= <- <-]. destruct GS as (_ & _ & _ & [(_ & El & ->)|[[? _]|[? _]]]); [|done|done].
    apply Hend; [apply suffix_nil|]. by rewrite <- (skip_space_lex s), <- E1, El. }
  destruct (tok =c c_word) eqn:Et; [|done]. apply eqb_true in Et as ->. cbn [negb].
  destruct (Z.geb_spec (Z.of_nat (length a) + 1) MAXARGS); [done|]. rewrite add_arg_wrap. cbn [add_arg].
  destruct (parseredirs _ s2 f) as [ret s3| |] eqn:Er; try done. cbn [pbind]. intros Hr Hs Ha.
  destruct (gettoken_word s1 q e s2 G) as (L2 & Hs2 & _ & Hw).
  assert (s2 `suffix_of` s) as Hs2' by (by etrans).
  destruct (parseredirs_sound f _ _ _ _ Er) as (ts1 & rs1 & -> & L3 & D1 & Hs3 & Hok1); [by etrans|]. rewrite <- wrap_app in Hr.
  assert (Z.of_nat (length a) + 1 = Z.of_nat (length (a ++ [(q, e)]))) as Ea by (rewrite length_app; simpl; lia). rewrite Ea in Hr.
  destruct (IH _ _ _ _ _ Hr) as (ts2 & ws & rs2 & -> & L4 & D2 & Hlen & Hrest & Hok2); [etrans; [exact Hs3|]; by etrans|rewrite length_app; simpl; lia|].
  exists (TWord (text_of (q, e)) :: ts1 ++ ts2), ((q, e) :: ws), (rs1 ++ rs2). split_and!.
  - by rewrite <- !app_assoc.
  - rewrite <- skip_space_lex, <- E1, L2, L3, L4. simpl. by rewrite <- app_assoc.
  - cbn [map]. constructor. rewrite map_app. by apply d_simple_redirs.
  - by rewrite <- app_assoc in Hlen.
  - etrans; [exact Hrest|]. by etrans.
  - rewrite map_app. cbn [app]. constructor; [apply Hw; by etrans|]. apply Forall_app in Hok2 as [? ?].
    rewrite !Forall_app. by split_and!.
Qed.

Lemma one_symbol x r : among [x] (sym_char r) = true -> (x =c c_gt) = false -> r = x.
Proof.
  intros [E|[]]%among_In Hx. unfold sym_char in E. destruct (r =c c_plus); [|done]. subst x. discriminate Hx.
Qed.

(** [peek] for one symbol and the [gettoken] after it. *)
Lemma peek_one s x s1 r q e s2 :
  peek s [x] = (true, s1) -> gettoken s1 = (r, q, e, s2) -> among symbols x = true -> (x =c c_gt) = false ->
  lex [] s = TSym x :: lex [] s2 /\ s2 `suffix_of` s /\ (length s2 < length s)%nat.
Proof.
  intros Hp Hg Hx Hx'. destruct (peek_gettoken s [x] s1 r q e s2 Hp Hg) as (L & Ht & Hs & Hl); [cbn [forallb]; by rewrite Hx|].
  apply one_symbol in Ht as ->; done.
Qed.

Lemma parseback_sound f : forall c s c' rest,
  parseback c s f = Parsed c' rest ->
  exists n, c' = backs n c /\ lex [] s = replicate n (TSym c_amp) ++ lex [] rest /\ rest `suffix_of` s.
Proof.
  induction f as [|f IH]; intros c s c' rest; cbn [parseback]; [done|].
  destruct (peek s [c_amp]) as [b s1] eqn:Hp. destruct b.
  - destruct (gettoken s1) as [[[r q] e] s2] eqn:G. intros Hr. destruct (IH _ _ _ _ Hr) as (n & -> & L & Hs).
    destruct (peek_one s c_amp s1 r q e s2 Hp G eq_refl eq_refl) as (L2 & Hs2 & _).
    exists (S n). split_and!; [done|by rewrite L2, L|by etrans].
  - intros [= <- <-]. exists O. apply peek_false in Hp as ->. rewrite skip_space_lex. split_and!; try done. apply skip_space_suffix.
Qed.

Lemma sound_words D s c rest : sound D s c rest -> s `suffix_of` s0 -> rest `suffix_of` s0.
Proof. intros H Hs. destruct (H Hs) as [Hr _]. by etrans. Qed.

Lemma parse_sound f :
  (forall s c rest, parseline s f = Parsed c rest -> sound d_line s c rest) /\
  (forall s c rest, parsepipe s f = Parsed c rest -> sound d_pipe s c rest) /\
  (forall s c rest, parseexec s f = Parsed c rest -> sound d_atom s c rest) /\
  (forall s c rest, parseblock s f = Parsed c rest -> sound d_atom s c rest).
Proof.
  induction f as [|f (IHl & IHp & IHe & IHb)]; [done|]. split_and!; intros s c rest.
  - cbn [parseline]. destruct (parsepipe s f) as [c1 s1| |] eqn:E1; try done. cbn [pbind].
    destruct (parseback c1 s1 f) as [c2 s2| |] eqn:E2; try done. cbn [pbind].
    destruct (parseback_sound _ _ _ _ _ E2) as (n & -> & L2 & S2).
    destruct (peek s2 [c_semi]) as [b s3] eqn:Hp. destruct b.
    + destruct (gettoken s3) as [[[r q] e] s4] eqn:G. destruct (parseline s4 f) as [c3 s5| |] eqn:E3; try done.
      cbn [pbind]. intros [= <- <-] Hs. destruct (IHp _ _ _ E1 Hs) as (S1 & W1 & ts1 & L1 & D1).
      destruct (peek_one s2 c_semi s3 r q e s4 Hp G eq_refl eq_refl) as (L4 & S4 & _).
      assert (s4 `suffix_of` s) as S4' by (etrans; [exact S4|]; by etrans).
      destruct (IHl _ _ _ E3) as (S5 & W5 & ts5 & L5 & D5); [by etrans|].
      split; [by etrans|]. cbn [words cmd_map]. rewrite words_backs, cmd_map_backs. split; [by apply Forall_app|].
      exists (ts1 ++ replicate n (TSym c_amp) ++ TSym c_semi :: ts5). split; [|by constructor].
      rewrite L1, L2, L4, L5, <- !app_assoc. done.
    + intros [= <- <-] Hs. destruct (IHp _ _ _ E1 Hs) as (S1 & W1 & ts1 & L1 & D1). apply peek_false in Hp as ->.
      split; [etrans; [apply skip_space_suffix|]; by etrans|]. rewrite words_backs, cmd_map_backs, skip_space_lex. split; [done|].
      exists (ts1 ++ replicate n (TSym c_amp)). split; [by rewrite L1, L2, <- app_assoc|by constructor].
  - cbn [parsepipe]. destruct (parseexec s f) as [c1 s1| |] eqn:E1; try done. cbn [pbind].
    destruct (peek s1 [c_pipe]) as [b s2] eqn:Hp. destruct b.
    + destruct (gettoken s2) as [[[r q] e] s3] eqn:G. destruct (parsepipe s3 f) as [c2 s4| |] eqn:E2; try done.
      cbn [pbind]. intros [= <- <-] Hs. destruct (IHe _ _ _ E1 Hs) as (S1 & W1 & ts1 & L1 & D1).
      destruct (peek_one s1 c_pipe s2 r q e s3 Hp G eq_refl eq_refl) as (L3 & S3 & _).
      assert (s3 `suffix_of` s) as S3' by (by etrans).
      destruct (IHp _ _ _ E2) as (S4 & W4 & ts4 & L4 & D4); [by etrans|].
      split; [by etrans|]. cbn [words cmd_map]. split; [by apply Forall_app|].
      exists (ts1 ++ TSym c_pipe :: ts4). split; [|by constructor]. rewrite L1, L3, L4, <- app_assoc. done.
    + intros [= <- <-] Hs. destruct (IHe _ _ _ E1 Hs) as (S1 & W1 & ts1 & L1 & D1). apply peek_false in Hp as ->.
      split; [etrans; [apply skip_space_suffix|done]|]. rewrite skip_space_lex. split; [done|]. exists ts1. split; [done|by constructor].
  - cbn [parseexec]. destruct (peek s [c_lpar]) as [b s1] eqn:Hp. assert (s1 = skip_space s) as -> by (by injection Hp).
    pose proof (skip_space_suffix s) as Hsp. destruct b.
    + intros Hb Hs. destruct (IHb _ _ _ Hb) as (S1 & W1 & ts1 & L1 & D1); [by etrans|].
      split; [by etrans|]. split; [done|]. exists ts1. by rewrite <- skip_space_lex.
    + destruct (parseredirs (EXEC []) (skip_space s) f) as [c1 s1| |] eqn:E1; try done. cbn [pbind]. intros Ha Hs.
      destruct (parseredirs_sound _ _ _ _ _ E1) as (ts1 & rs1 & -> & L1 & D1 & S1 & W1); [by etrans|].
      destruct (parseargs_sound f [] rs1 s1 c rest Ha) as (ts2 & ws & rs2 & -> & L2 & D2 & Hlen & S2 & W2); [etrans; [exact S1|]; by etrans|done|].
      split; [etrans; [exact S2|]; by etrans|]. rewrite words_wrap, cmd_map_wrap, !map_app. split.
      { cbn [words app]. apply Forall_app in W2 as [? ?]. rewrite !Forall_app. by split_and!. }
      exists (ts1 ++ ts2). split; [by rewrite <- skip_space_lex, L1, L2, <- app_assoc|]. cbn [cmd_map app].
      constructor; [by apply d_simple_redirs|]. by rewrite length_map.
  - cbn [parseblock]. destruct (peek s [c_lpar]) as [b s1] eqn:Hp. destruct b; [|done]. cbn [negb].
    destruct (gettoken s1) as [[[r q] e] s2] eqn:G. destruct (parseline s2 f) as [c1 s3| |] eqn:E1; try done. cbn [pbind].
    destruct (peek s3 [c_rpar]) as [b s4] eqn:Hp2. destruct b; [|done]. cbn [negb].
    destruct (gettoken s4) as [[[r' q'] e'] s5] eqn:G2. intros Hr Hs.
    destruct (peek_one s c_lpar s1 r q e s2 Hp G eq_refl eq_refl) as (L2 & S2 & _).
    destruct (peek_one s3 c_rpar s4 r' q' e' s5 Hp2 G2 eq_refl eq_refl) as (L5 & S5 & _).
    assert (s2 `suffix_of` s0) as S2' by (by etrans).
    destruct (IHl _ _ _ E1 S2') as (S3 & W3 & ts3 & L3 & D3).
    assert (s5 `suffix_of` s) as S5' by (etrans; [exact S5|]; by etrans).
    destruct (parseredirs_sound _ _ _ _ _ Hr) as (ts6 & rs & -> & L6 & D6 & S6 & W6); [by etrans|].
    split; [by etrans|]. rewrite words_wrap, cmd_map_wrap. split; [by apply Forall_app|].
    exists (TSym c_lpar :: ts3 ++ TSym c_rpar :: ts6). split; [|by constructor].
    rewrite L2, L3, L5, L6. simpl. by rewrite <- app_assoc.
Qed.
End Sound.

(** ** Every derived line is parsed *)

(** The next token ends what is being parsed. *)
Definition stops (cs : list byte) (ts : list token) : Prop :=
  match ts with [] => True | TSym c :: _ => among cs c = true | TWord _ :: _ => False end.

Definition head_in (toks : list byte) (ts : list token) : bool :=
  match ts with TSym c :: _ => among toks (sym_char c) | _ => false end.

Lemma peek_head s toks : forallb (among symbols) toks = true -> peek s toks = (head_in toks (lex [] s), skip_space s).
Proof.
  intros Ht. pose proof (peek_spec s toks Ht) as P. destruct (peek s toks) as [b s']. destruct P as [-> ->]. done.
Qed.

Lemma gettoken_sym s c ts : lex [] s = TSym c :: ts -> exists q e s2, gettoken (skip_space s) = (c, q, e, s2) /\ lex [] s2 = ts.
Proof.
  intros L. pose proof (gettoken_spec (skip_space s)) as G. destruct (gettoken (skip_space s)) as [[[r q] e] s2].
  rewrite skip_space_lex, L in G. destruct G as (_ & _ & _ & [(_ & ? & _)|[(_ & (w & _ & _ & _ & _ & ?) & _)|(_ & _ & E & _)]]); [done|done|].
  injection E as -> ->. by exists q, e, s2.
Qed.

Lemma gettoken_text s w ts :
  lex [] s = TWord w :: ts -> exists q e s2, gettoken s = (c_word, q, e, s2) /\ text_of (q, e) = w /\ lex [] s2 = ts.
Proof.
  intros L. pose proof (gettoken_spec s) as G. destruct (gettoken s) as [[[r q] e] s2].
  rewrite L in G. destruct G as (_ & _ & _ & [(_ & ? & _)|[(-> & (t & -> & _ & _ & _ & E) & _)|(_ & _ & ? & _)]]); [done| |done].
  injection E as -> ->. exists (t ++ e), e, s2. by rewrite text_of_app.
Qed.

Lemma gettoken_end s : lex [] s = [] -> exists q e, gettoken s = (Byte.x00, q, e, []).
Proof.
  intros L. pose proof (gettoken_spec s) as G. destruct (gettoken s) as [[[r q] e] s2].
  rewrite L in G. destruct G as (_ & _ & _ & [(-> & _ & ->)|[(_ & (t & _ & _ & _ & _ & ?) & _)|(_ & _ & ? & _)]]); [by exists q, e|done|done].
Qed.

Lemma redir_char c f r : redir_of c f = Some r ->
  head_in [c_lt; c_gt] [TSym c] = true /\
  forall (cm : cmd word) q e, text_of (q, e) = f ->
    exists m d, r = (f, m, d) /\
      (if c =c c_lt then REDIR cm (q, e) O_RDONLY 0
       else if c =c c_gt then REDIR cm (q, e) (Z.lor O_WRONLY O_CREATE) 1
       else if c =c c_plus then REDIR cm (q, e) (Z.lor O_WRONLY O_CREATE) 1 else cm) = REDIR cm (q, e) m d.
Proof.
  unfold redir_of. destruct (c =c c_lt) eqn:E1; [|destruct (c =c c_gt) eqn:E2; [|destruct (c =c c_plus) eqn:E3; [|done]]]; cbn [orb]; intros [= <-].
  - apply eqb_true in E1 as ->. split; [done|]. intros. by eexists _, _.
  - apply eqb_true in E2 as ->. split; [done|]. intros. by eexists _, _.
  - apply eqb_true in E3 as ->. split; [done|]. intros. by eexists _, _.
Qed.

Lemma parseredirs_complete ts rs : d_redirs ts rs -> forall c s ts' f,
  lex [] s = ts ++ ts' -> head_in [c_lt; c_gt] ts' = false -> (length ts < f)%nat ->
  exists rws rest, parseredirs c s f = Parsed (wrap c rws) rest /\ map rtext rws = rs /\ lex [] rest = ts'.
Proof.
  induction 1 as [|x w r ts rs Hr _ IH]; intros c s ts' f L Hh Hf; (destruct f as [|f]; [simpl in Hf; lia|]); cbn [parseredirs];
    rewrite peek_head, L by done.
  - simpl app. rewrite Hh. exists [], (skip_space s). rewrite skip_space_lex. by split_and!.
  - destruct (redir_char x w r Hr) as [Hx Hm]. cbn [app head_in] in *. rewrite Hx.
    destruct (gettoken_sym s x _ L) as (q0 & e0 & s2 & -> & L2). destruct (gettoken_text s2 w _ L2) as (q & e & s3 & -> & Ew & L3).
    destruct (Hm c q e Ew) as (m & d & -> & Em). cbn [negb]. change (c_word =c c_word) with true. cbn iota. rewrite Em.
    destruct (IH (REDIR c (q, e) m d) s3 ts' f L3 Hh ltac:(simpl in Hf; lia)) as (rws & rest & -> & Er & Lr).
    exists ((q, e, m, d) :: rws), rest. split_and!; [done| |done]. cbn [map]. rewrite Er. unfold rtext. cbn [fst snd]. by rewrite Ew.
Qed.

Lemma d_simple_split ts ws rs : d_simple ts ws rs ->
  exists ts1 rs1 ts2 rs2, ts = ts1 ++ ts2 /\ rs = rs1 ++ rs2 /\ d_redirs ts1 rs1 /\
    (ts2 = [] /\ ws = [] /\ rs2 = [] \/ exists w ts3 ws', ts2 = TWord w :: ts3 /\ ws = w :: ws' /\ d_simple ts3 ws' rs2).
Proof.
  induction 1 as [|w ts ws rs H _|c f r ts ws rs Hr _ (ts1 & rs1 & ts2 & rs2 & -> & -> & D & Hc)].
  - exists [], [], [], []. split_and!; try done; [constructor|by left].
  - exists [], [], (TWord w :: ts), rs. split_and!; try done; [constructor|]. right. by exists w, ts, ws.
  - exists (TSym c :: TWord f :: ts1), (r :: rs1), ts2, rs2. split_and!; try done. by constructor.
Qed.

Lemma stops_no_redir ts : stops [c_rpar; c_amp; c_semi; c_pipe] ts -> head_in [c_lt; c_gt] ts = false.
Proof. destruct ts as [|[w|c] ts]; cbn [stops head_in]; [done|done|]. destruct c; try discriminate; reflexivity. Qed.

(** The words and redirections after the first redirections. *)
Lemma parseargs_complete f : forall ts ws rs a rs0 s ts',
  d_simple ts ws rs -> (ts = [] \/ exists w ts2, ts = TWord w :: ts2) ->
  lex [] s = ts ++ ts' -> stops [c_rpar; c_amp; c_semi; c_pipe] ts' ->
  Z.of_nat (length a + length ws) < MAXARGS -> (length ts < f)%nat ->
  exists aw rws rest, parseargs (wrap (EXEC a) rs0) (Z.of_nat (length a)) s f = Parsed (wrap (EXEC (a ++ aw)) (rs0 ++ rws)) rest /\
    map text_of aw = ws /\ map rtext rws = rs /\ lex [] rest = ts'.
Proof.
  induction f as [|f IH]; intros ts ws rs a rs0 s ts' D Hts L Hst Hlen Hf; [lia|]. cbn [parseargs].
  rewrite peek_head, L by done. destruct Hts as [->|(w & ts2 & ->)].
  - inversion D; subst. simpl app in *. exists [], []. rewrite !app_nil_r. destruct ts' as [|[w|c] ts'].
    + cbn [head_in]. destruct (gettoken_end (skip_space s)) as (q & e & ->); [by rewrite skip_space_lex|]. by exists [].
    + destruct Hst.
    + assert (head_in [c_pipe; c_rpar; c_amp; c_semi] (TSym c :: ts') = true) as ->.
      { cbn [stops head_in] in *. clear -Hst. destruct c; try discriminate Hst; reflexivity. }
      exists (skip_space s). by rewrite skip_space_lex.
  - inversion D as [|w' ts0 ws' rs' D2|]; subst. cbn [app head_in].
    assert (lex [] (skip_space s) = TWord w :: (ts2 ++ ts')) as L' by (by rewrite skip_space_lex).
    destruct (gettoken_text _ w _ L') as (q & e & s2 & -> & Ew & L2). change (c_word =c Byte.x00) with false. change (c_word =c c_word) with true. cbn [negb].
    destruct (Z.geb_spec (Z.of_nat (length a) + 1) MAXARGS); [simpl in Hlen; lia|]. rewrite add_arg_wrap. cbn [add_arg].
    destruct (d_simple_split _ _ _ D2) as (ts1 & rs1 & ts3 & rs3 & -> & -> & D1 & Hc). rewrite <- app_assoc in L2.
    rewrite length_cons, length_app in Hf.
    destruct (parseredirs_complete _ _ D1 (wrap (EXEC (a ++ [(q, e)])) rs0) s2 (ts3 ++ ts') f L2) as (rws1 & s3 & -> & Er1 & L3); [|lia|].
    { destruct Hc as [(-> & _)|(w' & ts4 & ws4 & -> & _)]; [by apply stops_no_redir|done]. }
    cbn [pbind]. rewrite <- wrap_app.
    destruct (IH ts3 ws' rs3 (a ++ [(q, e)]) (rs0 ++ rws1) s3 ts') as (aw & rws & rest & E & Ea & Er & Lr).
    + destruct Hc as [(-> & -> & ->)|(w' & ts4 & ws4 & -> & -> & ?)]; by constructor.
    + destruct Hc as [(-> & _)|(w' & ts4 & ws4 & -> & _)]; [by left|right; by eexists _, _].
    + done.
    + done.
    + rewrite length_app. simpl in *. lia.
    + lia.
    + assert (Z.of_nat (length (a ++ [(q, e)])) = Z.of_nat (length a) + 1) as El by (rewrite length_app; simpl; lia). rewrite El in E.
      exists ((q, e) :: aw), (rws1 ++ rws), rest. rewrite E. split_and!; [by rewrite <- !app_assoc| | |done].
      * cbn [map]. by rewrite Ew, Ea.
      * rewrite map_app. by rewrite Er1, Er.
Qed.

Definition F_line : list byte := [c_rpar].
Definition F_pipe : list byte := [c_rpar; c_amp; c_semi].
Definition F_atom : list byte := [c_rpar; c_amp; c_semi; c_pipe].

Lemma stops_line_pipe ts : stops F_line ts -> stops F_pipe ts.
Proof. destruct ts as [|[w|c] ts]; cbn [stops]; [done|done|]. destruct c; try discriminate; reflexivity. Qed.
Lemma stops_pipe_atom ts : stops F_pipe ts -> stops F_atom ts.
Proof. destruct ts as [|[w|c] ts]; cbn [stops]; [done|done|]. destruct c; try discriminate; reflexivity. Qed.
Lemma stops_line_semi ts : stops F_line ts -> head_in [c_semi] ts = false /\ head_in [c_amp] ts = false.
Proof. destruct ts as [|[w|c] ts]; cbn [stops head_in]; [done|done|]. destruct c; try discriminate; by split. Qed.
Lemma stops_pipe_bar ts : stops F_pipe ts -> head_in [c_pipe] ts = false.
Proof. destruct ts as [|[w|c] ts]; cbn [stops head_in]; [done|done|]. destruct c; try discriminate; reflexivity. Qed.
Lemma stops_atom_lpar ts : stops F_atom ts -> head_in [c_lpar] ts = false.
Proof. destruct ts as [|[w|c] ts]; cbn [stops head_in]; [done|done|]. destruct c; try discriminate; reflexivity. Qed.

Lemma parseback_complete n : forall c s ts' f,
  lex [] s = replicate n (TSym c_amp) ++ ts' -> head_in [c_amp] ts' = false -> (n < f)%nat ->
  exists rest, parseback c s f = Parsed (backs n c) rest /\ lex [] rest = ts'.
Proof.
  induction n as [|n IH]; intros c s ts' f L Hh Hf; (destruct f as [|f]; [lia|]); cbn [parseback]; rewrite peek_head, L by done.
  - simpl app. rewrite Hh. exists (skip_space s). by rewrite skip_space_lex.
  - cbn [replicate app head_in]. change (among [c_amp] (sym_char c_amp)) with true. cbn iota.
    destruct (gettoken_sym s c_amp _ L) as (q & e & s2 & -> & L2). apply (IH (BACK c) s2 ts' f L2 Hh). lia.
Qed.

(** A parser with fuel in proportion to the tokens finds what derives them. *)
Definition complete (P : ptr -> nat -> parsed (cmd word)) (F : list byte) (k : nat) (ts : list token) (c : cmd text) : Prop :=
  forall s ts' f, lex [] s = ts ++ ts' -> stops F ts' -> (4 * length ts + k <= f)%nat ->
  exists cw rest, P s f = Parsed cw rest /\ cmd_map text_of cw = c /\ lex [] rest = ts'.

Lemma complete_atom_simple ts ws rs :
  d_simple ts ws rs -> Z.of_nat (length ws) < MAXARGS -> complete parseexec F_atom 2 ts (wrap (EXEC ws) rs).
Proof.
  intros D Hn s ts' f L Hst Hf. destruct f as [|f]; [lia|]. cbn [parseexec]. rewrite peek_head by done.
  destruct (d_simple_split _ _ _ D) as (ts1 & rs1 & ts2 & rs2 & -> & -> & D1 & Hc). rewrite <- app_assoc in L. rewrite length_app in Hf.
  assert (head_in [c_lpar] (ts1 ++ ts2 ++ ts') = false) as Hpar.
  { destruct D1 as [|x f0 r ts1 rs1 Hr]; [|cbn [app head_in]; unfold redir_of in Hr; destruct x; try discriminate Hr; reflexivity].
    destruct Hc as [(-> & _)|(w & ts3 & ws3 & -> & _)]; [by apply stops_atom_lpar|done]. }
  rewrite L, Hpar.
  destruct (parseredirs_complete _ _ D1 (EXEC []) (skip_space s) (ts2 ++ ts') f) as (rws1 & s1 & -> & Er1 & L1); [by rewrite skip_space_lex| |lia|].
  { destruct Hc as [(-> & _)|(w' & ts4 & ws4 & -> & _)]; [by apply stops_no_redir|done]. }
  cbn [pbind].
  destruct (parseargs_complete f ts2 ws rs2 [] rws1 s1 ts') as (aw & rws & rest & E & Ea & Er & Lr).
  - destruct Hc as [(-> & -> & ->)|(w' & ts4 & ws4 & -> & -> & ?)]; by constructor.
  - destruct Hc as [(-> & _)|(w' & ts4 & ws4 & -> & _)]; [by left|right; by eexists _, _].
  - done.
  - done.
  - done.
  - lia.
  - cbn [length app] in E. change (Z.of_nat 0) with 0 in E. rewrite E. eexists _, rest. split; [reflexivity|]. split; [|done].
    rewrite cmd_map_wrap. cbn [cmd_map app]. by rewrite map_app, Ea, Er1, Er.
Qed.

Lemma complete_atom_block ts c ts2 rs :
  complete parseline F_line 4 ts c -> d_redirs ts2 rs ->
  complete parseexec F_atom 2 (TSym c_lpar :: ts ++ TSym c_rpar :: ts2) (wrap c rs).
Proof.
  intros IH D s ts' f L Hst Hf. cbn [length] in Hf. rewrite length_app in Hf. cbn [length] in Hf.
  destruct f as [|[|f]]; [lia|lia|]. cbn [parseexec]. rewrite peek_head, L by done.
  cbn [app head_in]. change (among [c_lpar] (sym_char c_lpar)) with true. cbn iota. cbn [parseblock].
  rewrite peek_head, skip_space_lex, L by done. cbn [app head_in]. change (among [c_lpar] (sym_char c_lpar)) with true. cbn [negb].
  destruct (gettoken_sym (skip_space s) c_lpar (ts ++ TSym c_rpar :: ts2 ++ ts')) as (q & e & s2 & -> & L2).
  { rewrite skip_space_lex, L. simpl. by rewrite <- app_assoc. }
  destruct (IH s2 (TSym c_rpar :: ts2 ++ ts') f L2 eq_refl ltac:(lia)) as (cw & s3 & -> & Ec & L3). cbn [pbind].
  rewrite peek_head, L3 by done. cbn [head_in]. change (among [c_rpar] (sym_char c_rpar)) with true. cbn [negb].
  destruct (gettoken_sym s3 c_rpar _ L3) as (q' & e' & s4 & -> & L4).
  destruct (parseredirs_complete _ _ D cw s4 ts' f L4) as (rws & rest & -> & Er & Lr); [by apply stops_no_redir|lia|].
  eexists _, rest. split; [reflexivity|]. split; [|done]. by rewrite cmd_map_wrap, Ec, Er.
Qed.

Lemma complete_line_end ts c n :
  complete parsepipe F_pipe 3 ts c -> complete parseline F_line 4 (ts ++ replicate n (TSym c_amp)) (backs n c).
Proof.
  intros IH s ts' f L Hst Hf. rewrite length_app, length_replicate in Hf. destruct f as [|f]; [lia|]. cbn [parseline].
  rewrite <- app_assoc in L. destruct (stops_line_semi _ Hst) as [H1 H2].
  destruct (IH s (replicate n (TSym c_amp) ++ ts') f L) as (cw & s1 & -> & Ec & L1); [|lia|].
  { destruct n; [by apply stops_line_pipe|done]. }
  cbn [pbind]. destruct (parseback_complete n cw s1 ts' f L1 H2 ltac:(lia)) as (s2 & -> & L2). cbn [pbind].
  rewrite peek_head, L2, H1 by done. eexists _, (skip_space s2). split; [reflexivity|]. by rewrite cmd_map_backs, Ec, skip_space_lex.
Qed.

Lemma complete_line_list ts c n ts2 c2 :
  complete parsepipe F_pipe 3 ts c -> complete parseline F_line 4 ts2 c2 ->
  complete parseline F_line 4 (ts ++ replicate n (TSym c_amp) ++ TSym c_semi :: ts2) (LIST (backs n c) c2).
Proof.
  intros IH IH2 s ts' f L Hst Hf. rewrite !length_app, length_replicate in Hf. cbn [length] in Hf. destruct f as [|f]; [lia|]. cbn [parseline].
  rewrite <- !app_assoc in L. destruct (IH s _ f L) as (cw & s1 & -> & Ec & L1); [by destruct n|lia|].
  cbn [pbind]. destruct (parseback_complete n cw s1 (TSym c_semi :: ts2 ++ ts') f L1 eq_refl ltac:(lia)) as (s2 & -> & L2). cbn [pbind].
  rewrite peek_head, L2 by done. cbn [head_in]. change (among [c_semi] (sym_char c_semi)) with true. cbn iota.
  destruct (gettoken_sym s2 c_semi _ L2) as (q & e & s3 & -> & L3).
  destruct (IH2 s3 ts' f L3 Hst ltac:(lia)) as (cw2 & rest & -> & Ec2 & Lr). cbn [pbind].
  eexists _, rest. split; [reflexivity|]. cbn [cmd_map]. by rewrite cmd_map_backs, Ec, Ec2.
Qed.

Lemma complete_pipe_one ts c : complete parseexec F_atom 2 ts c -> complete parsepipe F_pipe 3 ts c.
Proof.
  intros IH s ts' f L Hst Hf. destruct f as [|f]; [lia|]. cbn [parsepipe].
  destruct (IH s ts' f L (stops_pipe_atom _ Hst) ltac:(lia)) as (cw & s1 & -> & Ec & L1). cbn [pbind].
  rewrite peek_head, L1, (stops_pipe_bar _ Hst) by done. exists cw, (skip_space s1). by rewrite skip_space_lex.
Qed.

Lemma complete_pipe_more ts c ts2 c2 :
  complete parseexec F_atom 2 ts c -> complete parsepipe F_pipe 3 ts2 c2 ->
  complete parsepipe F_pipe 3 (ts ++ TSym c_pipe :: ts2) (PIPE c c2).
Proof.
  intros IH IH2 s ts' f L Hst Hf. rewrite length_app in Hf. cbn [length] in Hf. destruct f as [|f]; [lia|]. cbn [parsepipe].
  rewrite <- app_assoc in L. destruct (IH s _ f L) as (cw & s1 & -> & Ec & L1); [done|lia|]. cbn [pbind].
  rewrite peek_head, L1 by done. cbn [app head_in]. change (among [c_pipe] (sym_char c_pipe)) with true. cbn iota.
  destruct (gettoken_sym s1 c_pipe _ L1) as (q & e & s2 & -> & L2).
  destruct (IH2 s2 ts' f L2 Hst ltac:(lia)) as (cw2 & rest & -> & Ec2 & Lr). cbn [pbind].
  eexists _, rest. split; [reflexivity|]. cbn [cmd_map]. by rewrite Ec, Ec2.
Qed.

Lemma parse_complete :
  (forall ts c, d_line ts c -> complete parseline F_line 4 ts c) /\
  (forall ts c, d_pipe ts c -> complete parsepipe F_pipe 3 ts c) /\
  (forall ts c, d_atom ts c -> complete parseexec F_atom 2 ts c).
Proof.
  apply derivation_ind; intros; auto using complete_line_end, complete_line_list, complete_pipe_one, complete_pipe_more,
    complete_atom_simple, complete_atom_block.
Qed.

(** ** Parsing ends *)

Lemma parseredirs_ends f : forall c s, (length s < f)%nat -> parseredirs c s f <> NoFuel.
Proof.
  induction f as [|f IH]; intros c s Hf; [lia|]. cbn [parseredirs]. destruct (peek s [c_lt; c_gt]) as [b s1] eqn:Hp. destruct b; [|done].
  destruct (gettoken s1) as [[[tok q0] e0] s2] eqn:G1. destruct (gettoken s2) as [[[t q] e] s3] eqn:G2.
  destruct (t =c c_word) eqn:Et; [|done]. apply eqb_true in Et as ->. cbn [negb].
  destruct (peek_gettoken s _ s1 tok q0 e0 s2 Hp G1 eq_refl) as (_ & _ & _ & Hl1).
  destruct (gettoken_word s s2 q e s3 G2) as (_ & _ & Hl2 & _). apply IH. lia.
Qed.

Lemma parseargs_ends f : forall a rs0 s, (length s < f)%nat -> parseargs (wrap (EXEC a) rs0) (Z.of_nat (length a)) s f <> NoFuel.
Proof.
  induction f as [|f IH]; intros a rs0 s Hf; [lia|]. cbn [parseargs].
  destruct (peek s [c_pipe; c_rpar; c_amp; c_semi]) as [b s1] eqn:Hp. destruct b; [done|].
  apply peek_false in Hp as ->. pose proof (suffix_length _ _ (skip_space_suffix s)).
  destruct (gettoken (skip_space s)) as [[[tok q] e] s2] eqn:G. destruct (tok =c Byte.x00); [done|].
  destruct (tok =c c_word) eqn:Et; [|done]. apply eqb_true in Et as ->. cbn [negb].
  destruct (Z.geb_spec (Z.of_nat (length a) + 1) MAXARGS); [done|]. rewrite add_arg_wrap. cbn [add_arg].
  destruct (gettoken_word s _ q e s2 G) as (_ & _ & Hl2 & _).
  destruct (parseredirs _ s2 f) as [ret s3| |] eqn:Er; [|done|by apply parseredirs_ends in Er; [|lia]]. cbn [pbind].
  destruct (parseredirs_sound s2 f _ _ _ _ Er) as (_ & rs1 & -> & _ & _ & Hs3 & _); [done|]. apply suffix_length in Hs3.
  rewrite <- wrap_app. replace (Z.of_nat (length a) + 1) with (Z.of_nat (length (a ++ [(q, e)]))) by (rewrite length_app; simpl; lia).
  apply IH. lia.
Qed.

Lemma parseback_ends f : forall c s, (length s < f)%nat -> parseback c s f <> NoFuel.
Proof.
  induction f as [|f IH]; intros c s Hf; [lia|]. cbn [parseback]. destruct (peek s [c_amp]) as [b s1] eqn:Hp. destruct b; [|done].
  destruct (gettoken s1) as [[[r q] e] s2] eqn:G. destruct (peek_one s c_amp s1 r q e s2 Hp G eq_refl eq_refl) as (_ & _ & Hl). apply IH. lia.
Qed.

Lemma parse_ends f :
  (forall s, (4 * length s + 4 <= f)%nat -> parseline s f <> NoFuel) /\
  (forall s, (4 * length s + 3 <= f)%nat -> parsepipe s f <> NoFuel) /\
  (forall s, (4 * length s + 2 <= f)%nat -> parseexec s f <> NoFuel) /\
  (forall s, (4 * length s + 1 <= f)%nat -> parseblock s f <> NoFuel).
Proof.
  induction f as [|f (IHl & IHp & IHe & IHb)]; [split_and!; intros; lia|]. split_and!; intros s Hf.
  - cbn [parseline]. destruct (parsepipe s f) as [c1 s1| |] eqn:E1; [|done|by apply IHp in E1; [|lia]]. cbn [pbind].
    destruct (proj1 (proj2 (parse_sound s f)) s c1 s1 E1) as [S1 _]; [done|]. apply suffix_length in S1.
    destruct (parseback c1 s1 f) as [c2 s2| |] eqn:E2; [|done|by apply parseback_ends in E2; [|lia]]. cbn [pbind].
    destruct (parseback_sound _ _ _ _ _ E2) as (_ & _ & _ & S2). apply suffix_length in S2.
    destruct (peek s2 [c_semi]) as [b s3] eqn:Hp. destruct b; [|done].
    destruct (gettoken s3) as [[[r q] e] s4] eqn:G. destruct (peek_one s2 c_semi s3 r q e s4 Hp G eq_refl eq_refl) as (_ & _ & Hl).
    destruct (parseline s4 f) as [c3 s5| |] eqn:E3; [done|done|by apply IHl in E3; [|lia]].
  - cbn [parsepipe]. destruct (parseexec s f) as [c1 s1| |] eqn:E1; [|done|by apply IHe in E1; [|lia]]. cbn [pbind].
    destruct (proj1 (proj2 (proj2 (parse_sound s f))) s c1 s1 E1) as [S1 _]; [done|]. apply suffix_length in S1.
    destruct (peek s1 [c_pipe]) as [b s3] eqn:Hp. destruct b; [|done].
    destruct (gettoken s3) as [[[r q] e] s4] eqn:G. destruct (peek_one s1 c_pipe s3 r q e s4 Hp G eq_refl eq_refl) as (_ & _ & Hl).
    destruct (parsepipe s4 f) as [c3 s5| |] eqn:E3; [done|done|by apply IHp in E3; [|lia]].
  - cbn [parseexec]. destruct (peek s [c_lpar]) as [b s1] eqn:Hp. assert (s1 = skip_space s) as -> by (by injection Hp).
    pose proof (suffix_length _ _ (skip_space_suffix s)). destruct b; [apply IHb; lia|].
    destruct (parseredirs (EXEC []) (skip_space s) f) as [c1 s1| |] eqn:E1; [|done|by apply parseredirs_ends in E1; [|lia]]. cbn [pbind].
    destruct (parseredirs_sound (skip_space s) f _ _ _ _ E1) as (_ & rs1 & -> & _ & _ & S1 & _); [done|]. apply suffix_length in S1.
    apply (parseargs_ends f [] rs1 s1). lia.
  - cbn [parseblock]. destruct (peek s [c_lpar]) as [b s1] eqn:Hp. destruct b; [|done]. cbn [negb].
    destruct (gettoken s1) as [[[r q] e] s2] eqn:G. destruct (peek_one s c_lpar s1 r q e s2 Hp G eq_refl eq_refl) as (_ & _ & Hl).
    destruct (parseline s2 f) as [c1 s3| |] eqn:E1; [|done|by apply IHl in E1; [|lia]]. cbn [pbind].
    destruct (proj1 (parse_sound s2 f) s2 c1 s3 E1) as [S3 _]; [done|]. apply suffix_length in S3.
    destruct (peek s3 [c_rpar]) as [b s4] eqn:Hp2. destruct b; [|done]. cbn [negb].
    destruct (gettoken s4) as [[[r' q'] e'] s5] eqn:G2. destruct (peek_one s3 c_rpar s4 r' q' e' s5 Hp2 G2 eq_refl eq_refl) as (_ & _ & Hl2).
    apply parseredirs_ends. lia.
Qed.

Lemma lex_length l : forall w, (length (lex w l) <= length l + length (flush w))%nat.
Proof.
  assert (forall w, length (flush w) <= 1)%nat as Hf by (by intros []; simpl; lia).
  induction l as [l IH] using (induction_ltof1 _ (@length byte)). unfold ltof in IH. intros w. destruct l as [|c l]; [done|]. cbn [lex].
  destruct (among whitespace c).
  { rewrite length_app. specialize (IH l ltac:(simpl; lia) []). simpl in *. lia. }
  destruct (c =c c_gt).
  { rewrite length_app. destruct l as [|d l]; [simpl; lia|]. destruct (d =c c_gt).
    - specialize (IH l ltac:(simpl; lia) []). simpl in *. lia.
    - specialize (IH (d :: l) ltac:(simpl; lia) []). cbn [length flush] in *. lia. }
  destruct (among symbols c).
  { rewrite length_app. specialize (IH l ltac:(simpl; lia) []). simpl in *. lia. }
  specialize (IH l ltac:(simpl; lia) (w ++ [c])). pose proof (Hf (w ++ [c])). cbn [length]. lia.
Qed.

(** ** The words after parsing *)

Definition put_nuls (es : nat) (ends : list ptr) (buf : list byte) : list byte :=
  fold_left (fun buf e => put_nul es e buf) ends buf.

Lemma put_nuls_app es e1 e2 buf : put_nuls es (e1 ++ e2) buf = put_nuls es e2 (put_nuls es e1 buf).
Proof. apply fold_left_app. Qed.

Lemma nulterminate_words es c buf : nulterminate es c buf = put_nuls es (map snd (words c)) buf.
Proof.
  revert buf. induction c as [argv|c IH f m d|l IHl r IHr|l IHl r IHr|c IH]; intros buf; cbn [nulterminate words].
  - unfold put_nuls. revert buf. induction argv as [|w argv IH]; intros buf; [done|]. apply IH.
  - by rewrite IH, map_app, put_nuls_app.
  - by rewrite IHl, IHr, map_app, put_nuls_app.
  - by rewrite IHl, IHr, map_app, put_nuls_app.
  - apply IH.
Qed.

Lemma put_nuls_keep es ends buf i b :
  buf !! i = Some b -> (forall e, e ∈ ends -> offset es e <> i) -> put_nuls es ends buf !! i = Some b.
Proof.
  revert buf. induction ends as [|e ends IH]; intros buf Hb He; [done|]. apply IH.
  - unfold put_nul. rewrite list_lookup_insert_ne; [done|]. apply He. by left.
  - intros e' He'. apply He. by right.
Qed.

Lemma put_nuls_zero es ends buf i :
  buf !! i = Some Byte.x00 -> put_nuls es ends buf !! i = Some Byte.x00.
Proof.
  revert buf. induction ends as [|e ends IH]; intros buf Hb; [done|]. apply IH. unfold put_nul.
  destruct (decide (offset es e = i)) as [<-|Hne]; [|by rewrite list_lookup_insert_ne].
  apply list_lookup_insert_eq. by eapply lookup_lt_Some.
Qed.

Lemma put_nuls_hit es ends buf e :
  e ∈ ends -> (offset es e < length buf)%nat -> put_nuls es ends buf !! offset es e = Some Byte.x00.
Proof.
  revert buf. induction ends as [|e' ends IH]; intros buf; [by intros ?%elem_of_nil|]. intros [<-|He]%elem_of_cons Hl.
  - apply (put_nuls_zero es ends (put_nul es e buf)). by apply list_lookup_insert_eq.
  - apply (IH (put_nul es e' buf)); [done|]. unfold put_nul. by rewrite length_insert.
Qed.

Lemma cstr_read l t :
  (forall i b, t !! i = Some b -> l !! i = Some b /\ b <> Byte.x00) -> l !! length t = Some Byte.x00 -> cstr l = t.
Proof.
  revert l. induction t as [|b t IH]; intros l Ht Hz.
  - destruct l as [|c l]; [done|]. injection Hz as ->. done.
  - destruct (Ht 0%nat b eq_refl) as [H0 Hb]. destruct l as [|c l]; [done|]. injection H0 as ->. cbn [cstr].
    apply eqb_false in Hb. rewrite Hb. f_equal. apply IH; [|done]. intros i b' Hi. apply (Ht (S i) b' Hi).
Qed.

(** A position of the line holds a character of a word or not. *)
Lemma suffix_lookup s q i : q `suffix_of` s -> s !! (offset (length s) q + i)%nat = q !! i.
Proof.
  intros [k ->]. unfold offset. rewrite length_app. replace (length k + length q - length q + i)%nat with (length k + i)%nat by lia.
  by rewrite lookup_app_r, Nat.add_comm, Nat.add_sub by lia.
Qed.

Lemma words_read s c w :
  ~ In Byte.x00 s -> Forall (word_ok s) (words c) -> w ∈ words c ->
  string_at (nulterminate (length s) c (s ++ [Byte.x00])) (length s) (fst w) = text_of w.
Proof.
  intros Hnul Hok Hw. rewrite nulterminate_words. rewrite Forall_forall in Hok.
  destruct w as [q e]. destruct (Hok _ Hw) as [Hq (t & Eq & Ht & Ft & _)]. cbn [fst snd] in *. subst q.
  rewrite text_of_app. unfold string_at. pose proof (suffix_length _ _ Hq) as Hl. rewrite length_app in Hl.
  apply cstr_read.
  - intros i b Hi. pose proof (lookup_lt_Some _ _ _ Hi). rewrite lookup_drop.
    assert (s !! (offset (length s) (t ++ e) + i)%nat = Some b) as Hs by (rewrite (suffix_lookup s (t ++ e) i Hq); by apply lookup_app_l_Some).
    assert (word_char b = true) as Hb by (rewrite Forall_lookup in Ft; by apply (Ft i)).
    split.
    + apply put_nuls_keep; [by apply lookup_app_l_Some|]. intros e' He' Ho. apply list_elem_of_fmap in He' as ([q' e2] & -> & Hw').
      destruct (Hok _ Hw') as [Hq' (t' & Eq' & _ & _ & Hb')]. cbn [fst snd] in *. subst q'.
      assert (e2 `suffix_of` s) as He2 by (etrans; [|exact Hq']; by exists t').
      pose proof (suffix_lookup s e2 0 He2) as H0. rewrite Nat.add_0_r, Ho, Hs in H0. destruct e2 as [|x e2]; [done|]. injection H0 as <-. congruence.
    + intros ->. apply Hnul. apply list_elem_of_In. by eapply list_elem_of_lookup_2.
  - rewrite lookup_drop. assert (offset (length s) (t ++ e) + length t = offset (length s) e)%nat as ->.
    { unfold offset. rewrite length_app. lia. }
    apply put_nuls_hit; [apply list_elem_of_fmap; exists (t ++ e, e); done|]. unfold offset. rewrite length_app. simpl. lia.
Qed.

Lemma cmd_map_ext {A B} (f g : A -> B) c : (forall w, w ∈ words c -> f w = g w) -> cmd_map f c = cmd_map g c.
Proof.
  induction c as [argv|c IH x m d|l IHl r IHr|l IHl r IHr|c IH]; cbn [cmd_map words]; intros H.
  - f_equal. apply map_ext_in. intros w Hw. apply H. by apply list_elem_of_In.
  - rewrite IH, (H x); [done| |]; intros; try apply H; apply elem_of_app; [right; left|by left].
  - rewrite IHl, IHr; [done| |]; intros; apply H; apply elem_of_app; [by right|by left].
  - rewrite IHl, IHr; [done| |]; intros; apply H; apply elem_of_app; [by right|by left].
  - by rewrite IH.
Qed.

(** [C33] The parser decides the grammar: for a line without NULs, [parsecmd]
    ends; it returns a command exactly when the tokens of the line derive one,
    and then it is that command, its words read from the line as the C strings
    that [nulterminate] left there. *)
Theorem parsecmd_decides s :
  ~ In Byte.x00 s ->
  let r := parsecmd s (4 * length s + 4) in
  let strings := fun (c : cmd word) buf => cmd_map (fun w => string_at buf (length s) (fst w)) c in
  r <> NoFuel /\
  (forall c buf rest, r = Parsed (c, buf) rest -> d_line (lex [] s) (strings c buf)) /\
  (forall c0, d_line (lex [] s) c0 -> exists c buf rest, r = Parsed (c, buf) rest /\ strings c buf = c0).
Proof.
  intros Hnul r strings. unfold r, parsecmd.
  assert (forall c rest, parseline s (4 * length s + 4) = Parsed c rest ->
    strings c (nulterminate (length s) c (s ++ [Byte.x00])) = cmd_map text_of c /\
    exists ts, lex [] s = ts ++ lex [] rest /\ d_line ts (cmd_map text_of c)) as Hsound.
  { intros c rest E. destruct (proj1 (parse_sound s _) s c rest E) as (_ & W & D); [done|]. split; [|done].
    apply cmd_map_ext. intros w Hw. by apply words_read. }
  split; [|split].
  - destruct (parseline s _) as [c rest| |] eqn:E; [|done|by apply (proj1 (parse_ends _)) in E]. cbn [pbind peek]. by destruct (skip_space rest).
  - intros c buf rest. destruct (parseline s _) as [c1 rest1| |] eqn:E; try done. cbn [pbind]. unfold peek.
    destruct (skip_space rest1) eqn:Er; [|done]. intros [= <- <- <-].
    destruct (Hsound _ _ eq_refl) as (-> & ts & L & D). rewrite <- (skip_space_lex rest1), Er, app_nil_r in L. by rewrite L.
  - intros c0 D. pose proof (lex_length s []) as Hlen. simpl in Hlen.
    destruct (proj1 parse_complete _ _ D s [] (4 * length s + 4)%nat) as (c & rest & E & Ec & Lr); [by rewrite app_nil_r|done|lia|].
    destruct (Hsound c rest E) as [Hst _]. rewrite E. cbn [pbind]. unfold peek. rewrite (skip_space_nil _ Lr).
    eexists c, _, []. split; [reflexivity|]. by rewrite Hst.
Qed.

(** The line "a<b;c&". *)
Definition demo_line : list byte := [Byte.x61; c_lt; Byte.x62; c_semi; Byte.x63; c_amp].

Lemma parsecmd_decides_witness :
  exists c buf, parsecmd demo_line 28 = Parsed (c, buf) [] /\
    cmd_map (fun w => string_at buf 6 (fst w)) c = LIST (REDIR (EXEC [[Byte.x61]]) [Byte.x62] O_RDONLY 0) (BACK (EXEC [[Byte.x63]])).
Proof.
  destruct (parsecmd_decides demo_line) as (_ & _ & H).
  - intros H. repeat (destruct H as [H|H]; [discriminate H|]). exact H.
  - destruct (H (LIST (REDIR (EXEC [[Byte.x61]]) [Byte.x62] O_RDONLY 0) (BACK (EXEC [[Byte.x63]])))) as (c & buf & rest & E & Es).
    + refine (dl_list [TWord [Byte.x61]; TSym c_lt; TWord [Byte.x62]] (REDIR (EXEC [[Byte.x61]]) [Byte.x62] O_RDONLY 0) 0 [TWord [Byte.x63]; TSym c_amp] (BACK (EXEC [[Byte.x63]])) _ _).
      * apply dp_one. refine (da_simple _ [[Byte.x61]] [([Byte.x62], O_RDONLY, 0)] _ _); [|reflexivity].
        apply ds_word, (ds_redir c_lt [Byte.x62]); [reflexivity|constructor].
      * refine (dl_end [TWord [Byte.x63]] (EXEC [[Byte.x63]]) 1 _). apply dp_one.
        refine (da_simple _ [[Byte.x63]] [] _ _); [|reflexivity]. apply ds_word. constructor.
    + exists c, buf. split; [|exact Es]. change (parsecmd demo_line 28 = Parsed (c, buf) rest) in E.
      assert (rest = []) as ->; [|exact E]. vm_compute in E. injection E as _ _ <-. reflexivity.
Defined.
