(* ===== verification/ShRun.v ===== *)
(** * Running commands connects them as written

    The file descriptors of the processes a command line starts: an
    interpretation of the system calls of [runcmd] on descriptor tables, and
    the proof that every program is started with the descriptors the command
    says, and no other. *)

From S2P Require Import Prelude CMem Sh ShParse.

(** What a descriptor refers to; a pipe is named by where its command stands
    in the line. *)
Inductive object := Inherited (n : nat) | File (path : list byte) (mode : Z) | ReadEnd (id : list bool) | WriteEnd (id : list bool).

Notation fdtable := (list (option object)).

(** The lowest free descriptor, as [fdalloc] of the kernel gives it. *)
Fixpoint free_fd (t : fdtable) : option nat :=
  match t with
  | [] => None
  | None :: _ => Some 0%nat
  | Some _ :: t' => option_map S (free_fd t')
  end.

Definition close_fd (fd : Z) (t : fdtable) : fdtable := <[Z.to_nat fd := None]> t.

Definition dup_fd (fd : Z) (t : fdtable) : fdtable :=
  match t !! Z.to_nat fd, free_fd t with
  | Some (Some o), Some n => <[n := Some o]> t
  | _, _ => t
  end.

Section Run.

(** Which files can be opened. *)
Context (can_open : list byte -> Z -> bool).

(** The programs a process and its children start, with their descriptors.
    [id] is the place in the command line; forks succeed. *)
Fixpoint started (p : prog) (id : list bool) (t : fdtable) : list (list (list byte) * fdtable) :=
  match p with
  | Exit _ => []
  | Exec argv _ => [(argv, t)]
  | Close fd k => started k id (close_fd fd t)
  | Open file mode k =>
      match free_fd t with
      | Some n => if can_open file mode then started (k (Z.of_nat n)) id (<[n := Some (File file mode)]> t) else started (k (-1)) id t
      | None => started (k (-1)) id t
      end
  | Dup fd k => started k id (dup_fd fd t)
  | Pipe k =>
      match free_fd t with
      | Some r =>
          match free_fd (<[r := Some (ReadEnd id)]> t) with
          | Some w => started (k (Some (Z.of_nat r, Z.of_nat w))) id (<[w := Some (WriteEnd id)]> (<[r := Some (ReadEnd id)]> t))
          | None => started (k None) id t
          end
      | None => started (k None) id t
      end
  | Fork child parent _ => started child (id ++ [false]) t ++ started parent (id ++ [true]) t
  | Wait k => started k id t
  | Chdir _ k => started (k 0) id t
  | Print _ _ _ k => started k id t
  end.

(** What the command line says. *)
Fixpoint meant (c : cmd (list byte)) (id : list bool) (t : fdtable) : list (list (list byte) * fdtable) :=
  match c with
  | EXEC [] => []
  | EXEC argv => [(argv, t)]
  | REDIR c' file mode fd => if can_open file mode then meant c' id (<[Z.to_nat fd := Some (File file mode)]> t) else []
  | LIST l r => meant l (id ++ [false]) t ++ meant r (id ++ [true]) t
  | PIPE l r =>
      meant l (id ++ [false]) (<[1%nat := Some (WriteEnd id)]> t) ++
      meant r (id ++ [true] ++ [false]) (<[0%nat := Some (ReadEnd id)]> t)
  | BACK c' => meant c' (id ++ [false]) t
  end.

(** Redirections are of the standard input and output, as the parser makes
    them. *)
Fixpoint std_redirs {W} (c : cmd W) : Prop :=
  match c with
  | EXEC _ => True
  | REDIR c' _ _ fd => (fd = 0 \/ fd = 1) /\ std_redirs c'
  | LIST l r | PIPE l r => std_redirs l /\ std_redirs r
  | BACK c' => std_redirs c'
  end.

Lemma wrap_std {W} (c : cmd W) rs : Forall (fun r => snd r = 0 \/ snd r = 1) rs -> std_redirs c -> std_redirs (wrap c rs).
Proof. intros H. revert c. induction H as [|[[f m] d] rs Hr _ IH]; intros c Hc; [done|]. by apply IH. Qed.

Lemma redir_std c f r : redir_of c f = Some r -> snd r = 0 \/ snd r = 1.
Proof. unfold redir_of. repeat case_match; intros [= <-]; auto. Qed.

(** What the parser returns has only such redirections. *)
Lemma derived_std :
  (forall ts c, d_line ts c -> std_redirs c) /\ (forall ts c, d_pipe ts c -> std_redirs c) /\ (forall ts c, d_atom ts c -> std_redirs c).
Proof.
  assert (forall n (c : cmd (list byte)), std_redirs c -> std_redirs (backs n c)) as Hb by (induction n; simpl; auto).
  apply derivation_ind; simpl; intros; auto.
  - apply wrap_std; [|done]. clear H0. induction H as [|w ts ws rs _ IH|x f r ts ws rs Hr _ IH]; [constructor|done|constructor; [by eapply redir_std|done]].
  - apply wrap_std; [|done]. induction H1 as [|x f r ts' rs Hr _ IH]; [constructor|constructor; [by eapply redir_std|done]].
Qed.

(** The standard descriptors are open and there is room for a pipe. *)
Record std_table (t : fdtable) : Prop := {
  st_std i : (i < 3)%nat -> exists o, t !! i = Some (Some o);
  st_room : exists r w, (r < w)%nat /\ t !! r = Some None /\ t !! w = Some None /\
    forall i, (i < w)%nat -> i <> r -> exists o, t !! i = Some (Some o);
}.

Lemma free_fd_spec t n : t !! n = Some None -> (forall i, (i < n)%nat -> exists o, t !! i = Some (Some o)) -> free_fd t = Some n.
Proof.
  revert t. induction n as [|n IH]; intros t Hn Hl; destruct t as [|x t]; try done; simpl in *.
  - by injection Hn as ->.
  - destruct (Hl 0%nat ltac:(lia)) as [o Ho]. simpl in Ho. injection Ho as ->. rewrite IH; [done|done|].
    intros i Hi. by destruct (Hl (S i) ltac:(lia)) as [o' ?]; exists o'.
Qed.

Lemma std_table_insert t i o : std_table t -> (i < 3)%nat -> std_table (<[i := Some o]> t).
Proof.
  intros [Hs (r & w & Hrw & Hr & Hw & Hl)] Hi.
  assert (i < length t)%nat as Hlen by (destruct (Hs i Hi) as [o' Ho]; by eapply lookup_lt_Some).
  assert (r <> i /\ w <> i) as [Nr Nw].
  { split; intros ->; destruct (Hs i Hi) as [o' Ho]; congruence. }
  split.
  - intros j Hj. destruct (decide (j = i)) as [->|Hne]; [exists o; by apply list_lookup_insert_eq|]. destruct (Hs j Hj) as [o' Ho]. exists o'. by rewrite list_lookup_insert_ne.
  - exists r, w. split_and!; [done|by rewrite list_lookup_insert_ne|by rewrite list_lookup_insert_ne|]. intros j Hj Hjr.
    destruct (decide (j = i)) as [->|Hne]; [exists o; by apply list_lookup_insert_eq|]. destruct (Hl j Hj Hjr) as [o' Ho]. exists o'. by rewrite list_lookup_insert_ne.
Qed.

(** Closing a standard descriptor makes it the lowest free one. *)
Lemma free_std t i : std_table t -> (i < 2)%nat -> free_fd (<[i := None]> t) = Some i.
Proof.
  intros Ht Hi. assert (i < length t)%nat as Hlen by (destruct (st_std _ Ht i ltac:(lia)) as [o Ho]; by eapply lookup_lt_Some).
  apply free_fd_spec; [by apply list_lookup_insert_eq|]. intros j Hj. destruct (st_std _ Ht j ltac:(lia)) as [o Ho]. exists o. by rewrite list_lookup_insert_ne by lia.
Qed.

(** The table of a process of a pipeline, after it has moved its end of the
    pipe and closed the rest. *)
Lemma pipe_child t r w i x o or ow :
  std_table t -> (i < 2)%nat -> (r < w)%nat -> t !! r = Some None -> t !! w = Some None ->
  x = r /\ o = or \/ x = w /\ o = ow ->
  let t1 := <[w := Some ow]> (<[r := Some or]> t) in
  close_fd (Z.of_nat w) (close_fd (Z.of_nat r) (dup_fd (Z.of_nat x) (close_fd (Z.of_nat i) t1))) = <[i := Some o]> t.
Proof.
  intros Ht Hi Hrw Hr Hw Hx t1. unfold close_fd, dup_fd. rewrite !Nat2Z.id.
  assert (forall j, (j < 3)%nat -> j <> r /\ j <> w) as Hstd.
  { intros j Hj. destruct (st_std _ Ht j Hj) as [o' Ho]. split; intros ->; congruence. }
  destruct (Hstd i ltac:(lia)) as [Nr Nw]. pose proof (lookup_lt_Some _ _ _ Hr). pose proof (lookup_lt_Some _ _ _ Hw).
  assert (i < length t)%nat as Hlen by (destruct (st_std _ Ht i ltac:(lia)) as [o' Ho]; by eapply lookup_lt_Some).
  assert (<[i := None]> t1 !! x = Some (Some o)) as ->.
  { unfold t1. destruct Hx as [[-> ->]|[-> ->]]; rewrite list_lookup_insert_ne by done.
    - rewrite list_lookup_insert_ne by lia. by apply list_lookup_insert_eq.
    - apply list_lookup_insert_eq. by rewrite length_insert. }
  assert (free_fd (<[i := None]> t1) = Some i) as ->.
  { apply free_fd_spec; [apply list_lookup_insert_eq; unfold t1; by rewrite !length_insert|]. intros j Hj.
    destruct (st_std _ Ht j ltac:(lia)) as [o' Ho]. exists o'. destruct (Hstd j ltac:(lia)). unfold t1.
    by rewrite !list_lookup_insert_ne by (done || lia). }
  unfold t1. apply list_eq. intros j. rewrite !list_lookup_insert, !length_insert.
  repeat case_decide; subst; try done; lia || naive_solver.
Qed.

Lemma room_fds t : std_table t -> exists r w, (r < w)%nat /\ t !! r = Some None /\ t !! w = Some None /\
  free_fd t = Some r /\ forall or, free_fd (<[r := Some or]> t) = Some w.
Proof.
  intros [_ (r & w & Hrw & Hr & Hw & Hl)]. pose proof (lookup_lt_Some _ _ _ Hr). exists r, w. split_and!; try done.
  - apply free_fd_spec; [done|]. intros i Hi. apply Hl; lia.
  - intros or. apply free_fd_spec; [by rewrite list_lookup_insert_ne by lia|]. intros i Hi.
    destruct (decide (i = r)) as [->|Hne]; [exists or; by apply list_lookup_insert_eq|].
    destruct (Hl i Hi Hne) as [o Ho]. exists o. by rewrite list_lookup_insert_ne.
Qed.

(** [C34] Every program a command starts gets the descriptors the command says:
    a redirection replaces the standard input or output by the file, a pipe
    connects the output of its left side to the input of its right side, and
    nothing else differs from the descriptors of the shell; in particular no
    program keeps a pipe end open that is not its own. *)
Theorem runcmd_connects c : forall id t,
  std_table t -> std_redirs c -> started (runcmd c) id t = meant c id t.
Proof.
  induction c as [argv|c IH f m fd|l IHl r IHr|l IHl r IHr|c IH]; intros id t Ht Hc; cbn [runcmd meant].
  - by destruct argv.
  - destruct Hc as [Hfd Hc]. cbn [started]. unfold close_fd.
    assert (exists i, Z.to_nat fd = i /\ (i < 2)%nat) as (i & -> & Hi) by (destruct Hfd as [-> | ->]; eexists; split; [done|lia|done|lia]).
    rewrite free_std by done. destruct (can_open f m); [|done]. rewrite list_insert_insert_eq.
    destruct (Z.ltb_spec (Z.of_nat i) 0); [lia|]. apply IH; [|done]. apply std_table_insert; [done|lia].
  - destruct Hc as [Hl Hr]. cbn [started]. destruct (room_fds t Ht) as (r0 & w0 & Hrw & H1 & H2 & -> & Hf). rewrite Hf.
    unfold fork1. cbn [started]. rewrite app_nil_r. rewrite <- app_assoc.
    change 1 with (Z.of_nat 1). change 0 with (Z.of_nat 0).
    rewrite (pipe_child t r0 w0 1 w0 (WriteEnd id)), (pipe_child t r0 w0 0 r0 (ReadEnd id)) by (try done; try lia; auto).
    rewrite IHl, IHr; try done; apply std_table_insert; (done || lia).
  - destruct Hc as [Hl Hr]. unfold fork1. cbn [started]. by rewrite IHl, IHr.
  - unfold fork1. cbn [started]. by rewrite app_nil_r, IH.
Qed.
End Run.

(** A shell with the console on its three descriptors runs "a | b >c". *)
Definition demo_fds : list (option object) := [Some (Inherited 0); Some (Inherited 0); Some (Inherited 0); None; None].

Lemma runcmd_connects_witness :
  started (fun _ _ => true) (runcmd (PIPE (EXEC [[Byte.x61]]) (REDIR (EXEC [[Byte.x62]]) [Byte.x63] 513 1))) [] demo_fds =
  [([[Byte.x61]], [Some (Inherited 0); Some (WriteEnd []); Some (Inherited 0); None; None]);
   ([[Byte.x62]], [Some (ReadEnd []); Some (File [Byte.x63] 513); Some (Inherited 0); None; None])].
Proof.
  rewrite (runcmd_connects (fun _ _ => true)).
  - reflexivity.
  - split.
    + intros i Hi. destruct i as [|[|[|i]]]; [eexists; reflexivity..|lia].
    + exists 3%nat, 4%nat. split_and!; [lia|reflexivity|reflexivity|]. intros i Hi Hne.
      destruct i as [|[|[|[|i]]]]; [eexists; reflexivity..|lia|lia].
  - split; [exact I|]. split; [right; reflexivity|exact I].
Defined.
