(* ===== verification/UserProgs.v ===== *)
(** * User programs as interaction trees: user/cat.c, wc.c, ls.c, echo.c,
    init.c, count.c, fibi.c, kill.c, ln.c, mkdir.c, rm.c, ps.c, suspend.c,
    resume.c, strace.c and zombie.c

    A program is a tree of system calls.  The answer to a call is its return
    value and the bytes the kernel stores through its pointer argument.
    [exit] does not return.  Some of these programs run for ever, so loops are
    [ITree.iter]; nothing is assumed of the answers. *)

From ITree Require Import ITree.
From S2P Require Import Prelude CMem Printf Ulib.

Inductive call :=
| Read (fd n : Z)
| Write (fd : Z) (l : list byte)
| Open (path : list byte) (mode : Z)
| Close (fd : Z)
| Fstat (fd : Z)
| Dup (fd : Z)
| Mknod (path : list byte) (major minor : Z)
| Mkdir (path : list byte)
| Unlink (path : list byte)
| Link (old new : list byte)
| Kill (pid : Z)
| Sleep (n : Z)
| Fork
| Exec (path : option (list byte)) (argv : list (list byte))
| Wait
| Ps
| Suspend (pid fd : Z)
| Resume (path : list byte)
| Traceon.

Definition answer : Type := Z * list byte.

Variant sysE : Type -> Type :=
| Sys (c : call) : sysE answer
| Exit (status : Z) : sysE void.

Notation prog := (itree sysE).
Notation "'let!' x := m 'in' k" := (ITree.bind m (fun x => k))
  (at level 200, x pattern, m at level 100, k at level 200, right associativity).

Definition sys (c : call) : prog answer := ITree.trigger (Sys c).
Definition exit_ {A} (n : Z) : prog A := let! v := ITree.trigger (Exit n) in match v : void with end.
(** A call whose answer is not used. *)
Definition do_ (c : call) : prog unit := let! _ := sys c in Ret tt.

(** [putc]: one [write] per character. *)
Fixpoint puts (fd : Z) (l : list Z) : prog unit :=
  match l with [] => Ret tt | c :: l' => let! _ := sys (Write fd [byte.of_Z c]) in puts fd l' end.
Definition formatted (fmt : string) (args : list parg) : list Z := vprintf (parg_str args) (codes fmt) (parg_word args) 0 false.
Definition fprintf_ (fd : Z) (fmt : string) (args : list parg) : prog unit := puts fd (formatted fmt args).
Definition printf_ (fmt : string) (args : list parg) : prog unit := fprintf_ 1 fmt args.
Definition newline : string := String (Ascii.ascii_of_nat 10) "".

Definition chars (s : string) : list byte := map byte.of_Z (codes s).

(** [atoi] of a NUL-terminated string. *)
Definition to_int (s : list byte) : Z := atoi (map byte.unsigned s).

(** A [read] into the buffer [buf]: what it returns, and the buffer then. *)
Definition read_into (fd : Z) (buf : list byte) (n : Z) : prog (Z * list byte) :=
  let! a := sys (Read fd n) in Ret (fst a, list_inserts 0 (snd a) buf).

Definition O_WRONLY_ : Z := 1.
Definition O_RDWR_ : Z := 2.
Definition O_CREATE_ : Z := 0x200.

(** The bodies of loops over the arguments. *)
Fixpoint for_args {S} (body : list byte -> S -> prog S) (args : list (list byte)) (s : S) : prog S :=
  match args with [] => Ret s | a :: args' => let! s := body a s in for_args body args' s end.

(** ** cat *)

Definition cat (fd : Z) (buf : list byte) : prog (list byte) :=
  ITree.iter (fun buf =>
    let! r := read_into fd buf 512 in
    let '(n, buf) := r in
    if n >? 0 then
      let! w := sys (Write 1 (take (Z.to_nat n) buf)) in
      if negb (fst w =? n) then let! _ := printf_ ("cat: write error" +:+ newline) [] in exit_ 1 else Ret (inl buf)
    else if n <? 0 then let! _ := printf_ ("cat: read error" +:+ newline) [] in exit_ 1
    else Ret (inr buf)) buf.

Definition zeros (n : nat) : list byte := replicate n Byte.x00.

Definition cat_main (argv : list (list byte)) : prog unit :=
  if (length argv <=? 1)%nat then let! _ := cat 0 (zeros 512) in exit_ 1 else
  let! _ := for_args (fun path buf =>
    let! r := sys (Open path 0) in
    if fst r <? 0 then let! _ := printf_ ("cat: cannot open %s" +:+ newline) [PStr path] in exit_ 1 else
    let! buf := cat (fst r) buf in
    let! _ := do_ (Close (fst r)) in
    Ret buf) (drop 1 argv) (zeros 512) in
  exit_ 0.

(** ** wc *)

Record counts := mk_counts { lines : Z; words : Z; bytes : Z; inword : bool }.

(** [strchr(" \r\t\n\v", c)] *)
Definition blanks : list byte := [Byte.x20; Byte.x0d; Byte.x09; Byte.x0a; Byte.x0b].
Definition is_blank (c : byte) : bool := existsb (Byte.eqb c) blanks.

(** The body of the inner loop. *)
Definition count_char (k : counts) (c : byte) : counts :=
  let l := if Byte.eqb c Byte.x0a then s32 (lines k + 1) else lines k in
  if is_blank c then mk_counts l (words k) (s32 (bytes k + 1)) false
  else mk_counts l (if inword k then words k else s32 (words k + 1)) (s32 (bytes k + 1)) true.

Definition wc (fd : Z) (name : list byte) (buf : list byte) : prog (list byte) :=
  let! r := ITree.iter (fun st =>
    let '(k, buf) := st in
    let! r := read_into fd buf 512 in
    let '(n, buf) := r in
    if n >? 0 then Ret (inl (foldl count_char k (take (Z.to_nat n) buf), buf))
    else Ret (inr (n, k, buf))) (mk_counts 0 0 0 false, buf) in
  let '(n, k, buf) := r in
  if n <? 0 then let! _ := printf_ ("wc: read error" +:+ newline) [] in exit_ 1 else
  let! _ := printf_ ("%d %d %d %s" +:+ newline) [PInt (lines k); PInt (words k); PInt (bytes k); PStr name] in
  Ret buf.

Definition wc_main (argv : list (list byte)) : prog unit :=
  if (length argv <=? 1)%nat then let! _ := wc 0 [] (zeros 512) in exit_ 0 else
  let! _ := for_args (fun path buf =>
    let! r := sys (Open path 0) in
    if fst r <? 0 then let! _ := printf_ ("wc: cannot open %s" +:+ newline) [PStr path] in exit_ 1 else
    let! buf := wc (fst r) path buf in
    let! _ := do_ (Close (fst r)) in
    Ret buf) (drop 1 argv) (zeros 512) in
  exit_ 0.

(** ** ls *)

Definition LS_DIRSIZ : nat := 14.
Definition c_slash : byte := Byte.x2f.

(** The loop that looks for the last slash, over the reversed path. *)
Fixpoint after_slash (rpath found : list byte) : list byte :=
  match rpath with
  | [] => found
  | c :: rpath' => if Byte.eqb c c_slash then found else after_slash rpath' (c :: found)
  end.

(** The static buffer is never longer than the name and its blanks. *)
Definition fmtname (path : list byte) : list byte :=
  let p := after_slash (rev path) [] in
  if (LS_DIRSIZ <=? length p)%nat then p else p ++ replicate (LS_DIRSIZ - length p) Byte.x20.

(** [struct stat] as the kernel stored it. *)
Definition st_ino (st : list byte) : Z := le_combine (take 4 (drop 4 st)).
Definition st_type (st : list byte) : Z := s16 (le_combine (take 2 (drop 8 st))).
Definition st_size (st : list byte) : Z := le_combine (take 8 (drop 16 st)).

(** [stat] of user/ulib.c *)
Definition stat_ (path : list byte) : prog (Z * list byte) :=
  let! r := sys (Open path 0) in
  if fst r <? 0 then Ret (-1, []) else
  let! st := sys (Fstat (fst r)) in
  let! _ := do_ (Close (fst r)) in
  Ret st.

Definition DE_SIZE : Z := 16.

(** The entries of a directory. *)
Definition ls_dir (path : list byte) (fd : Z) : prog unit :=
  ITree.iter (fun de : list byte =>
    let! r := read_into fd de DE_SIZE in
    let '(n, de) := r in
    if negb (n =? DE_SIZE) then Ret (inr tt) else
    if le_combine (take 2 de) =? 0 then Ret (inl de) else
    let buf := upto_nul (path ++ c_slash :: take LS_DIRSIZ (drop 2 de)) in
    let! st := stat_ buf in
    if fst st <? 0 then let! _ := printf_ ("ls: cannot stat %s" +:+ newline) [PStr buf] in Ret (inl de) else
    let! _ := printf_ ("%s %d %d %d" +:+ newline)
                [PStr (fmtname buf); PInt (st_type (snd st)); PInt (st_ino (snd st)); PInt (st_size (snd st))] in
    Ret (inl de)) (zeros 16).

Definition ls (path : list byte) : prog unit :=
  let! r := sys (Open path 0) in
  let fd := fst r in
  if fd <? 0 then fprintf_ 2 ("ls: cannot open %s" +:+ newline) [PStr path] else
  let! st := sys (Fstat fd) in
  if fst st <? 0 then let! _ := fprintf_ 2 ("ls: cannot stat %s" +:+ newline) [PStr path] in do_ (Close fd) else
  let type := st_type (snd st) in
  let! _ := (if type =? 2 then
               printf_ ("%s %d %d %l" +:+ newline) [PStr (fmtname path); PInt type; PInt (st_ino (snd st)); PInt (st_size (snd st))]
             else if type =? 1 then
               (if (512 <? length path + 1 + LS_DIRSIZ + 1)%nat then printf_ ("ls: path too long" +:+ newline) [] else ls_dir path fd)
             else Ret tt) in
  do_ (Close fd).

Definition ls_main (argv : list (list byte)) : prog unit :=
  if (length argv <? 2)%nat then let! _ := ls (chars ".") in exit_ 0 else
  let! _ := for_args (fun path s => let! _ := ls path in Ret s) (drop 1 argv) tt in
  exit_ 0.

(** ** echo, kill, ln, mkdir, rm *)

(** The loop of [echo] from the second argument on. *)
Fixpoint echo_args (args : list (list byte)) : prog unit :=
  match args with
  | [] => Ret tt
  | a :: args' =>
      let! _ := do_ (Write 1 a) in
      let! _ := do_ (Write 1 (match args' with [] => [Byte.x0a] | _ => [Byte.x20] end)) in
      echo_args args'
  end.
Definition echo_main (argv : list (list byte)) : prog unit := let! _ := echo_args (drop 1 argv) in exit_ 0.

Definition kill_main (argv : list (list byte)) : prog unit :=
  if (length argv <? 2)%nat then let! _ := fprintf_ 2 ("usage: kill pid..." +:+ newline) [] in exit_ 1 else
  let! _ := for_args (fun a s => let! _ := do_ (Kill (to_int a)) in Ret s) (drop 1 argv) tt in
  exit_ 0.

Definition ln_main (argv : list (list byte)) : prog unit :=
  match argv with
  | [_; old; new] =>
      let! r := sys (Link old new) in
      let! _ := (if fst r <? 0 then fprintf_ 2 ("link %s %s: failed" +:+ newline) [PStr old; PStr new] else Ret tt) in
      exit_ 0
  | _ => let! _ := fprintf_ 2 ("Usage: ln old new" +:+ newline) [] in exit_ 1
  end.

(** A call for each argument until one fails. *)
Fixpoint until_failure (c : list byte -> call) (msg : string) (args : list (list byte)) : prog unit :=
  match args with
  | [] => Ret tt
  | a :: args' =>
      let! r := sys (c a) in
      if fst r <? 0 then fprintf_ 2 msg [PStr a] else until_failure c msg args'
  end.

Definition mkdir_main (argv : list (list byte)) : prog unit :=
  if (length argv <? 2)%nat then let! _ := fprintf_ 2 ("Usage: mkdir files..." +:+ newline) [] in exit_ 1 else
  let! _ := until_failure Mkdir ("mkdir: %s failed to create" +:+ newline) (drop 1 argv) in exit_ 0.

Definition rm_main (argv : list (list byte)) : prog unit :=
  if (length argv <? 2)%nat then let! _ := fprintf_ 2 ("Usage: rm files..." +:+ newline) [] in exit_ 1 else
  let! _ := until_failure Unlink ("rm: %s failed to delete" +:+ newline) (drop 1 argv) in exit_ 0.

(** ** ps, suspend, resume, strace, zombie *)

(** [struct pinfo] *)
Definition pi_count (pi : list byte) : Z := le_combine (take 4 pi).
Definition pi_at (pi : list byte) (i : Z) : list byte := drop (Z.to_nat (4 + 24 * i)) pi.
Definition pd_pid (pd : list byte) : Z := s32 (le_combine (take 4 pd)).
Definition pd_sz (pd : list byte) : Z := le_combine (take 4 (drop 4 pd)).
Definition pd_name (pd : list byte) : list byte := upto_nul (drop 8 pd).

(** [i < pi.count] compares as unsigned; there are 64 entries. *)
Fixpoint ps_rows (pi : list byte) (i : Z) (left : nat) : prog unit :=
  match left with
  | O => Ret tt
  | S left' =>
      let pd := pi_at pi i in
      let! _ := printf_ ("%d | %d | %s" +:+ newline) [PInt (pd_pid pd); PInt (pd_sz pd); PStr (pd_name pd)] in
      ps_rows pi (i + 1) left'
  end.

(** [stack] is what [pi] holds before the call. *)
Definition ps_main (stack : list byte) : prog unit :=
  let! r := sys Ps in
  let pi := list_inserts 0 (snd r) stack in
  let! _ := printf_ ("PID  Size    Name" +:+ newline) [] in
  let! _ := ps_rows pi 0 (Z.to_nat (pi_count pi)) in
  exit_ 0.

Definition suspend_main (argv : list (list byte)) : prog unit :=
  match argv with
  | [_; a1; filename] =>
      let pid := to_int a1 in
      let! r := sys (Open filename (Z.lor O_CREATE_ O_WRONLY_)) in
      let fd := fst r in
      if fd <? 0 then let! _ := printf_ ("suspend cannot open %s. Exiting" +:+ newline) [PStr filename] in exit_ (-1) else
      let! rv := sys (Suspend pid fd) in
      let! _ := do_ (Close fd) in
      let! _ := (if fst rv <? 0 then
                   let! _ := printf_ ("suspend(%d, %s) failed" +:+ newline) [PInt pid; PStr filename] in do_ (Unlink filename)
                 else printf_ ("suspend(%d, %s) success" +:+ newline) [PInt pid; PStr filename]) in
      exit_ 0
  | _ => let! _ := printf_ ("invalid arguments" +:+ newline) [] in exit_ 0
  end.

Definition resume_main (argv : list (list byte)) : prog unit :=
  match argv with
  | [_; file] =>
      let! id := sys Fork in
      let! _ := (if fst id =? 0 then do_ (Resume file) else Ret tt) in
      exit_ 0
  | _ => let! _ := printf_ ("invalid arguments" +:+ newline) [] in exit_ 0
  end.

(** The array passed to [exec] has no null pointer at its end: [junk] are the
    strings the kernel finds behind the arguments. *)
Definition strace_main (argv junk : list (list byte)) : prog unit :=
  let! id := sys Fork in
  if fst id =? 0 then
    let! _ := do_ Traceon in
    let! _ := do_ (Exec (argv !! 1%nat) (drop 1 argv ++ junk)) in
    exit_ 0
  else
    let! _ := do_ Wait in
    exit_ 0.

Definition zombie_main : prog unit :=
  let! pid := sys Fork in
  let! _ := (if fst pid >? 0 then do_ (Sleep 5) else Ret tt) in
  exit_ 0.

(** ** Programs that run for ever: count, fibi, init *)

Definition count_main : prog unit :=
  ITree.iter (fun i =>
    let! _ := printf_ ("i = %d" +:+ newline) [PInt i] in
    let! _ := do_ (Sleep 30) in
    Ret (inl (s32 (i + 1)))) 0.

(** The loop of [fib_iter_c] from [i] to [n - 1]. *)
Fixpoint fib_loop (left : nat) (prev cur : Z) : Z :=
  match left with O => cur | S left' => fib_loop left' cur (s32 (prev + cur)) end.
Definition fib_iter_c (n : Z) : Z := if n =? 0 then 0 else fib_loop (Z.to_nat (n - 1)) 0 1.

Definition fibi_main (argv : list (list byte)) : prog unit :=
  let label := match argv with [_; l] => Some l | _ => None end in
  ITree.iter (fun i =>
    let rv := fib_iter_c i in
    let! _ := (match label with
               | Some l => printf_ ("[%s] fib_iter(%d) = %d" +:+ newline) [PStr l; PInt i; PInt rv]
               | None => printf_ ("fib_iter(%d) = %d" +:+ newline) [PInt i; PInt rv]
               end) in
    let! _ := do_ (Sleep 30) in
    Ret (inl (s32 (i + 1)))) 0.

(** [dname] with its third character replaced. *)
Definition vc_name (i : Z) : list byte := chars "vc" ++ [byte.of_Z (49 + i)].

Fixpoint create_vcs_loop (i : Z) (left : nat) : prog unit :=
  match left with
  | O => Ret tt
  | S left' =>
      let! r := sys (Open (vc_name i) O_RDWR_) in
      let! _ := (if fst r <? 0 then do_ (Mknod (vc_name i) (1 + i) 0) else do_ (Close (fst r))) in
      create_vcs_loop (i + 1) left'
  end.
Definition create_vcs : prog unit := create_vcs_loop 0 9.

(** [while ((wpid = wait(0)) >= 0 && wpid != pid)] *)
Definition wait_for (pid : Z) : prog unit :=
  ITree.iter (fun _ : unit =>
    let! r := sys Wait in
    if (fst r >=? 0) && negb (fst r =? pid) then Ret (inl tt) else Ret (inr tt)) tt.

Definition init_loop : prog unit :=
  ITree.iter (fun _ : unit =>
    let! _ := printf_ ("init: starting sh" +:+ newline) [] in
    let! r := sys Fork in
    let pid := fst r in
    if pid <? 0 then let! _ := printf_ ("init: fork failed" +:+ newline) [] in exit_ 1 else
    if pid =? 0 then
      let! _ := do_ (Exec (Some (chars "sh")) [chars "sh"]) in
      let! _ := printf_ ("init: exec sh failed" +:+ newline) [] in
      exit_ 1
    else
      let! _ := wait_for pid in
      Ret (inl tt)) tt.

Definition init_main : prog unit :=
  let! r := sys (Open (chars "console") O_RDWR_) in
  let! _ := (if fst r <? 0 then
               let! _ := do_ (Mknod (chars "console") 0 0) in
               do_ (Open (chars "console") O_RDWR_)
             else Ret tt) in
  let! _ := do_ (Dup 0) in
  let! _ := do_ (Dup 0) in
  let! _ := create_vcs in
  init_loop.
