(* ===== verification/UserSpec.v ===== *)
(** * What the user programs do: user/wc.c, cat.c, ls.c, fibi.c and init.c *)

From ITree Require Import ITree.
From S2P Require Import Prelude CMem Printf Ulib UserProgs.

(** ** Running a program

    The kernel answers a call depending on all that happened before. *)

Notation history := (list (call * answer)).

Inductive status (A : Type) := Running | Exited (n : Z) | Returned (a : A).
Arguments Running {A}. Arguments Exited {A}. Arguments Returned {A}.

Section Run.

Context (env : history -> call -> answer).

Definition did (h : history) (c : call) : history := h ++ [(c, env h c)].

Fixpoint run {A} (fuel : nat) (t : prog A) (h : history) : status A * history :=
  match fuel with
  | O => (Running, h)
  | S f =>
      match observe t with
      | RetF a => (Returned a, h)
      | TauF t' => run f t' h
      | VisF e k =>
          match e in sysE T return (T -> prog A) -> _ with
          | Sys c => fun k => run f (k (env h c)) (did h c)
          | Exit n => fun _ => (Exited n, h)
          end k
      end
  end.

(** The program returns [a], or exits, with the calls of the second history
    made. *)
Inductive gives {A} : prog A -> history -> A -> history -> Prop :=
| gives_ret t h a : observe t = RetF a -> gives t h a h
| gives_tau t t' h a h' : observe t = TauF t' -> gives t' h a h' -> gives t h a h'
| gives_sys t c k h a h' : observe t = VisF (Sys c) k -> gives (k (env h c)) (did h c) a h' -> gives t h a h'.

Inductive exits {A} : prog A -> history -> Z -> history -> Prop :=
| exits_now t n k h : observe t = VisF (Exit n) k -> exits t h n h
| exits_tau t t' h n h' : observe t = TauF t' -> exits t' h n h' -> exits t h n h'
| exits_sys t c k h n h' : observe t = VisF (Sys c) k -> exits (k (env h c)) (did h c) n h' -> exits t h n h'.

Lemma gives_run {A} (t : prog A) h a h' : gives t h a h' -> exists fuel, run fuel t h = (Returned a, h').
Proof.
  induction 1 as [t h a E|t t' h a h' E _ [f IH]|t c k h a h' E _ [f IH]].
  - exists 1%nat. cbn. by rewrite E.
  - exists (S f). cbn. by rewrite E.
  - exists (S f). cbn. by rewrite E.
Qed.

Lemma exits_run {A} (t : prog A) h n h' : exits t h n h' -> exists fuel, run fuel t h = (Exited n, h').
Proof.
  induction 1 as [t n k h E|t t' h n h' E _ [f IH]|t c k h n h' E _ [f IH]].
  - exists 1%nat. cbn. by rewrite E.
  - exists (S f). cbn. by rewrite E.
  - exists (S f). cbn. by rewrite E.
Qed.

Lemma observe_bind_ {A B} (m : prog A) (k : A -> prog B) :
  observe (ITree.bind m k) =
  match observe m with
  | RetF a => observe (k a)
  | TauF t => TauF (ITree.bind t k)
  | VisF e k' => VisF e (fun x => ITree.bind (k' x) k)
  end.
Proof. unfold observe. cbn. unfold observe. by destruct (_observe m). Qed.

(** *** Rules *)

Lemma gives_value {A} (a : A) h : gives (Ret a) h a h.
Proof. by constructor. Qed.

Lemma gives_same {A} (t t' : prog A) h a h' : observe t = observe t' -> gives t h a h' -> gives t' h a h'.
Proof. intros E H. inversion H; subst; rewrite E in *; [by apply gives_ret|by eapply gives_tau|by eapply gives_sys]. Qed.

Lemma exits_same {A} (t t' : prog A) h n h' : observe t = observe t' -> exits t h n h' -> exits t' h n h'.
Proof. intros E H. inversion H; subst; rewrite E in *; [by eapply exits_now|by eapply exits_tau|by eapply exits_sys]. Qed.

Lemma gives_bind {A B} (m : prog A) (k : A -> prog B) h a h1 b h2 :
  gives m h a h1 -> gives (k a) h1 b h2 -> gives (ITree.bind m k) h b h2.
Proof.
  intros H Hk. induction H as [t h a E|t t' h a h' E _ IH|t c k' h a h' E _ IH].
  - eapply gives_same; [|exact Hk]. by rewrite observe_bind_, E.
  - eapply gives_tau; [by rewrite observe_bind_, E|by apply IH].
  - eapply gives_sys; [by rewrite observe_bind_, E|by apply IH].
Qed.

Lemma exits_after {A B} (m : prog A) (k : A -> prog B) h a h1 n h2 :
  gives m h a h1 -> exits (k a) h1 n h2 -> exits (ITree.bind m k) h n h2.
Proof.
  intros H Hk. induction H as [t h a E|t t' h a h' E _ IH|t c k' h a h' E _ IH].
  - eapply exits_same; [|exact Hk]. by rewrite observe_bind_, E.
  - eapply exits_tau; [by rewrite observe_bind_, E|by apply IH].
  - eapply exits_sys; [by rewrite observe_bind_, E|by apply IH].
Qed.

Lemma exits_bind {A B} (m : prog A) (k : A -> prog B) h n h1 : exits m h n h1 -> exits (ITree.bind m k) h n h1.
Proof.
  induction 1 as [t n k' h E|t t' h n h' E _ IH|t c k' h n h' E _ IH].
  - eapply exits_now. by rewrite observe_bind_, E.
  - eapply exits_tau; [by rewrite observe_bind_, E|exact IH].
  - eapply exits_sys; [by rewrite observe_bind_, E|exact IH].
Qed.

Lemma observe_iter_ {I R} (body : I -> prog (I + R)) i :
  observe (ITree.iter body i) =
  observe (ITree.bind (body i) (fun x => match x with inl j => Tau (ITree.iter body j) | inr r => Ret r end)).
Proof. reflexivity. Qed.

Lemma gives_again {I R} (body : I -> prog (I + R)) i h j h1 r h2 :
  gives (body i) h (inl j) h1 -> gives (ITree.iter body j) h1 r h2 -> gives (ITree.iter body i) h r h2.
Proof.
  intros H1 H2. eapply gives_same; [symmetry; apply observe_iter_|]. eapply gives_bind; [exact H1|]. by eapply gives_tau.
Qed.

Lemma gives_break {I R} (body : I -> prog (I + R)) i h r h1 : gives (body i) h (inr r) h1 -> gives (ITree.iter body i) h r h1.
Proof. intros H. eapply gives_same; [symmetry; apply observe_iter_|]. eapply gives_bind; [exact H|]. apply gives_value. Qed.

Lemma exits_again {I R} (body : I -> prog (I + R)) i h j h1 n h2 :
  gives (body i) h (inl j) h1 -> exits (ITree.iter body j) h1 n h2 -> exits (ITree.iter body i) h n h2.
Proof.
  intros H1 H2. eapply exits_same; [symmetry; apply observe_iter_|]. eapply exits_after; [exact H1|]. by eapply exits_tau.
Qed.

Lemma exits_body {I R} (body : I -> prog (I + R)) i h n h1 : exits (body i) h n h1 -> exits (ITree.iter body i) h n h1.
Proof. intros H. eapply exits_same; [symmetry; apply observe_iter_|]. by apply exits_bind. Qed.

Lemma gives_call c h : gives (sys c) h (env h c) (did h c).
Proof. eapply gives_sys; [reflexivity|]. apply gives_value. Qed.

Lemma gives_do c h : gives (do_ c) h tt (did h c).
Proof. eapply gives_bind; [apply gives_call|apply gives_value]. Qed.

Lemma exits_exit {A} n h : exits (exit_ n : prog A) h n h.
Proof. apply exits_bind. by eapply exits_now. Qed.

(** Writing characters one by one. *)
Fixpoint wrote (h : history) (fd : Z) (l : list Z) : history :=
  match l with [] => h | c :: l' => wrote (did h (Write fd [byte.of_Z c])) fd l' end.

Lemma gives_puts fd l : forall h, gives (puts fd l) h tt (wrote h fd l).
Proof.
  induction l as [|c l IH]; intros h; cbn [puts wrote]; [apply gives_value|]. eapply gives_bind; [apply gives_call|]. apply IH.
Qed.

Lemma gives_printf fmt args h : gives (printf_ fmt args) h tt (wrote h 1 (formatted fmt args)).
Proof. apply gives_puts. Qed.

Lemma gives_read fd buf n h : gives (read_into fd buf n) h (fst (env h (Read fd n)), list_inserts 0 (snd (env h (Read fd n))) buf) (did h (Read fd n)).
Proof. eapply gives_bind; [apply gives_call|apply gives_value]. Qed.

(** The programs that fail say so and exit. *)
Lemma exits_saying {A} fmt args n h : exits (let! _ := printf_ fmt args in exit_ n : prog A) h n (wrote h 1 (formatted fmt args)).
Proof. eapply exits_after; [apply gives_printf|apply exits_exit]. Qed.

(** ** Reading a file to its end

    The reads from [fd] return the pieces, then [n]; the kernel stores what it
    says it stored. *)
Inductive session (fd : Z) (between : history -> list byte -> history) : history -> list (list byte) -> Z -> history -> Prop :=
| session_end h n : fst (env h (Read fd 512)) = n -> n <= 0 -> session fd between h [] n (did h (Read fd 512))
| session_piece h r rs n h' :
    env h (Read fd 512) = (Z.of_nat (length r), r) -> (0 < length r <= 512)%nat ->
    session fd between (between (did h (Read fd 512)) r) rs n h' -> session fd between h (r :: rs) n h'.

Lemma filled (r buf : list byte) : (length r <= length buf)%nat -> take (Z.to_nat (Z.of_nat (length r))) (list_inserts 0 r buf) = r.
Proof.
  intros H. rewrite Nat2Z.id. apply list_eq. intros i. destruct (decide (i < length r)%nat).
  - rewrite lookup_take_lt by done. rewrite list_lookup_inserts by lia. f_equal. lia.
  - rewrite lookup_take_ge, lookup_ge_None_2 by lia. done.
Qed.

(** ** wc *)

(** The maximal runs of characters that are not blank; [cur] is the run so
    far. *)
Definition flush_run (cur : list byte) : list (list byte) := match cur with [] => [] | _ => [cur] end.
Fixpoint fields (cur l : list byte) : list (list byte) :=
  match l with
  | [] => flush_run cur
  | c :: l' => if is_blank c then flush_run cur ++ fields [] l' else fields (cur ++ [c]) l'
  end.
Definition newlines (l : list byte) : list byte := List.filter (fun c => Byte.eqb c Byte.x0a) l.

(** Whether a run is open at the end. *)
Definition open_run (cur l : list byte) : bool := foldl (fun _ c => negb (is_blank c)) (match cur with [] => false | _ => true end) l.

Lemma fields_snoc c l : forall cur, length (fields cur (l ++ [c])) =
  (length (fields cur l) + (if is_blank c then 0 else if open_run cur l then 0 else 1))%nat.
Proof.
  induction l as [|d l IH]; intros cur; cbn [app fields].
  - destruct (is_blank c); [rewrite length_app; cbn; lia|]. destruct cur; done.
  - destruct (is_blank d) eqn:Ed; [rewrite !length_app, IH|rewrite IH]; unfold open_run; cbn [foldl]; rewrite Ed; cbn [negb].
    + lia.
    + by destruct cur.
Qed.

Lemma open_run_snoc c l cur : open_run cur (l ++ [c]) = negb (is_blank c).
Proof. unfold open_run. by rewrite foldl_app. Qed.

Lemma fields_short l : forall cur, (length (fields cur l) <= length l + length cur)%nat.
Proof.
  induction l as [|d l IH]; intros cur; cbn [fields length].
  - destruct cur; cbn; lia.
  - destruct (is_blank d).
    + rewrite length_app. specialize (IH []). cbn [length] in IH. destruct cur; cbn; lia.
    + specialize (IH (cur ++ [d])). rewrite length_app in IH. cbn in IH. lia.
Qed.

Definition counts_of (l : list byte) : counts :=
  mk_counts (Z.of_nat (length (newlines l))) (Z.of_nat (length (fields [] l))) (Z.of_nat (length l)) (open_run [] l).

Lemma newlines_snoc l c : length (newlines (l ++ [c])) = (length (newlines l) + if Byte.eqb c Byte.x0a then 1 else 0)%nat.
Proof. unfold newlines. rewrite List.filter_app, length_app. cbn. by destruct (Byte.eqb c Byte.x0a). Qed.

Lemma newlines_short l : (length (newlines l) <= length l)%nat.
Proof. apply List.filter_length_le. Qed.

Lemma count_char_snoc l c : Z.of_nat (length (l ++ [c])) < 2 ^ 31 -> count_char (counts_of l) c = counts_of (l ++ [c]).
Proof.
  rewrite length_app. cbn [length]. intros H. pose proof (newlines_short l). pose proof (fields_short l []). cbn [length] in *.
  unfold count_char, counts_of. cbn [lines words bytes inword]. rewrite newlines_snoc, fields_snoc, open_run_snoc, length_app.
  rewrite !s32_small by lia. cbn [length].
  destruct (is_blank c), (Byte.eqb c Byte.x0a), (open_run [] l); cbn [negb]; f_equal; lia.
Qed.

Lemma count_chars l : forall p, Z.of_nat (length (p ++ l)) < 2 ^ 31 -> foldl count_char (counts_of p) l = counts_of (p ++ l).
Proof.
  induction l as [|c l IH]; intros p H; cbn [foldl]; [by rewrite app_nil_r|].
  replace (p ++ c :: l) with ((p ++ [c]) ++ l) in * by (by rewrite <- app_assoc).
  rewrite count_char_snoc; [by apply IH|]. rewrite length_app in H. lia.
Qed.

Lemma wc_reads fd h reads n h' : session fd (fun h _ => h) h reads n h' -> forall p buf, length buf = 512%nat ->
  Z.of_nat (length (p ++ concat reads)) < 2 ^ 31 -> exists buf', length buf' = 512%nat /\
  gives (ITree.iter (fun st : counts * list byte =>
    let '(k, buf) := st in
    let! r := read_into fd buf 512 in
    let '(n, buf) := r in
    if n >? 0 then Ret (inl (foldl count_char k (take (Z.to_nat n) buf), buf))
    else Ret (inr (n, k, buf))) (counts_of p, buf)) h (n, counts_of (p ++ concat reads), buf') h'.
Proof.
  induction 1 as [h n E Hn|h r rs n h' E Hr _ IH]; intros p buf Hb Hlen.
  - eexists. split; [|apply gives_break; eapply gives_bind; [apply gives_read|]]; [by rewrite length_inserts|].
    cbn beta iota. rewrite E, Z.gtb_ltb, (proj2 (Z.ltb_ge 0 n)) by lia. cbn [concat]. rewrite app_nil_r. apply gives_value.
  - cbn [concat] in Hlen. rewrite app_assoc in Hlen.
    destruct (IH (p ++ r) (list_inserts 0 r buf)) as (buf' & Hb' & Hg); [by rewrite length_inserts|done|].
    exists buf'. split; [done|]. cbn [concat]. rewrite app_assoc. eapply gives_again; [|exact Hg].
    eapply gives_bind; [apply gives_read|]. cbn beta iota. rewrite E. cbn [fst snd]. rewrite Z.gtb_ltb, (proj2 (Z.ltb_lt 0 _)) by lia.
    rewrite filled by lia. rewrite count_chars; [apply gives_value|]. rewrite length_app in Hlen. lia.
Qed.

End Run.

(** [C38] However the kernel splits the file into reads, wc prints the number
    of newlines, of maximal runs of non-blank characters and of bytes of the
    whole file (runs that a read boundary cuts are counted once), and returns;
    when a read fails it prints the error and exits with status 1. *)
Theorem wc_counts (env : history -> call -> answer) (fd : Z) (name buf : list byte) (h hend : history) (reads : list (list byte)) (n : Z)
  (Hbuf : length buf = 512%nat) (Hreads : session env fd (fun h _ => h) h reads n hend)
  (Hsize : Z.of_nat (length (concat reads)) < 2 ^ 31) :
  let text := concat reads in
  (n = 0 -> exists buf', gives env (wc fd name buf) h buf'
     (wrote env hend 1 (formatted ("%d %d %d %s" +:+ newline)
        [PInt (Z.of_nat (length (newlines text))); PInt (Z.of_nat (length (fields [] text))); PInt (Z.of_nat (length text)); PStr name]))) /\
  (n < 0 -> exits env (wc fd name buf) h 1 (wrote env hend 1 (formatted ("wc: read error" +:+ newline) []))).
Proof.
  destruct (wc_reads env fd h reads n hend Hreads [] buf Hbuf Hsize) as (buf' & _ & Hg). cbn [app] in Hg. split; intros Hn.
  - exists buf'. eapply gives_bind; [exact Hg|]. cbn beta iota. rewrite Hn. cbn [Z.ltb Z.compare].
    eapply gives_bind; [apply gives_printf|]. apply gives_value.
  - eapply exits_after; [exact Hg|]. cbn beta iota. rewrite (proj2 (Z.ltb_lt n 0)) by done. apply exits_saying.
Qed.

(** Two reads, with a word across their boundary. *)
Definition two_pieces : list (list byte) := [chars "one tw"; chars ("o three" +:+ newline)].
Definition piece_env (h : history) (c : call) : answer :=
  match c with
  | Read _ _ => match nth (length h) two_pieces [] with [] => (0, []) | r => (Z.of_nat (length r), r) end
  | Write _ l => (Z.of_nat (length l), [])
  | _ => (0, [])
  end.

Lemma wc_counts_witness : exists buf', gives piece_env (wc 3 (chars "f") (zeros 512)) [] buf'
  (wrote piece_env (did piece_env (did piece_env (did piece_env [] (Read 3 512)) (Read 3 512)) (Read 3 512)) 1 (codes ("1 3 14 f" +:+ newline))).
Proof.
  refine (proj1 (wc_counts piece_env 3 (chars "f") (zeros 512) [] _ two_pieces 0 eq_refl _ _) eq_refl); [|vm_compute; reflexivity].
  apply session_piece; [reflexivity|vm_compute; lia|]. apply session_piece; [reflexivity|vm_compute; lia|]. apply session_end; [reflexivity|lia].
Defined.

(** ** cat *)

(** The bytes written to a descriptor. *)
Definition written_to (fd : Z) (h : history) : list byte :=
  concat (map (fun x => match fst x with Write fd' l => if fd' =? fd then l else [] | _ => [] end) h).

Lemma written_did env fd h c : written_to fd (did env h c) = written_to fd h ++ written_to fd [(c, env h c)].
Proof. unfold written_to, did. by rewrite map_app, concat_app. Qed.

(** cat copies the file to its standard output, however it is split into
    reads, as long as the kernel takes what it writes. *)
Lemma cat_copies env fd h reads n h' : session env fd (fun h r => did env h (Write 1 r)) h reads n h' ->
  (forall h l, fst (env h (Write 1 l)) = Z.of_nat (length l)) -> forall buf, length buf = 512%nat ->
  written_to 1 h' = written_to 1 h ++ concat reads /\
  (n = 0 -> exists buf', gives env (cat fd buf) h buf' h') /\
  (n < 0 -> exits env (cat fd buf) h 1 (wrote env h' 1 (formatted ("cat: read error" +:+ newline) []))).
Proof.
  intros Hs Hw. induction Hs as [h n E Hn|h r rs n h' E Hr _ IH]; intros buf Hb.
  - split; [by rewrite written_did|]. split; intros Hn0.
    + eexists. apply gives_break. eapply gives_bind; [apply gives_read|]. cbn beta iota. rewrite E, Hn0. apply gives_value.
    + apply exits_body. eapply exits_after; [apply gives_read|]. cbn beta iota. rewrite E, Z.gtb_ltb, (proj2 (Z.ltb_ge 0 n)), (proj2 (Z.ltb_lt n 0)) by lia.
      apply exits_saying.
  - destruct (IH (list_inserts 0 r buf)) as (H1 & H2 & H3); [by rewrite length_inserts|]. split; [|split].
    + rewrite H1, !written_did. unfold written_to at 2 3. cbn. by rewrite !app_nil_r, <- app_assoc.
    + intros Hn0. destruct (H2 Hn0) as [buf' Hg]. exists buf'. eapply gives_again; [|exact Hg].
      eapply gives_bind; [apply gives_read|]. cbn beta iota. rewrite E. cbn [fst snd]. rewrite Z.gtb_ltb, (proj2 (Z.ltb_lt 0 (Z.of_nat (length r)))) by lia.
      rewrite filled by lia. eapply gives_bind; [apply gives_call|]. cbn beta. rewrite Hw, Z.eqb_refl. apply gives_value.
    + intros Hn0. eapply exits_again; [|exact (H3 Hn0)].
      eapply gives_bind; [apply gives_read|]. cbn beta iota. rewrite E. cbn [fst snd]. rewrite Z.gtb_ltb, (proj2 (Z.ltb_lt 0 (Z.of_nat (length r)))) by lia.
      rewrite filled by lia. eapply gives_bind; [apply gives_call|]. cbn beta. rewrite Hw, Z.eqb_refl. apply gives_value.
Qed.

(** ** fibi *)

Fixpoint fib (n : nat) : Z := match n with O => 0 | S m => match m with O => 1 | S k => fib m + fib k end end.

Lemma s32_add a b : s32 (s32 a + s32 b) = s32 (a + b).
Proof.
  unfold s32. change (2 ^ 32) with 4294967296. change (2 ^ 31) with 2147483648.
  pose proof (Z.div_mod (a + 2147483648) 4294967296 ltac:(lia)). pose proof (Z.div_mod (b + 2147483648) 4294967296 ltac:(lia)).
  set (x := (a + 2147483648) mod 4294967296) in *. set (y := (b + 2147483648) mod 4294967296) in *.
  replace (x - 2147483648 + (y - 2147483648) + 2147483648)
    with (a + b + 2147483648 + (- ((a + 2147483648) / 4294967296) - (b + 2147483648) / 4294967296) * 4294967296) by lia.
  by rewrite Z.mod_add by lia.
Qed.

Lemma fib_loop_fib left : forall k, fib_loop left (s32 (fib k)) (s32 (fib (S k))) = s32 (fib (S k + left)).
Proof.
  induction left as [|left IH]; intros k; cbn [fib_loop]; [by rewrite Nat.add_0_r|].
  rewrite s32_add. replace (fib k + fib (S k)) with (fib (S (S k))) by (cbn; lia). rewrite IH. f_equal. f_equal. lia.
Qed.

(** The Fibonacci numbers, reduced to the width of an int. *)
Lemma fib_iter_fib n : 0 <= n -> fib_iter_c n = s32 (fib (Z.to_nat n)).
Proof.
  intros Hn. unfold fib_iter_c. destruct (Z.eqb_spec n 0) as [->|]; [done|].
  change 0 with (s32 (fib 0)). change 1 with (s32 (fib 1)) at 2. rewrite fib_loop_fib. do 2 f_equal. lia.
Qed.

(** ** ls *)

Lemma after_slash_spec rp : forall found, exists pre, rev rp ++ found = pre ++ after_slash rp found /\
  (forall c, In c (after_slash rp found) -> In c found \/ Byte.eqb c c_slash = false) /\ (pre = [] \/ exists pre', pre = pre' ++ [c_slash]).
Proof.
  induction rp as [|c rp IH]; intros found; cbn [after_slash rev].
  - exists []. split; [done|]. split; [by left|by left].
  - destruct (Byte.eqb c c_slash) eqn:E.
    + exists (rev rp ++ [c]). split; [done|]. split; [by left|]. right. exists (rev rp). f_equal. f_equal. by apply Byte.byte_dec_bl.
    + destruct (IH (c :: found)) as (pre & H1 & H2 & H3). exists pre. rewrite <- app_assoc. split; [done|]. split; [|done].
      intros d Hd. destruct (H2 d Hd) as [[->|Hin]|Hin]; auto.
Qed.

(** [fmtname] is the last component of the path, padded with blanks to the
    length of a directory entry's name. *)
Lemma fmtname_spec path : exists pre name, path = pre ++ name /\ (forall c, In c name -> Byte.eqb c c_slash = false) /\
  (pre = [] \/ exists pre', pre = pre' ++ [c_slash]) /\ fmtname path = name ++ replicate (LS_DIRSIZ - length name) Byte.x20.
Proof.
  destruct (after_slash_spec (rev path) []) as (pre & H1 & H2 & H3). rewrite rev_involutive, app_nil_r in H1.
  exists pre, (after_slash (rev path) []). split; [done|]. split; [intros c Hc; by destruct (H2 c Hc)|]. split; [done|].
  unfold fmtname. destruct (Nat.leb_spec LS_DIRSIZ (length (after_slash (rev path) []))); [|done].
  replace (LS_DIRSIZ - _)%nat with 0%nat by lia. by rewrite app_nil_r.
Qed.

(** ** init *)

Section Survives.

Context (env : history -> call -> answer).

(** After [n] steps the program has not exited, and if it has returned, [Q]
    holds of the result. *)
Definition going {A} (Q : A -> Prop) (n : nat) (t : prog A) (h : history) : Prop :=
  match fst (run env n t h) with Running => True | Returned a => Q a | Exited _ => False end.

Lemma going_ret {A} (Q : A -> Prop) n a h : Q a -> going Q n (Ret a) h.
Proof. by destruct n. Qed.

Lemma going_bind {A B} (P : A -> Prop) (Q : B -> Prop) n : forall (m : prog A) (k : A -> prog B) h, going P n m h ->
  (forall a h' n', P a -> going Q n' (k a) h') -> going Q n (ITree.bind m k) h.
Proof.
  induction n as [|n IH]; intros m k h Hm Hk; [done|]. unfold going in Hm |- *. cbn [run] in *. rewrite observe_bind_. destruct (observe m) as [a|t|X e k'].
  - exact (Hk a h (S n) Hm).
  - by apply IH.
  - destruct e as [c|z]; [|done]. by apply IH.
Qed.

(** A call is answered by the kernel. *)
Lemma going_sys {B} (Q : B -> Prop) n c (k : answer -> prog B) h :
  (forall n', going Q n' (k (env h c)) (did env h c)) -> going Q n (ITree.bind (sys c) k) h.
Proof. intros H. destruct n as [|[|n]]; [done|done|]. exact (H (S n)). Qed.

Lemma going_do n c h : going (fun _ => True) n (do_ c) h.
Proof. apply going_sys. intros. by apply going_ret. Qed.

Lemma going_puts fd l : forall n h, going (fun _ => True) n (puts fd l) h.
Proof. induction l as [|c l IH]; intros n h; [by apply going_ret|]. apply going_sys. intros. apply IH. Qed.

Lemma going_iter {I R} (Q : R -> Prop) (body : I -> prog (I + R)) n : forall i h,
  (forall i h n, going (fun x => match x with inl _ => True | inr r => Q r end) n (body i) h) -> going Q n (ITree.iter body i) h.
Proof.
  induction n as [n IH] using lt_wf_ind. intros i h Hb. destruct n as [|n]; [done|]. unfold going. cbn [run].
  rewrite observe_iter_, observe_bind_. pose proof (Hb i h (S n)) as H. unfold going in H. cbn [run] in H.
  assert (forall m h, going (fun x => match x with inl _ => True | inr r => Q r end) n m h ->
    going Q n (ITree.bind m (fun x => match x with inl j => Tau (ITree.iter body j) | inr r => Ret r end)) h) as Hk.
  { intros m h' Hm. clear H. revert m h' Hm. assert (n <= n)%nat as Hle by lia. revert Hle. generalize n at 1 3 4. intros n1.
    induction n1 as [|n1 IH1]; intros Hle m h' Hm; [done|]. unfold going in Hm |- *. cbn [run] in *. rewrite observe_bind_.
    destruct (observe m) as [[j|r]|t|X e k'].
    - cbn. apply IH; [lia|done].
    - exact Hm.
    - apply IH1; [lia|done].
    - destruct e as [c|z]; [|done]. apply IH1; [lia|done]. }
  destruct (observe (body i)) as [[j|r]|t|X e k'].
  - apply IH; [lia|done].
  - exact H.
  - by apply Hk.
  - destruct e as [c|z]; [|done]. by apply Hk.
Qed.

Lemma wait_for_going pid n h : going (fun _ => True) n (wait_for pid) h.
Proof. apply going_iter. intros [] h0 n0. apply going_sys. intros n'. destruct (_ && _); by apply going_ret. Qed.

Lemma create_vcs_going n h : going (fun _ => True) n create_vcs h.
Proof.
  unfold create_vcs. generalize 9%nat, 0. intros left. revert n h. induction left as [|left IH]; intros n h i; [by apply going_ret|].
  apply going_sys. intros n'. apply (going_bind (fun _ => True)); [destruct (_ <? 0); apply going_do|]. intros. apply IH.
Qed.

(** As long as [fork] succeeds init neither exits nor returns, whatever else
    the kernel answers: it starts a shell again and again. *)
Lemma init_survives n : (forall h, fst (env h Fork) > 0) -> going (fun _ => False) n init_main [].
Proof.
  intros Hf. apply going_sys. intros n1. apply (going_bind (fun _ => True)).
  { destruct (_ <? 0); [|by apply going_ret]. apply (going_bind (fun _ => True)); [apply going_do|]. intros. apply going_do. }
  intros _ h1 n2 _. do 2 (apply (going_bind (fun _ => True)); [apply going_do|intros _ ? ? _]).
  apply (going_bind (fun _ => True)); [apply create_vcs_going|]. intros _ h4 n5 _.
  apply going_iter. intros [] h5 n6. apply (going_bind (fun _ => True)); [apply going_puts|]. intros _ h6 n7 _. apply going_sys. intros n8.
  specialize (Hf h6). cbn zeta. rewrite (proj2 (Z.ltb_ge _ 0)), (proj2 (Z.eqb_neq _ 0)) by lia.
  apply (going_bind (fun _ => True)); [apply wait_for_going|]. intros. by apply going_ret.
Qed.

End Survives.
